(* ===== verification/_CoqProject ===== *)
-Q . S2P
Prelude.v
PagemapImage.v
PageRead.v
Dedup.v
AsyncQueue.v
ProcessReads.v
ReadPages.v
ChainRead.v
DecompressQueue.v
DecompressPool.v
DecompressJobs.v
ParentWalk.v
Compress.v
RangeQuery.v
ReadOps.v
AsyncRead.v
ShmemRestore.v
PagePipe.v
PageXfer.v
PageServer.v
PageSession.v
RemotePages.v
PipeDrain.v
PageSelect.v
VmaList.v
CowVmas.v
Premap.v
VmaHint.v
MemRestore.v
Shmem.v
Restorer.v
VmaIo.v
VmaAio.v
RestoreMem.v
MemDump.v
RoundTrip.v
ShmemDump.v
DumpRead.v
LazyIovs.v
LazyPages.v
LazyCollect.v
