(* ===== verification/Prelude.v ===== *)
(** * The memory images of CRIU

    CRIU dumps the memory of processes into image files and restores it from
    them.  This library models that part of it, from the page pipe a dump fills
    to the bytes a restored process gets back, and proves that the parts work
    and fit together.  The sources are under src/criu; the names of the
    definitions are those of the C functions and fields.

    ** The program's parts and the files that model them

    A _dump_ lists the memory areas of a process, selects the pages that have
    contents of their own, collects them in a page pipe and writes them to
    two images: the pagemap (which addresses, with which flags, compressed into
    blocks of which sizes) and the pages image (the payload), either its own or
    those of a page server on another machine.  Snapshots form
    chains: a pagemap may defer pages to its parent.  A _restore_ opens a
    reader on each snapshot of the chain, maps the areas, some of them taken
    over from the parent process to share pages with it, and asks for pages by
    address, at once or through a queue of asynchronous jobs; shared segments
    have images of their own, and one process restores each; a _lazy_ restore answers page
    faults instead, with pages from images or from the dump's machine.

    - [Prelude]: machine integers, the outcome type, lists, automation.
    - [PagemapImage]: the pagemap image (images/pagemap.proto, pagemap.h) and
      its validation when it is read ([init_pagemaps] and the [validate_*]
      functions of pagemap.c).
    - [PageRead]: the reader's state ([struct page_read]) and its cursor
      ([advance], [skip_pagemap_pages], [seek_pagemap], [reset_pagemap]).
    - [Dedup]: releasing ranges of an image ([punch_hole] and its bunches).
    - [AsyncQueue]: the queue of asynchronous jobs ([pagemap_enqueue_iovec],
      [enqueue_async_iov], compressed jobs, rollback) and the preadv loop.
    - [ProcessReads]: draining the queues of a chain ([process_async_reads]).
    - [ReadPages]: synchronous reads of compressed entries, with the block cache
      ([read_compressed_pages], [decompress_block] of compression.c).
    - [ChainRead]: reading through a chain ([read_pagemap_page],
      [read_parent_page], [read_local_page]); what the readers need of the
      queues is the class [Sync] with its laws, which the queues discharge.
    - [ParentWalk]: walks over the parents: [check_pagehole_in_parent]
      (page-xfer.c), [dedup_one_iovec] (pagemap.c), [cr_dedup_one_pagemap]
      (cr-dedup.c).
    - [Compress]: encoding one block ([compress_block], [page_is_all_zero]).
    - [DecompressQueue], [DecompressPool], [DecompressJobs]: the decompression threads
      (compression.c): the lock-free queue of jobs, the pool of workers with its
      lock and conditions, and the call that runs a batch on it, with the budget of
      threads that the processes of a restore share.
    - [RangeQuery]: what is in a range ([page_read_range_has_parent],
      [page_read_range_has_lz4], [page_read_range_needs_decode]).
    - [ReadOps]: the reader as its clients see it: the classes [PageOps]
      ([read_pages] and [sync] of [struct page_read]) and [PageOpsOk], their
      promises, and walks over a pagemap.
    - [AsyncRead]: the readers of a chain, with their queues, keep these
      promises ([read_pagemap_page] with PR_ASYNC and [process_async_reads]).
    - [PageSelect]: which pages of a process are dumped: the cache of page
      attributes (pagemap-cache.c) and [generate_iovs] with what it calls
      (mem.c).
    - [VmaList]: the list of memory areas with the guard entries
      ([collect_mappings], [vma_list_add], [collect_madv_guards]).
    - [PagePipe], [PipeDrain]: the page pipe (page-pipe.c), and how the parasite
      fills its pipes ([drain_pages], [dump_pages]).
    - [MemDump]: the dump of the private memory of a process
      ([generate_vma_iovs], [__parasite_dump_pages_seized] of mem.c).
    - [RoundTrip]: the composition of [MemDump] and [RestoreMem]: from the memory
      of the dumped process to that of the restored one.
    - [Shmem], [ShmemDump], [ShmemRestore]: shared memory segments (shmem.c):
      the table of segments and who restores them, the dump of their contents,
      the restore of their contents.
    - [CowVmas], [Premap], [MemRestore]: the restore of the private memory of a
      process (mem.c): which areas are shared with the parent
      ([prepare_cow_vmas]), where areas are mapped ([premap_priv_vmas]), and how
      pages get into them ([restore_priv_vma_content], [prepare_mappings]).
    - [VmaHint], [Restorer]: the last stage of a restore, in the address space of
      the process (pie/restorer.c): where the restorer is put
      ([restorer_get_vma_hint] of cr-restore.c), and how it clears the address
      space, moves the premapped areas to their addresses and maps the others
      ([unmap_old_vmas], [vma_remap], [restore_mapping]).
    - [VmaIo], [VmaAio]: the jobs left to that stage: handing them over
      ([pagemap_render_iovec]) and reading them in order
      ([restore_vma_preadv_mixed]) or with Linux AIO ([restore_vma_aio]).
    - [RestoreMem]: the composition of all these: from [prepare_mappings] over
      [prepare_vmas] to the end of the last stage.
    - [PageXfer]: writing a page pipe (page-xfer.c): [page_xfer_dump_pages] over
      the class [transport] (the function pointers of [struct page_xfer]), and
      its instance for local images down to write() and splice().
    - [PageServer]: the page-server protocol (page-xfer.c): the wire format, the
      client's instance of [transport], and the server's command loop.
    - [PageSession]: a dump through a page server, both sides together.
    - [RemotePages]: reading pages from a lazy page server, blocking or queued.
    - [DumpRead]: the composition of the writer and the reader.
    - [LazyIovs], [LazyPages], [LazyCollect]: the lazy-pages daemon (uffd.c):
      its lists of ranges, its handlers, and how it finds the lazy pages.

    ** How the code is modelled

    A C structure is a record, a list or array a list, a w-bit integer a [Z]
    with its conversions written out ([u64], [s32], ...), a byte a [Z].  A C
    function is a function from the state to its result and the new state.  The
    outcomes of calls that can fail (allocation, read(), write(), splice(),
    ioctl(), ...) are arguments: lists of the answers to come, or a record of
    such lists, so that a statement for all of them covers every failure at
    every point.  [outcome] adds BUG() and the exhaustion of a loop bound to the
    results.  Loops that are not structural take fuel; the bound is computed
    from the input (the length of a list, the bytes left, the answers left), and
    every theorem about such a function states that it returns, which is that
    the bound suffices.

    LZ4 is outside the sources: the compressor and the decompressor are
    parameters, with the contract that decompressing gives back what was
    compressed ([lz4_contract]), instantiated by an example codec in the
    witnesses.  The kernel's side of page attributes is the record [kernel],
    with the documented behaviour of PAGEMAP_SCAN as the hypothesis [scan_ok],
    instantiated by [page_scan].  What a new mapping of an area holds (zeroes, or
    the pages of its file) is the parameter [fresh] of the restore.  Where the
    kernel puts a mapping is the parameter [place] of the last stage, with the
    hypothesis that it is free ([place_ok]), instantiated by [first_fit]; in which
    order and how far it completes AIO requests are the parameters [submit] and
    [getevents], with the documented bounds ([aio_kernel_ok]).  The page reader's [read_pages] pointer is a parameter of the
    lazy-pages daemon, which needs of it only that it keeps the pagemaps.

    ** What the theorems show

    - A pagemap that is accepted is well formed (C1), and every well-formed one
      is accepted ([init_pagemaps_complete]): all later theorems start from such
      pagemaps.
    - The cursor finds a page, and its place in the pages image, if and only if
      the image has it ([seek_pagemap_correct]).
    - Asynchronous requests are all or nothing, are queued as exactly the
      transfers they stand for ([pagemap_enqueue_iovec_exact], C6), and are carried
      out completely ([process_async_reads_correct]).
    - Reads give the stored bytes, also through a chain, whether they are done at
      once (C19) or queued (C16).
    - The list of areas holds what the kernel shows (C10); a page pipe holds the
      pages put into it (C12); the dump of the memory of a process, and of a
      shared segment, stores every selected page with its bytes (C8, C15).
    - Each shared segment has one process that restores it (C4); the restore of a
      segment puts every page in its place (C21).
    - Areas of a child are paired with the parent's areas they may share pages
      with (C13), and the restore of the private memory of a process gives it
      exactly the pages of its image over the pages of new mappings, whatever
      the parent left there (C14).  This is proved for any reader that keeps the
      promises of [PageOpsOk], and stated for the chain of snapshots.
    - The restorer is put at the lowest free place (C20).  It brings every area to
      its address with its pages, although sources and targets overlap, and
      leaves nothing else (C2); the pages left to it arrive, each in its place,
      read in order (C18) or with AIO in any order of completion (C11).  All
      stages together give the process exactly the private memory that the
      images describe (C9), and, composed with the dump, the bytes it had when
      it was dumped (C5).
    - Decompression threads: in every interleaving, with relaxed loads and spurious
      wake-ups, no BUG_ON is reached, each batch comes to what its jobs come to one
      after the other, failures included, and no worker touches a batch after its end
      (C17); the pool never blocks for good (C7); and the call that uses it gives
      back every thread of the shared budget (C3).  [queue_ok] holds for any number
      of threads at any places in the queue; [pool_work] is the measure that
      bounds how long a batch can take.
    - Deduplication releases exactly what is stored anew (C22).
    - Blocks survive compression (C23), a dump stores what the pipe holds (C24),
      and a reader gives back what was dumped (C25).
    - The daemon's lists are changed exactly as asked (C26, C27); faults are
      served from the right place (C28); under any interleaving of faults,
      transfers and completions nothing is lost or copied twice (C29); unmapped
      ranges, forks and the initial collection are exact (C30-C32).
    - The wire format loses nothing (C33); a receiving page server survives any
      bytes but two kinds of frames and leaves only consistent images (C34); a
      dump through it stores what a local dump stores (C35).
    - A remote read gets the pages it asked for from the memory of the dumped
      process (C36), and queued reads finish in order, each with the reply to
      its own request (C37).
    - The page pipe gets exactly the pages of a VMA that have contents of their
      own, unchanged ones as holes (C38), whether the kernel is asked through
      PAGEMAP_SCAN or /proc/pid/pagemap (C39), and the cache in between stays
      within its buffer (C40).

    Each property with hypotheses has a witness: the theorem applied to a
    concrete input.  Some lemmas show where the code does not do what it means
    to: [page_pipe_read_mismatch_reports_success], [dedup_punches_next_payload],
    [unmap_misses_request], [unmap_misses_large_range],
    [unmap_head_strands_request], [get_crashes_receiver],
    [unopened_id_crashes_receiver], [plain_page_blocks], [sync_read_spins],
    [is_stack_ignores_page], [swapped_page_taken_for_zero],
    [tracking_marks_wrong_page], [tracking_part_of_segment_crashes],
    [sysv_without_start], [shmem_seek_error_lost], [shmem_iovs_overflow],
    [cow_pair_missed], [cow_ignores_offset], [premap_empty_pagemap],
    [plugin_area_pair_crashes], [lazy_area_in_place_not_registered],
    [touching_regions_fail], [crossing_areas_stay], [shadow_stack_moved_twice],
    [hint_beyond_task_size].

    ** Not modelled

    Connections, TLS and socket options of the page server (a socket is the
    bytes sent over it), and the page pipes a standalone lazy server fills from
    images; the pre-dump that reads with process_vm_readv(); of the restorer
    what does not concern the contents of memory (vdso, AIO rings, protection,
    threads, signals), and auto-dedup while pages
    are read through queues; the lines of smaps; the streamer's
    sequential reader; reading ahead of the decompression (encoded prefetch) and
    the leases of encoded buffers; O_DIRECT negotiation
    beyond the splice fallback; the process-wide parts of
    dump and restore (tasks, files, mounts, sockets, namespaces, cgroups), which
    are mostly system calls in sequence.  They are listed, with the reasons, in
    the manifest of the development. *)
From Stdlib Require Export ZArith Lia.
From stdpp Require Export base tactics numbers option list.

#[global] Open Scope Z_scope.

(** ** Machine integers *)

(** Conversions of the C integer types the sources use on x86-64: [uN] is the
    value after conversion to an unsigned N-bit type, [s64] after conversion to
    a signed 64-bit type (gcc's modular rule, used when an [unsigned long] sum
    is stored back into an [off_t]). *)
Definition u16 (z : Z) : Z := z mod 2 ^ 16.
Definition u32 (z : Z) : Z := z mod 2 ^ 32.
Definition u64 (z : Z) : Z := z mod 2 ^ 64.
Definition s32 (z : Z) : Z := (z + 2 ^ 31) mod 2 ^ 32 - 2 ^ 31.
Definition s64 (z : Z) : Z := (z + 2 ^ 63) mod 2 ^ 64 - 2 ^ 63.

Definition UINT64_MAX : Z := 2 ^ 64 - 1.
Definition ULONG_MAX : Z := 2 ^ 64 - 1.
Definition SIZE_MAX : Z := 2 ^ 64 - 1.
Definition INT_MAX : Z := 2 ^ 31 - 1.
Definition OFF_MAX : Z := 2 ^ 63 - 1.
Definition OFF_MIN : Z := - 2 ^ 63.

Lemma u16_small z : 0 <= z < 2 ^ 16 -> u16 z = z.
Proof. apply Z.mod_small. Qed.
Lemma u32_small z : 0 <= z < 2 ^ 32 -> u32 z = z.
Proof. apply Z.mod_small. Qed.
Lemma u64_small z : 0 <= z < 2 ^ 64 -> u64 z = z.
Proof. apply Z.mod_small. Qed.
Lemma s64_small z : - 2 ^ 63 <= z < 2 ^ 63 -> s64 z = z.
Proof. intros. unfold s64. rewrite Z.mod_small; lia. Qed.
Lemma s32_small z : - 2 ^ 31 <= z < 2 ^ 31 -> s32 z = z.
Proof. intros. unfold s32. rewrite Z.mod_small; lia. Qed.

Lemma u64_range z : 0 <= u64 z < 2 ^ 64.
Proof. apply Z.mod_pos_bound. lia. Qed.
Lemma u32_range z : 0 <= u32 z < 2 ^ 32.
Proof. apply Z.mod_pos_bound. lia. Qed.

(** [msmall] discharges the side condition of the lemmas above with [lia] and
    removes the conversion, wherever the value already fits the type. *)
Ltac msmall :=
  repeat first
    [ rewrite u64_small in * by lia | rewrite u32_small in * by lia
    | rewrite s64_small in * by lia | rewrite u16_small in * by lia ].

(** ** Results of C functions *)

(** A call either returns, or runs into [BUG()]/[BUG_ON()] and aborts the
    process, or (in the model only) exhausts the iteration bound of a loop.
    Every theorem that says what a function returns rules the last two out. *)
Inductive outcome (A : Type) : Type :=
| Ret (a : A)
| Bug
| NoFuel.
Arguments Ret {A} a.
Arguments Bug {A}.
Arguments NoFuel {A}.

Definition obind {A B} (m : outcome A) (k : A -> outcome B) : outcome B :=
  match m with
  | Ret a => k a
  | Bug => Bug
  | NoFuel => NoFuel
  end.

Declare Scope criu_scope.
Delimit Scope criu_scope with criu.
Notation "'let!' x ':=' m 'in' k" := (obind m (fun x => k))
  (at level 10, x pattern, m at level 100, k at level 200) : criu_scope.
#[global] Open Scope criu_scope.

Lemma obind_ret {A B} (m : outcome A) (k : A -> outcome B) b :
  obind m k = Ret b <-> exists a, m = Ret a /\ k a = Ret b.
Proof. destruct m; simpl; naive_solver. Qed.

(** ** Pages *)

(** include/common/arch/x86/asm/page.h *)
Definition PAGE_SHIFT : Z := 12.
Definition PAGE_SIZE : Z := 4096.
Definition PAGE_MASK : Z := 2 ^ 64 - 4096.
(** include/common/compiler.h, on 64 bits. *)
Definition round_up (x y : Z) : Z := u64 (Z.lor (u64 (x - 1)) (y - 1) + 1).

(** struct iovec of sys/uio.h *)
Record iovec := Iovec { iov_base : Z; iov_len : Z }.

#[global] Instance iovec_eq_dec : EqDecision iovec.
Proof. solve_decision. Defined.

(** ** Sums of lists of integers *)
Definition zsum (l : list Z) : Z := foldr Z.add 0 l.

Lemma zsum_cons x l : zsum (x :: l) = x + zsum l.
Proof. done. Qed.
Lemma zsum_app l1 l2 : zsum (l1 ++ l2) = zsum l1 + zsum l2.
Proof. induction l1 as [|x l1 IH]; simpl; [done|]. rewrite IH. lia. Qed.
Lemma zsum_nonneg l : Forall (fun x => 0 <= x) l -> 0 <= zsum l.
Proof. induction 1; simpl; lia. Qed.
Lemma zsum_take_S l k x :
  l !! k = Some x -> zsum (take (S k) l) = zsum (take k l) + x.
Proof.
  intros H. rewrite (take_S_r _ _ _ H), zsum_app. simpl. lia.
Qed.
Lemma zsum_take_le l k :
  Forall (fun x => 0 <= x) l -> 0 <= zsum (take k l) <= zsum l.
Proof.
  intros H. split; [apply zsum_nonneg; by apply Forall_take|].
  rewrite <- (take_drop k l) at 2. rewrite zsum_app.
  pose proof (zsum_nonneg (drop k l) (Forall_drop _ _ _ H)). lia.
Qed.

(** ** Concatenations *)
Lemma elem_of_concat {A} (x : A) ls : x ∈ concat ls <-> exists l, l ∈ ls /\ x ∈ l.
Proof.
  induction ls as [|l ls IH]; simpl; [split; [intros []%not_elem_of_nil|intros (l & []%not_elem_of_nil & _)]|].
  rewrite elem_of_app, IH. setoid_rewrite elem_of_cons. naive_solver.
Qed.

(** ** Lookup by a C index *)

(** [l !!! z] of the sources with [z] a non-negative machine integer. *)
Definition zlookup {A} (l : list A) (z : Z) : option A :=
  if z <? 0 then None else l !! Z.to_nat z.

Definition zlen {A} (l : list A) : Z := Z.of_nat (length l).

Lemma zlen_nonneg {A} (l : list A) : 0 <= zlen l.
Proof. unfold zlen. lia. Qed.
Lemma zlen_app {A} (l1 l2 : list A) : zlen (l1 ++ l2) = zlen l1 + zlen l2.
Proof. unfold zlen. rewrite length_app. lia. Qed.
Lemma zlookup_of_nat {A} (l : list A) (k : nat) : zlookup l (Z.of_nat k) = l !! k.
Proof.
  unfold zlookup. destruct (Z.ltb_spec (Z.of_nat k) 0); [lia|]. by rewrite Nat2Z.id.
Qed.
Lemma zlookup_Some_range {A} (l : list A) z x :
  zlookup l z = Some x -> 0 <= z < zlen l.
Proof.
  unfold zlookup, zlen. destruct (Z.ltb_spec z 0); [done|].
  intros Hl%lookup_lt_Some. lia.
Qed.
Lemma zlookup_is_Some {A} (l : list A) z :
  0 <= z < zlen l -> exists x, zlookup l z = Some x.
Proof.
  unfold zlookup, zlen. destruct (Z.ltb_spec z 0); [lia|]. intros.
  apply lookup_lt_is_Some. lia.
Qed.

(** ** Alignment *)

Lemma land_lnot_ones z n :
  0 <= n -> Z.land z (Z.lnot (2 ^ n - 1)) = z - z mod 2 ^ n.
Proof.
  intros Hn. replace (2 ^ n - 1) with (Z.ones n) by (rewrite Z.ones_equiv; lia).
  rewrite <- Z.ldiff_land, Z.ldiff_ones_r, Z.shiftl_mul_pow2, Z.shiftr_div_pow2 by done.
  pose proof (Z.div_mod z (2 ^ n) ltac:(apply Z.pow_nonzero; lia)). lia.
Qed.

Lemma land_page_mask z : 0 <= z < 2 ^ 64 -> Z.land z PAGE_MASK = z - z mod PAGE_SIZE.
Proof.
  intros Hz. change PAGE_MASK with (Z.land (Z.ones 64) (Z.lnot (2 ^ 12 - 1))).
  rewrite Z.land_assoc, Z.land_ones, Z.mod_small by lia. by rewrite land_lnot_ones.
Qed.

Lemma lor_range a b n :
  0 <= n -> 0 <= a < 2 ^ n -> 0 <= b < 2 ^ n -> 0 <= Z.lor a b < 2 ^ n.
Proof.
  intros Hn Ha Hb. split; [apply Z.lor_nonneg; lia|].
  destruct (Z.eq_dec (Z.lor a b) 0) as [->|]; [lia|].
  apply Z.log2_lt_pow2; [pose proof (proj2 (Z.lor_nonneg a b)); lia|].
  rewrite Z.log2_lor by lia.
  destruct (Z.eq_dec a 0) as [->|]; destruct (Z.eq_dec b 0) as [->|]; try done.
  - change (Z.log2 0) with 0. apply Z.max_lub_lt; [|apply Z.log2_lt_pow2; lia].
    destruct (Z.eq_dec n 0) as [->|]; lia.
  - change (Z.log2 0) with 0. apply Z.max_lub_lt; [apply Z.log2_lt_pow2; lia|].
    destruct (Z.eq_dec n 0) as [->|]; lia.
  - apply Z.max_lub_lt; apply Z.log2_lt_pow2; lia.
Qed.

(** ** The pages of an iovec *)
Definition iov_pages (iov : iovec) : list Z :=
  (fun j => iov_base iov + j * PAGE_SIZE) <$> seqZ 0 (iov_len iov / PAGE_SIZE).

(** Whole pages below the end of the address space. *)
Definition iov_ok (iov : iovec) : Prop :=
  0 <= iov_base iov /\ 0 < iov_len iov /\ iov_len iov mod PAGE_SIZE = 0 /\
  iov_base iov + iov_len iov < 2 ^ 64.

Lemma length_iov_pages iov : 0 <= iov_len iov -> Z.of_nat (length (iov_pages iov)) = iov_len iov / PAGE_SIZE.
Proof.
  intros H. unfold iov_pages. rewrite length_fmap, length_seqZ, Z2Nat.id; [done|].
  unfold PAGE_SIZE. apply Z.div_pos; lia.
Qed.

Lemma iov_pages_app b l1 l2 : 0 <= l1 -> 0 <= l2 -> l1 mod PAGE_SIZE = 0 -> l2 mod PAGE_SIZE = 0 ->
  iov_pages (Iovec b (l1 + l2)) = iov_pages (Iovec b l1) ++ iov_pages (Iovec (b + l1) l2).
Proof.
  intros H1 H2 M1 M2. unfold iov_pages; simpl. unfold PAGE_SIZE in *.
  pose proof (Z.div_mod l1 4096 ltac:(lia)). pose proof (Z.div_mod l2 4096 ltac:(lia)).
  assert ((l1 + l2) / 4096 = l1 / 4096 + l2 / 4096) as ->.
  { symmetry. apply (Z.div_unique_pos _ _ _ 0); lia. }
  rewrite seqZ_app by (apply Z.div_pos; lia). rewrite fmap_app. f_equal.
  rewrite Z.add_0_l. rewrite <- (Z.add_0_r (l1 / 4096)) at 1.
  rewrite <- fmap_add_seqZ, <- list_fmap_compose.
  apply list_fmap_ext. intros i x _. simpl. lia.
Qed.

Lemma iov_pages_one a : iov_pages (Iovec a PAGE_SIZE) = [a].
Proof. unfold iov_pages. simpl. f_equal. lia. Qed.

(** ** Windows of an array *)
Section Windows.
Context {A : Type}.
Implicit Types (l : list A) (m n k : nat).

Lemma window_insert_out l m n k x : (m + n <= k)%nat ->
  take n (drop m (<[k := x]> l)) = take n (drop m l).
Proof. intros H. by rewrite !take_drop_commute, take_insert_ge by lia. Qed.

Lemma window_snoc l m n x : l !! (m + n)%nat = Some x ->
  take (S n) (drop m l) = take n (drop m l) ++ [x].
Proof. intros H. apply take_S_r. by rewrite lookup_drop. Qed.

Lemma window_insert_last l m n x : (m + n < length l)%nat ->
  take (S n) (drop m (<[(m + n)%nat := x]> l)) = take n (drop m l) ++ [x].
Proof.
  intros H. rewrite (window_snoc _ _ _ x) by (by apply list_lookup_insert_eq).
  by rewrite window_insert_out by lia.
Qed.

Lemma take_take_min_len n l : take (Nat.min n (length l)) l = take n l.
Proof.
  destruct (Nat.le_ge_cases n (length l)); [by rewrite Nat.min_l|].
  rewrite Nat.min_r by done. by rewrite !take_ge by lia.
Qed.

Lemma alter_alter_eq (f g : A -> A) l n : alter g n (alter f n l) = alter (fun x => g (f x)) n l.
Proof. revert n. induction l as [|x l IH]; intros [|n]; simpl; f_equal; auto. apply IH. Qed.
End Windows.

(** ** Proof automation shared by the components *)
Create HintDb criu.
#[export] Hint Resolve zlen_nonneg zsum_nonneg u64_range u32_range : criu.
#[export] Hint Extern 4 (_ <= _) => lia : criu.
#[export] Hint Extern 4 (_ < _) => lia : criu.

(** Case analysis on the boolean comparisons of a goal or a hypothesis. *)
Ltac zcase :=
  match goal with
  | |- context [?a <? ?b] => destruct (Z.ltb_spec a b)
  | |- context [?a <=? ?b] => destruct (Z.leb_spec a b)
  | |- context [?a =? ?b] => destruct (Z.eqb_spec a b)
  | |- context [?a >? ?b] => rewrite (Z.gtb_ltb a b)
  | |- context [?a >=? ?b] => rewrite (Z.geb_leb a b)
  | H : context [?a <? ?b] |- _ => destruct (Z.ltb_spec a b)
  | H : context [?a <=? ?b] |- _ => destruct (Z.leb_spec a b)
  | H : context [?a =? ?b] |- _ => destruct (Z.eqb_spec a b)
  | H : context [?a >? ?b] |- _ => rewrite (Z.gtb_ltb a b) in H
  | H : context [?a >=? ?b] |- _ => rewrite (Z.geb_leb a b) in H
  end.
Ltac zcases := repeat (zcase; simpl in * ); try lia.

(** ** Allocation *)

(** The outcomes of the allocator calls still to come: each xmalloc, xzalloc or
    xrealloc takes the next one (beyond the list they succeed).  A statement
    that quantifies over the list covers a failure at any allocation. *)
Definition xalloc (al : list bool) : bool * list bool :=
  match al with
  | ok :: al => (ok, al)
  | [] => (true, [])
  end.
