(* ===== verification/PagemapImage.v ===== *)
(** Pagemap images: the entries of pagemap-*.img, the predicates and geometry
    helpers of criu/include/pagemap.h and pagemap-block.h, and the validation
    that [init_pagemaps] of criu/pagemap.c runs over an image before any page
    is read from it.

    The theorems say that validation is exactly a declarative well-formedness
    predicate [pagemaps_ok]: whatever [init_pagemaps] accepts satisfies it, and
    every well-formed image is accepted. *)
From S2P Require Import Prelude.

(** ** Data: images/pagemap.proto as the C structures protobuf-c generates *)
Record pagemap_blocks := PagemapBlocks {
  block_sizes : list Z;          (** n_block_sizes is its length *)
  total_payload_size : Z;
  pages_per_block : Z
}.

Record pagemap_entry := PagemapEntry {
  pe_vaddr : Z;
  compat_nr_pages : Z;
  has_in_parent : bool;
  in_parent : bool;
  has_flags : bool;
  pe_flags : Z;
  has_nr_pages : bool;
  pe_nr_pages : Z;
  pe_blocks : option pagemap_blocks
}.

Definition n_block_sizes (b : pagemap_blocks) : Z := zlen (block_sizes b).

(** What unpacking guarantees: every field fits its protobuf type. *)
Definition blocks_typed (b : pagemap_blocks) : Prop :=
  Forall (fun s => 0 <= s < 2 ^ 32) (block_sizes b) /\
  0 <= total_payload_size b < 2 ^ 64 /\ 0 <= pages_per_block b < 2 ^ 32.

Definition entry_typed (pe : pagemap_entry) : Prop :=
  0 <= pe_vaddr pe < 2 ^ 64 /\ 0 <= compat_nr_pages pe < 2 ^ 32 /\
  0 <= pe_flags pe < 2 ^ 32 /\ 0 <= pe_nr_pages pe < 2 ^ 64 /\
  match pe_blocks pe with Some b => blocks_typed b | None => True end.

(** ** criu/include/pagemap.h, criu/include/pagemap-block.h *)
Definition PE_PARENT : Z := 1.
Definition PE_LAZY : Z := 2.
Definition PE_PRESENT : Z := 4.
Definition PE_PAYLOAD_ALIGNED : Z := 8.

Definition MAX_BLOCK_SIZE : Z := 4 * 1024 * 1024.
Definition MAX_BLOCK_PAGES : Z := MAX_BLOCK_SIZE / PAGE_SIZE.

Definition pagemap_len (pe : pagemap_entry) : Z := u64 (pe_nr_pages pe * PAGE_SIZE).

Definition pagemap_in_parent (pe : pagemap_entry) : bool :=
  negb (Z.land (pe_flags pe) PE_PARENT =? 0).
Definition pagemap_lazy (pe : pagemap_entry) : bool :=
  negb (Z.land (pe_flags pe) PE_LAZY =? 0).
Definition pagemap_present (pe : pagemap_entry) : bool :=
  negb (Z.land (pe_flags pe) PE_PRESENT =? 0).
Definition pagemap_payload_aligned (pe : pagemap_entry) : bool :=
  negb (Z.land (pe_flags pe) PE_PAYLOAD_ALIGNED =? 0).

Definition pagemap_page_align_offset (offset : Z) : Z :=
  let mask := Z.lnot (PAGE_SIZE - 1) in
  Z.land (offset + PAGE_SIZE - 1) mask.

Definition pagemap_block_pages (pe : pagemap_entry) : Z :=
  match pe_blocks pe with
  | Some b => if pages_per_block b >? 0 then pages_per_block b else 1
  | None => 1
  end.

Definition pagemap_align_down (pe : pagemap_entry) (nr_pages : Z) : Z :=
  let bp := pagemap_block_pages pe in
  if bp >? 1 then
    let aligned := nr_pages - nr_pages mod bp in
    if aligned =? 0 then nr_pages else aligned
  else nr_pages.

Definition block_align_down (nr_pages pages_per_block : Z) : Z :=
  if pages_per_block <=? 1 then nr_pages else nr_pages - nr_pages mod pages_per_block.

Definition block_nr_blocks (nr_pages pages_per_block : Z) : Z :=
  if pages_per_block <=? 1 then nr_pages
  else u64 (nr_pages + pages_per_block - 1) / pages_per_block.

(** ** Validation, criu/pagemap.c *)
Definition init_compat_pagemap_entry (pe : pagemap_entry) : pagemap_entry :=
  let flags :=
    if has_in_parent pe && in_parent pe then Z.lor (pe_flags pe) PE_PARENT
    else if negb (has_flags pe) then PE_PRESENT
    else pe_flags pe in
  let nr := if negb (has_nr_pages pe) then compat_nr_pages pe else pe_nr_pages pe in
  PagemapEntry (pe_vaddr pe) (compat_nr_pages pe) (has_in_parent pe) (in_parent pe)
    (has_flags pe) flags (has_nr_pages pe) nr (pe_blocks pe).

Definition pagemap_entry_has_compressed (pe : pagemap_entry) : bool :=
  pagemap_present pe &&
  match pe_blocks pe with Some b => negb (n_block_sizes b =? 0) | None => false end.

(** The loop over [block_sizes] of [validate_compressed_pagemap_entry]: [None]
    is the error return, [Some sum] the sum of the sizes. *)
Fixpoint validate_block_sizes (nr_pages ppb i sum : Z) (sizes : list Z) : option Z :=
  match sizes with
  | [] => Some sum
  | cs :: rest =>
      let pages_done := u64 (i * ppb) in
      let pages_left := u64 (nr_pages - pages_done) in
      let cur_pages := if pages_left <? ppb then u32 pages_left else ppb in
      let block_bytes := u64 (cur_pages * PAGE_SIZE) in
      if cs >? block_bytes then None
      else if sum >? UINT64_MAX - cs then None
      else validate_block_sizes nr_pages ppb (i + 1) (u64 (sum + cs)) rest
  end.

Definition validate_compressed_pagemap_entry (CONFIG_LZ4 : bool) (pe : pagemap_entry) : bool :=
  match pe_blocks pe with
  | None => true
  | Some b =>
      let ppb := pages_per_block b in
      if negb CONFIG_LZ4 then false
      else if negb (pagemap_present pe) then false
      else if (ppb =? 0) || (ppb >? MAX_BLOCK_PAGES) then false
      else
        let expected_blocks := block_nr_blocks (pe_nr_pages pe) ppb in
        if (expected_blocks >? SIZE_MAX) || negb (n_block_sizes b =? expected_blocks) then false
        else
          match validate_block_sizes (pe_nr_pages pe) ppb 0 0 (block_sizes b) with
          | None => false
          | Some sum => total_payload_size b =? sum
          end
  end.

Definition validate_pagemap_entry_layout (pe : pagemap_entry) (previous_end : Z) : option Z :=
  if pagemap_payload_aligned pe && negb (pagemap_present pe) then None
  else if pagemap_present pe && pagemap_in_parent pe then None
  else if negb (pe_vaddr pe mod PAGE_SIZE =? 0) then None
  else if pe_nr_pages pe =? 0 then None
  else if pe_nr_pages pe >? UINT64_MAX / PAGE_SIZE then None
  else
    let length := u64 (pe_nr_pages pe * PAGE_SIZE) in
    if pe_vaddr pe >? UINT64_MAX - length then None
    else
      let e := u64 (pe_vaddr pe + length) in
      if (pe_vaddr pe >? ULONG_MAX) || (e >? ULONG_MAX) then None
      else if pe_vaddr pe <? previous_end then None
      else Some e.

Definition validate_pages_image_layout (pe : pagemap_entry) (offset : Z) : option Z :=
  if negb (pagemap_present pe) then Some offset
  else
    let aligned :=
      if pagemap_payload_aligned pe then
        if (offset <? 0) || (offset >? OFF_MAX - (PAGE_SIZE - 1)) then None
        else Some (pagemap_page_align_offset offset)
      else Some offset in
    match aligned with
    | None => None
    | Some offset =>
        let payload :=
          match pe_blocks pe with
          | Some b => fold_left (fun acc s => u64 (acc + s)) (block_sizes b) 0
          | None => u64 (pe_nr_pages pe * PAGE_SIZE)
          end in
        if payload >? u64 (OFF_MAX - offset) then None
        else Some (offset + payload)
    end.

(** [pb_read_one_eof] is not modelled here: an image is the sequence of what its
    successive calls deliver, [Some pe] for a record and [None] for an error;
    the end of the list is the end of the file.  [xrealloc_ok size] says
    whether an allocation of [size] bytes succeeds. *)
Definition PAGEMAP_INITIAL_ENTRIES : Z := 64.
Definition SIZEOF_POINTER : Z := 8.

Section InitPagemaps.
Context (CONFIG_LZ4 : bool) (xrealloc_ok : Z -> bool).

(** Growth of the entry array when it is full; [None] is the error return. *)
Definition grow_pmes (nr_pmes capacity : Z) : option Z :=
  if nr_pmes =? capacity then
    if (capacity >=? INT_MAX) || (capacity * 2 >? SIZE_MAX) then None
    else
      let new_capacity := Z.min (capacity * 2) INT_MAX in
      if new_capacity * SIZEOF_POINTER >? SIZE_MAX then None
      else if negb (xrealloc_ok (new_capacity * SIZEOF_POINTER)) then None
      else Some new_capacity
  else Some capacity.

Fixpoint init_pagemaps_loop (img : list (option pagemap_entry))
    (pmes : list pagemap_entry) (capacity previous_end pages_offset : Z)
    : option (list pagemap_entry) :=
  match grow_pmes (zlen pmes) capacity with
  | None => None
  | Some capacity =>
      match img with
      | [] => Some pmes
      | None :: _ => None
      | Some pe :: img =>
          let pe := init_compat_pagemap_entry pe in
          match validate_pagemap_entry_layout pe previous_end with
          | None => None
          | Some previous_end =>
              if validate_compressed_pagemap_entry CONFIG_LZ4 pe then
                match validate_pages_image_layout pe pages_offset with
                | None => None
                | Some pages_offset =>
                    init_pagemaps_loop img (pmes ++ [pe]) capacity previous_end pages_offset
                end
              else None
          end
      end
  end.

Definition init_pagemaps (img : list (option pagemap_entry)) : option (list pagemap_entry) :=
  if xrealloc_ok (PAGEMAP_INITIAL_ENTRIES * SIZEOF_POINTER) then
    init_pagemaps_loop img [] PAGEMAP_INITIAL_ENTRIES 0 0
  else None.
End InitPagemaps.

Definition page_read_has_compressed_entries (pmes : list pagemap_entry) : bool :=
  existsb pagemap_entry_has_compressed pmes.

(** ** Well-formed images *)

Definition entry_end (pe : pagemap_entry) : Z := pe_vaddr pe + pe_nr_pages pe * PAGE_SIZE.

(** Pages in block [i] of an entry of [nr] pages cut into blocks of [ppb]. *)
Definition block_pages_at (nr ppb i : Z) : Z := Z.min ppb (nr - i * ppb).

(** From block [i] on, each stored size is at most the block's decoded size. *)
Fixpoint blocks_fit (nr ppb i : Z) (sizes : list Z) : Prop :=
  match sizes with
  | [] => True
  | s :: rest => 0 <= s <= block_pages_at nr ppb i * PAGE_SIZE /\ blocks_fit nr ppb (i + 1) rest
  end.

Definition blocks_ok (nr : Z) (b : pagemap_blocks) : Prop :=
  1 <= pages_per_block b <= MAX_BLOCK_PAGES /\
  (n_block_sizes b - 1) * pages_per_block b < nr <= n_block_sizes b * pages_per_block b /\
  blocks_fit nr (pages_per_block b) 0 (block_sizes b) /\
  total_payload_size b = zsum (block_sizes b).

Definition entry_ok (pe : pagemap_entry) : Prop :=
  (pagemap_payload_aligned pe = true -> pagemap_present pe = true) /\
  (pagemap_present pe = true -> pagemap_in_parent pe = false) /\
  pe_vaddr pe mod PAGE_SIZE = 0 /\
  0 <= pe_vaddr pe /\ 0 < pe_nr_pages pe /\ entry_end pe < 2 ^ 64 /\
  (forall b, pe_blocks pe = Some b ->
     pagemap_present pe = true /\ blocks_ok (pe_nr_pages pe) b).

(** Bytes of the pages image that belong to the entry. *)
Definition entry_payload (pe : pagemap_entry) : Z :=
  if pagemap_present pe then
    match pe_blocks pe with
    | Some b => zsum (block_sizes b)
    | None => pe_nr_pages pe * PAGE_SIZE
    end
  else 0.

Definition round_up_page (off : Z) : Z := (off + (PAGE_SIZE - 1)) / PAGE_SIZE * PAGE_SIZE.

(** Where the entry's payload starts when the previous one ended at [off]. *)
Definition entry_start (pe : pagemap_entry) (off : Z) : Z :=
  if pagemap_present pe && pagemap_payload_aligned pe then round_up_page off else off.

Definition entry_stop (pe : pagemap_entry) (off : Z) : Z := entry_start pe off + entry_payload pe.

Fixpoint pagemaps_ok_from (prev off : Z) (pmes : list pagemap_entry) : Prop :=
  match pmes with
  | [] => True
  | pe :: rest =>
      entry_ok pe /\ prev <= pe_vaddr pe /\
      entry_stop pe off <= OFF_MAX /\
      pagemaps_ok_from (entry_end pe) (entry_stop pe off) rest
  end.

Definition pagemaps_ok (pmes : list pagemap_entry) : Prop := pagemaps_ok_from 0 0 pmes.

(** ** Lemmas *)

Lemma page_align_offset_round off : pagemap_page_align_offset off = round_up_page off.
Proof.
  unfold pagemap_page_align_offset, round_up_page, PAGE_SIZE.
  change (4096 - 1) with (2 ^ 12 - 1). rewrite land_lnot_ones by lia.
  change 4096 with (2 ^ 12).
  pose proof (Z.div_mod (off + (2 ^ 12 - 1)) (2 ^ 12) ltac:(lia)).
  replace (off + 2 ^ 12 - 1) with (off + (2 ^ 12 - 1)) by lia. lia.
Qed.

Lemma round_up_page_bounds off : off <= round_up_page off <= off + (PAGE_SIZE - 1).
Proof.
  unfold round_up_page, PAGE_SIZE.
  pose proof (Z.div_mod (off + (4096 - 1)) 4096 ltac:(lia)).
  pose proof (Z.mod_pos_bound (off + (4096 - 1)) 4096 ltac:(lia)). lia.
Qed.

Lemma MAX_BLOCK_PAGES_eq : MAX_BLOCK_PAGES = 1024.
Proof. reflexivity. Qed.

Lemma block_nr_blocks_spec nr ppb n :
  0 < nr < 2 ^ 63 -> 1 <= ppb <= 2 ^ 32 ->
  block_nr_blocks nr ppb = n <-> (n - 1) * ppb < nr <= n * ppb.
Proof.
  intros Hnr Hp. unfold block_nr_blocks.
  destruct (Z.leb_spec ppb 1); [assert (ppb = 1) as -> by lia; lia|].
  rewrite u64_small by lia.
  pose proof (Z.div_mod (nr + ppb - 1) ppb ltac:(lia)) as Hd.
  pose proof (Z.mod_pos_bound (nr + ppb - 1) ppb ltac:(lia)) as Hm.
  split; [intros <-; nia|]. intros Hn.
  symmetry. apply (Z.div_unique_pos _ _ n (nr + ppb - 1 - ppb * n)); lia.
Qed.

Lemma blocks_fit_lookup nr ppb sizes : forall i k s,
  blocks_fit nr ppb i sizes -> sizes !! k = Some s ->
  0 <= s <= block_pages_at nr ppb (i + Z.of_nat k) * PAGE_SIZE.
Proof.
  induction sizes as [|x sizes IH]; intros i k s Hf Hk; [done|].
  destruct Hf as [Hx Hf]. destruct k as [|k]; simpl in Hk.
  - injection Hk as ->. by rewrite Z.add_0_r.
  - replace (i + Z.of_nat (S k)) with (i + 1 + Z.of_nat k) by lia. eauto.
Qed.

Lemma blocks_fit_nonneg nr ppb i sizes :
  blocks_fit nr ppb i sizes -> Forall (fun s => 0 <= s) sizes.
Proof.
  revert i. induction sizes as [|x sizes IH]; intros i Hf; constructor; simpl in Hf.
  - lia.
  - apply (IH (i + 1)). tauto.
Qed.

Lemma blocks_fit_zsum nr ppb sizes : forall i,
  0 < ppb -> 0 <= i ->
  (sizes <> [] -> (i + zlen sizes - 1) * ppb < nr) ->
  blocks_fit nr ppb i sizes ->
  zsum sizes <= Z.max 0 (nr - i * ppb) * PAGE_SIZE.
Proof.
  induction sizes as [|x sizes IH]; intros i Hp Hi Hlen Hf; simpl.
  - unfold PAGE_SIZE. lia.
  - destruct Hf as [Hx Hf]. specialize (Hlen ltac:(done)).
    unfold zlen in *. simpl in Hlen. unfold block_pages_at, PAGE_SIZE in *.
    assert (zsum sizes <= Z.max 0 (nr - (i + 1) * ppb) * 4096).
    { apply IH; [done|lia| |done]. intros _. nia. }
    nia.
Qed.

(** The validation loop computes the sum exactly when every block fits. *)
Lemma validate_block_sizes_spec nr ppb sizes : forall i sum r,
  1 <= ppb <= MAX_BLOCK_PAGES -> 0 <= i -> nr * PAGE_SIZE < 2 ^ 64 -> 0 < nr ->
  Forall (fun s => 0 <= s < 2 ^ 32) sizes ->
  (sizes <> [] -> (i + zlen sizes - 1) * ppb < nr) ->
  0 <= sum -> sum + Z.max 0 (nr - i * ppb) * PAGE_SIZE <= nr * PAGE_SIZE ->
  validate_block_sizes nr ppb i sum sizes = Some r <->
  blocks_fit nr ppb i sizes /\ r = sum + zsum sizes.
Proof.
  rewrite MAX_BLOCK_PAGES_eq. unfold PAGE_SIZE.
  induction sizes as [|x sizes IH]; intros i sum r Hp Hi Hnr Hnr0 Hty Hlen Hs Hsum; simpl.
  - split; [intros [= <-]; split; [done|lia]|intros [_ ->]; f_equal; lia].
  - inversion_clear Hty as [|? ? Hx Hty']. specialize (Hlen ltac:(done)).
    unfold zlen in Hlen. simpl in Hlen.
    assert (Hinr : i * ppb < nr) by nia.
    rewrite (u64_small (i * ppb)), (u64_small (nr - i * ppb)) by nia.
    assert (Hcur : (if nr - i * ppb <? ppb then u32 (nr - i * ppb) else ppb)
                   = block_pages_at nr ppb i).
    { unfold block_pages_at. zcases. rewrite u32_small; lia. }
    rewrite Hcur. unfold PAGE_SIZE.
    assert (0 < block_pages_at nr ppb i <= ppb) by (unfold block_pages_at; lia).
    rewrite u64_small by nia. rewrite Z.gtb_ltb.
    destruct (Z.ltb_spec (block_pages_at nr ppb i * 4096) x) as [Hgt|Hle].
    { split; [done|]. intros [[? _] _]. lia. }
    assert (sum + x <= nr * 4096) by (unfold block_pages_at in *; nia).
    unfold UINT64_MAX. rewrite Z.gtb_ltb.
    destruct (Z.ltb_spec (2 ^ 64 - 1 - x) sum) as [Hov|_]; [lia|].
    rewrite (u64_small (sum + x)) by lia.
    rewrite IH; try done; try lia.
    + split; intros [Hf ->]; (split; [|lia]); tauto || (split; [lia|tauto]).
    + unfold zlen. intros _. nia.
Qed.

Lemma fold_u64_zsum sizes : forall acc,
  0 <= acc -> Forall (fun s => 0 <= s) sizes -> acc + zsum sizes < 2 ^ 64 ->
  fold_left (fun a s => u64 (a + s)) sizes acc = acc + zsum sizes.
Proof.
  induction sizes as [|x sizes IH]; intros acc Ha Hf Hlt; simpl in *; [lia|].
  inversion_clear Hf as [|? ? Hx Hf'].
  pose proof (zsum_nonneg _ Hf'). rewrite (u64_small (acc + x)) by lia.
  rewrite IH; [lia|lia|done|lia].
Qed.

Lemma blocks_ok_payload nr b :
  0 < nr -> blocks_ok nr b -> 0 <= zsum (block_sizes b) <= nr * PAGE_SIZE.
Proof.
  intros Hnr (Hp & Hn & Hf & _). rewrite MAX_BLOCK_PAGES_eq in Hp. split.
  - by apply zsum_nonneg, (blocks_fit_nonneg _ _ _ _ Hf).
  - pose proof (blocks_fit_zsum nr (pages_per_block b) (block_sizes b) 0
                  ltac:(lia) ltac:(lia)) as H.
    unfold n_block_sizes in *. unfold PAGE_SIZE in *.
    rewrite Z.mul_0_l, Z.sub_0_r, Z.max_r in H by lia.
    apply H; [|done]. intros _. lia.
Qed.

Lemma entry_payload_range pe :
  entry_ok pe -> 0 <= entry_payload pe <= pe_nr_pages pe * PAGE_SIZE.
Proof.
  intros (_ & _ & _ & _ & Hn & _ & Hb). unfold entry_payload.
  destruct (pagemap_present pe); [|unfold PAGE_SIZE; lia].
  destruct (pe_blocks pe) as [b|] eqn:E; [|unfold PAGE_SIZE; lia].
  destruct (Hb b eq_refl) as [_ Hok]. by apply blocks_ok_payload.
Qed.

Lemma entry_start_ge pe off : off <= entry_start pe off <= off + (PAGE_SIZE - 1).
Proof.
  unfold entry_start. pose proof (round_up_page_bounds off).
  destruct (_ && _); unfold PAGE_SIZE in *; lia.
Qed.

(** Layout validation of one entry against its declarative counterpart. *)
Lemma validate_layout_spec pe prev e :
  entry_typed pe ->
  validate_pagemap_entry_layout pe prev = Some e <->
  (pagemap_payload_aligned pe = true -> pagemap_present pe = true) /\
  (pagemap_present pe = true -> pagemap_in_parent pe = false) /\
  pe_vaddr pe mod PAGE_SIZE = 0 /\ 0 < pe_nr_pages pe /\ entry_end pe < 2 ^ 64 /\
  prev <= pe_vaddr pe /\ e = entry_end pe.
Proof.
  intros (Hv & _ & _ & Hn & _).
  unfold validate_pagemap_entry_layout, entry_end, UINT64_MAX, ULONG_MAX, PAGE_SIZE.
  change ((2 ^ 64 - 1) / 4096) with (2 ^ 52 - 1).
  rewrite !Z.gtb_ltb.
  destruct (pagemap_payload_aligned pe), (pagemap_present pe), (pagemap_in_parent pe);
    simpl; try (split; [done|intros (Hal & Hin & _); (discriminate (Hal eq_refl) || discriminate (Hin eq_refl))]).
  all: zcases; try (split; [done|intros (_&_&?&?&?&?&_); lia]).
  all: rewrite ?(u64_small (pe_nr_pages pe * 4096)) in * by lia.
  all: try (split; [done|intros (_&_&?&?&?&?&_); lia]).
  all: rewrite ?(u64_small (pe_vaddr pe + _)) in * by lia.
  all: try (split; [done|intros (_&_&?&?&?&?&_); lia]).
  all: try (split; [intros [= <-]; repeat split; (done || lia)|intros (_&_&_&_&_&_&->); done]).
Qed.

Lemma validate_compressed_spec pe :
  entry_typed pe -> 0 < pe_nr_pages pe -> entry_end pe < 2 ^ 64 ->
  validate_compressed_pagemap_entry true pe = true <->
  (forall b, pe_blocks pe = Some b ->
     pagemap_present pe = true /\ blocks_ok (pe_nr_pages pe) b).
Proof.
  intros (Hv & _ & _ & Hn & Hty) Hpos Hend. unfold validate_compressed_pagemap_entry.
  destruct (pe_blocks pe) as [b|]; [|split; [intros _ b [=]|done]].
  destruct Hty as (Hsz & Htot & Hppb). simpl.
  unfold entry_end, PAGE_SIZE in Hend.
  destruct (pagemap_present pe); simpl;
    [|split; [done|intros Hc; by destruct (Hc b eq_refl)]].
  rewrite !Z.gtb_ltb. unfold blocks_ok.
  destruct (Z.eqb_spec (pages_per_block b) 0);
    [split; [done|intros Hc; destruct (Hc b eq_refl) as (_ & ? & _); lia]|].
  destruct (Z.ltb_spec MAX_BLOCK_PAGES (pages_per_block b));
    [split; [done|intros Hc; destruct (Hc b eq_refl) as (_ & ? & _); lia]|].
  simpl. rewrite MAX_BLOCK_PAGES_eq in *.
  pose proof (fun n => block_nr_blocks_spec (pe_nr_pages pe) (pages_per_block b) n
                ltac:(lia) ltac:(lia)) as Hbn.
  destruct (proj1 (Hbn _) eq_refl) as [Hb1 Hb2].
  unfold SIZE_MAX. destruct (Z.ltb_spec (2 ^ 64 - 1) (block_nr_blocks (pe_nr_pages pe) (pages_per_block b)));
    [nia|]. simpl.
  destruct (Z.eqb_spec (n_block_sizes b) (block_nr_blocks (pe_nr_pages pe) (pages_per_block b)))
    as [Hnb|Hnb]; simpl.
  - rewrite <- Hnb in *.
    pose proof (fun r => validate_block_sizes_spec (pe_nr_pages pe) (pages_per_block b)
      (block_sizes b) 0 0 r) as HS. rewrite MAX_BLOCK_PAGES_eq in HS.
    unfold n_block_sizes, PAGE_SIZE in *.
    assert (HS' : forall r, validate_block_sizes (pe_nr_pages pe) (pages_per_block b) 0 0 (block_sizes b) = Some r <->
       blocks_fit (pe_nr_pages pe) (pages_per_block b) 0 (block_sizes b) /\ r = 0 + zsum (block_sizes b)).
    { intros r. apply HS; try done; try lia. }
    destruct (validate_block_sizes _ _ 0 0 _) as [sum|] eqn:E.
    + destruct (proj1 (HS' sum) eq_refl) as [Hf ->].
      rewrite Z.eqb_eq. split.
      * intros Ht b' [= <-]. repeat split; try done; try lia.
      * intros H'. destruct (H' b eq_refl) as (_ & _ & _ & _ & Ht). lia.
    + split; [done|]. intros H'. destruct (H' b eq_refl) as (_ & _ & _ & Hf & _).
      pose proof (proj2 (HS' (zsum (block_sizes b))) (conj Hf eq_refl)). congruence.
  - split; [done|]. intros H'. destruct (H' b eq_refl) as (_ & _ & Hr & _).
    exfalso. apply Hnb. symmetry. apply Hbn. lia.
Qed.

Lemma validate_pages_spec pe off off' :
  entry_ok pe -> 0 <= off <= OFF_MAX ->
  validate_pages_image_layout pe off = Some off' <->
  entry_stop pe off <= OFF_MAX /\ off' = entry_stop pe off.
Proof.
  intros Hok Hoff. pose proof (entry_payload_range pe Hok) as Hpay.
  destruct Hok as (_ & _ & _ & Hv & Hn & Hend & Hb).
  unfold validate_pages_image_layout, entry_stop, entry_start, entry_payload,
    entry_end, OFF_MAX, PAGE_SIZE in *.
  destruct (pagemap_present pe) eqn:Hp; simpl; [|split; [intros [= <-]; lia|intros [_ ->]; f_equal; lia]].
  assert (Hpl : match pe_blocks pe with
                | Some b => fold_left (fun acc s => u64 (acc + s)) (block_sizes b) 0
                | None => u64 (pe_nr_pages pe * 4096)
                end = match pe_blocks pe with
                      | Some b => zsum (block_sizes b) | None => pe_nr_pages pe * 4096 end).
  { destruct (pe_blocks pe) as [b|]; [|apply u64_small; lia].
    destruct (Hb b eq_refl) as (_ & _ & _ & Hf & _).
    rewrite fold_u64_zsum; [lia|lia|by eapply blocks_fit_nonneg|lia]. }
  rewrite Hpl. set (pay := match pe_blocks pe with Some _ => _ | None => _ end) in *.
  pose proof (round_up_page_bounds off) as Hru. unfold PAGE_SIZE in Hru.
  destruct (pagemap_payload_aligned pe); simpl.
  - rewrite page_align_offset_round, !Z.gtb_ltb.
    destruct (Z.ltb_spec off 0); [lia|]. simpl.
    destruct (Z.ltb_spec (2 ^ 63 - 1 - (4096 - 1)) off).
    + split; [done|]. unfold round_up_page, PAGE_SIZE in *.
      pose proof (Z.div_mod (off + (4096 - 1)) 4096 ltac:(lia)).
      pose proof (Z.mod_pos_bound (off + (4096 - 1)) 4096 ltac:(lia)). lia.
    + rewrite Z.gtb_ltb, (u64_small (2 ^ 63 - 1 - _)) by lia.
      zcases; split; (done || (intros [= <-]; lia) || (intros [? ->]; f_equal; lia) || lia).
  - rewrite Z.gtb_ltb, (u64_small (2 ^ 63 - 1 - _)) by lia.
    zcases; split; (done || (intros [= <-]; lia) || (intros [? ->]; f_equal; lia) || lia).
Qed.

Lemma init_compat_typed pe : entry_typed pe -> entry_typed (init_compat_pagemap_entry pe).
Proof.
  intros (Hv & Hc & Hf & Hn & Hb). unfold init_compat_pagemap_entry, entry_typed; simpl.
  split; [done|]. split; [done|]. split; [|split; [destruct (has_nr_pages pe); simpl; lia|done]].
  destruct (has_in_parent pe && in_parent pe); [|destruct (has_flags pe); simpl; unfold PE_PRESENT; lia].
  apply lor_range; unfold PE_PARENT; lia.
Qed.

Definition img_typed (img : list (option pagemap_entry)) : Prop :=
  Forall (fun o => match o with Some pe => entry_typed pe | None => True end) img.

Lemma entry_stop_ge pe off : entry_ok pe -> 0 <= off -> off <= entry_stop pe off.
Proof.
  intros Hok ?. pose proof (entry_payload_range pe Hok).
  pose proof (entry_start_ge pe off). unfold entry_stop. lia.
Qed.

(** One accepted record: the three validators together are [entry_ok] plus the
    ordering and offset conditions. *)
Lemma validate_entry_spec pe prev off e off' :
  entry_typed pe -> 0 <= off <= OFF_MAX ->
  (validate_pagemap_entry_layout pe prev = Some e /\
   validate_compressed_pagemap_entry true pe = true /\
   validate_pages_image_layout pe off = Some off') <->
  (entry_ok pe /\ prev <= pe_vaddr pe /\ entry_stop pe off <= OFF_MAX /\
   e = entry_end pe /\ off' = entry_stop pe off).
Proof.
  intros Hty Hoff. rewrite validate_layout_spec by done.
  split.
  - intros [(Ha & Hpp & Hm & Hn & He & Hprev & ->) [Hc Hl]].
    rewrite validate_compressed_spec in Hc by done.
    assert (entry_ok pe) as Hok by (destruct Hty as (? & _); split_and!; (done || lia)).
    rewrite validate_pages_spec in Hl by done. destruct Hl. by split_and!.
  - intros (Hok & Hprev & Hs & -> & ->).
    rewrite validate_pages_spec by done. destruct Hok as (?&?&?&?&?&?&?).
    rewrite validate_compressed_spec by done. by split_and!.
Qed.

Lemma init_pagemaps_loop_sound ok img : forall acc cap prev off pmes,
  img_typed img -> 0 <= off <= OFF_MAX ->
  init_pagemaps_loop true ok img acc cap prev off = Some pmes ->
  exists es, img = Some <$> es /\ pmes = acc ++ (init_compat_pagemap_entry <$> es) /\
    pagemaps_ok_from prev off (init_compat_pagemap_entry <$> es).
Proof.
  induction img as [|o img IH]; intros acc cap prev off pmes Hty Hoff H; simpl in H;
    destruct (grow_pmes _ _ _) as [cap'|]; try done.
  - injection H as <-. exists []. by rewrite app_nil_r.
  - destruct o as [pe|]; [|done]. inversion_clear Hty as [|? ? Hpe Hty'].
    pose proof (init_compat_typed _ Hpe) as Hpe'.
    set (pe' := init_compat_pagemap_entry pe) in *.
    destruct (validate_pagemap_entry_layout pe' prev) as [e|] eqn:E1; [|done].
    destruct (validate_compressed_pagemap_entry true pe') eqn:E2; [|done].
    destruct (validate_pages_image_layout pe' off) as [off'|] eqn:E3; [|done].
    destruct (proj1 (validate_entry_spec pe' prev off e off' Hpe' Hoff))
      as (Hok & Hprev & Hs & -> & ->); [done|].
    pose proof (entry_stop_ge pe' off Hok ltac:(lia)).
    destruct (IH _ _ _ (entry_stop pe' off) _ Hty' ltac:(lia) H) as (es & -> & -> & Hes).
    exists (pe :: es). split; [done|]. split; [by rewrite <- app_assoc|]. simpl. by split_and!.
Qed.

Lemma grow_pmes_ok ok nr cap :
  (forall n, ok n = true) -> 0 <= nr <= cap -> 1 <= cap <= INT_MAX -> nr < INT_MAX ->
  exists cap', grow_pmes ok nr cap = Some cap' /\ 1 <= cap' <= INT_MAX /\ nr < cap'.
Proof.
  intros Hal Hnr Hcap Hlt. unfold grow_pmes, INT_MAX, SIZE_MAX, SIZEOF_POINTER in *.
  rewrite Hal. zcases; eexists; split_and!; (done || lia).
Qed.

Lemma init_pagemaps_loop_complete ok es : forall acc cap prev off,
  Forall entry_typed es -> 0 <= off <= OFF_MAX -> (forall n, ok n = true) ->
  1 <= cap <= INT_MAX -> zlen acc <= cap -> zlen acc + zlen es < INT_MAX ->
  pagemaps_ok_from prev off (init_compat_pagemap_entry <$> es) ->
  init_pagemaps_loop true ok (Some <$> es) acc cap prev off
  = Some (acc ++ (init_compat_pagemap_entry <$> es)).
Proof.
  induction es as [|pe es IH]; intros acc cap prev off Hty Hoff Hal Hcap Hacc Hlen Hok.
  all: destruct (grow_pmes_ok ok (zlen acc) cap Hal) as (cap' & Hg & Hc1 & Hc2);
    [unfold zlen in *; simpl in *; lia..|].
  - simpl. rewrite Hg. by rewrite app_nil_r.
  - simpl. rewrite Hg. inversion_clear Hty as [|? ? Hpe Hty'].
    pose proof (init_compat_typed _ Hpe) as Hpe'. simpl in Hok.
    set (pe' := init_compat_pagemap_entry pe) in *. destruct Hok as (Hok & Hprev & Hs & Hrest).
    destruct (proj2 (validate_entry_spec pe' prev off (entry_end pe') (entry_stop pe' off) Hpe' Hoff))
      as (E1 & E2 & E3); [by split_and!|].
    rewrite E1, E2, E3. pose proof (entry_stop_ge pe' off Hok ltac:(lia)).
    rewrite IH; [by rewrite <- app_assoc|done|lia|done|done| |  |done];
      rewrite zlen_app; unfold zlen in *; simpl in *; lia.
Qed.

(** ** Properties *)

(** C1. Every pagemap [init_pagemaps] accepts is well formed: entries are
    page-aligned, non-empty, ordered and disjoint, their ends fit an address,
    present and inherited are exclusive, compression metadata covers exactly
    the entry with blocks no larger than their decoded size and the right
    total, and all payload offsets of the pages image fit an [off_t]. *)
Theorem init_pagemaps_sound (ok : Z -> bool) (img : list (option pagemap_entry)) pmes :
  img_typed img ->
  init_pagemaps true ok img = Some pmes ->
  pagemaps_ok pmes /\
  exists es, img = Some <$> es /\ pmes = init_compat_pagemap_entry <$> es.
Proof.
  intros Hty H. unfold init_pagemaps in H. destruct (ok _); [|done].
  apply init_pagemaps_loop_sound in H as (es & -> & -> & Hok); [|done|unfold OFF_MAX; lia].
  split; [done|]. by exists es.
Qed.

(** Every well-formed pagemap is accepted: when allocation succeeds and the
    image has fewer than INT_MAX records, [init_pagemaps] rejects nothing that
    satisfies the predicate of the previous theorem. *)
Theorem init_pagemaps_complete (ok : Z -> bool) (es : list pagemap_entry) :
  Forall entry_typed es -> (forall n, ok n = true) -> zlen es < INT_MAX ->
  pagemaps_ok (init_compat_pagemap_entry <$> es) ->
  init_pagemaps true ok (Some <$> es) = Some (init_compat_pagemap_entry <$> es).
Proof.
  intros Hty Hal Hlen Hok. unfold init_pagemaps. rewrite Hal.
  apply (init_pagemaps_loop_complete ok es []); try done;
    unfold OFF_MAX, INT_MAX, PAGEMAP_INITIAL_ENTRIES, zlen in *; simpl; lia.
Qed.

(** A concrete image: three raw pages, a two-block compressed entry of three
    pages whose second block is all zeroes, and two inherited pages. *)
Definition sample_raw : pagemap_entry := PagemapEntry 0x3000 3 false false true PE_PRESENT true 3 None.
Definition sample_lz4 : pagemap_entry :=
  PagemapEntry 0xb000 3 false false true (PE_PRESENT + PE_PAYLOAD_ALIGNED) true 3
    (Some (PagemapBlocks [100; 0] 100 2)).
Definition sample_parent : pagemap_entry := PagemapEntry 0x18000 2 true true false 0 false 0 None.
Definition sample_es : list pagemap_entry := [sample_raw; sample_lz4; sample_parent].

Lemma sample_es_typed : Forall entry_typed sample_es.
Proof.
  unfold sample_es.
  apply Forall_cons_2; [|apply Forall_cons_2; [|apply Forall_cons_2; [|apply Forall_nil_2]]];
    split_and!; try done.
  simpl. split_and!; try done. simpl.
  apply Forall_cons_2; [done|]. apply Forall_cons_2; [done|]. apply Forall_nil_2.
Qed.

Lemma init_pagemaps_sound_witness :
  exists pmes, init_pagemaps true (fun _ => true) (Some <$> sample_es) = Some pmes /\
    pagemaps_ok pmes /\ exists es, Some <$> sample_es = Some <$> es /\ pmes = init_compat_pagemap_entry <$> es.
Proof.
  exists (init_compat_pagemap_entry <$> sample_es).
  assert (init_pagemaps true (fun _ => true) (Some <$> sample_es)
          = Some (init_compat_pagemap_entry <$> sample_es)) as H by (vm_compute; reflexivity).
  split; [exact H|].
  apply (init_pagemaps_sound (fun _ => true) (Some <$> sample_es)); [|exact H].
  apply Forall_fmap, sample_es_typed.
Defined.

Lemma sample_ok : pagemaps_ok (init_compat_pagemap_entry <$> sample_es).
Proof.
  unfold pagemaps_ok, sample_es; simpl. unfold entry_ok, entry_stop, entry_end; simpl.
  unfold PAGE_SIZE. split_and!; try done; try (vm_compute; done).
  all: intros b [= <-]; split; [done|]; unfold blocks_ok, n_block_sizes; simpl;
    rewrite MAX_BLOCK_PAGES_eq; unfold block_pages_at, PAGE_SIZE, zlen; simpl; lia.
Qed.

Lemma init_pagemaps_complete_witness :
  init_pagemaps true (fun _ => true) (Some <$> sample_es)
  = Some (init_compat_pagemap_entry <$> sample_es).
Proof.
  apply (init_pagemaps_complete (fun _ => true) sample_es).
  - exact sample_es_typed.
  - done.
  - unfold zlen, INT_MAX; simpl; lia.
  - exact sample_ok.
Defined.
