(* ===== verification/PageRead.v ===== *)
(** The page reader's cursor: [advance], [skip_pagemap_pages], [seek_pagemap]
    and [reset_pagemap] of criu/pagemap.c, which walk a pagemap and keep, next
    to the current virtual address, the offset in the pages image and the
    position inside the current compressed block.

    The abstraction is [entry_pos]: a closed formula for where page number [k]
    of an entry lives.  The invariant [cursor_ok] ties the reader's fields to
    it; the theorems show that every operation keeps it, that seeking finds a
    page exactly when the pagemap has it, and that no [BUG()] is reachable. *)
From S2P Require Import Prelude PagemapImage.

(** ** Data: criu/include/pagemap-block.h and criu/include/pagemap.h *)
Inductive restore_vma_io_storage :=
| VMA_IO_UNCOMPRESSED
| VMA_IO_ENCODED
| VMA_IO_PACKED_RAW
| VMA_IO_ZERO.

#[global] Instance storage_eq_dec : EqDecision restore_vma_io_storage.
Proof. solve_decision. Defined.

Record page_block_layout := PageBlockLayout {
  bl_sizes : list Z;
  bl_nr_blocks : Z;
  bl_total_bytes : Z;
  bl_pages_per_block : Z
}.

(** One job for preadv(). The restorer offsets [rio_cs_off] and [rio_bp_off] are
    not part of the queueing logic. *)
Record page_read_iov := PageReadIov {
  pi_from : Z;
  pi_end : Z;
  pi_to : list iovec;
  pi_nr : Z;
  pi_storage : restore_vma_io_storage;
  pi_layout : page_block_layout;
  pi_n_pages : Z;
  pi_block_pages : list Z
}.

Record page_read_block_state := BlkState {
  block_idx : Z;
  block_offset : Z;
  cache_buf : list Z;
  cache_vaddr : Z;
  cache_size : Z
}.

Record page_read := PageRead {
  pr_pe : option pagemap_entry;
  cvaddr : Z;
  pi_off : Z;
  stream_padding : Z;
  blk : page_read_block_state;
  bunch : iovec;
  pmes : list pagemap_entry;      (** nr_pmes is its length *)
  curr_pme : Z;
  async : list page_read_iov;
  disable_dedup : bool
}.

Definition set_blk (f : page_read_block_state -> page_read_block_state) (pr : page_read) : page_read :=
  PageRead (pr_pe pr) (cvaddr pr) (pi_off pr) (stream_padding pr) (f (blk pr)) (bunch pr)
    (pmes pr) (curr_pme pr) (async pr) (disable_dedup pr).
Definition set_block_pos (i o : Z) (b : page_read_block_state) : page_read_block_state :=
  BlkState i o (cache_buf b) (cache_vaddr b) (cache_size b).
Definition set_pi_off (o : Z) (pr : page_read) : page_read :=
  PageRead (pr_pe pr) (cvaddr pr) o (stream_padding pr) (blk pr) (bunch pr)
    (pmes pr) (curr_pme pr) (async pr) (disable_dedup pr).
Definition set_cvaddr (v : Z) (pr : page_read) : page_read :=
  PageRead (pr_pe pr) v (pi_off pr) (stream_padding pr) (blk pr) (bunch pr)
    (pmes pr) (curr_pme pr) (async pr) (disable_dedup pr).
Definition set_bunch (b : iovec) (pr : page_read) : page_read :=
  PageRead (pr_pe pr) (cvaddr pr) (pi_off pr) (stream_padding pr) (blk pr) b
    (pmes pr) (curr_pme pr) (async pr) (disable_dedup pr).
Definition set_async (a : list page_read_iov) (pr : page_read) : page_read :=
  PageRead (pr_pe pr) (cvaddr pr) (pi_off pr) (stream_padding pr) (blk pr) (bunch pr)
    (pmes pr) (curr_pme pr) a (disable_dedup pr).
Definition set_curr_pme (i : Z) (pr : page_read) : page_read :=
  PageRead (pr_pe pr) (cvaddr pr) (pi_off pr) (stream_padding pr) (blk pr) (bunch pr)
    (pmes pr) i (async pr) (disable_dedup pr).

(** ** Cursor operations *)
Definition page_read_free_cache (pr : page_read) : page_read :=
  set_blk (fun b => BlkState (block_idx b) (block_offset b) [] 0 0) pr.

(** [curr_pme] is -1 before the first call and only grows, so the array access
    is in bounds after the range test; the [None] branch is never taken. *)
Definition advance (pr : page_read) : Z * page_read :=
  let pr := set_curr_pme (curr_pme pr + 1) pr in
  if curr_pme pr >=? zlen (pmes pr) then (0, pr)
  else
    match zlookup (pmes pr) (curr_pme pr) with
    | None => (0, pr)
    | Some pe =>
        let pr := PageRead (Some pe) (pe_vaddr pe) (pi_off pr) 0 (blk pr) (bunch pr)
                    (pmes pr) (curr_pme pr) (async pr) (disable_dedup pr) in
        if pagemap_present pe && pagemap_payload_aligned pe then
          if (pi_off pr <? 0) || (pi_off pr >? OFF_MAX - (PAGE_SIZE - 1)) then (0, pr)
          else
            let aligned := pagemap_page_align_offset (pi_off pr) in
            (1, PageRead (pr_pe pr) (cvaddr pr) aligned (aligned - pi_off pr)
                  (set_block_pos 0 0 (blk pr)) (bunch pr) (pmes pr) (curr_pme pr)
                  (async pr) (disable_dedup pr))
        else (1, set_blk (set_block_pos 0 0) pr)
    end.

Definition current_block_pages (pe : pagemap_entry) (idx : Z) : Z :=
  let block_pages := pagemap_block_pages pe in
  let pages_before := u64 (idx * block_pages) in
  let pages_left := u64 (pe_nr_pages pe - pages_before) in
  if pages_left <? block_pages then u32 pages_left else block_pages.

(** The block walk of [skip_pagemap_pages]; [nr] pages remain to be skipped. *)
Fixpoint skip_blocks (fuel : nat) (pe : pagemap_entry) (b : pagemap_blocks) (nr : Z)
    (pr : page_read) : outcome page_read :=
  if nr >? 0 then
    match fuel with
    | O => NoFuel
    | S fuel =>
        let idx := block_idx (blk pr) in
        let off := block_offset (blk pr) in
        let bp := current_block_pages pe idx in
        let avail := u32 (bp - off) in
        let take := if nr <? avail then u32 nr else avail in
        match zlookup (block_sizes b) idx with
        | None => Bug
        | Some cs =>
            let off := u32 (off + take) in
            let nr := nr - take in
            if off =? bp then
              skip_blocks fuel pe b nr
                (set_pi_off (s64 (pi_off pr + cs)) (set_blk (set_block_pos (idx + 1) 0) pr))
            else skip_blocks fuel pe b nr (set_blk (set_block_pos idx off) pr)
        end
    end
  else Ret pr.

Definition skip_pagemap_pages (pr : page_read) (len : Z) : outcome page_read :=
  if len =? 0 then Ret pr
  else
    match pr_pe pr with
    | None => Bug   (* NULL dereference: callers hold a current entry *)
    | Some pe =>
        let! pr :=
          (if pagemap_present pe then
             match pe_blocks pe with
             | Some b =>
                 if n_block_sizes b =? 0 then Ret (set_pi_off (s64 (pi_off pr + len)) pr)
                 else if (block_idx (blk pr) =? 0) && (block_offset (blk pr) =? 0) &&
                         (len / PAGE_SIZE =? pe_nr_pages pe) then
                   Ret (set_pi_off (s64 (pi_off pr + total_payload_size b))
                          (set_blk (fun k => set_block_pos (n_block_sizes b) (block_offset k) k) pr))
                 else skip_blocks (Z.to_nat (len / PAGE_SIZE)) pe b (len / PAGE_SIZE) pr
             | None => Ret (set_pi_off (s64 (pi_off pr + len)) pr)
             end
           else Ret pr) in
        Ret (set_cvaddr (u64 (cvaddr pr + len)) pr)
    end.

(** The do-while loop of [seek_pagemap], entered at its top. *)
Fixpoint seek_loop (fuel : nat) (pr : page_read) (vaddr : Z) : outcome (Z * page_read) :=
  match fuel with
  | O => NoFuel
  | S fuel =>
      match pr_pe pr with
      | None => Bug
      | Some pe =>
          let start := pe_vaddr pe in
          let end_ := u64 (start + pagemap_len pe) in
          if vaddr <? cvaddr pr then Ret (0, pr)
          else if (vaddr >=? start) && (vaddr <? end_) then
            let! pr := skip_pagemap_pages pr (u64 (vaddr - cvaddr pr)) in
            Ret (1, pr)
          else
            let! pr := (if end_ <=? vaddr then skip_pagemap_pages pr (u64 (end_ - cvaddr pr))
                        else Ret pr) in
            let '(more, pr) := advance pr in
            if more =? 0 then Ret (0, pr) else seek_loop fuel pr vaddr
      end
  end.

(** Each turn of the loop moves to a later entry: one turn per entry plus the
    failing one is enough. *)
Definition seek_fuel (pr : page_read) : nat := S (S (length (pmes pr))).

Definition seek_pagemap (pr : page_read) (vaddr : Z) : outcome (Z * page_read) :=
  match pr_pe pr with
  | Some _ => seek_loop (seek_fuel pr) pr vaddr
  | None =>
      let '(more, pr) := advance pr in
      if more =? 0 then Ret (0, pr) else seek_loop (seek_fuel pr) pr vaddr
  end.

(** A reader with its parents, the youngest snapshot first. *)
Definition reset_one (pr : page_read) : page_read :=
  PageRead None 0 0 0 (set_block_pos 0 0 (blk pr)) (bunch pr) (pmes pr) (-1) (async pr)
    (disable_dedup pr).

Definition reset_pagemap (chain : list page_read) : list page_read := reset_one <$> chain.

Definition page_read_disable_dedup (chain : list page_read) : list page_read :=
  (fun pr => PageRead (pr_pe pr) (cvaddr pr) (pi_off pr) (stream_padding pr) (blk pr) (bunch pr)
     (pmes pr) (curr_pme pr) (async pr) true) <$> chain.

(** ** The abstract position of a page *)

(** Offset in the pages image after the payloads of [l], starting at [off]. *)
Definition pages_end (off : Z) (l : list pagemap_entry) : Z :=
  fold_left (fun o pe => entry_stop pe o) l off.

(** Start of the payload of entry number [i]. *)
Definition payload_start (l : list pagemap_entry) (i : nat) : Z :=
  match l !! i with
  | Some pe => entry_start pe (pages_end 0 (take i l))
  | None => 0
  end.

(** Number of the block that holds page [k]; past the last page, the number of
    blocks. *)
Definition block_of_page (pe : pagemap_entry) (b : pagemap_blocks) (k : Z) : Z :=
  if k =? pe_nr_pages pe then n_block_sizes b else k / pages_per_block b.
Definition offset_of_page (pe : pagemap_entry) (b : pagemap_blocks) (k : Z) : Z :=
  if k =? pe_nr_pages pe then 0 else k mod pages_per_block b.

(** (pi_off, block_idx, block_offset) when [k] pages of the entry are behind. *)
Definition entry_pos (pe : pagemap_entry) (start k : Z) : Z * Z * Z :=
  if pagemap_present pe then
    match pe_blocks pe with
    | Some b =>
        (start + zsum (take (Z.to_nat (block_of_page pe b k)) (block_sizes b)),
         block_of_page pe b k, offset_of_page pe b k)
    | None => (start + k * PAGE_SIZE, 0, 0)
    end
  else (start, 0, 0).

Definition pos_of (pr : page_read) : Z * Z * Z :=
  (pi_off pr, block_idx (blk pr), block_offset (blk pr)).

(** The reader has consumed [k] pages of entry [i]. *)
Record at_entry (pr : page_read) (i : nat) (pe : pagemap_entry) (k : Z) : Prop := AtEntry {
  ae_lookup : pmes pr !! i = Some pe;
  ae_pe : pr_pe pr = Some pe;
  ae_k : 0 <= k <= pe_nr_pages pe;
  ae_cvaddr : cvaddr pr = pe_vaddr pe + k * PAGE_SIZE;
  ae_pos : pos_of pr = entry_pos pe (payload_start (pmes pr) i) k
}.

Inductive cursor_ok (pr : page_read) : Prop :=
| cursor_reset :
    pr_pe pr = None -> curr_pme pr = -1 \/ (pmes pr = [] /\ -1 <= curr_pme pr) ->
    cvaddr pr = 0 -> pos_of pr = (0, 0, 0) -> cursor_ok pr
| cursor_at i pe k :
    at_entry pr i pe k -> curr_pme pr = Z.of_nat i -> cursor_ok pr
| cursor_done i pe :
    at_entry pr i pe (pe_nr_pages pe) -> S i = length (pmes pr) ->
    zlen (pmes pr) <= curr_pme pr -> cursor_ok pr.

(** ** Lemmas on well-formed pagemaps *)
Lemma pages_end_app off l1 l2 : pages_end off (l1 ++ l2) = pages_end (pages_end off l1) l2.
Proof. apply fold_left_app. Qed.

Lemma ok_from_lookup l : forall prev off i pe,
  0 <= off -> pagemaps_ok_from prev off l -> l !! i = Some pe ->
  entry_ok pe /\ prev <= pe_vaddr pe /\ 0 <= pages_end off (take i l) /\
  entry_stop pe (pages_end off (take i l)) <= OFF_MAX.
Proof.
  induction l as [|p l IH]; intros prev off i pe Hoff Hok Hi; [done|].
  destruct Hok as (Hp & Hprev & Hs & Hrest). destruct i as [|i]; simpl in Hi.
  - injection Hi as ->. simpl. done.
  - pose proof (entry_stop_ge p off Hp Hoff).
    destruct (IH _ (entry_stop p off) i pe ltac:(lia) Hrest Hi) as (? & Hv & ? & ?). simpl.
    destruct Hp as (_ & _ & _ & _ & Hn & _). unfold entry_end, PAGE_SIZE in Hv.
    split_and!; (done || lia).
Qed.

Lemma ok_from_order l : forall prev off i j p q,
  0 <= off -> pagemaps_ok_from prev off l -> l !! i = Some p -> l !! j = Some q ->
  (i < j)%nat -> entry_end p <= pe_vaddr q.
Proof.
  induction l as [|x l IH]; intros prev off i j p q Hoff Hok Hi Hj Hij; [done|].
  destruct Hok as (Hx & _ & _ & Hrest). pose proof (entry_stop_ge x off Hx Hoff).
  destruct j as [|j]; [lia|]. destruct i as [|i]; simpl in *.
  - injection Hi as ->.
    by destruct (ok_from_lookup l _ (entry_stop p off) j q ltac:(lia) Hrest Hj) as (_ & ? & _).
  - eapply (IH _ (entry_stop x off) i j); eauto; lia.
Qed.

Lemma pagemaps_ok_lookup l i pe :
  pagemaps_ok l -> l !! i = Some pe ->
  entry_ok pe /\ 0 <= pages_end 0 (take i l) /\ 0 <= payload_start l i /\
  payload_start l i + entry_payload pe <= OFF_MAX /\
  pages_end 0 (take (S i) l) = payload_start l i + entry_payload pe.
Proof.
  intros Hok Hi. unfold payload_start. rewrite Hi.
  destruct (ok_from_lookup l 0 0 i pe ltac:(lia) Hok Hi) as (? & _ & ? & ?).
  pose proof (entry_start_ge pe (pages_end 0 (take i l))).
  split_and!; try done; try lia.
  rewrite (take_S_r _ _ _ Hi), pages_end_app. done.
Qed.

Lemma entry_end_u64 pe : entry_ok pe -> u64 (pe_vaddr pe + pagemap_len pe) = entry_end pe.
Proof.
  intros (_ & _ & _ & ? & ? & He & _). unfold pagemap_len, entry_end, PAGE_SIZE in *.
  rewrite (u64_small (_ * _)), u64_small by lia. done.
Qed.

Lemma pagemap_block_pages_ok nr pe b :
  pe_blocks pe = Some b -> blocks_ok nr b -> pagemap_block_pages pe = pages_per_block b.
Proof.
  intros Hb (Hp & _). unfold pagemap_block_pages. rewrite Hb. zcases.
Qed.

(** [current_block_pages] is the declarative block size on every valid index. *)
Lemma current_block_pages_ok pe b i :
  entry_ok pe -> pe_blocks pe = Some b -> 0 <= i < n_block_sizes b ->
  current_block_pages pe i = block_pages_at (pe_nr_pages pe) (pages_per_block b) i /\
  1 <= block_pages_at (pe_nr_pages pe) (pages_per_block b) i <= pages_per_block b.
Proof.
  intros (_ & _ & _ & Hv & Hn & He & Hb) Eb Hi.
  destruct (Hb b Eb) as [_ Hok]. unfold current_block_pages.
  rewrite (pagemap_block_pages_ok (pe_nr_pages pe) pe b Eb Hok).
  destruct Hok as (Hp & Hc & _). rewrite MAX_BLOCK_PAGES_eq in Hp.
  unfold entry_end, PAGE_SIZE in He. unfold block_pages_at.
  assert (i * pages_per_block b < pe_nr_pages pe) by nia.
  rewrite (u64_small (i * _)), (u64_small (_ - _)) by nia.
  split; [|lia]. zcases. rewrite u32_small; lia.
Qed.

(** ** Block positions *)
Section BlockPos.
Context (pe : pagemap_entry) (b : pagemap_blocks).
Context (Hok : entry_ok pe) (Eb : pe_blocks pe = Some b).
Abbreviation nr := (pe_nr_pages pe).
Abbreviation ppb := (pages_per_block b).

Lemma entry_blocks_ok : blocks_ok nr b.
Proof. destruct Hok as (_&_&_&_&_&_&H). by destruct (H b Eb). Qed.

Lemma ppb_range : 1 <= ppb <= 1024.
Proof. destruct entry_blocks_ok as (H & _). by rewrite MAX_BLOCK_PAGES_eq in H. Qed.

Lemma block_count_bounds : (n_block_sizes b - 1) * ppb < nr <= n_block_sizes b * ppb.
Proof. by destruct entry_blocks_ok as (_ & H & _). Qed.

(** A page inside block [i]. *)
Lemma block_of_page_inside i o :
  0 <= i -> 0 <= o < block_pages_at nr ppb i ->
  block_of_page pe b (i * ppb + o) = i /\ offset_of_page pe b (i * ppb + o) = o.
Proof.
  intros Hi Ho. pose proof ppb_range. unfold block_pages_at in Ho.
  unfold block_of_page, offset_of_page.
  destruct (Z.eqb_spec (i * ppb + o) nr); [lia|].
  split; [|]; symmetry.
  - apply (Z.div_unique_pos _ _ i o); lia.
  - apply (Z.mod_unique_pos _ _ i o); lia.
Qed.

(** The page after the last one of block [i]. *)
Lemma block_of_page_after i :
  0 <= i < n_block_sizes b ->
  block_of_page pe b (i * ppb + block_pages_at nr ppb i) = i + 1 /\
  offset_of_page pe b (i * ppb + block_pages_at nr ppb i) = 0.
Proof.
  intros Hi. pose proof ppb_range. pose proof block_count_bounds.
  unfold block_of_page, offset_of_page, block_pages_at.
  destruct (Z.min_spec ppb (nr - i * ppb)) as [[Hlt ->]|[Hge ->]].
  - replace (i * ppb + ppb) with ((i + 1) * ppb) by lia.
    destruct (Z.eqb_spec ((i + 1) * ppb) nr); [lia|].
    rewrite Z.div_mul, Z.mod_mul by lia. done.
  - replace (i * ppb + (nr - i * ppb)) with nr by lia. rewrite Z.eqb_refl.
    split; [|done]. nia.
Qed.

Lemma page_in_block k :
  0 <= k < nr ->
  let i := block_of_page pe b k in let o := offset_of_page pe b k in
  0 <= i < n_block_sizes b /\ k = i * ppb + o /\ 0 <= o < block_pages_at nr ppb i.
Proof.
  intros Hk. pose proof ppb_range. pose proof block_count_bounds. simpl.
  unfold block_of_page, offset_of_page, block_pages_at.
  destruct (Z.eqb_spec k nr); [lia|].
  pose proof (Z.div_mod k ppb ltac:(lia)). pose proof (Z.mod_pos_bound k ppb ltac:(lia)).
  assert (0 <= k / ppb) by (apply Z.div_pos; lia). nia.
Qed.

Lemma block_of_page_range k : 0 <= k <= nr -> 0 <= block_of_page pe b k <= n_block_sizes b.
Proof.
  intros Hk. destruct (Z.eq_dec k nr) as [->|].
  - unfold block_of_page. rewrite Z.eqb_refl. unfold n_block_sizes, zlen. lia.
  - pose proof (page_in_block k ltac:(lia)). simpl in *. lia.
Qed.

Lemma block_sum_range j :
  0 <= zsum (take j (block_sizes b)) <= zsum (block_sizes b).
Proof.
  destruct entry_blocks_ok as (_ & _ & Hf & _).
  apply zsum_take_le. by eapply blocks_fit_nonneg.
Qed.
End BlockPos.

Definition set_pos (p : Z * Z * Z) (pr : page_read) : page_read :=
  let '(x, i, o) := p in set_pi_off x (set_blk (set_block_pos i o) pr).

Lemma set_pos_id pr : set_pos (pos_of pr) pr = pr.
Proof. by destruct pr as [? ? ? ? []]. Qed.
Lemma set_pos_set_pos p q pr : set_pos p (set_pos q pr) = set_pos p pr.
Proof. by destruct p as [[??]?], q as [[??]?]. Qed.

(** The block walk moves the cursor [nr] pages forward, from any position. *)
Lemma skip_blocks_spec pe b start : entry_ok pe -> pe_blocks pe = Some b ->
  0 <= start -> start + zsum (block_sizes b) <= OFF_MAX ->
  pagemap_present pe = true ->
  forall fuel k nr pr, 0 <= k -> 0 <= nr -> k + nr <= pe_nr_pages pe -> nr <= Z.of_nat fuel ->
  pos_of pr = entry_pos pe start k ->
  skip_blocks fuel pe b nr pr = Ret (set_pos (entry_pos pe start (k + nr)) pr).
Proof.
  intros Hok Eb Hst Hmax Hp. pose proof (ppb_range pe b Hok Eb) as Hppb.
  unfold OFF_MAX in Hmax.
  induction fuel as [|fuel IH]; intros k nr pr Hk Hnr Hle Hfuel Hpos; simpl; rewrite Z.gtb_ltb.
  { destruct (Z.ltb_spec 0 nr); [lia|]. replace (k + nr) with k by lia.
    by rewrite <- Hpos, set_pos_id. }
  destruct (Z.ltb_spec 0 nr); [|replace (k + nr) with k by lia; by rewrite <- Hpos, set_pos_id].
  destruct (page_in_block pe b Hok Eb k ltac:(lia)) as (Hi & Hki & Ho). simpl in *.
  unfold entry_pos in Hpos. rewrite Hp, Eb in Hpos. unfold pos_of in Hpos.
  injection Hpos as Hx -> ->.
  set (i := block_of_page pe b k) in *. set (o := offset_of_page pe b k) in *.
  destruct (current_block_pages_ok pe b i Hok Eb Hi) as [-> Hbp].
  set (bp := block_pages_at (pe_nr_pages pe) (pages_per_block b) i) in *.
  rewrite (u32_small (bp - o)) by lia.
  assert (Htake : exists t, (if nr <? bp - o then u32 nr else bp - o) = t /\ 1 <= t <= nr /\
    (t = bp - o \/ t = nr /\ t < bp - o)).
  { destruct (Z.ltb_spec nr (bp - o)); [exists nr; rewrite u32_small by lia|exists (bp - o)]; lia. }
  destruct Htake as (t & -> & Ht & Hcase).
  destruct (zlookup_is_Some (block_sizes b) i Hi) as [cs Hcs]. rewrite Hcs.
  rewrite (u32_small (o + t)) by lia.
  pose proof (block_sum_range pe b Hok Eb (S (Z.to_nat i))) as Hsum.
  assert (Hcs' : block_sizes b !! Z.to_nat i = Some cs).
  { rewrite <- zlookup_of_nat, Z2Nat.id by lia. done. }
  rewrite (zsum_take_S _ _ _ Hcs') in Hsum.
  pose proof (block_sum_range pe b Hok Eb (Z.to_nat i)) as Hsum0.
  destruct (blocks_fit_lookup _ _ _ 0 _ cs
    (proj1 (proj2 (proj2 (entry_blocks_ok pe b Hok Eb)))) Hcs') as [Hcs0 _].
  destruct (Z.eqb_spec (o + t) bp) as [Hend|Hin].
  - rewrite Hx, (s64_small (_ + cs)) by lia.
    destruct (block_of_page_after pe b Hok Eb i Hi) as [Hn1 Hn2]. fold bp in Hn1, Hn2.
    rewrite (IH (k + t) (nr - t)); try lia.
    + replace (k + t + (nr - t)) with (k + nr) by lia.
      destruct (entry_pos pe start (k + nr)) as [[??]?]. done.
    + unfold entry_pos, pos_of. rewrite Hp, Eb. simpl.
      replace (k + t) with (i * pages_per_block b + bp) by lia. rewrite Hn1, Hn2.
      replace (Z.to_nat (i + 1)) with (S (Z.to_nat i)) by lia.
      rewrite (zsum_take_S _ _ _ Hcs'). f_equal. f_equal. lia.
  - rewrite (IH (k + t) (nr - t)); try lia.
    + replace (k + t + (nr - t)) with (k + nr) by lia.
      destruct (entry_pos pe start (k + nr)) as [[??]?]. done.
    + destruct (block_of_page_inside pe b Hok Eb i (o + t)) as [Hi1 Hi2]; [lia..|].
      unfold entry_pos, pos_of. rewrite Hp, Eb. simpl.
      replace (k + t) with (i * pages_per_block b + (o + t)) by lia. rewrite Hi1, Hi2.
      by rewrite Hx.
Qed.

Lemma entry_pos_full pe start :
  entry_ok pe -> (fst (fst (entry_pos pe start (pe_nr_pages pe)))) = start + entry_payload pe.
Proof.
  intros Hok. unfold entry_pos, entry_payload. destruct (pagemap_present pe); [|simpl; lia].
  destruct (pe_blocks pe) as [b|]; [|done]. simpl. unfold block_of_page.
  rewrite Z.eqb_refl. unfold n_block_sizes, zlen. rewrite Nat2Z.id, firstn_all. done.
Qed.

(** Skipping inside an entry: whichever path the code takes (raw offset, the
    whole-entry shortcut through [total_payload_size], or the block walk), the
    cursor ends at the position of page [k + n]. *)
Lemma skip_pagemap_pages_spec pr i pe k n :
  pagemaps_ok (pmes pr) -> at_entry pr i pe k -> 0 <= n -> k + n <= pe_nr_pages pe ->
  skip_pagemap_pages pr (n * PAGE_SIZE) =
    Ret (set_cvaddr (pe_vaddr pe + (k + n) * PAGE_SIZE)
           (set_pos (entry_pos pe (payload_start (pmes pr) i) (k + n)) pr)).
Proof.
  intros Hpm [Hl Hpe Hk Hcv Hpos] Hn Hle.
  destruct (pagemaps_ok_lookup _ _ _ Hpm Hl) as (Hok & _ & Hst & Hmax & _).
  pose proof (entry_payload_range pe Hok) as Hpay.
  unfold skip_pagemap_pages. rewrite Hpe. unfold OFF_MAX in Hmax.
  assert (He : entry_end pe < 2 ^ 64 /\ 0 <= pe_vaddr pe)
    by (destruct Hok as (?&?&?&?&?&?&?); done).
  unfold entry_end in He. unfold PAGE_SIZE in *.
  destruct (Z.eqb_spec (n * 4096) 0).
  { assert (n = 0) as -> by lia. rewrite Z.add_0_r, <- Hpos, set_pos_id.
    f_equal. rewrite <- Hcv. by destruct pr. }
  rewrite Z.div_mul by lia.
  assert (Hcv' : u64 (cvaddr pr + n * 4096) = pe_vaddr pe + (k + n) * 4096).
  { rewrite u64_small by lia. lia. }
  set (start := payload_start (pmes pr) i) in *.
  assert (Hraw : pagemap_present pe = true -> pe_blocks pe = None ->
    s64 (pi_off pr + n * 4096) = start + (k + n) * 4096 /\ pos_of pr = (start + k * 4096, 0, 0)).
  { intros Hp Eb. unfold entry_pos, PAGE_SIZE in Hpos. rewrite Hp, Eb in Hpos.
    split; [|done]. injection Hpos as -> _ _. rewrite s64_small; [lia|].
    unfold entry_payload, PAGE_SIZE in *. rewrite Hp, Eb in *. lia. }
  destruct (pagemap_present pe) eqn:Hp.
  2:{ simpl. rewrite Hcv'. unfold entry_pos in *. rewrite Hp in *. by rewrite <- Hpos, set_pos_id. }
  destruct (pe_blocks pe) as [b|] eqn:Eb.
  2:{ destruct (Hraw eq_refl eq_refl) as [-> Hpos']. simpl. rewrite Hcv'.
      unfold entry_pos. rewrite Hp, Eb. injection Hpos' as _ Hbi Hbo.
      unfold set_pos, set_pi_off, set_blk, PAGE_SIZE. destruct pr as [? ? ? ? []]. simpl in *.
      by subst. }
  pose proof (ppb_range pe b Hok Eb). pose proof (block_count_bounds pe b Hok Eb).
  destruct (Z.eqb_spec (n_block_sizes b) 0); [lia|].
  assert (Hps : start + zsum (block_sizes b) <= OFF_MAX).
  { unfold entry_payload in Hmax. rewrite Hp, Eb in Hmax. unfold OFF_MAX. lia. }
  destruct (_ && _ && _) eqn:Hfast.
  - rewrite !andb_true_iff, !Z.eqb_eq in Hfast. destruct Hfast as [[Hi0 Ho0] Hnn].
    assert (k = 0) as -> by lia. subst n. simpl. rewrite Hcv'. rewrite Z.add_0_l.
    unfold entry_pos in *. rewrite Hp, Eb in *.
    unfold block_of_page at 1 2, offset_of_page at 1. rewrite Z.eqb_refl.
    injection Hpos as Hx Hbi Hbo.
    unfold block_of_page in Hbi. destruct (Z.eqb_spec 0 (pe_nr_pages pe)); [lia|].
    assert (Hx' : pi_off pr = start).
    { rewrite Hx. unfold block_of_page. destruct (Z.eqb_spec 0 (pe_nr_pages pe)); [lia|].
      rewrite Z.div_0_l by lia. simpl. lia. }
    destruct (entry_blocks_ok pe b Hok Eb) as (_ & _ & Hf & Ht). rewrite Ht, Hx'.
    pose proof (zsum_nonneg _ (blocks_fit_nonneg _ _ _ _ Hf)).
    unfold OFF_MAX in Hps. rewrite s64_small by lia.
    unfold n_block_sizes at 2. unfold zlen. rewrite Nat2Z.id, firstn_all.
    unfold set_pos, set_pi_off, set_blk. simpl. by rewrite Ho0.
  - rewrite (skip_blocks_spec pe b start Hok Eb Hst Hps Hp (Z.to_nat n) k n pr) by (done || lia).
    simpl. destruct (entry_pos pe start (k + n)) as [[??]?]. simpl. by rewrite Hcv'.
Qed.

(** The state after moving the cursor to page [k] of entry [i]. *)
Definition moved (pr : page_read) (i : nat) (pe : pagemap_entry) (k : Z) : page_read :=
  set_cvaddr (pe_vaddr pe + k * PAGE_SIZE)
    (set_pos (entry_pos pe (payload_start (pmes pr) i) k) pr).

Lemma moved_at_entry pr i pe j k :
  at_entry pr i pe j -> 0 <= k <= pe_nr_pages pe -> at_entry (moved pr i pe k) i pe k.
Proof.
  intros [Hl Hpe _ _ _] Hk. unfold moved.
  destruct (entry_pos pe (payload_start (pmes pr) i) k) as [[x p] o] eqn:E.
  split; simpl; try done.
Qed.

(** The cached block: its decoded bytes, its address, its size. *)
Definition cache_of (pr : page_read) : list Z * Z * Z :=
  (cache_buf (blk pr), cache_vaddr (blk pr), cache_size (blk pr)).

Lemma moved_fields pr i pe k :
  pmes (moved pr i pe k) = pmes pr /\ curr_pme (moved pr i pe k) = curr_pme pr /\
  pr_pe (moved pr i pe k) = pr_pe pr /\ bunch (moved pr i pe k) = bunch pr /\
  async (moved pr i pe k) = async pr /\ disable_dedup (moved pr i pe k) = disable_dedup pr /\
  cache_of (moved pr i pe k) = cache_of pr.
Proof. unfold moved. by destruct (entry_pos _ _ _) as [[??]?]. Qed.

Lemma entry_pos_zero pe start : entry_ok pe -> entry_pos pe start 0 = (start, 0, 0).
Proof.
  intros Hok. assert (0 < pe_nr_pages pe) by (destruct Hok as (?&?&?&?&?&?); done).
  unfold entry_pos. destruct (pagemap_present pe); [|done].
  destruct (pe_blocks pe) as [b|] eqn:Eb; [|by rewrite Z.add_0_r].
  pose proof (ppb_range pe b Hok Eb).
  unfold block_of_page, offset_of_page. destruct (Z.eqb_spec 0 (pe_nr_pages pe)); [lia|].
  rewrite Z.div_0_l, Z.mod_0_l by lia. simpl. by rewrite Z.add_0_r.
Qed.

(** What [advance] leaves alone. *)
Definition same_store (pr pr' : page_read) : Prop :=
  pmes pr' = pmes pr /\ bunch pr' = bunch pr /\ async pr' = async pr /\
  disable_dedup pr' = disable_dedup pr /\ cache_of pr' = cache_of pr.

Lemma same_store_refl pr : same_store pr pr.
Proof. done. Qed.
Lemma same_store_trans a b c : same_store a b -> same_store b c -> same_store a c.
Proof. unfold same_store. intros (?&?&?&?&?) (?&?&?&?&?). split_and!; congruence. Qed.
#[export] Hint Resolve same_store_refl : criu.

(** Moving to the next entry from the end of the current one. *)
Lemma advance_next pr j pe :
  pagemaps_ok (pmes pr) -> curr_pme pr + 1 = Z.of_nat j -> pmes pr !! j = Some pe ->
  pi_off pr = pages_end 0 (take j (pmes pr)) ->
  exists pr', advance pr = (1, pr') /\ at_entry pr' j pe 0 /\ curr_pme pr' = Z.of_nat j /\ same_store pr pr'.
Proof.
  intros Hpm Hj Hl Hoff.
  destruct (pagemaps_ok_lookup _ _ _ Hpm Hl) as (Hok & Hpos & Hst & Hmax & _).
  pose proof (entry_payload_range pe Hok) as Hpay.
  unfold advance. simpl. rewrite Hj, zlookup_of_nat, Hl, Z.geb_leb.
  pose proof (lookup_lt_Some _ _ _ Hl) as Hlen.
  destruct (Z.leb_spec (zlen (pmes pr)) (Z.of_nat j)); [unfold zlen in *; lia|].
  assert (Hnr : 0 < pe_nr_pages pe) by (destruct Hok as (?&?&?&?&?&?); done).
  assert (Hat : forall pr', pmes pr' = pmes pr -> pr_pe pr' = Some pe -> cvaddr pr' = pe_vaddr pe ->
    pos_of pr' = (payload_start (pmes pr) j, 0, 0) -> at_entry pr' j pe 0).
  { intros pr' E1 E2 E3 E4. split; [by rewrite E1|done|lia|lia|].
    by rewrite E1, E4, entry_pos_zero. }
  unfold payload_start, entry_start in *. rewrite Hl in *.
  destruct (pagemap_present pe && pagemap_payload_aligned pe).
  - rewrite Hoff in *. set (o := pages_end 0 (take j (pmes pr))) in *.
    pose proof (round_up_page_bounds o) as Hru. unfold OFF_MAX, PAGE_SIZE in *.
    destruct (Z.ltb_spec o 0); [lia|]. rewrite Z.gtb_ltb. simpl.
    destruct (Z.ltb_spec (2 ^ 63 - 1 - (4096 - 1)) o).
    { exfalso. unfold round_up_page, PAGE_SIZE in *.
      pose proof (Z.div_mod (o + (4096 - 1)) 4096 ltac:(lia)).
      pose proof (Z.mod_pos_bound (o + (4096 - 1)) 4096 ltac:(lia)). lia. }
    eexists. split; [reflexivity|]. split; [|done]. apply Hat; try done.
    unfold pos_of. simpl. by rewrite page_align_offset_round.
  - eexists. split; [reflexivity|]. split; [|done]. apply Hat; try done.
    unfold pos_of. simpl. by rewrite Hoff.
Qed.

Lemma advance_last pr :
  zlen (pmes pr) <= curr_pme pr + 1 -> advance pr = (0, set_curr_pme (curr_pme pr + 1) pr).
Proof.
  intros. unfold advance. simpl. rewrite Z.geb_leb.
  destruct (Z.leb_spec (zlen (pmes pr)) (curr_pme pr + 1)); [done|lia].
Qed.

(** ** Seeking *)
Definition in_entry (pe : pagemap_entry) (vaddr : Z) : Prop :=
  pe_vaddr pe <= vaddr < entry_end pe.

Definition has_page (l : list pagemap_entry) (vaddr : Z) : Prop :=
  exists pe, pe ∈ l /\ in_entry pe vaddr.

(** The cursor stands at the start of the first entry that does not end at or
    below the address. *)
Definition at_gap (vaddr : Z) (pr : page_read) : Prop :=
  exists i pe, at_entry pr i pe 0 /\ curr_pme pr = Z.of_nat i /\
    Forall (fun q => entry_end q <= vaddr) (take i (pmes pr)).

(** The contract of [seek_pagemap]. *)
Record seek_post (pr : page_read) (vaddr r : Z) (pr' : page_read) : Prop := SeekPost {
  sp_cursor : cursor_ok pr';
  sp_store : same_store pr pr';
  sp_ret : r = 0 \/ r = 1;
  sp_iff : r = 1 <-> cvaddr pr <= vaddr /\ has_page (pmes pr) vaddr;
  sp_found : r = 1 -> exists i pe, at_entry pr' i pe ((vaddr - pe_vaddr pe) / PAGE_SIZE) /\
    curr_pme pr' = Z.of_nat i /\ in_entry pe vaddr /\ cvaddr pr' = vaddr;
  sp_missed : r = 0 -> vaddr < cvaddr pr' \/ Forall (fun pe => entry_end pe <= vaddr) (pmes pr);
  sp_gap : r = 0 -> cvaddr pr <= vaddr \/ at_gap vaddr pr -> vaddr < cvaddr pr' -> at_gap vaddr pr'
}.

(** Entries before the cursor end below it; entries after it start above. *)
Lemma has_page_from pr i pe k vaddr q :
  pagemaps_ok (pmes pr) -> at_entry pr i pe k -> cvaddr pr <= vaddr ->
  q ∈ pmes pr -> in_entry q vaddr ->
  q = pe \/ exists j, pmes pr !! j = Some q /\ (i < j)%nat.
Proof.
  intros Hpm [Hl _ Hk Hcv _] Hv Hq Hin. apply list_elem_of_lookup in Hq as [j Hj].
  destruct (Nat.lt_trichotomy i j) as [Hlt|[->|Hgt]]; [eauto|left; congruence|].
  exfalso. pose proof (ok_from_order _ 0 0 j i q pe ltac:(lia) Hpm Hj Hl Hgt).
  unfold in_entry, PAGE_SIZE in *. lia.
Qed.

Lemma cvaddr_mono pr i pe k :
  pagemaps_ok (pmes pr) -> at_entry pr i pe k ->
  pe_vaddr pe <= cvaddr pr <= entry_end pe.
Proof. intros _ [_ _ Hk -> _]. unfold entry_end, PAGE_SIZE. nia. Qed.

Lemma aligned_index pe vaddr :
  entry_ok pe -> in_entry pe vaddr -> vaddr mod PAGE_SIZE = 0 ->
  exists k, vaddr = pe_vaddr pe + k * PAGE_SIZE /\ 0 <= k < pe_nr_pages pe /\
    (vaddr - pe_vaddr pe) / PAGE_SIZE = k.
Proof.
  intros Hok Hin Hv. destruct Hok as (_ & _ & Hpv & _).
  unfold in_entry, entry_end, PAGE_SIZE in *.
  exists ((vaddr - pe_vaddr pe) / 4096).
  pose proof (Z.div_mod vaddr 4096 ltac:(lia)). pose proof (Z.div_mod (pe_vaddr pe) 4096 ltac:(lia)).
  assert (vaddr - pe_vaddr pe = (vaddr / 4096 - pe_vaddr pe / 4096) * 4096) as -> by lia.
  rewrite Z.div_mul by lia. lia.
Qed.

(** Skipping to the end of the current entry and moving on. *)
Lemma skip_to_end pr i pe k :
  pagemaps_ok (pmes pr) -> at_entry pr i pe k ->
  skip_pagemap_pages pr (u64 (entry_end pe - cvaddr pr)) = Ret (moved pr i pe (pe_nr_pages pe)) /\
  pi_off (moved pr i pe (pe_nr_pages pe)) = pages_end 0 (take (S i) (pmes pr)).
Proof.
  intros Hpm Hat. pose proof Hat as [Hl Hpe Hk Hcv Hpos].
  destruct (pagemaps_ok_lookup _ _ _ Hpm Hl) as (Hok & _ & _ & _ & Hend).
  assert (entry_end pe < 2 ^ 64 /\ 0 <= pe_vaddr pe) by (destruct Hok as (?&?&?&?&?&?&?); done).
  replace (u64 (entry_end pe - cvaddr pr)) with ((pe_nr_pages pe - k) * PAGE_SIZE)
    by (rewrite Hcv; unfold entry_end, PAGE_SIZE in *; rewrite u64_small; lia).
  rewrite (skip_pagemap_pages_spec pr i pe k) by (done || lia).
  replace (k + (pe_nr_pages pe - k)) with (pe_nr_pages pe) by lia. split; [done|].
  rewrite Hend, <- (entry_pos_full pe _ Hok). unfold moved.
  by destruct (entry_pos pe (payload_start (pmes pr) i) (pe_nr_pages pe)) as [[??]?].
Qed.

(** Past the last entry there is no page. *)
Lemma ends_below_last l i pe v :
  pagemaps_ok l -> l !! i = Some pe -> S i = length l -> entry_end pe <= v ->
  Forall (fun q => entry_end q <= v) l.
Proof.
  intros Hpm Hl Hlen Hv. apply Forall_lookup_2. intros j q Hj.
  pose proof (lookup_lt_Some _ _ _ Hj).
  destruct (decide (j = i)) as [->|]; [assert (q = pe) as -> by congruence; done|].
  pose proof (ok_from_order _ 0 0 j i q pe ltac:(lia) Hpm Hj Hl ltac:(lia)).
  destruct (pagemaps_ok_lookup _ _ _ Hpm Hl) as ((?&?&?&?&?&?) & _).
  unfold entry_end, PAGE_SIZE in *. lia.
Qed.

Lemma ends_below_take l i pe v : pagemaps_ok l -> l !! i = Some pe -> entry_end pe <= v ->
  Forall (fun q => entry_end q <= v) (take (S i) l).
Proof.
  intros Hpm Hl Hv. apply Forall_lookup_2. intros j q Hj. apply lookup_take_Some in Hj as [Hj Hlt].
  destruct (decide (j = i)) as [->|]; [assert (q = pe) as -> by congruence; done|].
  pose proof (ok_from_order _ 0 0 j i q pe ltac:(lia) Hpm Hj Hl ltac:(lia)).
  destruct (pagemaps_ok_lookup _ _ _ Hpm Hl) as ((?&?&?&?&?&?) & _).
  unfold entry_end, PAGE_SIZE in *. lia.
Qed.

Lemma no_page_beyond l v : Forall (fun q => entry_end q <= v) l -> ~ has_page l v.
Proof.
  intros Hall (q & Hq & Hqi). apply list_elem_of_lookup in Hq as [j Hj].
  pose proof (Forall_lookup_1 _ _ _ _ Hall Hj). unfold in_entry in Hqi. simpl in *. lia.
Qed.

(** A failed seek that has run through the whole pagemap. *)
Lemma seek_post_end pr pr' i pe vaddr :
  pagemaps_ok (pmes pr) -> same_store pr pr' -> at_entry pr' i pe (pe_nr_pages pe) ->
  S i = length (pmes pr) -> zlen (pmes pr) <= curr_pme pr' -> entry_end pe <= vaddr ->
  seek_post pr vaddr 0 pr'.
Proof.
  intros Hpm Hst Hat Hlen Hcur Hv. pose proof Hst as (E & _). pose proof Hat as [Hl _ _ _ _].
  rewrite E in Hl. pose proof (ends_below_last _ i pe vaddr Hpm Hl Hlen Hv) as Hall.
  split; [|done|by left| |done|by right|].
  3:{ intros _ _ Hlt. destruct Hat as [_ _ _ Hc _]. unfold entry_end in Hv. lia. }
  - eapply (cursor_done _ i pe); [done|by rewrite E|by rewrite E].
  - split; [done|]. intros [_ Hh]. by destruct (no_page_beyond _ _ Hall).
Qed.

(** Entering the next entry does not change which pages can still be found. *)
Lemma has_page_next pr i pe pe2 k vaddr :
  pagemaps_ok (pmes pr) -> at_entry pr i pe k -> pmes pr !! S i = Some pe2 ->
  entry_end pe <= vaddr -> cvaddr pr <= vaddr ->
  pe_vaddr pe2 <= vaddr /\ has_page (pmes pr) vaddr <-> has_page (pmes pr) vaddr.
Proof.
  intros Hpm Hat Hl2 Hout Hge. split; [tauto|]. intros (q & Hq & Hqi). split; [|by exists q].
  destruct (has_page_from _ _ _ _ _ _ Hpm Hat Hge Hq Hqi) as [->|(j & Hj & Hij)].
  { unfold in_entry in Hqi. lia. }
  destruct (decide (j = S i)) as [->|Hne].
  { unfold in_entry in Hqi. assert (q = pe2) as -> by congruence. lia. }
  pose proof (ok_from_order _ 0 0 (S i) j pe2 q ltac:(lia) Hpm Hl2 Hj ltac:(lia)).
  destruct (pagemaps_ok_lookup _ _ _ Hpm Hl2) as ((?&?&?&?&?&?) & _).
  unfold in_entry, entry_end, PAGE_SIZE in *. lia.
Qed.

(** The page is in the current entry. *)
Lemma seek_loop_here fuel pr i pe k vaddr :
  pagemaps_ok (pmes pr) -> at_entry pr i pe k -> curr_pme pr = Z.of_nat i ->
  vaddr mod PAGE_SIZE = 0 -> cvaddr pr <= vaddr < entry_end pe ->
  exists pr', seek_loop (S fuel) pr vaddr = Ret (1, pr') /\ seek_post pr vaddr 1 pr'.
Proof.
  intros Hpm Hat Hcur Hva Hv. pose proof Hat as [Hl Hpe Hk Hcv Hpos].
  destruct (pagemaps_ok_lookup _ _ _ Hpm Hl) as (Hok & _).
  pose proof (cvaddr_mono _ _ _ _ Hpm Hat) as Hmono.
  assert (Hee : entry_end pe < 2 ^ 64 /\ 0 <= pe_vaddr pe) by (destruct Hok as (?&?&?&?&?&?&?); done).
  assert (Hin : in_entry pe vaddr) by (unfold in_entry; lia).
  simpl. rewrite Hpe, entry_end_u64 by done. rewrite Z.geb_leb.
  destruct (Z.ltb_spec vaddr (cvaddr pr)); [lia|].
  destruct (Z.leb_spec (pe_vaddr pe) vaddr); [|lia].
  destruct (Z.ltb_spec vaddr (entry_end pe)); [|lia]. simpl.
  destruct (aligned_index pe vaddr Hok Hin Hva) as (kk & Hkk & Hkr & Hdiv).
  assert (Hk2 : k <= kk) by (unfold PAGE_SIZE in *; lia).
  replace (u64 (vaddr - cvaddr pr)) with ((kk - k) * PAGE_SIZE)
    by (rewrite u64_small by lia; unfold PAGE_SIZE in *; lia).
  rewrite (skip_pagemap_pages_spec pr i pe k) by (done || lia).
  replace (k + (kk - k)) with kk by lia. simpl. fold (moved pr i pe kk).
  assert (Hm : at_entry (moved pr i pe kk) i pe kk) by (apply (moved_at_entry _ _ _ k); done || lia).
  destruct (moved_fields pr i pe kk) as (E1 & E2 & E3 & E4 & E5 & E6 & E7).
  exists (moved pr i pe kk). split; [done|]. split; try done.
  - eapply cursor_at; [done|congruence].
  - by right.
  - split; [|done]. intros _. split; [lia|]. exists pe. split; [|done].
    apply list_elem_of_lookup. eauto.
  - intros _. exists i, pe. rewrite Hdiv. split; [done|]. split; [congruence|].
    split; [done|]. destruct Hm as [_ _ _ -> _]. lia.
Qed.

(** The loop from a position inside the pagemap. *)
Lemma seek_loop_at vaddr : vaddr mod PAGE_SIZE = 0 -> 0 <= vaddr < 2 ^ 64 ->
  forall fuel pr i pe k, pagemaps_ok (pmes pr) -> at_entry pr i pe k ->
  curr_pme pr = Z.of_nat i -> (length (pmes pr) <= i + fuel)%nat ->
  exists r pr', seek_loop fuel pr vaddr = Ret (r, pr') /\ seek_post pr vaddr r pr'.
Proof.
  intros Hva Hvr. induction fuel as [|fuel IH]; intros pr i pe k Hpm Hat Hcur Hf;
    pose proof Hat as [Hl Hpe Hk Hcv Hpos].
  { apply lookup_lt_Some in Hl. lia. }
  destruct (pagemaps_ok_lookup _ _ _ Hpm Hl) as (Hok & _).
  pose proof (cvaddr_mono _ _ _ _ Hpm Hat) as Hmono.
  destruct (Z.lt_ge_cases vaddr (cvaddr pr)) as [Hlt|Hge].
  { exists 0, pr. simpl. rewrite Hpe. destruct (Z.ltb_spec vaddr (cvaddr pr)); [|lia].
    split; [done|]. split; [by eapply cursor_at|done|lia| |done|lia|].
    - split; [done|]. intros [? _]. lia.
    - intros _ [?|?] _; [lia|done]. }
  destruct (Z.lt_ge_cases vaddr (entry_end pe)) as [Hin|Hout].
  { destruct (seek_loop_here fuel pr i pe k vaddr Hpm Hat Hcur Hva) as (pr' & Hs & Hp); [lia|].
    by exists 1, pr'. }
  simpl. rewrite Hpe, entry_end_u64 by done. rewrite Z.geb_leb.
  destruct (Z.ltb_spec vaddr (cvaddr pr)); [lia|].
  destruct (Z.ltb_spec vaddr (entry_end pe)); [lia|]. rewrite andb_false_r.
  destruct (Z.leb_spec (entry_end pe) vaddr) as [_|?]; [|lia].
  destruct (skip_to_end pr i pe k Hpm Hat) as [-> Hpo]. simpl.
  destruct (moved_fields pr i pe (pe_nr_pages pe)) as (E1 & E2 & E3 & E4 & E5 & E6 & E7).
  assert (Hm : at_entry (moved pr i pe (pe_nr_pages pe)) i pe (pe_nr_pages pe)).
  { apply (moved_at_entry _ _ _ k); [done|]. destruct Hok as (?&?&?&?&?&?); lia. }
  generalize dependent (moved pr i pe (pe_nr_pages pe)). intros prm Hpo E1 E2 E3 E4 E5 E6 E7 Hm.
  destruct (pmes pr !! S i) as [pe2|] eqn:Hl2.
  - destruct (advance_next prm (S i) pe2) as (pr2 & -> & Hat2 & Hcur2 & Hst2);
      [congruence|rewrite E2, Hcur; lia|congruence|congruence|].
    simpl. assert (Hst3 : same_store pr pr2)
      by (destruct Hst2 as (?&?&?&?&?); split_and!; congruence).
    pose proof Hst3 as (E & _).
    destruct (IH pr2 (S i) pe2 0) as (r & pr' & Hs & [P1 P2 P3 P4 P5 P6 P7]); try done;
      [by rewrite E|rewrite E; lia|].
    exists r, pr'. split; [done|]. split; rewrite ?E in *; try done.
    + by eapply same_store_trans.
    + rewrite P4. destruct Hat2 as [_ _ _ -> _]. rewrite Z.mul_0_l, Z.add_0_r.
      rewrite (has_page_next pr i pe pe2 k vaddr) by done. tauto.
    + intros Hr _. apply P7; [done|]. right. exists (S i), pe2. split; [done|]. split; [done|].
      rewrite E. by apply (ends_below_take _ _ pe).
  - assert (Hlen : S i = length (pmes pr)).
    { apply lookup_ge_None in Hl2. apply lookup_lt_Some in Hl. lia. }
    rewrite advance_last by (rewrite E1, E2, Hcur; unfold zlen; lia). simpl.
    exists 0, (set_curr_pme (curr_pme prm + 1) prm). split; [done|].
    eapply (seek_post_end _ _ i pe); try done; [by destruct Hm|].
    simpl. rewrite E2, Hcur. unfold zlen. lia.
Qed.

(** From the end of the pagemap nothing more is found. *)
Lemma seek_loop_done fuel pr i pe vaddr :
  pagemaps_ok (pmes pr) -> at_entry pr i pe (pe_nr_pages pe) -> S i = length (pmes pr) ->
  zlen (pmes pr) <= curr_pme pr -> 0 <= vaddr < 2 ^ 64 ->
  exists r pr', seek_loop (S fuel) pr vaddr = Ret (r, pr') /\ seek_post pr vaddr r pr'.
Proof.
  intros Hpm Hat Hlen Hcur Hvr. pose proof Hat as [Hl Hpe Hk Hcv Hpos].
  destruct (pagemaps_ok_lookup _ _ _ Hpm Hl) as (Hok & _).
  assert (Hcv' : cvaddr pr = entry_end pe) by (by rewrite Hcv).
  simpl. rewrite Hpe, entry_end_u64 by done. rewrite Z.geb_leb, Hcv'.
  destruct (Z.ltb_spec vaddr (entry_end pe)) as [Hlt|Hge].
  { exists 0, pr. split; [done|]. split; [by eapply cursor_done|done|lia| |done|intros _; left; lia|].
    - split; [done|]. intros [? _]. lia.
    - intros _ [?|?] _; [lia|done]. }
  rewrite andb_false_r. destruct (Z.leb_spec (entry_end pe) vaddr); [|lia].
  rewrite Z.sub_diag. change (u64 0) with 0. simpl.
  rewrite advance_last by lia. simpl.
  exists 0, (set_curr_pme (curr_pme pr + 1) pr). split; [done|].
  eapply (seek_post_end _ _ i pe); try done; try (by destruct Hat). simpl. lia.
Qed.

(** The first entry, entered from a reset reader. *)
Lemma has_page_first pe0 l vaddr :
  pagemaps_ok (pe0 :: l) -> 0 <= vaddr ->
  pe_vaddr pe0 <= vaddr /\ has_page (pe0 :: l) vaddr <-> 0 <= vaddr /\ has_page (pe0 :: l) vaddr.
Proof.
  intros Hpm Hv. split; intros [_ (q & Hq & Hqi)]; (split; [|by exists q]); [done|].
  apply list_elem_of_lookup in Hq as [[|j] Hj]; simpl in Hj.
  - injection Hj as ->. unfold in_entry in Hqi. lia.
  - pose proof (ok_from_order (pe0 :: l) 0 0 0 (S j) pe0 q ltac:(lia) Hpm eq_refl Hj ltac:(lia)) as Ho.
    destruct (ok_from_lookup (pe0 :: l) 0 0 0 pe0 ltac:(lia) Hpm eq_refl) as ((?&?&?&?&?&?) & _).
    unfold in_entry, entry_end, PAGE_SIZE in *. lia.
Qed.

Lemma seek_pagemap_spec (pr : page_read) (vaddr : Z) :
  pagemaps_ok (pmes pr) -> cursor_ok pr -> vaddr mod PAGE_SIZE = 0 -> 0 <= vaddr < 2 ^ 64 ->
  exists r pr', seek_pagemap pr vaddr = Ret (r, pr') /\ seek_post pr vaddr r pr'.
Proof.
  intros Hpm [Hpe Hcur Hcv Hpos|i pe k Hat Hcur|i pe Hat Hlen Hcur] Hva Hvr; unfold seek_pagemap.
  - rewrite Hpe. injection Hpos as Hpi Hbi Hbo. destruct (pmes pr) as [|pe0 l] eqn:Epm.
    + rewrite advance_last by (rewrite Epm; unfold zlen; simpl; lia). simpl.
      exists 0, (set_curr_pme (curr_pme pr + 1) pr). split; [done|]. split; try done.
      * apply cursor_reset; simpl; try done; [|unfold pos_of; simpl; congruence].
        right. split; [done|lia].
      * by left.
      * rewrite Epm. split; [done|]. by intros [_ (q & Hq%elem_of_nil & _)].
      * intros _. right. rewrite Epm. apply Forall_nil_2.
      * simpl. rewrite Hcv. lia.
    + destruct Hcur as [Hcur|[? _]]; [|done].
      destruct (advance_next pr 0 pe0) as (pr1 & -> & Hat1 & Hcur1 & Hst1);
        [by rewrite Epm|lia|by rewrite Epm|by rewrite Epm, Hpi|].
      simpl. pose proof Hst1 as (E & _). rewrite Epm in E.
      destruct (seek_loop_at vaddr Hva Hvr (seek_fuel pr1) pr1 0 pe0 0)
        as (r & pr' & Hs & [P1 P2 P3 P4 P5 P6 P7]); try done;
        [by rewrite E|unfold seek_fuel; lia|].
      exists r, pr'. split; [done|]. split; rewrite ?Epm; rewrite ?E in *; try done.
      * by eapply same_store_trans.
      * rewrite P4, Hcv. destruct Hat1 as [_ _ _ -> _]. rewrite Z.mul_0_l, Z.add_0_r.
        apply has_page_first; [done|lia].
      * intros Hr _. apply P7; [done|]. right. exists 0%nat, pe0. split; [done|]. split; [done|].
        rewrite take_0. apply Forall_nil_2.
  - pose proof Hat as [_ -> _ _ _]. apply (seek_loop_at vaddr Hva Hvr _ pr i pe k); try done.
    unfold seek_fuel. lia.
  - pose proof Hat as [_ -> _ _ _]. by apply (seek_loop_done _ pr i pe).
Qed.

(** [seek_pagemap] finds a page exactly when the pagemap has it at or after
    the cursor.  It never hits [BUG()] and always returns; on success the
    reader stands on the entry that holds the page, and its file offset, block
    index and in-block offset are those of that page in the pages image (the
    [at_entry] invariant); on failure either every entry ends at or below the
    address or the cursor stands beyond it, at the start of the first entry
    behind the address if it was not beyond it already.  The queue, the dedup
    bunch and the pagemap are untouched. *)
Theorem seek_pagemap_correct (pr : page_read) (vaddr : Z) :
  pagemaps_ok (pmes pr) -> cursor_ok pr -> vaddr mod PAGE_SIZE = 0 -> 0 <= vaddr < 2 ^ 64 ->
  exists r pr', seek_pagemap pr vaddr = Ret (r, pr') /\ seek_post pr vaddr r pr'.
Proof. apply seek_pagemap_spec. Qed.

(** Skipping composes: skipping [n] pages and then [m] pages of an entry
    reaches the very state that skipping [n + m] pages at once does.  With
    [n + m] the whole entry this is the agreement of the O(1) shortcut through
    [total_payload_size] with every way of walking [block_sizes] block by
    block; no [BUG()] is hit on either side. *)
Theorem skip_pagemap_pages_compose (pr : page_read) i pe k n m :
  pagemaps_ok (pmes pr) -> at_entry pr i pe k ->
  0 <= n -> 0 <= m -> k + n + m <= pe_nr_pages pe ->
  exists pr', skip_pagemap_pages pr ((n + m) * PAGE_SIZE) = Ret pr' /\
    (let! pr1 := skip_pagemap_pages pr (n * PAGE_SIZE) in
     skip_pagemap_pages pr1 (m * PAGE_SIZE)) = Ret pr' /\
    at_entry pr' i pe (k + n + m).
Proof.
  intros Hpm Hat Hn Hm Hle. pose proof Hat as [_ _ Hk _ _].
  rewrite (skip_pagemap_pages_spec pr i pe k (n + m)) by (done || lia).
  rewrite (skip_pagemap_pages_spec pr i pe k n) by (done || lia). simpl.
  fold (moved pr i pe (k + n)). fold (moved pr i pe (k + (n + m))).
  destruct (moved_fields pr i pe (k + n)) as (E1 & _).
  rewrite (skip_pagemap_pages_spec (moved pr i pe (k + n)) i pe (k + n) m);
    [|by rewrite E1|by apply (moved_at_entry _ _ _ k); [|lia]|done|lia].
  replace (k + (n + m)) with (k + n + m) by lia.
  exists (moved pr i pe (k + n + m)). split; [done|]. split; [|by apply (moved_at_entry _ _ _ k); [|lia]].
  rewrite E1. unfold moved. f_equal.
  destruct (entry_pos pe (payload_start (pmes pr) i) (k + n)) as [[??]?].
  by destruct (entry_pos pe (payload_start (pmes pr) i) (k + n + m)) as [[??]?].
Qed.

(** [reset_pagemap] rewinds every reader of a chain to a state from which
    seeking starts over: all cursors satisfy the invariant again, whatever
    state they were in, and pagemaps, queues and caches are kept. *)
Theorem reset_pagemap_ok (chain : list page_read) :
  Forall cursor_ok (reset_pagemap chain) /\
  Forall2 (fun pr pr' => same_store pr pr' /\ cache_buf (blk pr') = cache_buf (blk pr) /\
      cache_size (blk pr') = cache_size (blk pr) /\
      (pmes pr <> [] -> pagemaps_ok (pmes pr) -> exists pe, advance pr' = (1, pe) /\ cursor_ok pe))
    chain (reset_pagemap chain).
Proof.
  unfold reset_pagemap. split.
  - apply Forall_fmap, Forall_true. intros pr. apply cursor_reset; try done. by left.
  - apply Forall2_fmap_r, Forall_Forall2_diag, Forall_true. intros pr. split_and!; try done.
    intros Hne Hpm. simpl. destruct (pmes pr) as [|pe l] eqn:E; [done|].
    destruct (advance_next (reset_one pr) 0 pe) as (pr' & Ha & Hat & Hc & _);
      simpl; rewrite ?E; try done.
    exists pr'. split; [done|]. by eapply cursor_at.
Qed.

(** A reader over the sample pagemap, rewound. *)
Definition sample_reader : page_read :=
  PageRead None 0 0 0 (BlkState 0 0 [] 0 0) (Iovec 0 0)
    (init_compat_pagemap_entry <$> sample_es) (-1) [] false.

Lemma seek_pagemap_correct_witness :
  exists r pr', seek_pagemap sample_reader 0xd000 = Ret (r, pr') /\
    seek_post sample_reader 0xd000 r pr' /\ r = 1 /\ pos_of pr' = (12288 + 100, 1, 0).
Proof.
  destruct (seek_pagemap_correct sample_reader 0xd000) as (r & pr' & Hs & Hp).
  - exact sample_ok.
  - apply cursor_reset; try done. by left.
  - reflexivity.
  - lia.
  - exists r, pr'. split; [exact Hs|]. split; [exact Hp|].
    vm_compute in Hs. injection Hs as <- <-. done.
Defined.

Lemma skip_pagemap_pages_compose_witness :
  exists pr pr', pagemaps_ok (pmes pr) /\ at_entry pr 1 sample_lz4 0 /\
    skip_pagemap_pages pr (3 * PAGE_SIZE) = Ret pr' /\ pi_off pr' = 12388.
Proof.
  destruct (seek_pagemap sample_reader 0xb000) as [[r pr]| |] eqn:Hs; [|vm_compute in Hs; done..].
  assert (Hat : at_entry pr 1 sample_lz4 0).
  { vm_compute in Hs. injection Hs as <- <-. split; vm_compute; (done || (split; discriminate)). }
  assert (Hpm : pagemaps_ok (pmes pr)).
  { vm_compute in Hs. injection Hs as <- <-. exact sample_ok. }
  destruct (skip_pagemap_pages_compose pr 1 sample_lz4 0 1 2 Hpm Hat) as (pr' & H1 & _ & _);
    [lia|lia|simpl; lia|].
  exists pr, pr'. split; [exact Hpm|]. split; [exact Hat|]. split; [exact H1|].
  vm_compute in Hs. injection Hs as <- <-. vm_compute in H1. injection H1 as <-. reflexivity.
Defined.
