(* ===== verification/Dedup.v ===== *)
(** Releasing the space of pages that have been read: [punch_hole] of
    criu/pagemap.c.  Ranges to punch are collected in the reader's bunch and
    punched with one fallocate() when the next range does not continue it. *)
From S2P Require Import Prelude.

Definition MAX_BUNCH_SIZE : Z := 256.

(** The bunch, the outcomes of the fallocate() calls to come (beyond the list
    they succeed), and the ranges punched so far, the oldest first. *)
Record dedup_state := DedupState {
  ds_bunch : iovec;
  ds_fallocs : list bool;
  ds_punched : list iovec
}.

Definition can_extend_bunch (bunch : iovec) (off len : Z) : bool :=
  (u64 (iov_base bunch + iov_len bunch) =? off) &&
  ((iov_len bunch =? 0) || (u64 (iov_len bunch + len) <? MAX_BUNCH_SIZE * PAGE_SIZE)).

Definition punch_hole (d : dedup_state) (off len : Z) (cleanup : bool) : Z * dedup_state :=
  let bunch := ds_bunch d in
  if negb cleanup && can_extend_bunch bunch off len then
    (0, DedupState (Iovec (iov_base bunch) (u64 (iov_len bunch + len))) (ds_fallocs d) (ds_punched d))
  else if iov_len bunch >? 0 then
    let '(ok, fa) := xalloc (ds_fallocs d) in
    if negb ok then (-1, DedupState bunch fa (ds_punched d))
    else (0, DedupState (Iovec off len) fa (ds_punched d ++ [bunch]))
  else (0, DedupState (Iovec off len) (ds_fallocs d) (ds_punched d)).

(** The flush of a last bunch (end of [process_async_reads_ctx]). *)
Definition punch_flush (d : dedup_state) : Z * dedup_state :=
  if iov_len (ds_bunch d) >? 0 then
    let '(ret, d) := punch_hole d 0 0 true in
    if ret =? 0 then (0, DedupState (Iovec (iov_base (ds_bunch d)) 0) (ds_fallocs d) (ds_punched d))
    else (ret, d)
  else (0, d).

(** The bytes punched or about to be, in order. *)
Definition range_bytes (iov : iovec) : list Z := seqZ (iov_base iov) (iov_len iov).
Definition released (d : dedup_state) : list Z :=
  concat (range_bytes <$> ds_punched d) ++ range_bytes (ds_bunch d).

(** A run of requests. *)
Fixpoint punch_all (d : dedup_state) (l : list iovec) : Z * dedup_state :=
  match l with
  | [] => (0, d)
  | iov :: l =>
      let '(ret, d) := punch_hole d (iov_base iov) (iov_len iov) false in
      if ret =? 0 then punch_all d l else (ret, d)
  end.

Definition range_ok (iov : iovec) : Prop :=
  0 <= iov_base iov /\ 0 <= iov_len iov /\ iov_base iov + iov_len iov < 2 ^ 64.

Lemma punch_hole_ok d off len ret d' :
  range_ok (ds_bunch d) -> range_ok (Iovec off len) -> punch_hole d off len false = (ret, d') ->
  range_ok (ds_bunch d') /\
  (ret = 0 /\ released d' = released d ++ seqZ off len /\ (ds_fallocs d = [] -> ds_fallocs d' = []) \/
   ret = -1 /\ released d' = released d /\ ds_fallocs d <> []).
Proof.
  intros (B1 & B2 & B3) (R1 & R2 & R3). unfold punch_hole. cbn [negb andb]. simpl in *.
  destruct (can_extend_bunch (ds_bunch d) off len) eqn:Ec.
  - unfold can_extend_bunch in Ec. apply andb_true_iff in Ec as [Ec _]. apply Z.eqb_eq in Ec.
    rewrite u64_small in Ec by lia. intros [= <- <-]. rewrite u64_small by lia. split.
    + unfold range_ok. simpl. lia.
    + left. split; [done|]. split; [|done]. unfold released, range_bytes. simpl.
      rewrite <- app_assoc. f_equal. rewrite seqZ_app by lia. by rewrite Ec.
  - rewrite Z.gtb_ltb. destruct (Z.ltb_spec 0 (iov_len (ds_bunch d))) as [Hpos|Hz].
    + destruct (xalloc (ds_fallocs d)) as [[] fa] eqn:Ex; simpl; intros [= <- <-].
      * split; [done|]. left. split; [done|]. split.
        -- unfold released. simpl. rewrite fmap_app, concat_app. simpl. by rewrite app_nil_r.
        -- intros Hf. rewrite Hf in Ex. by injection Ex as <-.
      * split; [done|]. right. split; [done|]. split; [done|]. intros Hf. by rewrite Hf in Ex.
    + intros [= <- <-]. split; [done|]. left. split; [done|]. split; [|done].
      unfold released, range_bytes. simpl. assert (iov_len (ds_bunch d) = 0) as -> by lia. by rewrite app_nil_r.
Qed.

Lemma punch_all_ok l : forall d, range_ok (ds_bunch d) -> Forall range_ok l ->
  exists ret d' k, punch_all d l = (ret, d') /\ range_ok (ds_bunch d') /\
    released d' = released d ++ concat (range_bytes <$> take k l) /\
    (ret = 0 /\ k = length l \/ ret = -1 /\ ds_fallocs d <> []) /\ (ds_fallocs d = [] -> ds_fallocs d' = []).
Proof.
  induction l as [|iov l IH]; intros d Hd Hl.
  { exists 0, d, 0%nat. split_and!; try done; [by rewrite app_nil_r|by left]. }
  apply Forall_cons_1 in Hl as [Hi Hl]. cbn [punch_all].
  destruct (punch_hole d (iov_base iov) (iov_len iov) false) as [ret d1] eqn:E.
  assert (Hi' : range_ok (Iovec (iov_base iov) (iov_len iov))) by (by destruct iov).
  destruct (punch_hole_ok d _ _ _ _ Hd Hi' E) as (H1 & [(-> & H2 & H3)|(-> & H2 & H3)]).
  - simpl. destruct (IH d1 H1 Hl) as (ret & d' & k & -> & K1 & K2 & K3 & K4).
    exists ret, d', (S k). split_and!; try done.
    + rewrite K2, H2, <- app_assoc. done.
    + destruct K3 as [[-> ->]|[-> Hf]]; [by left|right; split; [done|]]. intros Hd0. apply Hf. by apply H3.
    + intros Hd0. apply K4. by apply H3.
  - simpl. exists (-1), d1, 0%nat. split_and!; try done; [by rewrite H2, app_nil_r|by right].
Qed.

(** Batching the holes loses none.  Starting from an empty bunch, however
    the ranges to release continue each other and wherever the size limit
    cuts a bunch, [punch_hole] over a list of ranges and the final flush
    punch exactly the bytes of the ranges, in order and once each; the only
    failure is a failing fallocate(). *)
Theorem punch_all_exact fallocs l :
  Forall range_ok l ->
  let d := DedupState (Iovec 0 0) fallocs [] in
  let '(ret, d') := punch_all d l in
  let '(ret2, d2) := punch_flush d' in
  (ret = 0 -> ret2 = 0 -> concat (range_bytes <$> ds_punched d2) = concat (range_bytes <$> l)) /\
  (fallocs = [] -> ret = 0 /\ ret2 = 0).
Proof.
  intros Hl d. assert (Hd : range_ok (ds_bunch d)) by (unfold range_ok; simpl; lia).
  destruct (punch_all_ok l d Hd Hl) as (ret & d' & k & -> & (B1 & B2 & B3) & K2 & K3 & K4).
  assert (Hret : ret = 0 -> concat (range_bytes <$> ds_punched d') ++ range_bytes (ds_bunch d') = concat (range_bytes <$> l)).
  { intros ->. destruct K3 as [[_ ->]|[? _]]; [|done]. unfold released in K2. rewrite firstn_all in K2. exact K2. }
  assert (Hok : fallocs = [] -> ret = 0 /\ ds_fallocs d' = []).
  { intros ->. split; [|by apply K4]. destruct K3 as [[-> _]|[_ Hf]]; [done|by destruct Hf]. }
  unfold punch_flush. rewrite Z.gtb_ltb. destruct (Z.ltb_spec 0 (iov_len (ds_bunch d'))) as [Hpos|Hz].
  - unfold punch_hole. cbn [negb andb]. rewrite Z.gtb_ltb.
    destruct (Z.ltb_spec 0 (iov_len (ds_bunch d'))); [|lia].
    destruct (xalloc (ds_fallocs d')) as [[] fa] eqn:Ex; simpl.
    + split; [|by intros Hf; destruct (Hok Hf)]. intros Hr _. rewrite fmap_app, concat_app. simpl.
      rewrite app_nil_r. by apply Hret.
    + split; [done|]. intros Hf. destruct (Hok Hf) as [_ Hfa]. by rewrite Hfa in Ex.
  - split; [|by intros Hf; destruct (Hok Hf)]. intros Hr _. rewrite <- (Hret Hr).
    unfold range_bytes at 3. assert (iov_len (ds_bunch d') = 0) as -> by lia. by rewrite app_nil_r.
Qed.

Lemma punch_all_exact_witness :
  let '(ret, d') := punch_all (DedupState (Iovec 0 0) [] []) [Iovec 4096 4096; Iovec 8192 4096; Iovec 65536 8] in
  let '(ret2, d2) := punch_flush d' in
  ret = 0 /\ ret2 = 0 /\ ds_punched d2 = [Iovec 4096 8192; Iovec 65536 8] /\
  concat (range_bytes <$> ds_punched d2) = concat (range_bytes <$> [Iovec 4096 4096; Iovec 8192 4096; Iovec 65536 8]).
Proof.
  assert (Hl : Forall range_ok [Iovec 4096 4096; Iovec 8192 4096; Iovec 65536 8]).
  { repeat (apply Forall_cons_2; [unfold range_ok; simpl; lia|]). apply Forall_nil_2. }
  destruct (punch_all_exact [] _ Hl) as [H _].
  split; [reflexivity|]. split; [reflexivity|]. split; [reflexivity|]. exact (H eq_refl eq_refl).
Defined.
