(* ===== verification/AsyncQueue.v ===== *)
(** The queue of asynchronous page reads: how [pagemap_enqueue_iovec] of
    criu/pagemap.c turns one request into preadv() jobs, merging it with the
    tail of the queue where offset, storage kind, block size and limits allow,
    splitting compressed requests into runs of equal storage, and undoing
    everything when an allocation or a metadata check fails; and the checks of
    criu/compression.c that the consumer runs on such jobs.

    An array that C grows with xrealloc() is a list together with the count of
    valid elements ([pi_to] with [pi_nr], [bl_sizes] and [pi_block_pages] with
    [bl_nr_blocks]): rollback in the code resets the count and leaves stale
    elements behind, and so does the model. *)
From S2P Require Import Prelude PagemapImage PageRead Dedup.

Definition ASYNC_BATCH_MAX_BYTES : Z := 32 * 1024 * 1024.
Definition ASYNC_BATCH_MAX_PAGES : Z := ASYNC_BATCH_MAX_BYTES / PAGE_SIZE.
Definition DIRECT_COMPRESSED_RUN_MIN_BYTES : Z := 64 * 1024.
Definition PARALLEL_RESTORE_MIN_BATCH_BYTES : Z := 1024 * 1024.
Definition IOV_MAX : Z := 1024.

(** ** Geometry and storage kind of a block *)
Definition compressed_block_layout (pe : pagemap_entry) (index : Z) : option (Z * Z) :=
  let ppb := pagemap_block_pages pe in
  match pe_blocks pe with
  | None => None
  | Some b =>
      if index >=? n_block_sizes b then None
      else
        let first_page := u64 (index * ppb) in
        if first_page >=? pe_nr_pages pe then None
        else
          let pages_left := pe_nr_pages pe - first_page in
          let block_pages := if pages_left <? ppb then u32 pages_left else ppb in
          Some (block_pages, u64 (block_pages * PAGE_SIZE))
  end.

Definition compressed_block_storage (pe : pagemap_entry) (index : Z)
    : option (restore_vma_io_storage * Z) :=
  match compressed_block_layout pe index with
  | None => None
  | Some (block_pages, block_bytes) =>
      match pe_blocks pe with
      | None => None
      | Some b =>
          match zlookup (block_sizes b) index with
          | None => None
          | Some compressed_size =>
              Some (if compressed_size =? 0 then VMA_IO_ZERO
                    else if compressed_size =? block_bytes then VMA_IO_PACKED_RAW
                    else VMA_IO_ENCODED, block_pages)
          end
      end
  end.

(** ** Adding the blocks of a request to a job *)

(** The copy loop of [piov_add_compressed_blocks] over [n] blocks from [idx]:
    the sizes and page counts it appends. *)
Fixpoint copy_blocks (n : nat) (pe : pagemap_entry) (b : pagemap_blocks)
    (storage : restore_vma_io_storage) (idx : Z) : option (list Z * list Z) :=
  match n with
  | O => Some ([], [])
  | S n =>
      match zlookup (block_sizes b) idx, compressed_block_storage pe idx with
      | Some cs, Some (block_storage, cur_block_pages) =>
          if (bool_decide (storage = VMA_IO_PACKED_RAW) || bool_decide (storage = VMA_IO_ZERO)) &&
             negb (bool_decide (block_storage = storage)) then None
          else
            match copy_blocks n pe b storage (idx + 1) with
            | Some (css, bps) => Some (cs :: css, u16 cur_block_pages :: bps)
            | None => None
            end
      | _, _ => None
      end
  end.

Definition piov_append (piov : page_read_iov) (css bps : list Z) (block_pages : Z) : page_read_iov :=
  let first := Z.to_nat (bl_nr_blocks (pi_layout piov)) in
  let added := u64 (zsum css) in
  PageReadIov (pi_from piov) (s64 (pi_end piov + added)) (pi_to piov) (pi_nr piov) (pi_storage piov)
    (PageBlockLayout (take first (bl_sizes (pi_layout piov)) ++ css)
       (bl_nr_blocks (pi_layout piov) + zlen css)
       (u64 (bl_total_bytes (pi_layout piov) + added)) block_pages)
    (pi_n_pages piov) (take first (pi_block_pages piov) ++ bps).

Definition piov_add_compressed_blocks (al : list bool) (piov : page_read_iov) (pr : page_read)
    (nr_pages : Z) (storage : restore_vma_io_storage) : option page_read_iov * list bool :=
  match pr_pe pr with
  | None => (None, al)
  | Some pe =>
      let idx := block_idx (blk pr) in
      let block_pages := pagemap_block_pages pe in
      let pages_consumed := u64 (idx * block_pages) in
      let end_page := u64 (pages_consumed + nr_pages) in
      if negb (pages_consumed mod block_pages =? 0) ||
         (negb (nr_pages mod block_pages =? 0) && negb (end_page =? pe_nr_pages pe)) then (None, al)
      else
        let n_blocks := block_nr_blocks nr_pages block_pages in
        match pe_blocks pe with
        | None => (None, al)
        | Some b =>
            if idx + n_blocks >? n_block_sizes b then (None, al)
            else
              let '(ok_cs, al) := xalloc al in
              if negb ok_cs then (None, al)
              else
                let '(ok_bp, al) := xalloc al in
                if negb ok_bp then (None, al)
                else
                  match copy_blocks (Z.to_nat n_blocks) pe b storage idx with
                  | None => (None, al)
                  | Some (css, bps) => (Some (piov_append piov css bps block_pages), al)
                  end
        end
  end.

(** ** Starting a job *)
Definition is_uncompressed (s : restore_vma_io_storage) : bool :=
  bool_decide (s = VMA_IO_UNCOMPRESSED).

(** The queue is [to], the result 0 or -1. *)
Definition enqueue_async_iov (al : list bool) (pr : page_read) (buf len : Z)
    (to : list page_read_iov) (storage : restore_vma_io_storage)
    : Z * list page_read_iov * list bool :=
  if (len =? 0) || negb (len mod PAGE_SIZE =? 0) then (-1, to, al)
  else
    let has_blocks :=
      match pr_pe pr with
      | Some pe => match pe_blocks pe with Some _ => true | None => false end
      | None => false
      end in
    if is_uncompressed storage && has_blocks then (-1, to, al)
    else if negb (is_uncompressed storage) && negb has_blocks then (-1, to, al)
    else
      let '(ok_piov, al) := xalloc al in
      if negb ok_piov then (-1, to, al)
      else
        let '(ok_iov, al) := xalloc al in
        if negb ok_iov then (-1, to, al)
        else
          let pr_iov := PageReadIov (pi_off pr) (pi_off pr) [Iovec buf len] 1 storage
                          (PageBlockLayout [] 0 0 0) (len / PAGE_SIZE) [] in
          if is_uncompressed storage then
            (0, to ++ [PageReadIov (pi_from pr_iov) (s64 (pi_end pr_iov + len)) (pi_to pr_iov)
                         (pi_nr pr_iov) storage (pi_layout pr_iov) (pi_n_pages pr_iov) []], al)
          else
            match piov_add_compressed_blocks al pr_iov pr (len / PAGE_SIZE) storage with
            | (Some pr_iov, al) => (0, to ++ [pr_iov], al)
            | (None, al) => (-1, to, al)
            end.

(** ** Extending the tail of the queue *)
Definition set_tail (q : list page_read_iov) (x : page_read_iov) : list page_read_iov :=
  take (pred (length q)) q ++ [x].

Definition piov_with_to (p : page_read_iov) (to : list iovec) (nr n_pages : Z) : page_read_iov :=
  PageReadIov (pi_from p) (pi_end p) to nr (pi_storage p) (pi_layout p) n_pages (pi_block_pages p).

Definition piov_set_end (p : page_read_iov) (e : Z) : page_read_iov :=
  PageReadIov (pi_from p) e (pi_to p) (pi_nr p) (pi_storage p) (pi_layout p) (pi_n_pages p)
    (pi_block_pages p).

(** The second half of [pagemap_enqueue_iovec_one]: [p] already has the new
    destination; [undo] is the job after the rollback label. *)
Definition enqueue_finish (al : list bool) (pr : page_read) (len : Z) (to : list page_read_iov)
    (storage : restore_vma_io_storage) (p undo : page_read_iov)
    : Z * list page_read_iov * list bool :=
  if is_uncompressed storage then
    (0, set_tail to (piov_set_end p (s64 (pi_end p + len))), al)
  else
    match piov_add_compressed_blocks al p pr (len / PAGE_SIZE) storage with
    | (Some p, al) => (0, set_tail to p, al)
    | (None, al) => (-1, set_tail to undo, al)
    end.

Definition pagemap_enqueue_iovec_one (al : list bool) (pr : page_read) (buf len : Z)
    (to : list page_read_iov) (storage : restore_vma_io_storage)
    : Z * list page_read_iov * list bool :=
  let new_block_pages :=
    if is_uncompressed storage then 0
    else match pr_pe pr with Some pe => pagemap_block_pages pe | None => 1 end in
  match last to with
  | None => enqueue_async_iov al pr buf len to storage
  | Some cur =>
      if negb (pi_off pr =? pi_end cur) then enqueue_async_iov al pr buf len to storage
      else if negb (bool_decide (pi_storage cur = storage)) then
        enqueue_async_iov al pr buf len to storage
      else if negb (bl_pages_per_block (pi_layout cur) =? new_block_pages) then
        enqueue_async_iov al pr buf len to storage
      else if negb (is_uncompressed storage) &&
              (u64 (pi_n_pages cur + len / PAGE_SIZE) >? ASYNC_BATCH_MAX_PAGES) then
        enqueue_async_iov al pr buf len to storage
      else
        match zlookup (pi_to cur) (pi_nr cur - 1) with
        | None => enqueue_async_iov al pr buf len to storage   (* nr is never 0 *)
        | Some iov =>
            let n_pages := u64 (pi_n_pages cur + len / PAGE_SIZE) in
            let undone := u64 (n_pages - len / PAGE_SIZE) in
            let k := Z.to_nat (pi_nr cur - 1) in
            if u64 (iov_base iov + iov_len iov) =? buf then
              let iov' := Iovec (iov_base iov) (u64 (iov_len iov + len)) in
              let p := piov_with_to cur (<[k := iov']> (pi_to cur)) (pi_nr cur) n_pages in
              let undo := piov_with_to cur
                (<[k := Iovec (iov_base iov') (u64 (iov_len iov' - len))]> (pi_to p)) (pi_nr p) undone in
              enqueue_finish al pr len to storage p undo
            else
              let n_iovs := pi_nr cur + 1 in
              if n_iovs >? IOV_MAX then enqueue_async_iov al pr buf len to storage
              else
                let '(ok, al) := xalloc al in
                if negb ok then (-1, to, al)
                else
                  let p := piov_with_to cur (take (Z.to_nat (pi_nr cur)) (pi_to cur) ++ [Iovec buf len])
                             n_iovs n_pages in
                  let undo := piov_with_to cur (pi_to p) (pi_nr p - 1) undone in
                  enqueue_finish al pr len to storage p undo
        end
  end.

(** ** One request *)
Definition advance_compressed_offsets (pr : page_read) (nr : Z) : Z * page_read :=
  match pr_pe pr with
  | None => (-1, pr)
  | Some pe =>
      let block_pages := pagemap_block_pages pe in
      let idx := block_idx (blk pr) in
      match pe_blocks pe with
      | None => (-1, pr)
      | Some b =>
          if (idx =? 0) && (nr =? pe_nr_pages pe) then
            (0, set_pi_off (s64 (pi_off pr + total_payload_size b))
                  (set_blk (fun k => set_block_pos (n_block_sizes b) (block_offset k) k) pr))
          else
            let n_blocks := block_nr_blocks nr block_pages in
            if idx + n_blocks >? n_block_sizes b then (-1, pr)
            else
              let sizes := take (Z.to_nat n_blocks) (drop (Z.to_nat idx) (block_sizes b)) in
              (0, set_pi_off (fold_left (fun o s => s64 (o + s)) sizes (pi_off pr))
                    (set_blk (fun k => set_block_pos (idx + n_blocks) (block_offset k) k) pr))
      end
  end.

(** The scan of [compressed_request_has_lz4]; [prev] is the storage of the last
    block that is not LZ4, if there was one.  The inner [None] is -1. *)
Fixpoint has_lz4_loop (fuel : nat) (pe : pagemap_entry) (nr_pages pages_done index : Z)
    (prev : option restore_vma_io_storage) (has_lz4 mixed : bool) : outcome (option (bool * bool)) :=
  if pages_done <? nr_pages then
    match fuel with
    | O => NoFuel
    | S fuel =>
        match compressed_block_storage pe index with
        | None => Ret None
        | Some (storage, block_pages) =>
            if block_pages >? nr_pages - pages_done then Ret None
            else if bool_decide (storage = VMA_IO_ENCODED) then
              has_lz4_loop fuel pe nr_pages (u64 (pages_done + block_pages)) (index + 1) prev true mixed
            else
              let mixed :=
                match prev with
                | Some p => mixed || negb (bool_decide (storage = p))
                | None => mixed
                end in
              has_lz4_loop fuel pe nr_pages (u64 (pages_done + block_pages)) (index + 1)
                (Some storage) has_lz4 mixed
        end
    end
  else Ret (Some (has_lz4, mixed)).

Definition compressed_request_has_lz4 (pe : pagemap_entry) (block_idx nr_pages : Z)
    : outcome (option (bool * bool)) :=
  has_lz4_loop (Z.to_nat nr_pages) pe nr_pages 0 block_idx None false false.

(** The loop of [compressed_storage_run]: pages and blocks of the run. *)
Fixpoint storage_run_loop (fuel : nat) (pe : pagemap_entry) (pages_left : Z)
    (first_storage : restore_vma_io_storage) (run_pages run_blocks index block_pages : Z)
    : outcome (option (Z * Z)) :=
  if run_pages <? pages_left then
    match fuel with
    | O => NoFuel
    | S fuel =>
        match (if run_pages =? 0 then Some (first_storage, block_pages)
               else compressed_block_storage pe index) with
        | None => Ret None
        | Some (block_storage, block_pages) =>
            if negb (bool_decide (block_storage = first_storage)) then Ret (Some (run_pages, run_blocks))
            else if block_pages >? pages_left - run_pages then Ret None
            else if negb (run_pages =? 0) && (block_pages >? ASYNC_BATCH_MAX_PAGES - run_pages) then
              Ret (Some (run_pages, run_blocks))
            else
              let run_pages := u64 (run_pages + block_pages) in
              if run_pages >=? ASYNC_BATCH_MAX_PAGES then Ret (Some (run_pages, run_blocks + 1))
              else storage_run_loop fuel pe pages_left first_storage run_pages (run_blocks + 1)
                     (index + 1) block_pages
        end
    end
  else Ret (Some (run_pages, run_blocks)).

Definition compressed_storage_run (pe : pagemap_entry) (block_idx pages_left : Z)
    : outcome (option (restore_vma_io_storage * Z * Z)) :=
  match compressed_block_storage pe block_idx with
  | None => Ret None
  | Some (first_storage, block_pages) =>
      let! run := storage_run_loop (Z.to_nat pages_left) pe pages_left first_storage 0 0 block_idx
                    block_pages in
      match run with
      | None => Ret None
      | Some (run_pages, run_blocks) =>
          if run_pages =? 0 then Ret None else Ret (Some (first_storage, run_pages, run_blocks))
      end
  end.

(** Restoring the tail the queue had before the request. *)
Definition restore_tail (original_tail tail : page_read_iov) : page_read_iov :=
  let k := Z.to_nat (pi_nr original_tail - 1) in
  let original_last_iov_len :=
    match pi_to original_tail !! k with Some iov => iov_len iov | None => 0 end in
  PageReadIov (pi_from tail) (pi_end original_tail)
    (alter (fun iov => Iovec (iov_base iov) original_last_iov_len) k (pi_to tail))
    (pi_nr original_tail) (pi_storage tail)
    (PageBlockLayout (bl_sizes (pi_layout tail)) (bl_nr_blocks (pi_layout original_tail))
       (bl_total_bytes (pi_layout original_tail)) (bl_pages_per_block (pi_layout tail)))
    (pi_n_pages original_tail) (pi_block_pages tail).

Definition enqueue_rollback (to0 to : list page_read_iov) : list page_read_iov :=
  let to := take (length to0) to in
  match last to0, last to with
  | Some original_tail, Some tail => set_tail to (restore_tail original_tail tail)
  | _, _ => to
  end.

Section Enqueue.
(** [parallel]: the answer of [compressed_restore_has_parallel_capacity];
    [is_async]: whether the queue is the reader's own ([to == &pr->async]). *)
Context (parallel is_async : bool).

Definition pick_storage (has_lz4 mixed_direct : bool) (storage : restore_vma_io_storage)
    (chunk blocks : Z) : restore_vma_io_storage :=
  let storage :=
    if bool_decide (storage = VMA_IO_ZERO) && (is_async && parallel) && (blocks >? 1) &&
       (u64 (chunk * PAGE_SIZE) >=? PARALLEL_RESTORE_MIN_BATCH_BYTES) then VMA_IO_ENCODED
    else storage in
  if negb (bool_decide (storage = VMA_IO_ENCODED)) &&
     (has_lz4 || (mixed_direct && is_async)) &&
     (u64 (chunk * PAGE_SIZE) <? DIRECT_COMPRESSED_RUN_MIN_BYTES) then VMA_IO_ENCODED
  else storage.

(** The loop over storage runs; [pr] is the reader's working cursor. *)
Fixpoint enqueue_runs (fuel : nat) (al : list bool) (pe : pagemap_entry) (pr : page_read)
    (buf nr_pages done : Z) (has_lz4 mixed_direct : bool) (to : list page_read_iov)
    : outcome (Z * list page_read_iov * list bool) :=
  if done <? nr_pages then
    match fuel with
    | O => NoFuel
    | S fuel =>
        let! run := compressed_storage_run pe (block_idx (blk pr)) (nr_pages - done) in
        match run with
        | None => Ret (-1, to, al)
        | Some (storage, chunk, blocks) =>
            let storage := pick_storage has_lz4 mixed_direct storage chunk blocks in
            let '(ret, to, al) :=
              pagemap_enqueue_iovec_one al pr (buf + done * PAGE_SIZE) (u64 (chunk * PAGE_SIZE)) to storage in
            if negb (ret =? 0) then Ret (ret, to, al)
            else
              let '(ret, pr) := advance_compressed_offsets pr chunk in
              if negb (ret =? 0) then Ret (ret, to, al)
              else enqueue_runs fuel al pe pr buf nr_pages (u64 (done + chunk)) has_lz4 mixed_direct to
        end
    end
  else Ret (0, to, al).

(** The reader's cursor is saved before and put back after the loop, so the
    function returns no new reader. *)
Definition pagemap_enqueue_iovec (al : list bool) (pr : page_read) (buf len : Z)
    (to : list page_read_iov) : outcome (Z * list page_read_iov * list bool) :=
  let nr_pages := len / PAGE_SIZE in
  if (len =? 0) || negb (len mod PAGE_SIZE =? 0) then Ret (-1, to, al)
  else
    match pr_pe pr with
    | None => Ret (pagemap_enqueue_iovec_one al pr buf len to VMA_IO_UNCOMPRESSED)
    | Some pe =>
        match pe_blocks pe with
        | None => Ret (pagemap_enqueue_iovec_one al pr buf len to VMA_IO_UNCOMPRESSED)
        | Some _ =>
            let! scan := compressed_request_has_lz4 pe (block_idx (blk pr)) nr_pages in
            match scan with
            | None => Ret (-1, to, al)
            | Some (has_lz4, mixed_direct) =>
                let! (ret, to', al) :=
                  enqueue_runs (Z.to_nat nr_pages) al pe pr buf nr_pages 0 has_lz4 mixed_direct to in
                if ret =? 0 then Ret (ret, to', al)
                else Ret (ret, enqueue_rollback to to', al)
            end
        end
    end.
End Enqueue.

(** ** Consumer-side checks *)
Definition valid_to (p : page_read_iov) : list iovec := take (Z.to_nat (pi_nr p)) (pi_to p).

(** The destination loop shared by the checks: [None] on overflow. *)
Fixpoint sum_iov_len (acc : Z) (l : list iovec) : option Z :=
  match l with
  | [] => Some acc
  | iov :: l => if acc >? UINT64_MAX - iov_len iov then None else sum_iov_len (acc + iov_len iov) l
  end.

Definition iov_aligned (iov : iovec) : bool :=
  (iov_base iov mod PAGE_SIZE =? 0) && (iov_len iov mod PAGE_SIZE =? 0).

Definition piov_direct_compatible (p : page_read_iov) : bool :=
  if (pi_nr p =? 0) || bool_decide (pi_storage p = VMA_IO_ENCODED) then false
  else
    let zero := bool_decide (pi_storage p = VMA_IO_ZERO) in
    if negb zero &&
       ((pi_from p <? 0) || (pi_end p <? pi_from p) || negb (Z.rem (pi_from p) PAGE_SIZE =? 0) ||
        negb (Z.rem (pi_end p - pi_from p) PAGE_SIZE =? 0)) then false
    else if negb (forallb iov_aligned (valid_to p)) then false
    else
      match sum_iov_len 0 (valid_to p) with
      | None => false
      | Some destination_bytes => zero || (destination_bytes =? u64 (pi_end p - pi_from p))
      end.

Definition pagemap_iovec_is_direct_compatible (from : list page_read_iov) : bool :=
  forallb piov_direct_compatible from &&
  existsb (fun p => negb (bool_decide (pi_storage p = VMA_IO_ZERO))) from.

(** The block loop of [validate_direct_compressed_iov]. *)
Fixpoint check_direct_blocks (storage : restore_vma_io_storage) (ppb : Z) (blocks : list (Z * Z))
    (payload_bytes output_bytes : Z) : option (Z * Z) :=
  match blocks with
  | [] => Some (payload_bytes, output_bytes)
  | (compressed_size, bp) :: blocks =>
      let block_pages := if ppb =? 0 then 1 else bp in
      if (block_pages =? 0) || (negb (ppb =? 0) && (block_pages >? ppb)) then None
      else
        let block_bytes := block_pages * PAGE_SIZE in
        if bool_decide (storage = VMA_IO_PACKED_RAW) && negb (compressed_size =? block_bytes) then None
        else if bool_decide (storage = VMA_IO_ZERO) && negb (compressed_size =? 0) then None
        else if (payload_bytes >? UINT64_MAX - compressed_size) ||
                (output_bytes >? UINT64_MAX - block_bytes) then None
        else check_direct_blocks storage ppb blocks (payload_bytes + compressed_size)
               (output_bytes + block_bytes)
  end.

Definition valid_blocks (p : page_read_iov) : list (Z * Z) :=
  let n := Z.to_nat (bl_nr_blocks (pi_layout p)) in
  zip (take n (bl_sizes (pi_layout p))) (take n (pi_block_pages p)).

Definition validate_direct_compressed_iov (p : page_read_iov) : bool :=
  if negb (bool_decide (pi_storage p = VMA_IO_PACKED_RAW)) &&
     negb (bool_decide (pi_storage p = VMA_IO_ZERO)) then false
  else if bl_nr_blocks (pi_layout p) =? 0 then false
  else
    match check_direct_blocks (pi_storage p) (bl_pages_per_block (pi_layout p)) (valid_blocks p) 0 0 with
    | None => false
    | Some (payload_bytes, output_bytes) =>
        match sum_iov_len 0 (valid_to p) with
        | None => false
        | Some iov_bytes =>
            negb (negb (payload_bytes =? bl_total_bytes (pi_layout p)) ||
                  negb (output_bytes =? iov_bytes) || (pi_end p <? pi_from p) ||
                  negb (payload_bytes =? u64 (pi_end p - pi_from p)) ||
                  (pi_n_pages p >? UINT64_MAX / PAGE_SIZE) ||
                  negb (output_bytes =? u64 (pi_n_pages p * PAGE_SIZE)))
        end
    end.

(** ** Consuming a job *)
Fixpoint consume_iovs (l : list iovec) (len : Z) : list iovec * Z :=
  match l with
  | iov :: rest => if iov_len iov <=? len then consume_iovs rest (len - iov_len iov) else (l, len)
  | [] => (l, len)
  end.

Definition advance_piov (p : page_read_iov) (len : Z) : outcome page_read_iov :=
  let from := s64 (pi_from p + len) in
  let '(rest, len) := consume_iovs (valid_to p) len in
  let mk to := PageReadIov from (pi_end p) to (zlen to) (pi_storage p) (pi_layout p) (pi_n_pages p)
                 (pi_block_pages p) in
  if len =? 0 then Ret (mk rest)
  else
    match rest with
    | [] => Bug
    | iov :: rest => Ret (mk (Iovec (iov_base iov + len) (iov_len iov - len) :: rest))
    end.

(** The preadv() retry loop of [process_async_reads_ctx] on one file-backed
    job.  [preadv off n] is the kernel's answer to the call that asks for the
    [n] remaining bytes at [off] (a job never asks twice at one offset, so a
    function is as general as a sequence of answers); [partial] is the
    FI_PARTIAL_PAGES fault, which throws away half of a long read.  The
    result is 0 or -1, the transfers made, as (file offset, destination
    vector, bytes), and the holes punched on the way. *)
Section Preadv.
Context (preadv : Z -> Z -> Z) (partial auto_dedup : bool).

Definition preadv_ret (p : page_read_iov) : Z :=
  let ret := preadv (pi_from p) (pi_end p - pi_from p) in
  if partial && (ret >=? 2 * PAGE_SIZE) then Z.land (ret / 2) PAGE_MASK else ret.

Fixpoint preadv_loop (fuel : nat) (p : page_read_iov) (d : dedup_state)
    : outcome (Z * list (Z * list iovec * Z) * dedup_state) :=
  match fuel with
  | O => NoFuel
  | S fuel =>
      let ret := preadv_ret p in
      if ret <? 0 then Ret (-1, [], d)
      else if (ret =? 0) && negb (pi_end p =? pi_from p) then Ret (-1, [], d)
      else
        let log := [(pi_from p, valid_to p, ret)] in
        let '(err, d) :=
          if auto_dedup && negb (bool_decide (pi_storage p = VMA_IO_PACKED_RAW))
          then punch_hole d (u64 (pi_from p)) ret false else (0, d) in
        if negb (err =? 0) then Ret (-1, log, d)
        else if negb (ret =? pi_end p - pi_from p) then
          let! p' := advance_piov p ret in
          let! (r, log', d) := preadv_loop fuel p' d in
          Ret (r, log ++ log', d)
        else Ret (0, log, d)
  end.
End Preadv.

(** Queues of a chain of readers, the youngest first. *)
Definition drain_async_queue (chain : list page_read) : list page_read := set_async [] <$> chain.

Definition page_read_chain_has_encoded_async (chain : list page_read) : bool :=
  existsb (fun pr => existsb (fun p => bool_decide (pi_storage p = VMA_IO_ENCODED)) (async pr)) chain.

(** ** What a queue denotes *)

(** A job without the stale array elements. *)
Definition piov_view (p : page_read_iov) : page_read_iov :=
  let n := Z.to_nat (bl_nr_blocks (pi_layout p)) in
  PageReadIov (pi_from p) (pi_end p) (valid_to p) (pi_nr p) (pi_storage p)
    (PageBlockLayout (take n (bl_sizes (pi_layout p))) (bl_nr_blocks (pi_layout p))
       (bl_total_bytes (pi_layout p)) (bl_pages_per_block (pi_layout p)))
    (pi_n_pages p) (take n (pi_block_pages p)).

(** The counts of a job are within its arrays and its types. *)
Record piov_wf (p : page_read_iov) : Prop := PiovWf {
  pw_nr : 1 <= pi_nr p <= zlen (pi_to p);
  pw_blocks : 0 <= bl_nr_blocks (pi_layout p) <= zlen (bl_sizes (pi_layout p));
  pw_bps : bl_nr_blocks (pi_layout p) <= zlen (pi_block_pages p);
  pw_pages : 0 <= pi_n_pages p < 2 ^ 64;
  pw_lens : Forall (fun iov => 0 <= iov_len iov < 2 ^ 64) (pi_to p)
}.

(** [p'] is [p] with more destinations and blocks behind the ones it had; the
    last destination may have grown. *)
Record piov_extends (p p' : page_read_iov) : Prop := PiovExtends {
  px_from : pi_from p' = pi_from p;
  px_storage : pi_storage p' = pi_storage p;
  px_ppb : bl_pages_per_block (pi_layout p') = bl_pages_per_block (pi_layout p);
  px_nr : pi_nr p <= pi_nr p';
  px_init : take (Z.to_nat (pi_nr p - 1)) (pi_to p') = take (Z.to_nat (pi_nr p - 1)) (pi_to p);
  px_last : iov_base <$> (pi_to p' !! Z.to_nat (pi_nr p - 1)) =
            iov_base <$> (pi_to p !! Z.to_nat (pi_nr p - 1));
  px_nr_blocks : bl_nr_blocks (pi_layout p) <= bl_nr_blocks (pi_layout p');
  px_sizes : take (Z.to_nat (bl_nr_blocks (pi_layout p))) (bl_sizes (pi_layout p')) =
             take (Z.to_nat (bl_nr_blocks (pi_layout p))) (bl_sizes (pi_layout p));
  px_bps : take (Z.to_nat (bl_nr_blocks (pi_layout p))) (pi_block_pages p') =
           take (Z.to_nat (bl_nr_blocks (pi_layout p))) (pi_block_pages p)
}.

(** A queue after more requests: the jobs before the tail are the same, the
    tail may be extended, new jobs follow. *)
Inductive queue_extends : list page_read_iov -> list page_read_iov -> Prop :=
| qe_nil q : queue_extends [] q
| qe_tail init t t' new : piov_extends t t' -> queue_extends (init ++ [t]) (init ++ t' :: new).

Lemma take_take_le {A} (l l' : list A) (m n : nat) :
  (m <= n)%nat -> take n l = take n l' -> take m l = take m l'.
Proof.
  intros Hmn H. rewrite <- (Nat.min_l m n) by done. by rewrite <- !take_take, H.
Qed.

Lemma piov_extends_refl p : piov_extends p p.
Proof. by split. Qed.

Lemma lookup_take_eq {A} (l l' : list A) (m n : nat) :
  (m < n)%nat -> take n l = take n l' -> l !! m = l' !! m.
Proof.
  intros Hmn H. rewrite <- (lookup_take_lt l n m) by done. by rewrite H, lookup_take_lt.
Qed.

Lemma piov_extends_trans a b c :
  piov_wf a -> piov_extends a b -> piov_extends b c -> piov_extends a c.
Proof.
  intros [Hnr Hbl _ _] [A1 A2 A3 A4 A5 A6 A7 A8 A9] [B1 B2 B3 B4 B5 B6 B7 B8 B9].
  split; try congruence; try lia.
  - rewrite <- A5. apply (take_take_le _ _ _ (Z.to_nat (pi_nr b - 1))); [lia|done].
  - rewrite <- A6. destruct (decide (pi_nr a = pi_nr b)) as [->|]; [done|].
    f_equal. apply (lookup_take_eq _ _ _ (Z.to_nat (pi_nr b - 1))); [lia|done].
  - rewrite <- A8. eapply take_take_le; [|exact B8]. lia.
  - rewrite <- A9. eapply take_take_le; [|exact B9]. lia.
Qed.

Lemma queue_extends_refl q : queue_extends q q.
Proof.
  destruct (last q) as [t|] eqn:E; [|apply last_None in E as ->; constructor].
  apply last_Some in E as [l ->]. constructor. apply piov_extends_refl.
Qed.

Lemma queue_extends_app q q' new : queue_extends q q' -> queue_extends q (q' ++ new).
Proof.
  intros [q''|init t t' n H]; [constructor|]. rewrite <- app_assoc. by constructor.
Qed.

Lemma set_tail_snoc q x y : set_tail (q ++ [x]) y = q ++ [y].
Proof.
  unfold set_tail. rewrite length_app. simpl. rewrite Nat.add_1_r. simpl.
  by rewrite take_app_length.
Qed.

Lemma queue_extends_set_tail q0 q x x' :
  Forall piov_wf q0 -> queue_extends q0 (q ++ [x]) -> piov_extends x x' ->
  queue_extends q0 (q ++ [x']).
Proof.
  intros Hwf H Hx. inversion H as [q1 E|init t t' new Ht E1 E2]; subst; [constructor|].
  apply Forall_app in Hwf as [_ Hwf]. apply Forall_cons_1 in Hwf as [Hwf _].
  destruct (decide (new = [])) as [->|Hne].
  - apply app_inj_tail in E2 as [-> ->]. constructor. by eapply piov_extends_trans.
  - destruct (exists_last Hne) as (n' & z & ->).
    assert (q = init ++ t' :: n' /\ x = z) as [-> ->].
    { rewrite app_comm_cons, app_assoc in E2. apply app_inj_tail in E2 as [? ?]. done. }
    rewrite <- app_assoc. simpl. by constructor.
Qed.

(** Putting back the saved fields restores the job. *)
Lemma restore_tail_view p p' :
  piov_wf p -> piov_extends p p' -> piov_view (restore_tail p p') = piov_view p.
Proof.
  intros [Hnr Hbl Hbp _ _] [A1 A2 A3 A4 A5 A6 A7 A8 A9]. unfold piov_view, restore_tail; simpl.
  rewrite A1, A2, A3, A8, A9. f_equal.
  unfold valid_to; simpl. unfold zlen in Hnr.
  assert (Z.to_nat (pi_nr p) = S (Z.to_nat (pi_nr p - 1))) as -> by lia.
  set (k := Z.to_nat (pi_nr p - 1)) in *.
  destruct (lookup_lt_is_Some_2 (pi_to p) k) as [iov Hiov]; [lia|].
  rewrite Hiov in A6 |- *. simpl in A6.
  destruct (pi_to p' !! k) as [iov'|] eqn:Hiov'; [|done]. injection A6 as A6.
  rewrite (take_S_r _ _ _ Hiov).
  erewrite take_S_r; [|rewrite list_lookup_alter_eq, Hiov'; done].
  rewrite take_alter_ge by lia. rewrite A5. destruct iov, iov'. simpl in *. by subst.
Qed.

Lemma enqueue_rollback_view q0 q :
  Forall piov_wf q0 -> queue_extends q0 q ->
  piov_view <$> enqueue_rollback q0 q = piov_view <$> q0.
Proof.
  intros Hwf H. revert Hwf. destruct H as [q''|init t t' new Ht]; intros Hwf;
    unfold enqueue_rollback.
  - done.
  - apply Forall_app in Hwf as [_ Hwf]. apply Forall_cons_1 in Hwf as [Hwf _].
    assert (take (length (init ++ [t])) (init ++ t' :: new) = init ++ [t']) as ->.
    { rewrite length_app. simpl. replace (init ++ t' :: new) with ((init ++ [t']) ++ new)
        by (by rewrite <- app_assoc). rewrite take_app_le by (rewrite length_app; simpl; lia).
      rewrite firstn_all2; [done|rewrite length_app; simpl; lia]. }
    rewrite !last_snoc, set_tail_snoc, !fmap_app. simpl. by rewrite restore_tail_view.
Qed.

(** ** Every enqueue step only extends the queue *)
Lemma xalloc_cases al : exists ok al', xalloc al = (ok, al').
Proof. destruct (xalloc al); eauto. Qed.

Lemma copy_blocks_length n : forall pe b st idx css bps,
  copy_blocks n pe b st idx = Some (css, bps) -> length css = n /\ length bps = n.
Proof.
  induction n as [|n IH]; intros pe b st idx css bps H; simpl in H; [by injection H as <- <-|].
  destruct (zlookup _ _); [|done]. destruct (compressed_block_storage pe idx) as [[bst cur]|]; [|done].
  destruct (_ && _); [done|].
  destruct (copy_blocks n pe b st (idx + 1)) as [[css' bps']|] eqn:E; [|done].
  injection H as <- <-. apply IH in E as [<- ?]. simpl. lia.
Qed.

Lemma piov_append_extends p css bps bp :
  piov_wf p -> bl_pages_per_block (pi_layout p) = bp -> piov_extends p (piov_append p css bps bp).
Proof.
  intros [Hnr Hbl Hbp _ _] Hppb. unfold zlen in *. split; simpl; try done.
  - unfold zlen. lia.
  - rewrite take_app_le, take_take by (rewrite length_take; lia). by rewrite Nat.min_id.
  - rewrite take_app_le, take_take by (rewrite length_take; lia). by rewrite Nat.min_id.
Qed.

Lemma piov_append_wf p css bps bp :
  piov_wf p -> length css = length bps -> piov_wf (piov_append p css bps bp).
Proof.
  intros [Hnr Hbl Hbp Hp Hl] Hlen. split; simpl; try done; unfold zlen in *.
  - rewrite length_app, length_take. lia.
  - rewrite length_app, length_take. lia.
Qed.

(** Adding blocks either fails or appends them. *)
Lemma piov_add_cases al p pr nr st r al' :
  piov_add_compressed_blocks al p pr nr st = (r, al') ->
  r = None \/ exists pe b css bps, pr_pe pr = Some pe /\ pe_blocks pe = Some b /\
    copy_blocks (Z.to_nat (block_nr_blocks nr (pagemap_block_pages pe))) pe b st (block_idx (blk pr))
      = Some (css, bps) /\
    r = Some (piov_append p css bps (pagemap_block_pages pe)).
Proof.
  unfold piov_add_compressed_blocks.
  destruct (pr_pe pr) as [pe|]; [|intros [= <- _]; by left].
  destruct (_ || _); [intros [= <- _]; by left|].
  destruct (pe_blocks pe) as [b|] eqn:Eb; [|intros [= <- _]; by left].
  destruct (_ >? _); [intros [= <- _]; by left|].
  destruct (xalloc al) as [[] al1]; simpl; [|intros [= <- _]; by left].
  destruct (xalloc al1) as [[] al2]; simpl; [|intros [= <- _]; by left].
  destruct (copy_blocks _ _ _ _ _) as [[css bps]|] eqn:E; [|intros [= <- _]; by left].
  intros [= <- _]. right. exists pe, b, css, bps. by split_and!.
Qed.

(** The contract of a step on the queue. *)
Record step_ok (q : list page_read_iov) (ret : Z) (q' : list page_read_iov) : Prop := StepOk {
  so_ret : ret = 0 \/ ret = -1;
  so_wf : Forall piov_wf q';
  so_ext : forall q0, Forall piov_wf q0 -> queue_extends q0 q -> queue_extends q0 q';
  so_fail : ret <> 0 -> piov_view <$> q' = piov_view <$> q
}.

Lemma step_ok_fail q : Forall piov_wf q -> step_ok q (-1) q.
Proof. intros H. split; auto. Qed.

Lemma step_ok_new q p : Forall piov_wf q -> piov_wf p -> step_ok q 0 (q ++ [p]).
Proof.
  intros Hq Hp. split; [by left| | |done].
  - apply Forall_app. split; [done|]. by apply Forall_cons_2, Forall_nil_2.
  - intros q0 _ H. by apply queue_extends_app.
Qed.

Lemma step_ok_tail q t t' ret :
  Forall piov_wf (q ++ [t]) -> piov_wf t' -> piov_extends t t' -> ret = 0 \/ ret = -1 ->
  (ret <> 0 -> piov_view t' = piov_view t) ->
  step_ok (q ++ [t]) ret (set_tail (q ++ [t]) t').
Proof.
  intros Hq Ht Hx Hr Hf. rewrite set_tail_snoc. split; [done| | |].
  - apply Forall_app in Hq as [Hq _]. apply Forall_app. split; [done|].
    by apply Forall_cons_2, Forall_nil_2.
  - intros q0 Hw H. by eapply queue_extends_set_tail.
  - intros Hn. rewrite !fmap_app. simpl. by rewrite Hf.
Qed.

Lemma enqueue_async_iov_step al pr buf len q st ret q' al' :
  Forall piov_wf q -> 0 <= len < 2 ^ 64 ->
  enqueue_async_iov al pr buf len q st = (ret, q', al') -> step_ok q ret q'.
Proof.
  intros Hq Hlen. unfold enqueue_async_iov.
  destruct (_ || _); [intros [= <- <- _]; by apply step_ok_fail|].
  set (hb := match pr_pe pr with Some _ => _ | None => _ end).
  destruct (is_uncompressed st && hb); [intros [= <- <- _]; by apply step_ok_fail|].
  destruct (negb _ && negb hb); [intros [= <- <- _]; by apply step_ok_fail|].
  destruct (xalloc al) as [[] al1]; simpl; [|intros [= <- <- _]; by apply step_ok_fail].
  destruct (xalloc al1) as [[] al2]; simpl; [|intros [= <- <- _]; by apply step_ok_fail].
  assert (Hpg : 0 <= len / PAGE_SIZE < 2 ^ 64).
  { unfold PAGE_SIZE. split; [apply Z.div_pos; lia|]. apply Z.div_lt_upper_bound; lia. }
  assert (Hlens : Forall (fun iov => 0 <= iov_len iov < 2 ^ 64) [Iovec buf len])
    by (by apply Forall_cons_2, Forall_nil_2).
  destruct (is_uncompressed st).
  { intros [= <- <- _]. apply step_ok_new; [done|]. by split. }
  destruct (piov_add_compressed_blocks _ _ _ _ _) as [r al3] eqn:E.
  destruct (piov_add_cases _ _ _ _ _ _ _ E) as [->|(pe & b & css & bps & _ & _ & Hc & ->)].
  { intros [= <- <- _]. by apply step_ok_fail. }
  intros [= <- <- _]. apply step_ok_new; [done|]. apply copy_blocks_length in Hc as [<- ?].
  apply piov_append_wf; [by split|done].
Qed.

Lemma enqueue_finish_step al pr len q t st p undo ret q' al' :
  Forall piov_wf (q ++ [t]) -> piov_wf p -> piov_wf undo ->
  piov_extends t p -> piov_extends t undo -> piov_view undo = piov_view t ->
  (is_uncompressed st = false -> forall pe, pr_pe pr = Some pe ->
     bl_pages_per_block (pi_layout p) = pagemap_block_pages pe) ->
  enqueue_finish al pr len (q ++ [t]) st p undo = (ret, q', al') -> step_ok (q ++ [t]) ret q'.
Proof.
  intros Hq Hp Hu Hx Hxu Hv Hppb. unfold enqueue_finish.
  assert (Ht : piov_wf t) by (apply Forall_app in Hq as [_ Hq]; by apply Forall_cons_1 in Hq as [? _]).
  destruct (is_uncompressed st).
  { intros [= <- <- _]. apply step_ok_tail; try done; [by destruct Hp|by destruct Hx|by left]. }
  destruct (piov_add_compressed_blocks _ _ _ _ _) as [r al3] eqn:E.
  destruct (piov_add_cases _ _ _ _ _ _ _ E) as [->|(pe & b & css & bps & Hpe & _ & Hc & ->)].
  - intros [= <- <- _]. apply step_ok_tail; try done. by right.
  - intros [= <- <- _]. apply copy_blocks_length in Hc as [Hc1 Hc2].
    apply step_ok_tail; try done; [apply piov_append_wf; [done|congruence]| |by left].
    apply (piov_extends_trans t p); [done|done|]. apply piov_append_extends; eauto.
Qed.

Lemma u64_undo n l : 0 <= n < 2 ^ 64 -> u64 (u64 (n + l) - l) = n.
Proof.
  intros Hn. unfold u64. rewrite Zminus_mod_idemp_l.
  replace (n + l - l) with n by lia. by apply Z.mod_small.
Qed.

Lemma pagemap_enqueue_iovec_one_step al pr buf len q st ret q' al' :
  Forall piov_wf q -> 0 <= len < 2 ^ 64 ->
  pagemap_enqueue_iovec_one al pr buf len q st = (ret, q', al') -> step_ok q ret q'.
Proof.
  intros Hq Hlen. unfold pagemap_enqueue_iovec_one.
  destruct (last q) as [t|] eqn:El; [|by apply enqueue_async_iov_step].
  apply last_Some in El as [q0 ->].
  assert (Ht : piov_wf t) by (apply Forall_app in Hq as [_ Hq]; by apply Forall_cons_1 in Hq as [? _]).
  destruct (negb (pi_off pr =? pi_end t)); [by apply enqueue_async_iov_step|].
  destruct (negb (bool_decide _)); [by apply enqueue_async_iov_step|].
  destruct (negb (bl_pages_per_block _ =? _)) eqn:Eppb; [by apply enqueue_async_iov_step|].
  destruct (negb _ && _); [by apply enqueue_async_iov_step|].
  destruct (zlookup _ _) as [iov|] eqn:Eiov; [|by apply enqueue_async_iov_step].
  assert (Hppb : is_uncompressed st = false -> forall pe, pr_pe pr = Some pe ->
     bl_pages_per_block (pi_layout t) = pagemap_block_pages pe).
  { intros Hu pe Hpe. rewrite Hu, Hpe in Eppb. apply negb_false_iff, Z.eqb_eq in Eppb. done. }
  pose proof Ht as [Hnr Hbl Hbp Hpg Hls]. unfold zlen in *.
  assert (Hk : pi_to t !! Z.to_nat (pi_nr t - 1) = Some iov).
  { rewrite <- zlookup_of_nat, Z2Nat.id by lia. done. }
  set (k := Z.to_nat (pi_nr t - 1)) in *.
  pose proof (Forall_lookup_1 _ _ _ _ Hls Hk) as Hil. simpl in Hil.
  assert (Hun : u64 (u64 (pi_n_pages t + len / PAGE_SIZE) - len / PAGE_SIZE) = pi_n_pages t)
    by (by apply u64_undo).
  pose proof (u64_range (pi_n_pages t + len / PAGE_SIZE)).
  destruct (u64 (iov_base iov + iov_len iov) =? buf).
  - pose proof (u64_range (iov_len iov + len)).
    apply enqueue_finish_step; try done; simpl.
    + split; simpl; unfold zlen; rewrite ?length_insert; try done. by apply Forall_insert.
    + rewrite Hun. split; simpl; unfold zlen; rewrite ?length_insert; try done.
      apply Forall_insert; [by apply Forall_insert|]. apply u64_range.
    + split; simpl; try done; [by rewrite take_insert_ge by lia|].
      fold k. rewrite list_lookup_insert_eq by (by eapply lookup_lt_Some). by rewrite Hk.
    + rewrite Hun, list_insert_insert_eq. split; simpl; try done; [by rewrite take_insert_ge by lia|].
      fold k. rewrite list_lookup_insert_eq by (by eapply lookup_lt_Some). by rewrite Hk.
    + rewrite Hun, list_insert_insert_eq, u64_undo by done.
      rewrite list_insert_id by (rewrite Hk; by destruct iov). by destruct t.
  - destruct (_ >? IOV_MAX); [by apply enqueue_async_iov_step|].
    destruct (xalloc al) as [[] al1]; simpl; [|intros [= <- <- _]; by apply step_ok_fail].
    assert (Hlens : Forall (fun v => 0 <= iov_len v < 2 ^ 64)
                      (take (Z.to_nat (pi_nr t)) (pi_to t) ++ [Iovec buf len])).
    { apply Forall_app. split; [by apply Forall_take|]. by apply Forall_cons_2, Forall_nil_2. }
    assert (Hlen' : length (take (Z.to_nat (pi_nr t)) (pi_to t) ++ [Iovec buf len])
                    = S (Z.to_nat (pi_nr t))).
    { rewrite length_app, length_take. simpl. lia. }
    assert (Hini : forall m, (m <= Z.to_nat (pi_nr t))%nat ->
      take m (take (Z.to_nat (pi_nr t)) (pi_to t) ++ [Iovec buf len]) = take m (pi_to t)).
    { intros m Hm. rewrite take_app_le by (rewrite length_take; lia). rewrite take_take.
      by rewrite Nat.min_l. }
    assert (Hkk : (take (Z.to_nat (pi_nr t)) (pi_to t) ++ [Iovec buf len]) !! k = Some iov).
    { rewrite <- Hk. apply (lookup_take_eq _ _ _ (Z.to_nat (pi_nr t))); [lia|]. by apply Hini. }
    apply enqueue_finish_step; try done; simpl; rewrite ?Hun.
    + split; simpl; try done; unfold zlen; rewrite Hlen'; lia.
    + split; simpl; try done; unfold zlen; rewrite ?Hlen'; lia.
    + split; simpl; try done; [lia|apply Hini; lia|]. fold k. by rewrite Hkk, Hk.
    + split; simpl; try done; [lia|apply Hini; lia|]. fold k. by rewrite Hkk, Hk.
    + unfold piov_view, valid_to. simpl. rewrite Z.add_simpl_r.
      by rewrite Hini by lia.
Qed.

(** ** Termination of the scans *)
Lemma pagemap_block_pages_range pe :
  entry_typed pe -> 1 <= pagemap_block_pages pe < 2 ^ 32.
Proof.
  intros (_ & _ & _ & _ & Hb). unfold pagemap_block_pages.
  destruct (pe_blocks pe) as [b|]; [|lia]. destruct Hb as (_ & _ & ?). zcases.
Qed.

Lemma compressed_block_layout_pos pe i bp bytes :
  entry_typed pe -> compressed_block_layout pe i = Some (bp, bytes) -> 1 <= bp < 2 ^ 32.
Proof.
  intros Hty. pose proof (pagemap_block_pages_range pe Hty) as Hr. unfold compressed_block_layout.
  destruct (pe_blocks pe) as [b|]; [|done]. destruct (_ >=? _); [done|].
  rewrite Z.geb_leb. destruct (Z.leb_spec (pe_nr_pages pe) (u64 (i * pagemap_block_pages pe))); [done|].
  intros [= <- _]. zcases. rewrite u32_small; lia.
Qed.

Lemma compressed_block_storage_pos pe i st bp :
  entry_typed pe -> compressed_block_storage pe i = Some (st, bp) -> 1 <= bp < 2 ^ 32.
Proof.
  intros Hty. unfold compressed_block_storage.
  destruct (compressed_block_layout pe i) as [[bp' bytes]|] eqn:E; [|done].
  destruct (pe_blocks pe) as [b|]; [|done]. destruct (zlookup _ _); [|done].
  intros [= _ <-]. by eapply compressed_block_layout_pos.
Qed.

Lemma has_lz4_loop_returns pe : entry_typed pe -> forall fuel nr done idx prev h m,
  nr < 2 ^ 64 -> 0 <= done -> nr - done <= Z.of_nat fuel ->
  exists r, has_lz4_loop fuel pe nr done idx prev h m = Ret r.
Proof.
  intros Hty. induction fuel as [|fuel IH]; intros nr done idx prev h m Hnr Hd Hf; simpl.
  { destruct (Z.ltb_spec done nr); [lia|eauto]. }
  destruct (Z.ltb_spec done nr); [|eauto].
  destruct (compressed_block_storage pe idx) as [[st bp]|] eqn:E; [|eauto].
  apply compressed_block_storage_pos in E; [|done]. rewrite Z.gtb_ltb.
  destruct (Z.ltb_spec (nr - done) bp); [eauto|]. rewrite u64_small by lia.
  destruct (bool_decide _); apply IH; lia.
Qed.

Lemma storage_run_loop_returns pe : entry_typed pe -> forall fuel left fs rp rb idx bp,
  left < 2 ^ 64 -> 0 <= rp <= left -> 1 <= bp < 2 ^ 32 -> left - rp <= Z.of_nat fuel ->
  exists r, storage_run_loop fuel pe left fs rp rb idx bp = Ret r /\
    forall rp' rb', r = Some (rp', rb') -> rp <= rp' <= left.
Proof.
  intros Hty. induction fuel as [|fuel IH]; intros left fs rp rb idx bp Hl Hrp Hbp Hf; simpl.
  { destruct (Z.ltb_spec rp left); [lia|]. eexists; split; [done|]. intros ? ? [= <- <-]. lia. }
  destruct (Z.ltb_spec rp left); [|eexists; split; [done|]; intros ? ? [= <- <-]; lia].
  assert (Hst : forall st bp', (if rp =? 0 then Some (fs, bp) else compressed_block_storage pe idx)
    = Some (st, bp') -> 1 <= bp' < 2 ^ 32).
  { intros st bp'. destruct (rp =? 0); [intros [= _ <-]; done|].
    by apply compressed_block_storage_pos. }
  destruct (if rp =? 0 then Some (fs, bp) else compressed_block_storage pe idx) as [[st bp']|];
    [|eexists; split; [done|]; done].
  specialize (Hst st bp' eq_refl).
  destruct (negb _); [eexists; split; [done|]; intros ? ? [= <- <-]; lia|]. rewrite Z.gtb_ltb.
  destruct (Z.ltb_spec (left - rp) bp'); [eexists; split; [done|]; done|].
  destruct (negb _ && _); [eexists; split; [done|]; intros ? ? [= <- <-]; lia|].
  rewrite u64_small by lia.
  destruct (_ >=? _); [eexists; split; [done|]; intros ? ? [= <- <-]; lia|].
  destruct (IH left fs (rp + bp') (rb + 1) (idx + 1) bp') as (r & -> & Hr); [lia..|].
  exists r. split; [done|]. intros rp' rb' E. specialize (Hr _ _ E). lia.
Qed.

Lemma compressed_storage_run_returns pe idx left :
  entry_typed pe -> 0 <= left < 2 ^ 64 ->
  exists r, compressed_storage_run pe idx left = Ret r /\
    forall st chunk blocks, r = Some (st, chunk, blocks) -> 1 <= chunk <= left.
Proof.
  intros Hty Hl. unfold compressed_storage_run.
  destruct (compressed_block_storage pe idx) as [[st bp]|] eqn:E; [|eexists; split; done].
  apply compressed_block_storage_pos in E; [|done].
  destruct (storage_run_loop_returns pe Hty (Z.to_nat left) left st 0 0 idx bp)
    as (r & -> & Hr); [lia..|]. simpl.
  destruct r as [[rp rb]|]; [|eexists; split; done]. specialize (Hr _ _ eq_refl).
  destruct (Z.eqb_spec rp 0); eexists; (split; [done|]); [done|]. intros ? ? ? [= _ <- _]. lia.
Qed.

Lemma advance_compressed_offsets_pe pr n r pr' :
  advance_compressed_offsets pr n = (r, pr') -> r = 0 \/ r = -1.
Proof.
  unfold advance_compressed_offsets. destruct (pr_pe pr) as [pe|]; [|intros [= <- _]; by right].
  destruct (pe_blocks pe); [|intros [= <- _]; by right].
  destruct (_ && _); [intros [= <- _]; by left|].
  destruct (_ >? _); intros [= <- _]; [by right|by left].
Qed.

Lemma enqueue_runs_returns par asy pe : entry_typed pe -> forall fuel al pr buf nr done h m q0 q,
  nr * PAGE_SIZE < 2 ^ 64 -> 0 <= done <= nr -> nr - done <= Z.of_nat fuel ->
  Forall piov_wf q0 -> Forall piov_wf q -> queue_extends q0 q ->
  exists ret q' al', enqueue_runs par asy fuel al pe pr buf nr done h m q = Ret (ret, q', al') /\
    (ret = 0 \/ ret = -1) /\ Forall piov_wf q' /\ queue_extends q0 q'.
Proof.
  intros Hty. induction fuel as [|fuel IH]; intros al pr buf nr done h m q0 q Hnr Hd Hf Hw0 Hw Hx; simpl.
  { destruct (Z.ltb_spec done nr); [lia|]. exists 0, q, al. split_and!; auto. }
  unfold PAGE_SIZE in Hnr.
  destruct (Z.ltb_spec done nr); [|exists 0, q, al; split_and!; auto].
  destruct (compressed_storage_run_returns pe (block_idx (blk pr)) (nr - done) Hty ltac:(lia))
    as (r & -> & Hr). simpl.
  destruct r as [[[st chunk] blocks]|]; [|exists (-1), q, al; split_and!; auto].
  specialize (Hr _ _ _ eq_refl). pose proof (u64_range (chunk * PAGE_SIZE)).
  destruct (pagemap_enqueue_iovec_one _ _ _ _ _ _) as [[ret q1] al1] eqn:E1.
  apply pagemap_enqueue_iovec_one_step in E1 as [S1 S2 S3 _]; [|done|done].
  destruct (negb (ret =? 0)).
  { exists ret, q1, al1. split_and!; auto. }
  destruct (advance_compressed_offsets pr chunk) as [ret2 pr2] eqn:E2.
  apply advance_compressed_offsets_pe in E2.
  destruct (negb (ret2 =? 0)).
  { exists ret2, q1, al1. split_and!; auto. }
  rewrite u64_small by lia. apply IH; auto; unfold PAGE_SIZE; lia.
Qed.

(** The rollback keeps the jobs in order. *)
Lemma restore_tail_wf p p' : piov_wf p -> piov_wf p' -> piov_extends p p' -> piov_wf (restore_tail p p').
Proof.
  intros [W1 W2 W3 W4 W5] [V1 V2 V3 V4 V5] [A1 A2 A3 A4 A5 A6 A7 A8 A9]. unfold restore_tail. set (k := Z.to_nat (pi_nr p - 1)). unfold zlen in *.
  split; cbn [pi_nr pi_to pi_layout bl_nr_blocks bl_sizes pi_block_pages pi_n_pages]; unfold zlen; rewrite ?length_alter; try lia.
  apply Forall_alter; [done|]. intros iov _ Hiov. cbn [iov_len]. destruct (pi_to p !! k) as [o|] eqn:E; [|lia]. by apply (Forall_lookup_1 _ _ _ _ W5 E).
Qed.

Lemma enqueue_rollback_wf q0 q : Forall piov_wf q0 -> Forall piov_wf q -> queue_extends q0 q -> Forall piov_wf (enqueue_rollback q0 q).
Proof.
  intros Hw0 Hw H. revert Hw0 Hw. destruct H as [q''|init t t' new Ht]; intros Hw0 Hw; unfold enqueue_rollback; [apply Forall_nil_2|].
  assert (take (length (init ++ [t])) (init ++ t' :: new) = init ++ [t']) as ->.
  { rewrite length_app. simpl. replace (init ++ t' :: new) with ((init ++ [t']) ++ new) by (by rewrite <- app_assoc).
    rewrite take_app_le by (rewrite length_app; simpl; lia). rewrite firstn_all2; [done|rewrite length_app; simpl; lia]. }
  rewrite !last_snoc, set_tail_snoc. apply Forall_app in Hw0 as [_ Hw0]. apply Forall_cons_1 in Hw0 as [Ht0 _].
  apply Forall_app in Hw as [Hi Hw]. apply Forall_cons_1 in Hw as [Ht' _]. apply Forall_app. split; [done|]. apply Forall_cons_2; [by apply restore_tail_wf|apply Forall_nil_2].
Qed.

Lemma pagemap_enqueue_iovec_spec par asy al pr buf len q :
  Forall piov_wf q -> 0 <= len < 2 ^ 64 ->
  match pr_pe pr with Some pe => entry_typed pe | None => True end ->
  exists ret q' al', pagemap_enqueue_iovec par asy al pr buf len q = Ret (ret, q', al') /\
    (ret = 0 \/ ret = -1) /\ Forall piov_wf q' /\
    (ret = -1 -> piov_view <$> q' = piov_view <$> q).
Proof.
  intros Hw Hlen Hty. unfold pagemap_enqueue_iovec.
  destruct (_ || _); [exists (-1), q, al; by split_and!; auto|].
  assert (Hone : exists ret q' al', Ret (pagemap_enqueue_iovec_one al pr buf len q VMA_IO_UNCOMPRESSED)
     = Ret (ret, q', al') /\ (ret = 0 \/ ret = -1) /\ Forall piov_wf q' /\
       (ret = -1 -> piov_view <$> q' = piov_view <$> q)).
  { destruct (pagemap_enqueue_iovec_one _ _ _ _ _ _) as [[ret q1] al1] eqn:E1.
    apply pagemap_enqueue_iovec_one_step in E1 as [S1 S2 S3 S4]; [|done|done].
    exists ret, q1, al1. split_and!; auto. intros ->. by apply S4. }
  destruct (pr_pe pr) as [pe|]; [|done]. destruct (pe_blocks pe); [|done].
  assert (Hnr : 0 <= len / PAGE_SIZE /\ len / PAGE_SIZE * PAGE_SIZE < 2 ^ 64).
  { unfold PAGE_SIZE. pose proof (Z.div_mod len 4096 ltac:(lia)).
    pose proof (Z.mod_pos_bound len 4096 ltac:(lia)). lia. }
  destruct (has_lz4_loop_returns pe Hty (Z.to_nat (len / PAGE_SIZE)) (len / PAGE_SIZE) 0
    (block_idx (blk pr)) None false false) as [scan Hs]; [unfold PAGE_SIZE in *; lia..|].
  unfold compressed_request_has_lz4. rewrite Hs. simpl.
  destruct scan as [[h m]|]; [|exists (-1), q, al; by split_and!; auto].
  destruct (enqueue_runs_returns par asy pe Hty (Z.to_nat (len / PAGE_SIZE)) al pr buf
    (len / PAGE_SIZE) 0 h m q q) as (ret & q' & al' & -> & Hret & Hw' & Hx);
    [lia..|done|done|apply queue_extends_refl|]. simpl.
  destruct (Z.eqb_spec ret 0) as [->|Hne].
  - exists 0, q', al'. by split_and!; auto.
  - exists ret, (enqueue_rollback q q'), al'. split_and!; auto.
    + by apply enqueue_rollback_wf.
    + intros _. by apply enqueue_rollback_view.
Qed.

(** C6. A failed request leaves no trace.  Whatever allocation fails, and
    whatever metadata check rejects the request, [pagemap_enqueue_iovec]
    returns (no loop runs away), and when it returns -1 the queue holds
    exactly the jobs it held before, with the same destinations, block sizes,
    page counts and file ranges. *)
Theorem pagemap_enqueue_iovec_atomic par asy al pr buf len q :
  Forall piov_wf q -> 0 <= len < 2 ^ 64 ->
  match pr_pe pr with Some pe => entry_typed pe | None => True end ->
  exists ret q' al', pagemap_enqueue_iovec par asy al pr buf len q = Ret (ret, q', al') /\
    (ret = 0 \/ ret = -1) /\
    (ret = -1 -> piov_view <$> q' = piov_view <$> q).
Proof.
  intros Hw Hlen Hty. destruct (pagemap_enqueue_iovec_spec par asy al pr buf len q Hw Hlen Hty) as (ret & q' & al' & E & A & _ & B). by exists ret, q', al'.
Qed.

(** ** What a job reads: page by page *)

(** Where one page of memory comes from: a page of the image, or page [j] of a
    stored block of [pages] pages and [size] bytes at [off]. *)
Inductive page_src :=
| SRaw (off : Z)
| SBlock (off size pages j : Z).

Definition raw_srcs (off n : Z) : list page_src := (fun j => SRaw (off + j * PAGE_SIZE)) <$> seqZ 0 n.

Fixpoint block_srcs (off : Z) (blocks : list (Z * Z)) : list page_src :=
  match blocks with
  | [] => []
  | (s, bp) :: blocks => (SBlock off s bp <$> seqZ 0 bp) ++ block_srcs (off + s) blocks
  end.

Definition job_dests (p : page_read_iov) : list Z := concat (iov_pages <$> valid_to p).
Definition job_srcs (p : page_read_iov) : list page_src :=
  if is_uncompressed (pi_storage p) then raw_srcs (pi_from p) (pi_n_pages p)
  else block_srcs (pi_from p) (valid_blocks p).
(** The transfers a job stands for, in order. *)
Definition job_tasks (p : page_read_iov) : list (Z * page_src) := zip (job_dests p) (job_srcs p).
Definition queue_tasks (q : list page_read_iov) : list (Z * page_src) := concat (job_tasks <$> q).

(** Stored blocks a job of the given storage kind may hold. *)
Definition block_fits (st : restore_vma_io_storage) (ppb : Z) (blk : Z * Z) : Prop :=
  1 <= snd blk <= ppb /\ 0 <= fst blk <= snd blk * PAGE_SIZE /\
  (st = VMA_IO_PACKED_RAW -> fst blk = snd blk * PAGE_SIZE) /\
  (st = VMA_IO_ZERO -> fst blk = 0).

Record piov_ok (p : page_read_iov) : Prop := PiovOk {
  po_wf : piov_wf p;
  po_iovs : Forall iov_ok (valid_to p);
  po_dest : zsum (iov_len <$> valid_to p) = pi_n_pages p * PAGE_SIZE;
  po_n : 0 < pi_n_pages p < 2 ^ 52;
  po_from : 0 <= pi_from p;
  po_end : pi_end p <= OFF_MAX;
  po_raw : pi_storage p = VMA_IO_UNCOMPRESSED ->
    bl_nr_blocks (pi_layout p) = 0 /\ bl_pages_per_block (pi_layout p) = 0 /\
    pi_end p = pi_from p + pi_n_pages p * PAGE_SIZE;
  po_packed : pi_storage p <> VMA_IO_UNCOMPRESSED ->
    1 <= bl_pages_per_block (pi_layout p) <= MAX_BLOCK_PAGES /\
    Forall (block_fits (pi_storage p) (bl_pages_per_block (pi_layout p))) (valid_blocks p) /\
    zsum (snd <$> valid_blocks p) = pi_n_pages p /\
    bl_total_bytes (pi_layout p) = zsum (fst <$> valid_blocks p) /\
    pi_end p = pi_from p + bl_total_bytes (pi_layout p)
}.

(** A job is known by its view. *)
Lemma same_view p p' : piov_view p' = piov_view p -> piov_wf p' -> piov_ok p -> piov_ok p' /\ job_tasks p' = job_tasks p.
Proof.
  intros Hv Hw [W I D N F E R P]. unfold piov_view in Hv. injection Hv as V1 V2 V3 V4 V5 V6 V7 V8 V9 V10 V11.
  assert (Eb : valid_blocks p' = valid_blocks p) by (unfold valid_blocks; congruence).
  split; [split; [done|..]; rewrite ?V1, ?V2, ?V3, ?V5, ?V7, ?V8, ?V9, ?V10, ?Eb; done|].
  unfold job_tasks, job_dests, job_srcs. by rewrite Eb, V1, V3, V5, V10.
Qed.

(** A request that fails leaves the queue as it was. *)
Lemma pagemap_enqueue_iovec_failed par asy al pr buf len q : Forall piov_ok q -> 0 <= len < 2 ^ 64 ->
  match pr_pe pr with Some pe => entry_typed pe | None => True end ->
  exists ret q' al', pagemap_enqueue_iovec par asy al pr buf len q = Ret (ret, q', al') /\
    (ret <> 0 -> Forall piov_ok q' /\ queue_tasks q' = queue_tasks q).
Proof.
  intros Hq Hlen Hty. destruct (pagemap_enqueue_iovec_spec par asy al pr buf len q) as (ret & q' & al' & E & A & W & B); [|done|done|].
  { eapply Forall_impl; [exact Hq|]. by intros p []. }
  exists ret, q', al'. split; [done|]. intros Hr. destruct A as [->|Hm]; [done|]. specialize (B Hm). clear E. revert q Hq B W. induction q' as [|p' q' IH]; intros [|p q] Hq B W; try done.
  rewrite !fmap_cons in B. injection B as B1 B2. apply Forall_cons_1 in Hq as [Hp Hq]. apply Forall_cons_1 in W as [W1 W2].
  assert (Bv : piov_view p' = piov_view p) by (unfold piov_view; congruence).
  destruct (same_view p p' Bv W1 Hp) as [S1 S2]. destruct (IH q Hq) as [I1 I2]; [done|done|]. split; [by apply Forall_cons_2|]. unfold queue_tasks in *. rewrite !fmap_cons. simpl. by rewrite S2, I2.
Qed.

Lemma length_block_srcs blocks : forall off,
  Forall (fun b => 0 <= snd b) blocks ->
  Z.of_nat (length (block_srcs off blocks)) = zsum (snd <$> blocks).
Proof.
  induction blocks as [|[s bp] blocks IH]; intros off H; [done|].
  apply Forall_cons_1 in H as [Hb H]. rewrite fmap_cons, zsum_cons. cbn [block_srcs snd] in *.
  rewrite length_app, length_fmap, length_seqZ, Nat2Z.inj_add, IH by done. lia.
Qed.

Lemma block_srcs_app l1 : forall off l2,
  block_srcs off (l1 ++ l2) = block_srcs off l1 ++ block_srcs (off + zsum (fst <$> l1)) l2.
Proof.
  induction l1 as [|[s bp] l1 IH]; intros off l2.
  - simpl. by rewrite Z.add_0_r.
  - rewrite fmap_cons, zsum_cons. cbn [block_srcs app fst].
    by rewrite IH, <- app_assoc, Z.add_assoc.
Qed.

Lemma raw_srcs_app off n m : 0 <= n -> 0 <= m ->
  raw_srcs off (n + m) = raw_srcs off n ++ raw_srcs (off + n * PAGE_SIZE) m.
Proof.
  intros Hn Hm. unfold raw_srcs. rewrite seqZ_app by done. rewrite fmap_app. f_equal.
  rewrite Z.add_0_l. rewrite <- (Z.add_0_r n) at 1. rewrite <- fmap_add_seqZ, <- list_fmap_compose.
  apply list_fmap_ext. intros i x _. simpl. f_equal. lia.
Qed.

Lemma length_job_dests p : piov_ok p -> Z.of_nat (length (job_dests p)) = pi_n_pages p.
Proof.
  intros [_ Hi Hd _ _ _ _ _]. unfold job_dests.
  assert (H : Z.of_nat (length (concat (iov_pages <$> valid_to p))) * PAGE_SIZE
              = zsum (iov_len <$> valid_to p)).
  { clear Hd. induction Hi as [|iov l Hiov Hi IH]; [done|].
    rewrite !fmap_cons, zsum_cons. cbn [concat].
    rewrite length_app, Nat2Z.inj_add, length_iov_pages by (destruct Hiov as (?&?&?&?); lia).
    rewrite <- IH. destruct Hiov as (?&?&Hm&?). unfold PAGE_SIZE in *.
    pose proof (Z.div_mod (iov_len iov) 4096 ltac:(lia)). lia. }
  unfold PAGE_SIZE in *. lia.
Qed.

Lemma length_job_srcs p : piov_ok p -> Z.of_nat (length (job_srcs p)) = pi_n_pages p.
Proof.
  intros Hp. unfold job_srcs, is_uncompressed. case_bool_decide as Hs.
  - unfold raw_srcs. rewrite length_fmap, length_seqZ. destruct Hp. lia.
  - destruct (po_packed _ Hp Hs) as (_ & Hb & <- & _). apply length_block_srcs.
    eapply Forall_impl; [exact Hb|]. intros [s bp] (? & _). simpl in *. lia.
Qed.

(** ** A successful step adds exactly the request's pages *)

(** The blocks a packed request of [nr] pages consists of. *)
Definition request_blocks (pr : page_read) (nr : Z) (st : restore_vma_io_storage) : list (Z * Z) :=
  match pr_pe pr with
  | Some pe =>
      match pe_blocks pe with
      | Some b =>
          match copy_blocks (Z.to_nat (block_nr_blocks nr (pagemap_block_pages pe))) pe b st
                  (block_idx (blk pr)) with
          | Some (css, bps) => zip css bps
          | None => []
          end
      | None => []
      end
  | None => []
  end.

Definition request_srcs (pr : page_read) (len : Z) (st : restore_vma_io_storage) : list page_src :=
  if is_uncompressed st then raw_srcs (pi_off pr) (len / PAGE_SIZE)
  else block_srcs (pi_off pr) (request_blocks pr (len / PAGE_SIZE) st).

(** What the caller guarantees about a request. *)
Record request_ok (pr : page_read) (buf len : Z) (st : restore_vma_io_storage) : Prop := RequestOk {
  rq_iov : iov_ok (Iovec buf len);
  rq_off : 0 <= pi_off pr;
  rq_raw : st = VMA_IO_UNCOMPRESSED -> pi_off pr + len <= OFF_MAX;
  rq_packed : st <> VMA_IO_UNCOMPRESSED -> exists pe, pr_pe pr = Some pe /\
    1 <= pagemap_block_pages pe <= MAX_BLOCK_PAGES /\
    Forall (block_fits st (pagemap_block_pages pe)) (request_blocks pr (len / PAGE_SIZE) st) /\
    zsum (snd <$> request_blocks pr (len / PAGE_SIZE) st) = len / PAGE_SIZE /\
    pi_off pr + zsum (fst <$> request_blocks pr (len / PAGE_SIZE) st) <= OFF_MAX
}.

(** [p] is the tail [t] with the destination [buf, buf + len) added. *)
Record dest_ext (t p : page_read_iov) (buf len : Z) : Prop := DestExt {
  de_wf : piov_wf p;
  de_iovs : Forall iov_ok (valid_to p);
  de_dests : concat (iov_pages <$> valid_to p) = job_dests t ++ iov_pages (Iovec buf len);
  de_sum : zsum (iov_len <$> valid_to p) = zsum (iov_len <$> valid_to t) + len;
  de_same : pi_from p = pi_from t /\ pi_end p = pi_end t /\ pi_storage p = pi_storage t /\
            pi_layout p = pi_layout t /\ pi_block_pages p = pi_block_pages t;
  de_n : pi_n_pages p = pi_n_pages t + len / PAGE_SIZE
}.

Lemma valid_blocks_append p css bps ppb :
  piov_wf p -> length css = length bps ->
  valid_blocks (piov_append p css bps ppb) = valid_blocks p ++ zip css bps.
Proof.
  intros [_ Hbl Hbp _ _] Hlen. unfold valid_blocks, piov_append; simpl. unfold zlen in *.
  rewrite (take_ge (_ ++ css)), (take_ge (_ ++ bps)) by (rewrite length_app, length_take; lia).
  rewrite zip_with_app; [done|]. rewrite !length_take. lia.
Qed.

Lemma zip_fst_snd {A B} (l1 : list A) (l2 : list B) :
  length l1 = length l2 -> fst <$> zip l1 l2 = l1 /\ snd <$> zip l1 l2 = l2.
Proof. intros H. rewrite fst_zip, snd_zip by lia. done. Qed.

Lemma iov_len_pages iov : iov_ok iov -> 0 < iov_len iov / PAGE_SIZE < 2 ^ 52 /\
  iov_len iov = iov_len iov / PAGE_SIZE * PAGE_SIZE.
Proof.
  intros (? & ? & Hm & ?). unfold PAGE_SIZE in *.
  pose proof (Z.div_mod (iov_len iov) 4096 ltac:(lia)). lia.
Qed.

Lemma fits_zsum_fst st ppb l : Forall (block_fits st ppb) l ->
  0 <= zsum (fst <$> l) <= zsum (snd <$> l) * PAGE_SIZE /\ Forall (fun b => 0 <= snd b) l.
Proof.
  induction 1 as [|[s bp] l (H1 & H2 & _) _ [IH1 IH2]]; [done|].
  rewrite !fmap_cons, !zsum_cons. cbn [fst snd] in *.
  split; [unfold PAGE_SIZE in *; lia|]. apply Forall_cons_2; [simpl; lia|done].
Qed.

(** Finishing an extended packed job. *)
Lemma packed_append_ok t p buf len css bps ppb :
  piov_ok t -> dest_ext t p buf len -> iov_ok (Iovec buf len) ->
  pi_storage t <> VMA_IO_UNCOMPRESSED -> bl_pages_per_block (pi_layout t) = ppb ->
  length css = length bps -> Forall (block_fits (pi_storage t) ppb) (zip css bps) ->
  zsum bps = len / PAGE_SIZE -> pi_end t + zsum css <= OFF_MAX ->
  pi_n_pages t + len / PAGE_SIZE < 2 ^ 52 ->
  piov_ok (piov_append p css bps ppb) /\
  job_tasks (piov_append p css bps ppb) =
    job_tasks t ++ zip (iov_pages (Iovec buf len)) (block_srcs (pi_end t) (zip css bps)).
Proof.
  intros Ht [Dw Di Dd Ds (D1 & D2 & D3 & D4 & D5) Dn] Hiov Hst Hppb Hlen Hfit Hbps Hend Hn.
  destruct (zip_fst_snd css bps Hlen) as [Ef Es].
  destruct (fits_zsum_fst _ _ _ Hfit) as [Hcs _]. rewrite Ef, Es in Hcs.
  pose proof (iov_len_pages _ Hiov) as [Hnl Hll]. cbn [iov_len] in *.
  destruct (po_packed _ Ht Hst) as (P1 & P2 & P3 & P4 & P5).
  destruct (fits_zsum_fst _ _ _ P2) as [Hts Htn].
  assert (Hvb : valid_blocks (piov_append p css bps ppb) = valid_blocks t ++ zip css bps).
  { rewrite valid_blocks_append by done. unfold valid_blocks. by rewrite D4, D5. }
  pose proof (po_from _ Ht). pose proof (po_n _ Ht). pose proof (po_end _ Ht). unfold OFF_MAX in *.
  assert (Hadd : u64 (zsum css) = zsum css) by (apply u64_small; lia).
  assert (Htot : u64 (bl_total_bytes (pi_layout p) + zsum css) = bl_total_bytes (pi_layout t) + zsum css)
    by (rewrite D4; apply u64_small; lia).
  assert (Hok : piov_ok (piov_append p css bps ppb)).
  { split; try done.
    - by apply piov_append_wf.
    - change (zsum (iov_len <$> valid_to p) = pi_n_pages p * PAGE_SIZE).
      rewrite Ds, (po_dest _ Ht), Dn. lia.
    - simpl. lia.
    - simpl. lia.
    - simpl. rewrite Hadd, D2, s64_small by lia. unfold OFF_MAX. lia.
    - simpl. congruence.
    - intros _. rewrite Hvb, !fmap_app, !zsum_app, Ef, Es. simpl. rewrite D1, D2, D3, Dn, Hadd, Htot.
      rewrite s64_small by lia. split_and!; try lia.
      apply Forall_app. rewrite Hppb in P2. done. }
  split; [done|]. unfold job_tasks.
  assert (Hsrc : job_srcs (piov_append p css bps ppb)
                 = job_srcs t ++ block_srcs (pi_end t) (zip css bps)).
  { unfold job_srcs. rewrite Hvb. simpl. rewrite D1, D3. unfold is_uncompressed.
    case_bool_decide; [done|]. rewrite block_srcs_app. do 2 f_equal. lia. }
  assert (Hdst : job_dests (piov_append p css bps ppb) = job_dests t ++ iov_pages (Iovec buf len))
    by exact Dd.
  rewrite Hsrc, Hdst. apply zip_with_app.
  pose proof (length_job_dests _ Ht). pose proof (length_job_srcs _ Ht). lia.
Qed.

(** Finishing an extended uncompressed job. *)
Lemma raw_append_ok t p buf len :
  piov_ok t -> dest_ext t p buf len -> iov_ok (Iovec buf len) ->
  pi_storage t = VMA_IO_UNCOMPRESSED -> pi_end t + len <= OFF_MAX ->
  piov_ok (piov_set_end p (s64 (pi_end p + len))) /\
  job_tasks (piov_set_end p (s64 (pi_end p + len))) =
    job_tasks t ++ zip (iov_pages (Iovec buf len)) (raw_srcs (pi_end t) (len / PAGE_SIZE)).
Proof.
  intros Ht [Dw Di Dd Ds (D1 & D2 & D3 & D4 & D5) Dn] Hiov Hst Hend.
  pose proof (iov_len_pages _ Hiov) as [Hnl Hll]. cbn [iov_len] in *.
  destruct (po_raw _ Ht Hst) as (R1 & R2 & R3).
  pose proof (po_from _ Ht). pose proof (po_n _ Ht). pose proof (po_end _ Ht).
  unfold OFF_MAX, PAGE_SIZE in *. rewrite D2, s64_small by lia.
  assert (Hok : piov_ok (piov_set_end p (pi_end t + len))).
  { split; try done.
    - by destruct Dw.
    - change (zsum (iov_len <$> valid_to p) = pi_n_pages p * 4096).
      pose proof (po_dest _ Ht). unfold PAGE_SIZE in *. lia.
    - simpl. lia.
    - simpl. lia.
    - intros _. simpl. rewrite D4. unfold PAGE_SIZE. lia.
    - intros Hc. exfalso. apply Hc. simpl. congruence. }
  split; [done|]. unfold job_tasks.
  assert (Hsrc : job_srcs (piov_set_end p (pi_end t + len))
                 = job_srcs t ++ raw_srcs (pi_end t) (len / 4096)).
  { unfold job_srcs. simpl. rewrite D1, D3, Hst, Dn. simpl.
    rewrite raw_srcs_app by lia. unfold PAGE_SIZE. do 2 f_equal. lia. }
  assert (Hdst : job_dests (piov_set_end p (pi_end t + len)) = job_dests t ++ iov_pages (Iovec buf len))
    by exact Dd.
  rewrite Hsrc, Hdst. apply zip_with_app.
  pose proof (length_job_dests _ Ht). pose proof (length_job_srcs _ Ht). lia.
Qed.

(** A queue after a successful step. *)
Definition enqueued (q : list page_read_iov) (tasks : list (Z * page_src))
    (q' : list page_read_iov) : Prop :=
  Forall piov_ok q' /\ queue_tasks q' = queue_tasks q ++ tasks.

Lemma enqueued_new q p : Forall piov_ok q -> piov_ok p -> enqueued q (job_tasks p) (q ++ [p]).
Proof.
  intros Hq Hp. split.
  - apply Forall_app. split; [done|]. by apply Forall_cons_2, Forall_nil_2.
  - unfold queue_tasks. rewrite fmap_app, concat_app. simpl. by rewrite app_nil_r.
Qed.

Lemma enqueued_tail q t t' tasks :
  Forall piov_ok (q ++ [t]) -> piov_ok t' -> job_tasks t' = job_tasks t ++ tasks ->
  enqueued (q ++ [t]) tasks (set_tail (q ++ [t]) t').
Proof.
  intros Hq Ht' E. rewrite set_tail_snoc. split.
  - apply Forall_app in Hq as [Hq _]. apply Forall_app. split; [done|].
    by apply Forall_cons_2, Forall_nil_2.
  - unfold queue_tasks. rewrite !fmap_app, !concat_app. simpl. rewrite !app_nil_r, E.
    by rewrite app_assoc.
Qed.

(** The blocks appended are the request's. *)
Lemma piov_add_request al p pr nr st r al' :
  piov_add_compressed_blocks al p pr nr st = (Some r, al') ->
  exists pe css bps, pr_pe pr = Some pe /\ length css = length bps /\
    request_blocks pr nr st = zip css bps /\ r = piov_append p css bps (pagemap_block_pages pe).
Proof.
  intros H. destruct (piov_add_cases _ _ _ _ _ _ _ H) as [|(pe & b & css & bps & Hpe & Hb & Hc & Hr)];
    [done|].
  injection Hr as ->. exists pe, css, bps. unfold request_blocks. rewrite Hpe, Hb, Hc.
  apply copy_blocks_length in Hc as [-> ->]. done.
Qed.

Lemma enqueue_async_iov_ok al pr buf len q st q' al' :
  Forall piov_ok q -> request_ok pr buf len st ->
  enqueue_async_iov al pr buf len q st = (0, q', al') ->
  enqueued q (zip (iov_pages (Iovec buf len)) (request_srcs pr len st)) q'.
Proof.
  intros Hq [Hiov Hoff Hraw Hpk]. unfold enqueue_async_iov.
  destruct (_ || _); [done|].
  set (hb := match pr_pe pr with Some _ => _ | None => _ end).
  destruct (is_uncompressed st && hb); [done|]. destruct (negb _ && negb hb); [done|].
  destruct (xalloc al) as [[] al1]; simpl; [|done].
  destruct (xalloc al1) as [[] al2]; simpl; [|done].
  pose proof (iov_len_pages _ Hiov) as [Hnl Hll]. cbn [iov_len] in *.
  assert (Hlen : 0 <= len < 2 ^ 64) by (destruct Hiov as (?&?&?&?); simpl in *; lia).
  assert (Hls : Forall (fun iov => 0 <= iov_len iov < 2 ^ 64) [Iovec buf len])
    by (by apply Forall_cons_2, Forall_nil_2).
  assert (Hios : Forall iov_ok [Iovec buf len]) by (by apply Forall_cons_2, Forall_nil_2).
  unfold request_srcs, is_uncompressed. case_bool_decide as Hst.
  - intros [= <- _]. subst st. specialize (Hraw eq_refl). unfold OFF_MAX in *.
    rewrite s64_small by lia.
    set (p := PageReadIov (pi_off pr) (pi_off pr + len) _ 1 _ _ _ _).
    assert (Hp : piov_ok p).
    { split; simpl; try done; try (by split; simpl; (done || lia)); unfold PAGE_SIZE in *; lia. }
    pose proof (enqueued_new q p Hq Hp) as H. unfold job_tasks in H.
    unfold job_dests, job_srcs in H. simpl in H. by rewrite app_nil_r in H.
  - destruct (piov_add_compressed_blocks _ _ _ _ _) as [[r|] al3] eqn:E; [|done].
    intros [= <- _]. destruct (Hpk Hst) as (pe & Hpe & Hppb & Hfit & Hsn & Hend).
    apply piov_add_request in E as (pe' & css & bps & Hpe' & Hl & Eb & ->).
    assert (pe' = pe) as -> by congruence.
    rewrite Eb in *. destruct (zip_fst_snd css bps Hl) as [Ef Es]. rewrite Ef, Es in *.
    destruct (fits_zsum_fst _ _ _ Hfit) as [Hcs _]. rewrite Ef, Es in Hcs.
    set (p0 := PageReadIov (pi_off pr) (pi_off pr) [Iovec buf len] 1 st (PageBlockLayout [] 0 0 0)
                 (len / PAGE_SIZE) []).
    assert (Hw0 : piov_wf p0) by (split; simpl; (done || lia)).
    assert (Hvb : valid_blocks (piov_append p0 css bps (pagemap_block_pages pe)) = zip css bps)
      by (by rewrite valid_blocks_append).
    unfold OFF_MAX, PAGE_SIZE in *.
    assert (Hp : piov_ok (piov_append p0 css bps (pagemap_block_pages pe))).
    { split; try done; [by apply piov_append_wf|simpl; unfold PAGE_SIZE; lia| |].
      - simpl. rewrite u64_small, s64_small by lia. unfold OFF_MAX. lia.
      - intros _. rewrite Hvb, Ef, Es. simpl. rewrite Z.add_0_l, !(u64_small (zsum css)), s64_small by lia.
        unfold PAGE_SIZE. split_and!; (done || lia). }
    pose proof (enqueued_new q _ Hq Hp) as H. unfold job_tasks in H.
    unfold job_dests, job_srcs in H. rewrite Hvb in H. simpl in H.
    unfold is_uncompressed in H. rewrite bool_decide_eq_false_2 in H by done.
    by rewrite app_nil_r in H.
Qed.

Lemma take_pred_last {A} (l : list A) n x :
  (0 < n)%nat -> l !! (n - 1)%nat = Some x -> take n l = take (n - 1) l ++ [x].
Proof.
  intros Hn Hx. destruct n as [|n]; [lia|].
  replace (S n - 1)%nat with n in * by lia. by apply take_S_r.
Qed.

(** Growing the last destination in place. *)
Lemma dest_ext_grow t iov len n :
  piov_ok t -> pi_to t !! Z.to_nat (pi_nr t - 1) = Some iov ->
  iov_ok (Iovec (iov_base iov + iov_len iov) len) -> n = pi_n_pages t + len / PAGE_SIZE ->
  0 <= n < 2 ^ 64 ->
  dest_ext t (piov_with_to t (<[Z.to_nat (pi_nr t - 1) := Iovec (iov_base iov) (u64 (iov_len iov + len))]>
                (pi_to t)) (pi_nr t) n) (iov_base iov + iov_len iov) len.
Proof.
  intros Ht Hk Hio -> Hn. pose proof (po_wf _ Ht) as Hw. pose proof Hw as [Hnr Hbl Hbp _ Hls].
  set (k := Z.to_nat (pi_nr t - 1)) in *. unfold zlen in *.
  pose proof (Forall_lookup_1 _ _ _ _ Hls Hk) as Hil. simpl in Hil.
  destruct Hio as (H1 & H2 & H3 & H4). simpl in *.
  assert (Hvt : valid_to t = take k (pi_to t) ++ [iov]).
  { unfold valid_to. replace (Z.to_nat (pi_nr t)) with (S k) by lia. by apply take_S_r. }
  assert (Hiok : iov_ok iov).
  { pose proof (po_iovs _ Ht) as Hall. rewrite Hvt in Hall. apply Forall_app in Hall as [_ Hall].
    by apply Forall_cons_1 in Hall as [? _]. }
  destruct Hiok as (I1 & I2 & I3 & I4). rewrite u64_small by lia.
  set (iov' := Iovec (iov_base iov) (iov_len iov + len)).
  assert (Hvp : take (Z.to_nat (pi_nr t)) (<[k := iov']> (pi_to t)) = take k (pi_to t) ++ [iov']).
  { replace (Z.to_nat (pi_nr t)) with (S k) by lia.
    rewrite (take_S_r _ _ iov') by (apply list_lookup_insert_eq; by eapply lookup_lt_Some).
    by rewrite take_insert_ge by lia. }
  assert (Hm : (iov_len iov + len) mod PAGE_SIZE = 0).
  { unfold PAGE_SIZE in *. rewrite Z.add_mod, I3, H3 by lia. done. }
  split; simpl; try done.
  - split; simpl; unfold zlen; rewrite ?length_insert; try done.
    apply Forall_insert; [done|]. simpl. lia.
  - unfold valid_to; simpl. rewrite Hvp. pose proof (po_iovs _ Ht) as Hall. rewrite Hvt in Hall.
    apply Forall_app in Hall as [Hall _]. apply Forall_app. split; [done|].
    apply Forall_cons_2, Forall_nil_2. split_and!; simpl; (done || lia).
  - unfold valid_to at 1; simpl. rewrite Hvp. unfold job_dests. rewrite Hvt, !fmap_app, !concat_app.
    simpl. rewrite !app_nil_r, <- app_assoc. f_equal. destruct iov as [bs ln]. simpl in *.
    by apply iov_pages_app; try lia.
  - unfold valid_to at 1; simpl. rewrite Hvp, Hvt, !fmap_app, !zsum_app. simpl. lia.
Qed.

(** Adding one more destination. *)
Lemma dest_ext_add t buf len n :
  piov_ok t -> iov_ok (Iovec buf len) -> n = pi_n_pages t + len / PAGE_SIZE -> 0 <= n < 2 ^ 64 ->
  dest_ext t (piov_with_to t (take (Z.to_nat (pi_nr t)) (pi_to t) ++ [Iovec buf len]) (pi_nr t + 1) n) buf len.
Proof.
  intros Ht Hio -> Hn. pose proof (po_wf _ Ht) as [Hnr Hbl Hbp _ Hls]. unfold zlen in *.
  assert (Hvp : valid_to (piov_with_to t (take (Z.to_nat (pi_nr t)) (pi_to t) ++ [Iovec buf len])
     (pi_nr t + 1) (pi_n_pages t + len / PAGE_SIZE)) = valid_to t ++ [Iovec buf len]).
  { unfold valid_to; simpl. rewrite take_ge; [done|]. rewrite length_app, length_take. simpl. lia. }
  assert (Hlen : 0 <= len < 2 ^ 64) by (destruct Hio as (?&?&?&?); simpl in *; lia).
  split; simpl; try done.
  - split; simpl; unfold zlen; try done.
    + rewrite length_app, length_take. simpl. lia.
    + apply Forall_app. split; [by apply Forall_take|]. by apply Forall_cons_2, Forall_nil_2.
  - rewrite Hvp. apply Forall_app. split; [apply (po_iovs _ Ht)|]. by apply Forall_cons_2, Forall_nil_2.
  - rewrite Hvp, fmap_app, concat_app. simpl. by rewrite app_nil_r.
  - rewrite Hvp, fmap_app, zsum_app. simpl. lia.
Qed.

Lemma enqueue_finish_ok al pr buf len q t st p undo q' al' :
  Forall piov_ok (q ++ [t]) -> piov_ok t -> dest_ext t p buf len -> request_ok pr buf len st ->
  pi_storage t = st -> pi_off pr = pi_end t ->
  (st <> VMA_IO_UNCOMPRESSED -> forall pe, pr_pe pr = Some pe ->
     bl_pages_per_block (pi_layout t) = pagemap_block_pages pe) ->
  (st <> VMA_IO_UNCOMPRESSED -> pi_n_pages t + len / PAGE_SIZE < 2 ^ 52) ->
  enqueue_finish al pr len (q ++ [t]) st p undo = (0, q', al') ->
  enqueued (q ++ [t]) (zip (iov_pages (Iovec buf len)) (request_srcs pr len st)) q'.
Proof.
  intros Hq Ht Hd [Hiov Hoff Hraw Hpk] Hst Heq Hppb Hn. unfold enqueue_finish, request_srcs.
  unfold is_uncompressed. case_bool_decide as Hs.
  - intros [= <- _]. destruct (raw_append_ok t p buf len) as [H1 H2]; try done.
    + congruence.
    + rewrite <- Heq. by apply Hraw.
    + apply enqueued_tail; [done|done|]. by rewrite H2, Heq.
  - destruct (piov_add_compressed_blocks _ _ _ _ _) as [[r|] al3] eqn:E; [|done].
    intros [= <- _]. destruct (Hpk Hs) as (pe & Hpe & _ & Hfit & Hsn & Hend).
    apply piov_add_request in E as (pe' & css & bps & Hpe' & Hl & Eb & ->).
    assert (pe' = pe) as -> by congruence. rewrite Eb in *.
    destruct (zip_fst_snd css bps Hl) as [Ef Es]. rewrite Ef, Es in *.
    destruct (packed_append_ok t p buf len css bps (pagemap_block_pages pe)) as [H1 H2]; try done.
    + congruence.
    + by apply Hppb.
    + by rewrite Hst.
    + by rewrite <- Heq.
    + by apply Hn.
    + apply enqueued_tail; [done|done|]. by rewrite H2, Heq.
Qed.

(** One run of a request: the jobs gain exactly its pages. *)
Lemma pagemap_enqueue_iovec_one_ok al pr buf len q st q' al' :
  Forall piov_ok q -> request_ok pr buf len st ->
  pagemap_enqueue_iovec_one al pr buf len q st = (0, q', al') ->
  enqueued q (zip (iov_pages (Iovec buf len)) (request_srcs pr len st)) q'.
Proof.
  intros Hq Hrq. unfold pagemap_enqueue_iovec_one.
  destruct (last q) as [t|] eqn:El; [|by apply enqueue_async_iov_ok].
  apply last_Some in El as [q0 ->].
  assert (Ht : piov_ok t) by (apply Forall_app in Hq as [_ Hq]; by apply Forall_cons_1 in Hq as [? _]).
  destruct (Z.eqb_spec (pi_off pr) (pi_end t)) as [Heq|]; simpl; [|by apply enqueue_async_iov_ok].
  case_bool_decide as Hst; simpl; [|by apply enqueue_async_iov_ok].
  destruct (negb (bl_pages_per_block _ =? _)) eqn:Eppb; [by apply enqueue_async_iov_ok|].
  pose proof (iov_len_pages _ (rq_iov _ _ _ _ Hrq)) as [Hnl Hll]. cbn [iov_len] in *.
  pose proof (po_n _ Ht) as Hnt.
  assert (Hu : u64 (pi_n_pages t + len / PAGE_SIZE) = pi_n_pages t + len / PAGE_SIZE)
    by (apply u64_small; lia).
  rewrite Hu.
  destruct (negb _ && _) eqn:Ecap; [by apply enqueue_async_iov_ok|].
  assert (Hcap : st <> VMA_IO_UNCOMPRESSED -> pi_n_pages t + len / PAGE_SIZE < 2 ^ 52).
  { intros Hs. unfold is_uncompressed in Ecap. rewrite bool_decide_eq_false_2 in Ecap by done.
    simpl in Ecap. rewrite Z.gtb_ltb in Ecap. apply Z.ltb_ge in Ecap.
    unfold ASYNC_BATCH_MAX_PAGES, ASYNC_BATCH_MAX_BYTES, PAGE_SIZE in *.
    change (32 * 1024 * 1024 / 4096) with 8192 in Ecap. lia. }
  assert (Hppb : st <> VMA_IO_UNCOMPRESSED -> forall pe, pr_pe pr = Some pe ->
     bl_pages_per_block (pi_layout t) = pagemap_block_pages pe).
  { intros Hs pe Hpe. unfold is_uncompressed in Eppb. rewrite bool_decide_eq_false_2, Hpe in Eppb by done.
    by apply negb_false_iff, Z.eqb_eq in Eppb. }
  destruct (zlookup _ _) as [iov|] eqn:Eiov; [|by apply enqueue_async_iov_ok].
  pose proof (po_wf _ Ht) as [Hnr _ _ _ _].
  assert (Hk : pi_to t !! Z.to_nat (pi_nr t - 1) = Some iov).
  { rewrite <- zlookup_of_nat, Z2Nat.id by lia. done. }
  assert (Hio : iov_ok iov).
  { pose proof (po_iovs _ Ht) as Hall. unfold valid_to in Hall. eapply Forall_lookup_1; [exact Hall|].
    rewrite lookup_take_lt; [exact Hk|lia]. }
  rewrite (u64_small (iov_base iov + iov_len iov)) by (destruct Hio as (?&?&?&?); lia).
  destruct (Z.eqb_spec (iov_base iov + iov_len iov) buf) as [<-|Hne].
  - intros H. eapply enqueue_finish_ok; try exact H; try done.
    by apply dest_ext_grow; try done; [apply rq_iov in Hrq|lia].
  - destruct (_ >? IOV_MAX); [by apply enqueue_async_iov_ok|].
    destruct (xalloc al) as [[] al1]; simpl; [|done].
    intros H. eapply enqueue_finish_ok; try exact H; try done.
    apply dest_ext_add; try done; [by apply rq_iov in Hrq|lia].
Qed.

(** ** Blocks against pages *)
Section Positions.
Context (pe : pagemap_entry) (b : pagemap_blocks) (start : Z).
Context (Hok : entry_ok pe) (Eb : pe_blocks pe = Some b).
Abbreviation ppb := (pages_per_block b).
Abbreviation nrp := (pe_nr_pages pe).

(** Where the image keeps page [k] of the entry. *)
Definition image_src (k : Z) : page_src :=
  let i := block_of_page pe b k in
  SBlock (start + zsum (take (Z.to_nat i) (block_sizes b)))
    (default 0 (block_sizes b !! Z.to_nat i)) (block_pages_at nrp ppb i) (offset_of_page pe b k).

Lemma compressed_block_layout_ok i :
  0 <= i < n_block_sizes b ->
  compressed_block_layout pe i = Some (block_pages_at nrp ppb i, block_pages_at nrp ppb i * PAGE_SIZE).
Proof.
  intros Hi. pose proof (ppb_range pe b Hok Eb). pose proof (block_count_bounds pe b Hok Eb).
  unfold compressed_block_layout. rewrite Eb.
  rewrite (pagemap_block_pages_ok nrp pe b Eb (entry_blocks_ok pe b Hok Eb)).
  rewrite Z.geb_leb. destruct (Z.leb_spec (n_block_sizes b) i); [lia|].
  destruct Hok as (_ & _ & _ & ? & ? & He & _). unfold entry_end, PAGE_SIZE in *.
  assert (i * ppb < nrp) by nia. rewrite u64_small by nia.
  rewrite Z.geb_leb. destruct (Z.leb_spec nrp (i * ppb)); [lia|].
  assert ((if nrp - i * ppb <? ppb then u32 (nrp - i * ppb) else ppb) = block_pages_at nrp ppb i) as ->.
  { unfold block_pages_at. zcases. rewrite u32_small; lia. }
  rewrite u64_small; [done|]. unfold block_pages_at. lia.
Qed.

(** Storage kind of block [i]. *)
Definition block_kind (i : Z) : restore_vma_io_storage :=
  match zlookup (block_sizes b) i with
  | None => VMA_IO_UNCOMPRESSED
  | Some cs =>
      if cs =? 0 then VMA_IO_ZERO
      else if cs =? block_pages_at nrp ppb i * PAGE_SIZE then VMA_IO_PACKED_RAW else VMA_IO_ENCODED
  end.

Lemma compressed_block_storage_ok i :
  0 <= i < n_block_sizes b ->
  compressed_block_storage pe i = Some (block_kind i, block_pages_at nrp ppb i).
Proof.
  intros Hi. unfold compressed_block_storage. rewrite compressed_block_layout_ok, Eb by done.
  unfold block_kind. destruct (zlookup_is_Some (block_sizes b) i Hi) as [cs ->]. done.
Qed.

Lemma block_pages_at_range i :
  0 <= i < n_block_sizes b -> 1 <= block_pages_at nrp ppb i <= ppb.
Proof. intros Hi. by destruct (current_block_pages_ok pe b i Hok Eb Hi). Qed.

(** A run of [n] blocks from [i] may be queued with storage [st]. *)
Definition run_matches (st : restore_vma_io_storage) (i : Z) (n : nat) : Prop :=
  st = VMA_IO_ENCODED \/
  ((st = VMA_IO_PACKED_RAW \/ st = VMA_IO_ZERO) /\
   forall j, i <= j < i + Z.of_nat n -> block_kind j = st).

(** Pages up to the end of block [i + n - 1]. *)
Definition pages_before (i : Z) : Z := Z.min (i * ppb) nrp.

Lemma copy_blocks_ok st : st <> VMA_IO_UNCOMPRESSED -> forall n i,
  0 <= i -> i + Z.of_nat n <= n_block_sizes b -> run_matches st i n ->
  exists css bps, copy_blocks n pe b st i = Some (css, bps) /\
    Forall (block_fits st ppb) (zip css bps) /\
    css = take n (drop (Z.to_nat i) (block_sizes b)) /\
    zsum bps = pages_before (i + Z.of_nat n) - pages_before i /\
    block_srcs (start + zsum (take (Z.to_nat i) (block_sizes b))) (zip css bps) =
      image_src <$> seqZ (pages_before i) (pages_before (i + Z.of_nat n) - pages_before i).
Proof.
  intros Hst. pose proof (ppb_range pe b Hok Eb) as Hp. pose proof (block_count_bounds pe b Hok Eb) as Hc.
  induction n as [|n IH]; intros i Hi Hle Hm.
  { exists [], []. rewrite Z.add_0_r, Z.sub_diag. by split_and!. }
  assert (Hir : 0 <= i < n_block_sizes b) by lia.
  pose proof (block_pages_at_range i Hir) as Hbp.
  destruct (zlookup_is_Some (block_sizes b) i Hir) as [cs Hcs].
  assert (Hcs' : block_sizes b !! Z.to_nat i = Some cs).
  { rewrite <- zlookup_of_nat, Z2Nat.id by lia. done. }
  destruct (blocks_fit_lookup _ _ _ 0 _ cs
    (proj1 (proj2 (proj2 (entry_blocks_ok pe b Hok Eb)))) Hcs') as [Hcs0 Hcs1].
  rewrite Z.add_0_l, Z2Nat.id in Hcs1 by lia.
  assert (Hkind : block_kind i = VMA_IO_PACKED_RAW -> cs = block_pages_at nrp ppb i * PAGE_SIZE).
  { unfold block_kind. rewrite Hcs. zcases; done. }
  assert (Hkz : block_kind i = VMA_IO_ZERO -> cs = 0).
  { unfold block_kind. rewrite Hcs. zcases; done. }
  destruct (IH (i + 1)) as (css & bps & Hc1 & Hf & -> & Hsum & Hsrc); [lia|lia| |].
  { destruct Hm as [->|[Hs Hm]]; [by left|]. right. split; [done|]. intros j Hj. apply Hm. lia. }
  assert (Hgate : (bool_decide (st = VMA_IO_PACKED_RAW) || bool_decide (st = VMA_IO_ZERO)) &&
           negb (bool_decide (block_kind i = st)) = false).
  { destruct Hm as [->|[Hs Hm]]; [done|]. rewrite (bool_decide_eq_true_2 (block_kind i = st)) by (apply Hm; lia).
    by rewrite andb_false_r. }
  assert (Hfit : block_fits st ppb (cs, block_pages_at nrp ppb i)).
  { split_and!; simpl; try lia.
    - intros ->. apply Hkind. destruct Hm as [|[_ Hm]]; [done|]. apply Hm. lia.
    - intros ->. apply Hkz. destruct Hm as [|[_ Hm]]; [done|]. apply Hm. lia. }
  assert (Hpg : pages_before (i + 1) = pages_before i + block_pages_at nrp ppb i /\
                pages_before i = i * ppb).
  { unfold pages_before, block_pages_at in *. lia. }
  destruct Hpg as [Hpg1 Hpg2].
  exists (cs :: take n (drop (Z.to_nat (i + 1)) (block_sizes b))), (block_pages_at nrp ppb i :: bps).
  simpl copy_blocks. rewrite Hcs, compressed_block_storage_ok, Hgate, Hc1 by done.
  rewrite u16_small by lia.
  replace (i + Z.of_nat (S n)) with (i + 1 + Z.of_nat n) by lia.
  replace (Z.to_nat (i + 1)) with (S (Z.to_nat i)) in * by lia.
  assert (Hmono : 0 <= pages_before (i + 1 + Z.of_nat n) - pages_before (i + 1)).
  { unfold pages_before. nia. }
  split_and!; try done.
  - by apply Forall_cons_2.
  - by rewrite (drop_S _ _ _ Hcs').
  - rewrite zsum_cons, Hsum. lia.
  - cbn [zip_with block_srcs]. rewrite (zsum_take_S _ _ _ Hcs') in Hsrc.
    rewrite <- Z.add_assoc, Hsrc.
    replace (pages_before (i + 1 + Z.of_nat n) - pages_before i)
      with (block_pages_at nrp ppb i + (pages_before (i + 1 + Z.of_nat n) - pages_before (i + 1))) by lia.
    rewrite seqZ_app by lia. rewrite fmap_app, <- Hpg1. f_equal.
    rewrite <- (Z.add_0_r (pages_before i)) at 1. rewrite <- fmap_add_seqZ, <- list_fmap_compose.
    apply list_fmap_ext. intros k j Hj. apply lookup_seqZ in Hj as [-> Hj]. rewrite Z.add_0_l.
    unfold image_src, compose. rewrite Hpg2.
    destruct (block_of_page_inside pe b Hok Eb i (Z.of_nat k)) as [-> ->]; [lia|lia|].
    by rewrite Hcs'.
Qed.
End Positions.

(** ** Acceptance *)

(** The request passes every metadata check. *)
Definition request_accepted (pr : page_read) (buf len : Z) (st : restore_vma_io_storage) : Prop :=
  iov_ok (Iovec buf len) /\
  (st = VMA_IO_UNCOMPRESSED <->
     match pr_pe pr with Some pe => pe_blocks pe = None | None => True end) /\
  (st <> VMA_IO_UNCOMPRESSED ->
     forall p, exists r, piov_add_compressed_blocks [] p pr (len / PAGE_SIZE) st = (Some r, [])).

Lemma enqueue_async_iov_accepts pr buf len q st :
  request_accepted pr buf len st -> exists q', enqueue_async_iov [] pr buf len q st = (0, q', []).
Proof.
  intros ((Hb & Hl & Hm & _) & Hk & Ha). unfold enqueue_async_iov. simpl in *.
  destruct (Z.eqb_spec len 0); [lia|]. rewrite Hm. simpl.
  set (hb := match pr_pe pr with Some _ => _ | None => _ end).
  assert (Hhb : hb = negb (is_uncompressed st)).
  { unfold hb, is_uncompressed. case_bool_decide as Hs; simpl.
    - destruct (pr_pe pr) as [pe|]; [|done]. by rewrite (proj1 Hk Hs).
    - destruct (pr_pe pr) as [pe|]; [|by destruct Hs; apply Hk].
      destruct (pe_blocks pe) eqn:E; [done|]. destruct Hs. by apply Hk. }
  rewrite Hhb, negb_involutive, andb_negb_r, andb_negb_l.
  unfold is_uncompressed. case_bool_decide as Hs; [eauto|].
  destruct (Ha Hs (PageReadIov (pi_off pr) (pi_off pr) [Iovec buf len] 1 st (PageBlockLayout [] 0 0 0)
    (len / PAGE_SIZE) [])) as [r ->]. eauto.
Qed.

Lemma pagemap_enqueue_iovec_one_accepts pr buf len q st :
  request_accepted pr buf len st ->
  exists q', pagemap_enqueue_iovec_one [] pr buf len q st = (0, q', []).
Proof.
  intros Hr. pose proof (fun q => enqueue_async_iov_accepts pr buf len q st Hr) as Ha.
  unfold pagemap_enqueue_iovec_one.
  assert (Hfin : forall p undo, exists q', enqueue_finish [] pr len q st p undo = (0, q', [])).
  { intros p undo. unfold enqueue_finish, is_uncompressed. case_bool_decide as Hs; [eauto|].
    destruct Hr as (_ & _ & Hadd). destruct (Hadd Hs p) as [r ->]. eauto. }
  destruct (last q) as [t|]; [|done].
  repeat match goal with
  | |- exists q', (if ?c then _ else _) = _ => destruct c; [done|]
  | |- exists q', match zlookup ?a ?b with _ => _ end = _ => destruct (zlookup a b); [|done]
  end.
  simpl. apply Hfin.
Qed.

(** ** Runs of blocks *)
Section Runs.
Context (pe : pagemap_entry) (b : pagemap_blocks) (start : Z).
Context (Hok : entry_ok pe) (Eb : pe_blocks pe = Some b) (Hty : entry_typed pe).
Abbreviation ppb := (pages_per_block b).
Abbreviation nrp := (pe_nr_pages pe).
Abbreviation before := (pages_before pe b).

Lemma block_of_pages_before j :
  0 <= j <= n_block_sizes b ->
  block_of_page pe b (before j) = j /\ offset_of_page pe b (before j) = 0.
Proof.
  intros Hj. pose proof (ppb_range pe b Hok Eb). pose proof (block_count_bounds pe b Hok Eb).
  unfold pages_before, block_of_page, offset_of_page.
  destruct (Z.min_spec (j * ppb) nrp) as [[Hlt ->]|[Hge ->]].
  - destruct (Z.eqb_spec (j * ppb) nrp); [lia|]. by rewrite Z.div_mul, Z.mod_mul by lia.
  - rewrite Z.eqb_refl. split; [|done]. nia.
Qed.

Lemma storage_out i : compressed_block_storage pe i <> None -> 0 <= i -> 0 <= i < n_block_sizes b.
Proof.
  unfold compressed_block_storage, compressed_block_layout. rewrite Eb, Z.geb_leb.
  destruct (Z.leb_spec (n_block_sizes b) i); [done|lia].
Qed.

(** [rb] blocks from [i0] with [rp] pages, all of storage [fs]. *)
Definition run_inv (i0 : Z) (fs : restore_vma_io_storage) (rp rb : Z) : Prop :=
  0 <= rb /\ i0 + rb <= n_block_sizes b /\ rp = before (i0 + rb) - before i0 /\
  (rp = 0 -> rb = 0) /\ forall j, i0 <= j < i0 + rb -> block_kind pe b j = fs.

Lemma run_inv_step i0 fs rp rb :
  0 <= i0 -> run_inv i0 fs rp rb -> i0 + rb < n_block_sizes b -> block_kind pe b (i0 + rb) = fs ->
  run_inv i0 fs (rp + block_pages_at nrp ppb (i0 + rb)) (rb + 1) /\
  before (i0 + (rb + 1)) = before (i0 + rb) + block_pages_at nrp ppb (i0 + rb).
Proof.
  intros Hi0 (H1 & H2 & -> & H4 & H5) Hlt Hk.
  pose proof (ppb_range pe b Hok Eb). pose proof (block_count_bounds pe b Hok Eb).
  pose proof (block_pages_at_range pe b Hok Eb (i0 + rb) ltac:(lia)).
  assert (Hb : before (i0 + (rb + 1)) = before (i0 + rb) + block_pages_at nrp ppb (i0 + rb)).
  { unfold pages_before, block_pages_at in *. lia. }
  split; [|done]. split_and!; try lia.
  - unfold pages_before in *. nia.
  - intros j Hj. destruct (decide (j = i0 + rb)) as [->|]; [done|]. apply H5. lia.
Qed.

Lemma storage_run_loop_ok i0 fs : forall fuel left rp rb bp r,
  0 <= i0 < n_block_sizes b -> left < 2 ^ 63 -> 0 <= rp -> run_inv i0 fs rp rb ->
  (rp = 0 -> bp = block_pages_at nrp ppb i0 /\ block_kind pe b i0 = fs) ->
  storage_run_loop fuel pe left fs rp rb (i0 + rb) bp = Ret (Some r) ->
  run_inv i0 fs (fst r) (snd r).
Proof.
  induction fuel as [|fuel IH]; intros left rp rb bp r Hi0 Hl Hrp Hinv H0 H; simpl in H.
  { destruct (rp <? left); [done|]. by injection H as <-. }
  destruct (Z.ltb_spec rp left); [|by injection H as <-].
  pose proof Hinv as (I1 & I2 & I3 & I4 & I5).
  destruct (if rp =? 0 then Some (fs, bp) else compressed_block_storage pe (i0 + rb))
    as [[st bp']|] eqn:Est; [|done].
  assert (Hcur : i0 + rb < n_block_sizes b /\ st = block_kind pe b (i0 + rb) /\
                 bp' = block_pages_at nrp ppb (i0 + rb)).
  { destruct (Z.eqb_spec rp 0) as [->|Hne].
    - injection Est as <- <-. destruct (H0 eq_refl) as [-> <-]. rewrite (I4 eq_refl), Z.add_0_r.
      split_and!; (done || lia).
    - assert (Hr : 0 <= i0 + rb < n_block_sizes b) by (apply storage_out; [congruence|lia]).
      rewrite (compressed_block_storage_ok pe b Hok Eb) in Est by done. injection Est as <- <-.
      split_and!; (done || lia). }
  destruct Hcur as (Hlt & -> & ->).
  destruct (bool_decide_reflect (block_kind pe b (i0 + rb) = fs)) as [Hk|]; simpl in H;
    [|by injection H as <-].
  destruct (_ >? left - rp); [done|]. destruct (negb _ && _); [by injection H as <-|].
  destruct (run_inv_step i0 fs rp rb ltac:(lia) Hinv Hlt Hk) as [Hinv' Hb].
  pose proof (block_pages_at_range pe b Hok Eb (i0 + rb) ltac:(lia)).
  pose proof (ppb_range pe b Hok Eb).
  rewrite u64_small in H by lia.
  destruct (_ >=? _); [by injection H as <-|].
  rewrite <- Z.add_assoc in H. apply (IH _ _ _ _ _ Hi0 Hl) in H; [done|lia|done|intros; lia].
Qed.

Lemma compressed_storage_run_ok i0 left st chunk blocks :
  0 <= i0 < n_block_sizes b -> 0 <= left < 2 ^ 63 ->
  compressed_storage_run pe i0 left = Ret (Some (st, chunk, blocks)) ->
  st = block_kind pe b i0 /\ run_inv i0 st chunk blocks /\ 1 <= chunk <= left.
Proof.
  intros Hi Hl H. pose proof (compressed_storage_run_returns pe i0 left Hty ltac:(lia)) as (r & Hr & Hc).
  rewrite H in Hr. injection Hr as <-. specialize (Hc _ _ _ eq_refl).
  unfold compressed_storage_run in H. rewrite (compressed_block_storage_ok pe b Hok Eb) in H by done.
  destruct (storage_run_loop _ _ _ _ _ _ _ _) as [[[rp rb]|]| |] eqn:E; try done. simpl in H.
  destruct (rp =? 0); [done|]. injection H as <- <- <-. split; [done|]. split; [|done].
  rewrite <- (Z.add_0_r i0) in E at 2.
  apply (storage_run_loop_ok i0 _ _ left) in E; [done|done|lia|lia| |].
  - unfold run_inv. rewrite Z.add_0_r. split_and!; (done || lia).
  - done.
Qed.
End Runs.

(** ** A request over whole blocks *)
Section Request.
Context (pe : pagemap_entry) (b : pagemap_blocks) (start : Z).
Context (Hok : entry_ok pe) (Eb : pe_blocks pe = Some b) (Hty : entry_typed pe).
Context (Hst : 0 <= start) (Hmax : start + zsum (block_sizes b) <= OFF_MAX).
Abbreviation ppb := (pages_per_block b).
Abbreviation nrp := (pe_nr_pages pe).
Abbreviation before := (pages_before pe b).

Lemma entry_pos_before j : 0 <= j <= n_block_sizes b ->
  entry_pos pe start (before j) = (start + zsum (take (Z.to_nat j) (block_sizes b)), j, 0).
Proof.
  intros Hj. destruct (block_of_pages_before pe b Hok Eb j Hj) as [E1 E2].
  destruct Hok as (_&_&_&_&_&_&Hb). destruct (Hb b Eb) as [Hp _].
  unfold entry_pos. by rewrite Hp, Eb, E1, E2.
Qed.

(** The number of blocks of a run is recovered from its pages. *)
Lemma run_block_count i bl :
  0 <= i < n_block_sizes b -> 1 <= bl -> i + bl <= n_block_sizes b ->
  block_nr_blocks (before (i + bl) - before i) (pagemap_block_pages pe) = bl /\
  before i = i * ppb /\ 0 < before (i + bl) - before i < 2 ^ 52.
Proof.
  intros Hi Hb1 Hb2. pose proof (ppb_range pe b Hok Eb). pose proof (block_count_bounds pe b Hok Eb).
  rewrite (pagemap_block_pages_ok nrp pe b Eb (entry_blocks_ok pe b Hok Eb)).
  assert (nrp < 2 ^ 52).
  { destruct Hok as (_&_&_&?&?&He&_). unfold entry_end, PAGE_SIZE in He. lia. }
  unfold pages_before in *. assert (i * ppb < nrp) by nia.
  split; [|nia]. apply block_nr_blocks_spec; nia.
Qed.

Lemma fold_s64_zsum l : forall o, Forall (fun s => 0 <= s) l -> 0 <= o -> o + zsum l <= OFF_MAX ->
  fold_left (fun a s => s64 (a + s)) l o = o + zsum l.
Proof.
  induction l as [|x l IH]; intros o Hf Ho Hle; simpl in *; [lia|].
  apply Forall_cons_1 in Hf as [Hx Hf]. pose proof (zsum_nonneg _ Hf). unfold OFF_MAX in *.
  rewrite s64_small by lia. rewrite IH; [lia|done|lia|lia].
Qed.

Lemma advance_compressed_offsets_ok pr i bl :
  pr_pe pr = Some pe -> pos_of pr = entry_pos pe start (before i) ->
  0 <= i < n_block_sizes b -> 1 <= bl -> i + bl <= n_block_sizes b ->
  advance_compressed_offsets pr (before (i + bl) - before i) =
    (0, set_pos (entry_pos pe start (before (i + bl))) pr).
Proof.
  intros Hpe Hpos Hi Hb1 Hb2. rewrite entry_pos_before in Hpos by lia.
  injection Hpos as Hx Hbi Hbo. destruct (run_block_count i bl Hi Hb1 Hb2) as (Hn & _ & Hr).
  rewrite entry_pos_before by lia.
  unfold advance_compressed_offsets. rewrite Hpe, Eb, Hbi, Hn.
  destruct (entry_blocks_ok pe b Hok Eb) as (_ & Hc & Hf & Ht).
  pose proof (blocks_fit_nonneg _ _ _ _ Hf) as Hnn. pose proof (zsum_nonneg _ Hnn).
  pose proof (ppb_range pe b Hok Eb) as Hppb. unfold OFF_MAX in *.
  destruct (_ && _) eqn:Hfast.
  - rewrite andb_true_iff, !Z.eqb_eq in Hfast. destruct Hfast as [-> Hall].
    assert (0 + bl = n_block_sizes b) as -> by (unfold pages_before in Hall; nia).
    rewrite Hx, Ht. simpl. rewrite s64_small by lia.
    unfold n_block_sizes at 2. unfold zlen. rewrite Nat2Z.id, firstn_all.
    unfold set_pi_off, set_blk. simpl. rewrite Hbo. do 2 f_equal. lia.
  - rewrite Z.gtb_ltb. destruct (Z.ltb_spec (n_block_sizes b) (i + bl)); [lia|].
    pose proof (zsum_take_le _ (Z.to_nat i) Hnn) as Hti.
    assert (Hsl : zsum (take (Z.to_nat (i + bl)) (block_sizes b)) =
      zsum (take (Z.to_nat i) (block_sizes b)) +
      zsum (take (Z.to_nat bl) (drop (Z.to_nat i) (block_sizes b)))).
    { replace (Z.to_nat (i + bl)) with (Z.to_nat i + Z.to_nat bl)%nat by lia.
      rewrite <- (take_drop (Z.to_nat i) (block_sizes b)) at 1.
      rewrite take_app_add'; [by rewrite zsum_app|].
      rewrite length_take. unfold n_block_sizes, zlen in *. lia. }
    pose proof (zsum_take_le _ (Z.to_nat (i + bl)) Hnn).
    rewrite fold_s64_zsum; [|by apply Forall_take, Forall_drop|lia|unfold OFF_MAX; lia].
    unfold set_pos, set_pi_off, set_blk. simpl. rewrite Hbo. do 2 f_equal. lia.
Qed.

Lemma pick_storage_matches par asy h m i blocks chunk :
  0 <= i < n_block_sizes b -> run_inv pe b i (block_kind pe b i) chunk blocks ->
  let st := pick_storage par asy h m (block_kind pe b i) chunk blocks in
  st <> VMA_IO_UNCOMPRESSED /\ run_matches pe b st i (Z.to_nat blocks).
Proof.
  intros Hi (H1 & _ & _ & _ & Hk). simpl.
  assert (Hc : block_kind pe b i <> VMA_IO_UNCOMPRESSED).
  { unfold block_kind. destruct (zlookup_is_Some (block_sizes b) i Hi) as [cs ->]. zcases; done. }
  assert (Hor : pick_storage par asy h m (block_kind pe b i) chunk blocks = VMA_IO_ENCODED \/
                pick_storage par asy h m (block_kind pe b i) chunk blocks = block_kind pe b i).
  { unfold pick_storage. destruct (_ && _ && _ && _); [by left; destruct (_ && _ && _)|].
    destruct (_ && _ && _); auto. }
  destruct Hor as [->| ->]; [by split; [|left]|].
  split; [done|]. destruct (block_kind pe b i) eqn:E; try done; [by left| |];
    (right; split; [by auto|]; intros j Hj; apply Hk; lia).
Qed.

(** A run meets the checks, and denotes the pages it should. *)
Lemma run_request pr i bl st buf :
  pr_pe pr = Some pe -> pos_of pr = entry_pos pe start (before i) ->
  0 <= i < n_block_sizes b -> 1 <= bl -> i + bl <= n_block_sizes b ->
  st <> VMA_IO_UNCOMPRESSED -> run_matches pe b st i (Z.to_nat bl) ->
  let len := (before (i + bl) - before i) * PAGE_SIZE in
  0 <= buf -> buf + len < 2 ^ 64 ->
  request_ok pr buf len st /\ request_accepted pr buf len st /\
  request_srcs pr len st =
    image_src pe b start <$> seqZ (before i) (before (i + bl) - before i).
Proof.
  intros Hpe Hpos Hi Hb1 Hb2 Hs Hm len Hbuf Hend.
  rewrite entry_pos_before in Hpos by lia. injection Hpos as Hx Hbi _.
  destruct (run_block_count i bl Hi Hb1 Hb2) as (Hn & Hbe & Hr).
  destruct (copy_blocks_ok pe b start Hok Eb st Hs (Z.to_nat bl) i) as
    (css & bps & Hc & Hfit & Hcss & Hsum & Hsrc); [lia|lia|done|].
  rewrite Z2Nat.id in * by lia.
  assert (Hl : length css = length bps) by (apply copy_blocks_length in Hc as [? ?]; congruence).
  destruct (zip_fst_snd css bps Hl) as [Ef Es].
  assert (Hlen : len / PAGE_SIZE = before (i + bl) - before i).
  { unfold len, PAGE_SIZE. rewrite Z.div_mul; lia. }
  assert (Hrb : request_blocks pr (len / PAGE_SIZE) st = zip css bps).
  { unfold request_blocks. by rewrite Hpe, Eb, Hlen, Hn, Hbi, Hc. }
  pose proof (ppb_range pe b Hok Eb) as Hp.
  pose proof (pagemap_block_pages_ok nrp pe b Eb (entry_blocks_ok pe b Hok Eb)) as Hbpg.
  assert (Hio : iov_ok (Iovec buf len)).
  { unfold iov_ok, len, PAGE_SIZE in *; simpl. rewrite Z.mod_mul by lia. lia. }
  destruct (entry_blocks_ok pe b Hok Eb) as (_ & Hcnt & Hf & _).
  pose proof (blocks_fit_nonneg _ _ _ _ Hf) as Hnn.
  split_and!.
  - split; [done|rewrite Hx; pose proof (zsum_take_le _ (Z.to_nat i) Hnn); lia|done|].
    intros _. exists pe. rewrite Hrb, Ef, Es, Hbpg. split_and!; try done; try lia.
    + rewrite MAX_BLOCK_PAGES_eq. lia.
    + rewrite Hx, Hcss. rewrite <- Z.add_assoc, <- zsum_app.
      rewrite <- (take_drop (Z.to_nat i) (block_sizes b)) in Hmax.
      rewrite <- (take_drop (Z.to_nat bl) (drop (Z.to_nat i) (block_sizes b))) in Hmax.
      rewrite app_assoc, zsum_app in Hmax.
      pose proof (zsum_nonneg _ (Forall_drop _ (Z.to_nat bl) _ (Forall_drop _ (Z.to_nat i) _ Hnn))). lia.
  - split; [done|]. split; [rewrite Hpe, Eb; split; done|]. intros _ p.
    unfold piov_add_compressed_blocks. rewrite Hpe, Eb, Hlen, Hn, Hbi, Hbpg, Hc.
    assert (Hal : (before (i + bl) - before i) mod ppb = 0 \/ before (i + bl) = nrp).
    { unfold pages_before in *. destruct (Z.min_spec ((i + bl) * ppb) nrp) as [[_ ->]|[_ ->]]; [|by right].
      left. rewrite Hbe. replace ((i + bl) * ppb - i * ppb) with (bl * ppb) by lia.
      apply Z.mod_mul. lia. }
    assert (nrp < 2 ^ 52 /\ before (i + bl) <= nrp).
    { destruct Hok as (_&_&_&?&?&He&_). unfold entry_end, PAGE_SIZE in He. unfold pages_before. lia. }
    rewrite (u64_small (i * ppb)) by lia. rewrite u64_small by lia. rewrite Z.mod_mul by lia.
    replace (i * ppb + (before (i + bl) - before i)) with (before (i + bl)) by lia.
    simpl. rewrite Z.gtb_ltb. destruct (Z.ltb_spec (n_block_sizes b) (i + bl)); [lia|].
    destruct Hal as [->| ->]; [|rewrite Z.eqb_refl, andb_false_r]; simpl; eauto.
  - unfold request_srcs, is_uncompressed. rewrite bool_decide_eq_false_2 by done.
    by rewrite Hrb, Hx, Hsrc.
Qed.

Lemma before_step i : 0 <= i < n_block_sizes b ->
  before (i + 1) = before i + block_pages_at nrp ppb i /\ 1 <= block_pages_at nrp ppb i <= ppb.
Proof.
  intros Hi. pose proof (block_pages_at_range pe b Hok Eb i Hi).
  pose proof (ppb_range pe b Hok Eb). pose proof (block_count_bounds pe b Hok Eb).
  unfold pages_before, block_pages_at in *. lia.
Qed.

Lemma before_mono i j : 0 <= i <= j -> j <= n_block_sizes b -> before i <= before j.
Proof. pose proof (ppb_range pe b Hok Eb). unfold pages_before. nia. Qed.

Lemma before_inj i j : 0 <= i <= n_block_sizes b -> 0 <= j <= n_block_sizes b ->
  before i <= before j -> i <= j.
Proof.
  intros Hi Hj H. destruct (Z.le_gt_cases i j) as [|Hlt]; [done|].
  pose proof (before_step j ltac:(lia)) as [E ?].
  pose proof (before_mono (j + 1) i ltac:(lia) ltac:(lia)). lia.
Qed.

Lemma before_max i : 0 <= i <= n_block_sizes b -> 0 <= before i <= nrp /\ nrp < 2 ^ 52.
Proof.
  intros Hi. pose proof (ppb_range pe b Hok Eb). destruct Hok as (_&_&_&?&?&He&_).
  unfold entry_end, PAGE_SIZE in He. unfold pages_before. nia.
Qed.

(** Requests over whole blocks pass both scans. *)
Lemma has_lz4_loop_accepts i0 ie : 0 <= i0 -> ie <= n_block_sizes b -> forall fuel i prev h m,
  i0 <= i <= ie -> before ie - before i <= Z.of_nat fuel ->
  exists h' m', has_lz4_loop fuel pe (before ie - before i0) (before i - before i0) i prev h m
    = Ret (Some (h', m')).
Proof.
  intros H0 He. induction fuel as [|fuel IH]; intros i prev h m Hi Hf; simpl;
    (destruct (Z.ltb_spec (before i - before i0) (before ie - before i0)) as [Hlt|]; [|by eauto]).
  { lia. }
  assert (i < ie) by (destruct (decide (i = ie)) as [->|]; lia).
  rewrite (compressed_block_storage_ok pe b Hok Eb) by lia.
  destruct (before_step i ltac:(lia)) as [Hs Hr]. pose proof (before_mono (i + 1) ie ltac:(lia) He).
  pose proof (before_max ie ltac:(lia)). pose proof (before_max i ltac:(lia)).
  pose proof (before_max i0 ltac:(lia)). pose proof (before_mono i0 i ltac:(lia) ltac:(lia)).
  rewrite Z.gtb_ltb. destruct (Z.ltb_spec (before ie - before i0 - (before i - before i0))
    (block_pages_at nrp ppb i)); [lia|].
  rewrite u64_small by lia.
  replace (before i - before i0 + block_pages_at nrp ppb i) with (before (i + 1) - before i0) by lia.
  destruct (bool_decide _); apply IH; lia.
Qed.

Lemma storage_run_loop_accepts i0 ie fs : 0 <= i0 < ie -> ie <= n_block_sizes b ->
  block_kind pe b i0 = fs -> forall fuel rb bp,
  0 <= rb -> i0 + rb <= ie -> before ie - before (i0 + rb) <= Z.of_nat fuel ->
  (rb = 0 -> bp = block_pages_at nrp ppb i0) ->
  exists r, storage_run_loop fuel pe (before ie - before i0) fs (before (i0 + rb) - before i0) rb
    (i0 + rb) bp = Ret (Some r) /\ Z.min 1 (before ie - before i0) <= fst r + rb /\
    before (i0 + rb) - before i0 <= fst r.
Proof.
  intros H0 He Hk. induction fuel as [|fuel IH]; intros rb bp Hrb Hle Hf Hbp; simpl;
    (destruct (Z.ltb_spec (before (i0 + rb) - before i0) (before ie - before i0)) as [Hlt|];
       [|eexists; split; [done|simpl; lia]]).
  { lia. }
  assert (i0 + rb < ie) by (destruct (decide (i0 + rb = ie)) as [E|]; [rewrite E in Hlt|]; lia).
  destruct (before_step (i0 + rb) ltac:(lia)) as [Hs Hr].
  pose proof (before_mono (i0 + rb + 1) ie ltac:(lia) He). pose proof (before_max ie ltac:(lia)).
  pose proof (before_max (i0 + rb) ltac:(lia)). pose proof (before_max i0 ltac:(lia)).
  pose proof (before_mono i0 (i0 + rb) ltac:(lia) ltac:(lia)).
  assert (Hcur : exists st, (if before (i0 + rb) - before i0 =? 0 then Some (fs, bp)
    else compressed_block_storage pe (i0 + rb)) = Some (st, block_pages_at nrp ppb (i0 + rb)) /\
    (rb = 0 -> st = fs)).
  { destruct (Z.eqb_spec (before (i0 + rb) - before i0) 0) as [Ez|Ez].
    - assert (rb = 0) as -> by (pose proof (before_inj (i0 + rb) i0 ltac:(lia) ltac:(lia)); lia).
      rewrite Hbp, Z.add_0_r by done. eauto.
    - rewrite (compressed_block_storage_ok pe b Hok Eb) by lia. eexists; split; [done|].
      intros ->. rewrite Z.add_0_r in Ez. lia. }
  destruct Hcur as (st & -> & Hst0).
  case_bool_decide as Hbd; simpl; [|eexists; split; [done|]; simpl; split; [|lia];
    destruct (decide (rb = 0)); [by destruct Hbd; apply Hst0|lia]].
  rewrite Z.gtb_ltb. destruct (Z.ltb_spec (before ie - before i0 - (before (i0 + rb) - before i0))
    (block_pages_at nrp ppb (i0 + rb))); [lia|].
  destruct (negb _ && _) eqn:Ecap; [eexists; split; [done|]; simpl; split; [|lia]|].
  { apply andb_true_iff in Ecap as [Ecap _]. apply negb_true_iff, Z.eqb_neq in Ecap.
    destruct (decide (rb = 0)) as [->|]; [rewrite Z.add_0_r in Ecap|]; lia. }
  rewrite u64_small by lia. destruct (_ >=? _); [eexists; split; [done|simpl; lia]|].
  replace (before (i0 + rb) - before i0 + block_pages_at nrp ppb (i0 + rb))
    with (before (i0 + (rb + 1)) - before i0) by (rewrite Z.add_assoc; lia).
  rewrite <- Z.add_assoc in *.
  destruct (IH (rb + 1) (block_pages_at nrp ppb (i0 + rb))) as (r & -> & Hr1 & Hr2); [lia..|].
  exists r. split; [done|]. lia.
Qed.

(** The next run of a request from block [i] up to block [ie]. *)
Lemma next_run i ie : 0 <= i < ie -> ie <= n_block_sizes b -> exists bl,
  compressed_storage_run pe i (before ie - before i) =
    Ret (Some (block_kind pe b i, before (i + bl) - before i, bl)) /\
  1 <= bl /\ i + bl <= ie /\ run_inv pe b i (block_kind pe b i) (before (i + bl) - before i) bl.
Proof.
  intros Hi He. pose proof (before_max ie ltac:(lia)). pose proof (before_max i ltac:(lia)).
  pose proof (before_mono (i + 1) ie ltac:(lia) He). pose proof (before_step i ltac:(lia)) as [Hs ?].
  destruct (storage_run_loop_accepts i ie (block_kind pe b i) ltac:(lia) He eq_refl
    (Z.to_nat (before ie - before i)) 0 (block_pages_at nrp ppb i)) as ([rp rb] & Hr & Hpos & _);
    [lia|lia|rewrite Z.add_0_r; lia|done|].
  rewrite Z.add_0_r, Z.sub_diag in Hr. simpl in Hpos.
  assert (Hrun : compressed_storage_run pe i (before ie - before i) =
    Ret (Some (block_kind pe b i, rp, rb))).
  { unfold compressed_storage_run. rewrite (compressed_block_storage_ok pe b Hok Eb) by lia.
    rewrite Hr. simpl. destruct (Z.eqb_spec rp 0); [lia|done]. }
  destruct (compressed_storage_run_ok pe b Hok Eb Hty i (before ie - before i)
    (block_kind pe b i) rp rb ltac:(lia) ltac:(lia) Hrun) as (_ & Hinv & Hle).
  pose proof Hinv as (I1 & I2 & I3 & I4 & I5). subst rp.
  pose proof (before_inj (i + rb) ie ltac:(lia) ltac:(lia) ltac:(lia)).
  assert (1 <= rb) by (destruct (decide (rb = 0)) as [->|]; [rewrite Z.add_0_r in *|]; lia).
  exists rb. by split_and!.
Qed.

Lemma enqueued_trans q t1 q1 t2 q2 :
  enqueued q t1 q1 -> enqueued q1 t2 q2 -> enqueued q (t1 ++ t2) q2.
Proof. intros [_ H1] [H2 H3]. split; [done|]. by rewrite H3, H1, app_assoc. Qed.

(** The transfers of pages [k1, k2) of the entry to memory at [buf]. *)
Definition entry_tasks (buf k1 k2 : Z) : list (Z * page_src) :=
  zip (iov_pages (Iovec buf ((k2 - k1) * PAGE_SIZE))) (image_src pe b start <$> seqZ k1 (k2 - k1)).

Lemma entry_tasks_app buf k1 k2 k3 : k1 <= k2 <= k3 ->
  entry_tasks buf k1 k3 = entry_tasks buf k1 k2 ++ entry_tasks (buf + (k2 - k1) * PAGE_SIZE) k2 k3.
Proof.
  intros Hk. unfold entry_tasks.
  assert (Hm : forall x, (x * PAGE_SIZE) mod PAGE_SIZE = 0) by (intros; apply Z.mod_mul; done).
  replace ((k3 - k1) * PAGE_SIZE) with ((k2 - k1) * PAGE_SIZE + (k3 - k2) * PAGE_SIZE) by lia.
  rewrite iov_pages_app; [|unfold PAGE_SIZE; lia..|done|done].
  replace (k3 - k1) with ((k2 - k1) + (k3 - k2)) by lia.
  rewrite seqZ_app by lia. replace (k1 + (k2 - k1)) with k2 by lia.
  rewrite fmap_app, zip_with_app; [done|].
  apply Nat2Z.inj. rewrite length_iov_pages by (simpl; unfold PAGE_SIZE; lia).
  rewrite length_fmap, length_seqZ. simpl. unfold PAGE_SIZE. rewrite Z.div_mul; lia.
Qed.

Lemma enqueue_runs_ok par asy h m buf i0 ie : 0 <= i0 -> ie <= n_block_sizes b ->
  0 <= buf -> buf + (before ie - before i0) * PAGE_SIZE < 2 ^ 64 ->
  forall fuel al pr i q,
  pr_pe pr = Some pe -> pos_of pr = entry_pos pe start (before i) -> i0 <= i <= ie ->
  before ie - before i <= Z.of_nat fuel -> Forall piov_ok q ->
  exists ret q' al', enqueue_runs par asy fuel al pe pr buf (before ie - before i0) (before i - before i0) h m q
    = Ret (ret, q', al') /\ (al = [] -> ret = 0 /\ al' = []) /\
  (ret = 0 -> enqueued q (entry_tasks (buf + (before i - before i0) * PAGE_SIZE) (before i) (before ie)) q').
Proof.
  intros H0 He Hbuf Hend. induction fuel as [|fuel IH]; intros al pr i q Hpe Hpos Hi Hf Hq; simpl;
    (destruct (Z.ltb_spec (before i - before i0) (before ie - before i0)) as [Hlt|Hge];
     [|pose proof (before_mono i ie ltac:(lia) He);
       exists 0, q, al; split; [done|]; split; [done|]; intros _; split; [done|]; unfold entry_tasks;
       replace (before ie - before i) with 0 by lia; simpl; by rewrite app_nil_r]).
  { lia. }
  assert (Hlt' : i < ie) by (destruct (decide (i = ie)) as [->|]; lia).
  destruct (next_run i ie ltac:(lia) He) as (bl & Hrun & Hb1 & Hb2 & Hinv).
  pose proof Hpos as Hpos'. rewrite entry_pos_before in Hpos' by lia. injection Hpos' as _ Hbi _.
  rewrite Hbi. replace (before ie - before i0 - (before i - before i0)) with (before ie - before i) by lia.
  rewrite Hrun. simpl. pose proof (before_mono i0 i ltac:(lia) ltac:(lia)).
  pose proof (before_mono i (i + bl) ltac:(lia) ltac:(lia)).
  pose proof (before_mono (i + bl) ie ltac:(lia) ltac:(lia)).
  pose proof (before_max ie ltac:(lia)). pose proof (before_max i ltac:(lia)).
  pose proof (before_max i0 ltac:(lia)).
  destruct (pick_storage_matches par asy h m i bl (before (i + bl) - before i)) as [Hs Hm]; [lia|done|].
  set (st := pick_storage _ _ _ _ _ _ _) in *.
  rewrite (u64_small (_ * PAGE_SIZE)) by (unfold PAGE_SIZE in *; lia).
  destruct (run_request pr i bl st (buf + (before i - before i0) * PAGE_SIZE)) as (R1 & R2 & R3);
    [done|done|lia|lia|lia|done|done|unfold PAGE_SIZE in *; lia..|].
  pose proof (pagemap_enqueue_iovec_one_accepts _ _ _ q _ R2) as Hacc.
  destruct (pagemap_enqueue_iovec_one al pr _ _ q st) as [[ret q1] al1] eqn:Hone.
  assert (Hal : al = [] -> ret = 0 /\ al1 = []).
  { intros ->. destruct Hacc as [q2 Hacc]. rewrite Hacc in Hone. by injection Hone as <- _ <-. }
  destruct (Z.eqb_spec ret 0) as [->|Hne]; simpl; [|exists ret, q1, al1; split; [done|]; split; [by intros H'; destruct (Hal H')|done]].
  apply pagemap_enqueue_iovec_one_ok in Hone; [|done|done].
  rewrite R3 in Hone. rewrite (advance_compressed_offsets_ok pr i bl) by (done || lia). simpl.
  rewrite u64_small by lia.
  replace (before i - before i0 + (before (i + bl) - before i)) with (before (i + bl) - before i0) by lia.
  destruct (IH al1 (set_pos (entry_pos pe start (before (i + bl))) pr) (i + bl) q1)
    as (ret & q' & al' & -> & Ha' & Hq'); [by destruct (entry_pos pe start (before (i + bl))) as [[? ?] ?]|by destruct (entry_pos pe start (before (i + bl))) as [[? ?] ?]|lia| |by destruct Hone|].
  { pose proof (run_block_count i bl ltac:(lia) Hb1 ltac:(lia)) as (_ & _ & ?). lia. }
  exists ret, q', al'. split; [done|]. split; [intros H'; by apply Ha', Hal|]. intros Hret. specialize (Hq' Hret).
  rewrite (entry_tasks_app _ _ (before (i + bl))) by lia. eapply enqueued_trans; [exact Hone|].
  replace (buf + (before i - before i0) * PAGE_SIZE + (before (i + bl) - before i) * PAGE_SIZE)
    with (buf + (before (i + bl) - before i0) * PAGE_SIZE) by lia. done.
Qed.
End Request.

Lemma pagemap_enqueue_iovec_blocks par asy al pe b start pr i ie buf q :
  entry_ok pe -> entry_typed pe -> pe_blocks pe = Some b ->
  0 <= start -> start + zsum (block_sizes b) <= OFF_MAX ->
  pr_pe pr = Some pe -> pos_of pr = entry_pos pe start (pages_before pe b i) ->
  0 <= i < ie -> ie <= n_block_sizes b ->
  let nr := pages_before pe b ie - pages_before pe b i in
  0 <= buf -> buf + nr * PAGE_SIZE < 2 ^ 64 -> Forall piov_ok q ->
  exists ret q' al', pagemap_enqueue_iovec par asy al pr buf (nr * PAGE_SIZE) q = Ret (ret, q', al') /\
    (al = [] -> ret = 0 /\ al' = []) /\
    (ret = 0 -> enqueued q (entry_tasks pe b start buf (pages_before pe b i) (pages_before pe b ie)) q').
Proof.
  intros Hok Hty Eb Hst Hmax Hpe Hpos Hi Hie nr Hbuf Hend Hq.
  assert (Hnr : 0 < nr < 2 ^ 52).
  { pose proof (before_step pe b Hok Eb i ltac:(lia)) as [Hs ?].
    pose proof (before_mono pe b Hok Eb (i + 1) ie ltac:(lia) Hie).
    pose proof (before_max pe b Hok Eb ie ltac:(lia)). pose proof (before_max pe b Hok Eb i ltac:(lia)).
    unfold nr. lia. }
  unfold pagemap_enqueue_iovec.
  assert (Hdiv : nr * PAGE_SIZE / PAGE_SIZE = nr) by (unfold PAGE_SIZE; rewrite Z.div_mul; lia).
  assert (Hmod : (nr * PAGE_SIZE) mod PAGE_SIZE = 0) by (unfold PAGE_SIZE; rewrite Z.mod_mul; lia).
  rewrite Hdiv, Hmod, Hpe, Eb.
  destruct (Z.eqb_spec (nr * PAGE_SIZE) 0) as [E|_]; [unfold PAGE_SIZE in E; lia|]. simpl.
  pose proof Hpos as Hpos'. rewrite (entry_pos_before pe b start Hok Eb) in Hpos' by lia.
  injection Hpos' as _ Hbi _. rewrite Hbi. unfold compressed_request_has_lz4.
  destruct (has_lz4_loop_accepts pe b Hok Eb i ie ltac:(lia) Hie (Z.to_nat nr) i None false false)
    as (h & m & Hscan); [lia|unfold nr; lia|].
  rewrite Z.sub_diag in Hscan. fold nr in Hscan. rewrite Hscan. simpl.
  destruct (enqueue_runs_ok pe b start Hok Eb Hty Hst Hmax par asy h m buf i ie ltac:(lia) Hie Hbuf Hend
    (Z.to_nat nr) al pr i q) as (ret & q' & al' & Hr & Ha' & Hq'); [done|done|lia|unfold nr; lia|done|].
  rewrite Z.sub_diag in Hr, Hq'. fold nr in Hr. rewrite Hr. simpl. rewrite Z.mul_0_l, Z.add_0_r in Hq'.
  destruct (Z.eqb_spec ret 0) as [->|Hne].
  - exists 0, q', al'. split; [done|]. split; [done|]. done.
  - eexists ret, _, al'. split; [done|]. split; [done|]. intros ->. done.
Qed.

(** A request that can be met is met, and queues exactly the pages asked
    for.  The reader is inside entry [pe] of an accepted image, in front of
    block [i]; the request covers the blocks up to [ie].  Whatever the
    allocations answer, [pagemap_enqueue_iovec] returns, and returns 0 if
    memory is available; when it returns 0 the queue is well formed and the
    page transfers it stands for are the old ones followed by, in order, one
    per page of the buffer: from the stored block the image keeps that page
    in, at the file offset of that block, however the request was split into
    storage runs, merged with the tail or spilled into new jobs. *)
Theorem pagemap_enqueue_iovec_exact par asy al pe b start pr i ie buf q :
  entry_ok pe -> entry_typed pe -> pe_blocks pe = Some b ->
  0 <= start -> start + zsum (block_sizes b) <= OFF_MAX ->
  pr_pe pr = Some pe -> pos_of pr = entry_pos pe start (pages_before pe b i) ->
  0 <= i < ie -> ie <= n_block_sizes b ->
  let nr := pages_before pe b ie - pages_before pe b i in
  0 <= buf -> buf + nr * PAGE_SIZE < 2 ^ 64 -> Forall piov_ok q ->
  exists ret q' al', pagemap_enqueue_iovec par asy al pr buf (nr * PAGE_SIZE) q = Ret (ret, q', al') /\
    (al = [] -> ret = 0 /\ al' = []) /\
    (ret = 0 -> Forall piov_ok q' /\
      queue_tasks q' = queue_tasks q ++ entry_tasks pe b start buf (pages_before pe b i) (pages_before pe b ie)).
Proof. intros Hok Hty Eb Hst Hmax Hpe Hpos Hi Hie nr Hbuf Hend Hq. by apply pagemap_enqueue_iovec_blocks. Qed.

(** ** The jobs pass the consumer's checks *)
Lemma check_direct_blocks_ok st ppb l : 1 <= ppb -> forall a o,
  Forall (block_fits st ppb) l -> 0 <= a -> 0 <= o ->
  a + zsum (fst <$> l) < 2 ^ 64 -> o + zsum (snd <$> l) * PAGE_SIZE < 2 ^ 64 ->
  check_direct_blocks st ppb l a o =
    Some (a + zsum (fst <$> l), o + zsum (snd <$> l) * PAGE_SIZE).
Proof.
  intros Hppb. induction l as [|[cs bp] l IH]; intros a o Hf Ha Ho Hla Hlo.
  { simpl. do 2 f_equal; lia. }
  apply Forall_cons_1 in Hf as [(H1 & H2 & H3 & H4) Hf].
  rewrite !fmap_cons, !zsum_cons in *. cbn [fst snd] in *.
  pose proof (fits_zsum_fst _ _ _ Hf) as Hnn.
  assert (0 <= zsum (snd <$> l)).
  { apply zsum_nonneg, Forall_fmap. eapply Forall_impl; [exact Hf|]. intros [? ?] [? _]. simpl in *. lia. }
  cbn [check_direct_blocks]. unfold UINT64_MAX, PAGE_SIZE in *.
  destruct (Z.eqb_spec ppb 0); [lia|]. destruct (Z.eqb_spec bp 0); [lia|]. simpl.
  rewrite !Z.gtb_ltb. destruct (Z.ltb_spec ppb bp); [lia|]. simpl.
  assert (Eraw : bool_decide (st = VMA_IO_PACKED_RAW) && negb (cs =? bp * 4096) = false).
  { case_bool_decide as E; [|done]. rewrite (H3 E), Z.eqb_refl. done. }
  assert (Ez : bool_decide (st = VMA_IO_ZERO) && negb (cs =? 0) = false).
  { destruct (bool_decide_reflect (st = VMA_IO_ZERO)) as [E|]; [|done]. by rewrite (H4 E). }
  rewrite Eraw, Ez. destruct (Z.ltb_spec (2 ^ 64 - 1 - cs) a); [lia|].
  destruct (Z.ltb_spec (2 ^ 64 - 1 - bp * 4096) o); [lia|]. simpl.
  rewrite IH by (done || lia). do 2 f_equal; lia.
Qed.

Lemma sum_iov_len_ok l : forall acc, Forall (fun iov => 0 <= iov_len iov) l -> 0 <= acc ->
  acc + zsum (iov_len <$> l) < 2 ^ 64 -> sum_iov_len acc l = Some (acc + zsum (iov_len <$> l)).
Proof.
  induction l as [|x l IH]; intros acc Hf Ha Hle; [simpl; f_equal; lia|].
  apply Forall_cons_1 in Hf as [Hx Hf]. rewrite fmap_cons, zsum_cons in *.
  assert (0 <= zsum (iov_len <$> l)) by (by apply zsum_nonneg, Forall_fmap).
  simpl. unfold UINT64_MAX. rewrite Z.gtb_ltb. destruct (Z.ltb_spec (2 ^ 64 - 1 - iov_len x) acc); [lia|].
  rewrite IH by (done || lia). f_equal. lia.
Qed.

Lemma iov_lens_nonneg l : Forall iov_ok l -> Forall (fun iov => 0 <= iov_len iov) l.
Proof. intros H. eapply Forall_impl; [exact H|]. intros ? (_ & ? & _). lia. Qed.

Lemma validate_direct_ok p :
  piov_ok p -> pi_storage p = VMA_IO_PACKED_RAW \/ pi_storage p = VMA_IO_ZERO ->
  validate_direct_compressed_iov p = true.
Proof.
  intros [Hwf Hi Hd Hn Hfr He _ Hp] Hs.
  destruct Hp as (Hppb & Hfit & Hpages & Htot & Hend); [by destruct Hs as [->| ->]|].
  unfold validate_direct_compressed_iov.
  assert (E1 : negb (bool_decide (pi_storage p = VMA_IO_PACKED_RAW)) &&
               negb (bool_decide (pi_storage p = VMA_IO_ZERO)) = false).
  { destruct Hs as [->| ->]; done. }
  rewrite E1. destruct (Z.eqb_spec (bl_nr_blocks (pi_layout p)) 0) as [E0|_].
  { unfold valid_blocks in Hpages. rewrite E0 in Hpages. simpl in Hpages. lia. }
  pose proof (fits_zsum_fst _ _ _ Hfit) as Hnn. unfold OFF_MAX, PAGE_SIZE in *.
  rewrite check_direct_blocks_ok by (unfold PAGE_SIZE; done || lia).
  rewrite sum_iov_len_ok by (by apply iov_lens_nonneg || lia).
  rewrite !Z.add_0_l, Hd, Hpages. unfold PAGE_SIZE.
  rewrite <- Htot, Z.eqb_refl. destruct (Z.eqb_spec (pi_n_pages p * 4096) (pi_n_pages p * 4096)); [|done].
  destruct (Z.ltb_spec (pi_end p) (pi_from p)); [lia|].
  rewrite !u64_small by lia. rewrite Z.eqb_refl.
  destruct (Z.eqb_spec (bl_total_bytes (pi_layout p)) (pi_end p - pi_from p)); [|lia].
  rewrite Z.gtb_ltb. change (UINT64_MAX / 4096) with (2 ^ 52 - 1).
  by destruct (Z.ltb_spec (2 ^ 52 - 1) (pi_n_pages p)); [lia|].
Qed.

(** Producer and consumer agree: every packed raw or zero job that meets the
    queue's invariant (so, by [pagemap_enqueue_iovec_exact], every such job the enqueue functions build)
    passes [validate_direct_compressed_iov], whose failure would abort the
    restore. *)
Theorem validate_direct_accepts_jobs p :
  piov_ok p -> pi_storage p = VMA_IO_PACKED_RAW \/ pi_storage p = VMA_IO_ZERO ->
  validate_direct_compressed_iov p = true.
Proof. apply validate_direct_ok. Qed.

(** ** Short reads *)

(** The addresses of a destination vector, and the bytes of a log of
    transfers: each takes the leading bytes of its destinations. *)
Definition iov_bytes (iov : iovec) : list Z := seqZ (iov_base iov) (iov_len iov).
Definition vec_bytes (l : list iovec) : list Z := concat (iov_bytes <$> l).
Definition log_bytes (log : list (Z * list iovec * Z)) : list (Z * Z) :=
  concat ((fun '(off, to, n) => zip (take (Z.to_nat n) (vec_bytes to)) (seqZ off n)) <$> log).

Lemma log_bytes_cons off to n log :
  log_bytes ((off, to, n) :: log) = zip (take (Z.to_nat n) (vec_bytes to)) (seqZ off n) ++ log_bytes log.
Proof. done. Qed.

Lemma length_vec_bytes l : Forall (fun iov => 0 <= iov_len iov) l ->
  Z.of_nat (length (vec_bytes l)) = zsum (iov_len <$> l).
Proof.
  induction 1 as [|x l Hx _ IH]; [done|]. unfold vec_bytes in *.
  rewrite !fmap_cons, zsum_cons. simpl. rewrite length_app, Nat2Z.inj_add, IH.
  unfold iov_bytes. rewrite length_seqZ. lia.
Qed.

Lemma consume_iovs_ok l : forall n rest n', Forall (fun iov => 0 <= iov_len iov) l ->
  0 <= n <= zsum (iov_len <$> l) -> consume_iovs l n = (rest, n') ->
  Forall (fun iov => 0 <= iov_len iov) rest /\ 0 <= n' /\
  match rest with iov :: _ => n' < iov_len iov | [] => n' = 0 end /\
  zsum (iov_len <$> rest) - n' = zsum (iov_len <$> l) - n /\
  drop (Z.to_nat n') (vec_bytes rest) = drop (Z.to_nat n) (vec_bytes l).
Proof.
  induction l as [|x l IH]; intros n rest n' Hf Hn H; simpl in H.
  { injection H as <- <-. simpl in *. split_and!; (done || lia). }
  pose proof Hf as Hf'. apply Forall_cons_1 in Hf' as [Hx Hl]. rewrite fmap_cons, zsum_cons in *.
  destruct (Z.leb_spec (iov_len x) n).
  - apply IH in H as (H1 & H2 & H3 & H4 & H5); [|done|lia]. split_and!; try (done || lia).
    rewrite H5. unfold vec_bytes. rewrite fmap_cons. simpl.
    rewrite drop_app_ge by (unfold iov_bytes; rewrite length_seqZ; lia).
    f_equal. unfold iov_bytes. rewrite length_seqZ. lia.
  - injection H as <- <-. rewrite fmap_cons, zsum_cons. split_and!; (done || lia).
Qed.

(** A job seen as bytes still to come: enough destination for the range. *)
Definition piov_pending (p : page_read_iov) : Prop :=
  Forall (fun iov => 0 <= iov_len iov) (valid_to p) /\
  zsum (iov_len <$> valid_to p) = pi_end p - pi_from p /\
  0 <= pi_from p /\ pi_from p <= pi_end p <= OFF_MAX.

Lemma advance_piov_ok p n : piov_pending p -> 0 <= n <= pi_end p - pi_from p ->
  exists p', advance_piov p n = Ret p' /\ piov_pending p' /\ pi_from p' = pi_from p + n /\
    pi_end p' = pi_end p /\ pi_storage p' = pi_storage p /\
    vec_bytes (valid_to p') = drop (Z.to_nat n) (vec_bytes (valid_to p)).
Proof.
  intros (Hf & Hs & H0 & He) Hn. unfold advance_piov.
  destruct (consume_iovs (valid_to p) n) as [rest n'] eqn:E.
  apply consume_iovs_ok in E as (R1 & R2 & R3 & R4 & R5); [|done|lia].
  unfold OFF_MAX in *. rewrite (s64_small (pi_from p + n)) by lia.
  assert (Hv : forall to, take (Z.to_nat (zlen to)) to = (to : list iovec)).
  { intros to. unfold zlen. by rewrite Nat2Z.id, firstn_all. }
  destruct (Z.eqb_spec n' 0) as [->|].
  - eexists; split; [done|]. unfold piov_pending, valid_to, OFF_MAX; simpl. rewrite Hv. simpl in R5.
    split_and!; (done || lia).
  - destruct rest as [|x rest]; [cbn in R3; lia|].
    eexists; split; [done|]. unfold piov_pending, valid_to, OFF_MAX; simpl. rewrite Hv.
    apply Forall_cons_1 in R1 as [Rx R1]. rewrite fmap_cons, zsum_cons in R4.
    split_and!; try (done || lia).
    + apply Forall_cons_2; [simpl; lia|done].
    + rewrite fmap_cons, zsum_cons. simpl. lia.
    + fold (valid_to p). rewrite <- R5. unfold vec_bytes. rewrite !fmap_cons. simpl.
      rewrite drop_app_le by (unfold iov_bytes; rewrite length_seqZ; lia). f_equal.
      unfold iov_bytes. simpl. rewrite <- (Z2Nat.id n') at 1 2 by lia.
      replace (iov_len x) with (n' + (iov_len x - n')) at 2 by lia.
      rewrite seqZ_app by lia. rewrite drop_app_ge by (rewrite length_seqZ; lia).
      rewrite length_seqZ, Nat.sub_diag, Z2Nat.id by lia. done.
Qed.

Lemma zip_take_drop {A B} (l : list A) (l1 l2 : list B) :
  (length l1 <= length l)%nat ->
  zip l (l1 ++ l2) = zip (take (length l1) l) l1 ++ zip (drop (length l1) l) l2.
Proof.
  intros Hl. rewrite <- (take_drop (length l1) l) at 1. apply zip_with_app.
  rewrite length_take. lia.
Qed.

Section PreadvLoop.
Context (preadv : Z -> Z -> Z) (partial auto_dedup : bool).
Context (Hpreadv : forall off n, preadv off n <= n).

Lemma preadv_ret_range p : pi_end p - pi_from p <= OFF_MAX ->
  preadv_ret preadv partial p <= pi_end p - pi_from p.
Proof.
  intros Hmax. unfold preadv_ret. pose proof (Hpreadv (pi_from p) (pi_end p - pi_from p)) as Hle.
  set (r := preadv _ _) in *. destruct (_ && _) eqn:E; [|lia].
  apply andb_true_iff in E as [_ E]. rewrite Z.geb_leb in E. apply Z.leb_le in E. unfold PAGE_SIZE in E.
  assert (Hd : 0 <= r / 2 <= r) by (split; [apply Z.div_pos; lia|apply Z.div_le_upper_bound; lia]).
  unfold OFF_MAX in Hmax. rewrite land_page_mask by lia.
  pose proof (Z.mod_pos_bound (r / 2) PAGE_SIZE ltac:(done)). lia.
Qed.

Lemma preadv_ret_pos p : pi_end p - pi_from p <= OFF_MAX ->
  0 < preadv (pi_from p) (pi_end p - pi_from p) -> 0 < preadv_ret preadv partial p.
Proof.
  intros Hmax. unfold preadv_ret. pose proof (Hpreadv (pi_from p) (pi_end p - pi_from p)) as Hle.
  set (r := preadv _ _) in *. destruct (_ && _) eqn:E; [|lia].
  apply andb_true_iff in E as [_ E]. rewrite Z.geb_leb in E. apply Z.leb_le in E. unfold PAGE_SIZE in E.
  assert (Hd : 4096 <= r / 2 <= r)
    by (split; [apply Z.div_le_lower_bound; lia|apply Z.div_le_upper_bound; lia]).
  unfold OFF_MAX in Hmax. rewrite land_page_mask by lia.
  pose proof (Z.mod_pos_bound (r / 2) PAGE_SIZE ltac:(done)). unfold PAGE_SIZE in *. lia.
Qed.

(** Every call makes progress and every hole can be punched. *)
Definition preadv_progress (d : dedup_state) : Prop :=
  (forall off n, 0 < n -> 0 < preadv off n) /\ ds_fallocs d = [].

Lemma punch_hole_progress d off len : ds_fallocs d = [] ->
  exists d', punch_hole d off len false = (0, d') /\ ds_fallocs d' = [].
Proof.
  intros Hf. unfold punch_hole. cbn [negb andb]. destruct (can_extend_bunch _ _ _); [eauto|].
  destruct (_ >? 0); [|eauto]. rewrite Hf. simpl. eauto.
Qed.

(** Every run of the loop ends; when it succeeds, each byte of the file range
    went to its place, once; when every call makes progress it succeeds. *)
Lemma preadv_loop_ok : forall fuel p d, piov_pending p -> pi_end p - pi_from p < Z.of_nat fuel ->
  exists r log d', preadv_loop preadv partial auto_dedup fuel p d = Ret (r, log, d') /\
    (r = 0 \/ r = -1) /\
    (r = 0 -> log_bytes log = zip (vec_bytes (valid_to p)) (seqZ (pi_from p) (pi_end p - pi_from p))) /\
    (preadv_progress d -> 0 < pi_end p - pi_from p -> r = 0).
Proof.
  induction fuel as [|fuel IH]; intros p d Hp Hf; [destruct Hp as (_&_&_&?); lia|].
  cbn [preadv_loop]. set (ret := preadv_ret preadv partial p).
  assert (Hmax : pi_end p - pi_from p <= OFF_MAX) by (destruct Hp; lia).
  assert (Hpos : preadv_progress d -> 0 < pi_end p - pi_from p -> 0 < ret).
  { intros [Hpr _] Hlt. by apply preadv_ret_pos, Hpr. }
  pose proof (preadv_ret_range p Hmax) as Hr. fold ret in Hr.
  destruct (Z.ltb_spec ret 0);
    [eexists _, _, d; split; [done|]; split_and!; [by right|done|intros Hg Hlt; specialize (Hpos Hg Hlt); lia]|].
  destruct (_ && _) eqn:E0.
  { apply andb_true_iff in E0 as [E0%Z.eqb_eq _].
    eexists _, _, d; split; [done|]; split_and!; [by right|done|intros Hg Hlt; specialize (Hpos Hg Hlt); lia]. }
  destruct (if auto_dedup && _ then _ else (0, d)) as [err d1] eqn:Ep.
  assert (Herr : ds_fallocs d = [] -> err = 0 /\ ds_fallocs d1 = []).
  { intros Hfa. destruct (auto_dedup && _); [|by injection Ep as <- <-].
    destruct (punch_hole_progress d (u64 (pi_from p)) ret Hfa) as (d' & E & ?). rewrite E in Ep.
    by injection Ep as <- <-. }
  destruct (Z.eqb_spec err 0) as [->|Hne0]; simpl;
    [|eexists _, _, d1; split; [done|]; split_and!; [by right|done|intros [_ Hfa]; destruct (Herr Hfa); lia]].
  destruct Hp as (Hf1 & Hs & H0 & He). pose proof (length_vec_bytes _ Hf1) as Hl.
  destruct (Z.eqb_spec ret (pi_end p - pi_from p)) as [Heq|Hne]; simpl.
  - eexists _, _, d1; split; [done|]. split_and!; [by left| |done]. intros _. unfold log_bytes. simpl.
    rewrite app_nil_r, Heq. rewrite firstn_all2; [done|lia].
  - assert (0 < ret).
    { destruct (Z.eqb_spec ret 0) as [Ez|]; [|lia]. simpl in E0.
      destruct (Z.eqb_spec (pi_end p) (pi_from p)); [lia|done]. }
    destruct (advance_piov_ok p ret ltac:(done) ltac:(lia)) as (p' & -> & Hp' & A1 & A2 & A3 & A4). simpl.
    destruct (IH p' d1 Hp' ltac:(lia)) as (r & log & d2 & -> & Hr1 & Hr2 & Hr3). simpl.
    eexists _, _, d2; split; [done|].
    split_and!; [done| |intros [Hg Hfa] _; apply Hr3; [split; [done|by apply Herr]|lia]].
    intros Hz. specialize (Hr2 Hz). rewrite log_bytes_cons, Hr2, A1, A2, A4.
    replace (pi_end p - pi_from p) with (ret + (pi_end p - (pi_from p + ret))) by lia.
    rewrite seqZ_app by lia. rewrite zip_take_drop by (rewrite length_seqZ; lia).
    by rewrite length_seqZ.
Qed.
End PreadvLoop.

Lemma zsum_raw_blocks ppb l : Forall (block_fits VMA_IO_PACKED_RAW ppb) l ->
  zsum (fst <$> l) = zsum (snd <$> l) * PAGE_SIZE.
Proof.
  induction 1 as [|[cs bp] l (_ & _ & H & _) _ IH]; [done|].
  rewrite !fmap_cons, !zsum_cons, IH. simpl in *. rewrite (H eq_refl). lia.
Qed.

Lemma piov_ok_pending p : piov_ok p ->
  pi_storage p = VMA_IO_UNCOMPRESSED \/ pi_storage p = VMA_IO_PACKED_RAW ->
  piov_pending p /\ pi_end p - pi_from p = pi_n_pages p * PAGE_SIZE.
Proof.
  intros [Hwf Hi Hd Hn Hfr He Hraw Hp] Hs.
  assert (E : pi_end p - pi_from p = pi_n_pages p * PAGE_SIZE).
  { destruct Hs as [Hs|Hs].
    - destruct (Hraw Hs) as (_ & _ & ->). lia.
    - destruct Hp as (_ & Hfit & <- & Htot & ->); [by rewrite Hs|].
      rewrite Hs in Hfit. rewrite Htot, (zsum_raw_blocks _ _ Hfit). lia. }
  split; [|done]. unfold piov_pending, PAGE_SIZE in *. split_and!; try lia.
  by apply iov_lens_nonneg.
Qed.

(** Short reads lose nothing.  For every file-backed job of the queue, however the
    kernel splits the transfer into short reads (and with the fault injection
    that discards half of each long read), the retry loop of
    [process_async_reads_ctx] ends without hitting the BUG_ON of
    [advance_piov], and when it reports success the bytes transferred are
    exactly the file range in order, each byte into its place of the
    destination vector, once.  If every call makes progress and holes can be
    punched, it does report success. *)
Theorem preadv_loop_covers preadv partial auto_dedup p d :
  (forall off n, preadv off n <= n) -> piov_ok p ->
  pi_storage p = VMA_IO_UNCOMPRESSED \/ pi_storage p = VMA_IO_PACKED_RAW ->
  let n := pi_end p - pi_from p in
  exists r log d', preadv_loop preadv partial auto_dedup (S (Z.to_nat n)) p d = Ret (r, log, d') /\
    (r = 0 \/ r = -1) /\
    (r = 0 -> log_bytes log = zip (vec_bytes (valid_to p)) (seqZ (pi_from p) n)) /\
    (preadv_progress preadv d -> r = 0).
Proof.
  intros Hk Hp Hs n. destruct (piov_ok_pending p Hp Hs) as [Hpend En].
  destruct (preadv_loop_ok preadv partial auto_dedup Hk (S (Z.to_nat n)) p d Hpend)
    as (r & log & d' & H1 & H2 & H3 & H4); [unfold n; lia|].
  exists r, log, d'. split_and!; try done. intros Hpr. apply H4; [done|].
  pose proof (po_n _ Hp). unfold PAGE_SIZE in *. lia.
Qed.

(** ** Examples *)

(** A reader in front of the compressed entry of the sample image. *)
Definition sample_at_lz4 : page_read :=
  PageRead (Some sample_lz4) 0xb000 12288 0 (BlkState 0 0 [] 0 0) (Iovec 0 0)
    (init_compat_pagemap_entry <$> sample_es) 1 [] false.

(** Two blocks of two pages, stored raw. *)
Definition sample_raw_job : page_read_iov :=
  PageReadIov 4096 20480 [Iovec 0x10000 8192; Iovec 0x20000 8192] 2 VMA_IO_PACKED_RAW
    (PageBlockLayout [8192; 8192] 2 16384 2) 4 [2; 2].

Lemma sample_raw_job_ok : piov_ok sample_raw_job.
Proof.
  assert (Hwf : piov_wf sample_raw_job).
  { split; unfold zlen; simpl; try lia.
    apply Forall_cons_2; [simpl; lia|]. apply Forall_cons_2; [simpl; lia|apply Forall_nil_2]. }
  split; [done| |reflexivity|simpl; lia|simpl; lia|vm_compute; discriminate|done|].
  - apply Forall_cons_2; [|apply Forall_cons_2; [|apply Forall_nil_2]];
      unfold iov_ok; simpl; split_and!; (reflexivity || lia).
  - intros _. rewrite MAX_BLOCK_PAGES_eq. simpl. split_and!; try (reflexivity || lia).
    apply Forall_cons_2; [|apply Forall_cons_2; [|apply Forall_nil_2]];
      unfold block_fits, PAGE_SIZE; simpl; split_and!; (done || lia).
Qed.

Lemma sample_lz4_ok : entry_ok sample_lz4.
Proof. by apply (pagemaps_ok_lookup _ 1 _ sample_ok). Qed.

(** The sixth allocation fails, when the first run is queued already. *)
Lemma pagemap_enqueue_iovec_atomic_witness :
  exists q', pagemap_enqueue_iovec false true [true; true; true; true; true; false] sample_at_lz4
    0x70000 12288 [sample_raw_job] = Ret (-1, q', []) /\ piov_view <$> q' = [sample_raw_job].
Proof.
  destruct (pagemap_enqueue_iovec_atomic false true [true; true; true; true; true; false] sample_at_lz4
    0x70000 12288 [sample_raw_job]) as (ret & q' & al' & Hr & _ & Hv).
  - apply Forall_cons_2; [apply sample_raw_job_ok|apply Forall_nil_2].
  - lia.
  - exact (Forall_lookup_1 _ _ 1 _ sample_es_typed eq_refl).
  - exists q'. vm_compute in Hr. injection Hr as <- <- <-. split; [reflexivity|].
    rewrite Hv by reflexivity. reflexivity.
Defined.

Lemma pagemap_enqueue_iovec_exact_witness :
  exists q', pagemap_enqueue_iovec false true [] sample_at_lz4 0x70000 (3 * PAGE_SIZE) [sample_raw_job]
      = Ret (0, q', []) /\
    queue_tasks q' = queue_tasks [sample_raw_job] ++
      [(0x70000, SBlock 12288 100 2 0); (0x71000, SBlock 12288 100 2 1); (0x72000, SBlock 12388 0 1 0)].
Proof.
  destruct (pagemap_enqueue_iovec_exact false true [] sample_lz4 (PagemapBlocks [100; 0] 100 2) 12288
    sample_at_lz4 0 2 0x70000 [sample_raw_job]) as (ret & q' & al' & H1 & H2 & H3).
  - exact sample_lz4_ok.
  - exact (Forall_lookup_1 _ _ 1 _ sample_es_typed eq_refl).
  - reflexivity.
  - lia.
  - vm_compute. discriminate.
  - reflexivity.
  - reflexivity.
  - lia.
  - vm_compute. discriminate.
  - lia.
  - vm_compute. reflexivity.
  - apply Forall_cons_2; [apply sample_raw_job_ok|apply Forall_nil_2].
  - destruct (H2 eq_refl) as [-> ->]. exists q'. split; [exact H1|]. destruct (H3 eq_refl) as [_ H4]. rewrite H4. reflexivity.
Defined.

Lemma validate_direct_accepts_jobs_witness : validate_direct_compressed_iov sample_raw_job = true.
Proof. apply (validate_direct_accepts_jobs sample_raw_job sample_raw_job_ok). by left. Defined.

(** A kernel that never returns more than 5000 bytes. *)
Lemma preadv_loop_covers_witness :
  exists log d', preadv_loop (fun _ n => Z.min n 5000) true true (S (Z.to_nat (20480 - 4096))) sample_raw_job
      (DedupState (Iovec 0 0) [] []) = Ret (0, log, d') /\
    log_bytes log = zip (vec_bytes [Iovec 0x10000 8192; Iovec 0x20000 8192]) (seqZ 4096 (20480 - 4096)).
Proof.
  destruct (preadv_loop_covers (fun _ n => Z.min n 5000) true true sample_raw_job (DedupState (Iovec 0 0) [] []))
    as (r & log & d' & H1 & _ & H3 & H4).
  - intros. lia.
  - exact sample_raw_job_ok.
  - by right.
  - assert (r = 0) as ->. { apply H4. split; [intros; lia|done]. }
    exists log, d'. split; [exact H1|]. by apply H3.
Defined.
