(* ===== verification/ProcessReads.v ===== *)
(** Draining the queues: [process_async_reads] of criu/pagemap.c carries out the
    jobs of a reader and of its parents in image order, whichever of the four
    storage kinds they have, and leaves every queue of the chain empty, also
    when it fails ([close_page_read] would trip over a job left behind).

    Not part of the model: the readahead hints (posix_fadvise has no effect on
    the result), [io_complete] (NULL in these readers), and the leases of the
    encoded-read context, which bound memory.  Decoding a batch of LZ4 jobs,
    [encoded_async_read_batch] of criu/compression.c, is seen through its
    result: [decode depth job] tells whether it succeeds. *)
From S2P Require Import Prelude PagemapImage PageRead Dedup AsyncQueue.

(** What was done for a job. *)
Inductive io_event :=
| EvZero (to : list iovec)                       (** memset to 0 *)
| EvRead (log : list (Z * list iovec * Z))       (** preadv transfers *)
| EvDecode (job : page_read_iov).                (** decoded batch *)

Section Process.
(** The readers of a chain are numbered from the youngest, 0. *)
Context (preadv : nat -> Z -> Z -> Z) (decode : nat -> page_read_iov -> bool).
Context (partial auto_dedup : bool).

Definition job_fuel (p : page_read_iov) : nat := S (Z.to_nat (pi_end p - pi_from p)).

(** One turn of the loop over the queue: 0 or -1, and the event. *)
Definition process_job (depth : nat) (p : page_read_iov) (d : dedup_state)
    : outcome (Z * list io_event * dedup_state) :=
  let read :=
    let! (r, log, d) := preadv_loop (preadv depth) partial auto_dedup (job_fuel p) p d in
    Ret (r, [EvRead log], d) in
  match pi_storage p with
  | VMA_IO_ZERO =>
      if validate_direct_compressed_iov p then Ret (0, [EvZero (valid_to p)], d) else Ret (-1, [], d)
  | VMA_IO_PACKED_RAW => if validate_direct_compressed_iov p then read else Ret (-1, [], d)
  | VMA_IO_ENCODED => if decode depth p then Ret (0, [EvDecode p], d) else Ret (-1, [], d)
  | VMA_IO_UNCOMPRESSED => read
  end.

Fixpoint process_queue (depth : nat) (q : list page_read_iov) (d : dedup_state)
    : outcome (Z * list io_event * dedup_state) :=
  match q with
  | [] => Ret (0, [], d)
  | p :: q =>
      let! (r, ev, d) := process_job depth p d in
      if negb (r =? 0) then Ret (-1, ev, d)
      else
        let! (r, ev', d) := process_queue depth q d in
        Ret (r, ev ++ ev', d)
  end.

(** [fa]: the outcomes of the fallocate() calls to come. *)
Fixpoint process_async_reads_ctx (depth : nat) (chain : list page_read) (fa : list bool)
    : outcome (Z * list io_event * list page_read * list bool) :=
  match chain with
  | [] => Ret (0, [], [], fa)
  | pr :: parents =>
      let! (r, ev, d) := process_queue depth (async pr) (DedupState (bunch pr) fa []) in
      let pr := set_bunch (ds_bunch d) pr in
      if negb (r =? 0) then Ret (-1, ev, drain_async_queue (pr :: parents), ds_fallocs d)
      else
        let pr := set_async [] pr in
        let! (r, ev', parents, fa) := process_async_reads_ctx (S depth) parents (ds_fallocs d) in
        if negb (r =? 0) then Ret (r, ev ++ ev', pr :: parents, fa)
        else
          let '(r, d) := punch_flush (DedupState (bunch pr) fa []) in
          Ret (r, ev ++ ev', set_bunch (ds_bunch d) pr :: parents, ds_fallocs d)
  end.

(** [has_owner]: the chain has an owner of the encoded-read context; [ctx_ok]:
    the context can be allocated when some job needs it. *)
Definition process_async_reads (has_owner ctx_ok : bool) (chain : list page_read) (fa : list bool)
    : outcome (Z * list io_event * list page_read * list bool) :=
  if negb has_owner then Ret (-1, [], drain_async_queue chain, fa)
  else if page_read_chain_has_encoded_async chain && negb ctx_ok then
    Ret (-1, [], drain_async_queue chain, fa)
  else process_async_reads_ctx 0 chain fa.
End Process.

(** ** Specification *)

(** The event is what the job asked for. *)
Definition job_done (p : page_read_iov) (ev : io_event) : Prop :=
  match pi_storage p with
  | VMA_IO_ZERO => ev = EvZero (valid_to p)
  | VMA_IO_ENCODED => ev = EvDecode p
  | VMA_IO_PACKED_RAW | VMA_IO_UNCOMPRESSED =>
      exists log, ev = EvRead log /\
        log_bytes log = zip (vec_bytes (valid_to p)) (seqZ (pi_from p) (pi_end p - pi_from p))
  end.

(** All jobs of a chain, in the order they are carried out. *)
Definition chain_jobs (chain : list page_read) : list page_read_iov := concat (async <$> chain).

Section ProcessOk.
Context (preadv : nat -> Z -> Z -> Z) (decode : nat -> page_read_iov -> bool) (partial auto_dedup : bool).
Context (Hpreadv : forall depth off n, preadv depth off n <= n).

(** Nothing fails. *)
Definition io_works : Prop :=
  (forall depth off n, 0 < n -> 0 < preadv depth off n) /\ (forall depth p, decode depth p = true).

Lemma read_job_ok depth p d : piov_ok p ->
  pi_storage p = VMA_IO_UNCOMPRESSED \/ pi_storage p = VMA_IO_PACKED_RAW ->
  exists r log d', preadv_loop (preadv depth) partial auto_dedup (job_fuel p) p d = Ret (r, log, d') /\
    (r = 0 \/ r = -1) /\ (r = 0 -> job_done p (EvRead log)) /\
    (io_works -> ds_fallocs d = [] -> r = 0).
Proof.
  intros Hp Hs. destruct (piov_ok_pending p Hp Hs) as [Hpend En].
  destruct (preadv_loop_ok (preadv depth) partial auto_dedup (Hpreadv depth) (job_fuel p) p d Hpend)
    as (r & log & d' & H1 & H2 & H3 & H4); [unfold job_fuel; lia|].
  exists r, log, d'. split_and!; try done.
  - intros Hr. unfold job_done. destruct Hs as [->| ->]; exists log; auto.
  - intros [Hio _] Hf. apply H4; [split; [apply Hio|done]|]. pose proof (po_n _ Hp). unfold PAGE_SIZE in *. lia.
Qed.

Lemma preadv_loop_fallocs depth fuel : forall p d r log d',
  ds_fallocs d = [] -> preadv_loop (preadv depth) partial auto_dedup fuel p d = Ret (r, log, d') -> ds_fallocs d' = [].
Proof.
  induction fuel as [|fuel IH]; intros p d r log d' Hf H; [done|]. cbn [preadv_loop] in H.
  destruct (_ <? 0); [by injection H as _ _ <-|]. destruct (_ && _); [by injection H as _ _ <-|].
  destruct (if auto_dedup && _ then _ else (0, d)) as [err d1] eqn:Ep.
  assert (Hd1 : ds_fallocs d1 = []).
  { destruct (auto_dedup && _); [|by injection Ep as _ <-].
    destruct (punch_hole_progress d (u64 (pi_from p)) (preadv_ret (preadv depth) partial p) Hf) as (d2 & E & ?).
    rewrite E in Ep. by injection Ep as _ <-. }
  destruct (err =? 0); cbn [negb] in H; [|by injection H as _ _ <-].
  destruct (_ =? pi_end p - pi_from p); cbn [negb] in H; [by injection H as _ _ <-|].
  destruct (advance_piov _ _) as [p'| |]; try done. simpl in H.
  destruct (preadv_loop _ _ _ fuel p' d1) as [[[r' log'] d2]| |] eqn:E; try done. simpl in H.
  injection H as _ _ <-. by apply (IH _ _ _ _ _ Hd1 E).
Qed.

Lemma process_job_ok depth p d : piov_ok p ->
  exists r ev d', process_job preadv decode partial auto_dedup depth p d = Ret (r, ev, d') /\
    (r = 0 \/ r = -1) /\ (r = 0 -> exists e, ev = [e] /\ job_done p e) /\
    (io_works -> ds_fallocs d = [] -> r = 0 /\ ds_fallocs d' = []).
Proof.
  intros Hp. unfold process_job.
  assert (Hread : pi_storage p = VMA_IO_UNCOMPRESSED \/ pi_storage p = VMA_IO_PACKED_RAW ->
    exists r ev d', (let! (r, log, d) := preadv_loop (preadv depth) partial auto_dedup (job_fuel p) p d in
      Ret (r, [EvRead log], d)) = Ret (r, ev, d') /\
    (r = 0 \/ r = -1) /\ (r = 0 -> exists e, ev = [e] /\ job_done p e) /\
    (io_works -> ds_fallocs d = [] -> r = 0 /\ ds_fallocs d' = [])).
  { intros Hs. destruct (read_job_ok depth p d Hp Hs) as (r & log & d' & E & H1 & H2 & H3). rewrite E. simpl.
    eexists _, _, d'. split; [done|]. split_and!; [done|intros Hr; eauto|].
    intros Hio Hf. split; [by apply H3|]. by apply (preadv_loop_fallocs _ _ _ _ _ _ _ Hf E). }
  destruct (pi_storage p) eqn:Es.
  - apply Hread. by left.
  - destruct (decode depth p) eqn:Ed.
    + eexists _, _, d. split; [done|]. split_and!; [by left| |done].
      intros _. exists (EvDecode p). split; [done|]. unfold job_done. by rewrite Es.
    + eexists _, _, d. split; [done|]. split_and!; [by right|done|]. intros [_ Hdec]. by rewrite Hdec in Ed.
  - assert (Hv : validate_direct_compressed_iov p = true).
    { apply validate_direct_ok; [done|by left]. }
    rewrite Hv. apply Hread. by right.
  - assert (Hv : validate_direct_compressed_iov p = true) by (apply validate_direct_ok; [done|by right]).
    rewrite Hv. eexists _, _, d. split; [done|]. split_and!; [by left| |done].
    intros _. exists (EvZero (valid_to p)). split; [done|]. unfold job_done. by rewrite Es.
Qed.

Lemma process_queue_ok depth q : forall d, Forall piov_ok q ->
  exists r ev d', process_queue preadv decode partial auto_dedup depth q d = Ret (r, ev, d') /\
    (r = 0 \/ r = -1) /\ (r = 0 -> Forall2 job_done q ev) /\
    (io_works -> ds_fallocs d = [] -> r = 0 /\ ds_fallocs d' = []).
Proof.
  induction q as [|p q IH]; intros d Hq.
  { eexists _, _, d. split; [done|]. split_and!; [by left|by constructor|done]. }
  apply Forall_cons_1 in Hq as [Hp Hq]. cbn [process_queue].
  destruct (process_job_ok depth p d Hp) as (r & ev & d1 & -> & H1 & H2 & H3). cbn [obind].
  destruct (Z.eqb_spec r 0) as [->|Hne]; cbn [negb].
  - destruct (H2 eq_refl) as (e & -> & He). destruct (IH d1 Hq) as (r & ev & d' & -> & I1 & I2 & I3). simpl.
    eexists _, _, d'. split; [done|]. split_and!; [done|by intros Hr; constructor; auto|].
    intros Hio Hf. destruct (H3 Hio Hf) as [_ Hf1]. by apply I3.
  - eexists _, _, d1. split; [done|]. split_and!; [by right|done|]. intros Hio Hf. destruct (H3 Hio Hf). lia.
Qed.

Lemma drained chain : Forall (fun pr => async pr = []) (drain_async_queue chain) /\
  length (drain_async_queue chain) = length chain.
Proof.
  unfold drain_async_queue. split; [|by rewrite length_fmap]. apply Forall_fmap, Forall_true. done.
Qed.

Lemma process_ctx_ok chain : forall depth fa, Forall (fun pr => Forall piov_ok (async pr)) chain ->
  exists r ev chain' fa', process_async_reads_ctx preadv decode partial auto_dedup depth chain fa
      = Ret (r, ev, chain', fa') /\
    (r = 0 \/ r = -1) /\ Forall (fun pr => async pr = []) chain' /\ length chain' = length chain /\
    (r = 0 -> Forall2 job_done (chain_jobs chain) ev) /\ (io_works -> fa = [] -> r = 0 /\ fa' = []).
Proof.
  induction chain as [|pr parents IH]; intros depth fa Hq.
  { eexists _, _, _, fa. split; [done|]. split_and!; (done || (by left) || apply Forall_nil_2 || intros; by constructor). }
  apply Forall_cons_1 in Hq as [Hp Hq]. cbn [process_async_reads_ctx].
  destruct (process_queue_ok depth (async pr) (DedupState (bunch pr) fa []) Hp) as (r & ev & d & -> & H1 & H2 & H3).
  cbn [obind]. destruct (Z.eqb_spec r 0) as [->|Hne]; cbn [negb].
  2:{ eexists _, _, _, _. split; [done|]. destruct (drained (set_bunch (ds_bunch d) pr :: parents)) as [D1 D2].
      split_and!; [by right|done|by rewrite D2|done|]. intros Hio Hf. destruct (H3 Hio Hf). lia. }
  destruct (IH (S depth) (ds_fallocs d) Hq) as (r & ev' & chain' & fa' & -> & I1 & I2 & I3 & I4 & I5). simpl.
  assert (Hev : r = 0 -> Forall2 job_done (chain_jobs (pr :: parents)) (ev ++ ev')).
  { intros Hr. unfold chain_jobs. rewrite fmap_cons. cbn [concat]. apply Forall2_app; [by apply H2|by apply I4]. }
  destruct (Z.eqb_spec r 0) as [->|Hne]; cbn [negb].
  2:{ eexists _, _, _, _. split; [done|]. split_and!; [done|by apply Forall_cons_2|simpl; lia|done|].
      intros Hio Hf. destruct (H3 Hio Hf) as [_ Hfa]. by destruct (I5 Hio Hfa). }
  destruct (punch_flush (DedupState (ds_bunch d) fa' [])) as [r d2] eqn:Ef.
  assert (Hfl : (r = 0 \/ r = -1) /\ (fa' = [] -> r = 0 /\ ds_fallocs d2 = [])).
  { unfold punch_flush, punch_hole in Ef. cbn [negb andb ds_bunch ds_fallocs] in Ef.
    destruct (iov_len (ds_bunch d) >? 0); [|injection Ef as <- <-; split; [by left|done]].
    destruct (xalloc fa') as [[] fa2] eqn:Ex; simpl in Ef; injection Ef as <- <-.
    - split; [by left|]. intros ->. by injection Ex as <-.
    - split; [by right|]. intros ->. done. }
  eexists _, _, _, _. split; [done|]. destruct Hfl as [F1 F2].
  split_and!; [done|by apply Forall_cons_2|simpl; lia|by intros _; apply Hev|].
  intros Hio Hf. destruct (H3 Hio Hf) as [_ Hfa]. destruct (I5 Hio Hfa) as [_ Hfa']. by apply F2.
Qed.
End ProcessOk.

(** [process_async_reads] does what was queued.  For a reader with any
    number of parents whose jobs meet the queue's invariant, and whatever the
    reads, decodings and fallocate() calls answer: the call returns 0 or -1
    and no BUG_ON is hit; all queues of the chain are empty afterwards, on
    failure too; on success every job was carried out once and in order (zero
    jobs cleared, raw and uncompressed jobs read byte for byte into place,
    encoded jobs handed to the decoder); and it does succeed when the reads
    make progress and decoding and hole punching work. *)
Theorem process_async_reads_correct preadv decode partial auto_dedup has_owner ctx_ok chain fa :
  (forall depth off n, preadv depth off n <= n) ->
  Forall (fun pr => Forall piov_ok (async pr)) chain ->
  exists r ev chain' fa',
    process_async_reads preadv decode partial auto_dedup has_owner ctx_ok chain fa = Ret (r, ev, chain', fa') /\
    (r = 0 \/ r = -1) /\ Forall (fun pr => async pr = []) chain' /\
    (r = 0 -> Forall2 job_done (chain_jobs chain) ev) /\
    (io_works preadv decode -> has_owner = true -> ctx_ok = true -> fa = [] -> r = 0).
Proof.
  intros Hk Hq. unfold process_async_reads. destruct (drained chain) as [D1 D2].
  destruct has_owner; simpl; [|eexists _, _, _, _; split; [done|]; split_and!; (done || (by right))].
  destruct ctx_ok; simpl; [|rewrite andb_true_r].
  - rewrite andb_false_r. destruct (process_ctx_ok preadv decode partial auto_dedup Hk chain 0 fa Hq)
      as (r & ev & chain' & fa' & -> & H1 & H2 & H3 & H4 & H5).
    eexists _, _, _, _. split; [done|]. split_and!; try done. intros Hio _ _ Hf. by apply H5.
  - destruct (page_read_chain_has_encoded_async chain);
      [eexists _, _, _, _; split; [done|]; split_and!; (done || (by right))|].
    destruct (process_ctx_ok preadv decode partial auto_dedup Hk chain 0 fa Hq)
      as (r & ev & chain' & fa' & -> & H1 & H2 & H3 & H4 & H5).
    eexists _, _, _, _. split; [done|]. split_and!; done.
Qed.

Lemma process_async_reads_correct_witness :
  exists ev chain' fa',
    process_async_reads (fun _ _ n => Z.min n 5000) (fun _ _ => true) false true true true
      [set_async [sample_raw_job] sample_at_lz4; sample_at_lz4] [] = Ret (0, ev, chain', fa') /\
    Forall (fun pr => async pr = []) chain' /\ Forall2 job_done [sample_raw_job] ev.
Proof.
  destruct (process_async_reads_correct (fun _ _ n => Z.min n 5000) (fun _ _ => true) false true true true
    [set_async [sample_raw_job] sample_at_lz4; sample_at_lz4] []) as (r & ev & chain' & fa' & H1 & H2 & H3 & H4 & H5).
  - intros. lia.
  - apply Forall_cons_2; [|apply Forall_cons_2; [apply Forall_nil_2|apply Forall_nil_2]].
    apply Forall_cons_2; [exact sample_raw_job_ok|apply Forall_nil_2].
  - assert (r = 0) as ->. { apply H5; try reflexivity. split; [intros; lia|done]. }
    exists ev, chain', fa'. split; [exact H1|]. split; [exact H3|]. exact (H4 eq_refl).
Defined.
