(* ===== verification/ReadPages.v ===== *)
(** Synchronous reading of pages: [read_pages] of a local reader
    (criu/pagemap.c), from the pagemap entry under the cursor down the chain of
    parents, through the uncompressed path, the block decompression and the
    cache of the last decoded block.

    A pages image is the list of its bytes.  LZ4 is the parameter [lz4]: the
    bytes [LZ4_decompress_safe] produces for a source and a capacity, or its
    failure.  Allocations and pread() calls take their outcomes from an
    environment; pread() may be interrupted, fail or return short counts. *)
From S2P Require Import Prelude PagemapImage PageRead Dedup AsyncQueue ProcessReads.

Definition PR_ASYNC : Z := 1.
Definition PR_ASAP : Z := 2.
Definition EINTR : Z := 4.

(** ** The environment *)

(** [preads]: the answers to the pread() calls to come; [-EINTR] is an
    interrupted call, another negative number a failure, a count is capped by
    what was asked for and by the file.  Beyond the list calls read all they
    can.  [allocs], [fallocs] and [rawfds] are the outcomes of allocations, of
    fallocate() and of [img_raw_fd] (which may have to open the image). *)
Record env := Env { allocs : list bool; preads : list Z; fallocs : list bool; rawfds : list bool }.

Definition env_alloc (e : env) : bool * env :=
  let '(ok, al) := xalloc (allocs e) in (ok, Env al (preads e) (fallocs e) (rawfds e)).

Definition pread (e : env) (file : list Z) (n off : Z) : Z * list Z * env :=
  let '(want, rest) := match preads e with a :: l => (a, l) | [] => (n, []) end in
  let e := Env (allocs e) rest (fallocs e) (rawfds e) in
  if want <? 0 then (want, [], e)
  else
    let got := take (Z.to_nat (Z.min want n)) (drop (Z.to_nat off) file) in
    (zlen got, got, e).

(** [acc] holds the [rd] bytes read so far. *)
Fixpoint pread_loop (fuel : nat) (e : env) (file : list Z) (count off : Z) (acc : list Z)
    : outcome (option (list Z) * env) :=
  if zlen acc <? count then
    match fuel with
    | O => NoFuel
    | S fuel =>
        let '(ret, got, e) := pread e file (count - zlen acc) (off + zlen acc) in
        if ret <? 0 then
          if ret =? - EINTR then pread_loop fuel e file count off acc else Ret (None, e)
        else if ret =? 0 then Ret (None, e)
        else pread_loop fuel e file count off (acc ++ got)
    end
  else Ret (Some acc, e).

Definition pread_full (e : env) (file : list Z) (count off : Z) : outcome (option (list Z) * env) :=
  pread_loop (S (length (preads e) + Z.to_nat count)) e file count off [].

(** ** Decoding a block, criu/compression.c *)
Definition zeros (n : Z) : list Z := replicate (Z.to_nat n) 0.

Section Decode.
Context (lz4 : list Z -> Z -> option (list Z)).

Definition decompress_data_nolog (src : list Z) (original_size : Z) : option (list Z) :=
  match lz4 src original_size with
  | Some out => if zlen out =? original_size then Some out else None
  | None => None
  end.

Definition decompress_block (src : list Z) (compressed_size n_pages : Z) : option (list Z) :=
  if (n_pages =? 0) || (n_pages >? MAX_BLOCK_PAGES) then None
  else if compressed_size <? 0 then None
  else
    let block_bytes := n_pages * PAGE_SIZE in
    if compressed_size >? block_bytes then None
    else if compressed_size =? 0 then Some (zeros block_bytes)
    else if compressed_size =? block_bytes then Some (take (Z.to_nat block_bytes) src)
    else decompress_data_nolog (take (Z.to_nat compressed_size) src) block_bytes.
End Decode.

Section ReadCompressed.
Context (lz4 : list Z -> Z -> option (list Z)) (file : list Z).

Definition block_cache_hit (pr : page_read) (vaddr size : Z) : bool :=
  (cache_size (blk pr) =? size) && (cache_vaddr (blk pr) =? vaddr).

Definition set_cache (buf : list Z) (vaddr size : Z) (b : page_read_block_state) : page_read_block_state :=
  BlkState (block_idx b) (block_offset b) buf vaddr size.

(** On failure the cache is left invalid. *)
Definition block_cache_load (e : env) (pr : page_read) (vaddr cs pages bytes : Z)
    : outcome (bool * page_read * env) :=
  let old_size := cache_size (blk pr) in
  let pr := set_blk (fun b => set_cache (cache_buf b) (cache_vaddr b) 0 b) pr in
  let '(ok, e) := if negb (bytes =? old_size) then env_alloc e else (true, e) in
  if negb ok then Ret (false, pr, e)
  else
    let! (got, e) := pread_full e file cs (pi_off pr) in
    match got with
    | None => Ret (false, pr, e)
    | Some compressed =>
        match decompress_block lz4 compressed cs pages with
        | None => Ret (false, pr, e)
        | Some bytes_out => Ret (true, set_blk (set_cache bytes_out vaddr bytes) pr, e)
        end
    end.

(** xrealloc() of the scratch buffer when it is too small. *)
Definition grow_scratch (e : env) (scratch_cap cs : Z) : bool * Z * env :=
  if scratch_cap <? cs then
    let '(ok, e) := env_alloc e in (ok, if ok then cs else scratch_cap, e)
  else (true, scratch_cap, e).

(** The bytes of [take_] pages from page [off] of the block under the cursor:
    [None] is the error exit. *)
Definition read_block_slice (e : env) (pr : page_read) (scratch_cap cs this_block off take_ block_vaddr : Z)
    : outcome (option (list Z) * Z * page_read * env) :=
  let this_bytes := this_block * PAGE_SIZE in
  let out_bytes := take_ * PAGE_SIZE in
  if cs =? 0 then Ret (Some (zeros out_bytes), scratch_cap, pr, e)
  else if cs =? this_bytes then
    let! (got, e) := pread_full e file out_bytes (pi_off pr + off * PAGE_SIZE) in
    Ret (got, scratch_cap, pr, e)
  else if (off =? 0) && (take_ =? this_block) then
    let '(ok, scratch_cap, e) := grow_scratch e scratch_cap cs in
    if negb ok then Ret (None, scratch_cap, pr, e)
    else
      let! (got, e) := pread_full e file cs (pi_off pr) in
      match got with
      | None => Ret (None, scratch_cap, pr, e)
      | Some compressed => Ret (decompress_block lz4 compressed cs this_block, scratch_cap, pr, e)
      end
  else
    let! (ok, scratch_cap, pr, e) :=
      if negb (block_cache_hit pr block_vaddr this_bytes) then
        let '(ok, scratch_cap, e) := grow_scratch e scratch_cap cs in
        if negb ok then Ret (false, scratch_cap, pr, e)
        else
          let! (ok, pr, e) := block_cache_load e pr block_vaddr cs this_block this_bytes in
          Ret (ok, scratch_cap, pr, e)
      else Ret (true, scratch_cap, pr, e) in
    if negb ok then Ret (None, scratch_cap, pr, e)
    else
      Ret (Some (take (Z.to_nat out_bytes) (drop (Z.to_nat (off * PAGE_SIZE)) (cache_buf (blk pr)))),
           scratch_cap, pr, e).

(** The loop; [out] holds the [pages_done] pages read so far. *)
Fixpoint read_compressed_loop (fuel : nat) (e : env) (pe : pagemap_entry) (pr : page_read)
    (vaddr nr pages_done scratch_cap : Z) (out : list Z)
    : outcome (option (list Z) * page_read * env) :=
  if pages_done <? nr then
    match fuel with
    | O => NoFuel
    | S fuel =>
        let idx := block_idx (blk pr) in
        let off := block_offset (blk pr) in
        match pe_blocks pe with
        | None => Ret (None, pr, e)
        | Some b =>
            match (if idx >=? n_block_sizes b then None else zlookup (block_sizes b) idx) with
            | None => Ret (None, pr, e)
            | Some cs =>
                let this_block := current_block_pages pe idx in
                if cs >? this_block * PAGE_SIZE then Ret (None, pr, e)
                else
                  let avail := u32 (this_block - off) in
                  let take_ := if nr - pages_done <? avail then u32 (nr - pages_done) else avail in
                  let block_vaddr := u64 (vaddr + pages_done * PAGE_SIZE - off * PAGE_SIZE) in
                  let! (got, scratch_cap, pr, e) :=
                    read_block_slice e pr scratch_cap cs this_block off take_ block_vaddr in
                  match got with
                  | None => Ret (None, pr, e)
                  | Some bytes =>
                      let pr := set_blk (set_block_pos idx (off + take_)) pr in
                      let pr :=
                        if off + take_ =? this_block
                        then set_pi_off (s64 (pi_off pr + cs)) (set_blk (set_block_pos (idx + 1) 0) pr)
                        else pr in
                      read_compressed_loop fuel e pe pr vaddr nr (u64 (pages_done + take_)) scratch_cap (out ++ bytes)
                  end
            end
        end
    end
  else Ret (Some out, pr, e).

Definition read_compressed_pages (e : env) (pe : pagemap_entry) (pr : page_read) (vaddr nr : Z)
    : outcome (option (list Z) * page_read * env) :=
  read_compressed_loop (Z.to_nat nr) e pe pr vaddr nr 0 0 [].
End ReadCompressed.

(** ** What a page of the image contains *)
Definition slice (file : list Z) (off n : Z) : option (list Z) :=
  if (0 <=? off) && (off + n <=? zlen file)
  then Some (take (Z.to_nat n) (drop (Z.to_nat off) file)) else None.

Section Reference.
Context (lz4 : list Z -> Z -> option (list Z)) (file : list Z).

(** The bytes of one page, from where the image keeps it. *)
Definition src_bytes (s : page_src) : option (list Z) :=
  match s with
  | SRaw off => slice file off PAGE_SIZE
  | SBlock off size pages j =>
      if size =? 0 then Some (zeros PAGE_SIZE)
      else if size =? pages * PAGE_SIZE then slice file (off + j * PAGE_SIZE) PAGE_SIZE
      else
        match slice file off size with
        | None => None
        | Some compressed =>
            match decompress_data_nolog lz4 compressed (pages * PAGE_SIZE) with
            | None => None
            | Some block => Some (take (Z.to_nat PAGE_SIZE) (drop (Z.to_nat (j * PAGE_SIZE)) block))
            end
        end
  end.

Fixpoint pages_bytes (l : list page_src) : option (list Z) :=
  match l with
  | [] => Some []
  | s :: l =>
      match src_bytes s, pages_bytes l with
      | Some x, Some y => Some (x ++ y)
      | _, _ => None
      end
  end.

Lemma pages_bytes_app l1 l2 :
  pages_bytes (l1 ++ l2) = match pages_bytes l1 with Some x => app x <$> pages_bytes l2 | None => None end.
Proof.
  induction l1 as [|s l1 IH]; simpl; [by destruct (pages_bytes l2)|].
  destruct (src_bytes s) as [a|]; [|done]. rewrite IH. destruct (pages_bytes l1) as [c|]; [|done].
  destruct (pages_bytes l2) as [d|]; [|done]. simpl. by rewrite app_assoc.
Qed.

(** Pages [j0, j0 + n) of a stretch of bytes. *)
Lemma pages_bytes_of (s : Z -> page_src) (L : list Z) (n : nat) : forall j0, 0 <= j0 ->
  (j0 + Z.of_nat n) * PAGE_SIZE <= zlen L ->
  (forall j, j0 <= j < j0 + Z.of_nat n ->
     src_bytes (s j) = Some (take (Z.to_nat PAGE_SIZE) (drop (Z.to_nat (j * PAGE_SIZE)) L))) ->
  pages_bytes (s <$> seqZ j0 (Z.of_nat n)) =
    Some (take (Z.to_nat (Z.of_nat n * PAGE_SIZE)) (drop (Z.to_nat (j0 * PAGE_SIZE)) L)).
Proof.
  induction n as [|n IH]; intros j0 H0 Hl Hs; [done|].
  rewrite seqZ_cons by lia. rewrite fmap_cons. cbn [pages_bytes]. rewrite Hs by lia.
  replace (Z.pred (Z.of_nat (S n))) with (Z.of_nat n) by lia.
  rewrite IH; [|lia|unfold PAGE_SIZE in *; lia|intros j Hj; apply Hs; lia].
  f_equal. unfold PAGE_SIZE in *. unfold zlen in Hl.
  replace (Z.to_nat (Z.of_nat (S n) * 4096)) with (Z.to_nat 4096 + Z.to_nat (Z.of_nat n * 4096))%nat by lia.
  replace (Z.to_nat (Z.succ j0 * 4096)) with (Z.to_nat (j0 * 4096) + Z.to_nat 4096)%nat by lia.
  rewrite <- drop_drop. set (M := drop (Z.to_nat (j0 * 4096)) L).
  rewrite <- (take_drop (Z.to_nat 4096) M) at 3. rewrite take_app_add'; [done|].
  rewrite length_take. unfold M. rewrite length_drop. lia.
Qed.
End Reference.

(** ** Reading the file *)
Definition env_rest (e : env) := (allocs e, fallocs e, rawfds e).

(** [acc] is what the file holds from [off] on. *)
Definition prefix_of (file : list Z) (off : Z) (acc : list Z) : Prop :=
  acc = take (length acc) (drop (Z.to_nat off) file).

Lemma prefix_slice file count off acc : 0 < count -> 0 <= off -> prefix_of file off acc -> zlen acc = count ->
  slice file off count = Some acc.
Proof.
  unfold prefix_of. intros Hc Ho Ha Hl. assert (Hlen : Z.of_nat (length acc) = count) by (unfold zlen in *; lia).
  unfold slice. rewrite Ha at 1. apply (f_equal length) in Ha as Hla. rewrite length_take, length_drop in Hla.
  destruct (Z.leb_spec 0 off); [|lia]. unfold zlen.
  destruct (Z.leb_spec (off + count) (Z.of_nat (length file))); [simpl; do 2 f_equal; lia|lia].
Qed.

Lemma prefix_app file off acc m : 0 <= off -> prefix_of file off acc ->
  prefix_of file off (acc ++ take m (drop (Z.to_nat (off + zlen acc)) file)).
Proof.
  unfold prefix_of. intros Ho Ha. rewrite length_app. rewrite Ha at 1. unfold zlen.
  replace (Z.to_nat (off + Z.of_nat (length acc))) with (Z.to_nat off + length acc)%nat by lia.
  rewrite <- drop_drop. set (M := drop (Z.to_nat off) file) in *.
  rewrite length_take. rewrite <- (take_drop (length acc) M) at 4.
  rewrite take_app_add'; [f_equal; symmetry; apply take_take_min_len|].
  apply (f_equal length) in Ha. rewrite length_take in *. lia.
Qed.

(** One pread() of a loop that has [acc] and wants [count] bytes from [off]. *)
Lemma pread_step e file count off acc ret got e1 : 0 <= off -> prefix_of file off acc -> zlen acc < count ->
  pread e file (count - zlen acc) (off + zlen acc) = (ret, got, e1) ->
  env_rest e1 = env_rest e /\ (length (preads e1) <= length (preads e))%nat /\ (preads e = [] -> preads e1 = []) /\
  (ret < 0 /\ (length (preads e1) < length (preads e))%nat \/
   ret = zlen got /\ zlen got <= count - zlen acc /\ prefix_of file off (acc ++ got) /\
     (preads e = [] -> ret = 0 -> slice file off count = None)).
Proof.
  intros Ho Ha Hlt. unfold pread. pose proof (zlen_nonneg acc) as Hz.
  destruct (match preads e with a :: l => (a, l) | [] => (count - zlen acc, []) end) as [want rest] eqn:Ew.
  assert (Hrest : (length rest <= length (preads e))%nat /\ (preads e = [] -> rest = [] /\ want = count - zlen acc) /\
    (preads e <> [] -> (length rest < length (preads e))%nat)).
  { destruct (preads e); injection Ew as <- <-; simpl; split_and!; (done || lia). }
  destruct Hrest as (R1 & R2 & R3).
  destruct (Z.ltb_spec want 0) as [Hneg|Hpos]; intros [= <- <- <-]; cbn [preads];
    (split; [done|]); (split; [done|]); (split; [by intros E; apply R2|]).
  { left. split; [done|]. apply R3. intros E. destruct (R2 E). lia. }
  right. split; [done|]. split; [unfold zlen in *; rewrite length_take; lia|]. split; [by apply prefix_app|].
  intros E H0. destruct (R2 E) as [_ Hw]. unfold slice.
  destruct (Z.leb_spec 0 off); [|lia]. simpl. destruct (Z.leb_spec (off + count) (zlen file)); [|done].
  exfalso. unfold zlen in *. rewrite length_take, length_drop in H0. lia.
Qed.

Lemma pread_loop_ok file count off : 0 < count -> 0 <= off -> forall fuel e acc,
  (length (preads e) + Z.to_nat (count - zlen acc) < fuel)%nat ->
  prefix_of file off acc -> zlen acc <= count ->
  exists r e', pread_loop fuel e file count off acc = Ret (r, e') /\ env_rest e' = env_rest e /\
    (forall bytes, r = Some bytes -> slice file off count = Some bytes) /\
    (preads e = [] -> preads e' = [] /\ r = slice file off count).
Proof.
  intros Hc Ho. induction fuel as [|fuel IH]; intros e acc Hf Ha Hl; [lia|].
  cbn [pread_loop]. destruct (Z.ltb_spec (zlen acc) count) as [Hlt|Hge].
  2:{ assert (Hs : slice file off count = Some acc) by (apply prefix_slice; [done..|lia]).
      eexists _, _. split; [done|]. split; [done|]. split; [by intros ? [= <-]|]. intros E. by rewrite Hs. }
  destruct (pread e file (count - zlen acc) (off + zlen acc)) as [[ret got] e1] eqn:Ep.
  destruct (pread_step _ _ _ _ _ _ _ _ Ho Ha Hlt Ep) as (Er & El & En & [[Hneg Hdec]|(-> & Hgot & Hacc & Hz)]).
  - destruct (Z.ltb_spec ret 0); [|lia]. destruct (ret =? - EINTR).
    + destruct (IH e1 acc) as (r & e' & -> & A & B & C); [lia|done|done|].
      exists r, e'. split; [done|]. split; [by rewrite A|]. split; [done|]. intros E. rewrite E in Hdec. simpl in Hdec. lia.
    + eexists _, _. split; [done|]. split; [done|]. split; [done|]. intros E. rewrite E in Hdec. simpl in Hdec. lia.
  - pose proof (zlen_nonneg got). destruct (Z.ltb_spec (zlen got) 0); [lia|].
    destruct (Z.eqb_spec (zlen got) 0) as [Hz0|Hnz].
    + eexists _, _. split; [done|]. split; [done|]. split; [done|]. intros E. rewrite (Hz E Hz0). split; [by apply En|done].
    + destruct (IH e1 (acc ++ got)) as (r & e' & -> & A & B & C); [rewrite zlen_app; lia|done|rewrite zlen_app; lia|].
      exists r, e'. split; [done|]. split; [by rewrite A|]. split; [done|]. intros E. by apply C, En.
Qed.

Lemma pread_full_ok e file count off : 0 < count -> 0 <= off ->
  exists r e', pread_full e file count off = Ret (r, e') /\ env_rest e' = env_rest e /\
    (forall bytes, r = Some bytes -> slice file off count = Some bytes) /\
    (preads e = [] -> preads e' = [] /\ r = slice file off count).
Proof.
  intros Hc Ho. apply pread_loop_ok; [done|done| |done|unfold zlen; simpl; lia].
  unfold zlen. simpl. lia.
Qed.

(** Nothing fails from here on. *)
Definition env_ok (e : env) : Prop := env_rest e = ([], [], []) /\ preads e = [].

Lemma env_alloc_ok e ok e' : env_alloc e = (ok, e') ->
  preads e' = preads e /\ (env_ok e -> ok = true /\ env_ok e').
Proof.
  unfold env_alloc. destruct (xalloc (allocs e)) as [b al] eqn:E. intros [= <- <-]. split; [done|].
  intros [[= Ha Hf Hr] Hp]. rewrite Ha in E. injection E as <- <-. split; [done|].
  unfold env_ok, env_rest. simpl. by rewrite Hf, Hr.
Qed.

Lemma grow_scratch_ok e cap cs ok cap' e' : grow_scratch e cap cs = (ok, cap', e') ->
  env_ok e -> ok = true /\ env_ok e'.
Proof.
  unfold grow_scratch. destruct (cap <? cs); [|by intros [= <- _ <-]].
  destruct (env_alloc e) as [b e1] eqn:E. intros [= <- _ <-] He. by apply (env_alloc_ok _ _ _ E).
Qed.

Lemma slice_length file off n bytes : slice file off n = Some bytes -> 0 <= n -> zlen bytes = n.
Proof.
  unfold slice. destruct (Z.leb_spec 0 off); [|done]. destruct (Z.leb_spec (off + n) (zlen file)); [|done].
  intros [= <-] Hn. unfold zlen in *. rewrite length_take, length_drop. lia.
Qed.

(** ** One block *)
Section OneBlock.
Context (lz4 : list Z -> Z -> option (list Z)) (file : list Z).
Context (o cs bp : Z) (Ho : 0 <= o) (Hbp : 1 <= bp <= MAX_BLOCK_PAGES) (Hcs : 0 <= cs <= bp * PAGE_SIZE).
Abbreviation pages := (pages_bytes lz4 file).

Lemma zero_pages off n : cs = 0 -> 0 <= off -> 0 <= n ->
  pages (SBlock o cs bp <$> seqZ off n) = Some (zeros (n * PAGE_SIZE)).
Proof.
  intros Hz H0 Hn. rewrite <- (Z2Nat.id n) by done.
  rewrite (pages_bytes_of lz4 file _ (zeros ((off + n) * PAGE_SIZE))).
  - f_equal. unfold zeros, PAGE_SIZE. rewrite drop_replicate, take_replicate. f_equal. lia.
  - lia.
  - unfold zlen, zeros, PAGE_SIZE. rewrite length_replicate. lia.
  - intros j Hj. simpl. rewrite Hz. simpl. unfold zeros, PAGE_SIZE.
    rewrite drop_replicate, take_replicate. do 2 f_equal. lia.
Qed.

Lemma raw_pages off n bytes : cs <> 0 -> cs = bp * PAGE_SIZE -> 0 <= off -> 0 <= n ->
  slice file (o + off * PAGE_SIZE) (n * PAGE_SIZE) = Some bytes ->
  pages (SBlock o cs bp <$> seqZ off n) = Some bytes.
Proof.
  intros Hz Hr H0 Hn Hs. unfold slice in Hs.
  destruct (Z.leb_spec 0 (o + off * PAGE_SIZE)); [|done].
  destruct (Z.leb_spec (o + off * PAGE_SIZE + n * PAGE_SIZE) (zlen file)) as [Hle|]; [|done].
  injection Hs as <-. unfold zlen, PAGE_SIZE in *. rewrite <- (Z2Nat.id n) at 1 by done.
  rewrite (pages_bytes_of lz4 file _ (drop (Z.to_nat o) file)).
  - unfold PAGE_SIZE. rewrite Z2Nat.id by done. rewrite drop_drop. do 3 f_equal. lia.
  - lia.
  - unfold zlen, PAGE_SIZE. rewrite length_drop. lia.
  - intros j Hj. unfold src_bytes. destruct (Z.eqb_spec cs 0); [done|].
    destruct (Z.eqb_spec cs (bp * PAGE_SIZE)); [|unfold PAGE_SIZE in *; lia].
    unfold slice, zlen, PAGE_SIZE. destruct (Z.leb_spec 0 (o + j * 4096)); [|lia].
    destruct (Z.leb_spec (o + j * 4096 + 4096) (Z.of_nat (length file))); [|lia]. simpl.
    rewrite drop_drop. do 3 f_equal. lia.
Qed.

Lemma lz4_pages off n c block : cs <> 0 -> cs <> bp * PAGE_SIZE -> 0 <= off -> 0 <= n -> off + n <= bp ->
  slice file o cs = Some c -> decompress_data_nolog lz4 c (bp * PAGE_SIZE) = Some block ->
  pages (SBlock o cs bp <$> seqZ off n) =
    Some (take (Z.to_nat (n * PAGE_SIZE)) (drop (Z.to_nat (off * PAGE_SIZE)) block)) /\
  zlen block = bp * PAGE_SIZE.
Proof.
  intros Hz Hr H0 Hn Hle Hs Hd.
  assert (Hlen : zlen block = bp * PAGE_SIZE).
  { unfold decompress_data_nolog in Hd. destruct (lz4 c (bp * PAGE_SIZE)) as [out|]; [|done].
    destruct (Z.eqb_spec (zlen out) (bp * PAGE_SIZE)); [|done]. by injection Hd as <-. }
  split; [|done]. rewrite <- (Z2Nat.id n) by done. apply pages_bytes_of; [lia|unfold PAGE_SIZE in *; lia|].
  intros j Hj. unfold src_bytes. destruct (Z.eqb_spec cs 0); [done|].
  destruct (Z.eqb_spec cs (bp * PAGE_SIZE)); [done|]. by rewrite Hs, Hd.
Qed.

(** What an answer for some pages says about each. *)
Lemma pages_first (s : Z -> page_src) off n x : 0 < n -> pages (s <$> seqZ off n) = Some x ->
  src_bytes lz4 file (s off) <> None.
Proof.
  intros Hn H. rewrite seqZ_cons in H by lia. rewrite fmap_cons in H. cbn [pages_bytes] in H.
  by destruct (src_bytes lz4 file (s off)).
Qed.

Lemma pages_last (s : Z -> page_src) off n x : 0 < n -> pages (s <$> seqZ off n) = Some x ->
  src_bytes lz4 file (s (off + n - 1)) <> None.
Proof.
  intros Hn. assert (E : seqZ off n = seqZ off (n - 1) ++ [off + n - 1]).
  { replace n with (n - 1 + 1) at 1 by lia. rewrite seqZ_app by lia. rewrite (seqZ_cons (off + (n - 1))) by lia.
    f_equal. f_equal. lia. }
  revert x. rewrite E, fmap_app. generalize (s <$> seqZ off (n - 1)). intros l. induction l as [|a l IH]; intros x H.
  - simpl in H. by destruct (src_bytes lz4 file (s (off + n - 1))).
  - simpl in H. destruct (src_bytes lz4 file a); [|done].
    destruct (pages_bytes _ _ (l ++ _)) as [y|] eqn:Ey; [|done]. by apply (IH y).
Qed.

Lemma decompress_block_lz4 c : cs <> 0 -> cs <> bp * PAGE_SIZE -> slice file o cs = Some c ->
  decompress_block lz4 c cs bp = decompress_data_nolog lz4 c (bp * PAGE_SIZE).
Proof.
  intros Hz Hr Hs. apply slice_length in Hs; [|lia]. unfold decompress_block. rewrite !Z.gtb_ltb.
  destruct (Z.eqb_spec bp 0); [lia|]. destruct (Z.ltb_spec MAX_BLOCK_PAGES bp); [lia|]. simpl.
  destruct (Z.ltb_spec cs 0); [lia|]. destruct (Z.ltb_spec (bp * PAGE_SIZE) cs); [lia|].
  destruct (Z.eqb_spec cs 0); [done|]. destruct (Z.eqb_spec cs (bp * PAGE_SIZE)); [done|].
  rewrite take_ge; [done|]. unfold zlen in Hs. lia.
Qed.

(** The decoded bytes of an LZ4 block. *)
Definition decoded : option (list Z) :=
  match slice file o cs with
  | Some c => decompress_data_nolog lz4 c (bp * PAGE_SIZE)
  | None => None
  end.

Lemma decoded_pages off n : cs <> 0 -> cs <> bp * PAGE_SIZE -> 0 <= off -> 0 < n -> off + n <= bp ->
  pages (SBlock o cs bp <$> seqZ off n) =
    (fun block => take (Z.to_nat (n * PAGE_SIZE)) (drop (Z.to_nat (off * PAGE_SIZE)) block)) <$> decoded.
Proof.
  intros Hz Hr H0 Hn Hle. unfold decoded.
  destruct (slice file o cs) as [c|] eqn:Es; [destruct (decompress_data_nolog lz4 c _) as [block|] eqn:Ed|].
  - by apply (lz4_pages off n c block); try lia.
  - destruct (pages _) as [x|] eqn:Ep; [|done]. exfalso. apply (pages_first _ _ _ _ Hn Ep). unfold src_bytes.
    destruct (Z.eqb_spec cs 0); [done|]. destruct (Z.eqb_spec cs (bp * PAGE_SIZE)); [done|]. by rewrite Es, Ed.
  - destruct (pages _) as [x|] eqn:Ep; [|done]. exfalso. apply (pages_first _ _ _ _ Hn Ep). unfold src_bytes.
    destruct (Z.eqb_spec cs 0); [done|]. destruct (Z.eqb_spec cs (bp * PAGE_SIZE)); [done|]. by rewrite Es.
Qed.

Lemma raw_pages_iff off n : cs <> 0 -> cs = bp * PAGE_SIZE -> 0 <= off -> 0 < n ->
  pages (SBlock o cs bp <$> seqZ off n) = slice file (o + off * PAGE_SIZE) (n * PAGE_SIZE).
Proof.
  intros Hz Hr H0 Hn. destruct (slice file _ _) as [x|] eqn:Es; [by apply raw_pages; try lia|].
  destruct (pages _) as [x|] eqn:Ep; [|done]. exfalso. apply (pages_last _ _ _ _ Hn Ep). unfold src_bytes.
  destruct (Z.eqb_spec cs 0); [done|]. destruct (Z.eqb_spec cs (bp * PAGE_SIZE)); [|done].
  unfold slice in *. revert Es. unfold PAGE_SIZE in *.
  destruct (Z.leb_spec 0 (o + off * 4096)); [|lia]. destruct (Z.leb_spec 0 (o + (off + n - 1) * 4096)); [|lia]. simpl.
  destruct (Z.leb_spec (o + off * 4096 + n * 4096) (zlen file)); [done|].
  destruct (Z.leb_spec (o + (off + n - 1) * 4096 + 4096) (zlen file)); [lia|done].
Qed.

(** Reading and decoding the whole block. *)
Lemma read_decoded e : cs <> 0 -> cs <> bp * PAGE_SIZE ->
  exists r e', pread_full e file cs o = Ret (r, e') /\ env_rest e' = env_rest e /\
    let d := match r with Some c => decompress_block lz4 c cs bp | None => None end in
    (d <> None -> d = decoded) /\ (env_ok e -> env_ok e' /\ d = decoded).
Proof.
  intros Hz Hr. destruct (pread_full_ok e file cs o ltac:(lia) Ho) as (r & e' & -> & Ha & H1 & H2).
  exists r, e'. split; [done|]. split; [done|]. unfold decoded. split.
  - destruct r as [c|]; [|done]. rewrite (H1 c eq_refl). intros _. apply decompress_block_lz4; auto.
  - intros [E1 E2]. destruct (H2 E2) as [E3 ->]. split; [split; [by rewrite Ha|done]|].
    destruct (slice file o cs) as [c|] eqn:Es; [|done]. by apply decompress_block_lz4.
Qed.

(** How the slice read may change the reader: it drops the cache or fills it
    with the block. *)
Inductive cache_step (bv : Z) (pr : page_read) : page_read -> Prop :=
| cs_same : cache_step bv pr pr
| cs_drop : cache_step bv pr (set_blk (fun x => set_cache (cache_buf x) (cache_vaddr x) 0 x) pr)
| cs_fill buf : cs <> 0 -> cs <> bp * PAGE_SIZE -> decoded = Some buf ->
    cache_step bv pr (set_blk (set_cache buf bv (bp * PAGE_SIZE)) pr).

Lemma block_cache_load_ok e pr bv : pi_off pr = o -> cs <> 0 -> cs <> bp * PAGE_SIZE ->
  exists ok pr' e', block_cache_load lz4 file e pr bv cs bp (bp * PAGE_SIZE) = Ret (ok, pr', e') /\
    cache_step bv pr pr' /\
    (ok = true -> decoded = Some (cache_buf (blk pr'))) /\
    (env_ok e -> env_ok e' /\ (ok = false -> decoded = None)).
Proof.
  intros Hp Hz Hr. unfold block_cache_load.
  destruct (if negb (bp * PAGE_SIZE =? cache_size (blk pr)) then env_alloc e else (true, e)) as [ok e1] eqn:Ea.
  assert (Halloc : env_ok e -> ok = true /\ env_ok e1).
  { destruct (negb _); [by apply (env_alloc_ok _ _ _ Ea)|]. by injection Ea as <- <-. }
  destruct ok; simpl.
  2:{ eexists _, _, _. split; [done|]. split; [apply cs_drop|]. split; [done|]. intros He. by destruct (Halloc He). }
  rewrite Hp. destruct (read_decoded e1 Hz Hr) as (r & e2 & -> & _ & H1 & H2). simpl.
  destruct r as [c|].
  2:{ eexists _, _, _. split; [done|]. split; [apply cs_drop|]. split; [done|]. intros He.
      destruct (H2 (proj2 (Halloc He))) as [? Hd]. by split. }
  destruct (decompress_block lz4 c cs bp) as [buf|] eqn:Ed; eexists _, _, _; (split; [done|]).
  - specialize (H1 ltac:(done)). split; [by apply (cs_fill bv pr buf)|]. split; [done|].
    intros He. destruct (H2 (proj2 (Halloc He))) as [? _]. by split.
  - split; [apply cs_drop|]. split; [done|]. intros He. destruct (H2 (proj2 (Halloc He))) as [? Hd]. by split.
Qed.
End OneBlock.

Section OneBlockSlice.
Context (lz4 : list Z -> Z -> option (list Z)) (file : list Z).
Context (o cs bp : Z) (Ho : 0 <= o) (Hbp : 1 <= bp <= MAX_BLOCK_PAGES) (Hcs : 0 <= cs <= bp * PAGE_SIZE).
Abbreviation pages := (pages_bytes lz4 file).
Abbreviation decoded := (decoded lz4 file o cs bp).
Abbreviation cache_step := (cache_step lz4 file o cs bp).

(** The contract of a slice read: it returns, it touches the cache only, what
    it answers is what the image holds, and it fails only when the
    environment does or the image has no such bytes. *)
Lemma read_block_slice_ok e pr cap off n bv : pi_off pr = o -> 0 <= off -> 0 < n -> off + n <= bp ->
  (cs <> 0 -> cs <> bp * PAGE_SIZE -> block_cache_hit pr bv (bp * PAGE_SIZE) = true ->
     decoded = Some (cache_buf (blk pr))) ->
  let spec := pages (SBlock o cs bp <$> seqZ off n) in
  exists r cap' pr' e', read_block_slice lz4 file e pr cap cs bp off n bv = Ret (r, cap', pr', e') /\
    cache_step bv pr pr' /\
    (r <> None -> r = spec) /\ (env_ok e -> env_ok e' /\ r = spec).
Proof.
  intros Hp H0 Hn Hle Hhit spec. unfold read_block_slice.
  destruct (Z.eqb_spec cs 0) as [Hz|Hz].
  { eexists _, _, _, _. split; [done|]. split; [apply cs_same|].
    assert (spec = Some (zeros (n * PAGE_SIZE))) as -> by (apply zero_pages; lia). done. }
  destruct (Z.eqb_spec cs (bp * PAGE_SIZE)) as [Hr|Hr].
  { rewrite Hp. destruct (pread_full_ok e file (n * PAGE_SIZE) (o + off * PAGE_SIZE)) as (r & e' & -> & Ha & H1 & H2);
      [unfold PAGE_SIZE in *; lia..|]. simpl. eexists _, _, _, _. split; [done|]. split; [apply cs_same|].
    assert (spec = slice file (o + off * PAGE_SIZE) (n * PAGE_SIZE)) as -> by (apply raw_pages_iff; lia || done).
    split; [destruct r as [x|]; [intros _; symmetry; by apply H1|done]|].
    intros [E1 E2]. destruct (H2 E2) as [E3 ->]. split; [|done]. split; [by rewrite Ha|done]. }
  assert (Hspec : spec = (fun block => take (Z.to_nat (n * PAGE_SIZE)) (drop (Z.to_nat (off * PAGE_SIZE)) block)) <$> decoded)
    by (apply decoded_pages; (lia || done)).
  destruct ((off =? 0) && (n =? bp)) eqn:Ew.
  - apply andb_prop in Ew as [->%Z.eqb_eq ->%Z.eqb_eq].
    assert (Hwhole : spec = decoded).
    { rewrite Hspec. unfold ReadPages.decoded. destruct (slice file o cs) as [c|]; [|done].
      unfold decompress_data_nolog. destruct (lz4 c (bp * PAGE_SIZE)) as [out|]; [|done].
      destruct (Z.eqb_spec (zlen out) (bp * PAGE_SIZE)) as [Hl|]; [|done]. simpl. f_equal.
      rewrite drop_0. apply take_ge. unfold zlen in Hl. lia. }
    destruct (grow_scratch e cap cs) as [[ok cap'] e1] eqn:Eg. pose proof (grow_scratch_ok _ _ _ _ _ _ Eg) as Hg.
    destruct ok; simpl.
    2:{ eexists _, _, _, _. split; [done|]. split; [apply cs_same|]. split; [done|]. intros He. by destruct (Hg He). }
    rewrite Hp. destruct (read_decoded lz4 file o cs bp Ho Hbp Hcs e1 Hz Hr) as (r & e2 & -> & _ & H1 & H2). simpl.
    rewrite Hwhole.
    destruct r as [c|]; eexists _, _, _, _; (split; [done|]); (split; [apply cs_same|]).
    + split; [done|]. intros He. by apply H2, Hg.
    + split; [done|]. intros He. by apply H2, Hg.
  - destruct (block_cache_hit pr bv (bp * PAGE_SIZE)) eqn:Eh; simpl.
    + eexists _, _, _, _. split; [done|]. split; [apply cs_same|]. rewrite Hspec, Hhit by done. done.
    + destruct (grow_scratch e cap cs) as [[ok cap'] e1] eqn:Eg. pose proof (grow_scratch_ok _ _ _ _ _ _ Eg) as Hg.
      destruct ok; simpl.
      2:{ eexists _, _, _, _. split; [done|]. split; [apply cs_same|]. split; [done|]. intros He. by destruct (Hg He). }
      destruct (block_cache_load_ok lz4 file o cs bp Ho Hbp Hcs e1 pr bv Hp Hz Hr) as (ok & pr' & e2 & -> & Hst & H1 & H2).
      simpl. destruct ok; simpl; eexists _, _, _, _; (split; [done|]); (split; [done|]).
      * rewrite Hspec, H1 by done. split; [done|]. intros He. by destruct (H2 (proj2 (Hg He))).
      * split; [done|]. intros He. destruct (H2 (proj2 (Hg He))) as [? Hd]. by rewrite Hspec, Hd.
Qed.
End OneBlockSlice.

(** ** The cache of the last decoded block *)
Definition block_start (l : list pagemap_entry) (i : nat) (b : pagemap_blocks) (j : Z) : Z :=
  payload_start l i + zsum (take (Z.to_nat j) (block_sizes b)).
Definition block_size (b : pagemap_blocks) (j : Z) : Z := default 0 (block_sizes b !! Z.to_nat j).

Section CacheOk.
Context (lz4 : list Z -> Z -> option (list Z)) (file : list Z).

(** The cache is empty or holds the decoded bytes of the block of the image
    whose address it names. *)
Definition cache_ok (pr : page_read) : Prop :=
  cache_size (blk pr) = 0 \/
  exists i pe b j, pmes pr !! i = Some pe /\ pe_blocks pe = Some b /\ 0 <= j < n_block_sizes b /\
    cache_vaddr (blk pr) = pe_vaddr pe + j * pages_per_block b * PAGE_SIZE /\
    cache_size (blk pr) = block_pages_at (pe_nr_pages pe) (pages_per_block b) j * PAGE_SIZE /\
    decoded lz4 file (block_start (pmes pr) i b j) (block_size b j)
      (block_pages_at (pe_nr_pages pe) (pages_per_block b) j) = Some (cache_buf (blk pr)).

Lemma same_page l i i' p q v : pagemaps_ok l -> l !! i = Some p -> l !! i' = Some q ->
  pe_vaddr p <= v < entry_end p -> pe_vaddr q <= v < entry_end q -> i = i'.
Proof.
  intros Hok Hi Hi' Hp Hq. destruct (Nat.lt_trichotomy i i') as [Hlt|[->|Hlt]]; [|done|].
  - pose proof (ok_from_order l 0 0 i i' p q ltac:(lia) Hok Hi Hi' Hlt). lia.
  - pose proof (ok_from_order l 0 0 i' i q p ltac:(lia) Hok Hi' Hi Hlt). lia.
Qed.

Lemma block_inside pe b j : entry_ok pe -> pe_blocks pe = Some b -> 0 <= j < n_block_sizes b ->
  pe_vaddr pe <= pe_vaddr pe + j * pages_per_block b * PAGE_SIZE < entry_end pe.
Proof.
  intros Hok Eb Hj. pose proof (ppb_range pe b Hok Eb). pose proof (block_count_bounds pe b Hok Eb).
  unfold entry_end, PAGE_SIZE. nia.
Qed.

Lemma cache_hit_decoded pr i pe b j : pagemaps_ok (pmes pr) -> cache_ok pr ->
  pmes pr !! i = Some pe -> pe_blocks pe = Some b -> 0 <= j < n_block_sizes b ->
  block_cache_hit pr (pe_vaddr pe + j * pages_per_block b * PAGE_SIZE)
    (block_pages_at (pe_nr_pages pe) (pages_per_block b) j * PAGE_SIZE) = true ->
  decoded lz4 file (block_start (pmes pr) i b j) (block_size b j)
    (block_pages_at (pe_nr_pages pe) (pages_per_block b) j) = Some (cache_buf (blk pr)).
Proof.
  intros Hok Hc Hi Eb Hj Hh. unfold block_cache_hit in Hh. apply andb_prop in Hh as [Hs%Z.eqb_eq Hv%Z.eqb_eq].
  destruct (pagemaps_ok_lookup _ i pe Hok Hi) as (Hpe & _).
  destruct (current_block_pages_ok pe b j Hpe Eb Hj) as [_ Hbp].
  destruct Hc as [Hc|(i' & q & b' & j' & Hi' & Eb' & Hj' & Hv' & _ & Hd)]; [unfold PAGE_SIZE in *; lia|].
  destruct (pagemaps_ok_lookup _ i' q Hok Hi') as (Hq & _).
  pose proof (block_inside pe b j Hpe Eb Hj) as B1. pose proof (block_inside q b' j' Hq Eb' Hj') as B2.
  rewrite <- Hv' in B2. rewrite <- Hv in B1.
  pose proof (same_page _ _ _ _ _ _ Hok Hi Hi' B1 B2) as <-. assert (q = pe) as -> by congruence.
  assert (b' = b) as -> by congruence. assert (j' = j) as ->; [|done].
  pose proof (ppb_range pe b Hpe Eb). rewrite Hv in Hv'. unfold PAGE_SIZE in Hv'. nia.
Qed.

Lemma cache_step_ok pr pr' i pe b j : cache_ok pr ->
  pmes pr !! i = Some pe -> pe_blocks pe = Some b -> 0 <= j < n_block_sizes b ->
  cache_step lz4 file (block_start (pmes pr) i b j) (block_size b j)
    (block_pages_at (pe_nr_pages pe) (pages_per_block b) j)
    (pe_vaddr pe + j * pages_per_block b * PAGE_SIZE) pr pr' ->
  cache_ok pr'.
Proof.
  intros Hc Hi Eb Hj Hst. destruct Hst as [| |buf Hz Hr Hd]; [done|by left|]. right. by exists i, pe, b, j.
Qed.

(** Moving the cursor leaves the cache alone. *)
Lemma cache_ok_frame pr pr' : pmes pr' = pmes pr -> cache_of pr' = cache_of pr -> cache_ok pr -> cache_ok pr'.
Proof. unfold cache_ok, cache_of. intros -> [= -> -> ->]. done. Qed.
End CacheOk.

(** What a read changes: the position and the cache. *)
Definition read_frame (pr pr' : page_read) : Prop :=
  pmes pr' = pmes pr /\ pr_pe pr' = pr_pe pr /\ cvaddr pr' = cvaddr pr /\ curr_pme pr' = curr_pme pr /\
  bunch pr' = bunch pr /\ async pr' = async pr /\ disable_dedup pr' = disable_dedup pr /\
  stream_padding pr' = stream_padding pr.

Lemma read_frame_refl pr : read_frame pr pr.
Proof. done. Qed.
Lemma read_frame_trans a b c : read_frame a b -> read_frame b c -> read_frame a c.
Proof. unfold read_frame. intros (?&?&?&?&?&?&?&?) (?&?&?&?&?&?&?&?). split_and!; congruence. Qed.
Lemma read_frame_pos pr p : read_frame pr (set_pos p pr).
Proof. by destruct p as [[??]?]. Qed.
Lemma cache_step_frame lz4 file o cs bp bv pr pr' :
  cache_step lz4 file o cs bp bv pr pr' -> read_frame pr pr' /\ pos_of pr' = pos_of pr.
Proof. by destruct 1. Qed.

Section ReadEntry.
Context (lz4 : list Z -> Z -> option (list Z)) (file : list Z).
Context (l : list pagemap_entry) (i : nat) (pe : pagemap_entry) (b : pagemap_blocks).
Context (Hl : pagemaps_ok l) (Hi : l !! i = Some pe) (Eb : pe_blocks pe = Some b).
Context (Hpr : pagemap_present pe = true).
Abbreviation start := (payload_start l i).
Abbreviation ppb := (pages_per_block b).
Abbreviation bpages := (block_pages_at (pe_nr_pages pe) (pages_per_block b)).
Abbreviation pages := (pages_bytes lz4 file).

Lemma Hpe : entry_ok pe.
Proof. by destruct (pagemaps_ok_lookup _ i pe Hl Hi). Qed.

(** The sources of pages inside one block. *)
Lemma image_src_block j off t : 0 <= j -> 0 <= off -> off + t <= bpages j ->
  image_src pe b start <$> seqZ (j * ppb + off) t =
  SBlock (block_start l i b j) (block_size b j) (bpages j) <$> seqZ off t.
Proof.
  intros Hj Ho Hle. apply list_eq_same_length with (n := Z.to_nat t);
    [by rewrite length_fmap, length_seqZ..|].
  intros q x y _ Hx Hy. rewrite list_lookup_fmap in Hx, Hy.
  apply fmap_Some in Hx as (v & Hv & ->), Hy as (w & Hw & ->).
  apply lookup_seqZ in Hv as [-> Hq], Hw as [-> _]. unfold image_src.
  rewrite <- Z.add_assoc. destruct (block_of_page_inside pe b Hpe Eb j (off + Z.of_nat q)) as [E1 E2]; [done|lia|].
  by rewrite E1, E2.
Qed.

(** A block of the entry: what the reader finds at its index. *)
Lemma block_facts j : 0 <= j < n_block_sizes b ->
  zlookup (block_sizes b) j = Some (block_size b j) /\ 0 <= block_start l i b j /\
  0 <= block_size b j <= bpages j * PAGE_SIZE /\ 1 <= bpages j <= MAX_BLOCK_PAGES /\
  block_start l i b (j + 1) = block_start l i b j + block_size b j /\
  block_start l i b j + block_size b j < 2 ^ 63.
Proof.
  intros Hj. destruct (zlookup_is_Some (block_sizes b) j Hj) as [cs Hcs].
  assert (Hcs' : block_sizes b !! Z.to_nat j = Some cs).
  { rewrite <- zlookup_of_nat, Z2Nat.id by lia. done. }
  destruct (pagemaps_ok_lookup _ i pe Hl Hi) as (_ & _ & Hs0 & Hmax & _).
  pose proof (entry_blocks_ok pe b Hpe Eb) as Hb.
  destruct (blocks_fit_lookup _ _ _ 0 _ cs (proj1 (proj2 (proj2 Hb))) Hcs') as [Hcs0 Hcs1].
  destruct (current_block_pages_ok pe b j Hpe Eb Hj) as [_ Hbp].
  pose proof (block_sum_range pe b Hpe Eb (Z.to_nat j)) as Hsum.
  pose proof (block_sum_range pe b Hpe Eb (S (Z.to_nat j))) as Hsum1.
  rewrite (zsum_take_S _ _ _ Hcs') in Hsum1.
  assert (Hpay : entry_payload pe = zsum (block_sizes b)) by (unfold entry_payload; by rewrite Hpr, Eb).
  unfold block_start, block_size. rewrite Hcs'. simpl. split; [done|]. split; [lia|].
  split; [|split; [|split]].
  - rewrite Z.add_0_l, Z2Nat.id in Hcs1 by lia. done.
  - destruct Hb as (Hb & _). lia.
  - replace (Z.to_nat (j + 1)) with (S (Z.to_nat j)) by lia. rewrite (zsum_take_S _ _ _ Hcs'). lia.
  - unfold OFF_MAX in Hmax. lia.
Qed.

(** Where the cursor is after [t] more pages of block [j]. *)
Lemma entry_pos_step j off t pr : 0 <= j < n_block_sizes b -> 0 <= off -> 0 < t -> off + t <= bpages j ->
  pi_off pr = block_start l i b j ->
  let pr1 := set_blk (set_block_pos j (off + t)) pr in
  pos_of (if off + t =? bpages j
          then set_pi_off (s64 (pi_off pr1 + block_size b j)) (set_blk (set_block_pos (j + 1) 0) pr1)
          else pr1) = entry_pos pe start (j * ppb + off + t).
Proof.
  intros Hj H0 Ht Hle Hp. destruct (block_facts j Hj) as (_ & Ho & Hcs & _ & Hn & H63).
  unfold entry_pos. rewrite Hpr, Eb. destruct (Z.eqb_spec (off + t) (bpages j)) as [He|He]; unfold pos_of; simpl.
  - destruct (block_of_page_after pe b Hpe Eb j Hj) as [E1 E2].
    replace (j * ppb + off + t) with (j * ppb + bpages j) by lia. rewrite E1, E2, Hp, s64_small by lia.
    unfold block_start in Hn |- *. by rewrite Hn.
  - destruct (block_of_page_inside pe b Hpe Eb j (off + t)) as [E1 E2]; [lia..|].
    rewrite <- Z.add_assoc, E1, E2, Hp. done.
Qed.

(** The loop from page [k] of the entry, [k0] being the first of the request. *)
Lemma read_compressed_loop_ok fuel : forall e pr k0 nr dn cap out,
  0 <= k0 -> 0 <= dn <= nr -> k0 + nr <= pe_nr_pages pe -> nr - dn <= Z.of_nat fuel ->
  pmes pr = l -> pos_of pr = entry_pos pe start (k0 + dn) -> cache_ok lz4 file pr ->
  let spec := app out <$> pages (image_src pe b start <$> seqZ (k0 + dn) (nr - dn)) in
  exists r pr' e',
    read_compressed_loop lz4 file fuel e pe pr (pe_vaddr pe + k0 * PAGE_SIZE) nr dn cap out = Ret (r, pr', e') /\
    read_frame pr pr' /\ cache_ok lz4 file pr' /\
    (r <> None -> r = spec /\ pos_of pr' = entry_pos pe start (k0 + nr)) /\
    (env_ok e -> env_ok e' /\ r = spec).
Proof.
  induction fuel as [|fuel IH]; intros e pr k0 nr dn cap out Hk0 Hd Hle Hf Hm Hpos Hc; cbn [read_compressed_loop];
    (destruct (Z.ltb_spec dn nr) as [Hlt|Hge]; [|
      replace dn with nr in * by lia; rewrite Z.sub_diag; simpl; rewrite app_nil_r;
      eexists _, _, _; split; [done|]; split_and!; done]); [lia|].
  pose proof Hpe as Hok. destruct Hok as (_ & _ & _ & Hv & _ & He & _). unfold entry_end in He.
  destruct (page_in_block pe b Hpe Eb (k0 + dn) ltac:(lia)) as (Hj & Hk & Ho). cbv zeta in Hj, Hk, Ho.
  pose proof Hpos as Hpos'. unfold entry_pos, pos_of in Hpos'. rewrite Hpr, Eb in Hpos'. injection Hpos' as Hpi -> ->.
  set (j := block_of_page pe b (k0 + dn)) in *. set (off := offset_of_page pe b (k0 + dn)) in *.
  fold (block_start l i b j) in Hpi.
  destruct (block_facts j Hj) as (Hcs & Hbs & Hsz & Hbp & _ & _).
  rewrite Eb. destruct (Z.geb_spec j (n_block_sizes b)); [lia|]. rewrite Hcs.
  rewrite (proj1 (current_block_pages_ok pe b j Hpe Eb Hj)). rewrite Z.gtb_ltb.
  destruct (Z.ltb_spec (bpages j * PAGE_SIZE) (block_size b j)); [lia|]. rewrite MAX_BLOCK_PAGES_eq in Hbp.
  rewrite (u32_small (bpages j - off)) by lia.
  assert (Htake : exists t, (if nr - dn <? bpages j - off then u32 (nr - dn) else bpages j - off) = t /\
    0 < t <= nr - dn /\ off + t <= bpages j).
  { destruct (Z.ltb_spec (nr - dn) (bpages j - off)); [exists (nr - dn); rewrite u32_small by lia|exists (bpages j - off)]; lia. }
  destruct Htake as (t & -> & Ht & Htb). pose proof (ppb_range pe b Hpe Eb) as Hppb.
  assert (Hbv : u64 (pe_vaddr pe + k0 * PAGE_SIZE + dn * PAGE_SIZE - off * PAGE_SIZE) =
    pe_vaddr pe + j * ppb * PAGE_SIZE).
  { unfold PAGE_SIZE in *. rewrite u64_small by nia. nia. }
  rewrite Hbv. rewrite <- MAX_BLOCK_PAGES_eq in Hbp.
  destruct (read_block_slice_ok lz4 file (block_start l i b j) (block_size b j) (bpages j) Hbs Hbp Hsz
    e pr cap off t (pe_vaddr pe + j * ppb * PAGE_SIZE)) as (r & cap' & pr1 & e1 & -> & Hst & H1 & H2); [done|lia..| |].
  { intros _ _ Hh. rewrite <- Hm. apply cache_hit_decoded; rewrite ?Hm; done. }
  assert (Hc1 : cache_ok lz4 file pr1) by (eapply cache_step_ok; [done|by rewrite Hm|done..|by rewrite Hm]).
  destruct (cache_step_frame _ _ _ _ _ _ _ _ Hst) as [Hfr Hp1].
  rewrite <- (image_src_block j off t) in H1, H2 by lia.
  assert (Hsplit : pages (image_src pe b start <$> seqZ (k0 + dn) (nr - dn)) =
    match pages (image_src pe b start <$> seqZ (j * ppb + off) t) with
    | Some x => app x <$> pages (image_src pe b start <$> seqZ (k0 + (dn + t)) (nr - (dn + t))) | None => None end).
  { rewrite <- pages_bytes_app, <- fmap_app, Hk. do 2 f_equal.
    replace (nr - dn) with (t + (nr - (dn + t))) by lia. rewrite seqZ_app by lia. do 2 f_equal. lia. }
  simpl. destruct r as [x|]; simpl.
  2:{ eexists _, _, _. split; [done|]. split; [done|]. split; [done|]. split; [done|]. intros Hev.
      destruct (H2 Hev) as [? E]. split; [done|]. by rewrite Hsplit, <- E. }
  specialize (H1 ltac:(done)). rewrite <- H1 in Hsplit.
  assert (Hpi1 : pi_off pr1 = block_start l i b j) by (unfold pos_of in Hp1; congruence).
  pose proof (entry_pos_step j off t pr1 Hj ltac:(lia) ltac:(lia) Htb Hpi1) as Hnext. cbv zeta in Hnext.
  set (pr2 := if off + t =? bpages j then _ else _) in *.
  assert (Hf2 : read_frame pr1 pr2 /\ cache_of pr2 = cache_of pr1).
  { unfold pr2. by destruct (off + t =? bpages j). }
  destruct Hf2 as [Hf2 Hcache]. rewrite (u64_small (dn + t)) by (unfold PAGE_SIZE in *; lia).
  destruct (IH e1 pr2 k0 nr (dn + t) cap' (out ++ x)) as (r & pr' & e' & -> & A & B & C & D); [lia..| | | |].
  - destruct Hf2 as (-> & _), Hfr as (-> & _). done.
  - rewrite Hnext. f_equal. lia.
  - eapply cache_ok_frame; [by destruct Hf2|done|done].
  - exists r, pr', e'. split; [done|]. split; [eapply read_frame_trans; [done|by eapply read_frame_trans]|].
    split; [done|].
    assert (Hspec : app out <$> pages (image_src pe b start <$> seqZ (k0 + dn) (nr - dn)) =
      app (out ++ x) <$> pages (image_src pe b start <$> seqZ (k0 + (dn + t)) (nr - (dn + t)))).
    { rewrite Hsplit. destruct (pages (image_src pe b start <$> seqZ (k0 + (dn + t)) _)) as [y|]; [|done]. cbn [fmap option_fmap option_map]. f_equal. apply app_assoc. }
    rewrite Hspec. split; [done|]. intros Hev. apply D. by apply H2.
Qed.
End ReadEntry.

Lemma read_compressed_pages_spec lz4 file e pr i pe b k nr :
  pagemaps_ok (pmes pr) -> at_entry pr i pe k -> pe_blocks pe = Some b -> pagemap_present pe = true ->
  cache_ok lz4 file pr -> 0 <= nr -> k + nr <= pe_nr_pages pe ->
  let spec := pages_bytes lz4 file (image_src pe b (payload_start (pmes pr) i) <$> seqZ k nr) in
  exists r pr' e', read_compressed_pages lz4 file e pe pr (cvaddr pr) nr = Ret (r, pr', e') /\
    read_frame pr pr' /\ cache_ok lz4 file pr' /\
    (r <> None -> r = spec /\ pos_of pr' = entry_pos pe (payload_start (pmes pr) i) (k + nr)) /\
    (env_ok e -> env_ok e' /\ r = spec).
Proof.
  intros Hok [Hi Hp Hk Hv Hpos] Eb Hpr Hc Hnr Hle spec. unfold read_compressed_pages. rewrite Hv.
  destruct (read_compressed_loop_ok lz4 file (pmes pr) i pe b Hok Hi Eb Hpr (Z.to_nat nr) e pr k nr 0 0 [])
    as (r & pr' & e' & -> & A & B & C & D); [lia..|done|by rewrite Z.add_0_r|done|].
  rewrite Z.add_0_r, Z.sub_0_r, option_fmap_id in C, D. by exists r, pr', e'.
Qed.

(** [read_compressed_pages], from any page of a compressed entry, for any
    number of its pages, aligned to blocks or not: it always returns, and
    whenever it succeeds the buffer holds, page by page, what the image says
    (zeroes for an empty block, the stored bytes of a raw block, the decoded
    bytes of an LZ4 block, whether they came from the file, through the
    scratch buffer or out of the cache), and the cursor stands after the last
    page.  Interrupted and short reads are absorbed; if nothing else fails, it
    succeeds exactly when the image has those bytes.  The cached block stays
    the decoded form of the block of the image it is filed under, also after an
    error, and nothing but the position and the cache changes. *)
Theorem read_compressed_pages_correct lz4 file e pr i pe b k nr :
  pagemaps_ok (pmes pr) -> at_entry pr i pe k -> pe_blocks pe = Some b -> pagemap_present pe = true ->
  cache_ok lz4 file pr -> 0 <= nr -> k + nr <= pe_nr_pages pe ->
  let spec := pages_bytes lz4 file (image_src pe b (payload_start (pmes pr) i) <$> seqZ k nr) in
  exists r pr' e', read_compressed_pages lz4 file e pe pr (cvaddr pr) nr = Ret (r, pr', e') /\
    read_frame pr pr' /\ cache_ok lz4 file pr' /\
    (r <> None -> r = spec /\ pos_of pr' = entry_pos pe (payload_start (pmes pr) i) (k + nr)) /\
    (env_ok e -> env_ok e' /\ r = spec).
Proof. apply read_compressed_pages_spec. Qed.

(** An image whose LZ4 block decodes to 7s, read from its second page, which
    loads the cache, into the empty block behind it, with one interrupted read. *)
Definition sample_codec (src : list Z) (size : Z) : option (list Z) :=
  match src with x :: _ => Some (replicate (Z.to_nat size) x) | [] => None end.
Definition sample_file : list Z := replicate (Z.to_nat 12288) 1 ++ replicate 100 7.
Definition sample_mid_block : page_read :=
  PageRead (Some sample_lz4) 0xc000 12288 0 (BlkState 0 1 [] 0 0) (Iovec 0 0)
    (init_compat_pagemap_entry <$> sample_es) 1 [] false.

Lemma sample_mid_block_at : at_entry sample_mid_block 1 sample_lz4 1.
Proof. split; vm_compute; (done || (split; discriminate)). Qed.

Lemma sample_read_result :
  match read_compressed_pages sample_codec sample_file (Env [] [- EINTR; 40] [] []) sample_lz4 sample_mid_block 0xc000 2 with
  | Ret (Some bytes, pr', _) =>
      (zlen bytes =? 8192) && forallb (Z.eqb 7) (take 4096 bytes) && forallb (Z.eqb 0) (drop 4096 bytes) &&
      (cache_vaddr (blk pr') =? 0xb000)
  | _ => false
  end = true.
Proof. vm_compute. reflexivity. Qed.

Lemma read_compressed_pages_correct_witness :
  exists bytes pr' e', read_compressed_pages sample_codec sample_file (Env [] [- EINTR; 40] [] []) sample_lz4
      sample_mid_block (cvaddr sample_mid_block) 2 = Ret (Some bytes, pr', e') /\
    cache_ok sample_codec sample_file pr' /\ cache_vaddr (blk pr') = 0xb000 /\
    pages_bytes sample_codec sample_file [SBlock 12288 100 2 1; SBlock 12388 0 1 0] = Some bytes.
Proof.
  destruct (read_compressed_pages_correct sample_codec sample_file (Env [] [- EINTR; 40] [] [])
    sample_mid_block 1 sample_lz4 (PagemapBlocks [100; 0] 100 2) 1 2) as (r & pr' & e' & H1 & _ & H3 & H4 & _).
  - exact sample_ok.
  - exact sample_mid_block_at.
  - reflexivity.
  - reflexivity.
  - left. reflexivity.
  - lia.
  - vm_compute. discriminate.
  - pose proof sample_read_result as Hr. change 0xc000 with (cvaddr sample_mid_block) in Hr. rewrite H1 in Hr.
    destruct r as [bytes|]; [|discriminate Hr]. apply andb_prop in Hr as [_ Hv%Z.eqb_eq].
    exists bytes, pr', e'. split; [exact H1|]. split; [exact H3|]. split; [exact Hv|].
    symmetry. exact (proj1 (H4 ltac:(discriminate))).
Defined.
