(* ===== verification/ChainRead.v ===== *)
(** Reading through a chain of snapshots: [read_pagemap_page] of criu/pagemap.c.

    An incremental dump keeps only the pages that changed; the pagemap of a
    snapshot says which pages to look for in its parent.  A read request on the
    youngest reader is served from its own image or split along the entries of
    the parent, and so on down the chain, each reader moving its own cursor.

    The pagemap readers' [sync] callback is an interface, the class [Sync] with
    its law [SyncIdle]: what the readers rely on.  [process_async_reads] is
    its instance. *)
From S2P Require Import Prelude PagemapImage PageRead Dedup AsyncQueue ProcessReads ReadPages.

(** ** The interface to the queues *)

(** The bytes a read stores at an address. *)
Definition write := (Z * list Z)%type.

(** [sync chain e]: carry out what is queued in the chain; 0 or an error, and
    what is stored. *)
Class Sync := sync : list page_read -> env -> outcome (Z * list write * list page_read * env).

(** What may change in a reader with nothing queued: the dedup bunch. *)
Definition bunch_frame (pr pr' : page_read) : Prop := exists bn, pr' = set_bunch bn pr.
Definition idle (pr : page_read) : Prop := async pr = [].

Class SyncIdle (S : Sync) : Prop := sync_idle : forall chain e, Forall idle chain ->
  exists r chain' e', sync chain e = Ret (r, [], chain', e') /\ Forall2 bunch_frame chain chain' /\
    (env_ok e -> r = 0 /\ env_ok e').

(** ** Operations *)

Definition env_rawfd (e : env) : bool * env :=
  let '(ok, l) := xalloc (rawfds e) in (ok, Env (allocs e) (preads e) (fallocs e) l).
Definition env_set_allocs (al : list bool) (e : env) : env := Env al (preads e) (fallocs e) (rawfds e).
Definition env_set_fallocs (fa : list bool) (e : env) : env := Env (allocs e) (preads e) fa (rawfds e).

(** The read loop of [read_local_page]: unlike [pread_full] it does not retry
    an interrupted call. *)
Fixpoint local_pread_loop (fuel : nat) (e : env) (file : list Z) (len off : Z) (acc : list Z)
    : outcome (option (list Z) * env) :=
  match fuel with
  | O => NoFuel
  | S fuel =>
      let '(ret, got, e) := pread e file (len - zlen acc) (off + zlen acc) in
      if ret <? 1 then Ret (None, e)
      else if zlen (acc ++ got) =? len then Ret (Some (acc ++ got), e)
      else local_pread_loop fuel e file len off (acc ++ got)
  end.

(** The inlined test of a bound: the caller must ask for pages of the entry. *)
Definition pagemap_bound_check (pe : pagemap_entry) (vaddr nr : Z) : bool :=
  negb ((vaddr <? pe_vaddr pe) || (u64 (u64 (vaddr - pe_vaddr pe) / PAGE_SIZE + nr) >? pe_nr_pages pe)).

Section Read.
Context `{Sync} (lz4 : list Z -> Z -> option (list Z)) (parallel auto_dedup : bool).

(** [None] is -1; the answer holds the bytes stored. *)
Definition result := outcome (option (list write) * list page_read * env).

Definition read_local_page (file : list Z) (chain : list page_read) (e : env) (len buf : Z) : result :=
  let '(ok, e) := env_rawfd e in
  if negb ok then Ret (None, chain, e)
  else
    let! (r, ws, chain, e) := sync chain e in
    if negb (r =? 0) then Ret (None, chain, e)
    else
      match chain with
      | [] => Bug
      | pr :: parents =>
          let! (got, e) := local_pread_loop (S (Z.to_nat len)) e file len (pi_off pr) [] in
          match got with
          | None => Ret (None, chain, e)
          | Some bytes =>
              if auto_dedup && negb (disable_dedup pr) then
                let '(r, d) := punch_hole (DedupState (bunch pr) (fallocs e) []) (u64 (pi_off pr)) len false in
                let e := env_set_fallocs (ds_fallocs d) e in
                let chain := set_bunch (ds_bunch d) pr :: parents in
                if r =? -1 then Ret (None, chain, e) else Ret (Some (ws ++ [(buf, bytes)]), chain, e)
              else Ret (Some (ws ++ [(buf, bytes)]), chain, e)
          end
      end.

(** On both paths the file offset moves on, also after an error. *)
Definition move_pi_off (len : Z) (chain : list page_read) : list page_read :=
  match chain with [] => [] | pr :: parents => set_pi_off (s64 (pi_off pr + len)) pr :: parents end.

Definition is_async (flags : Z) : bool := Z.land flags (Z.lor PR_ASYNC PR_ASAP) =? PR_ASYNC.

(** Queueing on the reader's own queue. *)
Definition enqueue_own (chain : list page_read) (e : env) (buf len : Z) : result :=
  match chain with
  | [] => Bug
  | pr :: parents =>
      let! (ret, q, al) := pagemap_enqueue_iovec parallel true (allocs e) pr buf len (async pr) in
      Ret (if ret =? 0 then Some [] else None, set_async q pr :: parents, env_set_allocs al e)
  end.

Definition maybe_read_page_local (file : list Z) (chain : list page_read) (e : env) (nr buf flags : Z) : result :=
  let len := u64 (nr * PAGE_SIZE) in
  let! (ret, chain, e) :=
    if is_async flags then enqueue_own chain e buf len else read_local_page file chain e len buf in
  Ret (ret, move_pi_off len chain, e).

Definition skip_compressed_offsets (pr : page_read) (nr : Z) : outcome page_read :=
  let '(ret, pr) := advance_compressed_offsets pr nr in
  if ret =? 0 then Ret pr else Bug.

Definition can_async (pe : pagemap_entry) (pr : page_read) (nr : Z) : bool :=
  let block_pages := pagemap_block_pages pe in
  let pages_consumed := u64 (block_idx (blk pr) * block_pages) in
  let end_page := u64 (pages_consumed + nr) in
  (block_offset (blk pr) =? 0) && ((nr mod block_pages =? 0) || (end_page =? pe_nr_pages pe)).

(** [io_complete] is NULL in these readers. *)
Definition maybe_read_page_local_compressed (file : list Z) (chain : list page_read) (e : env)
    (vaddr nr buf flags : Z) : result :=
  match chain with
  | [] => Bug
  | pr :: parents =>
      match pr_pe pr with
      | None => Bug
      | Some pe =>
          match pe_blocks pe with
          | None => maybe_read_page_local file chain e nr buf flags
          | Some _ =>
              if pagemap_block_pages pe >? MAX_BLOCK_PAGES then Ret (None, chain, e)
              else if is_async flags && can_async pe pr nr then
                let! (ret, chain, e) := enqueue_own chain e buf (u64 (nr * PAGE_SIZE)) in
                match ret, chain with
                | Some w, pr :: parents =>
                    let! pr := skip_compressed_offsets pr nr in Ret (Some w, pr :: parents, e)
                | _, _ => Ret (None, chain, e)
                end
              else
                let '(ok, e) := env_rawfd e in
                if negb ok then Ret (None, chain, e)
                else
                  let! (r, ws, chain, e) := sync chain e in
                  if negb (r =? 0) then Ret (None, chain, e)
                  else
                    match chain with
                    | [] => Bug
                    | pr :: parents =>
                        let! (got, pr, e) := read_compressed_pages lz4 file e pe pr vaddr nr in
                        Ret ((fun bytes => ws ++ [(buf, bytes)]) <$> got, pr :: parents, e)
                    end
          end
      end
  end.

(** [read] is the parent's [read_pages]; [chain] starts at the parent. *)
Fixpoint read_parent_loop (read : list page_read -> env -> Z -> Z -> Z -> result) (fuel : nat)
    (chain : list page_read) (e : env) (vaddr nr buf : Z) : result :=
  match fuel, chain with
  | O, _ => NoFuel
  | S _, [] => Ret (None, [], e)
  | S fuel, ppr :: parents =>
      let! (ret, ppr) := seek_pagemap ppr vaddr in
      if ret <=? 0 then Ret (None, ppr :: parents, e)
      else
        match pr_pe ppr with
        | None => Bug
        | Some ppe =>
            let p_nr := u64 (pe_nr_pages ppe - u64 (vaddr - pe_vaddr ppe) / PAGE_SIZE) in
            let p_nr := if p_nr >? nr then nr else p_nr in
            let! (ret, chain, e) := read (ppr :: parents) e vaddr p_nr buf in
            match ret with
            | None => Ret (None, chain, e)
            | Some w =>
                let nr := u64 (nr - p_nr) in
                if nr =? 0 then Ret (Some w, chain, e)
                else
                  let! (ret, chain, e) :=
                    read_parent_loop read fuel chain e (u64 (vaddr + p_nr * PAGE_SIZE)) nr
                      (u64 (buf + p_nr * PAGE_SIZE)) in
                  Ret (app w <$> ret, chain, e)
            end
        end
  end.

Definition move_cvaddr (len : Z) (chain : list page_read) : list page_read :=
  match chain with [] => [] | pr :: parents => set_cvaddr (u64 (cvaddr pr + len)) pr :: parents end.

(** One pages image per reader of the chain, the youngest first. *)
Fixpoint read_pagemap_page (files : list (list Z)) (flags : Z) (chain : list page_read) (e : env)
    (vaddr nr buf : Z) : result :=
  match files, chain with
  | file :: files, pr :: parents =>
      match pr_pe pr with
      | None => Bug
      | Some pe =>
          if negb (pagemap_bound_check pe vaddr nr) then Bug
          else
            let! (ret, chain, e) :=
              if pagemap_in_parent pe then
                let! (ret, parents, e) :=
                  read_parent_loop (read_pagemap_page files flags) (S (Z.to_nat nr)) parents e vaddr nr buf in
                Ret (ret, pr :: parents, e)
              else maybe_read_page_local_compressed file chain e vaddr nr buf flags in
            match ret with
            | None => Ret (None, chain, e)
            | Some w => Ret (Some w, move_cvaddr (u64 (nr * PAGE_SIZE)) chain, e)
            end
      end
  | _, _ => Bug
  end.
End Read.

(** ** What a page of the chain contains *)

(** Where the image of a snapshot keeps page [k] of its entry [i]. *)
Definition entry_src (l : list pagemap_entry) (i : nat) (pe : pagemap_entry) (k : Z) : page_src :=
  match pe_blocks pe with
  | Some b => image_src pe b (payload_start l i) k
  | None => SRaw (payload_start l i + k * PAGE_SIZE)
  end.

(** A snapshot: its pagemap and its pages image. *)
Definition snapshot := (list pagemap_entry * list Z)%type.

Inductive page_content (lz4 : list Z -> Z -> option (list Z)) : list snapshot -> Z -> list Z -> Prop :=
| content_here l file parents i pe k bytes :
    l !! i = Some pe -> 0 <= k < pe_nr_pages pe -> pagemap_in_parent pe = false -> pagemap_present pe = true ->
    src_bytes lz4 file (entry_src l i pe k) = Some bytes ->
    page_content lz4 ((l, file) :: parents) (pe_vaddr pe + k * PAGE_SIZE) bytes
| content_parent l file parents i pe k bytes :
    l !! i = Some pe -> 0 <= k < pe_nr_pages pe -> pagemap_in_parent pe = true ->
    page_content lz4 parents (pe_vaddr pe + k * PAGE_SIZE) bytes ->
    page_content lz4 ((l, file) :: parents) (pe_vaddr pe + k * PAGE_SIZE) bytes.

(** The pages of a request. *)
Definition page_addrs (vaddr nr : Z) : list Z := (fun j => vaddr + j * PAGE_SIZE) <$> seqZ 0 nr.
Definition contents (lz4 : list Z -> Z -> option (list Z)) (imgs : list snapshot) (c : Z -> list Z) (vaddr nr : Z) : Prop :=
  forall j, 0 <= j < nr -> page_content lz4 imgs (vaddr + j * PAGE_SIZE) (c (vaddr + j * PAGE_SIZE)).

(** The writes fill the memory from [buf] on, without gap. *)
Fixpoint filled (buf : Z) (w : list write) : Prop :=
  match w with
  | [] => True
  | (a, bytes) :: w => a = buf /\ filled (buf + zlen bytes) w
  end.
Definition written (w : list write) : list Z := concat (snd <$> w).

Lemma page_addrs_app vaddr n m : 0 <= n -> 0 <= m ->
  page_addrs vaddr (n + m) = page_addrs vaddr n ++ page_addrs (vaddr + n * PAGE_SIZE) m.
Proof.
  intros Hn Hm. unfold page_addrs. rewrite seqZ_app by done. rewrite fmap_app. f_equal.
  rewrite Z.add_0_l. rewrite <- (Z.add_0_r n) at 1. rewrite <- fmap_add_seqZ, <- list_fmap_compose.
  apply list_fmap_ext. intros ? x _. simpl. lia.
Qed.

Lemma filled_app w1 w2 : forall buf, filled buf w1 -> filled (buf + zlen (written w1)) w2 -> filled buf (w1 ++ w2).
Proof.
  induction w1 as [|[a bytes] w1 IH]; intros buf H1 H2; simpl in *.
  - by rewrite Z.add_0_r in H2.
  - destruct H1 as [-> H1]. split; [done|]. apply IH; [done|].
    unfold written in *. simpl in H2. rewrite zlen_app in H2. by rewrite <- Z.add_assoc.
Qed.

Lemma written_app w1 w2 : written (w1 ++ w2) = written w1 ++ written w2.
Proof. unfold written. by rewrite fmap_app, concat_app. Qed.

Lemma src_bytes_length lz4 file s x : src_bytes lz4 file s = Some x ->
  (forall o size pages j, s = SBlock o size pages j -> 0 <= j < pages) -> zlen x = PAGE_SIZE.
Proof.
  intros H Hj. destruct s as [o|o size pages j]; [by apply slice_length in H|]. specialize (Hj _ _ _ _ eq_refl).
  unfold src_bytes in H. destruct (size =? 0); [by injection H as <-|].
  destruct (size =? pages * PAGE_SIZE); [by apply slice_length in H|].
  destruct (slice file o size) as [c|]; [|done]. unfold decompress_data_nolog in H.
  destruct (lz4 c (pages * PAGE_SIZE)) as [out|]; [|done].
  destruct (Z.eqb_spec (zlen out) (pages * PAGE_SIZE)) as [Hl|]; [|done]. injection H as <-.
  unfold zlen, PAGE_SIZE in *. rewrite length_take, length_drop. lia.
Qed.

(** Reading several pages whose contents are known. *)
Lemma pages_bytes_contents lz4 file (s : Z -> page_src) (x : Z -> list Z) l :
  (forall j, j ∈ l -> src_bytes lz4 file (s j) = Some (x j)) ->
  pages_bytes lz4 file (s <$> l) = Some (concat (x <$> l)).
Proof.
  induction l as [|j l IH]; intros H; [done|]. rewrite !fmap_cons. cbn [pages_bytes concat].
  rewrite H by apply list_elem_of_here. rewrite IH; [done|]. intros k Hk. apply H. by apply list_elem_of_further.
Qed.

Lemma slice_raw_pages lz4 file o n : 0 <= o -> 0 < n ->
  pages_bytes lz4 file ((fun j => SRaw (o + j * PAGE_SIZE)) <$> seqZ 0 n) = slice file o (n * PAGE_SIZE).
Proof.
  intros Ho Hn. assert (E := raw_pages_iff lz4 file o (n * PAGE_SIZE) n Ho ltac:(unfold PAGE_SIZE in *; lia) 0 n
    ltac:(unfold PAGE_SIZE in *; lia) eq_refl ltac:(lia) Hn).
  rewrite Z.mul_0_l, Z.add_0_r in E. rewrite <- E.
  generalize (seqZ 0 n). intros l. induction l as [|j l IH]; [done|]. rewrite !fmap_cons. cbn [pages_bytes].
  rewrite IH. f_equal. unfold src_bytes. destruct (Z.eqb_spec (n * PAGE_SIZE) 0); [unfold PAGE_SIZE in *; lia|].
  by rewrite Z.eqb_refl.
Qed.

(** ** Reading from the reader's own image *)
Lemma local_pread_loop_ok file len off : 0 <= off -> forall fuel e acc,
  (Z.to_nat (len - zlen acc) <= fuel)%nat -> prefix_of file off acc -> zlen acc < len ->
  exists r e', local_pread_loop fuel e file len off acc = Ret (r, e') /\ env_rest e' = env_rest e /\
    (forall bytes, r = Some bytes -> slice file off len = Some bytes) /\
    (preads e = [] -> preads e' = [] /\ r = slice file off len).
Proof.
  intros Ho. induction fuel as [|fuel IH]; intros e acc Hf Ha Hlt; [lia|]. cbn [local_pread_loop].
  destruct (pread e file (len - zlen acc) (off + zlen acc)) as [[ret got] e1] eqn:Ep.
  destruct (pread_step _ _ _ _ _ _ _ _ Ho Ha Hlt Ep) as (Er & _ & En & [[Hneg Hdec]|(-> & Hgot & Hacc & Hz)]).
  { destruct (Z.ltb_spec ret 1); [|lia]. eexists _, _. split; [done|]. split; [done|]. split; [done|].
    intros E. rewrite E in Hdec. simpl in Hdec. lia. }
  pose proof (zlen_nonneg got). pose proof (zlen_nonneg acc). destruct (Z.ltb_spec (zlen got) 1) as [H1|H1].
  { eexists _, _. split; [done|]. split; [done|]. split; [done|]. intros E. rewrite (Hz E) by lia. split; [by apply En|done]. }
  rewrite zlen_app. destruct (Z.eqb_spec (zlen acc + zlen got) len) as [Heq|Hne].
  - assert (Hs : slice file off len = Some (acc ++ got)) by (apply prefix_slice; [lia|done|done|by rewrite zlen_app]).
    eexists _, _. split; [done|]. split; [done|]. split; [by intros ? [= <-]|]. rewrite Hs. auto.
  - destruct (IH e1 (acc ++ got)) as (r & e' & -> & A & B & C); [rewrite zlen_app; lia|done|rewrite zlen_app; lia|].
    exists r, e'. split; [done|]. split; [by rewrite A|]. split; [done|]. intros E. by apply C, En.
Qed.

#[local] Arguments local_pread_loop : simpl never.

(** A reader in working order over its image. *)
Record reader_ok (lz4 : list Z -> Z -> option (list Z)) (file : list Z) (pr : page_read) : Prop := ReaderOk {
  ro_pmes : pagemaps_ok (pmes pr);
  ro_cursor : cursor_ok pr;
  ro_cache : cache_ok lz4 file pr;
  ro_idle : idle pr
}.

Lemma at_entry_bunch bn pr i pe k : at_entry pr i pe k -> at_entry (set_bunch bn pr) i pe k.
Proof. by intros []. Qed.

Lemma reader_ok_bunch lz4 file pr pr' : bunch_frame pr pr' -> reader_ok lz4 file pr -> reader_ok lz4 file pr'.
Proof.
  intros [bn ->] [H1 H2 H3 H4]. split; try done.
  destruct H2 as [A B C D|i pe k Hat Hc|i pe Hat Hl Hc];
    [by apply cursor_reset|by apply (cursor_at _ i pe k); [apply at_entry_bunch|]|].
  by apply (cursor_done _ i pe); [apply at_entry_bunch|..].
Qed.

Lemma chain_ok_bunch lz4 files : forall chain chain',
  Forall2 (reader_ok lz4) files chain -> Forall2 bunch_frame chain chain' ->
  Forall2 (reader_ok lz4) files chain' /\ pmes <$> chain' = pmes <$> chain /\
  cvaddr <$> chain' = cvaddr <$> chain.
Proof.
  induction files as [|file files IH]; intros chain chain' H1 H2; inversion H1 as [|? pr ? rest Hr Hrs]; subst;
    inversion H2 as [|? pr' ? rest' Hb Hbs]; subst; [done|].
  destruct (IH _ _ Hrs Hbs) as (A & B & C). split; [constructor; [by eapply reader_ok_bunch|done]|].
  rewrite !fmap_cons, B, C. by destruct Hb as [bn ->].
Qed.

Lemma chain_idle lz4 files chain : Forall2 (reader_ok lz4) files chain -> Forall idle chain.
Proof. induction 1 as [|file pr files chain Hr _ IH]; constructor; [apply Hr|done]. Qed.

Lemma env_rawfd_ok e ok e' : env_rawfd e = (ok, e') -> env_ok e -> ok = true /\ env_ok e'.
Proof.
  unfold env_rawfd. destruct (xalloc (rawfds e)) as [b l] eqn:E. intros [= <- <-] [[= Ha Hf Hr] Hp].
  rewrite Hr in E. injection E as <- <-. split; [done|]. unfold env_ok, env_rest. simpl. by rewrite Ha, Hf.
Qed.

Section ReadOk.
Context {Sy : Sync} {Law : SyncIdle Sy} (lz4 : list Z -> Z -> option (list Z)) (parallel : bool).
Abbreviation chain_ok := (Forall2 (reader_ok lz4)).

(** The reader has just served [nr] pages from page [k] of entry [i]. *)
Record served (file : list Z) (pr pr' : page_read) (i : nat) (pe : pagemap_entry) (k nr : Z) : Prop := Served {
  sv_ok : reader_ok lz4 file (set_cvaddr (u64 (cvaddr pr' + u64 (nr * PAGE_SIZE))) pr');
  sv_pmes : pmes pr' = pmes pr;
  sv_cvaddr : u64 (cvaddr pr' + u64 (nr * PAGE_SIZE)) = cvaddr pr + nr * PAGE_SIZE
}.

Lemma served_intro file pr pr' i pe k nr : reader_ok lz4 file pr -> at_entry pr i pe k -> curr_pme pr = Z.of_nat i ->
  0 <= nr -> k + nr <= pe_nr_pages pe ->
  pmes pr' = pmes pr -> pr_pe pr' = pr_pe pr -> cvaddr pr' = cvaddr pr -> curr_pme pr' = curr_pme pr ->
  idle pr' -> cache_ok lz4 file pr' -> pos_of pr' = entry_pos pe (payload_start (pmes pr) i) (k + nr) ->
  served file pr pr' i pe k nr.
Proof.
  intros [R1 R2 R3 R4] [A1 A2 A3 A4 A5] Hc Hn Hle E1 E2 E3 E4 E5 E6 E7.
  destruct (pagemaps_ok_lookup _ i pe R1 A1) as ((_ & _ & _ & Hv & _ & He & _) & _). unfold entry_end in He.
  assert (Hcv : u64 (cvaddr pr' + u64 (nr * PAGE_SIZE)) = cvaddr pr + nr * PAGE_SIZE).
  { rewrite E3, A4. unfold PAGE_SIZE in *. rewrite (u64_small (nr * _)), u64_small by lia. done. }
  split; [|done|done]. split; simpl; [by rewrite E1| |done|done].
  apply (cursor_at _ i pe (k + nr)); simpl; [|by rewrite E4].
  split; simpl; [by rewrite E1|by rewrite E2|lia| |by rewrite E1]. rewrite Hcv, A4. lia.
Qed.

Lemma entry_pos_raw pe start k : pagemap_present pe = true -> pe_blocks pe = None ->
  entry_pos pe start k = (start + k * PAGE_SIZE, 0, 0).
Proof. intros Hp Eb. unfold entry_pos. by rewrite Hp, Eb. Qed.

Lemma raw_read_ok files file pr parents e i pe k nr buf flags bytes :
  chain_ok (file :: files) (pr :: parents) -> is_async flags = false ->
  at_entry pr i pe k -> curr_pme pr = Z.of_nat i -> pagemap_present pe = true -> pe_blocks pe = None ->
  0 < nr -> k + nr <= pe_nr_pages pe ->
  slice file (payload_start (pmes pr) i + k * PAGE_SIZE) (nr * PAGE_SIZE) = Some bytes ->
  exists r chain' e', maybe_read_page_local parallel false file (pr :: parents) e nr buf flags = Ret (r, chain', e') /\
    (r <> None -> r = Some [(buf, bytes)] /\ exists pr' parents', chain' = pr' :: parents' /\
      served file pr pr' i pe k nr /\ Forall2 bunch_frame parents parents') /\
    (env_ok e -> env_ok e' /\ r <> None).
Proof.
  intros Hch Hfl Hat Hcur Hp Eb Hn Hle Hs. unfold maybe_read_page_local. rewrite Hfl.
  pose proof Hat as [A1 A2 A3 A4 A5]. inversion Hch as [|? ? ? ? Hro Hros]; subst. pose proof Hro as [R1 R2 R3 R4].
  destruct (pagemaps_ok_lookup _ i pe R1 A1) as ((_ & _ & _ & Hv & _ & He & _) & _ & Hst & Hmax & _).
  unfold entry_end in He. unfold entry_payload in Hmax. rewrite Hp, Eb in Hmax. unfold OFF_MAX in Hmax.
  rewrite (u64_small (nr * PAGE_SIZE)) by (unfold PAGE_SIZE in *; lia). unfold read_local_page.
  destruct (env_rawfd e) as [ok e1] eqn:Ef. pose proof (env_rawfd_ok _ _ _ Ef) as Hfd.
  destruct ok; simpl; [|eexists _, _, _; split; [done|]; split; [done|]; intros Hev; by destruct (Hfd Hev)].
  destruct (sync_idle (pr :: parents) e1 (chain_idle _ _ _ Hch)) as (r & chain & e2 & -> & Hb & Hsy). simpl.
  destruct (Z.eqb_spec r 0) as [->|Hr]; simpl;
    [|eexists _, _, _; split; [done|]; split; [done|]; intros Hev; destruct (Hsy (proj2 (Hfd Hev))); by destruct Hr].
  inversion Hb as [|? pr1 ? parents1 [bn Hbn] Hbs]; subst.
  rewrite (entry_pos_raw pe _ k Hp Eb) in A5. unfold pos_of in A5. injection A5 as Hpi Hbi Hbo.
  cbn [pi_off set_bunch]. rewrite Hpi.
  destruct (local_pread_loop_ok file (nr * PAGE_SIZE) (payload_start (pmes pr) i + k * PAGE_SIZE)
    ltac:(unfold PAGE_SIZE in *; lia) (S (Z.to_nat (nr * PAGE_SIZE))) e2 [])
    as (got & e3 & -> & Er & H1 & H2); [unfold zlen; simpl; lia|done|unfold zlen, PAGE_SIZE; simpl; lia|].
  simpl. destruct got as [x|]; simpl.
  - eexists _, _, _. split; [done|]. rewrite (H1 x eq_refl) in Hs. injection Hs as <-. split.
    + intros _. split; [done|]. eexists _, _. split; [done|]. split; [|done].
      apply served_intro; try done; [lia|].
      rewrite (entry_pos_raw pe _ _ Hp Eb). unfold pos_of. simpl. rewrite Hbi, Hbo.
      rewrite s64_small by (unfold PAGE_SIZE in *; lia). do 2 f_equal. lia.
    + intros Hev. destruct (Hsy (proj2 (Hfd Hev))) as [_ [E1 E2]]. destruct (H2 E2). split; [|done].
      split; [by rewrite Er|done].
  - eexists _, _, _. split; [done|]. split; [done|]. intros Hev.
    destruct (Hsy (proj2 (Hfd Hev))) as [_ [E1 E2]]. destruct (H2 E2) as [_ E3]. by rewrite <- E3 in Hs.
Qed.

Lemma packed_read_ok files file pr parents e i pe b k nr buf flags bytes :
  chain_ok (file :: files) (pr :: parents) -> is_async flags = false ->
  at_entry pr i pe k -> curr_pme pr = Z.of_nat i -> pagemap_present pe = true -> pe_blocks pe = Some b ->
  0 < nr -> k + nr <= pe_nr_pages pe ->
  pages_bytes lz4 file (image_src pe b (payload_start (pmes pr) i) <$> seqZ k nr) = Some bytes ->
  exists r chain' e', maybe_read_page_local_compressed lz4 parallel false file (pr :: parents) e (cvaddr pr) nr buf flags
      = Ret (r, chain', e') /\
    (r <> None -> r = Some [(buf, bytes)] /\ exists pr' parents', chain' = pr' :: parents' /\
      served file pr pr' i pe k nr /\ Forall2 bunch_frame parents parents') /\
    (env_ok e -> env_ok e' /\ r <> None).
Proof.
  intros Hch Hfl Hat Hcur Hp Eb Hn Hle Hs. unfold maybe_read_page_local_compressed.
  pose proof Hat as [A1 A2 A3 A4 A5]. inversion Hch as [|? ? ? ? Hro Hros]; subst. pose proof Hro as [R1 R2 R3 R4].
  destruct (pagemaps_ok_lookup _ i pe R1 A1) as (Hpe & _).
  pose proof (entry_blocks_ok pe b Hpe Eb) as Hb. rewrite A2, Eb.
  rewrite (pagemap_block_pages_ok _ pe b Eb Hb), Z.gtb_ltb.
  destruct (Z.ltb_spec MAX_BLOCK_PAGES (pages_per_block b)); [destruct Hb; lia|]. rewrite Hfl. cbn [andb].
  destruct (env_rawfd e) as [ok e1] eqn:Ef. pose proof (env_rawfd_ok _ _ _ Ef) as Hfd.
  destruct ok; simpl; [|eexists _, _, _; split; [done|]; split; [done|]; intros Hev; by destruct (Hfd Hev)].
  destruct (sync_idle (pr :: parents) e1 (chain_idle _ _ _ Hch)) as (r & chain & e2 & -> & Hbf & Hsy). simpl.
  destruct (Z.eqb_spec r 0) as [->|Hr]; simpl;
    [|eexists _, _, _; split; [done|]; split; [done|]; intros Hev; destruct (Hsy (proj2 (Hfd Hev))); by destruct Hr].
  inversion Hbf as [|? pr1 ? parents1 [bn Hbn] Hbs]; subst.
  destruct (read_compressed_pages_spec lz4 file e2 (set_bunch bn pr) i pe b k nr) as (got & pr2 & e3 & Hrd & F & Hc & H1 & H2);
    [done|by apply at_entry_bunch|done..|lia|done|].
  cbn [cvaddr set_bunch] in Hrd. rewrite Hrd. simpl in H1, H2. simpl.
  destruct F as (F1 & F2 & F3 & F4 & F5 & F6 & F7 & F8).
  eexists _, _, _. split; [done|]. split.
  - intros Hg. destruct got as [x|]; [|done]. destruct (H1 ltac:(done)) as [E1 E2]. rewrite Hs in E1.
    injection E1 as ->. split; [done|]. eexists _, _. split; [done|]. split; [|done].
    apply served_intro; try done; [lia|]. unfold idle. rewrite F6. by destruct R4.
  - intros Hev. destruct (Hsy (proj2 (Hfd Hev))) as [_ Hev2]. destruct (H2 Hev2) as [E1 ->]. rewrite Hs.
    split; [done|]. done.
Qed.

(** Both kinds of entries, in terms of the contents of the pages. *)
Lemma local_read_ok files file pr parents e i pe k nr buf flags (c : Z -> list Z) :
  chain_ok (file :: files) (pr :: parents) -> is_async flags = false ->
  at_entry pr i pe k -> curr_pme pr = Z.of_nat i -> pagemap_present pe = true ->
  0 < nr -> k + nr <= pe_nr_pages pe ->
  (forall j, 0 <= j < nr -> src_bytes lz4 file (entry_src (pmes pr) i pe (k + j)) = Some (c (cvaddr pr + j * PAGE_SIZE))) ->
  exists r chain' e', maybe_read_page_local_compressed lz4 parallel false file (pr :: parents) e (cvaddr pr) nr buf flags
      = Ret (r, chain', e') /\
    (r <> None -> r = Some [(buf, concat (c <$> page_addrs (cvaddr pr) nr))] /\
      exists pr' parents', chain' = pr' :: parents' /\
      served file pr pr' i pe k nr /\ Forall2 bunch_frame parents parents') /\
    (env_ok e -> env_ok e' /\ r <> None).
Proof.
  intros Hch Hfl Hat Hcur Hp Hn Hle Hc. pose proof Hat as [A1 A2 A3 A4 A5].
  inversion Hch as [|? ? ? ? Hro Hros]; subst. pose proof Hro as [R1 _ _ _].
  destruct (pagemaps_ok_lookup _ i pe R1 A1) as (_ & _ & Hst & _).
  unfold page_addrs. rewrite <- list_fmap_compose. unfold entry_src in Hc.
  destruct (pe_blocks pe) as [b|] eqn:Eb.
  - apply (packed_read_ok files file pr parents e i pe b k nr); try done.
    rewrite <- (Z.add_0_r k), <- fmap_add_seqZ, <- list_fmap_compose. apply pages_bytes_contents.
    intros j Hj%elem_of_seqZ. apply Hc. lia.
  - unfold maybe_read_page_local_compressed. rewrite A2, Eb.
    apply (raw_read_ok files file pr parents e i pe k nr); try done.
    rewrite <- (slice_raw_pages lz4) by (unfold PAGE_SIZE in *; lia). apply pages_bytes_contents.
    intros j Hj%elem_of_seqZ. rewrite <- Z.add_assoc, <- Z.mul_add_distr_r. apply Hc. lia.
Qed.

(** ** Reading through the chain *)
Lemma content_inv l file ps i pe k x : pagemaps_ok l -> l !! i = Some pe -> 0 <= k < pe_nr_pages pe ->
  page_content lz4 ((l, file) :: ps) (pe_vaddr pe + k * PAGE_SIZE) x ->
  if pagemap_in_parent pe then page_content lz4 ps (pe_vaddr pe + k * PAGE_SIZE) x
  else pagemap_present pe = true /\ src_bytes lz4 file (entry_src l i pe k) = Some x.
Proof.
  intros Hok Hi Hk Hc.
  assert (Hsame : forall i' q k', l !! i' = Some q -> 0 <= k' < pe_nr_pages q ->
    pe_vaddr q + k' * PAGE_SIZE = pe_vaddr pe + k * PAGE_SIZE -> i' = i /\ q = pe /\ k' = k).
  { intros i' q k' Hi' Hk' E. assert (i' = i) as ->.
    { apply (same_page l i' i q pe (pe_vaddr pe + k * PAGE_SIZE)); try done;
        unfold entry_end, PAGE_SIZE in *; lia. }
    assert (q = pe) as -> by congruence. unfold PAGE_SIZE in E. split_and!; (done || lia). }
  inversion Hc as [? ? ? i' q k' ? Hi' Hk' Hin Hp Hb Hl Hv|? ? ? i' q k' ? Hi' Hk' Hin Hb Hl Hv]; subst;
    destruct (Hsame i' q k' Hi' Hk' Hv) as (-> & -> & ->).
  - by rewrite Hin.
  - by rewrite Hin.
Qed.

Lemma content_has_page l file ps v x : page_content lz4 ((l, file) :: ps) v x -> has_page l v.
Proof.
  intros Hc. inversion Hc as [? ? ? i q k ? Hi Hk|? ? ? i q k ? Hi Hk]; subst; exists q;
    (split; [by eapply list_elem_of_lookup_2|unfold in_entry, entry_end, PAGE_SIZE; lia]).
Qed.

Definition images (files : list (list Z)) (chain : list page_read) : list snapshot := zip (pmes <$> chain) files.

Context (c : Z -> list Z).

(** The request has been served. *)
Record read_done (files : list (list Z)) (chain chain' : list page_read) (vaddr nr buf : Z) (w : list write) : Prop := ReadDone {
  rd_ok : chain_ok files chain';
  rd_pmes : pmes <$> chain' = pmes <$> chain;
  rd_cursors : Forall (fun pr => cvaddr pr <= vaddr + nr * PAGE_SIZE) chain';
  rd_filled : filled buf w;
  rd_len : zlen (written w) = nr * PAGE_SIZE;
  rd_bytes : written w = concat (c <$> page_addrs vaddr nr)
}.

(** A request the head of the chain stands ready for. *)
Record request_ok (files : list (list Z)) (chain : list page_read) (vaddr nr buf : Z) : Prop := RequestOk {
  rk_ok : chain_ok files chain;
  rk_cursors : Forall (fun pr => cvaddr pr <= vaddr) chain;
  rk_nr : 0 < nr;
  rk_vaddr : 0 <= vaddr /\ vaddr mod PAGE_SIZE = 0 /\ vaddr + nr * PAGE_SIZE < 2 ^ 64;
  rk_buf : 0 <= buf /\ buf + nr * PAGE_SIZE < 2 ^ 64;
  rk_contents : contents lz4 (images files chain) c vaddr nr
}.

(** What a read of pages promises. *)
Definition reads (files : list (list Z)) (read : list page_read -> env -> Z -> Z -> Z -> result) : Prop :=
  forall chain e vaddr nr buf pr parents i pe k,
    request_ok files chain vaddr nr buf -> chain = pr :: parents ->
    at_entry pr i pe k -> curr_pme pr = Z.of_nat i -> cvaddr pr = vaddr -> k + nr <= pe_nr_pages pe ->
    exists r chain' e', read chain e vaddr nr buf = Ret (r, chain', e') /\
      (forall w, r = Some w -> read_done files chain chain' vaddr nr buf w) /\
      (env_ok e -> env_ok e' /\ r <> None).

Lemma entry_src_length file l i pe k x : pagemaps_ok l -> l !! i = Some pe -> 0 <= k < pe_nr_pages pe ->
  src_bytes lz4 file (entry_src l i pe k) = Some x -> zlen x = PAGE_SIZE.
Proof.
  intros Hok Hi Hk H. apply (src_bytes_length _ _ _ _ H). unfold entry_src, image_src.
  destruct (pagemaps_ok_lookup _ i pe Hok Hi) as (Hpe & _).
  destruct (pe_blocks pe) as [b|] eqn:Eb; [|done]. intros ? ? ? ? [= <- <- <- <-].
  by destruct (page_in_block pe b Hpe Eb k Hk) as (_ & _ & ?).
Qed.

Lemma length_page_contents vaddr nr : (forall j, 0 <= j < nr -> zlen (c (vaddr + j * PAGE_SIZE)) = PAGE_SIZE) -> 0 <= nr ->
  zlen (concat (c <$> page_addrs vaddr nr)) = nr * PAGE_SIZE.
Proof.
  intros Hc Hn. rewrite <- (Z2Nat.id nr) by done. rewrite <- (Z2Nat.id nr) in Hc by done. clear Hn.
  induction (Z.to_nat nr) as [|n IH]; [done|]. replace (Z.of_nat (S n)) with (Z.of_nat n + 1) in * by lia.
  rewrite page_addrs_app, fmap_app, concat_app, zlen_app, IH by (lia || (intros; apply Hc; lia)).
  unfold page_addrs. rewrite seqZ_cons by lia. rewrite !fmap_cons. cbn [concat]. simpl (seqZ _ (Z.pred 1)).
  rewrite zlen_app, Z.mul_0_l, !Z.add_0_r, (Hc (Z.of_nat n)) by lia. lia.
Qed.

Lemma read_done_app files chain1 chain2 chain3 vaddr n m buf w1 w2 : 0 <= n -> 0 <= m ->
  read_done files chain1 chain2 vaddr n buf w1 ->
  read_done files chain2 chain3 (vaddr + n * PAGE_SIZE) m (buf + n * PAGE_SIZE) w2 ->
  read_done files chain1 chain3 vaddr (n + m) buf (w1 ++ w2).
Proof.
  intros Hn Hm [A1 A2 A3 A4 AL A5] [B1 B2 B3 B4 BL B5]. split; [done|congruence| | | |].
  - eapply Forall_impl; [exact B3|]. intros pr Hpr. simpl in Hpr. lia.
  - apply filled_app; [done|]. by rewrite AL.
  - rewrite written_app, zlen_app, AL, BL. lia.
  - by rewrite written_app, A5, B5, page_addrs_app, fmap_app, concat_app.
Qed.

Lemma images_pmes files chain chain' : pmes <$> chain' = pmes <$> chain -> images files chain' = images files chain.
Proof. unfold images. by intros ->. Qed.

(** The rest of a request after its first [n] pages. *)
Lemma request_rest files chain chain' vaddr n nr buf w : 0 <= n < nr ->
  request_ok files chain vaddr nr buf -> read_done files chain chain' vaddr n buf w ->
  request_ok files chain' (vaddr + n * PAGE_SIZE) (nr - n) (buf + n * PAGE_SIZE).
Proof.
  intros Hn [A1 A2 A3 (V1 & V2 & V3) A5 A6] [B1 B2 B3 B4 B5 B6]. unfold PAGE_SIZE in *.
  split; [done|done|lia| |unfold PAGE_SIZE; lia|].
  - unfold PAGE_SIZE. split_and!; [lia| |lia]. rewrite Z.mod_add by lia. done.
  - intros j Hj. rewrite (images_pmes _ _ _ B2). unfold PAGE_SIZE in *.
    replace (vaddr + n * 4096 + j * 4096) with (vaddr + (n + j) * 4096) by lia. apply A6. lia.
Qed.

(** The head of the chain moved to the entry of the first page. *)
Lemma request_seek files ppr parents vaddr nr buf : request_ok files (ppr :: parents) vaddr nr buf ->
  exists ppr' i pe k, seek_pagemap ppr vaddr = Ret (1, ppr') /\ at_entry ppr' i pe k /\ curr_pme ppr' = Z.of_nat i /\
    cvaddr ppr' = vaddr /\ vaddr = pe_vaddr pe + k * PAGE_SIZE /\ 0 <= k < pe_nr_pages pe /\ entry_ok pe /\
    pmes ppr' = pmes ppr /\
    forall n, 0 < n <= nr -> request_ok files (ppr' :: parents) vaddr n buf.
Proof.
  intros [A1 A2 A3 (V1 & V2 & V3) A5 A6]. inversion A1 as [|file ? files' ? Hro Hros]; subst.
  pose proof Hro as [R1 R2 R3 R4]. apply Forall_cons_1 in A2 as [Hcv Hcvs].
  destruct (seek_pagemap_spec ppr vaddr R1 R2 V2 ltac:(unfold PAGE_SIZE in *; lia)) as (r & ppr' & Hs & [S1 S2 S3 S4 S5 S6 S7]).
  assert (Hr : r = 1).
  { apply S4. split; [done|]. specialize (A6 0 ltac:(lia)). rewrite Z.mul_0_l, Z.add_0_r in A6.
    exact (content_has_page _ _ _ _ _ A6). }
  subst r. destruct (S5 eq_refl) as (i & pe & Hat & Hc & Hin & Hv).
  destruct S2 as (P1 & P2 & P3 & P4 & P5). pose proof Hat as [L _ _ _ _]. rewrite P1 in L.
  destruct (pagemaps_ok_lookup _ i pe R1 L) as (Hpe & _).
  destruct (aligned_index pe vaddr Hpe Hin V2) as (k & Hk & Hkr & Ek). rewrite Ek in Hat.
  exists ppr', i, pe, k. split_and!; try done; try lia.
  intros n Hn. split; [|constructor; [lia|done]|lia|unfold PAGE_SIZE in *; lia|unfold PAGE_SIZE in *; lia|].
  - constructor; [|done]. split; [by rewrite P1|done|by eapply cache_ok_frame|]. unfold idle. by rewrite P3.
  - intros j Hj. rewrite (images_pmes _ (ppr :: parents)) by (rewrite !fmap_cons; by rewrite P1). apply A6. lia.
Qed.

(** The split of a request along the parent's entries. *)
Lemma read_parent_loop_ok files read : reads files read ->
  forall fuel chain e vaddr nr buf, request_ok files chain vaddr nr buf -> (Z.to_nat nr < fuel)%nat ->
  exists r chain' e', read_parent_loop read fuel chain e vaddr nr buf = Ret (r, chain', e') /\
    (forall w, r = Some w -> read_done files chain chain' vaddr nr buf w) /\
    (env_ok e -> env_ok e' /\ r <> None).
Proof.
  intros Hread. induction fuel as [|fuel IH]; intros chain e vaddr nr buf Hrq Hf; [lia|].
  cbn [read_parent_loop]. destruct chain as [|ppr parents].
  { pose proof (rk_contents _ _ _ _ _ Hrq 0 ltac:(pose proof (rk_nr _ _ _ _ _ Hrq); lia)) as Hc.
    unfold images in Hc. simpl in Hc. inversion Hc. }
  destruct (request_seek files ppr parents vaddr nr buf Hrq)
    as (ppr' & i & pe & k & -> & Hat & Hcur & Hcv & Hv & Hk & Hpe & Hpm & Hrq').
  pose proof (rk_nr _ _ _ _ _ Hrq) as Hn. destruct (rk_vaddr _ _ _ _ _ Hrq) as (V1 & V2 & V3).
  pose proof (rk_buf _ _ _ _ _ Hrq) as Hbuf.
  simpl. pose proof Hat as [_ -> _ _ _].
  destruct Hpe as (_ & _ & _ & Hpv & _ & He & _). unfold entry_end, PAGE_SIZE in He, Hv, V3, Hbuf.
  assert (Hp : u64 (pe_nr_pages pe - u64 (vaddr - pe_vaddr pe) / PAGE_SIZE) = pe_nr_pages pe - k).
  { rewrite (u64_small (vaddr - pe_vaddr pe)) by lia. replace (vaddr - pe_vaddr pe) with (k * PAGE_SIZE) by (unfold PAGE_SIZE; lia).
    rewrite Z.div_mul by done. rewrite u64_small by lia. done. }
  rewrite Hp, Z.gtb_ltb. set (p_nr := if nr <? pe_nr_pages pe - k then nr else pe_nr_pages pe - k).
  assert (Hpn : 0 < p_nr <= nr /\ k + p_nr <= pe_nr_pages pe).
  { unfold p_nr. destruct (Z.ltb_spec nr (pe_nr_pages pe - k)); lia. }
  clearbody p_nr. destruct Hpn as [Hpn Hkp]. specialize (Hrq' p_nr Hpn).
  destruct (Hread (ppr' :: parents) e vaddr p_nr buf ppr' parents i pe k Hrq' eq_refl Hat Hcur Hcv Hkp)
    as (r & chain' & e1 & -> & H1 & H2). simpl.
  destruct r as [w|]; [|eexists _, _, _; split; [done|]; split; [done|]; intros Hev; by destruct (H2 Hev)].
  specialize (H1 w eq_refl).
  assert (Hd1 : read_done files (ppr :: parents) chain' vaddr p_nr buf w).
  { destruct H1 as [B1 B2 B3 B4 B5 B6]. split; try done. rewrite B2, !fmap_cons. by rewrite Hpm. }
  rewrite (u64_small (nr - p_nr)) by lia. destruct (Z.eqb_spec (nr - p_nr) 0) as [Hz|Hz].
  { replace nr with p_nr by lia. eexists _, _, _. split; [done|]. split; [by intros ? [= <-]|]. intros Hev. by destruct (H2 Hev). }
  rewrite (u64_small (vaddr + _)), (u64_small (buf + _)) by (unfold PAGE_SIZE; lia).
  destruct (IH chain' e1 (vaddr + p_nr * PAGE_SIZE) (nr - p_nr) (buf + p_nr * PAGE_SIZE)) as (r & chain2 & e2 & -> & H3 & H4);
    [eapply request_rest; [lia|done|done]|lia|].
  simpl. eexists _, _, _. split; [done|]. split.
  - intros w' Hw. destruct r as [w2|]; [|done]. injection Hw as <-. specialize (H3 w2 eq_refl).
    replace nr with (p_nr + (nr - p_nr)) by lia. eapply read_done_app; [lia|lia|done|done].
  - intros Hev. destruct (H2 Hev) as [Hev1 _]. destruct (H4 Hev1) as [? Hr]. split; [done|]. by destruct r.
Qed.

Lemma bound_check_ok pe k nr : entry_ok pe -> 0 <= k -> 0 < nr -> k + nr <= pe_nr_pages pe ->
  pagemap_bound_check pe (pe_vaddr pe + k * PAGE_SIZE) nr = true.
Proof.
  intros (_ & _ & _ & Hpv & _ & He & _) Hk Hn Hle. unfold pagemap_bound_check, entry_end, PAGE_SIZE in *.
  replace (pe_vaddr pe + k * 4096 - pe_vaddr pe) with (k * 4096) by lia. rewrite (u64_small (k * 4096)) by lia.
  rewrite Z.div_mul by lia. rewrite u64_small by lia. rewrite Z.gtb_ltb.
  destruct (Z.ltb_spec (pe_vaddr pe + k * 4096) (pe_vaddr pe)); [lia|].
  destruct (Z.ltb_spec (pe_nr_pages pe) (k + nr)); [lia|]. done.
Qed.

(** The chain after its head served [nr] pages. *)
Lemma head_served file files pr pr' parents parents' i pe k vaddr nr :
  served file pr pr' i pe k nr -> chain_ok files parents' -> pmes <$> parents' = pmes <$> parents ->
  Forall (fun q => cvaddr q <= vaddr + nr * PAGE_SIZE) parents' -> cvaddr pr = vaddr ->
  let chain' := move_cvaddr (u64 (nr * PAGE_SIZE)) (pr' :: parents') in
  chain_ok (file :: files) chain' /\ pmes <$> chain' = pmes <$> (pr :: parents) /\
  Forall (fun q => cvaddr q <= vaddr + nr * PAGE_SIZE) chain'.
Proof.
  intros [S1 S2 S3] Hch Hpm Hcv <-. cbv zeta. unfold move_cvaddr. split; [by constructor|].
  split; [rewrite !fmap_cons, Hpm; cbn [pmes set_cvaddr]; by rewrite S2|].
  constructor; [cbn [cvaddr set_cvaddr]; lia|done].
Qed.

Lemma cursors_mono vaddr v' l : vaddr <= v' -> Forall (fun q => cvaddr q <= vaddr) l -> Forall (fun q => cvaddr q <= v') l.
Proof. intros Hv H. eapply Forall_impl; [exact H|]. intros q Hq. simpl in Hq. lia. Qed.

Lemma read_pagemap_page_reads flags : is_async flags = false ->
  forall files, reads files (read_pagemap_page lz4 parallel false files flags).
Proof.
  intros Hfl. induction files as [|file files IH]; intros chain e vaddr nr buf pr parents i pe k Hrq -> Hat Hcur Hcv Hle.
  { destruct Hrq as [A1 _ _ _ _ _]. inversion A1. }
  pose proof Hrq as [A1 A2 A3 A4 A5 A6]. inversion A1 as [|? ? ? ? Hro Hros]; subst. pose proof Hro as [R1 R2 R3 R4].
  pose proof Hat as [L Hp Hk Hv Hpos]. destruct (pagemaps_ok_lookup _ i pe R1 L) as (Hpe & _).
  cbn [read_pagemap_page]. rewrite Hp, Hv, bound_check_ok by (done || lia). cbn [negb]. rewrite <- Hv.
  assert (Hcont : forall j, 0 <= j < nr -> page_content lz4 ((pmes pr, file) :: images files parents)
    (pe_vaddr pe + (k + j) * PAGE_SIZE) (c (cvaddr pr + j * PAGE_SIZE))).
  { intros j Hj. replace (pe_vaddr pe + (k + j) * PAGE_SIZE) with (cvaddr pr + j * PAGE_SIZE) by lia. by apply A6. }
  assert (Hinv : forall j, 0 <= j < nr -> if pagemap_in_parent pe
    then page_content lz4 (images files parents) (cvaddr pr + j * PAGE_SIZE) (c (cvaddr pr + j * PAGE_SIZE))
    else pagemap_present pe = true /\ src_bytes lz4 file (entry_src (pmes pr) i pe (k + j)) = Some (c (cvaddr pr + j * PAGE_SIZE))).
  { intros j Hj. pose proof (content_inv _ file _ i pe (k + j) _ R1 L ltac:(lia) (Hcont j Hj)) as Hci.
    destruct (pagemap_in_parent pe); [|done].
    by replace (pe_vaddr pe + (k + j) * PAGE_SIZE) with (cvaddr pr + j * PAGE_SIZE) in Hci by lia. }
  apply Forall_cons_1 in A2 as [_ Hcvs]. destruct (pagemap_in_parent pe) eqn:Ein.
  - destruct (read_parent_loop_ok files _ IH (S (Z.to_nat nr)) parents e (cvaddr pr) nr buf) as (r & chain' & e' & -> & H1 & H2);
      [by split|lia|].
    simpl. destruct r as [w|]; [|eexists _, _, _; split; [done|]; split; [done|]; intros Hev; by destruct (H2 Hev)].
    eexists _, _, _. split; [done|]. split; [|by intros Hev; destruct (H2 Hev)].
    intros ? [= <-]. destruct (H1 w eq_refl) as [B1 B2 B3 B4 B5 B6].
    assert (Hnp : pagemap_present pe = false).
    { destruct (pagemap_present pe) eqn:E; [|done]. destruct Hpe as (_ & Hx & _). rewrite (Hx E) in Ein. done. }
    assert (Hsv : served file pr pr i pe k nr).
    { apply served_intro; try done; [lia|]. rewrite Hpos. unfold entry_pos. by rewrite Hnp. }
    destruct (head_served file files pr pr parents chain' i pe k (cvaddr pr) nr Hsv) as (E1 & E2 & E3); try done.
  - assert (Hpres : pagemap_present pe = true) by (apply (Hinv 0); lia).
    destruct (local_read_ok files file pr parents e i pe k nr buf flags c) as (r & chain' & e' & -> & H1 & H2); try done.
    { intros j Hj. by apply Hinv. }
    simpl. destruct r as [w|]; [|eexists _, _, _; split; [done|]; split; [done|]; intros Hev; by destruct (H2 Hev)].
    eexists _, _, _. split; [done|]. split; [|by intros Hev; destruct (H2 Hev)].
    intros ? [= <-]. destruct (H1 ltac:(done)) as [[= ->] (pr' & parents' & -> & Hsv & Hbf)].
    destruct (chain_ok_bunch lz4 files parents parents' Hros Hbf) as (C1 & C2 & C3).
    assert (Hcv' : Forall (fun q => cvaddr q <= cvaddr pr + nr * PAGE_SIZE) parents').
    { apply (cursors_mono (cvaddr pr)); [unfold PAGE_SIZE; lia|].
      apply (Forall_fmap cvaddr (fun v => v <= cvaddr pr)). rewrite C3. by apply Forall_fmap. }
    destruct (head_served file files pr pr' parents parents' i pe k (cvaddr pr) nr Hsv) as (E1 & E2 & E3); try done.
    split; try done.
    + unfold written. simpl. rewrite app_nil_r. apply length_page_contents; [|lia].
      intros j Hj. apply (entry_src_length file (pmes pr) i pe (k + j)); [done|done|lia|]. by apply Hinv.
    + unfold written. simpl. by rewrite app_nil_r.
Qed.
End ReadOk.

(** ** The queues implement the interface *)

(** The page a queued transfer stores. *)
Definition resolve (lz4 : list Z -> Z -> option (list Z)) (file : list Z) (t : Z * page_src) : Z * list Z := (t.1, default [] (src_bytes lz4 file t.2)).

(** What is queued in a chain, with the pages images of its readers. *)
Definition chain_owed (lz4 : list Z -> Z -> option (list Z)) (files : list (list Z)) (chain : list page_read) : list (Z * list Z) :=
  concat (zip_with (fun file pr => resolve lz4 file <$> queue_tasks (async pr)) files chain).

Lemma chain_owed_idle lz4 files chain : Forall idle chain -> chain_owed lz4 files chain = [].
Proof.
  intros H. revert files. induction H as [|pr chain Hi _ IH]; intros [|file files]; try done. unfold chain_owed in *. simpl. unfold idle in Hi. rewrite Hi. simpl. apply IH.
Qed.

Section QueueSync.
Context (lz4 : list Z -> Z -> option (list Z)) (files : list (list Z)).
Context (preadv : nat -> Z -> Z -> Z) (decode : nat -> page_read_iov -> bool).
Context (partial auto_dedup ctx_ok : bool).

(** [files]: the pages images of the whole chain, of which the readers at hand
    are the last.  A successful call has carried out every job. *)
#[local] Instance queue_sync : Sync := fun chain e =>
  let! (r, _, chain', fa) := process_async_reads preadv decode partial auto_dedup true ctx_ok chain (fallocs e) in
  Ret (r, if r =? 0 then chain_owed lz4 (drop (length files - length chain) files) chain else [], chain', env_set_fallocs fa e).

Lemma punch_flush_idle d r d' : punch_flush d = (r, d') -> ds_fallocs d = [] -> r = 0 /\ ds_fallocs d' = [].
Proof.
  unfold punch_flush, punch_hole. rewrite !Z.gtb_ltb. cbn [negb andb]. intros H Hf. destruct (0 <? _); [|by injection H as <- <-].
  rewrite Hf in H. simpl in H. by injection H as <- <-.
Qed.

Lemma process_idle chain : forall depth fa, Forall idle chain ->
  exists r chain' fa', process_async_reads_ctx preadv decode partial auto_dedup depth chain fa = Ret (r, [], chain', fa') /\
    Forall2 bunch_frame chain chain' /\ (fa = [] -> r = 0 /\ fa' = []).
Proof.
  induction chain as [|pr chain IH]; intros depth fa Hid; [by eexists _, _, _|].
  apply Forall_cons_1 in Hid as [Hpr Hid]. cbn [process_async_reads_ctx]. unfold idle in Hpr. rewrite Hpr. simpl.
  destruct (IH (S depth) fa Hid) as (r & chain' & fa' & -> & Hb & Hf). simpl.
  assert (Hsame : set_async [] (set_bunch (bunch pr) pr) = pr).
  { destruct pr. simpl in *. by subst. }
  destruct (Z.eqb_spec r 0) as [->|Hr]; simpl.
  - destruct (punch_flush _) as [r d] eqn:Ep. simpl. eexists _, _, _. split; [done|]. split.
    + constructor; [|done]. exists (ds_bunch d). destruct pr. simpl in *. by subst.
    + intros E. destruct (Hf E) as [_ ->]. by destruct (punch_flush_idle _ _ _ Ep).
  - eexists _, _, _. split; [done|]. split; [|done].
    constructor; [|done]. exists (bunch pr). destruct pr. simpl in *. by subst.
Qed.

Lemma idle_not_encoded chain : Forall idle chain -> page_read_chain_has_encoded_async chain = false.
Proof.
  intros Hid. unfold page_read_chain_has_encoded_async. apply not_true_is_false. intros H.
  apply existsb_exists in H as (pr & Hin & H). rewrite List.Forall_forall in Hid. by rewrite (Hid pr Hin) in H.
Qed.

#[local] Instance queue_sync_idle : SyncIdle queue_sync.
Proof.
  intros chain e Hid. unfold sync, queue_sync, process_async_reads. simpl. rewrite idle_not_encoded by done. simpl.
  destruct (process_idle chain 0 (fallocs e) Hid) as (r & chain' & fa' & -> & Hb & Hf). simpl.
  rewrite chain_owed_idle by done. replace (if r =? 0 then [] else []) with (@nil (Z * list Z)) by (by destruct (r =? 0)).
  eexists _, _, _. split; [done|]. split; [done|]. intros [[= E1 E2 E3] E4]. destruct (Hf E2) as [-> ->].
  split; [done|]. unfold env_ok, env_rest. simpl. by rewrite E1, E3.
Qed.

Lemma read_pagemap_page_chain_spec parallel c flags pr parents e vaddr nr buf :
  is_async flags = false -> request_ok lz4 c files (pr :: parents) vaddr nr buf ->
  exists pr' i pe k, seek_pagemap pr vaddr = Ret (1, pr') /\ at_entry pr' i pe k /\
    vaddr = pe_vaddr pe + k * PAGE_SIZE /\ 0 <= k < pe_nr_pages pe /\
    (k + nr <= pe_nr_pages pe ->
     exists r chain' e',
       read_pagemap_page lz4 parallel false files flags (pr' :: parents) e vaddr nr buf = Ret (r, chain', e') /\
       (forall w, r = Some w -> read_done lz4 c files (pr :: parents) chain' vaddr nr buf w) /\
       (env_ok e -> env_ok e' /\ r <> None)).
Proof.
  intros Hfl Hrq. pose proof (rk_nr _ _ _ _ _ _ _ Hrq) as Hn.
  destruct (request_seek lz4 c files pr parents vaddr nr buf Hrq)
    as (pr' & i & pe & k & Hs & Hat & Hcur & Hcv & Hv & [Hk1 Hk2] & _ & Hpm & Hrq').
  exists pr', i, pe, k. split_and!; try done. intros Hle.
  destruct (read_pagemap_page_reads lz4 parallel c flags Hfl files (pr' :: parents) e vaddr nr buf pr' parents i pe k)
    as (r & chain' & e' & Hrd & H1 & H2); try done; [apply Hrq'; lia|].
  exists r, chain', e'. split; [done|]. split; [|done]. intros w Hw. destruct (H1 w Hw) as [B1 B2 B3 B4 B5 B6].
  split; try done. rewrite B2, !fmap_cons. by rewrite Hpm.
Qed.

(** C19. Reading through a chain of snapshots.  Let every page of a request be
    stored somewhere in the chain, in the youngest snapshot whose pagemap does
    not defer it to its parent, with cursors not beyond the request.  Then
    [seek_pagemap] finds the first page, and [read_pagemap_page], for as many
    pages as the entry found has, always returns, trips no [BUG()], and if it
    succeeds the memory from [buf] on holds the contents of the pages, in
    order and without gap, however the parents' entries split the request;
    every reader of the chain is in working order again, over the same
    pagemap, with its cursor not beyond the end of the request.  It succeeds
    if no system call fails.  (Synchronous requests, without auto-dedup, over
    the queues' own [sync].) *)
Theorem read_pagemap_page_chain parallel c flags pr parents e vaddr nr buf :
  is_async flags = false -> request_ok lz4 c files (pr :: parents) vaddr nr buf ->
  exists pr' i pe k, seek_pagemap pr vaddr = Ret (1, pr') /\ at_entry pr' i pe k /\
    vaddr = pe_vaddr pe + k * PAGE_SIZE /\ 0 <= k < pe_nr_pages pe /\
    (k + nr <= pe_nr_pages pe ->
     exists r chain' e',
       read_pagemap_page lz4 parallel false files flags (pr' :: parents) e vaddr nr buf = Ret (r, chain', e') /\
       (forall w, r = Some w -> read_done lz4 c files (pr :: parents) chain' vaddr nr buf w) /\
       (env_ok e -> env_ok e' /\ r <> None)).
Proof. apply read_pagemap_page_chain_spec. Qed.
End QueueSync.

(** ** Example: a request split over two entries of the parent *)
Definition sample_old_es : list pagemap_entry :=
  [PagemapEntry 0x17000 2 false false true PE_PRESENT true 2 None;
   PagemapEntry 0x19000 2 false false true PE_PRESENT true 2 (Some (PagemapBlocks [0] 0 2))].
Definition sample_old_file : list Z := replicate 4096 5 ++ replicate 4096 6.
Definition sample_old_reader : page_read :=
  PageRead None 0 0 0 (BlkState 0 0 [] 0 0) (Iovec 0 0) sample_old_es (-1) [] false.
Definition sample_contents (v : Z) : list Z := replicate 4096 (if v =? 0x18000 then 6 else 0).
Definition sample_chain : list page_read := [sample_reader; sample_old_reader].
Definition sample_files : list (list Z) := [sample_file; sample_old_file].

Lemma sample_old_es_ok : pagemaps_ok sample_old_es.
Proof.
  unfold pagemaps_ok, sample_old_es; simpl. unfold entry_ok, entry_stop, entry_end; simpl.
  unfold PAGE_SIZE. split_and!; try done; try (vm_compute; done).
  all: intros b [= <-]; split; [done|]; unfold blocks_ok, n_block_sizes; simpl;
    rewrite MAX_BLOCK_PAGES_eq; unfold block_pages_at, PAGE_SIZE, zlen; simpl; lia.
Qed.

Lemma sample_inherited : contents sample_codec (images sample_files sample_chain) sample_contents 0x18000 2.
Proof.
  assert (Hp : (init_compat_pagemap_entry <$> sample_es) !! 2%nat = Some (init_compat_pagemap_entry sample_parent))
    by reflexivity.
  assert (H0 : page_content sample_codec [(sample_old_es, sample_old_file)] 0x18000 (sample_contents 0x18000)).
  { apply (content_here _ _ _ _ 0 (PagemapEntry 0x17000 2 false false true PE_PRESENT true 2 None) 1);
      [done|simpl; lia|done|done|vm_compute; reflexivity]. }
  assert (H1 : page_content sample_codec [(sample_old_es, sample_old_file)] 0x19000 (sample_contents 0x19000)).
  { apply (content_here _ _ _ _ 1 (PagemapEntry 0x19000 2 false false true PE_PRESENT true 2 (Some (PagemapBlocks [0] 0 2))) 0);
      [done|simpl; lia|done|done|vm_compute; reflexivity]. }
  intros j Hj. assert (j = 0 \/ j = 1) as [-> | ->] by lia;
    [apply (content_parent _ _ _ _ 2 (init_compat_pagemap_entry sample_parent) 0)
    |apply (content_parent _ _ _ _ 2 (init_compat_pagemap_entry sample_parent) 1)];
    (done || (simpl; lia) || exact H0 || exact H1).
Qed.

Lemma sample_request : request_ok sample_codec sample_contents sample_files sample_chain 0x18000 2 0x70000.
Proof.
  split; [| |lia|split_and!; (lia || reflexivity)|split; [lia|reflexivity]|exact sample_inherited].
  - assert (Hrw : forall file pr, pagemaps_ok (pmes pr) -> pr = reset_one pr -> cache_size (blk pr) = 0 -> idle pr ->
      reader_ok sample_codec file pr).
    { intros file pr Hpm E Hc Hid. split; [done| |by left|done]. rewrite E. apply cursor_reset; try done. by left. }
    apply Forall2_cons_2; [|apply Forall2_cons_2; [|constructor]]; apply Hrw;
      first [exact sample_ok|exact sample_old_es_ok|done].
  - apply Forall_cons_2; [done|apply Forall_cons_2; [done|apply Forall_nil_2]].
Qed.

Lemma read_pagemap_page_chain_witness :
  exists pr' w chain' e',
    seek_pagemap sample_reader 0x18000 = Ret (1, pr') /\
    read_pagemap_page (H := queue_sync sample_codec sample_files (fun _ _ n => n) (fun _ _ => true) false false true)
      sample_codec false false sample_files 0 [pr'; sample_old_reader] (Env [] [] [] []) 0x18000 2 0x70000
    = Ret (Some w, chain', e') /\
    written w = sample_contents 0x18000 ++ sample_contents 0x19000.
Proof.
  destruct (read_pagemap_page_chain sample_codec sample_files (fun _ _ n => n) (fun _ _ => true) false false true
    false sample_contents 0 sample_reader [sample_old_reader] (Env [] [] [] [])
    0x18000 2 0x70000 eq_refl sample_request) as (pr' & i & pe & k & Hs & Hat & Hv & _ & Hrd).
  exists pr'. assert (Hpe : pr_pe pr' = Some (init_compat_pagemap_entry sample_parent)).
  { vm_compute in Hs. injection Hs as <-. reflexivity. }
  rewrite (ae_pe _ _ _ _ Hat) in Hpe. injection Hpe as ->.
  destruct Hrd as (r & chain' & e' & H1 & H2 & H3); [unfold PAGE_SIZE in Hv; simpl in Hv; simpl; lia|].
  destruct (H3 (conj eq_refl eq_refl)) as [_ Hr]. destruct r as [w|]; [|destruct (Hr eq_refl)].
  exists w, chain', e'. split; [exact Hs|]. split; [exact H1|].
  rewrite (rd_bytes _ _ _ _ _ _ _ _ _ (H2 w eq_refl)).
  change (page_addrs 0x18000 2) with [0x18000; 0x19000]. rewrite !fmap_cons. cbn [concat fmap list_fmap].
  by rewrite app_nil_r.
Defined.
