(* ===== verification/DecompressQueue.v ===== *)
(** The queue of decompression jobs of criu/compression.c, from which any number of
    threads claim chunks of jobs.

    Threads interleave at the atomic operations of the queue ([pc_step]: one load,
    fetch-and-add, compare-and-exchange or store, or one job, which touches
    only its own destination).  The loads are relaxed: they may return a value
    that another thread has replaced since, which is the argument [stale].
    [q_log], [q_fails] and [q_dropped] record, for the proofs, which jobs were done,
    which failed and which were given up.  Not part of the model: what a job that
    fails leaves at its destination.

    [queue_ok] holds for any set of threads at any places ([queue_step]);
    [queue_end]: when all of them are through, the batch comes to what the jobs
    come to one after the other; [queue_work_step]: every step leaves less to do. *)
From S2P Require Import Prelude PagemapImage PageRead AsyncQueue ReadPages.

Definition PARALLEL_DECOMPRESS_MAX_JOB_CHUNK : Z := 8.

(** [dj_src]: the bytes from the one [src] points to. *)
Record decompress_job := DecompressJob {
  dj_src : list Z;
  dj_dst : Z;
  dj_compressed_size : Z;
  dj_pages : Z;
  dj_block_index : Z
}.

Definition bytes_at := Z -> Z.
Definition store_bytes (m : bytes_at) (a : Z) (bs : list Z) : bytes_at :=
  fun x => if (a <=? x) && (x <? a + zlen bs) then default 0 (bs !! Z.to_nat (x - a)) else m x.

Record queue := Queue {
  q_jobs : list decompress_job;
  q_chunk : Z;
  q_next : Z;
  q_failed : bool;
  q_failed_block : Z;
  q_mem : bytes_at;
  q_log : list Z;
  q_fails : list Z;
  q_dropped : list Z
}.
Definition nr_jobs (q : queue) : Z := zlen (q_jobs q).
Definition set_next (n : Z) (q : queue) : queue := Queue (q_jobs q) (q_chunk q) n (q_failed q) (q_failed_block q) (q_mem q) (q_log q) (q_fails q) (q_dropped q).
Definition set_failed (q : queue) : queue := Queue (q_jobs q) (q_chunk q) (q_next q) true (q_failed_block q) (q_mem q) (q_log q) (q_fails q) (q_dropped q).
Definition set_failed_block (b : Z) (q : queue) : queue := Queue (q_jobs q) (q_chunk q) (q_next q) (q_failed q) b (q_mem q) (q_log q) (q_fails q) (q_dropped q).
Definition note_done (i : Z) (m : bytes_at) (q : queue) : queue := Queue (q_jobs q) (q_chunk q) (q_next q) (q_failed q) (q_failed_block q) m (q_log q ++ [i]) (q_fails q) (q_dropped q).
Definition note_failed (i stop : Z) (q : queue) : queue :=
  Queue (q_jobs q) (q_chunk q) (q_next q) (q_failed q) (q_failed_block q) (q_mem q) (q_log q) (q_fails q ++ [i]) (q_dropped q ++ seqZ (i + 1) (stop - (i + 1))).

(** Where a thread is in [decompress_queue_run]: outside; about to read [failed];
    about to claim; about to run job [i] of a chunk that ends at [stop]; recording
    that job [i] has failed (load, compare-and-exchange, store); through. *)
Inductive pc :=
| PIdle
| PCheck
| PFetch
| PRun (i stop : Z)
| PLoad (i : Z)
| PCas (i earliest_block : Z)
| PStore (i : Z)
| PDone.

#[global] Instance pc_eq_dec : EqDecision pc.
Proof. solve_decision. Defined.

Section Queue.
Context (lz4 : list Z -> Z -> option (list Z)).

Definition decompress_job_run (job : decompress_job) : option (list Z) :=
  if (dj_pages job =? 0) || (dj_pages job >? MAX_BLOCK_PAGES) then None
  else
    let block_bytes := dj_pages job * PAGE_SIZE in
    if dj_compressed_size job =? 0 then Some (zeros block_bytes)
    else if dj_compressed_size job >=? block_bytes then None
    else decompress_data_nolog lz4 (take (Z.to_nat (dj_compressed_size job)) (dj_src job)) block_bytes.

Definition decompress_queue_init (jobs : list decompress_job) (nr_threads : Z) (m : bytes_at) : queue :=
  let job_chunk := zlen jobs / nr_threads / 4 in
  let job_chunk := if job_chunk =? 0 then 1 else job_chunk in
  let job_chunk := if job_chunk >? PARALLEL_DECOMPRESS_MAX_JOB_CHUNK then PARALLEL_DECOMPRESS_MAX_JOB_CHUNK else job_chunk in
  Queue jobs job_chunk 0 false INT_MAX m [] [] [].

Definition block_of (q : queue) (i : Z) : Z := match q_jobs q !! Z.to_nat i with Some job => dj_block_index job | None => 0 end.

(** The loop of [decompress_queue_record_failure], from a value of [failed_block]. *)
Definition record_from (q : queue) (i earliest_block : Z) : pc := if block_of q i <? earliest_block then PCas i earliest_block else PStore i.

(** One step of a thread in the queue.  [failed_block] only goes down, so a value
    that was replaced is not below the present one. *)
Definition pc_step (stale : option Z) (q : queue) (c : pc) : option (queue * pc) :=
  match c with
  | PIdle | PDone => None
  | PCheck => if q_failed q && bool_decide (stale = None) then Some (q, PDone) else Some (q, PFetch)
  | PFetch =>
      let first := q_next q in
      let q := set_next (u64 (first + q_chunk q)) q in
      if first >=? nr_jobs q then Some (q, PDone)
      else
        let stop := u64 (first + q_chunk q) in
        let stop := if stop >? nr_jobs q then nr_jobs q else stop in
        Some (q, PRun first stop)
  | PRun i stop =>
      match q_jobs q !! Z.to_nat i with
      | None => None
      | Some job =>
          match decompress_job_run job with
          | Some bs => Some (note_done i (store_bytes (q_mem q) (dj_dst job) bs) q, if i + 1 <? stop then PRun (i + 1) stop else PCheck)
          | None => Some (note_failed i stop q, PLoad i)
          end
      end
  | PLoad i => Some (q, record_from q i (match stale with Some old => Z.max old (q_failed_block q) | None => q_failed_block q end))
  | PCas i earliest_block =>
      if q_failed_block q =? earliest_block then Some (set_failed_block (block_of q i) q, PStore i)
      else Some (q, record_from q i (q_failed_block q))
  | PStore i => Some (set_failed q, PCheck)
  end.

(** [decompress_jobs_serial]: the caller alone. *)
Fixpoint queue_run (fuel : nat) (q : queue) (c : pc) : outcome queue :=
  match c with
  | PDone => Ret q
  | _ =>
      match fuel with
      | O => NoFuel
      | S fuel => match pc_step None q c with Some (q, c) => queue_run fuel q c | None => Bug end
      end
  end.
Definition serial_fuel (jobs : list decompress_job) : nat := 8 * S (length jobs).
Definition decompress_jobs_serial (jobs : list decompress_job) (m : bytes_at) : outcome (Z * bytes_at) :=
  let! q := queue_run (serial_fuel jobs) (decompress_queue_init jobs 1 m) PCheck in
  Ret (if q_failed q then -1 else 0, q_mem q).
End Queue.

(** ** What holds of the queue *)
Section QueueOk.
Context (lz4 : list Z -> Z -> option (list Z)).
Abbreviation run_job := (decompress_job_run lz4).
Abbreviation step := (pc_step lz4).

(** The jobs a thread has claimed and not yet run. *)
Definition claimed (c : pc) : list Z := match c with PRun i stop => seqZ i (stop - i) | _ => [] end.
Definition recording (c : pc) : bool := match c with PLoad _ | PCas _ _ | PStore _ => true | _ => false end.
Definition is_done (c : pc) : bool := match c with PDone => true | _ => false end.
Definition done_count (cs : list pc) : Z := zlen (filter (fun c => is_done c = true) cs).

Definition store_job (jobs : list decompress_job) (m : bytes_at) (i : Z) : bytes_at :=
  match jobs !! Z.to_nat i with
  | Some job => match run_job job with Some bs => store_bytes m (dj_dst job) bs | None => m end
  | None => m
  end.
Definition runs (q : queue) (i : Z) : bool := match q_jobs q !! Z.to_nat i with Some job => bool_decide (run_job job <> None) | None => false end.

(** A thread's place in the queue makes sense. *)
Definition pc_ok (q : queue) (c : pc) : Prop :=
  match c with
  | PRun i stop => 0 <= i < stop /\ stop <= nr_jobs q
  | PLoad i => i ∈ q_fails q
  | PCas i earliest_block => i ∈ q_fails q /\ block_of q i < earliest_block
  | PStore i => i ∈ q_fails q /\ q_failed_block q <= block_of q i
  | PDone => q_failed q = true \/ nr_jobs q <= q_next q
  | _ => True
  end.

(** The failure of job [i] is recorded, or a thread is about to. *)
Definition noticed (q : queue) (cs : list pc) (i : Z) : Prop := q_failed_block q <= block_of q i \/ exists c, c ∈ cs /\ (c = PLoad i \/ exists b, c = PCas i b).

(** [m0]: the memory the batch started with. *)
Record queue_ok (m0 : bytes_at) (q : queue) (cs : list pc) : Prop := QueueOk {
  qo_chunk : 1 <= q_chunk q <= PARALLEL_DECOMPRESS_MAX_JOB_CHUNK;
  qo_next : 0 <= q_next q <= nr_jobs q + q_chunk q * (1 + done_count cs);
  qo_room : nr_jobs q + PARALLEL_DECOMPRESS_MAX_JOB_CHUNK * (2 + zlen cs) < 2 ^ 64;
  qo_jobs : q_log q ++ q_fails q ++ q_dropped q ++ (cs ≫= claimed) ≡ₚ seqZ 0 (Z.min (q_next q) (nr_jobs q));
  qo_pcs : Forall (pc_ok q) cs;
  qo_log : Forall (fun i => runs q i = true) (q_log q);
  qo_mem : q_mem q = foldl (store_job (q_jobs q)) m0 (q_log q);
  qo_fails : Forall (fun i => runs q i = false /\ noticed q cs i) (q_fails q);
  qo_dropped : Forall (fun d => exists i, i ∈ q_fails q /\ i < d) (q_dropped q);
  qo_failing : q_fails q <> [] -> q_failed q = true \/ exists c, c ∈ cs /\ recording c = true;
  qo_failed : q_failed q = true -> q_fails q <> [];
  qo_block : q_failed_block q = INT_MAX \/ exists i, i ∈ q_fails q /\ q_failed_block q = block_of q i
}.

(** The threads in any order. *)
Lemma done_count_perm cs cs' : cs ≡ₚ cs' -> done_count cs = done_count cs'.
Proof. intros H. unfold done_count, zlen. by rewrite H. Qed.
Lemma queue_ok_perm m0 q cs cs' : cs ≡ₚ cs' -> queue_ok m0 q cs -> queue_ok m0 q cs'.
Proof.
  intros H [Q1 Q2 Q3 Q4 Q5 Q6 Q7 Q8 Q9 Q10 Q11 Q12]. split; try done.
  - by rewrite <- (done_count_perm _ _ H).
  - unfold zlen in *. by rewrite <- H.
  - rewrite <- Q4. by rewrite H.
  - by rewrite <- H.
  - eapply Forall_impl; [exact Q8|]. intros i [H1 H2]. split; [done|]. destruct H2 as [?|(c & Hc & ?)]; [by left|right]. exists c. by rewrite <- H.
  - intros Hf. destruct (Q10 Hf) as [?|(c & Hc & ?)]; [by left|right]. exists c. by rewrite <- H.
Qed.
#[global] Instance queue_ok_proper m0 q : Proper ((≡ₚ) ==> iff) (queue_ok m0 q).
Proof. intros cs cs' H. split; by apply queue_ok_perm. Qed.

Lemma thread_split (cs : list pc) k c : cs !! k = Some c -> cs ≡ₚ c :: delete k cs.
Proof. apply delete_Permutation. Qed.
Lemma thread_insert (cs : list pc) k c c' : cs !! k = Some c -> <[k := c']> cs ≡ₚ c' :: delete k cs.
Proof.
  intros H. rewrite insert_take_drop by (by eapply lookup_lt_Some). rewrite delete_take_drop. by rewrite Permutation_middle.
Qed.

(** The queue only goes forward. *)
Record later (q q' : queue) : Prop := Later {
  la_jobs : q_jobs q' = q_jobs q;
  la_chunk : q_chunk q' = q_chunk q;
  la_next : q_next q <= q_next q';
  la_failed : q_failed q = true -> q_failed q' = true;
  la_block : q_failed_block q' <= q_failed_block q;
  la_fails : q_fails q ⊆ q_fails q'
}.
Lemma later_block q q' i : later q q' -> block_of q' i = block_of q i.
Proof. intros [H _ _ _ _ _]. unfold block_of. by rewrite H. Qed.
Lemma later_nr q q' : later q q' -> nr_jobs q' = nr_jobs q.
Proof. intros [H _ _ _ _ _]. unfold nr_jobs. by rewrite H. Qed.
Lemma later_runs q q' i : later q q' -> runs q' i = runs q i.
Proof. intros [H _ _ _ _ _]. unfold runs. by rewrite H. Qed.
Lemma pc_ok_later q q' c : later q q' -> pc_ok q c -> pc_ok q' c.
Proof.
  intros H. pose proof H as [_ _ L3 L4 L5 L6]. destruct c; cbn [pc_ok]; rewrite ?(later_block _ _ _ H), ?(later_nr _ _ H); try done.
  - intros ?. by apply L6.
  - intros [? ?]. split; [by apply L6|done].
  - intros [? ?]. split; [by apply L6|lia].
  - intros [?|?]; [left; auto|right; lia].
Qed.
Lemma pcs_ok_later q q' cs : later q q' -> Forall (pc_ok q) cs -> Forall (pc_ok q') cs.
Proof. intros H Hf. eapply Forall_impl; [exact Hf|]. intros c. by apply pc_ok_later. Qed.

Lemma noticed_later q q' c c' rs i : later q q' -> (c = PLoad i \/ (exists b, c = PCas i b) -> noticed q' (c' :: rs) i) -> noticed q (c :: rs) i -> noticed q' (c' :: rs) i.
Proof.
  intros H Hc [Hb|(x & Hx & Hi)]; [left; rewrite (later_block _ _ _ H); pose proof (la_block _ _ H); lia|]. apply elem_of_cons in Hx as [->|Hx]; [by apply Hc|]. right. exists x. split; [by right|done].
Qed.

(** A step that runs no job. *)
Lemma queue_move m0 q q' c c' rs : queue_ok m0 q (c :: rs) -> later q q' -> q_log q' = q_log q -> q_fails q' = q_fails q -> q_dropped q' = q_dropped q -> q_mem q' = q_mem q ->
  0 <= q_next q' <= nr_jobs q + q_chunk q * (1 + done_count (c' :: rs)) -> claimed c' ++ seqZ 0 (Z.min (q_next q) (nr_jobs q)) ≡ₚ claimed c ++ seqZ 0 (Z.min (q_next q') (nr_jobs q)) -> pc_ok q' c' ->
  (forall i, i ∈ q_fails q -> c = PLoad i \/ (exists b, c = PCas i b) -> noticed q' (c' :: rs) i) -> (recording c = true -> q_failed q' = true \/ recording c' = true) ->
  (q_failed q' = true -> q_fails q <> []) -> (q_failed_block q' = q_failed_block q \/ exists i, i ∈ q_fails q /\ q_failed_block q' = block_of q i) -> queue_ok m0 q' (c' :: rs).
Proof.
  intros [Q1 Q2 Q3 Q4 Q5 Q6 Q7 Q8 Q9 Q10 Q11 Q12] HL E1 E2 E3 E4 Hn Hp Hpc Hno Hrec Hf Hb. pose proof HL as [L1 L2 _ L4 L5 _]. apply Forall_cons_1 in Q5 as [_ Q5].
  split; rewrite ?E1, ?E2, ?E3, ?E4, ?L1, ?L2, ?(later_nr _ _ HL); try done.
  - rewrite bind_cons in *. apply (Permutation_app_inv_l (claimed c)). rewrite <- Hp. rewrite <- Q4. solve_Permutation.
  - constructor; [done|]. by eapply pcs_ok_later.
  - eapply Forall_impl; [exact Q6|]. intros i. by rewrite (later_runs _ _ _ HL).
  - apply Forall_forall. intros i Hi. rewrite Forall_forall in Q8. destruct (Q8 i Hi) as [R1 R2]. rewrite (later_runs _ _ _ HL). split; [done|]. by apply (noticed_later q q' c c' rs i HL (Hno i Hi)).
  - intros Hfs. destruct (Q10 Hfs) as [?|(x & Hx & Hr)]; [left; auto|]. apply elem_of_cons in Hx as [->|Hx]; [|right; exists x; split; [by right|done]].
    destruct (Hrec Hr) as [?|?]; [by left|right]. exists c'. split; [by left|done].
  - destruct Hb as [->|(i & Hi & ->)]; [|right; exists i; split; [done|]; by rewrite (later_block _ _ _ HL)]. destruct Q12 as [?|(i & Hi & ->)]; [by left|right]. exists i. by rewrite (later_block _ _ _ HL).
Qed.

Lemma later_refl q : later q q.
Proof. split; (done || lia). Qed.

Lemma done_count_cons c rs : done_count (c :: rs) = (if is_done c then 1 else 0) + done_count rs.
Proof.
  unfold done_count, zlen. destruct (is_done c) eqn:E; [rewrite filter_cons_True by done; cbn [length]; lia|rewrite filter_cons_False by congruence; lia].
Qed.
Lemma done_count_bound cs : 0 <= done_count cs <= zlen cs.
Proof. unfold done_count, zlen. pose proof (length_filter (fun c => is_done c = true) cs). lia. Qed.

(** What a fetch gets: a chunk that was not claimed before, or nothing. *)
Lemma fetch_facts m0 q rs : queue_ok m0 q (PFetch :: rs) -> u64 (q_next q + q_chunk q) = q_next q + q_chunk q.
Proof.
  intros [Q1 Q2 Q3 _ _ _ _ _ _ _ _ _]. apply u64_small. pose proof (done_count_bound (PFetch :: rs)). unfold PARALLEL_DECOMPRESS_MAX_JOB_CHUNK in *. nia.
Qed.

Lemma same_queue m0 q c c' rs : queue_ok m0 q (c :: rs) -> claimed c' = claimed c -> is_done c = false -> pc_ok q c' ->
  (forall i, i ∈ q_fails q -> c = PLoad i \/ (exists b, c = PCas i b) -> noticed q (c' :: rs) i) -> (recording c = true -> recording c' = true) -> queue_ok m0 q (c' :: rs).
Proof.
  intros HQ Hcl Hd Hpc Hno Hrec. pose proof HQ as [Q1 Q2 _ _ _ _ _ _ _ _ Q11 _]. apply (queue_move m0 q q c c' rs HQ (later_refl q)); try done.
  - rewrite done_count_cons in *. rewrite Hd in Q2. destruct (is_done c'); lia.
  - by rewrite Hcl.
  - intros Hr. right. by apply Hrec.
  - by left.
Qed.

Lemma fetch_step m0 q rs q' c' : queue_ok m0 q (PFetch :: rs) -> pc_step lz4 None q PFetch = Some (q', c') -> queue_ok m0 q' (c' :: rs) /\ later q q'.
Proof.
  intros HQ H. pose proof (fetch_facts m0 q rs HQ) as Eu. pose proof HQ as [Q1 Q2 _ _ _ _ _ _ _ _ Q11 _]. cbn [pc_step] in H. change (q_chunk (set_next _ q)) with (q_chunk q) in H. change (nr_jobs (set_next _ q)) with (nr_jobs q) in H.
  rewrite Eu in H. rewrite Z.geb_leb, Z.gtb_ltb in H. assert (HL : later q (set_next (q_next q + q_chunk q) q)) by (split; try done; cbn; lia).
  assert (Hq : q' = set_next (q_next q + q_chunk q) q) by (destruct (_ <=? _); by injection H as <- _). subst q'. split; [|done]. rewrite done_count_cons in Q2. cbn [is_done] in Q2.
  destruct (Z.leb_spec (nr_jobs q) (q_next q)) as [Hge|Hlt]; injection H as <-.
  - apply (queue_move m0 q _ PFetch PDone rs HQ HL); try done; [rewrite done_count_cons; cbn [is_done set_next q_next]; nia|cbn [claimed app set_next q_next]; by rewrite !Z.min_r by lia|right; change (nr_jobs (set_next _ q)) with (nr_jobs q); cbn [set_next q_next]; lia|intros i _ [?|[? ?]]; done|by left].
  - set (stop := if nr_jobs q <? q_next q + q_chunk q then nr_jobs q else q_next q + q_chunk q).
    assert (Hs : stop = Z.min (q_next q + q_chunk q) (nr_jobs q)) by (unfold stop; destruct (Z.ltb_spec (nr_jobs q) (q_next q + q_chunk q)); lia). rewrite Hs. pose proof (done_count_bound rs).
    apply (queue_move m0 q _ PFetch _ rs HQ HL); try done.
    + rewrite done_count_cons. cbn [is_done set_next q_next]. nia.
    + cbn [claimed set_next q_next]. rewrite (Z.min_l (q_next q)) by lia. set (t := Z.min (q_next q + q_chunk q) (nr_jobs q)). cbn [app]. replace t with (q_next q + (t - q_next q)) at 2 by lia. rewrite seqZ_app by lia. rewrite Z.add_0_l. apply Permutation_app_comm.
    + cbn [pc_ok]. change (nr_jobs (set_next _ q)) with (nr_jobs q). lia.
    + intros i _ [?|[? ?]]; done.
    + by left.
Qed.

(** Running a job. *)
Lemma run_step m0 q i stop rs q' c' stale : queue_ok m0 q (PRun i stop :: rs) -> pc_step lz4 stale q (PRun i stop) = Some (q', c') -> queue_ok m0 q' (c' :: rs) /\ later q q'.
Proof.
  intros [Q1 Q2 Q3 Q4 Q5 Q6 Q7 Q8 Q9 Q10 Q11 Q12] H. apply Forall_cons_1 in Q5 as [[P1 P2] Q5]. cbn [pc_step] in H. destruct (q_jobs q !! Z.to_nat i) as [job|] eqn:Ej; [|done].
  rewrite done_count_cons in Q2. cbn [is_done] in Q2. rewrite bind_cons in Q4. cbn [claimed] in Q4. rewrite seqZ_cons in Q4 by lia.
  assert (Hother : forall q2 c2 j, q_jobs q2 = q_jobs q -> q_failed_block q2 = q_failed_block q -> noticed q (PRun i stop :: rs) j -> noticed q2 (c2 :: rs) j).
  { intros q2 c2 j E1 E2 [?|(x & Hx & Hi)]; [left; unfold block_of in *; by rewrite E1, E2|]. apply elem_of_cons in Hx as [->|Hx]; [by destruct Hi as [?|[? ?]]|]. right. exists x. split; [by right|done]. }
  assert (Hrec : forall c2, (q_fails q <> [] -> q_failed q = true \/ exists c, c ∈ c2 :: rs /\ recording c = true)).
  { intros c2 Hf. destruct (Q10 Hf) as [?|(x & Hx & Hr)]; [by left|]. apply elem_of_cons in Hx as [->|Hx]; [done|]. right. exists x. split; [by right|done]. }
  destruct (run_job job) as [bs|] eqn:Er; injection H as <- <-.
  - assert (HL : later q (note_done i (store_bytes (q_mem q) (dj_dst job) bs) q)) by (split; try done; cbn; lia). set (c' := if i + 1 <? stop then PRun (i + 1) stop else PCheck).
    assert (Hc' : is_done c' = false /\ claimed c' = seqZ (Z.succ i) (Z.pred (stop - i)) /\ pc_ok q c').
    { unfold c'. destruct (Z.ltb_spec (i + 1) stop); cbn [is_done claimed pc_ok]; (split; [done|]); [split; [f_equal; lia|lia]|]. split; [|done]. rewrite seqZ_nil by lia. done. }
    destruct Hc' as (D1 & D2 & D3). split; [|done]. split; cbn [note_done q_chunk q_next q_log q_fails q_dropped q_mem q_jobs q_failed q_failed_block]; try done.
    + rewrite done_count_cons, D1. done.
    + rewrite bind_cons, D2. rewrite <- Q4. solve_Permutation.
    + constructor; [by eapply pc_ok_later|by eapply pcs_ok_later].
    + apply Forall_app. split; [done|]. constructor; [|done]. unfold runs. cbn [q_jobs note_done]. rewrite Ej. rewrite Er. done.
    + rewrite foldl_app. cbn [foldl]. unfold store_job at 1. rewrite Ej, Er, <- Q7. done.
    + eapply Forall_impl; [exact Q8|]. intros j [R1 R2]. split; [done|]. by apply Hother.
    + by apply Hrec.
  - assert (HL : later q (note_failed i stop q)) by (split; try done; cbn; (lia || (intros ? ?; apply elem_of_app; by left))). split; [|done].
    split; cbn [note_failed q_chunk q_next q_log q_fails q_dropped q_mem q_jobs q_failed q_failed_block]; try done.
    + rewrite bind_cons. cbn [claimed]. rewrite <- Q4. replace (seqZ (i + 1) (stop - (i + 1))) with (seqZ (Z.succ i) (Z.pred (stop - i))) by (f_equal; lia). solve_Permutation.
    + constructor; [cbn; apply elem_of_app; right; by left|by eapply pcs_ok_later].
    + apply Forall_app. split.
      * eapply Forall_impl; [exact Q8|]. intros j [R1 R2]. split; [done|]. by apply Hother.
      * constructor; [|done]. split; [unfold runs; cbn [q_jobs note_failed]; rewrite Ej, Er; done|]. right. exists (PLoad i). split; [by left|by left].
    + apply Forall_app. split; [eapply Forall_impl; [exact Q9|]; intros d (j & Hj & ?); exists j; split; [apply elem_of_app; by left|done]|].
      apply Forall_forall. intros d Hd%elem_of_seqZ. exists i. split; [apply elem_of_app; right; by left|lia].
    + intros _. right. exists (PLoad i). split; [by left|done].
    + intros _ E. by apply app_nil in E as [_ ?].
    + destruct Q12 as [?|(j & Hj & ?)]; [by left|right]. exists j. split; [apply elem_of_app; by left|done].
Qed.

Lemma queue_step m0 q c rs q' c' stale : queue_ok m0 q (c :: rs) -> pc_step lz4 stale q c = Some (q', c') -> queue_ok m0 q' (c' :: rs) /\ later q q'.
Proof.
  intros HQ H. destruct c as [| | |i stop|i|i b|i|]; try done.
  - cbn [pc_step] in H. destruct (q_failed q && bool_decide (stale = None)) eqn:E; injection H as <- <-; (split; [|apply later_refl]); apply (same_queue m0 q PCheck); try done; try (intros i _ [?|[? ?]]; done).
    apply andb_true_iff in E as [E _]. by left.
  - by apply (fetch_step m0 q rs).
  - by apply (run_step m0 q i stop rs q' c' stale).
  - cbn [pc_step] in H. injection H as <- <-. split; [|apply later_refl]. pose proof (Forall_cons_1 _ _ _ (qo_pcs _ _ _ HQ)) as [Hi _]. cbn in Hi. unfold record_from.
    set (v := match stale with Some _ => _ | None => _ end). assert (Hv : q_failed_block q <= v) by (unfold v; destruct stale; lia).
    destruct (Z.ltb_spec (block_of q i) v); apply (same_queue m0 q (PLoad i)); try done; try (intros j _ [[= <-]|[? ?]]; [|done]); [right; eexists; split; [by left|right; by eexists]|split; [done|lia]|left; lia].
  - pose proof (Forall_cons_1 _ _ _ (qo_pcs _ _ _ HQ)) as [[Hi Hb] _]. cbn [pc_step] in H. destruct (Z.eqb_spec (q_failed_block q) b) as [<-|Hne]; injection H as <- <-.
    + assert (HL : later q (set_failed_block (block_of q i) q)) by (split; try done; cbn; lia). split; [|done]. pose proof HQ as [_ Q2 _ _ _ _ _ _ _ _ Q11 _].
      apply (queue_move m0 q _ (PCas i (q_failed_block q)) (PStore i) rs HQ HL); try done; [intros j _ [?|[b' [= <- _]]]; [done|left; reflexivity]|by right|right; by exists i].
    + split; [|apply later_refl]. unfold record_from. destruct (Z.ltb_spec (block_of q i) (q_failed_block q)); apply (same_queue m0 q (PCas i b)); try done; try (intros j _ [?|[b' [= <- _]]]; [done|]); [right; eexists; split; [by left|right; by eexists]|by left].
  - pose proof (Forall_cons_1 _ _ _ (qo_pcs _ _ _ HQ)) as [[Hi Hb] _]. cbn [pc_step] in H. injection H as <- <-. assert (HL : later q (set_failed q)) by (split; try done; cbn; lia). split; [|done]. pose proof HQ as [_ Q2 _ _ _ _ _ _ _ _ Q11 _].
    apply (queue_move m0 q _ _ _ rs HQ HL); try done; [intros j _ [?|[? ?]]; done|by left| |by left]. intros _ E. by rewrite E in Hi; apply elem_of_nil in Hi.
Qed.

(** ** What a batch comes to *)

(** What the jobs write, one after the other. *)
Definition jobs_stored (m : bytes_at) (jobs : list decompress_job) : bytes_at :=
  foldl (fun m job => match run_job job with Some bs => store_bytes m (dj_dst job) bs | None => m end) m jobs.
Fixpoint first_failing (jobs : list decompress_job) : option decompress_job :=
  match jobs with
  | [] => None
  | job :: jobs => match run_job job with None => Some job | Some _ => first_failing jobs end
  end.

(** What the caller of the pool promises: ascending block indices that are ints,
    and destinations that do not overlap. *)
Definition job_range (job : decompress_job) : Z * Z := (dj_dst job, dj_dst job + dj_pages job * PAGE_SIZE).
Record jobs_ok (jobs : list decompress_job) : Prop := JobsOk {
  jo_block : Forall (fun job => dj_block_index job <= INT_MAX) jobs;
  jo_asc : forall i j a b, (i < j)%nat -> jobs !! i = Some a -> jobs !! j = Some b -> dj_block_index a <= dj_block_index b;
  jo_apart : forall i j a b, i <> j -> jobs !! i = Some a -> jobs !! j = Some b -> (job_range a).2 <= (job_range b).1 \/ (job_range b).2 <= (job_range a).1;
  jo_pages : Forall (fun job => 0 <= dj_pages job) jobs
}.

(** A batch that ends right: the jobs are all stored as if run one after the other,
    or the block reported is the first that fails. *)
Definition batch_right (jobs : list decompress_job) (m0 : bytes_at) (failed : bool) (failed_block : Z) (m : bytes_at) : Prop :=
  match first_failing jobs with
  | None => failed = false /\ forall x, m x = jobs_stored m0 jobs x
  | Some job => failed = true /\ failed_block = dj_block_index job
  end.

(** Every thread has left the queue, one of them after it saw the end. *)
Definition left_queue (cs : list pc) : Prop := Forall (fun c => c = PIdle \/ c = PDone) cs /\ PDone ∈ cs.

Lemma first_failing_spec jobs :
  match first_failing jobs with
  | None => forall i, (i < length jobs)%nat -> exists job, jobs !! i = Some job /\ run_job job <> None
  | Some job => exists i, jobs !! i = Some job /\ run_job job = None /\ forall j, (j < i)%nat -> exists job', jobs !! j = Some job' /\ run_job job' <> None
  end.
Proof.
  induction jobs as [|job jobs IH]; cbn [first_failing]; [intros i Hi; cbn in Hi; lia|]. destruct (run_job job) as [bs|] eqn:E; [|exists 0%nat; split; [done|]; split; [done|lia]].
  destruct (first_failing jobs) as [j|].
  - destruct IH as (i & H1 & H2 & H3). exists (S i). split; [done|]. split; [done|]. intros [|k] Hk; [exists job; by rewrite E|]. apply H3. lia.
  - intros [|i] Hi; [exists job; by rewrite E|]. apply IH. cbn in Hi. lia.
Qed.

Lemma left_claimed cs : Forall (fun c => c = PIdle \/ c = PDone) cs -> cs ≫= claimed = [].
Proof. induction 1 as [|c cs [->| ->] _ IH]; [done|..]; rewrite bind_cons, IH; done. Qed.
Lemma left_recording cs c : Forall (fun c => c = PIdle \/ c = PDone) cs -> c ∈ cs -> c = PIdle \/ c = PDone.
Proof. rewrite Forall_forall. auto. Qed.

Lemma runs_at q i job : q_jobs q !! Z.to_nat i = Some job -> runs q i = bool_decide (run_job job <> None).
Proof. intros H. unfold runs. by rewrite H. Qed.

Lemma left_jobs m0 q cs : queue_ok m0 q cs -> left_queue cs -> q_log q ++ q_fails q ++ q_dropped q ≡ₚ seqZ 0 (Z.min (q_next q) (nr_jobs q)).
Proof. intros HQ [HL _]. rewrite <- (qo_jobs _ _ _ HQ), (left_claimed cs HL). by rewrite app_nil_r. Qed.
Lemma left_noticed m0 q cs i : queue_ok m0 q cs -> left_queue cs -> i ∈ q_fails q -> q_failed_block q <= block_of q i.
Proof.
  intros HQ [HL _] Hi. pose proof (qo_fails _ _ _ HQ) as HF. rewrite Forall_forall in HF. destruct (HF i Hi) as [_ [?|(c & Hc & Hx)]]; [done|]. destruct (left_recording cs c HL Hc) as [-> | ->]; destruct Hx as [?|[? ?]]; done.
Qed.
Lemma left_failed m0 q cs : queue_ok m0 q cs -> left_queue cs -> (q_failed q = true <-> q_fails q <> []).
Proof.
  intros HQ [HL _]. split; [apply (qo_failed _ _ _ HQ)|]. intros Hf. destruct (qo_failing _ _ _ HQ Hf) as [?|(c & Hc & Hr)]; [done|]. destruct (left_recording cs c HL Hc) as [-> | ->]; done.
Qed.

(** What a batch stores does not depend on the order of its jobs. *)
Lemma run_job_length job bs : 0 <= dj_pages job -> run_job job = Some bs -> zlen bs = dj_pages job * PAGE_SIZE.
Proof.
  intros Hp. unfold decompress_job_run, decompress_data_nolog. destruct (_ || _); [done|]. destruct (_ =? 0); [intros [= <-]; unfold zlen, zeros; rewrite length_replicate; unfold PAGE_SIZE; lia|].
  destruct (_ >=? _); [done|]. destruct (lz4 _ _) as [out|]; [|done]. destruct (Z.eqb_spec (zlen out) (dj_pages job * PAGE_SIZE)); [by intros [= <-]|done].
Qed.

(** The byte job [i] leaves at [x]. *)
Definition job_byte (jobs : list decompress_job) (i x : Z) : option Z :=
  match jobs !! Z.to_nat i with
  | Some job => match run_job job with Some bs => if (dj_dst job <=? x) && (x <? dj_dst job + zlen bs) then Some (default 0 (bs !! Z.to_nat (x - dj_dst job))) else None | None => None end
  | None => None
  end.
Lemma store_job_byte jobs m i x : store_job jobs m i x = default (m x) (job_byte jobs i x).
Proof.
  unfold store_job, job_byte. destruct (jobs !! Z.to_nat i) as [job|]; [|done]. destruct (run_job job) as [bs|]; [|done]. unfold store_bytes. by destruct (_ && _).
Qed.
Lemma job_byte_in jobs i x b : Forall (fun job => 0 <= dj_pages job) jobs -> job_byte jobs i x = Some b -> exists job, jobs !! Z.to_nat i = Some job /\ (job_range job).1 <= x < (job_range job).2.
Proof.
  intros Hp. unfold job_byte. destruct (jobs !! Z.to_nat i) as [job|] eqn:E; [|done]. destruct (run_job job) as [bs|] eqn:Er; [|done]. rewrite Forall_lookup in Hp. specialize (Hp _ _ E). rewrite (run_job_length _ _ Hp Er).
  destruct (_ && _) eqn:Hb; [|done]. intros _. exists job. split; [done|]. cbn. lia.
Qed.
Lemma job_byte_once jobs i j x b b' : jobs_ok jobs -> 0 <= i -> 0 <= j -> job_byte jobs i x = Some b -> job_byte jobs j x = Some b' -> i = j.
Proof.
  intros [_ _ Ha Hp] Hi Hj H1 H2. apply (job_byte_in _ _ _ _ Hp) in H1 as (a & Ea & Ra). apply (job_byte_in _ _ _ _ Hp) in H2 as (a' & Eb & Rb).
  destruct (decide (Z.to_nat i = Z.to_nat j)); [lia|]. destruct (Ha _ _ _ _ n Ea Eb); lia.
Qed.

Lemma stored_untouched jobs m l x : (forall i, i ∈ l -> job_byte jobs i x = None) -> foldl (store_job jobs) m l x = m x.
Proof.
  revert m. induction l as [|i l IH]; intros m H; [done|]. cbn [foldl]. rewrite IH by (intros j Hj; apply H; by right). by rewrite store_job_byte, (H i) by (by left).
Qed.
Lemma stored_byte jobs m l x i b : jobs_ok jobs -> Forall (fun i => 0 <= i) l -> i ∈ l -> job_byte jobs i x = Some b -> foldl (store_job jobs) m l x = b.
Proof.
  intros HJ. revert m. induction l as [|j l IH]; intros m Hl Hi Hb; [by apply elem_of_nil in Hi|]. pose proof Hl as [Hj Hl']%Forall_cons_1. cbn [foldl]. destruct (decide (i ∈ l)) as [Hin|Hout]; [by apply IH|].
  apply elem_of_cons in Hi as [<-|?]; [|done]. rewrite stored_untouched; [by rewrite store_job_byte, Hb|]. intros k Hk. destruct (job_byte jobs k x) as [b'|] eqn:E; [|done]. rewrite Forall_forall in Hl'.
  by rewrite (job_byte_once jobs i k x b b' HJ Hj (Hl' k Hk) Hb E) in Hout.
Qed.
Lemma stored_perm jobs m l l' x : jobs_ok jobs -> Forall (fun i => 0 <= i) l -> l ≡ₚ l' -> foldl (store_job jobs) m l x = foldl (store_job jobs) m l' x.
Proof.
  intros HJ Hl Hp. destruct (decide (Exists (fun i => job_byte jobs i x <> None) l)) as [He|Hn].
  - apply Exists_exists in He as (i & Hi & Hb). destruct (job_byte jobs i x) as [b|] eqn:E; [|done]. rewrite (stored_byte jobs m l x i b), (stored_byte jobs m l' x i b); try done; by rewrite <- Hp.
  - rewrite !stored_untouched; [done|..]; intros i Hi; destruct (job_byte jobs i x) eqn:E; try done; destruct Hn; apply Exists_exists; exists i; (split; [|congruence]); [by rewrite Hp|done].
Qed.
Lemma stored_in_order jobs m : jobs_stored m jobs = foldl (store_job jobs) m (seqZ 0 (zlen jobs)).
Proof.
  assert (H : forall k, (k <= length jobs)%nat -> jobs_stored m (take k jobs) = foldl (store_job jobs) m (seqZ 0 (Z.of_nat k))).
  { induction k as [|k IH]; intros Hk; [done|]. destruct (lookup_lt_is_Some_2 jobs k) as [job Ej]; [lia|]. rewrite (take_S_r _ _ _ Ej), seqZ_S. unfold jobs_stored. rewrite !foldl_app. fold (jobs_stored m (take k jobs)). rewrite IH by lia.
    cbn [foldl]. set (mm := foldl _ m _). unfold store_job. rewrite Z.add_0_l, Nat2Z.id, Ej. done. }
  specialize (H (length jobs)). rewrite firstn_all in H. by apply H.
Qed.

(** Nothing failed: every job was run, once. *)
Lemma left_all m0 q cs : queue_ok m0 q cs -> left_queue cs -> q_fails q = [] -> q_log q ≡ₚ seqZ 0 (nr_jobs q).
Proof.
  intros HQ HL Hf. pose proof (left_jobs m0 q cs HQ HL) as HJ. destruct HL as [HL HD]. pose proof (qo_pcs _ _ _ HQ) as HP. rewrite Forall_forall in HP. specialize (HP _ HD). cbn in HP.
  assert (Hd : q_dropped q = []) by (pose proof (qo_dropped _ _ _ HQ) as Hd; rewrite Hf in Hd; destruct (q_dropped q); [done|]; apply Forall_cons_1 in Hd as [(? & ?%elem_of_nil & _) _]; done).
  destruct HP as [HP|HP]; [by apply (qo_failed _ _ _ HQ) in HP|]. rewrite Hf, Hd, !app_nil_r, Z.min_r in HJ by done. done.
Qed.
Lemma failed_index m0 q cs i : queue_ok m0 q cs -> left_queue cs -> i ∈ q_fails q -> 0 <= i < nr_jobs q /\ exists job, q_jobs q !! Z.to_nat i = Some job /\ run_job job = None.
Proof.
  intros HQ HL Hi. assert (Hr : i ∈ seqZ 0 (Z.min (q_next q) (nr_jobs q))) by (rewrite <- (left_jobs m0 q cs HQ HL); apply elem_of_app; right; apply elem_of_app; by left). apply elem_of_seqZ in Hr. split; [lia|].
  pose proof (qo_fails _ _ _ HQ) as HF. rewrite Forall_forall in HF. destruct (HF i Hi) as [Hn _]. destruct (lookup_lt_is_Some_2 (q_jobs q) (Z.to_nat i)) as [job Ej]; [unfold nr_jobs, zlen in Hr; lia|]. exists job. split; [done|].
  rewrite (runs_at _ _ _ Ej) in Hn. apply bool_decide_eq_false in Hn. destruct (run_job job); [by destruct Hn|done].
Qed.

(** The job that fails first is one that was run. *)
Lemma first_failed m0 q cs i job : queue_ok m0 q cs -> left_queue cs -> q_jobs q !! i = Some job -> run_job job = None -> (forall j, (j < i)%nat -> exists job', q_jobs q !! j = Some job' /\ run_job job' <> None) ->
  Z.of_nat i ∈ q_fails q /\ forall j, j ∈ q_fails q -> Z.of_nat i <= j.
Proof.
  intros HQ HL Ej Er Hlow. assert (Hmin : forall j, j ∈ q_fails q -> Z.of_nat i <= j).
  { intros j Hj. destruct (failed_index m0 q cs j HQ HL Hj) as (Hb & jb & E1 & E2). destruct (Z.leb_spec (Z.of_nat i) j); [done|]. destruct (Hlow (Z.to_nat j)) as (jb' & E3 & ?); [lia|]. congruence. }
  split; [|done]. pose proof (lookup_lt_Some _ _ _ Ej) as Hi. assert (Hlog : forall l, Z.of_nat i ∈ q_log q ++ l -> Z.of_nat i ∈ l).
  { intros l [H|H]%elem_of_app; [|done]. pose proof (qo_log _ _ _ HQ) as Hg. rewrite Forall_forall in Hg. specialize (Hg _ H). cbn beta in Hg. rewrite (runs_at q _ job) in Hg by (by rewrite Nat2Z.id). rewrite Er in Hg. done. }
  destruct (q_fails q) as [|j fs] eqn:Ef.
  - assert (H : Z.of_nat i ∈ q_log q ++ []) by (rewrite app_nil_r, (left_all m0 q cs HQ HL Ef); apply elem_of_seqZ; unfold nr_jobs, zlen; lia). by apply Hlog in H.
  - rewrite <- Ef in *. assert (Hjf : j ∈ q_fails q) by (rewrite Ef; by left). assert (Hjr : j ∈ seqZ 0 (Z.min (q_next q) (nr_jobs q))) by (rewrite <- (left_jobs m0 q cs HQ HL); apply elem_of_app; right; apply elem_of_app; by left).
    apply elem_of_seqZ in Hjr. pose proof (Hmin _ Hjf). assert (H1 : Z.of_nat i ∈ q_log q ++ q_fails q ++ q_dropped q) by (rewrite (left_jobs m0 q cs HQ HL); apply elem_of_seqZ; lia).
    apply Hlog in H1. apply elem_of_app in H1 as [H1|H1]; [done|]. pose proof (qo_dropped _ _ _ HQ) as Hd. rewrite Forall_forall in Hd. destruct (Hd _ H1) as (f & Hf & ?). specialize (Hmin _ Hf). lia.
Qed.

(** The end of a batch, whatever the order the threads ran in. *)
Lemma queue_end m0 q cs : queue_ok m0 q cs -> left_queue cs -> jobs_ok (q_jobs q) -> batch_right (q_jobs q) m0 (q_failed q) (q_failed_block q) (q_mem q).
Proof.
  intros HQ HL HJ. unfold batch_right. pose proof (first_failing_spec (q_jobs q)) as HF. pose proof (left_failed m0 q cs HQ HL) as HB. destruct (first_failing (q_jobs q)) as [job|].
  - destruct HF as (i & Ej & Er & Hlow). destruct (first_failed m0 q cs i job HQ HL Ej Er Hlow) as [Hin Hmin]. split; [apply HB; intros E; rewrite E in Hin; by apply elem_of_nil in Hin|].
    pose proof (left_noticed m0 q cs _ HQ HL Hin) as Hle. unfold block_of in Hle. rewrite Nat2Z.id, Ej in Hle. destruct HJ as [Hmax Hasc _ _]. rewrite Forall_lookup in Hmax. specialize (Hmax _ _ Ej).
    destruct (qo_block _ _ _ HQ) as [Hb|(j & Hj & Hb)]; [lia|]. destruct (failed_index m0 q cs j HQ HL Hj) as (Hr & jb & Eb & _). unfold block_of in Hb. rewrite Eb in Hb. specialize (Hmin _ Hj).
    destruct (decide (Z.of_nat i = j)) as [<-|Hne]; [rewrite Nat2Z.id in Eb; congruence|]. specialize (Hasc i (Z.to_nat j) job jb ltac:(lia) Ej Eb). lia.
  - assert (Hf : q_fails q = []).
    { destruct (q_fails q) as [|j fs] eqn:Ef; [done|]. destruct (failed_index m0 q cs j HQ HL) as (Hr & jb & E1 & E2); [rewrite Ef; by left|]. destruct (HF (Z.to_nat j)) as (jb' & E3 & ?); [unfold nr_jobs, zlen in Hr; lia|]. congruence. }
    split; [destruct (q_failed q); [|done]; by destruct (proj1 HB eq_refl)|]. intros x. pose proof (left_all m0 q cs HQ HL Hf) as Hp. rewrite (qo_mem _ _ _ HQ), stored_in_order. apply stored_perm; [done| |done].
    apply Forall_forall. intros j Hj. rewrite Hp in Hj. apply elem_of_seqZ in Hj. lia.
Qed.

(** ** How much is left to do

    [n] threads: a compare-and-exchange that succeeds can make every other thread
    try again, once. *)
Definition weight (n : Z) (q : queue) (c : pc) : Z :=
  match c with
  | PIdle | PDone => 0
  | PFetch => 1
  | PCheck => 2
  | PStore _ => 3
  | PCas _ b => n + 4 + (if b =? q_failed_block q then 0 else 1)
  | PLoad _ => n + 6
  | PRun i stop => (stop - i) * (n + 7)
  end.
Definition weights (n : Z) (q : queue) (cs : list pc) : Z := foldr (fun c s => weight n q c + s) 0 cs.
Definition queue_work (n : Z) (q : queue) (cs : list pc) : Z := (nr_jobs q - Z.min (q_next q) (nr_jobs q)) * (n + 7) + weights n q cs.

Lemma weights_perm n q cs cs' : cs ≡ₚ cs' -> weights n q cs = weights n q cs'.
Proof. induction 1; cbn [weights foldr] in *; unfold weights in *; lia. Qed.
Lemma queue_work_perm n q cs cs' : cs ≡ₚ cs' -> queue_work n q cs = queue_work n q cs'.
Proof. intros H. unfold queue_work. by rewrite (weights_perm n q cs cs' H). Qed.
Lemma weights_cons n q c cs : weights n q (c :: cs) = weight n q c + weights n q cs.
Proof. done. Qed.
Lemma weight_same n q q' c : q_failed_block q' = q_failed_block q -> weight n q' c = weight n q c.
Proof. intros H. destruct c; cbn [weight]; by rewrite ?H. Qed.
Lemma weights_same n q q' cs : q_failed_block q' = q_failed_block q -> weights n q' cs = weights n q cs.
Proof. intros H. induction cs as [|c cs IH]; [done|]. by rewrite !weights_cons, IH, (weight_same _ _ _ _ H). Qed.
Lemma weights_again n q q' cs : weights n q' cs <= weights n q cs + zlen cs.
Proof.
  induction cs as [|c cs IH]; [done|]. rewrite !weights_cons. change (c :: cs) with ([c] ++ cs). rewrite zlen_app. change (zlen [c]) with 1.
  assert (weight n q' c <= weight n q c + 1); [|lia]. destruct c; cbn [weight]; try lia. destruct (_ =? q_failed_block q'), (_ =? q_failed_block q); lia.
Qed.
Lemma weights_nonneg n q cs : 0 <= n -> Forall (pc_ok q) cs -> 0 <= weights n q cs.
Proof.
  intros Hn. induction 1 as [|c cs Hc _ IH]; [done|]. rewrite weights_cons. assert (0 <= weight n q c); [|lia]. destruct c; cbn [weight pc_ok] in *; try lia; [nia|]. destruct (_ =? _); lia.
Qed.
Lemma queue_work_nonneg m0 n q cs : 0 <= n -> queue_ok m0 q cs -> 0 <= queue_work n q cs.
Proof. intros Hn HQ. pose proof (weights_nonneg n q cs Hn (qo_pcs _ _ _ HQ)). unfold queue_work. nia. Qed.

(** A thread that is not through has a step. *)
Lemma pc_moves q c stale : pc_ok q c -> c <> PIdle -> c <> PDone -> exists q' c', pc_step lz4 stale q c = Some (q', c').
Proof.
  intros Hc H1 H2. destruct c; try done; cbn [pc_step pc_ok] in *; try (by eexists _, _); try (destruct (_ && _); by eexists _, _); try (destruct (_ >=? _); by eexists _, _); try (destruct (_ =? _); by eexists _, _).
  destruct (lookup_lt_is_Some_2 (q_jobs q) (Z.to_nat i)) as [job ->]; [unfold nr_jobs, zlen in Hc; lia|]. destruct (run_job job); by eexists _, _.
Qed.

(** Each step leaves less to do. *)
Lemma queue_work_step m0 n q c rs q' c' stale : queue_ok m0 q (c :: rs) -> zlen rs < n -> pc_step lz4 stale q c = Some (q', c') -> queue_work n q' (c' :: rs) < queue_work n q (c :: rs).
Proof.
  intros HQ Hn H. pose proof (qo_pcs _ _ _ HQ) as [HP _]%Forall_cons_1. pose proof (zlen_nonneg rs). unfold queue_work. rewrite !weights_cons. destruct c as [| | |i stop|i|i b|i|]; try done; cbn [pc_step pc_ok] in *.
  - destruct (_ && _); injection H as <- <-; cbn [weight]; lia.
  - rewrite (fetch_facts m0 q rs HQ) in H. pose proof (qo_chunk _ _ _ HQ). pose proof (qo_next _ _ _ HQ).
    change (q_chunk (set_next _ q)) with (q_chunk q) in H. change (nr_jobs (set_next _ q)) with (nr_jobs q) in H. rewrite (fetch_facts m0 q rs HQ), Z.geb_leb, Z.gtb_ltb in H.
    destruct (Z.leb_spec (nr_jobs q) (q_next q)); [injection H as <- <-|destruct (Z.ltb_spec (nr_jobs q) (q_next q + q_chunk q)); injection H as <- <-]; rewrite (weights_same n q (set_next _ q)) by done;
      change (nr_jobs (set_next _ q)) with (nr_jobs q); cbn [weight set_next q_next]; [rewrite !Z.min_r by lia; lia|rewrite Z.min_r, Z.min_l by lia; nia|rewrite !Z.min_l by lia; nia].
  - destruct (q_jobs q !! Z.to_nat i) as [job|]; [|done]. destruct (run_job job); injection H as <- <-.
    + rewrite (weights_same n q (note_done _ _ q)) by done. change (nr_jobs (note_done _ _ q)) with (nr_jobs q). cbn [note_done q_next]. destruct (Z.ltb_spec (i + 1) stop); cbn [weight]; nia.
    + rewrite (weights_same n q (note_failed _ _ q)) by done. change (nr_jobs (note_failed _ _ q)) with (nr_jobs q). cbn [note_failed q_next weight]. nia.
  - injection H as <- <-. unfold record_from. destruct (_ <? _); cbn [weight]; [destruct (_ =? _)|]; lia.
  - destruct (Z.eqb_spec (q_failed_block q) b) as [<-|Hne]; injection H as <- <-.
    + pose proof (weights_again n q (set_failed_block (block_of q i) q) rs). change (nr_jobs (set_failed_block _ q)) with (nr_jobs q). cbn [weight set_failed_block q_next]. rewrite Z.eqb_refl. lia.
    + unfold record_from. destruct (_ <? _); cbn [weight]; rewrite ?Z.eqb_refl, ?(proj2 (Z.eqb_neq b (q_failed_block q))) by done; lia.
  - injection H as <- <-. rewrite (weights_same n q (set_failed q)) by done. change (nr_jobs (set_failed q)) with (nr_jobs q). cbn [weight set_failed q_next]. lia.
Qed.

(** A queue as a batch starts. *)
Definition fresh (c : pc) : Prop := c = PIdle \/ c = PCheck.
Lemma fresh_claimed cs : Forall fresh cs -> cs ≫= claimed = [] /\ done_count cs = 0.
Proof. induction 1 as [|c cs [-> | ->] _ [IH1 IH2]]; [done|..]; rewrite bind_cons, done_count_cons, IH1, IH2; done. Qed.
Lemma queue_init_ok jobs nr_threads m cs : 1 <= nr_threads -> zlen jobs + PARALLEL_DECOMPRESS_MAX_JOB_CHUNK * (2 + zlen cs) < 2 ^ 64 -> Forall fresh cs -> queue_ok m (decompress_queue_init jobs nr_threads m) cs.
Proof.
  intros Ht Hr Hc. destruct (fresh_claimed cs Hc) as [E1 E2]. pose proof (zlen_nonneg jobs). assert (Hk : 1 <= q_chunk (decompress_queue_init jobs nr_threads m) <= PARALLEL_DECOMPRESS_MAX_JOB_CHUNK).
  { cbn [decompress_queue_init q_chunk]. assert (0 <= zlen jobs / nr_threads / 4) by (apply Z.div_pos; [apply Z.div_pos; lia|lia]). unfold PARALLEL_DECOMPRESS_MAX_JOB_CHUNK in *. rewrite Z.gtb_ltb.
    destruct (Z.eqb_spec (zlen jobs / nr_threads / 4) 0); [done|]. destruct (Z.ltb_spec 8 (zlen jobs / nr_threads / 4)); lia. }
  split; try done; [rewrite E2; change (nr_jobs (decompress_queue_init jobs nr_threads m)) with (zlen jobs); change (q_next (decompress_queue_init jobs nr_threads m)) with 0; nia| | |by left].
  - rewrite E1. change (q_next (decompress_queue_init jobs nr_threads m)) with 0. change (nr_jobs (decompress_queue_init jobs nr_threads m)) with (zlen jobs). by rewrite Z.min_l by done.
  - eapply Forall_impl; [exact Hc|]. by intros c [-> | ->].
Qed.

Lemma run_jobs_same stale q c q' c' : pc_step lz4 stale q c = Some (q', c') -> q_jobs q' = q_jobs q.
Proof.
  destruct c; try done; cbn [pc_step]; [destruct (_ && _)|destruct (_ >=? _)| | |destruct (_ =? _)|]; try (by intros [= <- _]). destruct (q_jobs q !! Z.to_nat i) as [job|] eqn:E; [|done]. destruct (run_job job); by intros [= <- _].
Qed.

(** One thread alone comes to the end. *)
Lemma queue_run_end m0 fuel q c : queue_ok m0 q [c] -> c <> PIdle -> queue_work 1 q [c] <= Z.of_nat fuel -> exists q', queue_run lz4 fuel q c = Ret q' /\ queue_ok m0 q' [PDone] /\ q_jobs q' = q_jobs q.
Proof.
  revert q c. induction fuel as [|fuel IH]; intros q c HQ Hi Hw; (destruct (decide (c = PDone)) as [->|Hd]; [exists q; cbn; by destruct_and?|]).
  - destruct (pc_moves q c None) as (q' & c' & E); [by pose proof (qo_pcs _ _ _ HQ) as [? _]%Forall_cons_1|done..|]. pose proof (queue_work_step m0 1 q c [] q' c' None HQ ltac:(done) E).
    pose proof (queue_work_nonneg m0 1 q' [c'] ltac:(lia) (proj1 (queue_step m0 q c [] q' c' None HQ E))). lia.
  - destruct (pc_moves q c None) as (q' & c' & E); [by pose proof (qo_pcs _ _ _ HQ) as [? _]%Forall_cons_1|done..|]. pose proof (queue_work_step m0 1 q c [] q' c' None HQ ltac:(done) E) as Hlt.
    destruct (queue_step m0 q c [] q' c' None HQ E) as [HQ' _]. assert (Hi' : c' <> PIdle) by (intros ->; by destruct c; cbn in E; repeat case_match; simplify_eq; unfold record_from in *; repeat case_match).
    destruct (IH q' c' HQ' Hi' ltac:(lia)) as (q2 & R1 & R2 & R3). exists q2. split; [|split; [done|by rewrite R3, (run_jobs_same _ _ _ _ _ E)]]. destruct c; try done; cbn [queue_run]; rewrite E; exact R1.
Qed.

Lemma jobs_serial_ok jobs m : jobs_ok jobs -> zlen jobs < 2 ^ 63 -> exists failed fb m', decompress_jobs_serial lz4 jobs m = Ret (if failed : bool then -1 else 0, m') /\ batch_right jobs m failed fb m'.
Proof.
  intros HJ Hn. assert (HQ : queue_ok m (decompress_queue_init jobs 1 m) [PCheck]) by (apply queue_init_ok; [lia|unfold PARALLEL_DECOMPRESS_MAX_JOB_CHUNK; change (zlen [PCheck]) with 1; lia|constructor; [by right|done]]).
  destruct (queue_run_end m (serial_fuel jobs) _ PCheck HQ) as (q & E1 & E2 & E3); [done| |].
  { unfold queue_work. change (q_next (decompress_queue_init jobs 1 m)) with 0. change (nr_jobs (decompress_queue_init jobs 1 m)) with (zlen jobs). rewrite Z.min_l by apply zlen_nonneg. cbn [weights foldr weight]. unfold serial_fuel, zlen. lia. }
  exists (q_failed q), (q_failed_block q), (q_mem q). unfold decompress_jobs_serial. rewrite E1. split; [done|]. change (q_jobs (decompress_queue_init jobs 1 m)) with jobs in E3. rewrite <- E3 in *.
  apply (queue_end m q [PDone] E2); [|done]. split; [by repeat constructor; right|by left].
Qed.
End QueueOk.
