(* ===== verification/DecompressPool.v ===== *)
(** The pool of decompression threads of criu/compression.c: a caller publishes a
    batch of jobs, the selected workers and the caller drain the queue, and the
    caller waits until no worker uses the queue any more.

    [pool_step] is one step of the caller or of a worker: a step in the queue
    ([pc_step]) or a section under the lock of the pool, up to the next unlock
    or wait.  A wait on a condition variable may end without a signal ([LWakeCaller],
    [LWakeWorker]).  [p_start] and [p_batches] record, for the proofs, the memory a
    batch started with and what the finished batches came to.

    Not part of the model: errors of the pthread functions that run into BUG(), the
    stack size and the signals of the threads, and the optional work of the
    caller between publishing a batch and helping with it, which is a delay here. *)
From S2P Require Import Prelude PagemapImage PageRead AsyncQueue ReadPages DecompressQueue.

(** Where a worker is: about to test the condition of its loop with the lock held;
    waiting for [work_ready]; in the queue, or about to report when it is through. *)
Inductive worker_place :=
| WTest
| WSleep
| WRun (c : pc)
| WExit.
Record worker := Worker { w_index : Z; w_seen : Z; w_place : worker_place }.

(** Where the caller is: outside; in the queue of a batch, or about to finish it;
    waiting for [work_done]; joining worker [w]; through with the pool. *)
Inductive caller_place :=
| CIdle
| CRun (c : pc)
| CSleep
| CJoin (w : Z)
| CGone.

#[global] Instance caller_place_eq_dec : EqDecision caller_place.
Proof. solve_decision. Defined.

(** A finished batch. *)
Record batch := Batch { b_jobs : list decompress_job; b_start : bytes_at; b_failed : bool; b_failed_block : Z; b_mem : bytes_at }.

Record pool := Pool {
  p_queue : queue;
  batch_workers : Z;
  pending_batch_workers : Z;
  batch_generation : Z;
  batch_active : bool;
  p_stop : bool;
  p_workers : list worker;
  p_caller : caller_place;
  p_start : bytes_at;
  p_batches : list batch
}.
Definition nr_workers (p : pool) : Z := zlen (p_workers p).
Definition set_queue (q : queue) (p : pool) : pool :=
  Pool q (batch_workers p) (pending_batch_workers p) (batch_generation p) (batch_active p) (p_stop p) (p_workers p) (p_caller p) (p_start p) (p_batches p).
Definition set_caller (c : caller_place) (p : pool) : pool :=
  Pool (p_queue p) (batch_workers p) (pending_batch_workers p) (batch_generation p) (batch_active p) (p_stop p) (p_workers p) c (p_start p) (p_batches p).
Definition set_workers (ws : list worker) (p : pool) : pool :=
  Pool (p_queue p) (batch_workers p) (pending_batch_workers p) (batch_generation p) (batch_active p) (p_stop p) ws (p_caller p) (p_start p) (p_batches p).
Definition set_pending (n : Z) (p : pool) : pool :=
  Pool (p_queue p) (batch_workers p) n (batch_generation p) (batch_active p) (p_stop p) (p_workers p) (p_caller p) (p_start p) (p_batches p).

(** pthread_cond_broadcast(&pool->work_ready), pthread_cond_signal(&pool->work_done). *)
Definition wake_worker (w : worker) : worker := match w_place w with WSleep => Worker (w_index w) (w_seen w) WTest | _ => w end.
Definition wake_caller (c : caller_place) : caller_place := match c with CSleep => CRun PDone | c => c end.

(** [decompression_pool_spawn_workers]: [starts] is what pthread_create() answers at
    each attempt. *)
Fixpoint decompression_pool_spawn_workers (starts : list bool) (nr : nat) (ws : list worker) {struct nr} : list worker :=
  match nr with
  | O => ws
  | S nr =>
      match starts with
      | true :: starts => decompression_pool_spawn_workers starts nr (ws ++ [Worker (zlen ws) 0 WTest])
      | _ => ws
      end
  end.

(** [decompression_pool_create], with [mask_restore_failed]; [setup]: memory, lock,
    conditions, attributes and the blocking of signals are all right; [unmask]: the
    signal mask of the caller could be restored. *)
Definition decompression_pool_create (setup : bool) (starts : list bool) (unmask : bool) (nr_threads : Z) : option pool * bool :=
  if nr_threads <=? 1 then (None, false)
  else if negb setup then (None, false)
  else
    let ws := decompression_pool_spawn_workers starts (Z.to_nat (nr_threads - 1)) [] in
    if zlen ws =? 0 then (None, negb unmask)
    else (Some (Pool (Queue [] 0 0 false 0 (fun _ => 0) [] [] []) 0 0 0 false false ws CIdle (fun _ => 0) []), negb unmask).

(** The test a worker makes under the lock, and its report followed by that test. *)
Definition worker_test (p : pool) (w : worker) : worker :=
  if p_stop p then Worker (w_index w) (w_seen w) WExit
  else if negb (w_seen w =? batch_generation p) && (w_index w <? batch_workers p) then Worker (w_index w) (batch_generation p) (WRun PCheck)
  else Worker (w_index w) (w_seen w) WSleep.
Definition worker_report (k : nat) (p : pool) (w : worker) : outcome pool :=
  if pending_batch_workers p =? 0 then Bug
  else
    let p := set_pending (pending_batch_workers p - 1) p in
    let p := if pending_batch_workers p =? 0 then set_caller (wake_caller (p_caller p)) p else p in
    Ret (set_workers (<[k := worker_test p w]> (p_workers p)) p).

Definition decompression_pool_start_batch (jobs : list decompress_job) (m : bytes_at) (active_threads : Z) (p : pool) : outcome pool :=
  if batch_active p || negb (pending_batch_workers p =? 0) then Bug
  else
    Ret (Pool (decompress_queue_init jobs active_threads m) (active_threads - 1) (active_threads - 1) (u64 (batch_generation p + 1)) true (p_stop p) (wake_worker <$> p_workers p) (CRun PCheck) m (p_batches p)).

(** [decompression_pool_finish_batch], from the lock to the wait or the unlock. *)
Definition decompression_pool_finish_batch (p : pool) : pool :=
  let q := p_queue p in
  if negb (pending_batch_workers p =? 0) then set_caller CSleep p
  else
    Pool (Queue [] (q_chunk q) (q_next q) (q_failed q) (q_failed_block q) (q_mem q) [] [] []) 0 (pending_batch_workers p) (batch_generation p) false (p_stop p) (p_workers p) CIdle (p_start p)
      (p_batches p ++ [Batch (q_jobs q) (p_start p) (q_failed q) (q_failed_block q) (q_mem q)]).

Definition decompression_pool_destroy (p : pool) : outcome pool :=
  if batch_active p || negb (pending_batch_workers p =? 0) then Bug
  else
    Ret (Pool (p_queue p) (batch_workers p) (pending_batch_workers p) (batch_generation p) (batch_active p) true (wake_worker <$> p_workers p) (CJoin 0) (p_start p) (p_batches p)).

Inductive label :=
| LStart (jobs : list decompress_job) (m : bytes_at) (threads_held : Z)
| LDestroy
| LCaller (stale : option Z)
| LWorker (k : nat) (stale : option Z)
| LWakeCaller
| LWakeWorker (k : nat).

Section Step.
Context (lz4 : list Z -> Z -> option (list Z)).

(** The caller's next step; [None]: it has to wait. *)
Definition caller_step (stale : option Z) (p : pool) : option (outcome pool) :=
  match p_caller p with
  | CIdle | CSleep | CGone => None
  | CRun PDone => Some (Ret (decompression_pool_finish_batch p))
  | CRun c => match pc_step lz4 stale (p_queue p) c with Some (q, c) => Some (Ret (set_caller (CRun c) (set_queue q p))) | None => None end
  | CJoin w =>
      match p_workers p !! Z.to_nat w with
      | None => Some (Ret (set_caller CGone p))
      | Some wk => match w_place wk with WExit => Some (Ret (set_caller (CJoin (w + 1)) p)) | _ => None end
      end
  end.

(** [decompression_pool_worker]. *)
Definition decompression_pool_worker (k : nat) (stale : option Z) (p : pool) : option (outcome pool) :=
  match p_workers p !! k with
  | None => None
  | Some w =>
      match w_place w with
      | WSleep | WExit => None
      | WTest => Some (Ret (set_workers (<[k := worker_test p w]> (p_workers p)) p))
      | WRun PDone => Some (worker_report k p w)
      | WRun c =>
          match pc_step lz4 stale (p_queue p) c with
          | Some (q, c) => Some (Ret (set_workers (<[k := Worker (w_index w) (w_seen w) (WRun c)]> (p_workers p)) (set_queue q p)))
          | None => None
          end
      end
  end.

(** A batch of [decompress_jobs_parallel_pool_with_caller_work] starts with at least
    one job and at least two slots; a pool may have fewer threads than slots. *)
Definition pool_step (l : label) (p : pool) : option (outcome pool) :=
  match l with
  | LStart jobs m threads_held =>
      match p_caller p with
      | CIdle => if (zlen jobs =? 0) || (threads_held <? 2) then None else Some (decompression_pool_start_batch jobs m (Z.min threads_held (nr_workers p + 1)) p)
      | _ => None
      end
  | LDestroy => match p_caller p with CIdle => Some (decompression_pool_destroy p) | _ => None end
  | LCaller stale => caller_step stale p
  | LWorker k stale => decompression_pool_worker k stale p
  | LWakeCaller => match p_caller p with CSleep => Some (Ret (set_caller (CRun PDone) p)) | _ => None end
  | LWakeWorker k =>
      match p_workers p !! k with
      | Some w => match w_place w with WSleep => Some (Ret (set_workers (<[k := wake_worker w]> (p_workers p)) p)) | _ => None end
      | None => None
      end
  end.

Fixpoint pool_run (ls : list label) (p : pool) : option (outcome pool) :=
  match ls with
  | [] => Some (Ret p)
  | l :: ls => match pool_step l p with Some (Ret p) => pool_run ls p | o => o end
  end.
End Step.

(** ** What holds of the pool *)
Section PoolOk.
Context (lz4 : list Z -> Z -> option (list Z)).

Definition in_queue (w : worker) : bool := match w_place w with WRun _ => true | _ => false end.
Definition selected (bw : Z) (w : worker) : bool := w_index w <? bw.

(** A selected worker has not reported yet. *)
Definition unreported (gen bw : Z) (w : worker) : bool := selected bw w && (negb (w_seen w =? gen) || in_queue w).
Definition unreported_count (gen bw : Z) (ws : list worker) : Z := zlen (filter (fun w => unreported gen bw w = true) ws).

(** The places of the threads in the queue; a worker that has reported stays at the end. *)
Definition worker_pc (gen bw : Z) (w : worker) : pc :=
  match w_place w with
  | WRun c => c
  | _ => if selected bw w && (w_seen w =? gen) then PDone else PIdle
  end.
Definition caller_pc (c : caller_place) : pc := match c with CRun c => c | CSleep => PDone | _ => PIdle end.
Definition pcs (p : pool) : list pc := caller_pc (p_caller p) :: (worker_pc (batch_generation p) (batch_workers p) <$> p_workers p).

(** A worker during a batch: in the queue only if selected, asleep only if it has
    nothing to do for the batch. *)
Definition worker_busy_ok (gen bw : Z) (w : worker) : Prop :=
  match w_place w with
  | WTest => True
  | WSleep => selected bw w = true -> w_seen w = gen
  | WRun c => c <> PIdle /\ selected bw w = true /\ w_seen w = gen
  | WExit => False
  end.
Definition worker_quiet_ok (stop : bool) (w : worker) : Prop :=
  match w_place w with
  | WTest => True
  | WSleep => stop = false
  | WRun _ => False
  | WExit => stop = true
  end.

Record busy (p : pool) : Prop := Busy {
  bu_active : batch_active p = true;
  bu_stop : p_stop p = false;
  bu_selected : 1 <= batch_workers p <= nr_workers p;
  bu_queue : queue_ok lz4 (p_start p) (p_queue p) (pcs p);
  bu_jobs : jobs_ok (q_jobs (p_queue p));
  bu_pending : pending_batch_workers p = unreported_count (batch_generation p) (batch_workers p) (p_workers p);
  bu_workers : Forall (worker_busy_ok (batch_generation p) (batch_workers p)) (p_workers p)
}.
Record quiet (stop : bool) (p : pool) : Prop := Quiet {
  qu_active : batch_active p = false;
  qu_stop : p_stop p = stop;
  qu_selected : batch_workers p = 0;
  qu_pending : pending_batch_workers p = 0;
  qu_jobs : q_jobs (p_queue p) = [] /\ 0 <= q_next (p_queue p);
  qu_workers : Forall (worker_quiet_ok stop) (p_workers p)
}.
Definition phase_ok (p : pool) : Prop :=
  match p_caller p with
  | CIdle => quiet false p
  | CRun c => busy p /\ c <> PIdle
  | CSleep => busy p /\ pending_batch_workers p <> 0
  | CJoin w => quiet true p /\ 0 <= w <= nr_workers p /\ forall k wk, Z.of_nat k < w -> p_workers p !! k = Some wk -> w_place wk = WExit
  | CGone => quiet true p /\ Forall (fun w => w_place w = WExit) (p_workers p)
  end.

Definition batch_ok (b : batch) : Prop := batch_right lz4 (b_jobs b) (b_start b) (b_failed b) (b_failed_block b) (b_mem b).

(** [starts]: the batches started so far, as published. *)
Record pool_ok (starts : list (list decompress_job * bytes_at)) (p : pool) : Prop := PoolOk {
  po_nr : 1 <= nr_workers p < 2 ^ 32;
  po_index : w_index <$> p_workers p = seqZ 0 (nr_workers p);
  po_gen : batch_generation p = zlen starts;
  po_seen : Forall (fun w => 0 <= w_seen w <= batch_generation p) (p_workers p);
  po_phase : phase_ok p;
  po_batches : Forall batch_ok (p_batches p);
  po_starts : ((fun b => (b_jobs b, b_start b)) <$> p_batches p) ++ (if batch_active p then [(q_jobs (p_queue p), p_start p)] else []) = starts
}.

(** Fields of a pool one operation has changed. *)
Ltac pool_cbn := cbn [set_pending set_caller set_workers set_queue batch_active p_stop batch_workers p_queue p_start pending_batch_workers batch_generation p_workers p_caller p_batches] in *.

(** *** One worker changes *)
Lemma workers_split (ws : list worker) k w : ws !! k = Some w -> ws ≡ₚ w :: delete k ws.
Proof. apply delete_Permutation. Qed.
Lemma workers_insert (ws : list worker) k w w' : ws !! k = Some w -> <[k := w']> ws ≡ₚ w' :: delete k ws.
Proof. intros H. rewrite insert_take_drop by (by eapply lookup_lt_Some). rewrite delete_take_drop. by rewrite Permutation_middle. Qed.
Lemma index_insert (ws : list worker) k w w' : ws !! k = Some w -> w_index w' = w_index w -> w_index <$> <[k := w']> ws = w_index <$> ws.
Proof. intros H E. rewrite list_fmap_insert, E. apply list_insert_id. by rewrite list_lookup_fmap, H. Qed.
Lemma unreported_count_perm gen bw ws ws' : ws ≡ₚ ws' -> unreported_count gen bw ws = unreported_count gen bw ws'.
Proof. intros H. unfold unreported_count, zlen. by rewrite H. Qed.
Lemma unreported_count_cons gen bw w ws : unreported_count gen bw (w :: ws) = (if unreported gen bw w then 1 else 0) + unreported_count gen bw ws.
Proof.
  unfold unreported_count, zlen. destruct (unreported gen bw w) eqn:E; [rewrite filter_cons_True by done; cbn [length]; lia|rewrite filter_cons_False by congruence; lia].
Qed.
Lemma unreported_insert gen bw ws k w w' : ws !! k = Some w -> unreported_count gen bw (<[k := w']> ws) = unreported_count gen bw ws + (if unreported gen bw w' then 1 else 0) - (if unreported gen bw w then 1 else 0).
Proof.
  intros H. rewrite (unreported_count_perm _ _ _ _ (workers_insert ws k w w' H)), (unreported_count_perm gen bw ws _ (workers_split ws k w H)), !unreported_count_cons. lia.
Qed.
Lemma worker_at (P : worker -> Prop) ws k w : Forall P ws -> ws !! k = Some w -> P w.
Proof. rewrite Forall_lookup. eauto. Qed.

Lemma pcs_split p k w : p_workers p !! k = Some w -> pcs p ≡ₚ worker_pc (batch_generation p) (batch_workers p) w :: caller_pc (p_caller p) :: (worker_pc (batch_generation p) (batch_workers p) <$> delete k (p_workers p)).
Proof. intros H. unfold pcs. rewrite (workers_split _ _ _ H) at 1. rewrite fmap_cons. apply perm_swap. Qed.
Lemma pcs_insert p p' k w w' : p_workers p !! k = Some w -> p_workers p' = <[k := w']> (p_workers p) -> batch_generation p' = batch_generation p -> batch_workers p' = batch_workers p -> caller_pc (p_caller p') = caller_pc (p_caller p) ->
  pcs p' ≡ₚ worker_pc (batch_generation p) (batch_workers p) w' :: caller_pc (p_caller p) :: (worker_pc (batch_generation p) (batch_workers p) <$> delete k (p_workers p)).
Proof. intros H E1 E2 E3 E4. unfold pcs. rewrite E1, E2, E3, E4. rewrite (workers_insert _ _ _ w' H). rewrite fmap_cons. apply perm_swap. Qed.

(** A batch goes on: a worker moves, in the queue or out of it. *)
Lemma busy_worker p k w w' q' pend' c' : busy p -> p_workers p !! k = Some w -> w_index w' = w_index w -> caller_pc c' = caller_pc (p_caller p) -> q_jobs q' = q_jobs (p_queue p) ->
  queue_ok lz4 (p_start p) q' (worker_pc (batch_generation p) (batch_workers p) w' :: caller_pc (p_caller p) :: (worker_pc (batch_generation p) (batch_workers p) <$> delete k (p_workers p))) ->
  pend' = pending_batch_workers p + (if unreported (batch_generation p) (batch_workers p) w' then 1 else 0) - (if unreported (batch_generation p) (batch_workers p) w then 1 else 0) ->
  worker_busy_ok (batch_generation p) (batch_workers p) w' -> busy (set_pending pend' (set_caller c' (set_workers (<[k := w']> (p_workers p)) (set_queue q' p)))).
Proof.
  intros [B1 B2 B3 B4 B5 B6 B7] Hk Hi Hc Hj HQ Hp Hw. split; pool_cbn; try done.
  - unfold nr_workers, zlen in *. pool_cbn. by rewrite length_insert.
  - by rewrite (pcs_insert p _ k w w').
  - by rewrite Hj.
  - rewrite (unreported_insert _ _ _ _ _ _ Hk). lia.
  - by apply Forall_insert.
Qed.
Lemma busy_phase p : phase_ok p -> batch_active p = true -> busy p.
Proof. unfold phase_ok. destruct (p_caller p); try (intros [? _]; done); [intros [H ? ? ? ? ?]|intros [[H ? ? ? ? ?] _]|intros [[H ? ? ? ? ?] _]]; congruence. Qed.

(** A step of a thread in the queue, as one of the threads [cs]. *)
Lemma thread_step p c rs cs q' c' stale : busy p -> pcs p ≡ₚ c :: rs -> cs ≡ₚ c' :: rs -> pc_step lz4 stale (p_queue p) c = Some (q', c') -> queue_ok lz4 (p_start p) q' cs /\ q_jobs q' = q_jobs (p_queue p).
Proof.
  intros HB Hs Hs' H. split; [|by apply (run_jobs_same lz4 stale _ c _ c')]. rewrite Hs'. apply (queue_step lz4 (p_start p) (p_queue p) c rs q' c' stale); [|done]. rewrite <- Hs. apply HB.
Qed.
Lemma pc_step_not_idle stale q c q' c' : pc_step lz4 stale q c = Some (q', c') -> c' <> PIdle.
Proof. intros E ->. destruct c; cbn in E; repeat case_match; simplify_eq; unfold record_from in *; by repeat case_match. Qed.

(** *** The steps *)
Abbreviation step := (pool_step lz4).
Definition start_of (l : label) : list (list decompress_job * bytes_at) := match l with LStart jobs m _ => [(jobs, m)] | _ => [] end.
Definition label_ok (l : label) : Prop := match l with LStart jobs _ _ => jobs_ok jobs /\ zlen jobs < 2 ^ 63 | _ => True end.

Lemma wake_index (ws : list worker) : w_index <$> (wake_worker <$> ws) = w_index <$> ws.
Proof. induction ws as [|w ws IH]; [done|]. cbn. f_equal; [|done]. unfold wake_worker. by destruct (w_place w). Qed.
Lemma wake_seen (P : Z -> Prop) ws : Forall (fun w => P (w_seen w)) ws -> Forall (fun w => P (w_seen w)) (wake_worker <$> ws).
Proof. intros H. apply Forall_fmap. eapply Forall_impl; [exact H|]. intros w. cbn. unfold wake_worker. by destruct (w_place w). Qed.
Lemma wake_length (ws : list worker) : zlen (wake_worker <$> ws) = zlen ws.
Proof. unfold zlen. by rewrite length_fmap. Qed.

Lemma count_below bw n : 0 <= bw -> zlen (filter (fun i => (i <? bw) = true) (seqZ 0 (Z.of_nat n))) = Z.min bw (Z.of_nat n).
Proof.
  intros Hb. induction n as [|n IH]; [change (zlen (filter _ (seqZ 0 (Z.of_nat 0)))) with 0; lia|]. rewrite seqZ_S, filter_app, zlen_app, IH. destruct (Z.ltb_spec (0 + Z.of_nat n) bw).
  - rewrite filter_cons_True, filter_nil by (by apply Z.ltb_lt). change (zlen [0 + Z.of_nat n]) with 1. lia.
  - rewrite filter_cons_False, filter_nil by (rewrite Z.ltb_lt; lia). change (zlen []) with 0. lia.
Qed.
Lemma all_unreported gen bw (ws : list worker) : w_index <$> ws = seqZ 0 (zlen ws) -> 0 <= bw <= zlen ws -> Forall (fun w => w_seen w < gen) ws -> unreported_count gen bw ws = bw.
Proof.
  intros Hi Hb Hs. assert (E : unreported_count gen bw ws = zlen (filter (fun i => (i <? bw) = true) (w_index <$> ws))).
  { clear Hi Hb. induction Hs as [|w ws Hw _ IH]; [done|]. rewrite unreported_count_cons, fmap_cons, IH. unfold unreported, selected. rewrite (proj2 (Z.eqb_neq (w_seen w) gen)) by lia. cbn [negb orb]. rewrite andb_true_r.
    destruct (w_index w <? bw) eqn:E; [rewrite filter_cons_True by done|rewrite filter_cons_False by congruence]; unfold zlen; cbn [length]; lia. }
  rewrite E, Hi. unfold zlen at 2. unfold zlen in Hb. rewrite count_below; lia.
Qed.

Lemma start_step starts p jobs m threads : pool_ok starts p -> zlen starts + 1 < 2 ^ 64 -> label_ok (LStart jobs m threads) -> p_caller p = CIdle -> 2 <= threads ->
  exists p', decompression_pool_start_batch jobs m (Z.min threads (nr_workers p + 1)) p = Ret p' /\ pool_ok (starts ++ [(jobs, m)]) p'.
Proof.
  intros [P1 P2 P3 P4 P5 P6 P7] Hn [Hj Hz] Hc Ht. unfold phase_ok in P5. rewrite Hc in P5. destruct P5 as [Q1 Q2 Q3 Q4 Q5 Q6]. unfold decompression_pool_start_batch. rewrite Q1, Q4. cbn [orb negb Z.eqb]. eexists. split; [done|].
  pose proof (zlen_nonneg starts). rewrite u64_small by lia. set (n := Z.min threads (nr_workers p + 1)). assert (Hb : 2 <= n <= nr_workers p + 1) by lia.
  assert (Hs : Forall (fun w => w_seen w < batch_generation p + 1) (wake_worker <$> p_workers p)) by (apply (wake_seen (fun s => s < _)); eapply Forall_impl; [exact P4|]; cbn; lia).
  assert (Hfresh : Forall fresh (worker_pc (batch_generation p + 1) (n - 1) <$> (wake_worker <$> p_workers p))).
  { apply Forall_fmap, Forall_fmap. apply Forall_forall. intros w Hw. rewrite Forall_fmap, !Forall_forall in *. specialize (Hs w Hw). specialize (Q6 w Hw). left. cbn in *. unfold worker_pc, worker_quiet_ok, wake_worker in *.
    destruct (w_place w) eqn:E; rewrite ?E; cbn [w_place w_seen w_index] in *; try done; rewrite (proj2 (Z.eqb_neq (w_seen w) _)) by lia; by rewrite andb_false_r. }
  match goal with |- pool_ok _ ?p' => assert (En : nr_workers p' = nr_workers p) by apply wake_length end. split; rewrite ?En; pool_cbn; rewrite ?wake_index; try done.
  - rewrite zlen_app. change (zlen [(jobs, m)]) with 1. lia.
  - apply (wake_seen (fun s => 0 <= s <= _)). eapply Forall_impl; [exact P4|]. cbn. lia.
  - split; [|done]. split; cbn [batch_active p_stop batch_workers p_queue p_start pending_batch_workers batch_generation p_workers q_jobs]; try done.
    + rewrite En. lia.
    + apply queue_init_ok; [lia| |by constructor; [right|]]. unfold pcs. cbn [p_workers]. unfold zlen at 2. cbn [length]. rewrite !length_fmap. unfold nr_workers, zlen, PARALLEL_DECOMPRESS_MAX_JOB_CHUNK in *. lia.
    + rewrite all_unreported; [done| |unfold nr_workers in *; rewrite wake_length; lia|done]. rewrite wake_index, wake_length. done.
    + apply Forall_fmap. eapply Forall_impl; [exact Q6|]. intros w. cbn. unfold worker_quiet_ok, worker_busy_ok, wake_worker. destruct (w_place w) eqn:E; rewrite ?E; cbn [w_place]; done.
  - rewrite Q1, app_nil_r in P7. by rewrite P7.
Qed.

(** A step within a batch, or outside of one. *)
Lemma pool_next starts p p' : pool_ok starts p -> w_index <$> p_workers p' = w_index <$> p_workers p -> batch_generation p' = batch_generation p -> Forall (fun w => 0 <= w_seen w <= batch_generation p) (p_workers p') ->
  p_batches p' = p_batches p -> batch_active p' = batch_active p -> p_start p' = p_start p -> q_jobs (p_queue p') = q_jobs (p_queue p) -> phase_ok p' -> pool_ok starts p'.
Proof.
  intros [P1 P2 P3 P4 P5 P6 P7] E1 E2 E3 E4 E5 E6 E7 H. assert (En : nr_workers p' = nr_workers p) by (apply (f_equal (fun l => Z.of_nat (length l))) in E1; by rewrite !length_fmap in E1).
  split; rewrite ?En, ?E1, ?E2, ?E4, ?E5, ?E6, ?E7; done.
Qed.
Lemma nr_workers_set ws p k w : p_workers p = ws -> nr_workers (set_workers (<[k := w]> ws) p) = nr_workers p.
Proof. intros <-. unfold nr_workers, zlen. pool_cbn. by rewrite length_insert. Qed.

(** A wake-up without a signal. *)
Lemma wake_worker_step starts p k w : pool_ok starts p -> p_workers p !! k = Some w -> w_place w = WSleep -> pool_ok starts (set_workers (<[k := wake_worker w]> (p_workers p)) p).
Proof.
  intros HP Hk Hw. pose proof HP as [P1 P2 P3 P4 P5 P6 P7]. assert (Ew : wake_worker w = Worker (w_index w) (w_seen w) WTest) by (unfold wake_worker; by rewrite Hw). rewrite Ew.
  apply (pool_next starts p); try done; [by apply (index_insert _ _ w)|apply Forall_insert; [done|]; apply (worker_at _ _ _ _ P4 Hk)|].
  assert (Hb : busy p -> busy (set_workers (<[k:=Worker (w_index w) (w_seen w) WTest]> (p_workers p)) p)).
  { intros HB. apply (busy_worker p k w (Worker (w_index w) (w_seen w) WTest) (p_queue p) (pending_batch_workers p) (p_caller p) HB Hk); try done; [|unfold unreported, in_queue; rewrite Hw; cbn [w_place]; unfold selected; cbn [w_index w_seen]; lia].
    replace (worker_pc _ _ (Worker _ _ WTest)) with (worker_pc (batch_generation p) (batch_workers p) w) by (unfold worker_pc; by rewrite Hw). rewrite <- (pcs_split p k w Hk). apply HB. }
  assert (Hq : forall stop, quiet stop p -> quiet stop (set_workers (<[k:=Worker (w_index w) (w_seen w) WTest]> (p_workers p)) p)) by (intros stop [Q1 Q2 Q3 Q4 Q5 Q6]; split; pool_cbn; try done; by apply Forall_insert).
  unfold phase_ok in *. pool_cbn. destruct (p_caller p) eqn:Ec; [by apply Hq|destruct P5 as [? ?]; split; [by apply Hb|done]|destruct P5 as [? ?]; split; [by apply Hb|done]| |].
  - destruct P5 as ([Q1 Q2 Q3 Q4 Q5 Q6] & _). pose proof (worker_at _ _ _ _ Q6 Hk) as Hx. unfold worker_quiet_ok in Hx. by rewrite Hw in Hx.
  - destruct P5 as (_ & H2). pose proof (worker_at _ _ _ _ H2 Hk). cbn in *. congruence.
Qed.

(** The caller. *)
Lemma queue_left p : busy p -> p_caller p = CRun PDone -> pending_batch_workers p = 0 -> left_queue (pcs p).
Proof.
  intros [B1 B2 B3 B4 B5 B6 B7] Hc Hp. unfold pcs. rewrite Hc. cbn [caller_pc]. split; [|by left]. constructor; [by right|]. apply Forall_fmap. rewrite Hp in B6. apply Forall_forall. intros w Hw.
  assert (Hu : unreported (batch_generation p) (batch_workers p) w = false).
  { apply list_elem_of_lookup in Hw as [k Hk]. rewrite (unreported_count_perm _ _ _ _ (workers_split _ _ _ Hk)), unreported_count_cons in B6. destruct (unreported _ _ w); [|done]. unfold unreported_count in B6. pose proof (zlen_nonneg (filter (fun w => unreported (batch_generation p) (batch_workers p) w = true) (delete k (p_workers p)))). lia. }
  rewrite Forall_forall in B7. specialize (B7 w Hw). cbn. unfold unreported, worker_pc, worker_busy_ok, in_queue in *. destruct (w_place w) as [| |c|]; [by destruct (selected _ _ && (_ =? _)); auto|by destruct (selected _ _ && (_ =? _)); auto| |done]. destruct B7 as (_ & E & _). by rewrite E, orb_true_r in Hu.
Qed.
Lemma reported_quiet p : busy p -> pending_batch_workers p = 0 -> Forall (worker_quiet_ok false) (p_workers p).
Proof.
  intros [B1 B2 B3 B4 B5 B6 B7] Hp. rewrite Hp in B6. apply Forall_lookup. intros k w Hk. pose proof (worker_at _ _ _ _ B7 Hk) as Hx. rewrite (unreported_count_perm _ _ _ _ (workers_split _ _ _ Hk)), unreported_count_cons in B6.
  unfold unreported_count in B6. pose proof (zlen_nonneg (filter (fun w => unreported (batch_generation p) (batch_workers p) w = true) (delete k (p_workers p)))). unfold worker_quiet_ok, worker_busy_ok in *. destruct (w_place w) eqn:E; try done.
  destruct Hx as (_ & E2 & _). assert (Hu : unreported (batch_generation p) (batch_workers p) w = true) by (unfold unreported, in_queue; by rewrite E, E2, orb_true_r). rewrite Hu in B6. lia.
Qed.
Lemma finish_step starts p : pool_ok starts p -> p_caller p = CRun PDone -> pool_ok starts (decompression_pool_finish_batch p).
Proof.
  intros HP Hc. pose proof HP as [P1 P2 P3 P4 P5 P6 P7]. unfold phase_ok in P5. rewrite Hc in P5. destruct P5 as [HB _]. pose proof HB as [B1 B2 B3 B4 B5 B6 B7]. unfold decompression_pool_finish_batch. destruct (Z.eqb_spec (pending_batch_workers p) 0) as [E|E]; cbn [negb].
  - split; pool_cbn; try done.
    + split; pool_cbn; try done; [split; [done|apply B4]|]. by apply reported_quiet.
    + apply Forall_app. split; [done|]. constructor; [|done]. by apply (queue_end lz4 (p_start p) (p_queue p) (pcs p) B4 (queue_left p HB Hc E)).
    + rewrite B1 in P7. by rewrite fmap_app, app_nil_r.
  - apply (pool_next starts p); try done. unfold phase_ok. pool_cbn. split; [|done]. split; pool_cbn; try done. unfold pcs in *. pool_cbn. by rewrite Hc in B4.
Qed.

Lemma caller_queue_step starts p c q c' stale : pool_ok starts p -> p_caller p = CRun c -> pc_step lz4 stale (p_queue p) c = Some (q, c') -> pool_ok starts (set_caller (CRun c') (set_queue q p)).
Proof.
  intros HP Hc H. pose proof HP as [P1 P2 P3 P4 P5 P6 P7]. unfold phase_ok in P5. rewrite Hc in P5. destruct P5 as [HB _]. pose proof HB as [B1 B2 B3 B4 B5 B6 B7].
  destruct (thread_step p c (worker_pc (batch_generation p) (batch_workers p) <$> p_workers p) (pcs (set_caller (CRun c') (set_queue q p))) q c' stale HB) as [HQ Hj]; [unfold pcs; by rewrite Hc|done|done|].
  apply (pool_next starts p); try done. unfold phase_ok. pool_cbn. split; [|by eapply pc_step_not_idle]. split; pool_cbn; try done. by rewrite Hj.
Qed.
Lemma join_step starts p w : pool_ok starts p -> p_caller p = CJoin w ->
  match p_workers p !! Z.to_nat w with None => pool_ok starts (set_caller CGone p) | Some wk => w_place wk = WExit -> pool_ok starts (set_caller (CJoin (w + 1)) p) end.
Proof.
  intros HP Hc. pose proof HP as [P1 P2 P3 P4 P5 P6 P7]. unfold phase_ok in P5. rewrite Hc in P5. destruct P5 as ([Q1 Q2 Q3 Q4 Q5 Q6] & Hw & Hx).
  assert (Hq : forall c, quiet true (set_caller c p)) by (intros c; split; done). destruct (p_workers p !! Z.to_nat w) as [wk|] eqn:Ew.
  - intros He. apply (pool_next starts p); try done. unfold phase_ok. pool_cbn. split; [apply Hq|]. split; [pose proof (lookup_lt_Some _ _ _ Ew); change (nr_workers (set_caller _ p)) with (nr_workers p); unfold nr_workers, zlen in *; lia|].
    intros k wk' Hk Hl. destruct (decide (Z.of_nat k = w)) as [<-|]; [rewrite Nat2Z.id in Ew; congruence|]. apply (Hx k); [lia|done].
  - apply (pool_next starts p); try done. unfold phase_ok. pool_cbn. split; [apply Hq|]. apply lookup_ge_None in Ew. apply Forall_lookup. intros k wk Hk. apply (Hx k); [|done]. pose proof (lookup_lt_Some _ _ _ Hk). lia.
Qed.
Lemma caller_ok starts p stale o : pool_ok starts p -> caller_step lz4 stale p = Some o -> exists p', o = Ret p' /\ pool_ok starts p'.
Proof.
  intros HP H. unfold caller_step in H. destruct (p_caller p) as [|c| |w|] eqn:Ec; try done.
  - destruct (decide (c = PDone)) as [->|Hd]; [injection H as <-; eexists; split; [done|]; by apply finish_step|].
    assert (H' : match pc_step lz4 stale (p_queue p) c with Some (q, c) => Some (Ret (set_caller (CRun c) (set_queue q p))) | None => None end = Some o) by (by destruct c).
    destruct (pc_step lz4 stale (p_queue p) c) as [[q c']|] eqn:E; [|done]. injection H' as <-. eexists. split; [done|]. by apply (caller_queue_step starts p c q c' stale).
  - pose proof (join_step starts p w HP Ec) as Hj. destruct (p_workers p !! Z.to_nat w) as [wk|]; [destruct (w_place wk); try done; specialize (Hj eq_refl)|]; injection H as <-; by eexists.
Qed.

(** A worker. *)
Lemma quiet_test starts p k w stop : pool_ok starts p -> quiet stop p -> p_workers p !! k = Some w -> w_place w = WTest -> phase_ok (set_workers (<[k := worker_test p w]> (p_workers p)) p).
Proof.
  intros HP [Q1 Q2 Q3 Q4 Q5 Q6] Hk Hw. assert (Et : worker_test p w = Worker (w_index w) (w_seen w) (if stop then WExit else WSleep)).
  { unfold worker_test. rewrite Q2, Q3. destruct stop; [done|]. assert (Hi : 0 <= w_index w). { pose proof (po_index _ _ HP) as Hi. apply (f_equal (fun l => l !! k)) in Hi. rewrite list_lookup_fmap, Hk in Hi. cbn in Hi. symmetry in Hi. apply lookup_seqZ in Hi. lia. } by rewrite (proj2 (Z.ltb_ge _ _) Hi), andb_false_r. }
  rewrite Et. pose proof (po_phase _ _ HP) as P5. unfold phase_ok in *. pool_cbn.
  assert (Hq : quiet stop (set_workers (<[k:=Worker (w_index w) (w_seen w) (if stop then WExit else WSleep)]> (p_workers p)) p)) by (split; pool_cbn; try done; apply Forall_insert; [done|]; unfold worker_quiet_ok; by destruct stop).
  rewrite nr_workers_set by done. destruct (p_caller p); try (destruct P5 as [[X _ _ _ _ _] _]; congruence).
  - destruct P5 as [_ X _ _ _ _]. destruct stop; [congruence|done].
  - destruct P5 as ([_ X _ _ _ _] & Hj & He). destruct stop; [|congruence]. split; [done|]. split; [done|]. intros i wk Hi Hl. destruct (decide (i = k)) as [->|Hn]; [rewrite list_lookup_insert_eq in Hl by (by eapply lookup_lt_Some); by injection Hl as <-|]. rewrite list_lookup_insert_ne in Hl by done. by apply (He i).
  - destruct P5 as ([_ X _ _ _ _] & He). destruct stop; [|congruence]. split; [done|]. by apply Forall_insert.
Qed.
Lemma busy_same_pc p k w w' : busy p -> p_workers p !! k = Some w -> worker_pc (batch_generation p) (batch_workers p) w' = worker_pc (batch_generation p) (batch_workers p) w ->
  queue_ok lz4 (p_start p) (p_queue p) (worker_pc (batch_generation p) (batch_workers p) w' :: caller_pc (p_caller p) :: (worker_pc (batch_generation p) (batch_workers p) <$> delete k (p_workers p))).
Proof. intros HB Hk ->. rewrite <- (pcs_split p k w Hk). apply HB. Qed.
Lemma idle_enters m0 q rs : queue_ok lz4 m0 q (PIdle :: rs) -> queue_ok lz4 m0 q (PCheck :: rs).
Proof. intros H. apply (same_queue lz4 m0 q PIdle); try done. intros i _ [?|[? ?]]; done. Qed.
Lemma busy_test p k w : busy p -> p_workers p !! k = Some w -> w_place w = WTest -> busy (set_workers (<[k := worker_test p w]> (p_workers p)) p).
Proof.
  intros HB Hk Hw. pose proof (bu_stop _ HB) as Hs. unfold worker_test. rewrite Hs. destruct (negb (w_seen w =? batch_generation p) && (w_index w <? batch_workers p)) eqn:E.
  - apply andb_true_iff in E as [E1 E2]. apply (busy_worker p k w _ (p_queue p) (pending_batch_workers p) (p_caller p) HB Hk); try done.
    + apply (idle_enters _ _ _). replace PIdle with (worker_pc (batch_generation p) (batch_workers p) w) by (unfold worker_pc; rewrite Hw; apply negb_true_iff in E1; by rewrite E1, andb_false_r). rewrite <- (pcs_split p k w Hk). apply HB.
    + unfold unreported, selected, in_queue. rewrite Hw. cbn [w_index w_seen w_place]. rewrite E1, E2, orb_true_r. cbn. lia.
  - apply (busy_worker p k w _ (p_queue p) (pending_batch_workers p) (p_caller p) HB Hk); try done.
    + apply (busy_same_pc p k w); [done|done|]. unfold worker_pc. by rewrite Hw.
    + unfold unreported, selected, in_queue. rewrite Hw. cbn [w_index w_seen w_place]. lia.
    + unfold worker_busy_ok. cbn [w_place w_seen]. unfold selected. cbn [w_index]. intros Es. rewrite Es, andb_true_r in E. apply negb_false_iff in E. lia.
Qed.

Lemma in_queue_busy starts p k w c : pool_ok starts p -> p_workers p !! k = Some w -> w_place w = WRun c -> busy p /\ ((exists c, p_caller p = CRun c /\ c <> PIdle) \/ (p_caller p = CSleep /\ pending_batch_workers p <> 0)).
Proof.
  intros HP Hk Hw. pose proof (po_phase _ _ HP) as P5. unfold phase_ok in P5. destruct (p_caller p) as [|c'| |w'|].
  2: { destruct P5 as [? ?]. split; [done|left; by exists c']. }
  2: { destruct P5 as [? ?]. split; [done|by right]. }
  all: exfalso; assert (Q : exists stop, Forall (worker_quiet_ok stop) (p_workers p)) by (eexists; apply P5); destruct Q as [stop Q]; pose proof (worker_at _ _ _ _ Q Hk) as X; unfold worker_quiet_ok in X; by rewrite Hw in X.
Qed.
Lemma worker_queue_step starts p k w c q c' stale : pool_ok starts p -> p_workers p !! k = Some w -> w_place w = WRun c -> pc_step lz4 stale (p_queue p) c = Some (q, c') ->
  pool_ok starts (set_workers (<[k := Worker (w_index w) (w_seen w) (WRun c')]> (p_workers p)) (set_queue q p)).
Proof.
  intros HP Hk Hw H. destruct (in_queue_busy starts p k w c HP Hk Hw) as [HB Hc].
  pose proof (worker_at _ _ _ _ (bu_workers _ HB) Hk) as Hx. unfold worker_busy_ok in Hx. rewrite Hw in Hx. set (w' := Worker (w_index w) (w_seen w) (WRun c')).
  destruct (thread_step p c (caller_pc (p_caller p) :: (worker_pc (batch_generation p) (batch_workers p) <$> delete k (p_workers p))) (c' :: caller_pc (p_caller p) :: (worker_pc (batch_generation p) (batch_workers p) <$> delete k (p_workers p))) q c' stale HB) as [HQ Hj];
    [rewrite (pcs_split p k w Hk); unfold worker_pc at 1; by rewrite Hw|done|done|].
  assert (HB' : busy (set_workers (<[k := w']> (p_workers p)) (set_queue q p))).
  { apply (busy_worker p k w w' q (pending_batch_workers p) (p_caller p) HB Hk); try done; [unfold unreported, in_queue; rewrite Hw; cbn [w' w_place]; unfold selected; cbn [w_index w_seen w']; lia|].
    unfold worker_busy_ok. cbn [w' w_place]. split; [by eapply pc_step_not_idle|]. apply Hx. }
  apply (pool_next starts p); try done; [by apply (index_insert _ _ w)|apply Forall_insert; [apply HP|]; apply (worker_at _ _ _ _ (po_seen _ _ HP) Hk)|]. unfold phase_ok in *. pool_cbn. destruct Hc as [(c2 & -> & ?)|[-> ?]]; done.
Qed.
Lemma report_step starts p k w : pool_ok starts p -> p_workers p !! k = Some w -> w_place w = WRun PDone -> exists p', worker_report k p w = Ret p' /\ pool_ok starts p'.
Proof.
  intros HP Hk Hw. destruct (in_queue_busy starts p k w PDone HP Hk Hw) as [HB Hc]. pose proof (worker_at _ _ _ _ (bu_workers _ HB) Hk) as Hx. unfold worker_busy_ok in Hx. rewrite Hw in Hx. destruct Hx as (_ & X1 & X2).
  assert (Hu : unreported (batch_generation p) (batch_workers p) w = true) by (unfold unreported, in_queue; by rewrite Hw, X1, orb_true_r).
  assert (Hp : 1 <= pending_batch_workers p).
  { rewrite (bu_pending _ HB), (unreported_count_perm _ _ _ _ (workers_split _ _ _ Hk)), unreported_count_cons, Hu. unfold unreported_count. pose proof (zlen_nonneg (filter (fun w => unreported (batch_generation p) (batch_workers p) w = true) (delete k (p_workers p)))). lia. }
  unfold worker_report. destruct (Z.eqb_spec (pending_batch_workers p) 0); [lia|]. pool_cbn. set (p1 := if _ =? 0 then _ else _). eexists. split; [done|]. set (w' := Worker (w_index w) (w_seen w) WSleep).
  set (c' := if pending_batch_workers p - 1 =? 0 then wake_caller (p_caller p) else p_caller p).
  assert (Ep : set_workers (<[k := worker_test p1 w]> (p_workers p1)) p1 = set_pending (pending_batch_workers p - 1) (set_caller c' (set_workers (<[k := w']> (p_workers p)) (set_queue (p_queue p) p)))).
  { pose proof (bu_stop _ HB) as Hs. unfold p1, c', worker_test. destruct (_ =? 0); pool_cbn; rewrite Hs, (proj2 (Z.eqb_eq _ _) X2); done. }
  rewrite Ep. assert (Hcc : caller_pc c' = caller_pc (p_caller p)) by (unfold c'; destruct (_ =? 0); [|done]; by destruct (p_caller p)).
  assert (HB' : busy (set_pending (pending_batch_workers p - 1) (set_caller c' (set_workers (<[k := w']> (p_workers p)) (set_queue (p_queue p) p))))).
  { apply (busy_worker p k w w' (p_queue p) (pending_batch_workers p - 1) c' HB Hk); try done.
    - apply (busy_same_pc p k w); [done|done|]. unfold worker_pc. rewrite Hw. cbn [w_place w']. unfold selected in *. cbn [w_index w_seen w']. by rewrite X1, X2, Z.eqb_refl.
    - rewrite Hu. unfold unreported, in_queue. cbn [w_place w_seen w']. rewrite X2, Z.eqb_refl, andb_false_r. lia.
    - intros _. exact X2. }
  apply (pool_next starts p); try done; [by apply (index_insert _ _ w)|apply Forall_insert; [apply HP|]; apply (worker_at _ _ _ _ (po_seen _ _ HP) Hk)|]. unfold phase_ok. pool_cbn.
  destruct Hc as [(c2 & Ec & ?)|[Ec ?]]; unfold c' in *; rewrite Ec in *; destruct (Z.eqb_spec (pending_batch_workers p - 1) 0); done.
Qed.

(** Every worker step, every step. *)
Lemma worker_ok starts p k stale o : pool_ok starts p -> decompression_pool_worker lz4 k stale p = Some o -> exists p', o = Ret p' /\ pool_ok starts p'.
Proof.
  intros HP H. unfold decompression_pool_worker in H. destruct (p_workers p !! k) as [w|] eqn:Hk; [|done]. destruct (w_place w) as [| |c|] eqn:Hw; try done.
  - injection H as <-. eexists. split; [done|]. assert (Hs : 0 <= w_seen (worker_test p w) <= batch_generation p /\ w_index (worker_test p w) = w_index w).
    { pose proof (worker_at _ _ _ _ (po_seen _ _ HP) Hk) as Hs. cbn in Hs. unfold worker_test. destruct (p_stop p); [done|]. destruct (_ && _); [|done]. cbn. lia. }
    apply (pool_next starts p); try done; [apply (index_insert _ _ w _ Hk); apply Hs|apply Forall_insert; [apply HP|apply Hs]|]. pose proof (po_phase _ _ HP) as P5. destruct (batch_active p) eqn:Ea.
    + pose proof (busy_test p k w (busy_phase p P5 Ea) Hk Hw) as HB. unfold phase_ok in *. pool_cbn. destruct (p_caller p); try done; [destruct P5 as [X _ _ _ _ _]|destruct P5 as [_ ?]|destruct P5 as [_ ?]|destruct P5 as ([X _ _ _ _ _] & _)|destruct P5 as ([X _ _ _ _ _] & _)]; try congruence; done.
    + assert (Hq : exists stop, quiet stop p) by (unfold phase_ok in P5; destruct (p_caller p); [by exists false|destruct P5 as [[X _ _ _ _ _ _] _]; congruence|destruct P5 as [[X _ _ _ _ _ _] _]; congruence|exists true; apply P5|exists true; apply P5]).
      destruct Hq as [stop Hq]. by apply (quiet_test starts p k w stop).
  - destruct (decide (c = PDone)) as [->|Hd]; [injection H as <-; by apply report_step|].
    assert (H' : match pc_step lz4 stale (p_queue p) c with Some (q, c) => Some (Ret (set_workers (<[k := Worker (w_index w) (w_seen w) (WRun c)]> (p_workers p)) (set_queue q p))) | None => None end = Some o) by (by destruct c).
    destruct (pc_step lz4 stale (p_queue p) c) as [[q c']|] eqn:E; [|done]. injection H' as <-. eexists. split; [done|]. by apply (worker_queue_step starts p k w c q c' stale).
Qed.
Lemma destroy_step starts p : pool_ok starts p -> p_caller p = CIdle -> exists p', decompression_pool_destroy p = Ret p' /\ pool_ok starts p'.
Proof.
  intros HP Hc. pose proof (po_phase _ _ HP) as P5. unfold phase_ok in P5. rewrite Hc in P5. destruct P5 as [Q1 Q2 Q3 Q4 Q5 Q6]. unfold decompression_pool_destroy. rewrite Q1, Q4. cbn [orb negb Z.eqb]. eexists. split; [done|].
  apply (pool_next starts p); try done; pool_cbn; [apply wake_index|apply (wake_seen (fun s => 0 <= s <= _)); apply HP|]. unfold phase_ok. pool_cbn. split; [|split; [split; [lia|apply zlen_nonneg]|intros; lia]]. split; pool_cbn; try done.
  apply Forall_fmap. eapply Forall_impl; [exact Q6|]. intros w. cbn. unfold worker_quiet_ok, wake_worker. destruct (w_place w) eqn:E; rewrite ?E; cbn [w_place]; done.
Qed.
Lemma pool_step_ok starts p l o : pool_ok starts p -> label_ok l -> zlen starts + 1 < 2 ^ 64 -> step l p = Some o -> exists p', o = Ret p' /\ pool_ok (starts ++ start_of l) p'.
Proof.
  intros HP Hl Hn H. destruct l as [jobs m threads| |stale|k stale| |k]; cbn [pool_step start_of] in *; rewrite ?app_nil_r.
  - destruct (p_caller p) eqn:Ec; try done. destruct (_ || _) eqn:E; [done|]. apply orb_false_iff in E as [_ E%Z.ltb_ge]. destruct (start_step starts p jobs m threads HP Hn Hl Ec E) as (p' & E' & ?). rewrite E' in H. injection H as <-. by exists p'.
  - destruct (p_caller p) eqn:Ec; try done. destruct (destroy_step starts p HP Ec) as (p' & E' & ?). rewrite E' in H. injection H as <-. by exists p'.
  - by apply (caller_ok starts p stale).
  - by apply (worker_ok starts p k stale).
  - destruct (p_caller p) eqn:Ec; try done. injection H as <-. eexists. split; [done|]. apply (pool_next starts p); try done; [apply HP|]. pose proof (po_phase _ _ HP) as P5. unfold phase_ok in *. rewrite Ec in P5. pool_cbn. destruct P5 as [[B1 B2 B3 B4 B5 B6 B7] _]. split; [|done]. split; pool_cbn; try done. unfold pcs in *. pool_cbn. by rewrite Ec in B4.
  - destruct (p_workers p !! k) as [w|] eqn:Hk; [|done]. destruct (w_place w) eqn:Hw; try done. injection H as <-. eexists. split; [done|]. by apply wake_worker_step.
Qed.

Lemma pool_run_ok ls p starts o : pool_ok starts p -> Forall label_ok ls -> zlen starts + zlen ls < 2 ^ 64 -> pool_run lz4 ls p = Some o -> exists p', o = Ret p' /\ pool_ok (starts ++ (ls ≫= start_of)) p'.
Proof.
  revert p starts. induction ls as [|l ls IH]; intros p starts HP Hl Hn H; [cbn [pool_run] in H; injection H as <-; exists p; by rewrite app_nil_r|].
  apply Forall_cons_1 in Hl as [Hl Hls]. change (l :: ls) with ([l] ++ ls) in Hn. rewrite zlen_app in Hn. change (zlen [l]) with 1 in Hn. pose proof (zlen_nonneg ls). cbn [pool_run] in H. destruct (step l p) as [o'|] eqn:E; [|done].
  destruct (pool_step_ok starts p l o' HP Hl ltac:(lia) E) as (p' & -> & HP'). destruct (IH p' (starts ++ start_of l)) as (p2 & -> & HP2); try done.
  - rewrite zlen_app. assert (zlen (start_of l) <= 1) by (by destruct l). lia.
  - exists p2. split; [done|]. by rewrite bind_cons, app_assoc.
Qed.

(** A pool as it is created. *)
Lemma spawn_ok starts nr ws : w_index <$> ws = seqZ 0 (zlen ws) -> Forall (fun w => w_seen w = 0 /\ w_place w = WTest) ws ->
  let ws' := decompression_pool_spawn_workers starts nr ws in w_index <$> ws' = seqZ 0 (zlen ws') /\ Forall (fun w => w_seen w = 0 /\ w_place w = WTest) ws' /\ zlen ws' <= zlen ws + Z.of_nat nr.
Proof.
  revert starts ws. induction nr as [|nr IH]; intros starts ws Hi Hw; cbn [decompression_pool_spawn_workers]; cbv zeta; [split; [done|]; split; [done|lia]|]. destruct starts as [|[] starts]; try (split; [done|]; split; [done|lia]).
  destruct (IH starts (ws ++ [Worker (zlen ws) 0 WTest])) as (R1 & R2 & R3).
  - rewrite fmap_app, Hi, zlen_app. change (zlen [_]) with 1. rewrite seqZ_app by (pose proof (zlen_nonneg ws); lia). by rewrite (seqZ_cons _ 1), Z.add_0_l by lia.
  - apply Forall_app. split; [done|]. by repeat constructor.
  - rewrite zlen_app in R3. change (zlen [_]) with 1 in R3. split; [done|]. split; [done|lia].
Qed.
Lemma create_ok setup starts unmask nr p : nr < 2 ^ 32 -> (decompression_pool_create setup starts unmask nr).1 = Some p -> pool_ok [] p /\ p_caller p = CIdle.
Proof.
  intros Hn. unfold decompression_pool_create. destruct (Z.leb_spec nr 1); [done|]. destruct setup; [|done]. cbn [negb]. destruct (spawn_ok starts (Z.to_nat (nr - 1)) []) as (R1 & R2 & R3); [done|done|]. set (ws := decompression_pool_spawn_workers _ _ _) in *.
  change (zlen []) with 0 in R3. pose proof (zlen_nonneg ws). destruct (Z.eqb_spec (zlen ws) 0); [done|]. intros [= <-]. split; [|done]. split; try done; [change (nr_workers _) with (zlen ws); lia| |].
  - eapply Forall_impl; [exact R2|]. cbn. lia.
  - split; pool_cbn; try done. eapply Forall_impl; [exact R2|]. intros w [_ Hw]. unfold worker_quiet_ok. by rewrite Hw.
Qed.

(** ** The pool comes to rest *)
Definition worker_work (gen bw : Z) (w : worker) : Z :=
  match w_place w with
  | WTest => if unreported gen bw w then 5 else 1
  | WSleep | WExit => 0
  | WRun _ => 2
  end.
Definition caller_work (nr : Z) (c : caller_place) : Z := match c with CIdle | CGone => 0 | CRun _ => 2 | CSleep => 1 | CJoin w => nr - w + 1 end.
Definition pool_work (p : pool) : Z :=
  queue_work (nr_workers p + 1) (p_queue p) (pcs p) + zsum (worker_work (batch_generation p) (batch_workers p) <$> p_workers p) + caller_work (nr_workers p) (p_caller p).

(** The steps that are not wake-ups without a signal, and start nothing. *)
Definition productive (l : label) : bool := match l with LCaller _ | LWorker _ _ => true | _ => false end.

Lemma zsum_insert l k x y : l !! k = Some x -> zsum (<[k := y]> l) = zsum l + y - x.
Proof.
  revert k. induction l as [|z l IH]; intros [|k] H; try done; [injection H as <-; change (<[0%nat := y]> (z :: l)) with (y :: l); rewrite !zsum_cons; lia|]. change (<[S k := y]> (z :: l)) with (z :: <[k := y]> l). rewrite !zsum_cons, (IH k H). lia.
Qed.
Lemma work_insert gen bw ws k w w' : ws !! k = Some w -> zsum (worker_work gen bw <$> <[k := w']> ws) = zsum (worker_work gen bw <$> ws) + worker_work gen bw w' - worker_work gen bw w.
Proof. intros H. rewrite list_fmap_insert. apply zsum_insert. by rewrite list_lookup_fmap, H. Qed.

Lemma queue_work_ok n p : busy p -> 0 <= n -> 0 <= queue_work n (p_queue p) (pcs p).
Proof. intros HB Hn. apply (queue_work_nonneg lz4 (p_start p)); [done|apply HB]. Qed.
Lemma workers_work_nonneg gen bw ws : 0 <= zsum (worker_work gen bw <$> ws).
Proof. apply zsum_nonneg, Forall_fmap, Forall_forall. intros w _. cbn. unfold worker_work. destruct (w_place w); try lia. destruct (unreported _ _ _); lia. Qed.

(** No thread is in the queue of a pool at rest. *)
Lemma quiet_pcs starts p stop : pool_ok starts p -> quiet stop p -> (forall c, p_caller p <> CRun c) -> p_caller p <> CSleep -> Forall (fun c => c = PIdle) (pcs p).
Proof.
  intros HP [Q1 Q2 Q3 Q4 Q5 Q6] Hc Hs. unfold pcs. constructor; [destruct (p_caller p) eqn:E; try done; by destruct (Hc c)|]. apply Forall_fmap, Forall_lookup. intros k w Hk. cbn. pose proof (worker_at _ _ _ _ Q6 Hk) as Hx. unfold worker_pc, worker_quiet_ok in *.
  assert (Hi : selected (batch_workers p) w = false). { rewrite Q3. unfold selected. apply Z.ltb_ge. pose proof (po_index _ _ HP) as Hi. apply (f_equal (fun l => l !! k)) in Hi. rewrite list_lookup_fmap, Hk in Hi. cbn in Hi. symmetry in Hi. apply lookup_seqZ in Hi. lia. }
  rewrite Hi. by destruct (w_place w).
Qed.
Lemma idle_work n q cs : Forall (fun c => c = PIdle) cs -> q_jobs q = [] -> 0 <= q_next q -> queue_work n q cs = 0.
Proof.
  intros Hc Hj Hn. unfold queue_work, nr_jobs. rewrite Hj. change (zlen []) with 0. rewrite Z.min_r by lia. assert (weights n q cs = 0); [|lia]. induction Hc as [|c cs -> _ IH]; [done|]. by rewrite weights_cons, IH.
Qed.

Lemma caller_queue_work starts p c q c' stale : pool_ok starts p -> p_caller p = CRun c -> pc_step lz4 stale (p_queue p) c = Some (q, c') -> pool_work (set_caller (CRun c') (set_queue q p)) < pool_work p.
Proof.
  intros HP Hc H. pose proof (po_phase _ _ HP) as P5. unfold phase_ok in P5. rewrite Hc in P5. destruct P5 as [HB _]. unfold pool_work. change (nr_workers (set_caller _ _)) with (nr_workers p). pool_cbn. rewrite Hc. cbn [caller_work].
  assert (queue_work (nr_workers p + 1) q (pcs (set_caller (CRun c') (set_queue q p))) < queue_work (nr_workers p + 1) (p_queue p) (pcs p)); [|lia]. pose proof (bu_queue _ HB) as HQ. unfold pcs in *. pool_cbn. rewrite Hc in *. cbn [caller_pc] in *.
  apply (queue_work_step lz4 (p_start p) _ _ _ _ _ _ stale HQ); [|done]. unfold nr_workers, zlen. rewrite length_fmap. lia.
Qed.

(** The work when worker [k] moves. *)
Definition others (p : pool) (k : nat) : list pc := caller_pc (p_caller p) :: (worker_pc (batch_generation p) (batch_workers p) <$> delete k (p_workers p)).
Lemma others_count p k w : p_workers p !! k = Some w -> zlen (others p k) = nr_workers p.
Proof.
  intros H. unfold others, nr_workers. pose proof (Permutation_length (workers_split _ _ _ H)) as E. unfold zlen. cbn [length] in *. rewrite length_fmap. lia.
Qed.
Lemma worker_move_work p p' k w w' : p_workers p !! k = Some w -> p_workers p' = <[k := w']> (p_workers p) -> batch_generation p' = batch_generation p -> batch_workers p' = batch_workers p -> caller_pc (p_caller p') = caller_pc (p_caller p) ->
  let n := nr_workers p + 1 in
  pool_work p' - pool_work p = queue_work n (p_queue p') (worker_pc (batch_generation p) (batch_workers p) w' :: others p k) - queue_work n (p_queue p) (worker_pc (batch_generation p) (batch_workers p) w :: others p k)
    + (worker_work (batch_generation p) (batch_workers p) w' - worker_work (batch_generation p) (batch_workers p) w) + (caller_work (nr_workers p) (p_caller p') - caller_work (nr_workers p) (p_caller p)).
Proof.
  intros H E1 E2 E3 E4 n. assert (En : nr_workers p' = nr_workers p) by (unfold nr_workers, zlen; by rewrite E1, length_insert). unfold pool_work. rewrite En. fold n.
  rewrite (queue_work_perm n _ _ _ (pcs_insert p p' k w w' H E1 E2 E3 E4)), (queue_work_perm n (p_queue p) _ _ (pcs_split p k w H)), E1, E2, E3, (work_insert _ _ _ _ _ w' H). unfold others. lia.
Qed.
Lemma same_pc_work n q c rs : queue_work n q (c :: rs) = queue_work n q (PIdle :: rs) + weight n q c.
Proof. unfold queue_work. rewrite !weights_cons. cbn [weight]. lia. Qed.

Lemma worker_queue_work starts p k w c q c' stale : pool_ok starts p -> p_workers p !! k = Some w -> w_place w = WRun c -> pc_step lz4 stale (p_queue p) c = Some (q, c') ->
  pool_work (set_workers (<[k := Worker (w_index w) (w_seen w) (WRun c')]> (p_workers p)) (set_queue q p)) < pool_work p.
Proof.
  intros HP Hk Hw H. destruct (in_queue_busy starts p k w c HP Hk Hw) as [HB _]. set (p' := set_workers _ _). pose proof (worker_move_work p p' k w _ Hk eq_refl eq_refl eq_refl eq_refl) as E. cbv zeta in E.
  assert (Ew : worker_pc (batch_generation p) (batch_workers p) w = c) by (unfold worker_pc; by rewrite Hw). assert (HQ : queue_ok lz4 (p_start p) (p_queue p) (c :: others p k)) by (rewrite <- Ew; unfold others; rewrite <- (pcs_split p k w Hk); apply HB).
  pose proof (others_count p k w Hk) as Ho. pose proof (queue_work_step lz4 (p_start p) (nr_workers p + 1) _ _ _ _ _ stale HQ ltac:(lia) H) as Hlt. rewrite Ew in E. unfold worker_pc, worker_work in E. rewrite Hw in E. cbn [w_place] in E. change (p_queue p') with q in E. change (p_caller p') with (p_caller p) in E. lia.
Qed.
Lemma worker_test_work starts p k w : pool_ok starts p -> p_workers p !! k = Some w -> w_place w = WTest -> pool_work (set_workers (<[k := worker_test p w]> (p_workers p)) p) < pool_work p.
Proof.
  intros HP Hk Hw. set (p' := set_workers _ p). pose proof (worker_move_work p p' k w _ Hk eq_refl eq_refl eq_refl eq_refl) as E. cbv zeta in E. change (p_queue p') with (p_queue p) in E. change (p_caller p') with (p_caller p) in E.
  rewrite (same_pc_work _ _ (worker_pc _ _ w)), (same_pc_work _ _ (worker_pc _ _ (worker_test p w))) in E. unfold worker_test in E. destruct (p_stop p) eqn:Es; [|destruct (negb (w_seen w =? batch_generation p) && (w_index w <? batch_workers p)) eqn:Et].
  - unfold worker_pc, worker_work in E. rewrite Hw in E. cbn [w_place] in E. unfold selected in E. cbn [w_index w_seen] in E. destruct (unreported _ _ w); lia.
  - apply andb_true_iff in Et as [E1 E2]. unfold worker_pc, worker_work in E. rewrite Hw in E. cbn [w_place weight] in E. unfold unreported, selected, in_queue in E. rewrite E1, E2 in E. apply negb_true_iff in E1. rewrite E1, andb_false_r in E. cbn [orb andb weight] in E. lia.
  - unfold worker_pc, worker_work in E. rewrite Hw in E. cbn [w_place] in E. unfold selected in E. cbn [w_index w_seen] in E. destruct (unreported _ _ w); lia.
Qed.
Lemma report_work starts p k w p' : pool_ok starts p -> p_workers p !! k = Some w -> w_place w = WRun PDone -> worker_report k p w = Ret p' -> pool_work p' < pool_work p.
Proof.
  intros HP Hk Hw H. destruct (in_queue_busy starts p k w PDone HP Hk Hw) as [HB Hc]. pose proof (worker_at _ _ _ _ (bu_workers _ HB) Hk) as Hx. unfold worker_busy_ok in Hx. rewrite Hw in Hx. destruct Hx as (_ & X1 & X2). pose proof (bu_stop _ HB) as Hs.
  set (w' := Worker (w_index w) (w_seen w) WSleep). unfold worker_report in H. destruct (_ =? 0); [done|]. injection H as <-. match goal with |- pool_work ?p' < _ => set (p2 := p') end.
  assert (Ew : p_workers p2 = <[k := w']> (p_workers p)) by (unfold p2, worker_test; destruct (_ =? 0); pool_cbn; rewrite Hs, (proj2 (Z.eqb_eq _ _) X2); done).
  assert (Eg : batch_generation p2 = batch_generation p /\ batch_workers p2 = batch_workers p /\ p_queue p2 = p_queue p) by (unfold p2; destruct (_ =? 0); done). destruct Eg as (Eg & Eb & Eq).
  assert (Ec : caller_pc (p_caller p2) = caller_pc (p_caller p) /\ caller_work (nr_workers p) (p_caller p2) <= caller_work (nr_workers p) (p_caller p) + 1).
  { unfold p2. destruct (_ =? 0); pool_cbn; [|split; [done|lia]]. destruct (p_caller p); cbn; split; (done || lia). }
  destruct Ec as [Ec1 Ec2]. pose proof (worker_move_work p p2 k w w' Hk Ew Eg Eb Ec1) as E. cbv zeta in E. rewrite Eq, (same_pc_work _ _ (worker_pc _ _ w)), (same_pc_work _ _ (worker_pc _ _ w')) in E.
  unfold worker_pc, worker_work in E. rewrite Hw in E. cbn [w_place w' weight] in E. unfold selected in *. cbn [w_index w_seen w'] in E. rewrite X1, X2, Z.eqb_refl in E. cbn [andb weight] in E. lia.
Qed.

Lemma finish_work starts p : pool_ok starts p -> p_caller p = CRun PDone -> pool_work (decompression_pool_finish_batch p) < pool_work p.
Proof.
  intros HP Hc. pose proof (finish_step starts p HP Hc) as HP'. pose proof (po_phase _ _ HP) as P5. unfold phase_ok in P5. rewrite Hc in P5. destruct P5 as [HB _]. pose proof (po_nr _ _ HP).
  unfold decompression_pool_finish_batch in *. destruct (Z.eqb_spec (pending_batch_workers p) 0) as [E|E]; cbn [negb] in *.
  - match goal with |- pool_work ?p2 < _ => set (p' := p2) in * end. assert (Hq : quiet false p') by apply (po_phase _ _ HP'). assert (E1 : queue_work (nr_workers p' + 1) (p_queue p') (pcs p') = 0) by (apply idle_work; [by apply (quiet_pcs starts p' false)|apply Hq|apply Hq]).
    pose proof (queue_work_ok (nr_workers p + 1) p HB ltac:(lia)). unfold pool_work. rewrite E1, Hc. change (p_caller p') with CIdle. change (p_workers p') with (p_workers p). change (batch_workers p') with 0. change (batch_generation p') with (batch_generation p). cbn [caller_work].
    assert (zsum (worker_work (batch_generation p) 0 <$> p_workers p) <= zsum (worker_work (batch_generation p) (batch_workers p) <$> p_workers p)); [|lia]. pose proof (po_index _ _ HP) as Hi.
    assert (Hpos : Forall (fun w => 0 <= w_index w) (p_workers p)). { apply Forall_lookup. intros k w Hk. apply (f_equal (fun l => l !! k)) in Hi. rewrite list_lookup_fmap, Hk in Hi. cbn in Hi. symmetry in Hi. apply lookup_seqZ in Hi. lia. }
    clear - Hpos. induction Hpos as [|w ws Hw _ IH]; [done|]. rewrite !fmap_cons, !zsum_cons. assert (worker_work (batch_generation p) 0 w <= worker_work (batch_generation p) (batch_workers p) w); [|lia]. unfold worker_work. destruct (w_place w); try lia. unfold unreported at 1, selected.
    rewrite (proj2 (Z.ltb_ge _ _) Hw). cbn [andb]. destruct (unreported _ _ w); lia.
  - unfold pool_work. change (nr_workers (set_caller CSleep p)) with (nr_workers p). assert (Ep : pcs (set_caller CSleep p) = pcs p) by (unfold pcs; pool_cbn; by rewrite Hc). rewrite Ep. pool_cbn. rewrite Hc. cbn [caller_work]. lia.
Qed.
Lemma join_work p w c : p_caller p = CJoin w -> w <= nr_workers p -> (c = CGone \/ c = CJoin (w + 1)) -> pool_work (set_caller c p) < pool_work p.
Proof.
  intros Hc Hw He. unfold pool_work. change (nr_workers (set_caller c p)) with (nr_workers p). assert (Ep : pcs (set_caller c p) = pcs p) by (unfold pcs; pool_cbn; rewrite Hc; by destruct He as [-> | ->]). rewrite Ep. pool_cbn. rewrite Hc. destruct He as [-> | ->]; cbn [caller_work]; lia.
Qed.

(** Every productive step leaves less to do. *)
Lemma pool_work_step starts p l p' : pool_ok starts p -> productive l = true -> step l p = Some (Ret p') -> pool_work p' < pool_work p.
Proof.
  intros HP Hl H. destruct l as [| |stale|k stale| |]; try done; cbn [pool_step] in H.
  - unfold caller_step in H. destruct (p_caller p) as [|c| |w|] eqn:Ec; try done.
    + destruct (decide (c = PDone)) as [->|Hd]; [injection H as <-; by apply (finish_work starts)|].
      assert (H' : match pc_step lz4 stale (p_queue p) c with Some (q, c) => Some (Ret (set_caller (CRun c) (set_queue q p))) | None => None end = Some (Ret p')) by (by destruct c).
      destruct (pc_step lz4 stale (p_queue p) c) as [[q c']|] eqn:E; [|done]. injection H' as <-. by apply (caller_queue_work starts p c q c' stale).
    + pose proof (po_phase _ _ HP) as P5. unfold phase_ok in P5. rewrite Ec in P5. destruct P5 as (_ & Hw & _). destruct (p_workers p !! Z.to_nat w) as [wk|]; [destruct (w_place wk); try done|]; injection H as <-; apply (join_work p w); auto; lia.
  - unfold decompression_pool_worker in H. destruct (p_workers p !! k) as [w|] eqn:Hk; [|done]. destruct (w_place w) as [| |c|] eqn:Hw; try done; [injection H as <-; by apply (worker_test_work starts)|].
    destruct (decide (c = PDone)) as [->|Hd]; [injection H as H; by apply (report_work starts p k w)|].
    assert (H' : match pc_step lz4 stale (p_queue p) c with Some (q, c) => Some (Ret (set_workers (<[k := Worker (w_index w) (w_seen w) (WRun c)]> (p_workers p)) (set_queue q p))) | None => None end = Some (Ret p')) by (by destruct c).
    destruct (pc_step lz4 stale (p_queue p) c) as [[q c']|] eqn:E; [|done]. injection H' as <-. by apply (worker_queue_work starts p k w c q c' stale).
Qed.

Lemma pool_work_nonneg starts p : pool_ok starts p -> 0 <= pool_work p.
Proof.
  intros HP. pose proof (po_nr _ _ HP). pose proof (workers_work_nonneg (batch_generation p) (batch_workers p) (p_workers p)). pose proof (po_phase _ _ HP) as P5. unfold pool_work.
  assert (Hq : forall stop, quiet stop p -> (forall c, p_caller p <> CRun c) -> p_caller p <> CSleep -> queue_work (nr_workers p + 1) (p_queue p) (pcs p) = 0) by (intros stop Hq ? ?; apply idle_work; [by apply (quiet_pcs starts p stop)|apply Hq|apply Hq]).
  unfold phase_ok in P5. destruct (p_caller p) eqn:Ec; cbn [caller_work].
  - rewrite (Hq false); [lia|done..].
  - pose proof (queue_work_ok (nr_workers p + 1) p (proj1 P5) ltac:(lia)). lia.
  - pose proof (queue_work_ok (nr_workers p + 1) p (proj1 P5) ltac:(lia)). lia.
  - destruct P5 as (P5 & Hw & _). rewrite (Hq true); [lia|done..].
  - rewrite (Hq true); [lia|apply P5|done..].
Qed.

(** A thread in the queue that is not through can move. *)
Lemma member_moves p c : busy p -> c ∈ pcs p -> c <> PIdle -> c <> PDone -> exists q' c', pc_step lz4 None (p_queue p) c = Some (q', c').
Proof. intros HB Hc H1 H2. apply pc_moves; try done. pose proof (qo_pcs _ _ _ _ (bu_queue _ HB)) as HF. rewrite Forall_forall in HF. by apply HF. Qed.
Lemma worker_in_pcs p k w c : p_workers p !! k = Some w -> w_place w = WRun c -> c ∈ pcs p.
Proof. intros Hk Hw. right. apply list_elem_of_fmap. exists w. split; [unfold worker_pc; by rewrite Hw|by eapply list_elem_of_lookup_2]. Qed.
Lemma running_worker_moves starts p k w c : pool_ok starts p -> p_workers p !! k = Some w -> w_place w = WRun c -> exists p', step (LWorker k None) p = Some (Ret p').
Proof.
  intros HP Hk Hw. destruct (in_queue_busy starts p k w c HP Hk Hw) as [HB _]. pose proof (worker_at _ _ _ _ (bu_workers _ HB) Hk) as Hx. unfold worker_busy_ok in Hx. rewrite Hw in Hx. destruct Hx as (Hi & _ & _). cbn [pool_step]. unfold decompression_pool_worker. rewrite Hk, Hw.
  destruct (decide (c = PDone)) as [->|Hd]; [destruct (report_step starts p k w HP Hk Hw) as (p' & -> & _); by exists p'|].
  destruct (member_moves p c HB (worker_in_pcs p k w c Hk Hw) Hi Hd) as (q & c' & E). rewrite E. destruct c; try done; by eexists.
Qed.
Lemma test_worker_moves p k w : p_workers p !! k = Some w -> w_place w = WTest -> exists p', step (LWorker k None) p = Some (Ret p').
Proof. intros Hk Hw. cbn [pool_step]. unfold decompression_pool_worker. rewrite Hk, Hw. by eexists. Qed.

(** While the caller waits, somebody can move. *)
Lemma pool_moves starts p : pool_ok starts p -> p_caller p <> CIdle -> p_caller p <> CGone -> exists l p', productive l = true /\ step l p = Some (Ret p').
Proof.
  intros HP H1 H2. pose proof (po_phase _ _ HP) as P5. unfold phase_ok in P5. destruct (p_caller p) as [|c| |w|] eqn:Ec; try done.
  - exists (LCaller None). cbn [pool_step]. unfold caller_step. rewrite Ec. destruct (decide (c = PDone)) as [->|Hd]; [by eexists|]. destruct P5 as [HB Hi].
    destruct (member_moves p c HB) as (q & c' & E); [unfold pcs; rewrite Ec; by left|done|done|]. rewrite E. destruct c; try done; by eexists.
  - destruct P5 as [HB Hp]. rewrite (bu_pending _ HB) in Hp. assert (Hex : exists w, w ∈ filter (fun w => unreported (batch_generation p) (batch_workers p) w = true) (p_workers p)).
    { unfold unreported_count in Hp. destruct (filter _ (p_workers p)) as [|w l]; [done|]. exists w. by left. }
    destruct Hex as (w & [Hu Hw]%list_elem_of_filter). apply list_elem_of_lookup in Hw as [k Hk]. pose proof (worker_at _ _ _ _ (bu_workers _ HB) Hk) as Hx. unfold worker_busy_ok in Hx. exists (LWorker k None). destruct (w_place w) as [| |c|] eqn:Ew; [| | |done].
    + destruct (test_worker_moves p k w Hk Ew) as [p' E]. by exists p'.
    + unfold unreported, in_queue in Hu. rewrite Ew in Hu. apply andb_true_iff in Hu as [Hu1 Hu2]. rewrite (Hx Hu1), Z.eqb_refl in Hu2. done.
    + destruct (running_worker_moves starts p k w c HP Hk Ew) as [p' E]. by exists p'.
  - destruct P5 as ([Q1 Q2 Q3 Q4 Q5 Q6] & Hw & _). destruct (p_workers p !! Z.to_nat w) as [wk|] eqn:Ek; [|exists (LCaller None); cbn [pool_step]; unfold caller_step; rewrite Ec, Ek; by eexists].
    pose proof (worker_at _ _ _ _ Q6 Ek) as Hx. unfold worker_quiet_ok in Hx. destruct (w_place wk) eqn:Ew; try done.
    + destruct (test_worker_moves p (Z.to_nat w) wk Ek Ew) as [p' E]. by exists (LWorker (Z.to_nat w) None), p'.
    + exists (LCaller None). cbn [pool_step]. unfold caller_step. rewrite Ec, Ek, Ew. by eexists.
Qed.

Lemma productive_bound ls p starts p' : pool_ok starts p -> zlen starts + zlen ls < 2 ^ 64 -> Forall (fun l => productive l = true) ls -> pool_run lz4 ls p = Some (Ret p') -> zlen ls + pool_work p' <= pool_work p.
Proof.
  revert p starts. induction ls as [|l ls IH]; intros p starts HP Hn Hl H; [cbn [pool_run] in H; injection H as <-; change (zlen []) with 0; lia|]. apply Forall_cons_1 in Hl as [Hl Hls].
  change (l :: ls) with ([l] ++ ls) in *. rewrite zlen_app in *. change (zlen [l]) with 1 in *. pose proof (zlen_nonneg ls). cbn [app pool_run] in H. destruct (step l p) as [o|] eqn:E; [|done].
  assert (Hok : label_ok l) by (by destruct l). destruct (pool_step_ok starts p l o HP Hok ltac:(lia) E) as (p1 & -> & HP1). assert (Es : start_of l = []) by (by destruct l). rewrite Es, app_nil_r in HP1.
  pose proof (pool_work_step starts p l p1 HP Hl E). specialize (IH p1 starts HP1 ltac:(lia) Hls H). lia.
Qed.
Lemma pool_rests starts p : pool_ok starts p -> exists ls p', Forall (fun l => productive l = true) ls /\ pool_run lz4 ls p = Some (Ret p') /\ pool_ok starts p' /\ (p_caller p' = CIdle \/ p_caller p' = CGone).
Proof.
  intros HP. remember (Z.to_nat (pool_work p)) as n eqn:En. revert p HP En. induction n as [n IH] using lt_wf_ind. intros p HP En. destruct (decide (p_caller p = CIdle)) as [|H1]; [exists [], p; cbn; auto|]. destruct (decide (p_caller p = CGone)) as [|H2]; [exists [], p; cbn; auto|].
  destruct (pool_moves starts p HP H1 H2) as (l & p1 & Hl & E). pose proof (pool_work_step starts p l p1 HP Hl E) as Hlt. assert (HP1 : pool_ok starts p1).
  { pose proof (po_gen _ _ HP) as Hg. destruct l; try done; cbn [pool_step] in E; [destruct (caller_ok starts p _ _ HP E) as (? & [= <-] & ?); done|destruct (worker_ok starts p _ _ _ HP E) as (? & [= <-] & ?); done]. }
  pose proof (pool_work_nonneg _ _ HP1). destruct (IH (Z.to_nat (pool_work p1)) ltac:(lia) p1 HP1 eq_refl) as (ls & p2 & R1 & R2 & R3 & R4). exists (l :: ls), p2. split; [by constructor|]. split; [cbn [pool_run]; by rewrite E|done].
Qed.

(** What a batch comes to is what the caller alone would have made of it. *)
Definition as_serial (b : batch) : Prop :=
  exists m, decompress_jobs_serial lz4 (b_jobs b) (b_start b) = Ret (if b_failed b then -1 else 0, m) /\ (b_failed b = false -> forall x, b_mem b x = m x).
Lemma batch_as_serial b : jobs_ok (b_jobs b) -> zlen (b_jobs b) < 2 ^ 63 -> batch_ok b -> as_serial b.
Proof.
  intros HJ Hn HB. destruct (jobs_serial_ok lz4 (b_jobs b) (b_start b) HJ Hn) as (failed & fb & m & E & R). exists m. unfold batch_ok, batch_right in *. destruct (first_failing lz4 (b_jobs b)).
  - destruct HB as [-> _], R as [-> _]. split; [done|]. done.
  - destruct HB as [-> HB], R as [-> R]. split; [done|]. intros _ x. by rewrite HB, R.
Qed.
Lemma started_jobs ls b rest : Forall label_ok ls -> ((fun b => (b_jobs b, b_start b)) <$> b) ++ rest = ls ≫= start_of -> Forall (fun b => jobs_ok (b_jobs b) /\ zlen (b_jobs b) < 2 ^ 63) b.
Proof.
  intros Hl E. apply Forall_forall. intros x Hx. assert (Hin : (b_jobs x, b_start x) ∈ ls ≫= start_of) by (rewrite <- E; apply elem_of_app; left; apply list_elem_of_fmap; by exists x).
  apply list_elem_of_bind in Hin as (l & H1 & H2). rewrite Forall_forall in Hl. specialize (Hl l H2). destruct l; cbn [start_of] in H1; try (by apply elem_of_nil in H1). apply list_elem_of_singleton in H1. injection H1 as E1 _. by rewrite E1.
Qed.
End PoolOk.

(** ** The pool, as a whole *)
Section Pool.
Context (lz4 : list Z -> Z -> option (list Z)).
Context (setup unmask : bool) (creates : list bool) (nr_threads : Z) (p0 : pool).
Hypothesis nr_ok : nr_threads < 2 ^ 32.
Hypothesis created : (decompression_pool_create setup creates unmask nr_threads).1 = Some p0.

(** C17. The decompression pool is safe in every interleaving: whatever order the
    caller and the workers take their steps in, with relaxed loads that miss stores
    and wake-ups without a signal, no BUG_ON is reached and the batches finish in the
    order they were started.  Each of them comes to what [decompress_jobs_serial] makes
    of its jobs: all bytes are the same when every job decompresses; otherwise the
    batch fails and the block reported is the first in the order of the jobs that does
    not decompress.  When the caller is outside of the pool no worker is left in the
    queue, so the caller may reuse the jobs and their buffers. *)
Theorem decompression_pool_correct ls o :
  Forall label_ok ls -> zlen ls < 2 ^ 64 -> pool_run lz4 ls p0 = Some o ->
  exists p rest, o = Ret p /\
    ((fun b => (b_jobs b, b_start b)) <$> p_batches p) ++ rest = ls ≫= start_of /\
    Forall (fun b => as_serial lz4 b /\ forall job, first_failing lz4 (b_jobs b) = Some job -> b_failed b = true /\ b_failed_block b = dj_block_index job) (p_batches p) /\
    (p_caller p = CIdle -> rest = [] /\ Forall (fun w => in_queue w = false) (p_workers p)).
Proof.
  intros Hl Hn H. destruct (pool_run_ok lz4 ls p0 [] o (proj1 (create_ok lz4 _ _ _ _ _ nr_ok created)) Hl Hn H) as (p & -> & HP). exists p, (if batch_active p then [(q_jobs (p_queue p), p_start p)] else []). split; [done|]. pose proof (po_starts _ _ _ HP) as Hs. split; [done|]. split.
  - pose proof (started_jobs ls _ _ Hl Hs) as HJ. pose proof (po_batches _ _ _ HP) as HB. rewrite Forall_forall in *. intros b Hb. destruct (HJ b Hb). split; [by apply batch_as_serial; auto|]. intros job Hj. specialize (HB b Hb). unfold batch_ok, batch_right in HB. by rewrite Hj in HB.
  - intros Hc. pose proof (po_phase _ _ _ HP) as P5. unfold phase_ok in P5. rewrite Hc in P5. destruct P5 as [Q1 _ _ _ _ Q6]. rewrite Q1. split; [done|]. eapply Forall_impl; [exact Q6|]. intros w. unfold worker_quiet_ok, in_queue. by destruct (w_place w).
Qed.

(** C7. The decompression pool never blocks for good: from any state it can reach,
    as long as the caller is inside of the pool some thread can take a step, no wake-up
    without a signal needed; and any run of such steps is at most [pool_work] long.  So
    every batch that is started finishes, and a pool that is destroyed ends with all
    its workers gone. *)
Theorem decompression_pool_live ls p :
  Forall label_ok ls -> zlen ls < 2 ^ 63 -> pool_run lz4 ls p0 = Some (Ret p) ->
  (p_caller p <> CIdle -> p_caller p <> CGone -> exists l p', productive l = true /\ pool_step lz4 l p = Some (Ret p')) /\
  (forall ls' p', zlen ls' < 2 ^ 63 -> Forall (fun l => productive l = true) ls' -> pool_run lz4 ls' p = Some (Ret p') -> zlen ls' <= pool_work p) /\
  (p_caller p = CGone -> Forall (fun w => w_place w = WExit) (p_workers p)).
Proof.
  intros Hl Hn H. destruct (pool_run_ok lz4 ls p0 [] _ (proj1 (create_ok lz4 _ _ _ _ _ nr_ok created)) Hl ltac:(change (zlen []) with 0; lia) H) as (p1 & [= <-] & HP). split; [by apply (pool_moves lz4 _ p HP)|]. split.
  - intros ls' p' Hn' Hls' H'. assert (Hs : zlen (ls ≫= start_of) <= zlen ls) by (clear; induction ls as [|l ls IH]; [done|]; rewrite bind_cons, zlen_app; change (l :: ls) with ([l] ++ ls); rewrite zlen_app; change (zlen [l]) with 1; assert (zlen (start_of l) <= 1) by (by destruct l); lia).
    pose proof (productive_bound lz4 ls' p _ p' HP ltac:(cbn [app]; lia) Hls' H').
    assert (Hp' : exists s, pool_ok lz4 s p') by (destruct (pool_run_ok lz4 ls' p _ _ HP ltac:(eapply Forall_impl; [exact Hls'|]; by intros []) ltac:(cbn [app]; lia) H') as (? & [= <-] & ?); by eexists). destruct Hp' as [s Hp']. pose proof (pool_work_nonneg lz4 _ _ Hp'). lia.
  - intros Hc. pose proof (po_phase _ _ _ HP) as P5. unfold phase_ok in P5. rewrite Hc in P5. apply P5.
Qed.
End Pool.

(** ** A sample: two batches, the second with a block that does not decompress *)
Definition sample_lz4 (src : list Z) (n : Z) : option (list Z) := match src with b :: _ => Some (replicate (Z.to_nat n) b) | [] => None end.
Definition sample_job (i pages : Z) (src : list Z) : decompress_job := DecompressJob src (0x10000 + i * 0x1000) (zlen src) pages i.
Definition sample_jobs : list decompress_job := [sample_job 0 1 [7]; sample_job 1 1 []; sample_job 2 1 [9]].
Definition sample_bad_jobs : list decompress_job := [sample_job 0 1 [7]; sample_job 1 0 []; sample_job 2 1 [9]; sample_job 3 0 [9]].
Definition sample_pool : pool := default (Pool (Queue [] 0 0 false 0 (fun _ => 0) [] [] []) 0 0 0 false false [] CIdle (fun _ => 0) []) (decompression_pool_create true [true; true; false] true 4).1.

(** The threads in turn, each when it can. *)
Fixpoint in_turn (fuel turn : nat) (p : pool) : list label * pool :=
  match fuel with
  | O => ([], p)
  | S fuel =>
      let l := match turn with O => LCaller None | S k => LWorker k (Some 5) end in
      let turn := match turn with O => 1%nat | 1%nat => 2%nat | _ => O end in
      match pool_step sample_lz4 l p with
      | Some (Ret p) => let '(ls, p) := in_turn fuel turn p in (l :: ls, p)
      | _ => in_turn fuel turn p
      end
  end.
Definition sample_start (l : label) (fuel : nat) (s : list label * pool) : list label * pool :=
  match pool_step sample_lz4 l s.2 with Some (Ret p) => let '(ls, p) := in_turn fuel 0 p in (s.1 ++ l :: ls, p) | _ => s end.
Definition sample_labels : list label :=
  (sample_start LDestroy 20 (sample_start (LStart sample_bad_jobs (fun _ => 3) 3) 60 (sample_start (LStart sample_jobs (fun _ => 3) 4) 60 ([], sample_pool)))).1.

Lemma sample_jobs_ok : jobs_ok sample_jobs /\ jobs_ok sample_bad_jobs.
Proof.
  assert (H : forall n js, length js = n -> (n <= 4)%nat -> (forall i a, js !! i = Some a -> dj_block_index a = Z.of_nat i /\ dj_dst a = 0x10000 + Z.of_nat i * 0x1000 /\ 0 <= dj_pages a <= 1) -> jobs_ok js).
  { intros n js Hn Hb Hj. split.
    - apply Forall_lookup. intros i a Hi. destruct (Hj i a Hi) as (-> & _). apply lookup_lt_Some in Hi. unfold INT_MAX. lia.
    - intros i j a b Hij Ha Hc. destruct (Hj i a Ha) as (-> & _), (Hj j b Hc) as (-> & _). lia.
    - intros i j a b Hij Ha Hc. destruct (Hj i a Ha) as (_ & E1 & E2), (Hj j b Hc) as (_ & E3 & E4). unfold job_range. cbn [fst snd]. rewrite E1, E3. unfold PAGE_SIZE. lia.
    - apply Forall_lookup. intros i a Hi. destruct (Hj i a Hi) as (_ & _ & ?). lia. }
  split; [apply (H 3%nat); [done|lia|]|apply (H 4%nat); [done|lia|]]; intros [|[|[|[|i]]]] a Ha; cbn in Ha; try done; injection Ha as <-; cbn; lia.
Qed.
Lemma in_turn_labels fuel turn p : Forall label_ok (in_turn fuel turn p).1.
Proof.
  revert turn p. induction fuel as [|fuel IH]; intros turn p; cbn [in_turn]; [constructor|]. set (t := match turn with O => 1%nat | _ => _ end). destruct (pool_step _ _ p) as [[p'| |]|]; try apply IH. specialize (IH t p'). destruct (in_turn fuel t p') as [ls p2]. cbn [fst] in *. constructor; [by destruct turn|done].
Qed.
Lemma sample_start_labels l fuel s : label_ok l -> Forall label_ok s.1 -> Forall label_ok (sample_start l fuel s).1.
Proof.
  intros Hl Hs. unfold sample_start. destruct (pool_step sample_lz4 l s.2) as [[p| |]|]; try done. pose proof (in_turn_labels fuel 0 p) as Hi. destruct (in_turn fuel 0 p) as [ls p2]. cbn [fst] in *. apply Forall_app. split; [done|]. by constructor.
Qed.
Lemma sample_labels_ok : Forall label_ok sample_labels.
Proof.
  destruct sample_jobs_ok as [H1 H2]. unfold sample_labels. apply sample_start_labels; [done|]. apply sample_start_labels; [split; [exact H2|done]|]. apply sample_start_labels; [split; [exact H1|done]|constructor].
Qed.

Lemma decompression_pool_correct_witness :
  exists p rest, pool_run sample_lz4 sample_labels sample_pool = Some (Ret p) /\ ((fun b => (b_jobs b, b_start b)) <$> p_batches p) ++ rest = sample_labels ≫= start_of /\
    Forall (fun b => as_serial sample_lz4 b /\ forall job, first_failing sample_lz4 (b_jobs b) = Some job -> b_failed b = true /\ b_failed_block b = dj_block_index job) (p_batches p) /\ length (p_batches p) = 2%nat.
Proof.
  assert (E : match pool_run sample_lz4 sample_labels sample_pool with Some (Ret p) => length (p_batches p) | _ => 0%nat end = 2%nat) by (vm_compute; reflexivity). destruct (pool_run sample_lz4 sample_labels sample_pool) as [o|] eqn:Er; [|discriminate E].
  destruct (decompression_pool_correct sample_lz4 true true [true; true; false] 4 sample_pool ltac:(lia) eq_refl sample_labels o sample_labels_ok ltac:(vm_compute; reflexivity) Er) as (p & rest & -> & H1 & H2 & _). exists p, rest. split; [reflexivity|]. split; [exact H1|]. split; [exact H2|exact E].
Defined.

Lemma decompression_pool_live_witness :
  exists p, pool_run sample_lz4 sample_labels sample_pool = Some (Ret p) /\ p_caller p = CGone /\ Forall (fun w => w_place w = WExit) (p_workers p) /\
  exists p1, pool_run sample_lz4 (take 10 sample_labels) sample_pool = Some (Ret p1) /\ p_caller p1 <> CIdle /\ exists l p', productive l = true /\ pool_step sample_lz4 l p1 = Some (Ret p').
Proof.
  assert (E : match pool_run sample_lz4 sample_labels sample_pool with Some (Ret p) => p_caller p | _ => CIdle end = CGone) by (vm_compute; reflexivity). destruct (pool_run sample_lz4 sample_labels sample_pool) as [[p| |]|] eqn:Er; [|discriminate E..].
  destruct (decompression_pool_live sample_lz4 true true [true; true; false] 4 sample_pool ltac:(lia) eq_refl sample_labels p sample_labels_ok ltac:(vm_compute; reflexivity) Er) as (_ & _ & H). exists p. split; [reflexivity|]. split; [exact E|]. split; [exact (H E)|].
  assert (E1 : match pool_run sample_lz4 (take 10 sample_labels) sample_pool with Some (Ret p) => match p_caller p with CRun _ => true | _ => false end | _ => false end = true) by (vm_compute; reflexivity). destruct (pool_run sample_lz4 (take 10 sample_labels) sample_pool) as [[p1| |]|] eqn:Er1; [|discriminate E1..]. exists p1. split; [reflexivity|].
  assert (Hc : p_caller p1 <> CIdle /\ p_caller p1 <> CGone) by (destruct (p_caller p1); [discriminate E1|split; discriminate|discriminate E1..]). destruct Hc as [Hc1 Hc2]. split; [exact Hc1|].
  destruct (decompression_pool_live sample_lz4 true true [true; true; false] 4 sample_pool ltac:(lia) eq_refl (take 10 sample_labels) p1 ltac:(apply Forall_take; apply sample_labels_ok) ltac:(vm_compute; reflexivity) Er1) as (H1 & _ & _). exact (H1 Hc1 Hc2).
Defined.
