(* ===== verification/DecompressJobs.v ===== *)
(** How a reader uses the pool of decompression threads (criu/compression.c): how many
    threads a batch is worth, the budget of threads that all processes of a restore
    share, and [decompress_jobs_parallel_pool_with_caller_work], which runs a batch
    alone, on the pool it has, or on a new one.

    What the other threads do while the caller is in the pool is the schedule it is
    given, a list of steps ([pool_run]); [None] says that the schedule ends before the
    caller can go on, or that the budget has no thread left to give, so the caller
    waits.  The compare-and-exchange loop that takes threads from the budget is one
    step here; null arguments are left out. *)
From S2P Require Import Prelude PagemapImage PageRead AsyncQueue ReadPages DecompressQueue DecompressPool.

Definition PARALLEL_RESTORE_MIN_BATCH_BYTES : Z := 2 ^ 20.
Definition PARALLEL_DECOMPRESS_MIN_BYTES_PER_THREAD : Z := 512 * 2 ^ 10.

(** ** How many threads *)

(** sched_getaffinity() with room for a number of processors. *)
Inductive affinity :=
| AffCount (n : Z)
| AffTooSmall
| AffError.

Fixpoint affinity_loop (fuel : nat) (alloc : Z -> bool) (getaffinity : Z -> affinity) (nr_cpus : Z) : outcome Z :=
  match fuel with
  | O => NoFuel
  | S fuel =>
      if negb (alloc nr_cpus) then Ret 1
      else
        match getaffinity nr_cpus with
        | AffCount n => Ret (if n <? 1 then 1 else u32 n)
        | AffError => Ret 1
        | AffTooSmall => if nr_cpus >? 2 ^ 31 - 1 then Ret 1 else affinity_loop fuel alloc getaffinity (nr_cpus * 2)
        end
  end.
(** [configured]: sysconf(_SC_NPROCESSORS_CONF); CPU_SETSIZE is 1024. *)
Definition decompression_available_cpus (configured : Z) (alloc : Z -> bool) (getaffinity : Z -> affinity) : outcome Z :=
  affinity_loop 23 alloc getaffinity (if configured >? 1024 then configured else 1024).

Definition decompression_thread_limit (requested available_cpus : Z) : Z :=
  let available_cpus := if available_cpus =? 0 then 1 else available_cpus in
  if requested =? 0 then available_cpus else Z.min requested available_cpus.
(** [cpus]: the answer of [decompression_available_cpus]. *)
Definition decompression_cpu_limit (cpus requested : Z) : Z := decompression_thread_limit requested cpus.
Definition decompression_budget_capacity (cpus configured_threads : Z) : Z := if configured_threads <? 2 then decompression_cpu_limit cpus 0 else decompression_cpu_limit cpus configured_threads.
Definition compressed_restore_has_parallel_capacity (capacity : option Z) (requested_threads : Z) : bool :=
  match capacity with
  | None => false
  | Some thread_capacity => negb (requested_threads =? 1) && (decompression_thread_limit requested_threads thread_capacity >? 1)
  end.
Definition decompress_batch_threads (cpus nr_jobs total_uncompressed requested_threads : Z) : Z :=
  if total_uncompressed <? PARALLEL_RESTORE_MIN_BATCH_BYTES then 1
  else
    let nr_threads := decompression_cpu_limit cpus requested_threads in
    let nr_threads := if nr_jobs <? nr_threads then nr_jobs else nr_threads in
    let work_limit := total_uncompressed / PARALLEL_DECOMPRESS_MIN_BYTES_PER_THREAD in
    let nr_threads := if work_limit <? nr_threads then work_limit else nr_threads in
    if nr_threads <? 2 then 1 else nr_threads.

(** ** The budget shared by the processes of a restore: the threads left, if there is one *)
Definition budget := option Z.
Definition sched (A : Type) : Type := option (outcome A).
Definition sbind {A B} (m : sched A) (k : A -> sched B) : sched B := match m with Some (Ret a) => k a | Some Bug => Some Bug | Some NoFuel => Some NoFuel | None => None end.
Notation "'let?' x ':=' m 'in' k" := (sbind m (fun x => k)) (at level 10, x pattern, m at level 100, k at level 200) : criu_scope.

(** [decompression_shared_budget_init], the part about threads. *)
Definition decompression_shared_budget_init (cpus requested_threads : Z) : budget := Some (decompression_budget_capacity cpus requested_threads).
Definition shared_budget_acquire (available requested : Z) : option (Z * Z) :=
  if available =? 0 then None else let granted := Z.min requested available in Some (granted, available - granted).
Definition decompress_budget_acquire (b : budget) (requested : Z) : sched (Z * budget) :=
  match b with
  | None => Some (Ret (0, None))
  | Some available => match shared_budget_acquire available requested with None => None | Some (granted, rest) => Some (Ret (granted, Some rest)) end
  end.
Definition decompress_budget_release (b : budget) (nr_threads : Z) : budget :=
  if nr_threads =? 0 then b else match b with None => None | Some available => Some (u32 (available + nr_threads)) end.
Definition decompress_budget_trim_reservation (b : budget) (threads_held threads_to_keep : Z) : outcome (Z * budget) :=
  if threads_to_keep >? threads_held then Bug else Ret (threads_to_keep, decompress_budget_release b (threads_held - threads_to_keep)).

(** ** A batch of a reader *)

(** What the environment answers: the processors, how a new pool comes up, and what the
    threads do while an old pool is joined, while a new one is given up, and while the
    batch runs. *)
Record par_env := ParEnv {
  e_cpus : Z;
  e_setup : bool;
  e_creates : list bool;
  e_unmask : bool;
  e_join : list label;
  e_drop : list label;
  e_batch : list label
}.

Section Jobs.
Context (lz4 : list Z -> Z -> option (list Z)).

(** [decompression_pool_destroy], up to its return. *)
Definition pool_destroyed (ls : list label) (p : pool) : sched unit :=
  let? p := Some (decompression_pool_destroy p) in
  let? p := pool_run lz4 ls p in
  if bool_decide (p_caller p = CGone) then Some (Ret tt) else None.

(** The batch on a pool, from [decompression_pool_start_batch] to the return of
    [decompression_pool_finish_batch]. *)
Definition pool_batch (ls : list label) (jobs : list decompress_job) (m : bytes_at) (active_threads : Z) (p : pool) : sched (bool * bytes_at * pool) :=
  let? p := Some (decompression_pool_start_batch jobs m active_threads p) in
  let? p := pool_run lz4 ls p in
  match p_caller p, last (p_batches p) with
  | CIdle, Some b => Some (Ret (b_failed b, b_mem b, p))
  | _, _ => None
  end.

Definition too_small (p : pool) (threads_held : Z) : bool := threads_held >? nr_workers p + 1.

Definition decompress_jobs_parallel_pool (e : par_env) (b : budget) (poolp : option pool) (jobs : list decompress_job) (m : bytes_at) (total_uncompressed requested_threads : Z)
    : sched (Z * bytes_at * option pool * budget) :=
  if zlen jobs =? 0 then Some (Ret (0, m, poolp, b))
  else
    let useful_threads := decompress_batch_threads (e_cpus e) (zlen jobs) total_uncompressed requested_threads in
    let? (threads_held, b) := decompress_budget_acquire b useful_threads in
    if threads_held =? 0 then
      let? (ret, m) := Some (decompress_jobs_serial lz4 jobs m) in Some (Ret (ret, m, poolp, b))
    else if threads_held =? 1 then
      let? (ret, m) := Some (decompress_jobs_serial lz4 jobs m) in Some (Ret (ret, m, poolp, decompress_budget_release b threads_held))
    else
      let? poolp :=
        match poolp with
        | Some p => if too_small p threads_held then let? _ := pool_destroyed (e_join e) p in Some (Ret None) else Some (Ret (Some p))
        | None => Some (Ret None)
        end in
      let '(poolp, mask_restore_failed) := match poolp with Some p => (Some p, false) | None => decompression_pool_create (e_setup e) (e_creates e) (e_unmask e) threads_held end in
      if mask_restore_failed then
        let? _ := match poolp with Some p => pool_destroyed (e_drop e) p | None => Some (Ret tt) end in
        Some (Ret (-1, m, None, decompress_budget_release b threads_held))
      else
        match poolp with
        | None =>
            let? (threads_held, b) := Some (decompress_budget_trim_reservation b threads_held 1) in
            let? (ret, m) := Some (decompress_jobs_serial lz4 jobs m) in
            Some (Ret (ret, m, None, decompress_budget_release b threads_held))
        | Some p =>
            let active_threads := Z.min threads_held (nr_workers p + 1) in
            let? (threads_held, b) := Some (decompress_budget_trim_reservation b threads_held active_threads) in
            let? (failed, m, p) := pool_batch (e_batch e) jobs m active_threads p in
            Some (Ret (if failed then -1 else 0, m, Some p, decompress_budget_release b threads_held))
        end.
End Jobs.

(** ** What holds *)
Lemma affinity_loop_ret fuel alloc getaffinity n : 1024 <= n -> (2 ^ 31 <= n \/ (exists k, (k < fuel)%nat /\ 2 ^ 31 <= n * 2 ^ Z.of_nat k)) -> (0 < fuel)%nat -> (forall k c, getaffinity k = AffCount c -> c < 2 ^ 32) ->
  exists c, affinity_loop fuel alloc getaffinity n = Ret c /\ 1 <= c < 2 ^ 32.
Proof.
  intros Hn Hf H0 Hc. revert n Hn Hf H0. induction fuel as [|fuel IH]; intros n Hn Hf H0; [lia|]. cbn [affinity_loop]. destruct (alloc n); cbn [negb]; [|exists 1; split; [done|lia]]. destruct (getaffinity n) as [c| |] eqn:E; [| |exists 1; split; [done|lia]].
  - specialize (Hc _ _ E). destruct (Z.ltb_spec c 1); [exists 1; split; [done|lia]|]. exists c. rewrite u32_small by lia. split; [done|lia].
  - rewrite Z.gtb_ltb. destruct (Z.ltb_spec (2 ^ 31 - 1) n); [exists 1; split; [done|lia]|]. destruct Hf as [|(k & Hk & Hp)]; [lia|]. destruct k as [|k]; [cbn in Hp; lia|].
    apply IH; [lia| |lia]. right. exists k. split; [lia|]. rewrite Nat2Z.inj_succ, Z.pow_succ_r in Hp by lia. lia.
Qed.
(** Asking for the number of processors ends. *)
Lemma available_cpus_ok configured alloc getaffinity : (forall k c, getaffinity k = AffCount c -> c < 2 ^ 32) -> exists c, decompression_available_cpus configured alloc getaffinity = Ret c /\ 1 <= c < 2 ^ 32.
Proof.
  intros Hc. unfold decompression_available_cpus. rewrite Z.gtb_ltb. apply affinity_loop_ret; [destruct (Z.ltb_spec 1024 configured); lia| |lia|done]. right. exists 21%nat. split; [lia|]. change (2 ^ Z.of_nat 21) with (2 ^ 21). destruct (Z.ltb_spec 1024 configured); lia.
Qed.
Lemma thread_limit_bounds requested cpus : 0 <= requested -> 1 <= cpus -> 1 <= decompression_thread_limit requested cpus <= cpus.
Proof. intros Hr Hc. unfold decompression_thread_limit. rewrite (proj2 (Z.eqb_neq cpus 0)) by lia. destruct (Z.eqb_spec requested 0); lia. Qed.
Lemma batch_threads_bounds cpus nr total requested : 0 <= requested -> 1 <= cpus -> 1 <= decompress_batch_threads cpus nr total requested <= cpus.
Proof.
  intros Hr Hc. pose proof (thread_limit_bounds requested cpus Hr Hc) as H. unfold decompress_batch_threads, decompression_cpu_limit. set (w := total / _). set (t := decompression_thread_limit requested cpus) in *. clearbody w t.
  destruct (total <? _); [lia|]. destruct (Z.ltb_spec nr t); repeat match goal with |- context [?a <? ?b] => destruct (Z.ltb_spec a b) end; lia.
Qed.

Section JobsOk.
Context (lz4 : list Z -> Z -> option (list Z)).

(** A pool as calls leave it, after at most [n] batches. *)
Definition usable (n : Z) (p : pool) : Prop := exists starts, pool_ok lz4 starts p /\ p_caller p = CIdle /\ zlen starts <= n.
(** Steps of the threads of a pool, wake-ups included. *)
Definition of_threads (l : label) : bool := match l with LStart _ _ _ | LDestroy => false | _ => true end.

Lemma threads_run ls p starts o : pool_ok lz4 starts p -> Forall (fun l => of_threads l = true) ls -> zlen starts + zlen ls < 2 ^ 64 -> pool_run lz4 ls p = Some o -> exists p', o = Ret p' /\ pool_ok lz4 starts p'.
Proof.
  intros HP Hl Hn H. destruct (pool_run_ok lz4 ls p starts o HP) as (p' & -> & HP'); try done; [eapply Forall_impl; [exact Hl|]; by intros []|]. exists p'. split; [done|].
  assert (E : ls ≫= start_of = []) by (clear - Hl; induction Hl as [|l ls H _ IH]; [done|]; rewrite bind_cons, IH; by destruct l). by rewrite E, app_nil_r in HP'.
Qed.

Lemma destroyed_ok n ls p o : usable n p -> Forall (fun l => of_threads l = true) ls -> n + zlen ls < 2 ^ 64 -> pool_destroyed lz4 ls p = Some o -> o = Ret tt.
Proof.
  intros (starts & HP & Hc & Hn) Hl Hz H. unfold pool_destroyed in H. destruct (destroy_step lz4 starts p HP Hc) as (p1 & E1 & HP1). rewrite E1 in H. cbn [sbind] in H. destruct (pool_run lz4 ls p1) as [o1|] eqn:E2; [|done].
  destruct (threads_run ls p1 starts o1 HP1 Hl ltac:(lia) E2) as (p2 & -> & HP2). cbn [sbind] in H. destruct (bool_decide _); [|done]. by injection H as <-.
Qed.

Lemma batch_on_pool n ls jobs m held p o : usable n p -> Forall (fun l => of_threads l = true) ls -> n + 1 + zlen ls < 2 ^ 64 -> jobs_ok jobs -> zlen jobs < 2 ^ 63 -> 2 <= held ->
  pool_batch lz4 ls jobs m (Z.min held (nr_workers p + 1)) p = Some o -> exists failed fb m' p', o = Ret (failed, m', p') /\ batch_right lz4 jobs m failed fb m' /\ usable (n + 1) p'.
Proof.
  intros (starts & HP & Hc & Hn) Hl Hz HJ Hnj Hh H. unfold pool_batch in H. pose proof (zlen_nonneg ls). destruct (start_step lz4 starts p jobs m held HP ltac:(lia) (conj HJ Hnj) Hc Hh) as (p1 & E1 & HP1). rewrite E1 in H. cbn [sbind] in H.
  destruct (pool_run lz4 ls p1) as [o1|] eqn:E2; [|done]. destruct (threads_run ls p1 _ o1 HP1 Hl ltac:(rewrite zlen_app; change (zlen [_]) with 1; lia) E2) as (p2 & -> & HP2). cbn [sbind] in H.
  destruct (p_caller p2) eqn:Ec; try done. destruct (last (p_batches p2)) as [b|] eqn:El; [|done]. injection H as <-. exists (b_failed b), (b_failed_block b), (b_mem b), p2. split; [done|].
  assert (Ea : batch_active p2 = false) by (pose proof (po_phase _ _ _ HP2) as P5; unfold phase_ok in P5; rewrite Ec in P5; apply P5). pose proof (po_starts _ _ _ HP2) as Hs. rewrite Ea, app_nil_r in Hs. apply last_Some in El as [l' El].
  rewrite El, fmap_app in Hs. apply app_inj_tail in Hs as [_ [= Ej Em]]. split; [|exists (starts ++ [(jobs, m)]); split; [done|]; split; [done|rewrite zlen_app; change (zlen [_]) with 1; lia]].
  pose proof (po_batches _ _ _ HP2) as HB. rewrite El in HB. apply Forall_app in HB as [_ [HB _]%Forall_cons_1]. unfold batch_ok in HB. by rewrite Ej, Em in HB.
Qed.

(** What a batch returns. *)
Definition result_right (jobs : list decompress_job) (m : bytes_at) (ret : Z) (m' : bytes_at) : Prop :=
  match first_failing lz4 jobs with
  | None => ret = 0 /\ forall x, m' x = jobs_stored lz4 m jobs x
  | Some _ => ret = -1
  end.
Lemma right_result jobs m failed fb m' : batch_right lz4 jobs m failed fb m' -> result_right jobs m (if failed then -1 else 0) m'.
Proof. unfold batch_right, result_right. destruct (first_failing lz4 jobs); [by intros [-> _]|by intros [-> ?]]. Qed.
Lemma serial_result jobs m : jobs_ok jobs -> zlen jobs < 2 ^ 63 -> exists ret m', decompress_jobs_serial lz4 jobs m = Ret (ret, m') /\ result_right jobs m ret m'.
Proof. intros HJ Hn. destruct (jobs_serial_ok lz4 jobs m HJ Hn) as (failed & fb & m' & E & R). eexists _, m'. split; [exact E|]. by apply (right_result jobs m failed fb). Qed.

Lemma create_usable e held p : held < 2 ^ 32 -> (decompression_pool_create (e_setup e) (e_creates e) (e_unmask e) held).1 = Some p -> usable 0 p.
Proof. intros Hh H. destruct (create_ok lz4 _ _ _ _ _ Hh H) as [HP Hc]. by exists []. Qed.
Lemma usable_mono n n' p : n <= n' -> usable n p -> usable n' p.
Proof. intros Hn (starts & H1 & H2 & H3). exists starts. split; [done|]. split; [done|lia]. Qed.

(** Threads of the budget come back. *)
Lemma release_taken avail granted : 0 <= avail < 2 ^ 32 -> 0 < granted <= avail -> decompress_budget_release (Some (avail - granted)) granted = Some avail.
Proof. intros Ha Hg. unfold decompress_budget_release. rewrite (proj2 (Z.eqb_neq granted 0)), u32_small by lia. f_equal. lia. Qed.
Lemma trim_release avail granted keep : 0 <= avail < 2 ^ 32 -> 0 < keep <= granted -> granted <= avail ->
  exists b, decompress_budget_trim_reservation (Some (avail - granted)) granted keep = Ret (keep, b) /\ decompress_budget_release b keep = Some avail.
Proof.
  intros Ha Hk Hg. unfold decompress_budget_trim_reservation. rewrite Z.gtb_ltb. destruct (Z.ltb_spec granted keep); [lia|]. eexists. split; [done|]. unfold decompress_budget_release. rewrite (proj2 (Z.eqb_neq keep 0)) by lia.
  destruct (Z.eqb_spec (granted - keep) 0); rewrite !u32_small by (rewrite ?u32_small; lia); f_equal; lia.
Qed.

Record env_ok (n : Z) (e : par_env) : Prop := EnvOk {
  eo_cpus : 1 <= e_cpus e < 2 ^ 32;
  eo_join : Forall (fun l => of_threads l = true) (e_join e) /\ n + zlen (e_join e) < 2 ^ 64;
  eo_drop : Forall (fun l => of_threads l = true) (e_drop e) /\ zlen (e_drop e) < 2 ^ 64;
  eo_batch : Forall (fun l => of_threads l = true) (e_batch e) /\ n + 1 + zlen (e_batch e) < 2 ^ 64
}.
Definition budget_ok (b : budget) : Prop := match b with None => True | Some available => 0 <= available < 2 ^ 32 end.
Definition usable_opt (n : Z) (poolp : option pool) : Prop := match poolp with None => True | Some p => usable n p end.

(** With threads of its own and a pool or none: the end of the call. *)
Definition call_right (e : par_env) (b : budget) (n : Z) (jobs : list decompress_job) (m : bytes_at) (o : outcome (Z * bytes_at * option pool * budget)) : Prop :=
  exists ret m' poolp', o = Ret (ret, m', poolp', b) /\ usable_opt (n + 1) poolp' /\ (result_right jobs m ret m' \/ (e_unmask e = false /\ ret = -1)).

Lemma with_pool_right e avail held n p jobs m o : env_ok n e -> 0 <= n -> 0 <= avail < 2 ^ 32 -> 2 <= held <= avail -> usable n p -> jobs_ok jobs -> zlen jobs < 2 ^ 63 ->
  sbind (Some (decompress_budget_trim_reservation (Some (avail - held)) held (Z.min held (nr_workers p + 1)))) (fun '(threads_held, b) =>
    sbind (pool_batch lz4 (e_batch e) jobs m (Z.min held (nr_workers p + 1)) p) (fun '(failed, m, p) => Some (Ret (if failed then -1 else 0, m, Some p, decompress_budget_release b threads_held)))) = Some o ->
  call_right e (Some avail) n jobs m o.
Proof.
  intros [_ _ _ [E1 E2]] Hn Ha Hh HU HJ Hz H. assert (Hnr : 1 <= nr_workers p) by (destruct HU as (starts & HP & _); apply HP). destruct (trim_release avail held (Z.min held (nr_workers p + 1)) Ha ltac:(lia) ltac:(lia)) as (b & Et & Er). rewrite Et in H. cbn [sbind] in H.
  destruct (pool_batch lz4 (e_batch e) jobs m _ p) as [o1|] eqn:Eb; [|done]. destruct (batch_on_pool n _ jobs m held p o1 HU E1 E2 HJ Hz ltac:(lia) Eb) as (failed & fb & m' & p' & -> & R & HU'). cbn [sbind] in H. injection H as <-. rewrite Er.
  eexists _, m', (Some p'). split; [done|]. split; [done|]. left. by apply (right_result jobs m failed fb).
Qed.
Lemma serial_right e b n poolp jobs m ret m' : 0 <= n -> usable_opt n poolp -> result_right jobs m ret m' -> call_right e b n jobs m (Ret (ret, m', poolp, b)).
Proof. intros Hn HU R. exists ret, m', poolp. split; [done|]. split; [|by left]. destruct poolp as [p|]; [|done]. by apply (usable_mono n); [lia|]. Qed.
Lemma without_pool_right e avail held n jobs m o : 0 <= n -> 0 <= avail < 2 ^ 32 -> 2 <= held <= avail -> jobs_ok jobs -> zlen jobs < 2 ^ 63 ->
  sbind (Some (decompress_budget_trim_reservation (Some (avail - held)) held 1)) (fun '(threads_held, b) =>
    sbind (Some (decompress_jobs_serial lz4 jobs m)) (fun '(ret, m) => Some (Ret (ret, m, None, decompress_budget_release b threads_held)))) = Some o ->
  call_right e (Some avail) n jobs m o.
Proof.
  intros Hn Ha Hh HJ Hz H. destruct (trim_release avail held 1 Ha ltac:(lia) ltac:(lia)) as (b & Et & Er). rewrite Et in H. cbn [sbind] in H. destruct (serial_result jobs m HJ Hz) as (ret & m' & Es & R). rewrite Es in H. cbn [sbind] in H. injection H as <-. rewrite Er. by apply serial_right.
Qed.

Lemma parallel_pool_ok e b n poolp jobs m total requested o : env_ok n e -> 0 <= n -> budget_ok b -> usable_opt n poolp -> jobs_ok jobs -> zlen jobs < 2 ^ 63 -> 0 <= requested ->
  decompress_jobs_parallel_pool lz4 e b poolp jobs m total requested = Some o -> call_right e b n jobs m o.
Proof.
  intros HE Hn HB HU HJ Hz Hr H. unfold decompress_jobs_parallel_pool in H. destruct (Z.eqb_spec (zlen jobs) 0) as [E0|E0].
  { injection H as <-. apply serial_right; [done|done|]. destruct jobs; [split; done|unfold zlen in E0; cbn in E0; lia]. }
  destruct (serial_result jobs m HJ Hz) as (ret & m' & Es & R). pose proof (eo_cpus _ _ HE) as Hc. pose proof (batch_threads_bounds (e_cpus e) (zlen jobs) total requested Hr ltac:(lia)) as Ht. set (useful := decompress_batch_threads _ _ _ _) in *. clearbody useful.
  destruct b as [avail|]; [|cbn [decompress_budget_acquire sbind Z.eqb] in H; rewrite Es in H; cbn [sbind] in H; injection H as <-; by apply serial_right].
  cbn [decompress_budget_acquire budget_ok] in *. unfold shared_budget_acquire in H. destruct (Z.eqb_spec avail 0); [done|]. cbn [sbind] in H. set (held := Z.min useful avail) in *. assert (Hh : 1 <= held <= avail) by lia. destruct (Z.eqb_spec held 0); [lia|].
  destruct (Z.eqb_spec held 1) as [E1|E1]; [rewrite Es in H; cbn [sbind] in H; injection H as <-; rewrite release_taken by lia; by apply serial_right|]. clearbody held.
  set (kept := match poolp with Some p => _ | None => _ end) in H. assert (Hk : forall o1, kept = Some o1 -> exists q, o1 = Ret q /\ usable_opt n q).
  { unfold kept. intros o1. destruct poolp as [p|]; [|intros [= <-]; by exists None]. destruct (too_small p held); [|intros [= <-]; by exists (Some p)]. destruct (pool_destroyed lz4 (e_join e) p) as [o2|] eqn:Ed; [|done].
    destruct (eo_join _ _ HE) as [J1 J2]. rewrite (destroyed_ok n (e_join e) p o2 HU J1 J2 Ed). cbn [sbind]. intros [= <-]. by exists None. }
  destruct kept as [o1|]; [|done]. destruct (Hk o1 eq_refl) as (q & -> & HQ). cbn [sbind] in H. clear Hk. destruct q as [p|]; [apply (with_pool_right e avail held n p jobs m o); try done; lia|].
  destruct (decompression_pool_create _ _ _ held) as [q failed] eqn:Ec. assert (HQ' : usable_opt 0 q) by (destruct q as [p|]; [|done]; apply (create_usable e held); [lia|by rewrite Ec]).
  assert (Hf : failed = true -> e_unmask e = false) by (unfold decompression_pool_create in Ec; destruct (held <=? 1); [congruence|]; destruct (negb (e_setup e)); [congruence|]; destruct (_ =? 0); injection Ec as _ <-; by destruct (e_unmask e)).
  destruct failed.
  - assert (Hd : forall o2, match q with Some p => pool_destroyed lz4 (e_drop e) p | None => Some (Ret tt) end = Some o2 -> o2 = Ret tt).
    { destruct (eo_drop _ _ HE) as [J1 J2]. destruct q as [p|]; [|by intros o2 [= <-]]. intros o2. apply (destroyed_ok 0); [done|done|lia]. }
    destruct (match q with Some p => _ | None => _ end) as [o2|]; [|done]. rewrite (Hd o2 eq_refl) in H. cbn [sbind] in H. injection H as <-. rewrite release_taken by lia. exists (-1), m, None. split; [done|]. split; [done|]. right. auto.
  - destruct q as [p|]; [|by apply (without_pool_right e avail held n jobs m o); try lia]. apply (with_pool_right e avail held n p jobs m o); try done; [lia|]. by apply (usable_mono 0).
Qed.

(** *** A call that can return *)
Lemma stop_kept l p p' : productive l = true -> pool_step lz4 l p = Some (Ret p') -> p_stop p' = p_stop p.
Proof.
  intros Hl H. destruct l as [| |stale|k stale| |]; try done; cbn [pool_step] in H.
  - unfold caller_step, decompression_pool_finish_batch in H. repeat (case_match; simplify_eq; try done).
  - unfold decompression_pool_worker, worker_report in H. repeat (case_match; simplify_eq; try done).
Qed.
Lemma stop_kept_run ls p p' : Forall (fun l => productive l = true) ls -> pool_run lz4 ls p = Some (Ret p') -> p_stop p' = p_stop p.
Proof.
  revert p. induction ls as [|l ls IH]; intros p Hl H; [cbn [pool_run] in H; by injection H as <-|]. apply Forall_cons_1 in Hl as [Hl Hls]. cbn [pool_run] in H. destruct (pool_step lz4 l p) as [[p1| |]|] eqn:E; try done. by rewrite (IH p1 Hls H), (stop_kept l p p1 Hl E).
Qed.
Lemma destroyed_returns n p : usable n p -> exists ls, pool_destroyed lz4 ls p = Some (Ret tt).
Proof.
  intros (starts & HP & Hc & _). destruct (destroy_step lz4 starts p HP Hc) as (p1 & E1 & HP1). destruct (pool_rests lz4 starts p1 HP1) as (ls & p2 & Hl & Hr & HP2 & He). exists ls. unfold pool_destroyed. rewrite E1. cbn [sbind]. rewrite Hr. cbn [sbind].
  assert (Hs : p_stop p2 = true). { rewrite (stop_kept_run ls p1 p2 Hl Hr). unfold decompression_pool_destroy in E1. destruct (_ || _); [done|]. by injection E1 as <-. }
  destruct He as [He|He]; [|by rewrite bool_decide_true]. pose proof (po_phase _ _ _ HP2) as P5. unfold phase_ok in P5. rewrite He in P5. destruct P5 as [_ X _ _ _ _]. congruence.
Qed.
Lemma batch_returns n jobs m held p : usable n p -> n + 1 < 2 ^ 64 -> jobs_ok jobs -> zlen jobs < 2 ^ 63 -> 2 <= held -> exists ls r, pool_batch lz4 ls jobs m (Z.min held (nr_workers p + 1)) p = Some (Ret r).
Proof.
  intros (starts & HP & Hc & Hn) Hn2 HJ Hz Hh. destruct (start_step lz4 starts p jobs m held HP ltac:(lia) (conj HJ Hz) Hc Hh) as (p1 & E1 & HP1). destruct (pool_rests lz4 _ p1 HP1) as (ls & p2 & Hl & Hr & HP2 & He). exists ls. unfold pool_batch. rewrite E1. cbn [sbind]. rewrite Hr. cbn [sbind].
  assert (Hs : p_stop p2 = p_stop p). { rewrite (stop_kept_run ls p1 p2 Hl Hr). unfold decompression_pool_start_batch in E1. destruct (_ || _); [done|]. by injection E1 as <-. }
  assert (Hs0 : p_stop p = false) by (pose proof (po_phase _ _ _ HP) as P5; unfold phase_ok in P5; rewrite Hc in P5; apply P5). pose proof (po_phase _ _ _ HP2) as P5. unfold phase_ok in P5. destruct He as [He|He]; rewrite He in *; [|destruct P5 as ([_ X _ _ _ _] & _); congruence].
  destruct P5 as [Ea _ _ _ _ _]. pose proof (po_starts _ _ _ HP2) as Hst. rewrite Ea, app_nil_r in Hst. destruct (last (p_batches p2)) as [b|] eqn:El; [by eexists|]. apply last_None in El. rewrite El in Hst. cbn in Hst. by destruct starts.
Qed.
Definition with_schedules (e : par_env) (join drop batch : list label) : par_env := ParEnv (e_cpus e) (e_setup e) (e_creates e) (e_unmask e) join drop batch.
Lemma parallel_pool_returns e b n poolp jobs m total requested : 1 <= e_cpus e < 2 ^ 32 -> 0 <= n -> n + 1 < 2 ^ 64 -> budget_ok b -> b <> Some 0 -> usable_opt n poolp -> jobs_ok jobs -> zlen jobs < 2 ^ 63 -> 0 <= requested ->
  exists join drop batch r, decompress_jobs_parallel_pool lz4 (with_schedules e join drop batch) b poolp jobs m total requested = Some (Ret r).
Proof.
  intros Hc Hn Hn2 HB Hb0 HU HJ Hz Hr. unfold decompress_jobs_parallel_pool, with_schedules. cbn [e_cpus e_setup e_creates e_unmask e_join e_drop e_batch]. destruct (Z.eqb_spec (zlen jobs) 0) as [E0|E0]; [exists [], [], []; by eexists|].
  destruct (serial_result jobs m HJ Hz) as (ret & m' & Es & _). pose proof (batch_threads_bounds (e_cpus e) (zlen jobs) total requested Hr ltac:(lia)) as Ht. set (useful := decompress_batch_threads _ _ _ _) in *. clearbody useful.
  destruct b as [avail|]; [|exists [], [], []; cbn [decompress_budget_acquire sbind Z.eqb]; rewrite Es; by eexists]. cbn [decompress_budget_acquire budget_ok] in *. unfold shared_budget_acquire. destruct (Z.eqb_spec avail 0) as [->|]; [done|]. cbn [sbind].
  set (held := Z.min useful avail) in *. assert (Hh : 1 <= held <= avail) by lia. destruct (Z.eqb_spec held 0); [lia|]. destruct (Z.eqb_spec held 1) as [E1|E1]; [exists [], [], []; rewrite Es; by eexists|]. clearbody held.
  assert (Hjoin : exists join q, match poolp with Some p => if too_small p held then let? _ := pool_destroyed lz4 join p in Some (Ret None) else Some (Ret (Some p)) | None => Some (Ret None) end = Some (Ret q) /\ usable_opt n q).
  { destruct poolp as [p|]; [|exists [], None; done]. destruct (too_small p held); [|exists [], (Some p); done]. destruct (destroyed_returns n p HU) as [ls El]. exists ls, None. by rewrite El. }
  destruct Hjoin as (join & q & Hj & HQ). exists join. rewrite Hj. cbn [sbind].
  assert (Hpool : forall p, usable n p -> exists batch r, sbind (Some (decompress_budget_trim_reservation (Some (avail - held)) held (Z.min held (nr_workers p + 1)))) (fun '(threads_held, b) =>
    sbind (pool_batch lz4 batch jobs m (Z.min held (nr_workers p + 1)) p) (fun '(failed, m, p) => Some (Ret (if failed : bool then -1 else 0, m, Some p, decompress_budget_release b threads_held)))) = Some (Ret r)).
  { intros p HUp. assert (Hnr : 1 <= nr_workers p) by (destruct HUp as (starts & HP & _); apply HP). destruct (trim_release avail held (Z.min held (nr_workers p + 1)) HB ltac:(lia) ltac:(lia)) as (b & Et & _). destruct (batch_returns n jobs m held p HUp Hn2 HJ Hz ltac:(lia)) as (ls & [[f m2] p2] & El). exists ls. rewrite Et. cbn [sbind]. rewrite El. by eexists. }
  destruct q as [p|]; [destruct (Hpool p HQ) as (batch & r & Hb); exists [], batch, r; exact Hb|]. destruct (decompression_pool_create _ _ _ held) as [q failed] eqn:Ec. assert (HQ' : usable_opt 0 q) by (destruct q as [p|]; [|done]; apply (create_usable e held); [lia|by rewrite Ec]).
  destruct failed.
  - destruct q as [p|]; [|exists [], []; by eexists]. destruct (destroyed_returns 0 p HQ') as [ls El]. exists ls, []. rewrite El. by eexists.
  - destruct q as [p|].
    + destruct (Hpool p) as (batch & r & Hb); [by apply (usable_mono 0)|]. exists [], batch, r. exact Hb.
    + exists [], []. destruct (trim_release avail held 1 HB ltac:(lia) ltac:(lia)) as (b & Et & _). rewrite Et. cbn [sbind]. rewrite Es. by eexists.
Qed.

(** C3. A reader that gives [decompress_jobs_parallel_pool] a batch gets the same answer
    whether the batch runs alone, on the pool it has or on a new one, and whatever the
    threads do meanwhile: 0 and the bytes the jobs come to one after the other when
    every job decompresses, and -1 otherwise, or if the signal mask of the caller is
    lost.  No BUG_ON is reached, every thread taken from the budget the processes of
    the restore share is given back, on failure too, and the pool that is left is idle
    and can take the next batch.  Unless the budget is used up there are steps of the
    threads with which the call returns. *)
Theorem decompress_jobs_parallel_correct e b n poolp jobs m total requested :
  0 <= n -> n + 1 < 2 ^ 64 -> 1 <= e_cpus e < 2 ^ 32 -> budget_ok b -> usable_opt n poolp -> jobs_ok jobs -> zlen jobs < 2 ^ 63 -> 0 <= requested ->
  (forall o, env_ok n e -> decompress_jobs_parallel_pool lz4 e b poolp jobs m total requested = Some o ->
     exists ret m' poolp', o = Ret (ret, m', poolp', b) /\ usable_opt (n + 1) poolp' /\ (result_right jobs m ret m' \/ (e_unmask e = false /\ ret = -1))) /\
  (b <> Some 0 -> exists join drop batch r, decompress_jobs_parallel_pool lz4 (with_schedules e join drop batch) b poolp jobs m total requested = Some (Ret r)).
Proof.
  intros Hn Hn2 Hc HB HU HJ Hz Hr. split.
  - intros o HE H. exact (parallel_pool_ok e b n poolp jobs m total requested o HE Hn HB HU HJ Hz Hr H).
  - intros Hb. by apply (parallel_pool_returns e b n).
Qed.
End JobsOk.

(** ** A sample: a batch on a new pool of two workers *)
Definition sample_threads : list label :=
  match (decompression_pool_create true [true; true] true 3).1 with
  | Some p => match decompression_pool_start_batch sample_jobs (fun _ => 3) 3 p with Ret p => (in_turn 60 0 p).1 | _ => [] end
  | None => []
  end.
Definition sample_par_env : par_env := ParEnv 4 true [true; true] true [] [] sample_threads.
Lemma in_turn_threads fuel turn p : Forall (fun l => of_threads l = true) (in_turn fuel turn p).1.
Proof.
  revert turn p. induction fuel as [|fuel IH]; intros turn p; cbn [in_turn]; [constructor|]. set (t := match turn with O => 1%nat | _ => _ end). destruct (pool_step _ _ p) as [[p'| |]|]; try apply IH. specialize (IH t p'). destruct (in_turn fuel t p') as [ls p2]. cbn [fst] in *. constructor; [by destruct turn|done].
Qed.
Lemma sample_par_env_ok : env_ok 0 sample_par_env.
Proof.
  split; cbn [sample_par_env e_cpus e_join e_drop e_batch]; [lia|split; [constructor|done]|split; [constructor|done]|]. split; [|vm_compute; reflexivity].
  unfold sample_threads. destruct (_.1); [|constructor]. destruct (decompression_pool_start_batch _ _ _ _); [apply in_turn_threads|constructor|constructor].
Qed.
Lemma decompress_jobs_parallel_correct_witness :
  exists m' p', decompress_jobs_parallel_pool sample_lz4 sample_par_env (Some 3) None sample_jobs (fun _ => 3) (2 ^ 21) 0 = Some (Ret (0, m', Some p', Some 3)) /\ usable sample_lz4 1 p' /\ forall x, m' x = jobs_stored sample_lz4 (fun _ => 3) sample_jobs x.
Proof.
  set (run := decompress_jobs_parallel_pool sample_lz4 sample_par_env (Some 3) None sample_jobs (fun _ => 3) (2 ^ 21) 0). assert (E : match run with Some (Ret (ret, _, Some _, _)) => ret | _ => 7 end = 0) by (vm_compute; reflexivity).
  destruct (decompress_jobs_parallel_correct sample_lz4 sample_par_env (Some 3) 0 None sample_jobs (fun _ => 3) (2 ^ 21) 0 ltac:(lia) ltac:(lia) ltac:(cbn; lia) ltac:(cbn; lia) I (proj1 sample_jobs_ok) ltac:(vm_compute; reflexivity) ltac:(lia)) as [H _].
  fold run in H. destruct run as [o|]; [|discriminate E]. destruct (H o sample_par_env_ok eq_refl) as (ret & m' & poolp' & -> & HU & HR). destruct poolp' as [p'|]; [|discriminate E]. cbn beta iota in E. subst ret. exists m', p'. split; [reflexivity|]. split; [exact HU|].
  destruct HR as [HR|[_ HR]]; [|discriminate HR]. unfold result_right in HR. assert (Ef : match first_failing sample_lz4 sample_jobs with None => true | Some _ => false end = true) by (vm_compute; reflexivity). destruct (first_failing sample_lz4 sample_jobs); [discriminate Ef|]. apply HR.
Defined.
