(* ===== verification/ParentWalk.v ===== *)
(** Walking a parent's pagemap along an address range: [check_pagehole_in_parent]
    of criu/page-xfer.c makes sure that a hole left in an image can be filled
    from its parent, and [dedup_one_iovec] of criu/pagemap.c (with its driver
    [cr_dedup_one_pagemap] of criu/cr-dedup.c) releases, all the way down a
    chain, the pages a newer snapshot supersedes. *)
From S2P Require Import Prelude PagemapImage PageRead Dedup ReadPages ChainRead.

(** ** Holes *)

(** Every turn reaches a later entry. *)
Fixpoint check_hole_loop (fuel : nat) (p : page_read) (off end_ : Z) : outcome (Z * page_read) :=
  match fuel with
  | O => NoFuel
  | S fuel =>
      let! (ret, p) := seek_pagemap p off in
      if ret <=? 0 then Ret (-1, p)
      else
        match pr_pe p with
        | None => Ret (-1, p)
        | Some pe =>
            let pend := u64 (pe_vaddr pe + pagemap_len pe) in
            if end_ <=? pend then Ret (0, p) else check_hole_loop fuel p pend end_
        end
  end.

Definition check_pagehole_in_parent (p : page_read) (iov : iovec) : outcome (Z * page_read) :=
  let off := iov_base iov in
  check_hole_loop (S (length (pmes p))) p off (u64 (off + iov_len iov)).

(** ** Deduplication *)

(** A reader of the chain and what has been punched out of its image. *)
Record dedup_reader := DedupReader { dr_pr : page_read; dr_punched : list iovec }.

Definition dr_state (fa : list bool) (r : dedup_reader) : dedup_state :=
  DedupState (bunch (dr_pr r)) fa (dr_punched r).
Definition dr_update (d : dedup_state) (pr : page_read) : dedup_reader :=
  DedupReader (set_bunch (ds_bunch d) pr) (ds_punched d).

Definition dedup_result := outcome (Z * list dedup_reader * list bool).

(** The while loop on the reader [r] with the parents behind it; [rec] is the
    recursive call on the parents.  [fa]: the fallocate() calls to come. *)
Fixpoint dedup_loop (rec : list dedup_reader -> list bool -> Z -> Z -> dedup_result) (fuel : nat)
    (r : dedup_reader) (parents : list dedup_reader) (fa : list bool) (off iov_end : Z) : dedup_result :=
  match fuel with
  | O => NoFuel
  | S fuel =>
      let! (ret, pr) := seek_pagemap (dr_pr r) off in
      let r := DedupReader pr (dr_punched r) in
      if (ret =? 0) && negb ((off <? cvaddr pr) && (cvaddr pr <? iov_end)) then Ret (0, r :: parents, fa)
      else
        let off := if ret =? 0 then cvaddr pr else off in
        match pr_pe pr with
        | None => Ret (-1, r :: parents, fa)
        | Some pe =>
            let piov_end := u64 (pe_vaddr pe + pagemap_len pe) in
            let len := u64 (Z.min piov_end iov_end - off) in
            let '(ret, d) :=
              if negb (pagemap_in_parent pe) && (match pe_blocks pe with None => true | Some _ => false end)
              then punch_hole (dr_state fa r) (u64 (pi_off pr)) len false else (0, dr_state fa r) in
            let r := dr_update d pr in
            let fa := ds_fallocs d in
            if ret =? -1 then Ret (-1, r :: parents, fa)
            else
              let! (ret, parents, fa) :=
                match parents with [] => Ret (0, [], fa) | _ => rec parents fa off len end in
              if negb (ret =? 0) then Ret (-1, r :: parents, fa)
              else if piov_end <? iov_end then dedup_loop rec fuel r parents fa piov_end iov_end
              else Ret (0, r :: parents, fa)
        end
  end.

(** [depth]: at least the length of the chain. *)
Fixpoint dedup_one_iovec (depth : nat) (chain : list dedup_reader) (fa : list bool) (off len : Z) : dedup_result :=
  match depth, chain with
  | S depth, r :: parents =>
      dedup_loop (dedup_one_iovec depth) (S (length (pmes (dr_pr r)))) r parents fa off (u64 (off + len))
  | _, _ => Bug
  end.

(** [cr_dedup_one_pagemap] after [open_page_read]: the loop over the entries of
    the youngest pagemap.  [advance] fails or runs out: both leave the loop
    with 0. *)
Fixpoint cr_dedup_loop (fuel : nat) (pr : page_read) (parents : list dedup_reader) (fa : list bool)
    : outcome (Z * page_read * list dedup_reader * list bool) :=
  match fuel with
  | O => NoFuel
  | S fuel =>
      let '(ret, pr) := advance pr in
      if ret <=? 0 then Ret (ret, pr, parents, fa)
      else
        match pr_pe pr with
        | None => Bug
        | Some pe =>
            if negb (pagemap_in_parent pe) then
              let! (ret, parents, fa) :=
                dedup_one_iovec (length parents) parents fa (pe_vaddr pe) (pagemap_len pe) in
              if negb (ret =? 0) then Ret (ret, pr, parents, fa) else cr_dedup_loop fuel pr parents fa
            else cr_dedup_loop fuel pr parents fa
        end
  end.

Definition cr_dedup_one_pagemap (pr : page_read) (parents : list dedup_reader) (fa : list bool)
    : outcome (Z * page_read * list dedup_reader * list bool) :=
  match parents with
  | [] => Ret (0, pr, [], fa)
  | _ => cr_dedup_loop (S (S (length (pmes pr)))) pr parents fa
  end.

(** ** Pages of a range *)
Definition pages_between (a b : Z) : list Z := page_addrs a ((b - a) / PAGE_SIZE).
Definition aligned (a : Z) : Prop := a mod PAGE_SIZE = 0.

Lemma pages_between_app a b c : aligned a -> aligned b -> aligned c -> a <= b -> b <= c ->
  pages_between a c = pages_between a b ++ pages_between b c.
Proof.
  unfold pages_between, aligned, PAGE_SIZE. intros Ha Hb Hc Hab Hbc.
  pose proof (Z.div_mod a 4096 ltac:(lia)). pose proof (Z.div_mod b 4096 ltac:(lia)). pose proof (Z.div_mod c 4096 ltac:(lia)).
  set (x := a / 4096) in *. set (y := b / 4096) in *. set (z := c / 4096) in *.
  replace (c - a) with ((z - x) * 4096) by lia. replace (b - a) with ((y - x) * 4096) by lia.
  replace (c - b) with ((z - y) * 4096) by lia. rewrite !Z.div_mul by lia.
  replace (z - x) with ((y - x) + (z - y)) by lia. rewrite page_addrs_app by lia. unfold PAGE_SIZE. do 2 f_equal. lia.
Qed.

Lemma elem_pages_between v a b : aligned a -> aligned b -> v ∈ pages_between a b -> a <= v < b /\ aligned v.
Proof.
  unfold pages_between, page_addrs, aligned, PAGE_SIZE. intros Ha Hb Hv.
  apply list_elem_of_fmap_1 in Hv as (j & -> & Hj%elem_of_seqZ).
  pose proof (Z.div_mod (b - a) 4096 ltac:(lia)) as E. rewrite Zminus_mod, Ha, Hb in E. simpl in E. rewrite Z.mod_0_l in E by lia.
  rewrite Z.mod_add by lia. split; [lia|done].
Qed.

Lemma in_pages_between v a b : aligned a -> aligned b -> aligned v -> a <= v < b -> v ∈ pages_between a b.
Proof.
  unfold pages_between, page_addrs, aligned, PAGE_SIZE. intros Ha Hb Hv Hr.
  pose proof (Z.div_mod (b - a) 4096 ltac:(lia)) as E. rewrite Zminus_mod, Ha, Hb in E. simpl in E. rewrite Z.mod_0_l in E by lia.
  pose proof (Z.div_mod (v - a) 4096 ltac:(lia)) as F. rewrite Zminus_mod, Ha, Hv in F. simpl in F. rewrite Z.mod_0_l in F by lia.
  apply list_elem_of_fmap_2' with ((v - a) / 4096); [apply elem_of_seqZ; lia|lia].
Qed.

Lemma entry_aligned pe : entry_ok pe -> aligned (pe_vaddr pe) /\ aligned (entry_end pe).
Proof.
  intros (_ & _ & Hv & _). split; [done|]. unfold aligned, entry_end in *. by rewrite Z.mod_add by done.
Qed.

(** ** Progress along a pagemap *)

(** The entries that reach beyond an address. *)
Definition entries_beyond (l : list pagemap_entry) (off : Z) : nat :=
  length (List.filter (fun q => off <? entry_end q) l).

Lemma entries_beyond_le l off : (entries_beyond l off <= length l)%nat.
Proof. unfold entries_beyond. apply List.filter_length_le. Qed.

Lemma entries_beyond_lt l pe off off' : pe ∈ l -> off < entry_end pe -> entry_end pe <= off' ->
  (entries_beyond l off' < entries_beyond l off)%nat.
Proof.
  unfold entries_beyond. intros Hin Hlt Hle.
  assert (Hmono : forall m, ((length (List.filter (fun q => (off' <? entry_end q)%Z) m) <=
    length (List.filter (fun q => (off <? entry_end q)%Z) m))%nat)).
  { intros m. induction m as [|q m IH]; simpl; [done|].
    destruct (Z.ltb_spec off' (entry_end q)), (Z.ltb_spec off (entry_end q)); simpl; lia. }
  induction l as [|q l IH]; [by apply elem_of_nil in Hin|]. apply elem_of_cons in Hin as [<-|Hin]; simpl.
  - pose proof (Hmono l). destruct (Z.ltb_spec off' (entry_end pe)); [lia|].
    destruct (Z.ltb_spec off (entry_end pe)); [|lia]. simpl. lia.
  - specialize (IH Hin). destruct (Z.ltb_spec off' (entry_end q)), (Z.ltb_spec off (entry_end q)); simpl; lia.
Qed.

(** The cursor is at or before the address, or at the next entry behind it. *)
Definition ready (off : Z) (pr : page_read) : Prop := cvaddr pr <= off \/ at_gap off pr.

Lemma ready_mono off off' pr : off <= off' -> ready off pr -> ready off' pr.
Proof.
  intros Hle [H|(i & pe & H1 & H2 & H3)]; [left; lia|]. right. exists i, pe. split; [done|]. split; [done|].
  eapply Forall_impl; [exact H3|]. intros q Hq. simpl in Hq. lia.
Qed.

Lemma ready_bunch off bn pr : ready off pr -> ready off (set_bunch bn pr).
Proof. intros [H|(i & pe & H1 & H2)]; [by left|]. right. exists i, pe. split; [by apply at_entry_bunch|done]. Qed.

Definition no_page (l : list pagemap_entry) (a b : Z) : Prop := forall q v, q ∈ l -> a <= v < b -> ~ in_entry q v.

Lemma gap_no_page pr off : pagemaps_ok (pmes pr) -> at_gap off pr -> no_page (pmes pr) off (cvaddr pr).
Proof.
  intros Hok (i & pe & [L _ _ Hc _] & _ & Hf) q v Hq Hv. apply list_elem_of_lookup_1 in Hq as [j Hj].
  rewrite Hc, Z.mul_0_l, Z.add_0_r in Hv. unfold in_entry. destruct (Nat.lt_trichotomy j i) as [Hlt|[->|Hlt]].
  - assert (Hjl : take i (pmes pr) !! j = Some q) by (by rewrite lookup_take_lt).
    pose proof (Forall_lookup_1 _ _ j q Hf Hjl) as Hx. cbv beta in Hx. lia.
  - assert (q = pe) as -> by congruence. lia.
  - pose proof (ok_from_order _ 0 0 i j pe q ltac:(lia) Hok L Hj Hlt).
    destruct (pagemaps_ok_lookup _ i pe Hok L) as ((_ & _ & _ & _ & Hn & _) & _). unfold entry_end, PAGE_SIZE in *. lia.
Qed.

(** ** The hole check *)
Lemma check_hole_loop_ok end_ : aligned end_ -> end_ < 2 ^ 64 -> forall fuel p off,
  pagemaps_ok (pmes p) -> cursor_ok p -> aligned off -> 0 <= off < end_ -> ready off p ->
  (entries_beyond (pmes p) off < fuel)%nat ->
  exists r p', check_hole_loop fuel p off end_ = Ret (r, p') /\ cursor_ok p' /\ same_store p p' /\
    (r = 0 /\ cvaddr p' < end_ /\ (forall v, v ∈ pages_between off end_ -> has_page (pmes p) v) \/
     r = -1 /\ exists v, v ∈ pages_between off end_ /\ ~ has_page (pmes p) v).
Proof.
  intros Hea He. induction fuel as [|fuel IH]; intros p off Hpm Hcur Ha Ho Hcv Hf; [lia|]. cbn [check_hole_loop].
  destruct (seek_pagemap_spec p off Hpm Hcur Ha ltac:(lia)) as (r & p1 & -> & [S1 S2 S3 S4 S5 S6 S7]). simpl.
  pose proof S2 as (E & _). destruct S3 as [->| ->].
  { simpl. eexists _, _. split; [done|]. split; [done|]. split; [done|]. right. split; [done|]. exists off.
    split; [apply in_pages_between; done || lia|]. intros Hp.
    destruct Hcv as [Hcv|Hg]; [assert (0 = 1) by (apply S4; by split); lia|].
    destruct (Z.le_gt_cases (cvaddr p) off) as [Hc|Hc]; [assert (0 = 1) by (apply S4; by split); lia|].
    destruct Hp as (q & Hq & Hin). by apply (gap_no_page p off Hpm Hg q off Hq); [lia|]. }
  simpl. destruct (S5 eq_refl) as (i & pe & Hat & Hc & Hin & Hv). pose proof Hat as [L -> _ _ _]. rewrite E in L.
  destruct (pagemaps_ok_lookup _ i pe Hpm L) as (Hok & _). rewrite entry_end_u64 by done.
  destruct (entry_aligned pe Hok) as [_ Hae]. pose proof (list_elem_of_lookup_2 _ _ _ L) as Hel.
  destruct (Z.leb_spec end_ (entry_end pe)) as [Hle|Hgt].
  - eexists _, _. split; [done|]. split; [done|]. split; [done|]. left. split; [done|]. split; [lia|].
    intros v [Hvr _]%elem_pages_between; [|done|done]. exists pe. split; [done|]. unfold in_entry in *. lia.
  - unfold in_entry in Hin. destruct Hok as (_ & _ & _ & Hv0 & _).
    destruct (IH p1 (entry_end pe)) as (r & p' & -> & A & B & C); [by rewrite E|done|done|lia|left; lia| |].
    { rewrite E. pose proof (entries_beyond_lt _ pe off (entry_end pe) Hel ltac:(lia) ltac:(lia)). lia. }
    exists r, p'. split; [done|]. split; [done|]. split; [by eapply same_store_trans|]. rewrite E in C.
    rewrite (pages_between_app off (entry_end pe) end_) by (done || lia).
    destruct C as [(-> & C1 & C2)|(-> & v & C1 & C2)].
    + left. split; [done|]. split; [done|]. intros v [Hv1|Hv1]%elem_of_app; [|by apply C2].
      apply elem_pages_between in Hv1 as [Hv1 _]; [|done|done]. exists pe. split; [done|]. unfold in_entry. lia.
    + right. split; [done|]. exists v. split; [apply elem_of_app; by right|done].
Qed.

Lemma check_pagehole_spec (p : page_read) (iov : iovec) :
  pagemaps_ok (pmes p) -> cursor_ok p -> aligned (iov_base iov) -> aligned (iov_base iov + iov_len iov) ->
  0 <= iov_base iov -> 0 < iov_len iov -> iov_base iov + iov_len iov < 2 ^ 64 -> ready (iov_base iov) p ->
  exists r p', check_pagehole_in_parent p iov = Ret (r, p') /\ cursor_ok p' /\ same_store p p' /\ (r = 0 \/ r = -1) /\
    (r = 0 -> cvaddr p' < iov_base iov + iov_len iov) /\
    (r = 0 <-> forall v, v ∈ pages_between (iov_base iov) (iov_base iov + iov_len iov) -> has_page (pmes p) v).
Proof.
  intros Hpm Hcur Ha Hb H0 Hl Hm Hcv. unfold check_pagehole_in_parent. rewrite u64_small by lia.
  destruct (check_hole_loop_ok (iov_base iov + iov_len iov) Hb Hm (S (length (pmes p))) p (iov_base iov))
    as (r & p' & -> & A & B & C); try done; [lia|pose proof (entries_beyond_le (pmes p) (iov_base iov)); lia|].
  exists r, p'. split; [done|]. split; [done|]. split; [done|].
  destruct C as [(-> & C1 & C2)|(-> & v & C1 & C2)]; split_and!; try done; [by left|by right|].
  split; [done|]. intros Hall. by destruct (C2 (Hall v C1)).
Qed.

(** ** What deduplication releases *)
#[global] Instance in_entry_dec pe v : Decision (in_entry pe v).
Proof. unfold in_entry. apply _. Defined.

Definition find_entry (l : list pagemap_entry) (v : Z) : option (nat * pagemap_entry) :=
  list_find (fun pe => in_entry pe v) l.

(** Where the image keeps the bytes of a page that can be punched out: pages
    of uncompressed entries. *)
Definition raw_pos (l : list pagemap_entry) (v : Z) : list Z :=
  match find_entry l v with
  | Some (i, pe) =>
      if negb (pagemap_in_parent pe) && (match pe_blocks pe with None => true | Some _ => false end)
      then seqZ (payload_start l i + (v - pe_vaddr pe)) PAGE_SIZE else []
  | None => []
  end.

Definition has_pageb (l : list pagemap_entry) (v : Z) : bool :=
  match find_entry l v with Some _ => true | None => false end.

(** The bytes released in each image of the chain for the given pages: a parent
    is only asked for the pages its child knows about. *)
Fixpoint dedup_spec (ls : list (list pagemap_entry)) (addrs : list Z) : list (list Z) :=
  match ls with
  | [] => []
  | l :: ls => concat (raw_pos l <$> addrs) :: dedup_spec ls (List.filter (has_pageb l) addrs)
  end.

Lemma find_entry_at l i pe v : pagemaps_ok l -> l !! i = Some pe -> in_entry pe v -> find_entry l v = Some (i, pe).
Proof.
  intros Hok Hi Hin. apply list_find_Some. split; [done|]. split; [done|]. intros j q Hj Hlt Hq.
  assert (j = i) as -> by (apply (same_page l j i q pe v); done). lia.
Qed.

Lemma find_entry_none l v : (forall q, q ∈ l -> ~ in_entry q v) -> find_entry l v = None.
Proof. intros H. apply list_find_None. apply Forall_forall. exact H. Qed.

Lemma dedup_spec_app ls : forall a b, dedup_spec ls (a ++ b) = zip_with app (dedup_spec ls a) (dedup_spec ls b).
Proof.
  induction ls as [|l ls IH]; intros a b; [done|]. cbn [dedup_spec zip_with].
  by rewrite fmap_app, concat_app, List.filter_app, IH.
Qed.

Lemma dedup_spec_nil ls : forall rs : list (list Z), length rs = length ls -> zip_with app rs (dedup_spec ls []) = rs.
Proof.
  induction ls as [|l ls IH]; intros [|r rs] H; try done. cbn. rewrite app_nil_r, IH; [done|]. by injection H.
Qed.

Lemma length_dedup_spec ls : forall a, length (dedup_spec ls a) = length ls.
Proof. induction ls as [|l ls IH]; intros a; [done|]. cbn. by rewrite IH. Qed.

Lemma zip_app_assoc (a b c : list (list Z)) : zip_with app (zip_with app a b) c = zip_with app a (zip_with app b c).
Proof. revert b c. induction a as [|x a IH]; intros [|y b] [|z c]; try done. cbn. by rewrite IH, app_assoc. Qed.

(** Pages of one entry. *)
Lemma raw_pos_entry l i pe a b : pagemaps_ok l -> l !! i = Some pe -> aligned a -> aligned b ->
  pe_vaddr pe <= a -> a <= b -> b <= entry_end pe ->
  concat (raw_pos l <$> pages_between a b) =
    (if negb (pagemap_in_parent pe) && (match pe_blocks pe with None => true | Some _ => false end)
     then seqZ (payload_start l i + (a - pe_vaddr pe)) (b - a) else []) /\
  List.filter (has_pageb l) (pages_between a b) = pages_between a b.
Proof.
  intros Hok Hi Ha Hb H1 H2 H3.
  assert (Hf : forall v, v ∈ pages_between a b -> find_entry l v = Some (i, pe)).
  { intros v [Hv _]%elem_pages_between; [|done|done]. apply find_entry_at; [done|done|]. unfold in_entry. lia. }
  split.
  - destruct (negb (pagemap_in_parent pe) && _) eqn:Er.
    + assert (Hm : raw_pos l <$> pages_between a b =
        (fun v => seqZ (payload_start l i + (v - pe_vaddr pe)) PAGE_SIZE) <$> pages_between a b).
      { apply list_fmap_ext. intros j v Hv. unfold raw_pos. rewrite (Hf v) by (by eapply list_elem_of_lookup_2). by rewrite Er. }
      rewrite Hm. clear Hm Hf. unfold pages_between, page_addrs.
      replace (b - a) with ((b - a) / PAGE_SIZE * PAGE_SIZE) at 2.
      2:{ unfold aligned, PAGE_SIZE in *. pose proof (Z.div_mod (b - a) 4096 ltac:(lia)) as E.
          rewrite Zminus_mod, Ha, Hb in E. simpl in E. rewrite Z.mod_0_l in E by lia. lia. }
      assert (Hn : 0 <= (b - a) / PAGE_SIZE) by (apply Z.div_pos; unfold PAGE_SIZE; lia).
      generalize dependent ((b - a) / PAGE_SIZE). intros n Hn. rewrite <- (Z2Nat.id n) by done.
      induction (Z.to_nat n) as [|m IH]; [done|]. replace (Z.of_nat (S m)) with (Z.of_nat m + 1) by lia.
      rewrite seqZ_app, !fmap_app, concat_app, IH by lia. rewrite (seqZ_cons (0 + Z.of_nat m)) by lia. rewrite !fmap_cons.
      cbn [concat]. change (seqZ _ (Z.pred 1)) with (@nil Z). cbn [fmap list_fmap concat]. rewrite app_nil_r.
      replace ((Z.of_nat m + 1) * PAGE_SIZE) with (Z.of_nat m * PAGE_SIZE + PAGE_SIZE) by lia.
      rewrite seqZ_app by (unfold PAGE_SIZE; lia). f_equal. f_equal. lia.
    + assert (Hm : forall m, (forall v, v ∈ m -> raw_pos l v = []) -> concat (raw_pos l <$> m) = []).
      { intros m. induction m as [|v m IH]; intros Hv; [done|]. rewrite fmap_cons. cbn [concat].
        rewrite Hv by apply list_elem_of_here. apply IH. intros w Hw. apply Hv. by apply list_elem_of_further. }
      apply Hm. intros v Hv. unfold raw_pos. rewrite (Hf v Hv). by rewrite Er.
  - apply List.forallb_filter_id, forallb_forall. intros v Hv. unfold has_pageb. rewrite (Hf v); [done|].
    by apply list_elem_of_In.
Qed.

(** Pages of a gap. *)
Lemma raw_pos_gap l addrs : (forall v q, v ∈ addrs -> q ∈ l -> ~ in_entry q v) ->
  concat (raw_pos l <$> addrs) = [] /\ List.filter (has_pageb l) addrs = [].
Proof.
  induction addrs as [|v addrs IH]; intros H; [done|]. rewrite fmap_cons. cbn [concat List.filter].
  destruct IH as [E1 E2]; [intros w q Hw; apply H; by apply list_elem_of_further|].
  unfold has_pageb at 1, raw_pos at 1. rewrite find_entry_none by (intros q; apply H, list_elem_of_here). by rewrite E1, E2.
Qed.

(** ** The walk *)

Lemma no_page_in l a b v : aligned a -> aligned b -> no_page l a b -> v ∈ pages_between a b ->
  forall q, q ∈ l -> ~ in_entry q v.
Proof.
  intros Ha Hb Hn Hv q Hq. apply elem_pages_between in Hv as [Hv _]; [|done|done]. by apply Hn.
Qed.

(** Where the seek of one turn leaves the walk: [stop] when the pagemap has
    nothing more in the range, or at an entry behind a gap. *)
Lemma seek_step pr off iov_end : pagemaps_ok (pmes pr) -> cursor_ok pr -> ready off pr ->
  aligned off -> 0 <= off < iov_end -> iov_end < 2 ^ 64 ->
  exists ret pr1, seek_pagemap pr off = Ret (ret, pr1) /\ same_store pr pr1 /\ cursor_ok pr1 /\
    let stop := (ret =? 0) && negb ((off <? cvaddr pr1) && (cvaddr pr1 <? iov_end)) in
    let off1 := if ret =? 0 then cvaddr pr1 else off in
    (stop = true /\ no_page (pmes pr) off iov_end /\ ready iov_end pr1 \/
     stop = false /\ exists i pe k, at_entry pr1 i pe k /\ cvaddr pr1 = off1 /\ off1 = pe_vaddr pe + k * PAGE_SIZE /\
       k < pe_nr_pages pe /\ off <= off1 < iov_end /\ no_page (pmes pr) off off1).
Proof.
  intros Hok Hcur Hrd Ha Ho He.
  destruct (seek_pagemap_spec pr off Hok Hcur Ha ltac:(lia)) as (ret & pr1 & Hs & [S1 S2 S3 S4 S5 S6 S7]).
  pose proof S2 as (E & _). exists ret, pr1. split; [done|]. split; [done|]. split; [done|]. cbv zeta. destruct S3 as [->| ->].
  - simpl. destruct (Z.ltb_spec off (cvaddr pr1)) as [Hlt|Hge].
    + pose proof (S7 eq_refl Hrd Hlt) as Hg. assert (Hnp := gap_no_page pr1 off ltac:(by rewrite E) Hg). rewrite E in Hnp.
      destruct (Z.ltb_spec (cvaddr pr1) iov_end) as [Hin|Hout]; simpl.
      * right. split; [done|]. destruct Hg as (i & pe & Hat & _ & _). exists i, pe, 0. pose proof Hat as [L _ _ Hc _].
        rewrite E in L. destruct (pagemaps_ok_lookup _ i pe Hok L) as ((_ & _ & _ & _ & Hn & _) & _).
        split_and!; try done; lia.
      * left. split; [done|]. split; [|by apply (ready_mono off); [lia|right]].
        intros q v Hq Hv. apply Hnp; [done|lia].
    + left. split; [done|]. destruct (S6 eq_refl) as [?|Hall]; [lia|]. split; [|left; lia].
      intros q v Hq Hv. pose proof (proj1 (Forall_forall _ _) Hall q Hq) as Hx. cbv beta in Hx. unfold in_entry. lia.
  - right. split; [done|]. destruct (S5 eq_refl) as (i & pe & Hat & _ & Hin & Hv).
    pose proof Hat as [L _ _ _ _]. rewrite E in L. destruct (pagemaps_ok_lookup _ i pe Hok L) as (Hpe & _).
    destruct (aligned_index pe off Hpe Hin Ha) as (k & Hk & Hkr & Ek). rewrite Ek in Hat.
    exists i, pe, k. simpl. split_and!; try done; try lia.
    intros q v _ Hq. lia.
Qed.

Definition dr_released (r : dedup_reader) : list Z := released (dr_state [] r).

(** A reader the walk can use from [off] on. *)
Record dedup_ok (off : Z) (l : list pagemap_entry) (r : dedup_reader) : Prop := DedupOk {
  do_pmes : pmes (dr_pr r) = l;
  do_ok : pagemaps_ok l;
  do_cursor : cursor_ok (dr_pr r);
  do_ready : ready off (dr_pr r);
  do_bunch : range_ok (bunch (dr_pr r));
  do_stored : Forall (fun pe => pagemap_in_parent pe = true \/ pagemap_present pe = true) l
}.

Lemma dedup_ok_mono off off' l r : off <= off' -> dedup_ok off l r -> dedup_ok off' l r.
Proof. intros Hle []. split; try done. by apply (ready_mono off). Qed.

Lemma chain_mono off off' ls chain : off <= off' -> Forall2 (dedup_ok off) ls chain -> Forall2 (dedup_ok off') ls chain.
Proof. intros Hle H. eapply Forall2_impl; [exact H|]. intros l r. by apply dedup_ok_mono. Qed.

(** The reader after a seek and a punch. *)
Lemma dedup_ok_update off l r pr d : dedup_ok off l r -> same_store (dr_pr r) pr -> cursor_ok pr ->
  range_ok (ds_bunch d) -> forall off', ready off' pr -> dedup_ok off' l (dr_update d pr).
Proof.
  intros [D1 D2 D3 D4 D5 D6] (E & _) Hc Hb off' Hr. split; simpl; try done; [by rewrite E| |by apply ready_bunch].
  destruct Hc as [A B C D|i pe k Hat Hcu|i pe Hat Hl Hcu]; [by apply cursor_reset| |].
  - by apply (cursor_at _ i pe k); [apply at_entry_bunch|].
  - by apply (cursor_done _ i pe); [apply at_entry_bunch|..].
Qed.

(** The punch of one turn releases the pages [a, b) of the entry. *)
Lemma punch_entry l r pr fa i pe k a b ret d : dedup_ok a l r -> same_store (dr_pr r) pr -> at_entry pr i pe k ->
  a = pe_vaddr pe + k * PAGE_SIZE -> aligned a -> aligned b -> a < b -> b <= entry_end pe ->
  (if negb (pagemap_in_parent pe) && (match pe_blocks pe with None => true | Some _ => false end)
   then punch_hole (dr_state fa (DedupReader pr (dr_punched r))) (u64 (pi_off pr)) (u64 (b - a)) false
   else (0, dr_state fa (DedupReader pr (dr_punched r)))) = (ret, d) ->
  range_ok (ds_bunch d) /\
  (ret = 0 /\ released d = dr_released r ++ concat (raw_pos l <$> pages_between a b) /\ (fa = [] -> ds_fallocs d = []) \/
   ret = -1 /\ fa <> []).
Proof.
  intros [D1 D2 D3 D4 D5 D6] (E & Eb & _) [L Hp Hk Hcv Hpos] Hak Ha Hb Hab Hbe Hd. rewrite E, D1 in L, Hpos.
  destruct (raw_pos_entry l i pe a b D2 L Ha Hb) as [-> _]; [unfold PAGE_SIZE in *; lia|lia|done|].
  destruct (pagemaps_ok_lookup _ i pe D2 L) as ((_ & _ & _ & Hv0 & _ & Hend & _) & _ & Hst & Hmax & _).
  assert (Hrel : released (dr_state fa (DedupReader pr (dr_punched r))) = dr_released r).
  { unfold dr_released, released, dr_state. simpl. by rewrite Eb. }
  destruct (negb (pagemap_in_parent pe) && _) eqn:Er.
  - apply andb_prop in Er as [Enp Enb]. apply negb_true_iff in Enp.
    destruct (pe_blocks pe) eqn:Ebk; [done|].
    assert (Hpr : pagemap_present pe = true).
    { destruct (Forall_lookup_1 _ _ i pe D6 L) as [H|H]; [congruence|done]. }
    unfold entry_payload in Hmax. rewrite Hpr, Ebk in Hmax. unfold OFF_MAX in Hmax.
    rewrite (entry_pos_raw pe _ k Hpr Ebk) in Hpos. unfold pos_of in Hpos. injection Hpos as Hpi _ _.
    unfold entry_end, PAGE_SIZE in *. rewrite Hpi, (u64_small (_ + _)), (u64_small (b - a)) in Hd by lia.
    destruct (punch_hole_ok (dr_state fa (DedupReader pr (dr_punched r))) (payload_start l i + k * 4096) (b - a) ret d)
      as (R1 & R2); [simpl; by rewrite Eb|unfold range_ok; simpl; lia|done|].
    split; [done|]. rewrite Hrel in R2. destruct R2 as [(-> & R2 & R3)|(-> & _ & R3)]; [|by right].
    left. split; [done|]. split; [|done]. rewrite R2. do 2 f_equal. lia.
  - injection Hd as <- <-. rewrite Hrel, app_nil_r. split; [simpl; by rewrite Eb|]. left. done.
Qed.

(** The contract of a walk over the pages [addrs] that ends at [off']. *)
Definition dedup_post (ls : list (list pagemap_entry)) (chain : list dedup_reader) (fa : list bool) (addrs : list Z) (off' : Z)
    (res : Z * list dedup_reader * list bool) : Prop :=
  let '(ret, chain', fa') := res in
  (ret = 0 /\ Forall2 (dedup_ok off') ls chain' /\
     dr_released <$> chain' = zip_with app (dr_released <$> chain) (dedup_spec ls addrs) \/
   ret = -1 /\ fa <> []) /\ (fa = [] -> fa' = []).

Definition dedups (ls : list (list pagemap_entry)) (rec : list dedup_reader -> list bool -> Z -> Z -> dedup_result) : Prop :=
  forall chain fa off len, Forall2 (dedup_ok off) ls chain -> aligned off -> aligned (off + len) ->
    0 <= off -> 0 < len -> off + len < 2 ^ 64 ->
    exists res, rec chain fa off len = Ret res /\ dedup_post ls chain fa (pages_between off (off + len)) (off + len) res.

Lemma dedup_post_app ls chain fa a b m off' chain1 fa1 res :
  dedup_post ls chain fa a m (0, chain1, fa1) -> dedup_post ls chain1 fa1 b off' res -> dedup_post ls chain fa (a ++ b) off' res.
Proof.
  destruct res as [[ret chain'] fa']. intros [[(_ & H1 & H2)|[? _]] H3] [[(-> & H4 & H5)|(-> & H5)] H6]; try done.
  - split; [|auto]. left. split; [done|]. split; [done|]. by rewrite H5, H2, dedup_spec_app, zip_app_assoc.
  - split; [|auto]. right. split; [done|]. intros E. by apply H5, H3.
Qed.

(** Gaps contribute nothing. *)
Lemma dedup_spec_gap l ls a b c : no_page l a b -> aligned a -> aligned b -> aligned c -> a <= b -> b <= c ->
  dedup_spec (l :: ls) (pages_between a c) = dedup_spec (l :: ls) (pages_between b c).
Proof.
  intros Hn Ha Hb Hc H1 H2. rewrite (pages_between_app a b c) by done. cbn [dedup_spec].
  destruct (raw_pos_gap l (pages_between a b)) as [E1 E2].
  { intros v q Hv. by apply (no_page_in l a b v). }
  by rewrite fmap_app, concat_app, List.filter_app, E1, E2.
Qed.

Section DedupLoop.
Context (l : list pagemap_entry) (ls : list (list pagemap_entry)).
Context (rec : list dedup_reader -> list bool -> Z -> Z -> dedup_result) (Hrec : ls <> [] -> dedups ls rec).

Lemma rec_or_none parents fa off len : Forall2 (dedup_ok off) ls parents -> aligned off -> aligned (off + len) ->
  0 <= off -> 0 < len -> off + len < 2 ^ 64 ->
  exists res, (match parents with [] => Ret (0, [], fa) | _ => rec parents fa off len end) = Ret res /\
    dedup_post ls parents fa (pages_between off (off + len)) (off + len) res.
Proof.
  intros Hch. destruct parents as [|p parents]; [|apply Hrec; [by inversion Hch|done]].
  inversion Hch; subst. intros. eexists. split; [done|]. split; [|done]. left. split; [done|]. split; [constructor|done].
Qed.

Lemma dedup_loop_ok iov_end : aligned iov_end -> iov_end < 2 ^ 64 -> forall fuel r parents fa off,
  dedup_ok off l r -> Forall2 (dedup_ok off) ls parents -> aligned off -> 0 <= off < iov_end ->
  (entries_beyond l off < fuel)%nat ->
  exists res, dedup_loop rec fuel r parents fa off iov_end = Ret res /\
    dedup_post (l :: ls) (r :: parents) fa (pages_between off iov_end) iov_end res.
Proof.
  intros Hae He. induction fuel as [|fuel IH]; intros r parents fa off Hr Hps Ha Ho Hf; [lia|]. cbn [dedup_loop].
  pose proof Hr as [D1 D2 D3 D4 D5 D6].
  destruct (seek_step (dr_pr r) off iov_end) as (ret & pr & -> & Hst & Hcur & Hcase);
    [by rewrite D1|done|done|done|lia|done|]. cbv zeta in Hcase. cbn [obind].
  rewrite D1 in Hcase. destruct Hcase as [(-> & Hnp & Hrd)|(-> & i & pe & k & Hat & Hcv & Hoff & Hk & Ho1 & Hnp)].
  { eexists. split; [done|]. split; [|done]. left. split; [done|]. split.
    - constructor; [|by eapply chain_mono; [|exact Hps]; lia].
      pose proof (dedup_ok_update off l r pr (dr_state fa r) Hr Hst Hcur D5 iov_end Hrd) as [U1 U2 U3 U4 U5 U6].
      destruct Hst as (S1 & S2 & _). split; simpl; try done. by rewrite S2.
    - replace (pages_between off iov_end) with (pages_between off iov_end ++ []) by apply app_nil_r.
      rewrite dedup_spec_app. cbn [dedup_spec zip_with]. destruct (raw_pos_gap l (pages_between off iov_end)) as [E1 E2].
      { intros v q Hv. by apply (no_page_in l off iov_end v). }
      rewrite E1, E2, !fmap_cons. cbn [zip_with]. rewrite app_nil_r, <- dedup_spec_app, dedup_spec_nil.
      + f_equal. unfold dr_released, released, dr_state. simpl. destruct Hst as (_ & -> & _). done.
      + rewrite length_fmap. symmetry. by apply Forall2_length in Hps. }
  set (off1 := if ret =? 0 then cvaddr pr else off) in *. clearbody off1.
  pose proof Hat as [L Hp Hk0 _ _]. pose proof Hst as (Est & _). rewrite Est, D1 in L. rewrite Hp.
  destruct (pagemaps_ok_lookup _ i pe D2 L) as (Hpe & _). destruct (entry_aligned pe Hpe) as [Hav Hap].
  assert (Ha1 : aligned off1) by (rewrite Hoff; unfold aligned in *; by rewrite Z.mod_add by done).
  rewrite entry_end_u64 by done. destruct Hpe as (_ & _ & _ & Hv0 & _ & Hend & _).
  set (m := Z.min (entry_end pe) iov_end).
  assert (Hm : off1 < m /\ m <= entry_end pe /\ m <= iov_end /\ aligned m /\ (m = entry_end pe \/ m = iov_end)).
  { unfold m. destruct (Z.min_spec (entry_end pe) iov_end) as [[? ->]|[? ->]];
      unfold entry_end, PAGE_SIZE in *; split_and!; (done || lia || auto). }
  destruct Hm as (Hm1 & Hm2 & Hm3 & Ham & Hmc).
  assert (Hr1 : dedup_ok off1 l r) by (eapply dedup_ok_mono; [|exact Hr]; lia).
  destruct (if negb (pagemap_in_parent pe) && _ then _ else _) as [ret1 d] eqn:Ed.
  destruct (punch_entry l r pr fa i pe k off1 m ret1 d) as [Hb Hd]; try done.
  destruct Hd as [(-> & Hd & Hfa)|(-> & Hfa)]; [|eexists; split; [done|]; split; [by right|done]]. simpl.
  rewrite (u64_small (m - off1)) by lia.
  destruct (rec_or_none parents (ds_fallocs d) off1 (m - off1)) as ([[ret2 parents1] fa1] & -> & Hpost);
    [by eapply chain_mono; [|exact Hps]; lia|done|by replace (off1 + (m - off1)) with m by lia|lia|lia|lia|].
  replace (off1 + (m - off1)) with m in Hpost by lia. simpl.
  assert (Hturn : ret2 = 0 -> dedup_post (l :: ls) (r :: parents) fa (pages_between off m) m (0, dr_update d pr :: parents1, fa1)).
  { intros ->. destruct Hpost as [[(_ & P1 & P2)|[? _]] P3]; [|done]. split; [|by intros E; apply P3, Hfa].
    left. split; [done|]. split.
    - constructor; [|done]. eapply dedup_ok_update; try done. left. lia.
    - rewrite (dedup_spec_gap l ls off off1 m) by (done || lia). cbn [dedup_spec]. rewrite !fmap_cons. cbn [zip_with].
      destruct (raw_pos_entry l i pe off1 m D2 L Ha1 Ham) as [_ ->]; [unfold PAGE_SIZE in *; lia|lia|done|].
      rewrite P2. f_equal. rewrite <- Hd. done. }
  destruct (Z.eqb_spec ret2 0) as [->|Hne]; simpl.
  2:{ eexists. split; [done|]. destruct Hpost as [[(? & _)|[_ P1]] P2]; [done|].
      split; [right; split; [done|]; intros E; by apply P1, Hfa|]. intros E. by apply P2, Hfa. }
  specialize (Hturn eq_refl).
  destruct (Z.ltb_spec (entry_end pe) iov_end) as [Hlt|Hge].
  - assert (m = entry_end pe) as Em by lia. rewrite Em in *.
    destruct Hturn as [[(_ & T1 & T2)|[? _]] T3]; [|done]. inversion T1 as [|? ? ? ? T4 T5]; subst.
    destruct (IH (dr_update d pr) parents1 fa1 (entry_end pe)) as (res & -> & Hres); [done|done|done|lia| |].
    { pose proof (entries_beyond_lt (pmes (dr_pr r)) pe off (entry_end pe) (list_elem_of_lookup_2 _ _ _ L) ltac:(lia) ltac:(lia)). lia. }
    exists res. split; [done|]. rewrite (pages_between_app off (entry_end pe) iov_end) by (done || lia).
    eapply dedup_post_app; [|exact Hres]. split; [left; by split|done].
  - assert (m = iov_end) as Em by lia. rewrite Em in *. eexists. by split.
Qed.
End DedupLoop.

Lemma dedup_one_iovec_spec ls : ls <> [] -> dedups ls (dedup_one_iovec (length ls)).
Proof.
  induction ls as [|l ls IH]; intros Hne chain fa off len Hch Ha Hb H0 Hl Hm; [done|].
  inversion Hch as [|? r ? parents Hr Hps]; subst. cbn [dedup_one_iovec length]. rewrite u64_small by lia.
  pose proof Hr as [D1 _ _ _ _ _]. rewrite D1.
  apply (dedup_loop_ok l ls); try done; [lia|]. pose proof (entries_beyond_le l off). lia.
Qed.

(** The entries of the youngest snapshot that supersede older pages. *)
Definition own_pages (l : list pagemap_entry) : list Z :=
  concat ((fun pe => if pagemap_in_parent pe then [] else pages_between (pe_vaddr pe) (entry_end pe)) <$> l).

Lemma own_pages_cons pe l :
  own_pages (pe :: l) = (if pagemap_in_parent pe then [] else pages_between (pe_vaddr pe) (entry_end pe)) ++ own_pages l.
Proof. done. Qed.

Lemma cr_dedup_loop_ok ls : ls <> [] -> forall fuel pr parents fa off i,
  pagemaps_ok (pmes pr) -> curr_pme pr = Z.of_nat i - 1 -> pi_off pr = 0 ->
  (i <= length (pmes pr))%nat -> (length (pmes pr) < i + fuel)%nat ->
  Forall2 (dedup_ok off) ls parents -> (forall pe, pmes pr !! i = Some pe -> off <= pe_vaddr pe) ->
  exists ret pr' parents' fa' off', cr_dedup_loop fuel pr parents fa = Ret (ret, pr', parents', fa') /\
    dedup_post ls parents fa (own_pages (drop i (pmes pr))) off' (ret, parents', fa').
Proof.
  intros Hne. induction fuel as [|fuel IH]; intros pr parents fa off i Hok Hcu Hpi Hi Hf Hps Hoff; [lia|].
  cbn [cr_dedup_loop]. unfold advance. cbn [curr_pme pmes set_curr_pme].
  replace (curr_pme pr + 1) with (Z.of_nat i) by lia. rewrite Z.geb_leb. unfold zlen.
  destruct (Z.leb_spec (Z.of_nat (length (pmes pr))) (Z.of_nat i)) as [Hge|Hlt].
  { simpl. eexists _, _, _, _, off. split; [done|]. split; [|done]. left. split; [done|]. split; [done|].
    rewrite drop_ge by lia. unfold own_pages. simpl. rewrite dedup_spec_nil; [done|].
    rewrite length_fmap. symmetry. by apply Forall2_length in Hps. }
  rewrite zlookup_of_nat. destruct (lookup_lt_is_Some_2 (pmes pr) i ltac:(lia)) as [pe L]. rewrite L.
  assert (Hadv : exists pr1, (if pagemap_present pe && pagemap_payload_aligned pe
    then if (pi_off pr <? 0) || (pi_off pr >? OFF_MAX - (PAGE_SIZE - 1)) then
      (0, PageRead (Some pe) (pe_vaddr pe) (pi_off pr) 0 (blk pr) (bunch pr) (pmes pr) (Z.of_nat i) (async pr) (disable_dedup pr))
      else (1, PageRead (Some pe) (pe_vaddr pe) (pagemap_page_align_offset (pi_off pr))
        (pagemap_page_align_offset (pi_off pr) - pi_off pr) (set_block_pos 0 0 (blk pr)) (bunch pr) (pmes pr) (Z.of_nat i)
        (async pr) (disable_dedup pr))
    else (1, set_blk (set_block_pos 0 0) (PageRead (Some pe) (pe_vaddr pe) (pi_off pr) 0 (blk pr) (bunch pr) (pmes pr)
      (Z.of_nat i) (async pr) (disable_dedup pr)))) = (1, pr1) /\ pr_pe pr1 = Some pe /\ pmes pr1 = pmes pr /\
      curr_pme pr1 = Z.of_nat (S i) - 1 /\ pi_off pr1 = 0).
  { rewrite Hpi. destruct (pagemap_present pe && _); eexists; (split; [reflexivity|]); cbn; split_and!; (done || lia). }
  destruct Hadv as (pr1 & Hadv & Hp1 & Hm1 & Hc1 & Hpi1). cbn [pi_off blk bunch async disable_dedup pr_pe cvaddr set_curr_pme] in *.
  rewrite Hadv. clear Hadv. simpl. rewrite Hp1.
  destruct (pagemaps_ok_lookup _ i pe Hok L) as (Hpe & _). destruct (entry_aligned pe Hpe) as [Ha1 Ha2].
  pose proof (entry_end_u64 pe Hpe) as Hee. pose proof Hpe as (_ & _ & _ & Hv0 & Hn & Hend & _).
  rewrite (drop_S _ _ _ L), own_pages_cons.
  assert (Hnext : forall q, pmes pr1 !! S i = Some q -> entry_end pe <= pe_vaddr q).
  { intros q Hq. rewrite Hm1 in Hq. apply (ok_from_order _ 0 0 i (S i) pe q ltac:(lia) Hok L Hq). lia. }
  assert (Hrest : forall ps fa1, Forall2 (dedup_ok (entry_end pe)) ls ps ->
    exists ret pr' parents' fa' off', cr_dedup_loop fuel pr1 ps fa1 = Ret (ret, pr', parents', fa') /\
      dedup_post ls ps fa1 (own_pages (drop (S i) (pmes pr))) off' (ret, parents', fa')).
  { intros ps fa1 Hps1. rewrite <- Hm1. apply (IH pr1 ps fa1 (entry_end pe) (S i)); try done; rewrite Hm1; (done || lia). }
  specialize (Hoff pe L). destruct (pagemap_in_parent pe); simpl.
  - apply Hrest. eapply chain_mono; [|exact Hps]. unfold entry_end, PAGE_SIZE in *. lia.
  - assert (Hl64 : pagemap_len pe = pe_nr_pages pe * PAGE_SIZE).
    { unfold pagemap_len. apply u64_small. unfold entry_end, PAGE_SIZE in *. lia. }
    assert (El : length parents = length ls) by (symmetry; by apply Forall2_length in Hps). rewrite El, Hl64.
    destruct (dedup_one_iovec_spec ls Hne parents fa (pe_vaddr pe) (pe_nr_pages pe * PAGE_SIZE))
      as ([[ret ps1] fa1] & -> & Hpost); try done; [by eapply chain_mono; [|exact Hps]|unfold PAGE_SIZE; lia|].
    fold (entry_end pe) in Hpost. simpl. destruct (Z.eqb_spec ret 0) as [->|Hr]; simpl.
    + pose proof Hpost as [[(_ & P1 & P2)|[? _]] P3]; [|done].
      destruct (Hrest ps1 fa1 P1) as (ret & pr' & ps' & fa' & off' & -> & Hpost').
      exists ret, pr', ps', fa', off'. split; [done|]. exact (dedup_post_app _ _ _ _ _ _ _ _ _ _ Hpost Hpost').
    + eexists _, _, _, _, 0. split; [done|]. destruct Hpost as [[(? & _)|[P0 P1]] P2]; [done|]. split; [by right|done].
Qed.

(** ** Theorems *)

(** [check_pagehole_in_parent], from a cursor at or before the hole or at
    the next entry behind its start, always returns, and accepts the hole
    exactly when every page of it is in the parent's pagemap, over however many
    entries; the parent's cursor stays usable, and only the cursor changes. *)
Theorem check_pagehole_in_parent_correct (p : page_read) (iov : iovec) :
  pagemaps_ok (pmes p) -> cursor_ok p -> aligned (iov_base iov) -> aligned (iov_base iov + iov_len iov) ->
  0 <= iov_base iov -> 0 < iov_len iov -> iov_base iov + iov_len iov < 2 ^ 64 -> ready (iov_base iov) p ->
  exists r p', check_pagehole_in_parent p iov = Ret (r, p') /\ cursor_ok p' /\ same_store p p' /\ (r = 0 \/ r = -1) /\
    (r = 0 -> cvaddr p' < iov_base iov + iov_len iov) /\
    (r = 0 <-> forall v, v ∈ pages_between (iov_base iov) (iov_base iov + iov_len iov) -> has_page (pmes p) v).
Proof. apply check_pagehole_spec. Qed.

(** [dedup_one_iovec] always returns and, when it succeeds, has released in
    every image of the chain (punched, or collected in the pending bunch) exactly
    the bytes of the pages of the range that are stored uncompressed there and
    known to all younger images of the chain, in order; compressed and inherited
    pages are left alone.  It fails only when fallocate() does, and the readers
    can go on from the end of the range. *)
Theorem dedup_one_iovec_exact (chain : list dedup_reader) (fa : list bool) (off len : Z) :
  let ls := (fun r => pmes (dr_pr r)) <$> chain in
  chain <> [] -> Forall2 (dedup_ok off) ls chain -> aligned off -> aligned (off + len) ->
  0 <= off -> 0 < len -> off + len < 2 ^ 64 ->
  exists ret chain' fa', dedup_one_iovec (length chain) chain fa off len = Ret (ret, chain', fa') /\
    (ret = 0 /\ Forall2 (dedup_ok (off + len)) ls chain' /\
       dr_released <$> chain' = zip_with app (dr_released <$> chain) (dedup_spec ls (pages_between off (off + len))) \/
     ret = -1 /\ fa <> []).
Proof.
  intros ls Hne Hch Ha Hb H0 Hl Hm. assert (El : length chain = length ls) by (unfold ls; by rewrite length_fmap).
  rewrite El. destruct (dedup_one_iovec_spec ls ltac:(by destruct chain) chain fa off len Hch Ha Hb H0 Hl Hm)
    as ([[ret chain'] fa'] & -> & [Hpost _]). by exists ret, chain', fa'.
Qed.


(** ** Examples: a parent with two raw entries and a packed one *)
Definition sample_base_es : list pagemap_entry :=
  [PagemapEntry 0x3000 2 false false true PE_PRESENT true 2 None;
   PagemapEntry 0x5000 2 false false true PE_PRESENT true 2 None;
   PagemapEntry 0xb000 2 false false true PE_PRESENT true 2 (Some (PagemapBlocks [70] 70 2))].
Definition sample_base : page_read :=
  PageRead None 0 0 0 (BlkState 0 0 [] 0 0) (Iovec 0 0) sample_base_es (-1) [] false.

Lemma sample_base_es_ok : pagemaps_ok sample_base_es.
Proof.
  unfold pagemaps_ok, sample_base_es; simpl. unfold entry_ok, entry_stop, entry_end; simpl.
  unfold PAGE_SIZE. split_and!; try done; try (vm_compute; done).
  all: intros b [= <-]; split; [done|]; unfold blocks_ok, n_block_sizes; simpl;
    rewrite MAX_BLOCK_PAGES_eq; unfold block_pages_at, PAGE_SIZE, zlen; simpl; lia.
Qed.

Lemma sample_base_dedup_ok off : 0 <= off -> dedup_ok off sample_base_es (DedupReader sample_base []).
Proof.
  intros Ho. split; [done|exact sample_base_es_ok|apply cursor_reset; try done; by left|by left|done|].
  repeat (apply Forall_cons_2; [by right|]). apply Forall_nil_2.
Qed.

Lemma check_pagehole_in_parent_correct_witness :
  exists p', check_pagehole_in_parent sample_base (Iovec 0x4000 0x2000) = Ret (0, p') /\ cursor_ok p' /\
    has_page sample_base_es 0x5000.
Proof.
  destruct (check_pagehole_in_parent_correct sample_base (Iovec 0x4000 0x2000)) as (r & p' & Hr & Hc & _ & _ & _ & Hiff);
    try exact sample_base_es_ok; try reflexivity; try (simpl; lia).
  - apply cursor_reset; try done. by left.
  - left. discriminate.
  - assert (r = 0) as ->. { vm_compute in Hr. by injection Hr as <- _. }
    exists p'. split; [exact Hr|]. split; [exact Hc|]. apply Hiff; [reflexivity|].
    apply in_pages_between; (reflexivity || (simpl; lia)).
Defined.

(** 0x4000-0x6000 crosses the two raw entries: one page of each is released,
    and nothing of the packed entry behind. *)
Lemma dedup_one_iovec_exact_witness :
  exists chain' fa', dedup_one_iovec 1 [DedupReader sample_base []] [] 0x4000 0x2000 = Ret (0, chain', fa') /\
    dr_released <$> chain' = [seqZ 4096 8192].
Proof.
  destruct (dedup_one_iovec_exact [DedupReader sample_base []] [] 0x4000 0x2000)
    as (ret & chain' & fa' & H1 & [(-> & _ & H2)|[_ Hfa]]).
  - discriminate.
  - constructor; [by apply sample_base_dedup_ok|constructor].
  - reflexivity.
  - reflexivity.
  - lia.
  - lia.
  - reflexivity.
  - exists chain', fa'. split; [exact H1|]. rewrite H2. vm_compute. reflexivity.
  - by destruct Hfa.
Defined.


(** An entry that is neither inherited nor present (a lazy page that was not
    transferred) has no bytes in the image, yet the walk punches a page at the
    cursor, here the payload of the entry behind it. *)
Definition sample_lazy_es : list pagemap_entry :=
  [PagemapEntry 0x3000 1 false false true PE_LAZY true 1 None;
   PagemapEntry 0x4000 1 false false true PE_PRESENT true 1 None].
Lemma dedup_punches_next_payload :
  let pr := PageRead None 0 0 0 (BlkState 0 0 [] 0 0) (Iovec 0 0) sample_lazy_es (-1) [] false in
  exists r fa', dedup_one_iovec 1 [DedupReader pr []] [] 0x3000 0x1000 = Ret (0, [r], fa') /\
    dr_released r = seqZ 0 4096 /\ payload_start sample_lazy_es 1 = 0.
Proof. eexists _, _. split; [vm_compute; reflexivity|]. split; vm_compute; reflexivity. Qed.
