(* ===== verification/Compress.v ===== *)
(** Encoding a block of pages: [compress_block] of criu/compression.c with
    [page_is_all_zero] of criu/include/compression.h, and its inverse
    [decompress_block] (file ReadPages).

    LZ4 is a parameter: [lz4c src cap acc] is what [LZ4_compress_fast] writes,
    or [None] when it returns 0 or less; [lz4 src size] is
    [LZ4_decompress_safe].  The one thing the code relies on is LZ4's contract,
    [lz4_contract]: what was compressed decompresses to what it was. *)
From S2P Require Import Prelude PagemapImage PageRead AsyncQueue ReadPages.

Definition LZ4_DEFAULT_ACCELERATION : Z := 1.
Definition BLOCK_COMPRESSED_SIZE_BOUND (n_pages : Z) : Z := n_pages * PAGE_SIZE + n_pages * PAGE_SIZE / 255 + 16.
Definition BLOCK_COMPRESSION_THRESHOLD (block_bytes : Z) : Z := block_bytes * 7 / 8.

Definition all_zero (l : list Z) : bool := forallb (Z.eqb 0) l.

(** The words of a page are 8 bytes; the last one is looked at first. *)
Definition word_is_zero (page : list Z) (i : Z) : bool := all_zero (take 8 (drop (Z.to_nat (i * 8)) page)).

Definition page_is_all_zero (page : list Z) : bool :=
  let last := PAGE_SIZE / 8 - 1 in
  if negb (word_is_zero page last) then false
  else forallb (word_is_zero page) (seqZ 0 last).

(** Page [i] of a buffer. *)
Definition page_of (buf : list Z) (i : Z) : list Z :=
  take (Z.to_nat PAGE_SIZE) (drop (Z.to_nat (i * PAGE_SIZE)) buf).

Section Encode.
Context (lz4c : list Z -> Z -> Z -> option (list Z)).

(** [None] is -1; otherwise the size returned and the bytes left in [dst]. *)
Definition compress_block (src : list Z) (n_pages dst_cap acceleration : Z) : option (Z * list Z) :=
  if (n_pages =? 0) || (n_pages >? MAX_BLOCK_PAGES) then None
  else
    let block_bytes := n_pages * PAGE_SIZE in
    if forallb (fun i => page_is_all_zero (page_of src i)) (seqZ 0 n_pages) then Some (0, [])
    else if dst_cap <? block_bytes then None
    else
      let acceleration := if acceleration <? 1 then 1 else acceleration in
      let raw := Some (block_bytes, take (Z.to_nat block_bytes) src) in
      match lz4c (take (Z.to_nat block_bytes) src) dst_cap acceleration with
      | None => raw
      | Some out => if zlen out >=? BLOCK_COMPRESSION_THRESHOLD block_bytes then raw else Some (zlen out, out)
      end.
End Encode.

(** LZ4's contract: compressed data is not empty, and decompressing it with the
    original size as capacity gives the original back. *)
Definition lz4_contract (lz4c : list Z -> Z -> Z -> option (list Z)) (lz4 : list Z -> Z -> option (list Z)) : Prop :=
  forall src cap acc out, lz4c src cap acc = Some out -> 0 < zlen out /\ lz4 out (zlen src) = Some src.

(** ** Zero detection *)
Lemma all_zero_spec l : all_zero l = true <-> l = replicate (length l) 0.
Proof.
  unfold all_zero. induction l as [|x l IH]; [done|]. cbn [forallb length replicate].
  rewrite andb_true_iff, Z.eqb_eq, IH. split; [intros [<- <-]; done|intros [= -> H]; by split].
Qed.

Lemma all_zero_elem l : all_zero l = true <-> forall x, x ∈ l -> x = 0.
Proof.
  unfold all_zero. rewrite forallb_forall. split; intros H x Hx.
  - symmetry. apply Z.eqb_eq, H. by apply list_elem_of_In.
  - apply Z.eqb_eq. symmetry. apply H. by apply list_elem_of_In.
Qed.

(** Looking at [n] chunks of [m] elements is looking at all of them. *)
Lemma all_zero_chunks m n l : 0 < m -> 0 <= n -> zlen l = n * m ->
  forallb (fun i => all_zero (take (Z.to_nat m) (drop (Z.to_nat (i * m)) l))) (seqZ 0 n) = all_zero l.
Proof.
  intros Hm Hn Hl. apply eq_true_iff_eq. rewrite forallb_forall, all_zero_elem. setoid_rewrite all_zero_elem. split.
  - intros H x Hx. apply list_elem_of_lookup_1 in Hx as [j Hj]. pose proof (lookup_lt_Some _ _ _ Hj) as Hlt.
    pose proof (Z.div_mod (Z.of_nat j) m ltac:(lia)) as Hd. pose proof (Z.mod_pos_bound (Z.of_nat j) m Hm) as Hr.
    assert (Hq : 0 <= Z.of_nat j / m < n).
    { unfold zlen in Hl. split; [apply Z.div_pos; lia|]. apply Z.div_lt_upper_bound; lia. }
    apply (H (Z.of_nat j / m)); [apply list_elem_of_In, elem_of_seqZ; lia|].
    apply list_elem_of_lookup_2 with (Z.to_nat (Z.of_nat j mod m)). rewrite lookup_take_lt by lia. rewrite lookup_drop.
    rewrite <- Hj. f_equal. nia.
  - intros H i Hi x Hx. apply H. apply list_elem_of_lookup_1 in Hx as [j Hj].
    apply lookup_take_Some in Hj as [Hj _]. rewrite lookup_drop in Hj. by apply list_elem_of_lookup_2 in Hj.
Qed.

Lemma page_is_all_zero_ok page : zlen page = PAGE_SIZE -> page_is_all_zero page = all_zero page.
Proof.
  intros Hl. rewrite <- (all_zero_chunks 8 512 page) by (unfold PAGE_SIZE in *; lia).
  unfold page_is_all_zero. change (PAGE_SIZE / 8 - 1) with 511. change 512 with (511 + 1).
  rewrite seqZ_app, forallb_app by lia. change (seqZ (0 + 511) 1) with [511]. cbn [forallb]. rewrite andb_true_r.
  unfold word_is_zero. change (Z.to_nat 8) with 8%nat.
  destruct (all_zero (take 8 (drop (Z.to_nat (511 * 8)) page))); [by rewrite andb_true_r|by rewrite andb_false_r].
Qed.

Lemma block_all_zero n buf : 0 <= n -> zlen buf = n * PAGE_SIZE ->
  forallb (fun i => page_is_all_zero (page_of buf i)) (seqZ 0 n) = all_zero buf.
Proof.
  intros Hn Hl. rewrite <- (all_zero_chunks PAGE_SIZE n buf) by (unfold PAGE_SIZE in *; lia).
  apply eq_true_iff_eq. rewrite !forallb_forall. apply forall_proper. intros i. split; intros H Hi;
    specialize (H Hi); apply list_elem_of_In, elem_of_seqZ in Hi; rewrite page_is_all_zero_ok in *; try done;
    unfold page_of, zlen, PAGE_SIZE in *; rewrite length_take, length_drop; lia.
Qed.

(** ** Encoding a block *)

(** The stored form of a block of [n] pages: nothing, the pages as they are, or
    LZ4 data. *)
Definition stored_block (lz4 : list Z -> Z -> option (list Z)) (n : Z) (data : list Z) (cs : Z) (payload : list Z) : Prop :=
  zlen data = n * PAGE_SIZE /\ zlen payload = cs /\
  (cs = 0 /\ data = zeros (n * PAGE_SIZE) \/
   cs = n * PAGE_SIZE /\ payload = data \/
   0 < cs < n * PAGE_SIZE /\ decompress_data_nolog lz4 payload (n * PAGE_SIZE) = Some data).

Lemma zero_block n buf : 0 <= n -> zlen buf = n * PAGE_SIZE -> all_zero buf = true -> buf = zeros (n * PAGE_SIZE).
Proof. intros Hn Hl Hz. apply all_zero_spec in Hz. rewrite Hz. unfold zeros, zlen in *. f_equal. lia. Qed.

Lemma compress_block_stores lz4c lz4 src n cap acc : lz4_contract lz4c lz4 ->
  1 <= n <= MAX_BLOCK_PAGES -> zlen src = n * PAGE_SIZE -> n * PAGE_SIZE <= cap ->
  exists cs payload, compress_block lz4c src n cap acc = Some (cs, payload) /\ stored_block lz4 n src cs payload.
Proof.
  intros Hlz Hn Hl Hcap. unfold compress_block. rewrite Z.gtb_ltb.
  destruct (Z.eqb_spec n 0); [lia|]. destruct (Z.ltb_spec MAX_BLOCK_PAGES n); [lia|]. cbn [orb].
  rewrite block_all_zero by (done || lia). destruct (all_zero src) eqn:Ez.
  { eexists _, _. split; [done|]. split; [done|]. split; [done|]. left. split; [done|]. apply zero_block; (done || lia). }
  destruct (Z.ltb_spec cap (n * PAGE_SIZE)); [lia|].
  assert (Et : take (Z.to_nat (n * PAGE_SIZE)) src = src) by (apply take_ge; unfold zlen in Hl; lia). rewrite Et.
  assert (Hraw : stored_block lz4 n src (n * PAGE_SIZE) src) by (split; [done|]; split; [done|]; right; by left).
  destruct (lz4c src cap _) as [out|] eqn:Ec; [|by eexists _, _].
  rewrite Z.geb_leb. destruct (Z.leb_spec (BLOCK_COMPRESSION_THRESHOLD (n * PAGE_SIZE)) (zlen out)) as [|Hlt]; [by eexists _, _|].
  destruct (Hlz _ _ _ _ Ec) as [Hpos Hdec]. eexists _, _. split; [done|]. split; [done|]. split; [done|]. right; right.
  unfold BLOCK_COMPRESSION_THRESHOLD, PAGE_SIZE in *. split.
  - assert (n * 4096 * 7 / 8 = n * 3584) as E by (replace (n * 4096 * 7) with (n * 3584 * 8) by lia; apply Z.div_mul; lia). lia.
  - unfold decompress_data_nolog. rewrite <- Hl, Hdec, Z.eqb_refl. done.
Qed.

(** The stored form decodes to the block. *)
Lemma stored_block_decodes lz4 n data cs payload : 1 <= n <= MAX_BLOCK_PAGES -> stored_block lz4 n data cs payload ->
  decompress_block lz4 payload cs n = Some data.
Proof.
  intros Hn (Hl & Hp & Hc). unfold decompress_block. rewrite !Z.gtb_ltb.
  destruct (Z.eqb_spec n 0); [lia|]. destruct (Z.ltb_spec MAX_BLOCK_PAGES n); [lia|]. cbn [orb].
  assert (0 <= cs <= n * PAGE_SIZE) by (pose proof (zlen_nonneg payload); unfold PAGE_SIZE in *; lia).
  destruct (Z.ltb_spec cs 0); [lia|]. destruct (Z.ltb_spec (n * PAGE_SIZE) cs); [lia|].
  destruct Hc as [[-> ->]|[[-> ->]|[Hcs Hd]]].
  - done.
  - destruct (Z.eqb_spec (n * PAGE_SIZE) 0); [unfold PAGE_SIZE in *; lia|]. rewrite Z.eqb_refl.
    f_equal. apply take_ge. unfold zlen in *. lia.
  - destruct (Z.eqb_spec cs 0); [lia|]. destruct (Z.eqb_spec cs (n * PAGE_SIZE)); [lia|].
    rewrite take_ge; [done|]. unfold zlen in *. lia.
Qed.

(** C23. Blocks survive encoding: for every block of 1 to [MAX_BLOCK_PAGES]
    pages and a destination of at least the block's size, [compress_block]
    succeeds with a stored size between 0 and the block's size, and
    [decompress_block] of what it stored gives the block back, whether it was
    elided as zeroes, kept raw because LZ4 failed or did not save an eighth,
    or compressed. *)
Theorem compress_decompress_block lz4c lz4 src n cap acc :
  lz4_contract lz4c lz4 -> 1 <= n <= MAX_BLOCK_PAGES -> zlen src = n * PAGE_SIZE -> n * PAGE_SIZE <= cap ->
  exists cs payload, compress_block lz4c src n cap acc = Some (cs, payload) /\
    0 <= cs <= n * PAGE_SIZE /\ zlen payload = cs /\ decompress_block lz4 payload cs n = Some src.
Proof.
  intros Hlz Hn Hl Hcap. destruct (compress_block_stores lz4c lz4 src n cap acc Hlz Hn Hl Hcap) as (cs & payload & H1 & H2).
  exists cs, payload. split; [done|]. pose proof (stored_block_decodes _ _ _ _ _ Hn H2). destruct H2 as (_ & Hp & Hc).
  split_and!; try done; pose proof (zlen_nonneg payload); unfold PAGE_SIZE in *; lia.
Qed.

(** A compressor for blocks of one repeated byte. *)
Definition sample_compressor (src : list Z) (cap acc : Z) : option (list Z) :=
  match src with
  | x :: _ => if forallb (Z.eqb x) src then Some [x] else None
  | [] => None
  end.

Lemma sample_codec_contract : lz4_contract sample_compressor sample_codec.
Proof.
  intros src cap acc out H. unfold sample_compressor in H. destruct src as [|x src]; [done|].
  destruct (forallb (Z.eqb x) (x :: src)) eqn:E; [|done]. injection H as <-. split; [done|].
  unfold sample_codec, zlen. rewrite Nat2Z.id. f_equal. generalize dependent (x :: src). intros l E.
  induction l as [|y l IH]; [done|]. cbn [forallb] in E. apply andb_prop in E as [->%Z.eqb_eq E]. simpl. by rewrite IH.
Qed.

Lemma compress_decompress_block_witness :
  exists payload, compress_block sample_compressor (replicate 8192 9) 2 8300 0 = Some (1, payload) /\
    decompress_block sample_codec payload 1 2 = Some (replicate 8192 9).
Proof.
  destruct (compress_decompress_block sample_compressor sample_codec (replicate 8192 9) 2 8300 0)
    as (cs & payload & H1 & _ & _ & H2).
  - exact sample_codec_contract.
  - rewrite MAX_BLOCK_PAGES_eq. lia.
  - reflexivity.
  - vm_compute. discriminate.
  - assert (cs = 1) as ->.
    { assert (E : fst <$> compress_block sample_compressor (replicate 8192 9) 2 8300 0 = Some 1) by (vm_compute; reflexivity).
      rewrite H1 in E. by injection E. }
    by exists payload.
Defined.
