(* ===== verification/RangeQuery.v ===== *)
(** Questions about a range of addresses that criu/pagemap.c answers without
    moving a reader's cursor: does the range need LZ4 decoding, should it be
    premapped, does it touch pages of the parent image.  A reader with its
    parents is the list of their pagemaps, the youngest first. *)
From S2P Require Import Prelude PagemapImage PageRead AsyncQueue.

Definition DIRECT_COMPRESSED_RUN_MAX : Z := 128.

(** [pe_start + pagemap_len(pe)] as the loops compute it. *)
Definition pe_end (pe : pagemap_entry) : Z := u64 (pe_vaddr pe + pagemap_len pe).

(** The binary search: the first entry whose end is after [start]. *)
Fixpoint first_after (fuel : nat) (pmes : list pagemap_entry) (start lo hi : Z) : outcome Z :=
  if lo <? hi then
    match fuel with
    | O => NoFuel
    | S fuel =>
        let middle := lo + (hi - lo) / 2 in
        match zlookup pmes middle with
        | None => Bug
        | Some pe =>
            if pe_end pe <=? start then first_after fuel pmes start (middle + 1) hi
            else first_after fuel pmes start lo middle
        end
    end
  else Ret lo.

(** ** [page_read_range_has_parent] *)
Fixpoint has_parent_loop (start stop : Z) (pmes : list pagemap_entry) : Z :=
  match pmes with
  | [] => 0
  | pe :: rest =>
      if pe_vaddr pe >=? stop then 0
      else if (pe_end pe >? start) && pagemap_in_parent pe then 1
      else has_parent_loop start stop rest
  end.

Definition invalid_range (start stop : Z) : bool :=
  (start >=? stop) || negb (start mod PAGE_SIZE =? 0) || negb (stop mod PAGE_SIZE =? 0).

Definition page_read_range_has_parent (pmes : list pagemap_entry) (start stop : Z) : outcome Z :=
  if invalid_range start stop then Ret (-1)
  else
    let! lo := first_after (S (length pmes)) pmes start 0 (zlen pmes) in
    Ret (has_parent_loop start stop (drop (Z.to_nat lo) pmes)).

(** ** [page_read_range_needs_decode] *)

(** What the loop carries: the number of direct runs, and the storage kind and
    block size of the previous block when there is one. *)
Record decode_scan := DecodeScan {
  direct_runs : Z;
  previous_storage : option restore_vma_io_storage;
  previous_block_pages : Z
}.

Definition forget_previous (s : decode_scan) : decode_scan :=
  DecodeScan (direct_runs s) None (previous_block_pages s).

Section NeedsDecode.
Context (parallel premap_mixed : bool).

(** The loop over the [n] blocks from [block]; [inl] is a return. *)
Fixpoint scan_blocks (n : nat) (pe : pagemap_entry) (overlap_start overlap_end : Z)
    (parallel_zero_entry : bool) (block zero_bytes zero_blocks : Z) (s : decode_scan)
    : Z + decode_scan :=
  match n with
  | O => inr s
  | S n =>
      let cur_block_pages := pagemap_block_pages pe in
      match compressed_block_storage pe block with
      | None => inl (-1)
      | Some (storage, block_pages) =>
          if bool_decide (storage = VMA_IO_ENCODED) then inl 1
          else
            let zero := parallel_zero_entry && bool_decide (storage = VMA_IO_ZERO) in
            let first_page := if negb (cur_block_pages =? 0) then u64 (block * cur_block_pages) else block in
            let block_start := u64 (pe_vaddr pe + u64 (first_page * PAGE_SIZE)) in
            let block_end := u64 (block_start + u64 (block_pages * PAGE_SIZE)) in
            let inside := zero && negb ((block_start <? overlap_start) || (block_end >? overlap_end)) in
            let zero_bytes := if inside then u64 (zero_bytes + u64 (block_end - block_start)) else 0 in
            let zero_blocks := if inside then zero_blocks + 1 else 0 in
            if inside && (zero_blocks >? 1) && (zero_bytes >=? PARALLEL_RESTORE_MIN_BATCH_BYTES) then inl 1
            else
              let new_run := premap_mixed && negb (bool_decide (previous_storage s = Some storage)) in
              let runs := if new_run then direct_runs s + 1 else direct_runs s in
              if new_run && (runs >? DIRECT_COMPRESSED_RUN_MAX) then inl 1
              else
                scan_blocks n pe overlap_start overlap_end parallel_zero_entry (block + 1)
                  zero_bytes zero_blocks (DecodeScan runs (Some storage) cur_block_pages)
      end
  end.

(** One overlapping entry with blocks. *)
Definition scan_entry (pe : pagemap_entry) (b : pagemap_blocks) (overlap_start overlap_end : Z)
    (s : decode_scan) : Z + decode_scan :=
  let cur_block_pages := pagemap_block_pages pe in
  let s := if negb (cur_block_pages =? previous_block_pages s) then forget_previous s else s in
  let first_page := u64 (overlap_start - pe_vaddr pe) / PAGE_SIZE in
  let end_page := u64 (overlap_end - pe_vaddr pe) / PAGE_SIZE in
  let split := negb (first_page mod cur_block_pages =? 0) ||
               (negb (end_page mod cur_block_pages =? 0) && negb (overlap_end =? pe_end pe)) in
  let parallel_zero_entry :=
    premap_mixed && parallel && negb (negb (cur_block_pages =? 0) && split) in
  let first_block := if negb (cur_block_pages =? 0) then first_page / cur_block_pages else first_page in
  let last_block :=
    if negb (cur_block_pages =? 0) then block_nr_blocks end_page cur_block_pages else end_page in
  if last_block >? n_block_sizes b then inl (-1)
  else
    scan_blocks (Z.to_nat (last_block - first_block)) pe overlap_start overlap_end parallel_zero_entry
      first_block 0 0 s.

(** The entry loop; [parent] answers for the parent reader, if there is one. *)
Fixpoint scan_entries (parent : option (Z -> Z -> outcome Z)) (start stop : Z)
    (pmes : list pagemap_entry) (s : decode_scan) : outcome Z :=
  match pmes with
  | [] => Ret 0
  | pe :: rest =>
      if pe_vaddr pe >=? stop then Ret 0
      else if pe_end pe <=? start then scan_entries parent start stop rest s
      else
        let overlap_start := Z.max start (pe_vaddr pe) in
        let overlap_end := Z.min stop (pe_end pe) in
        if pagemap_in_parent pe then
          match parent with
          | None => Ret (-1)
          | Some ask =>
              let! ret := ask overlap_start overlap_end in
              if negb (ret =? 0) then Ret ret
              else scan_entries parent start stop rest (forget_previous s)
          end
        else
          match pe_blocks pe with
          | None => scan_entries parent start stop rest (forget_previous s)
          | Some b =>
              match scan_entry pe b overlap_start overlap_end s with
              | inl ret => Ret ret
              | inr s => scan_entries parent start stop rest s
              end
          end
  end.

Fixpoint page_read_range_needs_decode (chain : list (list pagemap_entry)) (start stop : Z) : outcome Z :=
  match chain with
  | [] => Ret (-1)                                   (* no reader *)
  | pmes :: parents =>
      if invalid_range start stop then Ret (-1)
      else
        let! lo := first_after (S (length pmes)) pmes start 0 (zlen pmes) in
        scan_entries
          (match parents with [] => None | _ => Some (page_read_range_needs_decode parents) end)
          start stop (drop (Z.to_nat lo) pmes) (DecodeScan 0 None 0)
  end.
End NeedsDecode.

Definition page_read_range_has_lz4 (parallel : bool) (chain : list (list pagemap_entry)) (start stop : Z) :=
  page_read_range_needs_decode parallel false chain start stop.
Definition page_read_range_needs_premap (parallel : bool) (chain : list (list pagemap_entry)) (start stop : Z) :=
  page_read_range_needs_decode parallel true chain start stop.

(** ** Specification *)

(** The entry of a pagemap that covers address [a]. *)
Fixpoint entry_at (pmes : list pagemap_entry) (a : Z) : option pagemap_entry :=
  match pmes with
  | [] => None
  | pe :: rest => if (pe_vaddr pe <=? a) && (a <? entry_end pe) then Some pe else entry_at rest a
  end.

(** How the page at [a] is stored, in the reader that owns it. *)
Inductive page_owner :=
| NoEntry                                  (** not in the image *)
| NoParent                                 (** left to a parent that is not there *)
| Stored (storage : restore_vma_io_storage).

Definition entry_storage (pe : pagemap_entry) (a : Z) : restore_vma_io_storage :=
  match pe_blocks pe with
  | None => VMA_IO_UNCOMPRESSED
  | Some b => block_kind pe b ((a - pe_vaddr pe) / PAGE_SIZE / pages_per_block b)
  end.

Fixpoint owner (chain : list (list pagemap_entry)) (a : Z) : page_owner :=
  match chain with
  | [] => NoParent
  | pmes :: parents =>
      match entry_at pmes a with
      | None => NoEntry
      | Some pe => if pagemap_in_parent pe then owner parents a else Stored (entry_storage pe a)
      end
  end.

Definition page_in (start stop a : Z) : Prop := start <= a < stop /\ a mod PAGE_SIZE = 0.

Definition valid_range (start stop : Z) : Prop :=
  0 <= start < stop /\ stop < 2 ^ 64 /\ start mod PAGE_SIZE = 0 /\ stop mod PAGE_SIZE = 0.

(** ** The binary search *)
Lemma pe_end_ok pe : entry_ok pe -> pe_end pe = entry_end pe /\ pe_vaddr pe < entry_end pe /\
  pe_vaddr pe mod PAGE_SIZE = 0 /\ entry_end pe mod PAGE_SIZE = 0 /\ 0 <= pe_vaddr pe /\ entry_end pe < 2 ^ 64.
Proof.
  intros (_ & _ & Hm & Hv & Hn & He & _). unfold pe_end, pagemap_len, entry_end, PAGE_SIZE in *.
  rewrite !u64_small by (rewrite ?u64_small; lia). split_and!; try (done || lia).
  rewrite Z.mod_add; lia.
Qed.

Lemma first_after_ok pmes start :
  (forall i j p q, pmes !! i = Some p -> pmes !! j = Some q -> (i <= j)%nat -> pe_end p <= pe_end q) ->
  forall fuel lo hi, 0 <= lo <= hi -> hi <= zlen pmes -> hi - lo < Z.of_nat fuel ->
  (forall j p, pmes !! j = Some p -> Z.of_nat j < lo -> pe_end p <= start) ->
  (forall j p, pmes !! j = Some p -> hi <= Z.of_nat j -> start < pe_end p) ->
  exists k, first_after fuel pmes start lo hi = Ret k /\ 0 <= k /\
    forall j p, pmes !! j = Some p -> Z.of_nat j < k -> pe_end p <= start.
Proof.
  intros Hsort. induction fuel as [|fuel IH]; intros lo hi Hr Hlen Hf Hlo Hhi; [lia|].
  simpl. destruct (Z.ltb_spec lo hi) as [Hlt|]; [|exists lo; split_and!; (done || lia)].
  assert (Hm : lo <= lo + (hi - lo) / 2 < hi).
  { pose proof (Z.div_lt_upper_bound (hi - lo) 2 (hi - lo)). pose proof (Z.div_pos (hi - lo) 2). lia. }
  set (m := lo + (hi - lo) / 2) in *.
  destruct (zlookup_is_Some pmes m ltac:(lia)) as [pe Hpe]. rewrite Hpe.
  assert (Hpe' : pmes !! Z.to_nat m = Some pe).
  { unfold zlookup in Hpe. destruct (Z.ltb_spec m 0); [done|done]. }
  destruct (Z.leb_spec (pe_end pe) start) as [Hle|Hgt].
  - apply IH; try lia; [|done]. intros j p Hj Hjm.
    pose proof (Hsort j (Z.to_nat m) p pe Hj Hpe' ltac:(lia)). lia.
  - apply IH; try lia; [done|]. intros j p Hj Hjm.
    pose proof (Hsort (Z.to_nat m) j pe p Hpe' Hj ltac:(lia)). lia.
Qed.

Lemma pagemaps_ends_sorted l i j p q : pagemaps_ok l ->
  l !! i = Some p -> l !! j = Some q -> (i <= j)%nat -> pe_end p <= pe_end q.
Proof.
  intros Hok Hi Hj Hij.
  destruct (pagemaps_ok_lookup l i p Hok Hi) as [Hp _]. destruct (pagemaps_ok_lookup l j q Hok Hj) as [Hq _].
  destruct (pe_end_ok p Hp) as (-> & _). destruct (pe_end_ok q Hq) as (-> & ? & _).
  destruct (decide (i = j)) as [->|]; [rewrite Hi in Hj; injection Hj as ->; lia|].
  pose proof (ok_from_order l 0 0 i j p q ltac:(lia) Hok Hi Hj ltac:(lia)). lia.
Qed.

Lemma ok_from_drop k : forall l prev off, 0 <= off -> pagemaps_ok_from prev off l ->
  exists prev' off', 0 <= off' /\ pagemaps_ok_from prev' off' (drop k l).
Proof.
  induction k as [|k IH]; intros l prev off Ho Hok; [by exists prev, off|].
  destruct l as [|pe l]; [by exists 0, 0|]. destruct Hok as (Hpe & _ & _ & Hrest). simpl.
  eapply IH; [|exact Hrest]. pose proof (entry_stop_ge pe off Hpe Ho). lia.
Qed.

Lemma entry_at_drop k a start : start <= a -> forall l,
  Forall entry_ok l -> (forall j p, l !! j = Some p -> (j < k)%nat -> pe_end p <= start) ->
  entry_at (drop k l) a = entry_at l a.
Proof.
  intros Ha. induction k as [|k IH]; intros l Hok Hb; [done|].
  destruct l as [|pe l]; [done|]. apply Forall_cons_1 in Hok as [Hpe Hok]. simpl.
  rewrite IH; [|done|intros j p Hj Hjk; apply (Hb (S j)); [done|lia]].
  pose proof (Hb 0%nat pe eq_refl ltac:(lia)). destruct (pe_end_ok pe Hpe) as (E & _).
  destruct (Z.ltb_spec a (entry_end pe)); [lia|]. by rewrite andb_false_r.
Qed.

Lemma pagemaps_ok_Forall l : pagemaps_ok l -> Forall entry_ok l.
Proof. intros Hok. apply Forall_lookup_2. intros i x Hi. by apply (pagemaps_ok_lookup l i x Hok). Qed.

(** The scans start at an entry that hides none of the range. *)
Lemma first_after_start pmes start : pagemaps_ok pmes ->
  exists k, first_after (S (length pmes)) pmes start 0 (zlen pmes) = Ret k /\
    (exists prev off, 0 <= off /\ pagemaps_ok_from prev off (drop (Z.to_nat k) pmes)) /\
    forall a, start <= a -> entry_at (drop (Z.to_nat k) pmes) a = entry_at pmes a.
Proof.
  intros Hok. destruct (first_after_ok pmes start) with (fuel := S (length pmes)) (lo := 0)
    (hi := zlen pmes) as (k & Hk & Hk0 & Hb).
  - intros. eapply pagemaps_ends_sorted; eauto.
  - unfold zlen. lia.
  - lia.
  - unfold zlen. lia.
  - intros. lia.
  - intros j p Hj%lookup_lt_Some Hl. unfold zlen in Hl. lia.
  - exists k. split; [done|]. split; [by apply (ok_from_drop _ _ 0 0); [lia|]|].
    intros a Ha. eapply entry_at_drop; [exact Ha|by apply pagemaps_ok_Forall|].
    intros j p Hj Hjk. apply (Hb j p Hj). lia.
Qed.

(** ** The parent question *)
Lemma entry_at_from l : forall prev off a pe, 0 <= off -> pagemaps_ok_from prev off l ->
  entry_at l a = Some pe -> prev <= a.
Proof.
  induction l as [|p l IH]; intros prev off a pe Ho Hok H; [done|].
  destruct Hok as (Hp & Hv & _ & Hrest). simpl in H. destruct (pe_end_ok p Hp) as (_ & ? & _).
  destruct (Z.leb_spec (pe_vaddr p) a); [lia|]. simpl in H.
  apply (IH (entry_end p) (entry_stop p off)) in H; [lia| |done].
  pose proof (entry_stop_ge p off Hp Ho). lia.
Qed.

(** Below an entry and above it. *)
Lemma entry_at_cons pe l prev off a : 0 <= off -> pagemaps_ok_from prev off (pe :: l) ->
  (a < pe_vaddr pe -> entry_at (pe :: l) a = None) /\
  (pe_vaddr pe <= a < entry_end pe -> entry_at (pe :: l) a = Some pe) /\
  (entry_end pe <= a -> entry_at (pe :: l) a = entry_at l a) /\
  (a < entry_end pe -> entry_at l a = None).
Proof.
  intros Ho Hok. pose proof Hok as (Hp & _ & _ & Hrest).
  pose proof (entry_stop_ge pe off Hp Ho). destruct (pe_end_ok pe Hp) as (_ & ? & _).
  assert (Hl : a < entry_end pe -> entry_at l a = None).
  { intros Ha. destruct (entry_at l a) eqn:E; [|done].
    apply (entry_at_from _ (entry_end pe) (entry_stop pe off)) in E; [lia|lia|exact Hrest]. }
  simpl. destruct (Z.leb_spec (pe_vaddr pe) a); destruct (Z.ltb_spec a (entry_end pe)); simpl;
    split_and!; intros; (done || lia || auto with lia).
Qed.

Lemma overlap_page pe start stop : entry_ok pe -> valid_range start stop ->
  pe_vaddr pe < stop -> start < entry_end pe ->
  page_in start stop (Z.max start (pe_vaddr pe)) /\
  pe_vaddr pe <= Z.max start (pe_vaddr pe) < entry_end pe.
Proof.
  intros Hp (H1 & H2 & H3 & H4) Hv He. destruct (pe_end_ok pe Hp) as (_ & ? & ? & _).
  split; [split; [lia|]|lia]. destruct (Z.max_spec start (pe_vaddr pe)) as [[_ ->]|[_ ->]]; done.
Qed.

Lemma has_parent_loop_ok start stop l : valid_range start stop -> forall prev off,
  0 <= off -> pagemaps_ok_from prev off l ->
  let r := has_parent_loop start stop l in
  (r = 0 \/ r = 1) /\
  (r = 1 <-> exists a pe, page_in start stop a /\ entry_at l a = Some pe /\ pagemap_in_parent pe = true).
Proof.
  intros Hr. induction l as [|pe l IH]; intros prev off Ho Hok r.
  { split; [by left|]. split; [done|]. by intros (a & pe & _ & H & _). }
  pose proof (fun a => entry_at_cons pe l prev off a Ho Hok) as Hat.
  pose proof Hok as (Hp & _ & _ & Hrest). destruct (pe_end_ok pe Hp) as (Ee & ? & _).
  pose proof (entry_stop_ge pe off Hp Ho).
  unfold r. cbn [has_parent_loop]. rewrite Z.geb_leb, Z.gtb_ltb, Ee.
  destruct (Z.leb_spec stop (pe_vaddr pe)).
  { split; [by left|]. split; [done|]. intros (a & q & [Ha _] & Hq & _).
    destruct (Hat a) as (Hn & _). rewrite Hn in Hq; [done|lia]. }
  destruct (Z.ltb_spec start (entry_end pe)) as [Hs|]; cbn [andb].
  - destruct (pagemap_in_parent pe) eqn:Epar.
    + split; [by right|]. split; [intros _|done].
      destruct (overlap_page pe start stop Hp Hr ltac:(lia) Hs) as [Hin Hc].
      exists (Z.max start (pe_vaddr pe)), pe. split_and!; [done| |done]. by apply Hat.
    + destruct (IH (entry_end pe) (entry_stop pe off) ltac:(lia) Hrest) as [I1 I2]. split; [done|].
      rewrite I2. split; intros (a & q & Ha & Hq & Hpq); exists a, q; split_and!; try done.
      * destruct (Hat a) as (_ & _ & Hg & Hl). destruct (Z.lt_ge_cases a (entry_end pe)); [|by rewrite Hg].
        rewrite Hl in Hq by lia. done.
      * destruct (Hat a) as (Hn & Hc & Hg & _). destruct (Z.lt_ge_cases a (entry_end pe)); [|by rewrite <- Hg].
        destruct (Z.lt_ge_cases a (pe_vaddr pe)); [by rewrite Hn in Hq|]. rewrite Hc in Hq by lia. congruence.
  - destruct (IH (entry_end pe) (entry_stop pe off) ltac:(lia) Hrest) as [I1 I2]. split; [done|].
    rewrite I2. split; intros (a & q & [Ha Ham] & Hq & Hpq); exists a, q;
      (destruct (Hat a) as (_ & _ & Hg & _); rewrite Hg in * by lia); done.
Qed.

Lemma valid_range_not_invalid start stop : valid_range start stop -> invalid_range start stop = false.
Proof.
  intros (H1 & H2 & H3 & H4). unfold invalid_range. rewrite H3, H4, Z.geb_leb.
  by destruct (Z.leb_spec stop start); [lia|].
Qed.

(** [page_read_range_has_parent] is right: on an accepted pagemap and a
    valid range it returns 1 exactly when some page of the range lies in an
    entry inherited from the parent image, and 0 otherwise; the binary search
    ends within the number of entries and skips none of the range. *)
Theorem page_read_range_has_parent_correct pmes start stop :
  pagemaps_ok pmes -> valid_range start stop ->
  exists r, page_read_range_has_parent pmes start stop = Ret r /\ (r = 0 \/ r = 1) /\
    (r = 1 <-> exists a pe, page_in start stop a /\ entry_at pmes a = Some pe /\
       pagemap_in_parent pe = true).
Proof.
  intros Hok Hr. unfold page_read_range_has_parent. rewrite (valid_range_not_invalid _ _ Hr).
  destruct (first_after_start pmes start Hok) as (k & -> & (prev & off & Ho & Hd) & Hat). simpl.
  eexists; split; [done|].
  destruct (has_parent_loop_ok start stop (drop (Z.to_nat k) pmes) Hr prev off Ho Hd) as [H1 H2].
  split; [done|]. rewrite H2.
  split; intros (a & pe & [Ha Hm] & Hp & Hpe); exists a, pe; split_and!; try done;
    [rewrite <- Hat by lia|rewrite Hat by lia]; done.
Qed.

(** ** The LZ4 question *)
Definition decode_spec (own : Z -> page_owner) (start stop r : Z) : Prop :=
  (r = 0 /\ forall a, page_in start stop a -> own a <> Stored VMA_IO_ENCODED /\ own a <> NoParent) \/
  (r = 1 /\ exists a, page_in start stop a /\ own a = Stored VMA_IO_ENCODED) \/
  (r = -1 /\ exists a, page_in start stop a /\ own a = NoParent).

Lemma decode_spec_ext own own' start stop r :
  (forall a, page_in start stop a -> own a = own' a) ->
  decode_spec own start stop r -> decode_spec own' start stop r.
Proof.
  intros He [[-> H]|[[-> (a & Ha & H)]|[-> (a & Ha & H)]]].
  - left. split; [done|]. intros a Ha. rewrite <- He by done. by apply H.
  - right; left. split; [done|]. exists a. by rewrite <- He.
  - right; right. split; [done|]. exists a. by rewrite <- He.
Qed.

(** An answer for one part settles the range, unless it is 0. *)
Lemma decode_spec_part own start stop s e r :
  start <= s -> e <= stop -> decode_spec own s e r -> r <> 0 -> decode_spec own start stop r.
Proof.
  intros Hs He [[-> _]|[[-> (a & [Ha Hm] & H)]|[-> (a & [Ha Hm] & H)]]] Hr; [done|right; left|right; right];
    (split; [done|]; exists a; split; [split; [lia|done]|done]).
Qed.

Lemma scan_blocks_ok parallel pe b : entry_ok pe -> pe_blocks pe = Some b ->
  forall n os oe block zb zk s, 0 <= block -> block + Z.of_nat n <= n_block_sizes b ->
  match scan_blocks false n pe os oe (false && parallel) block zb zk s with
  | inl r => r = 1 /\ exists j, block <= j < block + Z.of_nat n /\ block_kind pe b j = VMA_IO_ENCODED
  | inr _ => forall j, block <= j < block + Z.of_nat n -> block_kind pe b j <> VMA_IO_ENCODED
  end.
Proof.
  intros Hok Eb. induction n as [|n IH]; intros os oe block zb zk s H0 Hn; simpl; [intros; lia|].
  rewrite (compressed_block_storage_ok pe b Hok Eb) by lia.
  destruct (bool_decide_reflect (block_kind pe b block = VMA_IO_ENCODED)) as [Hk|Hk].
  { split; [done|]. exists block. split; [lia|done]. }
  specialize (IH os oe (block + 1) 0 0 (DecodeScan (direct_runs s) (Some (block_kind pe b block))
    (pagemap_block_pages pe)) ltac:(lia) ltac:(lia)). simpl in IH.
  destruct (scan_blocks _ _ _ _ _ _ _ _ _ _) as [r|s'].
  - destruct IH as [-> (j & Hj & Hkj)]. split; [done|]. exists j. split; [lia|done].
  - intros j Hj. destruct (decide (j = block)) as [->|]; [done|]. apply IH. lia.
Qed.

(** The blocks scanned are those that hold a page of the overlap. *)
Lemma overlap_blocks ppb fp ep : 1 <= ppb -> 0 <= fp < ep -> ep < 2 ^ 63 -> ppb <= 2 ^ 32 ->
  let lb := block_nr_blocks ep ppb in
  fp / ppb < lb /\ (lb - 1) * ppb < ep <= lb * ppb /\
  forall j, fp / ppb <= j < lb <-> exists k, fp <= k < ep /\ k / ppb = j.
Proof.
  intros Hp Hf He Hm lb. assert (Hlb : (lb - 1) * ppb < ep <= lb * ppb).
  { apply (block_nr_blocks_spec ep ppb lb); [lia|lia|done]. }
  assert (Hk : forall k, fp <= k < ep -> fp / ppb <= k / ppb < lb).
  { intros k Hk. split; [apply Z.div_le_mono; lia|]. apply Z.div_lt_upper_bound; lia. }
  split; [by apply Hk; lia|]. split; [done|].
  intros j. split; [|by intros (k & Hkr & <-); apply Hk].
  intros Hj. exists (Z.max fp (j * ppb)).
  pose proof (Z.div_mod fp ppb ltac:(lia)). pose proof (Z.mod_pos_bound fp ppb ltac:(lia)).
  split; [nia|]. destruct (Z.max_spec fp (j * ppb)) as [[_ ->]|[? ->]]; [by rewrite Z.div_mul by lia|].
  apply Z.le_antisymm; [lia|]. apply Z.div_le_lower_bound; lia.
Qed.

Lemma pages_in_range start stop v a : v mod PAGE_SIZE = 0 -> start mod PAGE_SIZE = 0 ->
  stop mod PAGE_SIZE = 0 -> v <= start ->
  page_in start stop a <->
  exists k, a = v + k * PAGE_SIZE /\ (start - v) / PAGE_SIZE <= k < (stop - v) / PAGE_SIZE.
Proof.
  unfold page_in, PAGE_SIZE. intros Hv Hs He Hle.
  pose proof (Z.div_mod v 4096 ltac:(lia)) as Dv. pose proof (Z.div_mod start 4096 ltac:(lia)) as Ds.
  pose proof (Z.div_mod stop 4096 ltac:(lia)) as De. rewrite Hv in Dv. rewrite Hs in Ds. rewrite He in De.
  replace (start - v) with ((start / 4096 - v / 4096) * 4096) by lia.
  replace (stop - v) with ((stop / 4096 - v / 4096) * 4096) by lia.
  rewrite !Z.div_mul by lia. split.
  - intros [Ha Hm]. pose proof (Z.div_mod a 4096 ltac:(lia)) as Da. rewrite Hm in Da.
    exists (a / 4096 - v / 4096). lia.
  - intros (k & -> & Hk). split; [lia|]. rewrite Z.mod_add; lia.
Qed.

(** One entry of this reader. *)
Lemma scan_entry_ok parallel pe b start stop s : entry_ok pe -> pe_blocks pe = Some b ->
  valid_range start stop -> pe_vaddr pe < stop -> start < entry_end pe ->
  let os := Z.max start (pe_vaddr pe) in
  let oe := Z.min stop (entry_end pe) in
  match scan_entry parallel false pe b os oe s with
  | inl r => r = 1 /\ exists a, page_in os oe a /\ entry_storage pe a = VMA_IO_ENCODED
  | inr _ => forall a, page_in os oe a -> entry_storage pe a <> VMA_IO_ENCODED
  end.
Proof.
  intros Hok Eb (R1 & R2 & R3 & R4) Hv He os oe.
  destruct (pe_end_ok pe Hok) as (_ & E2 & E3 & E4 & E5 & E6).
  pose proof (ppb_range pe b Hok Eb) as Hp. pose proof (block_count_bounds pe b Hok Eb) as Hc.
  assert (Hos : os mod PAGE_SIZE = 0) by (unfold os; destruct (Z.max_spec start (pe_vaddr pe)) as [[_ ->]|[_ ->]]; done).
  assert (Hoe : oe mod PAGE_SIZE = 0) by (unfold oe; destruct (Z.min_spec stop (entry_end pe)) as [[_ ->]|[_ ->]]; done).
  assert (Hr : pe_vaddr pe <= os < oe /\ oe <= entry_end pe) by (unfold os, oe; lia).
  unfold scan_entry. rewrite (pagemap_block_pages_ok (pe_nr_pages pe) pe b Eb (entry_blocks_ok pe b Hok Eb)).
  rewrite !(u64_small (_ - pe_vaddr pe)) by lia.
  destruct (Z.eqb_spec (pages_per_block b) 0); [lia|]. cbn [negb andb].
  set (fp := (os - pe_vaddr pe) / PAGE_SIZE). set (ep := (oe - pe_vaddr pe) / PAGE_SIZE).
  assert (Hfe : 0 <= fp < ep /\ ep <= pe_nr_pages pe /\ ep < 2 ^ 53).
  { pose proof (proj1 (pages_in_range os oe (pe_vaddr pe) os E3 Hos Hoe ltac:(lia))
      ltac:(split; [lia|done])) as (k & _ & Hk). fold fp ep in Hk.
    assert (0 <= fp) by (apply Z.div_pos; unfold PAGE_SIZE; lia).
    assert (ep <= pe_nr_pages pe /\ ep < 2 ^ 53).
    { unfold ep, PAGE_SIZE, entry_end in *. split; [apply Z.div_le_upper_bound|apply Z.div_lt_upper_bound];
        unfold PAGE_SIZE in *; lia. }
    lia. }
  destruct (overlap_blocks (pages_per_block b) fp ep) as (L1 & L2 & L3); [lia..|].
  set (lb := block_nr_blocks ep (pages_per_block b)) in *.
  assert (0 <= fp / pages_per_block b) by (apply Z.div_pos; lia).
  rewrite Z.gtb_ltb. destruct (Z.ltb_spec (n_block_sizes b) lb); [nia|].
  assert (Hst : forall k, entry_storage pe (pe_vaddr pe + k * PAGE_SIZE) = block_kind pe b (k / pages_per_block b)).
  { intros k. unfold entry_storage. rewrite Eb, Z.add_simpl_l, Z.div_mul by done. done. }
  pose proof (scan_blocks_ok parallel pe b Hok Eb (Z.to_nat (lb - fp / pages_per_block b)) os oe
    (fp / pages_per_block b) 0 0) as Hs.
  match goal with |- match scan_blocks _ _ _ _ _ _ _ _ _ ?s' with _ => _ end =>
    specialize (Hs s' ltac:(lia) ltac:(lia)) end.
  rewrite Z2Nat.id, Zplus_minus in Hs by lia. simpl in Hs |- *.
  destruct (scan_blocks _ _ _ _ _ _ _ _ _ _) as [r|s'].
  - destruct Hs as [-> (j & Hj & Hk)]. split; [done|]. apply L3 in Hj as (k & Hkr & <-).
    exists (pe_vaddr pe + k * PAGE_SIZE). rewrite Hst. split; [|done].
    apply (pages_in_range os oe (pe_vaddr pe)); [done|done|done|lia|by exists k].
  - intros a Ha. apply (pages_in_range os oe (pe_vaddr pe)) in Ha as (k & -> & Hk); [|done|done|done|lia].
    rewrite Hst. apply Hs, L3. by exists k.
Qed.

(** The pages before an entry's end were asked already. *)
Lemma decode_spec_rest own own' start stop e r :
  (forall a, page_in start stop a -> a < e -> own a <> Stored VMA_IO_ENCODED /\ own a <> NoParent) ->
  (forall a, e <= a -> own a = own' a) ->
  (forall a, a < e -> own' a = NoEntry) ->
  decode_spec own' start stop r -> decode_spec own start stop r.
Proof.
  intros Hb Heq Hn [[-> H]|[[-> (a & Ha & H)]|[-> (a & Ha & H)]]].
  - left. split; [done|]. intros a Ha. destruct (Z.lt_ge_cases a e); [by apply Hb|].
    rewrite Heq by done. by apply H.
  - right; left. split; [done|]. exists a. split; [done|]. rewrite Heq; [done|].
    destruct (Z.lt_ge_cases a e); [|done]. by rewrite Hn in H.
  - right; right. split; [done|]. exists a. split; [done|]. rewrite Heq; [done|].
    destruct (Z.lt_ge_cases a e); [|done]. by rewrite Hn in H.
Qed.

Section ScanEntries.
Context (parallel : bool) (parents : list (list pagemap_entry)) (ask : option (Z -> Z -> outcome Z)).
Context (start stop : Z) (Hr : valid_range start stop).
Context (Hask : match ask with
  | None => parents = []
  | Some f => forall s e, valid_range s e -> exists r, f s e = Ret r /\ decode_spec (owner parents) s e r
  end).

(** Ownership around the first entry of a suffix. *)
Lemma owner_cons pe l prev off a : 0 <= off -> pagemaps_ok_from prev off (pe :: l) ->
  (a < pe_vaddr pe -> owner ((pe :: l) :: parents) a = NoEntry) /\
  (pe_vaddr pe <= a < entry_end pe -> owner ((pe :: l) :: parents) a =
     if pagemap_in_parent pe then owner parents a else Stored (entry_storage pe a)) /\
  (entry_end pe <= a -> owner ((pe :: l) :: parents) a = owner (l :: parents) a) /\
  (a < entry_end pe -> owner (l :: parents) a = NoEntry).
Proof.
  intros Ho Hok. destruct (entry_at_cons pe l prev off a Ho Hok) as (H1 & H2 & H3 & H4).
  cbn [owner]. split_and!; intros Ha; rewrite ?H1, ?H2, ?H3, ?H4 by done; done.
Qed.

Lemma overlap_range pe : entry_ok pe -> pe_vaddr pe < stop -> start < entry_end pe ->
  valid_range (Z.max start (pe_vaddr pe)) (Z.min stop (entry_end pe)).
Proof.
  intros Hp Hv He. destruct (pe_end_ok pe Hp) as (_ & ? & ? & ? & ? & ?). destruct Hr as (? & ? & ? & ?).
  split_and!; [lia..| |].
  - destruct (Z.max_spec start (pe_vaddr pe)) as [[_ ->]|[_ ->]]; done.
  - destruct (Z.min_spec stop (entry_end pe)) as [[_ ->]|[_ ->]]; done.
Qed.

Lemma scan_entries_ok l : forall prev off s, 0 <= off -> pagemaps_ok_from prev off l ->
  exists r, scan_entries parallel false ask start stop l s = Ret r /\
    decode_spec (owner (l :: parents)) start stop r.
Proof.
  induction l as [|pe l IH]; intros prev off s Ho Hok.
  { exists 0. split; [done|]. left. split; [done|]. intros a _. done. }
  pose proof (fun a => owner_cons pe l prev off a Ho Hok) as Hown.
  pose proof Hok as (Hp & _ & _ & Hrest). destruct (pe_end_ok pe Hp) as (Ee & E2 & _).
  pose proof (entry_stop_ge pe off Hp Ho) as Hstop.
  assert (Hnext : forall s', (forall a, page_in start stop a -> pe_vaddr pe <= a < entry_end pe ->
      owner ((pe :: l) :: parents) a <> Stored VMA_IO_ENCODED /\
      owner ((pe :: l) :: parents) a <> NoParent) ->
    exists r, scan_entries parallel false ask start stop l s' = Ret r /\
      decode_spec (owner ((pe :: l) :: parents)) start stop r).
  { intros s' Hin. destruct (IH (entry_end pe) (entry_stop pe off) s' ltac:(lia) Hrest) as (r & -> & Hd).
    exists r. split; [done|]. apply (decode_spec_rest _ (owner (l :: parents)) _ _ (entry_end pe)); [| | |done].
    - intros a Ha Hlt. destruct (Z.lt_ge_cases a (pe_vaddr pe)); [|by apply Hin].
      destruct (Hown a) as (-> & _); done.
    - intros a Ha. by apply Hown.
    - intros a Ha. by apply Hown. }
  cbn [scan_entries]. rewrite Z.geb_leb, Ee. destruct (Z.leb_spec stop (pe_vaddr pe)).
  { exists 0. split; [done|]. left. split; [done|]. intros a [Ha _]. by rewrite (proj1 (Hown a)) by lia. }
  destruct (Z.leb_spec (entry_end pe) start); [apply Hnext; intros a [Ha _]; lia|].
  pose proof (overlap_range pe Hp ltac:(lia) ltac:(lia)) as Hov.
  set (os := Z.max start (pe_vaddr pe)) in *. set (oe := Z.min stop (entry_end pe)) in *.
  assert (Hos : forall a, page_in os oe a <-> page_in start stop a /\ pe_vaddr pe <= a < entry_end pe)
    by (intros a; unfold page_in, os, oe;
        split; [intros [? ?]; split_and!|intros [[? ?] ?]; split]; (done || lia)).
  assert (Hcov : forall own r, (forall a, page_in os oe a -> owner ((pe :: l) :: parents) a = own a) ->
    decode_spec own os oe r -> r <> 0 -> decode_spec (owner ((pe :: l) :: parents)) start stop r).
  { intros own r Heq Hd. apply (decode_spec_part _ _ _ os oe); [lia|lia|].
    eapply decode_spec_ext; [|exact Hd]. intros a Ha. by rewrite Heq. }
  assert (Hin : forall a, page_in os oe a -> owner ((pe :: l) :: parents) a =
    if pagemap_in_parent pe then owner parents a else Stored (entry_storage pe a)).
  { intros a Ha. apply Hos in Ha as [_ Ha]. by apply Hown. }
  destruct (pagemap_in_parent pe) eqn:Epar.
  - destruct ask as [f|].
    + destruct (Hask os oe Hov) as (r & -> & Hd). cbn [obind]. destruct (Z.eqb_spec r 0) as [->|Hne]; simpl.
      * apply Hnext. intros a Ha Hpa. pose proof (proj2 (Hos a) (conj Ha Hpa)) as Hoa. rewrite Hin by done.
        destruct Hd as [[_ Hd]|[[Hd _]|[Hd _]]]; [by apply Hd|lia|lia].
      * exists r. split; [done|]. by apply (Hcov (owner parents)).
    + exists (-1). split; [done|]. apply (Hcov (owner parents)); [done| |lia]. right; right. split; [done|].
      exists os. split; [|by rewrite Hask]. split; [destruct Hov; lia|by destruct Hov as (_ & _ & ? & _)].
  - destruct (pe_blocks pe) as [b|] eqn:Eb.
    + pose proof (scan_entry_ok parallel pe b start stop s Hp Eb Hr ltac:(lia) ltac:(lia)) as Hse.
      simpl in Hse. fold os oe in Hse. destruct (scan_entry _ _ _ _ _ _ _) as [r|s'].
      * destruct Hse as [-> (a & Ha & Hk)]. exists 1. split; [done|].
        apply (Hcov (fun a => Stored (entry_storage pe a))); [done| |lia].
        right; left. split; [done|]. exists a. by rewrite Hk.
      * apply Hnext. intros a Ha Hpa. pose proof (proj2 (Hos a) (conj Ha Hpa)) as Hoa. rewrite Hin by done.
        split; [|done]. intros [= E]. by apply (Hse a).
    + apply Hnext. intros a Ha Hpa. pose proof (proj2 (Hos a) (conj Ha Hpa)) as Hoa. rewrite Hin by done.
      unfold entry_storage. rewrite Eb. done.
Qed.
End ScanEntries.

Lemma needs_decode_ok parallel chain : Forall pagemaps_ok chain -> chain <> [] ->
  forall start stop, valid_range start stop ->
  exists r, page_read_range_needs_decode parallel false chain start stop = Ret r /\
    decode_spec (owner chain) start stop r.
Proof.
  induction chain as [|pmes parents IH]; intros Hok Hne start stop Hr; [done|].
  apply Forall_cons_1 in Hok as [Hpm Hok]. cbn [page_read_range_needs_decode].
  rewrite (valid_range_not_invalid _ _ Hr).
  destruct (first_after_start pmes start Hpm) as (k & -> & (prev & off & Ho & Hd) & Hat). cbn [obind].
  destruct (scan_entries_ok parallel parents
    (match parents with [] => None | _ => Some (page_read_range_needs_decode parallel false parents) end)
    start stop Hr) with (l := drop (Z.to_nat k) pmes) (prev := prev) (off := off)
      (s := DecodeScan 0 None 0) as (r & -> & Hs); [|done|done|].
  { destruct parents as [|q parents]; [done|]. intros s e Hse. by apply IH. }
  exists r. split; [done|]. eapply decode_spec_ext; [|exact Hs].
  intros a [Ha _]. cbn [owner]. by rewrite Hat by lia.
Qed.

(** [page_read_range_has_lz4] is right for a reader with all its parents:
    on accepted pagemaps and a valid range it returns 1 only when some page of
    the range is stored as an LZ4 block in the reader that owns it, -1 only
    when a page is left to a parent that does not exist, and 0 exactly when
    there is no page of either kind, so that the restorer can read the range
    without decoding. *)
Theorem page_read_range_has_lz4_correct parallel chain start stop :
  Forall pagemaps_ok chain -> chain <> [] -> valid_range start stop ->
  exists r, page_read_range_has_lz4 parallel chain start stop = Ret r /\
    ((r = 0 /\ forall a, page_in start stop a ->
                owner chain a <> Stored VMA_IO_ENCODED /\ owner chain a <> NoParent) \/
     (r = 1 /\ exists a, page_in start stop a /\ owner chain a = Stored VMA_IO_ENCODED) \/
     (r = -1 /\ exists a, page_in start stop a /\ owner chain a = NoParent)).
Proof. intros Hok Hne Hr. by apply needs_decode_ok. Qed.

(** The queries return on every accepted chain. *)
Lemma scan_entries_returns par mix ask start stop l : (forall f, ask = Some f -> forall a b, exists r, f a b = Ret r) ->
  forall s, exists r, scan_entries par mix ask start stop l s = Ret r.
Proof.
  intros Hask. induction l as [|pe l IH]; intros s; [by eexists|]. cbn [scan_entries]. destruct (_ >=? _); [by eexists|].
  destruct (_ <=? _); [apply IH|]. destruct (pagemap_in_parent pe).
  - destruct ask as [f|]; [|by eexists]. destruct (Hask f eq_refl (Z.max start (pe_vaddr pe)) (Z.min stop (pe_end pe))) as [r ->]. cbn [obind].
    destruct (negb _); [by eexists|apply IH].
  - destruct (pe_blocks pe) as [b|]; [|apply IH]. destruct (scan_entry _ _ _ _ _ _ _); [by eexists|apply IH].
Qed.

Lemma needs_decode_returns par mix chain : Forall pagemaps_ok chain -> forall start stop,
  exists r, page_read_range_needs_decode par mix chain start stop = Ret r.
Proof.
  induction chain as [|pmes parents IH]; intros Hok start stop; [by eexists|]. apply Forall_cons_1 in Hok as [Hpm Hok].
  cbn [page_read_range_needs_decode]. destruct (invalid_range _ _); [by eexists|].
  destruct (first_after_start pmes start Hpm) as (k & -> & _). cbn [obind]. apply scan_entries_returns.
  intros f Hf a b. destruct parents as [|q parents]; [done|]. injection Hf as <-. by apply IH.
Qed.

Lemma scan_blocks_nonzero mix n pe os oe pz : forall block zb zk s r, scan_blocks mix n pe os oe pz block zb zk s = inl r -> r <> 0.
Proof.
  induction n as [|n IH]; intros block zb zk s r Es; [done|]. cbn [scan_blocks] in Es.
  destruct (compressed_block_storage pe block) as [[st bp]|]; [|by injection Es as <-]. destruct (bool_decide _); [by injection Es as <-|].
  destruct (_ && (_ >? 1) && _); [by injection Es as <-|]. destruct (_ && (_ >? DIRECT_COMPRESSED_RUN_MAX)); [by injection Es as <-|]. by eapply IH.
Qed.

(** Without a parent, the answer 0 rules out entries that are left to one. *)
Lemma scan_entries_alone par mix start stop l : forall prev off s, 0 <= off -> pagemaps_ok_from prev off l ->
  scan_entries par mix None start stop l s = Ret 0 ->
  forall pe, pe ∈ l -> pe_vaddr pe < stop -> start < entry_end pe -> pagemap_in_parent pe = false.
Proof.
  induction l as [|q l IH]; intros prev off s Ho Hok H pe Hpe Hv He; [by apply elem_of_nil in Hpe|].
  pose proof Hok as (Hq & _ & _ & Hrest). destruct (pe_end_ok q Hq) as (Eq & _). pose proof (entry_stop_ge q off Hq Ho).
  assert (Hnext : forall s', scan_entries par mix None start stop l s' = Ret 0 -> pe <> q -> pagemap_in_parent pe = false).
  { intros s' H' Hne. apply elem_of_cons in Hpe as [->|Hpe]; [done|]. eapply (IH (entry_end q) (entry_stop q off) s'); eauto. lia. }
  cbn [scan_entries] in H. rewrite Z.geb_leb, Eq in H. destruct (Z.leb_spec stop (pe_vaddr q)) as [Hst|Hst].
  { exfalso. apply elem_of_cons in Hpe as [->|Hpe]; [lia|]. apply list_elem_of_lookup in Hpe as [i Hi].
    pose proof (ok_from_order (q :: l) prev off 0 (S i) q pe Ho Hok eq_refl Hi ltac:(lia)). destruct (pe_end_ok q Hq) as (_ & ? & _). lia. }
  destruct (Z.leb_spec (entry_end q) start); [apply (Hnext s H); congruence || (intros ->; lia)|].
  destruct (pagemap_in_parent q) eqn:Epar; [done|]. destruct (decide (pe_vaddr pe = pe_vaddr q)) as [Ev|Ev].
  { apply elem_of_cons in Hpe as [->|Hpe]; [done|]. apply list_elem_of_lookup in Hpe as [i Hi].
    pose proof (ok_from_order (q :: l) prev off 0 (S i) q pe Ho Hok eq_refl Hi ltac:(lia)). destruct (pe_end_ok q Hq) as (_ & ? & _). lia. }
  destruct (pe_blocks q) as [b|]; [|eapply Hnext; [exact H|congruence]].
  destruct (scan_entry _ _ _ _ _ _ _) as [r|s'] eqn:Es; [|eapply Hnext; [exact H|congruence]].
  injection H as ->. exfalso. unfold scan_entry in Es. destruct (_ >? n_block_sizes b); [done|]. by apply scan_blocks_nonzero in Es.
Qed.

Lemma entry_at_lookup l i pe a : pagemaps_ok l -> l !! i = Some pe -> pe_vaddr pe <= a < entry_end pe -> entry_at l a = Some pe.
Proof.
  intros Hok Hi Hin. revert i Hi. unfold pagemaps_ok in Hok.
  revert Hok. generalize 0 at 1 as prev. assert (H00 : 0 <= 0) by lia. revert H00. generalize 0 at 2 3 as off.
  induction l as [|q l IH]; intros off Ho prev Hok i Hi; [done|]. destruct (entry_at_cons q l prev off a Ho Hok) as (_ & E2 & E3 & _).
  destruct i as [|i]; simpl in Hi; [injection Hi as ->; by apply E2|]. pose proof Hok as (Hq & _ & _ & Hrest).
  pose proof (ok_from_order (q :: l) prev off 0 (S i) q pe Ho Hok eq_refl Hi ltac:(lia)). rewrite E3 by lia.
  eapply IH; [|exact Hrest|exact Hi]. pose proof (entry_stop_ge q off Hq Ho). lia.
Qed.

Lemma range_has_no_parent pmes start stop : pagemaps_ok pmes -> valid_range start stop -> page_read_range_has_parent pmes start stop = Ret 0 ->
  forall pe, pe ∈ pmes -> pe_vaddr pe < stop -> start < entry_end pe -> pagemap_in_parent pe = false.
Proof.
  intros Hok Hr H pe Hpe Hv He. destruct (page_read_range_has_parent_correct pmes start stop Hok Hr) as (r & E & _ & H1).
  rewrite E in H. injection H as ->. destruct (pagemap_in_parent pe) eqn:Epar; [|done]. exfalso. assert (0 = 1); [|done]. apply H1.
  apply list_elem_of_lookup in Hpe as [i Hi]. destruct (pagemaps_ok_lookup _ _ _ Hok Hi) as [Hq _].
  destruct (overlap_page pe start stop Hq Hr Hv He) as [Hin Hc]. exists (Z.max start (pe_vaddr pe)), pe. split; [done|]. split; [|done].
  by apply (entry_at_lookup pmes i).
Qed.

Lemma needs_decode_alone par mix pmes start stop : pagemaps_ok pmes -> page_read_range_needs_decode par mix [pmes] start stop = Ret 0 ->
  forall pe, pe ∈ pmes -> pe_vaddr pe < stop -> start < entry_end pe -> pagemap_in_parent pe = false.
Proof.
  intros Hok H pe Hpe Hv He. cbn [page_read_range_needs_decode] in H. destruct (invalid_range start stop); [done|].
  destruct (first_after_start pmes start Hok) as (k & E & (prev & off & Ho & Hd) & Hat). rewrite E in H. cbn [obind] in H.
  apply (scan_entries_alone par mix start stop (drop (Z.to_nat k) pmes) prev off _ Ho Hd H); [|done|done].
  apply list_elem_of_lookup in Hpe as [i Hi]. destruct (pagemaps_ok_lookup _ _ _ Hok Hi) as [Hq _].
  destruct (pe_end_ok pe Hq) as (_ & ? & _). set (a := Z.max start (pe_vaddr pe)).
  assert (Ha : entry_at pmes a = Some pe).
  { apply (entry_at_lookup pmes i); [done|done|unfold a; lia]. }
  rewrite <- (Hat a) in Ha by (unfold a; lia). revert Ha. generalize (drop (Z.to_nat k) pmes). intros l.
  induction l as [|q l IH]; [done|]. simpl. destruct (_ && _); [intros [= ->]; apply list_elem_of_here|]. intros Ha. by apply list_elem_of_further, IH.
Qed.

(** ** Examples *)
Lemma page_read_range_has_parent_correct_witness :
  exists r, page_read_range_has_parent (init_compat_pagemap_entry <$> sample_es) 0xc000 0x19000 = Ret r /\ r = 1.
Proof.
  destruct (page_read_range_has_parent_correct (init_compat_pagemap_entry <$> sample_es) 0xc000 0x19000)
    as (r & H1 & _ & _).
  - exact sample_ok.
  - split_and!; (lia || reflexivity).
  - exists r. split; [exact H1|]. vm_compute in H1. by injection H1 as <-.
Defined.

(** A parent image with one two-page LZ4 block. *)
Definition sample_parent_es : list pagemap_entry :=
  [PagemapEntry 0x18000 2 false false true PE_PRESENT true 2 (Some (PagemapBlocks [300] 300 2))].

Lemma sample_parent_es_ok : pagemaps_ok sample_parent_es.
Proof.
  unfold pagemaps_ok, sample_parent_es; simpl. unfold entry_ok, entry_stop, entry_end; simpl.
  unfold PAGE_SIZE. split_and!; try done; try (vm_compute; done).
  intros b [= <-]; split; [done|]; unfold blocks_ok, n_block_sizes; simpl;
    rewrite MAX_BLOCK_PAGES_eq; unfold block_pages_at, PAGE_SIZE, zlen; simpl; lia.
Qed.

(** The inherited pages at 0x18000 are compressed in the parent. *)
Lemma page_read_range_has_lz4_correct_witness :
  exists r, page_read_range_has_lz4 false [init_compat_pagemap_entry <$> sample_es; sample_parent_es]
    0x18000 0x1a000 = Ret r /\ r = 1.
Proof.
  destruct (page_read_range_has_lz4_correct false
    [init_compat_pagemap_entry <$> sample_es; sample_parent_es] 0x18000 0x1a000) as (r & H1 & _).
  - apply Forall_cons_2; [exact sample_ok|]. apply Forall_cons_2; [exact sample_parent_es_ok|apply Forall_nil_2].
  - done.
  - split_and!; (lia || reflexivity).
  - exists r. split; [exact H1|]. vm_compute in H1. by injection H1 as <-.
Defined.
