(* ===== verification/ReadOps.v ===== *)
(** The page reader as its clients see it.

    The restore of private memory (criu/mem.c) and of shared segments
    (criu/shmem.c) walk the pagemap of a reader with [advance] and ask for pages
    through the function pointers of [struct page_read]: [read_pages], which
    may put the pages in place at once or queue them, and [sync], which waits
    for what is queued.  This file states the interface, the class [PageOps]
    with its laws [PageOpsOk], and what a walk over a pagemap visits. *)
From S2P Require Import Prelude PagemapImage PageRead Dedup AsyncQueue ProcessReads ReadPages ChainRead.

(** ** Memory by pages *)

(** The page at each page address. *)
Definition memory := Z -> list Z.

Definition set_page (m : memory) (w : Z * list Z) : memory := fun a => if a =? w.1 then w.2 else m a.
Definition set_pages (m : memory) (ws : list (Z * list Z)) : memory := fold_left set_page ws m.

(** The pages a write of the reader stores. *)
Definition write_pages (w : write) : list (Z * list Z) :=
  (fun j => (w.1 + j * PAGE_SIZE, take (Z.to_nat PAGE_SIZE) (drop (Z.to_nat (j * PAGE_SIZE)) w.2))) <$>
    seqZ 0 (zlen w.2 / PAGE_SIZE).
Definition all_pages (ws : list write) : list (Z * list Z) := concat (write_pages <$> ws).
Definition store (m : memory) (ws : list write) : memory := set_pages m (all_pages ws).

Lemma set_pages_app m ws1 ws2 : set_pages m (ws1 ++ ws2) = set_pages (set_pages m ws1) ws2.
Proof. apply fold_left_app. Qed.

Lemma set_pages_out ws : forall m a, a ∉ ws.*1 -> set_pages m ws a = m a.
Proof.
  induction ws as [|[d b] ws IH]; intros m a Ha; [done|]. rewrite fmap_cons, not_elem_of_cons in Ha. destruct Ha as [Hd Ha].
  change (set_pages (set_page m (d, b)) ws a = m a). rewrite IH by done. unfold set_page. cbn [fst].
  by destruct (Z.eqb_spec a d).
Qed.

Lemma set_pages_in ws : forall m a b, NoDup ws.*1 -> (a, b) ∈ ws -> set_pages m ws a = b.
Proof.
  induction ws as [|[d x] ws IH]; intros m a b Hnd Hin; [by apply elem_of_nil in Hin|].
  rewrite fmap_cons in Hnd. apply NoDup_cons in Hnd as [Hd Hnd]. change (set_pages (set_page m (d, x)) ws a = b).
  apply elem_of_cons in Hin as [[= -> ->]|Hin]; [|by apply IH]. rewrite set_pages_out by done. unfold set_page. cbn [fst snd].
  by rewrite Z.eqb_refl.
Qed.

(** The order does not matter for distinct places. *)
Lemma set_pages_perm m ws ws' a : NoDup ws.*1 -> ws ≡ₚ ws' -> set_pages m ws a = set_pages m ws' a.
Proof.
  intros Hnd Hp. assert (Hnd' : NoDup ws'.*1) by (by rewrite <- Hp).
  destruct (decide (a ∈ ws.*1)) as [Hin|Hout].
  - apply list_elem_of_fmap in Hin as ([d b] & -> & Hin). cbn [fst]. rewrite (set_pages_in ws m d b) by done. symmetry.
    apply set_pages_in; [done|]. by rewrite <- Hp.
  - rewrite !set_pages_out; [done|by rewrite <- Hp|done].
Qed.

(** [set_pages] respects pointwise equality. *)
Lemma set_pages_ext ws : forall m m', (forall a, m a = m' a) -> forall a, set_pages m ws a = set_pages m' ws a.
Proof.
  induction ws as [|w ws IH]; intros m m' H a; [apply H|]. change (set_pages (set_page m w) ws a = set_pages (set_page m' w) ws a).
  apply IH. intros b. unfold set_page. by rewrite H.
Qed.

(** ** The interface *)

(** [read_pages chain e va nr buf]: the pages [va, va + nr * PAGE_SIZE) into the
    memory at [buf], with PR_ASYNC; [None] is an error.  [sync_pages chain e]: 0
    or an error.  Both tell what they have stored. *)
Class PageOps := {
  read_pages : list page_read -> env -> Z -> Z -> Z -> outcome (option (list write) * list page_read * env);
  sync_pages : list page_read -> env -> outcome (Z * list write * list page_read * env)
}.

(** What a request asks for: the pages [c] says, each at its place. *)
Definition asked (c : Z -> list Z) (va nr buf : Z) : list (Z * list Z) :=
  (fun j => (buf + j * PAGE_SIZE, c (va + j * PAGE_SIZE))) <$> seqZ 0 nr.

(** [ops_inv chain owed]: the readers are in order, and [owed] is queued.
    [ops_safe chain]: the queues can be drained, which is left after an error.
    [ops_has a]: the images hold the page at [a], with contents [c a].
    [ops_ok e]: nothing fails from here on. *)
Class PageOpsOk (O : PageOps) (c : Z -> list Z) := {
  ops_has : Z -> Prop;
  ops_inv : list page_read -> list (Z * list Z) -> Prop;
  ops_safe : list page_read -> Prop;
  ops_ok : env -> Prop;
  ops_ok_env e : ops_ok e -> env_ok e;
  ops_inv_safe chain owed : ops_inv chain owed -> ops_safe chain;
  ops_reader chain owed : ops_inv chain owed ->
    NoDup owed.*1 /\ exists pr parents, chain = pr :: parents /\ pagemaps_ok (pmes pr) /\ cursor_ok pr /\ Forall (fun q => pagemaps_ok (pmes q)) parents;
  ops_reset chain : ops_inv chain [] -> ops_inv (reset_pagemap chain) [];
  ops_page a : ops_has a -> zlen (c a) = PAGE_SIZE;
  ops_move pr pr' parents owed : ops_inv (pr :: parents) owed -> same_store pr pr' -> cursor_ok pr' -> cvaddr pr <= cvaddr pr' ->
    ops_inv (pr' :: parents) owed;
  ops_read pr parents owed e i pe k nr buf : ops_inv (pr :: parents) owed -> at_entry pr i pe k -> curr_pme pr = Z.of_nat i ->
    0 < nr -> k + nr <= pe_nr_pages pe -> 0 <= buf -> buf mod PAGE_SIZE = 0 -> buf + nr * PAGE_SIZE < 2 ^ 64 ->
    (forall j, 0 <= j < nr -> ops_has (cvaddr pr + j * PAGE_SIZE)) ->
    (forall a, a ∈ (asked c (cvaddr pr) nr buf).*1 -> a ∉ owed.*1) ->
    exists r chain' e', read_pages (pr :: parents) e (cvaddr pr) nr buf = Ret (r, chain', e') /\ ops_safe chain' /\
      (ops_ok e -> r <> None /\ ops_ok e') /\
      (forall ws, r = Some ws -> exists pr' parents' owed', chain' = pr' :: parents' /\ ops_inv chain' owed' /\
        at_entry pr' i pe (k + nr) /\ curr_pme pr' = Z.of_nat i /\ pmes pr' = pmes pr /\
        owed'.*1 ⊆ owed.*1 ++ (asked c (cvaddr pr) nr buf).*1 /\
        forall m a, set_pages (store m ws) owed' a = set_pages (set_pages m owed) (asked c (cvaddr pr) nr buf) a);
  ops_sync chain e : ops_safe chain ->
    exists r ws chain' e', sync_pages chain e = Ret (r, ws, chain', e') /\ Forall idle chain' /\ ops_safe chain' /\
      (ops_ok e -> r = 0 /\ ops_ok e') /\
      forall owed pr parents, ops_inv chain owed -> chain = pr :: parents -> r = 0 ->
        exists pr' parents', chain' = pr' :: parents' /\ ops_inv chain' [] /\ pmes pr' = pmes pr /\ curr_pme pr' = curr_pme pr /\
          (forall i pe k, at_entry pr i pe k -> at_entry pr' i pe k) /\
          forall m a, store m ws a = set_pages m owed a
}.

Lemma ops_ok_allocs `{PageOpsOk} e : ops_ok e -> allocs e = [] /\ ops_ok (env_set_allocs [] e).
Proof.
  intros He. pose proof (ops_ok_env e He) as [[= Ha _ _] _]. split; [done|]. by replace (env_set_allocs [] e) with e by (destruct e; cbn in *; by subst).
Qed.

(** [close_page_read]: a job left behind is a bug; the pending bunch is given
    back, whether fallocate() works or not. *)
Fixpoint close_page_read (chain : list page_read) (e : env) : outcome env :=
  match chain with
  | [] => Ret e
  | pr :: parents =>
      match async pr with
      | _ :: _ => Bug
      | [] =>
          let e := if iov_len (bunch pr) >? 0 then env_set_fallocs (ds_fallocs (snd (punch_flush (DedupState (bunch pr) (fallocs e) [])))) e else e in
          close_page_read parents e
      end
  end.

Lemma close_idle chain : forall e, Forall idle chain -> exists e', close_page_read chain e = Ret e'.
Proof.
  induction chain as [|pr chain IH]; intros e H; [by eexists|]. apply Forall_cons_1 in H as [Hi H]. cbn [close_page_read].
  rewrite Hi. by apply IH.
Qed.

(** ** Walking over a pagemap *)

(** The next [advance] moves to entry [j]: the entries before it are consumed. *)
Inductive visiting (pr : page_read) : nat -> Prop :=
| visit_start : pr_pe pr = None -> curr_pme pr = -1 -> cvaddr pr = 0 -> pos_of pr = (0, 0, 0) -> visiting pr 0
| visit_after i pe : at_entry pr i pe (pe_nr_pages pe) -> curr_pme pr = Z.of_nat i -> visiting pr (S i).

Lemma visiting_reset pr : visiting (reset_one pr) 0.
Proof. by apply visit_start. Qed.

Lemma visiting_advance pr j pe : pagemaps_ok (pmes pr) -> visiting pr j -> pmes pr !! j = Some pe ->
  exists pr', advance pr = (1, pr') /\ at_entry pr' j pe 0 /\ curr_pme pr' = Z.of_nat j /\ same_store pr pr' /\
    cursor_ok pr' /\ cvaddr pr <= cvaddr pr'.
Proof.
  intros Hok Hv Hj. destruct (advance_next pr j pe Hok) as (pr' & E & Hat & Hc & Hs); try done.
  - destruct Hv as [_ -> _ _|i q Hq ->]; lia.
  - destruct Hv as [_ _ _ [= -> _ _]|i q Hq Hc]; [done|]. destruct Hq as [Hl _ _ _ Hp].
    destruct (pagemaps_ok_lookup _ _ _ Hok Hl) as (Hq & _ & _ & _ & Hend). rewrite Hend, <- (entry_pos_full q _ Hq), <- Hp. done.
  - exists pr'. split_and!; try done; [by apply (cursor_at _ j pe 0)|]. destruct Hat as [_ _ _ -> _].
    destruct (pagemaps_ok_lookup _ _ _ Hok Hj) as ((_ & _ & _ & ? & _) & _).
    destruct Hv as [_ _ -> _|i q Hq Hci]; [lia|]. destruct Hq as [Hl _ _ -> _].
    pose proof (ok_from_order _ 0 0 i (S i) q pe ltac:(lia) Hok Hl Hj ltac:(lia)). unfold entry_end in *. lia.
Qed.

Lemma visiting_end pr : visiting pr (length (pmes pr)) ->
  exists pr', advance pr = (0, pr') /\ same_store pr pr' /\ cursor_ok pr' /\ cvaddr pr' = cvaddr pr.
Proof.
  intros Hv. exists (set_curr_pme (curr_pme pr + 1) pr). inversion Hv as [H1 H2 H3 H4 H5|i pe Hat Hc H5].
  - assert (Hnil : pmes pr = []) by (by apply nil_length_inv). rewrite advance_last by (rewrite H2, Hnil; done).
    split_and!; try done. apply cursor_reset; try done. right. split; [done|]. simpl. lia.
  - rewrite advance_last by (unfold zlen; lia). split_and!; try done. apply (cursor_done _ i pe); try done; [by destruct Hat|].
    simpl. unfold zlen. lia.
Qed.

Lemma visiting_range pr j : visiting pr j -> (j <= length (pmes pr))%nat.
Proof. intros [_ _ _ _|i pe [Hl _ _ _ _] _]; [lia|]. apply lookup_lt_Some in Hl. lia. Qed.

(** A walk that does not consume the payloads: the position in the pages image stays 0. *)
Record walking (pr : page_read) (l : list pagemap_entry) (j : nat) : Prop := Walking {
  wk_pmes : pmes pr = l;
  wk_off : pi_off pr = 0;
  wk_next : curr_pme pr + 1 = Z.of_nat j
}.

Lemma walk_next pr l j pe : walking pr l j -> l !! j = Some pe ->
  exists pr', advance pr = (1, pr') /\ pr_pe pr' = Some pe /\ walking pr' l (S j).
Proof.
  intros [W1 W2 W3] L. unfold advance. cbn [curr_pme set_curr_pme pmes pi_off]. rewrite W1, W2, W3, Z.geb_leb, zlookup_of_nat, L.
  pose proof (lookup_lt_Some _ _ _ L). destruct (Z.leb_spec (zlen l) (Z.of_nat j)); [unfold zlen in *; lia|].
  destruct (pagemap_present pe && pagemap_payload_aligned pe); eexists; (split; [reflexivity|]); (split; [done|]);
    (split; [done|reflexivity|cbn; lia]).
Qed.

Lemma walk_end pr l : walking pr l (length l) -> exists pr', advance pr = (0, pr') /\ pmes pr' = l.
Proof. intros [W1 W2 W3]. rewrite advance_last by (rewrite W1; unfold zlen; lia). eexists. split; [done|]. by destruct pr. Qed.

(** ** Queueing pages of the current entry *)

(** The request does not cut a compressed block. *)
Definition whole_blocks (pe : pagemap_entry) (k nr : Z) : Prop := forall b, pe_blocks pe = Some b ->
  k mod pages_per_block b = 0 /\ (nr mod pages_per_block b = 0 \/ k + nr = pe_nr_pages pe).

(** The transfers: each page of the buffer from where the image has the page. *)
Definition page_tasks (l : list pagemap_entry) (i : nat) (pe : pagemap_entry) (k nr buf : Z) : list (Z * page_src) :=
  zip (iov_pages (Iovec buf (nr * PAGE_SIZE))) (entry_src l i pe <$> seqZ k nr).

Lemma whole_blocks_range pe b k nr : entry_ok pe -> pe_blocks pe = Some b -> whole_blocks pe k nr -> 0 <= k -> 0 < nr -> k + nr <= pe_nr_pages pe ->
  exists i ie, 0 <= i < ie /\ ie <= n_block_sizes b /\ pages_before pe b i = k /\ pages_before pe b ie = k + nr.
Proof.
  intros Hok Eb Hw Hk Hn Hle. destruct (Hw b Eb) as [M1 M2]. pose proof (ppb_range pe b Hok Eb) as Hp. pose proof (block_count_bounds pe b Hok Eb) as Hc.
  pose proof (Z.div_mod k (pages_per_block b) ltac:(lia)) as D. rewrite M1, Z.add_0_r in D. unfold pages_before.
  exists (k / pages_per_block b). destruct (decide (k + nr = pe_nr_pages pe)) as [E|E].
  - exists (n_block_sizes b). assert (0 <= k / pages_per_block b) by (apply Z.div_pos; lia). split_and!; try lia; nia.
  - destruct M2 as [M2|?]; [|lia]. pose proof (Z.div_mod nr (pages_per_block b) ltac:(lia)) as D2. rewrite M2, Z.add_0_r in D2.
    exists (k / pages_per_block b + nr / pages_per_block b). assert (0 <= k / pages_per_block b) by (apply Z.div_pos; lia). split_and!; try lia; nia.
Qed.

Lemma enqueue_entry par asy al pr i pe k nr buf q : pagemaps_ok (pmes pr) -> entry_typed pe -> at_entry pr i pe k -> pagemap_present pe = true ->
  0 < nr -> k + nr <= pe_nr_pages pe -> whole_blocks pe k nr -> 0 <= buf -> buf + nr * PAGE_SIZE < 2 ^ 64 -> Forall piov_ok q ->
  exists ret q' al', pagemap_enqueue_iovec par asy al pr buf (nr * PAGE_SIZE) q = Ret (ret, q', al') /\
    (al = [] -> ret = 0 /\ al' = []) /\ (ret = 0 -> enqueued q (page_tasks (pmes pr) i pe k nr buf) q').
Proof.
  intros Hok Hty [Hl Hpe Hk Hcv Hpos] Hpr Hn Hle Hw Hb0 Hb1 Hq. destruct (pagemaps_ok_lookup _ _ _ Hok Hl) as (He & _ & Hst & Hmax & _).
  unfold page_tasks, entry_src. pose proof (entry_payload_range pe He) as Hpay. unfold entry_payload in *. rewrite Hpr in *.
  destruct (pe_blocks pe) as [b|] eqn:Eb.
  - destruct (whole_blocks_range pe b k nr He Eb Hw ltac:(lia) Hn Hle) as (i0 & ie & I1 & I2 & I3 & I4).
    replace nr with (pages_before pe b ie - pages_before pe b i0) by lia.
    destruct (pagemap_enqueue_iovec_blocks par asy al pe b (payload_start (pmes pr) i) pr i0 ie buf q) as (ret & q' & al' & E & A1 & A2); try done.
    + by rewrite I3.
    + replace (pages_before pe b ie - pages_before pe b i0) with nr by lia. done.
    + exists ret, q', al'. split; [done|]. split; [done|]. intros H. specialize (A2 H). unfold entry_tasks in A2. by rewrite I3 in A2 |- *.
  - assert (Hoff : pi_off pr = payload_start (pmes pr) i + k * PAGE_SIZE) by (unfold pos_of, entry_pos in Hpos; rewrite Hpr, Eb in Hpos; by injection Hpos).
    assert (Hd : nr * PAGE_SIZE / PAGE_SIZE = nr) by (by apply Z.div_mul). assert (Hm : (nr * PAGE_SIZE) mod PAGE_SIZE = 0) by (by apply Z.mod_mul).
    assert (Hiov : iov_ok (Iovec buf (nr * PAGE_SIZE))) by (split_and!; cbn [iov_base iov_len]; (done || unfold PAGE_SIZE in *; lia)).
    assert (Hrq : AsyncQueue.request_ok pr buf (nr * PAGE_SIZE) VMA_IO_UNCOMPRESSED).
    { split; [done| | |done]; unfold PAGE_SIZE in *; [lia|]. intros _. lia. }
    assert (Hacc : request_accepted pr buf (nr * PAGE_SIZE) VMA_IO_UNCOMPRESSED) by (split; [done|]; split; [by rewrite Hpe|done]).
    unfold pagemap_enqueue_iovec. rewrite Hm, Hpe, Eb. destruct (Z.eqb_spec (nr * PAGE_SIZE) 0); [unfold PAGE_SIZE in *; lia|]. cbn [orb negb Z.eqb].
    destruct (pagemap_enqueue_iovec_one al pr buf (nr * PAGE_SIZE) q VMA_IO_UNCOMPRESSED) as [[ret q'] al'] eqn:E. exists ret, q', al'. split; [done|]. split.
    + intros ->. destruct (pagemap_enqueue_iovec_one_accepts pr buf (nr * PAGE_SIZE) q VMA_IO_UNCOMPRESSED Hacc) as [q2 E2]. rewrite E2 in E. by injection E as <- _ <-.
    + intros ->. apply pagemap_enqueue_iovec_one_ok in E; [|done|done]. unfold request_srcs, is_uncompressed in E. rewrite bool_decide_eq_true_2, Hd in E by done.
      replace ((λ k0 : Z, SRaw (payload_start (pmes pr) i + k0 * PAGE_SIZE)) <$> seqZ k nr) with (raw_srcs (pi_off pr) nr); [done|].
      unfold raw_srcs. rewrite Hoff. replace (seqZ k nr) with (Z.add k <$> seqZ 0 nr) by (rewrite fmap_add_seqZ; f_equal; lia). rewrite <- list_fmap_compose. apply list_fmap_ext. intros ? x _. simpl. f_equal. lia.
Qed.

(** The pages of a pagemap, ascending. *)
Definition pages_of (l : list pagemap_entry) : list Z := concat ((fun pe => page_addrs (pe_vaddr pe) (pe_nr_pages pe)) <$> l).

Lemma pages_of_snoc l j pe : l !! j = Some pe -> pages_of (take (S j) l) = pages_of (take j l) ++ page_addrs (pe_vaddr pe) (pe_nr_pages pe).
Proof. intros H. unfold pages_of. rewrite (take_S_r _ _ _ H), fmap_app, concat_app. simpl. by rewrite app_nil_r. Qed.

Lemma elem_page_addrs v va nr : v ∈ page_addrs va nr <-> exists j, 0 <= j < nr /\ v = va + j * PAGE_SIZE.
Proof.
  unfold page_addrs. rewrite list_elem_of_fmap. split; intros (j & A & B).
  - apply elem_of_seqZ in B. exists j. split; [lia|done].
  - exists j. split; [done|]. apply elem_of_seqZ. lia.
Qed.

Lemma pages_of_below l j pe a : pagemaps_ok l -> l !! j = Some pe -> a ∈ pages_of (take j l) -> a < pe_vaddr pe.
Proof.
  intros Hok Hj Ha. unfold pages_of in Ha. apply elem_of_concat in Ha as (x & Hx & Ha).
  apply list_elem_of_fmap in Hx as (q & -> & Hq). apply list_elem_of_lookup in Hq as (i & Hi). apply lookup_take_Some in Hi as [Hi Hlt].
  apply elem_page_addrs in Ha as (k & Hk & ->). pose proof (ok_from_order _ 0 0 i j q pe ltac:(lia) Hok Hi Hj Hlt).
  unfold entry_end, PAGE_SIZE in *. lia.
Qed.

Lemma elem_pages_of l j pe a : l !! j = Some pe -> a ∈ page_addrs (pe_vaddr pe) (pe_nr_pages pe) -> a ∈ pages_of l.
Proof.
  intros Hj Ha. unfold pages_of. apply elem_of_concat. exists (page_addrs (pe_vaddr pe) (pe_nr_pages pe)). split; [|done].
  apply list_elem_of_fmap. exists pe. split; [done|]. by eapply list_elem_of_lookup_2.
Qed.

Lemma page_addrs_nodup va nr : NoDup (page_addrs va nr).
Proof. apply NoDup_fmap_2; [|apply NoDup_seqZ]. intros x y. unfold PAGE_SIZE. lia. Qed.

Lemma pages_of_nodup l : pagemaps_ok l -> NoDup (pages_of l).
Proof.
  intros Hok. rewrite <- (firstn_all l). generalize (length l) as n. induction n as [|n IH]; [constructor|].
  destruct (l !! n) as [pe|] eqn:Hn; [|apply lookup_ge_None in Hn; rewrite take_ge by lia; rewrite take_ge in IH by lia; done].
  rewrite (pages_of_snoc _ _ _ Hn). apply NoDup_app. split; [done|]. split; [|apply page_addrs_nodup]. intros a Ha Hb.
  pose proof (pages_of_below _ _ _ _ Hok Hn Ha). apply elem_page_addrs in Hb as (k & Hk & ->). unfold PAGE_SIZE in *. lia.
Qed.
