(* ===== verification/AsyncRead.v ===== *)
(** The readers of a chain of snapshots as the restore uses them: requests with
    PR_ASYNC queue their transfers on the reader whose image holds the page
    ([read_pagemap_page], [pagemap_enqueue_iovec] of criu/pagemap.c), or, when a
    request cuts a compressed block, drain the queues and read at once; [sync]
    is [process_async_reads].  Whatever is served at once, is drained on the
    way or stays in a queue, together it is what was asked for: the chain
    implements the interface of [ReadOps].

    Reads are without auto-dedup. *)
From S2P Require Import Prelude PagemapImage PageRead Dedup AsyncQueue ProcessReads ReadPages ChainRead ReadOps.

(** ** Draining the queues *)

(** What draining changes in a reader. *)
Definition drained_frame (pr pr' : page_read) : Prop := exists bn, pr' = set_bunch bn (set_async [] pr).

Lemma drain_frame chain : Forall2 drained_frame chain (drain_async_queue chain).
Proof. induction chain as [|pr chain IH]; constructor; [|done]. exists (bunch pr). by destruct pr. Qed.

(** No job is lost from sight: every queue holds jobs in order. *)
Definition queues_ok (chain : list page_read) : Prop := Forall (fun pr => Forall piov_ok (async pr)) chain.

Lemma drained_idle chain chain' : Forall2 drained_frame chain chain' -> Forall idle chain' /\ queues_ok chain'.
Proof.
  induction 1 as [|pr pr' chain chain' [bn ->] _ [I1 I2]]; [by split; constructor|]. split; [by apply Forall_cons_2|]. apply Forall_cons_2; [apply Forall_nil_2|done].
Qed.

Section Drain.
Context (preadv : nat -> Z -> Z -> Z) (decode : nat -> page_read_iov -> bool) (partial auto_dedup : bool).

Lemma process_frame chain : forall depth fa r ev chain' fa',
  process_async_reads_ctx preadv decode partial auto_dedup depth chain fa = Ret (r, ev, chain', fa') -> Forall2 drained_frame chain chain'.
Proof.
  induction chain as [|pr chain IH]; intros depth fa r ev chain' fa' H; [by injection H as <- <- <- <-|]. cbn [process_async_reads_ctx] in H.
  destruct (process_queue _ _ _ _ _ _ _) as [[[r1 ev1] d1]| |]; try done. cbn [obind] in H. destruct (negb (r1 =? 0)).
  { injection H as _ _ <- _. constructor; [exists (ds_bunch d1); by destruct pr|apply drain_frame]. }
  destruct (process_async_reads_ctx _ _ _ _ (S depth) chain (ds_fallocs d1)) as [[[[r2 ev2] chain2] fa2]| |] eqn:E; try done. cbn [obind] in H.
  apply IH in E. destruct (negb (r2 =? 0)).
  { injection H as _ _ <- _. constructor; [exists (ds_bunch d1); by destruct pr|done]. }
  destruct (punch_flush _) as [r3 d3]. injection H as _ _ <- _. constructor; [exists (ds_bunch d3); by destruct pr|done].
Qed.
End Drain.

(** ** The bytes of the transfers *)

Lemma page_bytes l : Forall iov_ok l -> forall j a x, concat (iov_pages <$> l) !! j = Some a -> 0 <= x < PAGE_SIZE ->
  vec_bytes l !! (Z.to_nat (Z.of_nat j * PAGE_SIZE + x)) = Some (a + x).
Proof.
  induction l as [|iov l IH]; intros Hok j a x Hj Hx; [done|]. apply Forall_cons_1 in Hok as [Hi Hl]. pose proof Hi as (I1 & I2 & I3 & I4).
  pose proof (Z.div_mod (iov_len iov) PAGE_SIZE ltac:(done)) as D. rewrite I3, Z.add_0_r in D.
  pose proof (length_iov_pages iov ltac:(lia)) as Hlen. unfold vec_bytes in *. rewrite fmap_cons in *. cbn [concat] in *.
  assert (Hb : Z.of_nat (length (iov_bytes iov)) = iov_len iov) by (unfold iov_bytes; rewrite length_seqZ; lia).
  destruct (decide (j < length (iov_pages iov))%nat) as [Hlt|Hge].
  - rewrite lookup_app_l in Hj by done. rewrite lookup_app_l by (unfold PAGE_SIZE in *; lia).
    unfold iov_pages in Hj. apply list_lookup_fmap_Some in Hj as (k & -> & Hk). apply lookup_seqZ in Hk as [-> Hk].
    unfold iov_bytes. apply lookup_seqZ. unfold PAGE_SIZE in *. lia.
  - rewrite lookup_app_r in Hj by lia. rewrite lookup_app_r by (unfold PAGE_SIZE in *; lia).
    rewrite <- (IH Hl _ _ x Hj Hx). f_equal. unfold PAGE_SIZE in *. lia.
Qed.

(** A raw job that was carried out has put every byte of its pages in place: the
    transfers of pages stand for the transfers of the log. *)
Lemma job_page_bytes p log a off x : piov_ok p -> pi_storage p = VMA_IO_UNCOMPRESSED -> job_done p (EvRead log) -> (a, SRaw off) ∈ job_tasks p -> 0 <= x < PAGE_SIZE ->
  (a + x, off + x) ∈ log_bytes log.
Proof.
  intros Hp Hs Hd Ht Hx. unfold job_done in Hd. rewrite Hs in Hd. destruct Hd as (log' & [= <-] & ->).
  destruct (po_raw _ Hp Hs) as (_ & _ & He). pose proof (po_n _ Hp) as Hn. apply list_elem_of_lookup in Ht as [j Hj]. unfold job_tasks, job_srcs in Hj. rewrite Hs in Hj.
  apply lookup_zip_with_Some in Hj as (a' & s' & [= <- <-] & Ha & Hsrc). unfold raw_srcs in Hsrc. apply list_lookup_fmap_Some in Hsrc as (k & [= ->] & Hk).
  apply lookup_seqZ in Hk as [-> Hk]. pose proof (page_bytes _ (po_iovs _ Hp) j a x Ha Hx) as Hb.
  apply list_elem_of_lookup. exists (Z.to_nat (Z.of_nat j * PAGE_SIZE + x)). apply lookup_zip_with_Some. eexists _, _. split; [done|]. split; [done|].
  apply lookup_seqZ. rewrite He. unfold PAGE_SIZE in *. lia.
Qed.

(** ** Pages written and asked for *)
Lemma write_one_page a x : zlen x = PAGE_SIZE -> write_pages (a, x) = [(a, x)].
Proof.
  intros H. unfold write_pages. cbn [fst snd]. rewrite H. change (PAGE_SIZE / PAGE_SIZE) with 1. change (seqZ 0 1) with [0]. cbn [fmap list_fmap]. rewrite Z.mul_0_l, Z.add_0_r, drop_0, take_ge; [done|].
  unfold zlen, PAGE_SIZE in *. lia.
Qed.

Lemma all_pages_app w1 w2 : all_pages (w1 ++ w2) = all_pages w1 ++ all_pages w2.
Proof. unfold all_pages. by rewrite fmap_app, concat_app. Qed.

Lemma all_pages_single l : Forall (fun t => zlen t.2 = PAGE_SIZE) l -> all_pages l = l.
Proof.
  induction 1 as [|[a x] l Hx _ IH]; [done|]. unfold all_pages in *. rewrite fmap_cons. cbn [concat]. rewrite IH. by rewrite write_one_page.
Qed.

(** One write of consecutive pages. *)
Lemma all_pages_request (c : Z -> list Z) va nr buf : 0 <= nr -> (forall j, 0 <= j < nr -> zlen (c (va + j * PAGE_SIZE)) = PAGE_SIZE) ->
  all_pages [(buf, concat (c <$> page_addrs va nr))] = asked c va nr buf.
Proof.
  intros Hn Hc. pose proof (length_page_contents c va nr Hc Hn) as Hl. unfold all_pages, write_pages. simpl. rewrite app_nil_r, Hl, Z.div_mul by done.
  unfold asked. apply list_eq. intros m. rewrite !list_lookup_fmap. destruct (seqZ 0 nr !! m) as [j|] eqn:E; [|done]. cbn. apply lookup_seqZ in E as [-> E]. rewrite Z.add_0_l in *.
  do 2 f_equal. replace nr with (Z.of_nat m + (1 + (nr - Z.of_nat m - 1))) by lia. rewrite !page_addrs_app, !fmap_app, !concat_app by lia.
  rewrite drop_app_length'; [|apply Nat2Z.inj; change (Z.of_nat (length ?l)) with (zlen l); rewrite length_page_contents; [unfold PAGE_SIZE; lia|intros; apply Hc; lia|lia]].
  change (page_addrs (va + Z.of_nat m * PAGE_SIZE) 1) with [va + Z.of_nat m * PAGE_SIZE + 0 * PAGE_SIZE]. rewrite Z.mul_0_l, Z.add_0_r. cbn [fmap list_fmap concat].
  rewrite app_nil_r. apply take_app_length'. pose proof (Hc (Z.of_nat m) ltac:(lia)) as H. unfold zlen, PAGE_SIZE in *. lia.
Qed.

Lemma asked_app (c : Z -> list Z) va n m buf : 0 <= n -> 0 <= m -> asked c va (n + m) buf = asked c va n buf ++ asked c (va + n * PAGE_SIZE) m (buf + n * PAGE_SIZE).
Proof.
  intros Hn Hm. unfold asked. rewrite seqZ_app, fmap_app by done. f_equal. rewrite Z.add_0_l. rewrite <- (Z.add_0_r n) at 1. rewrite <- fmap_add_seqZ, <- list_fmap_compose.
  apply list_fmap_ext. intros ? j _. simpl. f_equal; [|f_equal]; lia.
Qed.

Section AsyncRead.
Context (lz4 : list Z -> Z -> option (list Z)) (parallel : bool) (files0 : list (list Z)).
Context (preadv : nat -> Z -> Z -> Z) (decode : nat -> page_read_iov -> bool) (partial ctx_ok : bool).
Context (Hpreadv : forall depth off n, preadv depth off n <= n).

#[local] Instance chain_sync : Sync := queue_sync lz4 files0 preadv decode partial false ctx_ok.

(** Nothing fails. *)
Definition fine (e : env) : Prop := env_ok e /\ io_works preadv decode /\ ctx_ok = true.

Lemma fine_rawfd e ok e' : env_rawfd e = (ok, e') -> fine e -> ok = true /\ fine e'.
Proof. intros E (He & H). destruct (env_rawfd_ok _ _ _ E He). done. Qed.

(** [files] are the images of the last readers of the chain. *)
Definition of_chain (files : list (list Z)) : Prop := drop (length files0 - length files) files0 = files.

Lemma of_chain_tail file files : of_chain (file :: files) -> of_chain files.
Proof.
  unfold of_chain. intros H. pose proof (f_equal length H) as Hl. rewrite length_drop in Hl. cbn [length] in *.
  replace (length files0 - length files)%nat with (length files0 - S (length files) + 1)%nat by lia. rewrite <- drop_drop, H. done.
Qed.

Lemma sync_ok chain e : queues_ok chain ->
  exists r ws chain' e', sync chain e = Ret (r, ws, chain', e') /\ Forall2 drained_frame chain chain' /\
    (fine e -> r = 0 /\ fine e') /\ (r = 0 -> forall files, of_chain files -> length files = length chain -> ws = chain_owed lz4 files chain).
Proof.
  intros Hq. unfold sync, chain_sync, queue_sync, process_async_reads. cbn [negb].
  destruct (page_read_chain_has_encoded_async chain && negb ctx_ok) eqn:Ec.
  { cbn [obind Z.eqb]. eexists _, _, _, _. split; [done|]. split; [apply drain_frame|]. split; [|done]. intros (_ & _ & ->). by rewrite andb_false_r in Ec. }
  destruct (process_ctx_ok preadv decode partial false Hpreadv chain 0 (fallocs e) Hq) as (r & ev & chain' & fa' & E & _ & _ & _ & _ & Hw).
  rewrite E. cbn [obind]. eexists _, _, _, _. split; [done|]. split; [by eapply process_frame|]. split.
  - intros ([[= Ha Hfa Hr] Hp] & Hio & Hc). destruct (Hw Hio Hfa) as [-> ->]. split; [done|]. split; [|done]. unfold env_ok, env_rest. cbn. by rewrite Ha, Hr.
  - intros -> files Hf Hl. cbn [Z.eqb]. rewrite <- Hl. by rewrite Hf.
Qed.

(** ** Readers with queues *)
Definition resolves (file : list Z) (t : Z * page_src) : Prop := exists x, src_bytes lz4 file t.2 = Some x /\ zlen x = PAGE_SIZE.

Record queued_ok (file : list Z) (pr : page_read) : Prop := QueuedOk {
  qo_pmes : pagemaps_ok (pmes pr);
  qo_typed : Forall entry_typed (pmes pr);
  qo_cursor : cursor_ok pr;
  qo_cache : cache_ok lz4 file pr;
  qo_jobs : Forall piov_ok (async pr);
  qo_srcs : Forall (resolves file) (queue_tasks (async pr))
}.
Abbreviation chain_ok := (Forall2 queued_ok).

Lemma chain_queues files chain : chain_ok files chain -> queues_ok chain.
Proof. induction 1 as [|file pr files chain [] _ IH]; [apply Forall_nil_2|by apply Forall_cons_2]. Qed.

Lemma owed_pages files chain : chain_ok files chain -> Forall (fun t => zlen t.2 = PAGE_SIZE) (chain_owed lz4 files chain).
Proof.
  induction 1 as [|file pr files chain Hq _ IH]; [apply Forall_nil_2|]. unfold chain_owed in *. cbn [zip_with concat]. apply Forall_app. split; [|done].
  apply Forall_fmap. eapply Forall_impl; [exact (qo_srcs _ _ Hq)|]. intros [a s] (x & E & Hx). cbn in *. by rewrite E.
Qed.

(** Fields that a position in the pagemap does not depend on. *)
Lemma cursor_frame pr pr' : pmes pr' = pmes pr -> pr_pe pr' = pr_pe pr -> cvaddr pr' = cvaddr pr -> curr_pme pr' = curr_pme pr -> pos_of pr' = pos_of pr -> cursor_ok pr -> cursor_ok pr'.
Proof.
  intros E1 E2 E3 E4 E5 H. assert (Hat : forall i pe k, at_entry pr i pe k -> at_entry pr' i pe k).
  { intros i pe k [A1 A2 A3 A4 A5]. split; rewrite ?E1, ?E2, ?E3, ?E5; done. }
  destruct H as [A B C D|i pe k Ha Hc|i pe Ha Hl Hc].
  - apply cursor_reset; rewrite ?E1, ?E2, ?E3, ?E4, ?E5; done.
  - apply (cursor_at _ i pe k); [by apply Hat|congruence].
  - apply (cursor_done _ i pe); [by apply Hat|congruence..].
Qed.

Lemma drained_ok file pr pr' : drained_frame pr pr' -> queued_ok file pr -> queued_ok file pr'.
Proof. intros [bn ->] [Q1 Q2 Q3 Q4 Q5 Q6]. split; try done; by apply (cursor_frame pr). Qed.

Lemma drained_chain files chain chain' : Forall2 drained_frame chain chain' -> chain_ok files chain ->
  chain_ok files chain' /\ pmes <$> chain' = pmes <$> chain /\ cvaddr <$> chain' = cvaddr <$> chain /\ chain_owed lz4 files chain' = [].
Proof.
  intros H Hc. split_and!.
  - revert files Hc. induction H as [|pr pr' chain chain' Hd _ IH]; intros files Hc; inversion Hc; subst; constructor; [by eapply drained_ok|by apply IH].
  - clear Hc. induction H as [|? ? ? ? [bn ->] _ IH]; [done|]. rewrite !fmap_cons. by rewrite IH.
  - clear Hc. induction H as [|? ? ? ? [bn ->] _ IH]; [done|]. rewrite !fmap_cons. by rewrite IH.
  - apply chain_owed_idle. by eapply drained_idle.
Qed.

(** ** The reader's own image *)
Context (c : Z -> list Z).

(** The reader has served [nr] pages, at once or by its queue; what is left is to
    move its address. *)
Record aserved (file : list Z) (pr pr' : page_read) (i : nat) (pe : pagemap_entry) (k nr : Z) : Prop := AServed {
  as_ok : queued_ok file (set_cvaddr (u64 (cvaddr pr' + u64 (nr * PAGE_SIZE))) pr');
  as_at : at_entry (set_cvaddr (u64 (cvaddr pr' + u64 (nr * PAGE_SIZE))) pr') i pe (k + nr);
  as_curr : curr_pme pr' = Z.of_nat i;
  as_pmes : pmes pr' = pmes pr;
  as_cvaddr : u64 (cvaddr pr' + u64 (nr * PAGE_SIZE)) = cvaddr pr + nr * PAGE_SIZE
}.

Lemma aserved_intro file pr pr' i pe k nr : queued_ok file pr -> at_entry pr i pe k -> curr_pme pr = Z.of_nat i -> 0 <= nr -> k + nr <= pe_nr_pages pe ->
  pmes pr' = pmes pr -> pr_pe pr' = pr_pe pr -> cvaddr pr' = cvaddr pr -> curr_pme pr' = curr_pme pr -> cache_ok lz4 file pr' ->
  Forall piov_ok (async pr') -> Forall (resolves file) (queue_tasks (async pr')) -> pos_of pr' = entry_pos pe (payload_start (pmes pr) i) (k + nr) ->
  aserved file pr pr' i pe k nr.
Proof.
  intros [Q1 Q2 Q3 Q4 Q5 Q6] [A1 A2 A3 A4 A5] Hc Hn Hle E1 E2 E3 E4 E5 E6 E7 E8.
  destruct (pagemaps_ok_lookup _ i pe Q1 A1) as ((_ & _ & _ & Hv & _ & He & _) & _). unfold entry_end in He.
  assert (Hcv : u64 (cvaddr pr' + u64 (nr * PAGE_SIZE)) = cvaddr pr + nr * PAGE_SIZE).
  { rewrite E3, A4. unfold PAGE_SIZE in *. rewrite (u64_small (nr * _)), u64_small by lia. done. }
  assert (Hat : at_entry (set_cvaddr (u64 (cvaddr pr' + u64 (nr * PAGE_SIZE))) pr') i pe (k + nr)).
  { split; simpl; [by rewrite E1|by rewrite E2|lia| |by rewrite E1]. rewrite Hcv, A4. lia. }
  split; [|done|congruence|done|done]. split; simpl; rewrite ?E1; try done. apply (cursor_at _ i pe (k + nr)); [done|]. simpl. congruence.
Qed.

Section Local.
Context (file : list Z) (files : list (list Z)) (pr : page_read) (parents : list page_read) (i : nat) (pe : pagemap_entry) (k nr buf : Z).
Context (Hch : chain_ok (file :: files) (pr :: parents)) (Hof : of_chain (file :: files)) (Hat : at_entry pr i pe k) (Hcur : curr_pme pr = Z.of_nat i).
Context (Hpres : pagemap_present pe = true) (Hnr : 0 < nr) (Hle : k + nr <= pe_nr_pages pe) (Hbuf : 0 <= buf /\ buf + nr * PAGE_SIZE < 2 ^ 64).
Context (Hsrc : forall j, 0 <= j < nr -> src_bytes lz4 file (entry_src (pmes pr) i pe (k + j)) = Some (c (cvaddr pr + j * PAGE_SIZE))).

Definition local_post (e : env) (out : result) : Prop := exists r chain' e', out = Ret (r, chain', e') /\ queues_ok chain' /\ (fine e -> r <> None /\ fine e') /\
  forall ws, r = Some ws -> exists pr' parents', chain' = pr' :: parents' /\ aserved file pr pr' i pe k nr /\ chain_ok files parents' /\
    pmes <$> parents' = pmes <$> parents /\ cvaddr <$> parents' = cvaddr <$> parents /\
    all_pages ws ++ chain_owed lz4 (file :: files) chain' ≡ₚ chain_owed lz4 (file :: files) (pr :: parents) ++ asked c (cvaddr pr) nr buf.

Lemma head_ok : queued_ok file pr /\ chain_ok files parents /\ entry_ok pe /\ entry_typed pe.
Proof.
  inversion Hch as [|? ? ? ? Hq Hqs]; subst. split; [done|]. split; [done|]. destruct Hat as [A1 _ _ _ _]. destruct Hq as [Q1 Q2 _ _ _ _].
  destruct (pagemaps_ok_lookup _ i pe Q1 A1) as (He & _). split; [done|]. by apply (Forall_lookup_1 _ _ _ _ Q2 A1).
Qed.

Lemma page_size_ok j : 0 <= j < nr -> zlen (c (cvaddr pr + j * PAGE_SIZE)) = PAGE_SIZE.
Proof.
  intros Hj. destruct head_ok as (Hq & _). destruct Hat as [A1 _ A3 _ _]. apply (entry_src_length lz4 file (pmes pr) i pe (k + j)); [apply Hq|done|lia|by apply Hsrc].
Qed.

Lemma new_tasks : (resolve lz4 file <$> page_tasks (pmes pr) i pe k nr buf) = asked c (cvaddr pr) nr buf /\ Forall (resolves file) (page_tasks (pmes pr) i pe k nr buf).
Proof.
  assert (Hlk : forall m t, page_tasks (pmes pr) i pe k nr buf !! m = Some t -> (m < Z.to_nat nr)%nat /\ t = (buf + Z.of_nat m * PAGE_SIZE, entry_src (pmes pr) i pe (k + Z.of_nat m))).
  { intros m t Hm. unfold page_tasks, iov_pages in Hm. apply lookup_zip_with_Some in Hm as (a & s & -> & Ha & Hs). apply list_lookup_fmap_Some in Ha as (x & -> & Hx). apply lookup_seqZ in Hx as [-> Hx].
    apply list_lookup_fmap_Some in Hs as (y & -> & Hy). apply lookup_seqZ in Hy as [-> Hy]. cbn [iov_base iov_len] in *. split; [lia|]. by rewrite Z.add_0_l. }
  assert (Hlen : length (page_tasks (pmes pr) i pe k nr buf) = Z.to_nat nr).
  { unfold page_tasks, iov_pages. rewrite length_zip_with, !length_fmap, !length_seqZ. cbn [iov_len]. rewrite Z.div_mul by done. lia. }
  split.
  - apply list_eq. intros m. rewrite list_lookup_fmap. destruct (page_tasks _ _ _ _ _ _ !! m) as [t|] eqn:Em.
    + destruct (Hlk m t Em) as [Hm ->]. unfold asked. rewrite list_lookup_fmap. rewrite (proj2 (lookup_seqZ 0 nr m (Z.of_nat m))) by lia. cbn. unfold resolve. cbn [fst snd].
      rewrite Hsrc by lia. done.
    + apply lookup_ge_None in Em. symmetry. apply lookup_ge_None. unfold asked. rewrite length_fmap, length_seqZ. lia.
  - apply Forall_lookup_2. intros m t Hm. destruct (Hlk m t Hm) as [Hlt ->]. eexists. cbn [snd]. split; [apply Hsrc; lia|]. apply page_size_ok. lia.
Qed.

(** The transfers are queued. *)
Lemma enqueue_own_ok e : whole_blocks pe k nr ->
  exists r q al, enqueue_own parallel (pr :: parents) e buf (nr * PAGE_SIZE) = Ret (r, set_async q pr :: parents, env_set_allocs al e) /\ Forall piov_ok q /\
    (fine e -> r = Some [] /\ fine (env_set_allocs al e)) /\ (r = None \/ r = Some []) /\
    (r <> None -> queue_tasks q = queue_tasks (async pr) ++ page_tasks (pmes pr) i pe k nr buf).
Proof.
  intros Hw. destruct head_ok as ([Q1 Q2 Q3 Q4 Q5 Q6] & _ & He & Hty). unfold enqueue_own.
  destruct (enqueue_entry parallel true (allocs e) pr i pe k nr buf (async pr) Q1 Hty Hat Hpres Hnr Hle Hw (proj1 Hbuf) (proj2 Hbuf) Q5) as (ret & q & al & E & A1 & A2).
  destruct (pagemap_enqueue_iovec_failed parallel true (allocs e) pr buf (nr * PAGE_SIZE) (async pr) Q5) as (ret' & q' & al' & E' & B); [unfold PAGE_SIZE in *; lia|by rewrite (ae_pe _ _ _ _ Hat)|].
  rewrite E in E'. injection E' as <- <- <-. rewrite E. cbn [obind]. exists (if ret =? 0 then Some [] else None), q, al. split; [done|]. split.
  - destruct (Z.eqb_spec ret 0) as [Hr|Hr]; [by destruct (A2 Hr)|by destruct (B Hr)].
  - split; [|split; [destruct (ret =? 0); by auto|]].
    + intros (Hev & H). pose proof Hev as [[= Ha Hf Hrf] Hp]. destruct (A1 Ha) as [-> ->]. split; [done|]. split; [|done]. unfold env_ok, env_rest. cbn. by rewrite Hf, Hrf.
    + destruct (Z.eqb_spec ret 0) as [Hr|Hr]; [|done]. intros _. by destruct (A2 Hr).
Qed.

(** The queue after that, wherever the position is moved. *)
Lemma queued_post q pr' : queue_tasks q = queue_tasks (async pr) ++ page_tasks (pmes pr) i pe k nr buf -> Forall piov_ok q -> async pr' = q ->
  pmes pr' = pmes pr -> pr_pe pr' = pr_pe pr -> cvaddr pr' = cvaddr pr -> curr_pme pr' = curr_pme pr -> cache_of pr' = cache_of pr ->
  pos_of pr' = entry_pos pe (payload_start (pmes pr) i) (k + nr) ->
  aserved file pr pr' i pe k nr /\ all_pages [] ++ chain_owed lz4 (file :: files) (pr' :: parents) ≡ₚ chain_owed lz4 (file :: files) (pr :: parents) ++ asked c (cvaddr pr) nr buf.
Proof.
  intros Ht Hq Ea E1 E2 E3 E4 E5 E6. destruct head_ok as (Hqo & _). destruct new_tasks as [T1 T2]. split.
  - apply aserved_intro; try done; try lia; rewrite ?Ea; [|done|].
    + apply (cache_ok_frame lz4 file pr); [done|done|apply Hqo].
    + rewrite Ht. apply Forall_app. split; [apply Hqo|done].
  - unfold chain_owed. cbn [zip_with concat]. rewrite Ea, Ht, fmap_app, T1. cbn [all_pages fmap list_fmap concat app]. rewrite <- !app_assoc. by rewrite (Permutation_app_comm (asked _ _ _ _)).
Qed.

Lemma raw_async_ok e flags : pe_blocks pe = None -> is_async flags = true -> local_post e (maybe_read_page_local parallel false file (pr :: parents) e nr buf flags).
Proof.
  intros Eb Hfl. destruct head_ok as (Hq & Hqs & He & _). pose proof Hat as [A1 A2 A3 A4 A5]. destruct (pagemaps_ok_lookup _ i pe (qo_pmes _ _ Hq) A1) as (_ & _ & Hst & Hmax & _).
  pose proof He as (_ & _ & _ & Hv & _ & Hend & _). unfold entry_end in Hend. unfold entry_payload in Hmax. rewrite Hpres, Eb in Hmax. unfold OFF_MAX in Hmax.
  unfold maybe_read_page_local. rewrite Hfl, (u64_small (nr * PAGE_SIZE)) by (unfold PAGE_SIZE in *; lia).
  destruct (enqueue_own_ok e) as (r & q & al & -> & Hqk & Hfi & Hr & Ht); [intros b Hb; congruence|]. cbn [obind move_pi_off].
  eexists _, _, _. split; [done|]. split; [apply Forall_cons_2; [done|by apply (chain_queues files)]|]. split; [intros Hf; destruct (Hfi Hf) as [-> ?]; done|].
  intros ws ->. destruct Hr as [|[= ->]]; [done|]. eexists _, _. split; [done|]. rewrite (entry_pos_raw pe _ _ Hpres Eb) in A5. unfold pos_of in A5. injection A5 as Hpi Hbi Hbo.
  destruct (queued_post q (set_pi_off (s64 (pi_off (set_async q pr) + nr * PAGE_SIZE)) (set_async q pr))) as [P1 P2]; try done; [by apply Ht|].
  rewrite (entry_pos_raw pe _ _ Hpres Eb). unfold pos_of. simpl. rewrite Hpi, Hbi, Hbo. rewrite s64_small by (unfold PAGE_SIZE in *; lia). do 2 f_equal. lia.
Qed.

(** Requests that keep blocks whole. *)
Lemma can_async_whole b : pe_blocks pe = Some b -> can_async pe pr nr = true -> whole_blocks pe k nr.
Proof.
  intros Eb Hc b' Eb'. rewrite Eb in Eb'. injection Eb' as <-. destruct head_ok as (_ & _ & He & _). pose proof Hat as [A1 A2 A3 A4 A5].
  pose proof (entry_blocks_ok pe b He Eb) as Hb. pose proof (ppb_range pe b He Eb) as Hp. pose proof (block_count_bounds pe b He Eb) as Hbc.
  unfold can_async in Hc. rewrite (pagemap_block_pages_ok _ pe b Eb Hb) in Hc. apply andb_true_iff in Hc as [H1 H2]. apply Z.eqb_eq in H1.
  unfold pos_of, entry_pos in A5. rewrite Hpres, Eb in A5. injection A5 as _ Hbi Hbo. rewrite Hbo in H1. unfold offset_of_page in H1. unfold block_of_page in Hbi.
  destruct (Z.eqb_spec k (pe_nr_pages pe)); [lia|]. split; [done|]. pose proof (Z.div_mod k (pages_per_block b) ltac:(lia)) as D. rewrite H1, Z.add_0_r in D.
  apply orb_true_iff in H2 as [H2|H2]; apply Z.eqb_eq in H2; [by left|right]. rewrite Hbi in H2. destruct He as (_ & _ & _ & Hv & _ & Hend & _). unfold entry_end, PAGE_SIZE in Hend.
  rewrite (u64_small (_ * _)) in H2 by nia. rewrite u64_small in H2 by nia. nia.
Qed.

Lemma skip_whole b pr' : pe_blocks pe = Some b -> whole_blocks pe k nr -> pr_pe pr' = Some pe -> pos_of pr' = pos_of pr ->
  skip_compressed_offsets pr' nr = Ret (set_pos (entry_pos pe (payload_start (pmes pr) i) (k + nr)) pr').
Proof.
  intros Eb Hw Hpe Hpos. destruct head_ok as (_ & _ & He & _). destruct Hat as [_ _ A3 _ A5].
  destruct (whole_blocks_range pe b k nr He Eb Hw ltac:(lia) Hnr Hle) as (x & y & X1 & X2 & X3 & X4). unfold skip_compressed_offsets.
  assert (E : advance_compressed_offsets pr' nr = (0, set_pos (entry_pos pe (payload_start (pmes pr) i) (k + nr)) pr')).
  { replace nr with (pages_before pe b (x + (y - x)) - pages_before pe b x) by (replace (x + (y - x)) with y by lia; lia).
    destruct head_ok as ([Q1 _ _ _ _ _] & _). destruct (pagemaps_ok_lookup _ i pe Q1 (ae_lookup _ _ _ _ Hat)) as (_ & _ & Hst & Hmax & _).
    unfold entry_payload in Hmax. rewrite Hpres, Eb in Hmax. rewrite (advance_compressed_offsets_ok pe b (payload_start (pmes pr) i) He Eb Hst Hmax pr' x (y - x)); [|done|congruence|lia..].
    replace (x + (y - x)) with y by lia. rewrite X3, X4. by replace (k + (k + nr - k)) with (k + nr) by lia. }
  by rewrite E.
Qed.

(** A read at once, after the queues have been drained: the pages follow what was owed. *)
Lemma synced_post pr1 parents1 pr2 : Forall2 drained_frame (pr :: parents) (pr1 :: parents1) -> read_frame pr1 pr2 -> cache_ok lz4 file pr2 ->
  pos_of pr2 = entry_pos pe (payload_start (pmes pr) i) (k + nr) ->
  aserved file pr pr2 i pe k nr /\ chain_ok files parents1 /\ pmes <$> parents1 = pmes <$> parents /\ cvaddr <$> parents1 = cvaddr <$> parents /\
  all_pages (chain_owed lz4 (file :: files) (pr :: parents) ++ [(buf, concat (c <$> page_addrs (cvaddr pr) nr))]) ++ chain_owed lz4 (file :: files) (pr2 :: parents1)
    ≡ₚ chain_owed lz4 (file :: files) (pr :: parents) ++ asked c (cvaddr pr) nr buf.
Proof.
  intros Hd (F1 & F2 & F3 & F4 & F5 & F6 & F7 & F8) Hc Hpos. inversion Hd as [|? ? ? ? [bn ->] Hds]; subst. cbn [set_bunch set_async pmes pr_pe cvaddr curr_pme async] in *.
  destruct head_ok as (Hq & Hqs & _). destruct (drained_chain files parents parents1 Hds Hqs) as (D1 & D2 & D3 & D4).
  split; [apply aserved_intro; try done; [lia|rewrite F6; apply Forall_nil_2..]|]. split; [done|]. split; [done|]. split; [done|].
  rewrite all_pages_app, all_pages_request by (lia || apply page_size_ok). rewrite all_pages_single by (by apply owed_pages).
  unfold chain_owed at 2. cbn [zip_with concat]. rewrite F6. fold (chain_owed lz4 files parents1). rewrite D4. by rewrite app_nil_r.
Qed.
(** What precedes a read at once: the file descriptor and the drained queues. *)
Lemma sync_first e : exists ok e1, env_rawfd e = (ok, e1) /\ (fine e -> ok = true) /\
  exists r ws chain1 e2, sync (pr :: parents) e1 = Ret (r, ws, chain1, e2) /\ (fine e -> r = 0 /\ fine e2) /\ queues_ok chain1 /\
    (r = 0 -> ws = chain_owed lz4 (file :: files) (pr :: parents)) /\ exists pr1 parents1, chain1 = pr1 :: parents1 /\ Forall2 drained_frame (pr :: parents) (pr1 :: parents1).
Proof.
  destruct (env_rawfd e) as [ok e1] eqn:Ef. exists ok, e1. split; [done|]. pose proof (fine_rawfd _ _ _ Ef) as Hfd. split; [intros H; by destruct (Hfd H)|].
  destruct (sync_ok (pr :: parents) e1 (chain_queues _ _ Hch)) as (r & ws & chain1 & e2 & -> & Hd & Hfi & Hws).
  exists r, ws, chain1, e2. split; [done|]. split; [intros H; apply Hfi; by destruct (Hfd H)|]. split; [by eapply drained_idle|]. split; [intros Hr; apply (Hws Hr); [done|by eapply Forall2_length]|].
  inversion Hd as [|? pr1 ? parents1 Hd1 Hd2]; subst. exists pr1, parents1. split; [done|]. by constructor.
Qed.

Lemma queues_move len chain : queues_ok chain -> queues_ok (move_pi_off len chain).
Proof. destruct chain as [|q chain]; [done|]. intros [H1 H2]%Forall_cons_1. by apply Forall_cons_2. Qed.

Lemma raw_sync_ok e flags : pe_blocks pe = None -> is_async flags = false -> local_post e (maybe_read_page_local parallel false file (pr :: parents) e nr buf flags).
Proof.
  intros Eb Hfl. destruct head_ok as (Hq & Hqs & He & _). pose proof Hat as [A1 A2 A3 A4 A5]. destruct (pagemaps_ok_lookup _ i pe (qo_pmes _ _ Hq) A1) as (_ & _ & Hst & Hmax & _).
  pose proof He as (_ & _ & _ & Hv & _ & Hend & _). unfold entry_end in Hend. unfold entry_payload in Hmax. rewrite Hpres, Eb in Hmax. unfold OFF_MAX in Hmax.
  assert (Hs : slice file (payload_start (pmes pr) i + k * PAGE_SIZE) (nr * PAGE_SIZE) = Some (concat (c <$> page_addrs (cvaddr pr) nr))).
  { unfold page_addrs. rewrite <- list_fmap_compose, <- (slice_raw_pages lz4) by (unfold PAGE_SIZE in *; lia). apply pages_bytes_contents. intros j Hj%elem_of_seqZ.
    pose proof (Hsrc j ltac:(lia)) as H. unfold entry_src in H. rewrite Eb in H. change ((c ∘ _) j) with (c (cvaddr pr + j * PAGE_SIZE)). rewrite <- H. do 2 f_equal. lia. }
  unfold maybe_read_page_local. rewrite Hfl, (u64_small (nr * PAGE_SIZE)) by (unfold PAGE_SIZE in *; lia). unfold read_local_page.
  destruct (sync_first e) as (ok & e1 & -> & Hok & r & ws & chain1 & e2 & Hsy & Hfi & Hqk & Hws & pr1 & parents1 & -> & Hd).
  destruct ok; cbn [negb]; [|eexists _, _, _; split; [done|]; split; [by apply queues_move, (chain_queues (file :: files))|]; split; [intros H; by specialize (Hok H)|done]].
  rewrite Hsy. cbn [obind]. destruct (Z.eqb_spec r 0) as [->|Hr]; cbn [negb]; [|eexists _, _, _; split; [done|]; split; [by apply queues_move|]; split; [intros H; by destruct (Hfi H)|done]].
  specialize (Hws eq_refl). subst ws. inversion Hd as [|? ? ? ? [bn Hbn] Hds]; subst. rewrite (entry_pos_raw pe _ k Hpres Eb) in A5. unfold pos_of in A5. injection A5 as Hpi Hbi Hbo.
  cbn [pi_off set_bunch set_async]. rewrite Hpi.
  destruct (local_pread_loop_ok file (nr * PAGE_SIZE) (payload_start (pmes pr) i + k * PAGE_SIZE) ltac:(unfold PAGE_SIZE in *; lia) (S (Z.to_nat (nr * PAGE_SIZE))) e2 [])
    as (got & e3 & -> & Er & H1 & H2); [unfold zlen; simpl; lia|done|unfold zlen, PAGE_SIZE; simpl; lia|]. cbn [obind andb].
  assert (Hfin : fine e -> got <> None /\ fine e3).
  { intros H. destruct (Hfi H) as (_ & [E1 E2] & Hw). destruct (H2 E2) as [E3 E4]. split; [by rewrite E4, Hs|]. split; [|done]. split; [by rewrite Er|done]. }
  destruct got as [x|]; [|eexists _, _, _; split; [done|]; split; [by apply queues_move|]; split; [intros H; by destruct (Hfin H)|done]].
  rewrite Hs in H1. specialize (H1 x eq_refl). injection H1 as <-. eexists _, _, _. split; [done|]. split; [by apply queues_move|].
  split; [intros H; by destruct (Hfin H)|]. intros ws [= <-]. eexists _, _. split; [done|]. eapply synced_post; [done|by repeat split|apply Hq|].
  rewrite (entry_pos_raw pe _ _ Hpres Eb). unfold pos_of. simpl. rewrite Hbi, Hbo, Hpi. rewrite s64_small by (unfold PAGE_SIZE in *; lia). do 2 f_equal. lia.
Qed.

Lemma local_read_queued e flags : local_post e (maybe_read_page_local_compressed lz4 parallel false file (pr :: parents) e (cvaddr pr) nr buf flags).
Proof.
  destruct head_ok as (Hq & Hqs & He & _). pose proof Hat as [A1 A2 A3 A4 A5]. pose proof He as (_ & _ & _ & Hv & _ & Hend & _). unfold entry_end in Hend.
  unfold maybe_read_page_local_compressed. rewrite A2. destruct (pe_blocks pe) as [b|] eqn:Eb.
  2:{ destruct (is_async flags) eqn:Hfl; [by apply raw_async_ok|by apply raw_sync_ok]. }
  pose proof (entry_blocks_ok pe b He Eb) as Hb. rewrite (pagemap_block_pages_ok _ pe b Eb Hb), Z.gtb_ltb.
  destruct (Z.ltb_spec MAX_BLOCK_PAGES (pages_per_block b)); [destruct Hb; lia|]. destruct (is_async flags && can_async pe pr nr) eqn:Ec.
  - apply andb_true_iff in Ec as [_ Ec]. pose proof (can_async_whole b Eb Ec) as Hw. rewrite (u64_small (nr * PAGE_SIZE)) by (unfold PAGE_SIZE in *; lia).
    destruct (enqueue_own_ok e Hw) as (r & q & al & -> & Hqk & Hfi & Hr & Ht). cbn [obind].
    destruct Hr as [->| ->]; [eexists _, _, _; split; [done|]; split; [apply Forall_cons_2; [done|by apply (chain_queues files)]|]; split; [intros Hfe; by destruct (Hfi Hfe)|done]|].
    rewrite (skip_whole b (set_async q pr) Eb Hw A2 eq_refl). cbn [obind]. eexists _, _, _. split; [done|].
    destruct (entry_pos pe (payload_start (pmes pr) i) (k + nr)) as [[x y] z] eqn:Ep.
    split; [apply Forall_cons_2; [done|by apply (chain_queues files)]|]. split; [intros Hfe; by destruct (Hfi Hfe)|]. intros ws [= <-]. eexists _, _. split; [done|].
    destruct (queued_post q (set_pos (x, y, z) (set_async q pr))) as [P1 P2]; try done. by apply Ht.
  - destruct (sync_first e) as (ok & e1 & -> & Hok & r & ws & chain1 & e2 & Hsy & Hfi & Hqk & Hws & pr1 & parents1 & -> & Hd).
    destruct ok; cbn [negb]; [|eexists _, _, _; split; [done|]; split; [by apply (chain_queues (file :: files))|]; split; [intros Hfe; by specialize (Hok Hfe)|done]].
    rewrite Hsy. cbn [obind]. destruct (Z.eqb_spec r 0) as [->|Hr]; cbn [negb]; [|eexists _, _, _; split; [done|]; split; [done|]; split; [intros Hfe; by destruct (Hfi Hfe)|done]].
    specialize (Hws eq_refl). subst ws. inversion Hd as [|? ? ? ? [bn Hbn] Hds]; subst.
    destruct (read_compressed_pages_spec lz4 file e2 (set_bunch bn (set_async [] pr)) i pe b k nr) as (got & pr2 & e3 & Hrd & F & Hc & H1 & H2);
      [apply Hq|by split|done..|apply Hq|lia|done|]. cbn [cvaddr set_bunch set_async] in Hrd. rewrite Hrd. cbn [obind]. simpl in H1, H2.
    assert (Hs : pages_bytes lz4 file (image_src pe b (payload_start (pmes pr) i) <$> seqZ k nr) = Some (concat (c <$> page_addrs (cvaddr pr) nr))).
    { unfold page_addrs. rewrite <- list_fmap_compose. rewrite <- (Z.add_0_r k), <- fmap_add_seqZ, <- list_fmap_compose. apply pages_bytes_contents.
      intros j Hj%elem_of_seqZ. pose proof (Hsrc j ltac:(lia)) as H'. unfold entry_src in H'. rewrite Eb in H'. cbn. rewrite <- H'. do 2 f_equal; lia. }
    rewrite Hs in H1, H2. eexists _, _, _. split; [done|].
    split. { apply Forall_cons_1 in Hqk as [_ Hqk]. apply Forall_cons_2; [|done]. destruct F as (_ & _ & _ & _ & _ & F6 & _). rewrite F6. apply Forall_nil_2. }
    split. { intros H'. destruct (Hfi H') as (_ & He2 & Hw). destruct (H2 He2) as [He3 ->]. split; [done|]. by split. }
    intros ws Hw. destruct got as [x|]; [|done]. destruct (H1 ltac:(done)) as [[= ->] Hpos]. injection Hw as <-. eexists _, _. split; [done|].
    by eapply (synced_post (set_bunch bn (set_async [] pr))).
Qed.
End Local.

(** ** Through the chain *)
Record arequest (files : list (list Z)) (chain : list page_read) (vaddr nr buf : Z) : Prop := ARequest {
  aq_ok : chain_ok files chain;
  aq_of : of_chain files;
  aq_cursors : Forall (fun pr => cvaddr pr <= vaddr) chain;
  aq_nr : 0 < nr;
  aq_vaddr : 0 <= vaddr /\ vaddr mod PAGE_SIZE = 0 /\ vaddr + nr * PAGE_SIZE < 2 ^ 64;
  aq_buf : 0 <= buf /\ buf + nr * PAGE_SIZE < 2 ^ 64;
  aq_contents : contents lz4 (images files chain) c vaddr nr
}.

(** Served at once, drained on the way or still owed: what was owed, and what was asked. *)
Record adone (files : list (list Z)) (chain chain' : list page_read) (vaddr nr buf : Z) (ws : list write) : Prop := ADone {
  ad_ok : chain_ok files chain';
  ad_pmes : pmes <$> chain' = pmes <$> chain;
  ad_cursors : Forall (fun pr => cvaddr pr <= vaddr + nr * PAGE_SIZE) chain';
  ad_pages : all_pages ws ++ chain_owed lz4 files chain' ≡ₚ chain_owed lz4 files chain ++ asked c vaddr nr buf
}.

Definition areads (files : list (list Z)) (read : list page_read -> env -> Z -> Z -> Z -> result) : Prop :=
  forall chain e vaddr nr buf pr parents i pe k, arequest files chain vaddr nr buf -> chain = pr :: parents ->
    at_entry pr i pe k -> curr_pme pr = Z.of_nat i -> cvaddr pr = vaddr -> k + nr <= pe_nr_pages pe ->
    exists r chain' e', read chain e vaddr nr buf = Ret (r, chain', e') /\ queues_ok chain' /\ (fine e -> r <> None /\ fine e') /\
      forall ws, r = Some ws -> adone files chain chain' vaddr nr buf ws /\
        exists pr' parents', chain' = pr' :: parents' /\ at_entry pr' i pe (k + nr) /\ curr_pme pr' = Z.of_nat i.

Lemma arequest_seek files ppr parents vaddr nr buf : arequest files (ppr :: parents) vaddr nr buf ->
  exists ppr' i pe k, seek_pagemap ppr vaddr = Ret (1, ppr') /\ at_entry ppr' i pe k /\ curr_pme ppr' = Z.of_nat i /\
    cvaddr ppr' = vaddr /\ vaddr = pe_vaddr pe + k * PAGE_SIZE /\ 0 <= k < pe_nr_pages pe /\ entry_ok pe /\ pmes ppr' = pmes ppr /\
    chain_owed lz4 files (ppr' :: parents) = chain_owed lz4 files (ppr :: parents) /\ forall n, 0 < n <= nr -> arequest files (ppr' :: parents) vaddr n buf.
Proof.
  intros [A1 A0 A2 A3 (V1 & V2 & V3) A5 A6]. inversion A1 as [|file ? files' ? Hro Hros]; subst.
  pose proof Hro as [R1 R2 R3 R4 R5 R6]. apply Forall_cons_1 in A2 as [Hcv Hcvs].
  destruct (seek_pagemap_spec ppr vaddr R1 R3 V2 ltac:(unfold PAGE_SIZE in *; lia)) as (r & ppr' & Hs & [S1 S2 S3 S4 S5 S6 S7]).
  assert (Hr : r = 1).
  { apply S4. split; [done|]. specialize (A6 0 ltac:(lia)). rewrite Z.mul_0_l, Z.add_0_r in A6. exact (content_has_page _ _ _ _ _ _ A6). }
  subst r. destruct (S5 eq_refl) as (i & pe & Hat & Hc & Hin & Hv).
  destruct S2 as (P1 & P2 & P3 & P4 & P5). pose proof Hat as [L _ _ _ _]. rewrite P1 in L.
  destruct (pagemaps_ok_lookup _ i pe R1 L) as (Hpe & _).
  destruct (aligned_index pe vaddr Hpe Hin V2) as (k & Hk & Hkr & Ek). rewrite Ek in Hat.
  exists ppr', i, pe, k. split_and!; try done; try lia; [unfold chain_owed; cbn [zip_with concat]; by rewrite P3|].
  intros n Hn. split; [|done|apply Forall_cons_2; [lia|done]|lia|unfold PAGE_SIZE in *; lia|unfold PAGE_SIZE in *; lia|].
  - constructor; [|done]. split; rewrite ?P1, ?P3; try done. by eapply cache_ok_frame.
  - intros j Hj. rewrite (images_pmes _ (ppr :: parents)) by (rewrite !fmap_cons; by rewrite P1). apply A6. lia.
Qed.

Lemma arequest_rest files chain chain' vaddr n nr buf ws : 0 <= n < nr -> arequest files chain vaddr nr buf -> adone files chain chain' vaddr n buf ws ->
  arequest files chain' (vaddr + n * PAGE_SIZE) (nr - n) (buf + n * PAGE_SIZE).
Proof.
  intros Hn [A1 A0 A2 A3 (V1 & V2 & V3) A5 A6] [B1 B2 B3 B4]. unfold PAGE_SIZE in *. split; [done|done|done|lia| |unfold PAGE_SIZE; lia|].
  - unfold PAGE_SIZE. split_and!; [lia| |lia]. rewrite Z.mod_add by lia. done.
  - intros j Hj. rewrite (images_pmes _ _ _ B2). unfold PAGE_SIZE in *. replace (vaddr + n * 4096 + j * 4096) with (vaddr + (n + j) * 4096) by lia. apply A6. lia.
Qed.

Lemma adone_app files chain1 chain2 chain3 vaddr n m buf w1 w2 : 0 <= n -> 0 <= m -> adone files chain1 chain2 vaddr n buf w1 ->
  adone files chain2 chain3 (vaddr + n * PAGE_SIZE) m (buf + n * PAGE_SIZE) w2 -> adone files chain1 chain3 vaddr (n + m) buf (w1 ++ w2).
Proof.
  intros Hn Hm [A1 A2 A3 A4] [B1 B2 B3 B4]. split; [done|congruence| |].
  - eapply Forall_impl; [exact B3|]. intros pr Hpr. simpl in Hpr. lia.
  - rewrite all_pages_app, asked_app, <- !app_assoc by done. rewrite B4. rewrite (app_assoc (all_pages w1)), A4. by rewrite <- app_assoc.
Qed.

Lemma read_parent_loop_queued files read : areads files read -> forall fuel chain e vaddr nr buf, arequest files chain vaddr nr buf -> (Z.to_nat nr < fuel)%nat ->
  exists r chain' e', read_parent_loop read fuel chain e vaddr nr buf = Ret (r, chain', e') /\ queues_ok chain' /\ (fine e -> r <> None /\ fine e') /\
    forall ws, r = Some ws -> adone files chain chain' vaddr nr buf ws.
Proof.
  intros Hread. induction fuel as [|fuel IH]; intros chain e vaddr nr buf Hrq Hf; [lia|]. cbn [read_parent_loop]. destruct chain as [|ppr parents].
  { pose proof (aq_contents _ _ _ _ _ Hrq 0 ltac:(pose proof (aq_nr _ _ _ _ _ Hrq); lia)) as Hc. unfold images in Hc. simpl in Hc. inversion Hc. }
  destruct (arequest_seek files ppr parents vaddr nr buf Hrq) as (ppr' & i & pe & k & -> & Hat & Hcur & Hcv & Hv & Hk & Hpe & Hpm & How & Hrq').
  pose proof (aq_nr _ _ _ _ _ Hrq) as Hn. destruct (aq_vaddr _ _ _ _ _ Hrq) as (V1 & V2 & V3). pose proof (aq_buf _ _ _ _ _ Hrq) as Hbuf.
  cbn [obind Z.leb Z.compare]. rewrite (ae_pe _ _ _ _ Hat). destruct Hpe as (_ & _ & _ & Hpv & _ & He & _). unfold entry_end, PAGE_SIZE in He, Hv, V3, Hbuf.
  assert (Hp : u64 (pe_nr_pages pe - u64 (vaddr - pe_vaddr pe) / PAGE_SIZE) = pe_nr_pages pe - k).
  { rewrite (u64_small (vaddr - pe_vaddr pe)) by lia. replace (vaddr - pe_vaddr pe) with (k * PAGE_SIZE) by (unfold PAGE_SIZE; lia). rewrite Z.div_mul by done. rewrite u64_small by lia. done. }
  rewrite Hp, Z.gtb_ltb. set (p_nr := if nr <? pe_nr_pages pe - k then nr else pe_nr_pages pe - k).
  assert (Hpn : 0 < p_nr <= nr /\ k + p_nr <= pe_nr_pages pe) by (unfold p_nr; destruct (Z.ltb_spec nr (pe_nr_pages pe - k)); lia).
  clearbody p_nr. destruct Hpn as [Hpn Hkp]. specialize (Hrq' p_nr Hpn).
  destruct (Hread (ppr' :: parents) e vaddr p_nr buf ppr' parents i pe k Hrq' eq_refl Hat Hcur Hcv Hkp) as (r & chain' & e1 & -> & Hq & Hfi & H1). cbn [obind].
  destruct r as [w|]; [|eexists _, _, _; split; [done|]; split; [done|]; split; [intros Hfe; by destruct (Hfi Hfe)|done]].
  destruct (H1 w eq_refl) as [Hd1' _]. assert (Hd1 : adone files (ppr :: parents) chain' vaddr p_nr buf w).
  { destruct Hd1' as [B1 B2 B3 B4]. split; try done; [rewrite B2, !fmap_cons; by rewrite Hpm|by rewrite <- How]. }
  rewrite (u64_small (nr - p_nr)) by lia. destruct (Z.eqb_spec (nr - p_nr) 0) as [Hz|Hz].
  { replace nr with p_nr by lia. eexists _, _, _. split; [done|]. split; [done|]. split; [done|]. by intros ? [= <-]. }
  rewrite (u64_small (vaddr + _)), (u64_small (buf + _)) by (unfold PAGE_SIZE; lia).
  destruct (IH chain' e1 (vaddr + p_nr * PAGE_SIZE) (nr - p_nr) (buf + p_nr * PAGE_SIZE)) as (r & chain2 & e2 & -> & Hq2 & Hfi2 & H3); [eapply arequest_rest; [lia|done|done]|lia|].
  cbn [obind]. eexists _, _, _. split; [done|]. split; [done|]. split.
  - intros Hfe. destruct (Hfi Hfe) as [_ Hfe1]. destruct (Hfi2 Hfe1) as [Hr ?]. split; [|done]. by destruct r.
  - intros w' Hw. destruct r as [w2|]; [|done]. injection Hw as <-. replace nr with (p_nr + (nr - p_nr)) by lia. eapply adone_app; [lia|lia|done|by apply H3].
Qed.

Lemma read_pagemap_page_queued flags : forall files, areads files (read_pagemap_page lz4 parallel false files flags).
Proof.
  induction files as [|file files IH]; intros chain e vaddr nr buf pr parents i pe k Hrq -> Hat Hcur Hcv Hle.
  { destruct Hrq as [A1 _ _ _ _ _ _]. inversion A1. }
  pose proof Hrq as [A1 A0 A2 A3 A4 A5 A6]. inversion A1 as [|? ? ? ? Hro Hros]; subst. pose proof Hro as [R1 R2 R3 R4 R5 R6].
  pose proof Hat as [L Hp Hk Hv Hpos]. destruct (pagemaps_ok_lookup _ i pe R1 L) as (Hpe & _).
  cbn [read_pagemap_page]. rewrite Hp, Hv, bound_check_ok by (done || lia). cbn [negb]. rewrite <- Hv.
  assert (Hinv : forall j, 0 <= j < nr -> if pagemap_in_parent pe
    then page_content lz4 (images files parents) (cvaddr pr + j * PAGE_SIZE) (c (cvaddr pr + j * PAGE_SIZE))
    else pagemap_present pe = true /\ src_bytes lz4 file (entry_src (pmes pr) i pe (k + j)) = Some (c (cvaddr pr + j * PAGE_SIZE))).
  { intros j Hj. pose proof (A6 j Hj) as Hcj. replace (cvaddr pr + j * PAGE_SIZE) with (pe_vaddr pe + (k + j) * PAGE_SIZE) in Hcj |- * by lia.
    exact (content_inv _ _ file _ i pe (k + j) _ R1 L ltac:(lia) Hcj). }
  apply Forall_cons_1 in A2 as [_ Hcvs]. destruct (pagemap_in_parent pe) eqn:Ein.
  - destruct (read_parent_loop_queued files _ IH (S (Z.to_nat nr)) parents e (cvaddr pr) nr buf) as (r & chain' & e' & -> & Hq & Hfi & H1);
      [split; try done; by eapply of_chain_tail|lia|].
    cbn [obind]. assert (Hqa : forall q, async q = async pr -> queues_ok (q :: chain')) by (intros q Eq; apply Forall_cons_2; [by rewrite Eq|done]).
    destruct r as [w|]; [|eexists _, _, _; split; [done|]; split; [by apply Hqa|]; split; [intros Hfe; by destruct (Hfi Hfe)|done]].
    eexists _, _, _. split; [done|]. split; [by apply Hqa|]. split; [intros Hfe; by destruct (Hfi Hfe)|]. intros ws [= <-]. destruct (H1 w eq_refl) as [B1 B2 B3 B4].
    assert (Hnp : pagemap_present pe = false) by (destruct (pagemap_present pe) eqn:E; [|done]; destruct Hpe as (_ & Hx & _); by rewrite (Hx E) in Ein).
    assert (Hsv : aserved file pr pr i pe k nr) by (apply aserved_intro; try done; [lia|]; rewrite Hpos; unfold entry_pos; by rewrite Hnp).
    destruct Hsv as [S1 S2 S3 S4 S5]. split; [|by eexists _, _]. unfold move_cvaddr.
    split; [by constructor|by rewrite !fmap_cons, B2|apply Forall_cons_2; [cbn [cvaddr set_cvaddr]; lia|done]|].
    unfold chain_owed in *. cbn [move_cvaddr zip_with concat]. cbn [async set_cvaddr]. rewrite Permutation_app_swap_app, B4. by rewrite app_assoc.
  - destruct (Hinv 0 ltac:(lia)) as [Hpres _].
    destruct (local_read_queued file files pr parents i pe k nr buf) with (e := e) (flags := flags) as (r & chain' & e' & -> & Hq & Hfi & H1); try done.
    { intros j Hj. by apply Hinv. }
    cbn [obind]. destruct r as [w|]; [|eexists _, _, _; split; [done|]; split; [done|]; split; [intros Hfe; by destruct (Hfi Hfe)|done]].
    destruct (H1 w eq_refl) as (pr' & parents' & -> & [S1 S2 S3 S4 S5] & P1 & P2 & P3 & P4).
    eexists _, _, _. split; [done|]. split; [by apply Forall_cons_1 in Hq as [? ?]; apply Forall_cons_2|]. split; [intros Hfe; by destruct (Hfi Hfe)|]. intros ws [= <-]. split; [|by eexists _, _]. unfold move_cvaddr.
    split; [by constructor|rewrite !fmap_cons, P2; cbn [pmes set_cvaddr]; by rewrite S4| |].
    + apply Forall_cons_2; [cbn [cvaddr set_cvaddr]; lia|]. apply (cursors_mono (cvaddr pr)); [unfold PAGE_SIZE; lia|].
      apply (Forall_fmap cvaddr (fun v => v <= cvaddr pr)). rewrite P3. by apply Forall_fmap.
    + rewrite <- P4. done.
Qed.

(** ** The interface *)
Context (maps : list (list pagemap_entry)) (Hmaps : Forall pagemaps_ok maps).

#[local] Instance chain_ops : PageOps := {|
  read_pages := read_pagemap_page lz4 parallel false files0 PR_ASYNC;
  sync_pages := sync
|}.

Record chain_inv (chain : list page_read) (owed : list (Z * list Z)) : Prop := ChainInv {
  ci_ok : chain_ok files0 chain;
  ci_maps : pmes <$> chain = maps;
  ci_head : exists pr parents, chain = pr :: parents /\ Forall (fun q => cvaddr q <= cvaddr pr) chain;
  ci_owed : owed = chain_owed lz4 files0 chain;
  ci_nodup : NoDup owed.*1
}.

Lemma content_length imgs v x : Forall pagemaps_ok (fst <$> imgs) -> page_content lz4 imgs v x -> zlen x = PAGE_SIZE.
Proof.
  intros H Hc. revert H. induction Hc as [l file ps i pe k x Hi Hk Hin Hp Hb|l file ps i pe k x Hi Hk Hin Hb IH]; intros H; rewrite fmap_cons in H; apply Forall_cons_1 in H as [H1 H2].
  - by apply (entry_src_length lz4 file l i pe k).
  - by apply IH.
Qed.

Lemma whole_chain : of_chain files0.
Proof. unfold of_chain. by rewrite Nat.sub_diag. Qed.

Lemma zip_maps : Forall pagemaps_ok (fst <$> zip maps files0).
Proof.
  apply Forall_fmap, Forall_lookup_2. intros m [l file] Hm. apply lookup_zip_with_Some in Hm as (l' & file' & [= -> ->] & Hl & _). by apply (Forall_lookup_1 _ _ _ _ Hmaps Hl).
Qed.

Lemma chain_reader chain owed : chain_inv chain owed ->
  NoDup owed.*1 /\ exists pr parents, chain = pr :: parents /\ pagemaps_ok (pmes pr) /\ cursor_ok pr /\ Forall (fun q => pagemaps_ok (pmes q)) parents.
Proof.
  intros [H1 H2 (pr & parents & -> & _) -> H5]. split; [done|]. exists pr, parents. split; [done|]. inversion H1 as [|? ? ? ? Hq Hqs E1 E2]; subst.
  split; [apply Hq|]. split; [apply Hq|]. clear -Hqs. induction Hqs as [|file q files qs Hq _ IH]; [apply Forall_nil_2|apply Forall_cons_2; [apply Hq|done]].
Qed.

Lemma reset_queued file pr : queued_ok file pr -> queued_ok file (reset_one pr).
Proof.
  intros [Q1 Q2 Q3 Q4 Q5 Q6]. split; try done. apply cursor_reset; try done. by left.
Qed.

Lemma chain_reset chain : chain_inv chain [] -> chain_inv (reset_pagemap chain) [].
Proof.
  intros [H1 H2 (pr & parents & -> & H3) H4 H5]. unfold reset_pagemap. split.
  - clear -H1. revert H1. generalize (pr :: parents) as chain. induction 1 as [|file q files qs Hq _ IH]; [constructor|]. rewrite fmap_cons. constructor; [by apply reset_queued|done].
  - rewrite <- H2, <- list_fmap_compose. by apply list_fmap_ext.
  - eexists _, _. split; [done|]. apply Forall_fmap, Forall_true. done.
  - rewrite H4. clear. revert files0. generalize (pr :: parents) as chain. induction chain as [|q chain IH]; intros [|file files]; try done. unfold chain_owed in *. cbn. by rewrite IH.
  - done.
Qed.

Lemma chain_move pr pr' parents owed : chain_inv (pr :: parents) owed -> same_store pr pr' -> cursor_ok pr' -> cvaddr pr <= cvaddr pr' -> chain_inv (pr' :: parents) owed.
Proof.
  intros [H1 H2 (pr0 & parents0 & [= <- <-] & H3) H4 H5] (S1 & S2 & S3 & S4 & S5) Hc Hcv. inversion H1 as [|file ? files ? Hq Hqs E1 E2]; subst. split.
  - rewrite <- E1. constructor; [|done]. destruct Hq as [Q1 Q2 Q3 Q4 Q5 Q6]. split; rewrite ?S1, ?S3; try done. by eapply cache_ok_frame.
  - rewrite fmap_cons, S1. done.
  - exists pr', parents. split; [done|]. apply Forall_cons_1 in H3 as [_ H3]. apply Forall_cons_2; [lia|]. by eapply cursors_mono.
  - rewrite <- E1. unfold chain_owed. cbn [zip_with concat]. by rewrite S3.
  - done.
Qed.

Lemma asked_nodup va nr buf : NoDup (asked c va nr buf).*1.
Proof.
  unfold asked. rewrite <- list_fmap_compose. apply NoDup_fmap_2; [|apply NoDup_seqZ]. intros x y E. unfold PAGE_SIZE in E. cbn in E. lia.
Qed.

Lemma chain_read pr parents owed e i pe k nr buf : chain_inv (pr :: parents) owed -> at_entry pr i pe k -> curr_pme pr = Z.of_nat i ->
  0 < nr -> k + nr <= pe_nr_pages pe -> 0 <= buf -> buf mod PAGE_SIZE = 0 -> buf + nr * PAGE_SIZE < 2 ^ 64 ->
  (forall j, 0 <= j < nr -> page_content lz4 (zip maps files0) (cvaddr pr + j * PAGE_SIZE) (c (cvaddr pr + j * PAGE_SIZE))) ->
  (forall a, a ∈ (asked c (cvaddr pr) nr buf).*1 -> a ∉ owed.*1) ->
  exists r chain' e', read_pages (pr :: parents) e (cvaddr pr) nr buf = Ret (r, chain', e') /\ queues_ok chain' /\ (fine e -> r <> None /\ fine e') /\
    (forall ws, r = Some ws -> exists pr' parents' owed', chain' = pr' :: parents' /\ chain_inv chain' owed' /\
      at_entry pr' i pe (k + nr) /\ curr_pme pr' = Z.of_nat i /\ pmes pr' = pmes pr /\ owed'.*1 ⊆ owed.*1 ++ (asked c (cvaddr pr) nr buf).*1 /\
      forall m a, set_pages (store m ws) owed' a = set_pages (set_pages m owed) (asked c (cvaddr pr) nr buf) a).
Proof.
  intros [H1 H2 (pr0 & parents0 & [= <- <-] & H3) H4 H5] Hat Hcur Hnr Hle Hb0 _ Hb1 Hcont Hdis.
  assert (Hq : exists file, queued_ok file pr) by (inversion H1; subst; by eexists). destruct Hq as (file & [Q1 _ _ _ _ _]).
  pose proof Hat as [A1 A2 A3 A4 A5]. destruct (pagemaps_ok_lookup _ i pe Q1 A1) as ((_ & _ & Hal & Hv & _ & Hend & _) & _). unfold entry_end in Hend.
  assert (Hrq : arequest files0 (pr :: parents) (cvaddr pr) nr buf).
  { split; [done|apply whole_chain|done|done| |done|].
    - rewrite A4. split_and!; [unfold PAGE_SIZE in *; lia|by rewrite Z.mod_add|unfold PAGE_SIZE in *; lia].
    - unfold images. rewrite H2. exact Hcont. }
  destruct (read_pagemap_page_queued PR_ASYNC files0 (pr :: parents) e (cvaddr pr) nr buf pr parents i pe k Hrq eq_refl Hat Hcur eq_refl Hle) as (r & chain' & e' & E & Hqs & Hfi & Hd).
  exists r, chain', e'. split; [exact E|]. split; [done|]. split; [done|]. intros ws Hw. destruct (Hd ws Hw) as ([D1 D2 D3 D4] & pr' & parents' & -> & Hat' & Hcur').
  exists pr', parents', (chain_owed lz4 files0 (pr' :: parents')). subst owed.
  assert (Hfst : (all_pages ws).*1 ++ (chain_owed lz4 files0 (pr' :: parents')).*1 ≡ₚ (chain_owed lz4 files0 (pr :: parents)).*1 ++ (asked c (cvaddr pr) nr buf).*1) by (by rewrite <- !fmap_app, D4).
  assert (Hnd : NoDup ((chain_owed lz4 files0 (pr :: parents)).*1 ++ (asked c (cvaddr pr) nr buf).*1)).
  { apply NoDup_app. split; [done|]. split; [|apply asked_nodup]. intros a Ha Hb. by apply (Hdis a). }
  split; [done|]. split; [|split_and!].
  - split; [done|congruence| |done|].
    + exists pr', parents'. split; [done|]. eapply Forall_impl; [exact D3|]. intros q Hqv. cbn in Hqv. destruct Hat' as [_ _ _ -> _]. lia.
    + rewrite <- Hfst in Hnd. by apply NoDup_app in Hnd as (_ & _ & ?).
  - done.
  - done.
  - rewrite !fmap_cons in D2. by injection D2.
  - intros a Ha. rewrite <- Hfst. apply elem_of_app. by right.
  - intros m a. unfold store. rewrite <- !set_pages_app. apply set_pages_perm; [|done]. by rewrite fmap_app, Hfst.
Qed.

Lemma drained_at pr pr' i pe k : drained_frame pr pr' -> at_entry pr i pe k -> at_entry pr' i pe k.
Proof. intros [bn ->] []. by split. Qed.

Lemma chain_syncs chain e : queues_ok chain ->
  exists r ws chain' e', sync_pages chain e = Ret (r, ws, chain', e') /\ Forall idle chain' /\ queues_ok chain' /\ (fine e -> r = 0 /\ fine e') /\
    forall owed pr parents, chain_inv chain owed -> chain = pr :: parents -> r = 0 ->
      exists pr' parents', chain' = pr' :: parents' /\ chain_inv chain' [] /\ pmes pr' = pmes pr /\ curr_pme pr' = curr_pme pr /\
        (forall i pe k, at_entry pr i pe k -> at_entry pr' i pe k) /\ forall m a, store m ws a = set_pages m owed a.
Proof.
  intros Hq. destruct (sync_ok chain e Hq) as (r & ws & chain' & e' & E & Hd & Hfi & Hws). exists r, ws, chain', e'. split; [exact E|].
  destruct (drained_idle _ _ Hd) as [I1 I2]. split; [done|]. split; [done|]. split; [done|]. intros owed pr parents [H1 H2 (pr0 & parents0 & E0 & H3) H4 H5] -> Hr. injection E0 as <- <-.
  specialize (Hws Hr files0 whole_chain (Forall2_length _ _ _ H1)). destruct (drained_chain files0 _ _ Hd H1) as (D1 & D2 & D3 & D4).
  inversion Hd as [|? pr' ? parents' Hd1 Hd2]; subst. exists pr', parents'. split; [done|]. split; [|split_and!].
  - split; [done|congruence| |done|apply NoDup_nil_2].
    exists pr', parents'. split; [done|]. apply (Forall_fmap cvaddr (fun v => v <= cvaddr pr')). rewrite D3. rewrite !fmap_cons in D3. injection D3 as -> _. by apply Forall_fmap.
  - by destruct Hd1 as [bn ->].
  - by destruct Hd1 as [bn ->].
  - intros i pe k. by apply drained_at.
  - intros m a. unfold store. by rewrite all_pages_single by (by apply owed_pages).
Qed.

#[local] Instance chain_ops_ok : PageOpsOk chain_ops c := {|
  ops_has := fun a => page_content lz4 (zip maps files0) a (c a);
  ops_inv := chain_inv;
  ops_safe := queues_ok;
  ops_ok := fine;
  ops_ok_env := fun e H => proj1 H;
  ops_inv_safe := fun chain owed H => chain_queues files0 chain (ci_ok chain owed H);
  ops_reader := chain_reader;
  ops_reset := chain_reset;
  ops_page := fun a H => content_length _ a (c a) zip_maps H;
  ops_move := chain_move;
  ops_read := chain_read;
  ops_sync := chain_syncs
|}.
End AsyncRead.

(** ** Freshly opened readers *)
Record fresh_queue (lz4 : list Z -> Z -> option (list Z)) (file : list Z) (pr : page_read) : Prop := FreshQueue {
  fq_pmes : pagemaps_ok (pmes pr);
  fq_typed : Forall entry_typed (pmes pr);
  fq_reset : pr = reset_one pr;
  fq_cache : cache_size (blk pr) = 0;
  fq_idle : idle pr
}.

Lemma fresh_chain_inv lz4 files pr parents : Forall2 (fresh_queue lz4) files (pr :: parents) ->
  chain_inv lz4 files (pmes <$> (pr :: parents)) (pr :: parents) [] /\ visiting pr 0 /\ Forall pagemaps_ok (pmes <$> (pr :: parents)).
Proof.
  intros H. assert (Hall : Forall2 (queued_ok lz4) files (pr :: parents) /\ Forall idle (pr :: parents) /\ Forall (fun q => cvaddr q = 0) (pr :: parents) /\ Forall pagemaps_ok (pmes <$> (pr :: parents))).
  { revert H. generalize (pr :: parents) as chain. induction 1 as [|file q files' qs [F1 F2 F3 F4 F5] _ (I1 & I2 & I3 & I4)]; [by split_and!; constructor|].
    unfold idle in F5. split_and!; [constructor; [|done]|by apply Forall_cons_2|apply Forall_cons_2; [by rewrite F3|done]|rewrite fmap_cons; by apply Forall_cons_2].
    split; try done; [|by left|rewrite F5; apply Forall_nil_2|rewrite F5; apply Forall_nil_2]. rewrite F3. apply cursor_reset; try done. by left. }
  destruct Hall as (A1 & A2 & A3 & A4). split; [|split; [|done]].
  - split; [done|done| |symmetry; by apply chain_owed_idle|apply NoDup_nil_2]. exists pr, parents. split; [done|]. eapply Forall_impl; [exact A3|].
    intros q Hq. cbn in Hq. apply Forall_cons_1 in A3 as [Hp _]. lia.
  - inversion H as [|? ? ? ? [F1 F2 F3 F4 F5]]; subst. rewrite F3. apply visiting_reset.
Qed.


(** ** Example: one page in the parent's image, one in the own *)
Definition raw_entry (vaddr nr flags : Z) : pagemap_entry := PagemapEntry vaddr nr false false true flags true nr None.
Definition pair_young : list pagemap_entry := [raw_entry 0x1000 1 PE_PARENT; raw_entry 0x2000 1 PE_PRESENT].
Definition pair_old : list pagemap_entry := [raw_entry 0x1000 1 PE_PRESENT].
Definition pair_reader (l : list pagemap_entry) : page_read := PageRead None 0 0 0 (BlkState 0 0 [] 0 0) (Iovec 0 0) l (-1) [] false.
Definition pair_files : list (list Z) := [replicate 4096 2; replicate 4096 1].
Definition pair_chain : list page_read := [pair_reader pair_young; pair_reader pair_old].
Definition pair_contents (v : Z) : list Z := replicate 4096 (if v =? 0x1000 then 1 else 2).

Lemma pair_fresh lz4 : Forall2 (fresh_queue lz4) pair_files pair_chain.
Proof.
  assert (H1 : pagemaps_ok pair_young) by (unfold pagemaps_ok; cbn; unfold entry_ok, entry_stop, entry_end; cbn; split_and!; done).
  assert (H2 : pagemaps_ok pair_old) by (unfold pagemaps_ok; cbn; unfold entry_ok, entry_stop, entry_end; cbn; split_and!; done).
  constructor; [|constructor; [|constructor]]; (split; try done); cbn [pmes pair_reader]; unfold pair_young, pair_old;
    repeat (apply Forall_cons_2; [unfold entry_typed; cbn; split_and!; (done || lia)|]); apply Forall_nil_2.
Qed.

Lemma pair_pages lz4 a : a ∈ pages_of pair_young -> page_content lz4 (zip (pmes <$> pair_chain) pair_files) a (pair_contents a).
Proof.
  intros Ha. cbn in Ha. apply elem_of_cons in Ha as [->|Ha]; [|apply elem_of_cons in Ha as [->|Ha]; [|by apply elem_of_nil in Ha]].
  - apply (content_parent lz4 pair_young _ [(pair_old, replicate 4096 1)] 0 (raw_entry 0x1000 1 PE_PARENT) 0); [done|cbn; lia|done|].
    apply (content_here lz4 pair_old _ [] 0 (raw_entry 0x1000 1 PE_PRESENT) 0); [done|cbn; lia|done|done|by vm_compute].
  - apply (content_here lz4 pair_young _ [(pair_old, replicate 4096 1)] 1 (raw_entry 0x2000 1 PE_PRESENT) 0); [done|cbn; lia|done|done|by vm_compute].
Qed.

