(* ===== verification/ShmemRestore.v ===== *)
(** Restoring the contents of a shared memory segment:
    [do_restore_shmem_content] of criu/shmem.c, over any page reader that keeps
    the promises of [PageOpsOk]. *)
From S2P Require Import Prelude PagemapImage PageRead Dedup AsyncQueue ProcessReads ReadPages ChainRead ReadOps AsyncRead.

Section Restore.
Context {Ops : PageOps}.

(** The loop over the pagemap: whether a read failed, the memory, the readers.
    An entry that ends behind the segment ends the loop. *)
Fixpoint restore_shmem_loop (fuel : nat) (chain : list page_read) (e : env) (m : memory) (addr size : Z)
    : outcome (bool * memory * list page_read * env) :=
  match fuel with
  | O => NoFuel
  | S fuel =>
      match chain with
      | [] => Bug
      | pr :: parents =>
          let '(more, pr) := advance pr in
          if more <=? 0 then Ret (true, m, pr :: parents, e)
          else
            match pr_pe pr with
            | None => Bug
            | Some pe =>
                let vaddr := pe_vaddr pe in
                let nr_pages := u32 (pe_nr_pages pe) in
                if u64 (vaddr + u64 (nr_pages * PAGE_SIZE)) >? size then Ret (true, m, pr :: parents, e)
                else
                  let! (r, chain, e) := read_pages (pr :: parents) e vaddr nr_pages (u64 (addr + vaddr)) in
                  match r with
                  | None => Ret (false, m, chain, e)
                  | Some ws => restore_shmem_loop fuel chain e (store m ws) addr size
                  end
            end
      end
  end.

(** [opened]: what [open_page_read] returned; the reader it filled is [chain]. *)
Definition do_restore_shmem_content (opened : Z) (chain : list page_read) (e : env) (m : memory) (addr size : Z)
    : outcome (Z * memory * env) :=
  if opened <=? 0 then Ret (-1, m, e)
  else
    match chain with
    | [] => Bug
    | pr :: _ =>
        let! (ok, m, chain, e) := restore_shmem_loop (S (length (pmes pr))) chain e m addr size in
        let! (ret, ws, chain, e) := sync_pages chain e in
        let! e := close_page_read chain e in
        Ret (if ok : bool then ret else -1, store m ws, e)
    end.

Definition restore_shmem_content (opened : Z) (chain : list page_read) (e : env) (m : memory) (addr si_size : Z) :=
  do_restore_shmem_content opened chain e m addr si_size.

Definition restore_sysv_shmem_content (opened : Z) (chain : list page_read) (e : env) (m : memory) (addr size : Z) :=
  do_restore_shmem_content opened chain e m addr (round_up size PAGE_SIZE).
End Restore.

(** ** Correctness *)

Section RestoreOk.
Context {Ops : PageOps} (c : Z -> list Z) {Laws : PageOpsOk Ops c}.

Definition moved_pages (addr : Z) (l : list Z) : list (Z * list Z) := (fun a => (addr + a, c a)) <$> l.

Lemma asked_moved addr va nr : asked c va nr (addr + va) = moved_pages addr (page_addrs va nr).
Proof.
  unfold asked, moved_pages, page_addrs. rewrite <- list_fmap_compose. apply list_fmap_ext. intros ? j _. simpl. f_equal. lia.
Qed.

Lemma moved_pages_fst addr l : (moved_pages addr l).*1 = (fun a => addr + a) <$> l.
Proof. unfold moved_pages. rewrite <- list_fmap_compose. by apply list_fmap_ext. Qed.

(** A segment of [size] bytes at [addr], and a pagemap with its pages. *)
Record segment_ok (l : list pagemap_entry) (addr size : Z) : Prop := SegmentOk {
  sg_pmes : pagemaps_ok l;
  sg_inside : Forall (fun pe => entry_end pe <= size) l;
  sg_size : 0 < size <= 2 ^ 43;
  sg_addr : 0 <= addr /\ addr mod PAGE_SIZE = 0 /\ addr + size < 2 ^ 64;
  sg_has : forall a, a ∈ pages_of l -> ops_has a
}.

(** Entries before [j] are on their way: in place, or owed. *)
Record restoring (l : list pagemap_entry) (addr : Z) (m0 : memory) (j : nat) (chain : list page_read) (m : memory) (owed : list (Z * list Z)) : Prop := Restoring {
  rs_inv : ops_inv chain owed;
  rs_head : exists pr parents, chain = pr :: parents /\ pmes pr = l /\ visiting pr j;
  rs_owed : owed.*1 ⊆ (moved_pages addr (pages_of (take j l))).*1;
  rs_mem : forall a, set_pages m owed a = set_pages m0 (moved_pages addr (pages_of (take j l))) a
}.

(** One entry. *)
Lemma restore_entry l addr size m0 j pe chain m owed e : segment_ok l addr size -> restoring l addr m0 j chain m owed -> l !! j = Some pe ->
  exists pr parents pr', chain = pr :: parents /\ advance pr = (1, pr') /\ pr_pe pr' = Some pe /\
    u32 (pe_nr_pages pe) = pe_nr_pages pe /\ u64 (pe_vaddr pe + u64 (pe_nr_pages pe * PAGE_SIZE)) <= size /\ u64 (addr + pe_vaddr pe) = addr + pe_vaddr pe /\
    exists r chain' e', read_pages (pr' :: parents) e (pe_vaddr pe) (pe_nr_pages pe) (addr + pe_vaddr pe) = Ret (r, chain', e') /\
      ops_safe chain' /\ (ops_ok e -> r <> None /\ ops_ok e') /\
      forall ws, r = Some ws -> exists owed', restoring l addr m0 (S j) chain' (store m ws) owed'.
Proof.
  intros [Hok Hin Hsz Had Hhas] [Hinv (pr & parents & -> & Hl & Hv) Hsub Hmem] Hj. subst l.
  destruct (visiting_advance pr j pe Hok Hv Hj) as (pr' & Ea & Hat & Hc & Hs & Hcur & Hcv).
  pose proof (ops_move pr pr' parents owed Hinv Hs Hcur Hcv) as Hinv'. rewrite Forall_forall in Hin.
  pose proof (Hin pe ltac:(by eapply list_elem_of_lookup_2)) as Hend.
  destruct (pagemaps_ok_lookup _ _ _ Hok Hj) as ((P1 & P2 & P3 & P4 & P5 & P6 & _) & _). unfold entry_end, PAGE_SIZE in Hend.
  exists pr, parents, pr'. split; [done|]. split; [done|]. pose proof Hat as [_ Hpe _ Hcva _]. split; [done|].
  split; [rewrite u32_small; lia|]. split; [unfold PAGE_SIZE; rewrite (u64_small (_ * _)), u64_small; lia|]. split; [rewrite u64_small; lia|].
  rewrite Z.mul_0_l, Z.add_0_r in Hcva. rewrite <- Hcva in *.
  destruct (ops_read pr' parents owed e j pe 0 (pe_nr_pages pe) (addr + cvaddr pr')) as (r & chain' & e' & E & S1 & S2 & S3); try done; try lia.
  - rewrite Zplus_mod. destruct Had as (_ & -> & _). by rewrite P3.
  - unfold PAGE_SIZE in *. lia.
  - intros k Hk. apply Hhas. eapply elem_pages_of; [done|]. apply elem_page_addrs. exists k. split; [done|]. congruence.
  - intros a Ha Ho. apply Hsub in Ho. rewrite asked_moved, moved_pages_fst in Ha. rewrite moved_pages_fst in Ho.
    apply list_elem_of_fmap in Ha as (v & -> & Hva). apply list_elem_of_fmap in Ho as (w & Ew & Hw).
    pose proof (pages_of_below _ _ _ _ Hok Hj Hw). apply elem_page_addrs in Hva as (k & Hk & ->). unfold PAGE_SIZE in *. lia.
  - exists r, chain', e'. split; [done|]. split; [done|]. split; [done|]. intros ws Hw.
    destruct (S3 ws Hw) as (pr2 & ps2 & owed' & -> & I1 & I2 & I3 & I4 & I5 & I6). exists owed'. rewrite asked_moved in I5, I6.
    assert (Esn := pages_of_snoc _ _ _ Hj). rewrite <- Hcva in Esn. split.
    + done.
    + exists pr2, ps2. split; [done|]. destruct Hs as (Hpm & _). split; [congruence|]. by eapply visit_after.
    + rewrite Esn. unfold moved_pages in *. rewrite (fmap_app (fun a => (addr + a, c a))), fmap_app. intros a Ha. apply I5 in Ha.
      apply elem_of_app. apply elem_of_app in Ha as [Ha|Ha]; [left; by apply Hsub|by right].
    + intros a. rewrite I6, Esn. unfold moved_pages. rewrite fmap_app, set_pages_app. apply set_pages_ext. exact Hmem.
Qed.

Lemma restore_shmem_loop_ok l addr size m0 : segment_ok l addr size -> forall fuel j chain m owed e, (length l - j < fuel)%nat ->
  restoring l addr m0 j chain m owed ->
  exists ok m' chain' e', restore_shmem_loop fuel chain e m addr size = Ret (ok, m', chain', e') /\ ops_safe chain' /\
    (ops_ok e -> ok = true /\ ops_ok e') /\
    (ok = true -> exists owed', ops_inv chain' owed' /\ forall a, set_pages m' owed' a = set_pages m0 (moved_pages addr (pages_of l)) a).
Proof.
  intros Hsg. induction fuel as [|fuel IH]; intros j chain m owed e Hf Hr; [lia|]. cbn [restore_shmem_loop].
  destruct (l !! j) as [pe|] eqn:Hj.
  - destruct (restore_entry l addr size m0 j pe chain m owed e Hsg Hr Hj)
      as (pr & parents & pr' & -> & Ea & Hpe & E1 & E2 & E3 & r & chain' & e' & Er & S1 & S2 & S3).
    rewrite Ea. cbn [Z.leb Z.compare]. rewrite Hpe. rewrite E1, E3, Z.gtb_ltb. destruct (Z.ltb_spec size (u64 (pe_vaddr pe + u64 (pe_nr_pages pe * PAGE_SIZE)))); [lia|].
    rewrite Er. cbn [obind]. destruct r as [ws|]; [|eexists _, _, _, _; split; [done|]; split; [done|]; split; [|done]; intros He; by destruct (S2 He)].
    destruct (S3 ws eq_refl) as (owed' & Hr'). pose proof (lookup_lt_Some _ _ _ Hj).
    destruct (IH (S j) chain' (store m ws) owed' e' ltac:(lia) Hr') as (ok & m' & chain2 & e2 & E & T1 & T2 & T3).
    exists ok, m', chain2, e2. split; [exact E|]. split; [done|]. split; [|done]. intros He. by apply T2, S2.
  - destruct Hr as [Hinv (pr & parents & -> & Hl & Hv) Hsub Hmem]. subst l. pose proof (visiting_range _ _ Hv). apply lookup_ge_None in Hj.
    assert (j = length (pmes pr)) as -> by lia. destruct (visiting_end pr Hv) as (pr' & -> & Hs & Hc & Hcv). cbn [Z.leb Z.compare].
    pose proof (ops_move pr pr' parents owed Hinv Hs Hc ltac:(lia)) as Hinv'. eexists _, _, _, _. split; [done|].
    split; [by apply (ops_inv_safe _ owed)|]. split; [done|]. intros _. exists owed. split; [done|]. intros a. by rewrite Hmem, take_ge.
Qed.

(** What a restore of a segment promises. *)
Lemma restore_shmem_spec chain e m addr size pr parents : segment_ok (pmes pr) addr size -> chain = pr :: parents -> ops_inv chain [] -> visiting pr 0 ->
  exists r m' e', do_restore_shmem_content 1 chain e m addr size = Ret (r, m', e') /\ (ops_ok e -> r = 0) /\
    (r = 0 -> (forall a, a ∈ pages_of (pmes pr) -> m' (addr + a) = c a) /\
      forall b, (forall a, a ∈ pages_of (pmes pr) -> b <> addr + a) -> m' b = m b).
Proof.
  intros Hsg -> Hinv Hv. unfold do_restore_shmem_content. cbn [Z.leb Z.compare].
  destruct (restore_shmem_loop_ok (pmes pr) addr size m Hsg (S (length (pmes pr))) 0 (pr :: parents) m [] e)
    as (ok & m1 & chain1 & e1 & -> & S1 & S2 & S3); [lia| |].
  { split; [done|by exists pr, parents|done|done]. }
  cbn [obind]. destruct (ops_sync chain1 e1 S1) as (r & ws & chain2 & e2 & -> & I1 & _ & I2 & I3). cbn [obind].
  destruct (close_idle chain2 e2 I1) as (e3 & ->). cbn [obind]. eexists _, _, _. split; [done|]. split.
  { intros He. destruct (S2 He) as [-> He1]. by destruct (I2 He1). }
  destruct ok; [intros ->|done]. destruct (S3 eq_refl) as (owed & Ho & Hm). destruct (ops_reader chain1 owed Ho) as (Hnd & pr1 & ps1 & -> & _).
  destruct (I3 owed pr1 ps1 Ho eq_refl eq_refl) as (pr2 & ps2 & _ & _ & _ & _ & _ & Hst).
  assert (Hall : forall a, store m1 ws a = set_pages m (moved_pages addr (pages_of (pmes pr))) a) by (intros a; by rewrite Hst, Hm).
  split.
  - intros a Ha. rewrite Hall. apply set_pages_in.
    + rewrite moved_pages_fst. apply NoDup_fmap_2; [intros x y; lia|]. apply pages_of_nodup, Hsg.
    + apply list_elem_of_fmap. by exists a.
  - intros b Hb. rewrite Hall. apply set_pages_out. rewrite moved_pages_fst. intros Hin. apply list_elem_of_fmap in Hin as (a & -> & Ha). by apply (Hb a).
Qed.
End RestoreOk.

(** ** Over a chain of snapshots *)

Lemma round_up_bounds x : 0 < x <= 2 ^ 43 -> x <= round_up x PAGE_SIZE <= 2 ^ 43.
Proof.
  intros Hx. unfold round_up. rewrite (u64_small (x - 1)) by lia. change (PAGE_SIZE - 1) with 4095.
  assert (H1 : x - 1 <= Z.lor (x - 1) 4095).
  { pose proof (Z.add_lor_land (x - 1) 4095) as Hl. assert (El : Z.land (x - 1) 4095 = (x - 1) mod 2 ^ 12) by (apply (Z.land_ones (x - 1) 12); lia). rewrite El in Hl.
    pose proof (Z.mod_pos_bound (x - 1) (2 ^ 12) ltac:(lia)). lia. }
  assert (H2 : Z.lor (x - 1) 4095 < 2 ^ 43).
  { apply Z.log2_lt_cancel. change (Z.log2 (2 ^ 43)) with 43. rewrite Z.log2_lor by lia. change (Z.log2 4095) with 11.
    assert (Z.log2 (x - 1) < 43); [|lia]. destruct (Z.eq_dec (x - 1) 0) as [->|]; [done|]. apply Z.log2_lt_pow2; lia. }
  rewrite u64_small by lia. lia.
Qed.


