(* ===== verification/PagePipe.v ===== *)
(** The page pipe of criu/page-pipe.c: the pages of a task, in the order they
    will be dumped, spread over kernel pipes.  Each buffer (page_pipe_buf)
    describes a part of one pipe with a window of the shared array of iovecs;
    buffers of the same type share a pipe while there is room.

    Buffers are reached through pointers ([bufs], [free_bufs], [prev]); the
    model keeps them in an arena and a pointer is an index of it.  What the
    kernel does is a parameter: [getpipe] is the answer of F_GETPIPE_SZ on a
    new pipe, [setpipe n] that of F_SETPIPE_SZ with [n] bytes; the list of
    outcomes [al] covers the allocations and pipe(). *)
From S2P Require Import Prelude.

Definition PIPE_MAX_SIZE : Z := 2 ^ 3 * PAGE_SIZE / 40.   (* sizeof(struct kernel_pipe_buffer) is 40 *)
Definition NR_PIPES_PER_CHUNK : Z := 8.
Definition PPB_LAZY : Z := 1.
Definition PPB_FORCE_RAW : Z := 2.
Definition PP_HOLE_PARENT : Z := 1.
Definition PP_CHUNK_MODE : Z := 1.
Definition PP_OWN_IOVS : Z := 4.
Definition PP_HOLES_BATCH : Z := 32.
Definition EAGAIN : Z := 11.

Record page_pipe_buf := PagePipeBuf {
  ppb_pipe : Z;         (** p[2]: which pipe *)
  pipe_size : Z;
  nr_segs : Z;
  pipe_off : Z;
  pages_in : Z;
  ppb_flags : Z;
  ppb_iov : Z           (** iov: where its window of iovs[] starts *)
}.
#[global] Instance page_pipe_buf_inhabited : Inhabited page_pipe_buf :=
  populate (PagePipeBuf 0 0 0 0 0 0 0).

Record page_pipe := PagePipe {
  nr_pipes : Z;
  arena : list page_pipe_buf;
  bufs : list nat;
  free_bufs : list nat;
  prev : list (option nat);         (** indexed by type *)
  nr_iovs : Z;
  free_iov : Z;
  iovs : list iovec;
  nr_holes : Z;
  free_hole : Z;
  holes : list iovec;
  hole_flags : list Z;
  pp_flags : Z;
  break_iov : bool
}.

Definition set_arena (a : list page_pipe_buf) (pp : page_pipe) : page_pipe :=
  PagePipe (nr_pipes pp) a (bufs pp) (free_bufs pp) (prev pp) (nr_iovs pp) (free_iov pp) (iovs pp)
    (nr_holes pp) (free_hole pp) (holes pp) (hole_flags pp) (pp_flags pp) (break_iov pp).
Definition set_bufs (b f : list nat) (pp : page_pipe) : page_pipe :=
  PagePipe (nr_pipes pp) (arena pp) b f (prev pp) (nr_iovs pp) (free_iov pp) (iovs pp)
    (nr_holes pp) (free_hole pp) (holes pp) (hole_flags pp) (pp_flags pp) (break_iov pp).
Definition set_iovs (l : list iovec) (free : Z) (pp : page_pipe) : page_pipe :=
  PagePipe (nr_pipes pp) (arena pp) (bufs pp) (free_bufs pp) (prev pp) (nr_iovs pp) free l
    (nr_holes pp) (free_hole pp) (holes pp) (hole_flags pp) (pp_flags pp) (break_iov pp).
Definition set_break_iov (b : bool) (pp : page_pipe) : page_pipe :=
  PagePipe (nr_pipes pp) (arena pp) (bufs pp) (free_bufs pp) (prev pp) (nr_iovs pp) (free_iov pp) (iovs pp)
    (nr_holes pp) (free_hole pp) (holes pp) (hole_flags pp) (pp_flags pp) b.
Definition set_holes (n f : Z) (h : list iovec) (fl : list Z) (pp : page_pipe) : page_pipe :=
  PagePipe (nr_pipes pp) (arena pp) (bufs pp) (free_bufs pp) (prev pp) (nr_iovs pp) (free_iov pp) (iovs pp)
    n f h fl (pp_flags pp) (break_iov pp).
(** [ppb_alloc]'s changes: a new buffer at the tail, the pipes made so far and
    the last buffer of type [t]. *)
Definition add_buf (b : page_pipe_buf) (nr : Z) (t : Z) (pp : page_pipe) : page_pipe :=
  let id := length (arena pp) in
  PagePipe nr (arena pp ++ [b]) (bufs pp ++ [id]) (free_bufs pp) (<[Z.to_nat t := Some id]> (prev pp))
    (nr_iovs pp) (free_iov pp) (iovs pp) (nr_holes pp) (free_hole pp) (holes pp) (hole_flags pp)
    (pp_flags pp) (break_iov pp).

Definition buf (pp : page_pipe) (id : nat) : page_pipe_buf := arena pp !!! id.
Definition upd_buf (f : page_pipe_buf -> page_pipe_buf) (id : nat) (pp : page_pipe) : page_pipe :=
  set_arena (alter f id (arena pp)) pp.

Definition set_pipe_size (n : Z) (b : page_pipe_buf) : page_pipe_buf :=
  PagePipeBuf (ppb_pipe b) n (nr_segs b) (pipe_off b) (pages_in b) (ppb_flags b) (ppb_iov b).
Definition ppb_init (pages segs flags iov : Z) (b : page_pipe_buf) : page_pipe_buf :=
  PagePipeBuf (ppb_pipe b) (pipe_size b) segs (pipe_off b) pages flags iov.
Definition set_counts (pages segs : Z) (b : page_pipe_buf) : page_pipe_buf :=
  PagePipeBuf (ppb_pipe b) (pipe_size b) segs (pipe_off b) pages (ppb_flags b) (ppb_iov b).

Definition chunk_mode (pp : page_pipe) : bool := negb (Z.land (pp_flags pp) PP_CHUNK_MODE =? 0).

(** ** iovecs *)
Definition iov_grow_page (iov : iovec) (addr : Z) : option iovec :=
  if u64 (iov_base iov + iov_len iov) =? addr
  then Some (Iovec (iov_base iov) (u64 (iov_len iov + PAGE_SIZE))) else None.
Definition iov_init (addr : Z) : iovec := Iovec addr PAGE_SIZE.

Section PagePipeOps.
Context (lazy_pages : bool) (getpipe : Z) (setpipe : Z -> Z).

(** The result is -1 or 0; the buffer's size grows on success. *)
Definition __ppb_resize_pipe (b : page_pipe_buf) (new_size : Z) : outcome (Z * page_pipe_buf) :=
  let ret := setpipe (u64 (new_size * PAGE_SIZE)) in
  if ret <? 0 then Ret (-1, b)
  else
    let ret := ret / PAGE_SIZE in
    if ret <? pipe_size b then Bug else Ret (0, set_pipe_size ret b).

Definition ppb_resize_pipe (b : page_pipe_buf) : outcome (Z * page_pipe_buf) :=
  let new_size := u32 (pipe_size b * 2) in
  if u64 (pages_in b + pipe_off b) <? pipe_size b then Ret (0, b)
  else if (new_size >? PIPE_MAX_SIZE) && negb (pipe_size b <? PIPE_MAX_SIZE) then Ret (1, b)
  else
    let new_size := if new_size >? PIPE_MAX_SIZE then PIPE_MAX_SIZE else new_size in
    let! (ret, b) := __ppb_resize_pipe b new_size in
    Ret (if ret <? 0 then 1 else 0, b).

Definition ppb_type (flags : Z) : Z :=
  Z.lor (if negb (Z.land flags PPB_LAZY =? 0) && lazy_pages then PPB_LAZY else 0)
        (if negb (Z.land flags PPB_FORCE_RAW =? 0) then PPB_FORCE_RAW else 0).

Definition pp_prev_ppb (pp : page_pipe) (flags : Z) : option nat :=
  if chunk_mode pp then None
  else match bufs pp with [] => None | _ => default None (prev pp !! Z.to_nat (ppb_type flags)) end.

(** A pipe of its own for the new buffer. *)
Definition ppb_new_pipe (al : list bool) (pp : page_pipe) (flags : Z) : bool * page_pipe * list bool :=
  let '(ok, al) := xalloc al in                                        (* pipe() *)
  if negb ok then (false, pp, al)
  else if getpipe <? 0 then (false, pp, al)
  else
    (true, add_buf (PagePipeBuf (nr_pipes pp) (getpipe / PAGE_SIZE) 0 0 0 0 0) (nr_pipes pp + 1)
             (ppb_type flags) pp, al).

Definition ppb_alloc (al : list bool) (pp : page_pipe) (flags : Z)
    : outcome (bool * page_pipe * list bool) :=
  let '(ok, al) := xalloc al in                                        (* xmalloc *)
  if negb ok then Ret (false, pp, al)
  else
    match pp_prev_ppb pp flags with
    | Some id =>
        let! (ret, b) := ppb_resize_pipe (buf pp id) in
        let pp := upd_buf (fun _ => b) id pp in
        if ret =? 0 then
          Ret (true, add_buf (PagePipeBuf (ppb_pipe b) (pipe_size b) 0 (u64 (pages_in b + pipe_off b)) 0 0 0)
                       (nr_pipes pp) (ppb_type flags) pp, al)
        else Ret (ppb_new_pipe al pp flags)
    | None => Ret (ppb_new_pipe al pp flags)
    end.

Definition page_pipe_grow (al : list bool) (pp : page_pipe) (flags : Z)
    : outcome (Z * page_pipe * list bool) :=
  match free_bufs pp with
  | id :: free =>
      let pp := set_bufs (bufs pp ++ [id]) free pp in
      Ret (0, upd_buf (ppb_init 0 0 flags (free_iov pp)) id pp, al)
  | [] =>
      if chunk_mode pp && (nr_pipes pp =? NR_PIPES_PER_CHUNK) then Ret (- EAGAIN, pp, al)
      else
        let! (ok, pp, al) := ppb_alloc al pp flags in
        if negb ok then Ret (-1, pp, al)
        else Ret (0, upd_buf (ppb_init 0 0 flags (free_iov pp)) (pred (length (arena pp))) pp, al)
  end.

Definition create_page_pipe (al : list bool) (segs : Z) (given : option (list iovec)) (flags : Z)
    : outcome (option page_pipe * list bool) :=
  let '(ok, al) := xalloc al in
  if negb ok then Ret (None, al)
  else
    let '(iovs, flags, al) :=
      match given with
      | Some iovs => (Some iovs, flags, al)
      | None =>
          let '(ok, al) := xalloc al in
          ((if ok then Some (replicate (Z.to_nat segs) (Iovec 0 0)) else None), Z.lor flags PP_OWN_IOVS, al)
      end in
    match iovs with
    | None => Ret (None, al)
    | Some iovs =>
        let pp := PagePipe 0 [] [] [] [None; None; None; None] segs 0 iovs 0 0 [] [] flags false in
        let! (ret, pp, al) := page_pipe_grow al pp 0 in
        Ret (if ret =? 0 then Some pp else None, al)
    end.

(** Every buffer goes to the head of the free list; the windows are not
    rewound. *)
Definition page_pipe_reinit (pp : page_pipe) : outcome page_pipe :=
  if negb (chunk_mode pp) then Bug
  else
    let pp := set_bufs [] (rev (bufs pp) ++ free_bufs pp) pp in
    let pp := set_holes (nr_holes pp) 0 (holes pp) (hole_flags pp) pp in
    let! (ret, pp, _) := page_pipe_grow [] pp 0 in
    if ret =? 0 then Ret pp else Bug.

Definition try_add_page_to (pp : page_pipe) (id : nat) (addr flags : Z) : outcome (Z * page_pipe) :=
  let b := buf pp id in
  if negb (ppb_flags b =? flags) then Ret (1, pp)
  else
    let! (ret, b) := ppb_resize_pipe b in
    let pp := upd_buf (fun _ => b) id pp in
    if ret =? 1 then Ret (1, pp)
    else
      let last := Z.to_nat (ppb_iov b + nr_segs b - 1) in
      let grown :=
        if negb (break_iov pp) && negb (nr_segs b =? 0)
        then match iovs pp !! last with Some iov => iov_grow_page iov addr | None => None end
        else None in
      match grown with
      | Some iov =>
          Ret (0, upd_buf (set_counts (pages_in b + 1) (nr_segs b)) id
                    (set_break_iov false (set_iovs (<[last := iov]> (iovs pp)) (free_iov pp) pp)))
      | None =>
          let pp := set_iovs (<[Z.to_nat (ppb_iov b + nr_segs b) := iov_init addr]> (iovs pp))
                      (free_iov pp + 1) pp in
          if free_iov pp >? nr_iovs pp then Bug
          else Ret (0, upd_buf (set_counts (pages_in b + 1) (nr_segs b + 1)) id (set_break_iov false pp))
      end.

Definition try_add_page (pp : page_pipe) (addr flags : Z) : outcome (Z * page_pipe) :=
  match last (bufs pp) with
  | None => Bug
  | Some id => try_add_page_to pp id addr flags
  end.

Definition page_pipe_add_page (al : list bool) (pp : page_pipe) (addr flags : Z)
    : outcome (Z * page_pipe * list bool) :=
  let! (ret, pp) := try_add_page pp addr flags in
  if ret <=? 0 then Ret (ret, pp, al)
  else
    let! (ret, pp, al) := page_pipe_grow al pp flags in
    if ret <? 0 then Ret (ret, pp, al)
    else
      let! (ret, pp) := try_add_page pp addr flags in
      if ret >? 0 then Bug else Ret (ret, pp, al).
End PagePipeOps.

(** The pipes closed by [destroy_page_pipe]: those of the buffers at offset 0. *)
Definition ppb_destroy (b : page_pipe_buf) : list Z := if pipe_off b =? 0 then [ppb_pipe b] else [].
Definition destroy_page_pipe (pp : page_pipe) : list Z :=
  concat ((fun id => ppb_destroy (buf pp id)) <$> (free_bufs pp ++ bufs pp)).

(** ** Holes *)
Definition put_hole (pp : page_pipe) (addr flags : Z) : page_pipe :=
  let last := Z.to_nat (free_hole pp - 1) in
  let grown :=
    if negb (free_hole pp =? 0) && bool_decide (hole_flags pp !! last = Some flags)
    then match holes pp !! last with Some iov => iov_grow_page iov addr | None => None end
    else None in
  match grown with
  | Some iov => set_holes (nr_holes pp) (free_hole pp) (<[last := iov]> (holes pp)) (hole_flags pp) pp
  | None =>
      let n := Z.to_nat (free_hole pp) in
      set_holes (nr_holes pp) (free_hole pp + 1) (take n (holes pp) ++ [iov_init addr])
        (take n (hole_flags pp) ++ [flags]) pp
  end.

Definition page_pipe_add_hole (al : list bool) (pp : page_pipe) (addr flags : Z)
    : Z * page_pipe * list bool :=
  if free_hole pp >=? nr_holes pp then
    let '(ok1, al) := xalloc al in
    if negb ok1 then (-1, pp, al)
    else
      let '(ok2, al) := xalloc al in
      if negb ok2 then (-1, pp, al)
      else (0, put_hole (set_holes (nr_holes pp + PP_HOLES_BATCH) (free_hole pp) (holes pp) (hole_flags pp) pp)
                 addr flags, al)
  else (0, put_hole pp addr flags, al).

(** ** Reading back *)
Definition buf_iovs (pp : page_pipe) (id : nat) : list iovec :=
  let b := buf pp id in take (Z.to_nat (nr_segs b)) (drop (Z.to_nat (ppb_iov b)) (iovs pp)).

(** The inner loop of [get_ppb]: the iovec that holds [addr] and the bytes in
    front of it. *)
Fixpoint find_iov (l : list iovec) (addr len : Z) : option (iovec * Z) :=
  match l with
  | [] => None
  | iov :: l =>
      if (addr <? iov_base iov) || (addr >=? u64 (iov_base iov + iov_len iov))
      then find_iov l addr (u64 (len + iov_len iov))
      else Some (iov, u64 (len + (addr - iov_base iov)))
  end.

Fixpoint find_ppb (pp : page_pipe) (l : list nat) (addr : Z) : option (nat * iovec * Z) :=
  match l with
  | [] => None
  | id :: l =>
      match find_iov (buf_iovs pp id) addr 0 with
      | Some (iov, len) => Some (id, iov, len)
      | None => find_ppb pp l addr
      end
  end.

(** The buffer found moves to the head of the list. *)
Definition get_ppb (pp : page_pipe) (addr : Z) : option (nat * iovec * Z) * page_pipe :=
  match find_ppb pp (bufs pp) addr with
  | None => (None, pp)
  | Some (id, iov, len) =>
      (Some (id, iov, len), set_bufs (id :: filter (fun i => i <> id) (bufs pp)) (free_bufs pp) pp)
  end.

(** [tee n] and [splice n] answer the two calls.  Besides the result and
    [*nr_pages]: the pipe the data is taken from, the bytes copied from its
    beginning, and the bytes of them thrown away. *)
Definition page_pipe_read (tee splice : Z -> Z) (pp : page_pipe) (addr nr_pages flags : Z)
    : Z * Z * option (Z * Z * Z) * page_pipe :=
  match get_ppb pp addr with
  | (None, pp) => (0, 0, None, pp)
  | (Some (id, iov, skip), pp) =>
      let b := buf pp id in
      if Z.land (ppb_flags b) flags =? 0 then (0, nr_pages, None, pp)     (* return false *)
      else
        let len := Z.min (u64 (u64 (iov_base iov + iov_len iov) - addr)) (u64 (nr_pages * PAGE_SIZE)) in
        let nr_pages := len / PAGE_SIZE in
        let skip := u64 (skip + u64 (pipe_off b * PAGE_SIZE)) in
        let len := u64 (len + skip) in
        if negb (tee len =? len) then (-1, nr_pages, None, pp)
        else if negb (splice skip =? skip) then (-1, nr_pages, Some (ppb_pipe b, len, 0), pp)
        else (0, nr_pages, Some (ppb_pipe b, len, skip), pp)
  end.

(** ** Specification *)

(** The pages a buffer, and the whole page pipe, stand for: addresses with the
    flags they were added with, in order. *)
Definition buf_pages (pp : page_pipe) (id : nat) : list (Z * Z) :=
  (fun a => (a, ppb_flags (buf pp id))) <$> concat (iov_pages <$> buf_iovs pp id).
Definition contents (pp : page_pipe) : list (Z * Z) := concat (buf_pages pp <$> bufs pp).

(** An iovec of whole pages, page aligned. *)
Definition page_iov (iov : iovec) : Prop := iov_ok iov /\ iov_base iov mod PAGE_SIZE = 0.

Definition page_addr (a : Z) : Prop := 0 <= a /\ a mod PAGE_SIZE = 0 /\ a + PAGE_SIZE < 2 ^ 64.

(** A buffer of [bufs]: its window of iovecs, the pages in it, its pipe. *)
Record buf_ok (pp : page_pipe) (id : nat) : Prop := BufOk {
  bo_id : (id < length (arena pp))%nat;
  bo_segs : 0 <= nr_segs (buf pp id) /\ 0 <= ppb_iov (buf pp id) /\
            ppb_iov (buf pp id) + nr_segs (buf pp id) <= free_iov pp;
  bo_iovs : Forall page_iov (buf_iovs pp id);
  bo_pages : pages_in (buf pp id) = zlen (concat (iov_pages <$> buf_iovs pp id));
  bo_size : 0 < pipe_size (buf pp id) < 2 ^ 20;
  bo_room : 0 <= pipe_off (buf pp id) /\
            pages_in (buf pp id) + pipe_off (buf pp id) <= pipe_size (buf pp id)
}.

(** A buffer waiting for reuse owns its pipe. *)
Definition free_ok (pp : page_pipe) (id : nat) : Prop :=
  (id < length (arena pp))%nat /\ 0 < pipe_size (buf pp id) < 2 ^ 20 /\ pipe_off (buf pp id) = 0.

Record pp_pre (pp : page_pipe) : Prop := PpPre {
  po_nodup : NoDup (bufs pp ++ free_bufs pp);
  po_bufs : Forall (buf_ok pp) (bufs pp);
  po_free : Forall (free_ok pp) (free_bufs pp);
  po_iovs : zlen (iovs pp) = nr_iovs pp /\ 0 <= free_iov pp <= nr_iovs pp;
  po_prev : forall t id, prev pp !! t = Some (Some id) -> chunk_mode pp = false -> id ∈ bufs pp
}.

(** The last buffer is the one that takes pages: the free iovecs start behind
    its window, which starts behind all the others. *)
Record pp_ok (pp : page_pipe) : Prop := PpOk {
  po_pre :> pp_pre pp;
  po_tail : exists init t, bufs pp = init ++ [t] /\
    ppb_iov (buf pp t) + nr_segs (buf pp t) = free_iov pp /\
    Forall (fun id => ppb_iov (buf pp id) + nr_segs (buf pp id) <= ppb_iov (buf pp t)) init
}.

(** ** Frame lemmas *)
Lemma buf_upd_eq f id pp : (id < length (arena pp))%nat -> buf (upd_buf f id pp) id = f (buf pp id).
Proof. intros H. unfold buf, upd_buf. by apply list_lookup_total_alter_eq. Qed.
Lemma buf_upd_ne f id id' pp : id <> id' -> buf (upd_buf f id pp) id' = buf pp id'.
Proof. intros H. unfold buf, upd_buf. by apply list_lookup_total_alter_ne. Qed.

(** [pp'] agrees with [pp] on buffer [id]. *)
Definition same_buf (pp pp' : page_pipe) (id : nat) : Prop :=
  buf pp' id = buf pp id /\ buf_iovs pp' id = buf_iovs pp id.

Lemma same_buf_pages pp pp' id : same_buf pp pp' id -> buf_pages pp' id = buf_pages pp id.
Proof. intros [H1 H2]. unfold buf_pages. by rewrite H1, H2. Qed.

Lemma same_buf_ok pp pp' id : same_buf pp pp' id -> (length (arena pp) <= length (arena pp'))%nat ->
  free_iov pp <= free_iov pp' -> buf_ok pp id -> buf_ok pp' id.
Proof. intros [H1 H2] Hl Hf [A B C D E F]. split; rewrite ?H1, ?H2; try done; lia. Qed.

Lemma same_bufs_contents pp pp' l :
  Forall (same_buf pp pp') l -> concat (buf_pages pp' <$> l) = concat (buf_pages pp <$> l).
Proof.
  induction 1 as [|id l H _ IH]; [done|]. rewrite !fmap_cons. cbn [concat].
  by rewrite IH, (same_buf_pages _ _ _ H).
Qed.

Lemma contents_snoc pp init t : bufs pp = init ++ [t] ->
  contents pp = concat (buf_pages pp <$> init) ++ buf_pages pp t.
Proof. intros E. unfold contents. rewrite E, fmap_app, concat_app. simpl. by rewrite app_nil_r. Qed.

Section AddPage.
Context (lazy_pages : bool) (getpipe : Z) (setpipe : Z -> Z).
(** fcntl(2): a new pipe holds at least a page; F_SETPIPE_SZ fails or sets
    at least the size asked for; both answer with an int. *)
Context (Hget : getpipe < 0 \/ PAGE_SIZE <= getpipe < 2 ^ 31).
Context (Hset : forall n, setpipe n < 0 \/ n <= setpipe n < 2 ^ 31).

Lemma pipe_pages n : PAGE_SIZE <= n < 2 ^ 31 -> 0 < n / PAGE_SIZE < 2 ^ 20.
Proof.
  unfold PAGE_SIZE. intros H. split; [apply Z.div_str_pos; lia|apply Z.div_lt_upper_bound; lia].
Qed.

Lemma set_pipe_size_id b : set_pipe_size (pipe_size b) b = b.
Proof. by destruct b. Qed.

Lemma __ppb_resize_pipe_ok b n : 0 <= pipe_size b < n -> n < 2 ^ 22 -> exists ret m,
  __ppb_resize_pipe setpipe b n = Ret (ret, set_pipe_size m b) /\
  (ret = 0 /\ n <= m < 2 ^ 20 \/ ret = -1 /\ m = pipe_size b).
Proof.
  intros Hn Hn'. unfold __ppb_resize_pipe.
  set (r := setpipe (u64 (n * PAGE_SIZE))).
  destruct (Z.ltb_spec r 0).
  { exists (-1), (pipe_size b). rewrite set_pipe_size_id. split; [done|]. by right. }
  assert (Hr : n <= r / PAGE_SIZE < 2 ^ 20).
  { destruct (Hset (u64 (n * PAGE_SIZE))) as [?|Hr]; [unfold r in *; lia|]. fold r in Hr.
    unfold PAGE_SIZE in *. rewrite u64_small in Hr by lia.
    split; [apply Z.div_le_lower_bound; lia|apply Z.div_lt_upper_bound; lia]. }
  destruct (Z.ltb_spec (r / PAGE_SIZE) (pipe_size b)); [lia|].
  eexists _, _; split; [done|]. by left.
Qed.

(** Resizing changes nothing but the capacity, never traps, and makes room
    when it returns 0. *)
Lemma ppb_resize_pipe_ok b : 0 < pipe_size b < 2 ^ 20 -> 0 <= pages_in b -> 0 <= pipe_off b ->
  pages_in b + pipe_off b <= pipe_size b ->
  exists ret n, ppb_resize_pipe setpipe b = Ret (ret, set_pipe_size n b) /\
    (ret = 0 /\ pipe_size b <= n < 2 ^ 20 /\ pages_in b + pipe_off b < n \/
     ret = 1 /\ n = pipe_size b /\ pages_in b + pipe_off b = n).
Proof.
  intros Hs Hp Ho Hroom. unfold ppb_resize_pipe. change PIPE_MAX_SIZE with 819.
  rewrite u64_small, u32_small by lia.
  destruct (Z.ltb_spec (pages_in b + pipe_off b) (pipe_size b)).
  { exists 0, (pipe_size b). rewrite set_pipe_size_id. split; [done|]. left. lia. }
  rewrite Z.gtb_ltb. set (n := if 819 <? pipe_size b * 2 then 819 else pipe_size b * 2).
  destruct ((819 <? pipe_size b * 2) && negb (pipe_size b <? 819)) eqn:Emax.
  { exists 1, (pipe_size b). rewrite set_pipe_size_id. split; [done|]. right. lia. }
  assert (pipe_size b < n < 2 ^ 22).
  { unfold n in *. destruct (Z.ltb_spec 819 (pipe_size b * 2)); [|lia].
    destruct (Z.ltb_spec (pipe_size b) 819); [lia|done]. }
  clearbody n. destruct (__ppb_resize_pipe_ok b n) as (ret & m & -> & [[-> ?]|[-> ->]]); [lia..| |]; cbn [obind].
  - exists 0, m. split; [done|]. left. lia.
  - exists 1, (pipe_size b). split; [done|]. right. lia.
Qed.

(** A changed tail: everything else stays. *)
Lemma same_init pp pp' init t : pp_ok pp -> bufs pp = init ++ [t] ->
  (forall id, id <> t -> buf pp' id = buf pp id) ->
  (forall id, id ∈ init -> buf_iovs pp' id = buf_iovs pp id) ->
  Forall (same_buf pp pp') init.
Proof.
  intros Hok E Hb Hi. apply Forall_lookup_2. intros k id Hk.
  assert (Hin : id ∈ init) by (by eapply list_elem_of_lookup_2).
  split; [|by apply Hi]. apply Hb. intros ->.
  pose proof (po_nodup _ Hok) as Hnd. rewrite E in Hnd. apply NoDup_app in Hnd as [Hnd _].
  apply NoDup_app in Hnd as (_ & Hd & _). apply (Hd t Hin). apply list_elem_of_singleton. done.
Qed.

(** The tail after one more page. *)
Record tail_grown (pp pp' : page_pipe) (init : list nat) (t : nat) (addr : Z) : Prop := TailGrown {
  tg_bufs : bufs pp' = bufs pp /\ free_bufs pp' = free_bufs pp /\ prev pp' = prev pp /\
            nr_iovs pp' = nr_iovs pp /\ pp_flags pp' = pp_flags pp /\
            length (arena pp') = length (arena pp) /\ length (iovs pp') = length (iovs pp) /\
            nr_pipes pp' = nr_pipes pp;
  tg_other : forall id, id <> t -> buf pp' id = buf pp id;
  tg_iovs : forall id, id ∈ init -> buf_iovs pp' id = buf_iovs pp id;
  tg_fixed : ppb_flags (buf pp' t) = ppb_flags (buf pp t) /\ ppb_iov (buf pp' t) = ppb_iov (buf pp t) /\
             pipe_off (buf pp' t) = pipe_off (buf pp t) /\ ppb_pipe (buf pp' t) = ppb_pipe (buf pp t);
  tg_free : free_iov pp <= free_iov pp' <= nr_iovs pp /\ free_iov pp' <= free_iov pp + 1 /\
            ppb_iov (buf pp' t) + nr_segs (buf pp' t) = free_iov pp' /\ 0 <= nr_segs (buf pp' t);
  tg_win : Forall page_iov (buf_iovs pp' t) /\
           concat (iov_pages <$> buf_iovs pp' t) = concat (iov_pages <$> buf_iovs pp t) ++ [addr];
  tg_pages : pages_in (buf pp' t) = pages_in (buf pp t) + 1;
  tg_size : pages_in (buf pp' t) + pipe_off (buf pp' t) <= pipe_size (buf pp' t) < 2 ^ 20
}.

Lemma tail_grown_ok pp pp' init t addr :
  pp_ok pp -> bufs pp = init ++ [t] -> tail_grown pp pp' init t addr ->
  pp_ok pp' /\ contents pp' = contents pp ++ [(addr, ppb_flags (buf pp t))].
Proof.
  intros Hok E [(T1 & T2 & T3 & T4 & T4' & T5 & T6 & _) T7 T8 (F1 & F2 & F3 & F4) (G1 & _ & G2 & G3) (W1 & W2) P1 S1].
  pose proof (same_init pp pp' init t Hok E T7 T8) as Hsame.
  pose proof Hok as [[N B Fr I Pv] (init0 & t0 & Et & Ht1 & Ht2)].
  rewrite E in Et. apply app_inj_tail in Et as [<- <-].
  pose proof B as Bt. rewrite E in Bt. apply Forall_app in Bt as [Bi Bt].
  apply Forall_cons_1 in Bt as [Bt _]. split.
  - split; [split|]; rewrite ?T1, ?T2, ?T3.
    + done.
    + rewrite E. apply Forall_app. split.
      * apply Forall_lookup_2. intros k id Hk. apply (same_buf_ok pp); [|lia|lia|].
        -- by apply (Forall_lookup_1 _ _ _ _ Hsame Hk).
        -- by apply (Forall_lookup_1 _ _ _ _ Bi Hk).
      * apply Forall_cons_2; [|apply Forall_nil_2]. destruct Bt as [Q1 Q2 Q3 Q4 Q5 Q6].
        pose proof (zlen_nonneg (concat (iov_pages <$> buf_iovs pp t))). split; [lia|lia|done| |lia|lia].
        rewrite W2, P1, Q4. unfold zlen. rewrite length_app. simpl. lia.
    + apply Forall_lookup_2. intros k id Hk. destruct (Forall_lookup_1 _ _ _ _ Fr Hk) as (R1 & R2 & R3).
      assert (id <> t).
      { intros ->. apply NoDup_app in N as (_ & Hd & _). apply (Hd t).
        - rewrite E. apply elem_of_app; right; by apply list_elem_of_singleton.
        - by eapply list_elem_of_lookup_2. }
      unfold free_ok. rewrite T7 by done. split_and!; (done || lia).
    + unfold zlen in *. split; [lia|]. split; lia.
    + intros ty id Hid Hc. apply (Pv ty id Hid). unfold chunk_mode in *. by rewrite T4' in Hc.
    + exists init, t. rewrite E. split; [done|]. split; [done|]. rewrite F2.
      apply Forall_lookup_2. intros k id Hk. pose proof (Forall_lookup_1 _ _ _ _ Ht2 Hk) as Hle.
      by rewrite (proj1 (Forall_lookup_1 _ _ _ _ Hsame Hk)).
  - rewrite (contents_snoc pp init t E), (contents_snoc pp' init t) by congruence.
    rewrite (same_bufs_contents pp pp' init Hsame), <- app_assoc. f_equal.
    unfold buf_pages. rewrite F1, W2, fmap_app. done.
Qed.

Lemma upd_buf_id pp t : upd_buf (fun _ => buf pp t) t pp = pp.
Proof.
  unfold upd_buf, set_arena. assert (alter (fun _ => buf pp t) t (arena pp) = arena pp) as ->; [|by destruct pp].
  apply list_eq. intros i. destruct (decide (i = t)) as [->|Hne]; [|by apply list_lookup_alter_ne].
  rewrite list_lookup_alter_eq. destruct (arena pp !! t) eqn:E; [|done]. simpl. f_equal.
  unfold buf. by apply list_lookup_total_correct.
Qed.

(** What a buffer that takes a page must have. *)
Lemma tail_facts pp init t : pp_ok pp -> bufs pp = init ++ [t] ->
  buf_ok pp t /\ ppb_iov (buf pp t) + nr_segs (buf pp t) = free_iov pp /\
  Forall (fun id => ppb_iov (buf pp id) + nr_segs (buf pp id) <= ppb_iov (buf pp t)) init /\
  Forall (buf_ok pp) init.
Proof.
  intros [[N B Fr I Pv] (init0 & t0 & Et & Ht1 & Ht2)] E. rewrite E in Et.
  apply app_inj_tail in Et as [<- <-]. rewrite E in B. apply Forall_app in B as [Bi Bt].
  apply Forall_cons_1 in Bt as [Bt _]. done.
Qed.

(** Writing at or behind the tail's window leaves the others. *)
Lemma buf_iovs_insert pp init t k iov f n :
  pp_ok pp -> bufs pp = init ++ [t] -> ppb_iov (buf pp t) <= Z.of_nat k ->
  forall id, id ∈ init ->
  buf_iovs (upd_buf f t (set_break_iov false (set_iovs (<[k := iov]> (iovs pp)) n pp))) id = buf_iovs pp id.
Proof.
  intros Hok E Hk id Hid. destruct (tail_facts pp init t Hok E) as (_ & _ & Hw & Hb).
  apply list_elem_of_lookup_1 in Hid as [j Hj].
  pose proof (Forall_lookup_1 _ _ _ _ Hw Hj) as Hle. cbv beta in Hle.
  destruct (Forall_lookup_1 _ _ _ _ Hb Hj) as [_ Hs _ _ _ _].
  unfold buf_iovs. rewrite buf_upd_ne.
  - change (buf (set_break_iov false (set_iovs (<[k:=iov]> (iovs pp)) n pp)) id) with (buf pp id).
    cbn [iovs upd_buf set_arena set_break_iov set_iovs]. rewrite window_insert_out; [done|lia].
  - intros ->. pose proof (po_nodup _ Hok) as Hnd. rewrite E in Hnd. apply NoDup_app in Hnd as [Hnd _].
    apply NoDup_app in Hnd as (_ & Hd & _). apply (Hd id); [by eapply list_elem_of_lookup_2|].
    by apply list_elem_of_singleton.
Qed.

(** The page continues the last iovec. *)
Lemma grow_tail pp init t b iov addr m : pp_ok pp -> bufs pp = init ++ [t] -> page_addr addr ->
  b = set_pipe_size m (buf pp t) -> pages_in b + pipe_off b < m < 2 ^ 20 ->
  nr_segs b <> 0 -> iovs pp !! Z.to_nat (ppb_iov b + nr_segs b - 1) = Some iov ->
  iov_base iov + iov_len iov = addr ->
  tail_grown pp (upd_buf (fun _ => set_counts (pages_in b + 1) (nr_segs b) b) t
    (set_break_iov false (set_iovs (<[Z.to_nat (ppb_iov b + nr_segs b - 1) :=
       Iovec (iov_base iov) (iov_len iov + PAGE_SIZE)]> (iovs pp)) (free_iov pp) pp))) init t addr.
Proof.
  intros Hok E (A1 & A2 & A3) -> Hroom Hn Hl Ha.
  destruct (tail_facts pp init t Hok E) as ([Q1 Q2 Q3 Q4 Q5 Q6] & Ht & Hw & Hb).
  cbn [set_pipe_size ppb_iov nr_segs pages_in pipe_off] in *.
  set (b := buf pp t) in *. set (k := Z.to_nat (ppb_iov b + nr_segs b - 1)) in *.
  assert (Hk : (Z.to_nat (ppb_iov b) + pred (Z.to_nat (nr_segs b)))%nat = k) by (unfold k; lia).
  assert (Hlen : (k < length (iovs pp))%nat) by (by apply lookup_lt_Some in Hl).
  assert (Hwin : buf_iovs pp t = take (pred (Z.to_nat (nr_segs b))) (drop (Z.to_nat (ppb_iov b)) (iovs pp)) ++ [iov]).
  { unfold buf_iovs. fold b. replace (Z.to_nat (nr_segs b)) with (S (pred (Z.to_nat (nr_segs b)))) at 1 by lia.
    apply window_snoc. by rewrite Hk. }
  rewrite Hwin in Q3. apply Forall_app in Q3 as [Q3 Q3']. apply Forall_cons_1 in Q3' as [[(I1 & I2 & I3 & I4) I5] _].
  set (iov' := Iovec (iov_base iov) (iov_len iov + PAGE_SIZE)).
  set (pp1 := set_break_iov false (set_iovs (<[k := iov']> (iovs pp)) (free_iov pp) pp)).
  assert (Ebt : forall f, buf (upd_buf f t pp1) t = f b) by (intros f; apply (buf_upd_eq f t pp1); done).
  assert (Hwin' : forall f, ppb_iov (f b) = ppb_iov b -> nr_segs (f b) = nr_segs b ->
    buf_iovs (upd_buf f t pp1) t =
    take (pred (Z.to_nat (nr_segs b))) (drop (Z.to_nat (ppb_iov b)) (iovs pp)) ++ [iov']).
  { intros f F1 F2. unfold buf_iovs. rewrite Ebt, F1, F2. cbn [iovs upd_buf set_arena pp1 set_break_iov set_iovs].
    replace (Z.to_nat (nr_segs b)) with (S (pred (Z.to_nat (nr_segs b)))) at 1 by lia.
    rewrite <- Hk. apply window_insert_last. by rewrite Hk. }
  assert (Hiov' : page_iov iov').
  { unfold page_iov, iov_ok, iov'. simpl. unfold PAGE_SIZE in *. split_and!; first [lia | done | by rewrite Zplus_mod, I3]. }
  split.
  - cbn. rewrite length_alter, length_insert. split_and!; done.
  - intros id Hne. by apply (buf_upd_ne _ t id pp1).
  - apply buf_iovs_insert; [done|done|fold b; unfold k; lia].
  - rewrite Ebt. done.
  - rewrite Ebt. cbn [free_iov upd_buf set_arena pp1 set_break_iov set_iovs set_counts nr_segs ppb_iov set_pipe_size].
    destruct (po_iovs _ Hok). lia.
  - rewrite Hwin' by done. rewrite Hwin. split.
    + apply Forall_app. split; [done|]. by apply Forall_cons_2, Forall_nil_2.
    + rewrite !fmap_app, !concat_app, <- app_assoc. f_equal. cbn [fmap list_fmap concat].
      rewrite !app_nil_r. unfold iov'. rewrite iov_pages_app by (done || lia). destruct iov. simpl in *.
      rewrite Ha. f_equal. apply iov_pages_one.
  - rewrite Ebt. done.
  - rewrite Ebt. cbn [set_counts set_pipe_size pages_in pipe_off pipe_size]. lia.
Qed.

Lemma page_iov_ok addr : page_addr addr -> page_iov (iov_init addr).
Proof. intros (A1 & A2 & A3). unfold page_iov, iov_ok, iov_init, PAGE_SIZE in *. simpl. split_and!; (done || lia). Qed.

(** The page starts a new iovec. *)
Lemma new_tail pp init t b addr m : pp_ok pp -> bufs pp = init ++ [t] -> page_addr addr ->
  b = set_pipe_size m (buf pp t) -> pages_in b + pipe_off b < m < 2 ^ 20 ->
  free_iov pp < nr_iovs pp ->
  tail_grown pp (upd_buf (fun _ => set_counts (pages_in b + 1) (nr_segs b + 1) b) t
    (set_break_iov false (set_iovs (<[Z.to_nat (ppb_iov b + nr_segs b) := iov_init addr]> (iovs pp))
      (free_iov pp + 1) pp))) init t addr.
Proof.
  intros Hok E Ha -> Hroom Hn.
  destruct (tail_facts pp init t Hok E) as ([Q1 Q2 Q3 Q4 Q5 Q6] & Ht & Hw & Hb).
  cbn [set_pipe_size ppb_iov nr_segs pages_in pipe_off] in *. destruct (po_iovs _ Hok) as [Hz Hf].
  set (b := buf pp t) in *. set (k := Z.to_nat (ppb_iov b + nr_segs b)) in *.
  assert (Hk : (Z.to_nat (ppb_iov b) + Z.to_nat (nr_segs b))%nat = k) by (unfold k; lia).
  assert (Hlen : (k < length (iovs pp))%nat) by (unfold zlen in Hz; lia).
  set (pp1 := set_break_iov false (set_iovs (<[k := iov_init addr]> (iovs pp)) (free_iov pp + 1) pp)).
  assert (Ebt : forall f, buf (upd_buf f t pp1) t = f b) by (intros f; apply (buf_upd_eq f t pp1); done).
  assert (Hwin' : forall f, ppb_iov (f b) = ppb_iov b -> nr_segs (f b) = nr_segs b + 1 ->
    buf_iovs (upd_buf f t pp1) t = buf_iovs pp t ++ [iov_init addr]).
  { intros f F1 F2. unfold buf_iovs. rewrite Ebt, F1, F2. fold b.
    cbn [iovs upd_buf set_arena pp1 set_break_iov set_iovs].
    replace (Z.to_nat (nr_segs b + 1)) with (S (Z.to_nat (nr_segs b))) by lia.
    rewrite <- Hk. apply window_insert_last. by rewrite Hk. }
  split.
  - cbn. rewrite length_alter, length_insert. split_and!; done.
  - intros id Hne. by apply (buf_upd_ne _ t id pp1).
  - apply buf_iovs_insert; [done|done|fold b; unfold k; lia].
  - rewrite Ebt. done.
  - rewrite Ebt. cbn [free_iov upd_buf set_arena pp1 set_break_iov set_iovs set_counts nr_segs ppb_iov set_pipe_size].
    lia.
  - rewrite Hwin' by done. split.
    + apply Forall_app. split; [done|]. apply Forall_cons_2; [by apply page_iov_ok|apply Forall_nil_2].
    + rewrite fmap_app, concat_app. f_equal. cbn [fmap list_fmap concat].
      rewrite app_nil_r. apply iov_pages_one.
  - rewrite Ebt. done.
  - rewrite Ebt. cbn [set_counts set_pipe_size pages_in pipe_off pipe_size]. lia.
Qed.

(** Both updates of the tail happen in one place. *)
Lemma upd_upd_buf f g t pp (h : page_pipe -> page_pipe) :
  (forall a, h (set_arena a pp) = set_arena a (h pp)) -> arena (h pp) = arena pp ->
  upd_buf g t (h (upd_buf f t pp)) = upd_buf (fun b => g (f b)) t (h pp).
Proof.
  intros Hh Ha. unfold upd_buf at 2. rewrite Hh. unfold upd_buf. cbn [arena set_arena].
  rewrite Ha. unfold set_arena; simpl. f_equal. apply alter_alter_eq.
Qed.

Lemma try_add_page_ok pp init t addr flags : pp_ok pp -> bufs pp = init ++ [t] -> page_addr addr ->
  free_iov pp < nr_iovs pp ->
  exists ret pp', try_add_page setpipe pp addr flags = Ret (ret, pp') /\
    (ret = 0 /\ ppb_flags (buf pp t) = flags /\ tail_grown pp pp' init t addr \/ ret = 1 /\ pp' = pp) /\
    (ppb_flags (buf pp t) = flags -> pages_in (buf pp t) + pipe_off (buf pp t) < pipe_size (buf pp t) -> ret = 0).
Proof.
  intros Hok E Ha Hfree. unfold try_add_page. rewrite E, last_snoc. unfold try_add_page_to.
  destruct (tail_facts pp init t Hok E) as ([Q1 Q2 Q3 Q4 Q5 Q6] & Ht & Hw & Hb).
  destruct (Z.eqb_spec (ppb_flags (buf pp t)) flags) as [Hfl|]; simpl; [|exists 1, pp; split_and!; auto; done].
  pose proof (zlen_nonneg (concat (iov_pages <$> buf_iovs pp t))).
  destruct (ppb_resize_pipe_ok (buf pp t)) as (ret & m & Hres & Hcase); [done|lia|lia|lia|].
  rewrite Hres. simpl. destruct Hcase as [(-> & Hm & Hroom)|(-> & -> & Hfull)]; simpl.
  2:{ exists 1, pp. rewrite set_pipe_size_id, upd_buf_id. split; [done|]. split; [by right|lia]. }
  set (b := set_pipe_size m (buf pp t)).
  destruct (if negb (break_iov _) && _ then _ else None) as [iov'|] eqn:Eg.
  - destruct (negb (break_iov pp) && negb (nr_segs (buf pp t) =? 0)) eqn:Ec; [|done].
    apply andb_true_iff in Ec as [_ Ec]. apply negb_true_iff, Z.eqb_neq in Ec.
    destruct (iovs pp !! Z.to_nat (ppb_iov (buf pp t) + nr_segs (buf pp t) - 1)) as [iov|] eqn:El; [|done].
    unfold iov_grow_page in Eg. destruct (Z.eqb_spec (u64 (iov_base iov + iov_len iov)) addr) as [Heq|]; [|done].
    assert (Hiov : page_iov iov).
    { apply (Forall_lookup_1 _ _ (pred (Z.to_nat (nr_segs (buf pp t)))) _ Q3). unfold buf_iovs.
      rewrite lookup_take_lt by lia. rewrite lookup_drop. rewrite <- El. f_equal. lia. }
    destruct Hiov as [(I1 & I2 & I3 & I4) _]. destruct Ha as (A1 & A2 & A3).
    rewrite u64_small in Heq by lia. rewrite u64_small in Eg by (unfold PAGE_SIZE in *; lia).
    injection Eg as <-. eexists 0, _. split.
    + rewrite (upd_upd_buf _ _ t pp (fun q => set_break_iov false (set_iovs _ _ q))) by done. done.
    + split; [left|done]. split; [done|]. split; [done|].
      apply (grow_tail pp init t b iov addr m); try done. simpl. lia.
  - cbn [free_iov nr_iovs set_iovs upd_buf set_arena]. rewrite Z.gtb_ltb.
    destruct (Z.ltb_spec (nr_iovs pp) (free_iov pp + 1)); [lia|]. eexists 0, _. split.
    + rewrite (upd_upd_buf _ _ t pp (fun q => set_break_iov false (set_iovs _ _ q))) by done. done.
    + split; [left|done]. split; [done|]. split; [done|].
      apply (new_tail pp init t b addr m); try done. simpl. lia.
Qed.

(** A larger pipe changes nothing that is in the page pipe. *)
Lemma resize_buf_ok pp id n : pp_ok pp -> id ∈ bufs pp -> pipe_size (buf pp id) <= n < 2 ^ 20 ->
  let pp' := upd_buf (fun _ => set_pipe_size n (buf pp id)) id pp in
  pp_ok pp' /\ contents pp' = contents pp /\
  forall i, pages_in (buf pp' i) = pages_in (buf pp i) /\ pipe_off (buf pp' i) = pipe_off (buf pp i).
Proof.
  intros Hok Hin Hn pp'. pose proof Hok as [[N B Fr I Pv] (init & t & Et & Ht1 & Ht2)].
  assert (Hid : (id < length (arena pp))%nat).
  { apply list_elem_of_lookup_1 in Hin as [k Hk]. by destruct (Forall_lookup_1 _ _ _ _ B Hk). }
  assert (Hb : forall i, buf pp' i = set_pipe_size (pipe_size (buf pp' i)) (buf pp i) /\
    pipe_size (buf pp i) <= pipe_size (buf pp' i) /\ (i <> id -> buf pp' i = buf pp i) /\
    (i = id -> pipe_size (buf pp' i) < 2 ^ 20)).
  { intros i. destruct (decide (i = id)) as [->|Hne].
    - unfold pp'. rewrite buf_upd_eq by done. simpl. split_and!; (done || lia).
    - unfold pp'. rewrite !buf_upd_ne by done. by rewrite set_pipe_size_id. }
  assert (Hf : forall i, nr_segs (buf pp' i) = nr_segs (buf pp i) /\ ppb_iov (buf pp' i) = ppb_iov (buf pp i) /\
    pages_in (buf pp' i) = pages_in (buf pp i) /\ pipe_off (buf pp' i) = pipe_off (buf pp i) /\
    ppb_flags (buf pp' i) = ppb_flags (buf pp i) /\ buf_iovs pp' i = buf_iovs pp i).
  { intros i. destruct (Hb i) as (Hi & _). unfold buf_iovs. rewrite Hi. done. }
  split; [|split].
  - split; [split|]; try done.
    + apply Forall_lookup_2. intros k i Hk. destruct (Forall_lookup_1 _ _ _ _ B Hk) as [Q1 Q2 Q3 Q4 Q5 Q6].
      destruct (Hf i) as (F1 & F2 & F3 & F4 & F5 & F6). destruct (Hb i) as (_ & Hs & Hne & Heq).
      split; rewrite ?F1, ?F2, ?F3, ?F4, ?F6; try done.
      * unfold pp', upd_buf. simpl. by rewrite length_alter.
      * destruct (decide (i = id)) as [E|E]; [specialize (Heq E); lia|rewrite (Hne E); lia].
      * lia.
    + apply Forall_lookup_2. intros k i Hk. destruct (Forall_lookup_1 _ _ _ _ Fr Hk) as (Q1 & Q2 & Q3).
      destruct (Hb i) as (_ & _ & Hne & _). unfold free_ok. rewrite Hne.
      * unfold pp', upd_buf. simpl. by rewrite length_alter.
      * intros ->. apply NoDup_app in N as (_ & Hd & _). apply (Hd id Hin). by eapply list_elem_of_lookup_2.
    + exists init, t. destruct (Hf t) as (F1 & F2 & _). split; [done|]. rewrite F1, F2. split; [done|].
      eapply Forall_impl; [exact Ht2|]. intros i Hi. destruct (Hf i) as (G1 & G2 & _). cbv beta in *. by rewrite G1, G2.
  - unfold contents. change (bufs pp') with (bufs pp). f_equal. apply list_fmap_ext. intros k i _.
    unfold buf_pages. destruct (Hf i) as (_ & _ & _ & _ & F5 & F6). by rewrite F5, F6.
  - intros i. destruct (Hf i) as (_ & _ & F3 & F4 & _). done.
Qed.

(** An empty buffer at the tail, ready for a page. *)
Definition grown (pp pp' : page_pipe) (flags : Z) : Prop :=
  pp_ok pp' /\ contents pp' = contents pp /\ free_iov pp' = free_iov pp /\ nr_iovs pp' = nr_iovs pp /\
  exists init t, bufs pp' = init ++ [t] /\ ppb_flags (buf pp' t) = flags /\
    pages_in (buf pp' t) + pipe_off (buf pp' t) < pipe_size (buf pp' t).

Lemma append_empty pp pp' id pipe size off flags : pp_pre pp ->
  bufs pp' = bufs pp ++ [id] -> (exists l, free_bufs pp = l ++ free_bufs pp') ->
  id ∉ bufs pp -> id ∉ free_bufs pp' -> (id < length (arena pp'))%nat ->
  (length (arena pp) <= length (arena pp'))%nat ->
  buf pp' id = PagePipeBuf pipe size 0 off 0 flags (free_iov pp) ->
  (forall i, (i < length (arena pp))%nat -> i <> id -> buf pp' i = buf pp i) ->
  iovs pp' = iovs pp -> free_iov pp' = free_iov pp -> nr_iovs pp' = nr_iovs pp ->
  (forall t i, prev pp' !! t = Some (Some i) -> chunk_mode pp' = false -> i ∈ bufs pp') ->
  0 <= off < size -> size < 2 ^ 20 -> grown pp pp' flags.
Proof.
  intros [N B Fr I Pv] E (l & El) Hnb Hnf Hid Hal Hbuf Hoth Hio Hfi Hni Hpv Hoff Hsz.
  assert (Hsame : Forall (same_buf pp pp') (bufs pp)).
  { apply Forall_lookup_2. intros k i Hk. destruct (Forall_lookup_1 _ _ _ _ B Hk) as [Q1 _ _ _ _ _].
    assert (buf pp' i = buf pp i) as Hi.
    { apply Hoth; [done|]. intros ->. apply Hnb. by eapply list_elem_of_lookup_2. }
    split; [done|]. unfold buf_iovs. by rewrite Hi, Hio. }
  assert (Hemp : buf_iovs pp' id = []) by (unfold buf_iovs; rewrite Hbuf; done).
  split; [split; [split|]|].
  - rewrite E. apply NoDup_app in N as (N1 & N2 & N3). rewrite El in N2, N3.
    apply NoDup_app in N3 as (_ & _ & N3).
    rewrite <- app_assoc. apply NoDup_app. split; [done|]. split.
    + intros x Hx Hx'. apply elem_of_app in Hx' as [Hx'|Hx'].
      * apply list_elem_of_singleton in Hx' as ->. done.
      * apply (N2 x Hx). apply elem_of_app. by right.
    + apply NoDup_cons. done.
  - rewrite E. apply Forall_app. split.
    + apply Forall_lookup_2. intros k i Hk. apply (same_buf_ok pp); [|done|lia|].
      * by apply (Forall_lookup_1 _ _ _ _ Hsame Hk).
      * by apply (Forall_lookup_1 _ _ _ _ B Hk).
    + apply Forall_cons_2; [|apply Forall_nil_2].
      split; rewrite ?Hbuf, ?Hemp; simpl; try done; try lia.
  - rewrite El in Fr. apply Forall_app in Fr as [_ Fr]. apply Forall_lookup_2. intros k i Hk.
    destruct (Forall_lookup_1 _ _ _ _ Fr Hk) as (Q1 & Q2 & Q3). unfold free_ok. rewrite Hoth; [|done|].
    + split_and!; (done || lia).
    + intros ->. apply Hnf. by eapply list_elem_of_lookup_2.
  - rewrite Hio, Hfi, Hni. done.
  - done.
  - exists (bufs pp), id. rewrite Hbuf, Hfi. split; [done|]. simpl. split; [lia|].
    apply Forall_lookup_2. intros k i Hk. rewrite (proj1 (Forall_lookup_1 _ _ _ _ Hsame Hk)).
    destruct (Forall_lookup_1 _ _ _ _ B Hk) as [_ Q2 _ _ _ _]. lia.
  - split; [|split; [done|split; [done|]]].
    + rewrite (contents_snoc pp' (bufs pp) id E), (same_bufs_contents pp pp' _ Hsame).
      unfold buf_pages at 2. rewrite Hemp. simpl. by rewrite app_nil_r.
    + exists (bufs pp), id. rewrite Hbuf. simpl. split; [done|]. split; [done|lia].
Qed.

Lemma buf_add_new b nr t pp : buf (add_buf b nr t pp) (length (arena pp)) = b.
Proof.
  unfold buf, add_buf. simpl. rewrite lookup_total_app_r by lia. by rewrite Nat.sub_diag.
Qed.
Lemma buf_add_old b nr t pp i : (i < length (arena pp))%nat -> buf (add_buf b nr t pp) i = buf pp i.
Proof. intros H. unfold buf, add_buf. simpl. by rewrite lookup_total_app_l. Qed.

(** [ppb_alloc]'s new buffer, initialised. *)
Lemma add_buf_grown pp b nr t flags : pp_pre pp -> free_bufs pp = [] ->
  0 <= pipe_off b < pipe_size b -> pipe_size b < 2 ^ 20 ->
  let pp1 := add_buf b nr t pp in
  grown pp (upd_buf (ppb_init 0 0 flags (free_iov pp1)) (pred (length (arena pp1))) pp1) flags.
Proof.
  intros Hpre Hfr Ho Hs pp1. pose proof Hpre as [N B Fr I Pv].
  assert (Hlen : length (arena pp1) = S (length (arena pp)))
    by (unfold pp1, add_buf; simpl; rewrite length_app; simpl; lia).
  rewrite Hlen. cbn [pred]. set (id := length (arena pp)).
  assert (Hnew : id ∉ bufs pp).
  { intros Hin. apply list_elem_of_lookup_1 in Hin as [k Hk].
    destruct (Forall_lookup_1 _ _ _ _ B Hk) as [Q1 _ _ _ _ _]. unfold id in Q1. lia. }
  apply (append_empty _ _ id (ppb_pipe b) (pipe_size b) (pipe_off b)); try done.
  - by exists [].
  - cbn. rewrite Hfr. apply not_elem_of_nil.
  - unfold upd_buf. cbn [arena set_arena]. rewrite length_alter. unfold id. lia.
  - unfold upd_buf. cbn [arena set_arena]. rewrite length_alter. lia.
  - rewrite buf_upd_eq by (unfold id; lia). unfold pp1, id. by rewrite buf_add_new.
  - intros i Hi Hne. rewrite buf_upd_ne by done. by apply buf_add_old.
  - intros ty i Hi Hc. cbn in Hi. cbn [bufs upd_buf set_arena pp1 add_buf]. apply elem_of_app.
    destruct (decide (Z.to_nat t = ty)) as [<-|Hne].
    + right. apply list_elem_of_singleton. apply list_lookup_insert_Some in Hi as [(_ & [= <-] & _)|[? _]]; done.
    + left. rewrite list_lookup_insert_ne in Hi by done. by apply (Pv ty).
Qed.

Lemma grown_frame pp q pp' flags : contents q = contents pp -> free_iov q = free_iov pp ->
  nr_iovs q = nr_iovs pp -> grown q pp' flags -> grown pp pp' flags.
Proof. intros E1 E2 E3 (G1 & G2 & G3 & G4 & G5). unfold grown. rewrite <- E1, <- E2, <- E3. done. Qed.

Lemma page_pipe_grow_ok al pp flags :
  pp_pre pp -> (bufs pp = [] \/ pp_ok pp) ->
  exists ret pp' al', page_pipe_grow lazy_pages getpipe setpipe al pp flags = Ret (ret, pp', al') /\
    (ret = 0 /\ grown pp pp' flags \/
     ret < 0 /\ (pp_ok pp -> pp_ok pp') /\ contents pp' = contents pp /\ nr_iovs pp' = nr_iovs pp).
Proof.
  intros Hpre Hok. pose proof Hpre as [N B Fr I Pv]. unfold page_pipe_grow.
  assert (Hnp : forall al q, pp_pre q -> free_bufs q = [] -> contents q = contents pp ->
    free_iov q = free_iov pp -> nr_iovs q = nr_iovs pp -> (pp_ok pp -> pp_ok q) ->
    exists ret pp' al', (let! (ok, p, a) := Ret (ppb_new_pipe lazy_pages getpipe al q flags) in
      if negb ok then Ret (-1, p, a)
      else Ret (0, upd_buf (ppb_init 0 0 flags (free_iov p)) (pred (length (arena p))) p, a))
      = Ret (ret, pp', al') /\
      (ret = 0 /\ grown pp pp' flags \/
       ret < 0 /\ (pp_ok pp -> pp_ok pp') /\ contents pp' = contents pp /\ nr_iovs pp' = nr_iovs pp)).
  { intros al0 q Hq Hqf Hqc Hqi Hqn Hqok. unfold ppb_new_pipe. destruct (xalloc al0) as [[] al1]; simpl.
    2:{ eexists (-1), q, al1. split; [done|]. right. split; [lia|done]. }
    destruct (Z.ltb_spec getpipe 0); simpl.
    { eexists (-1), q, al1. split; [done|]. right. split; [lia|done]. }
    eexists 0, _, al1. split; [done|]. left. split; [done|].
    pose proof (pipe_pages getpipe ltac:(lia)).
    apply (grown_frame pp q); [done|done|done|].
    apply (add_buf_grown q (PagePipeBuf (nr_pipes q) (getpipe / PAGE_SIZE) 0 0 0 0 0) (nr_pipes q + 1)
      (ppb_type lazy_pages flags) flags Hq Hqf); simpl; lia. }
  destruct (free_bufs pp) as [|id free] eqn:Ef.
  - destruct (_ && _); [eexists _, pp, al; split; [done|]; right; split; [done|done]|].
    unfold ppb_alloc. destruct (xalloc al) as [[] al1]; simpl.
    2:{ eexists (-1), pp, al1. split; [done|]. right. split; [lia|done]. }
    destruct (pp_prev_ppb lazy_pages pp flags) as [id|] eqn:Ep; [|by apply Hnp].
    assert (Hin : id ∈ bufs pp).
    { unfold pp_prev_ppb in Ep. destruct (chunk_mode pp) eqn:Ec; [done|].
      destruct (bufs pp) as [|b0 l0] eqn:Eb; [done|].
      destruct (prev pp !! Z.to_nat (ppb_type lazy_pages flags)) as [[i|]|] eqn:El; simpl in Ep; try done.
      injection Ep as ->. by apply (Pv _ _ El). }
    destruct Hok as [Hnil|Hok]; [rewrite Hnil in Hin; by apply elem_of_nil in Hin|].
    assert (Hbid : buf_ok pp id).
    { apply list_elem_of_lookup_1 in Hin as [k Hk]. by apply (Forall_lookup_1 _ _ _ _ B Hk). }
    destruct Hbid as [Q1 Q2 Q3 Q4 Q5 Q6].
    pose proof (zlen_nonneg (concat (iov_pages <$> buf_iovs pp id))).
    destruct (ppb_resize_pipe_ok (buf pp id)) as (ret & n & -> & Hc); [done|lia..|]. simpl.
    destruct (resize_buf_ok pp id n Hok Hin) as (R1 & R2 & R3); [destruct Hc; lia|].
    set (q := upd_buf (fun _ => set_pipe_size n (buf pp id)) id pp) in *.
    destruct Hc as [(-> & Hn & Hroom)|(-> & Hn & Hfull)]; simpl; [|by apply (Hnp al1 q (po_pre _ R1) Ef R2)].
    eexists 0, _, al1. split; [done|]. left. split; [done|].
    rewrite u64_small by lia.
    apply (grown_frame pp q); [done|done|done|].
    match goal with |- context [add_buf ?b ?nr ?t q] =>
      apply (add_buf_grown q b nr t flags (po_pre _ R1) Ef); simpl; lia end.
  - apply Forall_cons_1 in Fr as [(F1 & F2 & F3) Fr].
    eexists 0, _, al. split; [done|]. left. split; [done|].
    apply NoDup_app in N as (N1 & N2 & N3). apply NoDup_cons in N3 as [N3 N4].
    apply (append_empty _ _ id (ppb_pipe (buf pp id)) (pipe_size (buf pp id)) 0); try done.
    + by exists [id].
    + intros Hin. apply (N2 id Hin). apply elem_of_cons. by left.
    + cbn. by rewrite length_alter.
    + cbn. rewrite length_alter. lia.
    + rewrite buf_upd_eq by done. unfold ppb_init. rewrite <- F3. done.
    + intros i Hi Hne. by rewrite buf_upd_ne.
    + intros ty i Hi Hc. cbn [bufs upd_buf set_arena set_bufs]. apply elem_of_app. left. by apply (Pv ty).
    + lia.
    + lia.
Qed.

Lemma page_pipe_add_page_ok al pp addr flags :
  pp_ok pp -> page_addr addr -> free_iov pp < nr_iovs pp ->
  exists ret pp' al', page_pipe_add_page lazy_pages getpipe setpipe al pp addr flags = Ret (ret, pp', al') /\
    pp_ok pp' /\ nr_iovs pp' = nr_iovs pp /\
    (ret = 0 /\ contents pp' = contents pp ++ [(addr, flags)] /\ free_iov pp' <= free_iov pp + 1 \/
     ret < 0 /\ contents pp' = contents pp).
Proof.
  intros Hok Ha Hfree. pose proof (po_tail _ Hok) as (init & t & E & _).
  unfold page_pipe_add_page.
  destruct (try_add_page_ok pp init t addr flags Hok E Ha Hfree) as (ret & pp1 & -> & Hc & _). simpl.
  destruct Hc as [(-> & Hfl & Hg)|(-> & ->)]; simpl.
  { destruct (tail_grown_ok pp pp1 init t addr Hok E Hg) as [O1 O2]. rewrite Hfl in O2.
    destruct Hg as [(_ & _ & _ & T4 & _) _ _ _ (_ & T5 & _) _ _ _].
    eexists 0, pp1, al. split_and!; try done. by left. }
  destruct (page_pipe_grow_ok al pp flags Hok (or_intror Hok)) as (ret & pp2 & al2 & -> & Hg). simpl.
  destruct Hg as [(-> & G1 & G2 & G3 & G4 & init2 & t2 & E2 & Hf2 & Hr2)|(Hneg & G1 & G2 & G3)]; simpl.
  - destruct (try_add_page_ok pp2 init2 t2 addr flags G1 E2 Ha ltac:(lia)) as (ret & pp3 & -> & Hc & Hz). simpl.
    assert (ret = 0) as -> by (by apply Hz). simpl.
    destruct Hc as [(_ & Hfl & Hg)|(? & _)]; [|done].
    destruct (tail_grown_ok pp2 pp3 init2 t2 addr G1 E2 Hg) as [O1 O2]. rewrite Hfl, G2 in O2.
    destruct Hg as [(_ & _ & _ & T4 & _) _ _ _ (_ & T5 & _) _ _ _].
    eexists 0, pp3, al2. split_and!; [done|done|lia|]. left. split_and!; (done || lia).
  - destruct (Z.ltb_spec ret 0); [|lia]. eexists ret, pp2, al2. split_and!; [done|by apply G1|done|]. by right.
Qed.

Lemma create_page_pipe_ok al segs given flags r al' : 0 <= segs ->
  (forall l, given = Some l -> zlen l = segs) ->
  create_page_pipe lazy_pages getpipe setpipe al segs given flags = Ret (r, al') ->
  match r with
  | Some pp => pp_ok pp /\ contents pp = [] /\ free_iov pp = 0 /\ nr_iovs pp = segs
  | None => True
  end.
Proof.
  intros Hs Hg. unfold create_page_pipe. destruct (xalloc al) as [[] al1]; simpl; [|by intros [= <- _]].
  destruct (match given with Some _ => _ | None => _ end) as [[io fl] al2] eqn:Eg.
  destruct io as [io|]; [|by intros [= <- _]].
  assert (Hio : zlen io = segs).
  { destruct given as [l|]; [injection Eg as <- _ _; by apply Hg|].
    destruct (xalloc al1) as [[] ?]; [|done]. injection Eg as <- _ _. unfold zlen. rewrite length_replicate. lia. }
  set (pp0 := PagePipe 0 [] [] [] [None; None; None; None] segs 0 io 0 0 [] [] fl false).
  assert (Hpre : pp_pre pp0).
  { split; [by apply NoDup_nil_2|apply Forall_nil_2|apply Forall_nil_2|simpl; lia|].
    intros t id Ht. do 4 (destruct t as [|t]; [done|]). done. }
  destruct (page_pipe_grow_ok al2 pp0 0 Hpre (or_introl eq_refl)) as (ret & pp' & al3 & -> & Hc). simpl.
  intros [= <- _]. destruct (Z.eqb_spec ret 0) as [->|]; [|done].
  destruct Hc as [(_ & G1 & G2 & G3 & G4 & _)|[? _]]; [|lia]. done.
Qed.

(** Adding pages one after the other, until one is refused. *)
Fixpoint add_pages (al : list bool) (pp : page_pipe) (l : list (Z * Z)) : outcome (Z * page_pipe) :=
  match l with
  | [] => Ret (0, pp)
  | (addr, flags) :: l =>
      let! (ret, pp, al) := page_pipe_add_page lazy_pages getpipe setpipe al pp addr flags in
      if negb (ret =? 0) then Ret (ret, pp) else add_pages al pp l
  end.

Lemma add_pages_ok l : forall al pp, pp_ok pp -> Forall (fun p => page_addr (fst p)) l ->
  free_iov pp + zlen l <= nr_iovs pp ->
  exists ret pp' k, add_pages al pp l = Ret (ret, pp') /\ pp_ok pp' /\
    contents pp' = contents pp ++ take k l /\ (ret = 0 /\ k = length l \/ ret < 0).
Proof.
  induction l as [|[addr flags] l IH]; intros al pp Hok Hf Hn.
  { exists 0, pp, 0%nat. split_and!; try done; [by rewrite app_nil_r|by left]. }
  apply Forall_cons_1 in Hf as [Ha Hf]. unfold zlen in *. simpl in Hn.
  destruct (page_pipe_add_page_ok al pp addr flags Hok Ha ltac:(lia)) as (ret & pp1 & al1 & E & H1 & H2 & Hc).
  cbn [add_pages]. rewrite E. cbn [obind]. destruct Hc as [(-> & H3 & H4)|(Hneg & H3)].
  - simpl. destruct (IH al1 pp1 H1 Hf ltac:(lia)) as (ret & pp' & k & -> & K1 & K2 & K3).
    exists ret, pp', (S k). rewrite K2, H3, <- app_assoc. simpl. split_and!; try done.
    destruct K3 as [[-> ->]|K3]; [by left|by right].
  - destruct (Z.eqb_spec ret 0); [lia|]. simpl. exists ret, pp1, 0%nat.
    split_and!; try done; [by rewrite H3, app_nil_r|by right].
Qed.
End AddPage.

(** C12. A page pipe holds what was put in.  Whatever the kernel answers to
    F_SETPIPE_SZ and F_GETPIPE_SZ within their documentation, and whatever
    allocation fails: for a page pipe made by [create_page_pipe] with room for
    as many iovecs as pages are added, [page_pipe_add_page] never trips a
    BUG_ON (the iovec array is not overrun, a fresh buffer always takes the
    page), and after any sequence of calls the pages described by the buffers
    are the pages added so far, in order and with their flags; when a call
    fails, the pages of the earlier calls are all still there. *)
Theorem page_pipe_holds_pages lazy_pages getpipe setpipe al segs given flags pp al' al2 l :
  getpipe < 0 \/ PAGE_SIZE <= getpipe < 2 ^ 31 ->
  (forall n, setpipe n < 0 \/ n <= setpipe n < 2 ^ 31) ->
  (forall iov, given = Some iov -> zlen iov = segs) ->
  create_page_pipe lazy_pages getpipe setpipe al segs given flags = Ret (Some pp, al') ->
  Forall (fun p => page_addr (fst p)) l -> zlen l <= segs ->
  exists ret pp' k, add_pages lazy_pages getpipe setpipe al2 pp l = Ret (ret, pp') /\
    contents pp' = take k l /\ (ret = 0 /\ k = length l \/ ret < 0).
Proof.
  intros Hget Hset Hgiven Hc Hf Hl. pose proof (zlen_nonneg l).
  pose proof (create_page_pipe_ok lazy_pages getpipe setpipe Hget Hset al segs given flags _ al'
    ltac:(lia) Hgiven Hc) as (H1 & H2 & H3 & H4).
  destruct (add_pages_ok lazy_pages getpipe setpipe Hget Hset l al2 pp H1 Hf ltac:(lia))
    as (ret & pp' & k & E & _ & K2 & K3).
  exists ret, pp', k. split; [done|]. split; [|done]. by rewrite K2, H2.
Qed.

(** ** Reading pages back *)

(** The addresses of a buffer's pages. *)
Definition buf_addrs (pp : page_pipe) (id : nat) : list Z := concat (iov_pages <$> buf_iovs pp id).

(** [P p] is what pipe [p] holds, page by page, once the buffers have been
    filled: each buffer owns the part at its offset. *)
Definition pipe_holds (P : Z -> list Z) (pp : page_pipe) : Prop :=
  Forall (fun id => let b := buf pp id in
    take (Z.to_nat (pages_in b)) (drop (Z.to_nat (pipe_off b)) (P (ppb_pipe b))) = buf_addrs pp id) (bufs pp).

Lemma zsum_iov_pages l : Forall iov_ok l ->
  zsum (iov_len <$> l) = zlen (concat (iov_pages <$> l)) * PAGE_SIZE.
Proof.
  induction 1 as [|iov l (H1 & H2 & H3 & H4) _ IH]; [done|].
  rewrite !fmap_cons, zsum_cons. cbn [concat]. rewrite zlen_app, IH.
  unfold zlen at 2. rewrite length_iov_pages by lia. unfold PAGE_SIZE in *.
  pose proof (Z.div_mod (iov_len iov) 4096 ltac:(lia)). lia.
Qed.

(** The iovec found, and the bytes in front of the address. *)
Lemma find_iov_ok l addr : forall len iov n, Forall iov_ok l -> 0 <= len ->
  len + zsum (iov_len <$> l) < 2 ^ 64 -> find_iov l addr len = Some (iov, n) ->
  exists l1 l2, l = l1 ++ iov :: l2 /\ iov_base iov <= addr < iov_base iov + iov_len iov /\
    n = len + zsum (iov_len <$> l1) + (addr - iov_base iov).
Proof.
  induction l as [|x l IH]; intros len iov n Hf Hl Hb H; [done|].
  apply Forall_cons_1 in Hf as [(X1 & X2 & X3 & X4) Hf]. rewrite fmap_cons, zsum_cons in Hb.
  assert (0 <= zsum (iov_len <$> l)).
  { apply zsum_nonneg, Forall_fmap. eapply Forall_impl; [exact Hf|]. intros ? (_ & ? & _). simpl. lia. }
  cbn [find_iov] in H. rewrite Z.geb_leb, u64_small in H by lia.
  destruct (Z.ltb_spec addr (iov_base x)); [|destruct (Z.leb_spec (iov_base x + iov_len x) addr)]; cbn [orb] in H.
  1,2: rewrite u64_small in H by lia; apply IH in H as (l1 & l2 & -> & G1 & G2); [|done|lia|lia];
    exists (x :: l1), l2; (split; [done|]); (split; [done|]); rewrite fmap_cons, zsum_cons; lia.
  injection H as <- <-. exists [], l. split; [done|]. split; [done|]. rewrite u64_small by lia. simpl. lia.
Qed.

Lemma drop_iov_pages iov k : 0 <= k -> k * PAGE_SIZE <= iov_len iov -> iov_len iov mod PAGE_SIZE = 0 ->
  drop (Z.to_nat k) (iov_pages iov) =
  iov_pages (Iovec (iov_base iov + k * PAGE_SIZE) (iov_len iov - k * PAGE_SIZE)).
Proof.
  intros Hk Hle Hm. destruct iov as [base len]. simpl in *.
  replace len with (k * PAGE_SIZE + (len - k * PAGE_SIZE)) at 1 by lia.
  unfold PAGE_SIZE in *. pose proof (Z.div_mod len 4096 ltac:(lia)).
  assert (Hl : length (iov_pages (Iovec base (k * 4096))) = Z.to_nat k).
  { pose proof (length_iov_pages (Iovec base (k * 4096))) as Hl. simpl in Hl. unfold PAGE_SIZE in Hl.
    rewrite Z.div_mul in Hl by lia. lia. }
  rewrite iov_pages_app; unfold PAGE_SIZE.
  - rewrite drop_app_ge by lia. by rewrite Hl, Nat.sub_diag.
  - lia.
  - lia.
  - by rewrite Z.mod_mul.
  - replace (len - k * 4096) with ((len / 4096 - k) * 4096) by lia. by rewrite Z.mod_mul.
Qed.

Lemma take_iov_pages iov n : 0 <= n -> n * PAGE_SIZE <= iov_len iov ->
  take (Z.to_nat n) (iov_pages iov) = iov_pages (Iovec (iov_base iov) (n * PAGE_SIZE)).
Proof.
  intros Hn Hle. unfold iov_pages. simpl.
  unfold PAGE_SIZE in *. rewrite Z.div_mul by lia.
  assert (Hd : n <= iov_len iov / 4096) by (apply Z.div_le_lower_bound; lia).
  rewrite <- fmap_take.
  f_equal. replace (iov_len iov / 4096) with (n + (iov_len iov / 4096 - n)) by lia.
  rewrite seqZ_app by lia. rewrite take_app_le by (rewrite length_seqZ; lia).
  rewrite firstn_all2; [done|]. rewrite length_seqZ. lia.
Qed.

Lemma find_ppb_ok pp l addr id iov n : find_ppb pp l addr = Some (id, iov, n) ->
  id ∈ l /\ find_iov (buf_iovs pp id) addr 0 = Some (iov, n).
Proof.
  induction l as [|i l IH]; [done|]. cbn [find_ppb]. intros H.
  destruct (find_iov (buf_iovs pp i) addr 0) as [[iov' n']|] eqn:E.
  - injection H as -> -> ->. split; [|done]. apply elem_of_cons. by left.
  - destruct (IH H) as [H1 H2]. split; [|done]. apply elem_of_cons. by right.
Qed.

Lemma find_iov_complete l addr : forall len, Forall iov_ok l -> addr ∈ concat (iov_pages <$> l) ->
  find_iov l addr len <> None.
Proof.
  induction l as [|x l IH]; intros len Hf Hin; [by apply elem_of_nil in Hin|].
  apply Forall_cons_1 in Hf as [(X1 & X2 & X3 & X4) Hf]. rewrite fmap_cons in Hin. cbn [concat] in Hin.
  cbn [find_iov]. rewrite Z.geb_leb, u64_small by lia. apply elem_of_app in Hin as [Hin|Hin].
  - unfold iov_pages in Hin. apply list_elem_of_fmap_1 in Hin as (j & -> & Hj).
    apply elem_of_seqZ in Hj. unfold PAGE_SIZE in *.
    pose proof (Z.div_mod (iov_len x) 4096 ltac:(lia)).
    destruct (Z.ltb_spec (iov_base x + j * 4096) (iov_base x)); [lia|].
    by destruct (Z.leb_spec (iov_base x + iov_len x) (iov_base x + j * 4096)); [lia|].
  - destruct (_ || _); [by apply IH|done].
Qed.

Lemma find_ppb_complete pp l addr id : Forall (fun i => Forall iov_ok (buf_iovs pp i)) l ->
  id ∈ l -> addr ∈ buf_addrs pp id -> find_ppb pp l addr <> None.
Proof.
  induction l as [|i l IH]; intros Hf Hid Hin; [by apply elem_of_nil in Hid|].
  apply Forall_cons_1 in Hf as [Hi Hf]. cbn [find_ppb].
  destruct (find_iov (buf_iovs pp i) addr 0) as [[iov n]|] eqn:E; [done|].
  apply elem_of_cons in Hid as [->|Hid]; [|by apply IH]. by apply find_iov_complete in E.
Qed.

Lemma page_iovs_ok l : Forall page_iov l -> Forall iov_ok l.
Proof. intros H. eapply Forall_impl; [exact H|]. by intros ? [? _]. Qed.

Lemma move_to_front (l : list nat) id : NoDup l -> id ∈ l -> id :: filter (fun i => i <> id) l ≡ₚ l.
Proof.
  intros Hnd Hid. induction l as [|x l IH]; [by apply elem_of_nil in Hid|].
  apply NoDup_cons in Hnd as [Hx Hnd]. apply elem_of_cons in Hid as [->|Hid].
  - rewrite filter_cons_False by (intros H; by apply H). f_equiv.
    assert (filter (fun i => i <> x) l = l) as ->; [|done].
    clear -Hx. induction l as [|y l IH]; [done|]. apply not_elem_of_cons in Hx as [H1 H2].
    rewrite filter_cons_True by done. by rewrite IH.
  - destruct (decide (x = id)) as [->|Hne]; [done|]. rewrite filter_cons_True by done.
    rewrite Permutation_swap. f_equiv. by apply IH.
Qed.

(** The part of a buffer's pages behind an address of an iovec. *)
Lemma buf_pages_at l1 iov l2 addr n : Forall page_iov (l1 ++ iov :: l2) ->
  addr mod PAGE_SIZE = 0 -> iov_base iov <= addr < iov_base iov + iov_len iov ->
  0 <= n -> n * PAGE_SIZE <= iov_base iov + iov_len iov - addr ->
  let k := zlen (concat (iov_pages <$> l1)) + (addr - iov_base iov) / PAGE_SIZE in
  zsum (iov_len <$> l1) + (addr - iov_base iov) = k * PAGE_SIZE /\ 0 <= k /\
  k + n <= zlen (concat (iov_pages <$> (l1 ++ iov :: l2))) /\
  take (Z.to_nat n) (drop (Z.to_nat k) (concat (iov_pages <$> (l1 ++ iov :: l2)))) =
    iov_pages (Iovec addr (n * PAGE_SIZE)).
Proof.
  intros Hf Ha Hr Hn Hle k. apply Forall_app in Hf as [Hf1 Hf]. apply Forall_cons_1 in Hf as [[(I1 & I2 & I3 & I4) I5] Hf2].
  pose proof (zlen_nonneg (concat (iov_pages <$> l1))) as Hz1. pose proof (zsum_iov_pages l1 (page_iovs_ok _ Hf1)) as Hz2.
  set (j := (addr - iov_base iov) / PAGE_SIZE) in *.
  assert (Hj : addr = iov_base iov + j * PAGE_SIZE /\ 0 <= j).
  { assert (Hmod : (addr - iov_base iov) mod PAGE_SIZE = 0) by (rewrite Zminus_mod, Ha, I5; done).
    unfold j, PAGE_SIZE in *. pose proof (Z.div_mod (addr - iov_base iov) 4096 ltac:(lia)).
    pose proof (Z.div_pos (addr - iov_base iov) 4096). lia. }
  destruct Hj as [Hj Hj0]. split; [unfold k; lia|]. split; [unfold k; lia|].
  assert (Hlen : zlen (iov_pages iov) * PAGE_SIZE = iov_len iov).
  { unfold zlen. rewrite length_iov_pages by lia. unfold PAGE_SIZE in *.
    pose proof (Z.div_mod (iov_len iov) 4096 ltac:(lia)). lia. }
  rewrite fmap_app, concat_app, fmap_cons. cbn [concat].
  assert (Hjn : j + n <= zlen (iov_pages iov)) by (unfold PAGE_SIZE in *; lia).
  split.
  { rewrite !zlen_app. unfold k. pose proof (zlen_nonneg (concat (iov_pages <$> l2))). lia. }
  rewrite drop_app_ge by (unfold k, zlen in *; lia).
  replace (Z.to_nat k - length (concat (iov_pages <$> l1)))%nat with (Z.to_nat j) by (unfold k, zlen in *; lia).
  rewrite drop_app_le by (unfold zlen in *; lia).
  rewrite take_app_le by (rewrite length_drop; unfold zlen in *; lia).
  rewrite drop_iov_pages by (done || lia). rewrite take_iov_pages by (simpl; lia). simpl. by rewrite Hj.
Qed.

Lemma elem_buf_addrs l1 iov l2 addr : Forall page_iov (l1 ++ iov :: l2) -> addr mod PAGE_SIZE = 0 ->
  iov_base iov <= addr < iov_base iov + iov_len iov -> addr ∈ concat (iov_pages <$> (l1 ++ iov :: l2)).
Proof.
  intros Hf Ha Hr. rewrite fmap_app, concat_app, fmap_cons. cbn [concat]. apply elem_of_app. right. apply elem_of_app. left.
  apply Forall_app in Hf as [_ Hf]. apply Forall_cons_1 in Hf as [[(I1 & I2 & I3 & I4) I5] _]. unfold iov_pages, PAGE_SIZE in *.
  pose proof (Z.div_mod addr 4096 ltac:(lia)). pose proof (Z.div_mod (iov_base iov) 4096 ltac:(lia)). pose proof (Z.div_mod (iov_len iov) 4096 ltac:(lia)).
  replace addr with (iov_base iov + (addr / 4096 - iov_base iov / 4096) * 4096) by lia.
  apply (list_elem_of_fmap_2 (fun j => iov_base iov + j * 4096)). apply elem_of_seqZ. lia.
Qed.

(** Whatever tee() and splice() answer. *)
Lemma page_pipe_read_spec tee splice P pp addr nr flags :
  NoDup (bufs pp) -> Forall (buf_ok pp) (bufs pp) -> pipe_holds P pp ->
  addr mod PAGE_SIZE = 0 -> 0 < nr < 2 ^ 51 ->
  let '(ret, n, data, pp') := page_pipe_read tee splice pp addr nr flags in
  ((forall k, 0 <= k < 2 ^ 64 -> tee k = k) -> (forall k, 0 <= k < 2 ^ 64 -> splice k = k) -> ret = 0) /\
  bufs pp' ≡ₚ bufs pp /\ Forall (buf_ok pp') (bufs pp') /\ pipe_holds P pp' /\
  (ret = 0 -> match data with
  | Some (pipe, len, skip) =>
      0 < n <= nr /\ len = skip + n * PAGE_SIZE /\
      exists k, skip = k * PAGE_SIZE /\ 0 <= k /\ k + n <= zlen (P pipe) /\
        take (Z.to_nat n) (drop (Z.to_nat k) (P pipe)) = iov_pages (Iovec addr (n * PAGE_SIZE))
  | None => n = 0 /\ (forall id, id ∈ bufs pp -> addr ∉ buf_addrs pp id) \/
            n = nr /\ exists id, id ∈ bufs pp /\ addr ∈ buf_addrs pp id /\ Z.land (ppb_flags (buf pp id)) flags = 0
  end).
Proof.
  intros Hnd Hok HP Ha Hnr. unfold page_pipe_read, get_ppb.
  destruct (find_ppb pp (bufs pp) addr) as [[[id iov] skip]|] eqn:E; cbn [fst snd].
  2:{ split_and!; try done. intros _. left. split; [done|]. intros id Hid Hin. revert E.
      apply (find_ppb_complete _ _ _ id); [|done|done]. eapply Forall_impl; [exact Hok|].
      intros i [_ _ Hi _ _ _]. by apply page_iovs_ok. }
  apply find_ppb_ok in E as [Hid Hfi].
  set (pp' := set_bufs _ _ pp).
  pose proof (move_to_front (bufs pp) id Hnd Hid : bufs pp' ≡ₚ bufs pp) as Hperm.
  assert (Hok' : Forall (buf_ok pp') (bufs pp')).
  { rewrite Hperm. eapply Forall_impl; [exact Hok|]. intros i Hi. by destruct Hi. }
  assert (HP' : pipe_holds P pp') by (unfold pipe_holds in *; rewrite Hperm; exact HP).
  change (buf pp' id) with (buf pp id).
  destruct (Z.eqb_spec (Z.land (ppb_flags (buf pp id)) flags) 0) as [Hfl|Hfl].
  { split_and!; try done. intros _. right. split; [done|]. exists id. split; [done|]. split; [|done]. unfold buf_addrs.
    rewrite Forall_forall in Hok. destruct (Hok id Hid) as [_ _ Q3 Q4 Q5 Q6]. pose proof (zsum_iov_pages _ (page_iovs_ok _ Q3)) as Hz. rewrite <- Q4 in Hz.
    apply find_iov_ok in Hfi as (l1 & l2 & El & Hr & _); [|by apply page_iovs_ok|lia|unfold PAGE_SIZE in *; lia]. rewrite El. apply elem_buf_addrs; [by rewrite <- El|done|done]. }
  apply list_elem_of_lookup_1 in Hid as [i Hi]. pose proof (Forall_lookup_1 _ _ _ _ HP Hi) as HPi. cbv beta zeta in HPi.
  destruct (Forall_lookup_1 _ _ _ _ Hok Hi) as [Q1 Q2 Q3 Q4 Q5 Q6]. set (b := buf pp id) in *.
  pose proof (zsum_iov_pages _ (page_iovs_ok _ Q3)) as Hz. rewrite <- Q4 in Hz.
  pose proof (zlen_nonneg (concat (iov_pages <$> buf_iovs pp id))) as Hp0. unfold PAGE_SIZE in *.
  apply find_iov_ok in Hfi as (l1 & l2 & El & Hr & ->); [|by apply page_iovs_ok|lia|lia].
  assert (HI : page_iov iov) by (rewrite El in Q3; apply Forall_app in Q3 as [_ Q3]; by apply Forall_cons_1 in Q3 as [? _]).
  destruct HI as [(I1 & I2 & I3 & I4) I5]. unfold PAGE_SIZE in I3, I5.
  rewrite (u64_small (iov_base iov + iov_len iov)), (u64_small (nr * 4096)) by lia.
  rewrite (u64_small (iov_base iov + iov_len iov - addr)) by lia.
  set (n := Z.min (iov_base iov + iov_len iov - addr) (nr * 4096) / 4096).
  assert (Hmin : Z.min (iov_base iov + iov_len iov - addr) (nr * 4096) = n * 4096 /\ 0 < n).
  { assert (Hm : Z.min (iov_base iov + iov_len iov - addr) (nr * 4096) mod 4096 = 0).
    { destruct (Z.min_spec (iov_base iov + iov_len iov - addr) (nr * 4096)) as [[_ ->]|[_ ->]].
      - rewrite Zminus_mod, Zplus_mod, I3, I5, Ha. done.
      - by rewrite Z.mod_mul. }
    unfold n. pose proof (Z.div_mod (Z.min (iov_base iov + iov_len iov - addr) (nr * 4096)) 4096 ltac:(lia)). lia. }
  destruct Hmin as [Hmin Hn]. rewrite Hmin. rewrite El in Q3.
  destruct (buf_pages_at l1 iov l2 addr n Q3 Ha Hr ltac:(lia)) as (K1 & K2 & K3 & K4); [unfold PAGE_SIZE; lia|].
  set (k := zlen (concat (iov_pages <$> l1)) + (addr - iov_base iov) / PAGE_SIZE) in *. unfold PAGE_SIZE in *.
  rewrite <- El in K3, K4. rewrite <- Q4 in K3.
  replace (0 + zsum (iov_len <$> l1) + (addr - iov_base iov)) with (k * 4096) by lia.
  rewrite (u64_small (pipe_off b * 4096)) by lia. rewrite (u64_small (k * 4096 + _)) by lia.
  rewrite u64_small by lia. set (skip := k * 4096 + pipe_off b * 4096) in *.
  destruct (Z.eqb_spec (tee (n * 4096 + skip)) (n * 4096 + skip)) as [Ht|Ht]; cbn [negb].
  2:{ split_and!; try done. intros Htee _. destruct Ht. apply Htee. unfold skip. lia. }
  destruct (Z.eqb_spec (splice skip) skip) as [Hs|Hs]; cbn [negb].
  2:{ split_and!; try done. intros _ Hsp. destruct Hs. apply Hsp. unfold skip. lia. }
  split_and!; try done. intros _. split; [lia|]. split; [lia|]. exists (k + pipe_off b). split; [unfold skip; lia|]. split; [lia|].
  assert (HPl : pages_in b <= zlen (P (ppb_pipe b)) - pipe_off b).
  { unfold buf_addrs in HPi. apply (f_equal length) in HPi. rewrite length_take, length_drop in HPi.
    unfold zlen in Q4 |- *. lia. }
  split; [lia|]. fold (buf_addrs pp id) in K4. rewrite <- HPi, skipn_firstn_comm, take_take, drop_drop in K4.
  rewrite <- K4. f_equal; [lia|]. f_equal. lia.
Qed.

(** [page_pipe_read] finds the page it is asked for.  Let each buffer own
    the part at its offset of what its pipe holds ([pipe_holds]).  When
    tee() and splice() move what they are asked to, a read of [nr] pages at a
    page address either says that no buffer has the page (0 pages), or copies
    from the buffer's pipe so that, after the bytes thrown away, the 1 to [nr]
    consecutive pages from [addr] on come out; buffers found move to the front
    of the list, which keeps every later read right. *)
Theorem page_pipe_read_correct P pp addr nr flags :
  NoDup (bufs pp) -> Forall (buf_ok pp) (bufs pp) -> pipe_holds P pp ->
  addr mod PAGE_SIZE = 0 -> 0 < nr < 2 ^ 51 ->
  let '(ret, n, data, pp') := page_pipe_read (fun n => n) (fun n => n) pp addr nr flags in
  ret = 0 /\ bufs pp' ≡ₚ bufs pp /\ Forall (buf_ok pp') (bufs pp') /\ pipe_holds P pp' /\
  match data with
  | Some (pipe, len, skip) =>
      0 < n <= nr /\ len = skip + n * PAGE_SIZE /\
      exists k, skip = k * PAGE_SIZE /\ k + n <= zlen (P pipe) /\
        take (Z.to_nat n) (drop (Z.to_nat k) (P pipe)) = iov_pages (Iovec addr (n * PAGE_SIZE))
  | None => n = 0 /\ (forall id, id ∈ bufs pp -> addr ∉ buf_addrs pp id) \/
            n = nr /\ exists id, id ∈ bufs pp /\ addr ∈ buf_addrs pp id /\ Z.land (ppb_flags (buf pp id)) flags = 0
  end.
Proof.
  intros H1 H2 H3 H4 H5. pose proof (page_pipe_read_spec (fun n => n) (fun n => n) P pp addr nr flags H1 H2 H3 H4 H5) as H.
  destruct (page_pipe_read _ _ pp addr nr flags) as [[[ret n] data] pp']. destruct H as (S1 & S2 & S3 & S4 & S5).
  specialize (S1 (fun _ _ => eq_refl) (fun _ _ => eq_refl)). specialize (S5 S1). split_and!; try done.
  destruct data as [[[pipe len] skip]|]; [|done]. destruct S5 as (A1 & A2 & k & A3 & A4 & A5). split; [done|]. split; [done|]. by exists k.
Qed.

(** ** How buffers share pipes *)

(** The pages the buffers of [l] have put into pipe [p]. *)
Definition pipe_fill (pp : page_pipe) (l : list nat) (p : Z) : Z :=
  zsum ((fun id => if ppb_pipe (buf pp id) =? p then pages_in (buf pp id) else 0) <$> l).

(** The contents of pipe [p] when the buffers are filled in order. *)
Definition pipe_pages_of (pp : page_pipe) (l : list nat) (p : Z) : list Z :=
  concat ((fun id => if ppb_pipe (buf pp id) =? p then buf_addrs pp id else []) <$> l).

Record pipes_ok (pp : page_pipe) : Prop := PipesOk {
  pk_off : forall i id, bufs pp !! i = Some id ->
    pipe_off (buf pp id) = pipe_fill pp (take i (bufs pp)) (ppb_pipe (buf pp id));
  pk_ids : Forall (fun id => 0 <= ppb_pipe (buf pp id) < nr_pipes pp) (bufs pp ++ free_bufs pp);
  (** the last buffer of a type is the last user of its pipe *)
  pk_prev : chunk_mode pp = false -> forall t id i j id', prev pp !! t = Some (Some id) ->
    bufs pp !! i = Some id -> bufs pp !! j = Some id' -> (i < j)%nat ->
    ppb_pipe (buf pp id') <> ppb_pipe (buf pp id);
  (** types do not share pipes *)
  pk_type : chunk_mode pp = false -> forall t t' id id', prev pp !! t = Some (Some id) ->
    prev pp !! t' = Some (Some id') -> t <> t' -> ppb_pipe (buf pp id) <> ppb_pipe (buf pp id');
  pk_chunk : chunk_mode pp = true -> NoDup ((fun id => ppb_pipe (buf pp id)) <$> (bufs pp ++ free_bufs pp));
  pk_free : chunk_mode pp = false -> free_bufs pp = []
}.

Lemma pipe_fill_ext pp pp' l p :
  (forall id, id ∈ l -> ppb_pipe (buf pp' id) = ppb_pipe (buf pp id) /\ pages_in (buf pp' id) = pages_in (buf pp id)) ->
  pipe_fill pp' l p = pipe_fill pp l p.
Proof.
  intros H. unfold pipe_fill. f_equal. apply list_fmap_ext. intros k id Hk.
  destruct (H id) as [-> ->]; [by eapply list_elem_of_lookup_2|done].
Qed.

Lemma pipes_ok_ext pp pp' : bufs pp' = bufs pp -> free_bufs pp' = free_bufs pp -> prev pp' = prev pp ->
  nr_pipes pp' = nr_pipes pp -> pp_flags pp' = pp_flags pp ->
  (forall id, ppb_pipe (buf pp' id) = ppb_pipe (buf pp id) /\ pipe_off (buf pp' id) = pipe_off (buf pp id)) ->
  (forall i id id', bufs pp !! i = Some id -> id' ∈ take i (bufs pp) -> pages_in (buf pp' id') = pages_in (buf pp id')) ->
  pipes_ok pp -> pipes_ok pp'.
Proof.
  intros E1 E2 E3 E4 E5 Hb Hp [P1 P2 P3 P4 P5 P6]. unfold chunk_mode in *.
  split; unfold chunk_mode; rewrite ?E1, ?E2, ?E3, ?E4, ?E5.
  - intros i id Hi. destruct (Hb id) as [-> ->]. rewrite (P1 i id Hi). symmetry. apply pipe_fill_ext.
    intros id' Hid'. destruct (Hb id') as [-> _]. split; [done|]. by apply (Hp i id).
  - eapply Forall_impl; [exact P2|]. intros id Hid. cbv beta in *. by destruct (Hb id) as [-> _].
  - intros Hc t id i j id' H1 H2 H3 H4. destruct (Hb id) as [-> _]. destruct (Hb id') as [-> _]. by apply (P3 Hc t id i j).
  - intros Hc t t' id id' H1 H2 H3. destruct (Hb id) as [-> _]. destruct (Hb id') as [-> _]. by apply (P4 Hc t t').
  - intros Hc. erewrite list_fmap_ext; [by apply P5|]. intros k id _. by destruct (Hb id) as [-> _].
  - done.
Qed.

(** A new tail on pipe [q], which no type but its own may still want. *)
Lemma pipes_ok_append pp pp' id q : pipes_ok pp -> pp_pre pp ->
  bufs pp' = bufs pp ++ [id] -> (exists l, free_bufs pp ≡ₚ l ++ free_bufs pp' /\ (l = [] \/ l = [id])) ->
  id ∉ bufs pp -> pp_flags pp' = pp_flags pp -> nr_pipes pp <= nr_pipes pp' ->
  (forall i, i ∈ bufs pp ++ free_bufs pp' -> i <> id -> buf pp' i = buf pp i) ->
  (id ∈ free_bufs pp' -> False) ->
  ppb_pipe (buf pp' id) = q -> pipe_off (buf pp' id) = pipe_fill pp (bufs pp) q -> 0 <= q < nr_pipes pp' ->
  (forall t x, prev pp' !! t = Some (Some x) -> x <> id -> prev pp !! t = Some (Some x)) ->
  (chunk_mode pp = false -> forall t x, prev pp' !! t = Some (Some x) -> x <> id -> ppb_pipe (buf pp x) <> q) ->
  (chunk_mode pp = false -> forall t t', prev pp' !! t = Some (Some id) -> prev pp' !! t' = Some (Some id) -> t = t') ->
  (chunk_mode pp = true -> q ∉ ((fun i => ppb_pipe (buf pp i)) <$> (bufs pp ++ free_bufs pp'))) ->
  pipes_ok pp'.
Proof.
  intros [P1 P2 P3 P4 P5 P6] Hpre E (l & El & Hl) Hnb Hfl Hnp Hold Hnf Hq Hoff Hqr Hpv Hpq Hpi Hcq.
  assert (Hne : forall i x, bufs pp !! i = Some x -> x <> id /\ buf pp' x = buf pp x).
  { intros i x Hx. assert (Hin : x ∈ bufs pp) by (by eapply list_elem_of_lookup_2).
    assert (x <> id) by (intros ->; done). split; [done|]. apply Hold; [|done]. apply elem_of_app. by left. }
  assert (Hpb : chunk_mode pp = false -> forall t x, prev pp !! t = Some (Some x) -> x ∈ bufs pp).
  { intros Hc t x Hx. by apply (po_prev _ Hpre t). }
  assert (Hcm : chunk_mode pp' = chunk_mode pp) by (unfold chunk_mode; by rewrite Hfl).
  assert (Hpx : chunk_mode pp = false -> forall t x, prev pp' !! t = Some (Some x) -> x <> id -> buf pp' x = buf pp x).
  { intros Hc t x Hx Hn. apply Hold; [|done]. apply elem_of_app. left. apply (Hpb Hc t x). by apply Hpv. }
  split; rewrite ?Hcm.
  - rewrite E. intros i x Hx. apply lookup_app_Some in Hx as [Hx|[Hge Hx]].
    + destruct (Hne i x Hx) as [Hn Hb]. rewrite take_app_le by (apply lookup_lt_Some in Hx; lia). rewrite Hb.
      rewrite (P1 i x Hx). symmetry. apply pipe_fill_ext. intros y Hy.
      apply elem_of_take in Hy as (k & Hk & _). by destruct (Hne k y Hk) as [_ ->].
    + apply list_lookup_singleton_Some in Hx as [Hi <-]. rewrite Hq, Hoff.
      rewrite take_app_le by lia. rewrite firstn_all2 by lia. symmetry. apply pipe_fill_ext. intros y Hy.
      apply list_elem_of_lookup_1 in Hy as [k Hk]. by destruct (Hne k y Hk) as [_ ->].
  - apply Forall_app in P2 as [P2 P2']. rewrite El in P2'. apply Forall_app in P2' as [_ P2'].
    rewrite E. apply Forall_app. split; [apply Forall_app; split|].
    + apply Forall_lookup_2. intros k x Hx. pose proof (Forall_lookup_1 _ _ _ _ P2 Hx) as Hr; cbv beta in Hr.
      destruct (Hne k x Hx) as [_ ->]. lia.
    + apply Forall_cons_2; [rewrite Hq; done|apply Forall_nil_2].
    + apply Forall_lookup_2. intros k x Hx. pose proof (Forall_lookup_1 _ _ _ _ P2' Hx) as Hr; cbv beta in Hr.
      assert (x ∈ free_bufs pp') by (by eapply list_elem_of_lookup_2).
      rewrite Hold; [lia|apply elem_of_app; by right|intros ->; done].
  - intros Hc t x i j y Hx Hi Hj Hij. rewrite E in Hi, Hj.
    apply lookup_app_Some in Hi as [Hi|[Hge Hi]].
    + destruct (Hne i x Hi) as [Hn ->]. apply lookup_app_Some in Hj as [Hj|[_ Hj]].
      * destruct (Hne j y Hj) as [_ ->]. apply (P3 Hc t x i j); try done. by apply Hpv.
      * apply list_lookup_singleton_Some in Hj as [_ <-]. rewrite Hq. intros Heq. by apply (Hpq Hc t x Hx Hn).
    + apply list_lookup_singleton_Some in Hi as [Hi _]. apply lookup_lt_Some in Hj.
      rewrite length_app in Hj. simpl in Hj. lia.
  - intros Hc t t' x y Hx Hy Htt.
    destruct (decide (x = id)) as [->|Hxn]; destruct (decide (y = id)) as [->|Hyn].
    + exfalso. apply Htt. by apply (Hpi Hc).
    + rewrite (Hpx Hc t' y Hy Hyn), Hq. intros Heq. by apply (Hpq Hc t' y Hy Hyn).
    + rewrite (Hpx Hc t x Hx Hxn), Hq. by apply (Hpq Hc t x Hx Hxn).
    + rewrite (Hpx Hc t' y Hy Hyn), (Hpx Hc t x Hx Hxn). apply (P4 Hc t t'); try done; by apply Hpv.
  - intros Hc. specialize (P5 Hc). rewrite El in P5.
    assert (Hmap : forall l' : list nat, (forall x, x ∈ l' -> x ∈ bufs pp ++ free_bufs pp' /\ x <> id) ->
      (fun i => ppb_pipe (buf pp' i)) <$> l' = (fun i => ppb_pipe (buf pp i)) <$> l').
    { intros l' Hl'. apply list_fmap_ext. intros k x Hx. destruct (Hl' x) as [? ?];
        [by eapply list_elem_of_lookup_2|]. by rewrite Hold. }
    rewrite E, <- app_assoc. rewrite !fmap_app. rewrite !fmap_app in P5.
    rewrite (Hmap (bufs pp)), (Hmap (free_bufs pp')).
    + simpl. rewrite Hq. rewrite fmap_app in Hcq. specialize (Hcq Hc).
      rewrite Permutation_app_comm in P5. rewrite <- app_assoc in P5. apply NoDup_app in P5 as (_ & _ & P5).
      rewrite <- Permutation_middle, Permutation_app_comm. apply NoDup_cons.
      split; [by rewrite Permutation_app_comm|done].
    + intros x Hx. split; [apply elem_of_app; by right|intros ->; done].
    + intros x Hx. split; [apply elem_of_app; by left|intros ->; done].
  - intros Hc. rewrite (P6 Hc) in El. apply Permutation_nil_l in El. symmetry in El. by apply app_eq_nil in El as [_ ?].
Qed.

Lemma pipe_fill_app pp l1 l2 p : pipe_fill pp (l1 ++ l2) p = pipe_fill pp l1 p + pipe_fill pp l2 p.
Proof. unfold pipe_fill. by rewrite fmap_app, zsum_app. Qed.

Lemma pipe_fill_none pp l p : Forall (fun id => ppb_pipe (buf pp id) <> p) l -> pipe_fill pp l p = 0.
Proof.
  induction 1 as [|id l H _ IH]; [done|]. unfold pipe_fill in *. rewrite fmap_cons, zsum_cons, IH.
  by destruct (Z.eqb_spec (ppb_pipe (buf pp id)) p).
Qed.

(** The fill of a pipe is where the next buffer on it starts. *)
Lemma pipe_fill_last pp i id : pipes_ok pp -> bufs pp !! i = Some id ->
  (forall j id', bufs pp !! j = Some id' -> (i < j)%nat -> ppb_pipe (buf pp id') <> ppb_pipe (buf pp id)) ->
  pipe_fill pp (bufs pp) (ppb_pipe (buf pp id)) = pages_in (buf pp id) + pipe_off (buf pp id).
Proof.
  intros Hp Hi Hlast. rewrite <- (take_drop_middle _ _ _ Hi) at 1.
  rewrite pipe_fill_app, (pk_off _ Hp i id Hi). 
  change (id :: drop (S i) (bufs pp)) with ([id] ++ drop (S i) (bufs pp)). rewrite pipe_fill_app.
  rewrite (pipe_fill_none pp (drop (S i) (bufs pp))).
  - unfold pipe_fill at 2. simpl. rewrite Z.eqb_refl. lia.
  - apply Forall_lookup_2. intros k x Hx. rewrite lookup_drop in Hx. apply (Hlast _ _ Hx). lia.
Qed.

(** The layout of the pipes as their buffers see it. *)
Lemma pipes_ok_holds pp : pipes_ok pp -> Forall (buf_ok pp) (bufs pp) -> pipe_holds (pipe_pages_of pp (bufs pp)) pp.
Proof.
  intros Hp Hb. apply Forall_lookup_2. intros i id Hi. cbv zeta.
  rewrite (pk_off _ Hp i id Hi). set (p := ppb_pipe (buf pp id)).
  assert (Hlen : forall l, Forall (buf_ok pp) l -> zlen (pipe_pages_of pp l p) = pipe_fill pp l p).
  { intros l Hl. induction Hl as [|x l Hx _ IH]; [done|].
    unfold pipe_pages_of, pipe_fill in *. rewrite !fmap_cons, zsum_cons. cbn [concat]. rewrite zlen_app, IH.
    destruct (ppb_pipe (buf pp x) =? p); [|done]. unfold buf_addrs. by rewrite <- (bo_pages _ _ Hx). }
  assert (Happ : forall l1 l2, pipe_pages_of pp (l1 ++ l2) p = pipe_pages_of pp l1 p ++ pipe_pages_of pp l2 p).
  { intros l1 l2. unfold pipe_pages_of. by rewrite fmap_app, concat_app. }
  rewrite <- (take_drop_middle _ _ _ Hi) at 2. rewrite Happ.
  specialize (Hlen (take i (bufs pp)) (Forall_take _ _ _ Hb)). unfold zlen in Hlen.
  rewrite drop_app_ge by lia. rewrite <- Hlen, Nat2Z.id, Nat.sub_diag. simpl.
  change (id :: drop (S i) (bufs pp)) with ([id] ++ drop (S i) (bufs pp)). rewrite Happ. unfold pipe_pages_of at 1. simpl. unfold p at 1. rewrite Z.eqb_refl, app_nil_r.
  pose proof (bo_pages _ _ (Forall_lookup_1 _ _ _ _ Hb Hi)) as Hpg. unfold zlen in Hpg. fold (buf_addrs pp id) in Hpg.
  rewrite drop_0, take_app_le by lia. rewrite firstn_all2; [done|lia].
Qed.

Section Sharing.
Context (lazy_pages : bool) (getpipe : Z) (setpipe : Z -> Z).
Context (Hget : getpipe < 0 \/ PAGE_SIZE <= getpipe < 2 ^ 31).
Context (Hset : forall n, setpipe n < 0 \/ n <= setpipe n < 2 ^ 31).

(** A buffer on a pipe of its own. *)
Lemma new_pipe_pipes_ok pp size t flags :
  pp_pre pp -> pipes_ok pp -> free_bufs pp = [] -> 0 <= nr_pipes pp ->
  let pp1 := add_buf (PagePipeBuf (nr_pipes pp) size 0 0 0 0 0) (nr_pipes pp + 1) t pp in
  pipes_ok (upd_buf (ppb_init 0 0 flags (free_iov pp1)) (pred (length (arena pp1))) pp1).
Proof.
  intros Hpre Hp Hf Hnp pp1. pose proof Hpre as [N B Fr I Pv].
  assert (Hlen : length (arena pp1) = S (length (arena pp)))
    by (unfold pp1, add_buf; simpl; rewrite length_app; simpl; lia).
  rewrite Hlen. cbn [pred]. set (id := length (arena pp)).
  assert (Hidb : forall x, x ∈ bufs pp -> (x < id)%nat).
  { intros x Hx. apply list_elem_of_lookup_1 in Hx as [k Hk]. by destruct (Forall_lookup_1 _ _ _ _ B Hk). }
  assert (Hids : forall x, x ∈ bufs pp -> ppb_pipe (buf pp x) < nr_pipes pp).
  { intros x Hx. apply list_elem_of_lookup_1 in Hx as [k Hk]. pose proof (pk_ids _ Hp) as Hi.
    apply Forall_app in Hi as [Hi _]. apply (Forall_lookup_1 _ _ _ _ Hi Hk). }
  assert (Hnew : buf (upd_buf (ppb_init 0 0 flags (free_iov pp1)) id pp1) id =
    PagePipeBuf (nr_pipes pp) size 0 0 0 flags (free_iov pp)).
  { rewrite buf_upd_eq by (unfold id; lia). unfold pp1, id. by rewrite buf_add_new. }
  assert (Hprev : forall ty x, prev pp1 !! ty = Some (Some x) -> x <> id -> prev pp !! ty = Some (Some x)).
  { intros ty x Hx Hn. cbn in Hx. destruct (decide (Z.to_nat t = ty)) as [<-|Hne].
    - apply list_lookup_insert_Some in Hx as [(_ & [= E] & _)|[? _]]; done.
    - by rewrite list_lookup_insert_ne in Hx. }
  apply (pipes_ok_append pp _ id (nr_pipes pp)); try done.
  - exists []. cbn. rewrite Hf. split; [done|]. by left.
  - intros Hin. specialize (Hidb id Hin). lia.
  - cbn. lia.
  - intros i Hi Hn. rewrite buf_upd_ne by done. apply buf_add_old. cbn in Hi. rewrite Hf, app_nil_r in Hi. by apply Hidb.
  - cbn. rewrite Hf. apply not_elem_of_nil.
  - by rewrite Hnew.
  - rewrite Hnew. simpl. symmetry. apply pipe_fill_none. apply Forall_lookup_2. intros k x Hx.
    specialize (Hids x ltac:(by eapply list_elem_of_lookup_2)). lia.
  - cbn. lia.
  - intros Hc ty x Hx Hn. specialize (Hids x ltac:(by apply (Pv ty); [apply Hprev|])). lia.
  - intros Hc ty ty' H1 H2. cbn in H1, H2.
    assert (Hty : forall z, <[Z.to_nat t := Some id]> (prev pp) !! z = Some (Some id) -> Z.to_nat t = z).
    { intros z Hz. destruct (decide (Z.to_nat t = z)) as [|Hne]; [done|]. rewrite list_lookup_insert_ne in Hz by done.
      specialize (Hidb id ltac:(by apply (Pv z))). lia. }
    by rewrite <- (Hty _ H1), <- (Hty _ H2).
  - intros Hc Hin. cbn in Hin. rewrite Hf, app_nil_r in Hin. apply list_elem_of_fmap_1 in Hin as (x & Hx & Hin).
    specialize (Hids x Hin). lia.
Qed.

(** A buffer on the pipe of the last one of its type. *)
Lemma shared_pipe_pipes_ok pp prv size off t flags :
  pp_pre pp -> pipes_ok pp -> free_bufs pp = [] -> chunk_mode pp = false ->
  prev pp !! Z.to_nat t = Some (Some prv) -> off = pages_in (buf pp prv) + pipe_off (buf pp prv) ->
  let pp1 := add_buf (PagePipeBuf (ppb_pipe (buf pp prv)) size 0 off 0 0 0) (nr_pipes pp) t pp in
  pipes_ok (upd_buf (ppb_init 0 0 flags (free_iov pp1)) (pred (length (arena pp1))) pp1).
Proof.
  intros Hpre Hp Hf Hcm Hprv Hoff pp1. pose proof Hpre as [N B Fr I Pv].
  assert (Hlen : length (arena pp1) = S (length (arena pp)))
    by (unfold pp1, add_buf; simpl; rewrite length_app; simpl; lia).
  rewrite Hlen. cbn [pred]. set (id := length (arena pp)).
  assert (Hidb : forall x, x ∈ bufs pp -> (x < id)%nat).
  { intros x Hx. apply list_elem_of_lookup_1 in Hx as [k Hk]. by destruct (Forall_lookup_1 _ _ _ _ B Hk). }
  assert (Hnew : buf (upd_buf (ppb_init 0 0 flags (free_iov pp1)) id pp1) id =
    PagePipeBuf (ppb_pipe (buf pp prv)) size 0 off 0 flags (free_iov pp)).
  { rewrite buf_upd_eq by (unfold id; lia). unfold pp1, id. by rewrite buf_add_new. }
  assert (Hprev : forall ty x, prev pp1 !! ty = Some (Some x) -> x <> id ->
    Z.to_nat t <> ty /\ prev pp !! ty = Some (Some x)).
  { intros ty x Hx Hn. cbn in Hx. destruct (decide (Z.to_nat t = ty)) as [<-|Hne].
    - apply list_lookup_insert_Some in Hx as [(_ & [= E] & _)|[? _]]; done.
    - by rewrite list_lookup_insert_ne in Hx. }
  pose proof (Pv _ _ Hprv Hcm) as Hin. apply list_elem_of_lookup_1 in Hin as [k Hk].
  assert (Hrange : 0 <= ppb_pipe (buf pp prv) < nr_pipes pp).
  { pose proof (pk_ids _ Hp) as Hi. apply Forall_app in Hi as [Hi _]. apply (Forall_lookup_1 _ _ _ _ Hi Hk). }
  apply (pipes_ok_append pp _ id (ppb_pipe (buf pp prv))); try done.
  - exists []. cbn. rewrite Hf. split; [done|]. by left.
  - intros Hin. specialize (Hidb id Hin). lia.
  - intros i Hi Hn. rewrite buf_upd_ne by done. apply buf_add_old. cbn in Hi. rewrite Hf, app_nil_r in Hi. by apply Hidb.
  - cbn. rewrite Hf. apply not_elem_of_nil.
  - by rewrite Hnew.
  - rewrite Hnew. simpl. rewrite Hoff. symmetry. apply (pipe_fill_last pp k); [done|done|].
    intros j x Hx Hj. by apply (pk_prev _ Hp Hcm (Z.to_nat t) prv k j).
  - intros ty x Hx Hn. by apply Hprev.
  - intros Hc ty x Hx Hn. destruct (Hprev ty x Hx Hn) as [Hne Hp']. by apply (pk_type _ Hp Hc ty (Z.to_nat t)).
  - intros Hc ty ty' H1 H2. cbn in H1, H2.
    assert (Hty : forall z, <[Z.to_nat t := Some id]> (prev pp) !! z = Some (Some id) -> Z.to_nat t = z).
    { intros z Hz. destruct (decide (Z.to_nat t = z)) as [|Hne]; [done|]. rewrite list_lookup_insert_ne in Hz by done.
      specialize (Hidb id ltac:(by apply (Pv z))). lia. }
    by rewrite <- (Hty _ H1), <- (Hty _ H2).
  - intros Hc. by rewrite Hcm in Hc.
Qed.

Lemma page_pipe_grow_pipes al pp flags ret pp' al' :
  pp_pre pp -> (bufs pp = [] \/ pp_ok pp) -> pipes_ok pp -> 0 <= nr_pipes pp ->
  page_pipe_grow lazy_pages getpipe setpipe al pp flags = Ret (ret, pp', al') ->
  pipes_ok pp' /\ 0 <= nr_pipes pp'.
Proof.
  intros Hpre Hok Hp Hn. pose proof Hpre as [N B Fr I Pv]. unfold page_pipe_grow.
  assert (Hnew : forall al q, pp_pre q -> pipes_ok q -> free_bufs q = [] -> 0 <= nr_pipes q ->
    (let! (ok, p, a) := Ret (ppb_new_pipe lazy_pages getpipe al q flags) in
      if negb ok then Ret (-1, p, a)
      else Ret (0, upd_buf (ppb_init 0 0 flags (free_iov p)) (pred (length (arena p))) p, a))
      = Ret (ret, pp', al') -> pipes_ok pp' /\ 0 <= nr_pipes pp').
  { intros al0 q Hq Hqp Hqf Hqn. unfold ppb_new_pipe. destruct (xalloc al0) as [[] al1]; simpl;
      [|by intros [= _ <- _]]. destruct (getpipe <? 0); simpl; [by intros [= _ <- _]|].
    intros [= _ <- _]. split; [|simpl; lia]. by apply (new_pipe_pipes_ok q). }
  destruct (free_bufs pp) as [|id free] eqn:Ef.
  - destruct (_ && _); [by intros [= _ <- _]|].
    unfold ppb_alloc. destruct (xalloc al) as [[] al1]; simpl; [|by intros [= _ <- _]].
    destruct (pp_prev_ppb lazy_pages pp flags) as [id|] eqn:Ep; [|by apply Hnew].
    unfold pp_prev_ppb in Ep. destruct (chunk_mode pp) eqn:Ec; [done|].
    destruct (bufs pp) as [|b0 l0] eqn:Eb; [done|].
    destruct (prev pp !! Z.to_nat (ppb_type lazy_pages flags)) as [[i|]|] eqn:El; simpl in Ep; try done.
    injection Ep as ->. rewrite <- Eb in *. pose proof (Pv _ _ El eq_refl) as Hin.
    destruct Hok as [Hnil|Hok]; [rewrite Hnil in Hin; by apply elem_of_nil in Hin|].
    assert (Hbid : buf_ok pp id).
    { apply list_elem_of_lookup_1 in Hin as [k Hk]. by apply (Forall_lookup_1 _ _ _ _ B Hk). }
    destruct Hbid as [Q1 Q2 Q3 Q4 Q5 Q6].
    pose proof (zlen_nonneg (concat (iov_pages <$> buf_iovs pp id))).
    destruct (ppb_resize_pipe_ok setpipe Hset (buf pp id)) as (r & n & -> & Hc); [done|lia..|]. simpl.
    destruct (resize_buf_ok pp id n Hok Hin) as (R1 & R2 & R3); [destruct Hc; lia|].
    set (q := upd_buf (fun _ => set_pipe_size n (buf pp id)) id pp) in *.
    assert (Hpipe : forall i, ppb_pipe (buf q i) = ppb_pipe (buf pp i)).
    { intros i. destruct (decide (i = id)) as [->|Hne]; unfold q; [by rewrite buf_upd_eq|by rewrite buf_upd_ne]. }
    assert (Hpq : pipes_ok q).
    { apply (pipes_ok_ext pp); try done; [intros i; split; [done|apply R3]|intros ? ? ? _ _; apply R3]. }
    destruct Hc as [(-> & Hm & Hroom)|(-> & Hm & Hfull)]; simpl; [|by apply (Hnew al1 q (po_pre _ R1) Hpq Ef Hn)].
    intros [= _ <- _]. split; [|done]. rewrite u64_small by lia.
    pose proof (shared_pipe_pipes_ok q id n (pages_in (buf pp id) + pipe_off (buf pp id))
      (ppb_type lazy_pages flags) flags R1 Hpq Ef Ec El) as Hs. cbv zeta in Hs. rewrite Hpipe in Hs.
    apply Hs. by rewrite (proj1 (R3 id)), (proj2 (R3 id)).
  - intros [= _ <- _]. split; [|done].
    apply Forall_cons_1 in Fr as [(F1 & F2 & F3) Fr].
    apply NoDup_app in N as (N1 & N2 & N3). apply NoDup_cons in N3 as [N3 N4].
    assert (Hid : id ∉ bufs pp) by (intros Hin; apply (N2 id Hin), elem_of_cons; by left).
    pose proof (pk_ids _ Hp) as Hids. rewrite Ef in Hids. apply Forall_app in Hids as [_ Hids].
    apply Forall_cons_1 in Hids as [Hid1 _].
    apply (pipes_ok_append pp _ id (ppb_pipe (buf pp id))); try done.
    + exists [id]. rewrite Ef. split; [done|]. by right.
    + intros i Hi Hne. by rewrite buf_upd_ne.
    + by rewrite buf_upd_eq.
    + rewrite buf_upd_eq by done. simpl. unfold buf. simpl. fold (buf pp id). rewrite F3. symmetry.
      destruct (chunk_mode pp) eqn:Ec.
      * apply pipe_fill_none. apply Forall_lookup_2. intros k x Hx Heq.
        pose proof (pk_chunk _ Hp Ec) as Hnd. rewrite Ef, fmap_app in Hnd.
        apply NoDup_app in Hnd as (_ & Hd & _). apply (Hd (ppb_pipe (buf pp id))).
        -- rewrite <- Heq. apply (list_elem_of_fmap_2 (fun i => ppb_pipe (buf pp i))).
           by eapply list_elem_of_lookup_2.
        -- rewrite fmap_cons. apply elem_of_cons. by left.
      * by rewrite (pk_free _ Hp Ec) in Ef.
    + intros Hc. by rewrite (pk_free _ Hp Hc) in Ef.
    + intros Hc t t' Hx Hy. exfalso. apply Hid. by apply (Pv t).
    + intros Hc. pose proof (pk_chunk _ Hp Hc) as Hnd. rewrite Ef in Hnd. cbn.
      rewrite fmap_app in *. rewrite fmap_cons in Hnd. rewrite <- Permutation_middle in Hnd.
      by apply NoDup_cons in Hnd as [? _].
Qed.

Lemma tail_grown_pipes pp pp' init t addr : pp_ok pp -> bufs pp = init ++ [t] ->
  tail_grown pp pp' init t addr -> pipes_ok pp -> pipes_ok pp'.
Proof.
  intros Hok E [(T1 & T2 & T3 & T4 & T4' & T5 & T6 & T6') T7 T8 (F1 & F2 & F3 & F4) _ _ _ _] Hp.
  apply (pipes_ok_ext pp); try done.
  - intros id. destruct (decide (id = t)) as [->|Hne]; [done|]. by rewrite T7.
  - intros i id id' Hi Hin. rewrite T7; [done|]. intros ->.
    pose proof (po_nodup _ Hok) as Hnd. apply NoDup_app in Hnd as [Hnd _].
    apply lookup_lt_Some in Hi. rewrite E in Hi, Hin, Hnd. rewrite length_app in Hi. simpl in Hi.
    rewrite take_app_le in Hin by lia. apply NoDup_app in Hnd as (_ & Hd & _).
    apply (Hd t); [|by apply list_elem_of_singleton]. apply elem_of_take in Hin as (k & Hk & _).
    by eapply list_elem_of_lookup_2.
Qed.

Lemma tail_grown_nr_pipes pp pp' init t addr : tail_grown pp pp' init t addr -> nr_pipes pp' = nr_pipes pp.
Proof. by intros [(_ & _ & _ & _ & _ & _ & _ & E) _ _ _ _ _ _ _]. Qed.

Lemma page_pipe_add_page_pipes al pp addr flags ret pp' al' :
  pp_ok pp -> page_addr addr -> free_iov pp < nr_iovs pp -> pipes_ok pp -> 0 <= nr_pipes pp ->
  page_pipe_add_page lazy_pages getpipe setpipe al pp addr flags = Ret (ret, pp', al') ->
  pipes_ok pp' /\ 0 <= nr_pipes pp'.
Proof.
  intros Hok Ha Hfree Hp Hn. pose proof (po_tail _ Hok) as (init & t & E & _). unfold page_pipe_add_page.
  destruct (try_add_page_ok setpipe Hset pp init t addr flags Hok E Ha Hfree) as (r1 & pp1 & -> & Hc & _). simpl.
  destruct Hc as [(-> & Hfl & Hg)|(-> & ->)]; simpl.
  { intros [= _ <- _]. rewrite (tail_grown_nr_pipes _ _ _ _ _ Hg). split; [|done]. by eapply tail_grown_pipes. }
  destruct (page_pipe_grow_ok lazy_pages getpipe setpipe Hget Hset al pp flags Hok (or_intror Hok))
    as (r2 & pp2 & al2 & Eg & Hg).
  destruct (page_pipe_grow_pipes al pp flags r2 pp2 al2 Hok (or_intror Hok) Hp Hn Eg) as [Hp2 Hn2].
  rewrite Eg. simpl. destruct Hg as [(-> & G1 & G2 & G3 & G4 & init2 & t2 & E2 & Hf2 & Hr2)|(Hneg & _)]; simpl.
  - destruct (try_add_page_ok setpipe Hset pp2 init2 t2 addr flags G1 E2 Ha ltac:(lia)) as (r3 & pp3 & -> & Hc & Hz).
    simpl. assert (r3 = 0) as -> by (by apply Hz). simpl. intros [= _ <- _].
    destruct Hc as [(_ & Hfl & Hg)|(? & _)]; [|done]. rewrite (tail_grown_nr_pipes _ _ _ _ _ Hg).
    split; [|done]. by eapply tail_grown_pipes.
  - destruct (Z.ltb_spec r2 0); [|lia]. by intros [= _ <- _].
Qed.

Lemma add_pages_pipes l : forall al pp ret pp', pp_ok pp -> Forall (fun p => page_addr (fst p)) l ->
  free_iov pp + zlen l <= nr_iovs pp -> pipes_ok pp -> 0 <= nr_pipes pp ->
  add_pages lazy_pages getpipe setpipe al pp l = Ret (ret, pp') -> pp_ok pp' /\ pipes_ok pp'.
Proof.
  induction l as [|[addr flags] l IH]; intros al pp ret pp' Hok Hf Hn Hp Hnp H; [by injection H as _ <-|].
  apply Forall_cons_1 in Hf as [Ha Hf]. unfold zlen in *. simpl in Hn.
  destruct (page_pipe_add_page_ok lazy_pages getpipe setpipe Hget Hset al pp addr flags Hok Ha ltac:(lia))
    as (r1 & pp1 & al1 & E & H1 & H2 & Hc).
  destruct (page_pipe_add_page_pipes _ _ _ _ _ _ _ Hok Ha ltac:(lia) Hp Hnp E) as [Hp1 Hnp1].
  cbn [add_pages] in H. rewrite E in H. cbn [obind] in H. destruct Hc as [(-> & H3 & H4)|(Hneg & H3)].
  - simpl in H. apply (IH al1 pp1 ret pp'); try done. lia.
  - destruct (Z.eqb_spec r1 0); [lia|]. simpl in H. by injection H as _ <-.
Qed.

Lemma create_page_pipe_pipes al segs given flags pp al' : 0 <= segs ->
  (forall l, given = Some l -> zlen l = segs) ->
  create_page_pipe lazy_pages getpipe setpipe al segs given flags = Ret (Some pp, al') ->
  pipes_ok pp /\ 0 <= nr_pipes pp.
Proof.
  intros Hs Hg. unfold create_page_pipe. destruct (xalloc al) as [[] al1]; simpl; [|done].
  destruct (match given with Some _ => _ | None => _ end) as [[io fl] al2] eqn:Eg.
  destruct io as [io|]; [|done].
  assert (Hio : zlen io = segs).
  { destruct given as [l|]; [injection Eg as <- _ _; by apply Hg|].
    destruct (xalloc al1) as [[] ?]; [|done]. injection Eg as <- _ _. unfold zlen. rewrite length_replicate. lia. }
  set (pp0 := PagePipe 0 [] [] [] [None; None; None; None] segs 0 io 0 0 [] [] fl false).
  assert (Hpre : pp_pre pp0).
  { split; [by apply NoDup_nil_2|apply Forall_nil_2|apply Forall_nil_2|simpl; lia|].
    intros t id Ht. do 4 (destruct t as [|t]; [done|]). done. }
  assert (Hp0 : pipes_ok pp0).
  { split; [done|apply Forall_nil_2|done| |by intros _; apply NoDup_nil_2|done].
    intros _ t t' id id' Ht. do 4 (destruct t as [|t]; [done|]). done. }
  destruct (page_pipe_grow _ _ _ _ _ _) as [[[ret pp'] al3]| |] eqn:Egr; simpl; try done.
  apply page_pipe_grow_pipes in Egr; [|done|by left|done|done].
  intros [= E _]. destruct (ret =? 0); [|done]. by injection E as <-.
Qed.
End Sharing.

(** Buffers share pipes without mixing.  After any sequence of additions
    to a page pipe, each buffer's offset is the number of pages put before it
    into the same pipe: if the buffers are filled in order, every buffer owns
    exactly the part of its pipe from its offset on (the hypothesis of the
    theorem on [page_pipe_read]); the part fits the capacity the kernel gave
    the pipe; and the last buffers of different types (lazy, force-raw) never
    share a pipe. *)
Theorem page_pipe_shares_pipes lazy_pages getpipe setpipe al segs given flags pp al' al2 l ret pp' :
  getpipe < 0 \/ PAGE_SIZE <= getpipe < 2 ^ 31 ->
  (forall n, setpipe n < 0 \/ n <= setpipe n < 2 ^ 31) ->
  (forall iov, given = Some iov -> zlen iov = segs) ->
  create_page_pipe lazy_pages getpipe setpipe al segs given flags = Ret (Some pp, al') ->
  Forall (fun p => page_addr (fst p)) l -> zlen l <= segs ->
  add_pages lazy_pages getpipe setpipe al2 pp l = Ret (ret, pp') ->
  pipe_holds (pipe_pages_of pp' (bufs pp')) pp' /\
  Forall (fun id => pipe_off (buf pp' id) + pages_in (buf pp' id) <= pipe_size (buf pp' id)) (bufs pp') /\
  (chunk_mode pp' = false -> forall t t' id id', prev pp' !! t = Some (Some id) ->
     prev pp' !! t' = Some (Some id') -> t <> t' -> ppb_pipe (buf pp' id) <> ppb_pipe (buf pp' id')).
Proof.
  intros Hget Hset Hgiven Hc Hf Hl Ha. pose proof (zlen_nonneg l).
  pose proof (create_page_pipe_ok lazy_pages getpipe setpipe Hget Hset al segs given flags _ al'
    ltac:(lia) Hgiven Hc) as (H1 & H2 & H3 & H4).
  destruct (create_page_pipe_pipes lazy_pages getpipe setpipe Hset al segs given flags pp al' ltac:(lia) Hgiven Hc)
    as [H5 H6].
  destruct (add_pages_pipes lazy_pages getpipe setpipe Hget Hset l al2 pp ret pp' H1 Hf ltac:(lia) H5 H6 Ha) as [O P].
  split; [apply pipes_ok_holds; [done|by destruct O as [[]]]|]. split.
  - destruct O as [[_ B _ _ _] _]. eapply Forall_impl; [exact B|]. intros id [_ _ _ _ _ ?]. lia.
  - apply (pk_type _ P).
Qed.

(** ** Holes *)
Definition hole_iovs (pp : page_pipe) : list (iovec * Z) :=
  let n := Z.to_nat (free_hole pp) in zip (take n (holes pp)) (take n (hole_flags pp)).
Definition hole_pages (pp : page_pipe) : list (Z * Z) :=
  concat ((fun '(iov, f) => (fun a => (a, f)) <$> iov_pages iov) <$> hole_iovs pp).

Record holes_ok (pp : page_pipe) : Prop := HolesOk {
  ho_count : 0 <= free_hole pp <= zlen (holes pp) /\ free_hole pp <= zlen (hole_flags pp);
  ho_iovs : Forall (fun h => page_iov (fst h)) (hole_iovs pp)
}.

Lemma hole_iovs_snoc (h : list iovec) (fl : list Z) n x f : h !! n = Some x -> fl !! n = Some f ->
  zip (take (S n) h) (take (S n) fl) = zip (take n h) (take n fl) ++ [(x, f)].
Proof.
  intros H1 H2. rewrite (take_S_r _ _ _ H1), (take_S_r _ _ _ H2), zip_with_app; [done|].
  apply lookup_lt_Some in H1, H2. rewrite !length_take. lia.
Qed.

Lemma hole_pages_snoc pp l iov f : hole_iovs pp = l ++ [(iov, f)] ->
  hole_pages pp = concat ((fun '(iov, f) => (fun a => (a, f)) <$> iov_pages iov) <$> l) ++
                  ((fun a => (a, f)) <$> iov_pages iov).
Proof. intros E. unfold hole_pages. rewrite E, fmap_app, concat_app. simpl. by rewrite app_nil_r. Qed.

Definition holes_grown (pp pp' : page_pipe) (addr flags : Z) : Prop :=
  holes_ok pp' /\ hole_pages pp' = hole_pages pp ++ [(addr, flags)].

(** The hole continues the last one. *)
Lemma grow_hole pp n iov flags addr : holes_ok pp -> page_addr addr -> free_hole pp <> 0 ->
  let k := Z.to_nat (free_hole pp - 1) in
  hole_flags pp !! k = Some flags -> holes pp !! k = Some iov -> iov_base iov + iov_len iov = addr ->
  holes_grown pp (set_holes n (free_hole pp)
    (<[k := Iovec (iov_base iov) (iov_len iov + PAGE_SIZE)]> (holes pp)) (hole_flags pp) pp) addr flags.
Proof.
  intros [[Hc1 Hc2] Hi] (A1 & A2 & A3) Hn k Hf Hh Heq. unfold zlen in *.
  assert (Hk : Z.to_nat (free_hole pp) = S k) by (unfold k; lia).
  set (iov' := Iovec (iov_base iov) (iov_len iov + PAGE_SIZE)).
  assert (E : hole_iovs pp = zip (take k (holes pp)) (take k (hole_flags pp)) ++ [(iov, flags)]).
  { unfold hole_iovs. rewrite Hk. by apply hole_iovs_snoc. }
  rewrite E in Hi. apply Forall_app in Hi as [Hi1 Hi2]. apply Forall_cons_1 in Hi2 as [[(I1 & I2 & I3 & I4) I5] _].
  simpl in *. set (pp' := set_holes _ _ _ _ pp).
  assert (E' : hole_iovs pp' = zip (take k (holes pp)) (take k (hole_flags pp)) ++ [(iov', flags)]).
  { unfold hole_iovs, pp'. simpl. rewrite Hk. erewrite hole_iovs_snoc; [|apply list_lookup_insert_eq; lia|done].
    by rewrite take_insert_ge. }
  split; [split|].
  - unfold pp', zlen. simpl. rewrite length_insert. lia.
  - rewrite E'. apply Forall_app. split; [done|]. apply Forall_cons_2; [|apply Forall_nil_2]. simpl.
    unfold page_iov, iov_ok, iov', PAGE_SIZE in *. simpl. split_and!; first [lia | done | by rewrite Zplus_mod, I3].
  - rewrite (hole_pages_snoc _ _ _ _ E), (hole_pages_snoc _ _ _ _ E'), <- app_assoc. f_equal.
    unfold iov'. rewrite iov_pages_app, iov_pages_one, fmap_app by (done || lia). rewrite Heq. by destruct iov.
Qed.

(** The hole starts a new entry. *)
Lemma new_hole pp n flags addr : holes_ok pp -> page_addr addr ->
  let k := Z.to_nat (free_hole pp) in
  holes_grown pp (set_holes n (free_hole pp + 1) (take k (holes pp) ++ [iov_init addr])
    (take k (hole_flags pp) ++ [flags]) pp) addr flags.
Proof.
  intros [[Hc1 Hc2] Hi] Ha k. unfold zlen in *. set (pp' := set_holes _ _ _ _ pp).
  assert (E : hole_iovs pp' = hole_iovs pp ++ [(iov_init addr, flags)]).
  { unfold hole_iovs, pp'. cbn [free_hole holes hole_flags set_holes].
    replace (Z.to_nat (free_hole pp + 1)) with (S k) by (unfold k; lia).
    rewrite (take_ge (take k (holes pp) ++ [iov_init addr])), (take_ge (take k (hole_flags pp) ++ [flags]))
      by (rewrite length_app, length_take; simpl; unfold k; lia).
    rewrite zip_with_app; [done|]. rewrite !length_take. unfold k. lia. }
  split; [split|].
  - unfold pp', zlen. simpl. rewrite !length_app, !length_take. simpl. unfold k. lia.
  - rewrite E. apply Forall_app. split; [done|]. apply Forall_cons_2; [by apply page_iov_ok|apply Forall_nil_2].
  - rewrite (hole_pages_snoc _ _ _ _ E). unfold iov_init. by rewrite iov_pages_one.
Qed.

Lemma put_hole_ok pp addr flags : holes_ok pp -> page_addr addr ->
  holes_grown pp (put_hole pp addr flags) addr flags /\ contents (put_hole pp addr flags) = contents pp.
Proof.
  intros Hq Ha. unfold put_hole. destruct (if negb _ && _ then _ else None) as [iov'|] eqn:Eg.
  - split; [|done]. destruct (negb (free_hole pp =? 0) && bool_decide _) eqn:Ecd; [|done].
    apply andb_true_iff in Ecd as [En Ef]. apply negb_true_iff, Z.eqb_neq in En. apply bool_decide_eq_true_1 in Ef.
    destruct (holes pp !! Z.to_nat (free_hole pp - 1)) as [iov|] eqn:Eh; [|done].
    unfold iov_grow_page in Eg. destruct (Z.eqb_spec (u64 (iov_base iov + iov_len iov)) addr) as [Heq|]; [|done].
    assert (HI : page_iov iov).
    { destruct Hq as [[H1 H1'] H2]. apply (Forall_lookup_1 _ _ (Z.to_nat (free_hole pp - 1)) (iov, flags) H2).
      unfold hole_iovs. apply lookup_zip_Some. simpl. rewrite !lookup_take_lt by lia. done. }
    destruct HI as [(I1 & I2 & I3 & I4) I5]. destruct (Ha) as (A1 & A2 & A3).
    rewrite u64_small in Heq by lia. rewrite u64_small in Eg by (unfold PAGE_SIZE in *; lia). injection Eg as <-.
    by apply grow_hole.
  - split; [|done]. by apply new_hole.
Qed.

Lemma page_pipe_add_hole_spec al pp addr flags :
  holes_ok pp -> page_addr addr ->
  let '(ret, pp', al') := page_pipe_add_hole al pp addr flags in
  holes_ok pp' /\ contents pp' = contents pp /\
  (ret = 0 /\ hole_pages pp' = hole_pages pp ++ [(addr, flags)] \/
   ret = -1 /\ hole_pages pp' = hole_pages pp /\ nr_holes pp <= free_hole pp /\ In false al).
Proof.
  intros Hok Ha. unfold page_pipe_add_hole. rewrite Z.geb_leb.
  assert (Hput : forall q, hole_iovs q = hole_iovs pp -> holes_ok q -> contents q = contents pp ->
    holes_ok (put_hole q addr flags) /\ contents (put_hole q addr flags) = contents pp /\
    hole_pages (put_hole q addr flags) = hole_pages pp ++ [(addr, flags)]).
  { intros q Eq Hq Ec. destruct (put_hole_ok q addr flags Hq Ha) as [[G1 G2] G3].
    split; [done|]. split; [congruence|]. rewrite G2. unfold hole_pages. by rewrite Eq. }
  assert (Hx : forall l l', xalloc l = (false, l') -> In false l) by (intros [|[] l] l'; [done|done|by left]).
  destruct (Z.leb_spec (nr_holes pp) (free_hole pp)) as [Hle|].
  2:{ destruct (Hput pp) as (P1 & P2 & P3); [done..|]. by split_and!; auto. }
  destruct (xalloc al) as [[] al1] eqn:X1; simpl.
  2:{ split; [done|]. split; [done|]. right. split_and!; try done. by eapply Hx. }
  destruct (xalloc al1) as [[] al2] eqn:X2; simpl.
  - destruct (Hput (set_holes (nr_holes pp + PP_HOLES_BATCH) (free_hole pp) (holes pp) (hole_flags pp) pp))
      as (P1 & P2 & P3); [done|by destruct Hok|done|]. by split_and!; auto.
  - split; [done|]. split; [done|]. right. split_and!; try done.
    apply Hx in X2. destruct al as [|[] al]; simpl in X1; simplify_eq; [done|by right].
Qed.

(** Holes and buffers do not touch each other. *)
Definition holes_of (pp : page_pipe) : Z * Z * list iovec * list Z := (nr_holes pp, free_hole pp, holes pp, hole_flags pp).

Lemma add_hole_frame al pp addr flags ret pp' al' : page_pipe_add_hole al pp addr flags = (ret, pp', al') ->
  exists n f h fl, pp' = set_holes n f h fl pp.
Proof.
  assert (Hput : forall q, exists n f h fl, put_hole q addr flags = set_holes n f h fl q).
  { intros q. unfold put_hole. destruct (if negb _ && _ then _ else None); by eexists _, _, _, _. }
  assert (Hid : exists n f h fl, pp = set_holes n f h fl pp) by (exists (nr_holes pp), (free_hole pp), (holes pp), (hole_flags pp); by destruct pp).
  unfold page_pipe_add_hole. destruct (_ >=? _).
  - destruct (xalloc al) as [[] al1]; cbn [negb]; [|intros [= _ <- _]; exact Hid].
    destruct (xalloc al1) as [[] al2]; cbn [negb]; [|intros [= _ <- _]; exact Hid].
    intros [= _ <- _]. edestruct Hput as (n & f & h & fl & ->). by exists n, f, h, fl.
  - intros [= _ <- _]. apply Hput.
Qed.

Lemma pp_ok_holes n f h fl pp : pp_ok pp -> pp_ok (set_holes n f h fl pp).
Proof.
  intros [[O1 O2 O3 O4 O5] O6]. split; [split; try done|done].
  - eapply Forall_impl; [exact O2|]. intros id [B1 B2 B3 B4 B5 B6]. by split.
Qed.

Lemma pp_ok_break b pp : pp_ok pp -> pp_ok (set_break_iov b pp).
Proof.
  intros [[O1 O2 O3 O4 O5] O6]. split; [split; try done|done].
  - eapply Forall_impl; [exact O2|]. intros id [B1 B2 B3 B4 B5 B6]. by split.
Qed.

Lemma try_add_page_holes setpipe pp addr flags ret pp' : try_add_page setpipe pp addr flags = Ret (ret, pp') -> holes_of pp' = holes_of pp.
Proof.
  unfold try_add_page, try_add_page_to. destruct (last (bufs pp)) as [id|]; [|done]. destruct (negb _); [by intros [= _ <-]|].
  destruct (ppb_resize_pipe setpipe (buf pp id)) as [[r b]| |]; [|done|done]. cbn [obind]. destruct (r =? 1); [by intros [= _ <-]|].
  destruct (if negb _ && _ then _ else None); [by intros [= _ <-]|]. destruct (_ >? _); [done|]. by intros [= _ <-].
Qed.

Lemma page_pipe_grow_holes lazy_pages getpipe setpipe al pp flags ret pp' al' :
  page_pipe_grow lazy_pages getpipe setpipe al pp flags = Ret (ret, pp', al') -> holes_of pp' = holes_of pp.
Proof.
  assert (Hnew : forall al pp ok pp' al', ppb_new_pipe lazy_pages getpipe al pp flags = (ok, pp', al') -> holes_of pp' = holes_of pp).
  { intros al0 q ok q' al0'. unfold ppb_new_pipe. destruct (xalloc al0) as [[] ?]; cbn [negb]; [|by intros [= _ <- _]].
    destruct (getpipe <? 0); by intros [= _ <- _]. }
  unfold page_pipe_grow. destruct (free_bufs pp) as [|id free]; [|by intros [= _ <- _]]. destruct (_ && _); [by intros [= _ <- _]|].
  assert (Halloc : forall ok q al', ppb_alloc lazy_pages getpipe setpipe al pp flags = Ret (ok, q, al') -> holes_of q = holes_of pp).
  { intros ok q al0. unfold ppb_alloc. destruct (xalloc al) as [[] al1]; cbn [negb]; [|by intros [= _ <- _]].
    destruct (pp_prev_ppb lazy_pages pp flags) as [id|]; [|intros [= H]; by apply Hnew in H].
    destruct (ppb_resize_pipe setpipe (buf pp id)) as [[r b]| |]; [|done|done]. cbn [obind]. destruct (r =? 0); [by intros [= _ <- _]|].
    intros [= H]. by apply Hnew in H. }
  destruct (ppb_alloc lazy_pages getpipe setpipe al pp flags) as [[[ok q] al1]| |]; [|done|done]. cbn [obind]. specialize (Halloc _ _ _ eq_refl).
  destruct (negb ok); intros [= _ <- _]; exact Halloc.
Qed.

Lemma page_pipe_add_page_holes lazy_pages getpipe setpipe al pp addr flags ret pp' al' :
  page_pipe_add_page lazy_pages getpipe setpipe al pp addr flags = Ret (ret, pp', al') -> holes_of pp' = holes_of pp.
Proof.
  unfold page_pipe_add_page. destruct (try_add_page setpipe pp addr flags) as [[r1 pp1]| |] eqn:E1; [|done|done]. cbn [obind]. apply try_add_page_holes in E1.
  destruct (r1 <=? 0); [intros [= _ <- _]; exact E1|].
  destruct (page_pipe_grow lazy_pages getpipe setpipe al pp1 flags) as [[[r2 pp2] al2]| |] eqn:E2; [|done|done]. cbn [obind]. apply page_pipe_grow_holes in E2.
  destruct (r2 <? 0); [intros [= _ <- _]; congruence|].
  destruct (try_add_page setpipe pp2 addr flags) as [[r3 pp3]| |] eqn:E3; [|done|done]. cbn [obind]. apply try_add_page_holes in E3.
  destruct (r3 >? 0); [done|]. intros [= _ <- _]. congruence.
Qed.

Lemma holes_of_pages pp pp' : holes_of pp' = holes_of pp -> hole_pages pp' = hole_pages pp /\ (holes_ok pp -> holes_ok pp').
Proof.
  unfold holes_of. intros [= E1 E2 E3 E4]. assert (Eh : hole_iovs pp' = hole_iovs pp) by (unfold hole_iovs; congruence).
  split; [unfold hole_pages; by rewrite Eh|]. intros [H1 H2]. split; [by rewrite E2, E3, E4|by rewrite Eh].
Qed.

(** [page_pipe_add_hole] records the hole.  It returns 0 or, only when the
    array cannot grow, -1; on success the recorded holes are the earlier ones
    followed by the new page with its flags, whether it extended the last
    entry or started a new one; on failure they are unchanged. *)
Theorem page_pipe_add_hole_correct al pp addr flags :
  holes_ok pp -> page_addr addr ->
  let '(ret, pp', al') := page_pipe_add_hole al pp addr flags in
  holes_ok pp' /\ contents pp' = contents pp /\
  (ret = 0 /\ hole_pages pp' = hole_pages pp ++ [(addr, flags)] \/
   ret = -1 /\ hole_pages pp' = hole_pages pp /\ nr_holes pp <= free_hole pp /\ In false al).
Proof. apply page_pipe_add_hole_spec. Qed.

(** A lookup with other flags than the buffer's is logged as an error and
    answered with [return false]: result 0, the page count untouched, and
    nothing copied; the caller cannot tell it from success. *)
Theorem page_pipe_read_mismatch_reports_success tee splice pp addr nr flags id iov skip :
  find_ppb pp (bufs pp) addr = Some (id, iov, skip) -> Z.land (ppb_flags (buf pp id)) flags = 0 ->
  exists pp', page_pipe_read tee splice pp addr nr flags = (0, nr, None, pp').
Proof.
  intros Hf Hl. unfold page_pipe_read, get_ppb. rewrite Hf.
  change (buf (set_bufs _ _ pp) id) with (buf pp id). rewrite Hl. simpl. eauto.
Qed.

(** ** Examples *)

(** A kernel that gives 64 KiB pipes and grows them up to 1 MiB. *)
Definition sample_setpipe (n : Z) : Z := if (0 <=? n) && (n <=? 1048576) then n else -1.
Definition sample_pages : list (Z * Z) := [(0x1000, 0); (0x2000, 0); (0x5000, PPB_LAZY); (0x6000, 0)].
Definition sample_pp : page_pipe :=
  match create_page_pipe true 65536 sample_setpipe [] 4 None 0 with
  | Ret (Some pp, _) => pp
  | _ => PagePipe 0 [] [] [] [] 0 0 [] 0 0 [] [] 0 false
  end.
Definition sample_filled : page_pipe :=
  match add_pages true 65536 sample_setpipe [] sample_pp sample_pages with
  | Ret (_, pp) => pp
  | _ => sample_pp
  end.

Lemma sample_setpipe_ok n : sample_setpipe n < 0 \/ n <= sample_setpipe n < 2 ^ 31.
Proof.
  unfold sample_setpipe. destruct (Z.leb_spec 0 n); destruct (Z.leb_spec n 1048576); simpl; lia.
Qed.

Lemma sample_pages_ok : Forall (fun p => page_addr (fst p)) sample_pages.
Proof.
  repeat (apply Forall_cons_2; [simpl; split_and!; (lia || reflexivity)|]). apply Forall_nil_2.
Qed.

Lemma page_pipe_holds_pages_witness :
  exists pp', add_pages true 65536 sample_setpipe [] sample_pp sample_pages = Ret (0, pp') /\
    contents pp' = sample_pages.
Proof.
  destruct (page_pipe_holds_pages true 65536 sample_setpipe [] 4 None 0 sample_pp [] [] sample_pages)
    as (ret & pp' & k & H1 & H2 & H3).
  - right. unfold PAGE_SIZE. lia.
  - exact sample_setpipe_ok.
  - done.
  - reflexivity.
  - exact sample_pages_ok.
  - vm_compute. discriminate.
  - exists pp'. destruct H3 as [[-> ->]|Hneg]; [split; [exact H1|exact H2]|].
    vm_compute in H1. injection H1 as <- _. by vm_compute in Hneg.
Defined.

Lemma page_pipe_shares_pipes_witness :
  pipe_holds (pipe_pages_of sample_filled (bufs sample_filled)) sample_filled /\
  pipe_pages_of sample_filled (bufs sample_filled) 0 = [0x1000; 0x2000; 0x6000].
Proof.
  split; [|vm_compute; reflexivity].
  destruct (page_pipe_shares_pipes true 65536 sample_setpipe [] 4 None 0 sample_pp [] [] sample_pages 0 sample_filled)
    as [H _]; [right; unfold PAGE_SIZE; lia|exact sample_setpipe_ok|done|reflexivity|exact sample_pages_ok|
      vm_compute; discriminate|vm_compute; reflexivity|exact H].
Defined.

Lemma sample_filled_ok : pp_ok sample_filled /\ pipe_holds (pipe_pages_of sample_filled (bufs sample_filled)) sample_filled.
Proof.
  assert (Hget : 65536 < 0 \/ PAGE_SIZE <= 65536 < 2 ^ 31) by (right; unfold PAGE_SIZE; lia).
  assert (Hc : create_page_pipe true 65536 sample_setpipe [] 4 None 0 = Ret (Some sample_pp, [])) by reflexivity.
  pose proof (create_page_pipe_ok true 65536 sample_setpipe Hget sample_setpipe_ok [] 4 None 0 _ []
    ltac:(lia) ltac:(done) Hc) as (H1 & _ & H3 & H4).
  destruct (create_page_pipe_pipes true 65536 sample_setpipe sample_setpipe_ok [] 4 None 0 sample_pp []
    ltac:(lia) ltac:(done) Hc) as [H5 H6].
  destruct (add_pages_pipes true 65536 sample_setpipe Hget sample_setpipe_ok sample_pages [] sample_pp 0 sample_filled
    H1 sample_pages_ok) as [O P]; [rewrite H3, H4; done|exact H5|exact H6|vm_compute; reflexivity|].
  split; [done|]. apply pipes_ok_holds; [done|by destruct O as [[]]].
Qed.

(** The lazy page is alone in a pipe of its own; a request for three pages is
    cut to it. *)
Lemma page_pipe_read_correct_witness :
  exists pp', page_pipe_read (fun n => n) (fun n => n) sample_filled 0x5000 3 PPB_LAZY
      = (0, 1, Some (1, PAGE_SIZE, 0), pp') /\
    pipe_holds (pipe_pages_of sample_filled (bufs sample_filled)) pp'.
Proof.
  pose proof (page_pipe_read_correct (pipe_pages_of sample_filled (bufs sample_filled)) sample_filled 0x5000 3 PPB_LAZY)
    as H.
  destruct sample_filled_ok as [Hok Hh].
  specialize (H ltac:(by destruct Hok as [[N _ _ _ _] _]; apply NoDup_app in N as [? _])
    ltac:(by destruct Hok as [[]]) Hh eq_refl ltac:(lia)).
  destruct (page_pipe_read _ _ sample_filled 0x5000 3 PPB_LAZY) as [[[ret n] data] pp'] eqn:E.
  destruct H as (_ & _ & _ & H & _). exists pp'. split; [|exact H].
  vm_compute in E. injection E as <- <- <- <-. vm_compute. reflexivity.
Defined.

Lemma page_pipe_add_hole_correct_witness :
  let '(ret, pp', _) := page_pipe_add_hole [] sample_filled 0x3000 PP_HOLE_PARENT in
  ret = 0 /\ hole_pages pp' = [(0x3000, PP_HOLE_PARENT)].
Proof.
  pose proof (page_pipe_add_hole_correct [] sample_filled 0x3000 PP_HOLE_PARENT) as H.
  assert (Hh : holes_ok sample_filled).
  { split; [vm_compute; split_and!; discriminate|]. apply Forall_nil_2. }
  specialize (H Hh ltac:(split_and!; (lia || reflexivity))).
  destruct (page_pipe_add_hole [] sample_filled 0x3000 PP_HOLE_PARENT) as [[ret pp'] al'] eqn:E.
  destruct H as (_ & _ & [[-> H]|[_ (_ & _ & [])]]). split; [reflexivity|]. rewrite H. vm_compute. reflexivity.
Defined.
