(* ===== verification/PageXfer.v ===== *)
(** Writing a page pipe: criu/page-xfer.c, [page_xfer_dump_pages] over any
    transport, and the transport to local images down to the bytes of the pages
    image.

    The function pointers of [struct page_xfer] that a dump calls are the class
    [transport]; [loc_transport] is the instance for local images, file
    PageServer has the one for the network.  The local state is [page_xfer]: the two images (the pages image as its bytes, the
    pagemap image as the entries written to it), the pending entry of the
    compressed path and the parent's readers.  Its functions are selected by
    [compress], as in [open_page_local_xfer].  A pipe is the list of
    the bytes in it.  Every call that may fail takes its outcome from the
    environment [xenv]. *)
From S2P Require Import Prelude PagemapImage PageRead Dedup AsyncQueue ReadPages ChainRead ParentWalk PagePipe Compress.

Definition EFAULT : Z := 14.
Definition EINVAL : Z := 22.

(** Answers of read(), write() and splice() to come (a count is capped by what
    was asked for, a negative number is minus the errno; beyond the list the
    calls do all that was asked), and whether the allocations, [pb_write_one],
    fallocate() and fcntl() calls to come succeed. *)
Record xenv := XEnv {
  x_reads : list Z;
  x_writes : list Z;
  x_splices : list Z;
  x_allocs : list bool;
  x_pbs : list bool;
  x_fallocs : list bool;
  x_fcntls : list bool
}.

Definition io_answer (l : list Z) (n : Z) : Z * list Z :=
  match l with a :: l => (Z.min a n, l) | [] => (n, []) end.

Record pending_pe := PendingPe {
  pp_vaddr : Z;
  pp_nr_pages : Z;
  pp_eflags : Z;
  pp_layout : page_block_layout;
  pp_n_compressed : Z;
  payload_started : bool
}.

Record page_xfer := PageXfer {
  xf_offset : Z;
  transfer_lazy : bool;
  force_raw : bool;
  pi_use_direct : bool;
  pages_image_offset : Z;
  xf_pmi : list pagemap_entry;
  xf_pi : list Z;
  xf_parent : list dedup_reader;      (** [] is a NULL parent *)
  pending : pending_pe
}.

Definition set_pi (bytes : list Z) (x : page_xfer) : page_xfer :=
  PageXfer (xf_offset x) (transfer_lazy x) (force_raw x) (pi_use_direct x) (pages_image_offset x) (xf_pmi x) bytes
    (xf_parent x) (pending x).
Definition set_pio (o : Z) (x : page_xfer) : page_xfer :=
  PageXfer (xf_offset x) (transfer_lazy x) (force_raw x) (pi_use_direct x) o (xf_pmi x) (xf_pi x) (xf_parent x) (pending x).
Definition set_pmi (l : list pagemap_entry) (x : page_xfer) : page_xfer :=
  PageXfer (xf_offset x) (transfer_lazy x) (force_raw x) (pi_use_direct x) (pages_image_offset x) l (xf_pi x)
    (xf_parent x) (pending x).
Definition set_parent (p : list dedup_reader) (x : page_xfer) : page_xfer :=
  PageXfer (xf_offset x) (transfer_lazy x) (force_raw x) (pi_use_direct x) (pages_image_offset x) (xf_pmi x) (xf_pi x)
    p (pending x).
Definition set_pending (p : pending_pe) (x : page_xfer) : page_xfer :=
  PageXfer (xf_offset x) (transfer_lazy x) (force_raw x) (pi_use_direct x) (pages_image_offset x) (xf_pmi x) (xf_pi x)
    (xf_parent x) p.
Definition set_direct (b : bool) (x : page_xfer) : page_xfer :=
  PageXfer (xf_offset x) (transfer_lazy x) (force_raw x) b (pages_image_offset x) (xf_pmi x) (xf_pi x) (xf_parent x) (pending x).
Definition set_force_raw (b : bool) (x : page_xfer) : page_xfer :=
  PageXfer (xf_offset x) (transfer_lazy x) b (pi_use_direct x) (pages_image_offset x) (xf_pmi x) (xf_pi x) (xf_parent x) (pending x).

Definition with_flags (f : Z) (p : pending_pe) : pending_pe :=
  PendingPe (pp_vaddr p) (pp_nr_pages p) f (pp_layout p) (pp_n_compressed p) (payload_started p).
Definition with_started (b : bool) (p : pending_pe) : pending_pe :=
  PendingPe (pp_vaddr p) (pp_nr_pages p) (pp_eflags p) (pp_layout p) (pp_n_compressed p) b.
Definition with_block (sizes : list Z) (total n : Z) (p : pending_pe) : pending_pe :=
  PendingPe (pp_vaddr p) (pp_nr_pages p) (pp_eflags p)
    (PageBlockLayout sizes (bl_nr_blocks (pp_layout p)) total (bl_pages_per_block (pp_layout p))) n (payload_started p).

(** ** Plain I/O *)
Definition xe_reads (l : list Z) (e : xenv) : xenv :=
  XEnv l (x_writes e) (x_splices e) (x_allocs e) (x_pbs e) (x_fallocs e) (x_fcntls e).
Definition xe_writes (l : list Z) (e : xenv) : xenv :=
  XEnv (x_reads e) l (x_splices e) (x_allocs e) (x_pbs e) (x_fallocs e) (x_fcntls e).
Definition xe_splices (l : list Z) (e : xenv) : xenv :=
  XEnv (x_reads e) (x_writes e) l (x_allocs e) (x_pbs e) (x_fallocs e) (x_fcntls e).
Definition xe_fallocs (l : list bool) (e : xenv) : xenv :=
  XEnv (x_reads e) (x_writes e) (x_splices e) (x_allocs e) (x_pbs e) l (x_fcntls e).
Definition xe_alloc (e : xenv) : bool * xenv :=
  let '(ok, l) := xalloc (x_allocs e) in
  (ok, XEnv (x_reads e) (x_writes e) (x_splices e) l (x_pbs e) (x_fallocs e) (x_fcntls e)).
Definition xe_pb (e : xenv) : bool * xenv :=
  let '(ok, l) := xalloc (x_pbs e) in
  (ok, XEnv (x_reads e) (x_writes e) (x_splices e) (x_allocs e) l (x_fallocs e) (x_fcntls e)).
Definition xe_fcntl (e : xenv) : bool * xenv :=
  let '(ok, l) := xalloc (x_fcntls e) in
  (ok, XEnv (x_reads e) (x_writes e) (x_splices e) (x_allocs e) (x_pbs e) (x_fallocs e) l).

(** [buf]: what is left to write. *)
Fixpoint write_fd_loop (fuel : nat) (e : xenv) (file buf : list Z) : outcome (bool * list Z * xenv) :=
  match buf with
  | [] => Ret (true, file, e)
  | _ =>
      match fuel with
      | O => NoFuel
      | S fuel =>
          let '(ret, l) := io_answer (x_writes e) (zlen buf) in
          let e := xe_writes l e in
          if ret <? 0 then if ret =? - EINTR then write_fd_loop fuel e file buf else Ret (false, file, e)
          else if ret =? 0 then Ret (false, file, e)
          else write_fd_loop fuel e (file ++ take (Z.to_nat ret) buf) (drop (Z.to_nat ret) buf)
      end
  end.

Definition write_fd_full (e : xenv) (file buf : list Z) : outcome (bool * list Z * xenv) :=
  write_fd_loop (length (x_writes e) + length buf) e file buf.

(** [acc]: the bytes read so far; the answer holds what is left in the pipe. *)
Fixpoint read_pipe_loop (fuel : nat) (e : xenv) (pipe : list Z) (count : Z) (acc : list Z)
    : outcome (option (list Z) * list Z * xenv) :=
  if zlen acc <? count then
    match fuel with
    | O => NoFuel
    | S fuel =>
        let '(ret, l) := io_answer (x_reads e) (count - zlen acc) in
        let e := xe_reads l e in
        if ret <? 0 then if ret =? - EINTR then read_pipe_loop fuel e pipe count acc else Ret (None, pipe, e)
        else
          let got := take (Z.to_nat ret) pipe in
          if zlen got =? 0 then Ret (None, pipe, e)
          else read_pipe_loop fuel e (drop (Z.to_nat ret) pipe) count (acc ++ got)
    end
  else Ret (Some acc, pipe, e).

Definition read_pipe_full (e : xenv) (pipe : list Z) (count : Z) : outcome (option (list Z) * list Z * xenv) :=
  read_pipe_loop (S (length (x_reads e) + Z.to_nat count)) e pipe count [].

Definition account_pages_image_bytes (x : page_xfer) (size : Z) : bool * page_xfer :=
  if size >? UINT64_MAX - pages_image_offset x then (false, x)
  else (true, set_pio (u64 (pages_image_offset x + size)) x).

Definition write_pages_image_data (e : xenv) (x : page_xfer) (buf : list Z) : outcome (bool * page_xfer * xenv) :=
  let! (ok, file, e) := write_fd_full e (xf_pi x) buf in
  let x := set_pi file x in
  if negb ok then Ret (false, x, e)
  else let '(ok, x) := account_pages_image_bytes x (zlen buf) in Ret (ok, x, e).

Definition PAGE_PADDING_CHUNK : Z := 4096.

Fixpoint padding_loop (fuel : nat) (e : xenv) (x : page_xfer) (padding : Z) : outcome (bool * page_xfer * xenv) :=
  if padding =? 0 then Ret (true, x, e)
  else
    match fuel with
    | O => NoFuel
    | S fuel =>
        let chunk := Z.min padding PAGE_PADDING_CHUNK in
        let! (ok, x, e) := write_pages_image_data e x (zeros chunk) in
        if negb ok then Ret (false, x, e) else padding_loop fuel e x (padding - chunk)
    end.

(** [flags] is passed by reference. *)
Definition align_pages_image_payload (e : xenv) (x : page_xfer) (flags : Z) : outcome (bool * Z * page_xfer * xenv) :=
  let padding := (PAGE_SIZE - pages_image_offset x mod PAGE_SIZE) mod PAGE_SIZE in
  let! (ok, x, e) := padding_loop (Z.to_nat padding) e x padding in
  if negb ok then Ret (false, flags, x, e)
  else Ret (true, Z.lor flags PE_PAYLOAD_ALIGNED, x, e).

Definition write_compressed_payload (e : xenv) (x : page_xfer) (buf : list Z) (raw : bool)
    : outcome (bool * page_xfer * xenv) :=
  let! (ok, x, e) :=
    if negb (payload_started (pending x)) then
      let x := set_pending (with_started true (pending x)) x in
      if raw then
        let! (ok, flags, x, e) := align_pages_image_payload e x (pp_eflags (pending x)) in
        Ret (ok, set_pending (with_flags flags (pending x)) x, e)
      else Ret (true, x, e)
    else Ret (true, x, e) in
  if negb ok then Ret (false, x, e) else write_pages_image_data e x buf.

Definition block_is_all_zero (buf : list Z) (nr_pages : Z) : bool :=
  forallb (fun i => page_is_all_zero (page_of buf i)) (seqZ 0 nr_pages).

Definition cur_block_pages (nr_pages pages_done block_pages : Z) : Z :=
  let pages_left := u64 (nr_pages - pages_done) in
  if pages_left <? block_pages then u32 pages_left else block_pages.

Fixpoint all_raw_from (i : Z) (nr_pages block_pages : Z) (sizes : list Z) : bool :=
  match sizes with
  | [] => true
  | s :: sizes =>
      if negb (s =? cur_block_pages nr_pages (u64 (i * block_pages)) block_pages * PAGE_SIZE) then false
      else all_raw_from (i + 1) nr_pages block_pages sizes
  end.

(** [sizes] has [nr_blocks] elements. *)
Definition pending_entry_is_all_raw (p : pending_pe) : bool :=
  all_raw_from 0 (pp_nr_pages p) (bl_pages_per_block (pp_layout p))
    (take (Z.to_nat (bl_nr_blocks (pp_layout p))) (bl_sizes (pp_layout p))).

Definition result_x := outcome (bool * page_xfer * xenv).

(** ** The compressed path *)
Section Xfer.
Context (lz4c : list Z -> Z -> Z -> option (list Z)).
Context (auto_dedup : bool) (compress_block_size compress_acceleration : Z).

Definition acceleration : Z :=
  if negb (compress_acceleration =? 0) then compress_acceleration else LZ4_DEFAULT_ACCELERATION.

(** A new entry of the pagemap image. *)
Definition new_entry (vaddr nr flags : Z) (blocks : option pagemap_blocks) : pagemap_entry :=
  PagemapEntry vaddr 0 false false true flags true nr blocks.

Definition pb_write_pagemap (e : xenv) (x : page_xfer) (pe : pagemap_entry) : bool * page_xfer * xenv :=
  let '(ok, e) := xe_pb e in
  if negb ok then (false, x, e) else (true, set_pmi (xf_pmi x ++ [pe]) x, e).

Definition dedup_parent (e : xenv) (x : page_xfer) (off len : Z) : result_x :=
  match xf_parent x with
  | [] => Ret (true, x, e)
  | p :: _ =>
      if auto_dedup then
        let! (ret, parent, fa) := dedup_one_iovec (length (xf_parent x)) (xf_parent x) (x_fallocs e) off len in
        Ret (negb (ret =? -1), set_parent parent x, xe_fallocs fa e)
      else Ret (true, x, e)
  end.

(** The hole check moves the cursor of the first parent. *)
Definition check_hole (x : page_xfer) (iov : iovec) : outcome (bool * page_xfer) :=
  match xf_parent x with
  | [] => Ret (true, x)
  | p :: ps =>
      let! (ret, pr) := check_pagehole_in_parent (dr_pr p) iov in
      Ret (ret =? 0, set_parent (DedupReader pr (dr_punched p) :: ps) x)
  end.

Definition write_pagemap_loc_compressed (e : xenv) (x : page_xfer) (iov : iovec) (flags : Z) : result_x :=
  if negb (Z.land flags PE_PRESENT =? 0) then
    let! (ok, x, e) := dedup_parent e x (iov_base iov) (iov_len iov) in
    if negb ok then Ret (false, x, e)
    else
      let nr_pages := iov_len iov / PAGE_SIZE in
      let block_pages := if negb (compress_block_size =? 0) then compress_block_size / PAGE_SIZE else 1 in
      if (block_pages =? 0) || (block_pages >? MAX_BLOCK_PAGES) then Ret (false, x, e)
      else
        let total_blocks := block_nr_blocks nr_pages block_pages in
        let '(ok, e) := xe_alloc e in
        let sizes := if ok then replicate (Z.to_nat total_blocks) 0 else [] in
        let x := set_pending (PendingPe (iov_base iov) nr_pages flags
                   (PageBlockLayout sizes total_blocks (bl_total_bytes (pp_layout (pending x))) block_pages)
                   (pp_n_compressed (pending x)) (payload_started (pending x))) x in
        if negb ok then Ret (false, x, e)
        else Ret (true, set_pending (with_started false (with_block sizes 0 0 (pending x))) x, e)
  else
    let! (ok, x) :=
      if negb (Z.land flags PE_PARENT =? 0) then check_hole x iov else Ret (true, x) in
    if negb ok then Ret (false, x, e)
    else Ret (pb_write_pagemap e x (new_entry (iov_base iov) (iov_len iov / PAGE_SIZE) flags None)).

(** The encoded form of a block, [None] when [compress_block] fails. *)
Definition encode_block (raw_only : bool) (src : list Z) (n_pages cap : Z) : option (Z * list Z) :=
  if raw_only then
    if block_is_all_zero src n_pages then Some (0, []) else Some (n_pages * PAGE_SIZE, src)
  else compress_block lz4c src n_pages cap acceleration.

Fixpoint write_blocks (fuel : nat) (e : xenv) (x : page_xfer) (pipe : list Z) (len off pages_done : Z)
    : outcome (bool * page_xfer * list Z * xenv) :=
  if off <? len then
    match fuel with
    | O => NoFuel
    | S fuel =>
        let p := pending x in
        let block_pages := bl_pages_per_block (pp_layout p) in
        let this_block := cur_block_pages (pp_nr_pages p) pages_done block_pages in
        let block_bytes := this_block * PAGE_SIZE in
        if u64 (off + block_bytes) >? len then Ret (false, x, pipe, e)
        else
          let! (got, pipe, e) := read_pipe_full e pipe block_bytes in
          match got with
          | None => Ret (false, x, pipe, e)
          | Some src =>
              let idx := pp_n_compressed p in
              let enc := encode_block (force_raw x) src this_block (BLOCK_COMPRESSED_SIZE_BOUND block_pages) in
              match enc with
              | None => Ret (false, set_pending (with_block (bl_sizes (pp_layout p)) (bl_total_bytes (pp_layout p)) (idx + 1) p) x, pipe, e)
              | Some (cs, payload) =>
                  if negb ((0 <=? idx) && (idx <? zlen (bl_sizes (pp_layout p)))) then Bug
                  else
                    let x := set_pending (with_block (<[Z.to_nat idx := cs]> (bl_sizes (pp_layout p)))
                               (u64 (bl_total_bytes (pp_layout p) + cs)) (idx + 1) p) x in
                    let! (ok, x, e) :=
                      if cs >? 0 then write_compressed_payload e x payload (cs =? block_bytes) else Ret (true, x, e) in
                    if negb ok then Ret (false, x, pipe, e)
                    else write_blocks fuel e x pipe len (u64 (off + block_bytes)) (u64 (pages_done + this_block))
              end
          end
    end
  else Ret (true, x, pipe, e).

(** The pending entry goes out when all its blocks are written. *)
Definition flush_pending (e : xenv) (x : page_xfer) : bool * page_xfer * xenv :=
  let p := pending x in
  let b := pp_layout p in
  if pp_n_compressed p =? bl_nr_blocks b then
    let blocks :=
      if pending_entry_is_all_raw p then None
      else Some (PagemapBlocks (take (Z.to_nat (bl_nr_blocks b)) (bl_sizes b)) (bl_total_bytes b) (bl_pages_per_block b)) in
    let '(ok, x, e) := pb_write_pagemap e x (new_entry (pp_vaddr p) (pp_nr_pages p) (pp_eflags p) blocks) in
    if negb ok then (false, x, e)
    else (true, set_pending (with_started false (with_block [] (bl_total_bytes b) (pp_n_compressed p) p)) x, e)
  else (true, x, e).

Definition write_pages_loc_compressed (e : xenv) (x : page_xfer) (pipe : list Z) (len : Z)
    : outcome (bool * page_xfer * list Z * xenv) :=
  let p := pending x in
  if len / PAGE_SIZE >? pp_nr_pages p then Ret (false, x, pipe, e)
  else
    let '(ok_src, e) := xe_alloc e in
    let '(ok_dst, e) := if force_raw x then (true, e) else xe_alloc e in
    if negb (ok_src && ok_dst) then Ret (false, x, pipe, e)
    else
      let pages_done := u64 (pp_n_compressed p * bl_pages_per_block (pp_layout p)) in
      let! (ok, x, pipe, e) := write_blocks (S (Z.to_nat (len / PAGE_SIZE))) e x pipe len 0 pages_done in
      if negb ok then Ret (false, x, pipe, e)
      else let '(ok, x, e) := flush_pending e x in Ret (ok, x, pipe, e).

(** ** The uncompressed path *)
Fixpoint splice_loop (fuel : nat) (e : xenv) (x : page_xfer) (pipe : list Z) (len curr : Z)
    : outcome (bool * page_xfer * list Z * xenv) :=
  match fuel with
  | O => NoFuel
  | S fuel =>
      let '(ret, l) := io_answer (x_splices e) (len - curr) in
      let e := xe_splices l e in
      if ret <? 0 then
        if pi_use_direct x && ((ret =? - EFAULT) || (ret =? - EINVAL)) then
          let '(ok, e) := xe_fcntl e in                                   (* clear_o_direct *)
          if negb ok then Ret (false, x, pipe, e)
          else splice_loop fuel e (set_direct false x) pipe len curr
        else Ret (false, x, pipe, e)
      else
        let got := take (Z.to_nat ret) pipe in
        if zlen got =? 0 then Ret (false, x, pipe, e)
        else
          let x := set_pi (xf_pi x ++ got) x in
          let pipe := drop (Z.to_nat ret) pipe in
          if curr + zlen got =? len then Ret (true, x, pipe, e)
          else splice_loop fuel e x pipe len (curr + zlen got)
  end.

Definition write_pages_loc (e : xenv) (x : page_xfer) (pipe : list Z) (len : Z)
    : outcome (bool * page_xfer * list Z * xenv) :=
  let! (ok, x, pipe, e) := splice_loop (S (S (Z.to_nat len))) e x pipe len 0 in
  if negb ok then Ret (false, x, pipe, e)
  else let '(ok, x) := account_pages_image_bytes x len in Ret (ok, x, pipe, e).

Definition write_pagemap_loc (e : xenv) (x : page_xfer) (iov : iovec) (flags : Z) : result_x :=
  let pe := new_entry (iov_base iov) (iov_len iov / PAGE_SIZE) flags None in
  let! (ok, x, e) :=
    if negb (Z.land flags PE_PRESENT =? 0) then dedup_parent e x (pe_vaddr pe) (pagemap_len pe)
    else if negb (Z.land flags PE_PARENT =? 0) then let! (ok, x) := check_hole x iov in Ret (ok, x, e)
    else Ret (true, x, e) in
  if negb ok then Ret (false, x, e) else Ret (pb_write_pagemap e x pe).

(** The callbacks of a local [page_xfer]. *)
Context (compress : bool).

Definition write_pagemap (e : xenv) (x : page_xfer) (iov : iovec) (flags : Z) : result_x :=
  if compress then write_pagemap_loc_compressed e x iov flags else write_pagemap_loc e x iov flags.
Definition write_pages (e : xenv) (x : page_xfer) (pipe : list Z) (len : Z)
    : outcome (bool * page_xfer * list Z * xenv) :=
  if compress then write_pages_loc_compressed e x pipe len else write_pages_loc e x pipe len.
End Xfer.

(** ** Dumping a page pipe *)

(** What [page_xfer_dump_pages] uses of a [struct page_xfer]: three of its
    fields and the two callbacks, which the local images and the page server
    implement. *)
Class transport (X : Type) := Transport {
  tr_offset : X -> Z;
  tr_lazy : X -> bool;
  tr_force_raw : bool -> X -> X;
  tr_write_pagemap : xenv -> X -> iovec -> Z -> outcome (bool * X * xenv);
  tr_write_pages : xenv -> X -> list Z -> Z -> outcome (bool * X * list Z * xenv)
}.

#[export] Instance loc_transport (lz4c : list Z -> Z -> Z -> option (list Z)) (auto_dedup : bool)
    (compress_block_size compress_acceleration : Z) (compress : bool) : transport page_xfer :=
  Transport _ xf_offset transfer_lazy set_force_raw (write_pagemap auto_dedup compress_block_size compress)
    (write_pages lz4c compress_acceleration compress).

(** One segment: its iovec, the flags of its buffer and its pipe. *)
Definition segment := (iovec * Z * Z)%type.

(** [pipes]: what is left in each pipe. *)
Definition pipe_get (pipes : list (list Z)) (p : Z) : list Z := default [] (zlookup pipes p).
Definition pipe_put (pipes : list (list Z)) (p : Z) (rest : list Z) : list (list Z) := <[Z.to_nat p := rest]> pipes.

Definition get_hole_flags (flags : Z) : outcome Z := if flags =? PP_HOLE_PARENT then Ret PE_PARENT else Bug.

Section Dump.
Context {X : Type} (T : transport X).

Definition page_xfer_dump_hole (e : xenv) (x : X) (hole : iovec) (flags : Z) : outcome (bool * X * xenv) :=
  if iov_base hole <? tr_offset x then Bug
  else tr_write_pagemap e x (Iovec (iov_base hole - tr_offset x) (iov_len hole)) flags.

(** [holes] is what is left of the first [free_hole] holes with their flags,
    and the answer holds what is left of it. *)
Fixpoint dump_holes (e : xenv) (x : X) (holes : list (iovec * Z)) (limit : option Z)
    : outcome (bool * X * list (iovec * Z) * xenv) :=
  match holes with
  | [] => Ret (true, x, [], e)
  | (hole, fl) :: rest =>
      if match limit with Some v => negb (v =? 0) && (iov_base hole >=? v) | None => false end
      then Ret (true, x, holes, e)
      else
        let! hole_flags := get_hole_flags fl in
        let! (ok, x, e) := page_xfer_dump_hole e x hole hole_flags in
        if negb ok then Ret (false, x, holes, e) else dump_holes e x rest limit
  end.

Definition ppb_xfer_flags (x : X) (flags : Z) : Z :=
  if negb (Z.land flags PPB_LAZY =? 0) then Z.lor (if tr_lazy x then PE_PRESENT else 0) PE_LAZY else PE_PRESENT.

(** The entry of a segment and, if they go into the image, its pages. *)
Definition write_segment (e : xenv) (x : X) (pipe : list Z) (iov : iovec) (flags : Z)
    : outcome (bool * X * list Z * xenv) :=
  let! (ok, x, e) := tr_write_pagemap e x iov flags in
  if negb ok then Ret (false, x, pipe, e)
  else if negb (Z.land flags PE_PRESENT =? 0) then tr_write_pages e x pipe (iov_len iov)
  else Ret (true, x, pipe, e).

Fixpoint dump_segments (e : xenv) (x : X) (pipes : list (list Z)) (segs : list segment) (holes : list (iovec * Z))
    : outcome (bool * X * list (list Z) * list (iovec * Z) * xenv) :=
  match segs with
  | [] => Ret (true, x, pipes, holes, e)
  | (iov, bflags, p) :: segs =>
      let! (ok, x, holes, e) := dump_holes e x holes (Some (iov_base iov)) in
      if negb ok then Ret (false, x, pipes, holes, e)
      else if iov_base iov <? tr_offset x then Bug
      else
        let iov := Iovec (iov_base iov - tr_offset x) (iov_len iov) in
        let flags := ppb_xfer_flags x bflags in
        let x := tr_force_raw (negb (Z.land bflags PPB_FORCE_RAW =? 0)) x in
        let! (ok, x, rest, e) := write_segment e x (pipe_get pipes p) iov flags in
        let pipes := pipe_put pipes p rest in
        if negb ok then Ret (false, x, pipes, holes, e) else dump_segments e x pipes segs holes
  end.

(** The segments of a page pipe in the order of the two loops, and its holes. *)
Definition pp_segments (pp : page_pipe) : list segment :=
  concat ((fun id => (fun iov => (iov, ppb_flags (buf pp id), ppb_pipe (buf pp id))) <$> buf_iovs pp id) <$> bufs pp).
Definition pp_holes (pp : page_pipe) : list (iovec * Z) :=
  take (Z.to_nat (free_hole pp)) (zip (holes pp) (hole_flags pp)).

Definition page_xfer_dump_pages (e : xenv) (x : X) (pipes : list (list Z)) (pp : page_pipe)
    : outcome (bool * X * list (list Z) * xenv) :=
  let! (ok, x, pipes, holes, e) := dump_segments e x pipes (pp_segments pp) (pp_holes pp) in
  if negb ok then Ret (false, x, pipes, e)
  else
    let! (ok, x, _, e) := dump_holes e x holes None in
    Ret (ok, x, pipes, e).
End Dump.
#[global] Arguments Transport {X}.

(** Evaluates the fields of the local transport. *)
Ltac loc_fields := cbn [tr_offset tr_lazy tr_force_raw tr_write_pagemap tr_write_pages loc_transport] in *.

(** ** Plain I/O *)

(** Nothing fails from here on. *)
Definition xenv_ok (e : xenv) : Prop := e = XEnv [] [] [] [] [] [] [].

Lemma io_answer_range l n ret l' : io_answer l n = (ret, l') ->
  ret <= n /\ (l = [] -> ret = n /\ l' = []) /\ (l <> [] -> (length l' < length l)%nat) /\ (length l' <= length l)%nat.
Proof. unfold io_answer. destruct l; intros [= <- <-]; simpl; split_and!; (done || lia). Qed.

Lemma write_fd_loop_ok fuel : forall e file buf, (length (x_writes e) + length buf <= fuel)%nat ->
  exists ok file' e', write_fd_loop fuel e file buf = Ret (ok, file', e') /\
    (ok = true -> file' = file ++ buf) /\ (xenv_ok e -> ok = true /\ xenv_ok e').
Proof.
  induction fuel as [|fuel IH]; intros e file buf Hf.
  { destruct buf; [|simpl in Hf; lia]. simpl. eexists _, _, _. split; [done|]. by rewrite app_nil_r. }
  cbn [write_fd_loop]. destruct buf as [|c buf]; [eexists _, _, _; split; [done|]; by rewrite app_nil_r|].
  set (b := c :: buf) in *. destruct (io_answer (x_writes e) (zlen b)) as [ret l] eqn:Ea.
  destruct (io_answer_range _ _ _ _ Ea) as (H1 & H2 & H3 & H4).
  assert (Hb : 0 < zlen b) by (unfold b, zlen; simpl; lia). clearbody b.
  assert (Hprog : ret <= 0 -> (length l < length (x_writes e))%nat).
  { intros Hr. apply H3. intros E. destruct (H2 E). lia. }
  assert (Hne : ret <= 0 -> ~ xenv_ok e).
  { intros Hr ->. destruct (H2 eq_refl). lia. }
  destruct (Z.ltb_spec ret 0) as [Hn|Hp].
  - destruct (ret =? - EINTR).
    + destruct (IH (xe_writes l e) file b) as (ok & file' & e' & -> & A & B); [simpl; specialize (Hprog ltac:(lia)); lia|].
      eexists _, _, _. split; [done|]. split; [done|]. intros He. by destruct (Hne ltac:(lia)).
    + eexists _, _, _. split; [done|]. split; [done|]. intros He. by destruct (Hne ltac:(lia)).
  - destruct (Z.eqb_spec ret 0) as [->|Hz].
    { eexists _, _, _. split; [done|]. split; [done|]. intros He. by destruct (Hne ltac:(lia)). }
    destruct (IH (xe_writes l e) (file ++ take (Z.to_nat ret) b) (drop (Z.to_nat ret) b)) as (ok & file' & e' & -> & A & B).
    { cbn [x_writes xe_writes]. rewrite length_drop. unfold zlen in *. lia. }
    eexists _, _, _. split; [done|]. split.
    + intros Hok. rewrite A by done. by rewrite <- app_assoc, take_drop.
    + intros ->. apply B. destruct (H2 eq_refl) as [_ ->]. done.
Qed.

Lemma write_fd_full_ok e file buf :
  exists ok file' e', write_fd_full e file buf = Ret (ok, file', e') /\
    (ok = true -> file' = file ++ buf) /\ (xenv_ok e -> ok = true /\ xenv_ok e').
Proof. by apply write_fd_loop_ok. Qed.

Lemma read_pipe_loop_ok count fuel : forall e pipe acc, zlen acc <= count ->
  (length (x_reads e) + Z.to_nat (count - zlen acc) < fuel)%nat ->
  exists got pipe' e', read_pipe_loop fuel e pipe count acc = Ret (got, pipe', e') /\
    (forall src, got = Some src -> acc ++ pipe = src ++ pipe' /\ zlen src = count) /\
    (xenv_ok e -> count - zlen acc <= zlen pipe -> got <> None /\ xenv_ok e').
Proof.
  induction fuel as [|fuel IH]; intros e pipe acc Hl Hf; [lia|]. cbn [read_pipe_loop].
  destruct (Z.ltb_spec (zlen acc) count) as [Hlt|Hge].
  2:{ eexists _, _, _. split; [done|]. split; [|done]. intros ? [= <-]. split; [done|lia]. }
  destruct (io_answer (x_reads e) (count - zlen acc)) as [ret l] eqn:Ea.
  destruct (io_answer_range _ _ _ _ Ea) as (H1 & H2 & H3 & H4).
  assert (Hprog : ret <= 0 -> (length l < length (x_reads e))%nat).
  { intros Hr. apply H3. intros E. destruct (H2 E). lia. }
  assert (Hne : ret <= 0 -> ~ xenv_ok e).
  { intros Hr ->. destruct (H2 eq_refl). lia. }
  destruct (Z.ltb_spec ret 0) as [Hn|Hp].
  - destruct (ret =? - EINTR).
    + destruct (IH (xe_reads l e) pipe acc) as (got & pipe' & e' & -> & A & B); [done|simpl; specialize (Hprog ltac:(lia)); lia|].
      eexists _, _, _. split; [done|]. split; [done|]. intros He. by destruct (Hne ltac:(lia)).
    + eexists _, _, _. split; [done|]. split; [done|]. intros He. by destruct (Hne ltac:(lia)).
  - set (got := take (Z.to_nat ret) pipe). assert (Hg : zlen got <= ret) by (unfold got, zlen; rewrite length_take; lia).
    pose proof (zlen_nonneg got) as Hg0. destruct (Z.eqb_spec (zlen got) 0) as [Hz|Hz].
    { eexists _, _, _. split; [done|]. split; [done|]. intros -> Hc. destruct (H2 eq_refl) as [Hr _].
      unfold got, zlen in *. rewrite length_take in Hz. lia. }
    destruct (IH (xe_reads l e) (drop (Z.to_nat ret) pipe) (acc ++ got)) as (g & pipe' & e' & -> & A & B).
    { rewrite zlen_app. lia. }
    { cbn [x_reads xe_reads]. rewrite zlen_app. lia. }
    eexists _, _, _. split; [done|]. split.
    + intros src Hs. destruct (A src Hs) as [A1 A2]. split; [|done]. rewrite <- A1, <- app_assoc. f_equal.
      unfold got. by rewrite take_drop.
    + intros -> Hc. destruct (H2 eq_refl) as [-> ->]. apply B; [done|]. rewrite zlen_app. unfold got, zlen in *.
      rewrite length_drop, length_take. lia.
Qed.

Lemma read_pipe_full_ok e pipe count : 0 <= count ->
  exists got pipe' e', read_pipe_full e pipe count = Ret (got, pipe', e') /\
    (forall src, got = Some src -> pipe = src ++ pipe' /\ zlen src = count) /\
    (xenv_ok e -> count <= zlen pipe -> got <> None /\ xenv_ok e').
Proof.
  intros Hc. destruct (read_pipe_loop_ok count (S (length (x_reads e) + Z.to_nat count)) e pipe [])
    as (got & pipe' & e' & H1 & H2 & H3); [done|unfold zlen; simpl; lia|].
  exists got, pipe', e'. split; [done|]. split; [done|]. intros He Hp. apply H3; [done|]. unfold zlen at 1. simpl. lia.
Qed.

(** ** Growing the pages image *)
Definition grow (bytes : list Z) (x : page_xfer) : page_xfer :=
  set_pio (zlen (xf_pi x ++ bytes)) (set_pi (xf_pi x ++ bytes) x).

Definition counted (x : page_xfer) : Prop := pages_image_offset x = zlen (xf_pi x).

Lemma grow_grow a b x : grow b (grow a x) = grow (a ++ b) x.
Proof. unfold grow. simpl. by rewrite app_assoc. Qed.
Lemma grow_nil x : counted x -> grow [] x = x.
Proof. unfold grow, counted. rewrite app_nil_r. intros <-. by destruct x. Qed.
Lemma grow_pending a p x : set_pending p (grow a x) = grow a (set_pending p x).
Proof. done. Qed.
Lemma grow_counted a x : counted (grow a x).
Proof. done. Qed.

Lemma account_grow x y n : counted x -> 0 <= n -> pages_image_offset y = pages_image_offset x ->
  exists ok y', account_pages_image_bytes y n = (ok, y') /\ (ok = true -> y' = set_pio (zlen (xf_pi x) + n) y) /\
    (zlen (xf_pi x) + n < 2 ^ 64 -> ok = true).
Proof.
  intros Hc Hn Hy. unfold account_pages_image_bytes, UINT64_MAX. rewrite Hy, Hc, Z.gtb_ltb. pose proof (zlen_nonneg (xf_pi x)).
  destruct (Z.ltb_spec (2 ^ 64 - 1 - zlen (xf_pi x)) n); [eexists _, _; split; [done|]; split; [done|]; lia|].
  eexists _, _. split; [done|]. split; [|done]. intros _. by rewrite u64_small by lia.
Qed.

(** Appending to the pages image; the accounting is the only bound on its size. *)
Lemma write_pages_image_data_gen e x buf : counted x ->
  exists ok x' e', write_pages_image_data e x buf = Ret (ok, x', e') /\
    (ok = true -> x' = grow buf x) /\ (xenv_ok e -> zlen (xf_pi x) + zlen buf < 2 ^ 64 -> ok = true /\ xenv_ok e').
Proof.
  intros Hc. unfold write_pages_image_data.
  destruct (write_fd_full_ok e (xf_pi x) buf) as (ok & file & e' & -> & H1 & H2). simpl.
  destruct ok; simpl; [|eexists _, _, _; split; [done|]; split; [done|]; intros He; by destruct (H2 He)].
  rewrite (H1 eq_refl).
  destruct (account_grow x (set_pi (xf_pi x ++ buf) x) (zlen buf) Hc (zlen_nonneg buf) eq_refl) as (ok & y & -> & A1 & A2).
  eexists _, _, _. split; [done|]. split; [|intros He Hb; split; [by apply A2|by apply H2]].
  intros Hok. rewrite (A1 Hok). unfold grow. by rewrite zlen_app.
Qed.

Lemma write_pages_image_data_ok e x buf : counted x -> zlen (xf_pi x) + zlen buf < 2 ^ 64 ->
  exists ok x' e', write_pages_image_data e x buf = Ret (ok, x', e') /\
    (ok = true -> x' = grow buf x) /\ (xenv_ok e -> ok = true /\ xenv_ok e').
Proof. intros Hc Hm. destruct (write_pages_image_data_gen e x buf Hc) as (ok & x' & e' & ? & ? & H). exists ok, x', e'. auto. Qed.

Lemma zlen_zeros n : 0 <= n -> zlen (zeros n) = n.
Proof. intros Hn. unfold zlen, zeros. rewrite length_replicate. lia. Qed.

Lemma zeros_app n m : 0 <= n -> 0 <= m -> zeros n ++ zeros m = zeros (n + m).
Proof. intros Hn Hm. unfold zeros. rewrite <- replicate_add. f_equal. lia. Qed.

Lemma padding_loop_gen fuel : forall e x padding, counted x -> 0 <= padding -> padding <= Z.of_nat fuel ->
  exists ok x' e', padding_loop fuel e x padding = Ret (ok, x', e') /\
    (ok = true -> x' = grow (zeros padding) x) /\
    (xenv_ok e -> zlen (xf_pi x) + padding < 2 ^ 64 -> ok = true /\ xenv_ok e').
Proof.
  induction fuel as [|fuel IH]; intros e x padding Hc Hp Hf; cbn [padding_loop].
  { replace padding with 0 by lia. simpl. eexists _, _, _. split; [done|]. split; [|done]. by rewrite grow_nil. }
  destruct (Z.eqb_spec padding 0) as [->|Hz]; [eexists _, _, _; split; [done|]; split; [|done]; by rewrite grow_nil|].
  set (chunk := Z.min padding PAGE_PADDING_CHUNK).
  assert (Hch : 0 < chunk <= padding) by (unfold chunk, PAGE_PADDING_CHUNK; lia). clearbody chunk.
  destruct (write_pages_image_data_gen e x (zeros chunk) Hc) as (ok & x1 & e1 & -> & H1 & H2). simpl.
  rewrite zlen_zeros in H2 by lia.
  destruct ok; simpl; [|eexists _, _, _; split; [done|]; split; [done|]; intros He Hm; destruct (H2 He); [lia|done]].
  rewrite (H1 eq_refl).
  destruct (IH e1 (grow (zeros chunk) x) (padding - chunk)) as (ok & x2 & e2 & -> & H3 & H4); [apply grow_counted|lia|lia|].
  eexists _, _, _. split; [done|]. split.
  - intros Hok. rewrite H3 by done. rewrite grow_grow, zeros_app by lia. do 2 f_equal. lia.
  - intros He Hm. apply H4; [apply H2; [done|lia]|]. simpl. rewrite zlen_app, zlen_zeros; lia.
Qed.

(** The page boundary the padding reaches. *)
Lemma padding_round off : 0 <= off ->
  let padding := (PAGE_SIZE - off mod PAGE_SIZE) mod PAGE_SIZE in
  0 <= padding < PAGE_SIZE /\ off + padding = round_up_page off.
Proof.
  intros Ho. unfold round_up_page, PAGE_SIZE. cbv zeta. pose proof (Z.mod_pos_bound off 4096 ltac:(lia)) as Hr.
  pose proof (Z.div_mod off 4096 ltac:(lia)) as Hd.
  destruct (Z.eq_dec (off mod 4096) 0) as [Hz|Hz].
  - rewrite Hz. rewrite Z.sub_0_r, Z_mod_same_full. split; [lia|].
    rewrite <- (Z.div_unique_pos (off + (4096 - 1)) 4096 (off / 4096) 4095); lia.
  - rewrite (Z.mod_small (4096 - off mod 4096)) by lia. split; [lia|].
    rewrite <- (Z.div_unique_pos (off + (4096 - 1)) 4096 (off / 4096 + 1) (off mod 4096 - 1)); lia.
Qed.

Lemma align_gen e x flags : counted x ->
  exists ok fl x' e' pad, align_pages_image_payload e x flags = Ret (ok, fl, x', e') /\
    zlen (xf_pi x ++ pad) = round_up_page (zlen (xf_pi x)) /\ zlen pad < PAGE_SIZE /\
    (ok = true -> fl = Z.lor flags PE_PAYLOAD_ALIGNED /\ x' = grow pad x) /\
    (xenv_ok e -> zlen (xf_pi x) + PAGE_SIZE < 2 ^ 64 -> ok = true /\ xenv_ok e').
Proof.
  intros Hc. unfold align_pages_image_payload. rewrite Hc. pose proof (zlen_nonneg (xf_pi x)) as H0.
  destruct (padding_round (zlen (xf_pi x)) H0) as [Hp Hr]. cbv zeta in Hp, Hr.
  set (padding := (PAGE_SIZE - zlen (xf_pi x) mod PAGE_SIZE) mod PAGE_SIZE) in *. clearbody padding.
  destruct (padding_loop_gen (Z.to_nat padding) e x padding Hc) as (ok & x1 & e1 & -> & H1 & H2); [lia|lia|]. simpl.
  destruct ok; simpl; eexists _, _, _, _, (zeros padding); (split; [done|]); (split; [by rewrite zlen_app, zlen_zeros by lia|]);
    (split; [rewrite zlen_zeros; lia|]).
  - split; [intros _; split; [done|]; by apply H1|]. intros He Hm. apply H2; [done|lia].
  - split; [done|]. intros He Hm. destruct (H2 He); [lia|done].
Qed.

Lemma align_ok e x flags : counted x -> zlen (xf_pi x) + PAGE_SIZE < 2 ^ 64 ->
  exists ok fl x' e' pad, align_pages_image_payload e x flags = Ret (ok, fl, x', e') /\
    zlen (xf_pi x ++ pad) = round_up_page (zlen (xf_pi x)) /\ zlen pad < PAGE_SIZE /\
    (ok = true -> fl = Z.lor flags PE_PAYLOAD_ALIGNED /\ x' = grow pad x) /\ (xenv_ok e -> ok = true /\ xenv_ok e').
Proof.
  intros Hc Hm. destruct (align_gen e x flags Hc) as (ok & fl & x' & e' & pad & ? & ? & ? & ? & H). exists ok, fl, x', e', pad. split_and!; auto.
Qed.

(** ** Writing the blocks of an entry *)
Section Blocks.
Context (lz4c : list Z -> Z -> Z -> option (list Z)) (lz4 : list Z -> Z -> option (list Z)) (Hlz : lz4_contract lz4c lz4).
Context (acc : Z).
(** The entry: its data, and the state in front of it. *)
Context (x0 : page_xfer) (vaddr nr ppb flags : Z) (data : list Z).
Context (Hppb : 1 <= ppb <= MAX_BLOCK_PAGES) (Hnr : 0 < nr) (Hdata : zlen data = nr * PAGE_SIZE).
Context (H64 : zlen (xf_pi x0) + nr * PAGE_SIZE + PAGE_SIZE < 2 ^ 64).
Abbreviation nb := (block_nr_blocks nr ppb).
Abbreviation bpages := (block_pages_at nr ppb).

(** The pages of block [j]. *)
Definition block_data (j : Z) : list Z :=
  take (Z.to_nat (bpages j * PAGE_SIZE)) (drop (Z.to_nat (j * ppb * PAGE_SIZE)) data).

(** Pages in the first [j] blocks. *)
Definition pages_in_blocks (j : Z) : Z := Z.min (j * ppb) nr.

(** The blocks [dn] have been written: sizes and payloads. *)
Record blocks_inv (dn : list (Z * list Z)) (pad : list Z) (flags' : Z) (started : bool) (x : page_xfer) : Prop := BlocksInv {
  bi_state : x = set_pending
    (PendingPe vaddr nr flags'
       (PageBlockLayout ((fst <$> dn) ++ replicate (Z.to_nat nb - length dn) 0) nb (zsum (fst <$> dn)) ppb)
       (zlen dn) started)
    (grow (pad ++ concat (snd <$> dn)) x0);
  bi_blocks : forall j cs payload, dn !! j = Some (cs, payload) ->
    stored_block lz4 (bpages (Z.of_nat j)) (block_data (Z.of_nat j)) cs payload;
  bi_size : zlen (concat (snd <$> dn)) = zsum (fst <$> dn) /\ zsum (fst <$> dn) <= pages_in_blocks (zlen dn) * PAGE_SIZE;
  bi_idle : started = false -> concat (snd <$> dn) = [] /\ pad = [] /\ flags' = flags;
  bi_pad : flags' = flags /\ pad = [] \/
    flags' = Z.lor flags PE_PAYLOAD_ALIGNED /\ zlen (xf_pi x0 ++ pad) = round_up_page (zlen (xf_pi x0)) /\ zlen pad < PAGE_SIZE
}.

Lemma nb_bounds : (nb - 1) * ppb < nr <= nb * ppb /\ 0 < nb.
Proof.
  assert (H : nr < 2 ^ 63) by (pose proof (zlen_nonneg (xf_pi x0)); unfold PAGE_SIZE in *; lia).
  rewrite MAX_BLOCK_PAGES_eq in Hppb.
  pose proof (proj1 (block_nr_blocks_spec nr ppb nb ltac:(lia) ltac:(lia)) eq_refl). nia.
Qed.

Lemma block_fits j : 0 <= j < nb -> 1 <= bpages j <= ppb /\ pages_in_blocks j = j * ppb /\
  pages_in_blocks (j + 1) = j * ppb + bpages j /\ j * ppb + bpages j <= nr.
Proof. intros Hj. pose proof nb_bounds. unfold pages_in_blocks, block_pages_at. nia. Qed.

Lemma cur_block_pages_ok j : 0 <= j < nb -> cur_block_pages nr (j * ppb) ppb = bpages j.
Proof.
  intros Hj. destruct (block_fits j Hj) as (H1 & H2 & H3 & H4). unfold cur_block_pages, block_pages_at in *.
  pose proof (zlen_nonneg (xf_pi x0)). rewrite MAX_BLOCK_PAGES_eq in Hppb. unfold PAGE_SIZE in *.
  rewrite u64_small by nia. destruct (Z.ltb_spec (nr - j * ppb) ppb); [rewrite u32_small by lia|]; lia.
Qed.

Lemma sizes_insert (l : list Z) n cs : (length l < n)%nat ->
  <[length l := cs]> (l ++ replicate (n - length l) 0) = (l ++ [cs]) ++ replicate (n - length (l ++ [cs])) 0.
Proof.
  intros Hl. rewrite length_app. simpl. replace (n - length l)%nat with (S (n - (length l + 1)))%nat by lia.
  cbn [replicate]. rewrite insert_app_r_alt by lia. rewrite Nat.sub_diag. simpl. by rewrite <- app_assoc.
Qed.

Lemma blocks_inv_bound dn pad fl st x : blocks_inv dn pad fl st x ->
  zlen (xf_pi x) + PAGE_SIZE * bpages (zlen dn) <= zlen (xf_pi x0) + zlen pad + (pages_in_blocks (zlen dn) + bpages (zlen dn)) * PAGE_SIZE.
Proof.
  intros [-> _ [B1 B2] _ _]. cbn [xf_pi set_pending grow set_pio set_pi]. rewrite !zlen_app, B1. lia.
Qed.

(** The state once the block is accounted for. *)
Definition accounted (cs : Z) (x : page_xfer) : page_xfer :=
  let p := pending x in
  set_pending (with_block (<[Z.to_nat (pp_n_compressed p) := cs]> (bl_sizes (pp_layout p)))
    (u64 (bl_total_bytes (pp_layout p) + cs)) (pp_n_compressed p + 1) p) x.

Lemma accounted_state dn pad fl st x cs payload : blocks_inv dn pad fl st x -> zlen dn < nb -> 0 <= cs <= bpages (zlen dn) * PAGE_SIZE ->
  accounted cs x = set_pending
    (PendingPe vaddr nr fl
       (PageBlockLayout ((fst <$> (dn ++ [(cs, payload)])) ++ replicate (Z.to_nat nb - length (dn ++ [(cs, payload)])) 0) nb
          (zsum (fst <$> (dn ++ [(cs, payload)]))) ppb)
       (zlen (dn ++ [(cs, payload)])) st)
    (grow (pad ++ concat (snd <$> dn)) x0).
Proof.
  intros [-> _ [B1 B2] _ _] Hj Hcs. unfold accounted, with_block. cbn [pending set_pending pp_layout bl_sizes bl_total_bytes
    pp_n_compressed pp_vaddr pp_nr_pages pp_eflags bl_nr_blocks bl_pages_per_block payload_started].
  pose proof (zlen_nonneg dn) as H0. destruct (block_fits (zlen dn) ltac:(lia)) as (F1 & F2 & F3 & F4).
  pose proof (zlen_nonneg (concat (snd <$> dn))) as Hz. pose proof (zlen_nonneg (xf_pi x0)).
  rewrite u64_small by (unfold PAGE_SIZE in *; nia).
  replace (Z.to_nat (zlen dn)) with (length (fst <$> dn)) by (rewrite length_fmap; unfold zlen; lia).
  replace (length dn) with (length (fst <$> dn)) by apply length_fmap.
  rewrite sizes_insert by (rewrite length_fmap; unfold zlen in *; lia).
  rewrite !fmap_app, zsum_app, !length_app, !length_fmap, zlen_app. change (fst <$> [(cs, payload)]) with [cs].
  rewrite zsum_cons. simpl (zsum []). rewrite Z.add_0_r. done.
Qed.

(** The invariant after one more block, whatever the padding became. *)
Lemma blocks_inv_next dn cs payload pad fl st x pad0 fl0 st0 x00 :
  blocks_inv dn pad0 fl0 st0 x00 -> zlen dn < nb ->
  stored_block lz4 (bpages (zlen dn)) (block_data (zlen dn)) cs payload ->
  x = set_pending
    (PendingPe vaddr nr fl
       (PageBlockLayout ((fst <$> (dn ++ [(cs, payload)])) ++ replicate (Z.to_nat nb - length (dn ++ [(cs, payload)])) 0) nb
          (zsum (fst <$> (dn ++ [(cs, payload)]))) ppb)
       (zlen (dn ++ [(cs, payload)])) st)
    (grow (pad ++ concat (snd <$> (dn ++ [(cs, payload)]))) x0) ->
  (st = false -> concat (snd <$> (dn ++ [(cs, payload)])) = [] /\ pad = [] /\ fl = flags) ->
  (fl = flags /\ pad = [] \/
   fl = Z.lor flags PE_PAYLOAD_ALIGNED /\ zlen (xf_pi x0 ++ pad) = round_up_page (zlen (xf_pi x0)) /\ zlen pad < PAGE_SIZE) ->
  blocks_inv (dn ++ [(cs, payload)]) pad fl st x.
Proof.
  intros [_ B2 [B3 B4] _ _] Hj Hs Hx Hi Hp. split; [done| | |done|done].
  - intros j c pl Hl. apply lookup_app_Some in Hl as [Hl|[Hge Hl]]; [by apply B2|].
    apply list_lookup_singleton_Some in Hl as [Hz [= <- <-]]. replace (Z.of_nat j) with (zlen dn) by (unfold zlen; lia). done.
  - rewrite !fmap_app, concat_app, !zlen_app, zsum_app, B3. change (fst <$> [(cs, payload)]) with [cs].
    change (concat (snd <$> [(cs, payload)])) with (payload ++ []). rewrite app_nil_r, zsum_cons. simpl (zsum []).
    change (zlen [(cs, payload)]) with 1. destruct Hs as (_ & -> & Hc). split; [lia|].
    pose proof (zlen_nonneg dn). destruct (block_fits (zlen dn) ltac:(lia)) as (F1 & F2 & F3 & F4). rewrite F3.
    rewrite F2 in B4. unfold PAGE_SIZE in *. lia.
Qed.

Lemma block_step e x dn pad fl st cs payload : blocks_inv dn pad fl st x -> zlen dn < nb ->
  stored_block lz4 (bpages (zlen dn)) (block_data (zlen dn)) cs payload ->
  exists ok x2 e',
    (if cs >? 0 then write_compressed_payload e (accounted cs x) payload (cs =? bpages (zlen dn) * PAGE_SIZE)
     else Ret (true, accounted cs x, e)) = Ret (ok, x2, e') /\
    (ok = true -> exists pad' fl' st', blocks_inv (dn ++ [(cs, payload)]) pad' fl' st' x2) /\
    (xenv_ok e -> ok = true /\ xenv_ok e').
Proof.
  intros Hinv Hj Hs. pose proof Hs as (Hd & Hpl & Hc). pose proof Hinv as [B1 B2 [B3 B4] B5 B6].
  pose proof (zlen_nonneg dn) as H0. destruct (block_fits (zlen dn) ltac:(lia)) as (F1 & F2 & F3 & F4).
  assert (Hcs : 0 <= cs <= bpages (zlen dn) * PAGE_SIZE) by (pose proof (zlen_nonneg payload); unfold PAGE_SIZE in *; lia).
  rewrite (accounted_state dn pad fl st x cs payload Hinv Hj Hcs).
  set (P1 := PageBlockLayout _ _ _ _). set (n1 := zlen (dn ++ _)).
  assert (Hcat : concat (snd <$> (dn ++ [(cs, payload)])) = concat (snd <$> dn) ++ payload).
  { rewrite fmap_app, concat_app. f_equal. change (concat (snd <$> [(cs, payload)])) with (payload ++ []). apply app_nil_r. }
  assert (Hbnd : zlen (concat (snd <$> dn)) + zlen payload <= nr * PAGE_SIZE) by (unfold PAGE_SIZE in *; lia).
  rewrite Z.gtb_ltb. destruct (Z.ltb_spec 0 cs) as [Hpos|Hnp].
  2:{ eexists _, _, _. split; [done|]. split; [|done]. intros _. exists pad, fl, st.
      assert (payload = []) as -> by (destruct payload; [done|unfold zlen in Hpl; simpl in Hpl; lia]).
      eapply blocks_inv_next; try done; rewrite Hcat, app_nil_r; done. }
  unfold write_compressed_payload. cbn [pending set_pending payload_started].
  destruct st; simpl negb; cbn [negb].
  - simpl obind. destruct (write_pages_image_data_ok e (set_pending (PendingPe vaddr nr fl P1 n1 true) (grow (pad ++ concat (snd <$> dn)) x0)) payload)
      as (ok & x2 & e' & -> & H1 & H2); [done|cbn; rewrite !zlen_app; unfold PAGE_SIZE in *; destruct B6 as [(_ & ->)|(_ & _ & ?)]; unfold zlen in *; simpl; lia|].
    exists ok, x2, e'. split; [done|]. split; [|done]. intros Hok. exists pad, fl, true.
    eapply blocks_inv_next; try done. rewrite (H1 Hok), Hcat, grow_pending, grow_grow, <- app_assoc. done.
  - destruct (B5 eq_refl) as (E1 & E2 & E3). rewrite E1, E2. cbn [app].
    destruct (cs =? bpages (zlen dn) * PAGE_SIZE).
    + destruct (align_ok e (set_pending (with_started true (PendingPe vaddr nr fl P1 n1 false))
        (set_pending (PendingPe vaddr nr fl P1 n1 false) (grow [] x0))) fl) as (ok & fl1 & x1 & e1 & pd & Hal & A1 & A2 & A3 & A4);
        [done|cbn; rewrite app_nil_r; unfold PAGE_SIZE in *; lia|].
      cbn [pp_eflags with_started] in Hal |- *. rewrite Hal.
      cbn [xf_pi set_pending grow set_pio set_pi] in A1. rewrite app_nil_r in A1. simpl obind.
      destruct ok; simpl; [|eexists _, _, _; split; [done|]; split; [done|]; intros He; by destruct (A4 He)].
      destruct (A3 eq_refl) as [-> ->].
      destruct (write_pages_image_data_ok e1 (set_pending (with_flags (Z.lor fl PE_PAYLOAD_ALIGNED) (PendingPe vaddr nr fl P1 n1 true))
        (grow pd (grow [] x0))) payload) as (ok & x2 & e' & Hw & H1 & H2);
        [done|cbn; rewrite app_nil_r, zlen_app; unfold PAGE_SIZE in *; lia|].
      exists ok, x2, e'. split; [exact Hw|]. split; [|by intros He; apply H2, A4]. intros Hok.
      exists pd, (Z.lor flags PE_PAYLOAD_ALIGNED), true.
      eapply blocks_inv_next; try done; [|right; split_and!; done].
      rewrite (H1 Hok), Hcat, E1, E3. cbn [app]. rewrite <- grow_pending, !grow_grow. done.
    + simpl obind. destruct (write_pages_image_data_ok e (set_pending (with_started true (PendingPe vaddr nr fl P1 n1 false))
        (set_pending (PendingPe vaddr nr fl P1 n1 false) (grow [] x0))) payload)
        as (ok & x2 & e' & Hw & H1 & H2); [done|cbn; rewrite app_nil_r; rewrite E1 in Hbnd; unfold zlen, PAGE_SIZE in *; simpl in Hbnd; lia|].
      exists ok, x2, e'. split; [exact Hw|]. split; [|done]. intros Hok. exists [], flags, true.
      eapply blocks_inv_next; try done; [|by left].
      rewrite (H1 Hok), Hcat, E1, E3. cbn [app]. rewrite <- !grow_pending, grow_grow. done.
Qed.

Lemma encode_block_ok raw_only src n : 1 <= n <= ppb -> zlen src = n * PAGE_SIZE ->
  exists cs payload, encode_block lz4c acc raw_only src n (BLOCK_COMPRESSED_SIZE_BOUND ppb) = Some (cs, payload) /\
    stored_block lz4 n src cs payload.
Proof.
  intros Hn Hl. unfold encode_block. destruct raw_only.
  - unfold block_is_all_zero. rewrite block_all_zero by (done || lia). destruct (all_zero src) eqn:Ez.
    + eexists _, _. split; [done|]. split; [done|]. split; [done|]. left. split; [done|]. apply zero_block; (done || lia).
    + eexists _, _. split; [done|]. split; [done|]. split; [done|]. right. by left.
  - apply compress_block_stores; [done|lia|done|]. unfold BLOCK_COMPRESSED_SIZE_BOUND.
    assert (0 <= ppb * PAGE_SIZE / 255) by (apply Z.div_pos; unfold PAGE_SIZE; lia). unfold PAGE_SIZE in *. lia.
Qed.

(** The data from page [q] on starts with block [j]. *)
Lemma data_split j rest pipe : 0 <= j < nb -> pipe = drop (Z.to_nat (pages_in_blocks j * PAGE_SIZE)) data ++ rest ->
  pipe = block_data j ++ drop (Z.to_nat (pages_in_blocks (j + 1) * PAGE_SIZE)) data ++ rest /\
  zlen (block_data j) = bpages j * PAGE_SIZE.
Proof.
  intros Hj ->. destruct (block_fits j Hj) as (F1 & F2 & F3 & F4). unfold block_data. rewrite F2, F3. split.
  - rewrite app_assoc. f_equal.
    rewrite <- (take_drop (Z.to_nat (bpages j * PAGE_SIZE)) (drop (Z.to_nat (j * ppb * PAGE_SIZE)) data)) at 1.
    f_equal. rewrite drop_drop. f_equal. unfold PAGE_SIZE in *. lia.
  - unfold zlen, PAGE_SIZE in *. rewrite length_take, length_drop. nia.
Qed.

Lemma write_blocks_ok rest fuel : forall e x pipe dn pad fl st, blocks_inv dn pad fl st x -> zlen dn <= nb ->
  pipe = drop (Z.to_nat (pages_in_blocks (zlen dn) * PAGE_SIZE)) data ++ rest -> nb - zlen dn < Z.of_nat fuel ->
  exists ok x' pipe' e',
    write_blocks lz4c acc fuel e x pipe (nr * PAGE_SIZE) (pages_in_blocks (zlen dn) * PAGE_SIZE) (pages_in_blocks (zlen dn))
      = Ret (ok, x', pipe', e') /\
    (ok = true -> pipe' = rest /\ exists dn' pad' fl' st', blocks_inv dn' pad' fl' st' x' /\ zlen dn' = nb) /\
    (xenv_ok e -> ok = true /\ xenv_ok e').
Proof.
  induction fuel as [|fuel IH]; intros e x pipe dn pad fl st Hinv Hj Hpipe Hf; [lia|]. cbn [write_blocks].
  pose proof nb_bounds as Hnb. pose proof (zlen_nonneg dn) as H0.
  destruct (Z.eq_dec (zlen dn) nb) as [He|Hne].
  { assert (Hq : pages_in_blocks (zlen dn) = nr) by (rewrite He; unfold pages_in_blocks; lia). rewrite Hq, Z.ltb_irrefl.
    eexists _, _, _, _. split; [done|]. split; [|done]. intros _. split.
    - rewrite Hpipe, Hq, drop_ge; [done|]. unfold zlen in Hdata. lia.
    - by exists dn, pad, fl, st. }
  destruct (block_fits (zlen dn) ltac:(lia)) as (F1 & F2 & F3 & F4).
  destruct (data_split (zlen dn) rest pipe ltac:(lia) Hpipe) as [Hsp Hbl].
  pose proof (zlen_nonneg (xf_pi x0)) as Hz0.
  destruct (Z.ltb_spec (pages_in_blocks (zlen dn) * PAGE_SIZE) (nr * PAGE_SIZE)) as [_|Hx]; [|unfold PAGE_SIZE in *; lia].
  assert (Hpd : pp_nr_pages (pending x) = nr /\ bl_pages_per_block (pp_layout (pending x)) = ppb /\
    pp_n_compressed (pending x) = zlen dn /\ zlen (bl_sizes (pp_layout (pending x))) = nb).
  { destruct Hinv as [-> _ _ _ _]. cbn. split_and!; try done. rewrite zlen_app. unfold zlen.
    rewrite length_fmap, length_replicate. unfold zlen in *. lia. }
  destruct Hpd as (-> & -> & Hn & Hszs). rewrite Hn, Hszs. rewrite F2, (cur_block_pages_ok (zlen dn)) by lia.
  rewrite (u64_small (_ + _)), Z.gtb_ltb by (unfold PAGE_SIZE in *; nia).
  destruct (Z.ltb_spec (nr * PAGE_SIZE) (zlen dn * ppb * PAGE_SIZE + bpages (zlen dn) * PAGE_SIZE)); [unfold PAGE_SIZE in *; nia|].
  destruct (read_pipe_full_ok e pipe (bpages (zlen dn) * PAGE_SIZE)) as (got & pipe1 & e1 & -> & R1 & R2);
    [unfold PAGE_SIZE; lia|]. simpl obind.
  assert (Hplen : bpages (zlen dn) * PAGE_SIZE <= zlen pipe).
  { rewrite Hsp, zlen_app, Hbl. pose proof (zlen_nonneg (drop (Z.to_nat (pages_in_blocks (zlen dn + 1) * PAGE_SIZE)) data ++ rest)). lia. }
  destruct got as [src|]; [|eexists _, _, _, _; split; [done|]; split; [done|]; intros Hev; by destruct (R2 Hev Hplen)].
  destruct (R1 src eq_refl) as [R3 R4].
  assert (src = block_data (zlen dn) /\ pipe1 = drop (Z.to_nat (pages_in_blocks (zlen dn + 1) * PAGE_SIZE)) data ++ rest) as [-> ->].
  { rewrite Hsp in R3. apply app_inj_1 in R3 as [? ?]; [done|]. apply Nat2Z.inj. fold (zlen src). fold (zlen (block_data (zlen dn))). congruence. }
  destruct (encode_block_ok (force_raw x) (block_data (zlen dn)) (bpages (zlen dn)) F1 Hbl) as (cs & payload & -> & Hst).
  destruct (Z.leb_spec 0 (zlen dn)); [|lia]. destruct (Z.ltb_spec (zlen dn) nb); [|lia]. cbn [andb negb].
  destruct (block_step e1 x dn pad fl st cs payload Hinv ltac:(lia) Hst) as (ok & x2 & e2 & Hrun & S1 & S2).
  unfold accounted in Hrun. rewrite Hn in Hrun. rewrite Hrun. simpl obind. clear Hrun.
  destruct ok; simpl negb; cbn [negb]; [|eexists _, _, _, _; split; [done|]; split; [done|]; intros Hev; by destruct (S2 (proj2 (R2 Hev Hplen)))].
  destruct (S1 eq_refl) as (pad' & fl' & st' & Hinv').
  assert (Hl' : zlen (dn ++ [(cs, payload)]) = zlen dn + 1) by (by rewrite zlen_app).
  assert (Hq64 : 0 <= zlen dn * ppb + bpages (zlen dn) < 2 ^ 64) by (unfold PAGE_SIZE in *; nia).
  rewrite (u64_small (zlen dn * ppb + bpages (zlen dn)) Hq64).
  destruct (IH e2 x2 (drop (Z.to_nat (pages_in_blocks (zlen dn + 1) * PAGE_SIZE)) data ++ rest) (dn ++ [(cs, payload)]) pad' fl' st' Hinv')
    as (ok & x' & pipe' & e' & Hrun & T1 & T2); [lia|by rewrite Hl'|lia|].
  rewrite Hl', F3 in Hrun. rewrite F3, <- Z.mul_add_distr_r, Hrun.
  exists ok, x', pipe', e'. split; [done|]. split; [done|]. intros Hev. by apply T2, S2, R2.
Qed.

(** ** The entry that describes the blocks *)
Context (Hflags : flags = PE_PRESENT \/ flags = Z.lor PE_PRESENT PE_LAZY).
Context (Hva : vaddr mod PAGE_SIZE = 0) (Hv0 : 0 <= vaddr) (Hv1 : vaddr + nr * PAGE_SIZE < 2 ^ 64).

Definition stored_blocks (dn : list (Z * list Z)) (raw : bool) : option pagemap_blocks :=
  if raw then None else Some (PagemapBlocks (fst <$> dn) (zsum (fst <$> dn)) ppb).

Section Full.
Context (dn : list (Z * list Z)) (pad : list Z) (fl : Z) (st : bool) (x : page_xfer).
Context (Hinv : blocks_inv dn pad fl st x) (Hfull : zlen dn = nb).
Abbreviation entry raw := (new_entry vaddr nr fl (stored_blocks dn raw)).
Abbreviation start := (zlen (xf_pi x0 ++ pad)).

Lemma entry_flags raw : pagemap_present (entry raw) = true /\ pagemap_in_parent (entry raw) = false /\
  entry_start (entry raw) (zlen (xf_pi x0)) = start.
Proof.
  unfold entry_start, pagemap_present, pagemap_in_parent, pagemap_payload_aligned, new_entry. cbn [pe_flags].
  destruct Hinv as [_ _ _ _ [[-> ->]|(-> & Hp & _)]]; destruct Hflags as [-> | ->]; cbn; rewrite ?app_nil_r; split_and!; done.
Qed.

Lemma block_lookup j : 0 <= j < nb -> exists cs payload, dn !! Z.to_nat j = Some (cs, payload) /\
  stored_block lz4 (bpages j) (block_data j) cs payload /\ (fst <$> dn) !! Z.to_nat j = Some cs.
Proof.
  intros Hj. destruct (lookup_lt_is_Some_2 dn (Z.to_nat j)) as [[cs payload] L]; [unfold zlen in Hfull; lia|].
  exists cs, payload. split; [done|]. pose proof (bi_blocks _ _ _ _ _ Hinv _ _ _ L) as Hs. rewrite Z2Nat.id in Hs by lia.
  split; [done|]. by rewrite list_lookup_fmap, L.
Qed.

Lemma blocks_fit_dn : blocks_fit nr ppb 0 (fst <$> dn).
Proof.
  assert (H : forall n i, (n + i = length dn)%nat -> blocks_fit nr ppb (Z.of_nat i) (drop i (fst <$> dn))).
  { induction n as [|n IH]; intros i Hi.
    - rewrite drop_ge by (rewrite length_fmap; lia). done.
    - destruct (block_lookup (Z.of_nat i)) as (cs & payload & _ & (Hd & Hp & Hc) & L); [unfold zlen in Hfull; lia|].
      rewrite Nat2Z.id in L. rewrite (drop_S _ _ _ L). cbn [blocks_fit]. split.
      + destruct (block_fits (Z.of_nat i)) as (F1 & _); [unfold zlen in Hfull; lia|]. pose proof (zlen_nonneg payload).
        unfold PAGE_SIZE in *. lia.
      + replace (Z.of_nat i + 1) with (Z.of_nat (S i)) by lia. apply IH. lia. }
  by apply (H (length dn) 0%nat ltac:(lia)).
Qed.

Lemma entry_is_ok raw : entry_ok (entry raw).
Proof.
  destruct (entry_flags raw) as (E1 & E2 & _). split; [done|]. split; [done|]. cbn [pe_vaddr pe_nr_pages new_entry].
  split; [done|]. split; [done|]. split; [done|]. split; [done|]. intros b Hb. split; [done|].
  unfold stored_blocks in Hb. destruct raw; [done|]. injection Hb as <-. pose proof nb_bounds.
  split; [done|]. cbn [n_block_sizes block_sizes pages_per_block total_payload_size]. unfold n_block_sizes. cbn [block_sizes].
  replace (zlen (fst <$> dn)) with nb by (rewrite <- Hfull; unfold zlen; by rewrite length_fmap).
  split; [lia|]. split; [apply blocks_fit_dn|done].
Qed.

(** The payload of block [j] in the file. *)
Lemma payload_slice j cs payload more : dn !! j = Some (cs, payload) ->
  slice (xf_pi x ++ more) (start + zsum (take j (fst <$> dn))) cs = Some payload.
Proof.
  intros L. assert (Hall : Forall (fun d => zlen (snd d) = fst d) dn).
  { apply Forall_lookup_2. intros i [c pl] Hl. by destruct (bi_blocks _ _ _ _ _ Hinv _ _ _ Hl) as (_ & ? & _). }
  assert (Hsum : forall l : list (Z * list Z), Forall (fun d => zlen (snd d) = fst d) l -> zlen (concat (snd <$> l)) = zsum (fst <$> l)).
  { intros l Hl. induction Hl as [|[c pl] l Hd _ IH]; [done|]. rewrite !fmap_cons, zsum_cons. cbn [concat]. rewrite zlen_app, IH. simpl in *. lia. }
  rewrite <- fmap_take, <- Hsum by (by apply Forall_take).
  destruct Hinv as [-> _ _ _ _]. cbn [xf_pi set_pending grow set_pio set_pi].
  pose proof (Forall_lookup_1 _ _ _ _ Hall L) as Hlen. simpl in Hlen.
  rewrite <- (take_drop_middle _ _ _ L) at 1. rewrite fmap_app, concat_app, fmap_cons. cbn [concat snd].
  set (A := concat (snd <$> take j dn)). set (B := concat (snd <$> drop (S j) dn)).
  replace ((xf_pi x0 ++ pad ++ A ++ payload ++ B) ++ more) with (((xf_pi x0 ++ pad) ++ A) ++ payload ++ B ++ more)
    by (by rewrite <- !app_assoc).
  rewrite <- zlen_app. set (C := (xf_pi x0 ++ pad) ++ A). unfold slice. pose proof (zlen_nonneg C).
  destruct (Z.leb_spec 0 (zlen C)); [|lia]. rewrite !zlen_app. pose proof (zlen_nonneg B). pose proof (zlen_nonneg more).
  destruct (Z.leb_spec (zlen C + cs) (zlen C + (zlen payload + (zlen B + zlen more)))); [|lia]. cbn [andb]. f_equal.
  unfold zlen in *. rewrite Nat2Z.id, drop_app_length. rewrite <- Hlen, Nat2Z.id. apply take_app_length.
Qed.

(** A page of a stored block. *)
Lemma block_page file o n bdata cs payload i : stored_block lz4 n bdata cs payload -> 0 <= i < n -> 0 <= o ->
  slice file o cs = Some payload -> src_bytes lz4 file (SBlock o cs n i) = Some (page_of bdata i).
Proof.
  intros (Hd & Hp & Hc) Hi Ho Hs. unfold src_bytes, page_of.
  destruct Hc as [[-> ->]|[[-> ->]|[Hcs Hdec]]].
  - simpl. f_equal. unfold zeros, PAGE_SIZE. rewrite drop_replicate, take_replicate. f_equal. lia.
  - destruct (Z.eqb_spec (n * PAGE_SIZE) 0); [unfold PAGE_SIZE in *; lia|]. rewrite Z.eqb_refl.
    unfold slice in *. destruct (Z.leb_spec 0 o); [|done]. simpl in Hs.
    destruct (Z.leb_spec (o + n * PAGE_SIZE) (zlen file)) as [Hle|]; [|done]. injection Hs as <-.
    unfold PAGE_SIZE, zlen in *. destruct (Z.leb_spec 0 (o + i * 4096)); [|lia].
    destruct (Z.leb_spec (o + i * 4096 + 4096) (Z.of_nat (length file))); [|lia]. simpl. f_equal.
    rewrite skipn_firstn_comm, take_take, drop_drop. f_equal; [lia|]. f_equal. lia.
  - destruct (Z.eqb_spec cs 0); [lia|]. destruct (Z.eqb_spec cs (n * PAGE_SIZE)); [lia|]. by rewrite Hs, Hdec.
Qed.

Lemma page_of_block_data j i : 0 <= j -> 0 <= i < bpages j -> page_of (block_data j) i = page_of data (j * ppb + i).
Proof.
  intros Hj Hi. unfold page_of, block_data, PAGE_SIZE. rewrite skipn_firstn_comm, take_take, drop_drop. f_equal; [lia|]. f_equal. nia.
Qed.

(** With its sizes, the entry finds every page. *)
Lemma packed_entry_pages more k : 0 <= k < nr ->
  src_bytes lz4 (xf_pi x ++ more)
    (image_src (entry false) (PagemapBlocks (fst <$> dn) (zsum (fst <$> dn)) ppb) start k) = Some (page_of data k).
Proof.
  intros Hk. destruct (page_in_block (entry false) (PagemapBlocks (fst <$> dn) (zsum (fst <$> dn)) ppb) (entry_is_ok false) eq_refl k Hk)
    as (Hj & Hkj & Ho). cbv zeta in Hj, Hkj, Ho. cbn [pages_per_block pe_nr_pages new_entry] in *.
  unfold image_src. cbn [pages_per_block pe_nr_pages new_entry block_sizes].
  set (j := block_of_page _ _ k) in *. set (o := offset_of_page _ _ k) in *.
  assert (Hn : n_block_sizes (PagemapBlocks (fst <$> dn) (zsum (fst <$> dn)) ppb) = nb).
  { unfold n_block_sizes. cbn [block_sizes]. rewrite <- Hfull. unfold zlen. by rewrite length_fmap. }
  rewrite Hn in Hj. destruct (block_lookup j Hj) as (cs & payload & L & Hst & Lc). rewrite Lc. cbn [default].
  rewrite Hkj, <- page_of_block_data by lia.
  apply (block_page _ _ _ _ _ payload); [done|lia| |by apply payload_slice].
  pose proof (zlen_nonneg (xf_pi x0 ++ pad)). pose proof (blocks_fit_nonneg _ _ _ _ blocks_fit_dn) as Hnn.
  pose proof (zsum_take_le (fst <$> dn) (Z.to_nat j) Hnn). lia.
Qed.

(** Without sizes, when all blocks are raw. *)
Lemma all_raw_sizes : all_raw_from 0 nr ppb (fst <$> dn) = true ->
  forall j cs payload, dn !! j = Some (cs, payload) -> cs = bpages (Z.of_nat j) * PAGE_SIZE.
Proof.
  intros H. assert (Hg : forall n i, (n + i = length dn)%nat -> all_raw_from (Z.of_nat i) nr ppb (drop i (fst <$> dn)) = true ->
    forall j cs payload, (i <= j)%nat -> dn !! j = Some (cs, payload) -> cs = bpages (Z.of_nat j) * PAGE_SIZE).
  { induction n as [|n IH]; intros i Hi Hr j cs payload Hij L.
    - apply lookup_lt_Some in L. lia.
    - destruct (lookup_lt_is_Some_2 dn i ltac:(lia)) as [[c pl] Li].
      assert (Lf : (fst <$> dn) !! i = Some c) by (by rewrite list_lookup_fmap, Li).
      rewrite (drop_S _ _ _ Lf) in Hr. cbn [all_raw_from] in Hr.
      destruct (block_fits (Z.of_nat i)) as (F1 & F2 & F3 & F4); [unfold zlen in Hfull; lia|].
      rewrite u64_small in Hr by (pose proof (zlen_nonneg (xf_pi x0)); unfold PAGE_SIZE in *; nia).
      rewrite cur_block_pages_ok in Hr by (unfold zlen in Hfull; lia).
      destruct (Z.eqb_spec c (bpages (Z.of_nat i) * PAGE_SIZE)) as [Hc|]; [|done]. cbn [negb] in Hr.
      destruct (decide (j = i)) as [->|]; [congruence|].
      apply (IH (S i) ltac:(lia)) with payload; [by replace (Z.of_nat (S i)) with (Z.of_nat i + 1) by lia|lia|done]. }
  intros j cs payload L. eapply (Hg (length dn) 0%nat); [lia|exact H|lia|exact L].
Qed.

Lemma all_raw_sum : all_raw_from 0 nr ppb (fst <$> dn) = true -> forall j, (j <= length dn)%nat ->
  zsum (take j (fst <$> dn)) = pages_in_blocks (Z.of_nat j) * PAGE_SIZE.
Proof.
  intros Hraw. induction j as [|j IH]; intros Hj.
  - rewrite take_0. unfold pages_in_blocks. replace (Z.min (Z.of_nat 0 * ppb) nr) with 0 by lia. done.
  - destruct (block_lookup (Z.of_nat j)) as (cs & payload & L & _ & Lc); [unfold zlen in Hfull; lia|]. rewrite Nat2Z.id in L, Lc.
    rewrite (zsum_take_S _ _ _ Lc), IH by lia. rewrite (all_raw_sizes Hraw _ _ _ L).
    destruct (block_fits (Z.of_nat j)) as (F1 & F2 & F3 & F4); [unfold zlen in Hfull; lia|].
    replace (Z.of_nat (S j)) with (Z.of_nat j + 1) by lia. rewrite F2, F3. lia.
Qed.

Lemma raw_entry_pages more k : all_raw_from 0 nr ppb (fst <$> dn) = true -> 0 <= k < nr ->
  src_bytes lz4 (xf_pi x ++ more) (SRaw (start + k * PAGE_SIZE)) = Some (page_of data k).
Proof.
  intros Hraw Hk. pose proof (packed_entry_pages more k Hk) as Hp. unfold image_src in Hp.
  destruct (page_in_block (entry false) (PagemapBlocks (fst <$> dn) (zsum (fst <$> dn)) ppb) (entry_is_ok false) eq_refl k Hk)
    as (Hj & Hkj & Ho). cbv zeta in Hj, Hkj, Ho. cbn [pages_per_block pe_nr_pages new_entry block_sizes] in *.
  set (j := block_of_page _ _ k) in *. set (o := offset_of_page _ _ k) in *.
  assert (Hn : n_block_sizes (PagemapBlocks (fst <$> dn) (zsum (fst <$> dn)) ppb) = nb).
  { unfold n_block_sizes. cbn [block_sizes]. rewrite <- Hfull. unfold zlen. by rewrite length_fmap. }
  rewrite Hn in Hj. destruct (block_lookup j Hj) as (cs & payload & L & _ & Lc). rewrite Lc in Hp. cbn [default] in Hp. unfold id in Hp.
  rewrite (all_raw_sizes Hraw _ _ _ L), Z2Nat.id in Hp by lia.
  rewrite (all_raw_sum Hraw (Z.to_nat j)), Z2Nat.id in Hp by (unfold zlen in Hfull; lia).
  destruct (block_fits j Hj) as (F1 & F2 & F3 & F4). unfold src_bytes in Hp |- *.
  destruct (Z.eqb_spec (bpages j * PAGE_SIZE) 0); [unfold PAGE_SIZE in *; lia|]. rewrite Z.eqb_refl, F2 in Hp.
  rewrite <- Hp. f_equal. unfold PAGE_SIZE. lia.
Qed.

(** The payload of the entry is what was appended behind the padding. *)
Lemma entry_payload_size raw : (raw = true -> all_raw_from 0 nr ppb (fst <$> dn) = true) ->
  entry_payload (entry raw) = zlen (concat (snd <$> dn)) /\ zlen (xf_pi x) = start + entry_payload (entry raw).
Proof.
  intros Hraw. assert (E : entry_payload (entry raw) = zlen (concat (snd <$> dn))).
  { unfold entry_payload. rewrite (proj1 (entry_flags raw)). destruct (bi_size _ _ _ _ _ Hinv) as [-> _].
    cbn [pe_blocks new_entry]. destruct raw; [|done]. simpl. pose proof nb_bounds.
    rewrite <- (take_ge (fst <$> dn) (length dn)) by (by rewrite length_fmap). rewrite (all_raw_sum (Hraw eq_refl)) by lia.
    unfold pages_in_blocks, zlen in *. rewrite Hfull. f_equal. lia. }
  split; [done|]. rewrite E. rewrite (bi_state _ _ _ _ _ Hinv). cbn [xf_pi set_pending grow set_pio set_pi].
  by rewrite <- zlen_app, <- app_assoc.
Qed.
End Full.
End Blocks.

(** ** Images that grow *)
Lemma slice_app f g off n x : slice f off n = Some x -> 0 <= n -> slice (f ++ g) off n = Some x.
Proof.
  unfold slice. intros H Hn. destruct (Z.leb_spec 0 off); [|done]. cbn [andb] in *.
  destruct (Z.leb_spec (off + n) (zlen f)) as [Hle|]; [|done]. rewrite zlen_app. pose proof (zlen_nonneg g).
  destruct (Z.leb_spec (off + n) (zlen f + zlen g)); [|lia]. rewrite <- H. f_equal. unfold zlen in *.
  rewrite drop_app_le by lia. rewrite take_app_le; [done|]. rewrite length_drop. lia.
Qed.

Lemma src_bytes_app lz4 f g s x : src_bytes lz4 f s = Some x -> (forall o sz n j, s = SBlock o sz n j -> 0 <= sz) ->
  src_bytes lz4 (f ++ g) s = Some x.
Proof.
  intros H Hs. destruct s as [o|o sz n j]; [by apply slice_app|]. specialize (Hs _ _ _ _ eq_refl).
  unfold src_bytes in *. destruct (sz =? 0); [done|]. destruct (sz =? n * PAGE_SIZE); [by apply slice_app|].
  destruct (slice f o sz) as [c|] eqn:E; [|done]. by rewrite (slice_app _ _ _ _ _ E Hs).
Qed.

Lemma pages_end_snoc off l pe : pages_end off (l ++ [pe]) = entry_stop pe (pages_end off l).
Proof. unfold pages_end. by rewrite fold_left_app. Qed.

Lemma pagemaps_ok_from_snoc pe l : forall prev off, entry_ok pe -> pagemaps_ok_from prev off l -> prev <= pe_vaddr pe ->
  Forall (fun q => entry_end q <= pe_vaddr pe) l -> entry_stop pe (pages_end off l) <= OFF_MAX ->
  pagemaps_ok_from prev off (l ++ [pe]).
Proof.
  induction l as [|q l IH]; intros prev off Hpe Hok Hp Hf Hm; [by split_and!|].
  destruct Hok as (H1 & H2 & H3 & H4). apply Forall_cons_1 in Hf as [Hq Hf].
  split; [done|]. split; [done|]. split; [done|]. by apply IH.
Qed.

Lemma payload_start_app l m i pe : l !! i = Some pe -> payload_start (l ++ m) i = payload_start l i.
Proof.
  intros L. unfold payload_start. pose proof (lookup_lt_Some _ _ _ L). rewrite lookup_app_l, L by done.
  by rewrite take_app_le by lia.
Qed.

Lemma payload_start_snoc l pe : payload_start (l ++ [pe]) (length l) = entry_start pe (pages_end 0 l).
Proof.
  unfold payload_start. rewrite lookup_app_r, Nat.sub_diag by lia. cbn [lookup list_lookup]. by rewrite take_app_length.
Qed.

(** What was stored stays readable when the images grow. *)
Lemma page_content_app lz4 l f ps m g v x : pagemaps_ok l -> page_content lz4 ((l, f) :: ps) v x ->
  page_content lz4 ((l ++ m, f ++ g) :: ps) v x.
Proof.
  intros Hok Hc. inversion Hc as [? ? ? i pe k ? L Hk Hin Hp Hb|? ? ? i pe k ? L Hk Hin Hb]; subst.
  - apply (content_here _ _ _ _ i pe k); try done; [by apply lookup_app_l_Some|].
    assert (Es : entry_src (l ++ m) i pe k = entry_src l i pe k).
    { unfold entry_src. by rewrite (payload_start_app _ _ _ _ L). }
    rewrite Es. apply src_bytes_app; [done|]. unfold entry_src, image_src. intros o sz n j Hs.
    destruct (pagemaps_ok_lookup _ i pe Hok L) as (Hpe & _).
    destruct (pe_blocks pe) as [b|] eqn:Eb; [|done]. injection Hs as _ <- _ _.
    destruct (page_in_block pe b Hpe Eb k Hk) as (Hj & _). cbv zeta in Hj. set (j' := block_of_page pe b k) in *.
    destruct (zlookup_is_Some (block_sizes b) j' Hj) as [cs Hcs].
    assert (Hcs' : block_sizes b !! Z.to_nat j' = Some cs) by (rewrite <- zlookup_of_nat, Z2Nat.id by lia; done).
    rewrite Hcs'. simpl. by destruct (blocks_fit_lookup _ _ _ 0 _ cs (proj1 (proj2 (proj2 (entry_blocks_ok pe b Hpe Eb)))) Hcs').
  - apply (content_parent _ _ _ _ i pe k); try done. by apply lookup_app_l_Some.
Qed.

(** ** The invariant of a transfer *)

(** The images describe each other, up to address [cur]; the parents' readers
    are ready from [cur] on. *)
Record xfer_ok (ls : list (list pagemap_entry)) (cur : Z) (x : page_xfer) : Prop := XferOk {
  xo_pmi : pagemaps_ok (xf_pmi x);
  xo_cur : Forall (fun q => entry_end q <= cur) (xf_pmi x);
  xo_end : pages_end 0 (xf_pmi x) = zlen (xf_pi x);
  xo_counted : counted x;
  xo_parent : Forall2 (dedup_ok cur) ls (xf_parent x)
}.

(** What a step keeps: the settings; what is stored stays, the images grow, the
    pagemap by [n] entries. *)
Record xstep (n : nat) (x x' : page_xfer) : Prop := XStep {
  xs_settings : xf_offset x' = xf_offset x /\ transfer_lazy x' = transfer_lazy x;
  xs_grows : exists m g, xf_pmi x' = xf_pmi x ++ m /\ xf_pi x' = xf_pi x ++ g /\ length m = n
}.

Lemma xstep_refl x : xstep 0 x x.
Proof. split; [done|]. exists [], []. by rewrite !app_nil_r. Qed.
Lemma xstep_trans n m a b c : xstep n a b -> xstep m b c -> xstep (n + m) a c.
Proof.
  intros [[A1 A2] (l & g & A3 & A4 & A5)] [[B1 B2] (l' & g' & B3 & B4 & B5)]. split; [split; congruence|].
  exists (l ++ l'), (g ++ g'). rewrite B3, B4, A3, A4, !app_assoc, length_app, A5, B5. done.
Qed.

Lemma xstep_content ls cur lz4 n x x' ps v b : xfer_ok ls cur x -> xstep n x x' ->
  page_content lz4 ((xf_pmi x, xf_pi x) :: ps) v b -> page_content lz4 ((xf_pmi x', xf_pi x') :: ps) v b.
Proof. intros [Hok _ _ _ _] [_ (m & g & -> & -> & _)] Hc. by apply page_content_app. Qed.

Lemma xfer_ok_entry ls cur x x' pe g : xfer_ok ls cur x -> entry_ok pe -> cur <= pe_vaddr pe ->
  xf_pmi x' = xf_pmi x ++ [pe] -> xf_pi x' = xf_pi x ++ g -> zlen (xf_pi x') = entry_stop pe (zlen (xf_pi x)) ->
  zlen (xf_pi x') <= OFF_MAX -> counted x' -> Forall2 (dedup_ok (entry_end pe)) ls (xf_parent x') ->
  xfer_ok ls (entry_end pe) x'.
Proof.
  intros [X1 X2 X3 X4 X5] Hpe Hcur Hm Hg Hz Hmax Hc Hps.
  assert (Hcv : Forall (fun q => entry_end q <= pe_vaddr pe) (xf_pmi x)).
  { eapply Forall_impl; [exact X2|]. intros q Hq. simpl in Hq. lia. }
  pose proof Hpe as (_ & _ & _ & Hv & Hn & _). split; try done.
  - rewrite Hm. apply pagemaps_ok_from_snoc; try done. rewrite X3. lia.
  - rewrite Hm. apply Forall_app. split; [|apply Forall_cons_2; [lia|apply Forall_nil_2]].
    eapply Forall_impl; [exact Hcv|]. intros q Hq. simpl in Hq. unfold entry_end, PAGE_SIZE in *. lia.
  - rewrite Hm, pages_end_snoc, X3. done.
Qed.

Lemma xe_alloc_ok e ok e' : xe_alloc e = (ok, e') -> xenv_ok e -> ok = true /\ xenv_ok e'.
Proof. unfold xe_alloc. intros H ->. simpl in H. by injection H as <- <-. Qed.
Lemma xe_pb_ok e ok e' : xe_pb e = (ok, e') -> xenv_ok e -> ok = true /\ xenv_ok e'.
Proof. unfold xe_pb. intros H ->. simpl in H. by injection H as <- <-. Qed.

Lemma pb_write_ok e x pe : exists ok x' e', pb_write_pagemap e x pe = (ok, x', e') /\
  (ok = true -> x' = set_pmi (xf_pmi x ++ [pe]) x) /\ (xenv_ok e -> ok = true /\ xenv_ok e').
Proof.
  unfold pb_write_pagemap. destruct (xe_pb e) as [ok e'] eqn:E. pose proof (xe_pb_ok _ _ _ E).
  destruct ok; simpl; eexists _, _, _; (split; [done|]); split; (done || intros He; by destruct (H He)).
Qed.

(** The parents' part of a step. *)
Lemma dedup_parent_ok ls auto e x off len : Forall2 (dedup_ok off) ls (xf_parent x) ->
  aligned off -> aligned (off + len) -> 0 <= off -> 0 < len -> off + len < 2 ^ 64 ->
  exists ok x' e', dedup_parent auto e x off len = Ret (ok, x', e') /\
    (ok = true -> exists ps, x' = set_parent ps x /\ Forall2 (dedup_ok (off + len)) ls ps) /\
    (xenv_ok e -> ok = true /\ xenv_ok e').
Proof.
  intros Hps Ha Hb H0 Hl Hm. unfold dedup_parent. destruct (xf_parent x) as [|p ps] eqn:Ep.
  { eexists _, _, _. split; [done|]. split; [|done]. intros _. exists []. split; [|inversion Hps; constructor].
    destruct x. simpl in *. by subst. }
  destruct auto.
  2:{ eexists _, _, _. split; [done|]. split; [|done]. intros _. exists (p :: ps). split; [destruct x; simpl in *; by subst|].
      eapply chain_mono; [|exact Hps]. lia. }
  rewrite (eq_sym (Forall2_length _ _ _ Hps)).
  destruct (dedup_one_iovec_spec ls ltac:(by inversion Hps) (p :: ps) (x_fallocs e) off len Hps Ha Hb H0 Hl Hm)
    as ([[ret chain'] fa'] & -> & [Hpost Hfa]). simpl. eexists _, _, _. split; [done|].
  destruct Hpost as [(-> & P1 & _)|(-> & P1)]; simpl.
  - split; [intros _; by exists chain'|]. intros ->. split; [done|]. rewrite (Hfa eq_refl). done.
  - split; [done|]. intros ->. by destruct P1.
Qed.

Lemma check_hole_ok ls x iov : Forall2 (dedup_ok (iov_base iov)) ls (xf_parent x) ->
  aligned (iov_base iov) -> aligned (iov_base iov + iov_len iov) ->
  0 <= iov_base iov -> 0 < iov_len iov -> iov_base iov + iov_len iov < 2 ^ 64 ->
  exists ok x', check_hole x iov = Ret (ok, x') /\
    (ok = true -> exists ps, x' = set_parent ps x /\ Forall2 (dedup_ok (iov_base iov + iov_len iov)) ls ps) /\
    ((forall l, head ls = Some l -> forall v, v ∈ pages_between (iov_base iov) (iov_base iov + iov_len iov) -> has_page l v) ->
     ok = true).
Proof.
  intros Hps Ha Hb H0 Hl Hm. unfold check_hole. destruct (xf_parent x) as [|p ps] eqn:Ep.
  { eexists _, _. split; [done|]. split; [|done]. intros _. exists []. split; [|inversion Hps; constructor].
    destruct x. simpl in *. by subst. }
  inversion Hps as [|l ? ls' ? Hp Hpss]; subst. pose proof Hp as [D1 D2 D3 D4 D5 D6].
  destruct (check_pagehole_spec (dr_pr p) iov) as (r & pr & -> & Hc & Hst & Hr & Hcv & Hiff); try done; [by rewrite D1|].
  simpl. eexists _, _. split; [done|]. split.
  - intros ->%Z.eqb_eq. eexists. split; [done|]. constructor; [|by eapply chain_mono; [|exact Hpss]; lia].
    destruct Hst as (E1 & E2 & _). split; simpl; try done; [by rewrite E1|left; specialize (Hcv eq_refl); lia|by rewrite E2].
  - intros Hh. apply Z.eqb_eq, Hiff. rewrite D1. by apply (Hh l).
Qed.

(** ** Splicing *)
Lemma splice_loop_ok len fuel : forall e x pipe curr, 0 <= curr < len ->
  (Z.to_nat (len - curr) + (if pi_use_direct x then 1 else 0) <= fuel)%nat ->
  exists ok x' pipe' e', splice_loop fuel e x pipe len curr = Ret (ok, x', pipe', e') /\
    (ok = true -> exists d src, x' = set_direct d (set_pi (xf_pi x ++ src) x) /\ pipe = src ++ pipe' /\ zlen src = len - curr) /\
    (xenv_ok e -> len - curr <= zlen pipe -> ok = true /\ xenv_ok e').
Proof.
  induction fuel as [|fuel IH]; intros e x pipe curr Hc Hf; [lia|]. cbn [splice_loop].
  destruct (io_answer (x_splices e) (len - curr)) as [ret l] eqn:Ea.
  destruct (io_answer_range _ _ _ _ Ea) as (H1 & H2 & _ & _).
  assert (Hne : ret <= 0 -> ~ xenv_ok e) by (intros Hr ->; destruct (H2 eq_refl); lia).
  destruct (Z.ltb_spec ret 0) as [Hn|Hp].
  - destruct (pi_use_direct x) eqn:Ed; cbn [andb].
    2:{ eexists _, _, _, _. split; [done|]. split; [done|]. intros He. by destruct (Hne ltac:(lia)). }
    destruct ((ret =? - EFAULT) || (ret =? - EINVAL)).
    2:{ eexists _, _, _, _. split; [done|]. split; [done|]. intros He. by destruct (Hne ltac:(lia)). }
    destruct (xe_fcntl (xe_splices l e)) as [ok e1]. destruct ok; cbn [negb].
    2:{ eexists _, _, _, _. split; [done|]. split; [done|]. intros He. by destruct (Hne ltac:(lia)). }
    destruct (IH e1 (set_direct false x) pipe curr Hc) as (ok & x' & pipe' & e' & -> & A & B); [simpl; lia|].
    eexists _, _, _, _. split; [done|]. split; [|intros He; by destruct (Hne ltac:(lia))].
    intros Hok. destruct (A Hok) as (d & src & -> & A2 & A3). exists d, src. by split_and!.
  - set (got := take (Z.to_nat ret) pipe). assert (Hg : zlen got <= ret) by (unfold got, zlen; rewrite length_take; lia).
    pose proof (zlen_nonneg got) as Hg0. destruct (Z.eqb_spec (zlen got) 0) as [Hz|Hz].
    { eexists _, _, _, _. split; [done|]. split; [done|]. intros -> Hl. destruct (H2 eq_refl) as [Hr _].
      unfold got, zlen in *. rewrite length_take in Hz. lia. }
    assert (Hsp : pipe = got ++ drop (Z.to_nat ret) pipe) by (unfold got; by rewrite take_drop).
    destruct (Z.eqb_spec (curr + zlen got) len) as [Heq|Hneq].
    { eexists _, _, _, _. split; [done|]. split.
      - intros _. exists (pi_use_direct x), got. split; [by destruct x|]. split; [done|lia].
      - intros -> _. split; [done|]. destruct (H2 eq_refl) as [_ ->]. done. }
    destruct (IH (xe_splices l e) (set_pi (xf_pi x ++ got) x) (drop (Z.to_nat ret) pipe) (curr + zlen got)) as (ok & x' & pipe' & e' & -> & A & B);
      [lia|cbn [pi_use_direct set_pi]; lia|].
    eexists _, _, _, _. split; [done|]. split.
    + intros Hok. destruct (A Hok) as (d & src & -> & A2 & A3). exists d, (got ++ src).
      split; [cbn; by rewrite app_assoc|]. split; [by rewrite <- app_assoc, <- A2|]. rewrite zlen_app. lia.
    + intros -> Hl. exfalso. destruct (H2 eq_refl) as [-> _]. unfold got, zlen in *. rewrite length_take in *. lia.
Qed.

Lemma write_pages_loc_gen e x pipe len : counted x -> 0 < len ->
  exists ok x' pipe' e', write_pages_loc e x pipe len = Ret (ok, x', pipe', e') /\
    (ok = true -> exists d src, x' = set_direct d (grow src x) /\ pipe = src ++ pipe' /\ zlen src = len) /\
    (xenv_ok e -> len <= zlen pipe -> zlen (xf_pi x) + len < 2 ^ 64 -> ok = true /\ xenv_ok e').
Proof.
  intros Hc Hl. unfold write_pages_loc.
  destruct (splice_loop_ok len (S (S (Z.to_nat len))) e x pipe 0) as (ok & x1 & pipe1 & e1 & -> & S1 & S2);
    [lia|destruct (pi_use_direct x); lia|]. simpl obind. rewrite Z.sub_0_r in *.
  destruct ok; cbn [negb]; [|eexists _, _, _, _; split; [done|]; split; [done|]; intros He Hp; by destruct (S2 He Hp)].
  destruct (S1 eq_refl) as (d & src & -> & Hsp & Hsl).
  destruct (account_grow x (set_direct d (set_pi (xf_pi x ++ src) x)) len Hc ltac:(lia) eq_refl) as (ok & y & -> & A1 & A2).
  eexists _, _, _, _. split; [done|]. split; [|intros He Hp Hb; split; [by apply A2|by apply S2]].
  intros Hok. exists d, src. split; [|done]. rewrite (A1 Hok). unfold grow. by rewrite zlen_app, Hsl.
Qed.

(** ** One entry *)
Section Emit.
Context (lz4c : list Z -> Z -> Z -> option (list Z)) (lz4 : list Z -> Z -> option (list Z)) (Hlz : lz4_contract lz4c lz4).
Context (auto : bool) (cbs acc : Z) (compress : bool).
Context (Hcbs : cbs = 0 \/ PAGE_SIZE <= cbs < (MAX_BLOCK_PAGES + 1) * PAGE_SIZE).
Context (ls : list (list pagemap_entry)).
Abbreviation T := (loc_transport lz4c auto cbs acc compress).

(** A range of whole pages, relative to the transfer's offset. *)
Record range_pages (iov : iovec) : Prop := RangePages {
  rp_base : 0 <= iov_base iov /\ aligned (iov_base iov);
  rp_len : 0 < iov_len iov /\ aligned (iov_len iov);
  rp_end : iov_base iov + iov_len iov < 2 ^ 64
}.

Lemma range_nr iov : range_pages iov ->
  iov_len iov = iov_len iov / PAGE_SIZE * PAGE_SIZE /\ 0 < iov_len iov / PAGE_SIZE /\ aligned (iov_base iov + iov_len iov).
Proof.
  intros [[B1 B2] [L1 L2] E]. unfold aligned, PAGE_SIZE in *. pose proof (Z.div_mod (iov_len iov) 4096 ltac:(lia)) as Hd.
  split; [lia|]. split; [lia|]. rewrite Z.add_mod, B2, L2 by lia. done.
Qed.

(** Entries without pages: holes and lazy pages that are not transferred. *)
Lemma absent_entry iov flags : range_pages iov -> flags = PE_PARENT \/ flags = PE_LAZY ->
  let pe := new_entry (iov_base iov) (iov_len iov / PAGE_SIZE) flags None in
  entry_ok pe /\ (forall off, entry_stop pe off = off) /\ entry_end pe = iov_base iov + iov_len iov /\
  pagemap_in_parent pe = (flags =? PE_PARENT).
Proof.
  intros Hr Hf pe. destruct (range_nr iov Hr) as (H1 & H2 & _). destruct Hr as [[B1 B2] [L1 L2] E].
  assert (Hnp : pagemap_present pe = false /\ pagemap_payload_aligned pe = false /\ pagemap_in_parent pe = (flags =? PE_PARENT)).
  { unfold pe, pagemap_present, pagemap_payload_aligned, pagemap_in_parent, new_entry. cbn [pe_flags]. by destruct Hf as [-> | ->]. }
  destruct Hnp as (N1 & N2 & N3).
  assert (He : entry_end pe = iov_base iov + iov_len iov) by (unfold entry_end; cbn [pe_vaddr pe_nr_pages pe new_entry]; lia).
  split_and!; try done.
  - split; [by rewrite N2|]. split; [by rewrite N1|]. cbn [pe_vaddr pe_nr_pages pe_blocks pe new_entry]. split_and!; try done. by rewrite He.
  - intros off. unfold entry_stop, entry_start, entry_payload. rewrite N1. simpl. lia.
Qed.

(** The pagemap has an entry for the range, with these flags. *)
Definition noted (x : page_xfer) (base len flags : Z) : Prop :=
  exists pe, pe ∈ xf_pmi x /\ pe_vaddr pe = base /\ pe_nr_pages pe = len / PAGE_SIZE /\ pe_flags pe = flags.

Lemma emit_absent e x iov flags pipe cur : xfer_ok ls cur x -> cur <= iov_base iov -> range_pages iov ->
  flags = PE_PARENT \/ flags = PE_LAZY -> zlen (xf_pi x) <= OFF_MAX ->
  exists ok x' e', write_pagemap auto cbs compress e x iov flags = Ret (ok, x', e') /\
    write_segment T e x pipe iov flags = Ret (ok, x', pipe, e') /\
    (ok = true -> xfer_ok ls (iov_base iov + iov_len iov) x' /\ xstep 1 x x' /\ xf_pi x' = xf_pi x /\
       noted x' (iov_base iov) (iov_len iov) flags) /\
    (xenv_ok e -> (flags = PE_PARENT -> forall l, head ls = Some l ->
       forall v, v ∈ pages_between (iov_base iov) (iov_base iov + iov_len iov) -> has_page l v) -> ok = true /\ xenv_ok e').
Proof.
  intros Hx Hcur Hr Hf Hmax. destruct (absent_entry iov flags Hr Hf) as (E1 & E2 & E3 & E4). cbv zeta in *.
  set (pe := new_entry (iov_base iov) (iov_len iov / PAGE_SIZE) flags None) in *.
  destruct (range_nr iov Hr) as (_ & _ & Hae). pose proof Hr as [[B1 B2] [L1 L2] Een]. pose proof Hx as [X1 X2 X3 X4 X5].
  assert (Hps : Forall2 (dedup_ok (iov_base iov)) ls (xf_parent x)) by (eapply chain_mono; [|exact X5]; lia).
  assert (Hchk : exists ok x1, (if negb (Z.land flags PE_PARENT =? 0) then check_hole x iov else Ret (true, x)) = Ret (ok, x1) /\
    (ok = true -> exists ps, x1 = set_parent ps x /\ Forall2 (dedup_ok (iov_base iov + iov_len iov)) ls ps) /\
    ((flags = PE_PARENT -> forall l, head ls = Some l ->
       forall v, v ∈ pages_between (iov_base iov) (iov_base iov + iov_len iov) -> has_page l v) -> ok = true)).
  { destruct Hf as [-> | ->]; cbn [Z.land Z.eqb negb].
    - destruct (check_hole_ok ls x iov Hps B2 Hae B1 L1 Een) as (ok & x1 & Hrun & A & B). exists ok, x1.
      split; [exact Hrun|]. split; [done|]. intros Hh. apply B. by apply Hh.
    - exists true, x. split; [done|]. split; [|done]. intros _. exists (xf_parent x). split; [by destruct x|].
      eapply chain_mono; [|exact Hps]. lia. }
  destruct Hchk as (ok1 & x1 & Hrun1 & A1 & A2).
  assert (Hnp : (Z.land flags PE_PRESENT =? 0) = true) by (by destruct Hf as [-> | ->]).
  assert (Hwp : write_pagemap auto cbs compress e x iov flags =
    if ok1 then Ret (pb_write_pagemap e x1 pe) else Ret (false, x1, e)).
  { unfold write_pagemap, write_pagemap_loc_compressed, write_pagemap_loc. rewrite Hnp. cbn [negb].
    destruct compress; [rewrite Hrun1; by destruct ok1|].
    destruct (negb (Z.land flags PE_PARENT =? 0)); [rewrite Hrun1; by destruct ok1|by injection Hrun1 as <- <-]. }
  unfold write_segment. loc_fields. rewrite Hwp, Hnp. destruct ok1.
  2:{ eexists false, x1, e. split; [done|]. split; [done|]. split; [done|]. intros _ Hh. specialize (A2 Hh). done. }
  destruct (A1 eq_refl) as (ps & -> & Hps2). destruct (pb_write_ok e (set_parent ps x) pe) as (ok & x' & e' & Hpb & P1 & P2).
  rewrite Hpb. simpl. exists ok, x', e'. split; [done|]. split; [by destruct ok|]. split; [|by intros He _; apply P2].
  intros ->. rewrite (P1 eq_refl). cbn. split; [|split; [|split; [done|]]].
  - rewrite <- E3. eapply (xfer_ok_entry ls cur x _ pe []); cbn; rewrite ?app_nil_r; try done.
    by rewrite E3.
  - split; [done|]. exists [pe], []. by rewrite app_nil_r.
  - exists pe. split; [apply elem_of_app; right; by apply list_elem_of_singleton|done].
Qed.

Definition block_pages : Z := if negb (cbs =? 0) then cbs / PAGE_SIZE else 1.

Lemma block_pages_range : 1 <= block_pages <= MAX_BLOCK_PAGES.
Proof.
  unfold block_pages. destruct (Z.eqb_spec cbs 0); cbn [negb]; [rewrite MAX_BLOCK_PAGES_eq; lia|].
  destruct Hcbs as [|[H1 H2]]; [done|]. split.
  - apply Z.div_le_lower_bound; unfold PAGE_SIZE in *; lia.
  - assert (cbs / PAGE_SIZE < MAX_BLOCK_PAGES + 1) by (apply Z.div_lt_upper_bound; unfold PAGE_SIZE in *; lia). lia.
Qed.

(** The entry that describes all the blocks [dn], and what it finds. *)
Lemma blocks_entry x1 vaddr nr ppb flags data dn pad fl st x :
  1 <= ppb <= MAX_BLOCK_PAGES -> 0 < nr -> zlen data = nr * PAGE_SIZE -> zlen (xf_pi x1) + nr * PAGE_SIZE + PAGE_SIZE < 2 ^ 64 ->
  flags = PE_PRESENT \/ flags = Z.lor PE_PRESENT PE_LAZY -> vaddr mod PAGE_SIZE = 0 -> 0 <= vaddr -> vaddr + nr * PAGE_SIZE < 2 ^ 64 ->
  blocks_inv lz4 x1 vaddr nr ppb flags data dn pad fl st x -> zlen dn = block_nr_blocks nr ppb ->
  let pe := new_entry vaddr nr fl (stored_blocks ppb dn (all_raw_from 0 nr ppb (fst <$> dn))) in
  entry_ok pe /\ pagemap_in_parent pe = false /\ pagemap_present pe = true /\ zlen (xf_pi x) = entry_stop pe (zlen (xf_pi x1)) /\
  (forall k l, 0 <= k < nr -> pages_end 0 l = zlen (xf_pi x1) ->
     src_bytes lz4 (xf_pi x) (entry_src (l ++ [pe]) (length l) pe k) = Some (page_of data k)).
Proof.
  intros Hppb Hnr Hdata H64 Hfl Hva Hv0 Hv1 Hinv Hfull pe. set (raw := all_raw_from 0 nr ppb (fst <$> dn)) in *.
  destruct (entry_flags lz4 x1 vaddr nr ppb flags data Hfl dn pad fl st x Hinv raw) as (F1 & F2 & F3).
  destruct (entry_payload_size lz4 x1 vaddr nr ppb flags data Hppb Hnr H64 Hfl Hv0 Hv1 dn pad fl st x Hinv Hfull raw) as (_ & Hsz); [done|].
  fold pe in F1, F2, F3, Hsz. split_and!; try done.
  - by apply (entry_is_ok lz4 x1 vaddr nr ppb flags data Hppb Hnr H64 Hfl Hva Hv0 Hv1 dn pad fl st x Hinv Hfull).
  - rewrite Hsz. unfold entry_stop. by rewrite F3.
  - intros k l Hk Hl. rewrite <- (app_nil_r (xf_pi x)). unfold entry_src.
    rewrite payload_start_snoc, Hl, F3. cbn [pe_blocks pe new_entry]. unfold stored_blocks.
    destruct raw eqn:Er.
    + by apply (raw_entry_pages lz4 x1 vaddr nr ppb flags data Hppb Hnr H64 Hfl Hva Hv0 Hv1 dn pad fl st x Hinv Hfull).
    + by apply (packed_entry_pages lz4 x1 vaddr nr ppb flags data Hppb Hnr H64 Hfl Hva Hv0 Hv1 dn pad fl st x Hinv Hfull).
Qed.

(** The compressed entry goes out complete. *)
Lemma flush_ok e x1 nr vaddr flags data dn pad fl st x :
  let ppb := block_pages in
  0 < nr -> zlen data = nr * PAGE_SIZE -> zlen (xf_pi x1) + nr * PAGE_SIZE + PAGE_SIZE < 2 ^ 64 ->
  flags = PE_PRESENT \/ flags = Z.lor PE_PRESENT PE_LAZY -> vaddr mod PAGE_SIZE = 0 -> 0 <= vaddr -> vaddr + nr * PAGE_SIZE < 2 ^ 64 ->
  blocks_inv lz4 x1 vaddr nr ppb flags data dn pad fl st x -> zlen dn = block_nr_blocks nr ppb ->
  exists ok x' e', flush_pending e x = (ok, x', e') /\ (xenv_ok e -> ok = true /\ xenv_ok e') /\
    (ok = true -> exists pe p', x' = set_pending p' (set_pmi (xf_pmi x1 ++ [pe]) (grow (pad ++ concat (snd <$> dn)) x1)) /\
      entry_ok pe /\ pe_vaddr pe = vaddr /\ pe_nr_pages pe = nr /\ pagemap_in_parent pe = false /\ pagemap_present pe = true /\
      zlen (xf_pi x') = entry_stop pe (zlen (xf_pi x1)) /\
      (forall k l, 0 <= k < nr -> pages_end 0 l = zlen (xf_pi x1) ->
         src_bytes lz4 (xf_pi x') (entry_src (l ++ [pe]) (length l) pe k) = Some (page_of data k))).
Proof.
  intros ppb Hnr Hdata H64 Hfl Hva Hv0 Hv1 Hinv Hfull. pose proof block_pages_range as Hppb. fold ppb in Hppb.
  pose proof (bi_state _ _ _ _ _ _ _ _ _ _ _ _ Hinv) as Hx. unfold flush_pending.
  assert (Hp : pp_n_compressed (pending x) = zlen dn /\ bl_nr_blocks (pp_layout (pending x)) = block_nr_blocks nr ppb /\
    pp_vaddr (pending x) = vaddr /\ pp_nr_pages (pending x) = nr /\ pp_eflags (pending x) = fl /\
    bl_total_bytes (pp_layout (pending x)) = zsum (fst <$> dn) /\ bl_pages_per_block (pp_layout (pending x)) = ppb /\
    take (Z.to_nat (block_nr_blocks nr ppb)) (bl_sizes (pp_layout (pending x))) = fst <$> dn).
  { rewrite Hx. cbn. split_and!; try done. unfold zlen in Hfull.
    replace (Z.to_nat (block_nr_blocks nr ppb)) with (length (fst <$> dn)) by (rewrite length_fmap; lia). apply take_app_length. }
  destruct Hp as (P1 & P2 & P3 & P4 & P5 & P6 & P7 & P8). unfold pending_entry_is_all_raw.
  rewrite P1, P2, P3, P4, P5, P6, P7, P8, Hfull, Z.eqb_refl.
  set (raw := all_raw_from 0 nr ppb (fst <$> dn)).
  change (if raw then None else Some (PagemapBlocks (fst <$> dn) (zsum (fst <$> dn)) ppb)) with (stored_blocks ppb dn raw).
  set (pe := new_entry vaddr nr fl (stored_blocks ppb dn raw)).
  destruct (pb_write_ok e x pe) as (ok & x' & e' & -> & W1 & W2). destruct ok; cbn [negb].
  2:{ eexists _, _, _. split; [done|]. split; [|done]. intros He. by destruct (W2 He). }
  eexists _, _, _. split; [done|]. split; [done|]. intros _. rewrite (W1 eq_refl).
  destruct (blocks_entry x1 vaddr nr ppb flags data dn pad fl st x Hppb Hnr Hdata H64 Hfl Hva Hv0 Hv1 Hinv Hfull) as (F1 & F2 & F3 & F4 & F5).
  eexists pe, _. split; [rewrite Hx; reflexivity|]. split_and!; try done.
Qed.

(** The pages [data] of the range are in the images. *)
Definition dumped (x : page_xfer) (base : Z) (data : list Z) : Prop :=
  forall ps k, 0 <= k < zlen data / PAGE_SIZE ->
    page_content lz4 ((xf_pmi x, xf_pi x) :: ps) (base + k * PAGE_SIZE) (page_of data k).

(** The common end of both paths: one entry [pe] and its payload. *)
Lemma emitted cur x x' iov data pe g ps : xfer_ok ls cur x -> cur <= iov_base iov -> range_pages iov -> zlen data = iov_len iov ->
  xf_offset x' = xf_offset x /\ transfer_lazy x' = transfer_lazy x ->
  xf_pmi x' = xf_pmi x ++ [pe] -> xf_pi x' = xf_pi x ++ g -> counted x' -> xf_parent x' = ps ->
  Forall2 (dedup_ok (iov_base iov + iov_len iov)) ls ps ->
  entry_ok pe -> pe_vaddr pe = iov_base iov -> pe_nr_pages pe = iov_len iov / PAGE_SIZE ->
  pagemap_in_parent pe = false -> pagemap_present pe = true ->
  zlen (xf_pi x') = entry_stop pe (zlen (xf_pi x)) -> zlen (xf_pi x') <= OFF_MAX ->
  (forall k l, 0 <= k < pe_nr_pages pe -> pages_end 0 l = zlen (xf_pi x) ->
     src_bytes lz4 (xf_pi x') (entry_src (l ++ [pe]) (length l) pe k) = Some (page_of data k)) ->
  xfer_ok ls (iov_base iov + iov_len iov) x' /\ xstep 1 x x' /\ dumped x' (iov_base iov) data.
Proof.
  intros Hx Hcur Hr Hd Hset Hm Hg Hc Hp Hps Hpe Hv Hn Hin Hpr Hz Hmax Hsrc. destruct (range_nr iov Hr) as (H1 & _ & _).
  assert (Hend : entry_end pe = iov_base iov + iov_len iov) by (unfold entry_end; rewrite Hv, Hn; lia).
  split; [|split].
  - rewrite <- Hend. eapply (xfer_ok_entry ls cur x x' pe g); try done; [lia|]. by rewrite Hp, Hend.
  - split; [done|]. by exists [pe], g.
  - intros qs k Hk. rewrite <- Hv, Hm. apply (content_here _ _ _ _ (length (xf_pmi x)) pe k); try done.
    + by rewrite lookup_app_r, Nat.sub_diag by lia.
    + rewrite Hn. by rewrite Hd in Hk.
    + apply Hsrc; [rewrite Hn; by rewrite Hd in Hk|]. apply (xo_end _ _ _ Hx).
Qed.

Lemma emit_packed e x iov flags data rest cur : xfer_ok ls cur x -> cur <= iov_base iov -> range_pages iov ->
  flags = PE_PRESENT \/ flags = Z.lor PE_PRESENT PE_LAZY -> zlen data = iov_len iov ->
  zlen (xf_pi x) + iov_len iov + PAGE_SIZE <= OFF_MAX -> compress = true ->
  exists ok x' pipe' e', write_segment T e x (data ++ rest) iov flags = Ret (ok, x', pipe', e') /\
    (ok = true -> pipe' = rest /\ xfer_ok ls (iov_base iov + iov_len iov) x' /\ xstep 1 x x' /\ dumped x' (iov_base iov) data /\
       zlen (xf_pi x') <= zlen (xf_pi x) + iov_len iov + PAGE_SIZE) /\
    (xenv_ok e -> ok = true /\ xenv_ok e').
Proof.
  intros Hx Hcur Hr Hf Hd Hmax ->. destruct (range_nr iov Hr) as (N1 & N2 & Hae). pose proof Hr as [[B1 B2] [L1 L2] Een].
  pose proof Hx as [X1 X2 X3 X4 X5].
  assert (Hps : Forall2 (dedup_ok (iov_base iov)) ls (xf_parent x)) by (eapply chain_mono; [|exact X5]; lia).
  unfold write_segment. loc_fields. unfold write_pagemap, write_pagemap_loc_compressed.
  assert (Hfl : (Z.land flags PE_PRESENT =? 0) = false) by (by destruct Hf as [-> | ->]). rewrite Hfl. cbn [negb].
  destruct (dedup_parent_ok ls auto e x (iov_base iov) (iov_len iov) Hps B2 Hae B1 L1 Een) as (ok & x1 & e1 & -> & A1 & A2). simpl obind.
  destruct ok; cbn [negb]; [|simpl; eexists _, _, _, _; split; [done|]; split; [done|]; intros He; by destruct (A2 He)].
  destruct (A1 eq_refl) as (ps & -> & Hps1). clear A1. fold block_pages. pose proof block_pages_range as Hbp.
  rewrite Z.gtb_ltb. destruct (Z.eqb_spec block_pages 0); [lia|]. destruct (Z.ltb_spec MAX_BLOCK_PAGES block_pages); [lia|]. cbn [orb].
  destruct (xe_alloc e1) as [ok e2] eqn:Eal. pose proof (xe_alloc_ok _ _ _ Eal) as A3.
  destruct ok; cbn [negb]; [|simpl; eexists _, _, _, _; split; [done|]; split; [done|]; intros He; by destruct (A3 (proj2 (A2 He)))].
  simpl obind. cbn [negb]. unfold write_pages, write_pages_loc_compressed.
  set (nr := iov_len iov / PAGE_SIZE) in *. set (x1 := set_parent ps x).
  set (x2 := set_pending (with_started false _) _).
  assert (Hpi2 : xf_pi x1 = xf_pi x) by done.
  assert (H64 : zlen (xf_pi x1) + nr * PAGE_SIZE + PAGE_SIZE < 2 ^ 64) by (rewrite Hpi2, <- N1; unfold OFF_MAX in Hmax; lia).
  assert (Hinv : blocks_inv lz4 x1 (iov_base iov) nr block_pages flags data [] [] flags false x2).
  { split; try done; [|split; [done|]|by left].
    - change (concat (snd <$> [])) with (@nil Z). rewrite grow_nil by done. unfold x2. cbn [fmap list_fmap app length].
      by rewrite Nat.sub_0_r.
    - unfold pages_in_blocks. change (zlen []) with 0. rewrite Z.mul_0_l, Z.min_l by lia. done. }
  change (pp_nr_pages (pending x2)) with nr. rewrite Z.gtb_ltb, Z.ltb_irrefl.
  destruct (xe_alloc e2) as [ok_src e3] eqn:Es. pose proof (xe_alloc_ok _ _ _ Es) as A4.
  destruct (if force_raw x2 then (true, e3) else xe_alloc e3) as [ok_dst e4] eqn:Edst.
  assert (A5 : xenv_ok e3 -> ok_dst = true /\ xenv_ok e4).
  { destruct (force_raw x2); [by injection Edst as <- <-|]. by apply xe_alloc_ok. }
  assert (Hev : xenv_ok e -> ok_src = true /\ ok_dst = true /\ xenv_ok e4).
  { intros He. destruct (A4 (proj2 (A3 (proj2 (A2 He))))) as [-> Hs3]. by destruct (A5 Hs3). }
  destruct (ok_src && ok_dst) eqn:Eok; cbn [negb].
  2:{ simpl; eexists _, _, _, _; split; [done|]; split; [done|]; intros He. destruct (Hev He) as (-> & -> & _). done. }
  change (pp_n_compressed (pending x2)) with 0. rewrite Z.mul_0_l. change (u64 0) with 0.
  destruct (write_blocks_ok lz4c lz4 Hlz acc x1 (iov_base iov) nr block_pages flags data Hbp N2 ltac:(lia) H64 rest
    (S (Z.to_nat nr)) e4 x2 (data ++ rest) [] [] flags false Hinv) as (ok & x3 & pipe3 & e5 & Hrun & W1 & W2).
  { change (zlen []) with 0. destruct (nb_bounds x1 nr block_pages Hbp N2 H64). lia. }
  { unfold pages_in_blocks. change (zlen []) with 0. rewrite Z.mul_0_l, Z.min_l by lia. done. }
  { change (zlen []) with 0. destruct (nb_bounds x1 nr block_pages Hbp N2 H64) as [[Hb1 _] _]. nia. }
  assert (Hq0 : pages_in_blocks nr block_pages (zlen (@nil (Z * list Z))) = 0).
  { unfold pages_in_blocks. change (zlen []) with 0. lia. }
  rewrite Hq0, Z.mul_0_l in Hrun. rewrite N1. fold nr. rewrite Hrun. simpl obind. clear Hrun.
  destruct ok; cbn [negb]; [|simpl; eexists _, _, _, _; split; [done|]; split; [done|]; intros He; by destruct (W2 (proj2 (proj2 (Hev He))))].
  destruct (W1 eq_refl) as (-> & dn & pad & fl & st & Hinv3 & Hfull).
  destruct (flush_ok e5 x1 nr (iov_base iov) flags data dn pad fl st x3 N2 ltac:(lia) H64 Hf B2 B1 ltac:(lia) Hinv3 Hfull)
    as (ok & x' & e6 & -> & F1 & F2).
  exists ok, x', rest, e6. split; [done|]. split; [|by intros He; apply F1, W2, Hev].
  intros Hok. destruct (F2 Hok) as (pe & p' & -> & G1 & G2 & G3 & G4 & G5 & G6 & G7). split; [done|].
  assert (Hsz : zlen (pad ++ concat (snd <$> dn)) <= nr * PAGE_SIZE + PAGE_SIZE).
  { rewrite zlen_app. destruct (bi_size _ _ _ _ _ _ _ _ _ _ _ _ Hinv3) as [-> Hs].
    unfold pages_in_blocks in Hs. destruct (bi_pad _ _ _ _ _ _ _ _ _ _ _ _ Hinv3) as [[_ ->]|(_ & _ & Hp)];
      unfold zlen in *; unfold PAGE_SIZE in *; simpl in *; lia. }
  destruct (emitted cur x (set_pending p' (set_pmi (xf_pmi x1 ++ [pe]) (grow (pad ++ concat (snd <$> dn)) x1))) iov data pe
    (pad ++ concat (snd <$> dn)) ps) as (E1 & E2 & E3); try done.
  - cbn. rewrite zlen_app. lia.
  - intros k l Hk Hl. apply G7; [lia|done].
  - rewrite <- N1. split_and!; try done. cbn. rewrite zlen_app. lia.
Qed.

Lemma plain_entry iov flags : range_pages iov -> flags = PE_PRESENT \/ flags = Z.lor PE_PRESENT PE_LAZY ->
  let pe := new_entry (iov_base iov) (iov_len iov / PAGE_SIZE) flags None in
  entry_ok pe /\ pagemap_in_parent pe = false /\ pagemap_present pe = true /\ (forall off, entry_start pe off = off) /\
  entry_payload pe = iov_len iov.
Proof.
  intros Hr Hf pe. destruct (range_nr iov Hr) as (H1 & H2 & _). destruct Hr as [[B1 B2] [L1 L2] E].
  assert (Hnp : pagemap_present pe = true /\ pagemap_payload_aligned pe = false /\ pagemap_in_parent pe = false).
  { unfold pe, pagemap_present, pagemap_payload_aligned, pagemap_in_parent, new_entry. cbn [pe_flags]. by destruct Hf as [-> | ->]. }
  destruct Hnp as (N1 & N2 & N3). split_and!; try done.
  - split; [by rewrite N2|]. split; [done|]. cbn [pe_vaddr pe_nr_pages pe_blocks pe new_entry]. split_and!; try done.
    unfold entry_end. cbn [pe_vaddr pe_nr_pages pe new_entry]. lia.
  - intros off. unfold entry_start. by rewrite N2, andb_false_r.
  - unfold entry_payload. rewrite N1. cbn [pe_blocks pe new_entry pe_nr_pages]. lia.
Qed.

Definition range_entry (iov : iovec) (flags : Z) : pagemap_entry :=
  new_entry (iov_base iov) (iov_len iov / PAGE_SIZE) flags None.

(** The entry of pages stored as they are. *)
Lemma write_pagemap_loc_present e x iov flags cur : xfer_ok ls cur x -> cur <= iov_base iov -> range_pages iov ->
  flags = PE_PRESENT \/ flags = Z.lor PE_PRESENT PE_LAZY ->
  exists ok x' e', write_pagemap_loc auto e x iov flags = Ret (ok, x', e') /\
    (ok = true -> exists ps, x' = set_pmi (xf_pmi x ++ [range_entry iov flags]) (set_parent ps x) /\
       Forall2 (dedup_ok (iov_base iov + iov_len iov)) ls ps) /\
    (xenv_ok e -> ok = true /\ xenv_ok e').
Proof.
  intros Hx Hcur Hr Hf. destruct (range_nr iov Hr) as (N1 & N2 & Hae). pose proof Hr as [[B1 B2] [L1 L2] Een].
  assert (Hps : Forall2 (dedup_ok (iov_base iov)) ls (xf_parent x)) by (eapply chain_mono; [|exact (xo_parent _ _ _ Hx)]; lia).
  unfold write_pagemap_loc. fold (range_entry iov flags). set (pe := range_entry iov flags).
  assert (Hfl : (Z.land flags PE_PRESENT =? 0) = false) by (by destruct Hf as [-> | ->]). rewrite Hfl. cbn [negb].
  assert (Hlen : pagemap_len pe = iov_len iov).
  { unfold pagemap_len. cbn [pe_nr_pages pe range_entry new_entry]. rewrite <- N1. apply u64_small. lia. }
  change (pe_vaddr pe) with (iov_base iov). rewrite Hlen.
  destruct (dedup_parent_ok ls auto e x (iov_base iov) (iov_len iov) Hps B2 Hae B1 L1 Een) as (ok & x1 & e1 & -> & A1 & A2). simpl obind.
  destruct ok; cbn [negb]; [|simpl; eexists _, _, _; split; [done|]; split; [done|]; intros He; by destruct (A2 He)].
  destruct (A1 eq_refl) as (ps & -> & Hps1). clear A1.
  destruct (pb_write_ok e1 (set_parent ps x) pe) as (ok & x2 & e2 & -> & W1 & W2).
  exists ok, x2, e2. split; [done|]. split; [|by intros He; apply W2, A2]. intros Hok. exists ps. by rewrite (W1 Hok).
Qed.

(** The entry with its payload behind it. *)
Lemma plain_emitted x ps d iov flags data cur : xfer_ok ls cur x -> cur <= iov_base iov -> range_pages iov ->
  flags = PE_PRESENT \/ flags = Z.lor PE_PRESENT PE_LAZY -> zlen data = iov_len iov ->
  zlen (xf_pi x) + iov_len iov + PAGE_SIZE <= OFF_MAX -> Forall2 (dedup_ok (iov_base iov + iov_len iov)) ls ps ->
  let x' := set_direct d (grow data (set_pmi (xf_pmi x ++ [range_entry iov flags]) (set_parent ps x))) in
  xfer_ok ls (iov_base iov + iov_len iov) x' /\ xstep 1 x x' /\ dumped x' (iov_base iov) data /\
  zlen (xf_pi x') <= zlen (xf_pi x) + iov_len iov + PAGE_SIZE.
Proof.
  intros Hx Hcur Hr Hf Hd Hmax Hps x'. destruct (range_nr iov Hr) as (N1 & N2 & Hae). pose proof Hr as [[B1 B2] [L1 L2] Een].
  destruct (plain_entry iov flags Hr Hf) as (P1 & P2 & P3 & P4 & P5). cbv zeta in *. fold (range_entry iov flags) in *.
  set (pe := range_entry iov flags) in *. pose proof (zlen_nonneg (xf_pi x)) as H0.
  assert (Hz : zlen (xf_pi x') = zlen (xf_pi x) + iov_len iov) by (cbn; rewrite zlen_app; lia).
  destruct (emitted cur x x' iov data pe data ps) as (E1 & E2 & E3); try done.
  - rewrite Hz. unfold entry_stop. by rewrite P4, P5.
  - rewrite Hz. unfold OFF_MAX, PAGE_SIZE in *. lia.
  - intros k l Hk Hl. unfold entry_src. cbn [pe_blocks pe range_entry new_entry]. rewrite payload_start_snoc, P4, Hl.
    cbn [src_bytes]. unfold slice, page_of. cbn [pe_nr_pages pe range_entry new_entry] in Hk. cbn [xf_pi x' set_direct grow set_pio set_pi set_pmi set_parent].
    destruct (Z.leb_spec 0 (zlen (xf_pi x) + k * PAGE_SIZE)); [|unfold PAGE_SIZE in *; lia].
    rewrite zlen_app. destruct (Z.leb_spec (zlen (xf_pi x) + k * PAGE_SIZE + PAGE_SIZE) (zlen (xf_pi x) + zlen data)); [|unfold PAGE_SIZE in *; lia].
    cbn [andb]. do 2 f_equal. unfold zlen, PAGE_SIZE in *. rewrite drop_app_ge by lia. f_equal. lia.
  - split_and!; try done. unfold PAGE_SIZE. lia.
Qed.

Lemma emit_plain e x iov flags data rest cur : xfer_ok ls cur x -> cur <= iov_base iov -> range_pages iov ->
  flags = PE_PRESENT \/ flags = Z.lor PE_PRESENT PE_LAZY -> zlen data = iov_len iov ->
  zlen (xf_pi x) + iov_len iov + PAGE_SIZE <= OFF_MAX -> compress = false ->
  exists ok x' pipe' e', write_segment T e x (data ++ rest) iov flags = Ret (ok, x', pipe', e') /\
    (ok = true -> pipe' = rest /\ xfer_ok ls (iov_base iov + iov_len iov) x' /\ xstep 1 x x' /\ dumped x' (iov_base iov) data /\
       zlen (xf_pi x') <= zlen (xf_pi x) + iov_len iov + PAGE_SIZE) /\
    (xenv_ok e -> ok = true /\ xenv_ok e').
Proof.
  intros Hx Hcur Hr Hf Hd Hmax ->. pose proof (proj1 (rp_len _ Hr)) as L1. unfold write_segment. loc_fields. unfold write_pagemap, write_pages.
  assert (Hfl : (Z.land flags PE_PRESENT =? 0) = false) by (by destruct Hf as [-> | ->]). rewrite Hfl. cbn [negb].
  destruct (write_pagemap_loc_present e x iov flags cur Hx Hcur Hr Hf) as (ok & x1 & e1 & -> & A1 & A2). simpl obind.
  destruct ok; cbn [negb]; [|simpl; eexists _, _, _, _; split; [done|]; split; [done|]; intros He; by destruct (A2 He)].
  destruct (A1 eq_refl) as (ps & -> & Hps).
  destruct (write_pages_loc_gen e1 (set_pmi (xf_pmi x ++ [range_entry iov flags]) (set_parent ps x)) (data ++ rest) (iov_len iov))
    as (ok & x3 & pipe3 & e3 & -> & S1 & S2); [apply (xo_counted _ _ _ Hx)|lia|].
  assert (Hpl : iov_len iov <= zlen (data ++ rest)) by (rewrite zlen_app, Hd; pose proof (zlen_nonneg rest); lia).
  eexists _, _, _, _. split; [done|]. split; [|intros He; apply S2; [by apply A2|done|cbn; unfold OFF_MAX, PAGE_SIZE in Hmax; lia]].
  intros Hok. destruct (S1 Hok) as (d & src & -> & Hsp & Hsl).
  apply app_inj_1 in Hsp as [<- ->]; [|unfold zlen in *; lia]. split; [done|]. by apply (plain_emitted x ps d iov flags data cur).
Qed.

Lemma emit_present e x iov flags data rest cur : xfer_ok ls cur x -> cur <= iov_base iov -> range_pages iov ->
  flags = PE_PRESENT \/ flags = Z.lor PE_PRESENT PE_LAZY -> zlen data = iov_len iov ->
  zlen (xf_pi x) + iov_len iov + PAGE_SIZE <= OFF_MAX ->
  exists ok x' pipe' e', write_segment T e x (data ++ rest) iov flags = Ret (ok, x', pipe', e') /\
    (ok = true -> pipe' = rest /\ xfer_ok ls (iov_base iov + iov_len iov) x' /\ xstep 1 x x' /\ dumped x' (iov_base iov) data /\
       zlen (xf_pi x') <= zlen (xf_pi x) + iov_len iov + PAGE_SIZE) /\
    (xenv_ok e -> ok = true /\ xenv_ok e').
Proof.
  intros Hx Hcur Hr Hf Hd Hmax. assert (Hc : compress = true \/ compress = false) by (destruct compress; auto).
  destruct Hc as [Hc|Hc]; [by apply (emit_packed e x iov flags data rest cur)|by apply (emit_plain e x iov flags data rest cur)].
Qed.

(** ** The loops *)
Definition iov_end (iov : iovec) : Z := iov_base iov + iov_len iov.
Definition shifted (off : Z) (iov : iovec) : iovec := Iovec (iov_base iov - off) (iov_len iov).

(** In ascending order from [cur] on, without overlap. *)
Fixpoint ascending (cur : Z) (l : list iovec) : Prop :=
  match l with [] => True | iov :: l => cur <= iov_base iov /\ ascending (iov_end iov) l end.

Definition hole_ok (off : Z) (h : iovec * Z) : Prop := range_pages (shifted off (fst h)) /\ snd h = PP_HOLE_PARENT.

(** The parent has the pages of the hole. *)
Definition hole_backed (off : Z) (h : iovec * Z) : Prop :=
  forall l, head ls = Some l -> forall v,
    v ∈ pages_between (iov_base (fst h) - off) (iov_base (fst h) - off + iov_len (fst h)) -> has_page l v.

Definition hole_noted (x : page_xfer) (h : iovec * Z) : Prop :=
  noted x (iov_base (fst h) - xf_offset x) (iov_len (fst h)) PE_PARENT.

Lemma noted_grows n x x' base len flags : xstep n x x' -> noted x base len flags -> noted x' base len flags.
Proof. intros [_ (m & g & Hm & _)] (pe & H1 & H2). exists pe. split; [|done]. rewrite Hm. apply elem_of_app. by left. Qed.

Lemma hole_noted_grows n x x' h : xstep n x x' -> hole_noted x h -> hole_noted x' h.
Proof. intros Hs. unfold hole_noted. rewrite (proj1 (xs_settings _ _ _ Hs)). by eapply noted_grows. Qed.

Lemma dumped_grows cur n x x' base data : xfer_ok ls cur x -> xstep n x x' -> dumped x base data -> dumped x' base data.
Proof. intros Hx Hs Hd ps k Hk. eapply xstep_content; [done|done|by apply Hd]. Qed.

Lemma holes_above off v holes : forall q, ascending q (fst <$> holes) -> Forall (hole_ok off) holes -> v <= q ->
  Forall (fun h => v <= iov_base (fst h)) holes.
Proof.
  induction holes as [|h holes IH]; intros q Ha Hok Hv; [apply Forall_nil_2|].
  apply Forall_cons_1 in Hok as [[[_ [L _] _] _] Hok]. destruct Ha as [Ha1 Ha2]. simpl in *.
  apply Forall_cons_2; [lia|]. apply (IH _ Ha2 Hok). unfold iov_end. lia.
Qed.

(** What [dump_holes] did with [dn], up to [cur']. *)
Record holes_post (cur : Z) (x : page_xfer) (holes : list (iovec * Z)) (limit : option Z)
    (x' : page_xfer) (rest : list (iovec * Z)) (dn : list (iovec * Z)) (cur' : Z) : Prop := HolesPost {
  hp_split : holes = dn ++ rest;
  hp_cur : cur <= cur';
  hp_ok : xfer_ok ls cur' x';
  hp_step : xstep (length dn) x x';
  hp_pi : xf_pi x' = xf_pi x;
  hp_noted : Forall (hole_noted x') dn;
  hp_rest : ascending (cur' + xf_offset x) (fst <$> rest);
  hp_limit : match limit with
             | Some v => (cur + xf_offset x <= v -> cur' + xf_offset x <= v) /\ Forall (fun h => v <= iov_base (fst h)) rest
             | None => rest = []
             end;
  hp_bound : forall B, cur + xf_offset x <= B -> Forall (fun h => iov_end (fst h) <= B) holes -> cur' + xf_offset x <= B
}.

Lemma dump_holes_ok limit holes : forall e x cur, xfer_ok ls cur x -> zlen (xf_pi x) <= OFF_MAX ->
  ascending (cur + xf_offset x) (fst <$> holes) -> Forall (hole_ok (xf_offset x)) holes ->
  (forall v, limit = Some v -> 0 < v /\ Forall (fun h => iov_end (fst h) <= v \/ v <= iov_base (fst h)) holes) ->
  exists ok x' rest e', dump_holes T e x holes limit = Ret (ok, x', rest, e') /\
    (ok = true -> exists dn cur', holes_post cur x holes limit x' rest dn cur') /\
    (xenv_ok e -> Forall (hole_backed (xf_offset x)) holes -> ok = true /\ xenv_ok e').
Proof.
  induction holes as [|[h fl] holes IH]; intros e x cur Hx Hmax Hasc Hok Hlim; cbn [dump_holes].
  { eexists _, _, _, _. split; [done|]. split; [|done]. intros _. exists [], cur.
    split; try done; [apply xstep_refl|destruct limit; by try split]. }
  apply Forall_cons_1 in Hok as [[Hr Hfl] Hok]. destruct Hasc as [Hcur Hasc]. simpl in Hr, Hfl, Hcur, Hasc. subst fl.
  pose proof Hr as [[B1 B2] [L1 L2] B3]. cbn [shifted iov_base iov_len] in *.
  destruct (match limit with Some v => _ | None => _ end) eqn:Estop.
  { destruct limit as [v|]; [|done]. destruct (Hlim v eq_refl) as [Hv Hsep]. apply andb_prop in Estop as [_ Hge].
    rewrite Z.geb_leb in Hge. apply Z.leb_le in Hge. eexists _, _, _, _. split; [done|]. split; [|done].
    intros _. exists [], cur. split; try done; [apply xstep_refl|]. split; [done|]. apply Forall_cons_2; [done|].
    apply (holes_above (xf_offset x) v _ _ Hasc Hok). unfold iov_end. lia. }
  change (get_hole_flags PP_HOLE_PARENT) with (Ret PE_PARENT). simpl obind. unfold page_xfer_dump_hole. loc_fields.
  destruct (Z.ltb_spec (iov_base h) (xf_offset x)); [lia|].
  destruct (emit_absent e x (shifted (xf_offset x) h) PE_PARENT [] cur) as (ok & x1 & e1 & Hrun & _ & A1 & A2);
    try done; [simpl; lia|by left|].
  unfold shifted in Hrun. rewrite Hrun. simpl obind. clear Hrun. cbn [shifted iov_base iov_len] in *. destruct ok; cbn [negb].
  2:{ eexists _, _, _, _. split; [done|]. split; [done|]. intros He Hb. apply Forall_cons_1 in Hb as [Hb _].
      destruct (A2 He (fun _ => Hb)). done. }
  destruct (A1 eq_refl) as (X1 & S1 & P1 & N1). destruct (xs_settings _ _ _ S1) as [Eoff _].
  replace (iov_base h - xf_offset x + iov_len h) with (iov_end h - xf_offset x) in X1 by (unfold iov_end; lia).
  destruct (IH e1 x1 (iov_end h - xf_offset x)) as (ok & x2 & rest & e2 & -> & B4 & B5); try done.
  { by rewrite P1. }
  { rewrite Eoff. by replace (iov_end h - xf_offset x + xf_offset x) with (iov_end h) by lia. }
  { by rewrite Eoff. }
  { intros v Hv. destruct (Hlim v Hv) as [Hv0 Hf]. by apply Forall_cons_1 in Hf as [_ Hf]. }
  eexists _, _, _, _. split; [done|]. split.
  2:{ intros He Hb. apply Forall_cons_1 in Hb as [Hb Hbs]. destruct (A2 He (fun _ => Hb)). rewrite Eoff in B5. by apply B5. }
  intros Hdone. destruct (B4 Hdone) as (dn & cur' & [Q1 Q2 Q3 Q4 Q5 Q6 Q7 Q8 Q9]). rewrite Eoff in *.
  exists ((h, PP_HOLE_PARENT) :: dn), cur'. split; try done.
  - simpl. by rewrite Q1.
  - unfold iov_end in Q2. lia.
  - by apply (xstep_trans 1 _ _ _ _ S1 Q4).
  - by rewrite Q5.
  - apply Forall_cons_2; [|done]. apply (hole_noted_grows _ _ _ _ Q4). unfold hole_noted. by rewrite Eoff.
  - destruct limit as [v|]; [|done]. destruct Q8 as [Q8 Q10]. split; [|done]. intros _. apply Q8.
    destruct (Hlim v eq_refl) as [Hv0 Hf]. apply Forall_cons_1 in Hf as [Hf _]. simpl in Hf.
    destruct (Z.eqb_spec v 0); [lia|]. cbn [negb andb] in Estop. rewrite Z.geb_leb in Estop. apply Z.leb_gt in Estop. lia.
  - intros B _ HB. apply Forall_cons_1 in HB as [HB1 HB2]. apply Q9; [simpl in HB1; lia|done].
Qed.

(** *** Segments, each with the bytes its pages have *)
Definition transferred (lazy : bool) (bflags : Z) : bool := (Z.land bflags PPB_LAZY =? 0) || lazy.

Definition seg_ok (off : Z) (lazy : bool) (sd : segment * list Z) : Prop :=
  let '(iov, bflags, p, d) := sd in
  range_pages (shifted off iov) /\ 0 < iov_base iov /\ 0 <= p /\
  (transferred lazy bflags = true -> zlen d = iov_len iov).

(** What is in the images for a segment: its pages, or the note that they are lazy. *)
Definition seg_stored (x : page_xfer) (sd : segment * list Z) : Prop :=
  let '(iov, bflags, p, d) := sd in
  if transferred (transfer_lazy x) bflags then dumped x (iov_base iov - xf_offset x) d
  else noted x (iov_base iov - xf_offset x) (iov_len iov) PE_LAZY.

(** The bytes the segments take out of pipe [p]. *)
Definition pipe_data (lazy : bool) (p : Z) (sds : list (segment * list Z)) : list Z :=
  concat ((fun sd : segment * list Z => let '(iov, bflags, q, d) := sd in
             if transferred lazy bflags && (p =? q) then d else []) <$> sds).

Definition seg_iov (sd : segment * list Z) : iovec := fst (fst (fst sd)).
Definition segs_size (sds : list (segment * list Z)) : Z := zsum ((fun sd => iov_len (seg_iov sd) + PAGE_SIZE) <$> sds).

Lemma xfer_flags x bflags : ppb_xfer_flags T x bflags =
  if transferred (transfer_lazy x) bflags then (if Z.land bflags PPB_LAZY =? 0 then PE_PRESENT else Z.lor PE_PRESENT PE_LAZY) else PE_LAZY.
Proof. unfold ppb_xfer_flags, transferred. loc_fields. by destruct (Z.land bflags PPB_LAZY =? 0), (transfer_lazy x). Qed.

Lemma pipe_get_put pipes p q r : 0 <= p < zlen pipes -> pipe_get (pipe_put pipes p r) q = if q =? p then r else pipe_get pipes q.
Proof.
  intros Hp. unfold pipe_get, pipe_put, zlookup. destruct (Z.ltb_spec q 0) as [|Hq]; [destruct (Z.eqb_spec q p); [lia|done]|].
  destruct (Z.eqb_spec q p) as [->|Hne].
  - rewrite list_lookup_insert_eq; [done|]. unfold zlen in Hp. lia.
  - rewrite list_lookup_insert_ne; [done|lia].
Qed.

Lemma pipe_put_same pipes p : 0 <= p -> pipe_put pipes p (pipe_get pipes p) = pipes.
Proof.
  intros Hp. unfold pipe_get, pipe_put, zlookup. destruct (Z.ltb_spec p 0); [lia|].
  destruct (pipes !! Z.to_nat p) as [l|] eqn:E; [by apply list_insert_id|].
  apply list_insert_ge. by apply lookup_ge_None.
Qed.

(** Dumping one segment takes its bytes off its pipe and leaves the others. *)
Lemma pipes_advance lazy pipes iov bflags q d rest sds : 0 <= q -> transferred lazy bflags = true ->
  0 < zlen d -> pipe_get pipes q = d ++ rest ->
  forall p r, pipe_get pipes p = pipe_data lazy p ((iov, bflags, q, d) :: sds) ++ r ->
  pipe_get (pipe_put pipes q rest) p = pipe_data lazy p sds ++ r.
Proof.
  intros Hq Ht Hd Hg p r Hpre.
  assert (Hin : 0 <= q < zlen pipes).
  { split; [done|]. unfold pipe_get, zlookup in Hg. destruct (Z.ltb_spec q 0); [lia|].
    destruct (pipes !! Z.to_nat q) as [l|] eqn:E; [apply lookup_lt_Some in E; unfold zlen; lia|].
    destruct d; [unfold zlen in Hd; simpl in Hd; lia|done]. }
  rewrite (pipe_get_put _ _ _ _ Hin). unfold pipe_data in Hpre |- *. cbn [fmap list_fmap concat] in Hpre.
  rewrite Ht in Hpre. cbn [andb] in Hpre. destruct (p =? q) eqn:Epq; [|exact Hpre]. apply Z.eqb_eq in Epq. subst p.
  rewrite Hg, <- app_assoc in Hpre. by apply app_inv_head in Hpre.
Qed.

Lemma pipe_data_skip lazy p iov bflags q d sds : transferred lazy bflags = false ->
  pipe_data lazy p ((iov, bflags, q, d) :: sds) = pipe_data lazy p sds.
Proof. intros Ht. unfold pipe_data. cbn [fmap list_fmap concat]. by rewrite Ht. Qed.

(** Segments and holes do not overlap. *)
Definition apart (a b : iovec) : Prop := iov_end a <= iov_base b \/ iov_end b <= iov_base a.

Record dump_ready (off : Z) (lazy : bool) (cur : Z) (sds : list (segment * list Z)) (holes : list (iovec * Z)) : Prop := DumpReady {
  dr_segs : Forall (seg_ok off lazy) sds;
  dr_holes : Forall (hole_ok off) holes;
  dr_segs_asc : ascending (cur + off) (seg_iov <$> sds);
  dr_holes_asc : ascending (cur + off) (fst <$> holes);
  dr_apart : Forall (fun sd => Forall (fun h => apart (seg_iov sd) (fst h)) holes) sds
}.

Lemma seg_stored_grows cur n x x' sd : xfer_ok ls cur x -> xstep n x x' -> seg_stored x sd -> seg_stored x' sd.
Proof.
  intros Hx Hs. destruct sd as [[[iov bflags] p] d]. unfold seg_stored. destruct (xs_settings _ _ _ Hs) as [-> ->].
  destruct (transferred _ _); [by eapply dumped_grows|by eapply noted_grows].
Qed.

Lemma ascending_raise q q' l : ascending q l -> (forall iov, iov ∈ l -> q' <= iov_base iov) -> ascending q' l.
Proof. destruct l as [|iov l]; [done|]. intros [_ H] Hq. split; [|done]. apply Hq, list_elem_of_here. Qed.

(** The entry of one segment, with its pages or without. *)
Lemma write_segment_ok e x pipes iov bflags q d sds cur : let lazy := transfer_lazy x in
  xfer_ok ls cur x -> cur + xf_offset x <= iov_base iov -> seg_ok (xf_offset x) lazy (iov, bflags, q, d) ->
  (forall p, pipe_data lazy p ((iov, bflags, q, d) :: sds) `prefix_of` pipe_get pipes p) ->
  zlen (xf_pi x) + iov_len iov + PAGE_SIZE <= OFF_MAX ->
  exists ok x' rest e', write_segment T e x (pipe_get pipes q) (shifted (xf_offset x) iov) (ppb_xfer_flags T x bflags)
      = Ret (ok, x', rest, e') /\
    (ok = true -> xfer_ok ls (iov_end iov - xf_offset x) x' /\ xstep 1 x x' /\ seg_stored x' (iov, bflags, q, d) /\
       zlen (xf_pi x') <= zlen (xf_pi x) + iov_len iov + PAGE_SIZE /\
       forall p r, pipe_get pipes p = pipe_data lazy p ((iov, bflags, q, d) :: sds) ++ r ->
         pipe_get (pipe_put pipes q rest) p = pipe_data lazy p sds ++ r) /\
    (xenv_ok e -> ok = true /\ xenv_ok e').
Proof.
  intros lazy Hx Hcur (Hr & Hb & Hq & Hd) Hpre Hmax. rewrite xfer_flags. fold lazy.
  pose proof (rp_len _ Hr) as [L1 _]. cbn [shifted iov_len] in L1.
  replace (iov_end iov - xf_offset x) with (iov_base iov - xf_offset x + iov_len iov) by (unfold iov_end; lia).
  unfold seg_stored. destruct (transferred lazy bflags) eqn:Ht.
  - assert (Hg : exists rest, pipe_get pipes q = d ++ rest).
    { destruct (Hpre q) as [r Hr0]. unfold pipe_data in Hr0. cbn [fmap list_fmap concat] in Hr0.
      rewrite Ht, Z.eqb_refl in Hr0. cbn [andb] in Hr0. rewrite <- app_assoc in Hr0. eauto. }
    destruct Hg as [rest Hg]. specialize (Hd eq_refl). rewrite Hg.
    destruct (emit_present e x (shifted (xf_offset x) iov) (if Z.land bflags PPB_LAZY =? 0 then PE_PRESENT else Z.lor PE_PRESENT PE_LAZY)
      d rest cur) as (ok & x' & pipe' & e' & Hrun & A1 & A2); try done; [simpl; lia|destruct (_ =? 0); auto|].
    eexists _, _, _, _. split; [exact Hrun|]. split; [|done]. intros Hok. destruct (A1 Hok) as (-> & B1 & B2 & B3 & B4).
    destruct (xs_settings _ _ _ B2) as [-> ->]. fold lazy. rewrite Ht. split_and!; try done.
    apply (pipes_advance lazy pipes iov bflags q d rest sds); try done. lia.
  - destruct (emit_absent e x (shifted (xf_offset x) iov) PE_LAZY (pipe_get pipes q) cur) as (ok & x' & e' & _ & Hrun & A1 & A2);
      try done; [simpl; lia|by right|unfold PAGE_SIZE in *; lia|].
    eexists _, _, _, _. split; [exact Hrun|]. split; [|by intros He; apply A2].
    intros Hok. destruct (A1 Hok) as (B1 & B2 & B3 & B4). destruct (xs_settings _ _ _ B2) as [-> ->]. fold lazy. rewrite Ht.
    split_and!; try done; [rewrite B3; unfold PAGE_SIZE; lia|]. intros p r. rewrite pipe_put_same by done.
    by rewrite (pipe_data_skip lazy p iov bflags q d).
Qed.

(** What [dump_segments] leaves for the last [dump_holes]. *)
Record segs_post (cur : Z) (x : page_xfer) (sds : list (segment * list Z)) (holes : list (iovec * Z))
    (x' : page_xfer) (rest dn : list (iovec * Z)) (cur' : Z) : Prop := SegsPost {
  gp_split : holes = dn ++ rest;
  gp_cur : cur <= cur';
  gp_ok : xfer_ok ls cur' x';
  gp_step : xstep (length sds + length dn) x x';
  gp_size : zlen (xf_pi x') <= zlen (xf_pi x) + segs_size sds;
  gp_stored : Forall (seg_stored x') sds;
  gp_noted : Forall (hole_noted x') dn;
  gp_rest : ascending (cur' + xf_offset x) (fst <$> rest);
  gp_bound : forall B, cur + xf_offset x <= B -> Forall (fun sd => iov_end (seg_iov sd) <= B) sds ->
    Forall (fun h => iov_end (fst h) <= B) holes -> cur' + xf_offset x <= B
}.

(** The holes in front of a segment, then the segment: what is left is again ready. *)
Lemma dump_ready_step off lazy cur cur' sd sds dn rest :
  dump_ready off lazy cur (sd :: sds) (dn ++ rest) ->
  ascending (cur' + off) (fst <$> rest) -> Forall (fun h => iov_base (seg_iov sd) <= iov_base (fst h)) rest ->
  dump_ready off lazy (iov_end (seg_iov sd) - off) sds rest.
Proof.
  intros [D1 D2 D3 D4 D5] Hasc Hge. apply Forall_cons_1 in D1 as [D1 D1'], D5 as [D5 D5'].
  apply Forall_app in D2 as [_ D2], D5 as [_ D5]. destruct D3 as [D3 D3'].
  replace (iov_end (seg_iov sd) - off + off) with (iov_end (seg_iov sd)) in * by lia.
  split; replace (iov_end (seg_iov sd) - off + off) with (iov_end (seg_iov sd)) by lia; try done.
  - eapply ascending_raise; [exact Hasc|]. intros iov (h & -> & Hh)%list_elem_of_fmap_1.
    rewrite Forall_forall in D2, D5, Hge. specialize (D2 h Hh). specialize (D5 h Hh). specialize (Hge h Hh).
    destruct D2 as [[_ [Lh _] _] _]. cbn [shifted iov_len] in Lh. unfold apart, iov_end in *. lia.
  - eapply Forall_impl; [exact D5'|]. intros sd' Hsd. simpl in Hsd. by apply Forall_app in Hsd as [_ Hsd].
Qed.

Lemma set_force_raw_ok b cur x : xfer_ok ls cur x -> xfer_ok ls cur (set_force_raw b x) /\ xstep 0 x (set_force_raw b x).
Proof. intros [X1 X2 X3 X4 X5]. split; [by split|]. split; [done|]. exists [], []. by rewrite !app_nil_r. Qed.

Lemma segs_size_nonneg off lazy sds : Forall (seg_ok off lazy) sds -> 0 <= segs_size sds.
Proof.
  intros Hs. apply zsum_nonneg, Forall_fmap. eapply Forall_impl; [exact Hs|].
  intros [[[iov b] q] d] ([_ [L _] _] & _). cbn in *. unfold PAGE_SIZE. lia.
Qed.

Lemma dump_segments_ok sds : forall e x pipes holes cur, xfer_ok ls cur x ->
  dump_ready (xf_offset x) (transfer_lazy x) cur sds holes ->
  (forall p, pipe_data (transfer_lazy x) p sds `prefix_of` pipe_get pipes p) -> zlen (xf_pi x) + segs_size sds <= OFF_MAX ->
  exists ok x' pipes' rest e', dump_segments T e x pipes (fst <$> sds) holes = Ret (ok, x', pipes', rest, e') /\
    (ok = true -> (exists dn cur', segs_post cur x sds holes x' rest dn cur') /\
       forall p r, pipe_get pipes p = pipe_data (transfer_lazy x) p sds ++ r -> pipe_get pipes' p = r) /\
    (xenv_ok e -> Forall (hole_backed (xf_offset x)) holes -> ok = true /\ xenv_ok e').
Proof.
  induction sds as [|[[[iov bflags] q] d] sds IH]; intros e x pipes holes cur Hx Hrdy Hpre Hmax.
  { eexists _, _, _, _, _. split; [done|]. split; [|done]. intros _. split; [|done]. exists [], cur.
    split; try done; [apply xstep_refl|unfold segs_size, zsum; simpl; lia|apply (dr_holes_asc _ _ _ _ _ Hrdy)]. }
  cbn [fmap list_fmap fst dump_segments]. loc_fields. pose proof Hrdy as [D1 D2 D3 D4 D5].
  apply Forall_cons_1 in D1 as [D1 _], D5 as [D5 _]. destruct D3 as [Hcur _]. cbn [seg_iov fst] in Hcur, D5.
  pose proof D1 as ([[B1 _] [L1 _] _] & Hb & _). cbn [shifted iov_base iov_len] in B1, L1.
  assert (Hmax' : zlen (xf_pi x) + (iov_len iov + PAGE_SIZE + segs_size sds) <= OFF_MAX) by exact Hmax. clear Hmax.
  assert (Hsz0 : 0 <= segs_size sds).
  { apply (segs_size_nonneg (xf_offset x) (transfer_lazy x)). pose proof (dr_segs _ _ _ _ _ Hrdy) as Hs. by apply Forall_cons_1 in Hs as [_ Hs]. }
  destruct (dump_holes_ok (Some (iov_base iov)) holes e x cur) as (ok & x1 & rest & e1 & -> & A1 & A2); try done.
  { unfold PAGE_SIZE in *. lia. }
  { intros v [= <-]. split; [done|]. eapply Forall_impl; [exact D5|]. intros h Hh. unfold apart, iov_end in *. lia. }
  simpl obind. destruct ok; cbn [negb]; [|eexists _, _, _, _, _; split; [done|]; split; [done|]; intros He Hk; by destruct (A2 He Hk)].
  destruct (A1 eq_refl) as (dn & cur1 & [P1 P2 P3 P4 P5 P6 P7 [P8 P9] P10]). destruct (xs_settings _ _ _ P4) as [Eo El].
  rewrite Eo. destruct (Z.ltb_spec (iov_base iov) (xf_offset x)); [lia|].
  set (x2 := set_force_raw (negb (Z.land bflags PPB_FORCE_RAW =? 0)) x1).
  destruct (set_force_raw_ok (negb (Z.land bflags PPB_FORCE_RAW =? 0)) cur1 x1 P3) as [X2 S2]. fold x2 in X2, S2.
  destruct (write_segment_ok e1 x2 pipes iov bflags q d sds cur1) as (ok & x3 & prest & e3 & Hrun & W1 & W2);
    change (xf_offset x2) with (xf_offset x1) in *; change (transfer_lazy x2) with (transfer_lazy x1) in *;
    change (xf_pi x2) with (xf_pi x1) in *; rewrite ?Eo, ?El in *; try done; [by apply P8|rewrite P5; lia|].
  change (ppb_xfer_flags T x1 bflags) with (ppb_xfer_flags T x2 bflags). unfold shifted in Hrun. rewrite Hrun. simpl obind. clear Hrun.
  destruct ok; cbn [negb]; [|eexists _, _, _, _, _; split; [done|]; split; [done|]; intros He Hk; by destruct (W2 (proj2 (A2 He Hk)))].
  destruct (W1 eq_refl) as (X3 & S3 & T3 & Z3 & Q3). destruct (xs_settings _ _ _ S3) as [Eo3 El3].
  change (xf_offset x2) with (xf_offset x1) in Eo3. change (transfer_lazy x2) with (transfer_lazy x1) in El3. rewrite Eo in Eo3. rewrite El in El3.
  rewrite P1 in Hrdy. pose proof (dump_ready_step _ _ _ _ _ _ _ _ Hrdy P7 P9) as Hrdy'. cbn [seg_iov fst] in Hrdy'.
  destruct (IH e3 x3 (pipe_put pipes q prest) rest (iov_end iov - xf_offset x)) as (ok & x4 & pipes4 & rest4 & e4 & -> & B4 & C4);
    rewrite ?Eo3, ?El3; try done; [|rewrite P5 in Z3; lia|].
  { intros p. destruct (Hpre p) as [r Hr]. rewrite (Q3 p r Hr). by exists r. }
  eexists _, _, _, _, _. split; [done|]. split.
  2:{ intros He Hk. rewrite Eo3 in C4. rewrite P1 in Hk. apply Forall_app in Hk as [Hk1 Hk2]. apply C4; [|done].
      apply W2, A2; [done|]. rewrite P1. by apply Forall_app. }
  intros Hok. destruct (B4 Hok) as [(dn4 & cur4 & [Y1 Y0 Y2 Y3 Y4 Y5 Y6 Y7 Y8]) Y9]. rewrite El3 in Y9.
  split; [|intros p r Hr; by apply Y9, Q3]. exists (dn ++ dn4), cur4.
  pose proof (xstep_trans _ _ _ _ _ S2 S3) as S23. pose proof (xstep_trans _ _ _ _ _ S23 Y3) as S24.
  pose proof (xstep_trans _ _ _ _ _ P4 S24) as S14. rewrite Eo3 in Y7, Y8. split; try done.
  - by rewrite P1, Y1, app_assoc.
  - specialize (P8 Hcur). unfold iov_end in Y0. lia.
  - rewrite length_app. cbn [length]. by replace (S (length sds) + (length dn + length dn4))%nat
      with (length dn + (0 + 1 + (length sds + length dn4)))%nat by lia.
  - change (segs_size ((iov, bflags, q, d) :: sds)) with (iov_len iov + PAGE_SIZE + segs_size sds). rewrite P5 in Z3. lia.
  - apply Forall_cons_2; [|done]. exact (seg_stored_grows _ _ _ _ _ X3 Y3 T3).
  - apply Forall_app. split; [|done]. eapply Forall_impl; [exact P6|]. intros h. by apply (hole_noted_grows _ _ _ _ S24).
  - intros B _ HB1 HB2. apply Forall_cons_1 in HB1 as [HB1 HB3]. rewrite P1 in HB2. apply Forall_app in HB2 as [_ HB2].
    apply Y8; [cbn [seg_iov fst] in HB1; lia|done|done].
Qed.

(** All that is known of the images and the pipes afterwards. *)
Lemma page_xfer_dump_pages_full e x pipes pp sds cur :
  pp_segments pp = fst <$> sds -> xfer_ok ls cur x -> dump_ready (xf_offset x) (transfer_lazy x) cur sds (pp_holes pp) ->
  (forall p, pipe_data (transfer_lazy x) p sds `prefix_of` pipe_get pipes p) -> zlen (xf_pi x) + segs_size sds <= OFF_MAX ->
  exists ok x' pipes' e', page_xfer_dump_pages T e x pipes pp = Ret (ok, x', pipes', e') /\
    (ok = true -> (exists cur', xfer_ok ls cur' x' /\ cur <= cur' /\ forall B, cur + xf_offset x <= B -> Forall (fun sd => iov_end (seg_iov sd) <= B) sds ->
         Forall (fun h => iov_end (fst h) <= B) (pp_holes pp) -> cur' + xf_offset x <= B) /\
       xstep (length sds + length (pp_holes pp)) x x' /\ zlen (xf_pi x') <= zlen (xf_pi x) + segs_size sds /\
       Forall (seg_stored x') sds /\ Forall (hole_noted x') (pp_holes pp) /\
       forall p r, pipe_get pipes p = pipe_data (transfer_lazy x) p sds ++ r -> pipe_get pipes' p = r) /\
    (xenv_ok e -> Forall (hole_backed (xf_offset x)) (pp_holes pp) -> ok = true /\ xenv_ok e').
Proof.
  intros Hsegs Hx Hrdy Hpre Hmax. unfold page_xfer_dump_pages. rewrite Hsegs.
  destruct (dump_segments_ok sds e x pipes (pp_holes pp) cur Hx Hrdy Hpre Hmax) as (ok & x1 & pipes1 & rest & e1 & -> & A1 & A2).
  simpl obind. destruct ok; cbn [negb]; [|eexists _, _, _, _; split; [done|]; split; [done|]; intros He Hk; by destruct (A2 He Hk)].
  destruct (A1 eq_refl) as [(dn & cur1 & [P1 P0 P2 P3 P4 P5 P6 P7 P8]) P9]. destruct (xs_settings _ _ _ P3) as [Eo _].
  pose proof (dr_holes _ _ _ _ _ Hrdy) as Hok. rewrite P1 in Hok. apply Forall_app in Hok as [_ Hok].
  destruct (dump_holes_ok None rest e1 x1 cur1) as (ok & x2 & rest2 & e2 & -> & B1 & B2); rewrite ?Eo; try done; [lia|].
  simpl obind. eexists _, _, _, _. split; [done|]. split.
  - intros Hd. destruct (B1 Hd) as (dn2 & cur2 & [Q1 Q2 Q3 Q4 Q5 Q6 Q7 Q8 Q9]). simpl in Q8. subst rest2. rewrite app_nil_r in Q1. subst dn2.
    rewrite Eo in Q9. split; [exists cur2; split; [done|]; split; [lia|]; intros B HB1 HB2 HB3; apply Q9; [by apply P8|rewrite P1 in HB3; by apply Forall_app in HB3 as [_ HB3]]|].
    rewrite P1, length_app, Nat.add_assoc. split; [exact (xstep_trans _ _ _ _ _ P3 Q4)|]. split; [by rewrite Q5|]. split; [|split; [|done]].
    + eapply Forall_impl; [exact P5|]. intros sd. exact (seg_stored_grows _ _ _ _ _ P2 Q4).
    + apply Forall_app. split; [|done]. eapply Forall_impl; [exact P6|]. intros h. exact (hole_noted_grows _ _ _ _ Q4).
  - intros He Hk. rewrite Eo in B2. apply B2; [by apply A2|]. rewrite P1 in Hk. by apply Forall_app in Hk as [_ Hk].
Qed.

Lemma page_xfer_dump_pages_spec e x pipes pp sds cur :
  pp_segments pp = fst <$> sds -> xfer_ok ls cur x -> dump_ready (xf_offset x) (transfer_lazy x) cur sds (pp_holes pp) ->
  (forall p, pipe_data (transfer_lazy x) p sds `prefix_of` pipe_get pipes p) -> zlen (xf_pi x) + segs_size sds <= OFF_MAX ->
  exists ok x' pipes' e', page_xfer_dump_pages T e x pipes pp = Ret (ok, x', pipes', e') /\
    (ok = true -> (exists cur', xfer_ok ls cur' x') /\ xstep (length sds + length (pp_holes pp)) x x' /\
       Forall (seg_stored x') sds /\ Forall (hole_noted x') (pp_holes pp)) /\
    (xenv_ok e -> Forall (hole_backed (xf_offset x)) (pp_holes pp) -> ok = true /\ xenv_ok e').
Proof.
  intros H1 H2 H3 H4 H5. destruct (page_xfer_dump_pages_full e x pipes pp sds cur H1 H2 H3 H4 H5) as (ok & x' & pipes' & e' & E & A & B).
  exists ok, x', pipes', e'. split; [done|]. split; [|done]. intros Hok. destruct (A Hok) as ((cur' & C & _) & D1 & _ & D2 & D3 & _).
  split; [by exists cur'|done].
Qed.

(** C24. Writing a page pipe into local images.  Let the segments and holes of
    the pipe be whole pages in ascending order, apart from each other and not
    below what the images hold, and the pipes hold the bytes of the segments
    that are transferred, in order.  Then [page_xfer_dump_pages] always
    returns and trips no [BUG_ON()], whether it compresses or not and whatever
    the system calls answer.  If it succeeds, the pagemap written is again
    well formed and agrees with the pages image; it has one new entry per
    segment and per hole and what was stored before is unchanged; every page
    of a transferred segment is stored with exactly its bytes, every lazy
    segment that is not transferred has a lazy entry, every hole an entry that
    defers to the parent.  It succeeds if no system call fails and the parent
    has the pages of the holes. *)
Theorem page_xfer_dump_pages_correct e x pipes pp sds cur :
  pp_segments pp = fst <$> sds -> xfer_ok ls cur x -> dump_ready (xf_offset x) (transfer_lazy x) cur sds (pp_holes pp) ->
  (forall p, pipe_data (transfer_lazy x) p sds `prefix_of` pipe_get pipes p) -> zlen (xf_pi x) + segs_size sds <= OFF_MAX ->
  exists ok x' pipes' e', page_xfer_dump_pages T e x pipes pp = Ret (ok, x', pipes', e') /\
    (ok = true -> (exists cur', xfer_ok ls cur' x') /\ xstep (length sds + length (pp_holes pp)) x x' /\
       Forall (seg_stored x') sds /\ Forall (hole_noted x') (pp_holes pp)) /\
    (xenv_ok e -> Forall (hole_backed (xf_offset x)) (pp_holes pp) -> ok = true /\ xenv_ok e').
Proof. apply page_xfer_dump_pages_spec. Qed.
End Emit.

(** ** Example: two raw segments sharing a pipe, a lazy one between them, a hole *)
Definition sample_source : page_pipe :=
  let '(_, pp, _) := page_pipe_add_hole [] sample_filled 0x3000 PP_HOLE_PARENT in pp.
Definition sample_xfer : page_xfer :=
  PageXfer 0 false false false 0 [] [] [DedupReader sample_base []] (PendingPe 0 0 0 (PageBlockLayout [] 0 0 0) 0 false).
Definition sample_low : list Z := replicate 8192 7.
Definition sample_high : list Z := replicate 4096 9.
Definition sample_segments : list (segment * list Z) :=
  [(Iovec 0x1000 8192, 0, 0, sample_low); (Iovec 0x5000 4096, PPB_LAZY, 1, []); (Iovec 0x6000 4096, 0, 0, sample_high)].

Lemma sample_source_segments : pp_segments sample_source = fst <$> sample_segments /\ pp_holes sample_source = [(Iovec 0x3000 4096, PP_HOLE_PARENT)].
Proof. split; vm_compute; reflexivity. Qed.

Lemma sample_xfer_ok : xfer_ok [sample_base_es] 0 sample_xfer.
Proof. split; try done. constructor; [|constructor]. by apply sample_base_dedup_ok. Qed.

Lemma sample_dump_ready : dump_ready 0 false 0 sample_segments (pp_holes sample_source).
Proof.
  rewrite (proj2 sample_source_segments). unfold sample_segments.
  assert (R : forall b n, 0 <= b -> b mod 4096 = 0 -> 0 < n -> n mod 4096 = 0 -> b + n < 2 ^ 64 -> range_pages (shifted 0 (Iovec b n))).
  { intros b n H1 H2 H3 H4 H5. split; simpl; unfold aligned, PAGE_SIZE; rewrite ?Z.sub_0_r; auto. }
  split.
  - repeat (apply Forall_cons_2; [split_and!; try (by apply R); try done|]); [..|apply Forall_nil_2];
      intros _; unfold zlen, sample_low, sample_high; by rewrite length_replicate.
  - apply Forall_cons_2; [|apply Forall_nil_2]. split; [by apply R|done].
  - simpl. unfold iov_end. simpl. lia.
  - simpl. unfold iov_end. simpl. lia.
  - repeat (apply Forall_cons_2; [apply Forall_cons_2; [|apply Forall_nil_2]; unfold apart, iov_end; simpl; lia|]). apply Forall_nil_2.
Qed.

Lemma sample_prefix p : pipe_data false p sample_segments `prefix_of` pipe_get [sample_low ++ sample_high; []] p.
Proof.
  unfold pipe_data, sample_segments. cbn [fmap list_fmap]. change (transferred false 0) with true.
  change (transferred false PPB_LAZY) with false. cbn [andb]. unfold pipe_get.
  destruct (Z.eqb_spec p 0) as [->|]; cbn [concat app]; [|apply prefix_nil]. rewrite app_nil_r. done.
Qed.

Lemma sample_hole_backed : Forall (hole_backed [sample_base_es] 0) (pp_holes sample_source).
Proof.
  rewrite (proj2 sample_source_segments). apply Forall_cons_2; [|apply Forall_nil_2].
    intros l [= <-] v Hv. apply elem_pages_between in Hv as [Hv1 Hv2]; [|done|done]. change (0x3000 <= v < 0x4000) in Hv1.
    replace v with 0x3000 by (unfold aligned, PAGE_SIZE in Hv2; pose proof (Z.div_mod v 4096); lia).
    exists (PagemapEntry 0x3000 2 false false true PE_PRESENT true 2 None). split; [apply list_elem_of_here|].
    unfold in_entry, entry_end, PAGE_SIZE. simpl. lia.
Qed.

Lemma page_xfer_dump_pages_correct_witness :
  exists x' pipes' e', page_xfer_dump_pages (loc_transport sample_compressor true 0 0 true) (XEnv [] [] [] [] [] [] []) sample_xfer
      [sample_low ++ sample_high; []] sample_source = Ret (true, x', pipes', e') /\
    Forall (seg_stored sample_codec x') sample_segments /\ length (xf_pmi x') = 4%nat.
Proof.
  destruct (page_xfer_dump_pages_correct sample_compressor sample_codec sample_codec_contract true 0 0 true
    ltac:(by left) [sample_base_es] (XEnv [] [] [] [] [] [] []) sample_xfer [sample_low ++ sample_high; []] sample_source
    sample_segments 0 (proj1 sample_source_segments) sample_xfer_ok sample_dump_ready sample_prefix ltac:(vm_compute; discriminate))
    as (ok & x' & pipes' & e' & Hrun & H1 & H2).
  destruct H2 as [-> _]; [done| |].
  { exact sample_hole_backed. }
  exists x', pipes', e'. split; [exact Hrun|]. destruct (H1 eq_refl) as (_ & [_ (m & g & -> & _ & Hl)] & H3 & _).
  split; [exact H3|]. rewrite (proj2 sample_source_segments) in Hl. exact Hl.
Defined.
