(* ===== verification/PageServer.v ===== *)
(** The page server: criu/page-xfer.c, the wire format, the client side that a
    dump writes to and the server that stores what it receives.

    A socket is the list of the bytes still to be received and the list of the
    bytes sent.  recv() takes its answers from [x_reads], send() from
    [x_writes], splice() and tee() from [x_splices], pipe() and poll() from
    [x_fcntls] of [xenv].  Integers travel in the byte order of x86.  The
    image directory of the server and its parent are the argument [img_dir].
    Not modelled: TLS, TCP options and connecting. *)
From stdpp Require Import gmap.
From S2P Require Import Prelude PagemapImage PageRead Dedup AsyncQueue ReadPages ChainRead ParentWalk PagePipe Compress PageXfer.

(** ** The wire format *)
Definition PS_IOV_ADD : Z := 1.
Definition PS_IOV_HOLE : Z := 2.
Definition PS_IOV_OPEN : Z := 3.
Definition PS_IOV_OPEN2 : Z := 4.
Definition PS_IOV_PARENT : Z := 5.
Definition PS_IOV_ADD_F : Z := 6.
Definition PS_IOV_GET : Z := 7.
Definition PS_IOV_ADD_F_COMPRESSED : Z := 8.
Definition PS_IOV_CLOSE : Z := 0x1023.
Definition PS_IOV_FORCE_CLOSE : Z := 0x1024.

Definition PS_CMD_BITS : Z := 16.
Definition PS_CMD_MASK : Z := Z.shiftl 1 PS_CMD_BITS - 1.
Definition PS_TYPE_BITS : Z := 8.
Definition PS_TYPE_MASK : Z := Z.shiftl 1 PS_TYPE_BITS - 1.
Definition PS_TYPE_PID : Z := 1.
Definition PS_TYPE_SHMEM : Z := 2.

(** The two of the image types that matter here, criu/include/image-desc.h. *)
Definition CR_FD_PAGEMAP : Z := 9.
Definition CR_FD_SHMEM_PAGEMAP : Z := 35.

Record page_server_iov := PsIov {
  pi_cmd : Z;
  pi_nr_pages : Z;
  pi_vaddr : Z;
  pi_dst_id : Z
}.

Definition psi2iovec (ps : page_server_iov) : iovec := Iovec (pi_vaddr ps) (u64 (pi_nr_pages ps * PAGE_SIZE)).

Definition encode_pm (type id : Z) : outcome Z :=
  if type =? CR_FD_PAGEMAP then Ret (Z.lor (u64 (Z.shiftl id PS_TYPE_BITS)) PS_TYPE_PID)
  else if type =? CR_FD_SHMEM_PAGEMAP then Ret (Z.lor (u64 (Z.shiftl id PS_TYPE_BITS)) PS_TYPE_SHMEM)
  else Bug.

(** [None] is -1: an unknown type. *)
Definition decode_pm (dst_id : Z) : option (Z * Z) :=
  let type := Z.land dst_id PS_TYPE_MASK in
  let id := Z.shiftr dst_id PS_TYPE_BITS in
  if bool_decide (type ∈ [10; 11; 16; 17; PS_TYPE_PID]) then Some (CR_FD_PAGEMAP, id)
  else if bool_decide (type ∈ [27; 28; 29; 32; 33; 34; PS_TYPE_SHMEM]) then Some (CR_FD_SHMEM_PAGEMAP, id)
  else None.

Definition encode_ps_cmd (cmd flags : Z) : Z := Z.lor (u32 (Z.shiftl flags PS_CMD_BITS)) cmd.
Definition decode_ps_cmd (cmd : Z) : Z := Z.land cmd PS_CMD_MASK.
Definition decode_ps_flags (cmd : Z) : Z := Z.shiftr cmd PS_CMD_BITS.

(** The bytes of an unsigned integer, and back. *)
Fixpoint le_bytes (n : nat) (v : Z) : list Z :=
  match n with O => [] | S n => v mod 256 :: le_bytes n (v / 256) end.
Fixpoint le_value (l : list Z) : Z :=
  match l with [] => 0 | b :: l => b + 256 * le_value l end.

(** [struct page_server_iov] in memory: [cmd] is followed by 4 bytes of padding,
    whose contents [pad] the code leaves open. *)
Definition SIZEOF_PSI : Z := 32.
Definition psi_bytes (pad : list Z) (pi : page_server_iov) : list Z :=
  le_bytes 4 (pi_cmd pi) ++ pad ++ le_bytes 8 (pi_nr_pages pi) ++ le_bytes 8 (pi_vaddr pi) ++ le_bytes 8 (pi_dst_id pi).
Definition psi_of_bytes (l : list Z) : page_server_iov :=
  PsIov (le_value (take 4 l)) (le_value (take 8 (drop 8 l))) (le_value (take 8 (drop 16 l))) (le_value (take 8 (drop 24 l))).

(** ** Sending and receiving *)
Definition send_full (e : xenv) (out buf : list Z) : outcome (bool * list Z * xenv) :=
  write_fd_loop (length (x_writes e) + length buf) e out buf.

Definition send_psi (pad : list Z) (e : xenv) (out : list Z) (pi : page_server_iov) : outcome (bool * list Z * xenv) :=
  send_full e out (psi_bytes pad pi).

(** Answers the number returned, the buffer and what is left to receive. *)
Fixpoint recv_loop (fuel : nat) (e : xenv) (sk : list Z) (size : Z) (acc : list Z)
    : outcome (Z * list Z * list Z * xenv) :=
  if zlen acc <? size then
    match fuel with
    | O => NoFuel
    | S fuel =>
        let '(ret, l) := io_answer (x_reads e) (size - zlen acc) in
        let e := xe_reads l e in
        if ret <? 0 then if ret =? - EINTR then recv_loop fuel e sk size acc else Ret (-1, acc, sk, e)
        else
          let got := take (Z.to_nat ret) sk in
          if zlen got =? 0 then if zlen acc =? 0 then Ret (0, acc, sk, e) else Ret (-1, acc, sk, e)
          else recv_loop fuel e (drop (Z.to_nat ret) sk) size (acc ++ got)
    end
  else Ret (zlen acc, acc, sk, e).

Definition recv_full_or_eof (e : xenv) (sk : list Z) (size : Z) : outcome (Z * list Z * list Z * xenv) :=
  recv_loop (S (length (x_reads e) + Z.to_nat size)) e sk size [].

Definition recv_full (e : xenv) (sk : list Z) (size : Z) : outcome (option (list Z) * list Z * xenv) :=
  let! (ret, buf, sk, e) := recv_full_or_eof e sk size in
  if ret =? 0 then Ret (None, sk, e) else if ret <? 0 then Ret (None, sk, e) else Ret (Some buf, sk, e).

(** ** The client *)

(** The page-server half of [struct page_xfer]; [sx_sk] is what was sent. *)
Record srv_xfer := SrvXfer {
  sx_offset : Z;
  sx_lazy : bool;
  sx_force_raw : bool;
  sx_sk : list Z;
  sx_dst_id : Z;
  sx_parent : bool
}.

Definition set_sk (sk : list Z) (x : srv_xfer) : srv_xfer :=
  SrvXfer (sx_offset x) (sx_lazy x) (sx_force_raw x) sk (sx_dst_id x) (sx_parent x).
Definition set_sx_force_raw (b : bool) (x : srv_xfer) : srv_xfer :=
  SrvXfer (sx_offset x) (sx_lazy x) b (sx_sk x) (sx_dst_id x) (sx_parent x).

Definition PAGE_COMPRESSED_SIZE_BOUND : Z := BLOCK_COMPRESSED_SIZE_BOUND 1.

Section Client.
Context (lz4c : list Z -> Z -> Z -> option (list Z)) (compress_acceleration : Z) (compress_mode : bool).
Context (pad : list Z).

(** A short splice() is repeated; one that moves nothing, too. *)
Fixpoint splice_to_server (fuel : nat) (e : xenv) (x : srv_xfer) (pipe : list Z) (left_ : Z)
    : outcome (bool * srv_xfer * list Z * xenv) :=
  if 0 <? left_ then
    match fuel with
    | O => NoFuel
    | S fuel =>
        let '(ret, l) := io_answer (x_splices e) left_ in
        let e := xe_splices l e in
        if ret <? 0 then Ret (false, x, pipe, e)
        else
          let got := take (Z.to_nat ret) pipe in
          splice_to_server fuel e (set_sk (sx_sk x ++ got) x) (drop (Z.to_nat ret) pipe) (left_ - zlen got)
    end
  else Ret (true, x, pipe, e).

Definition write_pages_to_server (e : xenv) (x : srv_xfer) (pipe : list Z) (len : Z)
    : outcome (bool * srv_xfer * list Z * xenv) :=
  splice_to_server (length (x_splices e) + Z.to_nat len) e x pipe len.

(** The size that precedes a page on the wire, and the bytes that follow it. *)
Definition encode_page (raw_only : bool) (page : list Z) : option (Z * list Z) :=
  if raw_only then Some (PAGE_SIZE, page)
  else compress_block lz4c page 1 PAGE_COMPRESSED_SIZE_BOUND (acceleration compress_acceleration).

Fixpoint send_pages (fuel : nat) (e : xenv) (x : srv_xfer) (pipe : list Z) (len off : Z)
    : outcome (bool * srv_xfer * list Z * xenv) :=
  if off <? len then
    match fuel with
    | O => NoFuel
    | S fuel =>
        let! (got, pipe, e) := read_pipe_full e pipe PAGE_SIZE in
        match got with
        | None => Ret (false, x, pipe, e)
        | Some page =>
            match encode_page (sx_force_raw x) page with
            | None => Ret (false, x, pipe, e)
            | Some (cs, payload) =>
                let! (ok, out, e) := send_full e (sx_sk x) (le_bytes 4 cs) in
                let x := set_sk out x in
                if negb ok then Ret (false, x, pipe, e)
                else
                  let! (ok, x, e) :=
                    if cs =? 0 then Ret (true, x, e)
                    else let! (ok, out, e) := send_full e (sx_sk x) payload in Ret (ok, set_sk out x, e) in
                  if negb ok then Ret (false, x, pipe, e)
                  else send_pages fuel e x pipe len (u64 (off + PAGE_SIZE))
            end
        end
    end
  else Ret (true, x, pipe, e).

Definition write_pages_to_server_compressed (e : xenv) (x : srv_xfer) (pipe : list Z) (len : Z)
    : outcome (bool * srv_xfer * list Z * xenv) :=
  send_pages (S (Z.to_nat (len / PAGE_SIZE))) e x pipe len 0.

Definition write_pagemap_to_server (e : xenv) (x : srv_xfer) (iov : iovec) (flags : Z) : outcome (bool * srv_xfer * xenv) :=
  let pi := PsIov (encode_ps_cmd (if compress_mode then PS_IOV_ADD_F_COMPRESSED else PS_IOV_ADD_F) flags)
              (iov_len iov / PAGE_SIZE) (iov_base iov) (sx_dst_id x) in
  let! (ok, out, e) := send_psi pad e (sx_sk x) pi in
  Ret (ok, set_sk out x, e).

#[export] Instance srv_transport : transport srv_xfer :=
  Transport sx_offset sx_lazy set_sx_force_raw write_pagemap_to_server
    (if compress_mode then write_pages_to_server_compressed else write_pages_to_server).

(** [replies]: what the server sends back. *)
Definition open_page_server_xfer (e : xenv) (x : srv_xfer) (replies : list Z) (fd_type img_id : Z)
    : outcome (bool * srv_xfer * list Z * xenv) :=
  let! dst_id := encode_pm fd_type img_id in
  let x := SrvXfer (sx_offset x) (sx_lazy x) (sx_force_raw x) (sx_sk x) dst_id false in
  let! (ok, out, e) := send_psi pad e (sx_sk x) (PsIov PS_IOV_OPEN2 0 0 dst_id) in
  let x := set_sk out x in
  if negb ok then Ret (false, x, replies, e)
  else
    let! (got, replies, e) := recv_full e replies 1 in
    match got with
    | None => Ret (false, x, replies, e)
    | Some c =>
        Ret (true, SrvXfer (sx_offset x) (sx_lazy x) (sx_force_raw x) (sx_sk x) (sx_dst_id x) (negb (le_value c =? 0)), replies, e)
    end.

Definition check_parent_server_xfer (e : xenv) (out replies : list Z) (fd_type img_id : Z)
    : outcome (Z * list Z * list Z * xenv) :=
  let! dst_id := encode_pm fd_type img_id in
  let! (ok, out, e) := send_psi pad e out (PsIov PS_IOV_PARENT 0 0 dst_id) in
  if negb ok then Ret (-1, out, replies, e)
  else
    let! (got, replies, e) := recv_full e replies 4 in
    match got with
    | None => Ret (-1, out, replies, e)
    | Some c => Ret (s32 (le_value c), out, replies, e)
    end.

(** The connection is open and in use.  [ret ?: status]. *)
Definition disconnect_from_page_server (own_socket : bool) (e : xenv) (out replies : list Z)
    : outcome (Z * list Z * list Z * xenv) :=
  let pi := PsIov (if own_socket then PS_IOV_FORCE_CLOSE else PS_IOV_CLOSE) 0 0 0 in
  let! (ok, out, e) := send_psi pad e out pi in
  if negb ok then Ret (-1, out, replies, e)
  else
    let! (got, replies, e) := recv_full e replies 4 in
    match got with
    | None => Ret (-1, out, replies, e)
    | Some c => Ret (s32 (le_value c), out, replies, e)
    end.
End Client.

(** ** The server *)

(** The image directory: do open_image() and open_pages_image() succeed for this
    type and id; is there a parent directory ([None]: open_parent() fails);
    what does [open_page_read_at] find there ([None]: nothing or an error);
    what does fstatat() answer (0, or minus the errno). *)
Record img_dir := ImgDir {
  dir_image : Z -> Z -> bool;
  dir_pages : Z -> Z -> bool;
  dir_parent : option bool;
  dir_parent_read : Z -> Z -> option (list dedup_reader);
  dir_parent_stat : Z -> Z -> Z
}.

(** [loc_xfer] and the transfer pipe; [cx_dst_id] is ~0 when nothing is open. *)
Record page_xfer_job := PageXferJob {
  cx_dst_id : Z;
  cx_pipe : list Z;
  cx_pipe_size : Z;
  loc_xfer : page_xfer
}.
Definition NO_DST : Z := 2 ^ 64 - 1.

(** [sv_in]: still to be received; [sv_out]: sent; [sv_done]: the images closed
    so far, last first; [sv_pps]: [dmpi(item)->mem_pp] of the items of the
    process tree, with [sv_pipes] the contents of their pipes. *)
Record page_server := PageServer {
  sv_cxfer : page_xfer_job;
  sv_in : list Z;
  sv_out : list Z;
  sv_done : list (Z * page_xfer);
  sv_pps : gmap Z page_pipe;
  sv_pipes : list (list Z)
}.

Definition set_cxfer (c : page_xfer_job) (s : page_server) : page_server :=
  PageServer c (sv_in s) (sv_out s) (sv_done s) (sv_pps s) (sv_pipes s).
Definition set_in (l : list Z) (s : page_server) : page_server :=
  PageServer (sv_cxfer s) l (sv_out s) (sv_done s) (sv_pps s) (sv_pipes s).
Definition set_out (l : list Z) (s : page_server) : page_server :=
  PageServer (sv_cxfer s) (sv_in s) l (sv_done s) (sv_pps s) (sv_pipes s).
Definition set_done (l : list (Z * page_xfer)) (s : page_server) : page_server :=
  PageServer (sv_cxfer s) (sv_in s) (sv_out s) l (sv_pps s) (sv_pipes s).
Definition set_pps (m : gmap Z page_pipe) (s : page_server) : page_server :=
  PageServer (sv_cxfer s) (sv_in s) (sv_out s) (sv_done s) m (sv_pipes s).
Definition set_loc (x : page_xfer) (s : page_server) : page_server :=
  set_cxfer (PageXferJob (cx_dst_id (sv_cxfer s)) (cx_pipe (sv_cxfer s)) (cx_pipe_size (sv_cxfer s)) x) s.
Definition set_dst (d : Z) (s : page_server) : page_server :=
  set_cxfer (PageXferJob d (cx_pipe (sv_cxfer s)) (cx_pipe_size (sv_cxfer s)) (loc_xfer (sv_cxfer s))) s.
Definition set_pipe (l : list Z) (s : page_server) : page_server :=
  set_cxfer (PageXferJob (cx_dst_id (sv_cxfer s)) l (cx_pipe_size (sv_cxfer s)) (loc_xfer (sv_cxfer s))) s.

Definition close_page_xfer (x : page_xfer) : page_xfer :=
  let p := pending x in
  set_pending (with_block [] (bl_total_bytes (pp_layout p)) (pp_n_compressed p) p) (set_parent [] x).

(** Both images are created empty.  The fields not set keep their values. *)
Definition open_page_local_xfer (d : img_dir) (e : xenv) (x : page_xfer) (fd_type img_id : Z)
    : bool * page_xfer * xenv :=
  if negb (dir_image d fd_type img_id) then (false, x, e)
  else
    let x := set_pmi [] x in
    if negb (dir_pages d fd_type img_id) then (false, x, e)
    else
      let x := set_parent [] (set_direct false (set_pi [] x)) in
      let '(ok, x, e) :=
        if (fd_type =? CR_FD_PAGEMAP) || (fd_type =? CR_FD_SHMEM_PAGEMAP) then
          match dir_parent d with
          | None => (false, x, e)
          | Some false => (true, x, e)
          | Some true =>
              let '(ok, e) := xe_alloc e in
              if negb ok then (false, x, e)
              else
                match dir_parent_read d fd_type img_id with
                | None => (true, x, e)
                | Some ps => (true, set_parent ps x, e)
                end
          end
        else (true, x, e) in
      if negb ok then (false, x, e)
      else
        let p := pending x in
        let x := set_pending (with_started false (with_block [] (bl_total_bytes (pp_layout p)) (pp_n_compressed p) p)) x in
        (true, set_force_raw false (set_pio 0 x), e).

(** Negative, 0 or 1. *)
Definition check_parent_local_xfer (d : img_dir) (fd_type img_id : Z) : Z :=
  match dir_parent d with
  | None => -1
  | Some false => 0
  | Some true =>
      let ret := dir_parent_stat d fd_type img_id in
      if negb (ret =? 0) && negb (ret =? -2) then -1 else if ret =? 0 then 1 else 0
  end.

Section Server.
Context (auto_dedup lazy_pages ps_socket : bool) (dir : img_dir) (pad : list Z).

Definition send_reply (e : xenv) (s : page_server) (buf : list Z) : outcome (bool * page_server * xenv) :=
  let! (ok, out, e) := send_full e (sv_out s) buf in Ret (ok, set_out out s, e).

Definition result_s := outcome (bool * page_server * xenv).

Definition page_server_check_parent (e : xenv) (s : page_server) (pi : page_server_iov) : result_s :=
  match decode_pm (pi_dst_id pi) with
  | None => Ret (false, s, e)
  | Some (type, id) =>
      let ret := check_parent_local_xfer dir type id in
      if ret <? 0 then Ret (false, s, e) else send_reply e s (le_bytes 4 ret)
  end.

Definition page_server_close (s : page_server) : page_server :=
  let c := sv_cxfer s in
  if negb (cx_dst_id c =? NO_DST) then
    let x := close_page_xfer (loc_xfer c) in
    set_done ((cx_dst_id c, x) :: sv_done s) (set_loc x (set_dst NO_DST s))
  else s.

(** [reply]: the socket is given, so the client is told about the parent. *)
Definition page_server_open (reply : bool) (e : xenv) (s : page_server) (pi : page_server_iov) : result_s :=
  match decode_pm (pi_dst_id pi) with
  | None => Ret (false, s, e)
  | Some (type, id) =>
      let s := page_server_close s in
      let '(ok, x, e) := open_page_local_xfer dir e (loc_xfer (sv_cxfer s)) type id in
      let s := set_loc x s in
      if negb ok then Ret (false, s, e)
      else
        let s := set_dst (pi_dst_id pi) s in
        if reply then
          let! (ok, s, e) := send_reply e s (le_bytes 1 (match xf_parent x with [] => 0 | _ => 1 end)) in
          if negb ok then Ret (false, page_server_close s, e) else Ret (true, s, e)
        else Ret (true, s, e)
  end.

Definition prep_loc_xfer (e : xenv) (s : page_server) (pi : page_server_iov) : result_s :=
  if negb (cx_dst_id (sv_cxfer s) =? pi_dst_id pi) then page_server_open false e s pi else Ret (true, s, e).

(** Nothing is open when the client names the id ~0 itself: the code goes on with
    images that were closed or never opened, which the model counts as a crash
    (with compressed pages the code receives the first of them before it
    touches the images). *)
Definition images_open (s : page_server) : bool := negb (cx_dst_id (sv_cxfer s) =? NO_DST).

Definition validate_page_server_iov (pi : page_server_iov) (flags : Z) : bool :=
  let wire_flags := Z.lor (Z.lor PE_PARENT PE_LAZY) PE_PRESENT in
  if negb (Z.land flags (Z.lnot wire_flags) =? 0) then false
  else if Z.land flags wire_flags =? 0 then false
  else if Z.land flags (Z.lor PE_PRESENT PE_PARENT) =? Z.lor PE_PRESENT PE_PARENT then false
  else if (pi_nr_pages pi =? 0) || negb (Z.land (pi_vaddr pi) (PAGE_SIZE - 1) =? 0) ||
          (pi_vaddr pi >? ULONG_MAX) || (pi_nr_pages pi >? SIZE_MAX / PAGE_SIZE) ||
          (pi_nr_pages pi >? (ULONG_MAX - pi_vaddr pi) / PAGE_SIZE) then false
  else true.

(** *** Compressed pages *)

(** The variables of [page_server_add_compressed] that its loop changes. *)
Record recv_state := RecvState {
  rs_xfer : page_xfer;
  rs_flags : Z;
  rs_sizes : list Z;
  rs_total : Z;
  rs_all_raw : bool;
  rs_started : bool
}.
Definition rs_image (x : page_xfer) (flags : Z) (r : recv_state) : recv_state :=
  RecvState x flags (rs_sizes r) (rs_total r) (rs_all_raw r) true.

(** The payload of one page: alignment in front of the first one, then the bytes. *)
Definition recv_payload (e : xenv) (sk : list Z) (r : recv_state) (cs : Z) : outcome (bool * recv_state * list Z * xenv) :=
  let! (ok, flags, x, e) :=
    if negb (rs_started r) && (cs =? PAGE_SIZE) then align_pages_image_payload e (rs_xfer r) (rs_flags r)
    else Ret (true, rs_flags r, rs_xfer r, e) in
  let r := rs_image x flags r in
  if negb ok then Ret (false, r, sk, e)
  else
    let! (got, sk, e) := recv_full e sk cs in
    match got with
    | None => Ret (false, r, sk, e)
    | Some buf =>
        let! (ok, x, e) := write_pages_image_data e (rs_xfer r) buf in
        Ret (ok, rs_image x (rs_flags r) r, sk, e)
    end.

(** [n] pages are left. *)
Fixpoint recv_pages (n : nat) (e : xenv) (sk : list Z) (r : recv_state) : outcome (bool * recv_state * list Z * xenv) :=
  match n with
  | O => Ret (true, r, sk, e)
  | S n =>
      let! (got, sk, e) := recv_full e sk 4 in
      match got with
      | None => Ret (false, r, sk, e)
      | Some c =>
          let cs := le_value c in
          if cs >? PAGE_SIZE then Ret (false, r, sk, e)
          else
            let r := RecvState (rs_xfer r) (rs_flags r) (rs_sizes r ++ [cs]) (u64 (rs_total r + cs))
                       (rs_all_raw r && (cs =? PAGE_SIZE)) (rs_started r) in
            let! (ok, r, sk, e) := if cs >? 0 then recv_payload e sk r cs else Ret (true, r, sk, e) in
            if negb ok then Ret (false, r, sk, e) else recv_pages n e sk r
      end
  end.

Definition page_server_add_compressed (e : xenv) (s : page_server) (pi : page_server_iov) (flags : Z) : result_s :=
  if negb (validate_page_server_iov pi flags) then Ret (false, s, e)
  else
    let! (ok, s, e) := prep_loc_xfer e s pi in
    if negb ok then Ret (false, s, e)
    else if negb (images_open s) then Bug
    else
      let iov := psi2iovec pi in
      let lxfer := loc_xfer (sv_cxfer s) in
      if Z.land flags PE_PRESENT =? 0 then
        let! (ok, x, e) := write_pagemap_loc auto_dedup e lxfer iov flags in
        Ret (ok, set_loc x s, e)
      else
        let! (ok, x, e) := dedup_parent auto_dedup e lxfer (iov_base iov) (iov_len iov) in
        let s := set_loc x s in
        if negb ok then Ret (false, s, e)
        else
          let '(ok, e) := xe_alloc e in
          if negb ok then Ret (false, s, e)
          else
            let! (ok, r, sk, e) := recv_pages (Z.to_nat (pi_nr_pages pi)) e (sv_in s) (RecvState x flags [] 0 true false) in
            let s := set_in sk (set_loc (rs_xfer r) s) in
            if negb ok then Ret (false, s, e)
            else
              let blocks := if rs_all_raw r then None else Some (PagemapBlocks (rs_sizes r) (rs_total r) 1) in
              let '(ok, x, e) := pb_write_pagemap e (rs_xfer r) (new_entry (iov_base iov) (pi_nr_pages pi) (rs_flags r) blocks) in
              Ret (ok, set_loc x s, e).

(** *** Plain pages *)
Fixpoint add_loop (fuel : nat) (e : xenv) (s : page_server) (len : Z) : result_s :=
  if 0 <? len then
    match fuel with
    | O => NoFuel
    | S fuel =>
        let chunk := s64 len in
        let chunk := if chunk >? cx_pipe_size (sv_cxfer s) then cx_pipe_size (sv_cxfer s) else chunk in
        let '(ok, e) := xe_fcntl e in                                     (* sk_wait_data *)
        if negb ok then Ret (false, s, e)
        else
          let '(ret, l) := io_answer (x_splices e) (u64 chunk) in
          let e := xe_splices l e in
          if ret <? 0 then Ret (false, s, e)
          else
            let got := take (Z.to_nat ret) (sv_in s) in
            if zlen got =? 0 then Ret (false, s, e)
            else
              let s := set_in (drop (Z.to_nat ret) (sv_in s)) (set_pipe (cx_pipe (sv_cxfer s) ++ got) s) in
              let! (ok, x, pipe, e) := write_pages_loc e (loc_xfer (sv_cxfer s)) (cx_pipe (sv_cxfer s)) (zlen got) in
              let s := set_pipe pipe (set_loc x s) in
              if negb ok then Ret (false, s, e) else add_loop fuel e s (len - zlen got)
    end
  else Ret (true, s, e).

Definition page_server_add (e : xenv) (s : page_server) (pi : page_server_iov) (flags : Z) : result_s :=
  if negb (validate_page_server_iov pi flags) then Ret (false, s, e)
  else
    let! (ok, s, e) := prep_loc_xfer e s pi in
    if negb ok then Ret (false, s, e)
    else if negb (images_open s) then Bug
    else
      let iov := psi2iovec pi in
      let! (ok, x, e) := write_pagemap_loc auto_dedup e (loc_xfer (sv_cxfer s)) iov flags in
      let s := set_loc x s in
      if negb ok then Ret (false, s, e)
      else if Z.land flags PE_PRESENT =? 0 then Ret (true, s, e)
      else add_loop (Z.to_nat (iov_len iov)) e s (iov_len iov).

(** *** Serving pages *)

(** Looking up [mem_pp] of an item that does not exist is a NULL dereference.
    tee() and the first splice() are inside [page_pipe_read]; the data copied to
    the read pipe is sent by the second splice(), which blocks for good when the
    pipe is empty. *)
Definition page_server_get_pages (e : xenv) (s : page_server) (pi : page_server_iov) : outcome (Z * page_server * xenv) :=
  match sv_pps s !! pi_dst_id pi with
  | None => Bug
  | Some pp =>
      let '(t, l) := io_answer (x_splices e) SIZE_MAX in
      let '(p, l) := io_answer l SIZE_MAX in
      let e := xe_splices l e in
      let '(ret, nr_pages, data, pp) := page_pipe_read (Z.min t) (Z.min p) pp (pi_vaddr pi) (pi_nr_pages pi) PPB_LAZY in
      let s := set_pps (<[pi_dst_id pi := pp]> (sv_pps s)) s in
      if negb (ret =? 0) then Ret (ret, s, e)
      else if nr_pages =? 0 then Ret (-1, s, e)
      else
        let pi := PsIov (encode_ps_cmd PS_IOV_ADD_F PE_PRESENT) nr_pages (pi_vaddr pi) (pi_dst_id pi) in
        let! (ok, out, e) := send_psi pad e (sv_out s) pi in
        let s := set_out out s in
        if negb ok then Ret (-1, s, e)
        else
          let len := u64 (nr_pages * PAGE_SIZE) in
          match data with
          | None => NoFuel
          | Some (pipe, n, skip) =>
              let copied := drop (Z.to_nat skip) (take (Z.to_nat n) (pipe_get (sv_pipes s) pipe)) in
              let '(ret, l) := io_answer (x_splices e) len in
              let e := xe_splices l e in
              let got := if ret <? 0 then [] else take (Z.to_nat ret) copied in
              let s := set_out (sv_out s ++ got) s in
              Ret (if (if ret <? 0 then ret else zlen got) =? len then 0 else -1, s, e)
          end
  end.

(** The switch of [page_server_serve]: the result, whether the data are flushed. *)
Definition serve_cmd (e : xenv) (s : page_server) (pi : page_server_iov) : outcome (Z * bool * page_server * xenv) :=
  let run (r : result_s) : outcome (Z * bool * page_server * xenv) :=
    let! (ok, s, e) := r in Ret (if ok then 0 else -1, false, s, e) in
  let cmd := decode_ps_cmd (pi_cmd pi) in
  if cmd =? PS_IOV_OPEN then run (page_server_open false e s pi)
  else if cmd =? PS_IOV_OPEN2 then run (page_server_open true e s pi)
  else if cmd =? PS_IOV_PARENT then run (page_server_check_parent e s pi)
  else if cmd =? PS_IOV_ADD_F_COMPRESSED then run (page_server_add_compressed e s pi (decode_ps_flags (pi_cmd pi)))
  else if (cmd =? PS_IOV_ADD_F) || (cmd =? PS_IOV_ADD) || (cmd =? PS_IOV_HOLE) then
    let flags := if cmd =? PS_IOV_ADD_F then decode_ps_flags (pi_cmd pi)
                 else if cmd =? PS_IOV_ADD then PE_PRESENT else PE_PARENT in
    run (page_server_add e s pi flags)
  else if (cmd =? PS_IOV_CLOSE) || (cmd =? PS_IOV_FORCE_CLOSE) then
    let! (ok, s, e) := send_reply e s (le_bytes 4 0) in Ret (if ok then 0 else -1, true, s, e)
  else if cmd =? PS_IOV_GET then
    let! (ret, s, e) := page_server_get_pages e s pi in Ret (ret, false, s, e)
  else Ret (-1, false, s, e).

Fixpoint serve_loop (fuel : nat) (e : xenv) (s : page_server) (flushed : bool) : outcome (Z * bool * page_server * xenv) :=
  match fuel with
  | O => NoFuel
  | S fuel =>
      let! (ret, buf, sk, e) := recv_full_or_eof e (sv_in s) SIZEOF_PSI in
      let s := set_in sk s in
      if ret <=? 0 then Ret (ret, flushed, s, e)
      else
        let pi := psi_of_bytes buf in
        let! (ret, flushed, s, e) := serve_cmd e s pi in
        if negb (ret =? 0) then Ret (ret, flushed, s, e)
        else if (pi_cmd pi =? PS_IOV_CLOSE) || (pi_cmd pi =? PS_IOV_FORCE_CLOSE) then Ret (ret, flushed, s, e)
        else serve_loop fuel e s flushed
  end.

(** [pipe_size] is the answer of F_GETPIPE_SZ.  The last read() waits for the
    client to close its side. *)
Definition page_server_serve (pipe_size : Z) (e : xenv) (s : page_server) : outcome (Z * page_server * xenv) :=
  let receiving_pages := negb lazy_pages in
  let '(ok, e) := xe_fcntl e in                                           (* pipe() or pipe_read_dest_init() *)
  if negb ok then Ret (-1, (if receiving_pages then s else page_server_close s), e)
  else if receiving_pages && (pipe_size <? 0) then Ret (-1, s, e)
  else
    let s := if receiving_pages
             then set_cxfer (PageXferJob (cx_dst_id (sv_cxfer s)) [] pipe_size (loc_xfer (sv_cxfer s))) s else s in
    let! (ret, flushed, s, e) := serve_loop (S (length (sv_in s))) e s false in
    let ret := if receiving_pages && (ret =? 0) && negb flushed then -1 else ret in
    let '(ret, e) :=
      if (ret =? 0) && negb ps_socket then
        let '(r, l) := io_answer (x_reads e) 1 in
        (if (if r <? 0 then r else zlen (take (Z.to_nat r) (sv_in s))) =? 0 then 0 else -1, xe_reads l e)
      else (ret, e) in
    Ret (ret, page_server_close s, e).
End Server.

(** ** Bytes *)
Definition byte_ok (b : Z) : Prop := 0 <= b < 256.

Lemma length_le_bytes n : forall v, length (le_bytes n v) = n.
Proof. induction n as [|n IH]; intros v; simpl; [done|]. by rewrite IH. Qed.

Lemma zlen_le_bytes n v : zlen (le_bytes n v) = Z.of_nat n.
Proof. unfold zlen. by rewrite length_le_bytes. Qed.

Lemma le_value_bytes n : forall v, 0 <= v < 256 ^ Z.of_nat n -> le_value (le_bytes n v) = v.
Proof.
  induction n as [|n IH]; intros v Hv; [change (256 ^ Z.of_nat 0) with 1 in Hv; simpl; lia|]. cbn [le_bytes le_value].
  rewrite Nat2Z.inj_succ, Z.pow_succ_r in Hv by lia. rewrite IH.
  - pose proof (Z.div_mod v 256 ltac:(lia)). lia.
  - split; [apply Z.div_pos; lia|]. apply Z.div_lt_upper_bound; lia.
Qed.

Lemma le_value_range l : Forall byte_ok l -> 0 <= le_value l < 256 ^ zlen l.
Proof.
  induction 1 as [|b l Hb _ IH]; [done|]. cbn [le_value]. unfold zlen in *. cbn [length].
  rewrite Nat2Z.inj_succ, Z.pow_succ_r by lia. unfold byte_ok in Hb. lia.
Qed.

Lemma psi_bytes_inv pad pi : length pad = 4%nat -> 0 <= pi_cmd pi < 2 ^ 32 -> 0 <= pi_nr_pages pi < 2 ^ 64 ->
  0 <= pi_vaddr pi < 2 ^ 64 -> 0 <= pi_dst_id pi < 2 ^ 64 ->
  psi_of_bytes (psi_bytes pad pi) = pi /\ zlen (psi_bytes pad pi) = SIZEOF_PSI.
Proof.
  intros Hp Hc Hn Hv Hd. unfold psi_of_bytes, psi_bytes. split.
  2:{ rewrite !zlen_app, !zlen_le_bytes. unfold zlen, SIZEOF_PSI. lia. }
  set (c := le_bytes 4 _). set (n := le_bytes 8 (pi_nr_pages pi)). set (v := le_bytes 8 (pi_vaddr pi)). set (d := le_bytes 8 (pi_dst_id pi)).
  assert (Lc : length c = 4%nat) by apply length_le_bytes. assert (Ln : length n = 8%nat) by apply length_le_bytes.
  assert (Lv : length v = 8%nat) by apply length_le_bytes. assert (Ld : length d = 8%nat) by apply length_le_bytes.
  assert (E1 : take 4 (c ++ pad ++ n ++ v ++ d) = c) by (rewrite take_app_le by lia; by apply take_ge; lia).
  assert (E2 : drop 8 (c ++ pad ++ n ++ v ++ d) = n ++ v ++ d) by (rewrite app_assoc; apply drop_app_length'; rewrite length_app; lia).
  assert (E3 : drop 16 (c ++ pad ++ n ++ v ++ d) = v ++ d) by (rewrite !app_assoc, <- (app_assoc _ v); apply drop_app_length'; rewrite !length_app; lia).
  assert (E4 : drop 24 (c ++ pad ++ n ++ v ++ d) = d) by (rewrite !app_assoc; apply drop_app_length'; rewrite !length_app; lia).
  rewrite E1, E2, E3, E4. rewrite (take_app_length' n) by done. rewrite (take_app_length' v) by done. rewrite (take_ge d) by lia.
  unfold c, n, v, d. rewrite !le_value_bytes by lia. by destruct pi.
Qed.

Lemma encode_cmd_inv cmd flags : 0 <= cmd < 2 ^ 16 -> 0 <= flags < 2 ^ 16 ->
  decode_ps_cmd (encode_ps_cmd cmd flags) = cmd /\ decode_ps_flags (encode_ps_cmd cmd flags) = flags /\
  0 <= encode_ps_cmd cmd flags < 2 ^ 32.
Proof.
  intros Hc Hf. unfold decode_ps_cmd, decode_ps_flags, encode_ps_cmd, PS_CMD_MASK, PS_CMD_BITS.
  rewrite Z.shiftl_mul_pow2, u32_small by lia.
  assert (Hlow : Z.land (flags * 2 ^ 16) (Z.ones 16) = 0) by (rewrite Z.land_ones by lia; apply Z_mod_mult).
  split_and!.
  - rewrite Z.land_lor_distr_l. change (Z.shiftl 1 16 - 1) with (Z.ones 16). rewrite Hlow, Z.lor_0_l, Z.land_ones by lia.
    by apply Z.mod_small.
  - rewrite Z.shiftr_lor, (Z.shiftr_div_pow2 cmd) by lia. rewrite (Z.div_small cmd) by done. rewrite Z.lor_0_r.
    rewrite Z.shiftr_div_pow2 by lia. by apply Z_div_mult.
  - apply Z.lor_nonneg. lia.
  - apply lor_range; lia.
Qed.

Lemma encode_pm_inv type id : type = CR_FD_PAGEMAP \/ type = CR_FD_SHMEM_PAGEMAP -> 0 <= id < 2 ^ 56 ->
  exists dst, encode_pm type id = Ret dst /\ decode_pm dst = Some (type, id) /\ 0 <= dst < NO_DST.
Proof.
  intros Ht Hid. unfold encode_pm, PS_TYPE_BITS.
  assert (Hsh : Z.shiftl id 8 = id * 2 ^ 8) by (by rewrite Z.shiftl_mul_pow2 by lia).
  assert (Hdec : forall t, 0 <= t < 2 ^ 8 -> t <> 255 ->
    Z.land (Z.lor (id * 2 ^ 8) t) PS_TYPE_MASK = t /\ Z.shiftr (Z.lor (id * 2 ^ 8) t) 8 = id /\ 0 <= Z.lor (id * 2 ^ 8) t < NO_DST).
  { intros t Ht1 Ht2. assert (E : Z.land (Z.lor (id * 2 ^ 8) t) PS_TYPE_MASK = t).
    { change PS_TYPE_MASK with (Z.ones 8). rewrite Z.land_lor_distr_l, !Z.land_ones by lia.
      rewrite Z_mod_mult, Z.lor_0_l. by apply Z.mod_small. }
    split; [done|]. split.
    - rewrite Z.shiftr_lor, !Z.shiftr_div_pow2 by lia. by rewrite Z_div_mult, (Z.div_small t), Z.lor_0_r by lia.
    - assert (H : 0 <= Z.lor (id * 2 ^ 8) t < 2 ^ 64) by (apply lor_range; lia).
      assert (Z.lor (id * 2 ^ 8) t <> NO_DST); [|unfold NO_DST in *; lia]. intros E'. rewrite E' in E.
      change (255 = t) in E. lia. }
  rewrite Hsh, u64_small by lia.
  destruct Ht as [-> | ->]; simpl; eexists; (split; [done|]); unfold decode_pm, PS_TYPE_BITS.
  - destruct (Hdec PS_TYPE_PID) as (-> & -> & H); [done|done|]. by split.
  - destruct (Hdec PS_TYPE_SHMEM) as (-> & -> & H); [done|done|]. by split.
Qed.

(** C33. The wire format loses nothing.  For every command and flags that fit
    their 16 bits, every range, and every process or shared memory id below
    2^56, what the server decodes from the 32 bytes of a frame is what the
    client encoded into it, whatever the padding bytes hold; and no id the
    client can send is ~0, the server's mark for "nothing open". *)
Theorem wire_roundtrip pad type id cmd flags nr vaddr :
  length pad = 4%nat -> type = CR_FD_PAGEMAP \/ type = CR_FD_SHMEM_PAGEMAP -> 0 <= id < 2 ^ 56 ->
  0 <= cmd < 2 ^ 16 -> 0 <= flags < 2 ^ 16 -> 0 <= nr < 2 ^ 64 -> 0 <= vaddr < 2 ^ 64 ->
  exists dst, encode_pm type id = Ret dst /\ dst <> NO_DST /\
    let pi := psi_of_bytes (psi_bytes pad (PsIov (encode_ps_cmd cmd flags) nr vaddr dst)) in
    decode_ps_cmd (pi_cmd pi) = cmd /\ decode_ps_flags (pi_cmd pi) = flags /\
    pi_nr_pages pi = nr /\ pi_vaddr pi = vaddr /\ decode_pm (pi_dst_id pi) = Some (type, id).
Proof.
  intros Hp Ht Hid Hc Hf Hn Hv. destruct (encode_pm_inv type id Ht Hid) as (dst & He & Hd & Hr).
  destruct (encode_cmd_inv cmd flags Hc Hf) as (C1 & C2 & C3).
  exists dst. split; [done|]. split; [lia|]. unfold NO_DST in Hr.
  destruct (psi_bytes_inv pad (PsIov (encode_ps_cmd cmd flags) nr vaddr dst)) as [-> _]; simpl; try done; lia.
Qed.

Lemma wire_roundtrip_witness : exists dst, encode_pm CR_FD_SHMEM_PAGEMAP 77 = Ret dst /\ dst = 77 * 256 + 2 /\
  decode_pm (pi_dst_id (psi_of_bytes (psi_bytes [1; 2; 3; 4] (PsIov (encode_ps_cmd PS_IOV_ADD_F PE_LAZY) 9 0x7000 dst)))) = Some (CR_FD_SHMEM_PAGEMAP, 77).
Proof.
  destruct (wire_roundtrip [1; 2; 3; 4] CR_FD_SHMEM_PAGEMAP 77 PS_IOV_ADD_F PE_LAZY 9 0x7000)
    as (dst & H1 & _ & _ & _ & _ & _ & H2); try done; [by right|].
  exists dst. split; [exact H1|]. split; [by injection H1 as <-|exact H2].
Defined.

(** ** Receiving *)
Lemma recv_loop_ok size fuel : 0 < size -> forall e sk acc, zlen acc <= size ->
  (length (x_reads e) + Z.to_nat (size - zlen acc) < fuel)%nat ->
  exists ret buf sk' e', recv_loop fuel e sk size acc = Ret (ret, buf, sk', e') /\
    (0 < ret -> acc ++ sk = buf ++ sk' /\ zlen buf = size) /\ sk' `suffix_of` sk /\
    (xenv_ok e -> size - zlen acc <= zlen sk -> ret = size /\ xenv_ok e') /\
    (xenv_ok e -> acc = [] -> sk = [] -> ret = 0 /\ xenv_ok e').
Proof.
  intros Hs. induction fuel as [|fuel IH]; intros e sk acc Hl Hf; [lia|]. cbn [recv_loop].
  destruct (Z.ltb_spec (zlen acc) size) as [Hlt|Hge].
  2:{ eexists _, _, _, _. split; [done|]. split; [intros _; split; [done|lia]|]. split; [done|]. split; [intros; split; [lia|done]|].
      intros _ ->. unfold zlen in Hge. simpl in Hge. lia. }
  destruct (io_answer (x_reads e) (size - zlen acc)) as [ret l] eqn:Ea.
  destruct (io_answer_range _ _ _ _ Ea) as (H1 & H2 & H3 & H4).
  assert (Hprog : ret <= 0 -> (length l < length (x_reads e))%nat) by (intros Hr; apply H3; intros E; destruct (H2 E); lia).
  assert (Hne : ret <= 0 -> ~ xenv_ok e) by (intros Hr ->; destruct (H2 eq_refl); lia).
  destruct (Z.ltb_spec ret 0) as [Hn|Hp].
  - destruct (ret =? - EINTR).
    + destruct (IH (xe_reads l e) sk acc) as (r & buf & sk' & e' & -> & A & B & C & D); [done|simpl; specialize (Hprog ltac:(lia)); lia|].
      eexists _, _, _, _. split; [done|]. split_and!; try done; intros He; by destruct (Hne ltac:(lia)).
    + eexists _, _, _, _. split; [done|]. split_and!; try done; intros He; by destruct (Hne ltac:(lia)).
  - set (got := take (Z.to_nat ret) sk). assert (Hg : zlen got <= ret) by (unfold got, zlen; rewrite length_take; lia).
    pose proof (zlen_nonneg got) as Hg0. destruct (Z.eqb_spec (zlen got) 0) as [Hz|Hz].
    { assert (Hc : xenv_ok e -> size - zlen acc <= zlen sk -> False).
      { intros -> Hc. destruct (H2 eq_refl) as [Hr _]. unfold got, zlen in *. rewrite length_take in Hz. lia. }
      destruct (Z.eqb_spec (zlen acc) 0) as [Ha|Ha]; eexists _, _, _, _; (split; [done|]); (split; [lia|]); (split; [done|]).
      - split; [intros He Hk; by destruct (Hc He Hk)|]. intros -> _ _. destruct (H2 eq_refl) as [_ ->]. done.
      - split; [intros He Hk; by destruct (Hc He Hk)|]. intros _ -> _. done. }
    destruct (IH (xe_reads l e) (drop (Z.to_nat ret) sk) (acc ++ got)) as (r & buf & sk' & e' & -> & A & B & C & D).
    { rewrite zlen_app. lia. }
    { cbn [x_reads xe_reads]. rewrite zlen_app. lia. }
    eexists _, _, _, _. split; [done|]. split; [|split; [|split]].
    + intros Hr. destruct (A Hr) as [A1 A2]. split; [|done]. rewrite <- A1, <- app_assoc. f_equal. unfold got. by rewrite take_drop.
    + etrans; [exact B|]. apply suffix_drop.
    + intros -> Hc. destruct (H2 eq_refl) as [-> ->]. apply C; [done|]. rewrite zlen_app. unfold got, zlen in *.
      rewrite length_drop, length_take. lia.
    + intros _ _ ->. unfold got in Hz. rewrite take_nil in Hz. done.
Qed.

Lemma recv_full_or_eof_ok e sk size : 0 < size ->
  exists ret buf sk' e', recv_full_or_eof e sk size = Ret (ret, buf, sk', e') /\
    (0 < ret -> sk = buf ++ sk' /\ zlen buf = size) /\ sk' `suffix_of` sk /\
    (xenv_ok e -> size <= zlen sk -> ret = size /\ xenv_ok e') /\ (xenv_ok e -> sk = [] -> ret = 0 /\ xenv_ok e').
Proof.
  intros Hs. destruct (recv_loop_ok size (S (length (x_reads e) + Z.to_nat size)) Hs e sk [])
    as (ret & buf & sk' & e' & H1 & H2 & H3 & H4 & H5); [unfold zlen; simpl; lia|unfold zlen; simpl; lia|].
  exists ret, buf, sk', e'. unfold zlen at 1 in H4. simpl in H4. rewrite Z.sub_0_r in H4. split_and!; try done; auto.
Qed.

Lemma recv_full_ok e sk size : 0 < size ->
  exists got sk' e', recv_full e sk size = Ret (got, sk', e') /\
    (forall buf, got = Some buf -> sk = buf ++ sk' /\ zlen buf = size) /\ sk' `suffix_of` sk /\
    (xenv_ok e -> size <= zlen sk -> got <> None /\ xenv_ok e').
Proof.
  intros Hs. unfold recv_full. destruct (recv_full_or_eof_ok e sk size Hs) as (ret & buf & sk' & e' & -> & A & B & C & _). simpl.
  destruct (Z.eqb_spec ret 0) as [->|Hne]; [|destruct (Z.ltb_spec ret 0)].
  - eexists _, _, _. split; [done|]. split; [done|]. split; [done|]. intros He Hk. destruct (C He Hk). lia.
  - eexists _, _, _. split; [done|]. split; [done|]. split; [done|]. intros He Hk. destruct (C He Hk). lia.
  - eexists _, _, _. split; [done|]. split; [intros b [= <-]; apply A; lia|]. split; [done|]. intros He Hk. by destruct (C He Hk).
Qed.

Lemma send_full_ok e out buf : exists ok out' e', send_full e out buf = Ret (ok, out', e') /\
  (ok = true -> out' = out ++ buf) /\ (xenv_ok e -> ok = true /\ xenv_ok e').
Proof. apply write_fd_full_ok. Qed.

Lemma suffix_bytes (l l' : list Z) : l' `suffix_of` l -> Forall byte_ok l -> Forall byte_ok l'.
Proof. intros [k ->]. by intros [_ ?]%Forall_app. Qed.

(** ** What the server accepts *)
Lemma validate_ok pi flags : 0 <= pi_nr_pages pi -> 0 <= pi_vaddr pi -> validate_page_server_iov pi flags = true ->
  flags ∈ [PE_PARENT; PE_LAZY; Z.lor PE_PARENT PE_LAZY; PE_PRESENT; Z.lor PE_PRESENT PE_LAZY] /\
  range_pages (psi2iovec pi) /\ iov_len (psi2iovec pi) = pi_nr_pages pi * PAGE_SIZE.
Proof.
  intros Hn Hv. unfold validate_page_server_iov. change (Z.lor (Z.lor PE_PARENT PE_LAZY) PE_PRESENT) with 7.
  destruct (Z.eqb_spec (Z.land flags (Z.lnot 7)) 0) as [E1|]; [|done]. change 7 with (2 ^ 3 - 1) in E1.
  rewrite land_lnot_ones in E1 by lia. cbn [negb].
  destruct (Z.eqb_spec (Z.land flags 7) 0) as [|E2]; [done|].
  destruct (Z.eqb_spec (Z.land flags (Z.lor PE_PRESENT PE_PARENT)) (Z.lor PE_PRESENT PE_PARENT)) as [|E3]; [done|].
  destruct (_ || _ || _ || _ || _) eqn:Er; [done|]. intros _. repeat (apply orb_false_iff in Er as [Er ?]).
  rewrite Z.gtb_ltb in *. repeat match goal with H : (_ <? _) = false |- _ => apply Z.ltb_ge in H end.
  apply Z.eqb_neq in Er. match goal with H : negb _ = false |- _ => apply negb_false_iff, Z.eqb_eq in H; rename H into Ha end.
  change (PAGE_SIZE - 1) with (Z.ones 12) in Ha. rewrite Z.land_ones in Ha by lia. change (2 ^ 12) with PAGE_SIZE in Ha.
  assert (Hle : pi_nr_pages pi * PAGE_SIZE <= ULONG_MAX - pi_vaddr pi).
  { match goal with H : pi_nr_pages pi <= (ULONG_MAX - _) / _ |- _ => rename H into Hq end. unfold PAGE_SIZE in *.
    pose proof (Z.mul_div_le (ULONG_MAX - pi_vaddr pi) 4096 ltac:(lia)). lia. }
  assert (Hl : iov_len (psi2iovec pi) = pi_nr_pages pi * PAGE_SIZE).
  { unfold psi2iovec. cbn [iov_len]. apply u64_small. unfold ULONG_MAX, PAGE_SIZE in *. lia. }
  split; [|split; [|done]].
  - pose proof (Z.mod_pos_bound flags (2 ^ 3) ltac:(lia)) as Hm.
    assert (Hf : flags = 0 \/ flags = 1 \/ flags = 2 \/ flags = 3 \/ flags = 4 \/ flags = 5 \/ flags = 6 \/ flags = 7) by lia.
    destruct Hf as [-> |[-> |[-> |[-> |[-> |[-> |[-> | ->]]]]]]]; try done; rewrite !elem_of_cons; auto 7.
  - split; rewrite ?Hl; unfold psi2iovec, aligned; cbn [iov_base]; [done| |unfold ULONG_MAX in *; lia].
    split; [unfold PAGE_SIZE; lia|apply Z_mod_mult].
Qed.

Lemma wire_present flags : flags ∈ [PE_PARENT; PE_LAZY; Z.lor PE_PARENT PE_LAZY; PE_PRESENT; Z.lor PE_PRESENT PE_LAZY] ->
  (Z.land flags PE_PRESENT =? 0) = false -> flags = PE_PRESENT \/ flags = Z.lor PE_PRESENT PE_LAZY.
Proof. rewrite !elem_of_cons. intros [-> |[-> |[-> |[-> |[-> |[]%elem_of_nil]]]]]; auto; done. Qed.

(** ** The received pages *)

(** A page on the wire: its size, then that many bytes. *)
Definition wire_page (d : Z * list Z) : list Z := le_bytes 4 (fst d) ++ snd d.
Definition wire_page_ok (d : Z * list Z) : Prop := zlen (snd d) = fst d /\ fst d <= PAGE_SIZE.

Lemma le_bytes_value l : Forall byte_ok l -> le_bytes (length l) (le_value l) = l.
Proof.
  induction 1 as [|b l Hb _ IH]; [done|]. cbn [length le_value le_bytes]. unfold byte_ok in Hb.
  replace ((b + 256 * le_value l) mod 256) with b.
  - f_equal. replace ((b + 256 * le_value l) / 256) with (le_value l); [done|]. apply (Z.div_unique_pos _ _ _ b); lia.
  - apply (Z.mod_unique_pos _ _ (le_value l)); lia.
Qed.

(** After the pages [dn] of the entry, which found the images as in [x0]. *)
Record recv_inv (x0 : page_xfer) (flags : Z) (dn : list (Z * list Z)) (pad : list Z) (r : recv_state) : Prop := RecvInv {
  ri_xfer : rs_xfer r = grow (pad ++ concat (snd <$> dn)) x0;
  ri_sizes : rs_sizes r = fst <$> dn;
  ri_total : rs_total r = zsum (fst <$> dn);
  ri_raw : rs_all_raw r = forallb (fun c => c =? PAGE_SIZE) (fst <$> dn);
  ri_pages : Forall wire_page_ok dn;
  ri_idle : rs_started r = false -> concat (snd <$> dn) = [] /\ pad = [] /\ rs_flags r = flags;
  ri_pad : rs_flags r = flags /\ pad = [] \/
    rs_flags r = Z.lor flags PE_PAYLOAD_ALIGNED /\ zlen (xf_pi x0 ++ pad) = round_up_page (zlen (xf_pi x0)) /\ zlen pad < PAGE_SIZE
}.

Lemma wire_sizes dn : Forall wire_page_ok dn ->
  zlen (concat (snd <$> dn)) = zsum (fst <$> dn) /\ 0 <= zsum (fst <$> dn) <= zlen dn * PAGE_SIZE.
Proof.
  induction 1 as [|[cs pl] dn [H1 H2] _ [IH1 IH2]]; [done|]. cbn [fst snd] in H1, H2. rewrite !fmap_cons, zsum_cons. cbn [concat fst snd].
  rewrite zlen_app. pose proof (zlen_nonneg pl). replace (zlen ((cs, pl) :: dn)) with (1 + zlen dn) by (unfold zlen; simpl length; lia).
  unfold PAGE_SIZE in *. lia.
Qed.

(** The image state once one more page has been noted. *)
Definition noted_page (cs : Z) (r : recv_state) : recv_state :=
  RecvState (rs_xfer r) (rs_flags r) (rs_sizes r ++ [cs]) (u64 (rs_total r + cs)) (rs_all_raw r && (cs =? PAGE_SIZE)) (rs_started r).

Lemma recv_inv_next x0 flags dn pad r cs payload pad' r' : recv_inv x0 flags dn pad r -> wire_page_ok (cs, payload) ->
  (zlen dn + 1) * PAGE_SIZE < 2 ^ 64 ->
  rs_xfer r' = grow (pad' ++ concat (snd <$> dn) ++ payload) x0 -> rs_sizes r' = rs_sizes (noted_page cs r) ->
  rs_total r' = rs_total (noted_page cs r) -> rs_all_raw r' = rs_all_raw (noted_page cs r) ->
  (rs_started r' = false -> payload = [] /\ rs_started r = false /\ pad' = pad /\ rs_flags r' = rs_flags r) ->
  (rs_flags r' = rs_flags r /\ pad' = pad \/
   rs_started r = false /\ rs_flags r' = Z.lor flags PE_PAYLOAD_ALIGNED /\ zlen (xf_pi x0 ++ pad') = round_up_page (zlen (xf_pi x0)) /\ zlen pad' < PAGE_SIZE) ->
  recv_inv x0 flags (dn ++ [(cs, payload)]) pad' r'.
Proof.
  intros [R1 R2 R3 R4 R5 R6 R7] Hp Hb Hx Hsz Htot Hraw Hst Hpad. destruct (wire_sizes dn R5) as [_ Hs]. destruct Hp as [P1 P2].
  cbn [fst snd] in P1, P2. pose proof (zlen_nonneg payload) as Hpl0.
  assert (Hc : concat (snd <$> (dn ++ [(cs, payload)])) = concat (snd <$> dn) ++ payload).
  { rewrite fmap_app, concat_app. f_equal. simpl. apply app_nil_r. }
  split; rewrite ?Hc; try done.
  - by rewrite Hsz, fmap_app, <- R2.
  - rewrite Htot, fmap_app, zsum_app, <- R3. cbn. rewrite u64_small; [lia|]. unfold PAGE_SIZE in *. lia.
  - rewrite Hraw, fmap_app, forallb_app, <- R4. cbn. by rewrite andb_true_r.
  - apply Forall_app. split; [done|]. apply Forall_cons_2; [done|apply Forall_nil_2].
  - intros E. destruct (Hst E) as (-> & E2 & -> & ->). destruct (R6 E2) as (-> & -> & ->). done.
  - destruct Hpad as [[-> ->]|(E & -> & H)]; [done|]. by right.
Qed.

Lemma recv_payload_ok x0 flags dn pad r e sk cs : recv_inv x0 flags dn pad r -> 0 < cs <= PAGE_SIZE ->
  (zlen dn + 1) * PAGE_SIZE < 2 ^ 64 ->
  exists ok r' sk' e', recv_payload e sk (noted_page cs r) cs = Ret (ok, r', sk', e') /\ sk' `suffix_of` sk /\
    (ok = true -> exists payload pad', sk = payload ++ sk' /\ recv_inv x0 flags (dn ++ [(cs, payload)]) pad' r') /\
    (xenv_ok e -> cs <= zlen sk -> zlen (xf_pi x0) + (zlen dn + 1) * PAGE_SIZE + PAGE_SIZE < 2 ^ 64 -> ok = true /\ xenv_ok e').
Proof.
  intros Hinv Hcs Hb. pose proof Hinv as [R1 R2 R3 R4 R5 R6 R7]. destruct (wire_sizes dn R5) as [Hw1 Hw2].
  unfold recv_payload. cbn [rs_started rs_xfer rs_flags noted_page].
  assert (Hc : counted (rs_xfer r)) by (rewrite R1; apply grow_counted).
  assert (Hpi : zlen (xf_pi (rs_xfer r)) = zlen (xf_pi x0) + zlen pad + zsum (fst <$> dn)) by (rewrite R1; cbn; rewrite !zlen_app; lia).
  assert (Hal : exists ok fl x1 e1 pad', (if negb (rs_started r) && (cs =? PAGE_SIZE) then align_pages_image_payload e (rs_xfer r) (rs_flags r)
      else Ret (true, rs_flags r, rs_xfer r, e)) = Ret (ok, fl, x1, e1) /\
    (ok = true -> x1 = grow (pad' ++ concat (snd <$> dn)) x0 /\
      (fl = rs_flags r /\ pad' = pad \/ rs_started r = false /\ fl = Z.lor flags PE_PAYLOAD_ALIGNED /\
         zlen (xf_pi x0 ++ pad') = round_up_page (zlen (xf_pi x0)) /\ zlen pad' < PAGE_SIZE)) /\
    (xenv_ok e -> zlen (xf_pi x0) + PAGE_SIZE < 2 ^ 64 -> ok = true /\ xenv_ok e1)).
  { destruct (rs_started r) eqn:Est; cbn [negb andb]; [|destruct (cs =? PAGE_SIZE)].
    1,3: exists true, (rs_flags r), (rs_xfer r), e, pad; split; [done|]; split; [|done]; intros _; by split; [|left].
    destruct (R6 eq_refl) as (Z1 & -> & Z3). destruct (align_gen e (rs_xfer r) (rs_flags r) Hc) as (ok & fl & x1 & e1 & pd & -> & A1 & A2 & A3 & A4).
    exists ok, fl, x1, e1, pd. split; [done|]. rewrite R1, Z1, grow_grow in A3. rewrite R1, Z1 in A1, A4. cbn in A1, A4. rewrite app_nil_r in A1, A4.
    split; [|done]. intros Hok. destruct (A3 Hok) as [-> ->]. rewrite Z1, !app_nil_r. split; [done|]. right. by rewrite Z3. }
  destruct Hal as (ok & fl & x1 & e1 & pad' & -> & A1 & A2). simpl obind.
  destruct ok; cbn [negb]; [|eexists _, _, _, _; split; [done|]; split; [done|]; split; [done|]; intros He _ Hm; destruct (A2 He); [unfold PAGE_SIZE in *; lia|done]].
  destruct (A1 eq_refl) as [-> Hpad]. clear A1.
  destruct (recv_full_ok e1 sk cs) as (got & sk' & e2 & -> & B1 & B2 & B3); [lia|]. simpl obind.
  destruct got as [buf|]; [|eexists _, _, _, _; split; [done|]; split; [done|]; split; [done|]; intros He Hk Hm; destruct (A2 He); [unfold PAGE_SIZE in *; lia|]; by destruct B3].
  destruct (B1 buf eq_refl) as [Hsk Hbl]. cbn [rs_xfer rs_image].
  destruct (write_pages_image_data_gen e2 (grow (pad' ++ concat (snd <$> dn)) x0) buf) as (ok & x2 & e3 & -> & C1 & C2); [done|]. simpl obind.
  eexists _, _, _, _. split; [done|]. split; [done|]. split.
  - intros Hok. exists buf, pad'. split; [done|]. eapply (recv_inv_next x0 flags dn pad r); try done; [split; [done|simpl; lia]|].
    cbn [rs_xfer rs_image]. by rewrite (C1 Hok), grow_grow, <- app_assoc.
  - intros He Hk Hm. destruct (A2 He) as [_ He1]; [unfold PAGE_SIZE in *; lia|]. destruct (B3 He1 Hk) as [_ He2]. apply C2; [done|].
    cbn. rewrite !zlen_app, Hw1, Hbl. assert (zlen pad' < PAGE_SIZE); [|lia].
    destruct Hpad as [[_ ->]|(_ & _ & _ & ?)]; [|done]. destruct R7 as [[_ ->]|(_ & _ & ?)]; [done|done].
Qed.

Lemma recv_pages_ok x0 flags n : forall e sk r dn pad, recv_inv x0 flags dn pad r -> Forall byte_ok sk ->
  (zlen dn + Z.of_nat n) * PAGE_SIZE < 2 ^ 64 ->
  exists ok r' sk' e', recv_pages n e sk r = Ret (ok, r', sk', e') /\ sk' `suffix_of` sk /\
    (ok = true -> exists dn' pad', length dn' = n /\ sk = concat (wire_page <$> dn') ++ sk' /\ recv_inv x0 flags (dn ++ dn') pad' r') /\
    (xenv_ok e -> zlen (xf_pi x0) + (zlen dn + Z.of_nat n) * PAGE_SIZE + PAGE_SIZE < 2 ^ 64 ->
     (exists ds rest, sk = concat (wire_page <$> ds) ++ rest /\ length ds = n /\ Forall wire_page_ok ds) -> ok = true /\ xenv_ok e').
Proof.
  induction n as [|n IH]; intros e sk r dn pad Hinv Hbytes Hb.
  { eexists _, _, _, _. split; [done|]. split; [done|]. split; [|done]. intros _. exists [], pad. by rewrite app_nil_r. }
  pose proof (zlen_nonneg dn) as Hd0. cbn [recv_pages].
  destruct (recv_full_ok e sk 4) as (got & sk1 & e1 & -> & A1 & A2 & A3); [lia|]. simpl obind.
  assert (Hwire : (exists ds rest, sk = concat (wire_page <$> ds) ++ rest /\ length ds = S n /\ Forall wire_page_ok ds) ->
    4 <= zlen sk /\ forall c, sk = c ++ sk1 -> zlen c = 4 -> exists d ds rest, le_value c = fst d /\ sk1 = snd d ++ concat (wire_page <$> ds) ++ rest /\
      length ds = n /\ Forall wire_page_ok (d :: ds)).
  { intros (ds & rest & -> & Hl & Hok). destruct ds as [|d ds]; [done|]. rewrite fmap_cons. cbn [concat]. unfold wire_page at 1 3.
    split; [rewrite !zlen_app, zlen_le_bytes; pose proof (zlen_nonneg (snd d)); pose proof (zlen_nonneg (concat (wire_page <$> ds))); pose proof (zlen_nonneg rest); lia|].
    intros c Hc Hc4. rewrite <- !app_assoc in Hc. apply app_inj_1 in Hc as [<- <-]; [|rewrite length_le_bytes; unfold zlen in Hc4; lia].
    exists d, ds, rest. split_and!; [|done|by injection Hl|done]. apply Forall_cons_1 in Hok as [[Hd1 Hd2] _]. pose proof (zlen_nonneg (snd d)).
    apply le_value_bytes. unfold PAGE_SIZE in *. change (256 ^ Z.of_nat 4) with (2 ^ 32). lia. }
  destruct got as [c|]; [|eexists _, _, _, _; split; [done|]; split; [done|]; split; [done|]; intros He _ Hw; destruct (A3 He); [by apply Hwire|done]].
  destruct (A1 c eq_refl) as [Hsk Hc4]. assert (Hcb : Forall byte_ok c) by (rewrite Hsk in Hbytes; by apply Forall_app in Hbytes as [? _]).
  pose proof (le_value_range c Hcb) as Hrg.
  assert (Hcs : le_bytes 4 (le_value c) = c).
  { replace 4%nat with (length c) by (unfold zlen in Hc4; lia). by apply le_bytes_value. }
  set (cs := le_value c) in *. rewrite Z.gtb_ltb. destruct (Z.ltb_spec PAGE_SIZE cs) as [Hbig|Hle].
  { eexists _, _, _, _. split; [done|]. split; [done|]. split; [done|]. intros He _ Hw. destruct (Hwire Hw) as [_ Hw'].
    destruct (Hw' c Hsk Hc4) as (d & ds & rest & E & _ & _ & Hok). apply Forall_cons_1 in Hok as [[_ Hd] _]. lia. }
  fold (noted_page cs r).
  assert (Hstep : exists ok r1 sk2 e2, (if cs >? 0 then recv_payload e1 sk1 (noted_page cs r) cs else Ret (true, noted_page cs r, sk1, e1)) = Ret (ok, r1, sk2, e2) /\
    sk2 `suffix_of` sk1 /\ (ok = true -> exists payload pad', sk1 = payload ++ sk2 /\ recv_inv x0 flags (dn ++ [(cs, payload)]) pad' r1) /\
    (xenv_ok e1 -> cs <= zlen sk1 -> zlen (xf_pi x0) + (zlen dn + 1) * PAGE_SIZE + PAGE_SIZE < 2 ^ 64 -> ok = true /\ xenv_ok e2)).
  { rewrite Z.gtb_ltb. destruct (Z.ltb_spec 0 cs) as [Hpos|Hz].
    - apply (recv_payload_ok x0 flags dn pad r e1 sk1 cs Hinv); [lia|]. unfold PAGE_SIZE in *. lia.
    - eexists _, _, _, _. split; [done|]. split; [done|]. split; [|done]. intros _. exists [], pad. split; [done|].
      eapply (recv_inv_next x0 flags dn pad r); try done; [split; [unfold zlen; simpl; lia|simpl; lia]|unfold PAGE_SIZE in *; lia| |by left].
      cbn [rs_xfer noted_page]. rewrite app_nil_r. apply (ri_xfer _ _ _ _ _ Hinv). }
  destruct Hstep as (ok & r1 & sk2 & e2 & -> & B1 & B2 & B3). simpl obind.
  assert (Henv : xenv_ok e -> zlen (xf_pi x0) + (zlen dn + Z.of_nat (S n)) * PAGE_SIZE + PAGE_SIZE < 2 ^ 64 ->
    (exists ds rest, sk = concat (wire_page <$> ds) ++ rest /\ length ds = S n /\ Forall wire_page_ok ds) -> ok = true /\ xenv_ok e2).
  { intros He Hm Hw. destruct (Hwire Hw) as [H4 Hw']. destruct (A3 He H4) as [_ He1]. apply B3; [done| |unfold PAGE_SIZE in *; lia].
    destruct (Hw' c Hsk Hc4) as (d & ds & rest & E & -> & _ & Hok). apply Forall_cons_1 in Hok as [[Hd _] _].
    rewrite zlen_app. pose proof (zlen_nonneg (concat (wire_page <$> ds) ++ rest)). fold cs in E. lia. }
  destruct ok; cbn [negb]; [|eexists _, _, _, _; split; [done|]; split; [by etrans|]; split; [done|]; intros He Hm Hw; by destruct (Henv He Hm Hw)].
  destruct (B2 eq_refl) as (payload & pad1 & Hsk1 & Hinv1).
  assert (Hzl : zlen (dn ++ [(cs, payload)]) = zlen dn + 1) by (by rewrite zlen_app).
  destruct (IH e2 sk2 r1 (dn ++ [(cs, payload)]) pad1 Hinv1) as (ok & r2 & sk3 & e3 & -> & C1 & C2 & C3).
  { eapply suffix_bytes; [|exact Hbytes]. by etrans. }
  { rewrite Hzl. unfold PAGE_SIZE in *. lia. }
  eexists _, _, _, _. split; [done|]. split; [by repeat (etrans; [done|])|]. split.
  - intros Hok. destruct (C2 Hok) as (dn' & pad' & Hl & Hs & Hi). exists ((cs, payload) :: dn'), pad'. split; [simpl; by rewrite Hl|].
    split; [|by rewrite <- app_assoc in Hi]. rewrite fmap_cons. cbn [concat]. unfold wire_page at 1. cbn [fst snd].
    by rewrite Hsk, Hsk1, Hs, <- !app_assoc, Hcs.
  - intros He Hm Hw. destruct (Henv He Hm Hw) as [_ He2]. apply C3; [done|rewrite Hzl; unfold PAGE_SIZE in *; lia|].
    destruct (Hwire Hw) as [_ Hw']. destruct (Hw' c Hsk Hc4) as (d & ds & rest & E & Hs & Hl & Hok). apply Forall_cons_1 in Hok as [[Hd _] Hok].
    exists ds, rest. split; [|done]. rewrite Hs in Hsk1. apply app_inj_1 in Hsk1 as [_ <-]; [done|].
    pose proof (ri_pages _ _ _ _ _ Hinv1) as Hp. apply Forall_app in Hp as [_ Hp]. apply Forall_cons_1 in Hp as [[Hp _] _].
    simpl in Hp. unfold zlen in *. fold cs in E. lia.
Qed.

(** ** The entry of the received pages *)
Lemma wire_blocks_fit nr dn : Forall wire_page_ok dn -> forall i, 0 <= i -> i + zlen dn <= nr -> blocks_fit nr 1 i (fst <$> dn).
Proof.
  induction 1 as [|[cs pl] dn [H1 H2] _ IH]; intros i Hi Hn; [done|]. cbn [fst snd] in H1, H2. rewrite fmap_cons. cbn [blocks_fit fst].
  replace (zlen ((cs, pl) :: dn)) with (1 + zlen dn) in Hn by (unfold zlen; simpl length; lia).
  pose proof (zlen_nonneg dn). pose proof (zlen_nonneg pl). unfold block_pages_at.
  split; [rewrite Z.min_l by lia; lia|]. apply IH; lia.
Qed.

Lemma all_raw_sum_pages (dn : list (Z * list Z)) : forallb (fun c => c =? PAGE_SIZE) (fst <$> dn) = true -> zsum (fst <$> dn) = zlen dn * PAGE_SIZE.
Proof.
  induction dn as [|[cs pl] dn IH]; [done|]. rewrite fmap_cons, zsum_cons. cbn [forallb fst]. intros [->%Z.eqb_eq H]%andb_prop.
  rewrite (IH H). replace (zlen ((PAGE_SIZE, pl) :: dn)) with (1 + zlen dn) by (unfold zlen; simpl length; lia). lia.
Qed.

Definition recv_blocks (r : recv_state) : option pagemap_blocks :=
  if rs_all_raw r then None else Some (PagemapBlocks (rs_sizes r) (rs_total r) 1).

Lemma recv_entry_ok x0 flags dn pad r vaddr nr : recv_inv x0 flags dn pad r -> zlen dn = nr -> 0 < nr ->
  flags = PE_PRESENT \/ flags = Z.lor PE_PRESENT PE_LAZY -> vaddr mod PAGE_SIZE = 0 -> 0 <= vaddr -> vaddr + nr * PAGE_SIZE < 2 ^ 64 ->
  let pe := new_entry vaddr nr (rs_flags r) (recv_blocks r) in
  entry_ok pe /\ pagemap_present pe = true /\ pagemap_in_parent pe = false /\
  entry_start pe (zlen (xf_pi x0)) = zlen (xf_pi x0 ++ pad) /\ zlen (xf_pi (rs_xfer r)) = entry_stop pe (zlen (xf_pi x0)).
Proof.
  intros [R1 R2 R3 R4 R5 R6 R7] Hl Hn Hf Ha Hv He pe. destruct (wire_sizes dn R5) as [W1 W2].
  assert (Hfl : pagemap_present pe = true /\ pagemap_in_parent pe = false /\ entry_start pe (zlen (xf_pi x0)) = zlen (xf_pi x0 ++ pad)).
  { unfold entry_start, pagemap_present, pagemap_in_parent, pagemap_payload_aligned, pe, new_entry. cbn [pe_flags].
    destruct R7 as [[-> ->]|(-> & Hp & _)]; destruct Hf as [-> | ->]; cbn; rewrite ?app_nil_r; split_and!; done. }
  destruct Hfl as (F1 & F2 & F3). split; [|split; [done|split; [done|split; [done|]]]].
  - split; [done|]. split; [done|]. cbn [pe_vaddr pe_nr_pages pe new_entry]. split_and!; try done.
    intros b Hb. split; [done|]. cbn [pe_blocks pe new_entry] in Hb. unfold recv_blocks in Hb. destruct (rs_all_raw r); [done|]. injection Hb as <-.
    unfold blocks_ok, n_block_sizes. cbn [pages_per_block block_sizes total_payload_size]. rewrite R2, R3.
    replace (zlen (fst <$> dn)) with nr by (rewrite <- Hl; unfold zlen; by rewrite length_fmap).
    split_and!; try done; try lia. apply wire_blocks_fit; [done|lia|lia].
  - unfold entry_stop. rewrite F3, R1. cbn [xf_pi grow set_pio set_pi]. rewrite app_assoc, (zlen_app _ (concat _)), W1. f_equal.
    unfold entry_payload. rewrite F1. cbn [pe_blocks pe new_entry]. unfold recv_blocks. rewrite R4.
    destruct (forallb _ _) eqn:Er; [|cbn [block_sizes]; by rewrite R2]. cbn [pe_nr_pages pe new_entry]. rewrite <- Hl. by apply all_raw_sum_pages.
Qed.

(** ** Whatever arrives *)

(** The two images agree. *)
Record image_wf (x : page_xfer) : Prop := ImageWf {
  iw_entries : Forall entry_ok (xf_pmi x);
  iw_size : pages_end 0 (xf_pmi x) = zlen (xf_pi x);
  iw_counted : counted x
}.

Record server_wf (s : page_server) : Prop := ServerWf {
  sw_open : cx_dst_id (sv_cxfer s) <> NO_DST -> image_wf (loc_xfer (sv_cxfer s));
  sw_parent : xf_parent (loc_xfer (sv_cxfer s)) = [];
  sw_done : Forall (fun d => image_wf (snd d)) (sv_done s);
  sw_pipe : cx_pipe (sv_cxfer s) = [] /\ 0 <= cx_pipe_size (sv_cxfer s);
  sw_bytes : Forall byte_ok (sv_in s);
  sw_pps : sv_pps s = ∅
}.

Lemma image_wf_entry x x' pe g : image_wf x -> entry_ok pe -> xf_pmi x' = xf_pmi x ++ [pe] -> xf_pi x' = xf_pi x ++ g ->
  zlen (xf_pi x') = entry_stop pe (zlen (xf_pi x)) -> counted x' -> image_wf x'.
Proof.
  intros [W1 W2 W3] Hpe Hm Hg Hz Hc. split; [|by rewrite Hm, pages_end_snoc, W2|done].
  rewrite Hm. apply Forall_app. split; [done|]. apply Forall_cons_2; [done|apply Forall_nil_2].
Qed.

Lemma wire_entry_ok iov flags : range_pages iov -> flags ∈ [PE_PARENT; PE_LAZY; Z.lor PE_PARENT PE_LAZY; PE_PRESENT; Z.lor PE_PRESENT PE_LAZY] ->
  let pe := new_entry (iov_base iov) (iov_len iov / PAGE_SIZE) flags None in
  entry_ok pe /\ entry_start pe = (fun off => off) /\ entry_payload pe = (if Z.land flags PE_PRESENT =? 0 then 0 else iov_len iov).
Proof.
  intros Hr Hf pe. destruct (range_nr iov Hr) as (N1 & N2 & _). destruct Hr as [[B1 B2] [L1 L2] E].
  assert (Hnp : pagemap_present pe = negb (Z.land flags PE_PRESENT =? 0) /\ pagemap_payload_aligned pe = false /\
    (pagemap_present pe = true -> pagemap_in_parent pe = false)).
  { unfold pe, pagemap_present, pagemap_payload_aligned, pagemap_in_parent, new_entry. cbn [pe_flags].
    rewrite !elem_of_cons in Hf. by destruct Hf as [-> |[-> |[-> |[-> |[-> |[]%elem_of_nil]]]]]. }
  destruct Hnp as (P1 & P2 & P3). split; [|split].
  - split; [by rewrite P2|]. split; [done|]. cbn [pe_vaddr pe_nr_pages pe_blocks pe new_entry]. split_and!; try done.
    unfold entry_end. cbn [pe_vaddr pe_nr_pages pe new_entry]. lia.
  - unfold entry_start. by rewrite P2, andb_false_r.
  - unfold entry_payload. rewrite P1. destruct (_ =? 0); [done|]. cbn [negb pe_blocks pe new_entry pe_nr_pages]. lia.
Qed.

Section Safety.
Context (auto_dedup ps_socket : bool) (dir : img_dir) (pad : list Z).
Context (Hdir : dir_parent dir <> Some true).

(** What a handler leaves: nothing is received twice, and after a success the
    state is well formed. *)
Definition handled (s : page_server) (ok : bool) (s' : page_server) : Prop :=
  sv_in s' `suffix_of` sv_in s /\ (ok = true -> server_wf s').

Lemma close_wf s : server_wf s -> server_wf (page_server_close s) /\ cx_dst_id (sv_cxfer (page_server_close s)) = NO_DST /\
  sv_in (page_server_close s) = sv_in s.
Proof.
  intros [W1 W2 W3 W4 W5 W6]. unfold page_server_close. destruct (Z.eqb_spec (cx_dst_id (sv_cxfer s)) NO_DST) as [E|E]; cbn [negb]; [done|].
  split; [|done]. split; try done. apply Forall_cons_2; [|done]. destruct (W1 E) as [I1 I2 I3]. by split.
Qed.

Lemma decode_pm_dst dst t : decode_pm dst = Some t -> dst <> NO_DST.
Proof. intros H ->. by vm_compute in H. Qed.

Lemma send_reply_ok e s buf : exists ok s' e', send_reply e s buf = Ret (ok, s', e') /\ (exists out, s' = set_out out s /\ (ok = true -> out = sv_out s ++ buf)) /\
  (xenv_ok e -> ok = true /\ xenv_ok e').
Proof.
  unfold send_reply. destruct (send_full_ok e (sv_out s) buf) as (ok & out & e' & -> & H1 & H2). simpl.
  eexists _, _, _. split; [done|]. split; [by exists out|done].
Qed.

Lemma open_wf reply e s pi : server_wf s ->
  exists ok s' e', page_server_open dir reply e s pi = Ret (ok, s', e') /\ handled s ok s' /\
    (ok = true -> images_open s' = true).
Proof.
  intros Hw. unfold page_server_open. destruct (decode_pm (pi_dst_id pi)) as [[type id]|] eqn:Ed; [|by eexists _, _, _].
  destruct (close_wf s Hw) as (Hw1 & Hd1 & Hi1). set (s1 := page_server_close s) in *.
  assert (Hopen : exists ok x e1, open_page_local_xfer dir e (loc_xfer (sv_cxfer s1)) type id = (ok, x, e1) /\
    (ok = true -> image_wf x /\ xf_parent x = [])).
  { unfold open_page_local_xfer. destruct (negb (dir_image dir type id)); [by eexists _, _, _|].
    destruct (negb (dir_pages dir type id)); [by eexists _, _, _|].
    destruct ((type =? CR_FD_PAGEMAP) || (type =? CR_FD_SHMEM_PAGEMAP)); [destruct (dir_parent dir) as [[]|]; [done| |by eexists _, _, _]|];
      (eexists _, _, _; split; [done|]; intros _; split; [by split|done]). }
  destruct Hopen as (ok & x & e1 & -> & Hx). destruct ok; cbn [negb]; [|eexists _, _, _; split; [done|]; split; [split; [by rewrite <- Hi1|done]|done]].
  destruct (Hx eq_refl) as [Hxw Hxp]. pose proof (decode_pm_dst _ _ Ed) as Hnd.
  set (s2 := set_dst (pi_dst_id pi) (set_loc x s1)).
  assert (Hw2 : server_wf s2) by (destruct Hw1; by split).
  assert (Ho2 : images_open s2 = true) by (unfold images_open; cbn; apply negb_true_iff, Z.eqb_neq; done).
  assert (Hi2 : sv_in s2 = sv_in s) by done.
  destruct reply; [|eexists _, _, _; split; [done|]; split; [split; [by rewrite Hi2|done]|done]].
  destruct (send_reply_ok e1 s2 (le_bytes 1 (match xf_parent x with [] => 0 | _ => 1 end))) as (ok & s3 & e3 & -> & (out & -> & _) & _). simpl obind.
  assert (Hw3 : server_wf (set_out out s2)) by (destruct Hw2; by split).
  destruct ok; cbn [negb]; eexists _, _, _; (split; [done|]).
  - split; [split; [by cbn; rewrite Hi1|done]|done].
  - split; [|done]. split; [|done]. rewrite (proj2 (proj2 (close_wf _ Hw3))). cbn. by rewrite Hi1.
Qed.

Lemma prep_wf e s pi : server_wf s ->
  exists ok s' e', prep_loc_xfer dir e s pi = Ret (ok, s', e') /\ handled s ok s' /\
    (ok = true -> images_open s' = true \/ pi_dst_id pi = NO_DST).
Proof.
  intros Hw. unfold prep_loc_xfer. destruct (Z.eqb_spec (cx_dst_id (sv_cxfer s)) (pi_dst_id pi)) as [E|E]; cbn [negb].
  - eexists _, _, _. split; [done|]. split; [by split|]. intros _. unfold images_open. rewrite E.
    destruct (Z.eqb_spec (pi_dst_id pi) NO_DST); auto.
  - destruct (open_wf false e s pi Hw) as (ok & s' & e' & -> & H1 & H2). eexists _, _, _. split; [done|]. auto.
Qed.

Lemma images_open_wf s : server_wf s -> images_open s = true -> image_wf (loc_xfer (sv_cxfer s)).
Proof. intros [W _ _ _ _ _] H%negb_true_iff%Z.eqb_neq. by apply W. Qed.

Lemma set_loc_wf x s : server_wf s -> image_wf x -> xf_parent x = [] -> server_wf (set_loc x s).
Proof. intros [W1 W2 W3 W4 W5 W6] Hx Hp. by split. Qed.

Lemma set_in_wf l s : server_wf s -> l `suffix_of` sv_in s -> server_wf (set_in l s).
Proof. intros [W1 W2 W3 W4 W5 W6] Hl. split; try done. by eapply suffix_bytes. Qed.

(** Without a parent, [write_pagemap_loc] only writes the entry. *)
Lemma write_pagemap_loc_orphan e x iov flags : xf_parent x = [] ->
  write_pagemap_loc auto_dedup e x iov flags = Ret (pb_write_pagemap e x (new_entry (iov_base iov) (iov_len iov / PAGE_SIZE) flags None)).
Proof.
  intros Hp. unfold write_pagemap_loc, dedup_parent, check_hole. rewrite Hp.
  by destruct (negb (Z.land flags PE_PRESENT =? 0)), (negb (Z.land flags PE_PARENT =? 0)).
Qed.

(** An entry without payload. *)
Lemma absent_wf e s iov flags : server_wf s -> images_open s = true -> range_pages iov ->
  flags ∈ [PE_PARENT; PE_LAZY; Z.lor PE_PARENT PE_LAZY; PE_PRESENT; Z.lor PE_PRESENT PE_LAZY] -> Z.land flags PE_PRESENT = 0 ->
  exists ok x e', write_pagemap_loc auto_dedup e (loc_xfer (sv_cxfer s)) iov flags = Ret (ok, x, e') /\ (ok = true -> server_wf (set_loc x s)).
Proof.
  intros Hw Ho Hr Hf Hp. rewrite (write_pagemap_loc_orphan e _ iov flags (sw_parent _ Hw)).
  destruct (wire_entry_ok iov flags Hr Hf) as (E1 & E2 & E3). cbv zeta in E1, E2, E3.
  destruct (pb_write_ok e (loc_xfer (sv_cxfer s)) (new_entry (iov_base iov) (iov_len iov / PAGE_SIZE) flags None)) as (ok & x & e' & -> & H1 & _).
  exists ok, x, e'. split; [done|]. intros Hok. rewrite (H1 Hok). apply set_loc_wf; [done| |apply (sw_parent _ Hw)].
  apply (image_wf_entry (loc_xfer (sv_cxfer s)) _ _ [] (images_open_wf _ Hw Ho) E1); cbn; [done|by rewrite app_nil_r| |].
  - unfold entry_stop. rewrite E2, E3, Hp. simpl. lia.
  - apply (iw_counted _ (images_open_wf _ Hw Ho)).
Qed.

(** The only commands that can crash a receiving server. *)
Definition crashing (pi : page_server_iov) : Prop :=
  decode_ps_cmd (pi_cmd pi) = PS_IOV_GET \/ pi_dst_id pi = NO_DST.

Definition psi_ok (pi : page_server_iov) : Prop :=
  0 <= pi_cmd pi < 2 ^ 32 /\ 0 <= pi_nr_pages pi /\ 0 <= pi_vaddr pi.

Definition safe_result (s : page_server) (pi : page_server_iov) (r : result_s) : Prop :=
  match r with
  | Ret (ok, s', _) => handled s ok s'
  | Bug => crashing pi
  | NoFuel => False
  end.

Lemma handled_trans s ok s1 ok' s2 : handled s ok s1 -> handled s1 ok' s2 -> handled s ok' s2.
Proof. intros [A1 _] [B1 B2]. split; [by etrans|done]. Qed.

Lemma add_compressed_safe e s pi flags : server_wf s -> psi_ok pi ->
  safe_result s pi (page_server_add_compressed auto_dedup dir e s pi flags).
Proof.
  intros Hw (_ & Hn & Hv). unfold page_server_add_compressed. destruct (validate_page_server_iov pi flags) eqn:Eval; cbn [negb]; [|by split].
  destruct (validate_ok pi flags Hn Hv Eval) as (Hf & Hr & Hlen).
  destruct (prep_wf e s pi Hw) as (ok & s1 & e1 & -> & Hh1 & Ho1). simpl obind.
  destruct ok; cbn [negb]; [|by destruct Hh1]. pose proof (proj2 Hh1 eq_refl) as Hw1.
  destruct (images_open s1) eqn:Eo; cbn [negb]; [|by destruct (Ho1 eq_refl); [|right]].
  pose proof (images_open_wf _ Hw1 Eo) as Hi. set (x := loc_xfer (sv_cxfer s1)) in *.
  destruct (Z.eqb_spec (Z.land flags PE_PRESENT) 0) as [Hp|Hp].
  { destruct (absent_wf e1 s1 (psi2iovec pi) flags Hw1 Eo Hr Hf Hp) as (ok & x' & e' & Hrun & H1). fold x in Hrun. rewrite Hrun. simpl obind.
    split; [apply (proj1 Hh1)|done]. }
  apply wire_present in Hf; [|by apply Z.eqb_neq].
  assert (Hd : forall a b, dedup_parent auto_dedup e1 x a b = Ret (true, x, e1))
    by (intros a b; unfold dedup_parent, x; by rewrite (sw_parent _ Hw1)).
  rewrite Hd. simpl obind. cbn [negb]. destruct (xe_alloc e1) as [ok e2]. destruct ok; cbn [negb]; [|by split; [apply (proj1 Hh1)|]].
  destruct Hr as [[B1 B2] [L1 L2] Hend]. cbn [psi2iovec iov_base] in B1, B2, Hend. rewrite Hlen in L1, Hend.
  assert (Hinv0 : recv_inv x flags [] [] (RecvState x flags [] 0 true false)).
  { split; try done; [cbn; rewrite grow_nil; [done|apply (iw_counted _ Hi)]|by left]. }
  destruct (recv_pages_ok x flags (Z.to_nat (pi_nr_pages pi)) e2 (sv_in s1) _ [] [] Hinv0 (sw_bytes _ Hw1)) as (ok & r & sk & e3 & Hrun & Hs & H1 & _).
  { change (zlen []) with 0. rewrite Z2Nat.id by done. unfold PAGE_SIZE in *. lia. }
  cbn [sv_in set_loc set_cxfer]. rewrite Hrun. simpl obind. clear Hrun.
  assert (Hin : sk `suffix_of` sv_in s) by (etrans; [exact Hs|apply (proj1 Hh1)]).
  destruct ok; cbn [negb]; [|by split]. destruct (H1 eq_refl) as (dn & pd & Hl & _ & Hinv). cbn [app] in Hinv. clear H1.
  assert (Hln : zlen dn = pi_nr_pages pi) by (unfold zlen; rewrite Hl; lia).
  destruct (recv_entry_ok x flags dn pd r (pi_vaddr pi) (pi_nr_pages pi) Hinv Hln) as (E1 & _ & _ & _ & E5); try done; [unfold PAGE_SIZE in *; lia|].
  cbv zeta in E1, E5. fold (recv_blocks r). cbn [psi2iovec iov_base].
  destruct (pb_write_ok e3 (rs_xfer r) (new_entry (pi_vaddr pi) (pi_nr_pages pi) (rs_flags r) (recv_blocks r))) as (ok & x' & e4 & -> & P1 & _).
  split; [done|]. intros Hok. rewrite (P1 Hok). pose proof (ri_xfer _ _ _ _ _ Hinv) as Hx.
  assert (Hw2 : server_wf (set_in sk s1)) by (by apply set_in_wf).
  change (server_wf (set_loc (set_pmi (xf_pmi (rs_xfer r) ++ [new_entry (pi_vaddr pi) (pi_nr_pages pi) (rs_flags r) (recv_blocks r)]) (rs_xfer r)) (set_in sk s1))).
  apply set_loc_wf; [done| |by rewrite Hx; apply (sw_parent _ Hw1)].
  eapply (image_wf_entry x _ _ (pd ++ concat (snd <$> dn)) Hi E1); [by rewrite Hx|by rewrite Hx|exact E5|by rewrite Hx].
Qed.

(** The entry is there already; its payload follows piece by piece. *)
Lemma add_loop_safe fuel : forall e s x0 len src, loc_xfer (sv_cxfer s) = set_direct (pi_use_direct (loc_xfer (sv_cxfer s))) (grow src x0) ->
  0 <= len < 2 ^ 64 -> len <= Z.of_nat fuel -> cx_pipe (sv_cxfer s) = [] /\ 0 <= cx_pipe_size (sv_cxfer s) ->
  exists ok s' e', add_loop fuel e s len = Ret (ok, s', e') /\ sv_in s' `suffix_of` sv_in s /\
    (ok = true -> exists d more sk, sv_in s = more ++ sk /\ zlen more = len /\ s' = set_in sk (set_loc (set_direct d (grow (src ++ more) x0)) s)) /\
    (xenv_ok e -> 0 < cx_pipe_size (sv_cxfer s) -> len < 2 ^ 63 -> len <= zlen (sv_in s) -> zlen (xf_pi x0 ++ src) + len < 2 ^ 64 -> ok = true /\ xenv_ok e').
Proof.
  induction fuel as [|fuel IH]; intros e s x0 len src Hx Hl Hf [Hpipe Hps0]; cbn [add_loop]; destruct (Z.ltb_spec 0 len) as [Hpos|Hz]; try lia.
  1,3: eexists _, _, _; (split; [done|]); (split; [done|]); (split; [|done]); intros _; exists (pi_use_direct (loc_xfer (sv_cxfer s))), [], (sv_in s);
    (split; [done|]); (split; [unfold zlen; simpl; lia|]); rewrite app_nil_r, <- Hx; by destruct s as [[] ? ? ? ? ?].
  set (chunk := if _ >? _ then _ else _). destruct (xe_fcntl e) as [ok e1] eqn:Ef.
  assert (Hf1 : xenv_ok e -> ok = true /\ xenv_ok e1) by (intros ->; by injection Ef as <- <-).
  destruct ok; cbn [negb]; [|eexists _, _, _; split; [done|]; split; [done|]; split; [done|]; intros He; by destruct (Hf1 He)].
  destruct (io_answer (x_splices e1) (u64 chunk)) as [ret l] eqn:Ea. destruct (io_answer_range _ _ _ _ Ea) as (A1 & A2 & _ & _).
  assert (Hcap : u64 chunk <= len).
  { unfold chunk, s64, u64. rewrite Z.gtb_ltb. pose proof (Z.mod_pos_bound (len + 2 ^ 63) (2 ^ 64) ltac:(lia)) as Hm.
    assert (Hs : (len + 2 ^ 63) mod 2 ^ 64 - 2 ^ 63 = len \/ (len + 2 ^ 63) mod 2 ^ 64 - 2 ^ 63 = len - 2 ^ 64).
    { destruct (Z.lt_ge_cases len (2 ^ 63)); [left; rewrite Z.mod_small; lia|right].
      rewrite <- (Z.mod_unique_pos (len + 2 ^ 63) (2 ^ 64) 1 (len - 2 ^ 63)); lia. }
    destruct (Z.ltb_spec (cx_pipe_size (sv_cxfer s)) ((len + 2 ^ 63) mod 2 ^ 64 - 2 ^ 63)).
    - rewrite Z.mod_small; lia.
    - destruct Hs as [-> | ->]; [rewrite Z.mod_small; lia|]. replace (len - 2 ^ 64) with (len + -1 * 2 ^ 64) by lia.
      rewrite Z_mod_plus_full, Z.mod_small; lia. }
  assert (Hgood : xenv_ok e -> 0 < cx_pipe_size (sv_cxfer s) -> len < 2 ^ 63 -> 0 < ret <= len /\ l = []).
  { intros He Hps Hlm. destruct (Hf1 He) as [_ ->]. destruct (A2 eq_refl) as [-> ->]. split; [|done]. unfold chunk. rewrite s64_small by lia.
    rewrite Z.gtb_ltb. destruct (Z.ltb_spec (cx_pipe_size (sv_cxfer s)) len); rewrite u64_small by lia; lia. }
  destruct (Z.ltb_spec ret 0) as [Hneg|Hnn]; [eexists _, _, _; split; [done|]; split; [done|]; split; [done|]; intros He Hps Hlm; destruct (Hgood He Hps Hlm); lia|].
  set (got := take (Z.to_nat ret) (sv_in s)). destruct (Z.eqb_spec (zlen got) 0) as [Hg0|Hg0].
  { eexists _, _, _. split; [done|]. split; [done|]. split; [done|]. intros He Hps Hlm Hav. destruct (Hgood He Hps Hlm) as [Hr _].
    unfold got, zlen in *. rewrite length_take in Hg0. lia. }
  cbn [sv_cxfer set_in set_pipe set_cxfer cx_pipe loc_xfer]. rewrite Hpipe. cbn [app].
  assert (Hc : counted (loc_xfer (sv_cxfer s))) by (rewrite Hx; done). pose proof (zlen_nonneg got) as Hgn.
  destruct (write_pages_loc_gen (xe_splices l e1) (loc_xfer (sv_cxfer s)) got (zlen got)) as (ok & x1 & pipe & e2 & -> & W1 & W2); [done|lia|]. simpl obind.
  assert (Hsk : sv_in s = got ++ drop (Z.to_nat ret) (sv_in s)) by (unfold got; by rewrite take_drop).
  assert (Henv : xenv_ok e -> 0 < cx_pipe_size (sv_cxfer s) -> len < 2 ^ 63 -> len <= zlen (sv_in s) -> zlen (xf_pi x0 ++ src) + len < 2 ^ 64 ->
    (ok = true /\ xenv_ok e2) /\ zlen got <= len).
  { intros He Hps Hlm Hav Hsz. destruct (Hgood He Hps Hlm) as [Hr ->]. assert (zlen got <= len) by (unfold got, zlen in *; rewrite length_take; lia).
    split; [|done]. apply W2; [destruct (Hf1 He) as [_ ->]; done|done|]. rewrite Hx. cbn. lia. }
  destruct ok; cbn [negb]; [|eexists _, _, _; split; [done|]; split; [apply suffix_drop|]; split; [done|]; intros He H1 H2 H3 H4; by destruct (Henv He H1 H2 H3 H4) as [[]]].
  destruct (W1 eq_refl) as (d & src1 & Hx1 & Hsp & Hsl).
  assert (src1 = got /\ pipe = []) as [-> ->].
  { rewrite <- (app_nil_r got) in Hsp. apply app_inj_1 in Hsp as [<- <-]; [done|]. unfold zlen in Hsl. lia. }
  assert (Hgl : zlen got <= len) by (unfold got, zlen in *; rewrite length_take; lia).
  match goal with |- context [add_loop fuel e2 ?t _] => set (s2 := t) end.
  destruct (IH e2 s2 x0 (len - zlen got) (src ++ got)) as (ok & s3 & e3 & -> & B1 & B2 & B3); [|lia|lia|done|].
  { cbn. rewrite Hx1, Hx. unfold grow. cbn. by rewrite !app_assoc. }
  eexists _, _, _. split; [done|]. split; [etrans; [exact B1|apply suffix_drop]|]. split.
  - intros Hok. destruct (B2 Hok) as (d' & more & sk & C1 & C2 & ->). exists d', (got ++ more), sk. cbn [s2 sv_in set_pipe set_loc set_in set_cxfer] in C1.
    split; [by rewrite Hsk, C1, app_assoc|]. split; [rewrite zlen_app; lia|]. rewrite app_assoc. unfold s2. destruct s as [[] ? ? ? ? ?]. cbn in *. by subst.
  - intros He H1 H2 H3 H4. destruct (Henv He H1 H2 H3 H4) as [[_ He2] _]. apply B3; [done|done|lia| |].
    + cbn. rewrite Hsk, zlen_app in H3. lia.
    + rewrite app_assoc, zlen_app. lia.
Qed.

Lemma set_direct_id x : set_direct (pi_use_direct x) x = x.
Proof. by destruct x. Qed.

Lemma add_safe e s pi flags : server_wf s -> psi_ok pi -> safe_result s pi (page_server_add auto_dedup dir e s pi flags).
Proof.
  intros Hw (_ & Hn & Hv). unfold page_server_add. destruct (validate_page_server_iov pi flags) eqn:Eval; cbn [negb]; [|by split].
  destruct (validate_ok pi flags Hn Hv Eval) as (Hf & Hr & Hlen).
  destruct (prep_wf e s pi Hw) as (ok & s1 & e1 & -> & Hh1 & Ho1). cbn [obind].
  destruct ok; cbn [negb]; [|by destruct Hh1]. pose proof (proj2 Hh1 eq_refl) as Hw1.
  destruct (images_open s1) eqn:Eo; cbn [negb]; [|by destruct (Ho1 eq_refl); [|right]].
  pose proof (images_open_wf _ Hw1 Eo) as Hi. set (x := loc_xfer (sv_cxfer s1)) in *.
  destruct (Z.eqb_spec (Z.land flags PE_PRESENT) 0) as [Hp|Hp].
  { destruct (absent_wf e1 s1 (psi2iovec pi) flags Hw1 Eo Hr Hf Hp) as (ok & x' & e' & Hrun & H1). fold x in Hrun. rewrite Hrun. cbn [obind].
    destruct ok; cbn [negb]; [|by split; [apply (proj1 Hh1)|]]. split; [apply (proj1 Hh1)|]. intros _. by apply H1. }
  rewrite write_pagemap_loc_orphan by apply (sw_parent _ Hw1). cbn [obind].
  destruct (wire_entry_ok (psi2iovec pi) flags Hr Hf) as (E1 & E2 & E3). cbv zeta in E1, E2, E3.
  set (pe := new_entry (iov_base (psi2iovec pi)) (iov_len (psi2iovec pi) / PAGE_SIZE) flags None) in *.
  destruct (pb_write_ok e1 x pe) as (ok & x1 & e2 & -> & P1 & _). destruct ok; cbn [negb]; [|by split; [apply (proj1 Hh1)|]].
  rewrite (P1 eq_refl). clear P1. set (len := iov_len (psi2iovec pi)) in *. set (x2 := set_pmi (xf_pmi x ++ [pe]) x).
  pose proof (iw_counted _ Hi) as Hc. destruct Hr as [_ [L1 _] Hend]. fold len in L1, Hend. change (iov_base (psi2iovec pi)) with (pi_vaddr pi) in Hend.
  destruct (add_loop_safe (Z.to_nat len) e2 (set_loc x2 s1) x2 len []) as (ok & s2 & e3 & -> & A1 & A2 & _);
    [cbn [loc_xfer set_loc set_cxfer sv_cxfer]; rewrite (grow_nil x2) by exact Hc; by rewrite set_direct_id|lia|lia|apply (sw_pipe _ Hw1)|].
  cbn [safe_result]. split; [etrans; [exact A1|apply (proj1 Hh1)]|]. intros Hok. destruct (A2 Hok) as (d & more & sk & B1 & B2 & ->). cbn [app].
  change (server_wf (set_loc (set_direct d (grow more x2)) (set_in sk s1))). apply set_loc_wf; [|  |apply (sw_parent _ Hw1)].
  - apply set_in_wf; [done|]. exists more. exact B1.
  - apply (image_wf_entry x _ pe more Hi E1); [done|done| |done]. cbn. rewrite zlen_app, B2. unfold entry_stop. rewrite E2, E3.
    by destruct (Z.eqb_spec (Z.land flags PE_PRESENT) 0).
Qed.

Lemma serve_cmd_safe e s pi : server_wf s -> psi_ok pi ->
  match serve_cmd auto_dedup dir pad e s pi with
  | Ret (ret, flushed, s', _) => sv_in s' `suffix_of` sv_in s /\ (ret = 0 -> server_wf s') /\
      (flushed = true -> decode_ps_cmd (pi_cmd pi) = PS_IOV_CLOSE \/ decode_ps_cmd (pi_cmd pi) = PS_IOV_FORCE_CLOSE)
  | Bug => crashing pi
  | NoFuel => False
  end.
Proof.
  intros Hw Hpi. unfold serve_cmd. cbv zeta.
  assert (Hrun : forall r, safe_result s pi r ->
    match (let! (ok, s, e) := r in Ret (if ok then 0 else -1, false, s, e)) : outcome (Z * bool * page_server * xenv) with
    | Ret (ret, flushed, s', _) => sv_in s' `suffix_of` sv_in s /\ (ret = 0 -> server_wf s') /\
        (flushed = true -> decode_ps_cmd (pi_cmd pi) = PS_IOV_CLOSE \/ decode_ps_cmd (pi_cmd pi) = PS_IOV_FORCE_CLOSE)
    | Bug => crashing pi
    | NoFuel => False
    end).
  { intros [[[ok s'] e']| |] Hr; cbn [obind]; try done. destruct Hr as [H1 H2]. split; [done|]. split; [|done]. destruct ok; [intros _; by apply H2|lia]. }
  assert (Hopen : forall reply, safe_result s pi (page_server_open dir reply e s pi)).
  { intros reply. destruct (open_wf reply e s pi Hw) as (ok & s' & e' & -> & H & _). exact H. }
  assert (Hreply : forall buf, exists ok s' e', send_reply e s buf = Ret (ok, s', e') /\ handled s ok s').
  { intros buf. destruct (send_reply_ok e s buf) as (ok & s' & e' & Hs & (out & -> & _) & _). exists ok, (set_out out s), e'.
    split; [done|]. split; [done|]. intros _. destruct Hw; by split. }
  destruct (_ =? PS_IOV_OPEN); [by apply Hrun|]. destruct (_ =? PS_IOV_OPEN2); [by apply Hrun|].
  destruct (_ =? PS_IOV_PARENT).
  { apply Hrun. unfold page_server_check_parent. destruct (decode_pm _) as [[type id]|]; [|by split].
    destruct (_ <? 0); [by split|]. destruct (Hreply (le_bytes 4 (check_parent_local_xfer dir type id))) as (ok & s' & e' & -> & H). exact H. }
  destruct (_ =? PS_IOV_ADD_F_COMPRESSED); [by apply Hrun, add_compressed_safe|].
  destruct (_ || _ || _); [by apply Hrun, add_safe|].
  destruct (Z.eqb_spec (decode_ps_cmd (pi_cmd pi)) PS_IOV_CLOSE) as [Ec|Nc]; cbn [orb].
  1: destruct (Hreply (le_bytes 4 0)) as (ok & s' & e' & -> & [H1 H2]); cbn [obind]; split; [done|]; split; [destruct ok; [intros _; by apply H2|lia]|by left].
  destruct (Z.eqb_spec (decode_ps_cmd (pi_cmd pi)) PS_IOV_FORCE_CLOSE) as [Ef|Nf].
  1: destruct (Hreply (le_bytes 4 0)) as (ok & s' & e' & -> & [H1 H2]); cbn [obind]; split; [done|]; split; [destruct ok; [intros _; by apply H2|lia]|by right].
  destruct (Z.eqb_spec (decode_ps_cmd (pi_cmd pi)) PS_IOV_GET) as [Eg|Ng].
  - unfold page_server_get_pages. rewrite (sw_pps _ Hw), lookup_empty. by left.
  - split; [done|]. by split.
Qed.

(** Some 32 bytes of the stream read as a frame with property [P]. *)
Definition in_stream (sk : list Z) (P : page_server_iov -> Prop) : Prop :=
  exists pre buf post, sk = pre ++ buf ++ post /\ zlen buf = SIZEOF_PSI /\ P (psi_of_bytes buf).

Definition closing (pi : page_server_iov) : Prop :=
  decode_ps_cmd (pi_cmd pi) = PS_IOV_CLOSE \/ decode_ps_cmd (pi_cmd pi) = PS_IOV_FORCE_CLOSE.

Lemma psi_of_bytes_ok buf : Forall byte_ok buf -> zlen buf = SIZEOF_PSI -> psi_ok (psi_of_bytes buf).
Proof.
  intros Hb Hl. unfold psi_ok, psi_of_bytes. cbn [pi_cmd pi_nr_pages pi_vaddr].
  assert (Hr : forall n m, 0 <= le_value (take n (drop m buf))) by (intros n m; apply le_value_range; by apply Forall_take, Forall_drop).
  pose proof (le_value_range (take 4 buf) (Forall_take _ _ _ Hb)) as H4.
  replace (zlen (take 4 buf)) with 4 in H4 by (unfold zlen, SIZEOF_PSI in *; rewrite length_take; lia). auto.
Qed.

Lemma serve_loop_safe sk0 fuel : forall e s flushed, server_wf s -> sv_in s `suffix_of` sk0 -> (length (sv_in s) < fuel)%nat ->
  match serve_loop auto_dedup dir pad fuel e s flushed with
  | Ret (ret, flushed', s', _) => (ret = 0 -> server_wf s') /\ (flushed' = true -> flushed = true \/ in_stream sk0 closing)
  | Bug => in_stream sk0 crashing
  | NoFuel => False
  end.
Proof.
  induction fuel as [|fuel IH]; intros e s flushed Hw Hsuf Hf; [lia|]. cbn [serve_loop].
  destruct (recv_full_or_eof_ok e (sv_in s) SIZEOF_PSI) as (ret & buf & sk & e1 & -> & A1 & A2 & _ & _); [done|]. cbn [obind].
  destruct (Z.leb_spec ret 0) as [Hle|Hpos].
  { split; [intros _; by apply set_in_wf|by left]. }
  destruct (A1 Hpos) as [Hin Hlen]. pose proof (sw_bytes _ Hw) as Hb. rewrite Hin in Hb. apply Forall_app in Hb as [Hb _].
  pose proof (psi_of_bytes_ok buf Hb Hlen) as Hpi. set (pi := psi_of_bytes buf) in *.
  assert (Hstr : forall P : page_server_iov -> Prop, P pi -> in_stream sk0 P).
  { intros P HP. destruct Hsuf as [pre ->]. exists pre, buf, sk. by rewrite Hin. }
  pose proof (serve_cmd_safe e1 (set_in sk s) pi (set_in_wf sk s Hw A2) Hpi) as Hcmd.
  destruct (serve_cmd auto_dedup dir pad e1 (set_in sk s) pi) as [[[[r fl] s2] e2]| |]; cbn [obind]; [|by apply Hstr|done].
  destruct Hcmd as (C1 & C2 & C3). cbn [sv_in set_in] in C1.
  assert (Hfl : fl = true -> flushed = true \/ in_stream sk0 closing) by (intros Hfl; right; by apply Hstr, C3).
  destruct (Z.eqb_spec r 0) as [->|Hr]; cbn [negb]; [|by split].
  destruct (_ || _); [split; [intros _; by apply C2|done]|].
  assert (Hlt : (length (sv_in s2) < fuel)%nat).
  { destruct C1 as [k ->]. assert (Hl : length (sv_in s) = (length buf + length (k ++ sv_in s2))%nat) by (by rewrite Hin, length_app).
    rewrite length_app in Hl. unfold zlen, SIZEOF_PSI in Hlen. lia. }
  assert (Hsuf2 : sv_in s2 `suffix_of` sk0) by (etrans; [exact C1|]; etrans; [|exact Hsuf]; by exists buf).
  pose proof (IH e2 s2 fl (C2 eq_refl) Hsuf2 Hlt) as HI.
  destruct (serve_loop auto_dedup dir pad fuel e2 s2 fl) as [[[[r3 fl3] s3] e3]| |]; [|done|done].
  destruct HI as [I1 I2]. split; [done|]. intros H3. destruct (I2 H3) as [H|H]; [by apply Hfl|by right].
Qed.

(** C34. A receiving page server is safe against its peer.  Let it have no
    parent images and start from a well-formed state, and let the bytes it
    receives be arbitrary.  It always comes to an end.  If it reports success,
    a close command was among them (a stream that just breaks off is never a
    success), everything is closed, and every pair of images it wrote is
    consistent: each entry of the pagemap is valid (flags, range, block sizes)
    and the pages image has exactly the payload and padding the entries
    describe.  And the only frames that can crash it are a request for pages,
    for which it has no process tree, and frames with the id ~0, which it
    takes for the id of the images it has open when it has none. *)
Theorem page_server_serve_safe pipe_size e s : server_wf s ->
  match page_server_serve auto_dedup false ps_socket dir pad pipe_size e s with
  | Ret (ret, s', _) => ret = 0 ->
      in_stream (sv_in s) closing /\ cx_dst_id (sv_cxfer s') = NO_DST /\ Forall (fun d => image_wf (snd d)) (sv_done s')
  | Bug => in_stream (sv_in s) crashing
  | NoFuel => False
  end.
Proof.
  intros Hw. unfold page_server_serve. destruct (xe_fcntl e) as [ok e1]. destruct ok; cbn [negb andb]; [|lia].
  destruct (Z.ltb_spec pipe_size 0) as [|Hp]; [lia|]. set (s1 := set_cxfer _ s).
  assert (Hw1 : server_wf s1) by (destruct Hw; by split).
  pose proof (serve_loop_safe (sv_in s) (S (length (sv_in s1))) e1 s1 false Hw1 ltac:(done) ltac:(lia)) as HL.
  destruct (serve_loop auto_dedup dir pad (S (length (sv_in s1))) e1 s1 false) as [[[[r fl] s2] e2]| |]; cbn [obind]; [|done|done].
  destruct HL as [L1 L2]. destruct (Z.eqb_spec r 0) as [->|Hr]; cbn [andb].
  2:{ destruct (Z.eqb_spec r 0); [done|]. done. }
  destruct fl; cbn [negb]; [|done]. destruct (L2 eq_refl) as [|Hc]; [done|].
  destruct (close_wf s2 (L1 eq_refl)) as ([_ _ W3 _ _ _] & W7 & _).
  change (0 =? 0) with true. cbn [andb]. destruct ps_socket; cbn [negb]; [by intros _|].
  destruct (io_answer (x_reads e2) 1) as [r l]. destruct (_ =? 0); by intros.
Qed.
End Safety.

(** ** Example: a session of two compressed pages, and the two crashes *)
Definition sample_dir : img_dir := ImgDir (fun _ _ => true) (fun _ _ => true) (Some false) (fun _ _ => None) (fun _ _ => -2).
Definition closed_xfer : page_xfer := PageXfer 0 false false false 0 [] [] [] (PendingPe 0 0 0 (PageBlockLayout [] 0 0 0) 0 false).
Definition idle_server (sk : list Z) : page_server := PageServer (PageXferJob NO_DST [] 0 closed_xfer) sk [] [] ∅ [].
Definition no_pad : list Z := [0; 0; 0; 0].
Definition frame (cmd nr vaddr dst : Z) : list Z := psi_bytes no_pad (PsIov cmd nr vaddr dst).

Lemma idle_server_wf sk : Forall byte_ok sk -> server_wf (idle_server sk).
Proof. intros Hb. by split. Qed.
Lemma bytes_check sk : forallb (fun b => (0 <=? b) && (b <? 256)) sk = true -> Forall byte_ok sk.
Proof. rewrite forallb_forall, Forall_forall. intros H b Hb%list_elem_of_In. specialize (H b Hb). unfold byte_ok. lia. Qed.

Definition sample_stream : list Z :=
  frame PS_IOV_OPEN2 0 0 0x501 ++
  frame (encode_ps_cmd PS_IOV_ADD_F_COMPRESSED PE_PRESENT) 2 0x1000 0x501 ++ wire_page (0, []) ++ wire_page (3, [7; 8; 9]) ++
  frame PS_IOV_CLOSE 0 0 0.

Lemma page_server_serve_safe_witness :
  match page_server_serve true false true sample_dir no_pad 65536 (XEnv [3; -4] [] [] [] [] [] []) (idle_server sample_stream) with
  | Ret (ret, s', _) => ret = 0 /\ Forall (fun d => image_wf (snd d)) (sv_done s') /\ (fun d => xf_pi (snd d)) <$> sv_done s' = [[7; 8; 9]]
  | _ => False
  end.
Proof.
  pose proof (page_server_serve_safe true true sample_dir no_pad ltac:(done) 65536 (XEnv [3; -4] [] [] [] [] [] []) (idle_server sample_stream)
    (idle_server_wf sample_stream (bytes_check sample_stream eq_refl))) as H.
  assert (Hr : match page_server_serve true false true sample_dir no_pad 65536 (XEnv [3; -4] [] [] [] [] [] []) (idle_server sample_stream) with
    | Ret (ret, s', _) => ret = 0 /\ (fun d => xf_pi (snd d)) <$> sv_done s' = [[7; 8; 9]] | _ => False end) by (vm_compute; split; reflexivity).
  destruct (page_server_serve _ _ _ _ _ _ _ _) as [[[r s'] e']| |]; [|contradiction|contradiction]. destruct Hr as [-> Hr].
  split; [reflexivity|]. split; [apply (H eq_refl)|exact Hr].
Defined.

Example get_crashes_receiver :
  page_server_serve false false true sample_dir no_pad 65536 (XEnv [] [] [] [] [] [] []) (idle_server (frame PS_IOV_GET 1 0x1000 7)) = Bug.
Proof. vm_compute. reflexivity. Qed.
Example unopened_id_crashes_receiver :
  page_server_serve false false true sample_dir no_pad 65536 (XEnv [] [] [] [] [] [] [])
    (idle_server (frame (encode_ps_cmd PS_IOV_ADD_F PE_LAZY) 1 0x1000 NO_DST)) = Bug.
Proof. vm_compute. reflexivity. Qed.
