(* ===== verification/PageSession.v ===== *)
(** A dump over the page server: [page_xfer_dump_pages] with the client's
    transport, and the server that stores what arrives (criu/page-xfer.c, file
    PageServer).  The two sides meet in the frames of [item_wire] only. *)
From stdpp Require Import gmap.
From S2P Require Import Prelude PagemapImage PageRead Dedup AsyncQueue ReadPages ChainRead ParentWalk PagePipe Compress PageXfer PageServer.

(** ** What is transferred *)

(** One entry, relative to the transfer's offset: range, flags and, when the
    pages go along, their bytes. *)
Definition item := (iovec * Z * list Z)%type.
Definition present_flags (flags : Z) : bool := negb (Z.land flags PE_PRESENT =? 0).

Definition item_ok (it : item) : Prop :=
  let '(iov, flags, data) := it in
  range_pages iov /\ Forall byte_ok data /\
  (flags = PE_PARENT \/ flags = PE_LAZY \/
   (flags = PE_PRESENT \/ flags = Z.lor PE_PRESENT PE_LAZY) /\ zlen data = iov_len iov).

Definition hole_item (off : Z) (h : iovec * Z) : item := (shifted off (fst h), PE_PARENT, []).
Definition seg_flags (lazy : bool) (bflags : Z) : Z :=
  if transferred lazy bflags then (if Z.land bflags PPB_LAZY =? 0 then PE_PRESENT else Z.lor PE_PRESENT PE_LAZY) else PE_LAZY.
Definition seg_item (off : Z) (lazy : bool) (sd : segment * list Z) : item :=
  let '(iov, bflags, q, d) := sd in (shifted off iov, seg_flags lazy bflags, d).

(** The holes in front of address [v], and the others. *)
Fixpoint split_holes (v : Z) (holes : list (iovec * Z)) : list (iovec * Z) * list (iovec * Z) :=
  match holes with
  | [] => ([], [])
  | h :: rest => if v <=? iov_base (fst h) then ([], holes) else let '(a, b) := split_holes v rest in (h :: a, b)
  end.

(** Segments and holes in the order they go out. *)
Fixpoint plan (off : Z) (lazy : bool) (sds : list (segment * list Z)) (holes : list (iovec * Z)) : list item :=
  match sds with
  | [] => hole_item off <$> holes
  | sd :: sds =>
      let '(a, b) := split_holes (iov_base (seg_iov sd)) holes in
      (hole_item off <$> a) ++ seg_item off lazy sd :: plan off lazy sds b
  end.

Lemma split_holes_app v holes : fst (split_holes v holes) ++ snd (split_holes v holes) = holes.
Proof.
  induction holes as [|h holes IH]; [done|]. cbn [split_holes]. destruct (v <=? _); [done|].
  destruct (split_holes v holes) as [a b]. simpl in *. by rewrite IH.
Qed.

Lemma plan_segments off lazy sds : forall holes sd, sd ∈ sds -> seg_item off lazy sd ∈ plan off lazy sds holes.
Proof.
  induction sds as [|s sds IH]; intros holes sd Hin; [by apply elem_of_nil in Hin|]. cbn [plan].
  destruct (split_holes _ holes) as [a b]. apply elem_of_app. right. apply elem_of_cons in Hin as [->|Hin]; [apply list_elem_of_here|].
  apply list_elem_of_further. by apply IH.
Qed.

Lemma plan_holes off lazy sds : forall holes h, h ∈ holes -> hole_item off h ∈ plan off lazy sds holes.
Proof.
  induction sds as [|s sds IH]; intros holes h Hin; cbn [plan]; [by apply list_elem_of_fmap_2|].
  pose proof (split_holes_app (iov_base (seg_iov s)) holes) as Hs. destruct (split_holes _ holes) as [a b]. simpl in Hs. subst holes.
  apply elem_of_app in Hin as [Hin|Hin]; apply elem_of_app; [left; by apply list_elem_of_fmap_2|right]. apply list_elem_of_further. by apply IH.
Qed.

(** ** The client *)
Section ClientSide.
Context (lz4c : list Z -> Z -> Z -> option (list Z)) (lz4 : list Z -> Z -> option (list Z)) (Hlz : lz4_contract lz4c lz4).
Context (acc : Z) (compress : bool) (pad : list Z).
Abbreviation T := (srv_transport lz4c acc compress pad).

(** LZ4 writes bytes. *)
Context (Hlzb : forall src cap a out, Forall byte_ok src -> lz4c src cap a = Some out -> Forall byte_ok out).

(** The stored forms [ds] of the pages of [data]. *)
Definition pages_encoded (data : list Z) (ds : list (Z * list Z)) : Prop :=
  zlen ds * PAGE_SIZE = zlen data /\ Forall (fun d => Forall byte_ok (snd d)) ds /\
  forall i cs payload, ds !! i = Some (cs, payload) -> stored_block lz4 1 (page_of data (Z.of_nat i)) cs payload.

Definition item_frame (dst : Z) (it : item) : page_server_iov :=
  let '(iov, flags, data) := it in
  PsIov (encode_ps_cmd (if compress then PS_IOV_ADD_F_COMPRESSED else PS_IOV_ADD_F) flags) (iov_len iov / PAGE_SIZE) (iov_base iov) dst.

(** The bytes that follow the frame. *)
Definition item_payload (it : item) (payload : list Z) : Prop :=
  let '(iov, flags, data) := it in
  if present_flags flags
  then if compress then exists ds, payload = concat (wire_page <$> ds) /\ pages_encoded data ds else payload = data
  else payload = [].

Definition item_wire (dst : Z) (it : item) (bytes : list Z) : Prop :=
  exists payload, bytes = psi_bytes pad (item_frame dst it) ++ payload /\ item_payload it payload.

Lemma splice_to_server_ok fuel : forall e x pipe data rest, pipe = data ++ rest ->
  (length (x_splices e) + length data <= fuel)%nat ->
  exists ok x' pipe' e', splice_to_server fuel e x pipe (zlen data) = Ret (ok, x', pipe', e') /\
    (ok = true -> pipe' = rest /\ x' = set_sk (sx_sk x ++ data) x) /\ (xenv_ok e -> ok = true /\ xenv_ok e').
Proof.
  assert (Hfin : forall (e : xenv) x (rest : list Z), exists ok x' pipe' e', Ret (true, x, rest, e) = Ret (ok, x', pipe', e') /\
    (ok = true -> pipe' = rest /\ x' = set_sk (sx_sk x ++ []) x) /\ (xenv_ok e -> ok = true /\ xenv_ok e')).
  { intros e x rest. exists true, x, rest, e. split; [done|]. split; [|done]. intros _. split; [done|]. rewrite app_nil_r. by destruct x. }
  induction fuel as [|fuel IH]; intros e x pipe data rest -> Hf; cbn [splice_to_server].
  { destruct data; [|simpl in Hf; lia]. simpl. apply Hfin. }
  destruct (Z.ltb_spec 0 (zlen data)) as [Hpos|Hz].
  2:{ destruct data; [apply Hfin|unfold zlen in Hz; simpl in Hz; lia]. }
  destruct (io_answer (x_splices e) (zlen data)) as [ret l] eqn:Ea. destruct (io_answer_range _ _ _ _ Ea) as (A1 & A2 & A3 & _).
  destruct (Z.ltb_spec ret 0) as [Hn|Hp].
  { eexists _, _, _, _. split; [done|]. split; [done|]. intros ->. destruct (A2 eq_refl). lia. }
  assert (Hle : (Z.to_nat ret <= length data)%nat) by (unfold zlen in A1; lia).
  rewrite (take_app_le data rest), (drop_app_le data rest) by done.
  assert (Hlen : zlen data - zlen (take (Z.to_nat ret) data) = zlen (drop (Z.to_nat ret) data)).
  { unfold zlen. rewrite length_take, length_drop. lia. }
  rewrite Hlen.
  destruct (IH (xe_splices l e) (set_sk (sx_sk x ++ take (Z.to_nat ret) data) x) (drop (Z.to_nat ret) data ++ rest) (drop (Z.to_nat ret) data) rest eq_refl)
    as (ok & x' & pipe' & e' & -> & B1 & B2).
  { cbn [x_splices xe_splices]. rewrite length_drop. destruct (x_splices e) as [|a l0] eqn:El.
    - destruct (A2 eq_refl) as [-> ->]. unfold zlen in *. simpl. lia.
    - specialize (A3 ltac:(done)). lia. }
  eexists _, _, _, _. split; [done|]. split.
  - intros Hok. destruct (B1 Hok) as [-> ->]. split; [done|]. cbn. by rewrite <- app_assoc, take_drop.
  - intros ->. apply B2. destruct (A2 eq_refl) as [_ ->]. done.
Qed.

Lemma page_of_app0 d rest : PAGE_SIZE <= zlen d -> page_of (d ++ rest) 0 = page_of d 0.
Proof. intros H. unfold page_of. rewrite Z.mul_0_l, !drop_0, take_app_le; [done|]. unfold zlen, PAGE_SIZE in *. lia. Qed.

Lemma page_of_drop d i : 0 <= i -> page_of (drop (Z.to_nat PAGE_SIZE) d) i = page_of d (i + 1).
Proof. intros Hi. unfold page_of. rewrite drop_drop. do 2 f_equal. unfold PAGE_SIZE. lia. Qed.

(** One page more. *)
Lemma pages_encoded_cons data cs payload ds : zlen data mod PAGE_SIZE = 0 -> PAGE_SIZE <= zlen data ->
  stored_block lz4 1 (page_of data 0) cs payload -> Forall byte_ok payload -> pages_encoded (drop (Z.to_nat PAGE_SIZE) data) ds ->
  pages_encoded data ((cs, payload) :: ds).
Proof.
  intros Hm Hl Hs Hb (D1 & D3 & D2). split; [|split; [by apply Forall_cons_2|]].
  - replace (zlen ((cs, payload) :: ds)) with (1 + zlen ds) by (unfold zlen; simpl length; lia).
    unfold zlen, PAGE_SIZE in *. rewrite length_drop in D1. lia.
  - intros [|i] c pl Hi; simpl in Hi; [by injection Hi as <- <-|]. specialize (D2 i c pl Hi). rewrite page_of_drop in D2 by lia.
    by replace (Z.of_nat (S i)) with (Z.of_nat i + 1) by lia.
Qed.

Lemma compress_block_bytes src n cap a cs payload : Forall byte_ok src -> compress_block lz4c src n cap a = Some (cs, payload) -> Forall byte_ok payload.
Proof.
  intros Hb. unfold compress_block. destruct (_ || _); [done|]. destruct (forallb _ _); [intros [= <- <-]; apply Forall_nil_2|].
  destruct (_ <? _); [done|]. assert (Ht : Forall byte_ok (take (Z.to_nat (n * PAGE_SIZE)) src)) by (by apply Forall_take).
  destruct (lz4c _ _ _) as [out|] eqn:Eo; [|by intros [= <- <-]]. destruct (_ >=? _); intros [= <- <-]; [done|]. by eapply Hlzb.
Qed.

Lemma encode_page_ok raw page : zlen page = PAGE_SIZE -> Forall byte_ok page ->
  exists cs payload, encode_page lz4c acc raw page = Some (cs, payload) /\ stored_block lz4 1 page cs payload /\ 0 <= cs <= PAGE_SIZE /\
    (cs = 0 -> payload = []) /\ Forall byte_ok payload.
Proof.
  intros Hl Hb. assert (H : exists cs payload, encode_page lz4c acc raw page = Some (cs, payload) /\ stored_block lz4 1 page cs payload).
  { unfold encode_page. destruct raw.
    - exists PAGE_SIZE, page. split; [done|]. split; [lia|]. split; [done|]. right. left. split; [lia|done].
    - apply compress_block_stores; [done|rewrite MAX_BLOCK_PAGES_eq; lia|lia|]. unfold PAGE_COMPRESSED_SIZE_BOUND, BLOCK_COMPRESSED_SIZE_BOUND.
      pose proof (Z.div_pos (1 * PAGE_SIZE) 255 ltac:(unfold PAGE_SIZE; lia) ltac:(lia)). unfold PAGE_SIZE in *. lia. }
  destruct H as (cs & payload & He & Hs). exists cs, payload. split; [done|]. split; [done|]. destruct Hs as (_ & Hp & Hc).
  pose proof (zlen_nonneg payload). split; [unfold PAGE_SIZE in *; lia|]. split.
  - intros ->. destruct payload; [done|unfold zlen in Hp; simpl in Hp; lia].
  - unfold encode_page in He. destruct raw; [by injection He as <- <-|]. by apply compress_block_bytes in He.
Qed.

Lemma send_pages_ok len fuel : forall e x pipe data rest off, pipe = data ++ rest -> zlen data mod PAGE_SIZE = 0 -> off + zlen data = len ->
  0 <= off -> len + PAGE_SIZE < 2 ^ 64 -> zlen data < Z.of_nat fuel * PAGE_SIZE -> Forall byte_ok data ->
  exists ok x' pipe' e', send_pages lz4c acc fuel e x pipe len off = Ret (ok, x', pipe', e') /\
    (ok = true -> pipe' = rest /\ exists ds, x' = set_sk (sx_sk x ++ concat (wire_page <$> ds)) x /\ pages_encoded data ds) /\
    (xenv_ok e -> ok = true /\ xenv_ok e').
Proof.
  induction fuel as [|fuel IH]; intros e x pipe data rest off -> Hm Hoff H0 Hmax Hf Hby; [pose proof (zlen_nonneg data); lia|]. cbn [send_pages].
  pose proof (zlen_nonneg data) as Hd0. destruct (Z.ltb_spec off len) as [Hlt|Hge].
  2:{ assert (data = []) as -> by (destruct data; [done|unfold zlen in *; simpl in *; lia]). eexists _, _, _, _. split; [done|]. split; [|done].
      intros _. split; [done|]. exists []. rewrite app_nil_r. split; [by destruct x|]. split; [done|]. split; [apply Forall_nil_2|done]. }
  assert (Hpg : PAGE_SIZE <= zlen data) by (unfold PAGE_SIZE in *; pose proof (Z.div_mod (zlen data) 4096 ltac:(lia)); lia).
  destruct (read_pipe_full_ok e (data ++ rest) PAGE_SIZE) as (got & pipe1 & e1 & -> & R1 & R2); [done|]. cbn [obind].
  assert (Hav : PAGE_SIZE <= zlen (data ++ rest)) by (rewrite zlen_app; pose proof (zlen_nonneg rest); lia).
  destruct got as [page|]; [|eexists _, _, _, _; split; [done|]; split; [done|]; intros He; by destruct (R2 He Hav)].
  destruct (R1 page eq_refl) as [Hsp Hpl].
  assert (page = page_of data 0 /\ pipe1 = drop (Z.to_nat PAGE_SIZE) data ++ rest) as [-> ->].
  { rewrite <- (take_drop (Z.to_nat PAGE_SIZE) data) in Hsp. rewrite <- app_assoc in Hsp.
    apply app_inj_1 in Hsp as [<- <-]; [|rewrite length_take; unfold zlen, PAGE_SIZE in *; lia]. split; [|done]. unfold page_of. by rewrite Z.mul_0_l, drop_0. }
  destruct (encode_page_ok (sx_force_raw x) (page_of data 0) Hpl) as (cs & payload & -> & Hst & Hcs & Hc0 & Hpb); [by apply Forall_take, Forall_drop|].
  destruct (send_full_ok e1 (sx_sk x) (le_bytes 4 cs)) as (ok & out & e2 & -> & S1 & S2). cbn [obind].
  destruct ok; cbn [negb]; [|eexists _, _, _, _; split; [done|]; split; [done|]; intros He; by destruct (S2 (proj2 (R2 He Hav)))].
  rewrite (S1 eq_refl). clear S1.
  assert (Hpay : exists ok x2 e3, (if cs =? 0 then Ret (true, set_sk (sx_sk x ++ le_bytes 4 cs) x, e2)
      else let! (ok, out, e) := send_full e2 (sx_sk (set_sk (sx_sk x ++ le_bytes 4 cs) x)) payload in
           Ret (ok, set_sk out (set_sk (sx_sk x ++ le_bytes 4 cs) x), e)) = Ret (ok, x2, e3) /\
    (ok = true -> x2 = set_sk (sx_sk x ++ wire_page (cs, payload)) x) /\ (xenv_ok e2 -> ok = true /\ xenv_ok e3)).
  { destruct (Z.eqb_spec cs 0) as [->|Hne].
    - eexists _, _, _. split; [done|]. split; [|done]. intros _. rewrite (Hc0 eq_refl). unfold wire_page. cbn [fst snd]. by rewrite app_nil_r.
    - destruct (send_full_ok e2 (sx_sk (set_sk (sx_sk x ++ le_bytes 4 cs) x)) payload) as (ok & out2 & e3 & -> & P1 & P2). cbn [obind].
      eexists _, _, _. split; [done|]. split; [|done]. intros Hok. rewrite (P1 Hok). unfold wire_page. cbn. by rewrite <- app_assoc. }
  destruct Hpay as (ok & x2 & e3 & -> & P1 & P2). cbn [obind].
  destruct ok; cbn [negb]; [|eexists _, _, _, _; split; [done|]; split; [done|]; intros He; by destruct (P2 (proj2 (S2 (proj2 (R2 He Hav)))))].
  rewrite (P1 eq_refl). clear P1. rewrite u64_small by (unfold PAGE_SIZE in *; lia).
  assert (Hdl : zlen (drop (Z.to_nat PAGE_SIZE) data) = zlen data - PAGE_SIZE) by (unfold zlen, PAGE_SIZE in *; rewrite length_drop; lia).
  destruct (IH e3 (set_sk (sx_sk x ++ wire_page (cs, payload)) x) (drop (Z.to_nat PAGE_SIZE) data ++ rest) (drop (Z.to_nat PAGE_SIZE) data) rest (off + PAGE_SIZE) eq_refl)
    as (ok & x4 & pipe4 & e4 & -> & Q1 & Q2); rewrite ?Hdl; try (unfold PAGE_SIZE in *; lia); [|by apply Forall_drop|].
  { replace (zlen data - PAGE_SIZE) with (zlen data + -1 * PAGE_SIZE) by lia. by rewrite Z_mod_plus_full. }
  eexists _, _, _, _. split; [done|]. split; [|by intros He; apply Q2, P2, S2, R2].
  intros Hok. destruct (Q1 Hok) as (-> & ds & -> & Hds). split; [done|]. exists ((cs, payload) :: ds).
  split; [|by apply pages_encoded_cons]. rewrite fmap_cons. cbn. by rewrite <- app_assoc.
Qed.

(** [l] was sent, nothing else changed that matters. *)
Record sent (l : list Z) (x x' : srv_xfer) : Prop := Sent {
  st_offset : sx_offset x' = sx_offset x;
  st_lazy : sx_lazy x' = sx_lazy x;
  st_dst : sx_dst_id x' = sx_dst_id x;
  st_bytes : sx_sk x' = sx_sk x ++ l
}.

Lemma sent_refl x : sent [] x x.
Proof. split; try done. by rewrite app_nil_r. Qed.
Lemma sent_trans l m x y z : sent l x y -> sent m y z -> sent (l ++ m) x z.
Proof. intros [A1 A2 A3 A4] [B1 B2 B3 B4]. split; try congruence. by rewrite B4, A4, app_assoc. Qed.
Lemma sent_set_sk l x : sent l x (set_sk (sx_sk x ++ l) x).
Proof. by split. Qed.

Lemma client_entry e x iov flags data :
  exists ok x' e', tr_write_pagemap (transport := T) e x iov flags = Ret (ok, x', e') /\
    (ok = true -> sent (psi_bytes pad (item_frame (sx_dst_id x) (iov, flags, data))) x x') /\ (xenv_ok e -> ok = true /\ xenv_ok e').
Proof.
  cbn [tr_write_pagemap srv_transport]. unfold write_pagemap_to_server, send_psi. fold (item_frame (sx_dst_id x) (iov, flags, data)).
  destruct (send_full_ok e (sx_sk x) (psi_bytes pad (item_frame (sx_dst_id x) (iov, flags, data)))) as (ok & out & e' & -> & H1 & H2). cbn [obind]. eexists _, _, _. split; [done|]. split; [|done]. intros Hok. rewrite (H1 Hok). apply sent_set_sk.
Qed.

Lemma client_pages e x data rest : Forall byte_ok data -> zlen data mod PAGE_SIZE = 0 -> zlen data + PAGE_SIZE < 2 ^ 64 ->
  exists ok x' pipe' e', tr_write_pages (transport := T) e x (data ++ rest) (zlen data) = Ret (ok, x', pipe', e') /\
    (ok = true -> pipe' = rest /\ exists payload, sent payload x x' /\
       (if compress then exists ds, payload = concat (wire_page <$> ds) /\ pages_encoded data ds else payload = data)) /\
    (xenv_ok e -> ok = true /\ xenv_ok e').
Proof.
  intros Hby Hm Hmax. cbn [tr_write_pages srv_transport]. pose proof (zlen_nonneg data) as H0. destruct compress.
  - unfold write_pages_to_server_compressed.
    destruct (send_pages_ok (zlen data) (S (Z.to_nat (zlen data / PAGE_SIZE))) e x (data ++ rest) data rest 0) as (ok & x' & pipe' & e' & -> & H1 & H2);
      try done. { pose proof (Z.div_mod (zlen data) PAGE_SIZE ltac:(done)). pose proof (Z.div_pos (zlen data) PAGE_SIZE H0 ltac:(done)). unfold PAGE_SIZE in *. lia. }
    eexists _, _, _, _. split; [done|]. split; [|done]. intros Hok. destruct (H1 Hok) as (-> & ds & -> & Hds). split; [done|].
    eexists. split; [apply sent_set_sk|]. by exists ds.
  - unfold write_pages_to_server.
    destruct (splice_to_server_ok (length (x_splices e) + Z.to_nat (zlen data)) e x (data ++ rest) data rest eq_refl) as (ok & x' & pipe' & e' & -> & H1 & H2).
    { unfold zlen. lia. }
    eexists _, _, _, _. split; [done|]. split; [|done]. intros Hok. destruct (H1 Hok) as (-> & ->). split; [done|]. eexists. split; [apply sent_set_sk|done].
Qed.

Lemma client_segment e x iov flags data pipe : item_ok (iov, flags, data) -> (present_flags flags = true -> exists rest, pipe = data ++ rest) ->
  iov_len iov + PAGE_SIZE < 2 ^ 64 ->
  exists ok x' pipe' e', write_segment T e x pipe iov flags = Ret (ok, x', pipe', e') /\
    (ok = true -> pipe = (if present_flags flags then data else []) ++ pipe' /\
       exists bytes, sent bytes x x' /\ item_wire (sx_dst_id x) (iov, flags, data) bytes) /\
    (xenv_ok e -> ok = true /\ xenv_ok e').
Proof.
  intros (Hr & Hby & Hf) Hpipe Hmax. unfold write_segment. destruct (client_entry e x iov flags data) as (ok & x1 & e1 & -> & A1 & A2). cbn [obind].
  destruct ok; cbn [negb]; [|eexists _, _, _, _; split; [done|]; split; [done|]; intros He; by destruct (A2 He)].
  specialize (A1 eq_refl). fold (present_flags flags). destruct (present_flags flags) eqn:Ep.
  - destruct (Hpipe eq_refl) as [rest ->].
    assert (Hd : zlen data = iov_len iov) by (destruct Hf as [-> |[-> |[_ Hd]]]; done). rewrite <- Hd. rewrite <- Hd in Hmax.
    destruct (client_pages e1 x1 data rest) as (ok & x2 & pipe' & e2 & -> & B1 & B2); [done|rewrite Hd; apply (rp_len _ Hr)|done|].
    eexists _, _, _, _. split; [done|]. split; [|by intros He; apply B2, A2]. intros Hok. destruct (B1 Hok) as (-> & payload & Hs & Hp). split; [done|].
    eexists. split; [exact (sent_trans _ _ _ _ _ A1 Hs)|]. exists payload. split; [done|]. cbn [item_payload]. by rewrite Ep.
  - eexists _, _, _, _. split; [done|]. split; [|done]. intros _. split; [done|]. eexists. split; [exact A1|]. exists []. rewrite app_nil_r.
    split; [done|]. cbn [item_payload]. by rewrite Ep.
Qed.

Definition split_limit (limit : option Z) (holes : list (iovec * Z)) : list (iovec * Z) * list (iovec * Z) :=
  match limit with Some v => split_holes v holes | None => (holes, []) end.

Lemma client_holes limit holes : forall e x, Forall (hole_ok (sx_offset x)) holes -> (forall v, limit = Some v -> 0 < v) ->
  exists ok x' rest e', dump_holes T e x holes limit = Ret (ok, x', rest, e') /\
    (ok = true -> rest = snd (split_limit limit holes) /\ exists bs, sent (concat bs) x x' /\
       Forall2 (item_wire (sx_dst_id x)) (hole_item (sx_offset x) <$> fst (split_limit limit holes)) bs) /\
    (xenv_ok e -> ok = true /\ xenv_ok e').
Proof.
  induction holes as [|[h fl] holes IH]; intros e x Hok Hlim; cbn [dump_holes].
  { eexists _, _, _, _. split; [done|]. split; [|done]. intros _. split; [by destruct limit|]. exists []. split; [apply sent_refl|].
    destruct limit; constructor. }
  apply Forall_cons_1 in Hok as [[Hr Hfl] Hok]. simpl in Hr, Hfl. subst fl.
  assert (Hstop : (match limit with Some v => negb (v =? 0) && (iov_base h >=? v) | None => false end) = true ->
    split_limit limit ((h, PP_HOLE_PARENT) :: holes) = ([], (h, PP_HOLE_PARENT) :: holes)).
  { destruct limit as [v|]; [|done]. intros [_ Hge]%andb_prop. rewrite Z.geb_leb in Hge. cbn. by rewrite Hge. }
  assert (Hgo : (match limit with Some v => negb (v =? 0) && (iov_base h >=? v) | None => false end) = false ->
    split_limit limit ((h, PP_HOLE_PARENT) :: holes) = ((h, PP_HOLE_PARENT) :: fst (split_limit limit holes), snd (split_limit limit holes))).
  { destruct limit as [v|]; [|done]. pose proof (Hlim v eq_refl). intros Hs. cbn. destruct (Z.eqb_spec v 0); [lia|]. cbn [negb andb] in Hs.
    rewrite Z.geb_leb in Hs. rewrite Hs. by destruct (split_holes v holes). }
  destruct (match limit with Some v => _ | None => _ end).
  { eexists _, _, _, _. split; [done|]. split; [|done]. intros _. rewrite (Hstop eq_refl). split; [done|]. exists []. split; [apply sent_refl|constructor]. }
  rewrite (Hgo eq_refl). change (get_hole_flags PP_HOLE_PARENT) with (Ret PE_PARENT). cbn [obind fst snd]. unfold page_xfer_dump_hole.
  destruct Hr as [[B1 _] _ _]. cbn [tr_offset srv_transport] in *. cbn [shifted iov_base] in B1. destruct (Z.ltb_spec (iov_base h) (sx_offset x)); [lia|].
  destruct (client_entry e x (shifted (sx_offset x) h) PE_PARENT []) as (ok & x1 & e1 & Hrun & A1 & A2). unfold shifted in Hrun.
  cbn [tr_write_pagemap srv_transport] in Hrun |- *. rewrite Hrun. cbn [obind].
  destruct ok; cbn [negb]; [|eexists _, _, _, _; split; [done|]; split; [done|]; intros He; by destruct (A2 He)].
  specialize (A1 eq_refl). pose proof A1 as [S1 S2 S3 S4].
  destruct (IH e1 x1) as (ok & x2 & rest & e2 & -> & C1 & C2); [by rewrite S1|done|].
  eexists _, _, _, _. split; [done|]. split; [|by intros He; apply C2, A2]. intros Hd. destruct (C1 Hd) as (-> & bs & Hs & Hbs). split; [done|].
  exists (psi_bytes pad (item_frame (sx_dst_id x) (hole_item (sx_offset x) (h, PP_HOLE_PARENT))) :: bs). split; [exact (sent_trans _ _ _ _ _ A1 Hs)|].
  rewrite S1, S3 in Hbs. constructor; [|done]. exists []. by rewrite app_nil_r.
Qed.

Lemma client_flags x bflags : ppb_xfer_flags T x bflags = seg_flags (sx_lazy x) bflags.
Proof. unfold ppb_xfer_flags, seg_flags, transferred. cbn [tr_lazy srv_transport]. by destruct (Z.land bflags PPB_LAZY =? 0), (sx_lazy x). Qed.

Lemma seg_present lazy bflags : present_flags (seg_flags lazy bflags) = transferred lazy bflags.
Proof. unfold seg_flags. by destruct (transferred lazy bflags), (Z.land bflags PPB_LAZY =? 0). Qed.

Lemma seg_item_ok off lazy sd : seg_ok off lazy sd -> Forall byte_ok (snd sd) -> item_ok (seg_item off lazy sd).
Proof.
  destruct sd as [[[iov bflags] q] d]. intros (Hr & _ & _ & Hd) Hby. split; [done|]. split; [done|]. unfold seg_flags. destruct (transferred lazy bflags); [|auto].
  right. right. split; [destruct (_ =? 0); auto|by apply Hd].
Qed.

Lemma client_segments sds : forall e x pipes holes, Forall (fun sd => Forall byte_ok (snd sd)) sds -> Forall (seg_ok (sx_offset x) (sx_lazy x)) sds -> Forall (hole_ok (sx_offset x)) holes ->
  (forall p, pipe_data (sx_lazy x) p sds `prefix_of` pipe_get pipes p) -> Forall (fun sd => iov_len (seg_iov sd) + PAGE_SIZE < 2 ^ 64) sds ->
  exists ok x' pipes' rest e', dump_segments T e x pipes (fst <$> sds) holes = Ret (ok, x', pipes', rest, e') /\
    (ok = true -> exists its bs, plan (sx_offset x) (sx_lazy x) sds holes = its ++ (hole_item (sx_offset x) <$> rest) /\ rest `suffix_of` holes /\
       sent (concat bs) x x' /\ Forall2 (item_wire (sx_dst_id x)) its bs) /\
    (xenv_ok e -> ok = true /\ xenv_ok e').
Proof.
  induction sds as [|[[[iov bflags] q] d] sds IH]; intros e x pipes holes Hby Hsd Hho Hpre Hmax; cbn [fmap list_fmap fst dump_segments].
  { eexists _, _, _, _, _. split; [done|]. split; [|done]. intros _. exists [], []. split; [done|]. split; [done|]. split; [apply sent_refl|constructor]. }
  apply Forall_cons_1 in Hsd as [Hs Hsd], Hmax as [Hm Hmax], Hby as [Hb1 Hby]. pose proof Hs as (Hr & Hb & Hq & Hd). cbn [seg_iov fst] in Hm.
  destruct (client_holes (Some (iov_base iov)) holes e x Hho) as (ok & x1 & rest & e1 & -> & A1 & A2); [by intros v [= <-]|]. cbn [obind].
  destruct ok; cbn [negb]; [|eexists _, _, _, _, _; split; [done|]; split; [done|]; intros He; by destruct (A2 He)].
  destruct (A1 eq_refl) as (-> & bs1 & S1 & F1). clear A1. pose proof S1 as [O1 L1 D1 _]. cbn [split_limit] in F1 |- *.
  pose proof (split_holes_app (iov_base iov) holes) as Hsp. cbn [plan seg_iov fst]. destruct (split_holes (iov_base iov) holes) as [a b]. cbn [fst snd] in Hsp, F1 |- *.
  pose proof Hr as [[B1 _] _ _]. cbn [shifted iov_base] in B1. cbn [tr_offset srv_transport]. rewrite O1. destruct (Z.ltb_spec (iov_base iov) (sx_offset x)); [lia|].
  cbn [tr_force_raw srv_transport]. set (x2 := set_sx_force_raw _ x1). fold (shifted (sx_offset x) iov). rewrite client_flags, L1.
  destruct (client_segment e1 x2 (shifted (sx_offset x) iov) (seg_flags (sx_lazy x) bflags) d (pipe_get pipes q)) as (ok & x3 & prest & e3 & -> & W1 & W2).
  { by apply (seg_item_ok (sx_offset x) (sx_lazy x) (iov, bflags, q, d)). }
  { rewrite seg_present. intros Ht. destruct (Hpre q) as [r Hr0]. unfold pipe_data in Hr0. cbn [fmap list_fmap concat] in Hr0.
    rewrite Ht, Z.eqb_refl in Hr0. cbn [andb] in Hr0. rewrite <- app_assoc in Hr0. eauto. }
  { exact Hm. }
  cbn [obind]. destruct ok; cbn [negb]; [|eexists _, _, _, _, _; split; [done|]; split; [done|]; intros He; by destruct (W2 (proj2 (A2 He)))].
  destruct (W1 eq_refl) as (Hp & bytes & S3 & I3). clear W1. rewrite seg_present in Hp.
  assert (S2 : sent [] x1 x2) by (split; try done; by rewrite app_nil_r).
  pose proof (sent_trans _ _ _ _ _ S1 (sent_trans _ _ _ _ _ S2 S3)) as S13. cbn [app] in S13. pose proof S13 as [O3 L3 D3 _].
  destruct (IH e3 x3 (pipe_put pipes q prest) b) as (ok & x4 & pipes4 & rest4 & e4 & -> & C1 & C2); rewrite ?O3, ?L3; try done.
  { rewrite <- Hsp in Hho. by apply Forall_app in Hho as [_ ?]. }
  { intros p. destruct (transferred (sx_lazy x) bflags) eqn:Ht.
    - destruct (Hpre p) as [r Hpr]. exists r. apply (pipes_advance (sx_lazy x) pipes iov bflags q d prest sds); try done. rewrite (Hd eq_refl). by apply (rp_len _ Hr).
    - cbn [app] in Hp. rewrite <- Hp, pipe_put_same by done. by rewrite <- (pipe_data_skip (sx_lazy x) p iov bflags q d). }
  eexists _, _, _, _, _. split; [done|]. split; [|by intros He; apply C2, W2, A2]. intros Hok.
  destruct (C1 Hok) as (its & bs & Hpl & Hsuf & S4 & F4). rewrite O3, L3 in Hpl. rewrite D3 in F4.
  exists ((hole_item (sx_offset x) <$> a) ++ seg_item (sx_offset x) (sx_lazy x) (iov, bflags, q, d) :: its), (bs1 ++ bytes :: bs).
  split; [by rewrite Hpl, <- app_assoc|]. split; [etrans; [exact Hsuf|]; rewrite <- Hsp; by exists a|].
  split; [rewrite concat_app; cbn [concat]; rewrite app_assoc; exact (sent_trans _ _ _ _ _ S13 S4)|].
  apply Forall2_app; [done|]. constructor; [|done]. change (sx_dst_id x2) with (sx_dst_id x1) in I3. by rewrite D1 in I3.
Qed.

(** The client sends its plan, item by item. *)
Lemma client_dump e x pipes pp sds : pp_segments pp = fst <$> sds -> Forall (fun sd => Forall byte_ok (snd sd)) sds -> Forall (seg_ok (sx_offset x) (sx_lazy x)) sds -> Forall (hole_ok (sx_offset x)) (pp_holes pp) ->
  (forall p, pipe_data (sx_lazy x) p sds `prefix_of` pipe_get pipes p) -> Forall (fun sd => iov_len (seg_iov sd) + PAGE_SIZE < 2 ^ 64) sds ->
  exists ok x' pipes' e', page_xfer_dump_pages T e x pipes pp = Ret (ok, x', pipes', e') /\
    (ok = true -> exists bs, sent (concat bs) x x' /\ Forall2 (item_wire (sx_dst_id x)) (plan (sx_offset x) (sx_lazy x) sds (pp_holes pp)) bs) /\
    (xenv_ok e -> ok = true /\ xenv_ok e').
Proof.
  intros Hsegs Hby Hsd Hho Hpre Hmax. unfold page_xfer_dump_pages. rewrite Hsegs.
  destruct (client_segments sds e x pipes (pp_holes pp) Hby Hsd Hho Hpre Hmax) as (ok & x1 & pipes1 & rest & e1 & -> & A1 & A2). cbn [obind].
  destruct ok; cbn [negb]; [|eexists _, _, _, _; split; [done|]; split; [done|]; intros He; by destruct (A2 He)].
  destruct (A1 eq_refl) as (its & bs & Hpl & [pre Hsuf] & S1 & F1). pose proof S1 as [O1 L1 D1 _].
  destruct (client_holes None rest e1 x1) as (ok & x2 & rest2 & e2 & -> & B1 & B2); [|done|].
  { rewrite O1. rewrite Hsuf in Hho. by apply Forall_app in Hho as [_ ?]. }
  cbn [obind]. eexists _, _, _, _. split; [done|]. split; [|by intros He; apply B2, A2]. intros Hok.
  destruct (B1 Hok) as (_ & bs2 & S2 & F2). cbn [split_limit fst] in F2. rewrite O1, D1 in F2.
  exists (bs ++ bs2). split; [rewrite concat_app; exact (sent_trans _ _ _ _ _ S1 S2)|]. rewrite Hpl. by apply Forall2_app.
Qed.
End ClientSide.

(** ** The plan is in ascending order *)
Definition item_iov (it : item) : iovec := fst (fst it).
Definition items_size (its : list item) : Z :=
  zsum ((fun it : item => if present_flags (snd (fst it)) then iov_len (item_iov it) + PAGE_SIZE else 0) <$> its).

(** Everything in [l] ends at or below [c], where [m] starts. *)
Lemma ascending_app q c l m : ascending q l -> q <= c -> Forall (fun iov => iov_end iov <= c) l -> ascending c m -> ascending q (l ++ m).
Proof.
  revert q. induction l as [|iov l IH]; intros q Hl Hq Hf Hm; cbn [app].
  - destruct m as [|i m]; [done|]. destruct Hm as [H1 H2]. split; [lia|done].
  - destruct Hl as [H1 H2]. apply Forall_cons_1 in Hf as [Hf1 Hf2]. split; [done|]. by apply IH.
Qed.

Lemma ascending_suffix l m : forall q, ascending q (l ++ m) -> Forall (fun iov => 0 <= iov_len iov) l -> exists q', q <= q' /\ ascending q' m.
Proof.
  induction l as [|iov l IH]; intros q Ha Hl; [by exists q|]. destruct Ha as [H1 H2]. apply Forall_cons_1 in Hl as [Hl1 Hl2].
  destruct (IH _ H2 Hl2) as (q' & Hq' & Ha). exists q'. split; [unfold iov_end in Hq'; lia|done].
Qed.

Lemma ascending_shift off q l : ascending (q + off) l -> ascending q (shifted off <$> l).
Proof.
  revert q. induction l as [|iov l IH]; intros q Ha; [done|]. destruct Ha as [H1 H2]. split; [cbn; lia|].
  apply IH. unfold iov_end in *. cbn. by replace (iov_base iov - off + iov_len iov + off) with (iov_base iov + iov_len iov) by lia.
Qed.

Lemma split_holes_sep v off holes : forall q, ascending q (fst <$> holes) -> Forall (hole_ok off) holes ->
  Forall (fun h => iov_base (fst h) < v) (fst (split_holes v holes)) /\ Forall (fun h => v <= iov_base (fst h)) (snd (split_holes v holes)).
Proof.
  induction holes as [|h holes IH]; intros q Ha Hok; cbn [split_holes fst snd]; [split; apply Forall_nil_2|].
  pose proof Hok as Hok'. apply Forall_cons_1 in Hok as [Hh Hok]. destruct Ha as [H1 H2]. destruct (Z.leb_spec v (iov_base (fst h))) as [Hv|Hv]; cbn [fst snd].
  - split; [apply Forall_nil_2|]. apply (holes_above off v (h :: holes) v); [|done|done]. split; [done|exact H2].
  - destruct (IH _ H2 Hok) as [I1 I2]. destruct (split_holes v holes) as [a b]. split; [by apply Forall_cons_2|done].
Qed.

Lemma hole_items_iov off (holes : list (iovec * Z)) : item_iov <$> (hole_item off <$> holes) = shifted off <$> (fst <$> holes).
Proof. rewrite <- !list_fmap_compose. by apply list_fmap_ext. Qed.

Lemma hole_items_ok off holes : Forall (hole_ok off) holes -> Forall item_ok (hole_item off <$> holes).
Proof. intros H. apply Forall_fmap. eapply Forall_impl; [exact H|]. intros h [Hr _]. split; [done|]. split; [apply Forall_nil_2|by left]. Qed.

Lemma plan_ok off lazy sds : forall cur holes, Forall (fun sd => Forall byte_ok (snd sd)) sds -> dump_ready off lazy cur sds holes ->
  ascending cur (item_iov <$> plan off lazy sds holes) /\ Forall item_ok (plan off lazy sds holes).
Proof.
  induction sds as [|sd sds IH]; intros cur holes Hby Hrdy; cbn [plan].
  { destruct Hrdy as [_ D2 _ D4 _]. split; [|by apply hole_items_ok]. rewrite hole_items_iov. by apply ascending_shift. }
  pose proof Hrdy as [D1 D2 D3 D4 D5]. apply Forall_cons_1 in D1 as [Hs _], D5 as [D5 _], Hby as [Hb1 Hby]. destruct D3 as [Hcur _].
  pose proof (split_holes_app (iov_base (seg_iov sd)) holes) as Hsp. destruct (split_holes_sep (iov_base (seg_iov sd)) off holes _ D4 D2) as [Q1 Q2].
  destruct (split_holes (iov_base (seg_iov sd)) holes) as [a b]. cbn [fst snd] in Hsp, Q1, Q2. subst holes.
  apply Forall_app in D2 as [D2a D2b], D5 as [D5a _]. rewrite fmap_app in D4.
  assert (Hlen : Forall (fun iov => 0 <= iov_len iov) (fst <$> a)).
  { apply Forall_fmap. eapply Forall_impl; [exact D2a|]. intros h [[_ [L _] _] _]. cbn in *. lia. }
  destruct (ascending_suffix _ _ _ D4 Hlen) as (q' & Hq' & Hb).
  assert (Hrdy' : dump_ready off lazy (iov_end (seg_iov sd) - off) sds b).
  { apply (dump_ready_step off lazy cur (q' - off) sd sds a b Hrdy); [by replace (q' - off + off) with q' by lia|done]. }
  destruct (IH _ _ Hby Hrdy') as [IH1 IH2].
  assert (Hiov : item_iov (seg_item off lazy sd) = shifted off (seg_iov sd)) by (by destruct sd as [[[? ?] ?] ?]).
  assert (Hl0 : 0 < iov_len (seg_iov sd)) by (destruct sd as [[[iov ?] ?] ?]; destruct Hs as ([_ [L _] _] & _); exact L).
  split.
  - rewrite fmap_app, fmap_cons, hole_items_iov, Hiov. apply (ascending_app cur (iov_base (seg_iov sd) - off)).
    + apply ascending_shift. clear -D4. revert D4. generalize (cur + off) as q. induction (fst <$> a) as [|iov l IH]; intros q H; [done|].
      destruct H as [H1 H2]. split; [done|]. by apply IH.
    + lia.
    + apply Forall_fmap, Forall_fmap. rewrite Forall_forall in D5a, Q1 |- *. intros h Hh. specialize (D5a h Hh). specialize (Q1 h Hh).
      unfold apart, iov_end in *. cbn. lia.
    + split; [cbn; lia|]. unfold iov_end in *. cbn. by replace (iov_base (seg_iov sd) - off + iov_len (seg_iov sd)) with (iov_base (seg_iov sd) + iov_len (seg_iov sd) - off) by lia.
  - apply Forall_app. split; [by apply hole_items_ok|]. apply Forall_cons_2; [by apply seg_item_ok|done].
Qed.

Lemma items_size_app l m : items_size (l ++ m) = items_size l + items_size m.
Proof. unfold items_size. by rewrite fmap_app, zsum_app. Qed.

Lemma plan_size off lazy sds : forall holes, Forall (seg_ok off lazy) sds -> items_size (plan off lazy sds holes) <= segs_size sds.
Proof.
  assert (Hh : forall holes, items_size (hole_item off <$> holes) = 0).
  { induction holes as [|h holes IH]; [done|]. unfold items_size in *. by rewrite !fmap_cons, zsum_cons, IH. }
  induction sds as [|sd sds IH]; intros holes Hok; cbn [plan]; [by rewrite Hh|]. apply Forall_cons_1 in Hok as [Hs Hok].
  destruct (split_holes _ holes) as [a b]. rewrite items_size_app, Hh. unfold items_size at 1. rewrite fmap_cons, zsum_cons.
  specialize (IH b Hok). unfold items_size in IH. unfold segs_size. rewrite fmap_cons, zsum_cons. fold (segs_size sds).
  destruct sd as [[[iov bflags] q] d]. destruct Hs as ([_ [L _] _] & _). cbn in *. destruct (present_flags _); unfold PAGE_SIZE in *; lia.
Qed.

(** ** The server *)
Section ServerSide.
Context (lz4 : list Z -> Z -> option (list Z)) (auto : bool) (dir : img_dir) (pad : list Z) (compress : bool).
Context (dst : Z) (Hdst : 0 <= dst < NO_DST) (ls : list (list pagemap_entry)).

(** The images for [dst] are open and hold what is below [cur]. *)
Record serving (cur : Z) (s : page_server) : Prop := Serving {
  sg_dst : cx_dst_id (sv_cxfer s) = dst;
  sg_pipe : cx_pipe (sv_cxfer s) = [] /\ 0 < cx_pipe_size (sv_cxfer s);
  sg_xfer : xfer_ok ls cur (loc_xfer (sv_cxfer s));
  sg_bytes : Forall byte_ok (sv_in s)
}.

Definition item_stored (x : page_xfer) (it : item) : Prop :=
  let '(iov, flags, data) := it in
  if present_flags flags then dumped lz4 x (iov_base iov) data else noted x (iov_base iov) (iov_len iov) flags.

Definition item_backed (it : item) : Prop :=
  snd (fst it) = PE_PARENT -> forall l, head ls = Some l ->
    forall v, v ∈ pages_between (iov_base (item_iov it)) (iov_base (item_iov it) + iov_len (item_iov it)) -> has_page l v.

Definition item_size (it : item) : Z := if present_flags (snd (fst it)) then iov_len (item_iov it) + PAGE_SIZE else 0.

(** What a frame and its payload do to the server. *)
Record item_post (s : page_server) (it : item) (rest : list Z) (s' : page_server) : Prop := ItemPost {
  ip_in : sv_in s' = rest;
  ip_out : sv_out s' = sv_out s;
  ip_done : sv_done s' = sv_done s;
  ip_serving : serving (iov_end (item_iov it)) s';
  ip_step : xstep 1 (loc_xfer (sv_cxfer s)) (loc_xfer (sv_cxfer s'));
  ip_stored : item_stored (loc_xfer (sv_cxfer s')) it;
  ip_size : zlen (xf_pi (loc_xfer (sv_cxfer s'))) <= zlen (xf_pi (loc_xfer (sv_cxfer s))) + item_size it
}.

Lemma frame_iov it : item_ok it -> psi2iovec (item_frame compress dst it) = item_iov it.
Proof.
  destruct it as [[iov flags] data]. intros [Hr _]. destruct (range_nr iov Hr) as (N1 & _ & _). destruct Hr as [[B1 _] [L1 _] E].
  unfold psi2iovec, item_iov. cbn. rewrite <- N1, u64_small by lia. by destruct iov.
Qed.

Lemma item_flags it : item_ok it -> let flags := snd (fst it) in
  flags ∈ [PE_PARENT; PE_LAZY; Z.lor PE_PARENT PE_LAZY; PE_PRESENT; Z.lor PE_PRESENT PE_LAZY] /\ 0 <= flags < 2 ^ 16.
Proof.
  destruct it as [[iov flags] data]. intros (_ & _ & Hf). cbn. rewrite !elem_of_cons.
  destruct Hf as [-> |[-> |[[-> | ->] _]]]; (split; [auto 6|]; done).
Qed.

Lemma frame_valid it : item_ok it -> validate_page_server_iov (item_frame compress dst it) (snd (fst it)) = true.
Proof.
  intros Hok. destruct (item_flags it Hok) as [Hf _]. destruct it as [[iov flags] data]. destruct Hok as [Hr _]. cbn [fst snd] in *.
  destruct (range_nr iov Hr) as (N1 & N2 & _). destruct Hr as [[B1 B2] [L1 _] E]. unfold validate_page_server_iov. cbn [item_frame pi_nr_pages pi_vaddr].
  assert (Hr : (iov_len iov / PAGE_SIZE =? 0) || negb (Z.land (iov_base iov) (PAGE_SIZE - 1) =? 0) || (iov_base iov >? ULONG_MAX) ||
    (iov_len iov / PAGE_SIZE >? SIZE_MAX / PAGE_SIZE) || (iov_len iov / PAGE_SIZE >? (ULONG_MAX - iov_base iov) / PAGE_SIZE) = false).
  { change (PAGE_SIZE - 1) with (Z.ones 12). rewrite Z.land_ones by lia. change (2 ^ 12) with PAGE_SIZE. rewrite B2, !Z.gtb_ltb. cbn [negb Z.eqb].
    assert (Hq : iov_len iov / PAGE_SIZE <= (ULONG_MAX - iov_base iov) / PAGE_SIZE) by (apply Z.div_le_mono; [done|unfold ULONG_MAX; lia]).
    assert (Hq2 : iov_len iov / PAGE_SIZE <= SIZE_MAX / PAGE_SIZE) by (apply Z.div_le_mono; [done|unfold SIZE_MAX; lia]).
    unfold ULONG_MAX in *. repeat (apply orb_false_iff; split); try done; try (apply Z.eqb_neq; lia); apply Z.ltb_ge; lia. }
  rewrite Hr. rewrite !elem_of_cons in Hf. by destruct Hf as [-> |[-> |[-> |[-> |[-> |[]%elem_of_nil]]]]].
Qed.

Lemma prep_serving e s cur it : serving cur s -> prep_loc_xfer dir e s (item_frame compress dst it) = Ret (true, s, e) /\ images_open s = true.
Proof.
  intros Hs. unfold prep_loc_xfer, images_open. destruct it as [[iov flags] data]. cbn [item_frame pi_dst_id]. rewrite (sg_dst _ _ Hs), Z.eqb_refl.
  split; [done|]. apply negb_true_iff, Z.eqb_neq. lia.
Qed.

Lemma set_loc_post s it rest x : forall cur, serving cur s -> sv_in s = rest -> xfer_ok ls (iov_end (item_iov it)) x -> xstep 1 (loc_xfer (sv_cxfer s)) x ->
  item_stored x it -> zlen (xf_pi x) <= zlen (xf_pi (loc_xfer (sv_cxfer s))) + item_size it -> item_post s it rest (set_loc x s).
Proof. intros cur [S1 S2 S3 S4] Hin Hx Hst Hsd Hz. by split. Qed.

(** Entries without pages. *)
Lemma absent_served e s it rest cur : item_ok it -> serving cur s -> cur <= iov_base (item_iov it) -> present_flags (snd (fst it)) = false ->
  sv_in s = rest -> zlen (xf_pi (loc_xfer (sv_cxfer s))) <= OFF_MAX ->
  exists ok x e', write_pagemap_loc auto e (loc_xfer (sv_cxfer s)) (item_iov it) (snd (fst it)) = Ret (ok, x, e') /\
    (ok = true -> item_post s it rest (set_loc x s)) /\ (xenv_ok e -> item_backed it -> ok = true /\ xenv_ok e').
Proof.
  intros Hok Hs Hcur Hp Hin Hmax. destruct it as [[iov flags] data]. pose proof Hok as (Hr & _ & Hf). cbn [item_iov fst snd] in *.
  assert (Hf' : flags = PE_PARENT \/ flags = PE_LAZY).
  { destruct Hf as [-> |[-> |[[-> | ->] _]]]; auto; done. }
  destruct (emit_absent (fun _ _ _ => None) auto 0 0 false ls e _ iov flags [] cur (sg_xfer _ _ Hs) Hcur Hr Hf' Hmax) as (ok & x & e' & Hrun & _ & A1 & A2).
  exists ok, x, e'. split; [exact Hrun|]. split; [|intros He Hb; by apply A2].
  intros Hk. destruct (A1 Hk) as (X1 & X2 & X3 & X4). apply (set_loc_post s (iov, flags, data) rest x cur); try done.
  - cbn [item_stored]. by rewrite Hp.
  - rewrite X3. unfold item_size. cbn [fst snd]. rewrite Hp. lia.
Qed.

(** Pages as they are. *)
Lemma plain_served e s it rest cur : item_ok it -> serving cur s -> cur <= iov_base (item_iov it) -> sv_in s = (if present_flags (snd (fst it)) then snd it else []) ++ rest ->
  zlen (xf_pi (loc_xfer (sv_cxfer s))) + item_size it <= OFF_MAX ->
  exists ok s' e', page_server_add auto dir e s (item_frame compress dst it) (snd (fst it)) = Ret (ok, s', e') /\
    (ok = true -> item_post s it rest s') /\ (xenv_ok e -> item_backed it -> ok = true /\ xenv_ok e').
Proof.
  intros Hok Hs Hcur Hin Hmax. unfold page_server_add. rewrite (frame_valid it Hok). cbn [negb].
  destruct (prep_serving e s cur it Hs) as [-> Ho]. cbn [obind negb]. rewrite Ho. cbn [negb]. rewrite (frame_iov it Hok).
  destruct (present_flags (snd (fst it))) eqn:Ep; unfold present_flags in Ep.
  - apply negb_true_iff in Ep. rewrite Ep. destruct it as [[iov flags] data]. pose proof Hok as (Hr & _ & Hf). cbn [item_iov fst snd] in *.
    assert (Hf' : (flags = PE_PRESENT \/ flags = Z.lor PE_PRESENT PE_LAZY) /\ zlen data = iov_len iov) by (destruct Hf as [-> |[-> |Hf]]; done).
    destruct Hf' as [Hf' Hd]. unfold item_size, present_flags in Hmax. cbn [fst snd item_iov] in Hmax. rewrite Ep in Hmax. cbn [negb] in Hmax.
    destruct (write_pagemap_loc_present auto ls e _ iov flags cur (sg_xfer _ _ Hs) Hcur Hr Hf') as (ok & x1 & e1 & -> & A1 & A2). cbn [obind].
    destruct ok; cbn [negb]; [|eexists _, _, _; split; [done|]; split; [done|]; intros He; by destruct (A2 He)].
    destruct (A1 eq_refl) as (ps & -> & Hps). set (x := loc_xfer (sv_cxfer s)) in *. set (x2 := set_pmi (xf_pmi x ++ [range_entry iov flags]) (set_parent ps x)).
    pose proof (xo_counted _ _ _ (sg_xfer _ _ Hs)) as Hc. pose proof (rp_len _ Hr) as [L1 _]. pose proof (zlen_nonneg (xf_pi x)) as Hz0.
    destruct (sg_pipe _ _ Hs) as [Hp1 Hp2].
    destruct (add_loop_safe (Z.to_nat (iov_len iov)) e1 (set_loc x2 s) x2 (iov_len iov) []) as (ok & s2 & e2 & -> & _ & B2 & B3);
      [cbn [loc_xfer set_loc set_cxfer sv_cxfer]; rewrite (grow_nil x2) by exact Hc; by rewrite set_direct_id|unfold OFF_MAX, PAGE_SIZE in *; lia|lia|split; [exact Hp1|cbn; lia]|].
    eexists _, _, _. split; [done|]. split.
    + intros Hk. destruct (B2 Hk) as (d & more & sk & C1 & C2 & ->). cbn [sv_in set_loc set_cxfer] in C1. rewrite Hin in C1.
      apply app_inj_1 in C1 as [<- <-]; [|unfold zlen in *; lia]. cbn [app].
      destruct (plain_emitted lz4 ls x ps d iov flags data cur (sg_xfer _ _ Hs) Hcur Hr Hf' Hd ltac:(lia) Hps) as (X1 & X2 & X3 & X4). cbv zeta in *. fold x2 in X1, X2, X3, X4.
      split; try done; [|cbn [item_stored]; unfold present_flags; rewrite Ep; exact X3|unfold item_size, present_flags; cbn [fst snd]; rewrite Ep; cbn [negb]; rewrite Z.add_assoc; exact X4].
      split; [apply (sg_dst _ _ Hs)|by split|exact X1|]. cbn. pose proof (sg_bytes _ _ Hs) as Hb. rewrite Hin in Hb. by apply Forall_app in Hb as [_ Hb].
    + intros He _. apply B3; [by apply A2|exact Hp2|unfold OFF_MAX, PAGE_SIZE in *; lia| |].
      * cbn. rewrite Hin, zlen_app. pose proof (zlen_nonneg rest). lia.
      * cbn. rewrite app_nil_r. unfold OFF_MAX, PAGE_SIZE in *. lia.
  - apply negb_false_iff in Ep. assert (Ep' : present_flags (snd (fst it)) = false) by (unfold present_flags; by rewrite Ep).
    unfold item_size in Hmax. rewrite Ep' in Hmax.
    destruct (absent_served e s it rest cur Hok Hs Hcur Ep' Hin ltac:(lia)) as (ok & x & e' & -> & A1 & A2). cbn [obind]. rewrite Ep.
    exists ok, (set_loc x s), e'. split; [by destruct ok|]. done.
Qed.

(** *** Compressed pages *)
Lemma wire_pages_inj ds : forall ds' r r', Forall wire_page_ok ds -> Forall wire_page_ok ds' -> length ds = length ds' ->
  concat (wire_page <$> ds) ++ r = concat (wire_page <$> ds') ++ r' -> ds = ds' /\ r = r'.
Proof.
  induction ds as [|[c p] ds IH]; intros [|[c' p'] ds'] r r' Hd Hd' Hl He; try done.
  apply Forall_cons_1 in Hd as [[P1 P2] Hd], Hd' as [[P1' P2'] Hd']. cbn [fst snd] in *. rewrite !fmap_cons in He. cbn [concat] in He.
  unfold wire_page at 1 3 in He. cbn [fst snd] in He. rewrite <- !app_assoc in He. pose proof (zlen_nonneg p). pose proof (zlen_nonneg p').
  apply app_inj_1 in He as [Hc He]; [|by rewrite !length_le_bytes]. unfold PAGE_SIZE in *.
  assert (c = c') as <-.
  { rewrite <- (le_value_bytes 4 c), <- (le_value_bytes 4 c'), Hc; [done| |]; change (256 ^ Z.of_nat 4) with (2 ^ 32); lia. }
  apply app_inj_1 in He as [-> He]; [|unfold zlen in *; lia]. destruct (IH ds' r r' Hd Hd' ltac:(by injection Hl) He) as [-> ->]. done.
Qed.

Lemma all_raw_pages nr (dn : list (Z * list Z)) : forall i, 0 <= i -> i + zlen dn <= nr -> nr < 2 ^ 63 ->
  all_raw_from i nr 1 (fst <$> dn) = forallb (fun c => c =? PAGE_SIZE) (fst <$> dn).
Proof.
  induction dn as [|[c p] dn IH]; intros i Hi Hn Hm; [done|]. rewrite fmap_cons. cbn [all_raw_from forallb fst].
  replace (zlen ((c, p) :: dn)) with (1 + zlen dn) in Hn by (unfold zlen; simpl length; lia). pose proof (zlen_nonneg dn).
  unfold cur_block_pages. rewrite Z.mul_1_r, (u64_small i), u64_small by lia. destruct (Z.ltb_spec (nr - i) 1); [lia|]. rewrite Z.mul_1_l.
  rewrite IH by lia. by destruct (c =? PAGE_SIZE).
Qed.

Lemma pages_encoded_wire data ds : pages_encoded lz4 data ds -> Forall wire_page_ok ds.
Proof.
  intros (_ & _ & H). apply Forall_lookup_2. intros i [c p] Hi. destruct (H i c p Hi) as (_ & Hp & Hc). split; cbn; [done|]. pose proof (zlen_nonneg p). unfold PAGE_SIZE in *. lia.
Qed.

(** The received pages are the blocks of an entry with one page per block. *)
Lemma recv_blocks_inv x0 flags ds pd r vaddr nr data : recv_inv x0 flags ds pd r -> pages_encoded lz4 data ds -> zlen ds = nr -> 0 < nr < 2 ^ 63 ->
  exists P, blocks_inv lz4 x0 vaddr nr 1 flags data ds pd (rs_flags r) (rs_started r) (set_pending P (rs_xfer r)) /\
    block_nr_blocks nr 1 = nr /\ recv_blocks r = stored_blocks 1 ds (all_raw_from 0 nr 1 (fst <$> ds)).
Proof.
  intros [R1 R2 R3 R4 R5 R6 R7] (_ & _ & Hst) Hl Hn. destruct (wire_sizes ds R5) as [W1 W2].
  assert (Hnb : block_nr_blocks nr 1 = nr) by (apply block_nr_blocks_spec; lia).
  eexists. split; [|split; [done|]].
  - split; [by rewrite R1| | |done|done].
    + intros j c p Hj. pose proof (lookup_lt_Some _ _ _ Hj) as Hlt. unfold block_pages_at, block_data, block_pages_at.
      rewrite Z.mul_1_r, Z.min_l by (unfold zlen in Hl; lia). rewrite Z.mul_1_l. by apply Hst.
    + split; [done|]. unfold pages_in_blocks. rewrite Z.mul_1_r, Hl, Z.min_id. rewrite Hl in W2. lia.
  - unfold recv_blocks, stored_blocks. rewrite R2, R3, R4, all_raw_pages by lia. done.
Qed.

Lemma packed_served e s it payload rest cur : compress = true -> item_ok it -> serving cur s -> cur <= iov_base (item_iov it) ->
  item_payload lz4 compress it payload -> sv_in s = payload ++ rest -> zlen (xf_pi (loc_xfer (sv_cxfer s))) + item_size it <= OFF_MAX ->
  exists ok s' e', page_server_add_compressed auto dir e s (item_frame compress dst it) (snd (fst it)) = Ret (ok, s', e') /\
    (ok = true -> item_post s it rest s') /\ (xenv_ok e -> item_backed it -> ok = true /\ xenv_ok e').
Proof.
  intros Ecomp Hok Hs Hcur Hpay Hin Hmax. unfold page_server_add_compressed. rewrite (frame_valid it Hok). cbn [negb].
  destruct (prep_serving e s cur it Hs) as [-> Ho]. cbn [obind negb]. rewrite Ho. cbn [negb]. rewrite (frame_iov it Hok).
  destruct (Z.land (snd (fst it)) PE_PRESENT =? 0) eqn:Ep.
  - assert (Ep' : present_flags (snd (fst it)) = false) by (unfold present_flags; by rewrite Ep). unfold item_size in Hmax. rewrite Ep' in Hmax.
    assert (payload = []) as -> by (destruct it as [[? ?] ?]; cbn [item_payload fst snd] in *; by rewrite Ep' in Hpay).
    destruct (absent_served e s it rest cur Hok Hs Hcur Ep' Hin ltac:(lia)) as (ok & x & e' & -> & A1 & A2). cbn [obind].
    exists ok, (set_loc x s), e'. done.
  - destruct it as [[iov flags] data]. pose proof Hok as (Hr & _ & Hf). cbn [item_iov fst snd item_frame pi_nr_pages] in *.
    assert (Ep' : present_flags flags = true) by (unfold present_flags; by rewrite Ep).
    unfold item_size in Hmax. cbn [fst snd item_iov] in Hmax. rewrite Ep' in Hmax. cbn [item_payload] in Hpay. rewrite Ep', Ecomp in Hpay.
    destruct Hpay as (ds & -> & Hds). set (x := loc_xfer (sv_cxfer s)) in *.
    assert (Hf' : (flags = PE_PRESENT \/ flags = Z.lor PE_PRESENT PE_LAZY) /\ zlen data = iov_len iov) by (destruct Hf as [-> |[-> |Hf]]; done).
    destruct Hf' as [Hf' Hd]. destruct (range_nr iov Hr) as (N1 & N2 & Hae). pose proof Hr as [[B1 B2] [L1 L2] Een]. pose proof (sg_xfer _ _ Hs) as Hx.
    assert (Hps : Forall2 (dedup_ok (iov_base iov)) ls (xf_parent x)) by (eapply chain_mono; [|exact (xo_parent _ _ _ Hx)]; lia).
    destruct (dedup_parent_ok ls auto e x (iov_base iov) (iov_len iov) Hps B2 Hae B1 L1 Een) as (ok & x1 & e1 & -> & A1 & A2). cbn [obind].
    destruct ok; cbn [negb]; [|eexists _, _, _; split; [done|]; split; [done|]; intros He; by destruct (A2 He)].
    destruct (A1 eq_refl) as (ps & -> & Hps1). clear A1. destruct (xe_alloc e1) as [ok e2] eqn:Eal. pose proof (xe_alloc_ok _ _ _ Eal) as A3.
    destruct ok; cbn [negb]; [|eexists _, _, _; split; [done|]; split; [done|]; intros He; by destruct (A3 (proj2 (A2 He)))].
    set (nr := iov_len iov / PAGE_SIZE) in *. set (x0 := set_parent ps x). pose proof (zlen_nonneg (xf_pi x)) as Hz0.
    assert (Hsz : zlen (xf_pi x) + nr * PAGE_SIZE + PAGE_SIZE < 2 ^ 63) by (unfold OFF_MAX in Hmax; lia).
    assert (Hln : zlen ds = nr) by (destruct Hds as [E _]; unfold PAGE_SIZE in *; lia).
    assert (Hinv0 : recv_inv x0 flags [] [] (RecvState x0 flags [] 0 true false)).
    { split; try done; [cbn; rewrite grow_nil; [done|apply (xo_counted _ _ _ Hx)]|by left]. }
    destruct (recv_pages_ok x0 flags (Z.to_nat nr) e2 (sv_in s) _ [] [] Hinv0 (sg_bytes _ _ Hs)) as (ok & r & sk & e3 & Hrun & _ & C1 & C2).
    { change (zlen []) with 0. unfold PAGE_SIZE in *. lia. }
    cbn [sv_in set_loc set_cxfer]. rewrite Hrun. cbn [obind]. clear Hrun.
    assert (Hev : xenv_ok e -> ok = true /\ xenv_ok e3).
    { intros He. apply C2; [by apply A3, A2|change (zlen []) with 0; change (xf_pi x0) with (xf_pi x); unfold PAGE_SIZE in *; lia|].
      exists ds, rest. split; [done|]. split; [unfold zlen in Hln; lia|by apply (pages_encoded_wire data)]. }
    destruct ok; cbn [negb]; [|eexists _, _, _; split; [done|]; split; [done|]; intros He; by destruct (Hev He)].
    destruct (C1 eq_refl) as (dn & pd & Hl & Hsk & Hinv). cbn [app] in Hinv. clear C1.
    rewrite Hin in Hsk. apply wire_pages_inj in Hsk as [<- <-];
      [|by apply (pages_encoded_wire data)|apply (ri_pages _ _ _ _ _ Hinv)|unfold zlen in Hln; lia].
    destruct (recv_blocks_inv x0 flags ds pd r (iov_base iov) nr data Hinv Hds Hln ltac:(unfold PAGE_SIZE in *; lia)) as (P & Hbi & Hnb & Hrb).
    fold (recv_blocks r). rewrite Hrb.
    destruct (blocks_entry lz4 x0 (iov_base iov) nr 1 flags data ds pd (rs_flags r) (rs_started r) (set_pending P (rs_xfer r)))
      as (F1 & F2 & F3 & F4 & F5); try done; try lia; [change (xf_pi x0) with (xf_pi x); lia|].
    set (pe := new_entry (iov_base iov) nr (rs_flags r) _) in *.
    destruct (pb_write_ok e3 (rs_xfer r) pe) as (ok & x' & e4 & -> & P1 & P2).
    eexists _, _, _. split; [done|]. split; [|by intros He _; apply P2, Hev]. intros Hk. rewrite (P1 Hk). clear P1.
    pose proof (ri_xfer _ _ _ _ _ Hinv) as Hrx. cbn [xf_pi set_pending] in F4, F5.
    assert (Hgrow : zlen (pd ++ concat (snd <$> ds)) <= nr * PAGE_SIZE + PAGE_SIZE).
    { rewrite zlen_app. destruct (wire_sizes ds (ri_pages _ _ _ _ _ Hinv)) as [-> Hw].
      destruct (ri_pad _ _ _ _ _ Hinv) as [[_ ->]|(_ & _ & Hp)]; unfold zlen in *; unfold PAGE_SIZE in *; simpl; lia. }
    destruct (emitted lz4 ls cur x (set_pmi (xf_pmi (rs_xfer r) ++ [pe]) (rs_xfer r)) iov data pe (pd ++ concat (snd <$> ds)) ps)
      as (E1 & E2 & E3); rewrite ?Hrx; try done.
    + by rewrite Hrx in F4.
    + cbn. rewrite zlen_app. lia.
    + intros k l Hk0 Hl0. rewrite Hrx in F5. by apply F5.
    + rewrite Hrx in E1, E2, E3.
      split; try done; [|cbn [item_stored]; rewrite Ep'; exact E3|unfold item_size; cbn [fst snd]; rewrite Ep'; cbn; rewrite zlen_app; fold x; unfold PAGE_SIZE in *; lia].
      split; [apply (sg_dst _ _ Hs)|apply (sg_pipe _ _ Hs)|exact E1|]. pose proof (sg_bytes _ _ Hs) as Hb. rewrite Hin in Hb. by apply Forall_app in Hb as [_ Hb].
Qed.

(** One command. *)
Lemma item_served e s it payload rest cur : item_ok it -> serving cur s -> cur <= iov_base (item_iov it) ->
  item_payload lz4 compress it payload -> sv_in s = payload ++ rest -> zlen (xf_pi (loc_xfer (sv_cxfer s))) + item_size it <= OFF_MAX ->
  exists r s' e', serve_cmd auto dir pad e s (item_frame compress dst it) = Ret (r, false, s', e') /\
    (r = 0 -> item_post s it rest s') /\ (xenv_ok e -> item_backed it -> r = 0 /\ xenv_ok e').
Proof.
  intros Hok Hs Hcur Hpay Hin Hmax. destruct (item_flags it Hok) as [_ Hf]. unfold serve_cmd. cbv zeta.
  assert (Hcmd : decode_ps_cmd (pi_cmd (item_frame compress dst it)) = (if compress then PS_IOV_ADD_F_COMPRESSED else PS_IOV_ADD_F) /\
    decode_ps_flags (pi_cmd (item_frame compress dst it)) = snd (fst it)).
  { destruct it as [[iov flags] data]. cbn [item_frame pi_cmd fst snd] in *. split; apply encode_cmd_inv; (by destruct compress) || done. }
  destruct Hcmd as [-> ->].
  assert (Hgo : forall r, (exists ok s' e', r = Ret (ok, s', e') /\ (ok = true -> item_post s it rest s') /\ (xenv_ok e -> item_backed it -> ok = true /\ xenv_ok e')) ->
    exists rr s' e', ((let! (ok, s, e) := r in Ret (if ok then 0 else -1, false, s, e)) : outcome (Z * bool * page_server * xenv)) = Ret (rr, false, s', e') /\
    (rr = 0 -> item_post s it rest s') /\ (xenv_ok e -> item_backed it -> rr = 0 /\ xenv_ok e')).
  { intros r (ok & s' & e' & -> & H1 & H2). cbn [obind]. eexists _, _, _. split; [done|]. destruct ok; split; try done.
    - intros _. by apply H1.
    - intros He Hb. split; [done|]. by apply H2.
    - intros He Hb. by destruct (H2 He Hb). }
  assert (Hc : compress = true \/ compress = false) by (destruct compress; auto). destruct Hc as [Ec|Ec].
  - assert (Hsel : (if compress then PS_IOV_ADD_F_COMPRESSED else PS_IOV_ADD_F) = PS_IOV_ADD_F_COMPRESSED) by (by rewrite Ec). rewrite Hsel. cbn.
    apply Hgo. by apply (packed_served e s it payload rest cur).
  - assert (Hsel : (if compress then PS_IOV_ADD_F_COMPRESSED else PS_IOV_ADD_F) = PS_IOV_ADD_F) by (by rewrite Ec). rewrite Hsel. cbn.
    apply Hgo. apply (plain_served e s it rest cur); try done. rewrite Hin. f_equal. rewrite Ec in Hpay. destruct it as [[iov flags] data].
    cbn [item_payload fst snd] in *. by destruct (present_flags flags).
Qed.

Lemma item_stored_grows cur n x x' it : xfer_ok ls cur x -> xstep n x x' -> item_stored x it -> item_stored x' it.
Proof.
  intros Hx Hs. destruct it as [[iov flags] data]. cbn [item_stored]. destruct (present_flags flags); [by eapply dumped_grows|by eapply noted_grows].
Qed.

Lemma frame_bytes it : length pad = 4%nat -> item_ok it ->
  psi_of_bytes (psi_bytes pad (item_frame compress dst it)) = item_frame compress dst it /\ zlen (psi_bytes pad (item_frame compress dst it)) = SIZEOF_PSI.
Proof.
  intros Hp Hok. destruct (item_flags it Hok) as [_ Hf]. unfold NO_DST in Hdst. destruct it as [[iov flags] data]. destruct Hok as [Hr _]. cbn [fst snd] in Hf.
  destruct (range_nr iov Hr) as (N1 & N2 & _). destruct Hr as [[B1 _] [L1 _] E].
  apply psi_bytes_inv; cbn [item_frame pi_cmd pi_nr_pages pi_vaddr pi_dst_id]; try done; try (unfold PAGE_SIZE in *; lia).
  apply encode_cmd_inv; [by destruct compress|done].
Qed.

(** After the items [its]. *)
Record items_post (s : page_server) (its : list item) (rest : list Z) (cur : Z) (s' : page_server) : Prop := ItemsPost {
  tp_in : sv_in s' = rest;
  tp_out : sv_out s' = sv_out s;
  tp_done : sv_done s' = sv_done s;
  tp_serving : serving cur s';
  tp_step : xstep (length its) (loc_xfer (sv_cxfer s)) (loc_xfer (sv_cxfer s'));
  tp_stored : Forall (item_stored (loc_xfer (sv_cxfer s'))) its
}.

(** The loop takes the items one after the other, or stops before the end. *)
Lemma serve_items fuel rest its : length pad = 4%nat -> forall bs e s cur, Forall2 (item_wire lz4 compress pad dst) its bs ->
  ascending cur (item_iov <$> its) -> Forall item_ok its -> serving cur s -> sv_in s = concat bs ++ rest ->
  zlen (xf_pi (loc_xfer (sv_cxfer s))) + items_size its <= OFF_MAX ->
  (exists r fl s' e', serve_loop auto dir pad (length its + fuel) e s false = Ret (r, fl, s', e') /\ (r <> 0 \/ fl = false) /\
     (xenv_ok e -> Forall item_backed its -> False)) \/
  (exists s' e' cur', serve_loop auto dir pad (length its + fuel) e s false = serve_loop auto dir pad fuel e' s' false /\
     items_post s its rest cur' s' /\ (xenv_ok e -> Forall item_backed its -> xenv_ok e')).
Proof.
  intros Hpad. induction its as [|it its IH]; intros bs e s cur Hw Hasc Hok Hs Hin Hmax.
  { inversion Hw; subst. right. exists s, e, cur. split; [done|]. split; [|done]. split; try done. apply xstep_refl. }
  inversion Hw as [|? b ? bs' (payload & Hb & Hpay) Hw']; subst. apply Forall_cons_1 in Hok as [Hit Hok]. destruct Hasc as [Hc Hasc].
  cbn [length Nat.add serve_loop]. destruct (frame_bytes it Hpad Hit) as [Hf1 Hf2].
  destruct (recv_full_or_eof_ok e (sv_in s) SIZEOF_PSI) as (ret & buf & sk & e1 & -> & A1 & _ & A3 & _); [done|]. cbn [obind].
  assert (Hav : SIZEOF_PSI <= zlen (sv_in s)).
  { rewrite Hin. cbn [concat]. rewrite !zlen_app, Hf2. pose proof (zlen_nonneg payload). pose proof (zlen_nonneg (concat bs')). pose proof (zlen_nonneg rest). lia. }
  destruct (Z.leb_spec ret 0) as [Hle|Hpos].
  { left. eexists _, _, _, _. split; [done|]. split; [by right|]. intros He. destruct (A3 He Hav) as [-> _]. unfold SIZEOF_PSI in Hle. lia. }
  destruct (A1 Hpos) as [Hsp Hbl]. rewrite Hin in Hsp. cbn [concat] in Hsp. rewrite <- !app_assoc in Hsp.
  apply app_inj_1 in Hsp as [<- <-]; [|unfold zlen in *; lia]. rewrite Hf1.
  assert (Hs1 : serving cur (set_in (payload ++ concat bs' ++ rest) s)).
  { destruct Hs as [S1 S2 S3 S4]. split; try done. rewrite Hin in S4. cbn [concat] in S4. rewrite <- !app_assoc in S4. by apply Forall_app in S4 as [_ S4]. }
  assert (Hsz : items_size (it :: its) = item_size it + items_size its) by done.
  assert (Hn0 : 0 <= item_size it /\ 0 <= items_size its).
  { assert (H : forall i, item_ok i -> 0 <= item_size i).
    { intros [[iov fl] d] [[_ [L _] _] _]. unfold item_size. cbn [fst snd item_iov]. destruct (present_flags fl); unfold PAGE_SIZE; lia. }
    split; [by apply H|]. unfold items_size. apply zsum_nonneg, Forall_fmap. eapply Forall_impl; [exact Hok|]. intros i Hi. by apply H. }
  destruct (item_served e1 (set_in (payload ++ concat bs' ++ rest) s) it payload (concat bs' ++ rest) cur Hit Hs1 Hc Hpay eq_refl) as (r & s2 & e2 & -> & B1 & B2).
  { cbn [sv_cxfer set_in]. lia. }
  cbn [obind]. destruct (Z.eqb_spec r 0) as [->|Hr]; cbn [negb].
  2:{ left. eexists _, _, _, _. split; [done|]. split; [by left|]. intros He Hbk. apply Forall_cons_1 in Hbk as [Hbk _]. by destruct (B2 (proj2 (A3 He Hav)) Hbk). }
  specialize (B1 eq_refl). assert (Hncl : (pi_cmd (item_frame compress dst it) =? PS_IOV_CLOSE) || (pi_cmd (item_frame compress dst it) =? PS_IOV_FORCE_CLOSE) = false).
  { destruct (item_flags it Hit) as [_ Hf]. destruct it as [[iov flags] data]. cbn [item_frame pi_cmd fst snd] in *.
    destruct (encode_cmd_inv (if compress then PS_IOV_ADD_F_COMPRESSED else PS_IOV_ADD_F) flags) as [Hd _]; [by destruct compress|done|].
    apply orb_false_iff. split; apply Z.eqb_neq; intros E; rewrite E in Hd; destruct compress; by vm_compute in Hd. }
  rewrite Hncl. destruct B1 as [I1 I2 I3 I4 I5 I6 I7]. cbn [sv_out sv_done sv_cxfer set_in] in *.
  destruct (IH bs' e2 s2 (iov_end (item_iov it)) Hw' Hasc Hok I4 I1 ltac:(lia)) as [(r & fl & s3 & e3 & -> & C1 & C2)|(s3 & e3 & cur3 & -> & [T1 T2 T3 T4 T5 T6] & C2)].
  - left. eexists _, _, _, _. split; [done|]. split; [done|]. intros He Hbk. apply Forall_cons_1 in Hbk as [Hbk1 Hbk2]. apply C2; [|done]. by apply B2; [apply A3|].
  - right. exists s3, e3, cur3. split; [done|]. split.
    + split; try done; try congruence; [exact (xstep_trans _ _ _ _ _ I5 T5)|]. apply Forall_cons_2; [|done].
      exact (item_stored_grows _ _ _ _ _ (sg_xfer _ _ I4) T5 I6).
    + intros He Hbk. apply Forall_cons_1 in Hbk as [Hbk1 Hbk2]. apply C2; [|done]. by apply B2; [apply A3|].
Qed.
End ServerSide.

(** ** A whole session *)
Lemma le_bytes_ok n : forall v, Forall byte_ok (le_bytes n v).
Proof. induction n as [|n IH]; intros v; [apply Forall_nil_2|]. apply Forall_cons_2; [apply Z.mod_pos_bound; lia|apply IH]. Qed.

Lemma psi_bytes_ok pad pi : Forall byte_ok pad -> Forall byte_ok (psi_bytes pad pi).
Proof. intros Hp. unfold psi_bytes. repeat (apply Forall_app; split); try apply le_bytes_ok; done. Qed.

Lemma item_wire_bytes lz4 compress pad dst it b : Forall byte_ok pad -> item_ok it -> item_wire lz4 compress pad dst it b -> Forall byte_ok b /\ (0 < length b)%nat.
Proof.
  intros Hp Hok (payload & -> & Hpay). destruct it as [[iov flags] data]. destruct Hok as (_ & Hd & _). split.
  - apply Forall_app. split; [by apply psi_bytes_ok|]. cbn [item_payload] in Hpay.
    destruct (present_flags flags); [|subst; apply Forall_nil_2]. destruct compress; [|by subst].
    destruct Hpay as (ds & -> & _ & Hb & _). clear -Hb. induction Hb as [|[c p] ds H _ IH]; [apply Forall_nil_2|].
    rewrite fmap_cons. cbn [concat]. apply Forall_app. split; [|exact IH]. apply Forall_app. split; [apply le_bytes_ok|exact H].
  - rewrite length_app. unfold psi_bytes. rewrite length_app, length_le_bytes. lia.
Qed.

Lemma items_wire_bytes lz4 compress pad dst its bs : Forall byte_ok pad -> Forall item_ok its -> Forall2 (item_wire lz4 compress pad dst) its bs ->
  Forall byte_ok (concat bs) /\ (length its <= length (concat bs))%nat.
Proof.
  intros Hp Hok Hw. induction Hw as [|it b its bs H _ IH]; [split; [apply Forall_nil_2|done]|]. apply Forall_cons_1 in Hok as [H1 H2].
  destruct (item_wire_bytes _ _ _ _ _ _ Hp H1 H) as [B1 B2]. destruct (IH H2) as [I1 I2]. cbn [concat length].
  split; [by apply Forall_app|]. rewrite length_app. lia.
Qed.

Lemma plan_length off lazy sds : forall holes, length (plan off lazy sds holes) = (length sds + length holes)%nat.
Proof.
  induction sds as [|sd sds IH]; intros holes; cbn [plan]; [by rewrite length_fmap|].
  pose proof (split_holes_app (iov_base (seg_iov sd)) holes) as Hs. destruct (split_holes _ holes) as [a b]. cbn [fst snd] in Hs.
  rewrite <- Hs, !length_app, length_fmap. cbn [length]. rewrite IH. lia.
Qed.

(** The parents of the images of [id]. *)
Definition dir_parents (d : img_dir) (type id : Z) : list dedup_reader :=
  match dir_parent d with Some true => default [] (dir_parent_read d type id) | _ => [] end.
Definition has_parent (d : img_dir) (type id : Z) : Z := match dir_parents d type id with [] => 0 | _ => 1 end.

(** What the two sides of a session agree on. *)
Section Session.
Context (lz4c : list Z -> Z -> Z -> option (list Z)) (lz4 : list Z -> Z -> option (list Z)) (Hlz : lz4_contract lz4c lz4).
Context (Hlzb : forall src cap a out, Forall byte_ok src -> lz4c src cap a = Some out -> Forall byte_ok out).
Context (acc : Z) (compress : bool) (pad : list Z) (Hpad : length pad = 4%nat) (Hpadb : Forall byte_ok pad).
Context (auto ps_socket own_socket : bool) (dir : img_dir) (type id : Z) (ls : list (list pagemap_entry)).
Context (Htype : type = CR_FD_PAGEMAP \/ type = CR_FD_SHMEM_PAGEMAP) (Hid : 0 <= id < 2 ^ 56).
Context (Hpar : Forall2 (dedup_ok 0) ls (dir_parents dir type id)).

(** The calls a dump makes: open, the pages, disconnect.  The answer says
    whether all of them succeeded, and what was sent. *)
Definition client_session (e : xenv) (x : srv_xfer) (replies : list Z) (pipes : list (list Z)) (pp : page_pipe) : outcome (bool * list Z) :=
  let! (ok, x, replies, e) := open_page_server_xfer pad e x replies type id in
  if negb ok then Ret (false, sx_sk x)
  else
    let! (ok, x, pipes, e) := page_xfer_dump_pages (srv_transport lz4c acc compress pad) e x pipes pp in
    if negb ok then Ret (false, sx_sk x)
    else
      let! (ret, out, replies, e) := disconnect_from_page_server pad own_socket e (sx_sk x) replies in
      Ret (ret =? 0, out).

(** What the server sends back. *)
Definition session_replies : list Z := le_bytes 1 (has_parent dir type id) ++ le_bytes 4 0.
Definition close_frame : page_server_iov := PsIov (if own_socket then PS_IOV_FORCE_CLOSE else PS_IOV_CLOSE) 0 0 0.

Lemma client_open e x dst : encode_pm type id = Ret dst ->
  exists ok x' replies' e', open_page_server_xfer pad e x session_replies type id = Ret (ok, x', replies', e') /\
    (ok = true -> replies' = le_bytes 4 0 /\ sx_sk x' = sx_sk x ++ psi_bytes pad (PsIov PS_IOV_OPEN2 0 0 dst) /\ sx_dst_id x' = dst /\
       sx_offset x' = sx_offset x /\ sx_lazy x' = sx_lazy x) /\
    (xenv_ok e -> ok = true /\ xenv_ok e').
Proof.
  intros Hd. unfold open_page_server_xfer, send_psi. rewrite Hd. cbn [obind sx_sk].
  destruct (send_full_ok e (sx_sk x) (psi_bytes pad (PsIov PS_IOV_OPEN2 0 0 dst))) as (ok & out & e1 & -> & A1 & A2). cbn [obind].
  destruct ok; cbn [negb]; [|eexists _, _, _, _; split; [done|]; split; [done|]; intros He; by destruct (A2 He)].
  destruct (recv_full_ok e1 session_replies 1) as (got & sk & e2 & -> & B1 & _ & B3); [lia|]. cbn [obind].
  assert (Hav : 1 <= zlen session_replies) by (unfold session_replies; rewrite zlen_app, !zlen_le_bytes; lia).
  destruct got as [c|]; [|eexists _, _, _, _; split; [done|]; split; [done|]; intros He; by destruct (B3 (proj2 (A2 He)) Hav)].
  destruct (B1 c eq_refl) as [Hs Hc]. unfold session_replies in Hs.
  apply app_inj_1 in Hs as [_ <-]; [|rewrite length_le_bytes; unfold zlen in Hc; lia].
  eexists _, _, _, _. split; [done|]. split; [|intros He; split; [done|]; by apply B3; [apply A2|]]. intros _. cbn. by rewrite (A1 eq_refl).
Qed.

Lemma client_close e out : exists ret out' replies' e', disconnect_from_page_server pad own_socket e out (le_bytes 4 0) = Ret (ret, out', replies', e') /\
  (ret = 0 -> out' = out ++ psi_bytes pad close_frame) /\ (xenv_ok e -> ret = 0 /\ xenv_ok e').
Proof.
  unfold disconnect_from_page_server, send_psi. fold close_frame. destruct (send_full_ok e out (psi_bytes pad close_frame)) as (ok & out' & e1 & -> & A1 & A2). cbn [obind].
  destruct ok; cbn [negb]; [|eexists _, _, _, _; split; [done|]; split; [done|]; intros He; by destruct (A2 He)].
  destruct (recv_full_ok e1 (le_bytes 4 0) 4) as (got & sk & e2 & -> & B1 & _ & B3); [lia|]. cbn [obind].
  assert (Hav : 4 <= zlen (le_bytes 4 0)) by (by rewrite zlen_le_bytes).
  destruct got as [c|]; [|eexists _, _, _, _; split; [done|]; split; [done|]; intros He; by destruct (B3 (proj2 (A2 He)) Hav)].
  destruct (B1 c eq_refl) as [Hs Hc]. rewrite <- (app_nil_r (le_bytes 4 0)) in Hs. apply app_inj_1 in Hs as [<- <-]; [|rewrite length_le_bytes; unfold zlen in Hc; lia].
  eexists _, _, _, _. split; [done|]. split; [intros _; by rewrite (A1 eq_refl)|]. intros He. split; [done|]. by apply B3; [apply A2|].
Qed.

Lemma open_local e x : exists ok x' e', open_page_local_xfer dir e x type id = (ok, x', e') /\
  (ok = true -> xfer_ok ls 0 x' /\ xf_pmi x' = [] /\ xf_pi x' = [] /\ xf_parent x' = dir_parents dir type id) /\
  (xenv_ok e -> dir_image dir type id = true -> dir_pages dir type id = true -> dir_parent dir <> None -> ok = true /\ xenv_ok e').
Proof.
  unfold open_page_local_xfer, dir_parents in *. destruct (dir_image dir type id); cbn [negb]; [|by eexists _, _, _].
  destruct (dir_pages dir type id); cbn [negb]; [|by eexists _, _, _].
  assert (Ht : (type =? CR_FD_PAGEMAP) || (type =? CR_FD_SHMEM_PAGEMAP) = true) by (by destruct Htype as [-> | ->]). rewrite Ht.
  assert (Hfin : forall ps y, Forall2 (dedup_ok 0) ls ps -> xf_parent y = ps -> xf_pmi y = [] -> xf_pi y = [] ->
    xfer_ok ls 0 (set_force_raw false (set_pio 0 (set_pending (with_started false (with_block [] (bl_total_bytes (pp_layout (pending y)))
      (pp_n_compressed (pending y)) (pending y))) y)))).
  { intros ps y Hps Hy Hm Hp. split; cbn; rewrite ?Hm; try done; [by rewrite Hp|by unfold counted; cbn; rewrite Hp|by rewrite Hy]. }
  destruct (dir_parent dir) as [[]|]; [|eexists _, _, _; split; [done|]; split; [|done]; intros _; split; [by apply (Hfin [])|done]|by eexists _, _, _].
  destruct (xe_alloc e) as [ok e1] eqn:Eal. pose proof (xe_alloc_ok _ _ _ Eal) as A. destruct ok; cbn [negb].
  - destruct (dir_parent_read dir type id) as [ps|]; eexists _, _, _; (split; [done|]); (split; [|by intros He _ _ _; apply A]); intros _; (split; [|done]).
    + by apply (Hfin ps).
    + by apply (Hfin []).
  - eexists _, _, _. split; [done|]. split; [done|]. intros He. by destruct (A He).
Qed.

Definition dir_writable : Prop := dir_image dir type id = true /\ dir_pages dir type id = true /\ dir_parent dir <> None.

(** The first command of a session. *)
Lemma open_served e s dst : decode_pm dst = Some (type, id) -> cx_dst_id (sv_cxfer s) = NO_DST ->
  cx_pipe (sv_cxfer s) = [] /\ 0 < cx_pipe_size (sv_cxfer s) -> Forall byte_ok (sv_in s) ->
  exists r s' e', serve_cmd auto dir pad e s (PsIov PS_IOV_OPEN2 0 0 dst) = Ret (r, false, s', e') /\
    (r = 0 -> serving dst ls 0 s' /\ xf_pmi (loc_xfer (sv_cxfer s')) = [] /\ xf_pi (loc_xfer (sv_cxfer s')) = [] /\ sv_in s' = sv_in s /\
       sv_done s' = sv_done s /\ sv_out s' = sv_out s ++ le_bytes 1 (has_parent dir type id)) /\
    (xenv_ok e -> dir_writable -> r = 0 /\ xenv_ok e').
Proof.
  intros Hd Hn Hp Hb. unfold serve_cmd. cbv zeta. change (decode_ps_cmd (pi_cmd (PsIov PS_IOV_OPEN2 0 0 dst))) with PS_IOV_OPEN2. cbn [Z.eqb PS_IOV_OPEN PS_IOV_OPEN2 Pos.eqb].
  unfold page_server_open. cbn [pi_dst_id]. rewrite Hd. unfold page_server_close at 1. rewrite Hn, Z.eqb_refl. cbn [negb].
  destruct (open_local e (loc_xfer (sv_cxfer s))) as (ok & x & e1 & Hrun & A1 & A2).
  assert (Hcl : page_server_close s = s) by (unfold page_server_close; by rewrite Hn, Z.eqb_refl). rewrite ?Hcl, Hrun.
  destruct ok; cbn [negb obind]; [|eexists _, _, _; split; [done|]; split; [done|]; intros He (W1 & W2 & W3); by destruct (A2 He W1 W2 W3)].
  destruct (A1 eq_refl) as (X1 & X2 & X3 & X4). rewrite X4. fold (has_parent dir type id).
  destruct (send_reply_ok e1 (set_dst dst (set_loc x s)) (le_bytes 1 (has_parent dir type id))) as (ok & s3 & e3 & -> & (out & -> & B1) & B2). cbn [obind].
  destruct ok; cbn [negb]; [|eexists _, _, _; split; [done|]; split; [done|]; intros He (W1 & W2 & W3); by destruct (B2 (proj2 (A2 He W1 W2 W3)))].
  eexists _, _, _. split; [done|]. split; [|intros He (W1 & W2 & W3); split; [done|]; by apply B2, A2].
  intros _. rewrite (B1 eq_refl). by split_and!.
Qed.

(** The last one. *)
Lemma close_served e s : exists r s' e', serve_cmd auto dir pad e s close_frame = Ret (r, true, s', e') /\
  (r = 0 -> s' = set_out (sv_out s ++ le_bytes 4 0) s) /\ (xenv_ok e -> r = 0 /\ xenv_ok e').
Proof.
  unfold serve_cmd, close_frame. cbv zeta. destruct (send_reply_ok e s (le_bytes 4 0)) as (ok & s' & e' & Hrun & (out & -> & B1) & B2).
  exists (if ok then 0 else -1), (set_out out s), e'.
  destruct own_socket; cbn [pi_cmd];
    [change (decode_ps_cmd PS_IOV_FORCE_CLOSE) with PS_IOV_FORCE_CLOSE|change (decode_ps_cmd PS_IOV_CLOSE) with PS_IOV_CLOSE];
    cbn [Z.eqb Pos.eqb orb PS_IOV_OPEN PS_IOV_OPEN2 PS_IOV_PARENT PS_IOV_ADD_F_COMPRESSED PS_IOV_ADD_F PS_IOV_ADD PS_IOV_HOLE PS_IOV_CLOSE PS_IOV_FORCE_CLOSE];
    rewrite Hrun; cbn [obind]; (split; [done|]); destruct ok; split; try done; try (by intros _; rewrite B1); intros He; by destruct (B2 He).
Qed.

(** Reading one frame of the stream. *)
Lemma frame_received e pi more : 0 <= pi_cmd pi < 2 ^ 32 -> 0 <= pi_nr_pages pi < 2 ^ 64 -> 0 <= pi_vaddr pi < 2 ^ 64 -> 0 <= pi_dst_id pi < 2 ^ 64 ->
  exists ret buf sk e', recv_full_or_eof e (psi_bytes pad pi ++ more) SIZEOF_PSI = Ret (ret, buf, sk, e') /\
    (0 < ret -> psi_of_bytes buf = pi /\ sk = more) /\ (xenv_ok e -> 0 < ret /\ xenv_ok e').
Proof.
  intros H1 H2 H3 H4. destruct (psi_bytes_inv pad pi Hpad H1 H2 H3 H4) as [E1 E2].
  destruct (recv_full_or_eof_ok e (psi_bytes pad pi ++ more) SIZEOF_PSI) as (ret & buf & sk & e' & -> & A1 & _ & A3 & _); [done|].
  eexists _, _, _, _. split; [done|]. split.
  - intros Hr. destruct (A1 Hr) as [Hs Hl]. apply app_inj_1 in Hs as [<- <-]; [done|]. unfold zlen in *. lia.
  - intros He. destruct (A3 He) as [-> He']; [rewrite zlen_app, E2; pose proof (zlen_nonneg more); lia|]. done.
Qed.

Lemma serve_loop_step fuel e s flushed ret buf sk e1 : recv_full_or_eof e (sv_in s) SIZEOF_PSI = Ret (ret, buf, sk, e1) ->
  serve_loop auto dir pad (S fuel) e s flushed =
    if ret <=? 0 then Ret (ret, flushed, set_in sk s, e1)
    else let! (r, fl, s', e') := serve_cmd auto dir pad e1 (set_in sk s) (psi_of_bytes buf) in
         if negb (r =? 0) then Ret (r, fl, s', e')
         else if (pi_cmd (psi_of_bytes buf) =? PS_IOV_CLOSE) || (pi_cmd (psi_of_bytes buf) =? PS_IOV_FORCE_CLOSE) then Ret (r, fl, s', e')
         else serve_loop auto dir pad fuel e' s' fl.
Proof. intros H. cbn [serve_loop]. by rewrite H. Qed.

(** The end of [page_server_serve]. *)
Lemma serve_outcome pipe_size e s r fl s2 e1 e2 : xe_fcntl e = (true, e1) -> 0 <= pipe_size ->
  serve_loop auto dir pad (S (length (sv_in s))) e1 (set_cxfer (PageXferJob (cx_dst_id (sv_cxfer s)) [] pipe_size (loc_xfer (sv_cxfer s))) s) false = Ret (r, fl, s2, e2) ->
  exists ret e', page_server_serve auto false ps_socket dir pad pipe_size e s = Ret (ret, page_server_close s2, e') /\
    (ret = 0 -> r = 0 /\ fl = true) /\ (xenv_ok e2 -> r = 0 -> fl = true -> sv_in s2 = [] -> ret = 0).
Proof.
  intros Hf Hp Hl. unfold page_server_serve. rewrite Hf. cbn [negb andb]. destruct (Z.ltb_spec pipe_size 0); [lia|].
  cbn [sv_in set_cxfer]. rewrite Hl. cbn [obind]. destruct (Z.eqb_spec r 0) as [->|Hr]; cbn [andb negb].
  2:{ destruct (Z.eqb_spec r 0); [done|]. cbn [andb]. eexists _, _. split; [done|]. by split. }
  destruct fl; cbn [negb]; [|eexists _, _; split; [done|]; by split]. change (0 =? 0) with true. cbn [andb].
  destruct ps_socket; cbn [negb]; [eexists _, _; split; [done|]; by split|].
  destruct (io_answer (x_reads e2) 1) as [a l] eqn:Ea. eexists _, _. split; [done|]. split; [done|].
  intros -> _ _ ->. rewrite take_nil. injection Ea as <- <-. done.
Qed.

(** The loop reads what the client sent. *)
Lemma session_loop e s dst its bs fuel : decode_pm dst = Some (type, id) -> 0 <= dst < NO_DST ->
  Forall2 (item_wire lz4 compress pad dst) its bs -> ascending 0 (item_iov <$> its) -> Forall item_ok its -> items_size its <= OFF_MAX ->
  cx_dst_id (sv_cxfer s) = NO_DST -> cx_pipe (sv_cxfer s) = [] /\ 0 < cx_pipe_size (sv_cxfer s) ->
  sv_in s = psi_bytes pad (PsIov PS_IOV_OPEN2 0 0 dst) ++ concat bs ++ psi_bytes pad close_frame -> sv_out s = [] ->
  exists r fl s' e', serve_loop auto dir pad (S (length its + S fuel)) e s false = Ret (r, fl, s', e') /\
    (r = 0 -> fl = true -> sv_in s' = [] /\ sv_done s' = sv_done s /\ sv_out s' = session_replies /\ (exists cur, serving dst ls cur s') /\
       length (xf_pmi (loc_xfer (sv_cxfer s'))) = length its /\ Forall (item_stored lz4 (loc_xfer (sv_cxfer s'))) its) /\
    (xenv_ok e -> dir_writable -> Forall (item_backed ls) its -> r = 0 /\ fl = true /\ xenv_ok e').
Proof.
  intros Hdec Hr Hw Hasc Hok Hsz Hn Hpipe Hin Hout. destruct (items_wire_bytes _ _ _ _ _ _ Hpadb Hok Hw) as [Hbb _].
  assert (Hdst64 : 0 <= dst < 2 ^ 64) by (unfold NO_DST in Hr; lia).
  destruct (frame_received e (PsIov PS_IOV_OPEN2 0 0 dst) (concat bs ++ psi_bytes pad close_frame)) as (r0 & buf & sk & e2 & Hrecv & A1 & A2); [done..|].
  rewrite <- Hin in Hrecv. rewrite (serve_loop_step _ _ _ _ _ _ _ _ Hrecv). clear Hrecv. destruct (Z.leb_spec r0 0) as [Hle|Hpos].
  { eexists _, _, _, _. split; [done|]. split; [done|]. intros He. destruct (A2 He). lia. }
  destruct (A1 Hpos) as [-> ->]. clear A1.
  destruct (open_served e2 (set_in (concat bs ++ psi_bytes pad close_frame) s) dst Hdec Hn Hpipe) as (r & s2 & e3 & -> & B1 & B2).
  { apply Forall_app. split; [done|by apply psi_bytes_ok]. }
  cbn [obind]. destruct (Z.eqb_spec r 0) as [->|Hr0]; cbn [negb].
  2:{ eexists _, _, _, _. split; [done|]. split; [done|]. intros He Hdw _. by destruct (B2 (proj2 (A2 He)) Hdw). }
  destruct (B1 eq_refl) as (Hsv & Hm0 & Hp0 & Hin2 & Hdn2 & Hout2). clear B1. cbn [pi_cmd sv_out sv_done sv_in set_in] in *.
  change ((PS_IOV_OPEN2 =? PS_IOV_CLOSE) || (PS_IOV_OPEN2 =? PS_IOV_FORCE_CLOSE)) with false. cbv iota.
  destruct (serve_items lz4 auto dir pad compress dst Hr ls (S fuel) (psi_bytes pad close_frame) its Hpad bs e3 s2 0 Hw Hasc Hok Hsv Hin2)
    as [(r & fl & s3 & e4 & -> & C1 & C2)|(s3 & e4 & cur & -> & [T1 T2 T3 T4 T5 T6] & C2)].
  { rewrite Hp0. exact Hsz. }
  { eexists _, _, _, _. split; [done|]. split; [intros -> ->; by destruct C1|]. intros He Hdw Hbk. destruct C2; [|done]. by apply B2; [apply A2|]. }
  destruct (frame_received e4 close_frame []) as (r1 & buf1 & sk1 & e5 & Hrecv & D1 & D2); [unfold close_frame; cbn; by destruct own_socket|done..|].
  rewrite app_nil_r, <- T1 in Hrecv. rewrite (serve_loop_step _ _ _ _ _ _ _ _ Hrecv). clear Hrecv.
  assert (Hev : xenv_ok e -> dir_writable -> Forall (item_backed ls) its -> xenv_ok e4).
  { intros He Hdw Hbk. apply C2; [|done]. by apply B2; [apply A2|]. }
  destruct (Z.leb_spec r1 0) as [Hle|Hpos1].
  { eexists _, _, _, _. split; [done|]. split; [done|]. intros He Hdw Hbk. destruct (D2 (Hev He Hdw Hbk)). lia. }
  destruct (D1 Hpos1) as [-> ->]. destruct (close_served e5 (set_in [] s3)) as (r & s4 & e6 & -> & E1 & E2). cbn [obind].
  destruct (Z.eqb_spec r 0) as [->|Hr1]; cbn [negb].
  2:{ eexists _, _, _, _. split; [done|]. split; [done|]. intros He Hdw Hbk. by destruct (E2 (proj2 (D2 (Hev He Hdw Hbk)))). }
  assert (Hcl : (pi_cmd close_frame =? PS_IOV_CLOSE) || (pi_cmd close_frame =? PS_IOV_FORCE_CLOSE) = true) by (unfold close_frame; by destruct own_socket). rewrite Hcl.
  eexists _, _, _, _. split; [done|]. split; [|intros He Hdw Hbk; split; [done|]; split; [done|]; by apply E2, D2, Hev].
  intros _ _. rewrite (E1 eq_refl). cbn [sv_in sv_done sv_out sv_cxfer set_in set_out]. split; [done|]. split; [congruence|].
  split; [rewrite T2, Hout2, Hout; done|]. split; [|split; [|done]].
  - exists cur. destruct T4 as [S1 S2 S3 S4]. split; try done.
  - destruct (xs_grows _ _ _ T5) as (m & g & -> & _ & Hl). by rewrite Hm0.
Qed.

Lemma server_session e s dst its bs pipe_size : decode_pm dst = Some (type, id) -> 0 <= dst < NO_DST ->
  Forall2 (item_wire lz4 compress pad dst) its bs -> ascending 0 (item_iov <$> its) -> Forall item_ok its -> items_size its <= OFF_MAX ->
  sv_in s = psi_bytes pad (PsIov PS_IOV_OPEN2 0 0 dst) ++ concat bs ++ psi_bytes pad close_frame ->
  cx_dst_id (sv_cxfer s) = NO_DST -> sv_done s = [] -> sv_out s = [] -> 0 < pipe_size ->
  exists ret s' e', page_server_serve auto false ps_socket dir pad pipe_size e s = Ret (ret, s', e') /\
    (ret = 0 -> exists x', sv_done s' = [(dst, x')] /\ sv_out s' = session_replies /\ pagemaps_ok (xf_pmi x') /\
       length (xf_pmi x') = length its /\ Forall (item_stored lz4 x') its) /\
    (xenv_ok e -> dir_writable -> Forall (item_backed ls) its -> ret = 0).
Proof.
  intros Hdec Hr Hw Hasc Hok Hsz Hin Hn Hdn Hout Hps. destruct (items_wire_bytes _ _ _ _ _ _ Hpadb Hok Hw) as [_ Hbl].
  destruct (xe_fcntl e) as [ok e1] eqn:Ef. assert (Hf1 : xenv_ok e -> ok = true /\ xenv_ok e1) by (intros ->; by injection Ef as <- <-).
  destruct ok; [|unfold page_server_serve; rewrite Ef; eexists _, _, _; split; [done|]; split; [done|]; intros He; by destruct (Hf1 He)].
  set (s1 := set_cxfer (PageXferJob (cx_dst_id (sv_cxfer s)) [] pipe_size (loc_xfer (sv_cxfer s))) s).
  assert (Hfuel : exists f, length (sv_in s) = (length its + S f)%nat).
  { exists (length (sv_in s) - length its - 1)%nat. rewrite Hin, !length_app. unfold psi_bytes at 1 3. rewrite length_app, length_le_bytes. lia. }
  destruct Hfuel as [f Hfuel].
  destruct (session_loop e1 s1 dst its bs f Hdec Hr Hw Hasc Hok Hsz Hn (conj eq_refl Hps) Hin Hout) as (r & fl & s2 & e2 & Hrun & A1 & A2).
  rewrite <- Hfuel in Hrun. destruct (serve_outcome pipe_size e s r fl s2 e1 e2 Ef ltac:(lia) Hrun) as (ret & e' & -> & B1 & B2).
  exists ret, (page_server_close s2), e'. split; [done|]. split.
  - intros Hz. destruct (B1 Hz) as [-> ->]. destruct (A1 eq_refl eq_refl) as (_ & C2 & C3 & (cur & Hsv) & C5 & C6).
    unfold page_server_close. rewrite (sg_dst _ _ _ _ Hsv). destruct (Z.eqb_spec dst NO_DST); [lia|]. cbn [negb].
    exists (close_page_xfer (loc_xfer (sv_cxfer s2))). change (sv_done s1) with (sv_done s) in C2. rewrite Hdn in C2. cbn [sv_done set_done]. rewrite C2.
    split; [done|]. split; [exact C3|]. split; [exact (xo_pmi _ _ _ (sg_xfer _ _ _ _ Hsv))|]. split; [exact C5|].
    eapply Forall_impl; [exact C6|]. by intros [[iov flags] data].
  - intros He Hdw Hbk. destruct (A2 (proj2 (Hf1 He)) Hdw Hbk) as (-> & -> & He2). apply B2; try done. by apply A1.
Qed.

(** What the images [x'] of the server hold of a segment, and of a hole. *)
Definition seg_arrived (off : Z) (lazy : bool) (x' : page_xfer) (sd : segment * list Z) : Prop :=
  let '(iov, bflags, q, d) := sd in
  if transferred lazy bflags then dumped lz4 x' (iov_base iov - off) d else noted x' (iov_base iov - off) (iov_len iov) PE_LAZY.
Definition hole_arrived (off : Z) (x' : page_xfer) (h : iovec * Z) : Prop :=
  noted x' (iov_base (fst h) - off) (iov_len (fst h)) PE_PARENT.

Lemma plan_arrived off lazy x' sds holes : Forall (item_stored lz4 x') (plan off lazy sds holes) ->
  Forall (seg_arrived off lazy x') sds /\ Forall (hole_arrived off x') holes.
Proof.
  rewrite Forall_forall. intros H. split; apply Forall_forall.
  - intros sd Hsd. specialize (H _ (plan_segments off lazy sds holes sd Hsd)). destruct sd as [[[iov bflags] q] d]. cbn [seg_item item_stored] in H.
    rewrite seg_present in H. unfold seg_arrived. destruct (transferred lazy bflags) eqn:Et; [exact H|]. unfold seg_flags in H. by rewrite Et in H.
  - intros h Hh. specialize (H _ (plan_holes off lazy sds holes h Hh)). exact H.
Qed.

Lemma plan_backed off lazy sds : forall holes, Forall (seg_ok off lazy) sds -> Forall (hole_backed ls off) holes -> Forall (item_backed ls) (plan off lazy sds holes).
Proof.
  assert (Hh : forall holes, Forall (hole_backed ls off) holes -> Forall (item_backed ls) (hole_item off <$> holes)).
  { intros holes H. apply Forall_fmap. eapply Forall_impl; [exact H|]. intros h Hb _. exact Hb. }
  induction sds as [|sd sds IH]; intros holes Hok Hb; cbn [plan]; [by apply Hh|]. apply Forall_cons_1 in Hok as [_ Hok].
  pose proof (split_holes_app (iov_base (seg_iov sd)) holes) as Hs. destruct (split_holes _ holes) as [a b]. cbn [fst snd] in Hs. rewrite <- Hs in Hb.
  apply Forall_app in Hb as [Hb1 Hb2]. apply Forall_app. split; [by apply Hh|]. apply Forall_cons_2; [|by apply IH].
  destruct sd as [[[iov bflags] q] d]. intros E. cbn in E. unfold seg_flags in E. by destruct (transferred lazy bflags), (Z.land bflags PPB_LAZY =? 0).
Qed.

(** C35. A dump over the page server arrives.  Let the segments and holes of the
    page pipe be whole pages in ascending order and apart from each other, and
    the pipes hold the bytes of the segments that are transferred.  The client
    (open, [page_xfer_dump_pages] over the socket, disconnect) and the server,
    fed with exactly the bytes the client sent, both always return, compressed
    or not and whatever their system calls answer.  If the client succeeded
    and the server reports success, the server has written one pair of images,
    for the id the client named: a well-formed pagemap with one entry per
    segment and hole, in which every page of a transferred segment is stored
    with exactly the bytes it had in the client's pipe, every lazy segment is
    noted as lazy and every hole as inherited; and it has sent the replies the
    client was waiting for.  If no system call fails on either side, the
    images can be created and the parent has the pages of the holes, both
    sides do succeed. *)
Theorem page_server_dump_correct ce se x pipes pp sds s pipe_size :
  sx_sk x = [] -> pp_segments pp = fst <$> sds -> Forall (fun sd => Forall byte_ok (snd sd)) sds ->
  dump_ready (sx_offset x) (sx_lazy x) 0 sds (pp_holes pp) ->
  (forall p, pipe_data (sx_lazy x) p sds `prefix_of` pipe_get pipes p) -> segs_size sds <= OFF_MAX ->
  cx_dst_id (sv_cxfer s) = NO_DST -> sv_done s = [] -> sv_out s = [] -> 0 < pipe_size ->
  exists ok W, client_session ce x session_replies pipes pp = Ret (ok, W) /\ (xenv_ok ce -> ok = true) /\
    (ok = true -> exists ret s' se', page_server_serve auto false ps_socket dir pad pipe_size se (set_in W s) = Ret (ret, s', se') /\
       (ret = 0 -> exists dst x', encode_pm type id = Ret dst /\ sv_done s' = [(dst, x')] /\ sv_out s' = session_replies /\
          pagemaps_ok (xf_pmi x') /\ length (xf_pmi x') = (length sds + length (pp_holes pp))%nat /\
          Forall (seg_arrived (sx_offset x) (sx_lazy x) x') sds /\ Forall (hole_arrived (sx_offset x) x') (pp_holes pp)) /\
       (xenv_ok se -> dir_writable -> Forall (hole_backed ls (sx_offset x)) (pp_holes pp) -> ret = 0)).
Proof.
  intros Hsk Hsegs Hby Hrdy Hpre Hmax Hn Hdn Hout Hps. destruct (encode_pm_inv type id Htype Hid) as (dst & Hd & Hdec & Hr).
  unfold client_session. destruct (client_open ce x dst Hd) as (ok & x1 & rp & e1 & -> & A1 & A2). cbn [obind].
  destruct ok; cbn [negb]; [|eexists _, _; split; [done|]; split; [intros He; by destruct (A2 He)|done]].
  destruct (A1 eq_refl) as (-> & K1 & K2 & K3 & K4). rewrite Hsk in K1. cbn [app] in K1. rewrite <- K3, <- K4 in *.
  pose proof (dr_segs _ _ _ _ _ Hrdy) as Hsd. pose proof (dr_holes _ _ _ _ _ Hrdy) as Hho.
  assert (Hlen : Forall (fun sd => iov_len (seg_iov sd) + PAGE_SIZE < 2 ^ 64) sds).
  { apply Forall_forall. intros sd Hin. apply list_elem_of_lookup_1 in Hin as [i Hi].
    assert (Hnn : Forall (fun v => 0 <= v) ((fun sd => iov_len (seg_iov sd) + PAGE_SIZE) <$> sds)).
    { apply Forall_fmap. eapply Forall_impl; [exact Hsd|]. intros [[[iov b] q] d] ([_ [L _] _] & _). cbn in *. unfold PAGE_SIZE. lia. }
    pose proof (zsum_take_le _ (S i) Hnn) as Hle. rewrite (zsum_take_S _ i (iov_len (seg_iov sd) + PAGE_SIZE)) in Hle by (by rewrite list_lookup_fmap, Hi).
    pose proof (zsum_take_le _ i Hnn). unfold segs_size, OFF_MAX in Hmax. lia. }
  destruct (client_dump lz4c lz4 Hlz acc compress pad Hlzb e1 x1 pipes pp sds Hsegs Hby Hsd Hho Hpre Hlen) as (ok & x2 & pipes' & e2 & -> & B1 & B2). cbn [obind].
  destruct ok; cbn [negb]; [|eexists _, _; split; [done|]; split; [intros He; by destruct (B2 (proj2 (A2 He)))|done]].
  destruct (B1 eq_refl) as (bs & Hsent & Hwire). rewrite K2 in Hwire.
  destruct (client_close e2 (sx_sk x2)) as (ret & out & rp & e3 & -> & C1 & C2). cbn [obind].
  eexists _, _. split; [done|]. split; [intros He; apply Z.eqb_eq; by apply C2, B2, A2|]. intros Hz%Z.eqb_eq. rewrite (C1 Hz), (st_bytes _ _ _ Hsent), K1, <- app_assoc.
  destruct (plan_ok (sx_offset x1) (sx_lazy x1) sds 0 (pp_holes pp) Hby Hrdy) as [P1 P2].
  pose proof (plan_size (sx_offset x1) (sx_lazy x1) sds (pp_holes pp) Hsd) as P3.
  destruct (server_session se (set_in (psi_bytes pad (PsIov PS_IOV_OPEN2 0 0 dst) ++ concat bs ++ psi_bytes pad close_frame) s) dst
    (plan (sx_offset x1) (sx_lazy x1) sds (pp_holes pp)) bs pipe_size Hdec Hr Hwire P1 P2 ltac:(lia) eq_refl Hn Hdn Hout Hps) as (r & s' & e' & -> & D1 & D2).
  exists r, s', e'. split; [done|]. split.
  - intros Hrz. destruct (D1 Hrz) as (x' & E1 & E2 & E3 & E4 & E5). exists dst, x'. rewrite plan_length in E4. destruct (plan_arrived _ _ _ _ _ E5). by split_and!.
  - intros He Hdw Hbk. apply D2; try done. by apply plan_backed.
Qed.
End Session.

(** ** Example: the page pipe of the local example, over the wire *)
Definition sample_parent_dir : img_dir :=
  ImgDir (fun _ _ => true) (fun _ _ => true) (Some true) (fun _ _ => Some [DedupReader sample_base []]) (fun _ _ => 0).
Definition sample_client : srv_xfer := SrvXfer 0 false false [] 0 false.
Definition calm : xenv := XEnv [] [] [] [] [] [] [].

Lemma sample_bytes : Forall (fun sd => Forall byte_ok (snd sd)) sample_segments.
Proof.
  unfold sample_segments, sample_low, sample_high. repeat (apply Forall_cons_2; [cbn [snd]; try apply Forall_nil_2; by apply Forall_replicate|]).
  apply Forall_nil_2.
Qed.

Lemma sample_compressor_bytes src cap a out : Forall byte_ok src -> sample_compressor src cap a = Some out -> Forall byte_ok out.
Proof.
  intros Hb. unfold sample_compressor. destruct src as [|x src]; [done|]. destruct (forallb _ _); [|done]. intros [= <-].
  apply Forall_cons_1 in Hb as [Hx _]. by apply Forall_cons_2; [|apply Forall_nil_2].
Qed.

Lemma page_server_dump_correct_witness :
  exists W s' se' dst x', client_session sample_compressor 0 true no_pad false CR_FD_PAGEMAP 5 calm sample_client
      (session_replies sample_parent_dir CR_FD_PAGEMAP 5) [sample_low ++ sample_high; []] sample_source = Ret (true, W) /\
    page_server_serve true false false sample_parent_dir no_pad 65536 calm (set_in W (idle_server [])) = Ret (0, s', se') /\
    sv_done s' = [(dst, x')] /\ Forall (seg_arrived sample_codec 0 false x') sample_segments.
Proof.
  destruct (page_server_dump_correct sample_compressor sample_codec sample_codec_contract sample_compressor_bytes 0 true no_pad eq_refl
    (bytes_check no_pad eq_refl) true false false sample_parent_dir CR_FD_PAGEMAP 5 [sample_base_es] ltac:(by left) ltac:(done)
    (xo_parent _ _ _ sample_xfer_ok) calm calm sample_client [sample_low ++ sample_high; []] sample_source sample_segments (idle_server []) 65536
    eq_refl (proj1 sample_source_segments) sample_bytes sample_dump_ready sample_prefix ltac:(vm_compute; discriminate) eq_refl eq_refl eq_refl ltac:(done))
    as (ok & W & Hc & H1 & H2).
  rewrite (H1 eq_refl) in *. destruct (H2 eq_refl) as (ret & s' & se' & Hs & H3 & H4).
  rewrite (H4 eq_refl ltac:(split_and!; done) sample_hole_backed) in *. destruct (H3 eq_refl) as (dst & x' & _ & E2 & _ & _ & _ & E6 & _).
  exists W, s', se', dst, x'. split; [exact Hc|]. split; [exact Hs|]. split; [exact E2|exact E6].
Defined.
