(* ===== verification/RemotePages.v ===== *)
(** Reading pages from a remote dump, one request at a time or queued:
    [request_remote_pages], [page_server_read] and its two callers
    (criu/page-xfer.c), against the server's [page_server_get_pages] (file
    PageServer).

    The state of a read is [ps_async_read]: the header bytes and the page bytes
    received so far, with the counters of the code and the image id of the page
    read it is for ([priv]).  recv() takes its answers from [x_reads]; the page
    read's [io_complete] is an argument. *)
From stdpp Require Import gmap.
From S2P Require Import Prelude PagemapImage PageRead Dedup AsyncQueue ReadPages ChainRead ParentWalk PagePipe Compress PageXfer PageServer PageSession.

Record ps_async_read := PsAsyncRead {
  ar_rb : Z;
  ar_goal : Z;
  ar_nr_pages : Z;
  ar_pi : list Z;
  ar_pages : list Z;
  ar_priv : Z
}.

Definition async_read_set_goal (ar : ps_async_read) (nr_pages : Z) : ps_async_read :=
  PsAsyncRead (ar_rb ar) (u64 (SIZEOF_PSI + nr_pages * PAGE_SIZE)) nr_pages (ar_pi ar) (ar_pages ar) (ar_priv ar).

Definition init_ps_async_read (nr_pages priv : Z) : ps_async_read :=
  async_read_set_goal (PsAsyncRead 0 0 0 [] [] priv) nr_pages.

(** What [page_server_read] answers: 1, -1, or the callback's result for these
    arguments. *)
Inductive read_result : Type :=
| RdMore
| RdErr
| RdDone (dst_id vaddr nr_pages : Z).

(** [dontwait]: the flag is MSG_DONTWAIT, otherwise MSG_WAITALL. *)
Definition page_server_read (dontwait : bool) (e : xenv) (ar : ps_async_read) (sk : list Z)
    : outcome (read_result * ps_async_read * list Z * xenv) :=
  let header := ar_rb ar <? SIZEOF_PSI in
  let pi := psi_of_bytes (ar_pi ar) in
  let ar := if negb header && (pi_nr_pages pi <? ar_nr_pages ar) then async_read_set_goal ar (pi_nr_pages pi) else ar in
  let need := s32 (if header then SIZEOF_PSI - ar_rb ar else u64 (ar_goal ar - ar_rb ar)) in
  let '(ret, l) := io_answer (x_reads e) (u64 need) in
  let e := xe_reads l e in
  let ret := if (ret <? 0) && dontwait && ((ret =? - EAGAIN) || (ret =? - EINTR)) then 0 else ret in
  if ret <? 0 then Ret (RdErr, ar, sk, e)
  else
    let got := take (Z.to_nat ret) sk in
    let sk := drop (Z.to_nat ret) sk in
    let ar := PsAsyncRead (u64 (ar_rb ar + zlen got)) (ar_goal ar) (ar_nr_pages ar)
                (if header then ar_pi ar ++ got else ar_pi ar) (if header then ar_pages ar else ar_pages ar ++ got) (ar_priv ar) in
    if ar_rb ar <? ar_goal ar then Ret (RdMore, ar, sk, e)
    else if ar_rb ar >? ar_goal ar then Bug
    else
      let pi := psi_of_bytes (ar_pi ar) in
      Ret (RdDone (u64 (s32 (pi_dst_id pi))) (pi_vaddr pi) (u64 (s32 (pi_nr_pages pi))), ar, sk, e).

Definition request_remote_pages (pad : list Z) (e : xenv) (out : list Z) (img_id addr nr_pages : Z) : outcome (bool * list Z * xenv) :=
  send_psi pad e out (PsIov PS_IOV_GET nr_pages addr img_id).

Section Reads.
Context (io_complete : option (Z -> Z -> Z -> Z)).

(** [priv] is the page read, of which the code looks at [img_id]. *)
Definition read_page_complete (img_id vaddr nr_pages priv : Z) : Z :=
  if negb (priv =? img_id) then -1
  else match io_complete with Some f => f priv vaddr nr_pages | None => 0 end.

Definition read_ret (res : read_result) (ar : ps_async_read) : Z :=
  match res with RdMore => 1 | RdErr => -1 | RdDone d v n => read_page_complete d v n (ar_priv ar) end.

Fixpoint sync_loop (fuel : nat) (e : xenv) (ar : ps_async_read) (sk : list Z) : outcome (Z * ps_async_read * list Z * xenv) :=
  match fuel with
  | O => NoFuel
  | S fuel =>
      let! (res, ar, sk, e) := page_server_read false e ar sk in
      let ret := read_ret res ar in
      if ret =? 1 then sync_loop fuel e ar sk else Ret (ret, ar, sk, e)
  end.

Definition page_server_start_sync_read (fuel : nat) (e : xenv) (sk : list Z) (nr priv : Z) : outcome (Z * ps_async_read * list Z * xenv) :=
  sync_loop fuel e (init_ps_async_read nr priv) sk.

(** The queue of reads in flight, oldest first. *)
Definition page_server_start_async_read (e : xenv) (q : list ps_async_read) (nr_pages priv : Z) : Z * list ps_async_read * xenv :=
  let '(ok, e) := xe_alloc e in
  if negb ok then (-1, q, e) else (0, q ++ [init_ps_async_read nr_pages priv], e).

(** One event on the socket; the read taken off the queue, if one was finished. *)
Definition page_server_async_read (e : xenv) (q : list ps_async_read) (sk : list Z)
    : outcome (Z * option ps_async_read * list ps_async_read * list Z * xenv) :=
  match q with
  | [] => Bug
  | ar :: q =>
      let! (res, ar, sk, e) := page_server_read true e ar sk in
      let ret := read_ret res ar in
      if ret >? 0 then Ret (0, None, ar :: q, sk, e)
      else if ret =? 0 then Ret (0, Some ar, q, sk, e)
      else Ret (ret, None, ar :: q, sk, e)
  end.

(** [async] is PR_ASYNC; a synchronous read also answers what it has read. *)
Definition page_server_start_read (fuel : nat) (e : xenv) (q : list ps_async_read) (sk : list Z) (nr priv : Z) (async : bool)
    : outcome (Z * option ps_async_read * list ps_async_read * list Z * xenv) :=
  if async then let '(ret, q, e) := page_server_start_async_read e q nr priv in Ret (ret, None, q, sk, e)
  else let! (ret, ar, sk, e) := page_server_start_sync_read fuel e sk nr priv in Ret (ret, Some ar, q, sk, e).

Definition maybe_read_page_remote (pad : list Z) (fuel : nat) (e : xenv) (out : list Z) (q : list ps_async_read) (sk : list Z)
    (img_id vaddr nr : Z) (async : bool) : outcome (Z * option ps_async_read * list Z * list ps_async_read * list Z * xenv) :=
  let! (ok, out, e) := request_remote_pages pad e out img_id vaddr nr in
  if negb ok then Ret (-1, None, out, q, sk, e)
  else let! (ret, ar, q, sk, e) := page_server_start_read fuel e q sk nr img_id async in Ret (ret, ar, out, q, sk, e).
End Reads.

#[global] Instance xenv_eq_dec : EqDecision xenv.
Proof. solve_decision. Defined.

(** ** One reply *)

(** A reply: its header and the pages behind it. *)
Record reply := Reply { rp_pad : list Z; rp_pi : page_server_iov; rp_data : list Z }.
Definition reply_bytes (r : reply) : list Z := psi_bytes (rp_pad r) (rp_pi r) ++ rp_data r.

(** An answer to a request for [nr] pages: 1 to [nr] of them. *)
Record reply_to (nr : Z) (r : reply) : Prop := ReplyTo {
  rt_pad : length (rp_pad r) = 4%nat;
  rt_ranges : 0 <= pi_cmd (rp_pi r) < 2 ^ 32 /\ 0 <= pi_vaddr (rp_pi r) < 2 ^ 64 /\ 0 <= pi_dst_id (rp_pi r) < 2 ^ 64;
  rt_nr : 0 < pi_nr_pages (rp_pi r) <= nr;
  rt_data : zlen (rp_data r) = pi_nr_pages (rp_pi r) * PAGE_SIZE;
  rt_int : SIZEOF_PSI + nr * PAGE_SIZE < 2 ^ 31
}.

Section OneReply.
Context (nr : Z) (r : reply) (Hr : reply_to nr r) (rest : list Z) (priv : Z).
Abbreviation n := (pi_nr_pages (rp_pi r)).
Abbreviation total := (SIZEOF_PSI + n * PAGE_SIZE).

(** [k] bytes of the reply have arrived. *)
Record read_inv (k : Z) (ar : ps_async_read) (sk : list Z) : Prop := ReadInv {
  vi_k : 0 <= k < total;
  vi_rb : ar_rb ar = k;
  vi_pi : ar_pi ar = take (Z.to_nat k) (psi_bytes (rp_pad r) (rp_pi r));
  vi_pages : ar_pages ar = take (Z.to_nat (k - SIZEOF_PSI)) (rp_data r);
  vi_goal : k <= SIZEOF_PSI /\ ar_goal ar = SIZEOF_PSI + nr * PAGE_SIZE /\ ar_nr_pages ar = nr \/
            SIZEOF_PSI <= k /\ ar_goal ar = total /\ ar_nr_pages ar = n;
  vi_sk : sk = drop (Z.to_nat k) (reply_bytes r) ++ rest;
  vi_priv : ar_priv ar = priv
}.

Lemma header_bytes : zlen (psi_bytes (rp_pad r) (rp_pi r)) = SIZEOF_PSI /\ psi_of_bytes (psi_bytes (rp_pad r) (rp_pi r)) = rp_pi r.
Proof.
  destruct Hr as [P1 (R1 & R2 & R3) N D I]. unfold PAGE_SIZE, SIZEOF_PSI in *.
  destruct (psi_bytes_inv (rp_pad r) (rp_pi r)); try done. lia.
Qed.

Lemma read_inv_init : read_inv 0 (init_ps_async_read nr priv) (reply_bytes r ++ rest).
Proof.
  destruct Hr as [P1 R N D I]. unfold PAGE_SIZE, SIZEOF_PSI in *. split; try done; [unfold SIZEOF_PSI, PAGE_SIZE; lia|].
  left. unfold init_ps_async_read, async_read_set_goal. cbn [ar_goal ar_nr_pages]. rewrite u64_small by (unfold SIZEOF_PSI, PAGE_SIZE; lia).
  unfold SIZEOF_PSI. split; [lia|done].
Qed.

Lemma reply_length : length (reply_bytes r) = Z.to_nat total.
Proof.
  destruct header_bytes as [Hl _]. pose proof (rt_data _ _ Hr) as D. unfold reply_bytes. rewrite length_app. unfold zlen in *.
  pose proof (rt_nr _ _ Hr). unfold PAGE_SIZE, SIZEOF_PSI in *. lia.
Qed.

Lemma read_inv_length k ar sk : read_inv k ar sk -> length sk = (Z.to_nat (total - k) + length rest)%nat.
Proof. intros [V1 _ _ _ _ V6 _]. rewrite V6, length_app, length_drop, reply_length. lia. Qed.

Lemma s32_need a : 0 <= a < 2 ^ 31 -> u64 (s32 a) = a.
Proof. intros Ha. rewrite s32_small, u64_small by lia. done. Qed.

Lemma take_drop_app {A} (l : list A) (a b : nat) : take a l ++ take b (drop a l) = take (a + b) l.
Proof. by rewrite take_take_drop. Qed.

(** The read that got the whole reply. *)
Record finished (ar : ps_async_read) : Prop := Finished {
  fi_pages : ar_pages ar = rp_data r;
  fi_header : psi_of_bytes (ar_pi ar) = rp_pi r;
  fi_priv : ar_priv ar = priv
}.

(** What a call may leave. *)
Definition read_post (e : xenv) (k : Z) (res : read_result) (ar : ps_async_read) (sk : list Z) (e' : xenv) : Prop :=
  match res with
  | RdErr => ~ xenv_ok e
  | RdMore => exists k', read_inv k' ar sk /\ k <= k' /\
      (length (x_reads e') + Z.to_nat (total - k') < length (x_reads e) + Z.to_nat (total - k))%nat
  | RdDone d v m => d = u64 (s32 (pi_dst_id (rp_pi r))) /\ v = pi_vaddr (rp_pi r) /\ m = n /\ finished ar /\ sk = rest
  end.

Lemma read_header dontwait e ar sk k : read_inv k ar sk -> k < SIZEOF_PSI ->
  exists res ar' sk' e', page_server_read dontwait e ar sk = Ret (res, ar', sk', e') /\ read_post e k res ar' sk' e' /\
    (length (x_reads e') <= length (x_reads e))%nat /\ (xenv_ok e -> xenv_ok e').
Proof.
  intros [V1 V2 V3 V4 V5 V6 V7] Hk. destruct header_bytes as [Hl _]. destruct Hr as [_ _ N D I]. unfold page_server_read. rewrite V2.
  destruct (Z.ltb_spec k SIZEOF_PSI); [|lia]. cbn [negb andb]. rewrite s32_need by (unfold SIZEOF_PSI in *; lia).
  destruct V5 as [(_ & G1 & G2)|(G0 & _)]; [|lia]. rewrite V2.
  destruct (io_answer (x_reads e) (SIZEOF_PSI - k)) as [a l] eqn:Ea. destruct (io_answer_range _ _ _ _ Ea) as (A1 & A2 & A3 & A4).
  set (ret := if (a <? 0) && dontwait && _ then 0 else a).
  assert (Hret : ret <= SIZEOF_PSI - k /\ (ret < 0 -> a < 0) /\ (ret <= 0 -> a <= 0)).
  { unfold ret. destruct (Z.ltb_spec a 0); cbn [andb]; [|lia]. destruct (dontwait && _); lia. }
  destruct Hret as (R1 & R2 & R3).
  assert (Hprog : a <= 0 -> (length l < length (x_reads e))%nat) by (intros Ha; apply A3; intros E; destruct (A2 E); lia).
  assert (Henv : xenv_ok e -> xenv_ok (xe_reads l e)) by (intros ->; destruct (A2 eq_refl) as [_ ->]; done).
  destruct (Z.ltb_spec ret 0) as [Hn|Hp].
  { eexists _, _, _, _. split; [done|]. split; [|done]. intros ->. destruct (A2 eq_refl). lia. }
  assert (Hgot : take (Z.to_nat ret) sk = take (Z.to_nat ret) (drop (Z.to_nat k) (psi_bytes (rp_pad r) (rp_pi r))) /\
    drop (Z.to_nat ret) sk = drop (Z.to_nat (k + ret)) (reply_bytes r) ++ rest /\ zlen (take (Z.to_nat ret) sk) = ret).
  { rewrite V6. unfold reply_bytes. rewrite (drop_app_le (psi_bytes _ _)) by (unfold zlen in Hl; lia). rewrite <- app_assoc.
    rewrite take_app_le by (rewrite length_drop; unfold zlen in Hl; lia). split; [done|]. split.
    - rewrite (drop_app_le (drop _ _)) by (rewrite length_drop; unfold zlen in Hl; lia). rewrite drop_drop. rewrite (drop_app_le (psi_bytes _ _)) by (unfold zlen in Hl; lia).
      rewrite <- app_assoc. do 2 f_equal. lia.
    - unfold zlen in *. rewrite length_take, length_drop. lia. }
  destruct Hgot as (E1 & E2 & E3). rewrite E1, E2. rewrite E1 in E3. rewrite E3. cbn [ar_rb ar_goal].
  rewrite u64_small by (unfold SIZEOF_PSI in *; lia). rewrite G1. destruct (Z.ltb_spec (k + ret) (SIZEOF_PSI + nr * PAGE_SIZE)); [|unfold PAGE_SIZE in *; lia].
  eexists _, _, _, _. split; [done|]. split; [|done]. exists (k + ret). split; [|split; [lia|]].
  - split; cbn [ar_rb ar_pi ar_pages ar_goal ar_nr_pages ar_priv]; try done.
    + unfold PAGE_SIZE in *. lia.
    + rewrite V3, take_drop_app. f_equal. lia.
    + rewrite V4. replace (Z.to_nat (k - SIZEOF_PSI)) with 0%nat by lia. by replace (Z.to_nat (k + ret - SIZEOF_PSI)) with 0%nat by lia.
    + left. split; [lia|done].
  - cbn [x_reads xe_reads]. unfold PAGE_SIZE in *. destruct (Z.eq_dec ret 0) as [Hz|Hz]; [specialize (Hprog ltac:(lia))|]; lia.
Qed.

Lemma read_pages_step dontwait e ar sk k : read_inv k ar sk -> SIZEOF_PSI <= k ->
  exists res ar' sk' e', page_server_read dontwait e ar sk = Ret (res, ar', sk', e') /\ read_post e k res ar' sk' e' /\
    (length (x_reads e') <= length (x_reads e))%nat /\ (xenv_ok e -> xenv_ok e').
Proof.
  intros [V1 V2 V3 V4 V5 V6 V7] Hk. destruct header_bytes as [Hl Hpi]. destruct Hr as [_ _ N D I]. unfold page_server_read. rewrite V2.
  destruct (Z.ltb_spec k SIZEOF_PSI); [lia|]. cbn [negb andb].
  assert (Hh : ar_pi ar = psi_bytes (rp_pad r) (rp_pi r)) by (rewrite V3; apply take_ge; unfold zlen in Hl; lia). rewrite Hh, Hpi.
  set (ar1 := if n <? ar_nr_pages ar then async_read_set_goal ar n else ar).
  assert (Har : ar_rb ar1 = k /\ ar_goal ar1 = total /\ ar_nr_pages ar1 = n /\ ar_pi ar1 = psi_bytes (rp_pad r) (rp_pi r) /\ ar_pages ar1 = ar_pages ar /\ ar_priv ar1 = priv).
  { unfold ar1. destruct V5 as [(_ & G1 & G2)|(_ & G1 & G2)]; rewrite G2.
    - destruct (Z.ltb_spec n nr); cbn [async_read_set_goal ar_rb ar_goal ar_nr_pages ar_pi ar_pages ar_priv].
      + rewrite u64_small by (unfold PAGE_SIZE, SIZEOF_PSI in *; lia). by split_and!.
      + assert (n = nr) as -> by lia. by split_and!.
    - rewrite Z.ltb_irrefl. by split_and!. }
  destruct Har as (B1 & B2 & B3 & B4 & B5 & B6). rewrite B1, B2. rewrite (u64_small (total - k)) by (unfold PAGE_SIZE, SIZEOF_PSI in *; lia).
  rewrite s32_need by (unfold PAGE_SIZE, SIZEOF_PSI in *; lia).
  destruct (io_answer (x_reads e) (total - k)) as [a l] eqn:Ea. destruct (io_answer_range _ _ _ _ Ea) as (A1 & A2 & A3 & A4).
  set (ret := if (a <? 0) && dontwait && _ then 0 else a).
  assert (Hret : ret <= total - k /\ (ret < 0 -> a < 0) /\ (ret <= 0 -> a <= 0)).
  { unfold ret. destruct (Z.ltb_spec a 0); cbn [andb]; [|lia]. destruct (dontwait && _); lia. }
  destruct Hret as (R1 & R2 & R3).
  assert (Hprog : a <= 0 -> (length l < length (x_reads e))%nat) by (intros Ha; apply A3; intros E; destruct (A2 E); lia).
  assert (Henv : xenv_ok e -> xenv_ok (xe_reads l e)) by (intros ->; destruct (A2 eq_refl) as [_ ->]; done).
  destruct (Z.ltb_spec ret 0) as [Hn|Hp].
  { eexists _, _, _, _. split; [done|]. split; [|done]. intros ->. destruct (A2 eq_refl). lia. }
  assert (Hdr : drop (Z.to_nat k) (reply_bytes r) = drop (Z.to_nat (k - SIZEOF_PSI)) (rp_data r)).
  { unfold reply_bytes. rewrite drop_app_ge by (unfold zlen in Hl; lia). f_equal. unfold zlen, SIZEOF_PSI in *. lia. }
  assert (Hgot : take (Z.to_nat ret) sk = take (Z.to_nat ret) (drop (Z.to_nat (k - SIZEOF_PSI)) (rp_data r)) /\
    drop (Z.to_nat ret) sk = drop (Z.to_nat (k + ret - SIZEOF_PSI)) (rp_data r) ++ rest /\ zlen (take (Z.to_nat ret) sk) = ret).
  { rewrite V6, Hdr. assert (Hdl : (Z.to_nat ret <= length (drop (Z.to_nat (k - SIZEOF_PSI)) (rp_data r)))%nat) by (rewrite length_drop; unfold zlen in D; lia).
    rewrite take_app_le, drop_app_le, drop_drop by done. split; [done|]. split; [do 2 f_equal; lia|]. unfold zlen. rewrite length_take. lia. }
  destruct Hgot as (E1 & E2 & E3). rewrite E1, E2. rewrite E1 in E3. rewrite E3. cbn [ar_rb ar_goal ar_pi ar_pages]. rewrite B4, B5, V4, take_drop_app.
  rewrite u64_small by (unfold PAGE_SIZE, SIZEOF_PSI in *; lia).
  replace (Z.to_nat (k - SIZEOF_PSI) + Z.to_nat ret)%nat with (Z.to_nat (k + ret - SIZEOF_PSI)) by lia.
  destruct (Z.ltb_spec (k + ret) total) as [Hlt|Hge].
  - eexists _, _, _, _. split; [done|]. split; [|done]. exists (k + ret). split; [|split; [lia|]].
    + split; cbn [ar_rb ar_pi ar_pages ar_goal ar_nr_pages ar_priv]; try done.
      * lia.
      * symmetry. apply take_ge. unfold zlen in Hl. lia.
      * right. split; [lia|done].
      * f_equal. unfold reply_bytes. rewrite drop_app_ge by (unfold zlen in Hl; lia). f_equal. unfold zlen, SIZEOF_PSI in *. lia.
    + cbn [x_reads xe_reads]. destruct (Z.eq_dec ret 0) as [Hz|Hz]; [specialize (Hprog ltac:(lia))|]; lia.
  - rewrite Z.gtb_ltb. destruct (Z.ltb_spec total (k + ret)); [lia|]. rewrite Hpi.
    eexists _, _, _, _. split; [done|]. split; [|done]. split; [done|]. split; [done|].
    split; [rewrite s32_small, u64_small by (unfold PAGE_SIZE, SIZEOF_PSI in *; lia); done|].
    rewrite take_ge by (unfold zlen in D; lia). rewrite drop_ge by (unfold zlen in D; lia). done.
Qed.

Lemma read_step dontwait e ar sk k : read_inv k ar sk ->
  exists res ar' sk' e', page_server_read dontwait e ar sk = Ret (res, ar', sk', e') /\ read_post e k res ar' sk' e' /\
    (length (x_reads e') <= length (x_reads e))%nat /\ (xenv_ok e -> xenv_ok e').
Proof. intros H. destruct (Z.lt_ge_cases k SIZEOF_PSI); [by apply read_header|by apply read_pages_step]. Qed.
End OneReply.

Section Sync.
Context (io : option (Z -> Z -> Z -> Z)) (nr : Z) (r : reply) (Hr : reply_to nr r) (rest : list Z) (priv : Z).
Abbreviation result := (read_page_complete io (u64 (s32 (pi_dst_id (rp_pi r)))) (pi_vaddr (rp_pi r)) (pi_nr_pages (rp_pi r)) priv).
Abbreviation left_of k := (Z.to_nat (SIZEOF_PSI + pi_nr_pages (rp_pi r) * PAGE_SIZE - k)).

(** A blocking read ends: with the pages, or with an error of recv(). *)
Lemma sync_loop_ok fuel : result <> 1 -> forall e ar sk k, read_inv nr r rest priv k ar sk -> (length (x_reads e) + left_of k < fuel)%nat ->
  exists ret ar' sk' e', sync_loop io fuel e ar sk = Ret (ret, ar', sk', e') /\
    (ret = -1 /\ ~ xenv_ok e \/ ret = result /\ finished r priv ar' /\ sk' = rest).
Proof.
  intros Hres. induction fuel as [|fuel IH]; intros e ar sk k Hinv Hf; [lia|]. cbn [sync_loop].
  destruct (read_step nr r Hr rest priv false e ar sk k Hinv) as (res & ar1 & sk1 & e1 & -> & Hpost & _ & Henv). cbn [obind].
  destruct res as [| |d v m]; cbn [read_post read_ret] in *.
  - destruct Hpost as (k' & Hinv' & Hk & Hlt). rewrite Z.eqb_refl.
    destruct (IH e1 ar1 sk1 k' Hinv' ltac:(lia)) as (ret & ar2 & sk2 & e2 & -> & Hor). exists ret, ar2, sk2, e2. split; [done|].
    destruct Hor as [[-> Hn]|Hor]; [left|by right]. split; [done|]. intros He. by apply Hn, Henv.
  - exists (-1), ar1, sk1, e1. split; [done|]. by left.
  - destruct Hpost as (-> & -> & -> & Hp & ->). rewrite (fi_priv _ _ _ Hp). destruct (Z.eqb_spec result 1); [done|]. exists result, ar1, rest, e1.
    split; [done|]. by right.
Qed.
End Sync.

(** ** The queue *)

(** Socket events until the queue is empty or a callback fails; the reads
    finished, in order. *)
Fixpoint read_events (io : option (Z -> Z -> Z -> Z)) (fuel : nat) (e : xenv) (q : list ps_async_read) (sk : list Z) (fin : list ps_async_read)
    : outcome (Z * list ps_async_read * list ps_async_read * list Z * xenv) :=
  match q, fuel with
  | [], _ => Ret (0, fin, q, sk, e)
  | _, O => NoFuel
  | _, S fuel =>
      let! (ret, o, q, sk, e) := page_server_async_read io e q sk in
      if negb (ret =? 0) then Ret (ret, fin, q, sk, e) else read_events io fuel e q sk (fin ++ option_list o)
  end.

Section Queue.
Context (io : option (Z -> Z -> Z -> Z)).

(** A read to start and the reply it will get. *)
Definition job : Type := (Z * Z) * reply.
Definition job_ok (j : job) : Prop :=
  let '((nr, priv), r) := j in
  reply_to nr r /\ read_page_complete io (u64 (s32 (pi_dst_id (rp_pi r)))) (pi_vaddr (rp_pi r)) (pi_nr_pages (rp_pi r)) priv = 0.
Definition job_done (j : job) (ar : ps_async_read) : Prop := finished (snd j) (snd (fst j)) ar.
Definition job_read (j : job) : ps_async_read := init_ps_async_read (fst (fst j)) (snd (fst j)).
Definition job_bytes (js : list job) : list Z := concat (reply_bytes ∘ snd <$> js).

(** The read at the head of the queue may be under way. *)
Definition queue_at (js : list job) (q : list ps_async_read) (sk : list Z) : Prop :=
  match js with
  | [] => q = [] /\ sk = []
  | ((nr, priv), r) :: js => exists ar k, q = ar :: (job_read <$> js) /\ read_inv nr r (job_bytes js) priv k ar sk
  end.

Lemma queue_at_start js : Forall job_ok js -> queue_at js (job_read <$> js) (job_bytes js).
Proof.
  destruct js as [|[[nr priv] r] js]; intros Hj; [done|]. apply Forall_cons_1 in Hj as [[Hr _] _].
  eexists _, 0. split; [by rewrite fmap_cons|]. by apply read_inv_init.
Qed.

Lemma read_events_ok fuel : forall js e q sk fin, Forall job_ok js -> queue_at js q sk -> (length (x_reads e) + length sk < fuel)%nat ->
  exists ret fin' q' sk' e', read_events io fuel e q sk fin = Ret (ret, fin', q', sk', e') /\
    (ret = -1 /\ ~ xenv_ok e \/ ret = 0 /\ q' = [] /\ sk' = [] /\ exists l, fin' = fin ++ l /\ Forall2 job_done js l).
Proof.
  induction fuel as [|fuel IH]; intros js e q sk fin Hj Hq Hf; [lia|]. destruct js as [|[[nr priv] r] js].
  { destruct Hq as [-> ->]. exists 0, fin, [], [], e. split; [done|]. right. split_and!; try done. exists []. by rewrite app_nil_r. }
  destruct Hq as (ar & k & -> & Hinv). pose proof Hj as Hj0. apply Forall_cons_1 in Hj as [[Hr Hc] Hj]. cbn [read_events page_server_async_read].
  pose proof (read_inv_length nr r Hr _ _ _ _ _ Hinv) as Hk. pose proof (vi_k _ _ _ _ _ _ _ Hinv) as Hk0.
  destruct (read_step nr r Hr (job_bytes js) priv true e ar sk k Hinv) as (res & ar1 & sk1 & e1 & -> & Hpost & Hlen & Henv). cbn [obind].
  destruct res as [| |d v m]; cbn [read_post read_ret] in *.
  - destruct Hpost as (k' & Hinv' & Hkk & Hlt). change (1 >? 0) with true. cbn [obind]. rewrite Z.eqb_refl. cbn [negb option_list]. rewrite app_nil_r.
    pose proof (read_inv_length nr r Hr _ _ _ _ _ Hinv') as Hk'.
    destruct (IH (((nr, priv), r) :: js) e1 (ar1 :: (job_read <$> js)) sk1 fin Hj0) as (ret & fin' & q' & sk' & e' & -> & Hor); [by exists ar1, k'|lia|].
    exists ret, fin', q', sk', e'. split; [done|]. destruct Hor as [[-> Hn]|Hor]; [left|by right]. split; [done|]. intros He. by apply Hn, Henv.
  - change (-1 >? 0) with false. change (-1 =? 0) with false. cbn [obind negb]. eexists _, _, _, _, _. split; [done|]. by left.
  - destruct Hpost as (-> & -> & -> & Hp & ->). rewrite (fi_priv _ _ _ Hp), Hc. change (0 >? 0) with false. rewrite Z.eqb_refl. cbn [obind negb]. rewrite Z.eqb_refl. cbn [negb].
    change (option_list (Some ar1)) with [ar1].
    destruct (IH js e1 (job_read <$> js) (job_bytes js) (fin ++ [ar1]) Hj (queue_at_start js Hj)) as (ret & fin' & q' & sk' & e' & -> & Hor); [lia|].
    exists ret, fin', q', sk', e'. split; [done|]. destruct Hor as [[-> Hn]|(-> & -> & -> & l & -> & Hl)].
    + left. split; [done|]. intros He. by apply Hn, Henv.
    + right. split_and!; try done. exists (ar1 :: l). split; [by rewrite <- app_assoc|]. by constructor.
Qed.
End Queue.

(** ** The lazy server *)

(** A request for [rq_nr] pages of process [rq_dst] from [rq_addr] on. *)
Record request := Request { rq_dst : Z; rq_addr : Z; rq_nr : Z }.

Section LazyServer.
(** [P dst p]: the addresses of the pages of process [dst] that pipe [p] holds;
    [mem dst a]: the bytes of its page at [a]. *)
Context (P : Z -> Z -> list Z) (mem : Z -> Z -> list Z) (Hmem : forall d a, zlen (mem d a) = PAGE_SIZE).
Context (auto : bool) (dir : img_dir) (pad : list Z) (Hpad : length pad = 4%nat).

Definition pages_at (dst addr n : Z) : list Z := concat (mem dst <$> iov_pages (Iovec addr (n * PAGE_SIZE))).

(** The page pipes kept for lazy restore and what is in their pipes. *)
Definition lazy_source (s : page_server) : Prop :=
  forall dst pp, sv_pps s !! dst = Some pp ->
    NoDup (bufs pp) /\ Forall (buf_ok pp) (bufs pp) /\ pipe_holds (P dst) pp /\
    forall p, concat (mem dst <$> P dst p) `prefix_of` pipe_get (sv_pipes s) p.

(** A request that can be answered: the first page is in a buffer, and lazy. *)
Record request_ok (s : page_server) (q : request) : Prop := RequestOk {
  qo_dst : 0 <= rq_dst q < 2 ^ 64;
  qo_addr : 0 <= rq_addr q < 2 ^ 64 /\ rq_addr q mod PAGE_SIZE = 0;
  qo_nr : 0 < rq_nr q /\ SIZEOF_PSI + rq_nr q * PAGE_SIZE < 2 ^ 31;
  qo_page : exists pp, sv_pps s !! rq_dst q = Some pp /\ (exists id, id ∈ bufs pp /\ rq_addr q ∈ buf_addrs pp id) /\
    forall id, id ∈ bufs pp -> rq_addr q ∈ buf_addrs pp id -> Z.land (ppb_flags (buf pp id)) PPB_LAZY <> 0
}.

Definition get_frame (q : request) : page_server_iov := PsIov PS_IOV_GET (rq_nr q) (rq_addr q) (rq_dst q).

(** The reply to [q]: some of the pages asked for, the first ones. *)
Record answer (q : request) (r : reply) : Prop := Answer {
  an_reply : reply_to (rq_nr q) r;
  an_dst : pi_dst_id (rp_pi r) = rq_dst q;
  an_addr : pi_vaddr (rp_pi r) = rq_addr q;
  an_data : rp_data r = pages_at (rq_dst q) (rq_addr q) (pi_nr_pages (rp_pi r))
}.

Lemma length_mem d a : length (mem d a) = Z.to_nat PAGE_SIZE.
Proof. pose proof (Hmem d a). unfold zlen in *. lia. Qed.

Lemma drop_pages d : forall n l, drop (n * Z.to_nat PAGE_SIZE) (concat (mem d <$> l)) = concat (mem d <$> drop n l).
Proof.
  induction n as [|n IH]; intros l; [done|]. destruct l as [|a l]; [by rewrite !drop_nil|].
  rewrite fmap_cons. cbn [concat drop]. rewrite drop_app_ge by (rewrite length_mem; lia). rewrite <- IH. f_equal. rewrite length_mem. lia.
Qed.

Lemma take_pages d : forall n l, take (n * Z.to_nat PAGE_SIZE) (concat (mem d <$> l)) = concat (mem d <$> take n l).
Proof.
  induction n as [|n IH]; intros l; [done|]. destruct l as [|a l]; [by rewrite !take_nil|].
  rewrite fmap_cons. cbn [concat take]. rewrite fmap_cons. cbn [concat].
  replace (S n * Z.to_nat PAGE_SIZE)%nat with (length (mem d a) + n * Z.to_nat PAGE_SIZE)%nat by (rewrite length_mem; lia).
  by rewrite take_app_add, IH.
Qed.

Lemma zlen_pages d l : zlen (concat (mem d <$> l)) = zlen l * PAGE_SIZE.
Proof.
  induction l as [|a l IH]; [done|]. rewrite fmap_cons. cbn [concat]. rewrite zlen_app, Hmem, IH. unfold zlen, PAGE_SIZE. cbn [length]. lia.
Qed.

(** The bytes of [n] pages, [k] pages into a pipe. *)
Lemma pipe_window d l data k n : concat (mem d <$> l) `prefix_of` data -> 0 <= k -> 0 <= n -> k + n <= zlen l ->
  drop (Z.to_nat (k * PAGE_SIZE)) (take (Z.to_nat (k * PAGE_SIZE + n * PAGE_SIZE)) data) = concat (mem d <$> take (Z.to_nat n) (drop (Z.to_nat k) l)).
Proof.
  intros [t ->] Hk Hn Hkn. pose proof (zlen_pages d l) as Hz. unfold zlen in Hz, Hkn.
  rewrite take_app_le by (unfold PAGE_SIZE in *; lia).
  replace (Z.to_nat (k * PAGE_SIZE + n * PAGE_SIZE)) with ((Z.to_nat k + Z.to_nat n) * Z.to_nat PAGE_SIZE)%nat by (unfold PAGE_SIZE; lia).
  replace (Z.to_nat (k * PAGE_SIZE)) with (Z.to_nat k * Z.to_nat PAGE_SIZE)%nat by (unfold PAGE_SIZE; lia).
  rewrite take_pages, drop_pages. by rewrite skipn_firstn_comm, Nat.add_comm, Nat.add_sub.
Qed.

Lemma page_pipe_read_frame tee splice pp addr n flags ret m data pp' : page_pipe_read tee splice pp addr n flags = (ret, m, data, pp') ->
  forall id, buf pp' id = buf pp id /\ buf_addrs pp' id = buf_addrs pp id.
Proof.
  unfold page_pipe_read, get_ppb. destruct (find_ppb pp (bufs pp) addr) as [[[i iov] skip]|]; [|by intros [= <- <- <- <-]].
  destruct (_ =? 0); [by intros [= <- <- <- <-]|]. destruct (negb _); [by intros [= <- <- <- <-]|].
  destruct (negb _); by intros [= <- <- <- <-].
Qed.

(** Only the order of the buffers of a page pipe changes. *)
Definition same_pages (s s' : page_server) : Prop :=
  sv_pipes s' = sv_pipes s /\
  forall dst pp, sv_pps s !! dst = Some pp -> exists pp', sv_pps s' !! dst = Some pp' /\ bufs pp' ≡ₚ bufs pp /\
    forall id, buf pp' id = buf pp id /\ buf_addrs pp' id = buf_addrs pp id.

Lemma request_ok_same s s' q : same_pages s s' -> request_ok s q -> request_ok s' q.
Proof.
  intros [_ Hs] [Q1 Q2 Q3 (pp & Q4 & (id & Q5 & Q6) & Q7)]. split; try done.
  destruct (Hs _ _ Q4) as (pp' & E1 & E2 & E3). exists pp'. split; [done|]. split.
  - exists id. rewrite E2. split; [done|]. by rewrite (proj2 (E3 id)).
  - intros j Hj. rewrite E2 in Hj. rewrite (proj1 (E3 j)), (proj2 (E3 j)). by apply Q7.
Qed.

Lemma request_ok_in s l q : request_ok s q -> request_ok (set_in l s) q.
Proof. intros [Q1 Q2 Q3 Q4]. by split. Qed.

Lemma same_pages_trans s1 s2 s3 : same_pages s1 s2 -> same_pages s2 s3 -> same_pages s1 s3.
Proof.
  intros [A1 A2] [B1 B2]. split; [congruence|]. intros dst pp Hp. destruct (A2 _ _ Hp) as (pp2 & C1 & C2 & C3).
  destruct (B2 _ _ C1) as (pp3 & D1 & D2 & D3). exists pp3. split; [done|]. split; [by rewrite D2|].
  intros id. destruct (C3 id) as [<- <-]. apply D3.
Qed.

(** The table after a read. *)
Lemma lazy_source_read s dst pp pp' : lazy_source s -> sv_pps s !! dst = Some pp ->
  bufs pp' ≡ₚ bufs pp -> Forall (buf_ok pp') (bufs pp') -> pipe_holds (P dst) pp' ->
  (forall id, buf pp' id = buf pp id /\ buf_addrs pp' id = buf_addrs pp id) ->
  lazy_source (set_pps (<[dst := pp']> (sv_pps s)) s) /\ same_pages s (set_pps (<[dst := pp']> (sv_pps s)) s).
Proof.
  intros Hl Hp Hb Hok HP Hf. destruct (Hl _ _ Hp) as (N1 & _ & _ & N4). split.
  - intros d q. cbn [sv_pps set_pps sv_pipes]. intros [[<- <-]|[Hd Hq]]%lookup_insert_Some; [|by apply Hl].
    split; [by rewrite Hb|]. by split_and!.
  - split; [done|]. intros d q Hq. cbn [sv_pps set_pps]. destruct (decide (d = dst)) as [->|Hd].
    + exists pp'. rewrite lookup_insert, decide_True by done. rewrite Hp in Hq. injection Hq as <-. by split_and!.
    + exists q. by rewrite lookup_insert_ne.
Qed.

(** What a GET does to the server. *)
Definition get_post (e : xenv) (s : page_server) (q : request) (ret : Z) (s' : page_server) (e' : xenv) : Prop :=
  sv_in s' = sv_in s /\ lazy_source s' /\ same_pages s s' /\
  (ret = 0 -> exists r, answer q r /\ sv_out s' = sv_out s ++ reply_bytes r) /\ (xenv_ok e -> ret = 0 /\ xenv_ok e').

Lemma get_pages_ok e s q : lazy_source s -> request_ok s q ->
  exists ret s' e', page_server_get_pages pad e s (get_frame q) = Ret (ret, s', e') /\ get_post e s q ret s' e'.
Proof.
  intros Hl [Q1 [Q2 Q2'] [Q3 Q3'] (pp & Q4 & (id0 & Q5 & Q6) & Q7)]. unfold page_server_get_pages, get_frame. cbn [pi_dst_id pi_vaddr pi_nr_pages].
  rewrite Q4. destruct (Hl _ _ Q4) as (N1 & N2 & N3 & N4).
  destruct (io_answer (x_splices e) SIZE_MAX) as [t l1] eqn:E1. destruct (io_answer l1 SIZE_MAX) as [p l2] eqn:E2.
  destruct (io_answer_range _ _ _ _ E1) as (_ & B1 & _). destruct (io_answer_range _ _ _ _ E2) as (_ & B2 & _).
  pose proof (page_pipe_read_spec (Z.min t) (Z.min p) (P (rq_dst q)) pp (rq_addr q) (rq_nr q) PPB_LAZY N1 N2 N3 Q2' ltac:(unfold SIZEOF_PSI, PAGE_SIZE in *; lia)) as Hsp.
  destruct (page_pipe_read (Z.min t) (Z.min p) pp (rq_addr q) (rq_nr q) PPB_LAZY) as [[[ret n] data] pp'] eqn:Er.
  destruct Hsp as (S1 & S2 & S3 & S4 & S5). pose proof (page_pipe_read_frame _ _ _ _ _ _ _ _ _ _ Er) as Hfr.
  destruct (lazy_source_read s (rq_dst q) pp pp' Hl Q4 S2 S3 S4 Hfr) as [L1 L2]. set (s1 := set_pps _ s) in *.
  assert (Hret : xenv_ok e -> ret = 0 /\ l2 = []).
  { intros ->. destruct (B1 eq_refl) as [-> ->]. destruct (B2 eq_refl) as [-> ->]. split; [|done]. apply S1; intros k Hk; unfold SIZE_MAX; lia. }
  destruct (Z.eqb_spec ret 0) as [->|Hne]; cbn [negb].
  2:{ eexists _, _, _. split; [done|]. split; [done|]. split; [done|]. split; [done|]. split; [done|]. intros He. by destruct (Hret He). }
  specialize (S5 eq_refl). destruct data as [[[pipe len] skip]|].
  2:{ exfalso. destruct S5 as [[_ Hno]|(_ & id & I1 & I2 & I3)]; [by apply (Hno id0)|by apply (Q7 id)]. }
  destruct S5 as (Hn & -> & k & -> & Hk & Hkn & Htk).
  destruct (Z.eqb_spec n 0); [lia|]. set (e1 := xe_splices l2 e).
  set (pi := PsIov (encode_ps_cmd PS_IOV_ADD_F PE_PRESENT) n (rq_addr q) (rq_dst q)). set (data := pages_at (rq_dst q) (rq_addr q) n).
  assert (Hdl : zlen data = n * PAGE_SIZE).
  { unfold data, pages_at. rewrite zlen_pages. unfold zlen. rewrite length_iov_pages by (cbn [iov_len]; unfold PAGE_SIZE; lia). cbn [iov_len].
    rewrite Z.div_mul by done. lia. }
  assert (Hans : answer q (Reply pad pi data)).
  { by split. }
  assert (He1 : xenv_ok e -> xenv_ok e1) by (intros He; destruct (Hret He) as [_ ->]; unfold e1; rewrite He; done).
  destruct (send_full_ok e1 (sv_out s1) (psi_bytes pad pi)) as (ok & out & e2 & Es & C1 & C2). unfold send_psi. rewrite Es. cbn [obind].
  destruct ok; cbn [negb].
  2:{ eexists _, _, _. split; [done|]. split; [done|]. split; [done|]. split; [done|]. split; [done|]. intros He. by destruct (C2 (He1 He)). }
  rewrite (C1 eq_refl). cbn [sv_pipes set_out]. rewrite (u64_small (n * PAGE_SIZE)) by (unfold SIZEOF_PSI, PAGE_SIZE in *; lia).
  change (sv_pipes s1) with (sv_pipes s). rewrite (pipe_window (rq_dst q) (P (rq_dst q) pipe)) by (done || lia || apply N4). rewrite Htk. fold (pages_at (rq_dst q) (rq_addr q) n) data.
  destruct (io_answer (x_splices e2) (n * PAGE_SIZE)) as [a l] eqn:Ea. destruct (io_answer_range _ _ _ _ Ea) as (D1 & D2 & _).
  eexists _, _, _. split; [reflexivity|]. split; [done|]. split; [done|]. split; [done|]. split.
  - intros Hz. exists (Reply pad pi data). split; [done|]. cbn [sv_out set_out]. unfold reply_bytes. cbn [rp_pad rp_pi rp_data]. rewrite app_assoc. f_equal.
    destruct (Z.ltb_spec a 0); [unfold PAGE_SIZE in *; destruct (Z.eqb_spec a (n * 4096)); [lia|done]|].
    destruct (Z.eqb_spec (zlen (take (Z.to_nat a) data)) (n * PAGE_SIZE)) as [Ez|]; [|done].
    apply take_ge. unfold zlen in *. rewrite length_take in Ez. lia.
  - intros He. destruct (C2 (He1 He)) as [_ He2]. rewrite He2 in D2. destruct (D2 eq_refl) as [-> ->]. split; [|by rewrite He2].
    destruct (Z.ltb_spec (n * PAGE_SIZE) 0); [unfold PAGE_SIZE in *; lia|]. rewrite take_ge by (unfold zlen in Hdl; lia). by rewrite Hdl, Z.eqb_refl.
Qed.

(** The requests as they travel. *)
Definition gets (qs : list request) : list Z := concat (psi_bytes pad ∘ get_frame <$> qs).

(** The requests answered before the stream ends are the first ones. *)
Definition answered (qs : list request) (out : list Z) (rs : list reply) : Prop :=
  Forall2 answer (take (length rs) qs) rs /\ out = concat (reply_bytes <$> rs).

Lemma get_cmd e s q : serve_cmd auto dir pad e s (get_frame q) = let! (ret, s, e) := page_server_get_pages pad e s (get_frame q) in Ret (ret, false, s, e).
Proof. done. Qed.

Lemma serve_gets qs : forall fuel e s, lazy_source s -> Forall (request_ok s) qs -> sv_in s = gets qs -> (length qs < fuel)%nat ->
  exists ret s' e', serve_loop auto dir pad fuel e s false = Ret (ret, false, s', e') /\
    (ret = 0 -> exists rs out, sv_out s' = sv_out s ++ out /\ answered qs out rs) /\
    (xenv_ok e -> exists rs out, sv_out s' = sv_out s ++ out /\ answered qs out rs /\ length rs = length qs /\ ret = 0 /\ sv_in s' = [] /\ xenv_ok e').
Proof.
  induction qs as [|q qs IH]; intros fuel e s Hl Hq Hin Hf; (destruct fuel as [|fuel]; [simpl in Hf; lia|]).
  - change (gets []) with (@nil Z) in Hin. destruct (recv_full_or_eof_ok e (sv_in s) SIZEOF_PSI) as (ret & buf & sk & e1 & Hrv & A1 & A2 & _ & A4); [done|].
    rewrite (serve_loop_step _ _ _ _ _ _ _ _ _ _ _ Hrv). clear Hrv. rewrite Hin in A1, A2, A4. destruct A2 as [x A2]. symmetry in A2. apply app_eq_nil in A2 as [_ ->].
    destruct (Z.leb_spec ret 0) as [Hle|Hpos].
    2:{ destruct (A1 Hpos) as [A3 A5]. rewrite app_nil_r in A3. subst buf. done. }
    exists ret, (set_in [] s), e1. split; [done|]. split; [intros _|intros He; destruct (A4 He eq_refl) as [-> He1]]; exists [], []; rewrite app_nil_r; by split_and!.
  - apply Forall_cons_1 in Hq as [Hq0 Hq]. change (gets (q :: qs)) with (psi_bytes pad (get_frame q) ++ gets qs) in Hin. pose proof Hq0 as [Q1 [Q2 _] [Q3 Q3'] _].
    destruct (frame_received pad Hpad e (get_frame q) (gets qs)) as (r0 & buf & sk & e2 & Hrv & A1 & A2);
      [done|unfold SIZEOF_PSI, PAGE_SIZE in *; cbn [get_frame pi_nr_pages]; lia|exact Q2|exact Q1|].
    rewrite <- Hin in Hrv. rewrite (serve_loop_step _ _ _ _ _ _ _ _ _ _ _ Hrv). clear Hrv. destruct (Z.leb_spec r0 0) as [Hle|Hpos].
    { exists r0, (set_in sk s), e2. split; [done|]. split; [|intros He; destruct (A2 He); lia]. intros _. exists [], []. by rewrite app_nil_r. }
    destruct (A1 Hpos) as [-> ->]. rewrite get_cmd.
    destruct (get_pages_ok e2 (set_in (gets qs) s) q) as (ret & s1 & e3 & -> & G1 & G2 & G3 & G4 & G5); [done|by apply request_ok_in|]. cbn [obind].
    destruct (Z.eqb_spec ret 0) as [->|Hne]; cbn [negb].
    2:{ exists ret, s1, e3. split; [done|]. split; [done|]. intros He. destruct (A2 He) as [_ He2]. by destruct (G5 He2). }
    change (pi_cmd (get_frame q) =? PS_IOV_CLOSE) with false. change (pi_cmd (get_frame q) =? PS_IOV_FORCE_CLOSE) with false. cbn [orb].
    destruct (G4 eq_refl) as (r & Hr & Ho). change (sv_out (set_in (gets qs) s)) with (sv_out s) in Ho.
    assert (Hq1 : Forall (request_ok s1) qs).
    { eapply Forall_impl; [exact Hq|]. intros q' Hq'. apply (request_ok_same (set_in (gets qs) s)); [done|]. by apply request_ok_in. }
    destruct (IH fuel e3 s1 G2 Hq1 G1 ltac:(simpl in Hf; lia)) as (ret & s2 & e4 & -> & I1 & I2). exists ret, s2, e4. split; [done|]. split.
    + intros Hz. destruct (I1 Hz) as (rs & out & J1 & J2 & ->). exists (r :: rs), (reply_bytes r ++ concat (reply_bytes <$> rs)).
      split; [by rewrite J1, Ho, app_assoc|]. split; [|done]. cbn [length take]. by constructor.
    + intros He. destruct (A2 He) as [_ He2]. destruct (G5 He2) as [_ He3]. destruct (I2 He3) as (rs & out & J1 & [J2 ->] & J3 & J4 & J5 & J6).
      exists (r :: rs), (reply_bytes r ++ concat (reply_bytes <$> rs)). split; [by rewrite J1, Ho, app_assoc|]. split; [split; [cbn [length take]; by constructor|done]|].
      split_and!; try done. cbn [length]. congruence.
Qed.

Lemma gets_length qs : (length qs <= length (gets qs))%nat.
Proof.
  induction qs as [|q qs IH]; [done|]. change (gets (q :: qs)) with (psi_bytes pad (get_frame q) ++ gets qs). rewrite length_app. cbn [length].
  assert (0 < length (psi_bytes pad (get_frame q)))%nat by (unfold psi_bytes; rewrite !length_app, !length_le_bytes; lia). lia.
Qed.

(** The whole of a lazy server's run. *)
Lemma lazy_serve ps_socket pipe_size e s qs : lazy_source s -> Forall (request_ok s) qs -> sv_out s = [] ->
  exists ret s' e', page_server_serve auto true ps_socket dir pad pipe_size e (set_in (gets qs) s) = Ret (ret, s', e') /\
    (ret = 0 -> exists rs, answered qs (sv_out s') rs) /\
    (xenv_ok e -> ret = 0 /\ exists rs, answered qs (sv_out s') rs /\ length rs = length qs).
Proof.
  intros Hl Hq Ho. unfold page_server_serve. cbn [negb andb]. destruct (xe_fcntl e) as [ok e1] eqn:Ef. destruct ok; cbn [negb].
  2:{ eexists _, _, _. split; [done|]. split; [done|]. intros ->. done. }
  destruct (serve_gets qs (S (length (sv_in (set_in (gets qs) s)))) e1 (set_in (gets qs) s)) as (ret & s1 & e2 & -> & A1 & A2); [done| |done| |].
  { eapply Forall_impl; [exact Hq|]. intros q. apply request_ok_in. }
  { cbn [sv_in set_in]. pose proof (gets_length qs). lia. }
  cbn [obind]. change (sv_out (set_in (gets qs) s)) with (sv_out s) in *. rewrite Ho in *. cbn [app] in *.
  assert (Hc : sv_out (page_server_close s1) = sv_out s1) by (unfold page_server_close; by destruct (negb _)).
  destruct ((ret =? 0) && negb ps_socket) eqn:Eb.
  2:{ exists ret, (page_server_close s1), e2. split; [done|]. rewrite Hc. split.
      - intros Hz. destruct (A1 Hz) as (rs & out & -> & B2). by exists rs.
      - intros ->. injection Ef as <-. destruct (A2 eq_refl) as (rs & out & -> & B2 & B3 & B4 & _). split; [done|]. by exists rs. }
  apply andb_true_iff in Eb as [->%Z.eqb_eq _]. destruct (io_answer (x_reads e2) 1) as [a l] eqn:Ea. eexists _, _, _. split; [done|]. rewrite Hc. split.
  - intros _. destruct (A1 eq_refl) as (rs & out & -> & B2). by exists rs.
  - intros ->. injection Ef as <-. destruct (A2 eq_refl) as (rs & out & -> & B2 & B3 & _ & B5 & B6). rewrite B6 in Ea. injection Ea as <- <-.
    rewrite B5, take_nil. split; [done|]. by exists rs.
Qed.

Lemma write_fd_loop_reads fuel : forall e file b ok file' e', write_fd_loop fuel e file b = Ret (ok, file', e') -> x_reads e' = x_reads e.
Proof.
  induction fuel as [|fuel IH]; intros e file b ok file' e'; cbn [write_fd_loop]; destruct b as [|c b]; try congruence.
  destruct (io_answer (x_writes e) (zlen (c :: b))) as [ret l].
  destruct (ret <? 0); [destruct (ret =? _); [intros H; by apply IH in H|by intros [= <- <- <-]]|].
  destruct (ret =? 0); [by intros [= <- <- <-]|]. intros H. by apply IH in H.
Qed.

Lemma request_sent e out q : exists ok out' e', request_remote_pages pad e out (rq_dst q) (rq_addr q) (rq_nr q) = Ret (ok, out', e') /\
  (ok = true -> out' = out ++ psi_bytes pad (get_frame q)) /\ (xenv_ok e -> ok = true /\ xenv_ok e') /\ x_reads e' = x_reads e.
Proof.
  destruct (send_full_ok e out (psi_bytes pad (get_frame q))) as (ok & out' & e' & E & A & B). exists ok, out', e'. split; [exact E|].
  split; [done|]. split; [done|]. by apply write_fd_loop_reads in E.
Qed.

(** The callback is given the numbers of the request back. *)
Lemma callback f q r : answer q r -> 0 <= rq_dst q < 2 ^ 31 ->
  read_page_complete (Some f) (u64 (s32 (pi_dst_id (rp_pi r)))) (pi_vaddr (rp_pi r)) (pi_nr_pages (rp_pi r)) (rq_dst q) =
    f (rq_dst q) (rq_addr q) (pi_nr_pages (rp_pi r)).
Proof. intros [A1 -> -> A4] Hd. rewrite s32_small, u64_small by lia. unfold read_page_complete. by rewrite Z.eqb_refl. Qed.

(** What the reader of [q] has in its buffer. *)
Definition got_pages (q : request) (n : Z) (ar : ps_async_read) : Prop :=
  0 < n <= rq_nr q /\ pi_nr_pages (psi_of_bytes (ar_pi ar)) = n /\ pi_vaddr (psi_of_bytes (ar_pi ar)) = rq_addr q /\
  ar_priv ar = rq_dst q /\ ar_pages ar = pages_at (rq_dst q) (rq_addr q) n.

Lemma finished_pages q r ar : answer q r -> finished r (rq_dst q) ar -> got_pages q (pi_nr_pages (rp_pi r)) ar.
Proof. intros [A1 A2 A3 A4] [F1 F2 F3]. unfold got_pages. rewrite F1, F2. split_and!; try done; apply A1. Qed.

(** C36. A page read over the network, blocking.  The server keeps the page
    pipes of a lazy dump; the client asks for [rq_nr] pages of a process from
    an address that is in a lazy buffer.  Whatever the system calls answer,
    neither side hangs or crashes; if the server sends a reply, then the
    client either reports an error of its own calls or reads 1 to [rq_nr]
    pages, which are the consecutive pages from that address in the memory of
    the dumped process, calls [io_complete] with the address and their number
    and leaves nothing of the reply in the socket.  Without errors this is what
    happens. *)
Theorem remote_read_correct ps_socket pipe_size f se s q :
  lazy_source s -> request_ok s q -> rq_dst q < 2 ^ 31 -> sv_out s = [] -> (forall n, f (rq_dst q) (rq_addr q) n <> 1) ->
  exists sret s' se', page_server_serve auto true ps_socket dir pad pipe_size se (set_in (psi_bytes pad (get_frame q)) s) = Ret (sret, s', se') /\
    (xenv_ok se -> sret = 0 /\ sv_out s' <> []) /\
    (sret = 0 -> sv_out s' <> [] -> exists n, forall fuel ce queue, (length (x_reads ce) + length (sv_out s') < fuel)%nat ->
       exists ret o out sk ce', maybe_read_page_remote (Some f) pad fuel ce [] queue (sv_out s') (rq_dst q) (rq_addr q) (rq_nr q) false = Ret (ret, o, out, queue, sk, ce') /\
         (xenv_ok ce -> ret = f (rq_dst q) (rq_addr q) n /\ o <> None) /\
         (ret <> -1 -> ret = f (rq_dst q) (rq_addr q) n /\ out = psi_bytes pad (get_frame q) /\ sk = [] /\ exists ar, o = Some ar /\ got_pages q n ar)).
Proof.
  intros Hl Hq Hd Ho Hf. destruct (lazy_serve ps_socket pipe_size se s [q] Hl (Forall_cons_2 _ _ _ Hq (Forall_nil_2 _)) Ho) as (sret & s' & se' & Hs & A1 & A2).
  unfold gets in Hs. cbn [fmap list_fmap concat compose] in Hs. rewrite app_nil_r in Hs. exists sret, s', se'. split; [exact Hs|]. clear Hs. split.
  - intros He. destruct (A2 He) as (-> & rs & [B1 ->] & B2). split; [done|]. destruct rs as [|r [|]]; [done| |done]. apply Forall2_cons in B1 as [B1 _].
    intros E. apply (f_equal length) in E. cbn [fmap list_fmap concat] in E. rewrite length_app, (reply_length (rq_nr q) r (an_reply _ _ B1)) in E. cbn [length] in E.
    pose proof (rt_nr _ _ (an_reply _ _ B1)). unfold SIZEOF_PSI, PAGE_SIZE in E. lia.
  - intros Hz Hne. destruct (A1 Hz) as (rs & B1 & B2). rewrite B2 in *. destruct rs as [|r rs]; [done|]. cbn [length take] in B1. apply Forall2_cons in B1 as [B1 B3].
    rewrite take_nil in B3. apply Forall2_nil_inv_l in B3 as ->. cbn [fmap list_fmap concat] in *. exists (pi_nr_pages (rp_pi r)).
    intros fuel ce queue Hfu. unfold maybe_read_page_remote. destruct (request_sent ce [] q) as (ok & out & e1 & -> & C1 & C2 & C3). cbn [obind].
    destruct ok; cbn [negb]; [|eexists _, _, _, _, _; split; [done|]; split; [intros He; by destruct (C2 He)|done]].
    unfold page_server_start_read, page_server_start_sync_read. pose proof (an_reply _ _ B1) as Hr. pose proof (callback f q r B1 ltac:(split; [apply Hq|done])) as Hcb.
    destruct (sync_loop_ok (Some f) (rq_nr q) r Hr [] (rq_dst q) fuel ltac:(by rewrite Hcb) e1 _ _ 0 (read_inv_init (rq_nr q) r Hr [] (rq_dst q))) as (ret & ar & sk & e2 & Es & Hor).
    { rewrite C3. rewrite length_app, (reply_length (rq_nr q) r Hr) in Hfu. cbn [length] in Hfu. rewrite Z.sub_0_r. lia. }
    rewrite Es. cbn [obind]. eexists _, _, _, _, _. split; [done|]. rewrite Hcb in Hor. split.
    + intros He. split; [|done]. destruct Hor as [[_ Hn]|[-> _]]; [|done]. destruct Hn. apply C2, He.
    + intros Hn. destruct Hor as [[-> _]|(-> & Hfin & ->)]; [done|]. split; [done|]. split; [by apply C1|]. split; [done|]. exists ar. split; [done|]. by apply finished_pages.
Qed.

(** A reader that asks for many pages ahead of the replies. *)
Fixpoint issue_reads (io : option (Z -> Z -> Z -> Z)) (e : xenv) (out : list Z) (queue : list ps_async_read) (qs : list request)
    : outcome (Z * list Z * list ps_async_read * xenv) :=
  match qs with
  | [] => Ret (0, out, queue, e)
  | q :: qs =>
      let! (ret, _, out, queue, _, e) := maybe_read_page_remote io pad 0 e out queue [] (rq_dst q) (rq_addr q) (rq_nr q) true in
      if ret <? 0 then Ret (ret, out, queue, e) else issue_reads io e out queue qs
  end.

Definition new_read (q : request) : ps_async_read := init_ps_async_read (rq_nr q) (rq_dst q).

Lemma xe_alloc_calm e : xenv_ok e -> xe_alloc e = (true, e).
Proof. by intros ->. Qed.

Lemma issue_reads_ok io : forall qs e out queue, exists ret out' queue' e', issue_reads io e out queue qs = Ret (ret, out', queue', e') /\
  (ret = 0 -> out' = out ++ gets qs /\ queue' = queue ++ (new_read <$> qs)) /\ (xenv_ok e -> ret = 0).
Proof.
  induction qs as [|q qs IH]; intros e out queue; cbn [issue_reads].
  { exists 0, out, queue, e. split; [done|]. split; [|done]. intros _. by rewrite !app_nil_r. }
  unfold maybe_read_page_remote. destruct (request_sent e out q) as (ok & out1 & e1 & -> & C1 & C2 & _). cbn [obind].
  destruct ok; cbn [negb]; [|change (-1 <? 0) with true; eexists _, _, _, _; split; [done|]; split; [done|intros He; by destruct (C2 He)]].
  unfold page_server_start_read, page_server_start_async_read. destruct (xe_alloc e1) as [ok e2] eqn:Ea.
  destruct ok; cbn [negb obind]; [change (0 <? 0) with false|change (-1 <? 0) with true].
  - destruct (IH e2 out1 (queue ++ [init_ps_async_read (rq_nr q) (rq_dst q)])) as (ret & out' & q' & e' & -> & I1 & I2).
    eexists _, _, _, _. split; [done|]. split.
    + intros Hz. destruct (I1 Hz) as [-> ->]. rewrite (C1 eq_refl). change (gets (q :: qs)) with (psi_bytes pad (get_frame q) ++ gets qs).
      rewrite fmap_cons, <- !app_assoc. done.
    + intros He. apply I2. destruct (C2 He) as [_ He1]. rewrite (xe_alloc_calm _ He1) in Ea. by injection Ea as <-.
  - eexists _, _, _, _. split; [done|]. split; [done|]. intros He. destruct (C2 He) as [_ He1]. by rewrite (xe_alloc_calm _ He1) in Ea.
Qed.

Lemma jobs_ok f qs rs : Forall (fun q => 0 <= rq_dst q < 2 ^ 31) qs -> (forall d a n, f d a n = 0) -> Forall2 answer qs rs ->
  Forall (job_ok (Some f)) (zip ((fun q => (rq_nr q, rq_dst q)) <$> qs) rs) /\
  job_read <$> zip ((fun q => (rq_nr q, rq_dst q)) <$> qs) rs = new_read <$> qs /\
  job_bytes (zip ((fun q => (rq_nr q, rq_dst q)) <$> qs) rs) = concat (reply_bytes <$> rs) /\
  forall l, Forall2 job_done (zip ((fun q => (rq_nr q, rq_dst q)) <$> qs) rs) l -> Forall2 (fun q ar => exists n, got_pages q n ar) qs l.
Proof.
  intros Hd Hf. induction 1 as [|q r qs rs Ha _ IH]; [split_and!; try done; intros l Hl; apply Forall2_nil_inv_l in Hl as ->; constructor|].
  apply Forall_cons_1 in Hd as [Hd Hds]. destruct (IH Hds) as (I1 & I2 & I3 & I4). cbn [fmap list_fmap zip zip_with].
  split; [apply Forall_cons_2; [|done]; split; [apply Ha|by rewrite (callback f q r Ha Hd)]|]. split; [by f_equal|].
  split; [unfold job_bytes in *; rewrite fmap_cons; cbn [concat]; by rewrite I3|].
  intros l Hl. apply Forall2_cons_inv_l in Hl as (ar & l' & H1 & H2 & ->). constructor; [|by apply I4].
  exists (pi_nr_pages (rp_pi r)). by apply finished_pages.
Qed.

(** C37. Queued page reads come back in order.  The client issues requests
    without waiting, one read per request at the end of the queue; the server
    answers the stream.  When it has answered all, the client's socket events,
    with whatever short, interrupted or empty recv()s, finish the reads from
    the head of the queue until it is empty: every reply goes to the read it
    answers, the k-th read gets pages of the k-th request, although a reply may
    be shorter than what was asked for.  The only other end is an error of
    recv(); the events needed are bounded by the answers left and the bytes in
    the socket. *)
Theorem async_reads_in_order ps_socket pipe_size f ce se s qs :
  lazy_source s -> Forall (request_ok s) qs -> Forall (fun q => 0 <= rq_dst q < 2 ^ 31) qs -> sv_out s = [] -> (forall d a n, f d a n = 0) ->
  exists ret W queue ce', issue_reads (Some f) ce [] [] qs = Ret (ret, W, queue, ce') /\ (xenv_ok ce -> ret = 0) /\
    (ret = 0 -> exists sret s' se', page_server_serve auto true ps_socket dir pad pipe_size se (set_in W s) = Ret (sret, s', se') /\
       (xenv_ok se -> sret = 0) /\
       (sret = 0 -> exists rs, answered qs (sv_out s') rs /\ (xenv_ok se -> length rs = length qs) /\
          (length rs = length qs -> forall fuel e, (length (x_reads e) + length (sv_out s') < fuel)%nat ->
             exists r fin queue' sk e', read_events (Some f) fuel e queue (sv_out s') [] = Ret (r, fin, queue', sk, e') /\ (xenv_ok e -> r = 0) /\
               (r <> -1 -> r = 0 /\ queue' = [] /\ sk = [] /\ Forall2 (fun q ar => exists n, got_pages q n ar) qs fin)))).
Proof.
  intros Hl Hq Hd Ho Hf. destruct (issue_reads_ok (Some f) qs ce [] []) as (ret & W & queue & ce' & E & A1 & A2). exists ret, W, queue, ce'.
  split; [exact E|]. split; [done|]. intros Hz. destruct (A1 Hz) as [-> ->]. clear E. cbn [app].
  destruct (lazy_serve ps_socket pipe_size se s qs Hl Hq Ho) as (sret & s' & se' & Es & B1 & B2). exists sret, s', se'. split; [exact Es|]. clear Es.
  split; [intros He; apply B2, He|]. intros Hsz. 
  assert (Hrs : exists rs, answered qs (sv_out s') rs /\ (xenv_ok se -> length rs = length qs)).
  { destruct (decide (se = XEnv [] [] [] [] [] [] [])) as [He|He]; [destruct (B2 He) as (_ & rs & Hrs & Hlen)|destruct (B1 Hsz) as (rs & Hrs)]; by exists rs. }
  destruct Hrs as (rs & [Hans Hout] & Hlen). exists rs. split; [done|]. split; [done|]. intros Hlr fuel e Hfu. rewrite Hlr, take_ge in Hans by done.
  destruct (jobs_ok f qs rs Hd Hf Hans) as (J1 & J2 & J3 & J4). pose proof (queue_at_start (Some f) _ J1) as Hqa. rewrite J2, J3, <- Hout in Hqa.
  destruct (read_events_ok (Some f) fuel _ e _ _ [] J1 Hqa Hfu) as (r & fin & queue' & sk & e' & -> & Hor). exists r, fin, queue', sk, e'. split; [done|]. split.
  - intros He. destruct Hor as [[_ Hn]|[-> _]]; [by destruct Hn|done].
  - intros Hn. destruct Hor as [[-> _]|(-> & -> & -> & l & -> & Hdone)]; [done|]. split_and!; try done. by apply J4.
Qed.
End LazyServer.

(** ** Example: one process with one lazy page *)
Definition sample_mem (dst a : Z) : list Z := replicate (Z.to_nat PAGE_SIZE) (a / PAGE_SIZE mod 256).
Definition sample_pipe_pages (dst p : Z) : list Z := if p =? 0 then [0x1000; 0x2000; 0x6000] else if p =? 1 then [0x5000] else [].
Definition sample_lazy_server : page_server :=
  PageServer (PageXferJob NO_DST [] 0 closed_xfer) [] [] [] {[7 := sample_filled]}
    [concat (sample_mem 7 <$> sample_pipe_pages 7 0); concat (sample_mem 7 <$> sample_pipe_pages 7 1)].
Definition sample_request : request := Request 7 0x5000 3.

Lemma sample_mem_page d a : zlen (sample_mem d a) = PAGE_SIZE.
Proof. unfold sample_mem, zlen. by rewrite length_replicate. Qed.

Lemma sample_lazy_source : lazy_source sample_pipe_pages sample_mem sample_lazy_server.
Proof.
  intros dst pp H. unfold sample_lazy_server in H. cbn [sv_pps] in H. apply lookup_singleton_Some in H as [<- <-]. destruct sample_filled_ok as [Hok _].
  split; [by destruct Hok as [[N _ _ _ _] _]; apply NoDup_app in N as [? _]|]. split; [by destruct Hok as [[]]|]. split.
  - unfold pipe_holds. change (bufs sample_filled) with [0%nat; 1%nat; 2%nat]. repeat (apply Forall_cons_2; [vm_compute; reflexivity|]). apply Forall_nil_2.
  - intros p. unfold sample_pipe_pages at 1. destruct (Z.eqb_spec p 0) as [->|]; [done|]. destruct (Z.eqb_spec p 1) as [->|]; [done|]. apply prefix_nil.
Qed.

Lemma sample_request_ok : request_ok sample_lazy_server sample_request.
Proof.
  split; [done|done|done|]. exists sample_filled. split; [done|]. change (bufs sample_filled) with [0%nat; 1%nat; 2%nat]. split.
  - exists 1%nat. split; [set_solver|]. vm_compute. apply list_elem_of_here.
  - intros id Hid. assert (id = 0%nat \/ id = 1%nat \/ id = 2%nat) as [->|[->| ->]] by set_solver.
    + intros Hin. exfalso. revert Hin. vm_compute. intros Hin. repeat (apply elem_of_cons in Hin as [Hin|Hin]; [discriminate|]). by apply elem_of_nil in Hin.
    + intros _. vm_compute. discriminate.
    + intros Hin. exfalso. revert Hin. vm_compute. intros Hin. repeat (apply elem_of_cons in Hin as [Hin|Hin]; [discriminate|]). by apply elem_of_nil in Hin.
Qed.

Lemma remote_read_correct_witness :
  exists s' se' n ar out sk ce',
    page_server_serve false true false sample_dir no_pad 65536 calm (set_in (psi_bytes no_pad (get_frame sample_request)) sample_lazy_server) = Ret (0, s', se') /\
    maybe_read_page_remote (Some (fun _ _ _ => 0)) no_pad (S (length (sv_out s'))) calm [] [] (sv_out s') 7 0x5000 3 false = Ret (0, Some ar, out, [], sk, ce') /\
    got_pages sample_mem sample_request n ar.
Proof.
  destruct (remote_read_correct sample_pipe_pages sample_mem sample_mem_page false sample_dir no_pad eq_refl false 65536 (fun _ _ _ => 0) calm
    sample_lazy_server sample_request sample_lazy_source sample_request_ok ltac:(done) eq_refl ltac:(done)) as (sret & s' & se' & Hs & H1 & H2).
  destruct (H1 eq_refl) as [-> Hne]. destruct (H2 eq_refl Hne) as (n & H3).
  destruct (H3 (S (length (sv_out s'))) calm [] ltac:(cbn [x_reads calm length]; lia)) as (ret & o & out & sk & ce' & Hr & H4 & H5).
  destruct (H4 eq_refl) as [-> _]. destruct (H5 ltac:(done)) as (_ & _ & _ & ar & -> & Hg).
  exists s', se', n, ar, out, sk, ce'. split; [exact Hs|]. split; [exact Hr|exact Hg].
Defined.

Lemma async_reads_in_order_witness :
  exists W queue ce' s' se' fin,
    issue_reads no_pad (Some (fun _ _ _ => 0)) calm [] [] [sample_request; Request 7 0x5000 1] = Ret (0, W, queue, ce') /\
    page_server_serve false true false sample_dir no_pad 65536 calm (set_in W sample_lazy_server) = Ret (0, s', se') /\
    Forall2 (fun q ar => exists n, got_pages sample_mem q n ar) [sample_request; Request 7 0x5000 1] fin.
Proof.
  assert (Hq : Forall (request_ok sample_lazy_server) [sample_request; Request 7 0x5000 1]).
  { apply Forall_cons_2; [exact sample_request_ok|]. apply Forall_cons_2; [|apply Forall_nil_2]. destruct sample_request_ok as [Q1 Q2 _ Q4]. by split. }
  destruct (async_reads_in_order sample_pipe_pages sample_mem sample_mem_page false sample_dir no_pad eq_refl false 65536 (fun _ _ _ => 0) calm calm
    sample_lazy_server [sample_request; Request 7 0x5000 1] sample_lazy_source Hq ltac:(repeat (apply Forall_cons_2; [done|]); apply Forall_nil_2) eq_refl ltac:(done))
    as (ret & W & queue & ce' & Hi & H1 & H2).
  rewrite (H1 eq_refl) in Hi. destruct (H2 (H1 eq_refl)) as (sret & s' & se' & Hs & H3 & H4). rewrite (H3 eq_refl) in Hs.
  destruct (H4 (H3 eq_refl)) as (rs & _ & H5 & H6).
  destruct (H6 (H5 eq_refl) (S (length (sv_out s'))) calm ltac:(cbn [x_reads calm length]; lia)) as (r & fin & q' & sk & e' & Hr & H7 & H8).
  destruct (H8 ltac:(rewrite (H7 eq_refl); done)) as (_ & _ & _ & Hfin). exists W, queue, ce', s', se', fin. split; [exact Hi|]. split; [exact Hs|exact Hfin].
Defined.

(** A page that is not lazy is never answered: the header is sent and the
    splice() waits on an empty pipe. *)
Example plain_page_blocks : page_server_get_pages no_pad calm sample_lazy_server (PsIov PS_IOV_GET 1 0x1000 7) = NoFuel.
Proof. vm_compute. reflexivity. Qed.

(** recv() answers 0 when the server is gone: a blocking read then calls it
    again for ever. *)
Lemma sync_read_spins io nr priv fuel : 0 < nr -> SIZEOF_PSI + nr * PAGE_SIZE < 2 ^ 31 ->
  page_server_start_sync_read io fuel calm [] nr priv = NoFuel.
Proof.
  intros Hn Hi. unfold page_server_start_sync_read. induction fuel as [|fuel IH]; [done|]. cbn [sync_loop].
  assert (E : page_server_read false calm (init_ps_async_read nr priv) [] = Ret (RdMore, init_ps_async_read nr priv, [], calm)).
  { unfold page_server_read, init_ps_async_read, async_read_set_goal. cbn [ar_rb ar_goal ar_nr_pages ar_pi ar_pages ar_priv negb andb].
    change (0 <? SIZEOF_PSI) with true. cbn [negb andb]. unfold io_answer, calm, xe_reads. cbn [x_reads x_writes x_splices x_allocs x_pbs x_fallocs x_fcntls ar_rb].
    change (u64 (s32 (SIZEOF_PSI - 0))) with 32. rewrite andb_false_r. cbn [andb]. change (32 <? 0) with false. rewrite take_nil, drop_nil.
    rewrite (u64_small (SIZEOF_PSI + nr * PAGE_SIZE)) by (unfold SIZEOF_PSI, PAGE_SIZE in *; lia). cbn [ar_rb ar_goal]. change (u64 (0 + zlen (@nil Z))) with 0.
    destruct (Z.ltb_spec 0 (SIZEOF_PSI + nr * PAGE_SIZE)); [done|unfold SIZEOF_PSI, PAGE_SIZE in *; lia]. }
  rewrite E. cbn [obind read_ret]. by rewrite Z.eqb_refl.
Qed.
