(* ===== verification/PipeDrain.v ===== *)
(** Filling the pipes of a page pipe with the memory of a task: the parasite's
    [dump_pages] (criu/pie/parasite.c), [drain_pages] and [xfer_pages]
    (criu/mem.c), and the page pipe in chunk mode, which is emptied and used
    again ([page_pipe_reinit]).

    The parasite and the dumper share the array of iovecs; the parasite takes
    its part by an offset ([off]) that the dumper moves on by the number of
    iovecs of every buffer.  [mem a] is the contents of the page at [a]; the
    task is frozen.  The remote calls and the descriptors passed succeed or fail
    by the list [d_rpc], vmsplice() answers by the list [d_vmsplice] (beyond
    them, nothing fails). *)
From stdpp Require Import sorting.
From S2P Require Import Prelude PagemapImage PageRead AsyncQueue ChainRead ParentWalk PagePipe Compress PageXfer.

Definition UIO_MAXIOV : Z := 1024.

Record denv := DEnv { d_rpc : list bool; d_vmsplice : list Z }.
Definition d_call (d : denv) : bool * denv := let '(ok, l) := xalloc (d_rpc d) in (ok, DEnv l (d_vmsplice d)).

Section Drain.
Context (mem : Z -> list Z).

Definition mem_bytes (iov : iovec) : list Z := concat (mem <$> iov_pages iov).

(** vmsplice() appends the first bytes of the ranges to the pipe; it refuses more
    than UIO_MAXIOV ranges. *)
Definition vmsplice (d : denv) (l : list iovec) (pipe : list Z) : Z * list Z * denv :=
  if zlen l >? UIO_MAXIOV then (- EINVAL, pipe, d) else
  let bytes := concat (mem_bytes <$> l) in
  let '(ret, vm) := io_answer (d_vmsplice d) (zlen bytes) in
  (ret, pipe ++ take (Z.to_nat ret) bytes, DEnv (d_rpc d) vm).

(** The loop of the parasite: [None] when a call fails, else the bytes spliced.
    [n] is [args->nr_segs]. *)
Fixpoint splice_iovs (fuel : nat) (d : denv) (l : list iovec) (args_off n off nr_segs : Z) (pipe : list Z) (spliced_bytes : Z)
    : outcome (option Z * list Z * denv) :=
  match fuel with
  | O => NoFuel
  | S fuel =>
      let '(ret, pipe, d) := vmsplice d (take (Z.to_nat nr_segs) (drop (Z.to_nat (args_off + off)) l)) pipe in
      if ret <? 0 then Ret (None, pipe, d)
      else
        let spliced_bytes := u64 (spliced_bytes + ret) in
        let off := off + nr_segs in
        if off =? n then Ret (Some spliced_bytes, pipe, d)
        else splice_iovs fuel d l args_off n off (if off + nr_segs >? n then n - off else nr_segs) pipe spliced_bytes
  end.

Definition dump_pages (d : denv) (l : list iovec) (args_off n nr_pages : Z) (pipe : list Z) : outcome (bool * list Z * denv) :=
  let '(ok, d) := d_call d in                                          (* recv_fd *)
  if negb ok then Ret (false, pipe, d)
  else
    let nr_segs := if n >? UIO_MAXIOV then UIO_MAXIOV else n in
    let! (r, pipe, d) := splice_iovs (S (Z.to_nat n)) d l args_off n 0 nr_segs pipe 0 in
    match r with
    | None => Ret (false, pipe, d)
    | Some spliced_bytes => Ret (spliced_bytes =? u64 (nr_pages * PAGE_SIZE), pipe, d)
    end.

(** Data arriving in pipe [p], which may be a new one. *)
Definition pipe_append (pipes : list (list Z)) (p : Z) (bytes : list Z) : list (list Z) :=
  <[Z.to_nat p := bytes]> (pipes ++ replicate (Z.to_nat (p + 1 - zlen pipes)) []).

(** The loop over the buffers; [off] is [args->off]. *)
Fixpoint drain_bufs (d : denv) (pp : page_pipe) (l : list nat) (off : Z) (pipes : list (list Z))
    : outcome (bool * Z * list (list Z) * denv) :=
  match l with
  | [] => Ret (true, off, pipes, d)
  | id :: l =>
      let ppb := buf pp id in
      let '(ok, d) := d_call d in                                      (* compel_rpc_call *)
      if negb ok then Ret (false, off, pipes, d)
      else
        let '(ok, d) := d_call d in                                    (* compel_util_send_fd *)
        if negb ok then Ret (false, off, pipes, d)
        else
          let! (ret, pipe, d) := dump_pages d (iovs pp) off (nr_segs ppb) (pages_in ppb) (pipe_get pipes (ppb_pipe ppb)) in
          let pipes := pipe_append pipes (ppb_pipe ppb) pipe in
          let '(ok, d) := d_call d in                                  (* compel_rpc_sync *)
          if negb (ok && ret) then Ret (false, off, pipes, d)
          else drain_bufs d pp l (off + nr_segs ppb) pipes
  end.

Definition drain_pages (d : denv) (pp : page_pipe) (off : Z) (pipes : list (list Z)) : outcome (bool * Z * list (list Z) * denv) :=
  drain_bufs d pp (bufs pp) off pipes.
End Drain.

(** ** The windows of the buffers *)

(** Windows one behind the other, from [off] to [stop]. *)
Fixpoint consecutive (off : Z) (l : list (Z * Z)) (stop : Z) : Prop :=
  match l with [] => off = stop | (i, n) :: l => i = off /\ consecutive (off + n) l stop end.

Lemma consecutive_app off l1 l2 stop : consecutive off (l1 ++ l2) stop <-> exists m, consecutive off l1 m /\ consecutive m l2 stop.
Proof.
  revert off. induction l1 as [|[i n] l1 IH]; intros off; cbn [app consecutive].
  - split; [eauto|]. by intros (m & -> & H).
  - rewrite IH. split; [intros (E & m & A & B); exists m; auto|intros (m & (E & A) & B); split; [done|]; by exists m].
Qed.

Definition windows (pp : page_pipe) (l : list nat) : list (Z * Z) := (fun id => (ppb_iov (buf pp id), nr_segs (buf pp id))) <$> l.

(** A page pipe in chunk mode whose buffers start at iovec [off]. *)
Record chunk_ok (off : Z) (pp : page_pipe) : Prop := ChunkOk {
  co_mode : chunk_mode pp = true;
  co_windows : consecutive off (windows pp (bufs pp)) (free_iov pp);
  co_count : nr_pipes pp = zlen (bufs pp ++ free_bufs pp) /\ nr_pipes pp <= NR_PIPES_PER_CHUNK;
  co_ids : Forall (fun id => 0 <= ppb_pipe (buf pp id) /\ pipe_off (buf pp id) = 0) (bufs pp ++ free_bufs pp)
}.

Lemma windows_same pp pp' l : (forall id, id ∈ l -> buf pp' id = buf pp id) -> windows pp' l = windows pp l.
Proof. intros H. apply list_fmap_ext. intros k id Hk. rewrite H; [done|]. by eapply list_elem_of_lookup_2. Qed.

Lemma tail_grown_chunk off pp pp' init t addr : pp_ok pp -> bufs pp = init ++ [t] -> tail_grown pp pp' init t addr -> chunk_ok off pp -> chunk_ok off pp'.
Proof.
  intros Hok E [(T1 & T2 & T3 & T4 & T5 & T6 & T7 & T8) Tother Tiovs (F1 & F2 & F3 & F4) (G1 & G2 & G3 & G4) _ _ _] [C1 C2 C3 C4].
  assert (Hne : forall id, id ∈ init -> id <> t).
  { intros id Hin ->. pose proof (po_nodup _ Hok) as Hnd. rewrite E in Hnd. apply NoDup_app in Hnd as [Hnd _].
    apply NoDup_app in Hnd as (_ & Hd & _). by apply (Hd t Hin), list_elem_of_singleton. }
  split.
  - unfold chunk_mode in *. by rewrite T5.
  - rewrite T1, E. rewrite E in C2. unfold windows in *. rewrite !fmap_app in *. apply consecutive_app in C2 as (m & C2 & (Em & C5)).
    apply consecutive_app. exists m. split.
    + fold (windows pp' init). rewrite (windows_same pp pp' init); [done|]. intros id Hin. by apply Tother, Hne.
    + cbn in *. split; [congruence|lia].
  - rewrite T1, T2, T8. done.
  - rewrite T1, T2. eapply Forall_impl; [exact C4|]. intros id Hid. destruct (decide (id = t)) as [->|Hd]; [by rewrite F3, F4|by rewrite Tother].
Qed.

Section Chunk.
Context (lazy_pages : bool) (getpipe : Z) (setpipe : Z -> Z).
Context (Hget : getpipe < 0 \/ PAGE_SIZE <= getpipe < 2 ^ 31) (Hset : forall n, setpipe n < 0 \/ n <= setpipe n < 2 ^ 31).

(** One more, empty, buffer at the tail. *)
Lemma append_chunk off pp pp' id : pp_pre pp -> bufs pp' = bufs pp ++ [id] -> id ∉ bufs pp ++ free_bufs pp' ->
  (forall i, i ∈ bufs pp ++ free_bufs pp' -> buf pp' i = buf pp i) -> (forall i, i ∈ free_bufs pp' -> i ∈ free_bufs pp) ->
  ppb_iov (buf pp' id) = free_iov pp -> nr_segs (buf pp' id) = 0 -> 0 <= ppb_pipe (buf pp' id) /\ pipe_off (buf pp' id) = 0 ->
  free_iov pp' = free_iov pp -> pp_flags pp' = pp_flags pp -> nr_pipes pp' = zlen (bufs pp' ++ free_bufs pp') -> nr_pipes pp' <= NR_PIPES_PER_CHUNK ->
  chunk_mode pp = true -> consecutive off (windows pp (bufs pp)) (free_iov pp) -> Forall (fun id => 0 <= ppb_pipe (buf pp id) /\ pipe_off (buf pp id) = 0) (bufs pp ++ free_bufs pp) ->
  chunk_ok off pp'.
Proof.
  intros Hpre E Hnew Hold Hfree H1 H2 H3 H4 H5 H6 H7 C1 C2 C4. split.
  - unfold chunk_mode in *. by rewrite H5.
  - rewrite E. unfold windows. rewrite fmap_app. fold (windows pp' (bufs pp)). rewrite (windows_same pp pp').
    + apply consecutive_app. exists (free_iov pp). split; [done|]. cbn. rewrite H1, H2, H4. split; [done|lia].
    + intros i Hi. apply Hold. apply elem_of_app. by left.
  - done.
  - rewrite E, <- app_assoc. rewrite Forall_forall in C4. apply Forall_forall. intros i Hi.
    apply elem_of_app in Hi as [Hi|Hi]; [|apply elem_of_app in Hi as [->%list_elem_of_singleton|Hi]; [done|]].
    + rewrite Hold; [|apply elem_of_app; by left]. apply C4, elem_of_app. by left.
    + rewrite Hold; [|apply elem_of_app; by right]. apply C4, elem_of_app. right. by apply Hfree.
Qed.

(** What [page_pipe_grow] does in chunk mode.  The precondition is that of a page
    pipe in use, or of one just emptied ([bufs] is empty). *)
Lemma page_pipe_grow_chunk off al pp flags ret pp' al' : pp_pre pp -> chunk_ok off pp ->
  page_pipe_grow lazy_pages getpipe setpipe al pp flags = Ret (ret, pp', al') ->
  chunk_ok off pp' /\ (ret = - EAGAIN -> nr_pipes pp' = NR_PIPES_PER_CHUNK) /\ (free_bufs pp <> [] -> ret = 0) /\
  (ret = 0 -> (length (free_bufs pp) <= S (length (free_bufs pp')))%nat) /\ free_iov pp' = free_iov pp /\
  (al = [] -> 0 <= getpipe -> (ret = 0 \/ ret = - EAGAIN) /\ al' = []).
Proof.
  intros Hpre Hc. pose proof Hc as [C1 C2 [C3 C5] C4]. pose proof Hpre as [N B Fr _ _]. unfold page_pipe_grow. destruct (free_bufs pp) as [|id free] eqn:Ef.
  - rewrite C1. cbn [andb]. destruct (Z.eqb_spec (nr_pipes pp) NR_PIPES_PER_CHUNK) as [En|En]; [intros [= <- <- <-]; split_and!; try done; auto|].
    unfold ppb_alloc. destruct (xalloc al) as [[] al1] eqn:Ea1; cbn [negb obind]; [|intros [= <- <- _]; split_and!; try done; intros ->; done].
    unfold pp_prev_ppb. rewrite C1. unfold ppb_new_pipe.
    destruct (xalloc al1) as [[] al2] eqn:Ea2; cbn [negb obind]; [|intros [= <- <- _]; split_and!; try done; intros ->; injection Ea1 as <-; done].
    destruct (Z.ltb_spec getpipe 0); cbn [negb obind]; [intros [= <- <- _]; split_and!; try done; lia|]. set (b := PagePipeBuf _ _ _ _ _ _ _). set (pp1 := add_buf _ _ _ _).
    assert (Hlen : length (arena pp1) = S (length (arena pp))) by (unfold pp1, add_buf; simpl; rewrite length_app; simpl; lia).
    rewrite Hlen. cbn [pred]. intros [= <- <- <-]. set (id := length (arena pp)). set (pp2 := upd_buf _ _ _).
    assert (Hin : forall i, i ∈ bufs pp -> (i < id)%nat).
    { intros i Hi. rewrite Forall_forall in B. by destruct (B i Hi). }
    assert (Hb : buf pp2 id = ppb_init 0 0 flags (free_iov pp) b) by (unfold pp2; rewrite buf_upd_eq by (rewrite Hlen; unfold id; lia); unfold pp1, id; by rewrite buf_add_new).
    split; [|split_and!; try done; try (cbn; lia); intros ->; injection Ea1 as <-; injection Ea2 as <-; auto].
    rewrite app_nil_r in C3, C4.
    apply (append_chunk off pp pp2 id Hpre); try done; try (rewrite Hb; done).
    + cbn [free_bufs pp2 upd_buf set_arena pp1 add_buf]. rewrite Ef, app_nil_r. intros Hi. specialize (Hin id Hi). lia.
    + cbn [free_bufs pp2 upd_buf set_arena pp1 add_buf]. rewrite Ef, app_nil_r. intros i Hi. specialize (Hin i Hi).
      unfold pp2. rewrite buf_upd_ne by lia. by apply buf_add_old.
    + rewrite Hb. cbn. rewrite C3. split; [apply zlen_nonneg|done].
    + cbn. rewrite Ef, app_nil_r, zlen_app, C3. done.
    + cbn. lia.
    + rewrite Ef, app_nil_r. done.
  - intros [= <- <- <-]. apply Forall_cons_1 in Fr as [(F1 & _) _].
    assert (Hnd : id ∉ bufs pp ++ free).
    { intros Hin. apply NoDup_app in N as (_ & N2 & N3). apply NoDup_cons in N3 as [N3 _].
      apply elem_of_app in Hin as [Hin|Hin]; [|done]. apply (N2 id Hin), list_elem_of_here. }
    split; [|split_and!; try done; auto].
    set (pp2 := upd_buf _ _ _). assert (Hb : buf pp2 id = ppb_init 0 0 flags (free_iov pp) (buf pp id)) by (unfold pp2; by rewrite buf_upd_eq).
    apply (append_chunk off pp pp2 id Hpre); try done; try (rewrite Hb; done).
    + intros i Hi. unfold pp2. rewrite buf_upd_ne; [done|]. intros <-. done.
    + rewrite Ef. intros i Hi. by apply list_elem_of_further.
    + rewrite Hb. rewrite Forall_forall in C4. cbn. apply C4. apply elem_of_app. right. apply list_elem_of_here.
    + cbn. rewrite C3. unfold zlen. rewrite !length_app. cbn. lia.
    + by rewrite Ef.
Qed.

Lemma page_pipe_add_page_chunk off al pp addr flags ret pp' al' : pp_ok pp -> page_addr addr -> free_iov pp < nr_iovs pp -> chunk_ok off pp ->
  page_pipe_add_page lazy_pages getpipe setpipe al pp addr flags = Ret (ret, pp', al') ->
  chunk_ok off pp' /\ (ret = - EAGAIN -> nr_pipes pp' = NR_PIPES_PER_CHUNK) /\ (free_bufs pp <> [] -> ret = 0) /\
  (ret < 0 -> free_iov pp' = free_iov pp) /\ (al = [] -> 0 <= getpipe -> (ret = 0 \/ ret = - EAGAIN) /\ al' = []).
Proof.
  intros Hok Ha Hfree Hc. pose proof (po_tail _ Hok) as (init & t & E & _). unfold page_pipe_add_page.
  destruct (try_add_page_ok setpipe Hset pp init t addr flags Hok E Ha Hfree) as (r1 & pp1 & -> & Hc1 & _). cbn [obind].
  destruct Hc1 as [(-> & _ & Hg)|(-> & ->)]; cbn [Z.leb Z.compare].
  { intros [= <- <- <-]. split; [by eapply tail_grown_chunk|]. split_and!; try done; auto. }
  destruct (page_pipe_grow_ok lazy_pages getpipe setpipe Hget Hset al pp flags Hok (or_intror Hok)) as (r2 & pp2 & al2 & Eg & Hc2). rewrite Eg. cbn [obind].
  destruct (page_pipe_grow_chunk off al pp flags r2 pp2 al2 Hok Hc Eg) as (G1 & G2 & G3 & _ & G5 & G6).
  destruct Hc2 as [(-> & K1 & K2 & K3 & K4 & init2 & t2 & E2 & Hf2 & Hr2)|(Hneg & _)].
  - cbn [Z.ltb Z.compare]. destruct (try_add_page_ok setpipe Hset pp2 init2 t2 addr flags K1 E2 Ha ltac:(lia)) as (r3 & pp3 & -> & Hc3 & Hz).
    cbn [obind]. rewrite (Hz Hf2 Hr2). cbn [Z.gtb Z.compare]. intros [= <- <- <-]. split; [|split_and!; try done; intros A1 A2; by destruct (G6 A1 A2)].
    destruct Hc3 as [(_ & _ & Hg)|(-> & _)]; [by eapply tail_grown_chunk|by specialize (Hz Hf2 Hr2)].
  - destruct (Z.ltb_spec r2 0); [|lia]. intros [= <- <- <-]. done.
Qed.

(** Emptying the page pipe: its buffers are free for new pages, its iovecs are
    not. *)
Lemma page_pipe_reinit_ok off pp : pp_ok pp -> chunk_ok off pp ->
  exists pp', page_pipe_reinit lazy_pages getpipe setpipe pp = Ret pp' /\ pp_ok pp' /\ chunk_ok (free_iov pp) pp' /\ contents pp' = [] /\
    free_iov pp' = free_iov pp /\ nr_iovs pp' = nr_iovs pp /\ nr_pipes pp' <= NR_PIPES_PER_CHUNK /\ (nr_pipes pp <= Z.of_nat (S (length (free_bufs pp')))) /\
    holes_of pp' = (nr_holes pp, 0, holes pp, hole_flags pp).
Proof.
  intros Hok [C1 C2 [C3 C5] C4]. pose proof (po_pre _ Hok) as [N B Fr I Pv]. unfold page_pipe_reinit. rewrite C1. cbn [negb].
  set (pp0 := set_holes _ _ _ _ _).
  assert (Hperm : rev (bufs pp) ++ free_bufs pp ≡ₚ bufs pp ++ free_bufs pp) by (apply Permutation_app_tail; symmetry; apply Permutation_rev).
  assert (Hpre : pp_pre pp0).
  { split; cbn [pp0 set_holes set_bufs bufs free_bufs iovs nr_iovs free_iov].
    - cbn [app]. by rewrite Hperm.
    - apply Forall_nil_2.
    - apply Forall_app. split; [|exact Fr]. apply Forall_forall. intros id Hid. apply list_elem_of_In, in_rev, list_elem_of_In in Hid.
      rewrite Forall_forall in B, C4. destruct (B id Hid) as [Q1 _ _ _ Q5 _]. split; [done|]. split; [done|].
      apply (C4 id). apply elem_of_app. by left.
    - done.
    - intros t id _ Hm. unfold chunk_mode in *. cbn in Hm. congruence. }
  assert (Hc0 : chunk_ok (free_iov pp) pp0).
  { split; cbn [pp0 set_holes set_bufs bufs free_bufs nr_pipes pp_flags]; [done|done| |].
    - split; [|done]. cbn [app]. rewrite C3. unfold zlen. by rewrite Hperm.
    - cbn [app]. by rewrite Hperm. }
  destruct (page_pipe_grow_ok lazy_pages getpipe setpipe Hget Hset [] pp0 0 Hpre (or_introl eq_refl)) as (ret & pp' & al' & E & Hcase). rewrite E. cbn [obind].
  destruct (page_pipe_grow_chunk _ _ _ _ _ _ _ Hpre Hc0 E) as (G1 & _ & G3 & G4 & _).
  assert (Hfb : free_bufs pp0 <> []).
  { pose proof (po_tail _ Hok) as (init & t & Et & _). cbn. rewrite Et, rev_app_distr. done. }
  specialize (G3 Hfb). subst ret. destruct Hcase as [(_ & K1 & K2 & K3 & K4 & _)|[? _]]; [|lia]. cbn [Z.eqb]. exists pp'. split; [done|].
  specialize (G4 eq_refl). rename G4 into G5. split_and!; try done.
  - apply (co_count _ _ G1).
  - rewrite C3. cbn [pp0 set_holes set_bufs free_bufs] in G5. unfold zlen. rewrite <- Hperm. lia.
  - rewrite (page_pipe_grow_holes _ _ _ _ _ _ _ _ _ E). done.
Qed.
End Chunk.

(** ** Draining *)
Section DrainOk.
Context (mem : Z -> list Z) (Hmem : forall a, zlen (mem a) = PAGE_SIZE).
Abbreviation bytes_of l := (concat (mem_bytes mem <$> l)).

Lemma zlen_mem_pages (l : list Z) : zlen (concat (mem <$> l)) = zlen l * PAGE_SIZE.
Proof.
  induction l as [|a l IH]; [done|]. cbn [fmap list_fmap concat]. rewrite zlen_app, Hmem, IH. unfold zlen. cbn [length]. lia.
Qed.

Lemma bytes_of_pages l : bytes_of l = concat (mem <$> concat (iov_pages <$> l)).
Proof. induction l as [|iov l IH]; [done|]. cbn [fmap list_fmap concat]. rewrite fmap_app, concat_app, <- IH. done. Qed.

(** Nothing fails from here on. *)
Definition denv_ok (d : denv) : Prop := d = DEnv [] [].

Lemma d_call_ok d ok d' : d_call d = (ok, d') -> denv_ok d -> ok = true /\ denv_ok d'.
Proof. intros H ->. by injection H as <- <-. Qed.

(** The loop of the parasite over its window [w]: either all of it arrives, or
    the count of the bytes tells. *)
Lemma splice_iovs_ok l args_off n w fuel : 0 <= args_off -> w = take (Z.to_nat n) (drop (Z.to_nat args_off) l) -> zlen w = n -> zlen (bytes_of w) < 2 ^ 64 ->
  forall d off nr pipe sp, 0 <= off -> off + nr <= n -> 0 <= nr <= UIO_MAXIOV -> (0 < nr \/ n = 0) -> n - off < Z.of_nat fuel -> 0 <= sp -> sp + zlen (bytes_of (drop (Z.to_nat off) w)) < 2 ^ 64 ->
  exists r pipe' d', splice_iovs mem fuel d l args_off n off nr pipe sp = Ret (r, pipe', d') /\
    (forall s, r = Some s -> exists got, s = sp + got /\ 0 <= got <= zlen (bytes_of (drop (Z.to_nat off) w)) /\
       (got = zlen (bytes_of (drop (Z.to_nat off) w)) -> pipe' = pipe ++ bytes_of (drop (Z.to_nat off) w))) /\
    (denv_ok d -> r = Some (sp + zlen (bytes_of (drop (Z.to_nat off) w))) /\ denv_ok d').
Proof.
  intros Ho Hw Hn Htot. induction fuel as [|fuel IH]; intros d off nr pipe sp H0 H1 H2 H3 Hf Hsp Hs64; [lia|]. cbn [splice_iovs].
  assert (Ew : take (Z.to_nat nr) (drop (Z.to_nat (args_off + off)) l) = take (Z.to_nat nr) (drop (Z.to_nat off) w)).
  { rewrite Hw, skipn_firstn_comm, take_take, drop_drop. f_equal; [lia|f_equal; lia]. }
  rewrite Ew. unfold vmsplice. replace (_ >? UIO_MAXIOV) with false by (symmetry; rewrite Z.gtb_ltb; apply Z.ltb_ge; unfold zlen; rewrite length_take; lia). set (now := take (Z.to_nat nr) (drop (Z.to_nat off) w)). set (later := drop (Z.to_nat (off + nr)) w).
  assert (Esp : drop (Z.to_nat off) w = now ++ later).
  { unfold now, later. rewrite <- (take_drop (Z.to_nat nr) (drop (Z.to_nat off) w)) at 1. rewrite drop_drop. f_equal. f_equal. lia. }
  assert (Eb : bytes_of (drop (Z.to_nat off) w) = bytes_of now ++ bytes_of later) by (rewrite Esp, fmap_app, concat_app; done).
  assert (Ez : zlen (bytes_of (drop (Z.to_nat off) w)) = zlen (bytes_of now) + zlen (bytes_of later)) by (rewrite Eb, zlen_app; done).
  pose proof (zlen_nonneg (bytes_of now)) as Hz1. pose proof (zlen_nonneg (bytes_of later)) as Hz2.
  destruct (io_answer (d_vmsplice d) (zlen (bytes_of now))) as [ret vm] eqn:Eio. destruct (io_answer_range _ _ _ _ Eio) as [R1 R2].
  assert (Hcalm : denv_ok d -> ret = zlen (bytes_of now) /\ denv_ok (DEnv (d_rpc d) vm)).
  { intros ->. cbn in Eio. by injection Eio as <- <-. }
  destruct (Z.ltb_spec ret 0) as [Hneg|Hpos].
  { eexists _, _, _. split; [done|]. split; [done|]. intros Hd. destruct (Hcalm Hd). lia. }
  rewrite u64_small by lia.
  assert (Hfull : ret = zlen (bytes_of now) -> take (Z.to_nat ret) (bytes_of now) = bytes_of now).
  { intros ->. apply take_ge. unfold zlen. lia. }
  destruct (Z.eqb_spec (off + nr) n) as [Eend|Hne].
  - assert (El : later = []) by (unfold later; apply drop_ge; unfold zlen in Hn; lia). rewrite El in *. cbn [fmap list_fmap concat] in *.
    rewrite app_nil_r in Eb. change (zlen []) with 0 in *. eexists _, _, _. split; [done|]. rewrite Eb. split.
    + intros s [= <-]. exists ret. split; [done|]. split; [lia|]. intros E. by rewrite Hfull.
    + intros Hd. destruct (Hcalm Hd) as [-> ?]. done.
  - destruct (IH (DEnv (d_rpc d) vm) (off + nr) (if off + nr + nr >? n then n - (off + nr) else nr) (pipe ++ take (Z.to_nat ret) (bytes_of now)) (sp + ret))
      as (r & pipe' & d' & -> & A & B); try (rewrite Z.gtb_ltb; destruct (Z.ltb_spec n (off + nr + nr))); fold later; try lia.
    fold later in A, B. eexists _, _, _. split; [done|]. split.
    + intros s Hs. destruct (A s Hs) as (got & -> & G1 & G2). exists (ret + got). split; [lia|]. split; [lia|]. intros E. rewrite Ez in E.
      rewrite G2 by lia. rewrite Hfull by lia. by rewrite <- app_assoc, Eb.
    + intros Hd. destruct (Hcalm Hd) as [-> Hd']. destruct (B Hd') as [-> ?]. split; [f_equal; lia|done].
Qed.

Lemma dump_pages_ok d l args_off n nr_pages pipe : 0 <= args_off -> 0 <= n -> let w := take (Z.to_nat n) (drop (Z.to_nat args_off) l) in
  zlen w = n -> zlen (bytes_of w) = nr_pages * PAGE_SIZE -> nr_pages * PAGE_SIZE < 2 ^ 64 ->
  exists ok pipe' d', dump_pages mem d l args_off n nr_pages pipe = Ret (ok, pipe', d') /\
    (ok = true -> pipe' = pipe ++ bytes_of w) /\ (denv_ok d -> ok = true /\ denv_ok d').
Proof.
  intros Ho Hn w Hw Hb H64. unfold dump_pages. destruct (d_call d) as [ok d1] eqn:Ec. pose proof (d_call_ok _ _ _ Ec) as Hd1.
  destruct ok; cbn [negb]; [|eexists _, _, _; split; [done|]; split; [done|]; intros Hd; by destruct (Hd1 Hd)].
  set (nr := if n >? UIO_MAXIOV then UIO_MAXIOV else n).
  assert (Hnr : 0 <= nr <= n /\ nr <= UIO_MAXIOV /\ (0 < nr \/ n = 0)) by (unfold nr; rewrite Z.gtb_ltb; unfold UIO_MAXIOV; destruct (Z.ltb_spec 1024 n); lia).
  pose proof (zlen_nonneg (bytes_of w)).
  destruct (splice_iovs_ok l args_off n w (S (Z.to_nat n)) Ho eq_refl Hw ltac:(lia) d1 0 nr pipe 0) as (r & pipe' & d' & -> & A & B); try lia.
  { change (drop (Z.to_nat 0) w) with w. lia. }
  cbn [obind]. change (drop (Z.to_nat 0) w) with w in A, B. rewrite u64_small by lia. destruct r as [s|]; eexists _, _, _; (split; [done|]); split.
  - intros E%Z.eqb_eq. destruct (A s eq_refl) as (got & -> & G1 & G2). apply G2. lia.
  - intros Hd. destruct (B (proj2 (Hd1 Hd))) as [[= ->] Hd2]. split; [apply Z.eqb_eq; lia|done].
  - done.
  - intros Hd. by destruct (B (proj2 (Hd1 Hd))).
Qed.

(** The segments of the page pipe with the bytes of their pages. *)
Definition buf_segs (pp : page_pipe) (id : nat) : list (segment * list Z) :=
  (fun iov => (iov, ppb_flags (buf pp id), ppb_pipe (buf pp id), mem_bytes mem iov)) <$> buf_iovs pp id.
Definition seg_data (pp : page_pipe) (l : list nat) : list (segment * list Z) := concat (buf_segs pp <$> l).

Lemma seg_data_segments pp : pp_segments pp = fst <$> seg_data pp (bufs pp).
Proof.
  unfold pp_segments, seg_data. induction (bufs pp) as [|id l IH]; [done|]. cbn [fmap list_fmap concat]. rewrite fmap_app, <- IH. f_equal.
  unfold buf_segs. rewrite <- list_fmap_compose. done.
Qed.

Lemma pipe_data_app lazy p l1 l2 : pipe_data lazy p (l1 ++ l2) = pipe_data lazy p l1 ++ pipe_data lazy p l2.
Proof. unfold pipe_data. by rewrite fmap_app, concat_app. Qed.

Lemma pipe_data_buf pp id p : pipe_data true p (buf_segs pp id) = if p =? ppb_pipe (buf pp id) then bytes_of (buf_iovs pp id) else [].
Proof.
  unfold buf_segs, pipe_data. rewrite <- list_fmap_compose. induction (buf_iovs pp id) as [|iov l IH]; cbn [fmap list_fmap concat]; [by destruct (_ =? _)|].
  rewrite IH. cbn. unfold transferred. rewrite orb_true_r. cbn [andb]. by destruct (p =? _).
Qed.

Lemma pipe_get_append pipes p q bytes : 0 <= p -> pipe_get (pipe_append pipes p bytes) q = if q =? p then bytes else pipe_get pipes q.
Proof.
  intros Hp. unfold pipe_append, pipe_get, zlookup. destruct (Z.ltb_spec q 0) as [|Hq]; [destruct (Z.eqb_spec q p); [lia|done]|].
  assert (Hlen : (Z.to_nat p < length (pipes ++ replicate (Z.to_nat (p + 1 - zlen pipes)) []))%nat).
  { rewrite length_app, length_replicate. unfold zlen. lia. }
  destruct (Z.eqb_spec q p) as [->|Hne]; [by rewrite list_lookup_insert_eq|]. rewrite list_lookup_insert_ne by lia.
  destruct (decide (Z.to_nat q < length pipes)%nat) as [Hlt|Hge]; [by rewrite lookup_app_l|].
  rewrite lookup_app_r by lia. rewrite (lookup_ge_None_2 pipes) by lia.
  destruct (replicate _ [] !! _) as [x|] eqn:E; [|done]. apply lookup_replicate in E as [-> _]. done.
Qed.

Lemma drain_bufs_ok pp l : Forall (buf_ok pp) l -> Forall (fun id => 0 <= ppb_pipe (buf pp id)) l -> zlen (iovs pp) = nr_iovs pp -> free_iov pp <= nr_iovs pp ->
  forall d off stop pipes, 0 <= off -> consecutive off (windows pp l) stop -> stop <= free_iov pp ->
  exists ok off' pipes' d', drain_bufs mem d pp l off pipes = Ret (ok, off', pipes', d') /\
    (ok = true -> off' = stop /\ forall p, pipe_get pipes' p = pipe_get pipes p ++ pipe_data true p (seg_data pp l)) /\
    (denv_ok d -> ok = true /\ denv_ok d').
Proof.
  intros Hb Hi Hio Hfi. induction l as [|id l IH]; intros d off stop pipes Ho Hw Hs; cbn [drain_bufs].
  { eexists _, _, _, _. split; [done|]. split; [|done]. intros _. split; [exact Hw|]. intros p. unfold seg_data, pipe_data. cbn. by rewrite app_nil_r. }
  apply Forall_cons_1 in Hb as [[Q1 Q2 Q3 Q4 Q5 Q6] Hb], Hi as [Hi1 Hi]. destruct Hw as [Ew Hw].
  destruct (d_call d) as [ok d1] eqn:E1. pose proof (d_call_ok _ _ _ E1) as D1.
  destruct ok; cbn [negb]; [|eexists _, _, _, _; split; [done|]; split; [done|]; intros Hd; by destruct (D1 Hd)].
  destruct (d_call d1) as [ok d2] eqn:E2. pose proof (d_call_ok _ _ _ E2) as D2.
  destruct ok; cbn [negb]; [|eexists _, _, _, _; split; [done|]; split; [done|]; intros Hd; by destruct (D2 (proj2 (D1 Hd)))].
  assert (Ewin : take (Z.to_nat (nr_segs (buf pp id))) (drop (Z.to_nat off) (iovs pp)) = buf_iovs pp id) by (unfold buf_iovs; by rewrite Ew).
  assert (Hbytes : zlen (bytes_of (buf_iovs pp id)) = pages_in (buf pp id) * PAGE_SIZE) by (rewrite bytes_of_pages, zlen_mem_pages, Q4; done).
  assert (Hzl : zlen (buf_iovs pp id) = nr_segs (buf pp id)).
  { rewrite <- Ewin. unfold zlen in *. rewrite length_take, length_drop. lia. }
  destruct (dump_pages_ok d2 (iovs pp) off (nr_segs (buf pp id)) (pages_in (buf pp id)) (pipe_get pipes (ppb_pipe (buf pp id))))
    as (ret & pipe & d3 & -> & A & B); rewrite ?Ewin; try done; [lia|unfold PAGE_SIZE; lia|]. cbn [obind]. rewrite Ewin in A.
  destruct (d_call d3) as [ok d4] eqn:E3. pose proof (d_call_ok _ _ _ E3) as D3.
  assert (Hd4 : denv_ok d -> ok = true /\ ret = true /\ denv_ok d4).
  { intros Hd. destruct (B (proj2 (D2 (proj2 (D1 Hd))))) as [-> Hd3]. by destruct (D3 Hd3). }
  destruct (ok && ret) eqn:Eok; cbn [negb].
  2:{ eexists _, _, _, _. split; [done|]. split; [done|]. intros Hd. destruct (Hd4 Hd) as (-> & -> & _). done. }
  apply andb_true_iff in Eok as [-> ->]. specialize (A eq_refl).
  destruct (IH Hb Hi d4 (off + nr_segs (buf pp id)) stop (pipe_append pipes (ppb_pipe (buf pp id)) pipe) ltac:(lia) Hw Hs) as (ok & off' & pipes' & d' & -> & K1 & K2).
  eexists _, _, _, _. split; [done|]. split; [|intros Hd; apply K2; by apply Hd4].
  intros Hok. destruct (K1 Hok) as [-> K3]. split; [done|]. intros p. rewrite K3, pipe_get_append by done.
  unfold seg_data. cbn [fmap list_fmap concat]. rewrite pipe_data_app, pipe_data_buf, A.
  destruct (Z.eqb_spec p (ppb_pipe (buf pp id))) as [->|]; [by rewrite app_assoc|done].
Qed.

(** Draining a page pipe appends the memory of every segment to its pipe. *)
Lemma drain_pages_ok d pp off pipes : pp_ok pp -> chunk_ok off pp -> 0 <= off ->
  exists ok off' pipes' d', drain_pages mem d pp off pipes = Ret (ok, off', pipes', d') /\
    (ok = true -> off' = free_iov pp /\ forall p, pipe_get pipes' p = pipe_get pipes p ++ pipe_data true p (seg_data pp (bufs pp))) /\
    (denv_ok d -> ok = true /\ denv_ok d').
Proof.
  intros Hok [C1 C2 C3 C4] Ho. pose proof (po_pre _ Hok) as [_ B _ [I1 I2] _].
  apply drain_bufs_ok; try done; [|lia]. apply Forall_app in C4 as [C4 _]. eapply Forall_impl; [exact C4|]. by intros id [? _].
Qed.
End DrainOk.

(** ** Into the images *)

Lemma elem_iov_pages iov a : page_iov iov -> a ∈ iov_pages iov <-> a mod PAGE_SIZE = 0 /\ iov_base iov <= a < iov_end iov.
Proof.
  intros [(I1 & I2 & I3 & I4) I5]. unfold iov_pages, iov_end. split.
  - intros H. apply list_elem_of_fmap_1 in H as (j & -> & Hj). apply elem_of_seqZ in Hj. split; [by rewrite Z_mod_plus_full|].
    unfold PAGE_SIZE in *. pose proof (Z.div_mod (iov_len iov) 4096 ltac:(lia)). lia.
  - intros [H1 H2]. replace a with (iov_base iov + (a - iov_base iov) / PAGE_SIZE * PAGE_SIZE).
    + apply (list_elem_of_fmap_2 (fun j => iov_base iov + j * PAGE_SIZE)). apply elem_of_seqZ. unfold PAGE_SIZE in *.
      pose proof (Z.div_mod (iov_len iov) 4096 ltac:(lia)). pose proof (Z.div_mod a 4096 ltac:(lia)). pose proof (Z.div_mod (iov_base iov) 4096 ltac:(lia)).
      split; [apply Z.div_pos; lia|]. apply Z.div_lt_upper_bound; lia.
    + assert (Hm : (a - iov_base iov) mod PAGE_SIZE = 0) by (rewrite Zminus_mod, H1, I5; done). pose proof (Z.div_mod (a - iov_base iov) PAGE_SIZE ltac:(done)). lia.
Qed.

Lemma iov_base_page iov : page_iov iov -> iov_base iov ∈ iov_pages iov.
Proof. intros H. apply (elem_iov_pages iov _ H). pose proof H as [(I1 & I2 & I3 & I4) I5]. unfold iov_end. lia. Qed.

Lemma iov_end_aligned iov : page_iov iov -> iov_end iov mod PAGE_SIZE = 0.
Proof. intros [(I1 & I2 & I3 & I4) I5]. unfold iov_end. by rewrite Zplus_mod, I5, I3. Qed.

Lemma iov_last_page iov : page_iov iov -> iov_end iov - PAGE_SIZE ∈ iov_pages iov.
Proof.
  intros H. apply (elem_iov_pages iov _ H). pose proof H as [(I1 & I2 & I3 & I4) I5]. split; [by rewrite Zminus_mod, (iov_end_aligned iov H)|].
  unfold iov_end, PAGE_SIZE in *. pose proof (Z.div_mod (iov_len iov) 4096 ltac:(lia)). lia.
Qed.

(** Ranges without a common page. *)
Lemma pages_apart a b : page_iov a -> page_iov b -> (forall p, p ∈ iov_pages a -> p ∉ iov_pages b) -> apart a b.
Proof.
  intros Ha Hb Hd. unfold apart. pose proof Ha as [(A1 & A2 & A3 & A4) A5]. pose proof Hb as [(B1 & B2 & B3 & B4) B5].
  destruct (Z.le_gt_cases (iov_end a) (iov_base b)); [by left|]. destruct (Z.le_gt_cases (iov_end b) (iov_base a)); [by right|]. exfalso.
  destruct (Z.le_ge_cases (iov_base a) (iov_base b)).
  - apply (Hd (iov_base b)); [apply (elem_iov_pages a _ Ha); lia|by apply iov_base_page].
  - apply (Hd (iov_base a)); [by apply iov_base_page|apply (elem_iov_pages b _ Hb); lia].
Qed.

Lemma strictly_app (l1 l2 : list Z) : StronglySorted Z.lt (l1 ++ l2) <->
  StronglySorted Z.lt l1 /\ StronglySorted Z.lt l2 /\ forall a b, a ∈ l1 -> b ∈ l2 -> a < b.
Proof.
  induction l1 as [|x l1 IH]; cbn [app].
  - split; [intros H; split_and!; [constructor|done|]; intros a b Ha; by apply elem_of_nil in Ha|tauto].
  - split.
    + intros H. apply StronglySorted_inv in H as [H1 H2]. apply IH in H1 as (I1 & I2 & I3). apply Forall_app in H2 as [F1 F2]. split_and!; [by constructor|done|].
      intros a b Ha Hb. apply elem_of_cons in Ha as [->|Ha]; [|by apply I3]. rewrite Forall_forall in F2. by apply F2.
    + intros (H1 & H2 & H3). apply StronglySorted_inv in H1 as [H1 H4]. constructor.
      * apply IH. split_and!; [done|done|]. intros a b Ha Hb. apply H3; [by apply list_elem_of_further|done].
      * apply Forall_app. split; [done|]. apply Forall_forall. intros b Hb. apply H3; [apply list_elem_of_here|done].
Qed.

(** Ranges whose pages ascend. *)
Lemma pages_ascending l : Forall page_iov l -> StronglySorted Z.lt (concat (iov_pages <$> l)) ->
  forall cur, Forall (fun a => cur <= a) (concat (iov_pages <$> l)) -> ascending cur l.
Proof.
  induction 1 as [|iov l Hi Hl IH]; intros Hs cur Hc; [done|]. cbn [fmap list_fmap concat] in *. apply strictly_app in Hs as (S1 & S2 & S3). apply Forall_app in Hc as [C1 C2].
  split; [rewrite Forall_forall in C1; by apply C1, iov_base_page|]. apply IH; [done|]. apply Forall_forall. intros a Ha.
  pose proof (S3 _ a (iov_last_page iov Hi) Ha). pose proof (iov_end_aligned iov Hi) as He.
  assert (Hm : a mod PAGE_SIZE = 0).
  { apply list_elem_of_In, in_concat in Ha as (x & Hx & Hax). apply list_elem_of_In in Hx. apply list_elem_of_fmap_1 in Hx as (i & -> & Hin).
    rewrite Forall_forall in Hl. apply list_elem_of_In in Hax. by apply (elem_iov_pages i a (Hl i Hin)) in Hax as [? _]. }
  unfold PAGE_SIZE in *. pose proof (Z.div_mod a 4096 ltac:(lia)). pose proof (Z.div_mod (iov_end iov) 4096 ltac:(lia)). lia.
Qed.

Section Flush.
Context (mem : Z -> list Z) (Hmem : forall a, zlen (mem a) = PAGE_SIZE).

Definition pipe_iovs (pp : page_pipe) : list iovec := concat (buf_iovs pp <$> bufs pp).
Definition stored_addrs (pp : page_pipe) : list Z := fst <$> contents pp.
Definition hole_addrs (pp : page_pipe) : list Z := fst <$> hole_pages pp.

Lemma seg_data_iovs pp l : seg_iov <$> seg_data mem pp l = concat (buf_iovs pp <$> l).
Proof.
  unfold seg_data. induction l as [|id l IH]; [done|]. cbn [fmap list_fmap concat]. rewrite fmap_app, IH. f_equal. unfold buf_segs.
  rewrite <- list_fmap_compose. rewrite <- (list_fmap_id (buf_iovs pp id)) at 2. done.
Qed.

Lemma stored_addrs_iovs pp : stored_addrs pp = concat (iov_pages <$> pipe_iovs pp).
Proof.
  unfold stored_addrs, contents, pipe_iovs. induction (bufs pp) as [|id l IH]; [done|]. cbn [fmap list_fmap concat]. rewrite !fmap_app, concat_app, IH. f_equal.
  unfold buf_pages. rewrite <- list_fmap_compose. by rewrite <- (list_fmap_id (concat _)) at 2.
Qed.

Lemma hole_addrs_iovs pp : hole_addrs pp = concat (iov_pages <$> (fst <$> hole_iovs pp)).
Proof.
  unfold hole_addrs, hole_pages. induction (hole_iovs pp) as [|[iov f] l IH]; [done|]. cbn [fmap list_fmap concat fst]. rewrite fmap_app, IH. f_equal.
  rewrite <- list_fmap_compose. by rewrite <- (list_fmap_id (iov_pages iov)) at 2.
Qed.

Lemma pp_holes_iovs pp : pp_holes pp = hole_iovs pp.
Proof. unfold pp_holes, hole_iovs. apply zip_with_take. Qed.

Lemma pipe_iovs_ok pp : pp_ok pp -> Forall page_iov (pipe_iovs pp).
Proof.
  intros Hok. unfold pipe_iovs. pose proof (po_bufs _ (po_pre _ Hok)) as B. induction B as [|id l [_ _ Q3 _ _ _] _ IH]; cbn [fmap list_fmap concat]; [constructor|].
  by apply Forall_app.
Qed.

(** The page pipe is ready to be written behind [cur], at addresses relative to [off0]. *)
Record flushable (off0 cur : Z) (pp : page_pipe) : Prop := Flushable {
  fl_off : 0 <= cur /\ aligned off0;
  fl_stored : StronglySorted Z.lt (stored_addrs pp) /\ Forall (fun a => cur + off0 <= a /\ 0 < a) (stored_addrs pp);
  fl_holes : StronglySorted Z.lt (hole_addrs pp) /\ Forall (fun a => cur + off0 <= a /\ 0 < a) (hole_addrs pp);
  fl_apart : forall a, a ∈ stored_addrs pp -> a ∉ hole_addrs pp;
  fl_flags : Forall (fun h => snd h = PP_HOLE_PARENT) (hole_pages pp)
}.

Lemma in_stored pp iov a : iov ∈ pipe_iovs pp -> a ∈ iov_pages iov -> a ∈ stored_addrs pp.
Proof. intros H1 H2. rewrite stored_addrs_iovs. apply list_elem_of_In, in_concat. exists (iov_pages iov). split; [|by apply list_elem_of_In]. by apply list_elem_of_In, list_elem_of_fmap_2. Qed.
Lemma in_holes pp iov a : iov ∈ (fst <$> hole_iovs pp : list iovec) -> a ∈ iov_pages iov -> a ∈ hole_addrs pp.
Proof. intros H1 H2. rewrite hole_addrs_iovs. apply list_elem_of_In, in_concat. exists (iov_pages iov). split; [|by apply list_elem_of_In]. by apply list_elem_of_In, list_elem_of_fmap_2. Qed.

Lemma shifted_range off0 cur iov : page_iov iov -> 0 <= cur -> aligned off0 -> cur + off0 <= iov_base iov -> 0 <= off0 -> range_pages (shifted off0 iov).
Proof.
  intros [(I1 & I2 & I3 & I4) I5] Hc Ho Hb H0. split; cbn [shifted iov_base iov_len].
  - split; [lia|]. unfold aligned in *. by rewrite Zminus_mod, I5, Ho.
  - done.
  - lia.
Qed.

Lemma flush_ready off0 cur woff pp : pp_ok pp -> holes_ok pp -> chunk_ok woff pp -> 0 <= off0 -> flushable off0 cur pp ->
  dump_ready off0 true cur (seg_data mem pp (bufs pp)) (pp_holes pp).
Proof.
  intros Hok Hho [_ _ _ C4] H0 [[F1 F2] [F3 F4] [F5 F6] F7 F8]. pose proof (pipe_iovs_ok pp Hok) as Hpi. rewrite pp_holes_iovs.
  pose proof (ho_iovs _ Hho) as Hhi. rewrite Forall_forall in F4, F6. rewrite Forall_forall in Hpi.
  assert (Hbase : forall iov, iov ∈ pipe_iovs pp -> cur + off0 <= iov_base iov /\ 0 < iov_base iov).
  { intros iov Hin. apply F4. eapply in_stored; [done|]. by apply iov_base_page, Hpi. }
  assert (Hin : forall sd, sd ∈ seg_data mem pp (bufs pp) -> seg_iov sd ∈ pipe_iovs pp).
  { intros sd Hsd. unfold pipe_iovs. rewrite <- (seg_data_iovs pp). by apply list_elem_of_fmap_2. }
  assert (Hhole : forall h, h ∈ hole_iovs pp -> page_iov (fst h) /\ cur + off0 <= iov_base (fst h)).
  { intros h Hh. rewrite Forall_forall in Hhi. split; [by apply Hhi|]. apply F6. eapply in_holes; [by apply list_elem_of_fmap_2|]. by apply iov_base_page, Hhi. }
  split.
  - apply Forall_forall. intros sd Hsd. pose proof (Hin sd Hsd) as Hi. destruct (Hbase _ Hi) as [B1 B2].
    unfold seg_data in Hsd. apply list_elem_of_In, in_concat in Hsd as (x & Hx & Hsd). apply list_elem_of_In in Hx, Hsd.
    apply list_elem_of_fmap_1 in Hx as (id & -> & Hid). unfold buf_segs in Hsd. apply list_elem_of_fmap_1 in Hsd as (iov & -> & Hiov). cbn [seg_iov fst] in *.
    split; [by apply (shifted_range off0 cur); [apply Hpi|..]|]. split; [done|]. split.
    + rewrite Forall_forall in C4. apply (C4 id). apply elem_of_app. by left.
    + intros _. unfold mem_bytes. rewrite (zlen_mem_pages mem Hmem). destruct (Hpi iov Hi) as [(I1 & I2 & I3 & I4) I5]. unfold zlen. rewrite length_iov_pages by lia.
      pose proof (Z.div_mod (iov_len iov) PAGE_SIZE ltac:(done)). lia.
  - apply Forall_forall. intros h Hh. destruct (Hhole h Hh) as [H1 H2]. split; [by apply (shifted_range off0 cur)|].
    rewrite Forall_forall in F8. apply (F8 (iov_base (fst h), snd h)). unfold hole_pages. apply list_elem_of_In, in_concat. destruct h as [iov f]. eexists. split.
    + apply list_elem_of_In. by apply (list_elem_of_fmap_2 (fun '(iov, f) => (fun a => (a, f)) <$> iov_pages iov)).
    + apply list_elem_of_In. apply (list_elem_of_fmap_2 (fun a => (a, f))). by apply iov_base_page.
  - rewrite seg_data_iovs. fold (pipe_iovs pp). apply pages_ascending; [by apply pipe_iovs_ok|by rewrite <- stored_addrs_iovs|].
    rewrite <- stored_addrs_iovs. apply Forall_forall. intros a Ha. by apply F4.
  - apply pages_ascending; [by apply Forall_fmap|by rewrite <- hole_addrs_iovs|]. rewrite <- hole_addrs_iovs. apply Forall_forall. intros a Ha. by apply F6.
  - apply Forall_forall. intros sd Hsd. apply Forall_forall. intros h Hh. apply pages_apart; [by apply Hpi, Hin|by apply Hhole|].
    intros p Hp Hq. apply (F7 p); [eapply in_stored; [by apply Hin|done]|eapply in_holes; [by apply list_elem_of_fmap_2|done]].
Qed.

(** *** What is in the images *)
Context (lz4c : list Z -> Z -> Z -> option (list Z)) (lz4 : list Z -> Z -> option (list Z)) (Hlz : lz4_contract lz4c lz4).
Context (auto : bool) (cbs acc : Z) (compress : bool) (Hcbs : cbs = 0 \/ PAGE_SIZE <= cbs < (MAX_BLOCK_PAGES + 1) * PAGE_SIZE).
Context (ls : list (list pagemap_entry)).
Abbreviation T := (loc_transport lz4c auto cbs acc compress).

(** The page is stored with its bytes; the page is left to the parent images. *)
Definition page_stored (x : page_xfer) (v : Z) (bytes : list Z) : Prop := forall ps, page_content lz4 ((xf_pmi x, xf_pi x) :: ps) v bytes.
Definition page_noted (x : page_xfer) (v : Z) : Prop := exists pe, pe ∈ xf_pmi x /\ in_entry pe v /\ pe_flags pe = PE_PARENT.

Lemma page_stored_grows cur n x x' v b : xfer_ok ls cur x -> xstep n x x' -> page_stored x v b -> page_stored x' v b.
Proof. intros Hx Hs H ps. eapply xstep_content; [done|done|apply H]. Qed.
Lemma page_noted_grows n x x' v : xstep n x x' -> page_noted x v -> page_noted x' v.
Proof. intros [_ (m & g & Hm & _)] (pe & H1 & H2). exists pe. split; [|done]. rewrite Hm. apply elem_of_app. by left. Qed.

Lemma page_of_mem iov k : 0 <= k < iov_len iov / PAGE_SIZE -> page_of (mem_bytes mem iov) k = mem (iov_base iov + k * PAGE_SIZE).
Proof.
  intros Hk. unfold mem_bytes, page_of.
  assert (Hl : iov_pages iov !! Z.to_nat k = Some (iov_base iov + k * PAGE_SIZE)).
  { unfold iov_pages. rewrite list_lookup_fmap, lookup_seqZ_lt by lia. cbn. do 3 f_equal. lia. }
  rewrite <- (take_drop_middle _ _ _ Hl). rewrite fmap_app, concat_app. cbn [fmap list_fmap concat].
  assert (Hpre : zlen (concat (mem <$> take (Z.to_nat k) (iov_pages iov))) = k * PAGE_SIZE).
  { rewrite (zlen_mem_pages mem Hmem). unfold zlen. apply lookup_lt_Some in Hl. rewrite length_take, Nat.min_l, Z2Nat.id by lia. done. }
  unfold zlen in Hpre. rewrite drop_app_ge by lia. replace (Z.to_nat (k * PAGE_SIZE) - _)%nat with 0%nat by lia. rewrite drop_0.
  pose proof (Hmem (iov_base iov + k * PAGE_SIZE)) as Hz. unfold zlen in Hz. rewrite take_app_le by lia. apply take_ge. lia.
Qed.

Lemma segs_size_pages pp : pp_ok pp -> segs_size (seg_data mem pp (bufs pp)) <= 2 * PAGE_SIZE * zlen (stored_addrs pp).
Proof.
  intros Hok. pose proof (pipe_iovs_ok pp Hok) as Hpi. rewrite stored_addrs_iovs. unfold segs_size.
  rewrite (list_fmap_compose seg_iov (fun iov => iov_len iov + PAGE_SIZE)), seg_data_iovs. fold (pipe_iovs pp).
  induction Hpi as [|iov l [(I1 & I2 & I3 & I4) I5] _ IH]; [done|]. cbn [fmap list_fmap concat]. rewrite zlen_app, zsum_cons.
  unfold zlen at 1. rewrite length_iov_pages by lia. pose proof (Z.div_mod (iov_len iov) PAGE_SIZE ltac:(done)). unfold PAGE_SIZE in *. lia.
Qed.

(** The page of an entry. *)
Lemma noted_page x h a : hole_noted x h -> page_iov (fst h) -> 0 <= xf_offset x -> aligned (xf_offset x) -> xf_offset x <= iov_base (fst h) ->
  a ∈ iov_pages (fst h) -> page_noted x (a - xf_offset x).
Proof.
  intros (pe & P1 & P2 & P3 & P4) Hi Ho Ha Hb Hin. exists pe. split; [done|]. split; [|done].
  apply (elem_iov_pages _ _ Hi) in Hin as [A1 A2]. destruct Hi as [(I1 & I2 & I3 & I4) I5]. unfold in_entry, entry_end, iov_end, aligned in *.
  rewrite P2, P3. pose proof (Z.div_mod (iov_len (fst h)) PAGE_SIZE ltac:(done)). unfold PAGE_SIZE in *. lia.
Qed.

(** What the images hold of a page pipe that was drained and written. *)
Record flushed (off0 cur : Z) (pp : page_pipe) (x x' : page_xfer) : Prop := Flushed {
  fd_ok : exists cur', xfer_ok ls cur' x' /\ 0 <= cur' /\ forall B, cur + off0 <= B -> Forall (fun a => a + PAGE_SIZE <= B) (stored_addrs pp ++ hole_addrs pp) -> cur' + off0 <= B;
  fd_step : exists n, xstep n x x';
  fd_size : zlen (xf_pi x') <= zlen (xf_pi x) + 2 * PAGE_SIZE * zlen (stored_addrs pp);
  fd_stored : Forall (fun a => page_stored x' (a - off0) (mem a)) (stored_addrs pp);
  fd_noted : Forall (fun a => page_noted x' (a - off0)) (hole_addrs pp)
}.

(** The parent has the pages left to it. *)
Definition holes_backed (off0 : Z) (l : list Z) : Prop := forall p, head ls = Some p -> Forall (fun a => has_page p (a - off0)) l.

(** The pipes hold the pages: into the images with them. *)
Lemma xfer_drained_ok off0 cur woff e x pipes1 pp : pp_ok pp -> holes_ok pp -> chunk_ok woff pp -> 0 <= off0 -> flushable off0 cur pp ->
  xfer_ok ls cur x -> xf_offset x = off0 -> transfer_lazy x = true -> (forall p, pipe_get pipes1 p = pipe_data true p (seg_data mem pp (bufs pp))) ->
  zlen (xf_pi x) + 2 * PAGE_SIZE * zlen (stored_addrs pp) <= OFF_MAX ->
  exists ok2 x' pipes2 e', page_xfer_dump_pages T e x pipes1 pp = Ret (ok2, x', pipes2, e') /\
    (ok2 = true -> flushed off0 cur pp x x' /\ forall p, pipe_get pipes2 p = []) /\
    (xenv_ok e -> holes_backed off0 (hole_addrs pp) -> ok2 = true /\ xenv_ok e').
Proof.
  intros Hok Hho Hc H0 Hfl Hx Eo El Hpipes Hsz.
  pose proof (flush_ready off0 cur woff pp Hok Hho Hc H0 Hfl) as Hrdy. pose proof (segs_size_pages pp Hok) as Hss. rewrite <- Eo, <- El in Hrdy.
  assert (Hp1 : forall p, pipe_get pipes1 p = pipe_data (transfer_lazy x) p (seg_data mem pp (bufs pp))) by (intros p; by rewrite Hpipes, El).
  destruct (page_xfer_dump_pages_full lz4c lz4 Hlz auto cbs acc compress Hcbs ls e x pipes1 pp (seg_data mem pp (bufs pp)) cur (seg_data_segments mem pp) Hx Hrdy)
    as (ok2 & x' & pipes2 & e' & -> & A1 & A2); [by intros p; rewrite Hp1|lia|].
  exists ok2, x', pipes2, e'. split; [done|]. pose proof (pipe_iovs_ok pp Hok) as Hpi. pose proof (ho_iovs _ Hho) as Hhi. rewrite pp_holes_iovs in *.
  destruct Hfl as [[F1 F2] [F3 F4] [F5 F6] F7 F8]. split.
  - intros Hok2. destruct (A1 Hok2) as ((cur' & C1 & C0 & C2) & S1 & Z1 & St & Nt & Pt). destruct (xs_settings _ _ _ S1) as [Eo' El']. rewrite Eo in *.
    split; [|intros p; apply (Pt p); by rewrite Hp1, app_nil_r]. rewrite Forall_forall in F6. rewrite Forall_forall in Hhi, Nt. rewrite Forall_forall in St. rewrite Forall_forall in Hpi. split.
    + exists cur'. split; [done|]. split; [lia|]. intros B HB HF. apply Forall_app in HF as [G1 G2]. rewrite Forall_forall in G1, G2. apply C2; [done| |].
      * apply Forall_forall. intros sd Hsd. assert (Hin : seg_iov sd ∈ pipe_iovs pp) by (unfold pipe_iovs; rewrite <- (seg_data_iovs pp); by apply list_elem_of_fmap_2).
        pose proof (G1 _ (in_stored pp _ _ Hin (iov_last_page _ (Hpi _ Hin)))). lia.
      * apply Forall_forall. intros h Hh. pose proof (G2 _ (in_holes pp _ _ (list_elem_of_fmap_2 fst _ _ Hh) (iov_last_page _ (Hhi _ Hh)))). lia.
    + by eexists.
    + lia.
    + rewrite stored_addrs_iovs. apply Forall_forall. intros a Ha. apply list_elem_of_In, in_concat in Ha as (pgs & Hpg & Ha). apply list_elem_of_In in Hpg, Ha.
      apply list_elem_of_fmap_1 in Hpg as (iov & -> & Hiov). unfold pipe_iovs in Hiov. rewrite <- (seg_data_iovs pp) in Hiov.
      apply list_elem_of_fmap_1 in Hiov as (sd & -> & Hsd). specialize (St sd Hsd). assert (Hpio : page_iov (seg_iov sd)) by (apply Hpi; unfold pipe_iovs; rewrite <- (seg_data_iovs pp); by apply list_elem_of_fmap_2).
      unfold seg_data in Hsd. apply list_elem_of_In, in_concat in Hsd as (y & Hy & Hsd). apply list_elem_of_In in Hy, Hsd. apply list_elem_of_fmap_1 in Hy as (id & -> & _).
      apply list_elem_of_fmap_1 in Hsd as (iov & -> & _). unfold seg_stored in St. rewrite Eo', El', El in St. unfold transferred in St. rewrite orb_true_r in St.
      cbn [seg_iov fst] in *. unfold iov_pages in Ha. apply list_elem_of_fmap_1 in Ha as (k & -> & Hk). apply elem_of_seqZ in Hk.
      rewrite <- (page_of_mem iov k) by lia. intros ps. replace (iov_base iov + k * PAGE_SIZE - off0) with (iov_base iov - off0 + k * PAGE_SIZE) by lia. apply St.
      unfold mem_bytes. rewrite (zlen_mem_pages mem Hmem). destruct Hpio as [(I1 & I2 & I3 & I4) I5]. rewrite Z.div_mul by done. unfold zlen. rewrite length_iov_pages by lia. lia.
    + rewrite hole_addrs_iovs. apply Forall_forall. intros a Ha. apply list_elem_of_In, in_concat in Ha as (pgs & Hpg & Ha). apply list_elem_of_In in Hpg, Ha.
      apply list_elem_of_fmap_1 in Hpg as (iov & -> & Hiov). apply list_elem_of_fmap_1 in Hiov as (h & -> & Hh). rewrite <- Eo'.
      assert (Hb : cur + off0 <= iov_base (fst h)) by (apply F6; eapply in_holes; [by apply list_elem_of_fmap_2|]; by apply iov_base_page, Hhi).
      apply (noted_page x' h a); try done; rewrite ?Eo'; [by apply Nt|by apply Hhi|done|done|lia].
  - intros He Hb. apply A2; [done|]. rewrite Eo. apply Forall_forall. intros h Hh l Hl v Hv. rewrite Forall_forall in Hhi. pose proof (Hhi h Hh) as Hpio.
    specialize (Hb l Hl). rewrite Forall_forall in Hb. replace v with (v + off0 - off0) by lia. apply Hb. eapply in_holes; [by apply list_elem_of_fmap_2|].
    pose proof Hpio as [(I1 & I2 & I3 & I4) I5]. apply elem_pages_between in Hv as [V1 V2]; unfold aligned in *.
    + apply (elem_iov_pages _ _ Hpio). unfold iov_end. split; [|lia]. by rewrite Zplus_mod, V2, F2.
    + by rewrite Zminus_mod, I5, F2.
    + by rewrite Zplus_mod, Zminus_mod, I5, F2, I3.
Qed.

(** *** A dump in chunks *)

(** The images hold the pages [S] of the memory and leave the pages [H] to the
    parent, all below [v]; their addresses there are relative to [off0]. *)
Record image_ok (off0 : Z) (x : page_xfer) (S H : list Z) (v : Z) : Prop := ImageOk {
  io_settings : xf_offset x = off0 /\ transfer_lazy x = true;
  io_ok : exists cur, xfer_ok ls cur x /\ 0 <= cur /\ cur + off0 <= v;
  io_size : zlen (xf_pi x) <= 2 * PAGE_SIZE * zlen S;
  io_stored : Forall (fun a => page_stored x (a - off0) (mem a)) S;
  io_noted : Forall (fun a => page_noted x (a - off0)) H
}.

Definition chunk_pipe (woff : Z) (pp : page_pipe) : Prop := pp_ok pp /\ holes_ok pp /\ chunk_ok woff pp.

(** Between two pages: the pages [S] are in the images or in the page pipe, the
    pages [H] are left to the parent or are holes in the page pipe. *)
Record pipe_inv (off0 : Z) (pp : page_pipe) (x : page_xfer) (pipes : list (list Z)) (woff : Z) (S H : list Z) (v N : Z) : Prop := PipeInv {
  pi_pipe : chunk_pipe woff pp /\ 0 <= woff /\ 0 <= off0;
  pi_pages : exists S0 H0 cur, S = S0 ++ stored_addrs pp /\ H = H0 ++ hole_addrs pp /\ image_ok off0 x S0 H0 (cur + off0) /\
    xfer_ok ls cur x /\ flushable off0 cur pp /\ cur + off0 <= v;
  pi_below : Forall (fun a => a + PAGE_SIZE <= v) (stored_addrs pp ++ hole_addrs pp);
  pi_empty : forall p, pipe_get pipes p = [];
  pi_room : free_iov pp <= zlen S + zlen H /\ nr_iovs pp = N
}.

Lemma pipe_inv_mono off0 pp x pipes woff S H v v' N : pipe_inv off0 pp x pipes woff S H v N -> v <= v' -> pipe_inv off0 pp x pipes woff S H v' N.
Proof.
  intros [D1 (S0 & H0 & cur & E1 & E2 & I1 & I2 & I3 & I4) D3 D4 D5] Hv. split; try done; [exists S0, H0, cur; split_and!; try done; lia|].
  eapply Forall_impl; [exact D3|]. cbn. lia.
Qed.

Lemma image_ok_more off0 x x' S H cur pp B : image_ok off0 x S H (cur + off0) -> flushed off0 cur pp x x' -> xfer_ok ls cur x -> cur + off0 <= B ->
  Forall (fun a => a + PAGE_SIZE <= B) (stored_addrs pp ++ hole_addrs pp) -> image_ok off0 x' (S ++ stored_addrs pp) (H ++ hole_addrs pp) B.
Proof.
  intros [[I1 I2] I3 I4 I5 I6] [(cur' & F1 & F1' & F2) [n F3] F4 F5 F6] Hx HB Hb. destruct (xs_settings _ _ _ F3) as [E1 E2].
  split; [split; congruence| |rewrite zlen_app; lia| |].
  - exists cur'. split; [done|]. split; [done|]. by apply F2.
  - apply Forall_app. split; [|done]. eapply Forall_impl; [exact I5|]. intros a Ha. by eapply page_stored_grows.
  - apply Forall_app. split; [|done]. eapply Forall_impl; [exact I6|]. intros a Ha. by eapply page_noted_grows.
Qed.

(** The pages of the pipe go into the images. *)
Lemma pipe_inv_flush off0 pp x pipes woff S H v N pipes1 e : pipe_inv off0 pp x pipes woff S H v N -> 2 * PAGE_SIZE * zlen S <= OFF_MAX ->
  (forall p, pipe_get pipes1 p = pipe_data true p (seg_data mem pp (bufs pp))) ->
  exists ok x' pipes2 e', page_xfer_dump_pages T e x pipes1 pp = Ret (ok, x', pipes2, e') /\
    (ok = true -> image_ok off0 x' S H v /\ forall p, pipe_get pipes2 p = []) /\ (xenv_ok e -> holes_backed off0 H -> ok = true /\ xenv_ok e').
Proof.
  intros [((P1 & P2 & P3) & P4 & P5) (S0 & H0 & cur & -> & -> & Him & Hx & Hfl & Hcur) Hb Hem Hroom] Hsz Hp1. pose proof Him as [[I1 I2] _ I4 _ _]. rewrite zlen_app in Hsz.
  destruct (xfer_drained_ok off0 cur woff e x pipes1 pp P1 P2 P3 P5 Hfl Hx I1 I2 Hp1 ltac:(lia)) as (ok & x' & pipes2 & e' & E & F1 & F2).
  exists ok, x', pipes2, e'. split; [done|]. split.
  - intros Hok. destruct (F1 Hok) as [F3 F4]. split; [|done]. by apply (image_ok_more off0 x x' S0 H0 cur pp v).
  - intros He Hba. apply F2; [done|]. intros p Hp. specialize (Hba p Hp). by apply Forall_app in Hba as [_ ?].
Qed.

(** A page pipe without pages, over images with all of them. *)
Lemma pipe_inv_empty off0 pp x pipes woff S H v N : chunk_pipe woff pp -> 0 <= woff -> 0 <= off0 -> aligned off0 -> stored_addrs pp = [] -> hole_pages pp = [] ->
  image_ok off0 x S H v -> (forall p, pipe_get pipes p = []) -> free_iov pp <= zlen S + zlen H -> nr_iovs pp = N -> pipe_inv off0 pp x pipes woff S H v N.
Proof.
  intros Hcp Hw H0 Ha Es Eh Him Hem Hf Hn. assert (Ea : hole_addrs pp = []) by (unfold hole_addrs; by rewrite Eh). pose proof Him as [J1 (cur & Hx & Hcur) J3 J4 J5].
  split; [done| |rewrite Es, Ea; constructor|done|done]. exists S, H, cur. rewrite Es, Ea, !app_nil_r. split; [done|]. split; [done|].
  split; [split; try done; exists cur; split; [done|lia]|]. split; [done|]. split; [|lia]. split; rewrite ?Es, ?Ea, ?Eh; try (split; constructor); try constructor; try done; [lia|].
  intros a Hin. by apply elem_of_nil in Hin.
Qed.

(** Pages and holes more, above [v]. *)
Lemma pipe_inv_add off0 pp pp' x pipes woff S H v N s h e : pipe_inv off0 pp x pipes woff S H v N -> chunk_pipe woff pp' ->
  stored_addrs pp' = stored_addrs pp ++ s -> hole_addrs pp' = hole_addrs pp ++ h -> Forall (fun q => snd q = PP_HOLE_PARENT) (hole_pages pp') ->
  StronglySorted Z.lt s -> StronglySorted Z.lt h -> (forall a, a ∈ s -> a ∉ h) -> Forall (fun a => v <= a /\ a + PAGE_SIZE <= e /\ 0 < a) (s ++ h) -> v <= e ->
  nr_iovs pp' = nr_iovs pp -> free_iov pp' <= free_iov pp + zlen s + zlen h -> pipe_inv off0 pp' x pipes woff (S ++ s) (H ++ h) e N.
Proof.
  intros [D1 (S0 & H0 & cur & -> & -> & Him & Hx & [F1 [F2 F3] [F4 F5] F6 F7] & Hcur) D3 D4 (D5 & D6)] Hcp Es Eh Hfl Hss Hsh Hap Hl Hve Hn Hf.
  apply Forall_app in D3 as [B1 B2]. rewrite Forall_forall in B1, B2. apply Forall_app in Hl as [Hls Hlh]. rewrite Forall_forall in Hls, Hlh. split.
  - split; [done|by destruct D1].
  - exists S0, H0, cur. rewrite Es, Eh, !app_assoc. split; [done|]. split; [done|]. split; [done|]. split; [done|]. split; [|lia].
    split; rewrite ?Es, ?Eh.
    + done.
    + split; [|apply Forall_app; split; [done|]; apply Forall_forall; intros a Ha; destruct (Hls a Ha) as (? & _ & ?); lia].
      apply strictly_app. split; [done|]. split; [done|]. intros a b Ha Hb. specialize (B1 a Ha). destruct (Hls b Hb). unfold PAGE_SIZE in *. lia.
    + split; [|apply Forall_app; split; [done|]; apply Forall_forall; intros a Ha; destruct (Hlh a Ha) as (? & _ & ?); lia].
      apply strictly_app. split; [done|]. split; [done|]. intros a b Ha Hb. specialize (B2 a Ha). destruct (Hlh b Hb). unfold PAGE_SIZE in *. lia.
    + intros a Ha Hb. apply elem_of_app in Ha as [Ha|Ha], Hb as [Hb|Hb].
      * by apply (F6 a).
      * specialize (B1 a Ha). destruct (Hlh a Hb). unfold PAGE_SIZE in *. lia.
      * specialize (B2 a Hb). destruct (Hls a Ha). unfold PAGE_SIZE in *. lia.
      * by apply (Hap a).
    + done.
  - rewrite Es, Eh. apply Forall_forall. intros a Ha. rewrite !elem_of_app in Ha. destruct Ha as [[Ha|Ha]|[Ha|Ha]].
    + specialize (B1 a Ha). cbv beta in *. lia.
    + destruct (Hls a Ha) as (_ & ? & _). done.
    + specialize (B2 a Ha). cbv beta in *. lia.
    + destruct (Hlh a Ha) as (_ & ? & _). done.
  - done.
  - split; [|congruence]. rewrite !zlen_app in *. lia.
Qed.
End Flush.

(** *** The page pipe of a dump in chunks *)
Section Chunks.
Context (lazy_pages : bool) (getpipe : Z) (setpipe : Z -> Z).
Context (Hget : getpipe < 0 \/ PAGE_SIZE <= getpipe < 2 ^ 31) (Hset : forall n, setpipe n < 0 \/ n <= setpipe n < 2 ^ 31).

(** Created. *)
Definition first_pipe (segs : Z) (io : list iovec) (flags : Z) : page_pipe :=
  PagePipe 1 [PagePipeBuf 0 (getpipe / PAGE_SIZE) 0 0 0 0 0] [0%nat] [] (<[Z.to_nat (ppb_type lazy_pages 0) := Some 0%nat]> [None; None; None; None])
    segs 0 io 0 0 [] [] flags false.

Lemma create_chunk_first al segs given : exists r al', create_page_pipe lazy_pages getpipe setpipe al segs given PP_CHUNK_MODE = Ret (r, al') /\
  (forall pp, r = Some pp -> 0 <= getpipe /\ exists io flags, pp = first_pipe segs io flags /\ (given = Some io \/ given = None /\ zlen io = Z.max 0 segs) /\ Z.land flags PP_CHUNK_MODE <> 0) /\
  (al = [] -> 0 <= getpipe -> r <> None /\ al' = []).
Proof.
  unfold create_page_pipe. destruct (xalloc al) as [[] al1] eqn:Ea; cbn [negb]; [|eexists _, _; split; [done|]; split; [done|]; intros ->; done].
  assert (Hgo : forall io fl al1, Z.land fl PP_CHUNK_MODE <> 0 -> exists r al',
    (let! (ret, pp, al) := page_pipe_grow lazy_pages getpipe setpipe al1 (PagePipe 0 [] [] [] [None; None; None; None] segs 0 io 0 0 [] [] fl false) 0 in Ret (if ret =? 0 then Some pp else None, al)) = Ret (r, al') /\
    (forall pp, r = Some pp -> 0 <= getpipe /\ pp = first_pipe segs io fl) /\ (al1 = [] -> 0 <= getpipe -> r <> None /\ al' = [])).
  { intros io fl al2 Hfl. unfold page_pipe_grow, ppb_alloc, pp_prev_ppb. cbn [free_bufs nr_pipes]. replace (chunk_mode _) with true by (symmetry; unfold chunk_mode; cbn [pp_flags]; by apply negb_true_iff, Z.eqb_neq).
    cbn [andb Z.eqb NR_PIPES_PER_CHUNK]. destruct (xalloc al2) as [[] al3] eqn:E3; cbn [negb obind]; [|eexists _, _; split; [done|]; split; [done|]; intros ->; done].
    unfold ppb_new_pipe. destruct (xalloc al3) as [[] al4] eqn:E4; cbn [negb obind]; [|eexists _, _; split; [done|]; split; [done|]; intros ->; injection E3 as <-; done].
    destruct (Z.ltb_spec getpipe 0); cbn [negb obind]; [eexists _, _; split; [done|]; split; [done|lia]|]. eexists _, _. split; [done|]. split; [intros pp [= <-]; done|].
    intros -> _. injection E3 as <-. by injection E4 as <-. }
  destruct given as [io|]; [|destruct (xalloc al1) as [[] al2] eqn:Ea2].
  - destruct (Hgo io PP_CHUNK_MODE al1 ltac:(discriminate)) as (r & al' & -> & H1 & H2). exists r, al'. split; [done|].
    split; [|intros ->; injection Ea as <-; by apply H2]. intros pp Hp. destruct (H1 pp Hp) as [? ->]. split; [done|]. exists io, PP_CHUNK_MODE. split; [done|]. split; [by left|discriminate].
  - destruct (Hgo (replicate (Z.to_nat segs) (Iovec 0 0)) (Z.lor PP_CHUNK_MODE PP_OWN_IOVS) al2 ltac:(discriminate)) as (r & al' & -> & H1 & H2). exists r, al'. split; [done|].
    split; [|intros ->; injection Ea as <-; injection Ea2 as <-; by apply H2]. intros pp Hp. destruct (H1 pp Hp) as [? ->]. split; [done|].
    eexists _, _. split; [done|]. split; [right; split; [done|]; unfold zlen; rewrite length_replicate; lia|discriminate].
  - eexists _, _. split; [done|]. split; [done|]. intros ->. injection Ea as <-. done.
Qed.

Lemma first_pipe_ok segs io flags : 0 <= segs -> zlen io = segs -> PAGE_SIZE <= getpipe < 2 ^ 31 -> Z.land flags PP_CHUNK_MODE <> 0 ->
  let pp := first_pipe segs io flags in chunk_pipe 0 pp /\ stored_addrs pp = [] /\ hole_pages pp = [] /\ free_iov pp = 0 /\ nr_iovs pp = segs.
Proof.
  intros Hs Hio Hg Hfl pp. pose proof (pipe_pages getpipe Hg) as Hp.
  assert (Hmode : chunk_mode pp = true) by (unfold chunk_mode; cbn; by apply negb_true_iff, Z.eqb_neq).
  assert (Hb : buf_ok pp 0) by (split; cbn; try done; lia).
  assert (Hpre : pp_pre pp).
  { split; cbn [pp first_pipe bufs free_bufs iovs nr_iovs free_iov]; [apply NoDup_singleton|by apply Forall_cons_2, Forall_nil_2|constructor|lia|]. intros t id _ Hm. by rewrite Hmode in Hm. }
  split; [|split_and!; done]. split; [split; [done|]; exists [], 0%nat; split_and!; try done; constructor|]. split; [split; cbn; try done; constructor|].
  split; cbn; try done. apply Forall_cons_2; [cbn; lia|constructor].
Qed.

Lemma create_chunk_pipe al segs given : 0 <= segs -> (forall l, given = Some l -> zlen l = segs) ->
  exists r al', create_page_pipe lazy_pages getpipe setpipe al segs given PP_CHUNK_MODE = Ret (r, al') /\
    (forall pp, r = Some pp -> chunk_pipe 0 pp /\ stored_addrs pp = [] /\ hole_pages pp = [] /\ free_iov pp = 0 /\ nr_iovs pp = segs) /\
    (al = [] -> 0 <= getpipe -> r <> None /\ al' = []).
Proof.
  intros Hs Hg. destruct (create_chunk_first al segs given) as (r & al' & E & H1 & H2). exists r, al'. split; [done|]. split; [|done].
  intros pp Hr. destruct (H1 pp Hr) as (G & io & flags & -> & Hio & Hfl). apply first_pipe_ok; try done; [|destruct Hget; lia]. destruct Hio as [-> |[_ ->]]; [by apply Hg|lia].
Qed.

(** Emptied, when it was full. *)
Lemma chunk_reinit woff pp : chunk_pipe woff pp -> nr_pipes pp = NR_PIPES_PER_CHUNK ->
  exists pp', page_pipe_reinit lazy_pages getpipe setpipe pp = Ret pp' /\ free_bufs pp' <> [] /\ chunk_pipe (free_iov pp) pp' /\
    stored_addrs pp' = [] /\ hole_pages pp' = [] /\ free_iov pp' = free_iov pp /\ nr_iovs pp' = nr_iovs pp.
Proof.
  intros (Hok & Hho & Hc) H8. destruct (page_pipe_reinit_ok lazy_pages getpipe setpipe Hget Hset woff pp Hok Hc) as (pp' & E & R1 & R2 & R3 & R4 & R5 & R6 & R7 & R8).
  exists pp'. split; [done|]. split; [intros En; rewrite En, H8 in R7; unfold NR_PIPES_PER_CHUNK in R7; cbn in R7; lia|].
  assert (Eh : hole_iovs pp' = []) by (unfold holes_of in R8; injection R8 as _ E2 _ _; unfold hole_iovs; by rewrite E2).
  split; [|split; [unfold stored_addrs; by rewrite R3|]; split; [unfold hole_pages; by rewrite Eh|done]]. split; [done|]. split; [|done]. split; [|rewrite Eh; constructor].
  unfold holes_of in R8. injection R8 as E1 E2 E3 E4. rewrite E2, E3, E4. split; [pose proof (zlen_nonneg (holes pp)); lia|apply zlen_nonneg].
Qed.
End Chunks.
