(* ===== verification/PageSelect.v ===== *)
(** Which pages of a process are dumped: the cache of page attributes
    (criu/pagemap-cache.c) and the selection of pages that fills the page pipe
    ([should_dump_page], [generate_iovs] of criu/mem.c).

    The kernel is the record [kernel]: the entries of /proc/pid/pagemap, the
    answers of the PAGEMAP_SCAN ioctl and the few numbers of [kdat] that are
    used.  The process is frozen, so that both are functions of the address.
    pread() takes its answers from a list, as elsewhere; an allocation too.
    A [vma_area] has the fields of its entry that are looked at. *)
From S2P Require Import Prelude PagemapImage PageRead AsyncQueue PagePipe Compress PageXfer.

Definition PME_PRESENT : Z := 2 ^ 63.
Definition PME_SWAP : Z := 2 ^ 62.
Definition PME_FILE : Z := 2 ^ 61.
Definition PME_GUARD_REGION : Z := 2 ^ 58.
Definition PME_SOFT_DIRTY : Z := 2 ^ 55.
Definition PME_PFRAME_MASK : Z := 2 ^ 55 - 1.

Definition PAGE_IS_FILE : Z := 2 ^ 2.
Definition PAGE_IS_PRESENT : Z := 2 ^ 3.
Definition PAGE_IS_SWAPPED : Z := 2 ^ 4.
Definition PAGE_IS_PFNZERO : Z := 2 ^ 5.
Definition PAGE_IS_SOFT_DIRTY : Z := 2 ^ 7.
Definition PAGE_IS_GUARD : Z := 2 ^ 8.

Definition VMA_AREA_REGULAR : Z := 2 ^ 0.
Definition VMA_AREA_VSYSCALL : Z := 2 ^ 2.
Definition VMA_AREA_VDSO : Z := 2 ^ 3.
Definition VMA_FILE_PRIVATE : Z := 2 ^ 6.
Definition VMA_ANON_SHARED : Z := 2 ^ 8.
Definition VMA_ANON_PRIVATE : Z := 2 ^ 9.
Definition VMA_AREA_VVAR : Z := 2 ^ 12.
Definition VMA_AREA_AIORING : Z := 2 ^ 13.
Definition VMA_AREA_SHSTK : Z := 2 ^ 15.
Definition VMA_AREA_GUARD : Z := 2 ^ 16.
Definition VMA_EXT_PLUGIN : Z := 2 ^ 27.

Definition MAP_PRIVATE : Z := 0x02.
Definition MAP_ANONYMOUS : Z := 0x20.
Definition MAP_LOCKED : Z := 0x2000.
Definition MAP_HUGETLB : Z := 0x40000.

Definition COMPRESS_BLOCK : Z := 1.

(** ** The attributes of pages *)
Record page_region := PageRegion { rg_start : Z; rg_end : Z; rg_categories : Z }.

(** [flags] and [max_pages] of [struct pm_scan_arg] are 0. *)
Record pm_scan_arg := PmScanArg {
  psa_start : Z;
  psa_end : Z;
  psa_vec_len : Z;
  psa_category_inverted : Z;
  psa_category_mask : Z;
  psa_category_anyof_mask : Z;
  psa_return_mask : Z
}.

(** [k_scan]: the regions and [walk_end], or an error. *)
Record kernel := Kernel {
  k_pme : Z -> Z;
  k_scan : pm_scan_arg -> option (list page_region * Z);
  zero_page_pfn : Z;
  task_size : Z;
  has_pagemap_scan_guard_pages : bool
}.

Record vma_area := VmaArea {
  va_start : Z;
  va_end : Z;
  va_flags : Z;
  va_status : Z;
  va_prot : Z;
  va_pgoff : Z;
  va_shmid : Z
}.
Definition vma_entry_is (vma : vma_area) (s : Z) : bool := Z.land (va_status vma) s =? s.
Definition vma_area_len (vma : vma_area) : Z := u64 (va_end vma - va_start vma).

Definition PMC_SIZE : Z := 2 ^ 21.
Definition PMC_SIZE_GAP : Z := PMC_SIZE / 4.
Definition PAGE_REGIONS_MAX_NR : Z := 32768.
Definition PAGE_PFN (addr : Z) : Z := addr / PAGE_SIZE.
Definition PAGEMAP_LEN (addr : Z) : Z := u64 (PAGE_PFN addr * 8).

(** [pmc_map]: the entries of [start] to [end_] in [map]; [pmc_regs]: the first
    [regs_len] elements of [regs]; [pmc_scan]: [regs] is not NULL. *)
Record pmc_t := Pmc {
  pmc_start : Z;
  pmc_end : Z;
  pmc_fd : bool;
  pmc_map : list Z;
  pmc_map_len : Z;
  pmc_scan : bool;
  pmc_regs : list page_region;
  pmc_regs_max_len : Z;
  pmc_regs_idx : nat
}.

Definition pmc_reset : pmc_t := Pmc 0 0 false [] 0 false [] 0 0.
Definition pmc_zap (p : pmc_t) : pmc_t :=
  Pmc 0 0 (pmc_fd p) (pmc_map p) (pmc_map_len p) (pmc_scan p) (pmc_regs p) (pmc_regs_max_len p) (pmc_regs_idx p).
Definition set_window (s e : Z) (p : pmc_t) : pmc_t :=
  Pmc s e (pmc_fd p) (pmc_map p) (pmc_map_len p) (pmc_scan p) (pmc_regs p) (pmc_regs_max_len p) (pmc_regs_idx p).
Definition set_regs (l : list page_region) (e : Z) (p : pmc_t) : pmc_t :=
  Pmc (pmc_start p) e (pmc_fd p) (pmc_map p) (pmc_map_len p) (pmc_scan p) l (pmc_regs_max_len p) 0.
Definition set_map (l : list Z) (p : pmc_t) : pmc_t :=
  Pmc (pmc_start p) (pmc_end p) (pmc_fd p) l (pmc_map_len p) (pmc_scan p) (pmc_regs p) (pmc_regs_max_len p) (pmc_regs_idx p).
Definition set_idx (i : nat) (p : pmc_t) : pmc_t :=
  Pmc (pmc_start p) (pmc_end p) (pmc_fd p) (pmc_map p) (pmc_map_len p) (pmc_scan p) (pmc_regs p) (pmc_regs_max_len p) i.

Definition pmc_fini (p : pmc_t) : pmc_t := pmc_reset.

(** [scan]: PAGEMAP_SCAN is available and not disabled; [disabled]: no pagemap
    at all; [opened]: does open_proc() succeed. *)
Definition pmc_init (al : list bool) (scan disabled opened : bool) (size : Z) : bool * pmc_t * list bool :=
  let map_size := Z.max size PMC_SIZE in
  let regs_max_len := Z.min (PAGE_PFN map_size) PAGE_REGIONS_MAX_NR in
  let '(ok, al) := xalloc al in
  if negb ok || disabled || negb opened then (false, pmc_fini pmc_reset, al)
  else (true, Pmc 0 0 true [] (PAGEMAP_LEN map_size) scan [] regs_max_len 0, al).

Section Pmc.
Context (K : kernel).

(** The loop over pread(): true when the whole map was read. *)
Fixpoint map_read_loop (fuel : nat) (rd : list Z) (off size_map : Z) : outcome (bool * list Z) :=
  if off =? size_map then Ret (true, rd)
  else
    match fuel with
    | O => NoFuel
    | S fuel =>
        let '(ret, rd) := io_answer rd (size_map - off) in
        if ret <? 0 then Ret (false, rd) else map_read_loop fuel rd (off + ret) size_map
    end.

Definition pmc_fill (rd : list Z) (p : pmc_t) (start end_ : Z) : outcome (bool * pmc_t * list Z) :=
  let p := set_window start end_ p in
  let size_map := PAGEMAP_LEN (u64 (end_ - start)) in
  if pmc_map_len p <? size_map then Bug
  else if negb (pmc_fd p) then Bug
  else if pmc_scan p then
    let args := PmScanArg start end_ (pmc_regs_max_len p) (Z.lor PAGE_IS_PFNZERO PAGE_IS_FILE) (Z.lor PAGE_IS_PFNZERO PAGE_IS_FILE)
      (Z.lor PAGE_IS_PRESENT PAGE_IS_SWAPPED)
      (Z.lor (Z.lor (Z.lor PAGE_IS_PRESENT PAGE_IS_SWAPPED) PAGE_IS_SOFT_DIRTY)
        (if has_pagemap_scan_guard_pages K then PAGE_IS_GUARD else 0)) in
    match k_scan K args with
    | None => Ret (false, pmc_zap p, rd)
    | Some (regs, walk_end) => Ret (true, set_regs regs walk_end p, rd)
    end
  else
    let! (ok, rd) := map_read_loop (length rd + Z.to_nat size_map) rd 0 size_map in
    if negb ok then Ret (false, pmc_zap p, rd)
    else Ret (true, set_map (k_pme K <$> seqZ (PAGE_PFN start) (size_map / 8)) p, rd).

(** The VMAs that follow the first of the window, counted. *)
Fixpoint cached_vmas (low high : Z) (vmas : list vma_area) : outcome nat :=
  match vmas with
  | [] => Ret 0%nat
  | vma :: vmas =>
      if vma_entry_is vma VMA_AREA_GUARD then Ret 0%nat
      else if (va_start vma >? high) || (va_end vma >? high) then Ret 0%nat
      else if va_start vma <? low then Bug
      else let! n := cached_vmas low high vmas in Ret (S n)
  end.

(** [rest]: the VMAs behind [vma] in the list. *)
Definition pmc_fill_cache (disabled : bool) (rd : list Z) (p : pmc_t) (vma : vma_area) (rest : list vma_area)
    : outcome (bool * pmc_t * list Z) :=
  let low := Z.land (va_start vma) (Z.lnot (PMC_SIZE - 1)) in
  let high := Z.min (u64 (low + PMC_SIZE)) (task_size K) in
  let! end_ :=
    if negb disabled && (vma_area_len vma <? PMC_SIZE) && (u64 (va_start vma - low) <? PMC_SIZE_GAP) then
      let! n := cached_vmas low high rest in
      Ret (if (0 <? n)%nat then high else va_end vma)
    else Ret (va_end vma) in
  pmc_fill rd p (va_start vma) end_.

Definition pmc_get_map (disabled : bool) (rd : list Z) (p : pmc_t) (vma : vma_area) (rest : list vma_area)
    : outcome (bool * pmc_t * list Z) :=
  if (pmc_start p <=? va_start vma) && (pmc_end p >=? va_end vma) then Ret (true, p, rd)
  else pmc_fill_cache disabled rd p vma rest.

(** ** One page *)
Record page_info := PageInfo { next : Z; softdirty : bool }.

Definition page_is_zero (pme : Z) : bool := Z.land pme PME_PFRAME_MASK =? zero_page_pfn K.

(** The loop over the regions in front of [vaddr]: the index it stops at, and
    the region there. *)
Fixpoint skip_regs (idx : nat) (regs : list page_region) (vaddr : Z) : nat * option page_region :=
  match regs with
  | [] => (idx, None)
  | r :: regs => if vaddr <? rg_end r then (idx, Some r) else skip_regs (S idx) regs vaddr
  end.

Definition has (flags bit : Z) : bool := negb (Z.land flags bit =? 0).

Definition should_dump_page (rd : list Z) (p : pmc_t) (vma : vma_area) (vaddr : Z)
    : outcome (option page_info * pmc_t * list Z) :=
  let! (ok, p, rd) := if vaddr >=? pmc_end p then pmc_fill rd p vaddr (va_end vma) else Ret (true, p, rd) in
  if negb ok then Ret (None, p, rd)
  else if pmc_scan p then
    let '(idx, r) := skip_regs (pmc_regs_idx p) (drop (pmc_regs_idx p) (pmc_regs p)) vaddr in
    let p := set_idx idx p in
    let info :=
      match r with
      | None => PageInfo (pmc_end p) false
      | Some r =>
          if vaddr <? rg_start r then PageInfo (rg_start r) false
          else if has (rg_categories r) PAGE_IS_GUARD then PageInfo (u64 (vaddr + PAGE_SIZE)) false
          else PageInfo vaddr (has (rg_categories r) PAGE_IS_SOFT_DIRTY)
      end in
    Ret (Some info, p, rd)
  else
    match zlookup (pmc_map p) (PAGE_PFN (u64 (vaddr - pmc_start p))) with
    | None => Bug
    | Some pme =>
        let info :=
          if has pme PME_GUARD_REGION then PageInfo (u64 (vaddr + PAGE_SIZE)) false
          else if vma_entry_is vma VMA_FILE_PRIVATE && has pme PME_FILE then PageInfo (u64 (vaddr + PAGE_SIZE)) false
          else if has pme (Z.lor PME_PRESENT PME_SWAP) && negb (page_is_zero pme) then PageInfo vaddr (has pme PME_SOFT_DIRTY)
          else PageInfo (u64 (vaddr + PAGE_SIZE)) false in
        Ret (Some info, p, rd)
    end.
End Pmc.

(** ** One VMA *)
Definition should_dump_entire_vma (vma : vma_area) : bool := vma_entry_is vma VMA_AREA_VDSO || vma_entry_is vma VMA_AREA_AIORING.

Definition vma_entry_can_be_lazy (vma : vma_area) : bool :=
  has (va_flags vma) MAP_ANONYMOUS && has (va_flags vma) MAP_PRIVATE && negb (has (va_flags vma) MAP_LOCKED) &&
  negb (vma_entry_is vma VMA_AREA_VDSO) && negb (vma_entry_is vma VMA_AREA_VVAR) && negb (vma_entry_is vma VMA_AREA_VSYSCALL) &&
  negb (has (va_flags vma) MAP_HUGETLB).

Definition is_stack (thread_sp : list Z) (vaddr : Z) : bool :=
  existsb (fun sp => Z.land (Z.lxor sp vaddr) (PAGE_SIZE - 1) =? 0) thread_sp.

Record mem_opts := MemOpts { o_compress_mode : Z; o_track_mem : bool; o_img_parent : bool; o_lazy_pages : bool }.

Definition page_in_parent (o : mem_opts) (dirty : bool) : bool := o_track_mem o && o_img_parent o && negb dirty.

(** [pages[3]] and [nr_scanned]. *)
Record page_counts := PageCounts { nr_scanned : Z; nr_parent : Z; nr_lazy : Z; nr_written : Z }.
Definition count_scanned (c : page_counts) : page_counts := PageCounts (nr_scanned c + 1) (nr_parent c) (nr_lazy c) (nr_written c).
Definition count_page (st : Z) (c : page_counts) : page_counts :=
  PageCounts (nr_scanned c) (nr_parent c + (if st =? 0 then 1 else 0)) (nr_lazy c + (if st =? 1 then 1 else 0))
    (nr_written c + (if st =? 2 then 1 else 0)).

Section GenerateIovs.
Context (K : kernel) (o : mem_opts) (getpipe : Z) (setpipe : Z -> Z) (thread_sp : list Z) (vma : vma_area) (has_parent : bool).

Definition self_contained : bool := has (va_flags vma) MAP_HUGETLB || has (va_status vma) VMA_EXT_PLUGIN.
Definition force_raw : bool := negb (o_compress_mode o =? 0) && self_contained.

Definition page_flags (vaddr : Z) : Z :=
  Z.lor (if vma_entry_can_be_lazy vma && negb (is_stack thread_sp vaddr) then PPB_LAZY else 0) (if force_raw then PPB_FORCE_RAW else 0).

(** What is done with a page that is to be dumped. *)
Definition put_page (al : list bool) (pp : page_pipe) (vaddr : Z) (dirty : bool) : outcome (Z * Z * page_pipe * list bool) :=
  if has_parent && negb self_contained && page_in_parent o dirty then
    let '(ret, pp, al) := page_pipe_add_hole al pp vaddr PP_HOLE_PARENT in Ret (ret, 0, pp, al)
  else
    let! (ret, pp, al) := page_pipe_add_page (o_lazy_pages o) getpipe setpipe al pp vaddr (page_flags vaddr) in
    Ret (ret, (if has (page_flags vaddr) PPB_LAZY && o_lazy_pages o then 1 else 2), pp, al).

(** [None] as the result: [should_dump_page] failed, [*pvaddr] and the counters
    stay as they were. *)
Fixpoint generate_loop (fuel : nat) (al : list bool) (rd : list Z) (pp : page_pipe) (p : pmc_t) (vaddr : Z) (c : page_counts)
    : outcome (option Z * page_pipe * pmc_t * Z * page_counts * list bool * list Z) :=
  if vaddr >=? va_end vma then Ret (Some 0, pp, p, vaddr, c, al, rd)
  else
    match fuel with
    | O => NoFuel
    | S fuel =>
        let! (info, p, rd) := should_dump_page K rd p vma vaddr in
        match info with
        | None => Ret (None, pp, p, vaddr, c, al, rd)
        | Some info =>
            if negb (should_dump_entire_vma vma) && negb (next info =? vaddr) then
              generate_loop fuel al rd pp p (u64 (u64 (next info - PAGE_SIZE) + PAGE_SIZE)) (count_scanned c)
            else
              let! (ret, st, pp, al) := put_page al pp vaddr (softdirty info) in
              if negb (ret =? 0) then Ret (Some ret, pp, p, vaddr, c, al, rd)
              else generate_loop fuel al rd pp p (u64 (vaddr + PAGE_SIZE)) (count_scanned (count_page st c))
        end
    end.

Definition generate_iovs (al : list bool) (rd : list Z) (pp : page_pipe) (p : pmc_t) (pvaddr : Z)
    : outcome (Z * page_pipe * pmc_t * Z * page_counts * list bool * list Z) :=
  let pp := if (o_compress_mode o =? COMPRESS_BLOCK) && (pvaddr =? va_start vma) then set_break_iov true pp else pp in
  let! (ret, pp, p, vaddr, c, al, rd) :=
    generate_loop (Z.to_nat ((va_end vma - pvaddr) / PAGE_SIZE)) al rd pp p pvaddr (PageCounts 0 0 0 0) in
  match ret with
  | None => Ret (-1, pp, p, pvaddr, PageCounts 0 0 0 0, al, rd)
  | Some ret => Ret (ret, pp, p, vaddr, c, al, rd)
  end.
End GenerateIovs.

(** ** Bits *)
Lemma has_bit x n : 0 <= n -> has x (2 ^ n) = Z.testbit x n.
Proof.
  intros Hn. unfold has. destruct (Z.testbit x n) eqn:E.
  - apply negb_true_iff, Z.eqb_neq. intros H. apply (f_equal (fun z => Z.testbit z n)) in H.
    by rewrite Z.land_spec, E, Z.pow2_bits_true, Z.bits_0 in H.
  - apply negb_false_iff, Z.eqb_eq. apply Z.bits_inj'. intros k Hk. rewrite Z.land_spec, Z.bits_0, Z.pow2_bits_eqb by done.
    destruct (Z.eqb_spec n k) as [<-|]; [by rewrite E|apply andb_false_r].
Qed.

Lemma has_lor x a b : has x (Z.lor a b) = has x a || has x b.
Proof.
  unfold has. rewrite Z.land_lor_distr_r. destruct (Z.eqb_spec (Z.land x a) 0) as [->|Ha]; [by rewrite Z.lor_0_l|].
  cbn [negb orb]. apply negb_true_iff, Z.eqb_neq. intros H. apply Z.lor_eq_0_iff in H as [? _]. done.
Qed.

Lemma has_land x m b : Z.land m b = b -> has (Z.land x m) b = has x b.
Proof. intros H. unfold has. by rewrite <- Z.land_assoc, H. Qed.

Lemma has_land_none x m b : Z.land m b = 0 -> has (Z.land x m) b = false.
Proof. intros H. unfold has. by rewrite <- Z.land_assoc, H, Z.land_0_r. Qed.

(** ** What PAGEMAP_SCAN promises *)

(** The documented meaning of the masks: a page is reported when its categories,
    some of them inverted, match. *)
Definition interesting (args : pm_scan_arg) (categories : Z) : bool :=
  let c := Z.lxor categories (psa_category_inverted args) in
  (Z.land c (psa_category_mask args) =? psa_category_mask args) &&
  ((psa_category_anyof_mask args =? 0) || has c (psa_category_anyof_mask args)).

(** Regions of whole pages between [lo] and [hi], ascending and apart. *)
Fixpoint regs_ok (lo : Z) (regs : list page_region) (hi : Z) : Prop :=
  match regs with
  | [] => lo <= hi
  | r :: regs => lo <= rg_start r < rg_end r /\ rg_start r mod PAGE_SIZE = 0 /\ rg_end r mod PAGE_SIZE = 0 /\ regs_ok (rg_end r) regs hi
  end.
Definition in_region (a : Z) (r : page_region) : Prop := rg_start r <= a < rg_end r.

(** [cats a]: the categories of the page at [a].  The scan makes progress, stops
    at a page boundary, and reports exactly the interesting pages it passed. *)
Record scan_ok (K : kernel) (cats : Z -> Z) : Prop := ScanOk {
  so_end : forall args regs walk_end, psa_start args < psa_end args -> psa_start args mod PAGE_SIZE = 0 -> psa_end args mod PAGE_SIZE = 0 ->
    0 < psa_vec_len args -> k_scan K args = Some (regs, walk_end) ->
    psa_start args < walk_end <= psa_end args /\ walk_end mod PAGE_SIZE = 0 /\ regs_ok (psa_start args) regs walk_end /\
    (forall r a, r ∈ regs -> a mod PAGE_SIZE = 0 -> in_region a r -> interesting args (cats a) = true /\ rg_categories r = Z.land (cats a) (psa_return_mask args)) /\
    (forall a, a mod PAGE_SIZE = 0 -> psa_start args <= a < walk_end -> interesting args (cats a) = true -> exists r, r ∈ regs /\ in_region a r)
}.

(** The arguments of [pmc_fill]. *)
Definition fill_mask (K : kernel) : Z :=
  Z.lor (Z.lor (Z.lor PAGE_IS_PRESENT PAGE_IS_SWAPPED) PAGE_IS_SOFT_DIRTY) (if has_pagemap_scan_guard_pages K then PAGE_IS_GUARD else 0).
Definition fill_args (K : kernel) (start end_ n : Z) : pm_scan_arg :=
  PmScanArg start end_ n (Z.lor PAGE_IS_PFNZERO PAGE_IS_FILE) (Z.lor PAGE_IS_PFNZERO PAGE_IS_FILE) (Z.lor PAGE_IS_PRESENT PAGE_IS_SWAPPED) (fill_mask K).

Lemma interesting_fill K start end_ n c :
  interesting (fill_args K start end_ n) c = negb (Z.testbit c 5) && negb (Z.testbit c 2) && (Z.testbit c 3 || Z.testbit c 4).
Proof.
  unfold interesting, fill_args. cbn [psa_category_inverted psa_category_mask psa_category_anyof_mask].
  set (m := Z.lor PAGE_IS_PFNZERO PAGE_IS_FILE).
  assert (E1 : (Z.land (Z.lxor c m) m =? m) = negb (Z.testbit c 5) && negb (Z.testbit c 2)).
  { assert (Em : has c m = Z.testbit c 5 || Z.testbit c 2) by (unfold m; rewrite has_lor; unfold PAGE_IS_PFNZERO, PAGE_IS_FILE; by rewrite !has_bit).
    rewrite <- negb_orb, <- Em. unfold has. rewrite negb_involutive.
    assert (Ex : Z.land (Z.lxor c m) m = Z.lxor (Z.land c m) m).
    { apply Z.bits_inj'. intros i _. rewrite Z.land_spec, !Z.lxor_spec, Z.land_spec. by destruct (Z.testbit c i), (Z.testbit m i). }
    rewrite Ex. destruct (Z.eqb_spec (Z.land c m) 0) as [->|Hne]; [by rewrite Z.lxor_0_l, Z.eqb_refl|].
    apply Z.eqb_neq. intros H. apply Hne. apply (f_equal (fun z => Z.lxor z m)) in H. by rewrite Z.lxor_assoc, Z.lxor_nilpotent, Z.lxor_0_r in H. }
  rewrite E1. f_equal. change (Z.lor PAGE_IS_PRESENT PAGE_IS_SWAPPED =? 0) with false. cbn [orb]. rewrite has_lor. unfold PAGE_IS_PRESENT, PAGE_IS_SWAPPED.
  rewrite !has_bit, !Z.lxor_spec by lia. change (Z.testbit m 3) with false. change (Z.testbit m 4) with false. by rewrite !xorb_false_r.
Qed.

(** ** What is selected *)
Section Select.
Context (K : kernel) (cats : Z -> Z) (Hscan : scan_ok K cats).

(** The page at [a] has contents of its own: by its categories, and by its
    pagemap entry. *)
Definition want_scan (a : Z) : bool :=
  negb (Z.testbit (cats a) 5) && negb (Z.testbit (cats a) 2) && (Z.testbit (cats a) 3 || Z.testbit (cats a) 4) &&
  negb (has_pagemap_scan_guard_pages K && Z.testbit (cats a) 8).
Definition want_map (vma : vma_area) (a : Z) : bool :=
  let pme := k_pme K (PAGE_PFN a) in
  negb (Z.testbit pme 58) && negb (vma_entry_is vma VMA_FILE_PRIVATE && Z.testbit pme 61) &&
  (Z.testbit pme 63 || Z.testbit pme 62) && negb (page_is_zero K pme).
Definition want (scan : bool) (vma : vma_area) (a : Z) : bool := if scan then want_scan a else want_map vma a.
Definition dirty (scan : bool) (a : Z) : bool := if scan then Z.testbit (cats a) 7 else Z.testbit (k_pme K (PAGE_PFN a)) 55.

(** The window of the cache, for the addresses from [v] on. *)
Record pmc_at (p : pmc_t) (v : Z) : Prop := PmcAt {
  pa_window : 0 <= pmc_start p <= pmc_end p /\ pmc_end p < 2 ^ 64 /\ pmc_start p <= v;
  pa_aligned : pmc_start p mod PAGE_SIZE = 0 /\ pmc_end p mod PAGE_SIZE = 0;
  pa_fd : pmc_fd p = true;
  pa_vec : 0 < pmc_regs_max_len p;
  pa_map : pmc_scan p = false -> pmc_map p = k_pme K <$> seqZ (PAGE_PFN (pmc_start p)) (PAGE_PFN (pmc_end p - pmc_start p));
  pa_regs : pmc_scan p = true -> regs_ok (pmc_start p) (pmc_regs p) (pmc_end p) /\
    (forall r a, r ∈ pmc_regs p -> a mod PAGE_SIZE = 0 -> in_region a r ->
       interesting (fill_args K 0 0 0) (cats a) = true /\ rg_categories r = Z.land (cats a) (fill_mask K)) /\
    (forall a, a mod PAGE_SIZE = 0 -> pmc_start p <= a < pmc_end p -> interesting (fill_args K 0 0 0) (cats a) = true -> exists r, r ∈ pmc_regs p /\ in_region a r) /\
    Forall (fun r => rg_end r <= v) (take (pmc_regs_idx p) (pmc_regs p))
}.

(** What a call leaves alone. *)
Definition same_cache (p p' : pmc_t) : Prop :=
  pmc_scan p' = pmc_scan p /\ pmc_map_len p' = pmc_map_len p.

Lemma pmc_at_mono p v v' : pmc_at p v -> v <= v' -> pmc_at p v'.
Proof.
  intros [A1 A2 A3 A4 A5 A6] Hv. split; try done; [lia|]. intros Hs. destruct (A6 Hs) as (B1 & B2 & B3 & B4). split_and!; try done.
  eapply Forall_impl; [exact B4|]. cbn. lia.
Qed.

Lemma map_read_loop_ok size fuel : forall rd off, 0 <= off <= size -> (length rd + Z.to_nat (size - off) <= fuel)%nat ->
  exists ok rd', map_read_loop fuel rd off size = Ret (ok, rd') /\ (rd = [] -> ok = true /\ rd' = []).
Proof.
  induction fuel as [|fuel IH]; intros rd off Ho Hf; cbn [map_read_loop]; destruct (Z.eqb_spec off size) as [->|Hne].
  - eexists _, _. split; [done|]. done.
  - lia.
  - eexists _, _. split; [done|]. done.
  - destruct (io_answer rd (size - off)) as [ret l] eqn:Ea. destruct (io_answer_range _ _ _ _ Ea) as (A1 & A2 & A3 & A4).
    destruct (Z.ltb_spec ret 0); [eexists _, _; split; [done|]; intros Hr; destruct (A2 Hr); lia|].
    destruct (IH l (off + ret)) as (ok & rd' & -> & H1); [lia| |].
    + destruct rd as [|x rd]; [destruct (A2 eq_refl) as [-> ->]; simpl; lia|]. specialize (A3 ltac:(done)). simpl in *. lia.
    + exists ok, rd'. split; [done|]. intros Hr. apply H1. by destruct (A2 Hr).
Qed.

(** A calm kernel answers every call. *)
Definition calm_kernel : Prop := forall args, k_scan K args <> None.

Lemma page_pfn_sub a b : a mod PAGE_SIZE = 0 -> b mod PAGE_SIZE = 0 -> PAGE_PFN (b - a) * PAGE_SIZE = b - a.
Proof.
  intros Ha Hb. unfold PAGE_PFN, PAGE_SIZE in *. assert (Hm : (b - a) mod 4096 = 0) by (rewrite Zminus_mod, Ha, Hb; done).
  pose proof (Z.div_mod (b - a) 4096 ltac:(lia)). lia.
Qed.

Lemma pagemap_len a b : 0 <= a < b -> b < 2 ^ 64 -> PAGEMAP_LEN (u64 (b - a)) = PAGE_PFN (b - a) * 8.
Proof.
  intros H1 H2. rewrite u64_small by lia. unfold PAGEMAP_LEN. apply u64_small. unfold PAGE_PFN, PAGE_SIZE.
  pose proof (Z.mul_div_le (b - a) 4096 ltac:(lia)). pose proof (Z.div_pos (b - a) 4096). lia.
Qed.

Lemma pmc_fill_ok rd p start end_ : 0 <= start < end_ -> end_ < 2 ^ 64 -> start mod PAGE_SIZE = 0 -> end_ mod PAGE_SIZE = 0 ->
  pmc_fd p = true -> 0 < pmc_regs_max_len p -> PAGE_PFN (end_ - start) * 8 <= pmc_map_len p ->
  exists ok p' rd', pmc_fill K rd p start end_ = Ret (ok, p', rd') /\ same_cache p p' /\
    (ok = true -> pmc_at p' start /\ pmc_start p' = start /\ start < pmc_end p' <= end_ /\ (pmc_scan p = false -> pmc_end p' = end_)) /\
    (calm_kernel -> rd = [] -> ok = true /\ rd' = []).
Proof.
  intros H1 H2 H3 H4 Hfd Hvec Hlen. unfold pmc_fill. cbn [pmc_map_len pmc_fd pmc_scan pmc_regs_max_len set_window].
  rewrite pagemap_len by lia. destruct (Z.ltb_spec (pmc_map_len p) (PAGE_PFN (end_ - start) * 8)); [lia|]. rewrite Hfd. cbn [negb].
  destruct (pmc_scan p) eqn:Es.
  - fold (fill_mask K). fold (fill_args K start end_ (pmc_regs_max_len p)). destruct (k_scan K _) as [[regs we]|] eqn:Ek.
    + eexists _, _, _. split; [done|]. split; [done|]. split; [intros _|done].
      destruct (so_end _ _ Hscan (fill_args K start end_ (pmc_regs_max_len p)) regs we ltac:(cbn; lia) H3 H4 Hvec Ek) as (S1 & S2 & S3 & S4 & S5). cbn [psa_start psa_end fill_args] in *.
      split; [|cbn; lia]. split; cbn [pmc_start pmc_end pmc_fd pmc_regs_max_len pmc_scan pmc_regs pmc_regs_idx set_regs set_window]; try done; try lia; try congruence.
    + eexists _, _, _. split; [done|]. split; [done|]. split; [done|]. intros Hc. by destruct (Hc _ Ek).
  - assert (Hpos : 0 <= PAGE_PFN (end_ - start)) by (unfold PAGE_PFN, PAGE_SIZE; apply Z.div_pos; lia).
    destruct (map_read_loop_ok (PAGE_PFN (end_ - start) * 8) (length rd + Z.to_nat (PAGE_PFN (end_ - start) * 8)) rd 0) as (ok & rd' & -> & HC); [lia|lia|].
    cbn [obind]. destruct ok; cbn [negb]; [|eexists _, _, _; split; [done|]; split; [done|]; split; [done|]; intros _ Hr; by destruct (HC Hr)].
    eexists _, _, _. split; [done|]. split; [done|]. split; [intros _|intros _ Hr; by destruct (HC Hr)]. split; [|cbn; lia].
    split; cbn [pmc_start pmc_end pmc_fd pmc_regs_max_len pmc_scan pmc_map set_map set_window]; try done; try lia; try congruence.
    intros _. by rewrite Z.div_mul.
Qed.

Lemma skip_regs_ok v regs : forall idx i r, skip_regs idx regs v = (i, r) ->
  exists k, i = (idx + k)%nat /\ Forall (fun r => rg_end r <= v) (take k regs) /\ r = regs !! k /\ (forall x, r = Some x -> v < rg_end x).
Proof.
  induction regs as [|x regs IH]; intros idx i r; cbn [skip_regs].
  - intros [= <- <-]. exists 0%nat. rewrite Nat.add_0_r. split_and!; try done; by apply Forall_nil_2.
  - destruct (Z.ltb_spec v (rg_end x)).
    + intros [= <- <-]. exists 0%nat. rewrite Nat.add_0_r. split_and!; try done; congruence.
    + intros E. destruct (IH _ _ _ E) as (k & -> & H1 & H2 & H3). exists (S k). split_and!; try done; [lia|]. by apply Forall_cons_2.
Qed.

Lemma regs_ok_split l1 x l2 lo hi : regs_ok lo (l1 ++ x :: l2) hi -> lo <= hi /\
  lo <= rg_start x < rg_end x /\ rg_end x <= hi /\ rg_start x mod PAGE_SIZE = 0 /\ Forall (fun r => rg_end x <= rg_start r) l2.
Proof.
  revert lo. induction l1 as [|y l1 IH]; intros lo; cbn [app regs_ok].
  - intros (H1 & H2 & H3 & H4).
    assert (Hl : forall l lo, regs_ok lo l hi -> lo <= hi /\ Forall (fun r => lo <= rg_start r) l).
    { clear. induction l as [|y l IH]; intros lo; cbn [regs_ok]; [done|]. intros (G1 & G2 & G3 & G4). destruct (IH _ G4) as [I1 I2].
      split; [lia|]. apply Forall_cons_2; [lia|]. eapply Forall_impl; [exact I2|]. cbn. lia. }
    destruct (Hl _ _ H4). split_and!; try done; lia.
  - intros (H1 & H2 & H3 & H4). destruct (IH _ H4) as (I1 & I2 & I3 & I4 & I5). split_and!; try done; lia.
Qed.

(** A region that is gone does not hold [a]. *)
Lemma not_in_gone a v l : v <= a -> Forall (fun r => rg_end r <= v) l -> forall r, r ∈ l -> ~ in_region a r.
Proof. intros Hv Hl r Hr [_ H]. rewrite Forall_forall in Hl. specialize (Hl r Hr). cbn in Hl. lia. Qed.

Lemma want_scan_interesting a : want_scan a = interesting (fill_args K 0 0 0) (cats a) && negb (has_pagemap_scan_guard_pages K && Z.testbit (cats a) 8).
Proof. unfold want_scan. by rewrite interesting_fill. Qed.

Lemma region_bits c : has (Z.land c (fill_mask K)) PAGE_IS_GUARD = has_pagemap_scan_guard_pages K && Z.testbit c 8 /\
  has (Z.land c (fill_mask K)) PAGE_IS_SOFT_DIRTY = Z.testbit c 7.
Proof.
  unfold fill_mask. destruct (has_pagemap_scan_guard_pages K).
  - rewrite !has_land by done. split; by apply has_bit.
  - rewrite has_land_none, has_land by done. split; [done|by apply has_bit].
Qed.

(** The answer for a page of the window. *)
Definition answer_ok (scan : bool) (vma : vma_area) (v : Z) (i : page_info) : Prop :=
  v <= next i < 2 ^ 64 /\ next i mod PAGE_SIZE = 0 /\ (next i = v <-> want scan vma v = true) /\
  softdirty i = want scan vma v && dirty scan v /\ forall a, a mod PAGE_SIZE = 0 -> v <= a < next i -> want scan vma a = false.

Lemma next_page v : v mod PAGE_SIZE = 0 -> (v + PAGE_SIZE) mod PAGE_SIZE = 0 /\ forall a, a mod PAGE_SIZE = 0 -> v <= a < v + PAGE_SIZE -> a = v.
Proof.
  intros Hv. split; [rewrite Zplus_mod, Hv; done|]. intros a Ha Hr. unfold PAGE_SIZE in *.
  pose proof (Z.div_mod a 4096 ltac:(lia)). pose proof (Z.div_mod v 4096 ltac:(lia)). lia.
Qed.

Lemma answer_skip scan vma v : v mod PAGE_SIZE = 0 -> 0 <= v -> v + PAGE_SIZE < 2 ^ 64 -> want scan vma v = false ->
  answer_ok scan vma v (PageInfo (u64 (v + PAGE_SIZE)) false).
Proof.
  intros Hv H0 Hb Hw. destruct (next_page v Hv) as [N1 N2]. unfold answer_ok. cbn [next softdirty]. rewrite u64_small by (unfold PAGE_SIZE in *; lia). rewrite Hw.
  split_and!; try done; try (unfold PAGE_SIZE in *; lia).
  intros a Ha Hr. by rewrite (N2 a Ha Hr).
Qed.

Lemma answer_take scan vma v d : v mod PAGE_SIZE = 0 -> 0 <= v -> v + PAGE_SIZE < 2 ^ 64 -> want scan vma v = true -> d = dirty scan v ->
  answer_ok scan vma v (PageInfo v d).
Proof.
  intros Hv H0 Hb Hw ->. unfold answer_ok. cbn [next softdirty]. rewrite Hw. split_and!; try done; unfold PAGE_SIZE in *; lia.
Qed.

(** Nothing is reported between [v] and [n]. *)
Lemma answer_jump vma v n : v < n < 2 ^ 64 -> n mod PAGE_SIZE = 0 -> v mod PAGE_SIZE = 0 ->
  (forall a, a mod PAGE_SIZE = 0 -> v <= a < n -> interesting (fill_args K 0 0 0) (cats a) = false) -> answer_ok true vma v (PageInfo n false).
Proof.
  intros Hn Hna Hv Hno. assert (Hw : forall a, a mod PAGE_SIZE = 0 -> v <= a < n -> want_scan a = false).
  { intros a Ha Hr. by rewrite want_scan_interesting, Hno. }
  unfold answer_ok. cbn [next softdirty want]. rewrite (Hw v) by (done || lia). split_and!; try done; lia.
Qed.

Lemma scan_answer p vma v i r : pmc_at p v -> pmc_scan p = true -> v mod PAGE_SIZE = 0 -> 0 <= v < pmc_end p -> v + PAGE_SIZE < 2 ^ 64 ->
  skip_regs (pmc_regs_idx p) (drop (pmc_regs_idx p) (pmc_regs p)) v = (i, r) ->
  pmc_at (set_idx i p) v /\
  answer_ok true vma v match r with
    | None => PageInfo (pmc_end p) false
    | Some r => if v <? rg_start r then PageInfo (rg_start r) false
                else if has (rg_categories r) PAGE_IS_GUARD then PageInfo (u64 (v + PAGE_SIZE)) false
                else PageInfo v (has (rg_categories r) PAGE_IS_SOFT_DIRTY)
    end.
Proof.
  intros [A1 A2 A3 A4 A5 A6] Hs Hv Hr Hb Hk. destruct (A6 Hs) as (R1 & R2 & R3 & R4).
  destruct (skip_regs_ok _ _ _ _ _ Hk) as (k & -> & S1 & S2 & S3).
  assert (Hgone : Forall (fun r => rg_end r <= v) (take (pmc_regs_idx p + k) (pmc_regs p))).
  { rewrite <- take_take_drop. apply Forall_app. done. }
  split; [by split|]. rewrite lookup_drop in S2. destruct r as [x|].
  - destruct (regs_ok_split (take (pmc_regs_idx p + k) (pmc_regs p)) x (drop (S (pmc_regs_idx p + k)) (pmc_regs p)) (pmc_start p) (pmc_end p)) as (_ & X1 & X2 & X3 & X4).
    { by rewrite take_drop_middle. }
    specialize (S3 x eq_refl). assert (Hx : x ∈ pmc_regs p) by (by eapply list_elem_of_lookup_2).
    destruct (Z.ltb_spec v (rg_start x)) as [Hlt|Hge].
    + apply answer_jump; try done; [lia|]. intros a Ha Har. destruct (interesting _ (cats a)) eqn:Ei; [|done]. exfalso.
      destruct (R3 a Ha ltac:(lia) Ei) as (r' & Hr' & Hin). rewrite <- (take_drop_middle _ _ _ (eq_sym S2)) in Hr'.
      apply elem_of_app in Hr' as [Hr'|Hr']; [by apply (not_in_gone a v _ ltac:(lia) Hgone r')|].
      apply elem_of_cons in Hr' as [->|Hr']; [destruct Hin; lia|]. rewrite Forall_forall in X4. specialize (X4 r' Hr'). destruct Hin. cbn in X4. lia.
    + destruct (R2 x v Hx Hv ltac:(split; lia)) as [Hi ->]. destruct (region_bits (cats v)) as [-> ->].
      pose proof (want_scan_interesting v) as Hw. rewrite Hi in Hw. destruct (has_pagemap_scan_guard_pages K && Z.testbit (cats v) 8).
      * by apply answer_skip; [|lia| |].
      * by apply answer_take; [|lia| | |].
  - apply answer_jump; [lia|apply A2|done|]. intros a Ha Har. destruct (interesting _ (cats a)) eqn:Ei; [|done]. exfalso.
    destruct (R3 a Ha ltac:(lia) Ei) as (r' & Hr' & Hin). symmetry in S2. apply lookup_ge_None_1 in S2. rewrite take_ge in Hgone by lia.
    by apply (not_in_gone a v _ ltac:(lia) Hgone r').
Qed.

Lemma map_answer vma v : v mod PAGE_SIZE = 0 -> 0 <= v -> v + PAGE_SIZE < 2 ^ 64 ->
  let pme := k_pme K (PAGE_PFN v) in
  answer_ok false vma v
    (if has pme PME_GUARD_REGION then PageInfo (u64 (v + PAGE_SIZE)) false
     else if vma_entry_is vma VMA_FILE_PRIVATE && has pme PME_FILE then PageInfo (u64 (v + PAGE_SIZE)) false
     else if has pme (Z.lor PME_PRESENT PME_SWAP) && negb (page_is_zero K pme) then PageInfo v (has pme PME_SOFT_DIRTY)
     else PageInfo (u64 (v + PAGE_SIZE)) false).
Proof.
  intros Hv H0 Hb pme. rewrite has_lor. unfold PME_GUARD_REGION, PME_FILE, PME_PRESENT, PME_SWAP, PME_SOFT_DIRTY. rewrite !has_bit by lia.
  pose proof (eq_refl (want_map vma v)) as Hw. unfold want_map at 2 in Hw. fold pme in Hw.
  destruct (Z.testbit pme 58); [by apply answer_skip|]. destruct (vma_entry_is vma VMA_FILE_PRIVATE && Z.testbit pme 61); [by apply answer_skip|].
  destruct (Z.testbit pme 63 || Z.testbit pme 62); cbn [andb negb] in *; [|by apply answer_skip].
  destruct (page_is_zero K pme); cbn [negb] in *; [by apply answer_skip|by apply answer_take].
Qed.

Lemma should_dump_page_ok rd p vma v : pmc_at p v -> v mod PAGE_SIZE = 0 -> 0 <= v < va_end vma -> va_end vma + PAGE_SIZE < 2 ^ 64 ->
  va_end vma mod PAGE_SIZE = 0 -> PAGE_PFN (va_end vma - v) * 8 <= pmc_map_len p ->
  exists info p' rd', should_dump_page K rd p vma v = Ret (info, p', rd') /\ same_cache p p' /\
    (calm_kernel -> rd = [] -> info <> None /\ rd' = []) /\ (forall i, info = Some i -> pmc_at p' v /\ answer_ok (pmc_scan p) vma v i).
Proof.
  intros Hp Hv Hr Hb He Hl. unfold should_dump_page.
  assert (Hfill : exists ok p1 rd1, (if v >=? pmc_end p then pmc_fill K rd p v (va_end vma) else Ret (true, p, rd)) = Ret (ok, p1, rd1) /\ same_cache p p1 /\
    (calm_kernel -> rd = [] -> ok = true /\ rd1 = []) /\ (ok = true -> pmc_at p1 v /\ v < pmc_end p1)).
  { rewrite Z.geb_leb. destruct (Z.leb_spec (pmc_end p) v).
    - destruct (pmc_fill_ok rd p v (va_end vma) Hr ltac:(unfold PAGE_SIZE in *; lia) Hv He (pa_fd _ _ Hp) (pa_vec _ _ Hp) Hl) as (ok & p1 & rd1 & -> & F1 & F2 & F3).
      exists ok, p1, rd1. split; [done|]. split; [done|]. split; [done|]. intros Hok. destruct (F2 Hok) as (G1 & G2 & G3 & _). split; [done|lia].
    - exists true, p, rd. by split_and!. }
  destruct Hfill as (ok & p1 & rd1 & -> & Hs & Hc & Hok). cbn [obind]. destruct ok; cbn [negb].
  2:{ eexists _, _, _. split; [done|]. split; [done|]. split; [|done]. intros Hca Hrd. by destruct (Hc Hca Hrd). }
  destruct (Hok eq_refl) as [H1 H2]. clear Hok. destruct Hs as [Hs Hsl]. rewrite <- Hs. destruct (pmc_scan p1) eqn:Es.
  - destruct (skip_regs (pmc_regs_idx p1) (drop (pmc_regs_idx p1) (pmc_regs p1)) v) as [i r] eqn:Ek.
    destruct (scan_answer p1 vma v i r H1 Es Hv ltac:(lia) ltac:(unfold PAGE_SIZE in *; lia) Ek) as [G1 G2].
    eexists _, _, _. split; [done|]. split; [by split; cbn; [congruence|]|]. split; [intros Hca Hrd; by destruct (Hc Hca Hrd)|].
    intros info [= <-]. split; [done|exact G2].
  - destruct (H1) as [(A1 & A1' & A1'') [A2 A2'] A3 A4 A5 A6]. specialize (A5 Es).
    assert (Hlk : zlookup (pmc_map p1) (PAGE_PFN (u64 (v - pmc_start p1))) = Some (k_pme K (PAGE_PFN v))).
    { rewrite u64_small by lia. pose proof (page_pfn_sub (pmc_start p1) v A2 Hv) as E1. pose proof (page_pfn_sub (pmc_start p1) (pmc_end p1) A2 A2') as E2.
      assert (E3 : PAGE_PFN v = PAGE_PFN (pmc_start p1) + PAGE_PFN (v - pmc_start p1)).
      { unfold PAGE_PFN, PAGE_SIZE in *. pose proof (Z.div_mod v 4096 ltac:(lia)). pose proof (Z.div_mod (pmc_start p1) 4096 ltac:(lia)). lia. }
      unfold PAGE_SIZE in E1, E2. rewrite A5. rewrite <- (Z2Nat.id (PAGE_PFN (v - pmc_start p1))) at 1 by lia. rewrite zlookup_of_nat, list_lookup_fmap.
      rewrite lookup_seqZ_lt by lia. cbn. f_equal. f_equal. lia. }
    rewrite Hlk. eexists _, _, _. split; [done|]. split; [split; congruence|]. split; [intros Hca Hrd; by destruct (Hc Hca Hrd)|].
    intros info [= <-]. split; [done|]. apply map_answer; [done|lia|unfold PAGE_SIZE in *; lia].
Qed.
End Select.

(** ** The loop over a VMA *)

(** The pages from [v] to [e]. *)
Definition pages_in_range (v e : Z) : list Z := iov_pages (Iovec v (e - v)).

Lemma pages_range_nil v e : e <= v -> pages_in_range v e = [].
Proof.
  intros H. unfold pages_in_range, iov_pages. cbn [iov_len iov_base].
  assert ((e - v) / PAGE_SIZE <= 0) by (unfold PAGE_SIZE; apply Z.div_le_upper_bound; lia). by rewrite seqZ_nil.
Qed.

Lemma pages_range_cons v e : v < e -> v mod PAGE_SIZE = 0 -> e mod PAGE_SIZE = 0 -> pages_in_range v e = v :: pages_in_range (v + PAGE_SIZE) e.
Proof.
  intros H Hv He. pose proof (page_pfn_sub v e Hv He) as E. unfold pages_in_range, iov_pages. cbn [iov_len iov_base]. fold (PAGE_PFN (e - v)).
  rewrite seqZ_cons by (unfold PAGE_SIZE in *; lia). rewrite fmap_cons. f_equal; [lia|].
  replace ((e - (v + PAGE_SIZE)) / PAGE_SIZE) with (Z.pred (PAGE_PFN (e - v))).
  2:{ replace (e - (v + PAGE_SIZE)) with (Z.pred (PAGE_PFN (e - v)) * PAGE_SIZE) by (unfold PAGE_SIZE in *; lia). by rewrite Z.div_mul. }
  change (Z.succ 0) with (1 + 0). rewrite <- (fmap_add_seqZ 1 0), <- list_fmap_compose. apply list_fmap_ext. intros _ j _. cbn. lia.
Qed.

(** Pages that are not selected do not count. *)
Lemma pages_skip (f : Z -> bool) n e : e mod PAGE_SIZE = 0 -> n mod PAGE_SIZE = 0 -> forall m v, v = n - Z.of_nat m * PAGE_SIZE ->
  (forall a, a mod PAGE_SIZE = 0 -> v <= a < n -> f a = false) ->
  filter (fun a => f a = true) (pages_in_range v e) = filter (fun a => f a = true) (pages_in_range n e).
Proof.
  intros He Hn. induction m as [|m IH]; intros v Hv Hf; [by replace v with n by lia|].
  assert (Hva : v mod PAGE_SIZE = 0).
  { rewrite Hv, Zminus_mod, Hn, Z.mod_mul by done. done. }
  destruct (Z.lt_ge_cases v e) as [Hlt|Hge]; [|rewrite !pages_range_nil by (unfold PAGE_SIZE in *; lia); done].
  rewrite pages_range_cons by done. rewrite filter_cons_False.
  - apply IH; [unfold PAGE_SIZE in *; lia|]. intros a Ha Hr. apply Hf; [done|unfold PAGE_SIZE in *; lia].
  - rewrite Hf; [done|done|unfold PAGE_SIZE in *; lia].
Qed.

Lemma elem_pages_range a v e : v mod PAGE_SIZE = 0 -> e mod PAGE_SIZE = 0 -> a ∈ pages_in_range v e -> v <= a < e /\ a mod PAGE_SIZE = 0.
Proof.
  intros Hv He Ha. pose proof (page_pfn_sub v e Hv He) as E. unfold pages_in_range, iov_pages in Ha. cbn [iov_len iov_base] in Ha. fold (PAGE_PFN (e - v)) in Ha.
  apply list_elem_of_fmap_1 in Ha as (j & -> & Hj). apply elem_of_seqZ in Hj. split; [unfold PAGE_SIZE in *; lia|].
  by rewrite Zplus_mod, Hv, Z.mod_mul.
Qed.

(** The page counts, without the pages scanned. *)
Definition same_counts (c c' : page_counts) : Prop := nr_parent c = nr_parent c' /\ nr_lazy c = nr_lazy c' /\ nr_written c = nr_written c'.

Section Generate.
Context (K : kernel) (cats : Z -> Z) (Hscan : scan_ok K cats).
Context (o : mem_opts) (getpipe : Z) (setpipe : Z -> Z) (thread_sp : list Z) (vma : vma_area) (has_parent : bool).

(** The pages of the VMA that are dumped, and those of them that were written
    to since the last dump. *)
Definition selected (scan : bool) (a : Z) : bool := should_dump_entire_vma vma || want K cats scan vma a.
Definition changed (scan : bool) (a : Z) : bool := want K cats scan vma a && dirty K cats scan a.

(** Reference: one page after the other, until one does not fit; the last
    component of the answer is that page. *)
Fixpoint put_pages (d : Z -> bool) (al : list bool) (pp : page_pipe) (c : page_counts) (l : list Z)
    : outcome (Z * option Z * page_pipe * page_counts * list bool) :=
  match l with
  | [] => Ret (0, None, pp, c, al)
  | a :: l =>
      let! (ret, st, pp, al) := put_page o getpipe setpipe thread_sp vma has_parent al pp a (d a) in
      if negb (ret =? 0) then Ret (ret, Some a, pp, c, al) else put_pages d al pp (count_page st c) l
  end.

Record vma_ok : Prop := VmaOk {
  vo_range : 0 <= va_start vma < va_end vma /\ va_end vma + PAGE_SIZE < 2 ^ 64;
  vo_aligned : va_start vma mod PAGE_SIZE = 0 /\ va_end vma mod PAGE_SIZE = 0
}.

(** The map of the cache is large enough for a whole VMA. *)
Definition vma_fits (p : pmc_t) : Prop := PAGE_PFN (va_end vma - va_start vma) * 8 <= pmc_map_len p.

Abbreviation gen := (generate_loop K o getpipe setpipe thread_sp vma has_parent).
Abbreviation chosen scan v := (filter (fun a => selected scan a = true) (pages_in_range v (va_end vma))).

(** The loop does what the reference does with the selected pages, unless the
    attributes of a page cannot be had. *)
Definition loop_post (p : pmc_t) (rd : list Z) (ref : outcome (Z * option Z * page_pipe * page_counts * list bool))
    (res : outcome (option Z * page_pipe * pmc_t * Z * page_counts * list bool * list Z)) : Prop :=
  (~ (calm_kernel K /\ rd = []) /\ exists pp' p' v' c' al' rd', res = Ret (None, pp', p', v', c', al', rd')) \/
  match ref with
  | Ret (ret, stop, pp', c1, al') => exists p' v' c' rd', res = Ret (Some ret, pp', p', v', c', al', rd') /\ same_counts c' c1 /\
      same_cache p p' /\ (calm_kernel K -> rd = [] -> rd' = []) /\
      match stop with Some a => v' = a /\ pmc_at K cats p' a | None => va_end vma <= v' /\ pmc_at K cats p' (va_end vma) end
  | Bug => res = Bug
  | NoFuel => res = NoFuel
  end.

(** A page was looked at first. *)
Lemma loop_post_mono p p1 rd rd1 ref res : same_cache p p1 -> (calm_kernel K -> rd = [] -> rd1 = []) -> loop_post p1 rd1 ref res -> loop_post p rd ref res.
Proof.
  intros [S1 S2] Hrd [[L1 L2]|L]; [left; split; [|done]; intros [C1 C2]; apply L1; split; [done|by apply Hrd]|right].
  destruct ref as [[[[[ret stop] pp'] c1] al']| |]; [|done|done]. destruct L as (p' & v' & c' & rd' & -> & L1 & [L2 L3] & L4 & L5).
  exists p', v', c', rd'. split; [done|]. split; [done|]. split; [split; congruence|]. split; [|done]. intros C1 C2. apply L4; [done|by apply Hrd].
Qed.

Lemma generate_loop_ref fuel : vma_ok -> forall al rd pp p u v c c0, pmc_at K cats p u -> u <= v -> u <= va_end vma ->
  va_start vma <= v < 2 ^ 64 -> v mod PAGE_SIZE = 0 -> vma_fits p -> PAGE_PFN (va_end vma - v) <= Z.of_nat fuel -> same_counts c c0 ->
  loop_post p rd (put_pages (changed (pmc_scan p)) al pp c0 (chosen (pmc_scan p) v)) (gen fuel al rd pp p v c).
Proof.
  intros [[V1 V2] [V3 V4]]. induction fuel as [|fuel IH]; intros al rd pp p u v c c0 Hp Hu Hue Hv Ha Hfit Hf Hc; cbn [generate_loop]; rewrite Z.geb_leb;
    (destruct (Z.leb_spec (va_end vma) v) as [Hend|Hlt];
     [right; rewrite pages_range_nil by done; cbn [filter list_filter put_pages]; eexists _, _, _, _; split; [done|]; split; [done|]; split; [done|]; split; [done|]; split; [done|]; by eapply pmc_at_mono|]).
  { pose proof (page_pfn_sub v (va_end vma) Ha V4). unfold PAGE_SIZE in *. lia. }
  assert (Hsz : PAGE_PFN (va_end vma - v) * 8 <= pmc_map_len p).
  { pose proof (page_pfn_sub v (va_end vma) Ha V4). pose proof (page_pfn_sub (va_start vma) (va_end vma) V3 V4). unfold vma_fits, PAGE_SIZE in *. lia. }
  destruct (should_dump_page_ok K cats Hscan rd p vma v (pmc_at_mono _ _ _ _ _ Hp Hu) Ha ltac:(lia) V2 V4 Hsz) as (info & p1 & rd1 & -> & [S1 S2] & Hcalm & Hinfo).
  cbn [obind]. assert (Hrd : calm_kernel K -> rd = [] -> rd1 = []) by (intros C1 C2; by destruct (Hcalm C1 C2)).
  destruct info as [info|].
  2:{ left. split; [|by eexists _, _, _, _, _, _]. intros [C1 C2]. by destruct (Hcalm C1 C2). }
  destruct (Hinfo info eq_refl) as [Hp1 (N1 & N2 & N3 & N4 & N5)]. clear Hinfo.
  assert (Hrec : forall al pp c c0 w, v < w < 2 ^ 64 -> w mod PAGE_SIZE = 0 -> same_counts c c0 ->
    loop_post p rd (put_pages (changed (pmc_scan p)) al pp c0 (chosen (pmc_scan p) w)) (gen fuel al rd1 pp p1 w c)).
  { intros al' pp' c' c0' w Hw Hwa Hcc. apply (loop_post_mono p p1 rd rd1); [by split|done|]. rewrite <- S1.
    assert (Hfw : PAGE_PFN (va_end vma - w) <= Z.of_nat fuel).
    { pose proof (page_pfn_sub v (va_end vma) Ha V4). pose proof (page_pfn_sub w (va_end vma) Hwa V4). unfold PAGE_SIZE in *. lia. }
    apply (IH al' rd1 pp' p1 v w c' c0' Hp1); try done; try lia. unfold vma_fits in *. lia. }
  destruct (next_page v Ha) as [P1 _].
  destruct (should_dump_entire_vma vma) eqn:Ed; cbn [negb andb].
  2:destruct (Z.eqb_spec (next info) v) as [En|Ene]; cbn [negb].
  3:{ pose proof (page_pfn_sub v (next info) Ha N2) as E. rewrite (pages_skip (selected (pmc_scan p)) (next info) (va_end vma) V4 N2 (Z.to_nat ((next info - v) / PAGE_SIZE)) v).
      - rewrite (u64_small (next info - PAGE_SIZE)), u64_small by (unfold PAGE_SIZE in *; lia).
        replace (next info - PAGE_SIZE + PAGE_SIZE) with (next info) by lia. apply Hrec; [lia|done|done].
      - unfold PAGE_PFN in E. rewrite Z2Nat.id by (unfold PAGE_SIZE in *; lia). lia.
      - intros a Haa Har. unfold selected. rewrite Ed. by apply N5. }
  all: rewrite pages_range_cons by done; rewrite filter_cons_True by (unfold selected; rewrite Ed; cbn [orb]; try done; by apply N3).
  all: cbn [put_pages]; unfold changed at 1; rewrite <- N4; destruct (put_page _ _ _ _ _ _ al pp v (softdirty info)) as [[[[ret st] pp1] al1]| |]; cbn [obind]; [|by right|by right].
  all: destruct (negb (ret =? 0)); [right; eexists _, _, _, _; split; [done|]; split; [done|]; split; [by split|]; split; [done|]; split; [done|exact Hp1]|].
  all: rewrite u64_small by (unfold PAGE_SIZE in *; lia); apply Hrec; [unfold PAGE_SIZE in *; lia|done|]; destruct Hc as (C1 & C2 & C3); unfold same_counts, count_page, count_scanned; cbn; split_and!; congruence.
Qed.

(** *** What the page pipe gets *)
Context (Hget : getpipe < 0 \/ PAGE_SIZE <= getpipe < 2 ^ 31) (Hset : forall n, setpipe n < 0 \/ n <= setpipe n < 2 ^ 31).

Definition to_parent (d : Z -> bool) (a : Z) : bool := has_parent && negb (self_contained vma) && page_in_parent o (d a).
Definition stored_pages (d : Z -> bool) (l : list Z) : list (Z * Z) :=
  (fun a => (a, page_flags o thread_sp vma a)) <$> filter (fun a => to_parent d a = false) l.
Definition parent_pages (d : Z -> bool) (l : list Z) : list (Z * Z) := (fun a => (a, PP_HOLE_PARENT)) <$> filter (fun a => to_parent d a = true) l.

Lemma one_page d a : if to_parent d a then stored_pages d [a] = [] /\ parent_pages d [a] = [(a, PP_HOLE_PARENT)]
  else stored_pages d [a] = [(a, page_flags o thread_sp vma a)] /\ parent_pages d [a] = [].
Proof.
  unfold stored_pages, parent_pages. destruct (to_parent d a) eqn:E.
  - rewrite filter_cons_False by congruence. by rewrite filter_cons_True.
  - rewrite filter_cons_True by done. by rewrite filter_cons_False by congruence.
Qed.

(** [pp'] has the pages [l] on top of [pp]. *)
Record pages_put (d : Z -> bool) (l : list Z) (pp pp' : page_pipe) (c c' : page_counts) : Prop := PagesPut {
  pu_ok : pp_ok pp' /\ holes_ok pp';
  pu_stored : contents pp' = contents pp ++ stored_pages d l;
  pu_parent : hole_pages pp' = hole_pages pp ++ parent_pages d l;
  pu_counts : nr_parent c' = nr_parent c + zlen (parent_pages d l) /\ nr_lazy c' + nr_written c' = nr_lazy c + nr_written c + zlen (stored_pages d l)
}.

Lemma put_page_ok d al pp a c : pp_ok pp -> holes_ok pp -> page_addr a -> free_iov pp < nr_iovs pp ->
  exists ret st pp' al', put_page o getpipe setpipe thread_sp vma has_parent al pp a (d a) = Ret (ret, st, pp', al') /\
    (ret = 0 /\ pages_put d [a] pp pp' c (count_page st c) /\ nr_iovs pp' = nr_iovs pp /\ free_iov pp' <= free_iov pp + 1 \/
     ret < 0 /\ pages_put d [] pp pp' c c).
Proof.
  intros Hok Hho Ha Hroom. unfold put_page. fold (to_parent d a). pose proof (one_page d a) as H1. destruct (to_parent d a) eqn:Et; destruct H1 as [Es Ep].
  - pose proof (page_pipe_add_hole_spec al pp a PP_HOLE_PARENT Hho Ha) as H. destruct (page_pipe_add_hole al pp a PP_HOLE_PARENT) as [[ret pp'] al'] eqn:Eh.
    destruct H as (H1 & H2 & H3). destruct (add_hole_frame _ _ _ _ _ _ _ Eh) as (n & f & h & fl & ->).
    eexists _, _, _, _. split; [done|]. assert (Hpo := pp_ok_holes n f h fl pp Hok). destruct H3 as [[-> H3]|(-> & H3 & _)].
    + left. split; [done|]. split; [|split; [done|cbn; lia]]. split; rewrite ?Es, ?Ep.
      * done.
      * by rewrite app_nil_r.
      * done.
      * unfold count_page, zlen. cbn. lia.
    + right. split; [done|]. split; unfold stored_pages, parent_pages; rewrite ?filter_nil; cbn [fmap list_fmap]; rewrite ?app_nil_r; try done; unfold zlen; cbn; lia.
  - destruct (page_pipe_add_page_ok (o_lazy_pages o) getpipe setpipe Hget Hset al pp a (page_flags o thread_sp vma a) Hok Ha Hroom) as (ret & pp' & al' & E & O1 & O2 & Hc).
    rewrite E. cbn [obind]. destruct (holes_of_pages _ _ (page_pipe_add_page_holes _ _ _ _ _ _ _ _ _ _ E)) as [O3 O4]. specialize (O4 Hho).
    eexists _, _, _, _. split; [done|]. destruct Hc as [(-> & C1 & C2)|(Hneg & C1)].
    + left. split; [done|]. split; [|split; [done|lia]]. split; rewrite ?Es, ?Ep; try done.
      * by rewrite app_nil_r.
      * unfold count_page, zlen. destruct (has _ _ && _); cbn; lia.
    + right. split; [done|]. split; unfold stored_pages, parent_pages; rewrite ?filter_nil; cbn [fmap list_fmap]; rewrite ?app_nil_r; try done; unfold zlen; cbn; try lia.
Qed.

Lemma pages_put_nil d pp c : pp_ok pp -> holes_ok pp -> pages_put d [] pp pp c c.
Proof. intros H1 H2. split; unfold stored_pages, parent_pages; rewrite ?filter_nil; cbn [fmap list_fmap]; rewrite ?app_nil_r; try done; unfold zlen; cbn; lia. Qed.

Lemma pages_put_app d l1 l2 pp pp1 pp2 c c1 c2 : pages_put d l1 pp pp1 c c1 -> pages_put d l2 pp1 pp2 c1 c2 -> pages_put d (l1 ++ l2) pp pp2 c c2.
Proof.
  intros [A1 A2 A3 A4] [B1 B2 B3 B4].
  assert (Es : stored_pages d (l1 ++ l2) = stored_pages d l1 ++ stored_pages d l2) by (unfold stored_pages; by rewrite filter_app, fmap_app).
  assert (Ep : parent_pages d (l1 ++ l2) = parent_pages d l1 ++ parent_pages d l2) by (unfold parent_pages; by rewrite filter_app, fmap_app).
  split; [done|by rewrite B2, A2, Es, app_assoc|by rewrite B3, A3, Ep, app_assoc|]. rewrite Es, Ep, !zlen_app. lia.
Qed.

Lemma put_pages_ok d l : forall al pp c, pp_ok pp -> holes_ok pp -> Forall page_addr l -> free_iov pp + zlen l <= nr_iovs pp ->
  exists ret stop pp' c' al' k, put_pages d al pp c l = Ret (ret, stop, pp', c', al') /\ pages_put d (take k l) pp pp' c c' /\
    (ret = 0 /\ stop = None /\ k = length l \/ ret < 0 /\ exists a, stop = Some a /\ l !! k = Some a).
Proof.
  induction l as [|a l IH]; intros al pp c Hok Hho Hl Hroom; cbn [put_pages].
  { eexists _, _, _, _, _, 0%nat. split; [done|]. split; [by apply pages_put_nil|by left]. }
  apply Forall_cons_1 in Hl as [Ha Hl]. pose proof (zlen_nonneg l). assert (zlen (a :: l) = zlen l + 1) by (unfold zlen; cbn [length]; lia).
  destruct (put_page_ok d al pp a c Hok Hho Ha ltac:(lia)) as (ret & st & pp1 & al1 & -> & Hc). cbn [obind]. destruct Hc as [(-> & Hp & R1 & R2)|[Hneg Hp]].
  - cbn [Z.eqb negb]. destruct (pu_ok _ _ _ _ _ _ Hp) as [Hok1 Hho1]. destruct (IH al1 pp1 (count_page st c) Hok1 Hho1 Hl ltac:(lia)) as (ret & stop & pp' & c' & al' & k & -> & I1 & I2).
    exists ret, stop, pp', c', al', (S k). split; [done|]. split; [apply (pages_put_app d [a] (take k l) pp pp1 pp' c (count_page st c) c'); done|].
    destruct I2 as [(-> & -> & ->)|I2]; [by left|by right].
  - destruct (Z.eqb_spec ret 0); [lia|]. cbn [negb]. eexists _, _, _, _, _, 0%nat. split; [done|]. split; [exact Hp|]. right. split; [done|]. by exists a.
Qed.

(** Going on from where the pipe was full. *)
Lemma chosen_resume (f : Z -> bool) e a : e mod PAGE_SIZE = 0 -> forall n v k, v mod PAGE_SIZE = 0 -> e - v <= Z.of_nat n * PAGE_SIZE ->
  filter (fun a => f a = true) (pages_in_range v e) !! k = Some a ->
  filter (fun a => f a = true) (pages_in_range a e) = drop k (filter (fun a => f a = true) (pages_in_range v e)).
Proof.
  intros He. induction n as [|n IH]; intros v k Hv Hn; [rewrite pages_range_nil by (unfold PAGE_SIZE in *; lia); done|].
  destruct (Z.lt_ge_cases v e) as [Hlt|Hge]; [|rewrite pages_range_nil by lia; done]. rewrite (pages_range_cons v e) by done.
  destruct (next_page v Hv) as [Hnx _]. specialize (IH (v + PAGE_SIZE)). destruct (f v) eqn:Ef.
  - rewrite filter_cons_True by done. destruct k as [|k]; cbn [drop].
    + intros [= <-]. rewrite (pages_range_cons v e) by done. by rewrite filter_cons_True.
    + intros Hk. apply IH; [done|unfold PAGE_SIZE in *; lia|done].
  - rewrite filter_cons_False by congruence. intros Hk. apply IH; [done|unfold PAGE_SIZE in *; lia|done].
Qed.

Abbreviation generate := (generate_iovs K o getpipe setpipe thread_sp vma has_parent).

(** [generate_iovs] against the reference. *)
Lemma generate_iovs_ref al rd pp p v : vma_ok -> vma_fits p -> pmc_at K cats p v -> va_start vma <= v <= va_end vma -> v mod PAGE_SIZE = 0 ->
  let pp0 := if (o_compress_mode o =? COMPRESS_BLOCK) && (v =? va_start vma) then set_break_iov true pp else pp in
  (~ (calm_kernel K /\ rd = []) /\ exists pp' p' al' rd', generate al rd pp p v = Ret (-1, pp', p', v, PageCounts 0 0 0 0, al', rd')) \/
  match put_pages (changed (pmc_scan p)) al pp0 (PageCounts 0 0 0 0) (chosen (pmc_scan p) v) with
  | Ret (ret, stop, pp', c1, al') => exists p' v' c' rd', generate al rd pp p v = Ret (ret, pp', p', v', c', al', rd') /\ same_counts c' c1 /\
      same_cache p p' /\ (calm_kernel K -> rd = [] -> rd' = []) /\
      match stop with Some a => v' = a /\ pmc_at K cats p' a | None => va_end vma <= v' /\ pmc_at K cats p' (va_end vma) end
  | Bug => generate al rd pp p v = Bug
  | NoFuel => generate al rd pp p v = NoFuel
  end.
Proof.
  intros Hv Hfit Hp Hr Ha pp0. unfold generate_iovs. fold pp0. pose proof Hv as [[V1 V2] [V3 V4]].
  assert (Hfu : PAGE_PFN (va_end vma - v) <= Z.of_nat (Z.to_nat ((va_end vma - v) / PAGE_SIZE))).
  { unfold PAGE_PFN. lia. }
  destruct (generate_loop_ref _ Hv al rd pp0 p v v (PageCounts 0 0 0 0) (PageCounts 0 0 0 0) Hp ltac:(lia) ltac:(lia) ltac:(unfold PAGE_SIZE in *; lia) Ha Hfit Hfu ltac:(done))
    as [[L1 (pp' & p' & v' & c' & al' & rd' & ->)]|L].
  - left. split; [done|]. cbn [obind]. by eexists _, _, _, _.
  - right. destruct (put_pages _ _ _ _ _) as [[[[[ret stop] pp'] c1] al']| |]; [|by rewrite L|by rewrite L].
    destruct L as (p' & v' & c' & rd' & -> & L1 & L2 & L3 & L4). cbn [obind]. by exists p', v', c', rd'.
Qed.

(** C38. [generate_iovs] fills the page pipe with exactly the selected pages.
    For a VMA of whole pages, a cache that describes its window, and a page pipe
    with room for the pages: the call returns, and unless the kernel refuses to
    tell the attributes, the pages of the VMA from [*pvaddr] on that have
    contents of their own (or all, for the VMAs that are dumped entirely) are
    added in order up to some point: as holes, if there is a parent image and
    the page was not written since, else as pages with the flags for lazy and
    uncompressed restore; the counters count them.  On success these are all
    the pages and the cache is good for the next VMA.  On failure, [*pvaddr] is
    the page that did not fit, and the pages selected from there on are exactly
    the rest, so that a second call goes on where the first stopped. *)
Theorem generate_iovs_correct al rd pp p v : vma_ok -> vma_fits p -> pmc_at K cats p v -> va_start vma <= v <= va_end vma -> v mod PAGE_SIZE = 0 ->
  pp_ok pp -> holes_ok pp -> free_iov pp + zlen (chosen (pmc_scan p) v) <= nr_iovs pp ->
  exists ret pp' p' v' c al' rd', generate al rd pp p v = Ret (ret, pp', p', v', c, al', rd') /\
    (ret = -1 /\ v' = v /\ ~ (calm_kernel K /\ rd = []) \/
     exists k, pages_put (changed (pmc_scan p)) (take k (chosen (pmc_scan p) v)) pp pp' (PageCounts 0 0 0 0) c /\
       (ret = 0 /\ k = length (chosen (pmc_scan p) v) /\ va_end vma <= v' /\ pmc_at K cats p' (va_end vma) \/
        ret < 0 /\ chosen (pmc_scan p) v !! k = Some v' /\ chosen (pmc_scan p) v' = drop k (chosen (pmc_scan p) v) /\ pmc_at K cats p' v')).
Proof.
  intros Hv Hfit Hp Hr Ha Hok Hho Hroom. destruct (generate_iovs_ref al rd pp p v Hv Hfit Hp Hr Ha) as [[L1 (pp' & p' & al' & rd' & ->)]|L].
  { eexists _, _, _, _, _, _, _. split; [done|]. by left. }
  set (pp0 := if (o_compress_mode o =? COMPRESS_BLOCK) && _ then set_break_iov true pp else pp) in L. pose proof Hv as [[V1 V2] [V3 V4]].
  assert (H0 : pp_ok pp0 /\ holes_ok pp0 /\ free_iov pp0 = free_iov pp /\ nr_iovs pp0 = nr_iovs pp /\ contents pp0 = contents pp /\ hole_pages pp0 = hole_pages pp).
  { unfold pp0. destruct (_ && _); [|done]. split; [by apply pp_ok_break|]. split; [by destruct Hho|done]. }
  destruct H0 as (P1 & P2 & P3 & P4 & P5 & P6).
  assert (Hpa : Forall page_addr (chosen (pmc_scan p) v)).
  { apply Forall_forall. intros a Hin. apply list_elem_of_filter in Hin as [_ Hin]. destruct (elem_pages_range a v (va_end vma) Ha V4 Hin). split; [lia|]. split; [done|lia]. }
  destruct (put_pages_ok (changed (pmc_scan p)) _ al pp0 (PageCounts 0 0 0 0) P1 P2 Hpa ltac:(lia)) as (ret & stop & pp' & c1 & al' & k & E & Hput & Hcase).
  rewrite E in L. destruct L as (p' & v' & c' & rd' & -> & (Q1 & Q2 & Q3) & _ & _ & L2). eexists _, _, _, _, _, _, _. split; [done|]. right. exists k. split.
  - destruct Hput as [U1 U2 U3 U4]. rewrite P5 in U2. rewrite P6 in U3. split; try done. rewrite Q1, Q2, Q3. exact U4.
  - destruct Hcase as [(-> & -> & ->)|(Hneg & a & -> & Hk)]; destruct L2 as [L2 L3]; [by left|]. subst v'. right. split; [done|]. split; [done|]. split; [|done].
    apply (chosen_resume _ _ _ V4 (Z.to_nat (va_end vma - v))); [done|unfold PAGE_SIZE; lia|done].
Qed.
End Generate.

(** ** The two sources of attributes *)

(** The kernel tells the same in both ways about the pages of [vma]: the bits
    agree, the number of a swapped page is not that of the zero page, guard
    pages are reported as such if there are any, and pages of files are only in
    private file mappings. *)
Record same_attributes (K : kernel) (cats : Z -> Z) (vma : vma_area) (a : Z) : Prop := SameAttributes {
  sa_present : Z.testbit (cats a) 3 = Z.testbit (k_pme K (PAGE_PFN a)) 63;
  sa_swapped : Z.testbit (cats a) 4 = Z.testbit (k_pme K (PAGE_PFN a)) 62;
  sa_file : Z.testbit (cats a) 2 = Z.testbit (k_pme K (PAGE_PFN a)) 61;
  sa_dirty : Z.testbit (cats a) 7 = Z.testbit (k_pme K (PAGE_PFN a)) 55;
  sa_zero : Z.testbit (cats a) 3 || Z.testbit (cats a) 4 = true -> Z.testbit (cats a) 5 = page_is_zero K (k_pme K (PAGE_PFN a));
  sa_guard : has_pagemap_scan_guard_pages K && Z.testbit (cats a) 8 = Z.testbit (k_pme K (PAGE_PFN a)) 58;
  sa_private : Z.testbit (k_pme K (PAGE_PFN a)) 61 = true -> vma_entry_is vma VMA_FILE_PRIVATE = true
}.

Lemma same_want K cats vma a : same_attributes K cats vma a -> want K cats true vma a = want K cats false vma a /\ dirty K cats true a = dirty K cats false a.
Proof.
  intros [A1 A2 A3 A4 A5 A6 A7]. split; [|exact A4]. cbn [want]. unfold want_scan, want_map. rewrite A6, A3. rewrite <- A1, <- A2. 
  destruct (Z.testbit (cats a) 3 || Z.testbit (cats a) 4); [rewrite (A5 eq_refl)|by rewrite !andb_false_r].
  destruct (Z.testbit (k_pme K (PAGE_PFN a)) 61); [rewrite (A7 eq_refl)|rewrite andb_false_r]; by destruct (page_is_zero _ _), (Z.testbit _ 58).
Qed.

Lemma filter_ext_in (f g : Z -> bool) (l : list Z) : (forall a, a ∈ l -> f a = g a) -> filter (fun a => f a = true) l = filter (fun a => g a = true) l.
Proof.
  induction l as [|a l IH]; intros H; [done|]. pose proof (H a (list_elem_of_here _ _)) as Ha.
  specialize (IH (fun b Hb => H b (list_elem_of_further _ _ _ Hb))). destruct (f a) eqn:Ef.
  - rewrite !filter_cons_True by congruence. by rewrite IH.
  - rewrite !filter_cons_False by congruence. done.
Qed.

Lemma put_pages_ext o getpipe setpipe sps vma hp (d d' : Z -> bool) (l : list Z) : (forall a, a ∈ l -> d a = d' a) -> forall al pp c,
  put_pages o getpipe setpipe sps vma hp d al pp c l = put_pages o getpipe setpipe sps vma hp d' al pp c l.
Proof.
  induction l as [|a l IH]; intros H al pp c; [done|]. cbn [put_pages]. rewrite (H a (list_elem_of_here _ _)).
  destruct (put_page _ _ _ _ _ _ _ _ _ _) as [[[[ret st] pp1] al1]| |]; cbn [obind]; [|done|done]. destruct (negb _); [done|].
  apply IH. intros b Hb. by apply H, list_elem_of_further.
Qed.

(** C39. PAGEMAP_SCAN is an optimisation.  If both sources tell the same about
    the pages of a VMA ([same_attributes]) and the kernel answers, then
    [generate_iovs] with a cache filled by the ioctl and with one filled from
    /proc/pid/pagemap, whatever their windows, make the very same calls: they
    return the same result and leave the same page pipe, the same counters of
    inherited, lazy and written pages, and, if the pipe is full, the same place
    to go on. *)
Theorem scan_equals_map K cats o getpipe setpipe sps vma has_parent al pp p1 p2 v :
  scan_ok K cats -> calm_kernel K -> (getpipe < 0 \/ PAGE_SIZE <= getpipe < 2 ^ 31) -> (forall n, setpipe n < 0 \/ n <= setpipe n < 2 ^ 31) ->
  vma_ok vma -> (forall a, a mod PAGE_SIZE = 0 -> va_start vma <= a < va_end vma -> same_attributes K cats vma a) ->
  pmc_scan p1 = true -> pmc_at K cats p1 v -> vma_fits vma p1 -> pmc_scan p2 = false -> pmc_at K cats p2 v -> vma_fits vma p2 ->
  va_start vma <= v <= va_end vma -> v mod PAGE_SIZE = 0 -> pp_ok pp -> holes_ok pp -> free_iov pp + PAGE_PFN (va_end vma - v) <= nr_iovs pp ->
  exists ret pp' al' p1' v1 c1 rd1 p2' v2 c2 rd2,
    generate_iovs K o getpipe setpipe sps vma has_parent al [] pp p1 v = Ret (ret, pp', p1', v1, c1, al', rd1) /\
    generate_iovs K o getpipe setpipe sps vma has_parent al [] pp p2 v = Ret (ret, pp', p2', v2, c2, al', rd2) /\
    same_counts c1 c2 /\ (ret = 0 -> va_end vma <= v1 /\ va_end vma <= v2) /\ (ret <> 0 -> v1 = v2).
Proof.
  intros Hscan Hcalm Hget Hset Hv Hsame S1 Hp1 F1 S2 Hp2 F2 Hr Ha Hok Hho Hroom. pose proof Hv as [[V1 V2] [V3 V4]].
  assert (Hin : forall a, a ∈ pages_in_range v (va_end vma) -> selected K cats vma true a = selected K cats vma false a /\ changed K cats vma true a = changed K cats vma false a).
  { intros a Hin. destruct (elem_pages_range a v (va_end vma) Ha V4 Hin) as [R1 R2].
    destruct (same_want K cats vma a (Hsame a R2 ltac:(lia))) as [W1 W2]. unfold selected, changed. by rewrite W1, W2. }
  destruct (generate_iovs_ref K cats Hscan o getpipe setpipe sps vma has_parent al [] pp p1 v Hv F1 Hp1 Hr Ha) as [[[] _]|G1]; [done|].
  destruct (generate_iovs_ref K cats Hscan o getpipe setpipe sps vma has_parent al [] pp p2 v Hv F2 Hp2 Hr Ha) as [[[] _]|G2]; [done|].
  rewrite S1 in G1. rewrite S2 in G2.
  rewrite (filter_ext_in (selected K cats vma true) (selected K cats vma false)) in G1 by (intros a Hin'; by apply Hin).
  rewrite (put_pages_ext _ _ _ _ _ _ (changed K cats vma true) (changed K cats vma false)) in G1 by (intros a Hin'; apply list_elem_of_filter in Hin' as [_ Hin']; by apply Hin).
  set (l := filter _ _) in *. set (pp0 := if (o_compress_mode o =? COMPRESS_BLOCK) && _ then set_break_iov true pp else pp) in *.
  assert (Hpa : Forall page_addr l).
  { apply Forall_forall. intros a Hin'. apply list_elem_of_filter in Hin' as [_ Hin']. destruct (elem_pages_range a v (va_end vma) Ha V4 Hin'). split; [lia|]. split; [done|lia]. }
  assert (Hl : zlen l <= PAGE_PFN (va_end vma - v)).
  { unfold l, zlen. pose proof (length_filter (fun a => selected K cats vma false a = true) (pages_in_range v (va_end vma))) as Hlen.
    unfold pages_in_range in *. pose proof (length_iov_pages (Iovec v (va_end vma - v)) ltac:(cbn; lia)) as Hli. cbn [iov_len] in Hli. unfold PAGE_PFN. lia. }
  assert (H0 : pp_ok pp0 /\ holes_ok pp0 /\ free_iov pp0 = free_iov pp /\ nr_iovs pp0 = nr_iovs pp).
  { unfold pp0. destruct (_ && _); [|done]. split; [by apply pp_ok_break|]. split; [by destruct Hho|done]. }
  destruct H0 as (P1 & P2 & P3 & P4).
  destruct (put_pages_ok o getpipe setpipe sps vma has_parent Hget Hset (changed K cats vma false) l al pp0 (PageCounts 0 0 0 0) P1 P2 Hpa ltac:(lia))
    as (ret & stop & pp' & c & al' & k & E & _ & Hcase). rewrite E in G1, G2.
  destruct G1 as (p1' & v1 & c1 & rd1 & -> & (A1 & A2 & A3) & _ & _ & A4). destruct G2 as (p2' & v2 & c2 & rd2 & -> & (B1 & B2 & B3) & _ & _ & B4).
  eexists ret, pp', al', p1', v1, c1, rd1, p2', v2, c2, rd2. split; [done|]. split; [done|]. split; [split_and!; congruence|].
  destruct Hcase as [(-> & -> & ->)|(Hneg & a & -> & Hk)]; split; intros Hz; try lia; destruct A4, B4; congruence.
Qed.

(** ** The cache over the VMAs of a process *)
Lemma pmc_init_ok K cats al scan disabled opened size p al' : 0 <= size < 2 ^ 60 -> pmc_init al scan disabled opened size = (true, p, al') ->
  pmc_scan p = scan /\ PMC_SIZE / PAGE_SIZE * 8 <= pmc_map_len p /\ (forall v, 0 <= v -> pmc_at K cats p v) /\
  forall vma, va_start vma <= va_end vma -> va_end vma - va_start vma <= size -> vma_fits vma p.
Proof.
  intros Hsz. unfold pmc_init. destruct (xalloc al) as [ok al1]. destruct (negb ok || disabled || negb opened); [done|]. intros [= <- _].
  assert (Hm : PAGEMAP_LEN (Z.max size PMC_SIZE) = PAGE_PFN (Z.max size PMC_SIZE) * 8).
  { unfold PAGEMAP_LEN. apply u64_small. unfold PAGE_PFN, PAGE_SIZE, PMC_SIZE. pose proof (Z.div_pos (Z.max size (2 ^ 21)) 4096).
    pose proof (Z.mul_div_le (Z.max size (2 ^ 21)) 4096 ltac:(lia)). lia. }
  assert (Hge : forall n, n <= Z.max size PMC_SIZE -> PAGE_PFN n <= PAGE_PFN (Z.max size PMC_SIZE)) by (intros n Hn; unfold PAGE_PFN, PAGE_SIZE; apply Z.div_le_mono; lia).
  cbn [pmc_scan pmc_map_len]. rewrite Hm. split; [done|]. split; [specialize (Hge PMC_SIZE ltac:(lia)); unfold PAGE_PFN in *; lia|]. split.
  - intros v Hv. split; cbn; try done; try lia.
    + specialize (Hge PMC_SIZE ltac:(lia)). change (PAGE_PFN PMC_SIZE) with 512 in Hge. unfold PAGE_REGIONS_MAX_NR. lia.
    + intros _. split; [lia|]. split; [intros r a Hr; by apply elem_of_nil in Hr|]. split; [lia|apply Forall_nil_2].
  - intros vma Hle Hfit. unfold vma_fits. cbn [pmc_map_len]. specialize (Hge (va_end vma - va_start vma) ltac:(lia)). lia.
Qed.

Lemma pmc_window a : 0 <= a -> let low := Z.land a (Z.lnot (PMC_SIZE - 1)) in low <= a < low + PMC_SIZE /\ 0 <= low /\ low mod PAGE_SIZE = 0.
Proof.
  intros Ha low. assert (E : low = a - a mod 2 ^ 21).
  { unfold low. change (PMC_SIZE - 1) with (Z.ones 21). rewrite <- Z.ldiff_land, Z.ldiff_ones_r by lia. rewrite Z.shiftl_mul_pow2, Z.shiftr_div_pow2 by lia.
    pose proof (Z.div_mod a (2 ^ 21) ltac:(lia)). lia. }
  pose proof (Z.mod_pos_bound a (2 ^ 21) ltac:(lia)). pose proof (Z.mod_le a (2 ^ 21) Ha ltac:(lia)). split; [unfold PMC_SIZE; lia|]. split; [lia|].
  pose proof (Z.div_mod a (2 ^ 21) ltac:(lia)). replace low with (a / 2 ^ 21 * 512 * PAGE_SIZE) by (unfold PAGE_SIZE; lia). by apply Z.mod_mul.
Qed.

(** What is behind [vma] in the list of a process: the VMAs above it, and the
    entries of guard pages, which may be anywhere. *)
Definition vmas_behind (vma : vma_area) (rest : list vma_area) : Prop :=
  Forall (fun w => vma_entry_is w VMA_AREA_GUARD = true \/ va_end vma <= va_start w <= va_end w) rest.

Lemma cached_vmas_ok low high vma rest : low <= va_end vma -> vmas_behind vma rest ->
  exists n, cached_vmas low high rest = Ret n /\ ((0 < n)%nat -> va_end vma <= high).
Proof.
  intros Hlow Hr. induction Hr as [|w rest Hw _ IH]; cbn [cached_vmas]; [exists 0%nat; split; [done|lia]|].
  destruct (vma_entry_is w VMA_AREA_GUARD); [exists 0%nat; split; [done|lia]|]. destruct Hw as [?|Hw]; [done|]. rewrite !Z.gtb_ltb.
  destruct (Z.ltb_spec high (va_start w)); cbn [orb]; [exists 0%nat; split; [done|lia]|].
  destruct (Z.ltb_spec high (va_end w)); [exists 0%nat; split; [done|lia]|].
  destruct (Z.ltb_spec (va_start w) low); [lia|]. destruct IH as (n & -> & _). cbn [obind]. exists (S n). split; [done|lia].
Qed.

Lemma pmc_get_map_spec K cats disabled rd p vma rest u : scan_ok K cats ->
  pmc_at K cats p u -> u <= va_start vma -> PMC_SIZE / PAGE_SIZE * 8 <= pmc_map_len p -> vma_ok vma -> vma_fits vma p ->
  vmas_behind vma rest -> va_end vma <= task_size K < 2 ^ 63 -> task_size K mod PAGE_SIZE = 0 ->
  exists ok p' rd', pmc_get_map K disabled rd p vma rest = Ret (ok, p', rd') /\ same_cache p p' /\
    (calm_kernel K -> rd = [] -> ok = true /\ rd' = []) /\
    (ok = true -> pmc_at K cats p' (va_start vma) /\ vma_fits vma p' /\ pmc_start p' <= va_start vma < pmc_end p' /\
       (pmc_scan p = false -> va_end vma <= pmc_end p')).
Proof.
  intros Hscan Hp Hu Hlen Hv Hfit Hrest Hts Hta. pose proof Hv as [[V1 V2] [V3 V4]]. unfold pmc_get_map. rewrite Z.geb_leb.
  destruct ((pmc_start p <=? va_start vma) && (va_end vma <=? pmc_end p)) eqn:Ehit.
  { apply andb_true_iff in Ehit as [E1%Z.leb_le E2%Z.leb_le]. eexists _, _, _. split; [done|]. split; [done|]. split; [done|]. intros _.
    split; [by eapply pmc_at_mono|]. split; [done|]. split; [lia|done]. }
  clear Ehit. unfold pmc_fill_cache. destruct (pmc_window (va_start vma) ltac:(lia)) as (W1 & W2 & W3). set (low := Z.land _ _) in *.
  rewrite (u64_small (low + PMC_SIZE)) by (unfold PMC_SIZE in *; lia). set (high := Z.min (low + PMC_SIZE) (task_size K)).
  assert (Hhigh : high mod PAGE_SIZE = 0).
  { unfold high. destruct (Z.min_spec (low + PMC_SIZE) (task_size K)) as [[_ ->]|[_ ->]]; [|done]. by rewrite Zplus_mod, W3. }
  assert (Hfill : forall e, va_end vma <= e -> e mod PAGE_SIZE = 0 -> e < 2 ^ 64 -> PAGE_PFN (e - va_start vma) * 8 <= pmc_map_len p ->
    exists ok p' rd', pmc_fill K rd p (va_start vma) e = Ret (ok, p', rd') /\ same_cache p p' /\ (calm_kernel K -> rd = [] -> ok = true /\ rd' = []) /\
    (ok = true -> pmc_at K cats p' (va_start vma) /\ vma_fits vma p' /\ pmc_start p' <= va_start vma < pmc_end p' /\ (pmc_scan p = false -> va_end vma <= pmc_end p'))).
  { intros e He1 He2 He3 He4. destruct (pmc_fill_ok K cats Hscan rd p (va_start vma) e ltac:(lia) He3 V3 He2 (pa_fd _ _ _ _ Hp) (pa_vec _ _ _ _ Hp) He4)
      as (ok & p' & rd' & -> & F1 & F2 & F3). exists ok, p', rd'. split; [done|]. split; [done|]. split; [done|].
    intros Hok. destruct (F2 Hok) as (G1 & G2 & G3 & G4). split; [done|]. split; [unfold vma_fits in *; destruct F1 as [_ ->]; done|]. split; [lia|].
    intros Hs. rewrite (G4 Hs). done. }
  destruct (negb disabled && _ && _).
  - destruct (cached_vmas_ok low high vma rest ltac:(lia) Hrest) as (n & -> & Hn). cbn [obind]. destruct (0 <? n)%nat eqn:E0; [|apply Hfill; [lia|done|unfold PAGE_SIZE in *; lia|done]].
    apply Nat.ltb_lt in E0. specialize (Hn E0). apply Hfill; [done|done|unfold high; lia|]. etransitivity; [|exact Hlen].
    apply Z.mul_le_mono_nonneg_r; [lia|]. unfold PAGE_PFN, PAGE_SIZE. apply Z.div_le_mono; [lia|]. unfold high. lia.
  - cbn [obind]. apply Hfill; [lia|done|unfold PAGE_SIZE in *; lia|done].
Qed.

(** C40. The cache of page attributes stays within its buffer.  For a cache that
    [pmc_init] made for the longest VMA, and that was used for addresses up to
    [u]: [pmc_get_map] for a VMA from [u] on trips no BUG_ON, whether it finds
    the VMA in the window, reads it alone or together with the small VMAs
    behind it; what it asks of the kernel fits the buffer.  On success the
    window describes pages from within or before the VMA, starting no later
    than the VMA, so that every lookup of a page of the VMA is in the buffer;
    it fails only if the kernel does. *)
Theorem pmc_get_map_correct K cats disabled rd p vma rest u : scan_ok K cats ->
  pmc_at K cats p u -> u <= va_start vma -> PMC_SIZE / PAGE_SIZE * 8 <= pmc_map_len p -> vma_ok vma -> vma_fits vma p ->
  vmas_behind vma rest -> va_end vma <= task_size K < 2 ^ 63 -> task_size K mod PAGE_SIZE = 0 ->
  exists ok p' rd', pmc_get_map K disabled rd p vma rest = Ret (ok, p', rd') /\ same_cache p p' /\
    (calm_kernel K -> rd = [] -> ok = true) /\
    (ok = true -> pmc_at K cats p' (va_start vma) /\ vma_fits vma p' /\ pmc_start p' <= va_start vma < pmc_end p' /\
       (pmc_scan p = false -> va_end vma <= pmc_end p')).
Proof.
  intros H1 H2 H3 H4 H5 H6 H7 H8 H9. destruct (pmc_get_map_spec K cats disabled rd p vma rest u H1 H2 H3 H4 H5 H6 H7 H8 H9) as (ok & p' & rd' & E & A & B & C).
  exists ok, p', rd'. split; [done|]. split; [done|]. split; [|done]. intros C1 C2. by destruct (B C1 C2).
Qed.

(** ** What the code misses *)

(** [is_stack] compares the offsets in the page where it means to compare the
    pages: a thread's stack pointer makes either every page a stack page or
    none. *)
Lemma is_stack_ignores_page thread_sp vaddr : vaddr mod PAGE_SIZE = 0 -> is_stack thread_sp vaddr = existsb (fun sp => sp mod PAGE_SIZE =? 0) thread_sp.
Proof.
  intros Hv. unfold is_stack. induction thread_sp as [|sp l IH]; [done|]. cbn [existsb]. rewrite IH. f_equal. f_equal.
  change (PAGE_SIZE - 1) with (Z.ones 12). rewrite Z.land_ones by lia. change (2 ^ 12) with PAGE_SIZE.
  assert (E : forall x, x mod PAGE_SIZE = Z.land x (Z.ones 12)) by (intros x; by rewrite Z.land_ones by lia).
  rewrite E in Hv. rewrite !E. apply Z.bits_inj'. intros i Hi. rewrite !Z.land_spec, Z.lxor_spec.
  apply (f_equal (fun z => Z.testbit z i)) in Hv. rewrite Z.land_spec, Z.bits_0 in Hv.
  by destruct (Z.testbit sp i), (Z.testbit vaddr i), (Z.testbit (Z.ones 12) i).
Qed.

(** ** Example: four pages, the first written to, the second zero, the third
    swapped out, the last not there *)
Definition sample_attributes (pfn : Z) : Z * Z :=
  if pfn =? 1 then (2 ^ 63 + 2 ^ 55 + 77, 136) else if pfn =? 2 then (2 ^ 63 + 99, 40) else if pfn =? 3 then (2 ^ 62 + 5, 16) else (0, 0).
Definition sample_cats (a : Z) : Z := snd (sample_attributes (PAGE_PFN a)).

(** A scan that reports every page on its own. *)
Definition page_scan (cats : Z -> Z) (args : pm_scan_arg) : option (list page_region * Z) :=
  Some ((fun a => PageRegion a (a + PAGE_SIZE) (Z.land (cats a) (psa_return_mask args))) <$>
          filter (fun a => interesting args (cats a) = true) (pages_in_range (psa_start args) (psa_end args)), psa_end args).

Definition sample_kernel : kernel := Kernel (fun pfn => fst (sample_attributes pfn)) (page_scan sample_cats) 99 (2 ^ 47 - PAGE_SIZE) true.

Lemma page_scan_regs (cats : Z -> Z) (f : Z -> bool) (m e : Z) : e mod PAGE_SIZE = 0 -> forall n v, v <= e -> v mod PAGE_SIZE = 0 -> e - v <= Z.of_nat n * PAGE_SIZE ->
  forall lo, lo <= v -> regs_ok lo ((fun a => PageRegion a (a + PAGE_SIZE) (Z.land (cats a) m)) <$> filter (fun a => f a = true) (pages_in_range v e)) e.
Proof.
  intros He. induction n as [|n IH]; intros v Hve Hv Hn lo Hlo; [rewrite pages_range_nil by lia; cbn; lia|].
  destruct (Z.lt_ge_cases v e) as [Hlt|]; [|rewrite pages_range_nil by lia; cbn; lia]. rewrite pages_range_cons by done.
  destruct (next_page v Hv) as [Hnx _]. assert (Hle : v + PAGE_SIZE <= e).
  { pose proof (page_pfn_sub v e Hv He). unfold PAGE_SIZE in *. lia. }
  destruct (f v) eqn:Ef.
  - rewrite filter_cons_True by done. rewrite fmap_cons. cbn [regs_ok rg_start rg_end]. split; [unfold PAGE_SIZE; lia|]. split; [done|]. split; [done|].
    apply IH; [done|done|unfold PAGE_SIZE in *; lia|lia].
  - rewrite filter_cons_False by congruence. apply IH; [done|done|unfold PAGE_SIZE in *; lia|unfold PAGE_SIZE in *; lia].
Qed.

Lemma in_pages_range a v e : v mod PAGE_SIZE = 0 -> e mod PAGE_SIZE = 0 -> a mod PAGE_SIZE = 0 -> v <= a < e -> a ∈ pages_in_range v e.
Proof.
  intros Hv He Ha Hr. pose proof (page_pfn_sub v a Hv Ha) as E1. pose proof (page_pfn_sub v e Hv He) as E2. unfold pages_in_range, iov_pages. cbn [iov_base iov_len].
  replace a with (v + PAGE_PFN (a - v) * PAGE_SIZE) by lia. apply (list_elem_of_fmap_2 (fun j => v + j * PAGE_SIZE)). apply elem_of_seqZ.
  fold (PAGE_PFN (e - v)). unfold PAGE_SIZE in *. lia.
Qed.

Lemma page_scan_ok K cats : k_scan K = page_scan cats -> scan_ok K cats.
Proof.
  intros HK. split. intros args regs we Hse Hs He Hv. rewrite HK. intros [= <- <-]. split; [lia|]. split; [done|]. split; [|split].
  - apply (page_scan_regs _ (fun a => interesting args (cats a)) _ _ He (Z.to_nat (psa_end args - psa_start args))); try done; unfold PAGE_SIZE; lia.
  - intros r a Hr Ha Hin. apply list_elem_of_fmap_1 in Hr as (b & -> & Hb). apply list_elem_of_filter in Hb as [Hb1 Hb2].
    destruct (elem_pages_range b _ _ Hs He Hb2) as [_ Hba]. destruct (next_page b Hba) as [_ Hu]. rewrite (Hu a Ha Hin). done.
  - intros a Ha Hr Hi. exists (PageRegion a (a + PAGE_SIZE) (Z.land (cats a) (psa_return_mask args))). split.
    + apply (list_elem_of_fmap_2 (fun a => PageRegion a (a + PAGE_SIZE) (Z.land (cats a) (psa_return_mask args)))). apply list_elem_of_filter. split; [done|].
      by apply in_pages_range.
    + unfold in_region. cbn. unfold PAGE_SIZE. lia.
Qed.

Definition sample_vma : vma_area := VmaArea 0x1000 0x5000 (Z.lor MAP_ANONYMOUS MAP_PRIVATE) (Z.lor VMA_AREA_REGULAR VMA_ANON_PRIVATE) 3 0 0.
Definition sample_opts : mem_opts := MemOpts 1 true true false.
Definition sample_cache (scan : bool) : pmc_t := Pmc 0 0 true [] 4096 scan [] 512 0.

Lemma sample_vma_ok : vma_ok sample_vma.
Proof. split; cbn; [unfold PAGE_SIZE; lia|done]. Qed.

Lemma sample_cache_at scan : pmc_at sample_kernel sample_cats (sample_cache scan) 0x1000 /\ vma_fits sample_vma (sample_cache scan).
Proof.
  destruct (pmc_init_ok sample_kernel sample_cats [] scan false true 0x4000 (sample_cache scan) [] ltac:(lia) eq_refl) as (_ & _ & H1 & H2).
  split; [apply H1; lia|apply H2; cbn; lia].
Qed.

Lemma sample_pp_ok : pp_ok sample_pp /\ holes_ok sample_pp.
Proof.
  assert (Hget : 65536 < 0 \/ PAGE_SIZE <= 65536 < 2 ^ 31) by (right; unfold PAGE_SIZE; lia).
  assert (Hc : create_page_pipe true 65536 sample_setpipe [] 4 None 0 = Ret (Some sample_pp, [])) by reflexivity.
  destruct (create_page_pipe_ok true 65536 sample_setpipe Hget sample_setpipe_ok [] 4 None 0 _ [] ltac:(lia) ltac:(done) Hc) as (H1 & _).
  split; [exact H1|]. split; [vm_compute; split_and!; discriminate|]. apply Forall_nil_2.
Qed.

Lemma generate_iovs_correct_witness :
  exists ret pp' p' v' c al' rd' k,
    generate_iovs sample_kernel sample_opts 65536 sample_setpipe [] sample_vma true [] [] sample_pp (sample_cache true) 0x1000 = Ret (ret, pp', p', v', c, al', rd') /\
    pages_put sample_opts [] sample_vma true (changed sample_kernel sample_cats sample_vma true) (take k [0x1000; 0x3000]) sample_pp pp' (PageCounts 0 0 0 0) c.
Proof.
  destruct (generate_iovs_correct sample_kernel sample_cats (page_scan_ok sample_kernel sample_cats eq_refl) sample_opts 65536 sample_setpipe [] sample_vma true
    ltac:(right; unfold PAGE_SIZE; lia) sample_setpipe_ok [] [] sample_pp (sample_cache true) 0x1000 sample_vma_ok (proj2 (sample_cache_at true)) (proj1 (sample_cache_at true))
    ltac:(cbn; lia) eq_refl (proj1 sample_pp_ok) (proj2 sample_pp_ok) ltac:(vm_compute; discriminate))
    as (ret & pp' & p' & v' & c & al' & rd' & E & [(_ & _ & [])|(k & Hput & _)]); [split; [done|reflexivity]|].
  exists ret, pp', p', v', c, al', rd', k. split; [exact E|]. exact Hput.
Defined.

Lemma scan_equals_map_witness :
  exists ret pp' al' p1' v1 c1 rd1 p2' v2 c2 rd2,
    generate_iovs sample_kernel sample_opts 65536 sample_setpipe [] sample_vma true [] [] sample_pp (sample_cache true) 0x1000 = Ret (ret, pp', p1', v1, c1, al', rd1) /\
    generate_iovs sample_kernel sample_opts 65536 sample_setpipe [] sample_vma true [] [] sample_pp (sample_cache false) 0x1000 = Ret (ret, pp', p2', v2, c2, al', rd2) /\
    same_counts c1 c2.
Proof.
  destruct (scan_equals_map sample_kernel sample_cats sample_opts 65536 sample_setpipe [] sample_vma true [] sample_pp (sample_cache true) (sample_cache false) 0x1000
    (page_scan_ok sample_kernel sample_cats eq_refl) ltac:(done) ltac:(right; unfold PAGE_SIZE; lia) sample_setpipe_ok sample_vma_ok)
    as (ret & pp' & al' & p1' & v1 & c1 & rd1 & p2' & v2 & c2 & rd2 & E1 & E2 & E3 & _).
  - intros a Ha Hr. cbn [va_start va_end sample_vma] in Hr.
    assert (Hc : PAGE_PFN a = 1 \/ PAGE_PFN a = 2 \/ PAGE_PFN a = 3 \/ PAGE_PFN a = 4).
    { unfold PAGE_PFN, PAGE_SIZE in *. pose proof (Z.div_mod a 4096 ltac:(lia)). lia. }
    unfold sample_cats. split; cbn [k_pme sample_kernel has_pagemap_scan_guard_pages]; unfold sample_cats; destruct Hc as [-> |[-> |[-> | ->]]]; vm_compute; congruence.
  - reflexivity.
  - exact (proj1 (sample_cache_at true)).
  - exact (proj2 (sample_cache_at true)).
  - reflexivity.
  - exact (proj1 (sample_cache_at false)).
  - exact (proj2 (sample_cache_at false)).
  - cbn. lia.
  - reflexivity.
  - exact (proj1 sample_pp_ok).
  - exact (proj2 sample_pp_ok).
  - vm_compute. discriminate.
  - exists ret, pp', al', p1', v1, c1, rd1, p2', v2, c2, rd2. split; [exact E1|]. split; [exact E2|exact E3].
Defined.

Lemma pmc_get_map_correct_witness :
  exists p' rd', pmc_get_map sample_kernel false [] (sample_cache false) sample_vma [VmaArea 0x8000 0x9000 0x22 513 3 0 0] = Ret (true, p', rd') /\
    pmc_at sample_kernel sample_cats p' 0x1000.
Proof.
  destruct (pmc_get_map_correct sample_kernel sample_cats false [] (sample_cache false) sample_vma [VmaArea 0x8000 0x9000 0x22 513 3 0 0] 0x1000
    (page_scan_ok sample_kernel sample_cats eq_refl) (proj1 (sample_cache_at false)) ltac:(cbn; lia) ltac:(vm_compute; discriminate) sample_vma_ok (proj2 (sample_cache_at false)))
    as (ok & p' & rd' & E & _ & H1 & H2).
  - apply Forall_cons_2; [right; cbn; lia|apply Forall_nil_2].
  - cbn. unfold PAGE_SIZE. lia.
  - reflexivity.
  - assert (ok = true) as -> by (apply H1; done). destruct (H2 eq_refl) as [H3 _]. exists p', rd'. split; [exact E|exact H3].
Defined.

(** A page swapped out to the place with the number of the zero page is taken
    for the zero page: it is not dumped when /proc/pid/pagemap is read, as it
    is with PAGEMAP_SCAN. *)
Definition swapped_kernel : kernel := Kernel (fun _ => 2 ^ 62 + 99) (page_scan (fun _ => PAGE_IS_SWAPPED)) 99 (2 ^ 47 - PAGE_SIZE) true.
Example swapped_page_taken_for_zero :
  match should_dump_page swapped_kernel [] (sample_cache false) sample_vma 0x1000, should_dump_page swapped_kernel [] (sample_cache true) sample_vma 0x1000 with
  | Ret (Some i, _, _), Ret (Some j, _, _) => next i = 0x2000 /\ next j = 0x1000
  | _, _ => False
  end.
Proof. vm_compute. split; reflexivity. Qed.
