(* ===== verification/VmaList.v ===== *)
(** The list of the memory areas of a process: [vma_list_add]
    (criu/proc_parse.c), which [parse_smaps] calls for every area it has read,
    [collect_madv_guards] (criu/mem.c), which appends the ranges of guard pages,
    and [collect_mappings] (criu/cr-dump.c).  What the rest of a dump relies on:
    the areas ascend and stay apart, the page counts bound what is dumped, and
    the guard entries cover exactly the guard pages. *)
From S2P Require Import Prelude PagemapImage PageRead PagePipe PageSelect.

Definition VMA_AREA_UPROBES : Z := 2 ^ 17.
Definition VMA_UNSUPP : Z := 2 ^ 31.
Definition MAP_GROWSDOWN : Z := 0x100.

(** Numbers of [struct vm_area_list]. *)
Record vm_area_list := VmAreaList { vml_h : list vma_area; vml_nr : Z; nr_priv_pages : Z; nr_priv_pages_longest : Z; nr_shared_pages_longest : Z }.
Definition vm_area_list_init : vm_area_list := VmAreaList [] 0 0 0 0.

Definition vma_entry_is_private (task_size : Z) (vma : vma_area) : bool :=
  vma_entry_is vma VMA_AREA_REGULAR && (vma_entry_is vma VMA_ANON_PRIVATE || vma_entry_is vma VMA_FILE_PRIVATE) && (va_end vma <=? task_size) ||
  vma_entry_is vma VMA_AREA_SHSTK || vma_entry_is vma VMA_AREA_AIORING.

Definition set_start (s : Z) (vma : vma_area) : vma_area := VmaArea s (va_end vma) (va_flags vma) (va_status vma) (va_prot vma) (va_pgoff vma) (va_shmid vma).

Section VmaList.
Context (K : kernel) (stack_guard_gap_hidden : bool).

Definition vma_has_guard_gap_hidden (vma : vma_area) : bool := stack_guard_gap_hidden && has (va_flags vma) MAP_GROWSDOWN.

Definition vma_list_add (vma : vma_area) (vml : vm_area_list) (prev_end : Z) : bool * vm_area_list * Z :=
  if negb (has (va_status vma) VMA_EXT_PLUGIN) && has (va_status vma) VMA_AREA_UPROBES then (true, vml, prev_end)
  else if negb (has (va_status vma) VMA_EXT_PLUGIN) && has (va_status vma) VMA_UNSUPP then (false, vml, prev_end)
  else
    let vma := if vma_has_guard_gap_hidden vma && (prev_end <? va_start vma) then set_start (u64 (va_start vma - PAGE_SIZE)) vma else vma in
    let pages := vma_area_len vma / PAGE_SIZE in
    let private := vma_entry_is_private (task_size K) vma in
    (true,
     VmAreaList (vml_h vml ++ [vma]) (vml_nr vml + 1)
       (if private then u64 (nr_priv_pages vml + pages) else nr_priv_pages vml)
       (if private then Z.max (nr_priv_pages_longest vml) pages else nr_priv_pages_longest vml)
       (if negb private && vma_entry_is vma VMA_ANON_SHARED then Z.max (nr_shared_pages_longest vml) pages else nr_shared_pages_longest vml),
     va_end vma).

(** The areas [parse_smaps] has read, one after the other. *)
Fixpoint add_vmas (l : list vma_area) (vml : vm_area_list) (prev_end : Z) : bool * vm_area_list :=
  match l with
  | [] => (true, vml)
  | vma :: l =>
      let '(ok, vml, prev_end) := vma_list_add vma vml prev_end in
      if negb ok then (false, vml) else add_vmas l vml prev_end
  end.

Definition guard_entry (r : page_region) : vma_area := VmaArea (rg_start r) (rg_end r) 0 VMA_AREA_GUARD 0 0 0.
Definition add_guard (r : page_region) (vml : vm_area_list) : vm_area_list :=
  VmAreaList (vml_h vml ++ [guard_entry r]) (vml_nr vml + 1) (nr_priv_pages vml) (nr_priv_pages_longest vml) (nr_shared_pages_longest vml).

Fixpoint add_guards (al : list bool) (regs : list page_region) (vml : vm_area_list) : outcome (bool * vm_area_list * list bool) :=
  match regs with
  | [] => Ret (true, vml, al)
  | r :: regs =>
      if negb (has (rg_categories r) PAGE_IS_GUARD) then Bug
      else
        let '(ok, al) := xalloc al in
        if negb ok then Ret (false, vml, al) else add_guards al regs (add_guard r vml)
  end.

(** The do-while loop. *)
Fixpoint guards_loop (fuel : nat) (al : list bool) (start : Z) (vml : vm_area_list) : outcome (bool * vm_area_list * list bool) :=
  match k_scan K (PmScanArg start (task_size K) 1000 0 PAGE_IS_GUARD 0 PAGE_IS_GUARD) with
  | None => Ret (false, vml, al)
  | Some (regs, walk_end) =>
      let! (ok, vml, al) := add_guards al regs vml in
      if negb ok then Ret (false, vml, al)
      else if walk_end =? task_size K then Ret (true, vml, al)
      else match fuel with O => NoFuel | S fuel => guards_loop fuel al walk_end vml end
  end.

(** [opened]: does open_proc() succeed. *)
Definition collect_madv_guards (al : list bool) (opened : bool) (vml : vm_area_list) : outcome (bool * vm_area_list * list bool) :=
  if negb (has_pagemap_scan_guard_pages K) then Ret (true, vml, al)
  else if negb opened then Ret (false, vml, al)
  else
    let '(ok, al) := xalloc al in
    if negb ok then Ret (false, vml, al) else guards_loop (Z.to_nat (task_size K / PAGE_SIZE)) al 0 vml.

(** [areas]: what [parse_smaps] reads; [dump_file]: not a pre-dump. *)
Definition collect_mappings (al : list bool) (opened dump_file : bool) (areas : list vma_area) : outcome (bool * vm_area_list * list bool) :=
  let '(ok, vml) := add_vmas areas vm_area_list_init 0 in
  if negb ok then Ret (false, vml, al)
  else if dump_file then collect_madv_guards al opened vml else Ret (true, vml, al).

(** ** The areas *)

(** What the kernel shows: areas of whole pages, ascending and apart, not at the
    bottom of the address space ([lo]), none of them a guard entry. *)
Fixpoint areas_ok (lo u : Z) (l : list vma_area) : Prop :=
  match l with
  | [] => True
  | vma :: l => u <= va_start vma /\ lo < va_start vma /\ vma_ok vma /\ vma_entry_is vma VMA_AREA_GUARD = false /\ areas_ok lo (va_end vma) l
  end.

(** The private pages of an area. *)
Definition private_pages (vma : vma_area) : Z := if vma_entry_is_private (task_size K) vma then vma_area_len vma / PAGE_SIZE else 0.

(** What is known of the list after the areas up to [u]. *)
Record vml_ok (vml : vm_area_list) (u : Z) : Prop := VmlOk {
  vl_ascending : areas_ok 0 0 (vml_h vml);
  vl_below : Forall (fun w => va_end w <= u) (vml_h vml);
  vl_nr : vml_nr vml = zlen (vml_h vml);
  vl_priv : nr_priv_pages vml = foldr Z.add 0 (private_pages <$> vml_h vml);
  vl_longest : Forall (fun w => (vma_entry_is_private (task_size K) w = true -> vma_area_len w / PAGE_SIZE <= nr_priv_pages_longest vml) /\
    (vma_entry_is_private (task_size K) w = false -> vma_entry_is w VMA_ANON_SHARED = true -> vma_area_len w / PAGE_SIZE <= nr_shared_pages_longest vml)) (vml_h vml);
  vl_longest_pos : 0 <= nr_priv_pages_longest vml /\ 0 <= nr_shared_pages_longest vml /\ 0 <= u /\ u mod PAGE_SIZE = 0
}.

Lemma areas_ok_mono lo u u' l : areas_ok lo u l -> u' <= u -> areas_ok lo u' l.
Proof. destruct l as [|vma l]; [done|]. cbn. intros (A1 & A2) Hu. split; [lia|done]. Qed.

Lemma areas_ok_snoc lo vma v l : forall u, areas_ok lo u l -> Forall (fun w => va_end w <= v) l -> u <= va_start vma -> v <= va_start vma -> lo < va_start vma -> vma_ok vma ->
  vma_entry_is vma VMA_AREA_GUARD = false -> areas_ok lo u (l ++ [vma]).
Proof.
  induction l as [|w l IH]; intros u Hl Hb H1 H2 H3 H4 H5; [done|]. cbn in *. destruct Hl as (A1 & A2 & A3 & A4 & A5). apply Forall_cons_1 in Hb as [B1 B2].
  split_and!; try done. apply IH; try done. lia.
Qed.

Lemma vma_len vma : vma_ok vma -> vma_area_len vma = va_end vma - va_start vma /\ vma_area_len vma / PAGE_SIZE * PAGE_SIZE = va_end vma - va_start vma /\
  0 < vma_area_len vma / PAGE_SIZE.
Proof.
  intros [[V1 V2] [V3 V4]]. unfold vma_area_len. rewrite u64_small by (unfold PAGE_SIZE in *; lia). split; [done|].
  pose proof (page_pfn_sub (va_start vma) (va_end vma) V3 V4) as E. unfold PAGE_PFN in E. unfold PAGE_SIZE in *. lia.
Qed.

Lemma private_pages_bound lo l : forall u v, areas_ok lo u l -> Forall (fun w => va_end w <= v) l -> u <= v ->
  0 <= foldr Z.add 0 (private_pages <$> l) * PAGE_SIZE <= v - u.
Proof.
  induction l as [|w l IH]; intros u v Hl Hb Hu; [cbn; unfold PAGE_SIZE; lia|]. cbn in Hl. destruct Hl as (A1 & A2 & A3 & A4 & A5). apply Forall_cons_1 in Hb as [B1 B2].
  destruct (vma_len w A3) as (E1 & E2 & E3). specialize (IH (va_end w) v A5 B2 B1). cbn [fmap list_fmap foldr]. unfold private_pages at 1 3.
  destruct (vma_entry_is_private (task_size K) w); unfold PAGE_SIZE in *; lia.
Qed.

(** An area more. *)
Lemma vma_list_add_ok vma vml u : vml_ok vml u -> u <= va_start vma -> PAGE_SIZE < va_start vma -> vma_ok vma -> vma_entry_is vma VMA_AREA_GUARD = false ->
  let '(ok, vml', u') := vma_list_add vma vml u in vml_ok vml' u' /\ u' <= va_end vma.
Proof.
  intros [L1 L2 L3 L4 L5 L6] Hu Hlo Hv Hg. unfold vma_list_add. destruct Hv as [[V1 V2] [V3 V4]].
  destruct (negb _ && has _ VMA_AREA_UPROBES); [split; [by split|lia]|]. destruct (negb _ && has _ VMA_UNSUPP); [split; [by split|lia]|].
  set (w := if vma_has_guard_gap_hidden vma && _ then _ else _).
  assert (Hw : u <= va_start w /\ 0 < va_start w /\ vma_ok w /\ va_end w = va_end vma /\ vma_entry_is w VMA_AREA_GUARD = false).
  { unfold w. destruct (vma_has_guard_gap_hidden vma && (u <? va_start vma)) eqn:E.
    - apply andb_true_iff in E as [_ E%Z.ltb_lt]. cbn [va_start va_end set_start].
      destruct (next_page (va_start vma - PAGE_SIZE)) as [_ _]; [unfold PAGE_SIZE in *; by rewrite Zminus_mod, V3|]. destruct L6 as (_ & _ & L6 & L7).
      assert (Hs : u64 (va_start vma - PAGE_SIZE) = va_start vma - PAGE_SIZE) by (apply u64_small; unfold PAGE_SIZE in *; lia). rewrite Hs.
      assert (Hm : (va_start vma - PAGE_SIZE) mod PAGE_SIZE = 0) by (unfold PAGE_SIZE in *; by rewrite Zminus_mod, V3).
      split; [unfold PAGE_SIZE in *; pose proof (Z.div_mod u 4096 ltac:(lia)); pose proof (Z.div_mod (va_start vma) 4096 ltac:(lia)); lia|].
      split; [lia|]. split; [split; cbn; [unfold PAGE_SIZE in *; lia|done]|done].
    - split; [done|]. split; [unfold PAGE_SIZE in *; lia|]. done. }
  clearbody w. destruct Hw as (W1 & W2 & W3 & W4 & W5). rewrite <- W4. clear V1 V2 V3 V4 Hu Hlo Hg W4 vma. split; [|done]. destruct (vma_len w W3) as (E1 & E2 & E3). pose proof W3 as [[V1 V2] [V3 V4]].
  assert (Hsum : nr_priv_pages vml + private_pages w < 2 ^ 64 /\ 0 <= nr_priv_pages vml).
  { rewrite L4. pose proof (private_pages_bound 0 (vml_h vml) 0 u L1 L2 ltac:(lia)). unfold private_pages at 2. destruct (vma_entry_is_private (task_size K) w); unfold PAGE_SIZE in *; lia. }
  split; cbn [vml_h vml_nr nr_priv_pages nr_priv_pages_longest nr_shared_pages_longest].
  - apply (areas_ok_snoc 0 w u); try done; lia.
  - apply Forall_app. split; [eapply Forall_impl; [exact L2|]; intros x Hx; cbv beta in *; lia|]. apply Forall_cons_2; [done|constructor].
  - rewrite zlen_app, L3. done.
  - rewrite fmap_app, foldr_app. cbn [fmap list_fmap foldr]. rewrite L4 in *. assert (Hq : private_pages w = if vma_entry_is_private (task_size K) w then vma_area_len w / PAGE_SIZE else 0) by done.
    assert (Hf : forall l c, foldr Z.add c l = foldr Z.add 0 l + c) by (induction l as [|x l IHl]; intros c; cbn; [lia|rewrite IHl; lia]).
    rewrite (Hf _ (private_pages w + 0)). destruct (vma_entry_is_private (task_size K) w); [rewrite u64_small by (unfold PAGE_SIZE in *; lia)|]; lia.
  - apply Forall_app. split.
    + eapply Forall_impl; [exact L5|]. intros x [X1 X2]. split; intros Y1; [specialize (X1 Y1)|intros Y2; specialize (X2 Y1 Y2)];
        destruct (vma_entry_is_private (task_size K) w); cbn [negb andb]; try destruct (vma_entry_is w VMA_ANON_SHARED); lia.
    + apply Forall_cons_2; [|constructor]. destruct (vma_entry_is_private (task_size K) w); cbn [negb andb]; (split; [intros Y1|intros Y1 Y2]); try done; try lia. rewrite Y2. lia.
  - destruct (vma_entry_is_private (task_size K) w), (vma_entry_is w VMA_ANON_SHARED); cbn [negb andb]; split_and!; try done; lia.
Qed.

Lemma add_vmas_ok l : forall vml u, vml_ok vml u -> areas_ok PAGE_SIZE u l -> let '(ok, vml') := add_vmas l vml u in ok = true -> exists u', vml_ok vml' u'.
Proof.
  induction l as [|vma l IH]; intros vml u Hv Hl; cbn [add_vmas]; [by exists u|]. cbn in Hl. destruct Hl as (A1 & A2 & A3 & A4 & A5).
  pose proof (vma_list_add_ok vma vml u Hv A1 A2 A3 A4) as H. destruct (vma_list_add vma vml u) as [[ok vml'] u']. destruct H as [H1 H2]. destruct ok; cbn [negb]; [|done].
  apply IH; [done|]. by eapply areas_ok_mono.
Qed.

(** Areas left out, areas that make the dump fail. *)
Definition skipped (vma : vma_area) : bool := negb (has (va_status vma) VMA_EXT_PLUGIN) && has (va_status vma) VMA_AREA_UPROBES.
Definition unsupported (vma : vma_area) : bool := negb (skipped vma) && negb (has (va_status vma) VMA_EXT_PLUGIN) && has (va_status vma) VMA_UNSUPP.

(** [w] is the area [vma], extended by the hidden guard page where there is one. *)
Definition listed_as (vma w : vma_area) : Prop := w = vma \/ vma_has_guard_gap_hidden vma = true /\ w = set_start (u64 (va_start vma - PAGE_SIZE)) vma.

Lemma add_vmas_listed l : forall vml u, let '(ok, vml') := add_vmas l vml u in
  (ok = true -> exists vs, vml_h vml' = vml_h vml ++ vs /\ Forall2 listed_as (filter (fun v => skipped v = false) l) vs) /\
  (Forall (fun v => unsupported v = false) l -> ok = true).
Proof.
  induction l as [|vma l IH]; intros vml u; cbn [add_vmas]; [split; [|done]; intros _; exists []; by rewrite app_nil_r|].
  unfold vma_list_add. change (negb (has (va_status vma) VMA_EXT_PLUGIN) && has (va_status vma) VMA_AREA_UPROBES) with (skipped vma). destruct (skipped vma) eqn:Es; cbn [negb].
  { rewrite filter_cons_False by congruence. specialize (IH vml u). destruct (add_vmas l vml u) as [ok vml']. split; [apply IH|]. intros Hf. apply Forall_cons_1 in Hf as [_ Hf]. by apply IH. }
  assert (Hun : unsupported vma = negb (has (va_status vma) VMA_EXT_PLUGIN) && has (va_status vma) VMA_UNSUPP) by (unfold unsupported; by rewrite Es). rewrite <- Hun.
  destruct (unsupported vma) eqn:Eu; cbn [negb]; [split; [done|]; intros Hf; apply Forall_cons_1 in Hf as [? _]; congruence|].
  rewrite filter_cons_True by done. set (w := if vma_has_guard_gap_hidden vma && _ then _ else _).
  assert (Hw : listed_as vma w) by (unfold w, listed_as; destruct (vma_has_guard_gap_hidden vma); cbn [andb]; [destruct (u <? va_start vma)|]; auto).
  match goal with |- context [add_vmas l ?v ?e] => specialize (IH v e); destruct (add_vmas l v e) as [ok vml'] end. destruct IH as [I1 I2]. split.
  - intros Hok. destruct (I1 Hok) as (vs & E & Hvs). exists (w :: vs). cbn [vml_h] in E. rewrite E, <- app_assoc. split; [done|]. by constructor.
  - intros Hf. apply Forall_cons_1 in Hf as [_ Hf]. by apply I2.
Qed.

(** ** The guard entries *)
Context (cats : Z -> Z) (Hscan : scan_ok K cats) (Htask : 0 < task_size K /\ task_size K mod PAGE_SIZE = 0).

Definition with_guards (gs : list page_region) (vml : vm_area_list) : vm_area_list :=
  VmAreaList (vml_h vml ++ (guard_entry <$> gs)) (vml_nr vml + zlen gs) (nr_priv_pages vml) (nr_priv_pages_longest vml) (nr_shared_pages_longest vml).

Lemma with_guards_nil vml : with_guards [] vml = vml.
Proof. destruct vml. unfold with_guards. cbn. by rewrite app_nil_r, Z.add_0_r. Qed.
Lemma with_guards_app g1 g2 vml : with_guards g2 (with_guards g1 vml) = with_guards (g1 ++ g2) vml.
Proof. unfold with_guards. cbn. rewrite fmap_app, zlen_app, app_assoc. f_equal. lia. Qed.

Lemma add_guards_ok regs : Forall (fun r => has (rg_categories r) PAGE_IS_GUARD = true) regs -> forall al vml,
  exists ok vml' al', add_guards al regs vml = Ret (ok, vml', al') /\ (ok = true -> vml' = with_guards regs vml) /\ (al = [] -> ok = true /\ al' = []).
Proof.
  induction 1 as [|r regs Hr _ IH]; intros al vml; cbn [add_guards]; [eexists _, _, _; split; [done|]; by rewrite with_guards_nil|].
  rewrite Hr. cbn [negb]. destruct (xalloc al) as [[] al1] eqn:Ea; cbn [negb]; [|eexists _, _, _; split; [done|]; split; [done|]; intros ->; done].
  destruct (IH al1 (add_guard r vml)) as (ok & vml' & al' & -> & I1 & I2). exists ok, vml', al'. split; [done|]. split.
  - intros Hok. rewrite (I1 Hok). apply (with_guards_app [r] regs).
  - intros ->. injection Ea as <-. by apply I2.
Qed.

Lemma regs_ok_app a r1 b r2 c : regs_ok a r1 b -> regs_ok b r2 c -> regs_ok a (r1 ++ r2) c.
Proof.
  revert a. induction r1 as [|r r1 IH]; intros a H1 H2; cbn in *.
  - destruct r2 as [|r r2]; cbn in *; [lia|]. destruct H2 as (? & ? & ? & ?). split_and!; try done; lia.
  - destruct H1 as (? & ? & ? & H1). split_and!; try done; try lia. by apply IH.
Qed.

(** The ranges [gs] are the guard pages from [u] to [v]. *)
Definition guards_exact (u v : Z) (gs : list page_region) : Prop :=
  regs_ok u gs v /\ forall a, a mod PAGE_SIZE = 0 -> u <= a < v -> (exists r, r ∈ gs /\ in_region a r) <-> has (cats a) PAGE_IS_GUARD = true.

Lemma regs_ok_bounds a l b r : regs_ok a l b -> r ∈ l -> a <= rg_start r < rg_end r /\ rg_end r <= b /\ rg_start r mod PAGE_SIZE = 0.
Proof.
  revert a. induction l as [|q l IH]; intros a Hl Hr; [by apply elem_of_nil in Hr|]. cbn in Hl. destruct Hl as (L1 & L2 & L3 & L4).
  assert (Hle : rg_end q <= b). { clear - L4. revert q L4. induction l as [|p l IH]; intros q L4; cbn in L4; [done|]. destruct L4 as (? & _ & _ & L4). specialize (IH p L4). lia. }
  apply elem_of_cons in Hr as [->|Hr]; [done|]. destruct (IH _ L4 Hr) as (? & ? & ?). split_and!; try done; lia.
Qed.

Lemma guards_exact_app u v w g1 g2 : guards_exact u v g1 -> guards_exact v w g2 -> guards_exact u w (g1 ++ g2).
Proof.
  intros [A1 A2] [B1 B2]. split; [by eapply regs_ok_app|]. intros a Ha Hr. destruct (Z.lt_ge_cases a v) as [Hlt|Hge].
  - rewrite <- (A2 a Ha) by lia. split; intros (r & Hin & Hi); exists r; (split; [|done]); [|apply elem_of_app; by left].
    apply elem_of_app in Hin as [?|Hin]; [done|]. destruct (regs_ok_bounds _ _ _ _ B1 Hin). unfold in_region in *. lia.
  - rewrite <- (B2 a Ha) by lia. split; intros (r & Hin & Hi); exists r; (split; [|done]); [|apply elem_of_app; by right].
    apply elem_of_app in Hin as [Hin|?]; [|done]. destruct (regs_ok_bounds _ _ _ _ A1 Hin) as (_ & ? & _). unfold in_region in *. lia.
Qed.

Lemma land_bit c n : 0 <= n -> Z.land c (2 ^ n) = if Z.testbit c n then 2 ^ n else 0.
Proof.
  intros Hn. apply Z.bits_inj'. intros m Hm. rewrite Z.land_spec, Z.pow2_bits_eqb by done. destruct (Z.eqb_spec n m) as [->|Hne].
  - rewrite andb_true_r. destruct (Z.testbit c m) eqn:E; [by rewrite Z.pow2_bits_true|by rewrite Z.bits_0].
  - rewrite andb_false_r. destruct (Z.testbit c n); [by rewrite Z.pow2_bits_false|by rewrite Z.bits_0].
Qed.

Lemma guard_interesting s e n c : interesting (PmScanArg s e n 0 PAGE_IS_GUARD 0 PAGE_IS_GUARD) c = has c PAGE_IS_GUARD.
Proof.
  unfold interesting, has. cbn [psa_category_inverted psa_category_mask psa_category_anyof_mask]. rewrite Z.lxor_0_r. cbn [Z.eqb orb]. rewrite andb_true_r.
  change PAGE_IS_GUARD with (2 ^ 8). rewrite (land_bit c 8) by lia. by destruct (Z.testbit c 8).
Qed.

Lemma guards_loop_ok fuel : forall al start vml, 0 <= start < task_size K -> start mod PAGE_SIZE = 0 -> task_size K - start <= Z.of_nat (S fuel) * PAGE_SIZE ->
  exists ok vml' al', guards_loop fuel al start vml = Ret (ok, vml', al') /\
    (ok = true -> exists gs, vml' = with_guards gs vml /\ guards_exact start (task_size K) gs) /\ (calm_kernel K -> al = [] -> ok = true /\ al' = []).
Proof.
  induction fuel as [|fuel IH]; intros al start vml Hs Ha Hf; cbn [guards_loop].
  all: set (args := PmScanArg _ _ _ _ _ _ _); destruct (k_scan K args) as [[regs we]|] eqn:Ek; [|eexists _, _, _; split; [done|]; split; [done|]; intros Hc; by destruct (Hc args)].
  all: destruct (so_end K cats Hscan args regs we ltac:(cbn; lia) Ha ltac:(apply Htask) ltac:(done) Ek) as (S1 & S2 & S3 & S4 & S5); cbn [psa_start psa_end args] in S1, S3, S5.
  all: assert (Hx : guards_exact start we regs);
    [split; [done|]; intros a Ha0 Hr; rewrite <- (guard_interesting start (task_size K) 1000 (cats a)); split; [intros (r & Hin & Hi); by destruct (S4 r a Hin Ha0 Hi)|by apply S5]|].
  all: assert (Hg : Forall (fun r => has (rg_categories r) PAGE_IS_GUARD = true) regs);
    [apply Forall_forall; intros r Hin; destruct (regs_ok_bounds _ _ _ _ S3 Hin) as (R1 & _ & R2); destruct (S4 r (rg_start r) Hin R2 ltac:(unfold in_region; lia)) as [S6 ->];
     unfold args in S6; rewrite guard_interesting in S6; cbn [psa_return_mask args]; unfold has in *; by rewrite <- Z.land_assoc, Z.land_diag|].
  all: destruct (add_guards_ok regs Hg al vml) as (ok & vml1 & al1 & -> & G1 & G2); cbn [obind]; destruct ok; cbn [negb]; [|eexists _, _, _; split; [done|]; split; [done|]; intros _ Hal; by destruct (G2 Hal)].
  all: rewrite (G1 eq_refl); destruct (Z.eqb_spec we (task_size K)) as [->|Hne];
    [eexists _, _, _; split; [done|]; split; [intros _; by exists regs|intros _ Hal; by destruct (G2 Hal)]|].
  - destruct Htask as [_ Ht]. exfalso. unfold PAGE_SIZE in *. pose proof (Z.div_mod we 4096 ltac:(lia)). pose proof (Z.div_mod (task_size K) 4096 ltac:(lia)). pose proof (Z.div_mod start 4096 ltac:(lia)). lia.
  - assert (Hw : start + PAGE_SIZE <= we) by (unfold PAGE_SIZE in *; pose proof (Z.div_mod we 4096 ltac:(lia)); pose proof (Z.div_mod start 4096 ltac:(lia)); lia).
    destruct (IH al1 we (with_guards regs vml) ltac:(lia) S2 ltac:(unfold PAGE_SIZE in *; lia)) as (ok & vml' & al' & -> & I1 & I2). exists ok, vml', al'. split; [done|]. split.
    + intros Hok. destruct (I1 Hok) as (gs & -> & Hgs). exists (regs ++ gs). split; [by rewrite with_guards_app|by eapply guards_exact_app].
    + intros Hc Hal. apply I2; [done|]. by destruct (G2 Hal).
Qed.

Lemma vml_ok_init : vml_ok vm_area_list_init 0.
Proof. split; cbn; try done; constructor. Qed.

Lemma collect_mappings_spec al opened dump_file areas : areas_ok PAGE_SIZE 0 areas ->
  exists ok vml al', collect_mappings al opened dump_file areas = Ret (ok, vml, al') /\
    (ok = true -> exists base gs, vml = with_guards gs base /\ (exists u, vml_ok base u) /\
       Forall2 listed_as (filter (fun v => skipped v = false) areas) (vml_h base) /\
       if dump_file && has_pagemap_scan_guard_pages K then guards_exact 0 (task_size K) gs else gs = []) /\
    (Forall (fun v => unsupported v = false) areas -> opened = true -> calm_kernel K -> al = [] -> ok = true).
Proof.
  intros Ha. unfold collect_mappings. pose proof (add_vmas_ok areas vm_area_list_init 0 vml_ok_init Ha) as H1. pose proof (add_vmas_listed areas vm_area_list_init 0) as H23.
  destruct (add_vmas areas vm_area_list_init 0) as [ok vml]. destruct H23 as [H2 H3]. destruct ok; cbn [negb]; [|eexists _, _, _; split; [done|]; split; [done|]; intros Hu; by specialize (H3 Hu)].
  destruct (H2 eq_refl) as (vs & E & Hl). cbn in E. rewrite <- E in Hl. specialize (H1 eq_refl). assert (H0 : forall P : list page_region -> Prop, P [] -> exists base gs, vml = with_guards gs base /\ (exists u, vml_ok base u) /\ Forall2 listed_as (filter (fun v => skipped v = false) areas) (vml_h base) /\ P gs).
  { intros P HP. exists vml, []. by rewrite with_guards_nil. }
  destruct dump_file; cbn [andb]; [|eexists _, _, _; split; [done|]; split; [intros _; by apply (H0 (fun gs => gs = []))|done]].
  unfold collect_madv_guards. destruct (has_pagemap_scan_guard_pages K); cbn [negb]; [|eexists _, _, _; split; [done|]; split; [intros _; by apply (H0 (fun gs => gs = []))|done]].
  destruct opened; cbn [negb]; [|by eexists _, _, _]. destruct (xalloc al) as [[] al1] eqn:Ea; cbn [negb]; [|eexists _, _, _; split; [done|]; split; [done|]; intros _ _ _ ->; done].
  destruct (guards_loop_ok (Z.to_nat (task_size K / PAGE_SIZE)) al1 0 vml ltac:(lia) ltac:(done)) as (ok & vml' & al' & -> & G1 & G2).
  { unfold PAGE_SIZE. pose proof (Z.div_mod (task_size K) 4096 ltac:(lia)). pose proof (Z.mod_pos_bound (task_size K) 4096 ltac:(lia)). pose proof (Z.div_pos (task_size K) 4096 ltac:(lia)). lia. }
  exists ok, vml', al'. split; [done|]. split.
  - intros Hok. destruct (G1 Hok) as (gs & -> & Hgs). by exists vml, gs.
  - intros _ _ Hc ->. injection Ea as <-. by apply G2.
Qed.

(** C10. The list of the memory areas is right.  For the areas the kernel shows
    (whole pages, ascending, apart), [collect_mappings] returns; when it succeeds
    the list holds exactly the areas that are not uprobes areas, in order, still
    ascending and apart although the hidden guard page of a stack was put back;
    [nr_priv_pages] is the number of their private pages (no overflow) and the
    longest areas are known; behind them come, unless it is a pre-dump, guard
    entries that cover exactly the guard pages of the process (the BUG_ON does
    not fire, the scan loop ends).  It succeeds if no area is unsupported and no
    system call fails. *)
Theorem collect_mappings_correct al opened dump_file areas : areas_ok PAGE_SIZE 0 areas ->
  exists ok vml al', collect_mappings al opened dump_file areas = Ret (ok, vml, al') /\
    (ok = true -> exists base gs, vml = with_guards gs base /\ (exists u, vml_ok base u) /\
       Forall2 listed_as (filter (fun v => skipped v = false) areas) (vml_h base) /\
       if dump_file && has_pagemap_scan_guard_pages K then guards_exact 0 (task_size K) gs else gs = []) /\
    (Forall (fun v => unsupported v = false) areas -> opened = true -> calm_kernel K -> al = [] -> ok = true).
Proof. apply collect_mappings_spec. Qed.
End VmaList.

(** A stack with a hidden guard page behind a private area; one guard page. *)
Definition sample_areas : list vma_area :=
  [VmaArea 0x10000 0x13000 0x22 513 3 0 0; VmaArea 0x20000 0x22000 0x122 513 3 0 0].
Definition sample_guard_cats (a : Z) : Z := if PAGE_PFN a =? 0x11 then PAGE_IS_GUARD else 0.
Definition sample_guard_kernel : kernel := Kernel (fun _ => 0) (page_scan sample_guard_cats) 99 (2 ^ 47 - PAGE_SIZE) true.

Lemma collect_mappings_correct_witness : exists base gs al',
  collect_mappings sample_guard_kernel true [] true true sample_areas = Ret (true, with_guards gs base, al') /\
  (exists u, vml_ok sample_guard_kernel base u) /\ (exists r, r ∈ gs /\ in_region 0x11000 r) /\ (forall r, r ∈ gs -> ~ in_region 0x12000 r).
Proof.
  destruct (collect_mappings_correct sample_guard_kernel true sample_guard_cats (page_scan_ok sample_guard_kernel sample_guard_cats eq_refl) ltac:(by split) [] true true sample_areas)
    as (ok & vml & al' & E & H1 & H2).
  { cbn. unfold PAGE_SIZE. split_and!; try done; split; cbn; unfold PAGE_SIZE; try done; lia. }
  assert (Hok : ok = true).
  { clear E H1. apply H2; [repeat constructor|reflexivity|intros args; discriminate|reflexivity]. }
  subst ok. destruct (H1 eq_refl) as (base & gs & -> & B1 & _ & B2 & B3).
  exists base, gs, al'. split; [exact E|]. split; [exact B1|]. split; [apply B3; [reflexivity|split; [discriminate|reflexivity]|reflexivity]|].
  intros r Hr Hi. assert (Hx : has (sample_guard_cats 0x12000) PAGE_IS_GUARD = true); [|discriminate Hx]. apply B3; [reflexivity|split; [discriminate|reflexivity]|]. exists r. split; [exact Hr|exact Hi].
Defined.
