(* ===== verification/CowVmas.v ===== *)
(** Which areas of a child may share pages with its parent: [check_cow_vmas],
    [prepare_cow_vmas_for] and [prepare_cow_vmas] of criu/mem.c.  The restorer
    maps such an area by moving the parent's, pages included, so that pages with
    equal contents stay shared.  The pairing walks over the two ascending lists
    at once and stops at the guard entries, which come last. *)
From S2P Require Import Prelude PagemapImage PageRead PagePipe PageSelect VmaList.

Definition VMA_AREA_NOT_ACCOUNTABLE : Z := 2 ^ 18.

(** [vma->pvma]: NULL, VMA_COW_ROOT, or an area of the parent by its place. *)
Inductive cow := CowNone | CowRoot | CowOf (j : nat).

(** An area while it is restored: the fields of [struct vma_area] that a
    restore uses; [rv_open]: [vm_open] is not NULL. *)
Record rst_vma := RstVma {
  rv_e : vma_area;
  rv_pvma : cow;
  rv_bitmap : list bool;
  premmaped_addr : Z;
  rv_open : bool
}.
Definition set_pvma (p : cow) (v : rst_vma) : rst_vma := RstVma (rv_e v) p (rv_bitmap v) (premmaped_addr v) (rv_open v).
Definition rv_start (v : rst_vma) : Z := va_start (rv_e v).
Definition rv_end (v : rst_vma) : Z := va_end (rv_e v).
Definition rv_is (v : rst_vma) (s : Z) : bool := vma_entry_is (rv_e v) s.

Section Cow.
Context (task_size : Z).

Definition check_cow_vmas (vma pvma : vma_area) : bool :=
  if negb (va_end vma =? va_end pvma) then false
  else if negb (vma_entry_is_private task_size vma) then false
  else if negb (vma_entry_is_private task_size pvma) then false
  else if has (va_flags vma) MAP_HUGETLB || has (va_flags pvma) MAP_HUGETLB then false
  else if has (Z.lxor (va_flags vma) (va_flags pvma)) (Z.lor MAP_GROWSDOWN MAP_ANONYMOUS) then false
  else if negb (has (va_flags vma) MAP_ANONYMOUS) && negb (va_shmid vma =? va_shmid pvma) then false
  else if vma_entry_is vma VMA_AREA_NOT_ACCOUNTABLE || vma_entry_is pvma VMA_AREA_NOT_ACCOUNTABLE then false
  else true.

Definition vma_inherited (v : rst_vma) : bool := match rv_pvma v with CowOf _ => true | _ => false end.

(** An inner loop: step on while [cont] holds of the start; [None]: the list
    or its areas are over. *)
Fixpoint cow_advance (fuel : nat) (l : list rst_vma) (i : nat) (cont : Z -> bool) : outcome (option nat) :=
  match l !! i with
  | None => Bug
  | Some v =>
      if cont (rv_start v) then
        match fuel with
        | O => NoFuel
        | S fuel =>
            match l !! S i with
            | None => Ret None
            | Some w => if rv_is w VMA_AREA_GUARD then Ret None else cow_advance fuel l (S i) cont
            end
        end
      else Ret (Some i)
  end.

Fixpoint cow_loop (fuel : nat) (vmas pvmas : list rst_vma) (i j : nat) : outcome (list rst_vma * list rst_vma) :=
  match fuel with
  | O => NoFuel
  | S fuel =>
      match vmas !! i, pvmas !! j with
      | Some vma, Some pvma =>
          let '(vmas, pvmas) :=
            if (rv_start vma =? rv_start pvma) && check_cow_vmas (rv_e vma) (rv_e pvma) then
              (<[i := set_pvma (CowOf j) vma]> vmas,
               match rv_pvma pvma with CowNone => <[j := set_pvma CowRoot pvma]> pvmas | _ => pvmas end)
            else (vmas, pvmas) in
          let! i' := cow_advance (length vmas) vmas i (fun s => s <=? rv_start pvma) in
          match i' with
          | None => Ret (vmas, pvmas)
          | Some i =>
              match vmas !! i with
              | None => Bug
              | Some vma =>
                  let! j' := cow_advance (length pvmas) pvmas j (fun s => s <? rv_start vma) in
                  match j' with
                  | None => Ret (vmas, pvmas)
                  | Some j => cow_loop fuel vmas pvmas i j
                  end
              end
          end
      | _, _ => Bug
      end
  end.

Definition prepare_cow_vmas_for (vmas pvmas : list rst_vma) : outcome (list rst_vma * list rst_vma) :=
  cow_loop (length vmas + length pvmas) vmas pvmas 0 0.

(** ** All processes *)

(** A process of the tree: its parent, the identifier of its executable, its
    areas. *)
Record cow_task := CowTask { ct_parent : option nat; ct_exe : Z; ct_vmas : list rst_vma }.

Definition prepare_cow_task (tasks : list cow_task) (n : nat) : outcome (list cow_task) :=
  match tasks !! n with
  | None => Ret tasks
  | Some t =>
      match ct_parent t with
      | None => Ret tasks
      | Some p =>
          match tasks !! p with
          | None => Bug
          | Some pt =>
              if bool_decide (ct_vmas t = []) then Ret tasks
              else if bool_decide (ct_vmas pt = []) then Ret tasks
              else if negb (ct_exe t =? ct_exe pt) then Ret tasks
              else
                let! (vmas, pvmas) := prepare_cow_vmas_for (ct_vmas t) (ct_vmas pt) in
                Ret (<[n := CowTask (ct_parent t) (ct_exe t) vmas]> (<[p := CowTask (ct_parent pt) (ct_exe pt) pvmas]> tasks))
          end
      end
  end.

Fixpoint prepare_cow_from (tasks : list cow_task) (ns : list nat) : outcome (list cow_task) :=
  match ns with
  | [] => Ret tasks
  | n :: ns => let! tasks := prepare_cow_task tasks n in prepare_cow_from tasks ns
  end.

(** The tasks in the order of [for_each_pstree_item]. *)
Definition prepare_cow_vmas (tasks : list cow_task) : outcome (list cow_task) := prepare_cow_from tasks (seq 0 (length tasks)).
End Cow.

(** ** Specification *)

(** The first [n] entries are areas in ascending order, the next is a guard. *)
Record ascending (es : list vma_area) (n : nat) : Prop := Ascending {
  as_len : (0 < n <= length es)%nat;
  as_areas i v : (i < n)%nat -> es !! i = Some v -> vma_entry_is v VMA_AREA_GUARD = false;
  as_end v : es !! n = Some v -> vma_entry_is v VMA_AREA_GUARD = true;
  as_sorted i j v w : (i < j < n)%nat -> es !! i = Some v -> es !! j = Some w -> va_start v < va_start w
}.

Lemma ascending_le es n i j v w : ascending es n -> (i <= j < n)%nat -> es !! i = Some v -> es !! j = Some w -> va_start v <= va_start w.
Proof.
  intros H Hij Hi Hj. destruct (decide (i = j)) as [->|]; [rewrite Hi in Hj; injection Hj as ->; lia|].
  pose proof (as_sorted _ _ H i j v w ltac:(lia) Hi Hj). lia.
Qed.

Lemma ascending_lookup es n i : ascending es n -> (i < n)%nat -> exists v, es !! i = Some v.
Proof. intros H Hi. pose proof (as_len _ _ H). apply lookup_lt_is_Some. lia. Qed.

Lemma ascending_inj es n i j v w : ascending es n -> (i < n)%nat -> (j < n)%nat -> es !! i = Some v -> es !! j = Some w ->
  va_start v = va_start w -> i = j.
Proof.
  intros H Hi Hj Ei Ej E. destruct (Nat.lt_trichotomy i j) as [L|[?|L]]; [|done|].
  - pose proof (as_sorted _ _ H i j v w ltac:(lia) Ei Ej). lia.
  - pose proof (as_sorted _ _ H j i w v ltac:(lia) Ej Ei). lia.
Qed.

Lemma lookup_e (es : list vma_area) (l : list rst_vma) i e : rv_e <$> l = es -> es !! i = Some e -> exists v, l !! i = Some v /\ rv_e v = e.
Proof. intros <- H. rewrite list_lookup_fmap in H. destruct (l !! i) as [v|]; [|done]. injection H as <-. by exists v. Qed.

Section Advance.
Context (es : list vma_area) (n : nat) (Hes : ascending es n).

Lemma cow_advance_ok l cont : rv_e <$> l = es -> (forall s s', s <= s' -> cont s' = true -> cont s = true) ->
  forall fuel i, (i < n)%nat -> (n - i <= fuel)%nat ->
  exists r, cow_advance fuel l i cont = Ret r /\
    match r with
    | None => forall k e, (i <= k < n)%nat -> es !! k = Some e -> cont (va_start e) = true
    | Some i' => (i <= i' < n)%nat /\ (forall k e, (i <= k < i')%nat -> es !! k = Some e -> cont (va_start e) = true) /\
        exists e, es !! i' = Some e /\ cont (va_start e) = false
    end.
Proof.
  intros El Hmono. induction fuel as [|fuel IH]; intros i Hi Hf; [lia|]. cbn [cow_advance].
  destruct (ascending_lookup es n i Hes Hi) as [e Ee]. destruct (lookup_e es l i e El Ee) as (v & -> & Ev). unfold rv_start. rewrite Ev.
  destruct (cont (va_start e)) eqn:Ec.
  - assert (Hend : (l !! S i = None \/ exists w, l !! S i = Some w /\ rv_is w VMA_AREA_GUARD = true) \/
                   exists w, l !! S i = Some w /\ rv_is w VMA_AREA_GUARD = false /\ (S i < n)%nat).
    { destruct (decide (S i < n)%nat) as [Hlt|Hge].
      - right. destruct (ascending_lookup es n (S i) Hes Hlt) as [e' Ee']. destruct (lookup_e es l (S i) e' El Ee') as (w & -> & Ew).
        exists w. split; [done|]. unfold rv_is. rewrite Ew. split; [|done]. by apply (as_areas _ _ Hes (S i)).
      - left. assert (S i = n) as -> by lia. destruct (l !! n) as [w|] eqn:Ew; [right|by left]. exists w. split; [done|].
        unfold rv_is. apply (as_end _ _ Hes). rewrite <- El, list_lookup_fmap, Ew. done. }
    assert (Hlast : (l !! S i = None \/ exists w, l !! S i = Some w /\ rv_is w VMA_AREA_GUARD = true) -> n = S i).
    { intros H. destruct (decide (S i < n)%nat) as [Hlt|]; [|lia]. destruct (ascending_lookup es n (S i) Hes Hlt) as [e' Ee'].
      destruct (lookup_e es l (S i) e' El Ee') as (w & Ew & Ewe). pose proof (as_areas _ _ Hes (S i) e' Hlt Ee') as Hg.
      destruct H as [H|(w' & H & Hw')]; rewrite Ew in H; [done|]. injection H as <-. unfold rv_is in Hw'. congruence. }
    assert (Hall : n = S i -> forall k e0, (i <= k < n)%nat -> es !! k = Some e0 -> cont (va_start e0) = true).
    { intros -> k e0 Hk E0. assert (k = i) as -> by lia. congruence. }
    destruct Hend as [H|(w & -> & -> & Hlt)].
    + pose proof (Hlast H) as Hn. exists None. split; [|by apply Hall]. destruct H as [->|(w & -> & ->)]; done.
    + destruct (IH (S i) Hlt ltac:(lia)) as (r & -> & Hr). exists r. split; [done|]. destruct r as [i'|].
      * destruct Hr as (R1 & R2 & R3). split; [lia|]. split; [|done]. intros k e0 Hk E0.
        destruct (decide (k = i)) as [->|]; [congruence|]. apply (R2 k); [lia|done].
      * intros k e0 Hk E0. destruct (decide (k = i)) as [->|]; [congruence|]. apply (Hr k); [lia|done].
  - exists (Some i). split; [done|]. split; [lia|]. split; [intros; lia|]. by exists e.
Qed.
End Advance.

Section Pairing.
Context (task_size : Z) (es ps : list vma_area) (n np : nat) (Hes : ascending es n) (Hps : ascending ps np).

(** Area [i] of the child and area [j] of the parent may share pages. *)
Definition partner (i j : nat) : Prop := (i < n)%nat /\ (j < np)%nat /\
  exists v p, es !! i = Some v /\ ps !! j = Some p /\ va_start v = va_start p /\ check_cow_vmas task_size v p = true.

(** The parent has an area that starts no earlier than the area before [i]
    and before area [i]. *)
Definition separated (i : nat) : Prop := i = 0%nat \/ exists k v w p, i = S k /\ es !! k = Some v /\ es !! i = Some w /\
  (exists j, (j < np)%nat /\ ps !! j = Some p) /\ va_start v <= va_start p < va_start w.

(** [vmas] and [pvmas] are the lists after the areas before [i] are paired. *)
Record pairing (vmas0 pvmas0 vmas pvmas : list rst_vma) (i : nat) : Prop := Pairing {
  pg_vmas : forall k v0, vmas0 !! k = Some v0 -> exists q, vmas !! k = Some (set_pvma q v0) /\
    (q = rv_pvma v0 \/ exists j, q = CowOf j /\ partner k j);
  pg_pvmas : forall j p0, pvmas0 !! j = Some p0 -> exists q, pvmas !! j = Some (set_pvma q p0) /\
    (q = rv_pvma p0 \/ (rv_pvma p0 = CowNone /\ q = CowRoot /\ exists k, partner k j));
  pg_len : length vmas = length vmas0 /\ length pvmas = length pvmas0;
  pg_root : forall k v j p, vmas !! k = Some v -> rv_pvma v = CowOf j -> pvmas !! j = Some p -> rv_pvma p <> CowNone;
  pg_all : forall k j, (k < i)%nat -> separated k -> partner k j -> exists v, vmas !! k = Some v /\ rv_pvma v = CowOf j
}.

Context (vmas0 pvmas0 : list rst_vma) (E0 : rv_e <$> vmas0 = es) (P0 : rv_e <$> pvmas0 = ps).

Lemma set_pvma_e (l0 l : list rst_vma) : length l = length l0 -> (forall k v0, l0 !! k = Some v0 -> exists q, l !! k = Some (set_pvma q v0)) ->
  rv_e <$> l = rv_e <$> l0.
Proof.
  intros Hlen H. apply list_eq. intros k. rewrite !list_lookup_fmap. destruct (l0 !! k) as [v0|] eqn:E.
  - by destruct (H k v0 E) as (q & ->).
  - apply lookup_ge_None in E. by rewrite lookup_ge_None_2 by lia.
Qed.

Lemma pairing_e vmas pvmas i : pairing vmas0 pvmas0 vmas pvmas i -> rv_e <$> vmas = es /\ rv_e <$> pvmas = ps.
Proof.
  intros [H1 H2 [L1 L2] _ _]. rewrite <- E0, <- P0. split; apply set_pvma_e; try done.
  - intros k v0 E. destruct (H1 k v0 E) as (q & ? & _). by exists q.
  - intros k v0 E. destruct (H2 k v0 E) as (q & ? & _). by exists q.
Qed.

(** The assignments for a matching pair. *)
Lemma pairing_match vmas pvmas i j vma pvma : pairing vmas0 pvmas0 vmas pvmas i -> partner i j -> vmas !! i = Some vma -> pvmas !! j = Some pvma ->
  pairing vmas0 pvmas0 (<[i := set_pvma (CowOf j) vma]> vmas)
    (match rv_pvma pvma with CowNone => <[j := set_pvma CowRoot pvma]> pvmas | _ => pvmas end) i.
Proof.
  intros [H1 H2 [L1 L2] H4 H5] Hp Ei Ej. pose proof (lookup_lt_Some _ _ _ Ei) as Li. pose proof (lookup_lt_Some _ _ _ Ej) as Lj.
  set (pv := match rv_pvma pvma with CowNone => <[j := set_pvma CowRoot pvma]> pvmas | _ => pvmas end).
  assert (Hpv : forall k p, pv !! k = Some p -> (k <> j /\ pvmas !! k = Some p) \/ (k = j /\ rv_pvma p <> CowNone /\ (p = pvma \/ (rv_pvma pvma = CowNone /\ p = set_pvma CowRoot pvma)))).
  { intros k p. unfold pv. destruct (decide (k = j)) as [->|Hne].
    - destruct (rv_pvma pvma) eqn:Eq; [rewrite list_lookup_insert_eq by done|rewrite Ej..]; intros [= <-]; right; split_and!; try done; try congruence; auto.
    - destruct (rv_pvma pvma); [rewrite list_lookup_insert_ne by done|..]; auto. }
  split.
  - intros k v0 Hk. destruct (H1 k v0 Hk) as (q & Hq & Hor). destruct (decide (k = i)) as [->|Hne].
    + rewrite Ei in Hq. injection Hq as ->. exists (CowOf j). rewrite list_lookup_insert_eq by done. split; [done|]. right. by exists j.
    + exists q. by rewrite list_lookup_insert_ne by done.
  - intros k p0 Hk. destruct (H2 k p0 Hk) as (q & Hq & Hor). assert (Hlk : is_Some (pv !! k)).
    { apply lookup_lt_is_Some. apply lookup_lt_Some in Hk. unfold pv. destruct (rv_pvma pvma); rewrite ?length_insert; lia. }
    destruct Hlk as [p Ep]. destruct (Hpv k p Ep) as [[Hne Hp']|(-> & Hn & Hor')].
    + rewrite Hq in Hp'. injection Hp' as <-. by exists q.
    + rewrite Ej in Hq. injection Hq as ->. destruct Hor' as [->|[Hnone ->]]; [by exists q|]. cbn [rv_pvma set_pvma] in Hnone.
      exists CowRoot. split; [done|]. right. destruct Hor as [Hq|(Hq & _ & _)]; (split; [congruence|]); (split; [done|]); by exists i.
  - rewrite length_insert. split; [done|]. unfold pv. destruct (rv_pvma pvma); rewrite ?length_insert; done.
  - intros k v j' p Hk Hv Hp'. destruct (Hpv j' p Hp') as [[Hne Hp2]|(-> & Hn & _)]; [|done]. destruct (decide (k = i)) as [->|Hne2].
    + rewrite list_lookup_insert_eq in Hk by done. injection Hk as <-. cbn [rv_pvma set_pvma] in Hv. congruence.
    + rewrite list_lookup_insert_ne in Hk by done. by apply (H4 k v j' p).
  - intros k j' Hk Hs Hpk. destruct (H5 k j' Hk Hs Hpk) as (v & Hv & Hq). exists v. split; [|done]. by rewrite list_lookup_insert_ne by lia.
Qed.

(** One turn: the areas from [i] up to [i'] are decided. *)
Lemma pairing_skip vmas pvmas i i' j e p : pairing vmas0 pvmas0 vmas pvmas i -> es !! i = Some e -> ps !! j = Some p -> (j < np)%nat -> (i <= i' <= n)%nat ->
  (forall j' q, (j' < j)%nat -> ps !! j' = Some q -> va_start q < va_start e) ->
  (forall k x, (i <= k < i')%nat -> es !! k = Some x -> va_start x <= va_start p) ->
  (partner i j -> exists v, vmas !! i = Some v /\ rv_pvma v = CowOf j) -> pairing vmas0 pvmas0 vmas pvmas i'.
Proof.
  intros [H1 H2 H3 H4 H5] Ee Ep Hj Hi Hbehind Hle Hmatch. split; try done. intros k j' Hk Hs Hpk.
  destruct (decide (k < i)%nat) as [Hlt|Hge]; [by apply H5|]. pose proof Hpk as (K1 & K2 & x & y & Ex & Ey & Exy & Hc).
  pose proof (Hle k x ltac:(lia) Ex) as Hx. destruct (decide (k = i)) as [->|Hne].
  - rewrite Ee in Ex. injection Ex as <-. assert (j' = j) as ->; [|by apply Hmatch].
    destruct (Nat.lt_trichotomy j' j) as [L|[L|L]]; [|done|].
    + pose proof (Hbehind j' y L Ey). lia.
    + pose proof (as_sorted _ _ Hps j j' p y ltac:(lia) Ep Ey). lia.
  - destruct Hs as [->|(k' & a & w & q & -> & Ea & Ew & (jq & Hjq & Eq) & Haq)]; [lia|]. rewrite Ex in Ew. injection Ew as <-.
    pose proof (ascending_le _ _ i k' e a Hes ltac:(lia) Ee Ea) as Hea.
    assert (jq < j)%nat as Hlt.
    { destruct (decide (jq < j)%nat); [done|]. pose proof (ascending_le _ _ j jq p q Hps ltac:(lia) Ep Eq). lia. }
    pose proof (Hbehind jq q Hlt Eq). lia.
Qed.

Lemma cow_loop_ok fuel : forall vmas pvmas i j e, (i < n)%nat -> (j < np)%nat -> (n - i + (np - j) <= fuel)%nat ->
  pairing vmas0 pvmas0 vmas pvmas i -> es !! i = Some e -> (forall j' q, (j' < j)%nat -> ps !! j' = Some q -> va_start q < va_start e) ->
  exists vmas' pvmas', cow_loop task_size fuel vmas pvmas i j = Ret (vmas', pvmas') /\ pairing vmas0 pvmas0 vmas' pvmas' n.
Proof.
  induction fuel as [|fuel IH]; intros vmas pvmas i j e Hi Hj Hf Hpg Ee Hbehind; [lia|]. cbn [cow_loop].
  destruct (pairing_e _ _ _ Hpg) as [Ev Epv]. destruct (lookup_e es vmas i e Ev Ee) as (vma & Ei & Eve).
  destruct (ascending_lookup ps np j Hps Hj) as [p Ep]. destruct (lookup_e ps pvmas j p Epv Ep) as (pvma & Ej & Epe). rewrite Ei, Ej.
  unfold rv_start at 1 2. rewrite Eve, Epe.
  set (m := (va_start e =? va_start p) && check_cow_vmas task_size e p).
  destruct (if m then _ else _) as [vmas1 pvmas1] eqn:E1.
  assert (Hpg1 : pairing vmas0 pvmas0 vmas1 pvmas1 i /\ (partner i j -> exists v, vmas1 !! i = Some v /\ rv_pvma v = CowOf j)).
  { destruct m eqn:Em; injection E1 as <- <-.
    - unfold m in Em. apply andb_true_iff in Em as [Es Ec]. apply Z.eqb_eq in Es.
      split; [|intros _; eexists; rewrite list_lookup_insert_eq by (by apply lookup_lt_Some in Ei); done]. apply pairing_match; try done.
      split; [done|]. split; [done|]. by exists e, p.
    - split; [done|]. intros (_ & _ & x & y & Ex & Ey & Exy & Hc). rewrite Ee in Ex. rewrite Ep in Ey. injection Ex as <-. injection Ey as <-.
      unfold m in Em. by rewrite (proj2 (Z.eqb_eq _ _) Exy), Hc in Em. }
  clear E1. destruct Hpg1 as [Hpg1 Hm]. destruct (pairing_e _ _ _ Hpg1) as [Ev1 Epv1]. unfold rv_start at 1. rewrite Epe.
  pose proof (as_len _ _ Hes) as Hlen. pose proof (as_len _ _ Hps) as Hlenp. rewrite <- Ev1, length_fmap in Hlen. rewrite <- Epv1, length_fmap in Hlenp.
  destruct (cow_advance_ok es n Hes vmas1 (fun s => s <=? va_start p) Ev1) with (fuel := length vmas1) (i := i) as (r & -> & Hr); [|done|lia|].
  { intros s s' Hs. rewrite !Z.leb_le. lia. }
  cbn [obind]. destruct r as [i'|].
  2:{ eexists _, _. split; [done|]. eapply pairing_skip; eauto; [lia|]. intros k x Hk Ex. apply Z.leb_le. by apply (Hr k). }
  destruct Hr as (R1 & R2 & e' & Ee' & Hgt). apply Z.leb_gt in Hgt. destruct (lookup_e es vmas1 i' e' Ev1 Ee') as (vma' & -> & Eve').
  assert (Hpg2 : pairing vmas0 pvmas0 vmas1 pvmas1 i').
  { eapply pairing_skip; eauto; [lia|]. intros k x Hk Ex. apply Z.leb_le. by apply (R2 k). }
  unfold rv_start at 1. rewrite Eve'.
  destruct (cow_advance_ok ps np Hps pvmas1 (fun s => s <? va_start e') Epv1) with (fuel := length pvmas1) (i := j) as (r & -> & Hr); [|done|lia|].
  { intros s s' Hs. rewrite !Z.ltb_lt. lia. }
  cbn [obind]. assert (Hbe : forall j' q, (j' < j)%nat -> ps !! j' = Some q -> va_start q < va_start e').
  { intros j' q Hj' Eq. pose proof (ascending_le _ _ i i' e e' Hes ltac:(lia) Ee Ee'). pose proof (Hbehind j' q Hj' Eq). lia. }
  destruct r as [j'|].
  - destruct Hr as (S1 & S2 & p' & Ep' & Hge). apply Z.ltb_ge in Hge. destruct (IH vmas1 pvmas1 i' j' e') as (vmas' & pvmas' & E & Hfin); try done; try lia.
    + assert (i < i' \/ j < j')%nat as [?|?]; [|lia..]. destruct (decide (i = i')) as [->|]; [right|left; lia]. rewrite Ee in Ee'. injection Ee' as <-.
      destruct (decide (j = j')) as [->|]; [|lia]. rewrite Ep in Ep'. injection Ep' as <-. lia.
    + intros k q Hk Eq. destruct (decide (k < j)%nat) as [Hkj|]; [by apply (Hbe k)|]. apply Z.ltb_lt. apply (S2 k); [lia|done].
    + by exists vmas', pvmas'.
  - eexists _, _. split; [done|]. destruct Hpg2 as [P1 P2 P3 P4 P5]. split; try done. intros k j' Hk Hs Hpk.
    destruct (decide (k < i')%nat) as [|Hge]; [by apply P5|]. exfalso. destruct Hpk as (_ & K2 & x & y & Ex & Ey & Exy & _).
    pose proof (ascending_le _ _ i' k e' x Hes ltac:(lia) Ee' Ex). assert (va_start y < va_start e'); [|lia].
    destruct (decide (j' < j)%nat) as [Hjj|]; [by apply (Hbe j')|]. apply Z.ltb_lt. apply (Hr j'); [lia|done].
Qed.
End Pairing.

(** C13. The pairing of a child with its parent.  For two lists of areas in
    ascending order, guard entries at the end, where the child's areas are not
    paired yet: the walk ends and reads nothing past the lists; it changes only
    [pvma] pointers; an area of the child is paired only with the area of the
    parent at the same place that [check_cow_vmas] accepts; the areas of the
    parent that are used are marked, and none that is used is left unmarked; and
    every area that has such a partner gets it, provided that the parent has
    an area that starts between it and the area before it. *)
Theorem prepare_cow_vmas_for_correct task_size vmas pvmas n np :
  ascending (rv_e <$> vmas) n -> ascending (rv_e <$> pvmas) np -> Forall (fun v => vma_inherited v = false) vmas ->
  exists vmas' pvmas', prepare_cow_vmas_for task_size vmas pvmas = Ret (vmas', pvmas') /\
    pairing task_size (rv_e <$> vmas) (rv_e <$> pvmas) n np vmas pvmas vmas' pvmas' n.
Proof.
  intros Hv Hp Hno. destruct (ascending_lookup _ n 0 Hv) as [e Ee]; [apply (as_len _ _ Hv)|].
  pose proof (as_len _ _ Hv) as L1. pose proof (as_len _ _ Hp) as L2. rewrite length_fmap in L1, L2.
  apply (cow_loop_ok task_size (rv_e <$> vmas) (rv_e <$> pvmas) n np Hv Hp vmas pvmas eq_refl eq_refl) with (e := e); try lia; try done.
  rewrite Forall_forall in Hno. split; try done.
  - intros k v0 Hk. exists (rv_pvma v0). split; [by destruct v0|by left].
  - intros k v0 Hk. exists (rv_pvma v0). split; [by destruct v0|by left].
  - intros k v j p Hk Hj. pose proof (Hno v ltac:(by eapply list_elem_of_lookup_2)) as H. unfold vma_inherited in H. by rewrite Hj in H.
  - intros; lia.
Qed.

(** ** Examples *)
Definition private_vma (start end_ : Z) : vma_area := VmaArea start end_ (Z.lor MAP_PRIVATE MAP_ANONYMOUS) (Z.lor VMA_AREA_REGULAR VMA_ANON_PRIVATE) 3 0 0.
Definition fresh_vma (e : vma_area) : rst_vma := RstVma e CowNone [] 0 false.

Lemma ascending_pair a b : vma_entry_is a VMA_AREA_GUARD = false -> vma_entry_is b VMA_AREA_GUARD = false -> va_start a < va_start b -> ascending [a; b] 2.
Proof.
  intros Ha Hb Hab. split; [simpl; lia| |done|].
  - intros [|[|i]] v Hi [= <-]; (done || lia).
  - intros [|i] [|[|j]] v w Hij Ei Ej; try lia; try done. by injection Ei as <-; injection Ej as <-.
Qed.

Lemma prepare_cow_vmas_for_correct_witness : exists vmas' pvmas',
  prepare_cow_vmas_for (2 ^ 47) (fresh_vma <$> [private_vma 0x1000 0x2000; private_vma 0x3000 0x5000])
    (fresh_vma <$> [private_vma 0x1000 0x2000; private_vma 0x3000 0x5000]) = Ret (vmas', pvmas') /\
  rv_pvma <$> vmas' = [CowOf 0; CowOf 1] /\ rv_pvma <$> pvmas' = [CowRoot; CowRoot].
Proof.
  destruct (prepare_cow_vmas_for_correct (2 ^ 47) (fresh_vma <$> [private_vma 0x1000 0x2000; private_vma 0x3000 0x5000])
    (fresh_vma <$> [private_vma 0x1000 0x2000; private_vma 0x3000 0x5000]) 2 2) as (vmas' & pvmas' & E & _).
  - apply ascending_pair; reflexivity.
  - apply ascending_pair; reflexivity.
  - repeat constructor.
  - exists vmas', pvmas'. split; [exact E|]. vm_compute in E. injection E as <- <-. split; reflexivity.
Defined.

(** An area that only the child has hides the next pair: the walk steps over
    both when it leaves the first. *)
Example cow_pair_missed :
  prepare_cow_vmas_for (2 ^ 47) (fresh_vma <$> [private_vma 0x1000 0x2000; private_vma 0x3000 0x4000]) (fresh_vma <$> [private_vma 0x3000 0x4000])
  = Ret (fresh_vma <$> [private_vma 0x1000 0x2000; private_vma 0x3000 0x4000], fresh_vma <$> [private_vma 0x3000 0x4000]) /\
  check_cow_vmas (2 ^ 47) (private_vma 0x3000 0x4000) (private_vma 0x3000 0x4000) = true.
Proof. split; reflexivity. Qed.

(** Private mappings of the same file at different offsets are paired. *)
Definition file_vma (pgoff : Z) : vma_area := VmaArea 0x1000 0x3000 MAP_PRIVATE (Z.lor VMA_AREA_REGULAR VMA_FILE_PRIVATE) 3 pgoff 7.
Example cow_ignores_offset : check_cow_vmas (2 ^ 47) (file_vma 0) (file_vma 0x4000) = true.
Proof. reflexivity. Qed.
