(* ===== verification/Premap.v ===== *)
(** Mapping the private areas of a process that is restored:
    [premap_private_vma], [vma_force_premap], [premap_priv_vmas] and the sum of
    [prepare_mm_pid], of criu/mem.c.  Areas whose pages the restorer process has
    to put in place itself are mapped one behind the other in a reserved range
    (or moved there from the parent's, when the two may share pages); the others
    are left to the last stage, which reads them straight from the image, and of
    those the ones without a page in the image are marked so that they need not
    be writable.

    Not part of the model: the file descriptors that [vm_open] leaves in
    [e->fd], the cache around it ([filemap_ctx_init]), the check of the task size
    on s390. *)
From S2P Require Import Prelude PagemapImage PageRead AsyncQueue ReadPages RangeQuery ReadOps PagePipe PageSelect VmaList CowVmas.

Definition VMA_NO_PROT_WRITE : Z := 2 ^ 29.
Definition VMA_PREMMAPED : Z := 2 ^ 30.
Definition PROT_NONE : Z := 0.
Definition PROT_WRITE : Z := 2.
Definition MAP_FIXED : Z := 0x10.

(** The mapping calls, in order. *)
Inductive map_call :=
| Mmap (addr size prot flags pgoff : Z)
| Mremap (from size to : Z).

(** The outcomes of calls to come: xzalloc, [vm_open], mmap and mremap. *)
Record menv := MEnv { me_allocs : list bool; me_opens : list bool; me_maps : list bool }.
Definition menv_ok (e : menv) : Prop := e = MEnv [] [] [].

(** [pm_back]: what a page holds when it is dropped, the contents its mapping
    started with. *)
Record premap_state := PremapState { pm_mem : memory; pm_back : memory; pm_calls : list map_call }.

Definition set_e (e : vma_area) (v : rst_vma) : rst_vma := RstVma e (rv_pvma v) (rv_bitmap v) (premmaped_addr v) (rv_open v).
Definition add_status (s : Z) (e : vma_area) : vma_area :=
  VmaArea (va_start e) (va_end e) (va_flags e) (Z.lor (va_status e) s) (va_prot e) (va_pgoff e) (va_shmid e).

(** A new mapping of [size] bytes; a mapping moved elsewhere. *)
Definition map_pages (m : memory) (addr size : Z) (f : Z -> list Z) : memory :=
  fun a => if (addr <=? a) && (a <? addr + size) then f ((a - addr) / PAGE_SIZE) else m a.
Definition move_pages (m : memory) (from size to : Z) : memory :=
  fun a => if (to <=? a) && (a <? to + size) then m (a - to + from)
           else if (from <=? a) && (a <? from + size) then [] else m a.

Section Premap.
(** [fresh e k]: page [k] of a new mapping of the area [e], zeroes or the file's
    page; [hidden]: kdat.stack_guard_gap_hidden. *)
Context (task_size : Z) (hidden : bool) (fresh : vma_area -> Z -> list Z).

(** [prepare_mm_pid]: the size of the range to reserve. *)
Definition rst_priv_size (es : list vma_area) : Z :=
  foldl (fun n e =>
    if vma_entry_is_private task_size e then
      let n := u64 (n + vma_area_len e) in
      if vma_has_guard_gap_hidden hidden e then u64 (n + PAGE_SIZE) else n
    else n) 0 es.

(** [pv]: the areas of the parent, as the fork has copied them. *)
Definition premap_private_vma (pv : list rst_vma) (vma : rst_vma) (tgt : Z) (st : premap_state) (env : menv)
    : outcome (bool * rst_vma * Z * premap_state * menv) :=
  let nr_pages := vma_area_len (rv_e vma) / PAGE_SIZE in
  let '(ok, al) := xalloc (me_allocs env) in
  let env := MEnv al (me_opens env) (me_maps env) in
  if negb ok then Ret (false, vma, tgt, st, env)
  else
    let vma := RstVma (rv_e vma) (rv_pvma vma) (replicate (Z.to_nat nr_pages) false) (premmaped_addr vma) (rv_open vma) in
    let gap := vma_has_guard_gap_hidden hidden (rv_e vma) in
    let vma := if gap then set_e (set_start (u64 (va_start (rv_e vma) - PAGE_SIZE)) (rv_e vma)) vma else vma in
    let e := rv_e vma in
    let size := vma_area_len e in
    let! (ok, st, env) :=
      match rv_pvma vma with
      | CowOf j =>
          match pv !! j with
          | None => Bug
          | Some p =>
              let paddr := if gap then u64 (premmaped_addr p - PAGE_SIZE) else premmaped_addr p in
              let '(ok, mp) := xalloc (me_maps env) in
              Ret (ok,
                   if ok then PremapState (move_pages (pm_mem st) paddr size tgt) (move_pages (pm_back st) paddr size tgt) (pm_calls st ++ [Mremap paddr size tgt]) else st,
                   MEnv (me_allocs env) (me_opens env) mp)
          end
      | _ =>
          let flag := if vma_entry_is e VMA_AREA_AIORING then MAP_ANONYMOUS else 0 in
          let '(ok, op) :=
            if negb (vma_entry_is e VMA_AREA_AIORING) && vma_entry_is e VMA_FILE_PRIVATE then xalloc (me_opens env)
            else (true, me_opens env) in
          let env := MEnv (me_allocs env) op (me_maps env) in
          if negb ok then Ret (false, st, env)
          else
            let prot := if (va_prot e =? PROT_NONE) && vma_entry_is e VMA_AREA_NOT_ACCOUNTABLE then PROT_NONE else Z.lor (va_prot e) PROT_WRITE in
            let '(ok, mp) := xalloc (me_maps env) in
            Ret (ok,
                 if ok then PremapState (map_pages (pm_mem st) tgt size (fresh e)) (map_pages (pm_back st) tgt size (fresh e)) (pm_calls st ++ [Mmap tgt size prot (Z.lor (Z.lor (va_flags e) MAP_FIXED) flag) (va_pgoff e)]) else st,
                 MEnv (me_allocs env) op mp)
      end in
    if negb ok then Ret (false, vma, tgt, st, env)
    else
      let e := add_status VMA_PREMMAPED e in
      let '(e, addr) := if gap then (set_start (u64 (va_start e + PAGE_SIZE)) e, u64 (tgt + PAGE_SIZE)) else (e, tgt) in
      Ret (true, RstVma e (rv_pvma vma) (rv_bitmap vma) addr (if vma_entry_is e VMA_FILE_PRIVATE then false else rv_open vma),
           u64 (tgt + size), st, env).

Definition vma_force_premap (vma : rst_vma) (prev : option rst_vma) : bool :=
  rv_is vma VMA_AREA_SHSTK ||
  (has (va_flags (rv_e vma)) MAP_GROWSDOWN && match prev with Some p => rv_end p =? rv_start vma | None => false end).

(** The scan for pages of an area; true: there are none. *)
Fixpoint scan_pagemap (fuel : nat) (pr : page_read) (start end_ : Z) : outcome (bool * page_read) :=
  match fuel with
  | O => NoFuel
  | S fuel =>
      match pr_pe pr with
      | None => Bug
      | Some pe =>
          if u64 (pe_vaddr pe + u64 (pe_nr_pages pe * PAGE_SIZE)) <=? start then
            let '(more, pr) := advance pr in
            if more =? 0 then Ret (false, pr) else scan_pagemap fuel pr start end_
          else Ret (pe_vaddr pe >=? end_, pr)
      end
  end.

(** [pieok]: the reader's images can be read by the last stage; [parallel]: the
    answer of [compressed_restore_has_parallel_capacity]. *)
Context (pieok parallel : bool).

(** What is done with one area. *)
Inductive decision := Fail | Leave (vma : rst_vma) (pr : page_read) | DoPremap.

Definition premap_decide (vma : rst_vma) (prev : option rst_vma) (pr : page_read) (parents : list page_read) : outcome decision :=
  let e := rv_e vma in
  let exceptional := has (va_flags e) MAP_HUGETLB || has (va_status e) VMA_EXT_PLUGIN in
  let maps := pmes <$> (pr :: parents) in
  let! has_lz4 := if exceptional then page_read_range_has_lz4 parallel maps (va_start e) (va_end e) else Ret 0 in
  let! needs_premap := if exceptional then Ret 0 else page_read_range_needs_premap parallel maps (va_start e) (va_end e) in
  if has_lz4 <? 0 then Ret Fail
  else if needs_premap <? 0 then Ret Fail
  else
    let! has_parent := if exceptional then page_read_range_has_parent (pmes pr) (va_start e) (va_end e) else Ret 0 in
    if has_parent <? 0 then Ret Fail
    else if negb (has_parent =? 0) then Ret Fail
    else if exceptional then (if negb (has_lz4 =? 0) then Ret Fail else Ret (Leave vma pr))
    else if match rv_pvma vma with CowNone => true | _ => false end && pieok && (needs_premap =? 0) && negb (vma_force_premap vma prev) then
      let! (none, pr) := scan_pagemap (S (S (length (pmes pr)))) pr (va_start e) (va_end e) in
      Ret (Leave (if none : bool then set_e (add_status VMA_NO_PROT_WRITE e) vma else vma) pr)
    else Ret DoPremap.

Fixpoint premap_loop (pv vmas : list rst_vma) (prev : option rst_vma) (pr : page_read) (parents : list page_read) (pstart at_ : Z) (st : premap_state) (env : menv)
    : outcome (bool * list rst_vma * Z * premap_state * menv) :=
  match vmas with
  | [] => Ret (true, [], at_, st, env)
  | vma :: rest =>
      let next vma pr pstart at_ st env :=
        let! (ok, rest, at_, st, env) := premap_loop pv rest (Some vma) pr parents pstart at_ st env in
        Ret (ok, vma :: rest, at_, st, env) in
      if rv_is vma VMA_AREA_GUARD then next vma pr pstart at_ st env
      else if pstart >? rv_start vma then Ret (false, vmas, at_, st, env)
      else
        let pstart := rv_start vma in
        if negb (vma_entry_is_private task_size (rv_e vma)) then next vma pr pstart at_ st env
        else
          let! d := premap_decide vma prev pr parents in
          match d with
          | Fail => Ret (false, vmas, at_, st, env)
          | Leave vma pr => next vma pr pstart at_ st env
          | DoPremap =>
              let! (ok, vma, at_, st, env) := premap_private_vma pv vma at_ st env in
              if negb ok then Ret (false, vma :: rest, at_, st, env) else next vma pr pstart at_ st env
          end
  end.

Definition premap_priv_vmas (pv vmas : list rst_vma) (pr : page_read) (parents : list page_read) (at_ : Z) (st : premap_state) (env : menv) :=
  premap_loop pv vmas None pr parents 0 at_ st env.
End Premap.

(** ** The scan for pages of an area *)

(** The reader stands at entry [j]; it has not consumed anything. *)
Record scan_at (l : list pagemap_entry) (pr : page_read) (j : nat) : Prop := ScanAt {
  sc_pmes : pmes pr = l;
  sc_off : pi_off pr = 0;
  sc_pe : exists pe, l !! j = Some pe /\ pr_pe pr = Some pe;
  sc_next : curr_pme pr = Z.of_nat j \/ (S j = length l /\ zlen l <= curr_pme pr)
}.

Definition ends_before (l : list pagemap_entry) (j : nat) (start : Z) : Prop :=
  forall i pe, (i < j)%nat -> l !! i = Some pe -> entry_end pe <= start.

(** No page of the pagemap lies in the range. *)
Definition no_pages (l : list pagemap_entry) (start end_ : Z) : Prop :=
  forall pe, pe ∈ l -> entry_end pe <= start \/ end_ <= pe_vaddr pe.

Lemma scan_pagemap_ok l start end_ : pagemaps_ok l -> forall fuel pr j, scan_at l pr j -> ends_before l j start -> (length l - j < fuel)%nat ->
  exists none pr' j', scan_pagemap fuel pr start end_ = Ret (none, pr') /\ scan_at l pr' j' /\ ends_before l j' start /\
    (none = true -> no_pages l start end_).
Proof.
  intros Hok. induction fuel as [|fuel IH]; intros pr j Hs Hb Hf; [lia|]. cbn [scan_pagemap].
  pose proof Hs as [S1 S2 (pe & Hj & Hpe) S4]. rewrite Hpe. destruct (pagemaps_ok_lookup _ _ _ Hok Hj) as (Hq & _).
  pose proof (entry_end_u64 pe Hq) as Ee. unfold PagemapImage.pagemap_len in Ee. rewrite Ee. clear Ee.
  destruct (Z.leb_spec (entry_end pe) start) as [Hle|Hgt].
  - assert (Hb' : ends_before l (S j) start).
    { intros i q Hi Eq. destruct (decide (i = j)) as [->|]; [congruence|]. apply (Hb i); [lia|done]. }
    pose proof (lookup_lt_Some _ _ _ Hj) as Hlt. destruct (decide (S j < length l)%nat) as [Hmore|Hlast].
    + destruct S4 as [S4|[? _]]; [|lia]. destruct (lookup_lt_is_Some_2 l (S j) Hmore) as [q Eq].
      destruct (walk_next pr l (S j) q) as (pr' & -> & Hpe' & [W1 W2 W3]); [by split; [|by rewrite S2|lia]|done|]. cbn [Z.eqb].
      apply (IH pr' (S j)); [|done|lia]. split; [done|done|by exists q|left; lia].
    + rewrite advance_last by (rewrite S1; unfold zlen; destruct S4 as [?|[_ ?]]; unfold zlen in *; lia). cbn [Z.eqb].
      eexists _, _, j. split; [done|]. split; [|by split]. split; [done|done|by exists pe|]. right. split; [lia|]. simpl.
      unfold zlen in *. destruct S4 as [?|[_ ?]]; lia.
  - eexists _, _, j. split; [done|]. split; [done|]. split; [done|]. rewrite Z.geb_leb. intros Hn. apply Z.leb_le in Hn.
    intros q Hq'. apply list_elem_of_lookup in Hq' as [i Hi]. destruct (decide (i < j)%nat) as [Hlt|Hge]; [left; by apply (Hb i)|right].
    destruct (decide (i = j)) as [->|]; [rewrite Hj in Hi; injection Hi as <-; lia|].
    pose proof (ok_from_order l 0 0 j i pe q ltac:(lia) Hok Hj Hi ltac:(lia)). destruct (pe_end_ok pe Hq) as (_ & ? & _). lia.
Qed.

(** ** One area *)
Section PremapOk.
Context (task_size : Z) (hidden : bool) (fresh : vma_area -> Z -> list Z).
Abbreviation gap := (vma_has_guard_gap_hidden hidden).

(** The page mapped below a stack. *)
Definition slack (e : vma_area) : Z := if gap e then PAGE_SIZE else 0.
Definition area_len (e : vma_area) : Z := va_end e - va_start e.

(** Page [k] of the area, when it is mapped anew. *)
Definition area_page (e : vma_area) (k : Z) : list Z :=
  if gap e then fresh (set_start (va_start e - PAGE_SIZE) e) (k + 1) else fresh e k.

Record area_ok (e : vma_area) : Prop := AreaOk {
  ao_range : PAGE_SIZE <= va_start e < va_end e /\ va_end e < 2 ^ 62;
  ao_aligned : va_start e mod PAGE_SIZE = 0 /\ va_end e mod PAGE_SIZE = 0
}.

Lemma area_len_ok e : area_ok e -> 0 < area_len e < 2 ^ 62 /\ area_len e mod PAGE_SIZE = 0 /\ vma_area_len e = area_len e /\
  0 < area_len e / PAGE_SIZE /\ area_len e = area_len e / PAGE_SIZE * PAGE_SIZE.
Proof.
  intros [[H1 H2] [H3 H4]]. unfold area_len, vma_area_len. assert (M : (va_end e - va_start e) mod PAGE_SIZE = 0) by (by rewrite Zminus_mod, H3, H4).
  pose proof (Z.div_mod (va_end e - va_start e) PAGE_SIZE ltac:(done)). unfold PAGE_SIZE in *. rewrite u64_small by lia.
  split_and!; (done || lia).
Qed.

Lemma slack_cases e : slack e = 0 \/ slack e = PAGE_SIZE.
Proof. unfold slack. destruct (gap e); auto. Qed.

(** Where the pages of an area come from: a place in memory, or new ones. *)
Definition source (pv : list rst_vma) (v : rst_vma) : option Z :=
  match rv_pvma v with
  | CowOf j => match pv !! j with Some p => Some (premmaped_addr p) | None => None end
  | _ => None
  end.

Definition source_page (pv : list rst_vma) (m : memory) (v : rst_vma) (k : Z) : list Z :=
  match source pv v with
  | Some pa => m (pa + k * PAGE_SIZE)
  | None => area_page (rv_e v) k
  end.

Definition in_range (lo hi a : Z) : Prop := lo <= a < hi.
Definition in_source (pv : list rst_vma) (v : rst_vma) (a : Z) : Prop :=
  exists pa, source pv v = Some pa /\ in_range (pa - slack (rv_e v)) (pa + area_len (rv_e v)) a.

(** The area [v] has been mapped as [v'] between [tgt] and [tgt']. *)
Record mapped_at (pv : list rst_vma) (v v' : rst_vma) (tgt tgt' : Z) (m bk m' bk' : memory) : Prop := MappedAt {
  ma_e : rv_e v' = add_status VMA_PREMMAPED (rv_e v);
  ma_pvma : rv_pvma v' = rv_pvma v;
  ma_bits : rv_bitmap v' = replicate (Z.to_nat (area_len (rv_e v) / PAGE_SIZE)) false;
  ma_addr : premmaped_addr v' = tgt + slack (rv_e v);
  ma_tgt : tgt' = premmaped_addr v' + area_len (rv_e v);
  ma_pages : forall k, 0 <= k < area_len (rv_e v) / PAGE_SIZE ->
    m' (premmaped_addr v' + k * PAGE_SIZE) = source_page pv m v k /\ bk' (premmaped_addr v' + k * PAGE_SIZE) = source_page pv bk v k;
  ma_frame : forall a, ~ in_range tgt tgt' a -> ~ in_source pv v a -> m' a = m a /\ bk' a = bk a
}.

Definition inherits_ok (pv : list rst_vma) (v : rst_vma) : Prop :=
  forall j, rv_pvma v = CowOf j -> exists p, pv !! j = Some p /\ PAGE_SIZE <= premmaped_addr p /\ premmaped_addr p + area_len (rv_e v) < 2 ^ 63.

Lemma page_index A k s : 0 <= k -> s = 0 \/ s = PAGE_SIZE -> (A + s + k * PAGE_SIZE - A) / PAGE_SIZE = k + s / PAGE_SIZE.
Proof.
  intros Hk [->| ->]; [replace (A + 0 + k * PAGE_SIZE - A) with (k * PAGE_SIZE) by lia|replace (A + PAGE_SIZE + k * PAGE_SIZE - A) with ((k + 1) * PAGE_SIZE) by lia];
    rewrite Z.div_mul by done; [change (0 / PAGE_SIZE) with 0|change (PAGE_SIZE / PAGE_SIZE) with 1]; lia.
Qed.

(** New pages, and moved pages, at their place. *)
Lemma map_pages_at m addr size f a : addr <= a < addr + size -> map_pages m addr size f a = f ((a - addr) / PAGE_SIZE).
Proof. intros H. unfold map_pages. destruct (Z.leb_spec addr a), (Z.ltb_spec a (addr + size)); try lia. done. Qed.
Lemma map_pages_out m addr size f a : ~ in_range addr (addr + size) a -> map_pages m addr size f a = m a.
Proof. unfold in_range, map_pages. intros H. destruct (Z.leb_spec addr a), (Z.ltb_spec a (addr + size)); try lia; done. Qed.
Lemma move_pages_at m from size to a : to <= a < to + size -> move_pages m from size to a = m (a - to + from).
Proof. intros H. unfold move_pages. destruct (Z.leb_spec to a), (Z.ltb_spec a (to + size)); try lia. done. Qed.
Lemma move_pages_out m from size to a : ~ in_range to (to + size) a -> ~ in_range from (from + size) a -> move_pages m from size to a = m a.
Proof.
  unfold in_range, move_pages. intros H1 H2. destruct (Z.leb_spec to a), (Z.ltb_spec a (to + size)), (Z.leb_spec from a), (Z.ltb_spec a (from + size)); try lia; done.
Qed.

(** The last assignments, common to both ways. *)
Lemma premap_finish pv v tgt size m bk m' bk' open : area_ok (rv_e v) -> 0 <= tgt -> size = slack (rv_e v) + area_len (rv_e v) -> tgt + size < 2 ^ 63 ->
  (forall k, 0 <= k < area_len (rv_e v) / PAGE_SIZE ->
    m' (tgt + slack (rv_e v) + k * PAGE_SIZE) = source_page pv m v k /\ bk' (tgt + slack (rv_e v) + k * PAGE_SIZE) = source_page pv bk v k) ->
  (forall a, ~ in_range tgt (tgt + size) a -> ~ in_source pv v a -> m' a = m a /\ bk' a = bk a) ->
  let e1 := if gap (rv_e v) then set_start (u64 (va_start (rv_e v) - PAGE_SIZE)) (rv_e v) else rv_e v in
  let '(e, addr) := if gap (rv_e v) then (set_start (u64 (va_start (add_status VMA_PREMMAPED e1) + PAGE_SIZE)) (add_status VMA_PREMMAPED e1), u64 (tgt + PAGE_SIZE))
                    else (add_status VMA_PREMMAPED e1, tgt) in
  mapped_at pv v (RstVma e (rv_pvma v) (replicate (Z.to_nat (vma_area_len (rv_e v) / PAGE_SIZE)) false) addr (open e)) tgt (u64 (tgt + size)) m bk m' bk'.
Proof.
  intros Ha Ht -> Hb Hp Hf. destruct (area_len_ok _ Ha) as (L1 & _ & L2 & _). destruct Ha as [[A1 A2] _].
  assert (Eu : u64 (tgt + (slack (rv_e v) + area_len (rv_e v))) = tgt + (slack (rv_e v) + area_len (rv_e v))).
  { apply u64_small. destruct (slack_cases (rv_e v)); unfold PAGE_SIZE in *; lia. }
  rewrite Eu. unfold slack in *. destruct (gap (rv_e v)) eqn:Eg; cbn zeta beta iota in *.
  - rewrite (u64_small (tgt + PAGE_SIZE)) by (unfold PAGE_SIZE in *; lia).
    split; cbn [rv_e rv_pvma rv_bitmap premmaped_addr]; try done.
    + unfold add_status, set_start. cbn. f_equal. unfold PAGE_SIZE in *. rewrite (u64_small (_ - _)), u64_small; lia.
    + by rewrite L2.
    + unfold slack. by rewrite Eg.
    + lia.
  - split; cbn [rv_e rv_pvma rv_bitmap premmaped_addr]; try done.
    + by rewrite L2.
    + unfold slack. rewrite Eg. lia.
    + intros k Hk. specialize (Hp k Hk). by rewrite !Z.add_0_r in Hp.
Qed.

Lemma lowered_len e : area_ok e -> vma_area_len (if gap e then set_start (u64 (va_start e - PAGE_SIZE)) e else e) = slack e + area_len e.
Proof.
  intros Ha. destruct (area_len_ok _ Ha) as (_ & _ & L2 & _). destruct Ha as [[A1 A2] _]. unfold slack. destruct (gap e); [|by rewrite L2].
  unfold vma_area_len, area_len, set_start. cbn [va_start va_end]. rewrite (u64_small (va_start e - PAGE_SIZE)), u64_small by (unfold PAGE_SIZE in *; lia). lia.
Qed.

(** A new mapping holds the pages of the area. *)
Lemma new_pages pv v tgt m k : area_ok (rv_e v) -> source pv v = None -> 0 <= k < area_len (rv_e v) / PAGE_SIZE ->
  map_pages m tgt (slack (rv_e v) + area_len (rv_e v)) (fresh (if gap (rv_e v) then set_start (u64 (va_start (rv_e v) - PAGE_SIZE)) (rv_e v) else rv_e v))
    (tgt + slack (rv_e v) + k * PAGE_SIZE) = area_page (rv_e v) k.
Proof.
  intros Ha Hs Hk. destruct (area_len_ok _ Ha) as (L1 & _ & _ & _ & L5). destruct (slack_cases (rv_e v)) as [Es|Es].
  all: rewrite map_pages_at by (unfold PAGE_SIZE in *; lia); rewrite (page_index tgt k (slack (rv_e v))) by (lia || done).
  all: unfold area_page, slack in *; destruct (gap (rv_e v)); try done.
  - change (0 / PAGE_SIZE) with 0. by rewrite Z.add_0_r.
  - change (PAGE_SIZE / PAGE_SIZE) with 1. destruct Ha as [[A1 A2] _]. rewrite u64_small by (unfold PAGE_SIZE in *; lia). done.
Qed.

Lemma moved_source pv v pa tgt m k : area_ok (rv_e v) -> source pv v = Some pa -> 0 <= k < area_len (rv_e v) / PAGE_SIZE ->
  move_pages m (pa - slack (rv_e v)) (slack (rv_e v) + area_len (rv_e v)) tgt (tgt + slack (rv_e v) + k * PAGE_SIZE) = source_page pv m v k.
Proof.
  intros Ha Hs Hk. destruct (area_len_ok _ Ha) as (L1 & _ & _ & _ & L5). unfold source_page. rewrite Hs. destruct (slack_cases (rv_e v)) as [Es|Es].
  all: rewrite move_pages_at by (unfold PAGE_SIZE in *; lia); f_equal; lia.
Qed.

Lemma premap_private_vma_ok pv v tgt st env : area_ok (rv_e v) -> inherits_ok pv v -> 0 <= tgt ->
  tgt + slack (rv_e v) + area_len (rv_e v) < 2 ^ 63 ->
  exists ok v' tgt' st' env', premap_private_vma hidden fresh pv v tgt st env = Ret (ok, v', tgt', st', env') /\
    (menv_ok env -> ok = true /\ menv_ok env') /\
    (ok = true -> mapped_at pv v v' tgt tgt' (pm_mem st) (pm_back st) (pm_mem st') (pm_back st')).
Proof.
  intros Ha Hin Ht Hb. pose proof (lowered_len _ Ha) as El. destruct env as [al op mp]. unfold premap_private_vma, menv_ok. cbn [me_allocs me_opens me_maps].
  destruct (xalloc al) as [ok1 al1] eqn:Eal. destruct ok1; cbn [negb].
  2:{ eexists _, _, _, _, _. split; [done|]. split; [|done]. intros [= -> -> ->]. done. }
  cbn [rv_e rv_pvma premmaped_addr rv_open rv_bitmap].
  set (e1 := if gap (rv_e v) then set_start (u64 (va_start (rv_e v) - PAGE_SIZE)) (rv_e v) else rv_e v) in *.
  set (bits := replicate (Z.to_nat (vma_area_len (rv_e v) / PAGE_SIZE)) false).
  set (v1 := if gap (rv_e v) then _ else _).
  assert (V1 : rv_e v1 = e1 /\ rv_pvma v1 = rv_pvma v /\ rv_bitmap v1 = bits) by (unfold v1, e1; destruct (gap (rv_e v)); done).
  destruct V1 as (V1 & V2 & V3). rewrite V1, V2, V3, El.
  assert (Hfin : forall m' bk' calls env', 
    (forall k, 0 <= k < area_len (rv_e v) / PAGE_SIZE ->
      m' (tgt + slack (rv_e v) + k * PAGE_SIZE) = source_page pv (pm_mem st) v k /\ bk' (tgt + slack (rv_e v) + k * PAGE_SIZE) = source_page pv (pm_back st) v k) ->
    (forall a, ~ in_range tgt (tgt + (slack (rv_e v) + area_len (rv_e v))) a -> ~ in_source pv v a -> m' a = pm_mem st a /\ bk' a = pm_back st a) ->
    exists v' tgt', (let '(e, addr) := if gap (rv_e v) then (set_start (u64 (va_start (add_status VMA_PREMMAPED e1) + PAGE_SIZE)) (add_status VMA_PREMMAPED e1), u64 (tgt + PAGE_SIZE))
                    else (add_status VMA_PREMMAPED e1, tgt) in
      Ret (true, RstVma e (rv_pvma v) bits addr (if vma_entry_is e VMA_FILE_PRIVATE then false else rv_open v1),
        u64 (tgt + (slack (rv_e v) + area_len (rv_e v))), PremapState m' bk' calls, env')) = Ret (true, v', tgt', PremapState m' bk' calls, env' : menv) /\
      mapped_at pv v v' tgt tgt' (pm_mem st) (pm_back st) m' bk').
  { intros m' bk' calls env' Hp Hf.
    pose proof (premap_finish pv v tgt _ (pm_mem st) (pm_back st) m' bk' (fun e => if vma_entry_is e VMA_FILE_PRIVATE then false else rv_open v1) Ha Ht eq_refl ltac:(lia) Hp Hf) as H.
    cbv zeta in H. fold e1 in H. destruct (if gap (rv_e v) then (_, _) else (_, _)) as [e addr]. eexists _, _. split; [reflexivity|]. exact H. }
  destruct (rv_pvma v) as [| |j] eqn:Ep.
  3:{ destruct (Hin j Ep) as (p & Hj & P1 & P2). rewrite Hj. destruct (xalloc mp) as [ok2 mp2] eqn:Emp. cbn [obind].
      destruct ok2; cbn [negb]; [|eexists _, _, _, _, _; split; [done|]; split; [|done]; intros [= -> -> ->]; done].
      set (pa := if gap (rv_e v) then u64 (premmaped_addr p - PAGE_SIZE) else premmaped_addr p).
      assert (Hs : source pv v = Some (premmaped_addr p)) by (unfold source; rewrite Ep, Hj; done).
      assert (Epa : pa = premmaped_addr p - slack (rv_e v)).
      { unfold pa, slack. destruct (gap (rv_e v)); [|lia]. apply u64_small. unfold PAGE_SIZE in *. pose proof (area_len_ok _ Ha). lia. }
      rewrite Epa. edestruct (Hfin (move_pages (pm_mem st) (premmaped_addr p - slack (rv_e v)) (slack (rv_e v) + area_len (rv_e v)) tgt)
        (move_pages (pm_back st) (premmaped_addr p - slack (rv_e v)) (slack (rv_e v) + area_len (rv_e v)) tgt)) as (v' & tgt' & E & Hm).
      - intros k Hk. split; by apply moved_source.
      - intros a Hr Hso. assert (~ in_range (premmaped_addr p - slack (rv_e v)) (premmaped_addr p - slack (rv_e v) + (slack (rv_e v) + area_len (rv_e v))) a).
        { intros H. apply Hso. exists (premmaped_addr p). split; [done|]. unfold in_range in *. lia. }
        split; by apply move_pages_out.
      - eexists _, _, _, _, _. split; [exact E|]. split; [intros [= -> -> ->]; by injection Eal as <-; injection Emp as <-|done]. }
  all: destruct (if negb (vma_entry_is e1 VMA_AREA_AIORING) && vma_entry_is e1 VMA_FILE_PRIVATE then xalloc op else (true, op)) as [ok2 op2] eqn:Eop.
  all: assert (Hop : op = [] -> ok2 = true /\ op2 = []) by (intros ->; destruct (_ && _); by injection Eop as <- <-).
  all: destruct ok2; cbn [negb obind]; [|eexists _, _, _, _, _; split; [done|]; split; [|done]; intros [= -> -> ->]; by destruct (Hop eq_refl)].
  all: cbn [me_maps me_allocs me_opens]; destruct (xalloc mp) as [ok3 mp3] eqn:Emp; destruct ok3; cbn [negb obind];
    [|eexists _, _, _, _, _; split; [done|]; split; [|done]; intros [= -> -> ->]; done].
  all: assert (Hs : source pv v = None) by (unfold source; by rewrite Ep).
  all: edestruct (Hfin (map_pages (pm_mem st) tgt (slack (rv_e v) + area_len (rv_e v)) (fresh e1)) (map_pages (pm_back st) tgt (slack (rv_e v) + area_len (rv_e v)) (fresh e1)))
    as (v' & tgt' & E & Hm);
    [intros k Hk; unfold source_page; rewrite Hs; split; by apply (new_pages pv)
    |intros a Hr _; split; by apply map_pages_out
    |eexists _, _, _, _, _; split; [exact E|]; split; [intros [= -> -> ->]; injection Eal as <-; injection Emp as <-; by destruct (Hop eq_refl) as [_ ->]|done]].
Qed.

(** ** Status bits *)
Lemma status_bit e n : 0 <= n -> vma_entry_is e (2 ^ n) = Z.testbit (va_status e) n.
Proof.
  intros Hn. unfold vma_entry_is. rewrite Z.land_comm. destruct (Z.testbit (va_status e) n) eqn:E.
  - apply Z.eqb_eq. apply Z.bits_inj'. intros k Hk. rewrite Z.land_spec, Z.pow2_bits_eqb by done. destruct (Z.eqb_spec n k) as [->|]; [by rewrite E|done].
  - apply Z.eqb_neq. intros H. assert (Z.testbit (Z.land (2 ^ n) (va_status e)) n = true) as H2 by (rewrite H; by apply Z.pow2_bits_true).
    rewrite Z.land_spec, E, andb_false_r in H2. done.
Qed.

Lemma status_add e n k : 0 <= n -> 0 <= k -> vma_entry_is (add_status (2 ^ k) e) (2 ^ n) = (if n =? k then true else vma_entry_is e (2 ^ n)).
Proof.
  intros Hn Hk. rewrite !status_bit by done. cbn [va_status add_status]. rewrite Z.lor_spec, Z.pow2_bits_eqb by done.
  destruct (Z.eqb_spec k n) as [->|Hne]; [by rewrite Z.eqb_refl, orb_true_r|]. rewrite orb_false_r. by destruct (Z.eqb_spec n k); [lia|].
Qed.

(** The marks of a restore change neither the kind nor the place of an area. *)
Lemma mark_private e k : k = 29 \/ k = 30 -> vma_entry_is_private task_size (add_status (2 ^ k) e) = vma_entry_is_private task_size e.
Proof.
  intros Hk. unfold vma_entry_is_private, VMA_AREA_REGULAR, VMA_ANON_PRIVATE, VMA_FILE_PRIVATE, VMA_AREA_SHSTK, VMA_AREA_AIORING.
  rewrite !status_add by lia. by destruct Hk as [-> | ->].
Qed.
Lemma mark_gap e s : gap (add_status s e) = gap e.
Proof. done. Qed.
Lemma mark_slack e s : slack (add_status s e) = slack e.
Proof. done. Qed.
Lemma mark_len e s : area_len (add_status s e) = area_len e.
Proof. done. Qed.

(** ** The decision about an area *)

(** The pages of the area are in the image itself. *)
Definition local (l : list pagemap_entry) (e : vma_area) : Prop :=
  forall pe, pe ∈ l -> pe_vaddr pe < va_end e -> va_start e < entry_end pe -> pagemap_in_parent pe = false.

(** Areas that cannot be mapped by the restorer process. *)
Definition exceptional (e : vma_area) : bool := has (va_flags e) MAP_HUGETLB || has (va_status e) VMA_EXT_PLUGIN.

(** An area left to the last stage. *)
Definition left_over (l : list pagemap_entry) (v v' : rst_vma) : Prop :=
  local l (rv_e v) /\ (exceptional (rv_e v) = true \/ rv_pvma v = CowNone) /\ (v' = v \/ (v' = set_e (add_status VMA_NO_PROT_WRITE (rv_e v)) v /\ no_pages l (va_start (rv_e v)) (va_end (rv_e v)))).

Lemma area_valid e : area_ok e -> valid_range (va_start e) (va_end e).
Proof. intros [[A1 A2] [A3 A4]]. unfold PAGE_SIZE in *. split_and!; (done || lia). Qed.

Lemma premap_decide_ok pieok parallel l v prev pr j parents : pagemaps_ok l -> Forall (fun q => pagemaps_ok (pmes q)) parents ->
  (pieok = true -> parents = []) -> area_ok (rv_e v) -> scan_at l pr j -> ends_before l j (va_start (rv_e v)) ->
  exists d, premap_decide pieok parallel v prev pr parents = Ret d /\
    match d with
    | Leave v' pr' => left_over l v v' /\ exists j', scan_at l pr' j' /\ ends_before l j' (va_start (rv_e v))
    | _ => True
    end.
Proof.
  intros Hok Hpar Hpie Ha Hs Hb. pose proof (area_valid _ Ha) as Hv. pose proof (sc_pmes _ _ _ Hs) as El. unfold premap_decide. cbv zeta. rewrite fmap_cons, El.
  assert (Hall : Forall pagemaps_ok (l :: (pmes <$> parents))) by (apply Forall_cons_2; [done|by apply Forall_fmap]).
  destruct (_ || _) eqn:Ex.
  - destruct (needs_decode_returns parallel false _ Hall (va_start (rv_e v)) (va_end (rv_e v))) as [r E]. unfold page_read_range_has_lz4. rewrite E. cbn [obind].
    destruct (r <? 0); [by exists Fail|]. cbn [Z.ltb Z.compare].
    destruct (page_read_range_has_parent_correct l _ _ Hok Hv) as (q & Eq & [-> | ->] & _); rewrite Eq; cbn [obind Z.ltb Z.compare Z.eqb negb]; [|by exists Fail].
    destruct (negb (r =? 0)); [by exists Fail|]. eexists. split; [done|]. split; [|by exists j]. split; [|split; [by left|by left]].
    intros pe Hpe H1 H2. by apply (range_has_no_parent l (va_start (rv_e v)) (va_end (rv_e v))).
  - cbn [obind]. destruct (needs_decode_returns parallel true _ Hall (va_start (rv_e v)) (va_end (rv_e v))) as [r E]. unfold page_read_range_needs_premap. rewrite E. cbn [obind].
    cbn [Z.ltb Z.compare]. destruct (r <? 0); [by exists Fail|]. cbn [Z.eqb negb].
    destruct (_ && pieok && (r =? 0) && _) eqn:Ec; [|by exists DoPremap]. rewrite !andb_true_iff in Ec. destruct Ec as [[[Hno Hp] Hr] _]. apply Z.eqb_eq in Hr. subst r.
    rewrite (Hpie Hp) in E. destruct (scan_pagemap_ok l (va_start (rv_e v)) (va_end (rv_e v)) Hok (S (S (length (pmes pr)))) pr j Hs Hb) as (none & pr' & j' & Esc & S1 & S2 & S3);
      [rewrite El; lia|]. rewrite <- El, Esc. cbn [obind]. eexists. split; [done|]. rewrite El. split; [|by exists j'].
    split; [|split; [right; by destruct (rv_pvma v)|destruct none; [right; split; [done|by apply S3]|by left]]]. intros pe Hpe H1 H2.
    by apply (needs_decode_alone parallel true l (va_start (rv_e v)) (va_end (rv_e v)) Hok).
Qed.

(** ** All areas *)

(** The area is mapped as [v'], its pages where they came from. *)
Record in_place (pv : list rst_vma) (v v' : rst_vma) (m0 bk0 m bk : memory) : Prop := InPlace {
  ip_e : rv_e v' = add_status VMA_PREMMAPED (rv_e v);
  ip_pvma : rv_pvma v' = rv_pvma v;
  ip_bits : rv_bitmap v' = replicate (Z.to_nat (area_len (rv_e v) / PAGE_SIZE)) false;
  ip_pages : forall k, 0 <= k < area_len (rv_e v) / PAGE_SIZE ->
    m (premmaped_addr v' + k * PAGE_SIZE) = source_page pv m0 v k /\ bk (premmaped_addr v' + k * PAGE_SIZE) = source_page pv bk0 v k
}.

Definition handled (l : list pagemap_entry) (pv : list rst_vma) (m0 bk0 m bk : memory) (v v' : rst_vma) : Prop :=
  if rv_is v VMA_AREA_GUARD || negb (vma_entry_is_private task_size (rv_e v)) then v' = v
  else left_over l v v' \/ in_place pv v v' m0 bk0 m bk.

(** The mapped areas lie one behind the other. *)
Fixpoint laid (lo : Z) (vs : list rst_vma) (hi : Z) : Prop :=
  match vs with
  | [] => lo = hi
  | v :: vs =>
      if rv_is v VMA_PREMMAPED then premmaped_addr v = lo + slack (rv_e v) /\ laid (premmaped_addr v + area_len (rv_e v)) vs hi
      else laid lo vs hi
  end.

(** What is mapped at most, as [prepare_mm_pid] adds it up. *)
Definition needed (v : rst_vma) : Z := if vma_entry_is_private task_size (rv_e v) then slack (rv_e v) + area_len (rv_e v) else 0.

(** The areas an image gives, and those of the parent they move from. *)
Record fresh_area (pv : list rst_vma) (at0 top : Z) (v : rst_vma) : Prop := FreshArea {
  fa_ok : area_ok (rv_e v);
  fa_clean : rv_is v VMA_PREMMAPED = false /\ rv_is v VMA_NO_PROT_WRITE = false;
  fa_inherits : inherits_ok pv v;
  fa_outside : forall a, in_source pv v a -> ~ in_range at0 top a
}.
Fixpoint apart (pv vmas : list rst_vma) : Prop :=
  match vmas with
  | [] => True
  | v :: rest => (forall w a, w ∈ rest -> in_source pv v a -> ~ in_source pv w a) /\ apart pv rest
  end.

Lemma needed_nonneg pv at0 top vmas : Forall (fresh_area pv at0 top) vmas -> 0 <= zsum (needed <$> vmas).
Proof.
  intros H. apply zsum_nonneg, Forall_fmap. eapply Forall_impl; [exact H|]. intros v [Ha _ _ _]. cbn. unfold needed.
  destruct (area_len_ok _ Ha) as (? & _). destruct (slack_cases (rv_e v)), (vma_entry_is_private task_size (rv_e v)); unfold PAGE_SIZE in *; lia.
Qed.

(** The places are whole pages. *)
Lemma laid_aligned vs : Forall (fun v => rv_is v VMA_PREMMAPED = true -> area_len (rv_e v) mod PAGE_SIZE = 0) vs -> forall lo hi, lo mod PAGE_SIZE = 0 -> laid lo vs hi ->
  forall v, v ∈ vs -> rv_is v VMA_PREMMAPED = true -> premmaped_addr v mod PAGE_SIZE = 0.
Proof.
  induction vs as [|w vs IH]; intros Hf lo hi Hlo H v Hv Hp; [by apply elem_of_nil in Hv|]. apply Forall_cons_1 in Hf as [Hw Hf]. simpl in H.
  destruct (rv_is w VMA_PREMMAPED) eqn:Ew.
  - destruct H as [H1 H2]. assert (Hwa : premmaped_addr w mod PAGE_SIZE = 0).
    { rewrite H1, Zplus_mod, Hlo. by destruct (slack_cases (rv_e w)) as [-> | ->]. }
    apply elem_of_cons in Hv as [->|Hv]; [done|]. eapply (IH Hf _ hi); [|exact H2|done|done]. by rewrite Zplus_mod, Hwa, Hw.
  - apply elem_of_cons in Hv as [->|Hv]; [congruence|]. by apply (IH Hf lo hi).
Qed.

Lemma handled_ext l pv m0 bk0 m bk m' bk' v v' : handled l pv m0 bk0 m bk v v' ->
  (forall k, 0 <= k < area_len (rv_e v) / PAGE_SIZE -> m' (premmaped_addr v' + k * PAGE_SIZE) = m (premmaped_addr v' + k * PAGE_SIZE) /\
     bk' (premmaped_addr v' + k * PAGE_SIZE) = bk (premmaped_addr v' + k * PAGE_SIZE)) -> handled l pv m0 bk0 m' bk' v v'.
Proof.
  unfold handled. intros H Hk. destruct (_ || _); [done|]. destruct H as [H|[H1 H2 H3 H4]]; [by left|right]. split; try done.
  intros k Hr. destruct (Hk k Hr) as [-> ->]. by apply H4.
Qed.

Lemma left_not_premapped l v v' : left_over l v v' -> rv_is v VMA_PREMMAPED = false -> rv_is v' VMA_PREMMAPED = false.
Proof.
  intros (_ & _ & [->|[-> _]]) H; [done|]. unfold rv_is in *. cbn [rv_e set_e]. unfold VMA_PREMMAPED, VMA_NO_PROT_WRITE in *. by rewrite status_add by lia.
Qed.
Lemma in_place_premapped pv v v' m0 bk0 m bk : in_place pv v v' m0 bk0 m bk -> rv_is v' VMA_PREMMAPED = true.
Proof. intros [E _ _ _]. unfold rv_is. rewrite E. unfold VMA_PREMMAPED. by rewrite status_add. Qed.

Lemma premap_loop_ok pieok parallel l parents pv m0 bk0 at0 top : pagemaps_ok l -> Forall (fun q => pagemaps_ok (pmes q)) parents ->
  (pieok = true -> parents = []) -> 0 <= at0 -> top < 2 ^ 63 ->
  forall vmas prev pr j pstart at_ st env, scan_at l pr j -> ends_before l j pstart -> Forall (fresh_area pv at0 top) vmas -> apart pv vmas ->
  at0 <= at_ -> at_ + zsum (needed <$> vmas) <= top ->
  (forall v a, v ∈ vmas -> in_source pv v a -> pm_mem st a = m0 a /\ pm_back st a = bk0 a) ->
  exists ok vmas' at' st' env', premap_loop task_size hidden fresh pieok parallel pv vmas prev pr parents pstart at_ st env = Ret (ok, vmas', at', st', env') /\
    (ok = true -> Forall2 (handled l pv m0 bk0 (pm_mem st') (pm_back st')) vmas vmas' /\ laid at_ vmas' at' /\ at_ <= at' <= at_ + zsum (needed <$> vmas) /\
      forall a, in_range at0 at_ a -> pm_mem st' a = pm_mem st a /\ pm_back st' a = pm_back st a).
Proof.
  intros Hok Hpar Hpie H0 Htop. induction vmas as [|v vmas IH]; intros prev pr j pstart at_ st env Hs Hb Hfa Hap Hat Hsum Hint.
  { eexists _, _, _, _, _. split; [done|]. intros _. split; [constructor|]. simpl in *. split; [lia|]. split; [lia|done]. }
  apply Forall_cons_1 in Hfa as [[Ha [Hc1 Hc2] Hinh Hout] Hfa]. destruct Hap as [Hap Haps]. rewrite fmap_cons, zsum_cons in *.
  pose proof (needed_nonneg _ _ _ _ Hfa) as Hn0.
  assert (Hskip : forall v' pr' j' pstart', handled l pv m0 bk0 (pm_mem st) (pm_back st) v v' -> rv_is v' VMA_PREMMAPED = false ->
      (forall m bk, handled l pv m0 bk0 m bk v v') -> 0 <= needed v ->
      scan_at l pr' j' -> ends_before l j' pstart' ->
      exists ok vmas' at' st' env', (let! (ok, rest, at_, st, env) := premap_loop task_size hidden fresh pieok parallel pv vmas (Some v') pr' parents pstart' at_ st env in
        Ret (ok, v' :: rest, at_, st, env)) = Ret (ok, vmas', at', st', env') /\
        (ok = true -> Forall2 (handled l pv m0 bk0 (pm_mem st') (pm_back st')) (v :: vmas) vmas' /\ laid at_ vmas' at' /\
          at_ <= at' <= at_ + (needed v + zsum (needed <$> vmas)) /\
          forall a, in_range at0 at_ a -> pm_mem st' a = pm_mem st a /\ pm_back st' a = pm_back st a)).
  { intros v' pr' j' pstart' _ Hnp Hh Hnn Hs' Hb'.
    destruct (IH (Some v') pr' j' pstart' at_ st env Hs' Hb' Hfa Haps Hat ltac:(lia)) as (ok & vmas' & at' & st' & env' & -> & Hres).
    { intros w a Hw. apply Hint. by apply list_elem_of_further. }
    cbn [obind]. eexists _, _, _, _, _. split; [done|]. intros Hk. destruct (Hres Hk) as (R1 & R2 & R3 & R4).
    split; [by constructor|]. split; [simpl; by rewrite Hnp|]. split; [lia|done]. }
  cbn [premap_loop]. destruct (rv_is v VMA_AREA_GUARD) eqn:Eg.
  { apply (Hskip v pr j pstart); try done; [unfold handled; by rewrite Eg|intros; unfold handled; by rewrite Eg|].
    unfold needed. destruct (vma_entry_is_private _ _); [|done]. destruct (area_len_ok _ Ha) as (? & _). destruct (slack_cases (rv_e v)); unfold PAGE_SIZE in *; lia. }
  rewrite Z.gtb_ltb. destruct (Z.ltb_spec (rv_start v) pstart) as [|Hps]; [by eexists _, _, _, _, _|].
  assert (Hb' : ends_before l j (rv_start v)) by (intros i pe Hi Hpe; pose proof (Hb i pe Hi Hpe); lia).
  destruct (vma_entry_is_private task_size (rv_e v)) eqn:Epr; cbn [negb].
  2:{ apply (Hskip v pr j (rv_start v)); try done; [unfold handled; by rewrite Eg, Epr|intros; unfold handled; by rewrite Eg, Epr|unfold needed; by rewrite Epr]. }
  assert (Hneed : needed v = slack (rv_e v) + area_len (rv_e v)) by (unfold needed; by rewrite Epr).
  destruct (area_len_ok _ Ha) as (L1 & _). assert (0 <= slack (rv_e v)) by (destruct (slack_cases (rv_e v)); unfold PAGE_SIZE in *; lia).
  destruct (premap_decide_ok pieok parallel l v prev pr j parents Hok Hpar Hpie Ha Hs Hb') as (d & -> & Hd). cbn [obind].
  destruct d as [|v' pr'|]; [by eexists _, _, _, _, _| |].
  - destruct Hd as (Hl & j' & S1 & S2). apply (Hskip v' pr' j' (rv_start v)); try done; [|by eapply left_not_premapped| |lia].
    + unfold handled. rewrite Eg, Epr. by left.
    + intros. unfold handled. rewrite Eg, Epr. by left.
  - destruct (premap_private_vma_ok pv v at_ st env Ha Hinh ltac:(lia) ltac:(lia)) as (ok & v' & tgt' & st1 & env1 & -> & _ & Hm). cbn [obind].
    destruct ok; cbn [negb]; [|by eexists _, _, _, _, _]. destruct (Hm eq_refl) as [M1 M2 M3 M4 M5 M6 M7].
    destruct (IH (Some v') pr j (rv_start v) tgt' st1 env1 Hs Hb' Hfa Haps ltac:(lia) ltac:(lia)) as (ok & vmas' & at' & st' & env' & -> & Hres).
    { intros w a Hw Hwa. assert (Hw2 : w ∈ v :: vmas) by (by apply list_elem_of_further). rewrite Forall_forall in Hfa. destruct (Hfa w Hw) as [_ _ _ Hwout].
      destruct (M7 a) as [-> ->]; [|by intros Hva; apply (Hap w a)|by apply (Hint w a)].
      intros Hr. apply (Hwout a Hwa). unfold in_range in *. lia. }
    cbn [obind]. eexists _, _, _, _, _. split; [done|]. intros Hk. destruct (Hres Hk) as (R1 & R2 & R3 & R4).
    assert (Hin : in_place pv v v' m0 bk0 (pm_mem st1) (pm_back st1)).
    { split; try done. intros k Hk2. destruct (M6 k Hk2) as [-> ->]. unfold source_page. destruct (source pv v) as [pa|] eqn:Es; [|done].
      apply (Hint v); [apply list_elem_of_here|]. exists pa. split; [done|]. destruct (area_len_ok _ Ha) as (_ & _ & _ & _ & L5). unfold in_range, PAGE_SIZE in *. lia. }
    split; [constructor; [|done]|].
    + apply (handled_ext _ _ _ _ (pm_mem st1) (pm_back st1)); [unfold handled; rewrite Eg, Epr; by right|]. intros k Hk2. apply R4.
      destruct (area_len_ok _ Ha) as (_ & _ & _ & _ & L5). unfold in_range, PAGE_SIZE in *. lia.
    + cbn [laid]. rewrite (in_place_premapped _ _ _ _ _ _ _ Hin), M1, mark_slack, mark_len. split; [split; [lia|]|].
      * by rewrite <- M5.
      * split; [lia|]. intros a Hr. destruct (R4 a) as [-> ->]; [unfold in_range in *; lia|]. apply M7; [unfold in_range in *; lia|].
        intros Hso. apply (Hout a Hso). unfold in_range in *. lia.
Qed.
End PremapOk.

(** ** Example: an image without pages *)

(** The scan for pages reads the current entry of a pagemap that has none. *)
Lemma premap_empty_pagemap : premap_priv_vmas (2 ^ 47) true (fun _ _ => []) true false [] [fresh_vma (private_vma 0x1000 0x2000)]
  (PageRead None 0 0 0 (BlkState 0 0 [] 0 0) (Iovec 0 0) [] (-1) [] false) [] 0x500000 (PremapState (fun _ => []) (fun _ => []) []) (MEnv [] [] []) = Bug.
Proof. reflexivity. Qed.
