(* ===== verification/VmaHint.v ===== *)
(** Where the last stage of a restore runs: [restorer_get_vma_hint] of
    criu/cr-restore.c.  The code and the data of the last stage must lie where
    neither the restoring process nor the restored one has an area; the function
    sweeps over the two ascending lists at once.  The guard entries, which come
    last in both, are not looked at. *)
From stdpp Require Import sorting.
From S2P Require Import Prelude PagemapImage PageRead PagePipe PageSelect VmaList.

Section Hint.
Context (task_size : Z).

(** A place in a list: what is left of it from there; [[]] is [end_vma]. *)
Definition hint_start (l : list vma_area) : Z := match l with [] => task_size | v :: _ => va_start v end.
Definition hint_next (l : list vma_area) : list vma_area :=
  match l with
  | _ :: ((n :: _) as rest) => if vma_entry_is n VMA_AREA_GUARD then [] else rest
  | _ => []
  end.
Definition hint_past (v : vma_area) (prev_vma_end : Z) : Z := if u64 prev_vma_end <? va_end v then va_end v else prev_vma_end.

Fixpoint hint_loop (fuel : nat) (s_vma t_vma : list vma_area) (prev_vma_end vma_len : Z) : outcome Z :=
  match fuel with
  | O => NoFuel
  | S fuel =>
      if u64 (prev_vma_end + vma_len) >? hint_start s_vma then
        match s_vma with
        | [] => Ret (-1)
        | v :: _ => hint_loop fuel (hint_next s_vma) t_vma (hint_past v prev_vma_end) vma_len
        end
      else if u64 (prev_vma_end + vma_len) >? hint_start t_vma then
        match t_vma with
        | [] => Ret (-1)
        | v :: _ => hint_loop fuel s_vma (hint_next t_vma) (hint_past v prev_vma_end) vma_len
        end
      else Ret prev_vma_end
  end.

Definition restorer_get_vma_hint (tgt_vma_list self_vma_list : list vma_area) (min_addr vma_len : Z) : outcome Z :=
  match self_vma_list, tgt_vma_list with
  | _ :: _, _ :: _ => hint_loop (S (length self_vma_list + length tgt_vma_list)) self_vma_list tgt_vma_list min_addr vma_len
  | _, _ => Bug
  end.

(** ** The sweep *)

(** The areas below the task size, ascending and apart; the guard entries. *)
Record sweepable (l : list vma_area) : Prop := Sweepable {
  sw_range : Forall (fun v => 0 <= va_start v < va_end v /\ va_end v <= task_size /\ vma_entry_is v VMA_AREA_GUARD = false) l;
  sw_sorted : StronglySorted (fun v w => va_end v <= va_start w) l
}.
Definition guards (l : list vma_area) : Prop := Forall (fun v => vma_entry_is v VMA_AREA_GUARD = true) l.

Definition clear_of (l : list vma_area) (addr len : Z) : Prop := Forall (fun v => va_end v <= addr \/ addr + len <= va_start v) l.

Definition cursor (l gs : list vma_area) : list vma_area := match l with [] => [] | _ => l ++ gs end.

Lemma hint_next_cursor v l gs : sweepable (v :: l) -> guards gs -> hint_next (cursor (v :: l) gs) = cursor l gs.
Proof.
  intros [Hr _] Hg. destruct l as [|w l]; cbn [cursor app hint_next].
  - destruct gs as [|g gs]; [done|]. by apply Forall_cons_1 in Hg as [-> _].
  - apply Forall_cons_1 in Hr as [_ Hr]. by apply Forall_cons_1 in Hr as [(_ & _ & ->) _].
Qed.

Lemma sweepable_cons v l : sweepable (v :: l) -> sweepable l /\ 0 <= va_start v < va_end v /\ va_end v <= task_size /\ Forall (fun w => va_end v <= va_start w) l.
Proof. intros [Hr Hs]. apply Forall_cons_1 in Hr as [(? & ? & _) Hr]. apply StronglySorted_inv in Hs as [Hs Hf]. split; [by split|]. done. Qed.

(** What lies behind a cursor that the range does not reach is not touched. *)
Lemma cursor_clear l gs addr len : sweepable l -> addr + len <= hint_start (cursor l gs) -> clear_of l addr len.
Proof.
  intros Hl. destruct l as [|v l]; [by constructor|]. intros Hle. cbn in Hle. apply sweepable_cons in Hl as (_ & Hv & _ & Hf).
  apply Forall_cons_2; [by right|]. eapply Forall_impl; [exact Hf|]. intros w Hw. right. cbn in Hw. lia.
Qed.

Lemma cursor_start_le l gs : sweepable l -> hint_start (cursor l gs) <= task_size.
Proof. destruct l as [|v l]; intros Hl; cbn; [done|]. apply sweepable_cons in Hl as (_ & ? & ? & _). lia. Qed.

(** The areas behind the cursors: ended before the candidate. *)
Definition passed (l : list vma_area) (addr : Z) : Prop := Forall (fun v => va_end v <= addr) l.

Lemma passed_mono l a b : a <= b -> passed l a -> passed l b.
Proof. intros Hab Hp. eapply Forall_impl; [exact Hp|]. cbn. lia. Qed.
Lemma passed_clear l addr len : passed l addr -> clear_of l addr len.
Proof. intros Hp. eapply Forall_impl; [exact Hp|]. cbn. by left. Qed.

Definition suitable (self tgt : list vma_area) (min_addr len r : Z) : Prop :=
  min_addr <= r /\ r + len <= task_size /\ clear_of self r len /\ clear_of tgt r len.

(** An area that a suitable place must lie behind. *)
Lemma suitable_past l v addr len x prev : clear_of l x len -> v ∈ l -> addr <= x -> addr + len > va_start v -> 0 <= addr < 2 ^ 63 -> prev = hint_past v addr -> prev <= x.
Proof.
  intros Hc Hv Hx Ho Ha ->. unfold clear_of in Hc. rewrite Forall_forall in Hc. specialize (Hc v Hv). unfold hint_past. rewrite u64_small by lia. destruct (Z.ltb_spec addr (va_end v)); lia.
Qed.

Lemma hint_past_ok v addr : 0 <= addr <= task_size -> 0 <= va_start v < va_end v /\ va_end v <= task_size -> task_size < 2 ^ 62 ->
  addr <= hint_past v addr <= task_size /\ va_end v <= hint_past v addr.
Proof. intros Ha Hv Ht. unfold hint_past. rewrite u64_small by lia. destruct (Z.ltb_spec addr (va_end v)); lia. Qed.

Context (self tgt gs gt : list vma_area) (Hself : sweepable self) (Htgt : sweepable tgt) (Hgs : guards gs) (Hgt : guards gt).
Context (Htask : task_size < 2 ^ 62) (min_addr len : Z) (Hmin : 0 <= min_addr) (Hlen : 0 < len < 2 ^ 62).

Lemma hint_loop_ok fuel : forall s0 s t0 t addr, self = s0 ++ s -> tgt = t0 ++ t -> sweepable s -> sweepable t -> passed s0 addr -> passed t0 addr ->
  min_addr <= addr <= task_size -> (forall x, suitable self tgt min_addr len x -> addr <= x) -> (length s + length t < fuel)%nat ->
  exists r, hint_loop fuel (cursor s gs) (cursor t gt) addr len = Ret r /\
    (r = -1 /\ (forall x, ~ suitable self tgt min_addr len x) \/
     suitable self tgt min_addr len r /\ forall x, suitable self tgt min_addr len x -> r <= x).
Proof.
  induction fuel as [|fuel IH]; intros s0 s t0 t addr Es Et Hs Ht P1 P2 Hb Hmn Hf; [lia|]. cbn [hint_loop].
  rewrite (u64_small (addr + len)) by lia. rewrite !Z.gtb_ltb.
  assert (Hnone : task_size < addr + len -> forall x, ~ suitable self tgt min_addr len x).
  { intros Hlt x Hx. pose proof (Hmn x Hx). destruct Hx as (_ & ? & _). lia. }
  destruct (Z.ltb_spec (hint_start (cursor s gs)) (addr + len)) as [Hlt|Hge].
  { destruct s as [|v s]; [cbn in Hlt |- *; exists (-1); split; [done|]; left; split; [done|by apply Hnone]|].
    rewrite (hint_next_cursor v s gs Hs Hgs). cbn [cursor app]. cbn in Hlt. destruct (sweepable_cons _ _ Hs) as (Hs' & Hv1 & Hv2 & _).
    destruct (hint_past_ok v addr ltac:(lia) ltac:(done) Htask) as (Hp1 & Hp2).
    apply (IH (s0 ++ [v]) s t0 t); try done; try (simpl in *; lia); [by rewrite <- app_assoc| | | ].
    - apply Forall_app. split; [apply (passed_mono _ addr); [lia|done]|]. by repeat constructor.
    - apply (passed_mono _ addr); [lia|done].
    - intros x Hx. pose proof (Hmn x Hx). destruct Hx as (_ & _ & Hc & _). apply (suitable_past self v addr len); try done; try lia.
      rewrite Es. apply elem_of_app. right. by left. }
  destruct (Z.ltb_spec (hint_start (cursor t gt)) (addr + len)) as [Hlt|Hge'].
  { destruct t as [|v t]; [cbn in Hlt |- *; exists (-1); split; [done|]; left; split; [done|by apply Hnone]|].
    rewrite (hint_next_cursor v t gt Ht Hgt). cbn [cursor app]. cbn in Hlt. destruct (sweepable_cons _ _ Ht) as (Ht' & Hv1 & Hv2 & _).
    destruct (hint_past_ok v addr ltac:(lia) ltac:(done) Htask) as (Hp1 & Hp2).
    apply (IH s0 s (t0 ++ [v]) t); try done; try (simpl in *; lia); [by rewrite <- app_assoc| | | ].
    - apply (passed_mono _ addr); [lia|done].
    - apply Forall_app. split; [apply (passed_mono _ addr); [lia|done]|]. by repeat constructor.
    - intros x Hx. pose proof (Hmn x Hx). destruct Hx as (_ & _ & _ & Hc). apply (suitable_past tgt v addr len); try done; try lia.
      rewrite Et. apply elem_of_app. right. by left. }
  exists addr. split; [done|]. right. split; [|done]. pose proof (cursor_start_le s gs Hs). split_and!; try lia.
  - rewrite Es. apply Forall_app. split; [by apply passed_clear|by apply (cursor_clear s gs)].
  - rewrite Et. apply Forall_app. split; [by apply passed_clear|by apply (cursor_clear t gt)].
Qed.

Lemma restorer_get_vma_hint_spec : self <> [] -> tgt <> [] -> min_addr <= task_size ->
  exists r, restorer_get_vma_hint (tgt ++ gt) (self ++ gs) min_addr len = Ret r /\
    (r = -1 /\ (forall x, ~ suitable self tgt min_addr len x) \/
     suitable self tgt min_addr len r /\ forall x, suitable self tgt min_addr len x -> r <= x).
Proof.
  intros Hs Ht Hm. unfold restorer_get_vma_hint.
  assert (Ecs : self ++ gs = cursor self gs) by (by destruct self). assert (Ect : tgt ++ gt = cursor tgt gt) by (by destruct tgt).
  assert (Hfuel : (length self + length tgt < S (length (self ++ gs) + length (tgt ++ gt)))%nat) by (rewrite !length_app; lia).
  destruct (hint_loop_ok (S (length (self ++ gs) + length (tgt ++ gt))) [] self [] tgt min_addr) as (r & Hr & Hq); try done; try lia; [by constructor..| |].
  { by intros x (? & _). }
  exists r. split; [|done]. rewrite <- Ecs, <- Ect in Hr. clear - Hr Hs Ht. destruct self as [|v s]; [done|]. destruct tgt as [|w t]; [done|]. cbn [app] in *. exact Hr.
Qed.
End Hint.

(** C20. The hint is the lowest suitable place.  For two non-empty lists of areas
    below the task size, ascending and apart, each followed by its guard entries,
    [restorer_get_vma_hint] returns; it returns -1 only if no range of the wanted
    length above the minimum address fits below the task size without touching an
    area of either list, and else the start of the lowest such range. *)
Theorem restorer_get_vma_hint_correct task_size self tgt gs gt min_addr len : sweepable task_size self -> sweepable task_size tgt -> guards gs -> guards gt ->
  self <> [] -> tgt <> [] -> task_size < 2 ^ 62 -> 0 <= min_addr <= task_size -> 0 < len < 2 ^ 62 ->
  exists r, restorer_get_vma_hint task_size (tgt ++ gt) (self ++ gs) min_addr len = Ret r /\
    (r = -1 /\ (forall x, ~ suitable task_size self tgt min_addr len x) \/
     suitable task_size self tgt min_addr len r /\ forall x, suitable task_size self tgt min_addr len x -> r <= x).
Proof. intros. by apply restorer_get_vma_hint_spec; try lia. Qed.

(** The gap between two areas of the restoring process is covered by one of the
    restored process, the next gap is too small. *)
Definition hint_area (s e : Z) : vma_area := VmaArea s e MAP_PRIVATE (Z.lor VMA_AREA_REGULAR VMA_ANON_PRIVATE) 3 0 0.
Definition hint_self : list vma_area := [hint_area 0x10000 0x20000; hint_area 0x50000 0x60000; hint_area 0x62000 0x70000].
Definition hint_tgt : list vma_area := [hint_area 0x30000 0x48000].

Lemma restorer_get_vma_hint_correct_witness : exists r, restorer_get_vma_hint 0x100000 (hint_tgt ++ []) (hint_self ++ []) 0x10000 0x11000 = Ret r /\ r = 0x70000.
Proof.
  destruct (restorer_get_vma_hint_correct 0x100000 hint_self hint_tgt [] [] 0x10000 0x11000) as (r & Hr & _).
  - split; [|repeat constructor; discriminate]. repeat (apply Forall_cons_2; [split_and!; (reflexivity || discriminate)|]). constructor.
  - split; [|repeat constructor; discriminate]. repeat (apply Forall_cons_2; [split_and!; (reflexivity || discriminate)|]). constructor.
  - constructor.
  - constructor.
  - discriminate.
  - discriminate.
  - reflexivity.
  - split; discriminate.
  - split; reflexivity.
  - exists r. split; [exact Hr|]. assert (E : restorer_get_vma_hint 0x100000 (hint_tgt ++ []) (hint_self ++ []) 0x10000 0x11000 = Ret 0x70000) by (vm_compute; reflexivity).
    rewrite E in Hr. injection Hr as <-. reflexivity.
Defined.

(** With an area above the task size (vsyscall) in both lists the limit is never
    looked at: the place returned does not end below the task size. *)
Definition vsyscall_area : vma_area := VmaArea 0xffffffffff600000 0xffffffffff601000 MAP_PRIVATE VMA_AREA_VSYSCALL 4 0 0.
Lemma hint_beyond_task_size :
  restorer_get_vma_hint 0x100000 [hint_area 0x10000 0xf0000; vsyscall_area] [hint_area 0x10000 0xf8000; vsyscall_area] 0x10000 0x20000 = Ret 0xf8000.
Proof. reflexivity. Qed.
