(* ===== verification/MemRestore.v ===== *)
(** Restoring the private memory of a process: [restore_priv_vma_content] and
    [prepare_mappings] of criu/mem.c.  The pagemap is walked once, next to the
    list of areas: pages of mapped areas are read into place; in areas that were
    moved from the parent only pages that differ are written, so that the others
    stay shared, and pages that the child does not have are dropped at the end;
    pages of the other areas are queued for the last stage of the restore.

    Not part of the model: the counters for the statistics, and the flag
    that keeps huge pages away while a lazy restore sets up
    ([maybe_disable_thp], one prctl() call). *)
From S2P Require Import Prelude PagemapImage PageRead Dedup AsyncQueue ProcessReads ReadPages ChainRead RangeQuery ReadOps AsyncRead PagePipe PageSelect VmaList CowVmas Premap.

Definition COW_READ_BATCH_PAGES : Z := 2 ^ 8.

(** What a restore of one process changes.  [r_pv]: the parent's areas, whose
    bitmaps the child's copy changes; [r_io]: the queue for the last stage;
    [r_buf]: the buffer of the comparisons has been allocated. *)
Record rstate := RState {
  r_chain : list page_read;
  r_env : env;
  r_mem : memory;
  r_vmas : list rst_vma;
  r_pv : list rst_vma;
  r_io : list page_read_iov;
  r_buf : bool
}.

Definition set_bitmap (b : list bool) (v : rst_vma) : rst_vma := RstVma (rv_e v) (rv_pvma v) b (premmaped_addr v) (rv_open v).

(** [set_bit], [clear_bit] and [bitmap_set] on page numbers of the area. *)
Definition change_bit (x : bool) (k : Z) (v : rst_vma) : rst_vma := set_bitmap (<[Z.to_nat k := x]> (rv_bitmap v)) v.
Fixpoint change_bits (n : nat) (x : bool) (k : Z) (v : rst_vma) : rst_vma :=
  match n with O => v | S n => change_bits n x (k + 1) (change_bit x k v) end.

(** Where the loops stop. *)
Inductive loop_end :=
| EntryDone (i : nat)          (** the pages of an entry are done; [i]: the current area *)
| Finished                     (** the end of the pagemap *)
| ErrAddr                      (** goto err_addr, or to out *)
| ErrRead.                     (** goto err_read *)

Definition set_reader (chain : list page_read) (e : env) (st : rstate) : rstate :=
  RState chain e (r_mem st) (r_vmas st) (r_pv st) (r_io st) (r_buf st).

Section Restore.
Context {Ops : PageOps}.
(** [cow_buf]: the address of the buffer for comparisons. *)
Context (task_size : Z) (parallel lazy_pages : bool) (cow_buf : Z).

(** The search for the area of a page, from area [i] on. *)
Fixpoint seek_vma (l : list rst_vma) (i : nat) (va : Z) : option nat :=
  match l with
  | [] => None
  | v :: rest =>
      if va >=? rv_end v then match rest with [] => None | _ => seek_vma rest (S i) va end else Some i
  end.

(** The comparison of [n] pages read into the buffer with those in place. *)
Fixpoint cow_compare (n : nat) (m : memory) (src dst : Z) : memory :=
  match n with
  | O => m
  | S n =>
      let m := if bool_decide (m dst = m src) then m else fun a => if a =? dst then m src else m a in
      cow_compare n m (src + PAGE_SIZE) (dst + PAGE_SIZE)
  end.

(** A step over pages of the area [vma], number [i]: an error, or how many;
    [rest]: the pages left of the entry. *)
Definition restore_pages (st : rstate) (pe : pagemap_entry) (i : nat) (vma : rst_vma) (va rest : Z) : outcome (option loop_end * Z * rstate) :=
  let e := rv_e vma in
  match r_chain st with
  | [] => Bug
  | pr :: parents =>
      if negb (vma_entry_is e VMA_PREMMAPED) then
        let len := Z.min (u64 (rest * PAGE_SIZE)) (u64 (va_end e - va)) in
        if has (va_status e) VMA_NO_PROT_WRITE then Bug
        else
          let! (ret, io, al) := pagemap_enqueue_iovec parallel false (allocs (r_env st)) pr va len (r_io st) in
          let e' := env_set_allocs al (r_env st) in
          if negb (ret =? 0) then Ret (Some ErrAddr, 0, set_reader (r_chain st) e' st)
          else
            let! pr := skip_pagemap_pages pr len in
            Ret (None, len / PAGE_SIZE, RState (pr :: parents) e' (r_mem st) (r_vmas st) (r_pv st) io (r_buf st))
      else
        let off := u64 (va - va_start e) / PAGE_SIZE in
        let p := u64 (off * PAGE_SIZE + premmaped_addr vma) in
        match rv_pvma vma with
        | CowOf j =>
            let nr := Z.min rest (u64 (va_end e - va) / PAGE_SIZE) in
            let nr := Z.min nr COW_READ_BATCH_PAGES in
            let nr := if nr <? rest then pagemap_align_down pe nr else nr in
            let '(ok, al) := if r_buf st then (true, allocs (r_env st)) else xalloc (allocs (r_env st)) in
            let e' := env_set_allocs al (r_env st) in
            if negb ok then Ret (Some ErrRead, 0, set_reader (r_chain st) e' st)
            else
              let! (r, chain, e') := read_pages (r_chain st) e' va nr cow_buf in
              match r with
              | None => Ret (Some ErrRead, 0, set_reader chain e' st)
              | Some ws =>
                  let! (ret, ws', chain, e') := sync_pages chain e' in
                  if negb (ret =? 0) then Ret (Some ErrRead, 0, set_reader chain e' st)
                  else
                    match r_pv st !! j with
                    | None => Bug
                    | Some pvma =>
                        Ret (None, nr,
                          RState chain e' (cow_compare (Z.to_nat nr) (store (store (r_mem st) ws) ws') cow_buf p)
                            (<[i := change_bits (Z.to_nat nr) true off vma]> (r_vmas st))
                            (<[j := change_bits (Z.to_nat nr) false off pvma]> (r_pv st)) (r_io st) true)
                    end
              end
        | _ =>
            let nr := Z.min (s32 rest) (s32 (u64 (va_end e - va) / PAGE_SIZE)) in
            let vma := change_bit true off vma in
            let! (r, chain, e') := read_pages (r_chain st) (r_env st) va nr p in
            match r with
            | None => Ret (Some ErrRead, 0, RState chain e' (r_mem st) (<[i := vma]> (r_vmas st)) (r_pv st) (r_io st) (r_buf st))
            | Some ws =>
                Ret (None, nr,
                  RState chain e' (store (r_mem st) ws) (<[i := change_bits (Z.to_nat (nr - 1)) true (off + 1) vma]> (r_vmas st))
                    (r_pv st) (r_io st) (r_buf st))
            end
        end
  end.

(** The pages of an entry, from number [done] on. *)
Fixpoint restore_entry_pages (fuel : nat) (st : rstate) (pe : pagemap_entry) (i : nat) (va done nr_pages : Z) : outcome (loop_end * rstate) :=
  if done <? nr_pages then
    match fuel with
    | O => NoFuel
    | S fuel =>
        match seek_vma (drop i (r_vmas st)) i va with
        | None => Ret (ErrAddr, st)
        | Some i =>
            match r_vmas st !! i with
            | None => Bug
            | Some vma =>
                if va <? rv_start vma then Ret (ErrAddr, st)
                else if negb (vma_entry_is_private task_size (rv_e vma)) then Ret (ErrAddr, st)
                else
                  let! (err, nr, st) := restore_pages st pe i vma va (nr_pages - done) in
                  match err with
                  | Some k => Ret (k, st)
                  | None => restore_entry_pages fuel st pe i (u64 (va + nr * PAGE_SIZE)) (done + nr) nr_pages
                  end
            end
        end
    end
  else Ret (EntryDone i, st).

(** The walk over the pagemap. *)
Fixpoint restore_entries (fuel : nat) (st : rstate) (i : nat) : outcome (loop_end * rstate) :=
  match fuel with
  | O => NoFuel
  | S fuel =>
      match r_chain st with
      | [] => Bug
      | pr :: parents =>
          let '(more, pr) := advance pr in
          let st := set_reader (pr :: parents) (r_env st) st in
          if more <=? 0 then Ret (Finished, st)
          else
            match pr_pe pr with
            | None => Bug
            | Some pe =>
                if lazy_pages && pagemap_lazy pe then
                  let! pr := skip_pagemap_pages pr (u64 (pe_nr_pages pe * PAGE_SIZE)) in
                  restore_entries fuel (set_reader (pr :: parents) (r_env st) st) i
                else
                  let! (k, st) := restore_entry_pages (Z.to_nat (pe_nr_pages pe)) st pe i (pe_vaddr pe) 0 (pe_nr_pages pe) in
                  match k with
                  | EntryDone i => restore_entries fuel st i
                  | _ => Ret (k, st)
                  end
            end
      end
  end.

(** ** Dropping the pages that the child does not have *)

(** [bits]: the parent's bitmap; [ma]: the answers of madvise(). *)
Fixpoint drop_pages (bits : list bool) (addr : Z) (back m : memory) (ma : list bool) : bool * memory * list bool :=
  match bits with
  | [] => (true, m, ma)
  | false :: bits => drop_pages bits (addr + PAGE_SIZE) back m ma
  | true :: bits =>
      let '(ok, ma) := xalloc ma in
      if negb ok then (false, m, ma)
      else drop_pages bits (addr + PAGE_SIZE) back (fun a => if a =? addr then back a else m a) ma
  end.

(** An area without a bitmap, one that was not mapped, is a NULL dereference. *)
Fixpoint drop_unshared (vmas pv : list rst_vma) (back m : memory) (ma : list bool) : outcome (bool * memory * list bool) :=
  match vmas with
  | [] => Ret (true, m, ma)
  | v :: vmas =>
      if rv_is v VMA_AREA_GUARD then drop_unshared vmas pv back m ma
      else
        match rv_pvma v with
        | CowOf j =>
            match pv !! j with
            | None => Bug
            | Some p =>
                let size := vma_area_len (rv_e v) / PAGE_SIZE in
                if zlen (rv_bitmap p) <? size then Bug
                else
                let '(ok, m, ma) := drop_pages (take (Z.to_nat size) (rv_bitmap p)) (premmaped_addr v) back m ma in
                if negb ok then Ret (false, m, ma) else drop_unshared vmas pv back m ma
            end
        | _ => drop_unshared vmas pv back m ma
        end
  end.

(** The exit code, and the state the process goes on with. *)
Definition restore_priv_vma_content (st : rstate) (back : memory) (ma : list bool) : outcome (Z * rstate) :=
  match r_chain st with
  | [] => Bug
  | pr :: _ =>
      let! (k, st) := restore_entries (S (length (pmes pr))) st 0 in
      let! (sync_ret, ws, chain, e) := sync_pages (r_chain st) (r_env st) in
      let! e := close_page_read chain e in
      let st := RState chain e (store (r_mem st) ws) (r_vmas st) (r_pv st) (r_io st) (r_buf st) in
      if negb (sync_ret =? 0) then Ret (-1, st)
      else
        match k with
        | Finished =>
            let! (ok, m, _) := drop_unshared (r_vmas st) (r_pv st) back (r_mem st) ma in
            Ret (if ok : bool then 0 else -1, RState chain e m (r_vmas st) (r_pv st) (r_io st) (r_buf st))
        | _ => Ret (-1, st)
        end
  end.
End Restore.

(** ** The whole restore of the private memory of a process *)
Section Prepare.
Context {Ops : PageOps}.
Context (task_size : Z) (hidden : bool) (fresh : vma_area -> Z -> list Z) (pieok parallel lazy_pages : bool) (cow_buf : Z).

(** The answers of the calls of [prepare_mappings] itself: the address of the
    reserved range, if mmap() works; [open_page_read]; the prctl() of
    [maybe_disable_thp]; munmap() of the parent's range and of the tail. *)
Record calls := Calls { c_reserve : option Z; c_open : Z; c_thp : bool; c_unmap_old : bool; c_unmap : bool }.

Definition unmap_pages (m : memory) (addr len : Z) : memory := fun a => if (addr <=? a) && (a <? addr + len) then [] else m a.
Definition set_mem (m : memory) (st : rstate) : rstate := RState (r_chain st) (r_env st) m (r_vmas st) (r_pv st) (r_io st) (r_buf st).

(** [vmas]: the areas of the process, [pv]: those of its parent, [old]: the range
    the parent has them in.  The result, the state, what dropped pages hold, and
    the range in use. *)
Definition prepare_mappings (c : calls) (old : option (Z * Z)) (vmas pv : list rst_vma) (chain : list page_read) (e : env) (ps : premap_state) (me : menv) (ma : list bool)
    : outcome (Z * option (rstate * premap_state * Z * Z)) :=
  if bool_decide (vmas = []) then Ret (0, None)
  else
    match c_reserve c with
    | None => Ret (-1, None)
    | Some addr =>
        if c_open c <=? 0 then Ret (-1, None)
        else if negb (c_thp c) then Ret (-1, None)
        else
          match chain with
          | [] => Bug
          | pr :: parents =>
              let '(_, pr1) := advance pr in
              let! (ok, vmas', at_, ps', _) := premap_priv_vmas task_size hidden fresh pieok parallel pv vmas pr1 parents addr ps me in
              if negb ok then Ret (-1, None)
              else
                let chain := reset_pagemap (pr1 :: parents) in
                let! (ret, st) := restore_priv_vma_content task_size parallel lazy_pages cow_buf (RState chain e (pm_mem ps') vmas' pv [] false) (pm_back ps') ma in
                if ret <? 0 then Ret (ret, None)
                else
                  let '(ret, m) :=
                    match old with
                    | None => (ret, r_mem st)
                    | Some (oaddr, olen) => if c_unmap_old c then (0, unmap_pages (r_mem st) oaddr olen) else (-1, r_mem st)
                    end in
                  let used := at_ - addr in
                  let size := rst_priv_size task_size hidden (rv_e <$> vmas) in
                  let '(ret, m) :=
                    if used <? size then (if c_unmap c then (0, unmap_pages m at_ (size - used)) else (-1, m)) else (ret, m) in
                  Ret (ret, Some (set_mem m st, ps', addr, used))
          end
    end.
End Prepare.

(** ** Bitmaps and comparisons *)
Fixpoint set_bits (n : nat) (x : bool) (k : Z) (b : list bool) : list bool :=
  match n with O => b | S n => set_bits n x (k + 1) (<[Z.to_nat k := x]> b) end.

Lemma change_bits_eq n x : forall k v, change_bits n x k v = set_bitmap (set_bits n x k (rv_bitmap v)) v.
Proof.
  induction n as [|n IH]; intros k v; [by destruct v|]. cbn [change_bits set_bits]. rewrite IH. done.
Qed.

Lemma set_bits_length n x : forall k b, length (set_bits n x k b) = length b.
Proof. induction n as [|n IH]; intros k b; [done|]. cbn [set_bits]. by rewrite IH, length_insert. Qed.

Lemma set_bits_lookup n x : forall k b m, 0 <= k -> (m < length b)%nat ->
  set_bits n x k b !! m = if decide (k <= Z.of_nat m < k + Z.of_nat n) then Some x else b !! m.
Proof.
  induction n as [|n IH]; intros k b m Hk Hm; cbn [set_bits].
  { destruct (decide _); [lia|done]. }
  rewrite IH; [|lia|by rewrite length_insert]. destruct (decide (k + 1 <= Z.of_nat m < k + 1 + Z.of_nat n)), (decide (k <= Z.of_nat m < k + Z.of_nat (S n))); try lia; try done.
  - assert (Z.to_nat k = m) as -> by lia. by rewrite list_lookup_insert_eq.
  - rewrite list_lookup_insert_ne by lia. done.
Qed.

(** After the comparisons the pages in place are those of the buffer. *)
Lemma cow_compare_ok n : forall m src dst, src + Z.of_nat n * PAGE_SIZE <= dst \/ dst + Z.of_nat n * PAGE_SIZE <= src ->
  (forall j, 0 <= j < Z.of_nat n -> cow_compare n m src dst (dst + j * PAGE_SIZE) = m (src + j * PAGE_SIZE)) /\
  (forall a, (forall j, 0 <= j < Z.of_nat n -> a <> dst + j * PAGE_SIZE) -> cow_compare n m src dst a = m a).
Proof.
  induction n as [|n IH]; intros m src dst Hap; [split; [intros; lia|done]|]. cbn [cow_compare].
  set (m1 := if bool_decide (m dst = m src) then m else fun a => if a =? dst then m src else m a).
  assert (M1 : forall a, m1 a = if a =? dst then m src else m a).
  { intros a. unfold m1. case_bool_decide as E; [|done]. by destruct (Z.eqb_spec a dst) as [->|]. }
  destruct (IH m1 (src + PAGE_SIZE) (dst + PAGE_SIZE)) as [I1 I2]; [unfold PAGE_SIZE in *; lia|]. split.
  - intros j Hj. destruct (decide (j = 0)) as [->|Hne].
    + rewrite I2; [|intros i Hi; unfold PAGE_SIZE; lia]. rewrite M1. rewrite !Z.mul_0_l, !Z.add_0_r. by rewrite Z.eqb_refl.
    + replace (dst + j * PAGE_SIZE) with (dst + PAGE_SIZE + (j - 1) * PAGE_SIZE) by lia. rewrite I1 by lia. rewrite M1.
      destruct (Z.eqb_spec (src + PAGE_SIZE + (j - 1) * PAGE_SIZE) dst); [unfold PAGE_SIZE in *; lia|]. f_equal. lia.
  - intros a Ha. rewrite I2; [|intros j Hj; specialize (Ha (j + 1) ltac:(lia)); lia]. rewrite M1. destruct (Z.eqb_spec a dst) as [->|]; [|done].
    exfalso. apply (Ha 0); lia.
Qed.

(** ** The areas while the pages are put in place *)
Section Areas.
Context (hidden : bool).
Abbreviation laid := (laid hidden).
Abbreviation slack := (slack hidden).

Lemma slack_nonneg e : 0 <= slack e.
Proof. destruct (slack_cases hidden e) as [-> | ->]; unfold PAGE_SIZE; lia. Qed.

Lemma laid_place vs : Forall (fun v => rv_is v VMA_PREMMAPED = true -> 0 <= area_len (rv_e v)) vs -> forall lo hi n v, laid lo vs hi -> vs !! n = Some v -> rv_is v VMA_PREMMAPED = true ->
  lo <= premmaped_addr v /\ premmaped_addr v + area_len (rv_e v) <= hi /\
  (forall n' v', (n < n')%nat -> vs !! n' = Some v' -> rv_is v' VMA_PREMMAPED = true -> premmaped_addr v + area_len (rv_e v) <= premmaped_addr v').
Proof.
  assert (Hle : forall vs, Forall (fun v => rv_is v VMA_PREMMAPED = true -> 0 <= area_len (rv_e v)) vs -> forall lo hi, laid lo vs hi -> lo <= hi).
  { induction vs0 as [|w vs0 IH]; intros Hf lo hi H; [cbn in H; lia|]. apply Forall_cons_1 in Hf as [Hw Hf]. simpl in H. pose proof (slack_nonneg (rv_e w)).
    destruct (rv_is w VMA_PREMMAPED); [|by apply IH]. destruct H as [H1 H2]. apply IH in H2; [|done]. specialize (Hw eq_refl). lia. }
  induction vs as [|w vs IH]; intros Hf lo hi n v H Hn Hp; [done|]. pose proof Hf as Hf0. apply Forall_cons_1 in Hf as [Hw Hf]. simpl in H.
  destruct n as [|n]; simpl in Hn.
  - injection Hn as ->. rewrite Hp in H. destruct H as [H1 H2]. pose proof (slack_nonneg (rv_e v)). pose proof (Hle _ Hf _ _ H2). split; [lia|]. split; [done|].
    intros [|n'] v' Hlt Hn' Hp'; [lia|]. simpl in Hn'. by apply (IH Hf _ _ _ _ H2 Hn' Hp').
  - assert (exists lo', lo <= lo' /\ laid lo' vs hi) as (lo' & Hlo & H').
    { destruct (rv_is w VMA_PREMMAPED) eqn:Ew; [|by exists lo]. destruct H as [H1 H2]. eexists. split; [|exact H2]. pose proof (slack_nonneg (rv_e w)). specialize (Hw eq_refl). lia. }
    destruct (IH Hf _ _ _ _ H' Hn Hp) as (A & B & C). split; [lia|]. split; [done|]. intros [|n'] v' Hlt Hn' Hp'; [lia|]. apply (C n'); [lia|done|done].
Qed.
End Areas.

(** ** Dropping pages *)
Lemma drop_pages_ok bits back : forall addr m ma, exists ok m' ma', drop_pages bits addr back m ma = (ok, m', ma') /\ (ma = [] -> ok = true /\ ma' = []) /\
  (ok = true -> (forall k, bits !! k = Some true -> m' (addr + Z.of_nat k * PAGE_SIZE) = back (addr + Z.of_nat k * PAGE_SIZE)) /\
    (forall a, (forall k, bits !! k = Some true -> a <> addr + Z.of_nat k * PAGE_SIZE) -> m' a = m a)).
Proof.
  induction bits as [|[] bits IH]; intros addr m ma; cbn [drop_pages]; [by eexists _, _, _| |].
  - destruct (xalloc ma) as [ok ma1] eqn:Ex. assert (Hma : ma = [] -> ok = true /\ ma1 = []) by (intros ->; by injection Ex as <- <-).
    destruct ok; cbn [negb]; [|eexists _, _, _; split; [done|]; split; [|done]; intros H; by destruct (Hma H)].
    destruct (IH (addr + PAGE_SIZE) (fun a => if a =? addr then back a else m a) ma1) as (ok & m' & ma' & -> & A & B). eexists _, _, _. split; [done|].
    split; [intros H; by apply A, Hma|]. intros Hok. destruct (B Hok) as [B1 B2]. split.
    + intros [|k] Hk; [|specialize (B1 k Hk); by replace (addr + Z.of_nat (S k) * PAGE_SIZE) with (addr + PAGE_SIZE + Z.of_nat k * PAGE_SIZE) by lia].
      rewrite Z.mul_0_l, Z.add_0_r. rewrite B2; [by rewrite Z.eqb_refl|]. intros k _. unfold PAGE_SIZE. lia.
    + intros a Ha. rewrite B2; [|intros k Hk; specialize (Ha (S k) Hk); lia]. destruct (Z.eqb_spec a addr) as [->|]; [|done]. exfalso. apply (Ha 0%nat eq_refl). lia.
  - destruct (IH (addr + PAGE_SIZE) m ma) as (ok & m' & ma' & -> & A & B). eexists _, _, _. split; [done|]. split; [done|]. intros Hok. destruct (B Hok) as [B1 B2]. split.
    + intros [|k] Hk; [done|]. specialize (B1 k Hk). by replace (addr + Z.of_nat (S k) * PAGE_SIZE) with (addr + PAGE_SIZE + Z.of_nat k * PAGE_SIZE) by lia.
    + intros a Ha. apply B2. intros k Hk. specialize (Ha (S k) Hk). lia.
Qed.

(** The page at [d] is one that the parent has and the child does not. *)
Definition unshared (vmas pv : list rst_vma) (d : Z) : Prop := exists v j p k, v ∈ vmas /\ rv_is v VMA_AREA_GUARD = false /\ rv_pvma v = CowOf j /\ pv !! j = Some p /\
  take (Z.to_nat (vma_area_len (rv_e v) / PAGE_SIZE)) (rv_bitmap p) !! k = Some true /\ d = premmaped_addr v + Z.of_nat k * PAGE_SIZE.

Lemma unshared_dec vmas pv d : unshared vmas pv d \/ ~ unshared vmas pv d.
Proof.
  induction vmas as [|w vmas [H|H]]; [right; intros (? & ? & ? & ? & H & _); by apply elem_of_nil in H|left; destruct H as (w' & j & p & k & Hw & H); exists w', j, p, k; split; [by apply list_elem_of_further|done]|].
  destruct (rv_pvma w) as [| |j] eqn:Ej; [right..|].
  1,2: intros (w' & j & p & k & Hw & Hg & Hj & X); apply elem_of_cons in Hw as [->|Hw]; [congruence|apply H; by exists w', j, p, k].
  destruct (rv_is w VMA_AREA_GUARD) eqn:Eg; [right; intros (w' & j' & p & k & Hw & Hg & Hj & X); apply elem_of_cons in Hw as [->|Hw]; [congruence|apply H; by exists w', j', p, k]|].
  destruct (pv !! j) as [p|] eqn:Ep; [|right; intros (w' & j' & p & k & Hw & Hg & Hj & X & Y); apply elem_of_cons in Hw as [->|Hw]; [congruence|apply H; by exists w', j', p, k]].
  set (bits := take (Z.to_nat (vma_area_len (rv_e w) / PAGE_SIZE)) (rv_bitmap p)).
  destruct (decide (Exists (fun k => bits !! k = Some true /\ d = premmaped_addr w + Z.of_nat k * PAGE_SIZE) (seq 0 (length bits)))) as [E|E].
  - left. apply Exists_exists in E as (k & _ & E1 & E2). exists w, j, p, k. split; [apply list_elem_of_here|done].
  - right. intros (w' & j' & p' & k & Hw & Hg & Hj & X & Y & Z). apply elem_of_cons in Hw as [->|Hw]; [|apply H; by exists w', j', p', k]. apply E. apply Exists_exists.
    exists k. rewrite Ej in Hj. injection Hj as <-. rewrite Ep in X. injection X as <-. split; [|done]. apply elem_of_seq. apply lookup_lt_Some in Y. fold bits in Y. lia.
Qed.

Lemma drop_unshared_ok pv back vmas : forall m ma, (forall v j, v ∈ vmas -> rv_is v VMA_AREA_GUARD = false -> rv_pvma v = CowOf j -> exists p, pv !! j = Some p /\ vma_area_len (rv_e v) / PAGE_SIZE <= zlen (rv_bitmap p)) ->
  exists ok m' ma', drop_unshared vmas pv back m ma = Ret (ok, m', ma') /\ (ma = [] -> ok = true) /\
    (ok = true -> forall d, (unshared vmas pv d -> m' d = back d) /\ (~ unshared vmas pv d -> m' d = m d)).
Proof.
  induction vmas as [|v vmas IH]; intros m ma Hpv; cbn [drop_unshared].
  { eexists _, _, _. split; [done|]. split; [done|]. intros _ d. split; [|done]. intros (v & j & p & k & Hv & _). by apply elem_of_nil in Hv. }
  assert (Hrest : forall v' j, v' ∈ vmas -> rv_is v' VMA_AREA_GUARD = false -> rv_pvma v' = CowOf j -> exists p, pv !! j = Some p /\ vma_area_len (rv_e v') / PAGE_SIZE <= zlen (rv_bitmap p)).
  { intros v' j Hv'. apply Hpv. by apply list_elem_of_further. }
  assert (Hother : (rv_is v VMA_AREA_GUARD = true \/ forall j, rv_pvma v <> CowOf j) -> exists ok m' ma', drop_unshared vmas pv back m ma = Ret (ok, m', ma') /\ (ma = [] -> ok = true) /\
    (ok = true -> forall d, (unshared (v :: vmas) pv d -> m' d = back d) /\ (~ unshared (v :: vmas) pv d -> m' d = m d))).
  { intros Hv. destruct (IH m ma Hrest) as (ok & m' & ma' & E & A & B). exists ok, m', ma'. split; [done|]. split; [done|]. intros Hok d.
    destruct (B Hok d) as [B1 B2]. assert (Hun : unshared (v :: vmas) pv d <-> unshared vmas pv d).
    { split; intros (w & j & p & k & Hw & Hg & Hj & H).
      - apply elem_of_cons in Hw as [->|Hw]; [exfalso; destruct Hv as [Hv|Hv]; [congruence|by apply (Hv j)]|by exists w, j, p, k].
      - exists w, j, p, k. split; [by apply list_elem_of_further|done]. }
    by rewrite Hun. }
  destruct (rv_is v VMA_AREA_GUARD) eqn:Eg; [apply Hother; by left|]. destruct (rv_pvma v) as [| |j] eqn:Ej; [apply Hother; by right..|]. clear Hother.
  destruct (Hpv v j (list_elem_of_here _ _) Eg Ej) as (p & Hp & Hlen). rewrite Hp. destruct (Z.ltb_spec (zlen (rv_bitmap p)) (vma_area_len (rv_e v) / PAGE_SIZE)) as [|_]; [lia|].
  destruct (drop_pages_ok (take (Z.to_nat (vma_area_len (rv_e v) / PAGE_SIZE)) (rv_bitmap p)) back (premmaped_addr v) m ma) as (ok & m1 & ma1 & -> & A & B).
  destruct ok; cbn [negb]; [|eexists _, _, _; split; [done|]; split; [|done]; intros H; by destruct (A H)]. destruct (B eq_refl) as [B1 B2].
  destruct (IH m1 ma1 Hrest) as (ok & m' & ma' & -> & C & D). eexists _, _, _. split; [done|]. split; [intros H; by apply C, A|]. intros Hok d. destruct (D Hok d) as [D1 D2].
  split.
  - intros (w & j' & p' & k & Hw & Hg & Hj & X & Y & Z). destruct (unshared_dec vmas pv d) as [Hu|Hu]; [by apply D1|]. rewrite (D2 Hu). apply elem_of_cons in Hw as [->|Hw]; [|exfalso; apply Hu; by exists w, j', p', k].
    rewrite Ej in Hj. injection Hj as <-. rewrite Hp in X. injection X as <-. subst d. by apply B1.
  - intros Hn. rewrite D2, B2; [done| |].
    + intros k Hk ->. apply Hn. exists v, j, p, k. split; [apply list_elem_of_here|]. done.
    + intros (w & j' & p' & k & Hw & X). apply Hn. exists w, j', p', k. split; [by apply list_elem_of_further|done].
Qed.

(** ** What a restore is given, and what it keeps *)
Section RestoreOk.
Context {Ops : PageOps} (c : Z -> list Z) {Laws : PageOpsOk Ops c}.
Context (task_size : Z) (hidden parallel lazy_pages : bool) (cow_buf : Z).
Context (l : list pagemap_entry) (vs pv0 : list rst_vma) (M0 : memory) (lo hi : Z).

(** Entries left to the lazy-pages daemon, and the pages of the others. *)
Definition skipped (pe : pagemap_entry) : bool := lazy_pages && pagemap_lazy pe.
Definition wanted : list Z := pages_of (filter (fun pe => skipped pe = false) l).
Definition page_at (i : nat) (pe : pagemap_entry) (k a : Z) : Prop :=
  l !! i = Some pe /\ skipped pe = false /\ 0 <= k < pe_nr_pages pe /\ a = pe_vaddr pe + k * PAGE_SIZE.

Definition premapped (v : rst_vma) : Prop := rv_is v VMA_PREMMAPED = true.
Definition left_area (v : rst_vma) : Prop := rv_is v VMA_PREMMAPED = false /\ vma_entry_is_private task_size (rv_e v) = true.
Definition nr_pages (v : rst_vma) : Z := area_len (rv_e v) / PAGE_SIZE.
Definition page_of_area (v : rst_vma) (a : Z) : Prop := rv_start v <= a < rv_end v /\ a mod PAGE_SIZE = 0.
Definition place (v : rst_vma) (a : Z) : Z := premmaped_addr v + (a - rv_start v).

Record restorable : Prop := Restorable {
  rb_pmes : pagemaps_ok l;
  rb_typed : Forall entry_typed l;
  rb_stored : forall pe, pe ∈ l -> skipped pe = false -> pagemap_present pe = true \/ pagemap_in_parent pe = true;
  rb_small : forall pe, pe ∈ l -> pe_nr_pages pe < 2 ^ 31;
  rb_has : forall a, a ∈ wanted -> ops_has a;
  rb_guard : forall n v, vs !! n = Some v -> rv_is v VMA_AREA_GUARD = true -> vma_entry_is_private task_size (rv_e v) = false;
  rb_area : forall n v, vs !! n = Some v -> rv_is v VMA_AREA_GUARD = false -> area_ok (rv_e v) /\ nr_pages v < 2 ^ 31;
  rb_order : forall n n' v v', (n < n')%nat -> vs !! n = Some v -> vs !! n' = Some v' -> rv_is v' VMA_AREA_GUARD = false ->
    rv_is v VMA_AREA_GUARD = false /\ rv_end v <= rv_start v';
  rb_laid : laid hidden lo vs hi;
  rb_range : 0 <= lo /\ hi < 2 ^ 63;
  rb_mapped : forall n v, vs !! n = Some v -> premapped v -> vma_entry_is_private task_size (rv_e v) = true /\
    premmaped_addr v mod PAGE_SIZE = 0 /\ rv_bitmap v = replicate (Z.to_nat (nr_pages v)) false;
  rb_buf : 0 <= cow_buf /\ cow_buf mod PAGE_SIZE = 0 /\ cow_buf + COW_READ_BATCH_PAGES * PAGE_SIZE < 2 ^ 64 /\
    (cow_buf + COW_READ_BATCH_PAGES * PAGE_SIZE <= lo \/ hi <= cow_buf);
  rb_cow : forall n v j, vs !! n = Some v -> premapped v -> rv_pvma v = CowOf j -> exists p, pv0 !! j = Some p /\ length (rv_bitmap p) = Z.to_nat (nr_pages v);
  rb_cow_inj : forall n n' v v' j, vs !! n = Some v -> vs !! n' = Some v' -> premapped v -> premapped v' -> rv_pvma v = CowOf j -> rv_pvma v' = CowOf j -> n = n';
  rb_inherited : forall n v j, vs !! n = Some v -> rv_is v VMA_AREA_GUARD = false -> rv_pvma v = CowOf j -> premapped v;
  rb_left : forall n v, vs !! n = Some v -> left_area v -> local l (rv_e v) /\
    (has (va_status (rv_e v)) VMA_NO_PROT_WRITE = true -> no_pages l (rv_start v) (rv_end v));
  rb_whole : forall n v pe b, vs !! n = Some v -> left_area v -> pe ∈ l -> pe_blocks pe = Some b ->
    pe_vaddr pe < rv_end v -> rv_start v < entry_end pe -> rv_start v <= pe_vaddr pe /\ entry_end pe <= rv_end v
}.
Context (Hrb : restorable).

(** The pages before [pos] are done. *)
Definition doneb (pos a : Z) : bool := bool_decide (a ∈ wanted) && (a <? pos).

Record rinv (st : rstate) (pos : Z) : Prop := RInv {
  ri_mem : exists owed, ops_inv (r_chain st) owed /\
    (forall d, d ∈ owed.*1 -> exists n v a, vs !! n = Some v /\ premapped v /\ page_of_area v a /\ doneb pos a = true /\ d = place v a) /\
    (forall n v a, vs !! n = Some v -> premapped v -> page_of_area v a ->
       set_pages (r_mem st) owed (place v a) = if doneb pos a then c a else M0 (place v a));
  ri_vmas : length (r_vmas st) = length vs /\ forall n v, vs !! n = Some v -> exists b, r_vmas st !! n = Some (set_bitmap b v) /\
    (premapped v -> length b = Z.to_nat (nr_pages v) /\
       forall k, 0 <= k < nr_pages v -> b !! Z.to_nat k = Some (doneb pos (rv_start v + k * PAGE_SIZE)));
  ri_pv : length (r_pv st) = length pv0 /\ forall j p, pv0 !! j = Some p -> exists b, r_pv st !! j = Some (set_bitmap b p) /\ length b = length (rv_bitmap p) /\
    forall n v, vs !! n = Some v -> premapped v -> rv_pvma v = CowOf j -> forall k, 0 <= k < nr_pages v ->
      b !! Z.to_nat k = if doneb pos (rv_start v + k * PAGE_SIZE) then Some false else rv_bitmap p !! Z.to_nat k;
  ri_io : Forall piov_ok (r_io st) /\ NoDup (queue_tasks (r_io st)).*1 /\
    forall a s, (a, s) ∈ queue_tasks (r_io st) <->
      (exists i pe k, page_at i pe k a /\ s = entry_src l i pe k) /\ a < pos /\ exists n v, vs !! n = Some v /\ left_area v /\ page_of_area v a
}.

Lemma wanted_page a : a ∈ wanted <-> exists i pe k, page_at i pe k a.
Proof.
  unfold wanted, pages_of, page_at. rewrite elem_of_concat. setoid_rewrite list_elem_of_fmap. split.
  - intros (x & (pe & -> & Hpe) & Ha). apply list_elem_of_filter in Hpe as [Hs Hpe]. apply list_elem_of_lookup in Hpe as [i Hi].
    apply elem_page_addrs in Ha as (k & Hk & ->). by exists i, pe, k.
  - intros (i & pe & k & Hi & Hs & Hk & ->). exists (page_addrs (pe_vaddr pe) (pe_nr_pages pe)). split; [|by apply elem_page_addrs; exists k].
    exists pe. split; [done|]. apply list_elem_of_filter. split; [done|]. by eapply list_elem_of_lookup_2.
Qed.

Lemma doneb_true pos a : doneb pos a = true <-> a ∈ wanted /\ a < pos.
Proof. unfold doneb. rewrite andb_true_iff, bool_decide_eq_true, Z.ltb_lt. done. Qed.

(** Consecutive pages of an entry are done. *)
Lemma doneb_step i pe k nr a : l !! i = Some pe -> skipped pe = false -> 0 <= k -> 0 <= nr -> k + nr <= pe_nr_pages pe -> a mod PAGE_SIZE = 0 ->
  let va := pe_vaddr pe + k * PAGE_SIZE in
  doneb (va + nr * PAGE_SIZE) a = if decide (va <= a < va + nr * PAGE_SIZE) then true else doneb va a.
Proof.
  intros Hi Hs Hk Hn Hle Ha va. destruct (pagemaps_ok_lookup _ _ _ (rb_pmes Hrb) Hi) as ((_ & _ & Hal & _) & _).
  destruct (decide _) as [Hin|Hout].
  - apply doneb_true. split; [|lia]. apply wanted_page. exists i, pe, ((a - pe_vaddr pe) / PAGE_SIZE).
    assert (M : (a - pe_vaddr pe) mod PAGE_SIZE = 0) by (by rewrite Zminus_mod, Ha, Hal).
    pose proof (Z.div_mod (a - pe_vaddr pe) PAGE_SIZE ltac:(done)). unfold page_at, va, PAGE_SIZE in *. split_and!; try done; lia.
  - unfold doneb. destruct (Z.ltb_spec a (va + nr * PAGE_SIZE)), (Z.ltb_spec a va); try done; unfold PAGE_SIZE in *; lia.
Qed.

Lemma premapped_area n v : vs !! n = Some v -> premapped v -> rv_is v VMA_AREA_GUARD = false /\ area_ok (rv_e v) /\ nr_pages v < 2 ^ 31.
Proof.
  intros Hn Hp. assert (Hg : rv_is v VMA_AREA_GUARD = false).
  { destruct (rv_is v VMA_AREA_GUARD) eqn:E; [|done]. pose proof (rb_guard Hrb n v Hn E) as E1. destruct (rb_mapped Hrb n v Hn Hp) as [E2 _]. congruence. }
  split; [done|]. by apply (rb_area Hrb n).
Qed.

Lemma left_nonguard n v : vs !! n = Some v -> left_area v -> rv_is v VMA_AREA_GUARD = false.
Proof. intros Hn [_ Hp]. destruct (rv_is v VMA_AREA_GUARD) eqn:E; [|done]. pose proof (rb_guard Hrb n v Hn E). congruence. Qed.

Lemma area_unique n n' v v' a : vs !! n = Some v -> vs !! n' = Some v' -> rv_is v VMA_AREA_GUARD = false -> rv_is v' VMA_AREA_GUARD = false ->
  page_of_area v a -> page_of_area v' a -> n = n'.
Proof.
  intros Hn Hn' Hg Hg' [Ha _] [Ha' _]. destruct (Nat.lt_trichotomy n n') as [L|[?|L]]; [|done|].
  - destruct (rb_order Hrb n n' v v' L Hn Hn' Hg'). lia.
  - destruct (rb_order Hrb n' n v' v L Hn' Hn Hg). lia.
Qed.

Lemma place_ok n v a : vs !! n = Some v -> premapped v -> page_of_area v a ->
  lo <= place v a /\ place v a + PAGE_SIZE <= hi /\ place v a mod PAGE_SIZE = 0 /\
  premmaped_addr v <= place v a /\ place v a + PAGE_SIZE <= premmaped_addr v + area_len (rv_e v).
Proof.
  intros Hn Hp [Ha Hm]. destruct (premapped_area n v Hn Hp) as (_ & Hok & _). destruct (rb_mapped Hrb n v Hn Hp) as (_ & Hal & _).
  destruct (laid_place hidden vs) with (lo := lo) (hi := hi) (n := n) (v := v) as (L1 & L2 & _); [|apply (rb_laid Hrb)|done|done|].
  { apply Forall_lookup_2. intros i w Hi Hpw. destruct (premapped_area i w Hi Hpw) as (_ & Hw & _). destruct (area_len_ok _ Hw). lia. }
  destruct Hok as [[A1 A2] [A3 A4]]. unfold place, rv_start, rv_end, area_len in *.
  assert (M : (va_end (rv_e v) - a) mod PAGE_SIZE = 0) by (by rewrite Zminus_mod, A4, Hm). pose proof (Z.div_mod (va_end (rv_e v) - a) PAGE_SIZE ltac:(done)).
  assert (PAGE_SIZE <= va_end (rv_e v) - a) by (unfold PAGE_SIZE in *; lia).
  split_and!; try lia. rewrite Zplus_mod, Zminus_mod, Hal, Hm, A3. done.
Qed.

Lemma place_inj n n' v v' a a' : vs !! n = Some v -> vs !! n' = Some v' -> premapped v -> premapped v' -> page_of_area v a -> page_of_area v' a' ->
  place v a = place v' a' -> n = n' /\ a = a'.
Proof.
  intros Hn Hn' Hp Hp' Ha Ha' E. pose proof (place_ok n v a Hn Hp Ha) as (_ & _ & _ & P1 & P2). pose proof (place_ok n' v' a' Hn' Hp' Ha') as (_ & _ & _ & P3 & P4).
  assert (Hf : Forall (fun v => rv_is v VMA_PREMMAPED = true -> 0 <= area_len (rv_e v)) vs).
  { apply Forall_lookup_2. intros i w Hi Hpw. destruct (premapped_area i w Hi Hpw) as (_ & Hw & _). destruct (area_len_ok _ Hw). lia. }
  assert (n = n') as <-.
  { destruct (Nat.lt_trichotomy n n') as [L|[?|L]]; [|done|].
    - destruct (laid_place hidden vs Hf lo hi n v (rb_laid Hrb) Hn Hp) as (_ & _ & H). specialize (H n' v' L Hn' Hp'). unfold PAGE_SIZE in *. lia.
    - destruct (laid_place hidden vs Hf lo hi n' v' (rb_laid Hrb) Hn' Hp') as (_ & _ & H). specialize (H n v L Hn Hp). unfold PAGE_SIZE in *. lia. }
  split; [done|]. rewrite Hn in Hn'. injection Hn' as <-. unfold place in E. lia.
Qed.

(** A chunk of an entry inside an area. *)
Record chunk (i : nat) (pe : pagemap_entry) (k nr : Z) (n : nat) (v : rst_vma) : Prop := Chunk {
  ck_entry : l !! i = Some pe;
  ck_wanted : skipped pe = false;
  ck_k : 0 <= k;
  ck_nr : 0 < nr /\ k + nr <= pe_nr_pages pe;
  ck_area : vs !! n = Some v /\ rv_is v VMA_AREA_GUARD = false;
  ck_in : rv_start v <= pe_vaddr pe + k * PAGE_SIZE /\ pe_vaddr pe + (k + nr) * PAGE_SIZE <= rv_end v
}.
Abbreviation vaddr pe k := (pe_vaddr pe + k * PAGE_SIZE).

Lemma chunk_facts i pe k nr n v : chunk i pe k nr n v -> entry_ok pe /\ pe_vaddr pe mod PAGE_SIZE = 0 /\ area_ok (rv_e v) /\ entry_end pe < 2 ^ 64 /\
  (forall j, 0 <= j < nr -> vaddr pe (k + j) ∈ wanted /\ page_of_area v (vaddr pe (k + j))).
Proof.
  intros [Hi Hs Hk [N1 N2] [Hn Hg] [A1 A2]]. destruct (pagemaps_ok_lookup _ _ _ (rb_pmes Hrb) Hi) as (He & _). pose proof He as (_ & _ & Hal & _ & _ & Hend & _).
  destruct (rb_area Hrb n v Hn Hg) as [Ha _]. split_and!; try done; intros j Hj; split.
  - apply wanted_page. exists i, pe, (k + j). split_and!; (done || lia).
  - split; [unfold PAGE_SIZE in *; lia|]. by rewrite Z.mod_add.
Qed.

(** What the chunk makes done. *)
Lemma chunk_done i pe k nr n v a : chunk i pe k nr n v -> a mod PAGE_SIZE = 0 ->
  doneb (vaddr pe (k + nr)) a = if decide (vaddr pe k <= a < vaddr pe (k + nr)) then true else doneb (vaddr pe k) a.
Proof.
  intros [Hi Hs Hk [N1 N2] _ _] Ha. pose proof (doneb_step i pe k nr a Hi Hs Hk ltac:(lia) N2 Ha) as H. cbv zeta in H.
  replace (vaddr pe (k + nr)) with (vaddr pe k + nr * PAGE_SIZE) by lia. exact H.
Qed.

Lemma chunk_elsewhere i pe k nr n v n' v' a : chunk i pe k nr n v -> vs !! n' = Some v' -> rv_is v' VMA_AREA_GUARD = false -> page_of_area v' a -> n' <> n ->
  doneb (vaddr pe (k + nr)) a = doneb (vaddr pe k) a /\ ~ vaddr pe k <= a < vaddr pe (k + nr).
Proof.
  intros Hc Hn' Hg' Ha Hne. pose proof Ha as [Har Ham]. rewrite (chunk_done _ _ _ _ _ _ _ Hc Ham). destruct (decide _) as [Hin|]; [exfalso|done].
  destruct Hc as [Hi Hs Hk [N1 N2] [Hn Hg] [A1 A2]]. apply Hne. eapply (area_unique n' n v' v a); try done. split; [lia|done].
Qed.

(** The number of a page in its area. *)
Lemma chunk_off i pe k nr n v : chunk i pe k nr n v -> let off := (vaddr pe k - rv_start v) / PAGE_SIZE in
  u64 (vaddr pe k - va_start (rv_e v)) / PAGE_SIZE = off /\ 0 <= off /\ vaddr pe k = rv_start v + off * PAGE_SIZE /\ off + nr <= nr_pages v.
Proof.
  intros Hc off. destruct (chunk_facts _ _ _ _ _ _ Hc) as (_ & Hal & Ha & Hend & _). destruct Hc as [Hi Hs Hk [N1 N2] [Hn Hg] [A1 A2]]. pose proof Ha as [[R1 R2] [R3 R4]].
  assert (M : (vaddr pe k - rv_start v) mod PAGE_SIZE = 0) by (unfold rv_start; by rewrite Zminus_mod, Z.mod_add, Hal, R3).
  pose proof (Z.div_mod (vaddr pe k - rv_start v) PAGE_SIZE ltac:(done)) as D. rewrite M, Z.add_0_r in D. fold off in D.
  destruct (area_len_ok _ Ha) as (_ & _ & _ & _ & L). unfold nr_pages. unfold rv_start, rv_end, area_len in *.
  split; [unfold off, rv_start; f_equal; apply u64_small; unfold PAGE_SIZE in *; lia|]. unfold PAGE_SIZE in *. split_and!; lia.
Qed.

Lemma bits_step i pe k nr n v (b : list bool) : chunk i pe k nr n v -> let off := (vaddr pe k - rv_start v) / PAGE_SIZE in
  length b = Z.to_nat (nr_pages v) -> (forall x, 0 <= x < nr_pages v -> b !! Z.to_nat x = Some (doneb (vaddr pe k) (rv_start v + x * PAGE_SIZE))) ->
  length (set_bits (Z.to_nat nr) true off b) = Z.to_nat (nr_pages v) /\
  forall x, 0 <= x < nr_pages v -> set_bits (Z.to_nat nr) true off b !! Z.to_nat x = Some (doneb (vaddr pe (k + nr)) (rv_start v + x * PAGE_SIZE)).
Proof.
  intros Hc off Hlen Hb. destruct (chunk_off _ _ _ _ _ _ Hc) as (_ & O1 & O2 & O3). fold off in O1, O2, O3. rewrite set_bits_length. split; [done|]. intros x Hx.
  destruct (chunk_facts _ _ _ _ _ _ Hc) as (_ & _ & [_ [R3 _]] & _). pose proof (ck_nr _ _ _ _ _ _ Hc).
  rewrite set_bits_lookup by lia. rewrite (chunk_done _ _ _ _ _ _ _ Hc) by (unfold rv_start; by rewrite Z.mod_add).
  replace (vaddr pe (k + nr)) with (vaddr pe k + nr * PAGE_SIZE) by lia. rewrite O2. unfold PAGE_SIZE.
  destruct (decide (off <= Z.of_nat (Z.to_nat x) < off + Z.of_nat (Z.to_nat nr))), (decide (rv_start v + off * 4096 <= rv_start v + x * 4096 < rv_start v + off * 4096 + nr * 4096)); try lia; try done.
  rewrite Hb by done. by rewrite O2.
Qed.

(** The parent's bits of an area that is moved from it. *)
Lemma pbits_step i pe k nr n v (b b0 : list bool) : chunk i pe k nr n v -> let off := (vaddr pe k - rv_start v) / PAGE_SIZE in
  length b = Z.to_nat (nr_pages v) ->
  (forall x, 0 <= x < nr_pages v -> b !! Z.to_nat x = if doneb (vaddr pe k) (rv_start v + x * PAGE_SIZE) then Some false else b0 !! Z.to_nat x) ->
  forall x, 0 <= x < nr_pages v -> set_bits (Z.to_nat nr) false off b !! Z.to_nat x = if doneb (vaddr pe (k + nr)) (rv_start v + x * PAGE_SIZE) then Some false else b0 !! Z.to_nat x.
Proof.
  intros Hc off Hlen Hb x Hx. destruct (chunk_off _ _ _ _ _ _ Hc) as (_ & O1 & O2 & O3). fold off in O1, O2, O3.
  destruct (chunk_facts _ _ _ _ _ _ Hc) as (_ & _ & [_ [R3 _]] & _). pose proof (ck_nr _ _ _ _ _ _ Hc).
  rewrite set_bits_lookup by lia. rewrite (chunk_done _ _ _ _ _ _ _ Hc) by (unfold rv_start; by rewrite Z.mod_add).
  replace (vaddr pe (k + nr)) with (vaddr pe k + nr * PAGE_SIZE) by lia. rewrite O2. unfold PAGE_SIZE.
  destruct (decide (off <= Z.of_nat (Z.to_nat x) < off + Z.of_nat (Z.to_nat nr))), (decide (rv_start v + off * 4096 <= rv_start v + x * 4096 < rv_start v + off * 4096 + nr * 4096)); try lia; try done.
  rewrite Hb by done. by rewrite O2.
Qed.

(** The pages of a chunk at their places. *)
Lemma asked_fst va nr buf : (asked c va nr buf).*1 = (fun j => buf + j * PAGE_SIZE) <$> seqZ 0 nr.
Proof. unfold asked. rewrite <- list_fmap_compose. by apply list_fmap_ext. Qed.

Lemma asked_place i pe k nr n v d : chunk i pe k nr n v -> d ∈ (asked c (vaddr pe k) nr (place v (vaddr pe k))).*1 ->
  exists a, vaddr pe k <= a < vaddr pe (k + nr) /\ page_of_area v a /\ d = place v a /\ doneb (vaddr pe (k + nr)) a = true.
Proof.
  intros Hc Hd. rewrite asked_fst in Hd. apply list_elem_of_fmap in Hd as (j & -> & Hj). apply elem_of_seqZ in Hj.
  destruct (chunk_facts _ _ _ _ _ _ Hc) as (_ & _ & _ & _ & Hpg). destruct (Hpg j ltac:(lia)) as [Hw Ha].
  exists (vaddr pe (k + j)). split; [unfold PAGE_SIZE; lia|]. split; [done|]. split; [unfold place; lia|]. apply doneb_true. split; [done|]. unfold PAGE_SIZE. lia.
Qed.

Lemma chunk_view i pe k nr n v V n' v' a : chunk i pe k nr n v -> premapped v -> vs !! n' = Some v' -> premapped v' -> page_of_area v' a ->
  V (place v' a) = (if doneb (vaddr pe k) a then c a else M0 (place v' a)) ->
  set_pages V (asked c (vaddr pe k) nr (place v (vaddr pe k))) (place v' a) = if doneb (vaddr pe (k + nr)) a then c a else M0 (place v' a).
Proof.
  intros Hc Hp Hn' Hp' Ha HV. pose proof (ck_area _ _ _ _ _ _ Hc) as [Hn Hg]. destruct (premapped_area n' v' Hn' Hp') as (Hg' & _).
  destruct (decide (n' = n)) as [->|Hne].
  - rewrite Hn in Hn'. injection Hn' as <-. rewrite (chunk_done _ _ _ _ _ _ _ Hc) by apply Ha. destruct (decide _) as [Hin|Hout].
    + apply set_pages_in.
      * rewrite asked_fst. apply NoDup_fmap_2; [intros x y; unfold PAGE_SIZE; lia|apply NoDup_seqZ].
      * unfold asked. apply list_elem_of_fmap. destruct (chunk_facts _ _ _ _ _ _ Hc) as (_ & Hal & _). destruct Ha as [_ Ham].
        assert (M : (a - vaddr pe k) mod PAGE_SIZE = 0) by (by rewrite Zminus_mod, Z.mod_add, Hal, Ham).
        pose proof (Z.div_mod (a - vaddr pe k) PAGE_SIZE ltac:(done)) as D. rewrite M in D. exists ((a - vaddr pe k) / PAGE_SIZE).
        split; [f_equal; [unfold place; lia|f_equal; lia]|]. apply elem_of_seqZ. unfold PAGE_SIZE in *. lia.
    + rewrite set_pages_out; [done|]. intros Hd. apply (asked_place _ _ _ _ _ _ _ Hc) in Hd as (a' & Hr & Ha' & E & _).
      destruct (place_inj n n v v a a' Hn Hn Hp Hp Ha Ha' E) as [_ ->]. done.
  - destruct (chunk_elsewhere _ _ _ _ _ _ _ _ _ Hc Hn' Hg' Ha Hne) as [-> _]. rewrite set_pages_out; [done|].
    intros Hd. apply (asked_place _ _ _ _ _ _ _ Hc) in Hd as (a' & Hr & Ha' & E & _). destruct (place_inj n' n v' v a a' Hn' Hn Hp' Hp Ha Ha' E) as [? _]. done.
Qed.

(** ** One step *)

(** The reader stands at page [k] of entry [i], which lies in area [n]. *)
Record ready (st : rstate) (i : nat) (pe : pagemap_entry) (k : Z) (n : nat) (v : rst_vma) (pr : page_read) (parents : list page_read) : Prop := Ready {
  rd_inv : rinv st (vaddr pe k);
  rd_chain : r_chain st = pr :: parents;
  rd_pmes : pmes pr = l;
  rd_at : at_entry pr i pe k;
  rd_curr : curr_pme pr = Z.of_nat i;
  rd_wanted : skipped pe = false;
  rd_more : k < pe_nr_pages pe;
  rd_area : vs !! n = Some v /\ rv_is v VMA_AREA_GUARD = false;
  rd_in : rv_start v <= vaddr pe k < rv_end v
}.

Record step_post (st' : rstate) (i : nat) (pe : pagemap_entry) (k nr : Z) (n : nat) (v : rst_vma) : Prop := StepPost {
  sp_chunk : chunk i pe k nr n v;
  sp_inv : rinv st' (vaddr pe (k + nr));
  sp_left : left_area v -> k + nr = pe_nr_pages pe \/ vaddr pe (k + nr) = rv_end v;
  sp_chain : exists pr' parents', r_chain st' = pr' :: parents' /\ pmes pr' = l /\ at_entry pr' i pe (k + nr) /\ curr_pme pr' = Z.of_nat i
}.

Definition step_ok (st : rstate) (i : nat) (pe : pagemap_entry) (k : Z) (n : nat) (v : rst_vma) (b : list bool) : Prop :=
  exists err nr st', restore_pages parallel cow_buf st pe n (set_bitmap b v) (vaddr pe k) (pe_nr_pages pe - k) = Ret (err, nr, st') /\
    ops_safe (r_chain st') /\ (ops_ok (r_env st) -> err = None /\ ops_ok (r_env st')) /\
    (forall x, err = Some x -> x = ErrAddr \/ x = ErrRead) /\ (err = None -> step_post st' i pe k nr n v).

Lemma ready_range st i pe k n v pr parents : ready st i pe k n v pr parents ->
  let q := (rv_end v - vaddr pe k) / PAGE_SIZE in
  l !! i = Some pe /\ 0 <= k /\ pe_nr_pages pe < 2 ^ 31 /\ 1 <= q < 2 ^ 31 /\ rv_end v = vaddr pe k + q * PAGE_SIZE /\
  u64 (va_end (rv_e v) - vaddr pe k) / PAGE_SIZE = q /\ u64 (va_end (rv_e v) - vaddr pe k) = q * PAGE_SIZE /\ cvaddr pr = vaddr pe k /\
  0 <= vaddr pe k /\ (forall nr, 0 < nr -> nr <= pe_nr_pages pe - k -> nr <= q -> chunk i pe k nr n v).
Proof.
  intros [_ _ El Hat _ Hs Hm [Hn Hg] Hin] q. destruct Hat as [Hl _ Hk Hcv _]. rewrite El in Hl.
  destruct (pagemaps_ok_lookup _ _ _ (rb_pmes Hrb) Hl) as ((_ & _ & Hal & Hv0 & _ & Hend & _) & _).
  destruct (rb_area Hrb n v Hn Hg) as [Ha Hnr]. pose proof Ha as [[A1 A2] [A3 A4]]. destruct (area_len_ok _ Ha) as (_ & _ & _ & _ & L).
  pose proof (rb_small Hrb pe ltac:(by eapply list_elem_of_lookup_2)) as Hsm. unfold nr_pages in Hnr.
  assert (M : (rv_end v - vaddr pe k) mod PAGE_SIZE = 0) by (unfold rv_end; by rewrite Zminus_mod, Z.mod_add, Hal, A4).
  pose proof (Z.div_mod (rv_end v - vaddr pe k) PAGE_SIZE ltac:(done)) as D. rewrite M, Z.add_0_r in D. fold q in D.
  assert (Eu : u64 (va_end (rv_e v) - vaddr pe k) = rv_end v - vaddr pe k) by (unfold rv_end in *; apply u64_small; unfold PAGE_SIZE in *; lia).
  unfold rv_start, rv_end, area_len in *. rewrite Eu. unfold PAGE_SIZE in *. split_and!; try done; try lia.
  intros nr N1 N2 N3. split; try done; try lia. unfold rv_start, rv_end, PAGE_SIZE. split; lia.
Qed.

Lemma area_page_in n v y : vs !! n = Some v -> rv_is v VMA_AREA_GUARD = false -> 0 <= y < nr_pages v -> page_of_area v (rv_start v + y * PAGE_SIZE).
Proof.
  intros Hn Hg Hy. destruct (rb_area Hrb n v Hn Hg) as [Ha _]. destruct (area_len_ok _ Ha) as (_ & _ & _ & _ & L). pose proof Ha as [_ [A3 _]].
  split; [|unfold rv_start; by rewrite Z.mod_add]. unfold nr_pages, rv_start, rv_end, area_len, PAGE_SIZE in *. lia.
Qed.

(** The bits change only for the area of the chunk. *)
Lemma vmas_step st i pe k nr n v b x : chunk i pe k nr n v -> rinv st (vaddr pe k) -> r_vmas st !! n = Some (set_bitmap b v) -> premapped v ->
  x = set_bitmap (set_bits (Z.to_nat nr) true ((vaddr pe k - rv_start v) / PAGE_SIZE) b) v ->
  length (<[n := x]> (r_vmas st)) = length vs /\ forall n' v', vs !! n' = Some v' -> exists b, (<[n := x]> (r_vmas st)) !! n' = Some (set_bitmap b v') /\
    (premapped v' -> length b = Z.to_nat (nr_pages v') /\
       forall y, 0 <= y < nr_pages v' -> b !! Z.to_nat y = Some (doneb (vaddr pe (k + nr)) (rv_start v' + y * PAGE_SIZE))).
Proof.
  intros Hc Hi Hb Hp ->. destruct (ri_vmas _ _ Hi) as [Hlen Hall]. rewrite length_insert. split; [done|]. intros n' v' Hn'.
  pose proof (ck_area _ _ _ _ _ _ Hc) as [Hn Hg]. destruct (decide (n' = n)) as [->|Hne].
  - rewrite Hn in Hn'. injection Hn' as <-. rewrite list_lookup_insert_eq by (by apply lookup_lt_Some in Hb). eexists. split; [done|]. intros _.
    destruct (Hall n v Hn) as (b' & Hb' & Hbits). rewrite Hb in Hb'. injection Hb' as <-. destruct (Hbits Hp) as [B1 B2]. by apply (bits_step i pe k nr n v).
  - rewrite list_lookup_insert_ne by done. destruct (Hall n' v' Hn') as (b' & Hb' & Hbits). exists b'. split; [done|]. intros Hp'. destruct (Hbits Hp') as [B1 B2].
    split; [done|]. intros y Hy. rewrite B2 by done. f_equal. destruct (premapped_area n' v' Hn' Hp') as (Hg' & Ha' & _). symmetry.
    eapply (chunk_elsewhere _ _ _ _ _ _ n' v'); try done. by apply (area_page_in n').
Qed.

(** The queue of the last stage is not concerned. *)
Lemma io_step st i pe k nr n v : chunk i pe k nr n v -> rinv st (vaddr pe k) -> premapped v ->
  Forall piov_ok (r_io st) /\ NoDup (queue_tasks (r_io st)).*1 /\ forall a s, (a, s) ∈ queue_tasks (r_io st) <->
      (exists i pe k, page_at i pe k a /\ s = entry_src l i pe k) /\ a < vaddr pe (k + nr) /\ exists n v, vs !! n = Some v /\ left_area v /\ page_of_area v a.
Proof.
  intros Hc Hi Hp. destruct (ri_io _ _ Hi) as (I1 & I2 & I3). split; [done|]. split; [done|]. intros a s. rewrite I3. split.
  - intros (H1 & H2 & H3). split; [done|]. split; [|done]. pose proof (ck_nr _ _ _ _ _ _ Hc). unfold PAGE_SIZE in *. lia.
  - intros (H1 & H2 & n' & v' & Hn' & Hl' & Ha). split; [done|]. split; [|by exists n', v']. destruct (Z.lt_ge_cases a (vaddr pe k)); [done|exfalso].
    pose proof (ck_area _ _ _ _ _ _ Hc) as [Hn Hg]. pose proof (left_nonguard n' v' Hn' Hl') as Hg'.
    destruct (decide (n' = n)) as [->|Hne]; [rewrite Hn in Hn'; injection Hn' as <-; destruct Hl' as [Hl' _]; unfold premapped in Hp; congruence|].
    destruct (chunk_elsewhere _ _ _ _ _ _ _ _ _ Hc Hn' Hg' Ha Hne) as [_ Hno]. lia.
Qed.

(** The parent's bitmaps, when the area is not moved from it. *)
Lemma pv_step st i pe k nr n v : chunk i pe k nr n v -> rinv st (vaddr pe k) -> vma_inherited v = false \/ ~ premapped v ->
  length (r_pv st) = length pv0 /\ forall j p, pv0 !! j = Some p -> exists b, r_pv st !! j = Some (set_bitmap b p) /\ length b = length (rv_bitmap p) /\
    forall n v, vs !! n = Some v -> premapped v -> rv_pvma v = CowOf j -> forall y, 0 <= y < nr_pages v ->
      b !! Z.to_nat y = if doneb (vaddr pe (k + nr)) (rv_start v + y * PAGE_SIZE) then Some false else rv_bitmap p !! Z.to_nat y.
Proof.
  intros Hc Hi Hinh. destruct (ri_pv _ _ Hi) as [Hlen Hall]. split; [done|]. intros j p Hj. destruct (Hall j p Hj) as (b & Hb & Hbl & Hbits). exists b. split; [done|].
  split; [done|]. intros n' v' Hn' Hp' Hj' y Hy. rewrite (Hbits n' v' Hn' Hp' Hj' y Hy). pose proof (ck_area _ _ _ _ _ _ Hc) as [Hn Hg].
  destruct (premapped_area n' v' Hn' Hp') as (Hg' & _). destruct (decide (n' = n)) as [->|Hne].
  - rewrite Hn in Hn'. injection Hn' as <-. destruct Hinh as [Hinh|]; [|done]. unfold vma_inherited in Hinh. by rewrite Hj' in Hinh.
  - destruct (chunk_elsewhere _ _ _ _ _ _ n' v' (rv_start v' + y * PAGE_SIZE) Hc Hn' Hg') as [-> _]; [by apply (area_page_in n')|done|done].
Qed.

Lemma owed_step i pe k nr n v d : chunk i pe k nr n v ->
  (exists n v a, vs !! n = Some v /\ premapped v /\ page_of_area v a /\ doneb (vaddr pe k) a = true /\ d = place v a) ->
  exists n v a, vs !! n = Some v /\ premapped v /\ page_of_area v a /\ doneb (vaddr pe (k + nr)) a = true /\ d = place v a.
Proof.
  intros Hc (n' & v' & a & H1 & H2 & H3 & H4 & H5). exists n', v', a. split_and!; try done. apply doneb_true. apply doneb_true in H4 as [H4 H6]. split; [done|].
  pose proof (ck_nr _ _ _ _ _ _ Hc). unfold PAGE_SIZE in *. lia.
Qed.

(** Pages read into place. *)
Lemma restore_read_ok st i pe k n v pr parents b : ready st i pe k n v pr parents -> r_vmas st !! n = Some (set_bitmap b v) -> premapped v ->
  vma_inherited v = false -> step_ok st i pe k n v b.
Proof.
  intros Hr Hb Hp Hinh. destruct (ready_range _ _ _ _ _ _ _ _ Hr) as (Hl & Hk & Hsm & Hq & Eend & Eq & _ & Ecv & Hva & Hck).
  set (q := (rv_end v - vaddr pe k) / PAGE_SIZE) in *. pose proof Hr as [Hinv Ech El Hat Hcu Hs Hm [Hn Hg] Hin].
  set (nr := Z.min (pe_nr_pages pe - k) q). assert (Hc : chunk i pe k nr n v) by (apply Hck; unfold nr; lia).
  destruct (chunk_off _ _ _ _ _ _ Hc) as (O0 & O1 & O2 & O3). set (off := (vaddr pe k - rv_start v) / PAGE_SIZE) in *.
  assert (Hpa : page_of_area v (vaddr pe k)).
  { destruct (chunk_facts _ _ _ _ _ _ Hc) as (_ & _ & _ & _ & Hpg). destruct (Hpg 0 ltac:(unfold nr; lia)) as [_ H0]. by rewrite Z.add_0_r in H0. }
  destruct (place_ok n v _ Hn Hp Hpa) as (P1 & P2 & P3 & P4 & P5).
  assert (Hlast : page_of_area v (vaddr pe (k + (nr - 1)))).
  { destruct (chunk_facts _ _ _ _ _ _ Hc) as (_ & _ & _ & _ & Hpg). apply Hpg. unfold nr. lia. }
  destruct (place_ok n v _ Hn Hp Hlast) as (_ & P6 & _). destruct (rb_range Hrb) as [R1 R2].
  destruct (ri_mem _ _ Hinv) as (owed & Ho & Hod & Hv). rewrite Ech in Ho.
  destruct (ops_read pr parents owed (r_env st) i pe k nr (place v (vaddr pe k)) Ho Hat Hcu) as (r & chain' & e' & E & S1 & S2 & S3); try done; try (unfold nr; lia).
  { unfold place, PAGE_SIZE in *. lia. }
  { intros j Hj. rewrite Ecv. replace (vaddr pe k + j * PAGE_SIZE) with (vaddr pe (k + j)) by lia. apply (rb_has Hrb).
    destruct (chunk_facts _ _ _ _ _ _ Hc) as (_ & _ & _ & _ & Hpg). by apply Hpg. }
  { rewrite Ecv. intros d Hd Hd'. apply (asked_place _ _ _ _ _ _ _ Hc) in Hd as (a & Ha & Hpg & Ed & _). destruct (Hod d Hd') as (n' & v' & a' & Hn' & Hp' & Hpg' & Hd2 & Ed').
    rewrite Ed in Ed'. destruct (place_inj _ _ _ _ _ _ Hn Hn' Hp Hp' Hpg Hpg' Ed') as [_ <-]. apply doneb_true in Hd2. lia. }
  assert (Hpv : match rv_pvma (set_bitmap b v) with CowOf _ => false | _ => true end = true) by (unfold vma_inherited in Hinh; cbn; by destruct (rv_pvma v)).
  unfold step_ok, restore_pages. rewrite Ech. cbn [rv_e set_bitmap premmaped_addr rv_pvma] in *.
  assert (Epm : vma_entry_is (rv_e v) VMA_PREMMAPED = true) by exact Hp. rewrite Epm. cbn [negb]. cbv zeta. rewrite O0, Eq.
  assert (Enr : Z.min (s32 (pe_nr_pages pe - k)) (s32 q) = nr) by (rewrite !s32_small by lia; done). rewrite Enr.
  assert (Ep : u64 (off * PAGE_SIZE + premmaped_addr v) = place v (vaddr pe k)).
  { unfold place. rewrite u64_small; [lia|]. unfold place, PAGE_SIZE in *. lia. }
  rewrite Ep. rewrite Ecv in E. rewrite E. cbn [obind].
  destruct (rv_pvma v) eqn:Epv; [| |done]; clear Hpv.
  all: destruct r as [ws|]; [|eexists _, _, _; split; [done|]; split; [done|]; split; [intros He; by destruct (S2 He)|]; split; [intros x [= <-]; by right|done]].
  all: eexists _, _, _; split; [done|]; split; [done|]; split; [intros He; split; [done|by apply S2]|]; split; [done|]; intros _.
  all: destruct (S3 ws eq_refl) as (pr' & ps' & owed' & -> & I1 & I2 & I3 & I4 & I5 & I6); rewrite Ecv in I5, I6.
  all: split; [done| |intros [Hx _]; unfold premapped in Hp; congruence|exists pr', ps'; split; [done|]; split; [congruence|done]].
  all: split; cbn [r_chain r_mem r_vmas r_pv r_io].
  all: try exact (io_step st i pe k nr n v Hc Hinv Hp).
  all: try exact (pv_step st i pe k nr n v Hc Hinv (or_introl Hinh)).
  all: try (apply (vmas_step st i pe k nr n v b); [done|done|done|done|];
    rewrite change_bits_eq; replace (Z.to_nat nr) with (S (Z.to_nat (nr - 1))) by (unfold nr; lia); done).
  all: exists owed'; split; [done|]; split; [|intros n' v' a Hn' Hp' Ha; rewrite I6; apply (chunk_view i pe k nr n v _ n'); try done; by apply Hv with (n := n')].
  all: intros d Hd; apply I5 in Hd; apply elem_of_app in Hd as [Hd|Hd];
    [apply (owed_step i pe k nr n v d Hc), Hod, Hd|apply (asked_place _ _ _ _ _ _ _ Hc) in Hd as (a & Ha & Hpg & Ed & Hdn); by exists n, v, a].
Qed.

(** The parent's bitmaps, when the area is moved from it. *)
Lemma pv_cow_step st i pe k nr n v j p0 pb : chunk i pe k nr n v -> rinv st (vaddr pe k) -> premapped v -> rv_pvma v = CowOf j ->
  pv0 !! j = Some p0 -> r_pv st !! j = Some (set_bitmap pb p0) ->
  let x := set_bitmap (set_bits (Z.to_nat nr) false ((vaddr pe k - rv_start v) / PAGE_SIZE) pb) p0 in
  length (<[j := x]> (r_pv st)) = length pv0 /\ forall j' p, pv0 !! j' = Some p -> exists b, (<[j := x]> (r_pv st)) !! j' = Some (set_bitmap b p) /\ length b = length (rv_bitmap p) /\
    forall n v, vs !! n = Some v -> premapped v -> rv_pvma v = CowOf j' -> forall y, 0 <= y < nr_pages v ->
      b !! Z.to_nat y = if doneb (vaddr pe (k + nr)) (rv_start v + y * PAGE_SIZE) then Some false else rv_bitmap p !! Z.to_nat y.
Proof.
  intros Hc Hi Hp Hj Hp0 Hpb x. destruct (ri_pv _ _ Hi) as [Hlen Hall]. rewrite length_insert. split; [done|]. intros j' p Hj'.
  pose proof (ck_area _ _ _ _ _ _ Hc) as [Hn Hg]. destruct (Hall j' p Hj') as (b & Hb & Hbl & Hbits). destruct (decide (j' = j)) as [->|Hne].
  - rewrite Hp0 in Hj'. injection Hj' as <-. rewrite Hpb in Hb. injection Hb as <-. rewrite list_lookup_insert_eq by (by apply lookup_lt_Some in Hpb).
    eexists. split; [done|]. rewrite set_bits_length. split; [done|]. intros n' v' Hn' Hp' Hv' y Hy.
    assert (n' = n) as -> by (by apply (rb_cow_inj Hrb n' n v' v j)). rewrite Hn in Hn'. injection Hn' as <-.
    destruct (rb_cow Hrb n v j Hn Hp Hj) as (p1 & Hp1 & Hl1). rewrite Hp0 in Hp1. injection Hp1 as <-.
    apply (pbits_step i pe k nr n v pb (rv_bitmap p0) Hc); [lia| |done]. intros z Hz. by apply (Hbits n v).
  - rewrite list_lookup_insert_ne by done. exists b. split; [done|]. split; [done|]. intros n' v' Hn' Hp' Hv' y Hy. rewrite (Hbits n' v' Hn' Hp' Hv' y Hy).
    destruct (premapped_area n' v' Hn' Hp') as (Hg' & _). assert (n' <> n) by (intros ->; rewrite Hn in Hn'; injection Hn' as <-; congruence).
    destruct (chunk_elsewhere _ _ _ _ _ _ n' v' (rv_start v' + y * PAGE_SIZE) Hc Hn' Hg') as [-> _]; [by apply (area_page_in n')|done|done].
Qed.

(** The comparison leaves the same pages in place as a read there. *)
Lemma cow_view i pe k nr n v V m n' v' a : chunk i pe k nr n v -> premapped v -> nr <= COW_READ_BATCH_PAGES -> vs !! n' = Some v' -> premapped v' -> page_of_area v' a ->
  (forall x, m x = set_pages V (asked c (vaddr pe k) nr cow_buf) x) ->
  cow_compare (Z.to_nat nr) m cow_buf (place v (vaddr pe k)) (place v' a) = set_pages V (asked c (vaddr pe k) nr (place v (vaddr pe k))) (place v' a).
Proof.
  intros Hc Hp Hnr Hn' Hp' Ha Hm. pose proof (ck_area _ _ _ _ _ _ Hc) as [Hn Hg]. pose proof (ck_nr _ _ _ _ _ _ Hc) as [N1 N2].
  destruct (chunk_facts _ _ _ _ _ _ Hc) as (_ & _ & _ & _ & Hpg). destruct (rb_buf Hrb) as (B1 & B2 & B3 & B4).
  destruct (Hpg 0 ltac:(lia)) as [_ Hfirst]. rewrite Z.add_0_r in Hfirst. destruct (Hpg (nr - 1) ltac:(lia)) as [_ Hlast].
  destruct (place_ok n v _ Hn Hp Hfirst) as (P1 & _). destruct (place_ok n v _ Hn Hp Hlast) as (_ & P2 & _).
  destruct (place_ok n' v' a Hn' Hp' Ha) as (Q1 & Q2 & _).
  destruct (cow_compare_ok (Z.to_nat nr) m cow_buf (place v (vaddr pe k))) as [C1 C2]; [unfold place, PAGE_SIZE in *; lia|].
  assert (Hbuf : forall x, lo <= x -> x + PAGE_SIZE <= hi -> x ∉ (asked c (vaddr pe k) nr cow_buf).*1).
  { intros x H1 H2 Hx. rewrite asked_fst in Hx. apply list_elem_of_fmap in Hx as (j & -> & Hj). apply elem_of_seqZ in Hj. unfold COW_READ_BATCH_PAGES, PAGE_SIZE in *. lia. }
  destruct (decide (place v' a ∈ (asked c (vaddr pe k) nr (place v (vaddr pe k))).*1)) as [Hin|Hout].
  - pose proof Hin as Hin2. rewrite asked_fst in Hin2. apply list_elem_of_fmap in Hin2 as (j & Ej & Hj). apply elem_of_seqZ in Hj. rewrite Ej, C1 by lia. rewrite Hm.
    assert (Hnd : forall b, NoDup (asked c (vaddr pe k) nr b).*1) by (intros b; rewrite asked_fst; apply NoDup_fmap_2; [intros x y; unfold PAGE_SIZE; lia|apply NoDup_seqZ]).
    transitivity (c (vaddr pe k + j * PAGE_SIZE)); [|symmetry]; (apply set_pages_in; [apply Hnd|]); unfold asked; apply list_elem_of_fmap; exists j; (split; [done|apply elem_of_seqZ; lia]).
  - rewrite C2, Hm, !set_pages_out; [done|done|by apply Hbuf|]. intros j Hj E. apply Hout. rewrite asked_fst. apply list_elem_of_fmap. exists j. split; [done|]. apply elem_of_seqZ. lia.
Qed.

Lemma align_down_range pe nr : 0 < nr -> 0 < pagemap_align_down pe nr <= nr.
Proof.
  intros Hn. unfold pagemap_align_down. cbv zeta. rewrite Z.gtb_ltb. destruct (Z.ltb_spec 1 (pagemap_block_pages pe)); [|lia].
  pose proof (Z.mod_pos_bound nr (pagemap_block_pages pe) ltac:(lia)). pose proof (Z.mod_le nr (pagemap_block_pages pe) ltac:(lia) ltac:(lia)).
  destruct (Z.eqb_spec (nr - nr mod pagemap_block_pages pe) 0); lia.
Qed.

Lemma env_buf_ok e (buf : bool) : let '(ok, al) := if buf then (true, allocs e) else xalloc (allocs e) in
  ops_ok e -> ok = true /\ ops_ok (env_set_allocs al e).
Proof.
  pose proof (ops_ok_allocs e) as H0.
  destruct buf.
  - intros He. split; [done|]. destruct (H0 He) as [-> ?]. done.
  - destruct (xalloc (allocs e)) as [ok al] eqn:E. intros He. destruct (H0 He) as [Ha Hs]. rewrite Ha in E. by injection E as <- <-.
Qed.

(** Pages compared with those of the parent. *)
Lemma restore_cow_ok st i pe k n v pr parents b j : ready st i pe k n v pr parents -> r_vmas st !! n = Some (set_bitmap b v) -> premapped v ->
  rv_pvma v = CowOf j -> step_ok st i pe k n v b.
Proof.
  intros Hr Hb Hp Hj. destruct (ready_range _ _ _ _ _ _ _ _ Hr) as (Hl & Hk & Hsm & Hq & Eend & Eq & _ & Ecv & Hva & Hck).
  set (q := (rv_end v - vaddr pe k) / PAGE_SIZE) in *. pose proof Hr as [Hinv Ech El Hat Hcu Hs Hm [Hn Hg] Hin].
  unfold step_ok, restore_pages. rewrite Ech. cbn [rv_e set_bitmap premmaped_addr rv_pvma].
  assert (Epm : vma_entry_is (rv_e v) VMA_PREMMAPED = true) by exact Hp. rewrite Epm. cbn [negb]. cbv zeta. rewrite Eq, Hj.
  set (nr0 := Z.min (Z.min (pe_nr_pages pe - k) q) COW_READ_BATCH_PAGES). set (nr := if nr0 <? pe_nr_pages pe - k then pagemap_align_down pe nr0 else nr0).
  assert (H0 : 0 < nr0 /\ nr0 <= pe_nr_pages pe - k /\ nr0 <= q /\ nr0 <= COW_READ_BATCH_PAGES) by (unfold nr0, COW_READ_BATCH_PAGES; lia).
  assert (Hnr : 0 < nr <= nr0) by (unfold nr; destruct (_ <? _); [apply align_down_range|]; lia).
  assert (Hc : chunk i pe k nr n v) by (apply Hck; lia). clearbody nr. clearbody nr0.
  destruct (chunk_off _ _ _ _ _ _ Hc) as (O0 & O1 & O2 & O3). rewrite O0.
  destruct (chunk_facts _ _ _ _ _ _ Hc) as (_ & _ & _ & _ & Hpg). destruct (Hpg 0 ltac:(lia)) as [_ Hpa]. rewrite Z.add_0_r in Hpa.
  destruct (place_ok n v _ Hn Hp Hpa) as (P1 & P2 & P3 & P4 & P5). destruct (rb_range Hrb) as [R1 R2]. destruct (rb_buf Hrb) as (B1 & B2 & B3 & B4).
  assert (Ep : u64 ((vaddr pe k - rv_start v) / PAGE_SIZE * PAGE_SIZE + premmaped_addr v) = place v (vaddr pe k)).
  { unfold place. rewrite u64_small; [lia|]. unfold place, PAGE_SIZE in *. lia. }
  rewrite Ep. pose proof (env_buf_ok (r_env st) (r_buf st)) as Hbo. destruct (if r_buf st then _ else _) as [ok al]. destruct (ri_mem _ _ Hinv) as (owed & Ho & Hod & Hv).
  destruct ok; cbn [negb].
  2:{ eexists _, _, _. split; [done|]. cbn [set_reader r_chain]. split; [by rewrite <- Ech; apply (ops_inv_safe _ owed)|]. split; [intros He; by destruct (Hbo He)|].
      split; [intros x [= <-]; by right|done]. }
  rewrite Ech in Ho. destruct (ops_read pr parents owed (env_set_allocs al (r_env st)) i pe k nr cow_buf Ho Hat Hcu) as (r & chain' & e' & E & S1 & S2 & S3); try done; try lia.
  { unfold PAGE_SIZE in *. lia. }
  { intros y Hy. rewrite Ecv. replace (vaddr pe k + y * PAGE_SIZE) with (vaddr pe (k + y)) by lia. apply (rb_has Hrb). by apply Hpg. }
  { rewrite asked_fst. intros d Hd Hd'. apply list_elem_of_fmap in Hd as (y & -> & Hy). apply elem_of_seqZ in Hy. destruct (Hod _ Hd') as (n' & v' & a' & Hn' & Hp' & Hpg' & _ & Ed').
    destruct (place_ok n' v' a' Hn' Hp' Hpg') as (Q1 & Q2 & _). unfold PAGE_SIZE in *. lia. }
  rewrite Ecv in E. rewrite E. cbn [obind]. destruct r as [ws|].
  2:{ eexists _, _, _. split; [done|]. cbn [set_reader r_chain]. split; [done|]. split; [intros He; destruct (Hbo He) as [_ He2]; by destruct (S2 He2)|]. split; [intros x [= <-]; by right|done]. }
  destruct (S3 ws eq_refl) as (pr' & ps' & owed' & -> & I1 & I2 & I3 & I4 & I5 & I6). rewrite Ecv in I5, I6.
  destruct (ops_sync (pr' :: ps') e' S1) as (r & ws' & chain2 & e2 & -> & _ & T1 & T2 & T3). cbn [obind].
  assert (He : ops_ok (r_env st) -> r = 0 /\ ops_ok e2) by (intros He; destruct (Hbo He) as [_ He2]; apply T2, S2, He2).
  destruct (Z.eqb_spec r 0) as [->|Hne]; cbn [negb].
  2:{ eexists _, _, _. split; [done|]. cbn [set_reader r_chain]. split; [done|]. split; [intros He'; by destruct (He He')|]. split; [intros x [= <-]; by right|done]. }
  destruct (T3 owed' pr' ps' I1 eq_refl eq_refl) as (pr2 & ps2 & -> & U1 & U2 & U3 & U4 & U5).
  destruct (rb_cow Hrb n v j Hn Hp Hj) as (p0 & Hp0 & Hpl). destruct (ri_pv _ _ Hinv) as [_ Hpv]. destruct (Hpv j p0 Hp0) as (pb & Hpb & _). rewrite Hpb.
  eexists _, _, _. split; [done|]. cbn [r_chain r_env]. split; [done|]. split; [intros He'; split; [done|by apply He]|]. split; [done|]. intros _.
  rewrite !change_bits_eq. split; [done| |intros [Hx _]; unfold premapped in Hp; congruence|exists pr2, ps2; split; [done|]; split; [congruence|]; split; [by apply U4|congruence]].
  split; cbn [r_chain r_mem r_vmas r_pv r_io].
  - exists []. split; [done|]. split; [intros d Hd; by apply elem_of_nil in Hd|]. intros n' v' a Hn' Hp' Ha. cbn [set_pages fold_left].
    rewrite (cow_view i pe k nr n v (set_pages (r_mem st) owed) _ n' v' a); try done; [|lia|].
    + apply (chunk_view i pe k nr n v _ n'); try done. by apply (Hv n').
    + intros x. rewrite U5, I6. done.
  - by apply (vmas_step st i pe k nr n v b).
  - by apply (pv_cow_step st i pe k nr n v j p0 pb).
  - by apply (io_step st i pe k nr n v).
Qed.

(** ** Pages left to the last stage *)
Lemma page_at_unique i i' pe pe' k k' a : page_at i pe k a -> page_at i' pe' k' a -> i = i' /\ pe = pe' /\ k = k'.
Proof.
  intros (Hi & _ & Hk & Ea) (Hi' & _ & Hk' & Ea'). assert (i = i') as <-.
  { destruct (Nat.lt_trichotomy i i') as [L|[?|L]]; [|done|].
    - pose proof (ok_from_order l 0 0 i i' pe pe' ltac:(lia) (rb_pmes Hrb) Hi Hi' L). unfold entry_end, PAGE_SIZE in *. lia.
    - pose proof (ok_from_order l 0 0 i' i pe' pe ltac:(lia) (rb_pmes Hrb) Hi' Hi L). unfold entry_end, PAGE_SIZE in *. lia. }
  rewrite Hi in Hi'. injection Hi' as <-. split; [done|]. split; [done|]. unfold PAGE_SIZE in *. lia.
Qed.

Lemma elem_page_tasks i pe k nr va a s : 0 <= nr -> (a, s) ∈ page_tasks l i pe k nr va <-> exists j, 0 <= j < nr /\ a = va + j * PAGE_SIZE /\ s = entry_src l i pe (k + j).
Proof.
  intros Hn. unfold page_tasks, iov_pages. cbn [iov_base iov_len]. rewrite Z.div_mul by done.
  replace (seqZ k nr) with (Z.add k <$> seqZ 0 nr) by (rewrite fmap_add_seqZ; f_equal; lia). rewrite <- list_fmap_compose, zip_with_fmap_l, zip_with_fmap_r, zip_with_diag.
  rewrite list_elem_of_fmap. split.
  - intros (j & [= -> ->] & Hj). apply elem_of_seqZ in Hj. exists j. split; [lia|done].
  - intros (j & Hj & -> & ->). exists j. split; [done|]. apply elem_of_seqZ. lia.
Qed.

Lemma page_tasks_fst i pe k nr va : 0 <= nr -> (page_tasks l i pe k nr va).*1 = (fun j => va + j * PAGE_SIZE) <$> seqZ 0 nr.
Proof.
  intros Hn. unfold page_tasks. rewrite fst_zip; [unfold iov_pages; cbn [iov_base iov_len]; by rewrite Z.div_mul|].
  unfold iov_pages. rewrite !length_fmap, !length_seqZ. cbn [iov_len]. rewrite Z.div_mul by done. lia.
Qed.

Lemma io_left_step st i pe k nr n v io : chunk i pe k nr n v -> rinv st (vaddr pe k) -> left_area v -> enqueued (r_io st) (page_tasks l i pe k nr (vaddr pe k)) io ->
  Forall piov_ok io /\ NoDup (queue_tasks io).*1 /\ forall a s, (a, s) ∈ queue_tasks io <->
      (exists i pe k, page_at i pe k a /\ s = entry_src l i pe k) /\ a < vaddr pe (k + nr) /\ exists n v, vs !! n = Some v /\ left_area v /\ page_of_area v a.
Proof.
  intros Hc Hi Hl [E1 E2]. destruct (ri_io _ _ Hi) as (I1 & I2 & I3). split; [done|]. rewrite E2. pose proof (ck_nr _ _ _ _ _ _ Hc) as [N1 N2].
  pose proof (ck_area _ _ _ _ _ _ Hc) as [Hn Hg]. destruct (chunk_facts _ _ _ _ _ _ Hc) as (_ & _ & _ & _ & Hpg).
  assert (Hat : forall j, 0 <= j < nr -> page_at i pe (k + j) (vaddr pe (k + j))).
  { intros j Hj. destruct Hc as [C1 C2 C3 _ _ _]. split_and!; (done || lia). }
  split.
  - rewrite fmap_app, page_tasks_fst by lia. apply NoDup_app. split; [done|]. split; [|apply NoDup_fmap_2; [intros x y; unfold PAGE_SIZE; lia|apply NoDup_seqZ]].
    intros d Hd Hd'. apply list_elem_of_fmap in Hd as ([a s0] & -> & Hd). apply I3 in Hd as (_ & Hlt & _). cbn [fst] in *.
    apply list_elem_of_fmap in Hd' as (j & -> & Hj). apply elem_of_seqZ in Hj. unfold PAGE_SIZE in *. lia.
  - intros a s0. rewrite elem_of_app, I3, elem_page_tasks by lia. split.
    + intros [(H1 & H2 & H3)|(j & Hj & -> & ->)]; [split; [done|]; split; [unfold PAGE_SIZE in *; lia|done]|].
      replace (vaddr pe k + j * PAGE_SIZE) with (vaddr pe (k + j)) by lia. split; [exists i, pe, (k + j); split; [by apply Hat|done]|].
      split; [unfold PAGE_SIZE; lia|]. exists n, v. split; [done|]. split; [done|]. by apply Hpg.
    + intros ((i' & pe' & k' & Hp' & ->) & Hlt & Hleft). destruct (Z.lt_ge_cases a (vaddr pe k)) as [|Hge]; [left; split; [by exists i', pe', k'|done]|right].
      destruct (pagemaps_ok_lookup _ _ _ (rb_pmes Hrb) (ck_entry _ _ _ _ _ _ Hc)) as ((_ & _ & Hal & _) & _).
      destruct Hleft as (n' & v' & _ & _ & [_ Ham]). assert (M : (a - vaddr pe k) mod PAGE_SIZE = 0) by (by rewrite Zminus_mod, Z.mod_add, Hal, Ham).
      pose proof (Z.div_mod (a - vaddr pe k) PAGE_SIZE ltac:(done)) as D. rewrite M in D. set (j := (a - vaddr pe k) / PAGE_SIZE) in *.
      assert (Hj : 0 <= j < nr /\ a = vaddr pe (k + j)) by (unfold PAGE_SIZE in *; lia). destruct Hj as [Hj Ea]. rewrite Ea in Hp'.
      destruct (page_at_unique _ _ _ _ _ _ _ Hp' (Hat j Hj)) as (-> & -> & ->). exists j. split; [done|]. split; [lia|done].
Qed.

Lemma restore_left_ok st i pe k n v pr parents b : ready st i pe k n v pr parents -> left_area v ->
  (forall bl, pe_blocks pe = Some bl -> k = 0) -> step_ok st i pe k n v b.
Proof.
  intros Hr Hlf Hbl. destruct (ready_range _ _ _ _ _ _ _ _ Hr) as (Hl & Hk & Hsm & Hq & Eend & _ & Eu & Ecv & Hva & Hck).
  set (q := (rv_end v - vaddr pe k) / PAGE_SIZE) in *. pose proof Hr as [Hinv Ech El Hat Hcu Hs Hm [Hn Hg] Hin].
  pose proof (list_elem_of_lookup_2 _ _ _ Hl) as Hpe. destruct (rb_left Hrb n v Hn Hlf) as [Hloc Hro].
  destruct (pagemaps_ok_lookup _ _ _ (rb_pmes Hrb) Hl) as (He & _). pose proof He as (_ & _ & _ & _ & _ & Hend & _).
  unfold step_ok, restore_pages. rewrite Ech. cbn [rv_e set_bitmap]. destruct Hlf as [Hnp Hpriv]. unfold rv_is in Hnp. rewrite Hnp. cbn [negb].
  destruct (has (va_status (rv_e v)) VMA_NO_PROT_WRITE) eqn:Ero.
  { exfalso. destruct (Hro eq_refl pe Hpe); unfold entry_end, PAGE_SIZE in *; lia. }
  rewrite Eu, (u64_small (_ * PAGE_SIZE)) by (unfold PAGE_SIZE in *; lia).
  set (nr := Z.min (pe_nr_pages pe - k) q). replace (Z.min ((pe_nr_pages pe - k) * PAGE_SIZE) (q * PAGE_SIZE)) with (nr * PAGE_SIZE) by (unfold nr, PAGE_SIZE; lia).
  assert (Hc : chunk i pe k nr n v) by (apply Hck; unfold nr; lia). assert (Hnr : 0 < nr /\ k + nr <= pe_nr_pages pe) by (unfold nr; lia).
  assert (Hpres : pagemap_present pe = true).
  { destruct (rb_stored Hrb pe Hpe Hs) as [|Hp]; [done|]. rewrite (Hloc pe Hpe) in Hp; [done| |]; unfold rv_start, rv_end, entry_end, PAGE_SIZE in *; lia. }
  assert (Hwb : whole_blocks pe k nr).
  { intros bl Eb. pose proof (Hbl bl Eb) as ->. split; [apply Z.mod_0_l; pose proof (ppb_range pe bl He Eb); lia|right].
    destruct (rb_whole Hrb n v pe bl Hn (conj Hnp Hpriv) Hpe Eb) as [W1 W2]; [unfold PAGE_SIZE in *; lia|unfold entry_end, PAGE_SIZE in *; lia|].
    unfold entry_end, nr, PAGE_SIZE in *. lia. }
  destruct (ri_mem _ _ Hinv) as (owed & Ho & Hod & Hv). destruct (ri_io _ _ Hinv) as (Hio & _). pose proof (rb_pmes Hrb) as Hok. rewrite <- El in Hok.
  destruct (enqueue_entry parallel false (allocs (r_env st)) pr i pe k nr (vaddr pe k) (r_io st)) as (ret & io & al & E & A1 & A2); try done; try lia.
  { pose proof (rb_typed Hrb) as Hty. rewrite Forall_forall in Hty. by apply Hty. }
  { unfold entry_end, PAGE_SIZE in *. lia. }
  rewrite E. cbn [obind]. assert (Hen : ops_ok (r_env st) -> ret = 0 /\ ops_ok (env_set_allocs al (r_env st))).
  { intros Hoe. destruct (ops_ok_allocs _ Hoe) as [Ha Hs']. by destruct (A1 Ha) as [-> ->]. }
  destruct (Z.eqb_spec ret 0) as [->|Hne]; cbn [negb].
  2:{ eexists _, _, _. split; [done|]. cbn [set_reader r_chain]. split; [by rewrite <- Ech; apply (ops_inv_safe _ owed)|]. split; [intros He'; by destruct (Hen He')|].
      split; [intros x [= <-]; by left|done]. }
  rewrite (skip_pagemap_pages_spec pr i pe k nr Hok Hat ltac:(lia) ltac:(lia)). cbn [obind]. fold (moved pr i pe (k + nr)). rewrite Z.div_mul by done.
  pose proof (moved_at_entry pr i pe k (k + nr) Hat ltac:(lia)) as Hat'. destruct (moved_fields pr i pe (k + nr)) as (F1 & F2 & F3 & F4 & F5 & F6 & F7).
  assert (Ho' : ops_inv (moved pr i pe (k + nr) :: parents) owed).
  { rewrite Ech in Ho. apply (ops_move pr); [done|done|apply (cursor_at _ i pe (k + nr)); [done|by rewrite F2]|]. destruct Hat' as [_ _ _ -> _]. rewrite Ecv. unfold PAGE_SIZE. lia. }
  eexists _, _, _. split; [done|]. cbn [r_chain r_env]. split; [by apply (ops_inv_safe _ owed)|]. split; [intros He'; split; [done|by apply Hen]|]. split; [done|]. intros _.
  assert (Hnpm : ~ premapped v) by (unfold premapped, rv_is; congruence).
  split; [done| |intros _; unfold nr, PAGE_SIZE in *; lia|exists (moved pr i pe (k + nr)), parents; rewrite F1, F2; done]. split; cbn [r_chain r_mem r_vmas r_pv r_io].
  - exists owed. split; [done|]. split; [intros d Hd; by apply (owed_step i pe k nr n v d Hc), Hod|]. intros n' v' a Hn' Hp' Ha. rewrite (Hv n' v' a Hn' Hp' Ha).
    destruct (premapped_area n' v' Hn' Hp') as (Hg' & _). assert (n' <> n) by (intros ->; rewrite Hn in Hn'; by injection Hn' as <-).
    by destruct (chunk_elsewhere _ _ _ _ _ _ _ _ _ Hc Hn' Hg' Ha) as [-> _].
  - destruct (ri_vmas _ _ Hinv) as [Hlen Hall]. split; [done|]. intros n' v' Hn'. destruct (Hall n' v' Hn') as (b' & Hb' & Hbits). exists b'. split; [done|].
    intros Hp'. destruct (Hbits Hp') as [B1 B2]. split; [done|]. intros y Hy. rewrite B2 by done. f_equal. destruct (premapped_area n' v' Hn' Hp') as (Hg' & _).
    assert (n' <> n) by (intros ->; rewrite Hn in Hn'; by injection Hn' as <-). symmetry. eapply (chunk_elsewhere _ _ _ _ _ _ n' v'); try done. by apply (area_page_in n').
  - exact (pv_step st i pe k nr n v Hc Hinv (or_intror Hnpm)).
  - apply (io_left_step st i pe k nr n v io Hc Hinv (conj Hnp Hpriv)). rewrite El in A2. by apply A2.
Qed.

(** ** The pages of an entry *)
Lemma seek_vma_ok va vmas : forall i,
  match seek_vma vmas i va with
  | Some m => exists w, (i <= m)%nat /\ vmas !! (m - i)%nat = Some w /\ va < rv_end w /\ forall x w', (x < m - i)%nat -> vmas !! x = Some w' -> rv_end w' <= va
  | None => forall x w, vmas !! x = Some w -> rv_end w <= va
  end.
Proof.
  induction vmas as [|w vmas IH]; intros i; [done|]. cbn [seek_vma]. rewrite Z.geb_leb. destruct (Z.leb_spec (rv_end w) va) as [Hle|Hlt].
  - destruct vmas as [|w2 vmas]; [intros [|x] w' Hx; [by injection Hx as <-|done]|]. specialize (IH (S i)). destruct (seek_vma (w2 :: vmas) (S i) va) as [m|].
    + destruct IH as (w' & H1 & H2 & H3 & H4). exists w'. split; [lia|]. replace (m - i)%nat with (S (m - S i)) by lia. split; [done|]. split; [done|].
      intros [|x] w'' Hx Hw; [by injection Hw as <-|]. apply (H4 x); [lia|done].
    + intros [|x] w' Hx; [by injection Hx as <-|]. by apply (IH x).
  - exists w. rewrite Nat.sub_diag. split; [lia|]. split; [done|]. split; [done|]. intros; lia.
Qed.

(** Every page lies in a private area. *)
Definition covered : Prop := forall a, a ∈ wanted -> exists n v, vs !! n = Some v /\ vma_entry_is_private task_size (rv_e v) = true /\ page_of_area v a.

Definition behind (n : nat) (va : Z) : Prop := forall m w, (m < n)%nat -> vs !! m = Some w -> rv_end w <= va.

(** Where the walk stands. *)
Record at_page (st : rstate) (i : nat) (pe : pagemap_entry) (k : Z) (n : nat) : Prop := AtPage {
  ap_inv : rinv st (vaddr pe k);
  ap_chain : exists pr parents, r_chain st = pr :: parents /\ pmes pr = l /\ at_entry pr i pe k /\ curr_pme pr = Z.of_nat i;
  ap_behind : behind n (vaddr pe k);
  ap_blocks : forall b m v, pe_blocks pe = Some b -> vs !! m = Some v -> left_area v -> page_of_area v (vaddr pe k) -> k < pe_nr_pages pe -> k = 0
}.

Lemma find_area st va n : rinv st va -> behind n va ->
  match seek_vma (drop n (r_vmas st)) n va with
  | Some m => exists b v, vs !! m = Some v /\ r_vmas st !! m = Some (set_bitmap b v) /\ va < rv_end v /\ behind m va
  | None => forall m v, vs !! m = Some v -> rv_end v <= va
  end.
Proof.
  intros Hi Hb. destruct (ri_vmas _ _ Hi) as [Hlen Hall]. pose proof (seek_vma_ok va (drop n (r_vmas st)) n) as H.
  assert (Hlk : forall x w, (x < length vs)%nat -> r_vmas st !! x = Some w -> exists b v, vs !! x = Some v /\ w = set_bitmap b v).
  { intros x w Hx Hw. destruct (lookup_lt_is_Some_2 vs x Hx) as [v Hv]. destruct (Hall x v Hv) as (b & E & _). rewrite Hw in E. injection E as ->. by exists b, v. }
  destruct (seek_vma _ _ _) as [m|].
  - destruct H as (w & H1 & H2 & H3 & H4). rewrite lookup_drop in H2. replace (n + (m - n))%nat with m in H2 by lia. pose proof (lookup_lt_Some _ _ _ H2).
    destruct (Hlk m w ltac:(lia) H2) as (b & v & Hv & ->). exists b, v. split; [done|]. split; [done|]. split; [done|]. intros x w' Hx Hw'.
    destruct (decide (x < n)%nat) as [|Hge]; [by apply (Hb x)|]. destruct (Hall x w' Hw') as (b' & E & _).
    change (rv_end w') with (rv_end (set_bitmap b' w')). apply (H4 (x - n)%nat); [lia|]. rewrite lookup_drop. by replace (n + (x - n))%nat with x by lia.
  - intros m v Hv. destruct (decide (m < n)%nat) as [|Hge]; [by apply (Hb m)|]. destruct (Hall m v Hv) as (b' & E & _).
    change (rv_end v) with (rv_end (set_bitmap b' v)). apply (H (m - n)%nat). rewrite lookup_drop. by replace (n + (m - n))%nat with m by lia.
Qed.

Lemma restore_pages_ok st i pe k n v b : at_page st i pe k n -> skipped pe = false -> k < pe_nr_pages pe -> vs !! n = Some v -> r_vmas st !! n = Some (set_bitmap b v) ->
  vma_entry_is_private task_size (rv_e v) = true -> rv_start v <= vaddr pe k < rv_end v -> step_ok st i pe k n v b.
Proof.
  intros [Hinv (pr & parents & Ech & El & Hat & Hcu) Hbe Hbl] Hs Hk Hn Hb Hpr Hin.
  assert (Hg : rv_is v VMA_AREA_GUARD = false) by (destruct (rv_is v VMA_AREA_GUARD) eqn:E; [|done]; rewrite (rb_guard Hrb n v Hn E) in Hpr; done).
  assert (Hr : ready st i pe k n v pr parents) by (by split).
  destruct (rv_is v VMA_PREMMAPED) eqn:Ep.
  - destruct (vma_inherited v) eqn:Ei; [|by eapply restore_read_ok]. unfold vma_inherited in Ei. destruct (rv_pvma v) as [| |j] eqn:Ej; try done. by eapply restore_cow_ok.
  - eapply restore_left_ok; [done|done|]. intros bl Ebl. apply (Hbl bl n v); try done. split; [done|].
    destruct Hat as [Hl _ _ _ _]. rewrite El in Hl. destruct (pagemaps_ok_lookup _ _ _ (rb_pmes Hrb) Hl) as ((_ & _ & Hal & _) & _). by rewrite Z.mod_add.
Qed.

(** After a step the walk stands at the next page. *)
Lemma step_at_page st st' i pe k nr n v : at_page st i pe k n -> step_post st' i pe k nr n v -> behind n (vaddr pe k) -> at_page st' i pe (k + nr) n.
Proof.
  intros [_ _ _ Hbl] [Hc Hi Hlf Hch] Hbe. pose proof (ck_nr _ _ _ _ _ _ Hc) as [N1 N2]. split; [done|done| |].
  - intros m w Hm Hw. pose proof (Hbe m w Hm Hw). unfold PAGE_SIZE in *. lia.
  - intros b m w Eb Hm Hw Ha Hlt. exfalso. destruct Hc as [C1 C2 C3 C4 [Cn Cg] [C5 C6]]. pose proof (left_nonguard m w Hm Hw) as Hgw.
    pose proof (list_elem_of_lookup_2 _ _ _ C1) as Hpe. destruct (pagemaps_ok_lookup _ _ _ (rb_pmes Hrb) C1) as ((_ & _ & Hal & _) & _).
    destruct Ha as [Ha Ham]. destruct (rb_whole Hrb m w pe b Hm Hw Hpe Eb) as [W1 W2]; [unfold PAGE_SIZE in *; lia|unfold entry_end, PAGE_SIZE in *; lia|].
    assert (m = n) as ->. { apply (area_unique m n w v (vaddr pe k)); try done; (split; [unfold entry_end, PAGE_SIZE in *; lia|by rewrite Z.mod_add]). }
    rewrite Cn in Hm. injection Hm as <-. destruct (Hlf Hw); lia.
Qed.

Lemma restore_entry_pages_ok i pe : skipped pe = false -> l !! i = Some pe -> forall fuel st k n, at_page st i pe k n -> 0 <= k <= pe_nr_pages pe -> (Z.to_nat (pe_nr_pages pe - k) <= fuel)%nat ->
  exists x st', restore_entry_pages task_size parallel cow_buf fuel st pe n (vaddr pe k) k (pe_nr_pages pe) = Ret (x, st') /\ ops_safe (r_chain st') /\
    (ops_ok (r_env st) -> covered -> ops_ok (r_env st') /\ exists n', x = EntryDone n') /\
    match x with EntryDone n' => at_page st' i pe (pe_nr_pages pe) n' | Finished => False | _ => True end.
Proof.
  intros Hs Hl. induction fuel as [|fuel IH]; intros st k n Hap Hk Hf; cbn [restore_entry_pages]; (destruct (Z.ltb_spec k (pe_nr_pages pe)) as [Hlt|Hge];
    [|assert (k = pe_nr_pages pe) as -> by lia; destruct (ri_mem _ _ (ap_inv _ _ _ _ _ Hap)) as (owed & Ho & _); eexists _, _; split; [done|];
      split; [by apply (ops_inv_safe _ owed)|]; split; [intros He _; split; [done|by eexists]|done]]); [lia|].
  pose proof (find_area st (vaddr pe k) n (ap_inv _ _ _ _ _ Hap) (ap_behind _ _ _ _ _ Hap)) as Hfa.
  assert (Hsafe : ops_safe (r_chain st)) by (destruct (ri_mem _ _ (ap_inv _ _ _ _ _ Hap)) as (owed & Ho & _); by apply (ops_inv_safe _ owed)).
  assert (Hw : vaddr pe k ∈ wanted) by (apply wanted_page; exists i, pe, k; split_and!; (done || lia)).
  destruct (seek_vma _ _ _) as [m|].
  2:{ eexists _, _. split; [done|]. split; [done|]. split; [|done]. intros _ Hcov. exfalso. destruct (Hcov _ Hw) as (m & v & Hm & _ & [Ha _]). pose proof (Hfa m v Hm). lia. }
  destruct Hfa as (b & v & Hm & Hb & Hend & Hbe). rewrite Hb. change (rv_start (set_bitmap b v)) with (rv_start v). change (rv_e (set_bitmap b v)) with (rv_e v).
  assert (Hcov : covered -> rv_start v <= vaddr pe k /\ vma_entry_is_private task_size (rv_e v) = true).
  { intros Hcov. destruct (Hcov _ Hw) as (m' & v' & Hm' & Hpr' & [Ha _]). destruct (Nat.lt_trichotomy m m') as [L|[->|L]].
    - exfalso. assert (Hg' : rv_is v' VMA_AREA_GUARD = false) by (destruct (rv_is v' VMA_AREA_GUARD) eqn:E; [|done]; rewrite (rb_guard Hrb m' v' Hm' E) in Hpr'; done).
      destruct (rb_order Hrb m m' v v' L Hm Hm' Hg') as [_ ?]. lia.
    - rewrite Hm in Hm'. injection Hm' as <-. split; [lia|done].
    - exfalso. pose proof (Hbe m' v' L Hm'). lia. }
  destruct (Z.ltb_spec (vaddr pe k) (rv_start v)) as [Hst|Hst].
  { eexists _, _. split; [done|]. split; [done|]. split; [|done]. intros _ Hc. destruct (Hcov Hc). lia. }
  destruct (vma_entry_is_private task_size (rv_e v)) eqn:Epr; cbn [negb].
  2:{ eexists _, _. split; [done|]. split; [done|]. split; [|done]. intros _ Hc. by destruct (Hcov Hc). }
  assert (Hap2 : at_page st i pe k m) by (destruct Hap as [A1 A2 A3 A4]; by split).
  destruct (restore_pages_ok st i pe k m v b Hap2 Hs Hlt Hm Hb Epr ltac:(lia)) as (err & nr & st' & -> & S1 & S2 & S3 & S4). cbn [obind].
  destruct err as [x|].
  { eexists _, _. split; [done|]. split; [done|]. destruct (S3 x eq_refl) as [-> | ->]; (split; [|done]; intros He _; by destruct (S2 He)). }
  pose proof (S4 eq_refl) as Hpost. pose proof (step_at_page st st' i pe k nr m v Hap2 Hpost Hbe) as Hap3. pose proof (sp_chunk _ _ _ _ _ _ _ Hpost) as Hc.
  pose proof (ck_nr _ _ _ _ _ _ Hc) as [N1 N2]. destruct (chunk_facts _ _ _ _ _ _ Hc) as ((_ & _ & _ & Hv0 & _) & _ & _ & He64 & _).
  replace (u64 (vaddr pe k + nr * PAGE_SIZE)) with (vaddr pe (k + nr)) by (rewrite u64_small; unfold entry_end, PAGE_SIZE in *; lia).
  destruct (IH st' (k + nr) m Hap3 ltac:(lia) ltac:(lia)) as (x & st2 & -> & T1 & T2 & T3). exists x, st2. split; [done|]. split; [done|]. split; [|done].
  intros He Hc2. apply T2; [by apply S2|done].
Qed.

(** ** The walk over the pagemap *)

(** Entries before [j] are done. *)
Record at_entries (st : rstate) (j n : nat) : Prop := AtEntries {
  ae_inv : exists pos, rinv st pos /\ behind n pos /\ (forall i pe, (i < j)%nat -> l !! i = Some pe -> entry_end pe <= pos) /\
    (forall i pe, (j <= i)%nat -> l !! i = Some pe -> pos <= pe_vaddr pe);
  ae_chain : exists pr parents, r_chain st = pr :: parents /\ pmes pr = l /\ visiting pr j
}.

(** The position may move over addresses without wanted pages. *)
Lemma rinv_move st st' pos pos' : rinv st pos -> pos <= pos' -> (forall a, a ∈ wanted -> pos <= a -> pos' <= a) ->
  (forall owed, ops_inv (r_chain st) owed -> ops_inv (r_chain st') owed) -> r_mem st' = r_mem st -> r_vmas st' = r_vmas st -> r_pv st' = r_pv st -> r_io st' = r_io st -> rinv st' pos'.
Proof.
  intros [(owed & Ho & Hod & Hv) H2 H3 (I1 & I2 & I3)] Hle Hno Hch Em Ev Ep Ei.
  assert (Hd : forall a, doneb pos' a = doneb pos a).
  { intros a. unfold doneb. destruct (bool_decide_reflect (a ∈ wanted)) as [Hw|]; [|done]. cbn [andb].
    destruct (Z.ltb_spec a pos), (Z.ltb_spec a pos'); try done; [lia|]. pose proof (Hno a Hw). lia. }
  split; rewrite ?Em, ?Ev, ?Ep, ?Ei.
  - exists owed. split; [by apply Hch|]. setoid_rewrite Hd. done.
  - setoid_rewrite Hd. done.
  - setoid_rewrite Hd. done.
  - split; [done|]. split; [done|]. intros a s. rewrite I3. split; intros (A & B & C); (split; [done|]; split; [|done]); [lia|].
    destruct A as (i & pe & k & Hp & _). assert (Hw : a ∈ wanted) by (apply wanted_page; by exists i, pe, k). destruct (Z.lt_ge_cases a pos); [done|]. pose proof (Hno a Hw). lia.
Qed.

Lemma gap_no_pages pos pos' j : (forall i pe, (i < j)%nat -> l !! i = Some pe -> entry_end pe <= pos) -> (forall i pe, (j <= i)%nat -> l !! i = Some pe -> skipped pe = false -> pos' <= pe_vaddr pe) ->
  forall a, a ∈ wanted -> pos <= a -> pos' <= a.
Proof.
  intros H1 H2 a Hw Ha. apply wanted_page in Hw as (i & pe & k & Hi & Hs & Hk & ->). destruct (decide (i < j)%nat) as [Hlt|Hge].
  - pose proof (H1 i pe Hlt Hi). unfold entry_end, PAGE_SIZE in *. lia.
  - pose proof (H2 i pe ltac:(lia) Hi Hs). unfold PAGE_SIZE in *. lia.
Qed.

(** The next entry of the walk. *)
Lemma next_entry st j n pe : at_entries st j n -> l !! j = Some pe ->
  exists pr parents pr', r_chain st = pr :: parents /\ advance pr = (1, pr') /\ pr_pe pr' = Some pe /\
    let st' := set_reader (pr' :: parents) (r_env st) st in
    (skipped pe = false -> at_page st' j pe 0 n) /\
    (skipped pe = true -> exists pr2, skip_pagemap_pages pr' (u64 (pe_nr_pages pe * PAGE_SIZE)) = Ret pr2 /\ at_entries (set_reader (pr2 :: parents) (r_env st') st') (S j) n).
Proof.
  intros [(pos & Hi & Hb & H1 & H2) (pr & parents & Ech & El & Hv)] Hj. pose proof (rb_pmes Hrb) as Hok. rewrite <- El in Hok, Hj.
  destruct (visiting_advance pr j pe Hok Hv Hj) as (pr' & Ea & Hat & Hcu & Hst & Hco & Hcv). rewrite El in Hj. exists pr, parents, pr'. split; [done|]. split; [done|].
  pose proof (ae_pe _ _ _ _ Hat) as Hpe. split; [done|]. pose proof Hst as (Epm & _). destruct (pagemaps_ok_lookup _ _ _ (rb_pmes Hrb) Hj) as (He & _).
  pose proof He as (_ & _ & _ & Hv0 & Hn0 & He64 & _). cbv zeta. pose proof (H2 j pe ltac:(lia) Hj) as Hpos.
  assert (Hmove : forall pos', pos <= pos' -> (forall a, a ∈ wanted -> pos <= a -> pos' <= a) -> rinv (set_reader (pr' :: parents) (r_env st) st) pos').
  { intros pos' Hle Hno. apply (rinv_move st _ pos); try done. cbn [set_reader r_chain]. intros owed Ho. rewrite Ech in Ho. by apply (ops_move pr). }
  assert (Hafter : forall i q, (S j <= i)%nat -> l !! i = Some q -> entry_end pe <= pe_vaddr q).
  { intros i q Hle Hq. by apply (ok_from_order l 0 0 j i pe q ltac:(lia) (rb_pmes Hrb) Hj Hq). }
  assert (Hends : forall i q, (i < S j)%nat -> l !! i = Some q -> entry_end q <= entry_end pe).
  { intros i q Hle Hq. destruct (decide (i = j)) as [->|]; [rewrite Hj in Hq; by injection Hq as <-|]. pose proof (H1 i q ltac:(lia) Hq). unfold entry_end, PAGE_SIZE in *. lia. }
  split; intros Hs.
  - split.
    + rewrite Z.mul_0_l, Z.add_0_r. apply Hmove; [done|]. apply (gap_no_pages pos (pe_vaddr pe) j); [done|]. intros i q Hle Hq _.
      destruct (decide (i = j)) as [->|]; [rewrite Hj in Hq; by injection Hq as <-|]. pose proof (Hafter i q ltac:(lia) Hq). unfold entry_end, PAGE_SIZE in *. lia.
    + exists pr', parents. split; [done|]. split; [congruence|]. done.
    + intros m w Hm Hw. pose proof (Hb m w Hm Hw). lia.
    + done.
  - exists (moved pr' j pe (pe_nr_pages pe)). rewrite u64_small by (unfold entry_end, PAGE_SIZE in *; lia).
    assert (Hok' : pagemaps_ok (pmes pr')) by (rewrite Epm, El; apply (rb_pmes Hrb)).
    rewrite (skip_pagemap_pages_spec pr' j pe 0 (pe_nr_pages pe) Hok' Hat ltac:(lia) ltac:(lia)). rewrite Z.add_0_l. split; [done|].
    pose proof (moved_at_entry pr' j pe 0 (pe_nr_pages pe) Hat ltac:(lia)) as Hat'. destruct (moved_fields pr' j pe (pe_nr_pages pe)) as (F1 & F2 & F3 & F4 & F5 & F6 & F7). split.
    + exists (entry_end pe). assert (Hpe2 : pos <= entry_end pe) by (unfold entry_end, PAGE_SIZE in *; lia). split; [|split; [intros m w Hm Hw; pose proof (Hb m w Hm Hw); lia|by split]].
      apply (rinv_move (set_reader (pr' :: parents) (r_env st) st) _ (entry_end pe)); try done.
      * apply Hmove; [done|]. apply (gap_no_pages pos (entry_end pe) j); [done|]. intros i q Hle Hq Hsq. destruct (decide (i = j)) as [->|]; [rewrite Hj in Hq; injection Hq as <-; congruence|].
        apply (Hafter i q); [lia|done].
      * cbn [set_reader r_chain]. intros owed Ho. apply (ops_move pr'); [done|done|apply (cursor_at _ j pe (pe_nr_pages pe)); [done|by rewrite F2]|].
        destruct Hat' as [_ _ _ -> _]. destruct Hat as [_ _ _ -> _]. unfold PAGE_SIZE. lia.
    + eexists _, _. split; [done|]. rewrite F1. split; [congruence|]. eapply visit_after; [exact Hat'|]. by rewrite F2.
Qed.

Lemma entry_finished st j pe n : l !! j = Some pe -> at_page st j pe (pe_nr_pages pe) n -> at_entries st (S j) n.
Proof.
  intros Hj [Hi (pr & parents & Ech & El & Hat & Hcu) Hb _]. split.
  - exists (entry_end pe). split; [done|]. split; [done|]. split.
    + intros i q Hle Hq. destruct (decide (i = j)) as [->|]; [rewrite Hj in Hq; by injection Hq as <-|].
      pose proof (ok_from_order l 0 0 i j q pe ltac:(lia) (rb_pmes Hrb) Hq Hj ltac:(lia)).
      destruct (pagemaps_ok_lookup _ _ _ (rb_pmes Hrb) Hj) as ((_ & _ & _ & _ & Hn0 & _) & _). unfold entry_end, PAGE_SIZE in *. lia.
    + intros i q Hle Hq. by apply (ok_from_order l 0 0 j i pe q ltac:(lia) (rb_pmes Hrb) Hj Hq).
  - exists pr, parents. split; [done|]. split; [done|]. by eapply visit_after.
Qed.

Lemma restore_entries_ok fuel : forall st j n, at_entries st j n -> (length l - j < fuel)%nat ->
  exists x st', restore_entries task_size parallel lazy_pages cow_buf fuel st n = Ret (x, st') /\ ops_safe (r_chain st') /\
    (ops_ok (r_env st) -> covered -> x = Finished /\ ops_ok (r_env st')) /\ (x = Finished -> rinv st' (2 ^ 64)).
Proof.
  induction fuel as [|fuel IH]; intros st j n Hae Hf; [lia|]. cbn [restore_entries]. destruct (l !! j) as [pe|] eqn:Hj.
  - destruct (next_entry st j n pe Hae Hj) as (pr & parents & pr' & -> & -> & Hpe & H1 & H2). cbn [Z.leb Z.compare]. rewrite Hpe. fold (skipped pe).
    pose proof (lookup_lt_Some _ _ _ Hj) as Hlt. destruct (skipped pe) eqn:Es.
    + destruct (H2 eq_refl) as (pr2 & -> & Hae2). cbn [obind]. destruct (IH _ (S j) n Hae2 ltac:(lia)) as (x & st' & -> & A & B & C). by exists x, st'.
    + specialize (H1 eq_refl). destruct (pagemaps_ok_lookup _ _ _ (rb_pmes Hrb) Hj) as ((_ & _ & _ & _ & Hn0 & _) & _).
      destruct (restore_entry_pages_ok j pe Es Hj (Z.to_nat (pe_nr_pages pe)) _ 0 n H1 ltac:(lia) ltac:(lia)) as (x & st' & E & S1 & S2 & S3).
      rewrite Z.mul_0_l, Z.add_0_r in E. rewrite E. cbn [obind].
      destruct x as [n'| | |]; [|done| |]; [|eexists _, _; (split; [done|]); (split; [done|]); (split; [intros He Hc; by destruct (S2 He Hc) as [_ [? ?]]|done])..].
      destruct (IH st' (S j) n' (entry_finished st' j pe n' Hj S3) ltac:(lia)) as (x & st2 & -> & A & B & C). exists x, st2. split; [done|]. split; [done|]. split; [|done].
      intros He Hc. destruct (S2 He Hc) as [He2 _]. by apply B.
  - destruct Hae as [(pos & Hi & Hb & H1 & H2) (pr & parents & Ech & El & Hv)]. rewrite Ech. apply lookup_ge_None in Hj. pose proof (visiting_range _ _ Hv) as Hr. rewrite El in Hr.
    assert (j = length (pmes pr)) as -> by (rewrite El; lia). destruct (visiting_end pr Hv) as (pr' & -> & Hst & Hco & Hcv). cbn [Z.leb Z.compare].
    assert (Hfin : rinv (set_reader (pr' :: parents) (r_env st) st) (Z.max pos (2 ^ 64))).
    { apply (rinv_move st _ pos); try done; [lia| |].
      - apply (gap_no_pages pos _ (length (pmes pr))); [done|]. intros i q Hle Hq _. apply lookup_lt_Some in Hq. lia.
      - cbn [set_reader r_chain]. intros owed Ho. rewrite Ech in Ho. apply (ops_move pr); [done|done|done|lia]. }
    eexists _, _. split; [done|]. split; [destruct (ri_mem _ _ Hfin) as (owed & Ho & _); by apply (ops_inv_safe _ owed)|]. split; [done|]. intros _.
    assert (Hno : forall a, a ∈ wanted -> a < 2 ^ 64).
    { intros a Hw. apply wanted_page in Hw as (i & q & k & Hq & _ & Hk & ->). destruct (pagemaps_ok_lookup _ _ _ (rb_pmes Hrb) Hq) as ((_ & _ & _ & _ & _ & He & _) & _). unfold entry_end, PAGE_SIZE in *. lia. }
    destruct (Z.le_gt_cases pos (2 ^ 64)) as [Hle|Hgt]; [by rewrite Z.max_r in Hfin by lia|]. rewrite Z.max_l in Hfin by lia.
    destruct Hfin as [(owed & F1 & F2 & F3) F4 F5 (F6 & F7 & F8)].
    assert (Hd : forall a, doneb (2 ^ 64) a = doneb pos a).
    { intros a. unfold doneb. destruct (bool_decide_reflect (a ∈ wanted)) as [Hw|]; [|done]. pose proof (Hno a Hw). cbn [andb]. destruct (Z.ltb_spec a pos), (Z.ltb_spec a (2 ^ 64)); try done; lia. }
    split.
    + exists owed. setoid_rewrite Hd. done.
    + setoid_rewrite Hd. done.
    + setoid_rewrite Hd. done.
    + split; [done|]. split; [done|]. intros a s. rewrite F8. split; intros (A & B & C); (split; [done|]; split; [|done]); [|lia].
      destruct A as (i & q & k & Hp & _). apply Hno, wanted_page. by exists i, q, k.
Qed.

(** ** The whole function *)

(** The parent's bit of page [k] of an area that is moved from it. *)
Definition parent_bit (v : rst_vma) (k : Z) : bool :=
  match rv_pvma v with
  | CowOf j => match pv0 !! j with Some p => default false (rv_bitmap p !! Z.to_nat k) | None => false end
  | _ => false
  end.

(** The pages of the image are in place, and pages the image does not have are
    what the area starts with; the others are queued. *)
Record restored (st : rstate) (back : memory) : Prop := Restored {
  rd_mem : forall n v k, vs !! n = Some v -> premapped v -> 0 <= k < nr_pages v ->
    r_mem st (premmaped_addr v + k * PAGE_SIZE) =
      if bool_decide (rv_start v + k * PAGE_SIZE ∈ wanted) then c (rv_start v + k * PAGE_SIZE)
      else if parent_bit v k then back (premmaped_addr v + k * PAGE_SIZE) else M0 (premmaped_addr v + k * PAGE_SIZE);
  rd_bits : length (r_vmas st) = length vs /\ forall n v, vs !! n = Some v -> exists b, r_vmas st !! n = Some (set_bitmap b v) /\
    (premapped v -> length b = Z.to_nat (nr_pages v) /\ forall k, 0 <= k < nr_pages v -> b !! Z.to_nat k = Some (bool_decide (rv_start v + k * PAGE_SIZE ∈ wanted)));
  rd_io : Forall piov_ok (r_io st) /\ NoDup (queue_tasks (r_io st)).*1 /\
    forall a s, (a, s) ∈ queue_tasks (r_io st) <->
      (exists i pe k, page_at i pe k a /\ s = entry_src l i pe k) /\ exists n v, vs !! n = Some v /\ left_area v /\ page_of_area v a
}.

Lemma wanted_small a : a ∈ wanted -> a < 2 ^ 64.
Proof.
  intros Hw. apply wanted_page in Hw as (i & q & k & Hq & _ & Hk & ->). destruct (pagemaps_ok_lookup _ _ _ (rb_pmes Hrb) Hq) as ((_ & _ & _ & _ & _ & He & _) & _).
  unfold entry_end, PAGE_SIZE in *. lia.
Qed.

Lemma doneb_all a : doneb (2 ^ 64) a = bool_decide (a ∈ wanted).
Proof.
  unfold doneb. destruct (bool_decide_reflect (a ∈ wanted)) as [Hw|]; [|done]. pose proof (wanted_small a Hw). by destruct (Z.ltb_spec a (2 ^ 64)); [|lia].
Qed.

(** A page of an area by its number. *)
Lemma numbered_page n v k : vs !! n = Some v -> premapped v -> 0 <= k < nr_pages v ->
  page_of_area v (rv_start v + k * PAGE_SIZE) /\ place v (rv_start v + k * PAGE_SIZE) = premmaped_addr v + k * PAGE_SIZE.
Proof.
  intros Hn Hp Hk. destruct (premapped_area n v Hn Hp) as (_ & Ha & _). destruct (area_len_ok _ Ha) as (_ & _ & _ & _ & L). destruct Ha as [_ [A3 _]].
  split; [|unfold place; lia]. split; [|unfold rv_start; by rewrite Z.mod_add]. unfold nr_pages in Hk. unfold rv_start, rv_end. unfold area_len, PAGE_SIZE in *. lia.
Qed.

(** At the end the pages to drop are those with a parent's bit that the image does not have. *)
Lemma unshared_page st n v k : rinv st (2 ^ 64) -> vs !! n = Some v -> premapped v -> 0 <= k < nr_pages v ->
  unshared (r_vmas st) (r_pv st) (premmaped_addr v + k * PAGE_SIZE) <-> bool_decide (rv_start v + k * PAGE_SIZE ∈ wanted) = false /\ parent_bit v k = true.
Proof.
  intros [_ [Hlen Hvm] [_ Hpv] _] Hn Hp Hk. destruct (premapped_area n v Hn Hp) as (Hg & Ha & _). destruct (area_len_ok _ Ha) as (_ & _ & L2 & _).
  destruct (numbered_page n v k Hn Hp Hk) as [Hpa Hpl]. unfold parent_bit. split.
  - intros (w & j & p & x & Hw & Hgw & Hj & Hpj & Hb & Hd). apply list_elem_of_lookup in Hw as [n' Hw].
    assert (exists w0, vs !! n' = Some w0) as [w0 Hw0] by (apply lookup_lt_is_Some; rewrite <- Hlen; by eapply lookup_lt_Some).
    destruct (Hvm n' w0 Hw0) as (b & Hb' & _). rewrite Hw in Hb'. injection Hb' as ->. cbn [set_bitmap rv_pvma premmaped_addr] in Hj, Hd.
    change (rv_e (set_bitmap b w0)) with (rv_e w0) in Hb. change (rv_is (set_bitmap b w0) VMA_AREA_GUARD) with (rv_is w0 VMA_AREA_GUARD) in Hgw.
    pose proof (rb_inherited Hrb n' w0 j Hw0 Hgw Hj) as Hpw. destruct (premapped_area n' w0 Hw0 Hpw) as (_ & Haw & _). destruct (area_len_ok _ Haw) as (_ & _ & Lw & _).
    rewrite Lw in Hb. fold (nr_pages w0) in Hb. apply lookup_take_Some in Hb as [Hb Hx].
    destruct (numbered_page n' w0 (Z.of_nat x) Hw0 Hpw ltac:(lia)) as [Hpa' Hpl'].
    destruct (place_inj n n' v w0 _ _ Hn Hw0 Hp Hpw Hpa Hpa' ltac:(congruence)) as [<- Ek]. rewrite Hn in Hw0. injection Hw0 as <-.
    assert (k = Z.of_nat x) as -> by (unfold PAGE_SIZE in *; lia). destruct (rb_cow Hrb n v j Hn Hp Hj) as (p0 & Hp0 & _).
    destruct (Hpv j p0 Hp0) as (bp & Hbp & _ & Hbits). rewrite Hpj in Hbp. injection Hbp as ->. cbn [set_bitmap rv_bitmap] in Hb. rewrite Hj, Hp0.
    specialize (Hbits n v Hn Hp Hj (Z.of_nat x) ltac:(lia)). rewrite Nat2Z.id, Hb, doneb_all in Hbits. destruct (bool_decide _); [done|]. rewrite Nat2Z.id, <- Hbits. done.
  - intros [Hw Hb]. destruct (rv_pvma v) as [| |j] eqn:Ej; try done. destruct (pv0 !! j) as [p|] eqn:Ep; [|done]. destruct (Hvm n v Hn) as (b & Hvb & _). destruct (Hpv j p Ep) as (bp & Hbp & _ & Hbits).
    exists (set_bitmap b v), j, (set_bitmap bp p), (Z.to_nat k). split; [by eapply list_elem_of_lookup_2|]. split; [done|]. split; [done|]. split; [done|].
    cbn [set_bitmap rv_bitmap rv_e premmaped_addr]. split; [|by rewrite Z2Nat.id by lia]. rewrite L2. fold (nr_pages v). rewrite lookup_take_lt by lia. rewrite (Hbits n v Hn Hp Ej k Hk), doneb_all, Hw.
    by destruct (rv_bitmap p !! Z.to_nat k) as [[]|].
Qed.

Lemma restore_content_spec st back ma : at_entries st 0 0 ->
  exists r st', restore_priv_vma_content task_size parallel lazy_pages cow_buf st back ma = Ret (r, st') /\ (r = 0 \/ r = -1) /\
    (ops_ok (r_env st) -> covered -> ma = [] -> r = 0) /\ (r = 0 -> restored st' back).
Proof.
  intros Hae. pose proof Hae as [_ (pr & parents & Ech & El & _)]. unfold restore_priv_vma_content. rewrite Ech, El.
  destruct (restore_entries_ok (S (length l)) st 0 0 Hae ltac:(lia)) as (x & st1 & -> & S1 & S2 & S3). cbn [obind].
  destruct (ops_sync (r_chain st1) (r_env st1) S1) as (r & ws & chain & e & -> & I1 & _ & I2 & I3). cbn [obind].
  destruct (close_idle chain e I1) as (e2 & ->). cbn [obind]. destruct (Z.eqb_spec r 0) as [->|Hr]; cbn [negb].
  2:{ eexists _, _. split; [done|]. split; [by right|]. split; [|done]. intros He Hc _. destruct (S2 He Hc) as [_ He1]. by destruct (I2 He1). }
  destruct x; try (eexists _, _; (split; [done|]); (split; [by right|]); (split; [|done]); intros He Hc _; by destruct (S2 He Hc)).
  specialize (S3 eq_refl). pose proof S3 as [(owed & Ho & _ & Hm) [Hlen Hvm] [_ Hpv] (Q1 & Q2 & Q3)]. cbn [r_vmas r_pv r_mem r_io r_buf].
  destruct (ops_reader _ _ Ho) as (_ & pr1 & ps1 & Ec1 & _). destruct (I3 owed pr1 ps1 Ho Ec1 eq_refl) as (_ & _ & _ & _ & _ & _ & _ & Hst).
  destruct (drop_unshared_ok (r_pv st1) back (r_vmas st1) (store (r_mem st1) ws) ma) as (ok & m & ma' & -> & D1 & D2).
  { intros w j Hw Hgw Hj. apply list_elem_of_lookup in Hw as [n Hw]. assert (exists w0, vs !! n = Some w0) as [w0 Hw0] by (apply lookup_lt_is_Some; rewrite <- Hlen; by eapply lookup_lt_Some).
    destruct (Hvm n w0 Hw0) as (b & Hb & _). rewrite Hw in Hb. injection Hb as ->. pose proof (rb_inherited Hrb n w0 j Hw0 Hgw Hj) as Hpw.
    destruct (rb_cow Hrb n w0 j Hw0 Hpw Hj) as (p & Hp & Hlp). destruct (Hpv j p Hp) as (bp & -> & Hbp & _).
    destruct (premapped_area n w0 Hw0 Hpw) as (_ & Haw & _). destruct (area_len_ok _ Haw) as (_ & _ & Lw & Lp & _). eexists. split; [done|].
    cbn [set_bitmap rv_bitmap rv_e]. rewrite Lw. fold (nr_pages w0) in Lp |- *. unfold zlen. rewrite Hbp, Hlp. lia. }
  cbn [obind]. eexists _, _. split; [done|]. destruct ok; [|split; [by right|]; split; [intros _ _ H; by specialize (D1 H)|done]].
  split; [by left|]. split; [done|]. intros _. split; cbn [r_mem r_vmas r_io].
  - intros n v k Hn Hp Hk. destruct (D2 eq_refl (premmaped_addr v + k * PAGE_SIZE)) as [U1 U2]. pose proof (unshared_page st1 n v k S3 Hn Hp Hk) as Hu.
    destruct (numbered_page n v k Hn Hp Hk) as [Hpa Hpl]. specialize (Hm n v _ Hn Hp Hpa). rewrite doneb_all, Hpl, <- Hst in Hm.
    destruct (bool_decide (rv_start v + k * PAGE_SIZE ∈ wanted)); [rewrite U2; [done|]; intros H; apply Hu in H; by destruct H|].
    destruct (parent_bit v k); [by apply U1, Hu|]. rewrite U2; [done|]. intros H. apply Hu in H. by destruct H.
  - split; [done|]. setoid_rewrite doneb_all in Hvm. done.
  - split; [done|]. split; [done|]. intros a s. rewrite Q3. split; [intros (A & _ & B); done|]. intros (A & B). split; [done|]. split; [|done].
    destruct A as (i & pe & k & Hp & _). apply wanted_small, wanted_page. by exists i, pe, k.
Qed.
End RestoreOk.

(** ** From the areas of an image to restored memory *)
Section PrepareOk.
Context {Ops : PageOps} (c : Z -> list Z) {Laws : PageOpsOk Ops c}.
Context (task_size : Z) (hidden : bool) (fresh : vma_area -> Z -> list Z) (pieok parallel lazy_pages : bool) (cow_buf : Z).
Context (l : list pagemap_entry) (vmas pv : list rst_vma) (m0 bk0 : memory) (addr : Z).
Context (stored : Z -> Prop).
Abbreviation top := (addr + zsum (needed task_size hidden <$> vmas)).
Abbreviation private v := (vma_entry_is_private task_size (rv_e v)).
Abbreviation blank v k := (area_page hidden fresh (rv_e v) k).

(** The parent's area, from which [v] may take pages over: what it does not
    have a bit for is as in a new mapping. *)
Definition shares (v p : rst_vma) : Prop := length (rv_bitmap p) = Z.to_nat (nr_pages v) /\
  forall k, 0 <= k < nr_pages v -> bk0 (premmaped_addr p + k * PAGE_SIZE) = blank v k /\
    (rv_bitmap p !! Z.to_nat k = Some false -> m0 (premmaped_addr p + k * PAGE_SIZE) = blank v k).

(** The images of a process, which hold the pages [stored], and the state it is
    forked into. *)
Record task_ok : Prop := TaskOk {
  tk_pmes : pagemaps_ok l;
  tk_some : l <> [];
  tk_typed : Forall entry_typed l;
  tk_stored : forall pe, pe ∈ l -> skipped lazy_pages pe = false -> pagemap_present pe = true \/ pagemap_in_parent pe = true;
  tk_small : forall pe, pe ∈ l -> pe_nr_pages pe < 2 ^ 31;
  tk_has : forall a, a ∈ wanted lazy_pages l -> stored a;
  tk_room : 0 <= addr /\ addr mod PAGE_SIZE = 0 /\ top < 2 ^ 63;
  tk_areas : Forall (fresh_area hidden pv addr top) vmas;
  tk_len : forall n v, vmas !! n = Some v -> nr_pages v < 2 ^ 31;
  tk_guard : forall n v, vmas !! n = Some v -> rv_is v VMA_AREA_GUARD = true -> private v = false;
  tk_order : forall n n' v v', (n < n')%nat -> vmas !! n = Some v -> vmas !! n' = Some v' -> rv_is v' VMA_AREA_GUARD = false ->
    rv_is v VMA_AREA_GUARD = false /\ rv_end v <= rv_start v';
  tk_apart : apart hidden pv vmas;
  tk_buf : 0 <= cow_buf /\ cow_buf mod PAGE_SIZE = 0 /\ cow_buf + COW_READ_BATCH_PAGES * PAGE_SIZE < 2 ^ 64 /\
    (cow_buf + COW_READ_BATCH_PAGES * PAGE_SIZE <= addr \/ top <= cow_buf);
  tk_cow : forall n v j, vmas !! n = Some v -> rv_pvma v = CowOf j -> rv_is v VMA_AREA_GUARD = false ->
    private v = true /\ exceptional (rv_e v) = false /\ exists p, pv !! j = Some p /\ shares v p;
  tk_cow_inj : forall n n' v v' j, vmas !! n = Some v -> vmas !! n' = Some v' -> rv_pvma v = CowOf j -> rv_pvma v' = CowOf j -> n = n';
  tk_whole : forall n v pe b, vmas !! n = Some v -> private v = true -> pe ∈ l -> pe_blocks pe = Some b ->
    pe_vaddr pe < rv_end v -> rv_start v < entry_end pe -> rv_start v <= pe_vaddr pe /\ entry_end pe <= rv_end v
}.
Context (Htk : task_ok) (Hstored : forall a, stored a -> ops_has a).

Lemma area_facts n v : vmas !! n = Some v -> fresh_area hidden pv addr top v.
Proof. intros Hn. pose proof (tk_areas Htk) as H. by apply (Forall_lookup_1 _ _ _ _ H Hn). Qed.

(** What an area is after the mapping. *)
Record mapped_as (m bk : memory) (v v' : rst_vma) : Prop := MappedAs {
  ms_range : rv_start v' = rv_start v /\ rv_end v' = rv_end v;
  ms_guard : rv_is v' VMA_AREA_GUARD = rv_is v VMA_AREA_GUARD;
  ms_private : private v' = private v;
  ms_pvma : rv_pvma v' = rv_pvma v;
  ms_slack : slack hidden (rv_e v') = slack hidden (rv_e v);
  ms_mapped : premapped v' -> private v = true /\ rv_is v VMA_AREA_GUARD = false /\ in_place hidden fresh pv v v' m0 bk0 m bk;
  ms_left : rv_is v' VMA_PREMMAPED = false -> private v = true -> rv_is v VMA_AREA_GUARD = false -> left_over l v v'
}.

Lemma handled_mapped m bk n v v' : vmas !! n = Some v -> handled task_size hidden fresh l pv m0 bk0 m bk v v' -> mapped_as m bk v v'.
Proof.
  intros Hn Hh. destruct (fa_clean _ _ _ _ _ (area_facts n v Hn)) as [C1 C2]. unfold handled in Hh. destruct (rv_is v VMA_AREA_GUARD || negb (private v)) eqn:E.
  - subst v'. split; try done; [intros H; unfold premapped in H; congruence|]. intros _ Hp Hg. by rewrite Hp, Hg in E.
  - apply orb_false_iff in E as [E1 E2]. apply negb_false_iff in E2. destruct Hh as [Hl|Hi].
    + pose proof (left_not_premapped l v v' Hl C1) as Hnp. destruct Hl as (L1 & L2 & L3). split; try (by destruct L3 as [->|[-> _]]); [| | |done].
      * destruct L3 as [->|[-> _]]; [done|]. unfold rv_is. cbn [set_e rv_e]. unfold VMA_NO_PROT_WRITE, VMA_AREA_GUARD. by rewrite status_add.
      * destruct L3 as [->|[-> _]]; [done|]. cbn [set_e rv_e]. apply mark_private. by left.
      * unfold premapped. congruence.
    + pose proof (in_place_premapped _ _ _ _ _ _ _ _ _ Hi) as Hp. pose proof Hi as [I1 I2 I3 I4]. split; [unfold rv_start, rv_end; by rewrite I1| | |done| |done|congruence].
      * unfold rv_is. rewrite I1. unfold VMA_PREMMAPED, VMA_AREA_GUARD. by rewrite status_add.
      * rewrite I1. apply mark_private. by right.
      * rewrite I1. apply mark_slack.
Qed.

Section Mapped.
Context (m bk : memory) (vmas' : list rst_vma) (at' : Z).
Context (Hh : Forall2 (handled task_size hidden fresh l pv m0 bk0 m bk) vmas vmas') (Hlaid : laid hidden addr vmas' at') (Hat : addr <= at' <= top).

Lemma mapped_of n v' : vmas' !! n = Some v' -> exists v, vmas !! n = Some v /\ mapped_as m bk v v'.
Proof.
  intros Hn. destruct (Forall2_lookup_r _ _ _ _ _ Hh Hn) as (v & Hv & Hhv). exists v. split; [done|]. by apply (handled_mapped m bk n).
Qed.

Lemma mapped_len v v' : mapped_as m bk v v' -> area_len (rv_e v') = area_len (rv_e v) /\ nr_pages v' = nr_pages v.
Proof. intros [[R1 R2] _ _ _ _ _ _]. unfold nr_pages, area_len. unfold rv_start, rv_end in *. by rewrite R1, R2. Qed.

Lemma mapped_area v v' : mapped_as m bk v v' -> area_ok (rv_e v) -> area_ok (rv_e v').
Proof. intros [[R1 R2] _ _ _ _ _ _] [A1 A2]. unfold rv_start, rv_end in *. split; by rewrite R1, R2. Qed.

Lemma mapped_restorable : restorable c task_size hidden lazy_pages cow_buf l vmas' pv addr at'.
Proof.
  destruct (tk_room Htk) as (R0 & R1 & R2). split; try apply Htk.
  - intros a Ha. by apply Hstored, Htk.
  - intros n v' Hn Hg. destruct (mapped_of n v' Hn) as (v & Hv & [_ G P _ _ _ _]). rewrite P. apply (tk_guard Htk n v Hv). by rewrite <- G.
  - intros n v' Hn Hg. destruct (mapped_of n v' Hn) as (v & Hv & Hm). destruct (mapped_len v v' Hm) as [_ ->]. split; [|by apply (tk_len Htk n)].
    apply (mapped_area v); [done|]. by destruct (area_facts n v Hv).
  - intros n n' v v' Hlt Hn Hn' Hg. destruct (mapped_of n v Hn) as (w & Hw & [[_ E1] G _ _ _ _ _]). destruct (mapped_of n' v' Hn') as (w' & Hw' & [[E2 _] G' _ _ _ _ _]).
    rewrite G, E1, E2. apply (tk_order Htk n n'); try done. by rewrite <- G'.
  - done.
  - lia.
  - intros n v' Hn Hp. destruct (mapped_of n v' Hn) as (v & Hv & Hm). pose proof Hm as [_ _ P _ _ M _]. destruct (M Hp) as (P1 & _ & [I1 I2 I3 I4]). rewrite P. split; [done|].
    destruct (mapped_len v v' Hm) as [_ ->]. split; [|done]. eapply (laid_aligned hidden vmas'); [|exact R1|exact Hlaid|by eapply list_elem_of_lookup_2|done].
    apply Forall_lookup_2. intros i w' Hi _. destruct (mapped_of i w' Hi) as (w & Hw & Hmw). destruct (mapped_len w w' Hmw) as [-> _].
    destruct (area_facts i w Hw) as [Ha _ _ _]. by destruct (area_len_ok _ Ha) as (_ & ? & _).
  - destruct (tk_buf Htk) as (B1 & B2 & B3 & B4). split_and!; try done. lia.
  - intros n v' j Hn Hp Hj. destruct (mapped_of n v' Hn) as (v & Hv & Hm). destruct (mapped_len v v' Hm) as [_ ->]. pose proof Hm as [_ _ _ Pv _ M _]. destruct (M Hp) as (_ & Hg & _).
    destruct (tk_cow Htk n v j Hv ltac:(congruence) Hg) as (_ & _ & p & Hpj & Hl & _). by exists p.
  - intros n n' v v' j Hn Hn' _ _ Hj Hj'. destruct (mapped_of n v Hn) as (w & Hw & [_ _ _ Pv _ _ _]). destruct (mapped_of n' v' Hn') as (w' & Hw' & [_ _ _ Pv' _ _ _]).
    apply (tk_cow_inj Htk n n' w w' j); try done; congruence.
  - intros n v' j Hn Hg Hj. destruct (mapped_of n v' Hn) as (v & Hv & [_ G P Pv _ _ L]). unfold premapped. destruct (rv_is v' VMA_PREMMAPED) eqn:E; [done|exfalso].
    rewrite G in Hg. destruct (tk_cow Htk n v j Hv ltac:(congruence) Hg) as (Hp & Hex & _). destruct (L eq_refl Hp Hg) as (_ & [?|?] & _); congruence.
  - intros n v' Hn [Hnp Hp]. destruct (mapped_of n v' Hn) as (v & Hv & [[E1 E2] G P Pv _ _ L]). assert (Hg : rv_is v VMA_AREA_GUARD = false).
    { destruct (rv_is v VMA_AREA_GUARD) eqn:E; [|done]. rewrite P, (tk_guard Htk n v Hv E) in Hp. done. }
    destruct (L Hnp ltac:(congruence) Hg) as (L1 & _ & L3). unfold rv_start, rv_end in *. split; [unfold local in *; by rewrite E1, E2|]. rewrite E1, E2. intros Hno.
    destruct L3 as [->|[_ ?]]; [|done]. destruct (fa_clean _ _ _ _ _ (area_facts n v Hv)) as [_ C2]. unfold rv_is, VMA_NO_PROT_WRITE in C2. rewrite status_bit in C2 by done.
    unfold VMA_NO_PROT_WRITE in Hno. rewrite has_bit in Hno by done. congruence.
  - intros n v' pe b Hn [Hnp Hp] Hpe Hb. destruct (mapped_of n v' Hn) as (v & Hv & [[E1 E2] G P Pv _ _ L]). rewrite E1, E2. apply (tk_whole Htk n v pe b); try done. congruence.
Qed.
End Mapped.

(** ** The reserved range *)
Lemma rst_priv_size_sum : rst_priv_size task_size hidden (rv_e <$> vmas) = zsum (needed task_size hidden <$> vmas).
Proof.
  destruct (tk_room Htk) as (R0 & _ & R2). pose proof (tk_areas Htk) as Ha. unfold rst_priv_size.
  assert (Hgen : forall vs n, Forall (fresh_area hidden pv addr top) vs -> 0 <= n -> n + zsum (needed task_size hidden <$> vs) < 2 ^ 63 ->
    foldl (fun n e => if vma_entry_is_private task_size e then let n := u64 (n + vma_area_len e) in if vma_has_guard_gap_hidden hidden e then u64 (n + PAGE_SIZE) else n else n) n (rv_e <$> vs)
      = n + zsum (needed task_size hidden <$> vs)).
  { induction vs as [|v vs IH]; intros n Hf Hn Hs; [cbn in *; lia|]. apply Forall_cons_1 in Hf as [[Hv _ _ _] Hf]. rewrite !fmap_cons, !zsum_cons in *. cbn [foldl].
    pose proof (needed_nonneg _ _ _ _ _ _ Hf : 0 <= zsum (needed task_size hidden <$> vs)) as H0. destruct (area_len_ok _ Hv) as (L1 & _ & L2 & _). unfold needed, slack in *.
    destruct (vma_entry_is_private task_size (rv_e v)); [|rewrite IH by (done || lia); lia]. cbv zeta. rewrite L2. unfold PAGE_SIZE in *.
    destruct (vma_has_guard_gap_hidden hidden (rv_e v)).
    - rewrite (u64_small (n + area_len (rv_e v))), (u64_small (n + area_len (rv_e v) + 4096)) by lia. rewrite IH by (done || lia). lia.
    - rewrite (u64_small (n + area_len (rv_e v))) by lia. rewrite IH by (done || lia). lia. }
  rewrite Hgen by (done || lia). lia.
Qed.

(** The pages of an area before the image is read: the parent's, or new ones. *)
Lemma blank_pages m bk n v v' k : vmas !! n = Some v -> mapped_as m bk v v' -> premapped v' -> 0 <= k < nr_pages v ->
  bk (premmaped_addr v' + k * PAGE_SIZE) = blank v k /\ (if parent_bit pv v' k then bk (premmaped_addr v' + k * PAGE_SIZE) else m (premmaped_addr v' + k * PAGE_SIZE)) = blank v k.
Proof.
  intros Hn [_ _ _ Pv _ M _] Hp Hk. destruct (M Hp) as (_ & Hg & [I1 I2 I3 I4]). destruct (I4 k Hk) as [-> ->]. unfold source_page, source, parent_bit. rewrite Pv.
  destruct (rv_pvma v) as [| |j] eqn:Ej; [done|done|]. destruct (tk_cow Htk n v j Hn Ej Hg) as (_ & _ & p & Hpj & Hlen & Hsh). rewrite Hpj. destruct (Hsh k Hk) as [S1 S2]. split; [done|].
  destruct (lookup_lt_is_Some_2 (rv_bitmap p) (Z.to_nat k)) as [b Hb]; [lia|]. rewrite Hb. cbn [default from_option id]. destruct b; [done|by apply S2].
Qed.

(** The restore of a process: [used] bytes of the reserved range are in use. *)
Record restored_memory (st : rstate) (bk : memory) (used : Z) : Prop := RestoredMemory {
  rm_area : forall n v, vmas !! n = Some v -> private v = true -> rv_is v VMA_AREA_GUARD = false -> exists v', r_vmas st !! n = Some v' /\ rv_start v' = rv_start v /\ rv_end v' = rv_end v /\
    if rv_is v' VMA_PREMMAPED then
      addr <= premmaped_addr v' /\ premmaped_addr v' + area_len (rv_e v) <= addr + used /\ length (rv_bitmap v') = Z.to_nat (nr_pages v) /\
      forall k, 0 <= k < nr_pages v -> let a := rv_start v + k * PAGE_SIZE in let in_image := bool_decide (a ∈ wanted lazy_pages l) in
        rv_bitmap v' !! Z.to_nat k = Some in_image /\ bk (premmaped_addr v' + k * PAGE_SIZE) = blank v k /\
        r_mem st (premmaped_addr v' + k * PAGE_SIZE) = if in_image then c a else blank v k
    else forall i pe k a, page_at lazy_pages l i pe k a -> page_of_area v a -> (a, entry_src l i pe k) ∈ queue_tasks (r_io st);
  rm_io : NoDup (queue_tasks (r_io st)).*1 /\ forall a s, (a, s) ∈ queue_tasks (r_io st) -> exists i pe k n v, page_at lazy_pages l i pe k a /\ s = entry_src l i pe k /\
    vmas !! n = Some v /\ private v = true /\ page_of_area v a
}.

Lemma restored_outcome m bk vmas' at' st mem : Forall2 (handled task_size hidden fresh l pv m0 bk0 m bk) vmas vmas' -> laid hidden addr vmas' at' -> addr <= at' <= top ->
  restored c task_size lazy_pages l vmas' pv m st bk -> (forall a, addr <= a < at' -> mem a = r_mem st a) -> restored_memory (set_mem mem st) bk (at' - addr).
Proof.
  intros Hh Hlaid Hat [D1 [D2 D3] (D4 & D5 & D6)] Hmem. pose proof (mapped_restorable m bk vmas' at' Hh Hlaid Hat) as Hrb. split; cbn [set_mem r_vmas r_mem r_io].
  - intros n v Hn Hp Hg. destruct (Forall2_lookup_l _ _ _ _ _ Hh Hn) as (v' & Hv' & Hhv). pose proof (handled_mapped m bk n v v' Hn Hhv) as Hm.
    destruct (D3 n v' Hv') as (b & Hb & Hbits). exists (set_bitmap b v'). split; [done|]. pose proof Hm as [[E1 E2] _ P _ _ M L]. split; [done|]. split; [done|].
    change (rv_is (set_bitmap b v') VMA_PREMMAPED) with (rv_is v' VMA_PREMMAPED). destruct (rv_is v' VMA_PREMMAPED) eqn:Epm.
    + destruct (mapped_len m bk v v' Hm) as [El En]. destruct (laid_place hidden vmas') with (lo := addr) (hi := at') (n := n) (v := v') as (P1 & P2 & _); try done.
      { apply Forall_lookup_2. intros i w' Hi _. destruct (mapped_of m bk vmas' Hh i w' Hi) as (w & Hw & Hmw). destruct (mapped_len m bk w w' Hmw) as [-> _].
        destruct (area_facts i w Hw) as [Ha _ _ _]. destruct (area_len_ok _ Ha). lia. }
      destruct (Hbits Epm) as [B1 B2]. rewrite En in B1, B2. cbn [set_bitmap premmaped_addr rv_bitmap]. rewrite El in P2. split; [done|]. split; [lia|]. split; [done|].
      intros k Hk. cbv zeta. rewrite E1 in B2. split; [by apply B2|]. destruct (blank_pages m bk n v v' k Hn Hm Epm Hk) as [F1 F2]. split; [done|].
      rewrite Hmem. 2:{ destruct (area_facts n v Hn) as [Ha _ _ _]. destruct (area_len_ok _ Ha) as (_ & _ & _ & _ & L5). unfold nr_pages in Hk. unfold PAGE_SIZE in *. lia. }
      rewrite (D1 n v' k Hv' Epm) by (by rewrite En). rewrite E1, F2. done.
    + intros i pe k a Hpa Ha. apply D6. split; [by exists i, pe, k|]. exists n, v'. split; [done|]. split; [split; [done|congruence]|]. destruct Ha as [Ha1 Ha2]. split; [by rewrite E1, E2|done].
  - split; [done|]. intros a s Has. apply D6 in Has as ((i & pe & k & Hpa & ->) & n & v' & Hv' & [Hnp Hpr] & [Ha1 Ha2]).
    destruct (mapped_of m bk vmas' Hh n v' Hv') as (v & Hv & [[E1 E2] _ P _ _ _ _]). exists i, pe, k, n, v. split; [done|]. split; [done|]. split; [done|]. split; [congruence|].
    split; [by rewrite <- E1, <- E2|done].
Qed.

(** What the last stage gets to work with: the areas, changed only in their
    marks, packed in the range; well-formed jobs for areas that are not mapped. *)
Definition marked (v v' : rst_vma) : Prop := rv_e v' = rv_e v \/
  private v = true /\ rv_is v VMA_AREA_GUARD = false /\ (rv_e v' = add_status VMA_NO_PROT_WRITE (rv_e v) \/ rv_e v' = add_status VMA_PREMMAPED (rv_e v)).

Record handed_over (st : rstate) (used : Z) : Prop := HandedOver {
  ho_vmas : Forall2 marked vmas (r_vmas st);
  ho_laid : laid hidden addr (r_vmas st) (addr + used);
  ho_used : 0 <= used /\ addr + used <= top;
  ho_jobs : Forall piov_ok (r_io st);
  ho_left : forall a s, (a, s) ∈ queue_tasks (r_io st) -> exists n v' i pe k, r_vmas st !! n = Some v' /\ left_area task_size v' /\ page_of_area v' a /\
    page_at lazy_pages l i pe k a /\ s = entry_src l i pe k /\ pagemap_in_parent pe = false
}.

Lemma laid_bitmaps vs vs' : Forall2 (fun v v' => exists b, v' = set_bitmap b v) vs vs' -> forall lo hi, laid hidden lo vs hi -> laid hidden lo vs' hi.
Proof.
  induction 1 as [|v v' vs vs' [b ->] _ IH]; intros lo hi; cbn [laid]; [done|]. change (rv_is (set_bitmap b v) VMA_PREMMAPED) with (rv_is v VMA_PREMMAPED).
  destruct (rv_is v VMA_PREMMAPED); [|apply IH]. intros [H1 H2]. split; [exact H1|by apply IH].
Qed.

Lemma handled_marked m bk v v' : handled task_size hidden fresh l pv m0 bk0 m bk v v' -> marked v v'.
Proof.
  unfold handled, marked. destruct (rv_is v VMA_AREA_GUARD) eqn:Eg, (private v) eqn:Ep; cbn [orb negb]; try (intros ->; by left).
  intros [(_ & _ & [->|[-> _]])|[I1 _ _ _]]; [by left|right; auto|right; auto].
Qed.

Lemma handed_over_outcome m bk vmas' at' st mem : Forall2 (handled task_size hidden fresh l pv m0 bk0 m bk) vmas vmas' -> laid hidden addr vmas' at' -> addr <= at' <= top ->
  restored c task_size lazy_pages l vmas' pv m st bk -> handed_over (set_mem mem st) (at' - addr).
Proof.
  intros Hh Hlaid Hat [_ [D2 D3] (D4 & D5 & D6)].
  assert (Hb : Forall2 (fun v v' => exists b, v' = set_bitmap b v) vmas' (r_vmas st)).
  { apply Forall2_same_length_lookup_2; [done|]. intros i v v' Hv Hv'. destruct (D3 i v Hv) as (b & Hb & _). exists b. congruence. }
  split; cbn [set_mem r_vmas r_io].
  - apply Forall2_same_length_lookup_2; [by rewrite D2; eapply Forall2_length|]. intros i v v'' Hv Hv''. destruct (Forall2_lookup_l _ _ _ _ _ Hh Hv) as (v' & Hv' & Hhv).
    destruct (D3 i v' Hv') as (b & Hb' & _). rewrite Hv'' in Hb'. injection Hb' as ->. exact (handled_marked _ _ _ _ Hhv).
  - replace (addr + (at' - addr)) with at' by lia. by apply (laid_bitmaps vmas').
  - lia.
  - done.
  - intros a s Has. apply D6 in Has as ((i & pe & k & Hpa & ->) & n & v' & Hv' & [Hnp Hpr] & [Ha1 Ha2]). destruct (D3 n v' Hv') as (b & Hb' & _). exists n, (set_bitmap b v'), i, pe, k. split_and!; try done.
    destruct (mapped_of m bk vmas' Hh n v' Hv') as (v & Hv & [[E1 E2] G P _ _ _ L]). assert (Hg : rv_is v VMA_AREA_GUARD = false) by (destruct (rv_is v VMA_AREA_GUARD) eqn:Eg; [|done]; rewrite P, (tk_guard Htk n v Hv Eg) in Hpr; done).
    destruct (L Hnp ltac:(congruence) Hg) as [Hloc _]. destruct Hpa as (Hi & _ & Hk & ->). unfold rv_start, rv_end in *. rewrite E1, E2 in Ha1.
    apply Hloc; [by eapply list_elem_of_lookup_2| |]; unfold entry_end, PAGE_SIZE in *; lia.
Qed.

(** The reset reader and the mapped areas: nothing is done yet. *)
Lemma start_entries m bk vmas' at' pr parents e : Forall2 (handled task_size hidden fresh l pv m0 bk0 m bk) vmas vmas' -> laid hidden addr vmas' at' -> addr <= at' <= top ->
  pmes pr = l -> ops_inv (reset_pagemap (pr :: parents)) [] ->
  at_entries c task_size lazy_pages l vmas' pv m (RState (reset_pagemap (pr :: parents)) e m vmas' pv [] false) 0 0.
Proof.
  intros Hh Hlaid Hat El Hinv. pose proof (mapped_restorable m bk vmas' at' Hh Hlaid Hat) as Hrb.
  assert (Hd : forall a, doneb lazy_pages l 0 a = false).
  { intros a. apply not_true_is_false. intros H. apply doneb_true in H as [Hw Ha]. apply wanted_page in Hw as (i & pe & k & Hi & _ & Hk & ->).
    destruct (pagemaps_ok_lookup _ _ _ (tk_pmes Htk) Hi) as ((_ & _ & _ & Hv & _) & _). unfold PAGE_SIZE in *. lia. }
  split.
  - exists 0. split; [split; cbn [r_chain r_mem r_vmas r_pv r_io]|split; [intros n v Hn; lia|split; [intros i pe Hi; lia|]]].
    + exists []. split; [done|]. split; [intros d Hdd; by apply elem_of_nil in Hdd|]. intros n v a _ _ _. by rewrite Hd.
    + split; [done|]. intros n v Hn. exists (rv_bitmap v). split; [by destruct v|]. intros Hp. destruct (rb_mapped _ _ _ _ _ _ _ _ _ _ Hrb n v Hn Hp) as (_ & _ & ->).
      rewrite length_replicate. split; [done|]. intros k Hk. rewrite Hd. apply lookup_replicate_2. lia.
    + split; [done|]. intros j p Hj. exists (rv_bitmap p). split; [by destruct p|]. split; [done|]. intros n v _ _ _ k Hk. by rewrite Hd.
    + split; [apply Forall_nil_2|]. split; [apply NoDup_nil_2|]. intros a s. split; [intros H; by apply elem_of_nil in H|]. intros ((i & pe & k & (Hi & _ & Hk & ->) & _) & Ha & _).
      destruct (pagemaps_ok_lookup _ _ _ (tk_pmes Htk) Hi) as ((_ & _ & _ & Hv & _) & _). unfold PAGE_SIZE in *. lia.
    + intros i pe _ Hi. by destruct (pagemaps_ok_lookup _ _ _ (tk_pmes Htk) Hi) as ((_ & _ & _ & Hv & _) & _).
  - exists (reset_one pr), (reset_pagemap parents). split; [done|]. split; [done|]. apply visiting_reset.
Qed.

Lemma first_entry pr : pmes pr = l -> visiting pr 0 -> exists pr1, advance pr = (1, pr1) /\ scan_at l pr1 0 /\ same_store pr pr1 /\ cursor_ok pr1 /\ cvaddr pr <= cvaddr pr1.
Proof.
  intros El Hv. pose proof (tk_some Htk) as Hne. destruct (l !! 0%nat) as [pe|] eqn:E0; [|by destruct l].
  assert (Hj : pmes pr !! 0%nat = Some pe) by (by rewrite El). assert (Hok : pagemaps_ok (pmes pr)) by (rewrite El; apply Htk).
  destruct (visiting_advance pr 0 pe Hok Hv Hj) as (pr1 & Ea & Hat & Hcu & Hst & Hco & Hcv). exists pr1. split; [done|]. split; [|done].
  destruct (walk_next pr l 0 pe) as (pr2 & Ea2 & Hpe & [W1 W2 W3]); [|done|].
  { inversion Hv as [V1 V2 V3 V4|]; subst. split; [done|by injection V4|by rewrite V2]. }
  rewrite Ea in Ea2. injection Ea2 as <-. split; [done|done|by exists pe|left; lia].
Qed.

Lemma prepare_mappings_spec cl old pr parents e ps me ma : m0 = pm_mem ps -> bk0 = pm_back ps -> c_reserve cl = Some addr ->
  (forall oaddr olen, old = Some (oaddr, olen) -> oaddr + olen <= addr \/ top <= oaddr) ->
  pmes pr = l -> ops_inv (pr :: parents) [] -> visiting pr 0 -> (pieok = true -> parents = []) ->
  exists r o, prepare_mappings task_size hidden fresh pieok parallel lazy_pages cow_buf cl old vmas pv (pr :: parents) e ps me ma = Ret (r, o) /\
    (r = 0 -> vmas <> [] -> exists st ps' used, o = Some (st, ps', addr, used) /\ restored_memory st (pm_back ps') used /\ handed_over st used) /\
    (ops_ok e -> covered task_size lazy_pages l vmas -> ma = [] -> 0 < c_open cl -> c_thp cl = true -> c_unmap_old cl = true -> c_unmap cl = true ->
     (forall pr1 ok vmas' at' ps' me', advance pr = (1, pr1) -> premap_priv_vmas task_size hidden fresh pieok parallel pv vmas pr1 parents addr ps me = Ret (ok, vmas', at', ps', me') -> ok = true) -> r = 0).
Proof.
  intros Em Eb Eres Hold El Hinv Hvis Hpie. unfold prepare_mappings. case_bool_decide as Hne.
  { eexists _, _. split; [done|]. by split. }
  rewrite Eres. destruct (Z.leb_spec (c_open cl) 0) as [Ho|Ho]; [eexists _, _; split; [done|]; split; [done|]; intros; lia|].
  destruct (c_thp cl); cbn [negb]; [|eexists _, _; split; [done|]; split; [done|]; intros; done].
  destruct (first_entry pr El Hvis) as (pr1 & Ea & Hsc & Hst & Hco & Hcv). rewrite Ea.
  pose proof (ops_move pr pr1 parents [] Hinv Hst Hco Hcv) as Hinv1. destruct (ops_reader _ _ Hinv1) as (_ & pr2 & ps2 & [= <- <-] & _ & _ & Hpar).
  destruct (tk_room Htk) as (R0 & R1 & R2).
  destruct (premap_loop_ok task_size hidden fresh pieok parallel l parents pv m0 bk0 addr top (tk_pmes Htk) Hpar Hpie R0 R2 vmas None pr1 0 0 addr ps me) as (ok & vmas' & at' & ps' & me' & Epm & Hpost);
    [done|intros i q Hi; lia|apply Htk|apply Htk|lia|lia|by intros v a _ _; rewrite Em, Eb|].
  unfold premap_priv_vmas. rewrite Epm. cbn [obind]. destruct ok; cbn [negb]; [|eexists _, _; split; [done|]; split; [done|]; intros _ _ _ _ _ _ _ Hp; by specialize (Hp _ _ _ _ _ _ eq_refl Epm)].
  destruct (Hpost eq_refl) as (Hh & Hlaid & Hat & _). pose proof (mapped_restorable _ _ vmas' at' Hh Hlaid Hat) as Hrb.
  assert (El1 : pmes pr1 = l) by (destruct Hst as (-> & _); done).
  pose proof (start_entries _ _ vmas' at' pr1 parents e Hh Hlaid Hat El1 (ops_reset _ Hinv1)) as Hae.
  destruct (restore_content_spec c task_size hidden parallel lazy_pages cow_buf l vmas' pv (pm_mem ps') addr at' Hrb _ (pm_back ps') ma Hae) as (r & st & -> & Hr & Hlive & Hdone). cbn [obind].
  assert (Hcov : covered task_size lazy_pages l vmas -> covered task_size lazy_pages l vmas').
  { intros Hc a Ha. destruct (Hc a Ha) as (n & v & Hn & Hp & [Hpa1 Hpa2]). destruct (Forall2_lookup_l _ _ _ _ _ Hh Hn) as (v' & Hv' & Hhv).
    destruct (handled_mapped _ _ n v v' Hn Hhv) as [[E1 E2] _ P _ _ _ _]. exists n, v'. split; [done|]. split; [congruence|]. split; [by rewrite E1, E2|done]. }
  destruct Hr as [->| ->]; cbn [Z.ltb Z.compare].
  2:{ eexists _, _. split; [done|]. split; [done|]. intros He Hc Hma _ _ _ _ _. specialize (Hlive He (Hcov Hc) Hma). done. }
  rewrite rst_priv_size_sum. specialize (Hdone eq_refl). set (m1 := match old with Some _ => _ | None => _ end).
  assert (Hm1 : forall a, addr <= a < at' -> m1.2 a = r_mem st a).
  { intros a Haa. unfold m1. destruct old as [[oa ol]|]; [|done]. destruct (c_unmap_old cl); [|done]. cbn [snd]. unfold unmap_pages. pose proof (Hold oa ol eq_refl).
    destruct (Z.leb_spec oa a), (Z.ltb_spec a (oa + ol)); try done. lia. }
  assert (Hr1 : c_unmap_old cl = true -> m1.1 = 0) by (unfold m1; intros ->; by destruct old as [[oa ol]|]).
  destruct m1 as [r1 m1]. cbn [fst snd] in *. set (m2 := if _ <? _ then _ else _). assert (Hm2 : forall a, addr <= a < at' -> m2.2 a = r_mem st a).
  { intros a Haa. unfold m2. destruct (_ <? _); [|by apply Hm1]. destruct (c_unmap cl); [|by apply Hm1]. cbn [snd]. unfold unmap_pages. destruct (Z.leb_spec at' a); [lia|]. cbn [andb]. by apply Hm1. }
  assert (Hr2 : c_unmap_old cl = true -> c_unmap cl = true -> m2.1 = 0) by (unfold m2; intros H1 H2; destruct (_ <? _); [by rewrite H2|by apply Hr1]).
  destruct m2 as [r2 m2]. cbn [fst snd] in *. eexists _, _. split; [done|]. split; [|intros; by apply Hr2]. intros _ _. eexists _, _, _. split; [done|].
  split; [by apply (restored_outcome (pm_mem ps') (pm_back ps') vmas' at')|by apply (handed_over_outcome (pm_mem ps') (pm_back ps') vmas')].
Qed.
End PrepareOk.

(** ** Over a chain of snapshots *)

Lemma prepare_mappings_chain lz4 parallel files preadv decode partial ctx_ok c task_size hidden fresh pieok lazy_pages cow_buf vmas pv addr cl old pr parents e ps me ma :
  (forall depth off n, preadv depth off n <= n) -> Forall2 (fresh_queue lz4) files (pr :: parents) -> (pieok = true -> parents = []) -> c_reserve cl = Some addr -> vmas <> [] ->
  (forall oaddr olen, old = Some (oaddr, olen) -> oaddr + olen <= addr \/ addr + zsum (needed task_size hidden <$> vmas) <= oaddr) ->
  task_ok task_size hidden fresh lazy_pages cow_buf (pmes pr) vmas pv (pm_mem ps) (pm_back ps) addr (fun a => page_content lz4 (images files (pr :: parents)) a (c a)) ->
  exists r o, prepare_mappings (Ops := chain_ops lz4 parallel files preadv decode partial ctx_ok) task_size hidden fresh pieok parallel lazy_pages cow_buf cl old vmas pv (pr :: parents) e ps me ma = Ret (r, o) /\
    (r = 0 -> exists st ps' used, o = Some (st, ps', addr, used) /\ restored_memory c task_size hidden fresh lazy_pages (pmes pr) vmas addr st (pm_back ps') used /\ handed_over task_size hidden lazy_pages (pmes pr) vmas addr st used) /\
    (fine preadv decode ctx_ok e -> covered task_size lazy_pages (pmes pr) vmas -> ma = [] -> 0 < c_open cl -> c_thp cl = true -> c_unmap_old cl = true -> c_unmap cl = true ->
     (forall pr1 ok vmas' at' ps' me', advance pr = (1, pr1) -> premap_priv_vmas task_size hidden fresh pieok parallel pv vmas pr1 parents addr ps me = Ret (ok, vmas', at', ps', me') -> ok = true) -> r = 0).
Proof.
  intros Hpv Hfr Hpie Hres Hne Hold Htk. destruct (fresh_chain_inv lz4 files pr parents Hfr) as (Hinv & Hvis & Hmaps).
  destruct (prepare_mappings_spec c (Laws := chain_ops_ok lz4 parallel files preadv decode partial ctx_ok Hpv c _ Hmaps) task_size hidden fresh pieok parallel lazy_pages cow_buf (pmes pr) vmas pv
    (pm_mem ps) (pm_back ps) addr _ Htk ltac:(intros a Ha; exact Ha) cl old pr parents e ps me ma eq_refl eq_refl Hres Hold eq_refl Hinv Hvis Hpie) as (r & o & E & H1 & H2).
  exists r, o. split; [exact E|]. split; [intros Hr; by apply H1|exact H2].
Qed.


(** ** Example: a child that shares an area with its parent; of three pages the
    first two are in the image, the third only in the parent *)
Definition shared_area : vma_area := private_vma 0x1000 0x4000.
Definition shared_parent : rst_vma := RstVma (add_status VMA_PREMMAPED shared_area) CowRoot [true; false; true] 0x900000 false.
Definition shared_child : rst_vma := RstVma shared_area (CowOf 0) [] 0 false.
Definition zero_page (e : vma_area) (k : Z) : list Z := replicate 4096 0.
Definition shared_mem : memory := fun a => replicate 4096 (if a =? 0x900000 then 7 else if a =? 0x902000 then 9 else 0).
Definition shared_start : premap_state := PremapState shared_mem (fun _ => replicate 4096 0) [].

Lemma shared_task lz4 : task_ok (2 ^ 47) true zero_page false 0x700000 pair_young [shared_child] [shared_parent] (pm_mem shared_start) (pm_back shared_start) 0x500000
  (fun a => page_content lz4 (images pair_files pair_chain) a (pair_contents a)).
Proof.
  assert (Hone : forall (P : nat -> rst_vma -> Prop) n v, P 0%nat shared_child -> [shared_child] !! n = Some v -> P n v) by (intros P [|n] v HP [= <-]; exact HP).
  assert (Hin : forall (P : pagemap_entry -> Prop), P (raw_entry 0x1000 1 PE_PARENT) -> P (raw_entry 0x2000 1 PE_PRESENT) -> forall pe, pe ∈ pair_young -> P pe).
  { intros P P1 P2 pe Hpe. apply elem_of_cons in Hpe as [->|Hpe]; [exact P1|]. apply elem_of_cons in Hpe as [->|Hpe]; [exact P2|]. by apply elem_of_nil in Hpe. }
  assert (Hsum : zsum (needed (2 ^ 47) true <$> [shared_child]) = 0x3000) by (vm_compute; reflexivity).
  assert (Hnr : nr_pages shared_child = 3) by (vm_compute; reflexivity).
  split; rewrite ?Hsum.
  - exact (fq_pmes _ _ _ (proj1 (Forall2_cons_1 _ _ _ _ _ (pair_fresh lz4)))).
  - discriminate.
  - exact (fq_typed _ _ _ (proj1 (Forall2_cons_1 _ _ _ _ _ (pair_fresh lz4)))).
  - refine (Hin _ _ _); intros _; [right|left]; reflexivity.
  - refine (Hin _ _ _); cbn; lia.
  - intros a Ha. apply (pair_pages lz4). exact Ha.
  - split_and!; (reflexivity || lia).
  - apply Forall_cons_2; [|apply Forall_nil_2]. split.
    + split; [cbn; unfold PAGE_SIZE; lia|split; reflexivity].
    + split; reflexivity.
    + intros j [= <-]. exists shared_parent. split; [reflexivity|]. cbn. unfold PAGE_SIZE, area_len. cbn. lia.
    + intros a (pa & [= <-] & Ha). unfold in_range, area_len in *. change (slack true (rv_e shared_child)) with 0 in Ha. cbn in Ha. lia.
  - intros n v Hn. apply (Hone (fun _ v => nr_pages v < 2 ^ 31) n v); [rewrite Hnr; lia|exact Hn].
  - intros n v Hn Hg. apply (Hone (fun _ v => rv_is v VMA_AREA_GUARD = true -> vma_entry_is_private (2 ^ 47) (rv_e v) = false) n v); [intros H; vm_compute in H; discriminate|exact Hn|exact Hg].
  - intros [|n] [|n'] v v' Hlt Hn Hn'; try lia; discriminate.
  - cbn. split; [|exact I]. intros w a Hw. by apply elem_of_nil in Hw.
  - unfold COW_READ_BATCH_PAGES, PAGE_SIZE. split_and!; (reflexivity || lia).
  - intros [|n] v j Hn; [|discriminate]. injection Hn as <-. intros [= <-] _. split; [reflexivity|]. split; [reflexivity|].
    exists shared_parent. split; [reflexivity|]. split; [reflexivity|]. rewrite Hnr. intros k Hk. assert (k = 0 \/ k = 1 \/ k = 2) as [->|[->| ->]] by lia;
      (split; [reflexivity|]); intros H; first [discriminate|reflexivity].
  - intros [|n] [|n'] v v' j Hn Hn' _ _; try discriminate; reflexivity.
  - intros n v pe b _ _ Hpe. revert pe Hpe. refine (Hin _ _ _); discriminate.
Qed.


(** ** Example: areas of a plugin *)
Definition plugin_area : vma_area := VmaArea 0x1000 0x3000 MAP_PRIVATE (Z.lor (Z.lor VMA_AREA_REGULAR VMA_FILE_PRIVATE) VMA_EXT_PLUGIN) 3 0 7.

(** Private areas handled by a plugin are paired like others, but never mapped,
    so that the last loop reads a bitmap that was not allocated. *)
Lemma plugin_area_pair_crashes : check_cow_vmas (2 ^ 47) plugin_area plugin_area = true /\
  (exists pr', premap_decide true false (RstVma plugin_area (CowOf 0) [] 0 false) None (pair_reader pair_old) [] = Ret (Leave (RstVma plugin_area (CowOf 0) [] 0 false) pr')) /\
  drop_unshared [RstVma plugin_area (CowOf 0) [] 0 false] [RstVma plugin_area CowRoot [] 0 false] (fun _ => []) (fun _ => []) [] = Bug.
Proof. split; [reflexivity|]. split; [|reflexivity]. eexists. vm_compute. reflexivity. Qed.
