(* ===== verification/Shmem.v ===== *)
(** Shared memory segments (criu/shmem.c): the table of segments, the state of
    their pages collected from the VMAs that map them when they are dumped
    ([add_shmem_area]), and the bookkeeping that decides which process restores
    a segment ([collect_shmem]) and whether the attachments of a SysV segment
    can be restored ([open_shmem_sysv], [fixup_sysv_shmems]).

    A [struct shmem_info] is one record here; the members of the union for
    dump, restore and SysV are used by different runs of the program and are
    kept side by side.  [tracking] is the environment variable CRIU_TRACK_SHMEM. *)
From S2P Require Import Prelude PagemapImage PageRead AsyncQueue PagePipe Compress PageXfer PageSelect.

Definition SHMEM_HASH_SIZE : Z := 32.
Definition SYSVIPC_SHMEM_PID : Z := -1.
Definition SYSV_SHMEM_SKIP_FD : Z := 0x7fffffff.
Definition VMA_AREA_SYSVIPC : Z := 2 ^ 10.
Definition PROT_EXEC : Z := 4.

(** [att_first]: the address and protection of the VMA the attachment starts with. *)
Record shmem_sysv_att := ShmemAtt { att_start : Z; att_prot : Z; att_prev_end : Z }.

(** [si_pstate]: the words of [pstate_map], [None] if it is NULL. *)
Record shmem_info := ShmemInfo {
  si_shmid : Z;
  si_pid : Z;
  si_size : Z;
  si_start : Z;
  si_end : Z;
  si_pstate : option (list Z);
  si_count : Z;
  si_self_count : Z;
  si_att : list shmem_sysv_att;
  si_want_write : bool
}.
Definition set_size (n : Z) (m : option (list Z)) (si : shmem_info) : shmem_info :=
  ShmemInfo (si_shmid si) (si_pid si) n (si_start si) (si_end si) m (si_count si) (si_self_count si) (si_att si) (si_want_write si).
Definition set_master (pid size count self : Z) (si : shmem_info) : shmem_info :=
  ShmemInfo (si_shmid si) pid size (si_start si) (si_end si) (si_pstate si) count self (si_att si) (si_want_write si).
Definition set_att (l : list shmem_sysv_att) (w : bool) (si : shmem_info) : shmem_info :=
  ShmemInfo (si_shmid si) (si_pid si) (si_size si) (si_start si) (si_end si) (si_pstate si) (si_count si) (si_self_count si) l w.

(** ** The hash table *)
Abbreviation shmem_table := (list (list shmem_info)).
Definition shmems_hash_init : shmem_table := replicate (Z.to_nat SHMEM_HASH_SIZE) [].
Definition chain_ix (shmid : Z) : nat := Z.to_nat (shmid mod SHMEM_HASH_SIZE).
Definition shmem_chain (h : shmem_table) (shmid : Z) : list shmem_info := h !!! chain_ix shmid.
Definition shmem_hash_add (h : shmem_table) (si : shmem_info) : shmem_table := alter (cons si) (chain_ix (si_shmid si)) h.

Fixpoint chain_find (l : list shmem_info) (shmid : Z) : option shmem_info :=
  match l with
  | [] => None
  | si :: l => if si_shmid si =? shmid then Some si else chain_find l shmid
  end.
Definition shmem_find (h : shmem_table) (shmid : Z) : option shmem_info := chain_find (shmem_chain h shmid) shmid.

(** The element found, changed in place. *)
Fixpoint chain_update (l : list shmem_info) (si' : shmem_info) : list shmem_info :=
  match l with
  | [] => []
  | si :: l => if si_shmid si =? si_shmid si' then si' :: l else si :: chain_update l si'
  end.
Definition shmem_update (h : shmem_table) (si : shmem_info) : shmem_table := alter (fun l => chain_update l si) (chain_ix (si_shmid si)) h.

(** ** The states of pages, two bits each *)
Definition PST_DONT_DUMP : Z := 0.
Definition PST_DUMP : Z := 1.
Definition PST_ZERO : Z := 2.
Definition PST_DIRTY : Z := 3.
Definition PST_BITS : Z := 2.
Definition PST_BIT0_IX (pfn : Z) : Z := u64 (pfn * PST_BITS).
Definition PST_BIT1_IX (pfn : Z) : Z := u64 (PST_BIT0_IX pfn + 1).
Definition BITS_PER_LONG : Z := 64.

(** test_bit() and set_bit(); beyond the array the model stops. *)
Definition test_bit (m : list Z) (ix : Z) : outcome bool :=
  match zlookup m (ix / BITS_PER_LONG) with None => Bug | Some w => Ret (Z.testbit w (ix mod BITS_PER_LONG)) end.
Definition set_bit (m : list Z) (ix : Z) : outcome (list Z) :=
  match zlookup m (ix / BITS_PER_LONG) with
  | None => Bug
  | Some w => Ret (<[Z.to_nat (ix / BITS_PER_LONG) := Z.lor w (2 ^ (ix mod BITS_PER_LONG))]> m)
  end.

Definition get_pstate (m : list Z) (pfn : Z) : outcome Z :=
  let! bit0 := test_bit m (PST_BIT0_IX pfn) in
  let! bit1 := test_bit m (PST_BIT1_IX pfn) in
  Ret (Z.lor (Z.shiftl (if bit1 then 1 else 0) 1) (if bit0 then 1 else 0)).

Definition set_pstate (m : list Z) (pfn pstate : Z) : outcome (list Z) :=
  let! m := if negb (Z.land pstate 1 =? 0) then set_bit m (PST_BIT0_IX pfn) else Ret m in
  if negb (Z.land pstate 2 =? 0) then set_bit m (PST_BIT1_IX pfn) else Ret m.

Definition DIV_ROUND_UP (n d : Z) : Z := u64 (n + d - 1) / d.
Definition map_items (size : Z) : Z := DIV_ROUND_UP (u64 (DIV_ROUND_UP size PAGE_SIZE * PST_BITS)) BITS_PER_LONG.

Section Areas.
Context (K : kernel) (tracking : bool).

Definition expand_shmem (al : list bool) (si : shmem_info) (new_size : Z) : outcome (bool * shmem_info * list bool) :=
  let old_size := si_size si in
  let si := set_size new_size (si_pstate si) si in
  if negb tracking then Ret (true, si, al)
  else
    let nr_map_items := map_items old_size in
    let nr_new_map_items := map_items new_size in
    if nr_new_map_items <? nr_map_items then Bug
    else
      let '(ok, al) := xalloc al in
      if negb ok then Ret (false, si, al)
      else
        Ret (true, set_size new_size (Some (take (Z.to_nat nr_map_items) (default [] (si_pstate si)) ++
                                            replicate (Z.to_nat (nr_new_map_items - nr_map_items)) 0)) si, al).

(** The loop over the pages of the VMA. *)
Fixpoint pmaps_loop (fuel : nat) (rd : list Z) (m : list Z) (p : pmc_t) (vma : vma_area) (vma_pfn vma_pgcnt vaddr : Z)
    : outcome (bool * list Z * pmc_t * list Z) :=
  if vma_pfn >=? vma_pgcnt then Ret (true, m, p, rd)
  else
    match fuel with
    | O => NoFuel
    | S fuel =>
        let! (info, p, rd) := should_dump_page K rd p vma vaddr in
        match info with
        | None => Ret (false, m, p, rd)
        | Some info =>
            if negb (next info =? vaddr)
            then pmaps_loop fuel rd m p vma (vma_pfn + 1) vma_pgcnt (u64 (u64 (next info - PAGE_SIZE) + PAGE_SIZE))
            else
              let shmem_pfn := u64 (vma_pfn + DIV_ROUND_UP (va_pgoff vma) PAGE_SIZE) in
              let! m := set_pstate m shmem_pfn (if softdirty info then PST_DIRTY else PST_DUMP) in
              pmaps_loop fuel rd m p vma (vma_pfn + 1) vma_pgcnt (u64 (vaddr + PAGE_SIZE))
        end
    end.

Definition update_shmem_pmaps (rd : list Z) (si : shmem_info) (p : pmc_t) (vma : vma_area)
    : outcome (bool * shmem_info * pmc_t * list Z) :=
  if negb tracking then Ret (true, si, p, rd)
  else
    let vma_pgcnt := DIV_ROUND_UP (u64 (si_size si - va_pgoff vma)) PAGE_SIZE in
    let! (ok, m, p, rd) := pmaps_loop (Z.to_nat vma_pgcnt) rd (default [] (si_pstate si)) p vma 0 vma_pgcnt (va_start vma) in
    Ret (ok, set_size (si_size si) (Some m) si, p, rd).

Definition add_shmem_area (al : list bool) (rd : list Z) (h : shmem_table) (p : pmc_t) (pid : Z) (vma : vma_area)
    : outcome (bool * shmem_table * pmc_t * list bool * list Z) :=
  let size := u64 (va_pgoff vma + u64 (va_end vma - va_start vma)) in
  let pid := if vma_entry_is vma VMA_AREA_SYSVIPC then SYSVIPC_SHMEM_PID else pid in
  match shmem_find h (va_shmid vma) with
  | Some si =>
      let! (ok, si, al) := if si_size si <? size then expand_shmem al si size else Ret (true, si, al) in
      let h := shmem_update h si in
      if negb ok then Ret (false, h, p, al, rd)
      else
        let! (ok, si, p, rd) := update_shmem_pmaps rd si p vma in
        Ret (ok, shmem_update h si, p, al, rd)
  | None =>
      let '(ok, al) := xalloc al in
      if negb ok then Ret (false, h, p, al, rd)
      else
        let si := ShmemInfo (va_shmid vma) pid 0 (va_start vma) (va_end vma) None 0 0 [] false in
        let h := shmem_hash_add h si in
        let! (ok, si, al) := expand_shmem al si size in
        let h := shmem_update h si in
        if negb ok then Ret (false, h, p, al, rd)
        else
          let! (ok, si, p, rd) := update_shmem_pmaps rd si p vma in
          Ret (ok, shmem_update h si, p, al, rd)
  end.
End Areas.

(** ** Restoring: who creates a segment *)
Definition pid_rst_prio (pid_a pid_b : Z) : bool := u32 pid_a <? u32 pid_b.

(** [None]: -1.  SysV mappings are only noted. *)
Definition collect_shmem (al : list bool) (h : shmem_table) (pid : Z) (vi : vma_area) : bool * shmem_table * list bool :=
  let size := u64 (u64 (va_pgoff vi + va_end vi) - va_start vi) in
  if vma_entry_is vi VMA_AREA_SYSVIPC then (true, h, al)
  else
    match shmem_find h (va_shmid vi) with
    | Some si =>
        if si_pid si =? SYSVIPC_SHMEM_PID then (false, h, al)
        else
          let size := if si_size si <? size then size else si_size si in
          let count := si_count si + 1 in
          if negb (pid_rst_prio pid (si_pid si)) then
            (true, shmem_update h (set_master (si_pid si) size count (if si_pid si =? pid then si_self_count si + 1 else si_self_count si) si), al)
          else (true, shmem_update h (set_master pid size count 1 si), al)
    | None =>
        let '(ok, al) := xalloc al in
        if negb ok then (false, h, al)
        else (true, shmem_hash_add h (ShmemInfo (va_shmid vi) pid size 0 0 None 1 1 [] false), al)
    end.

Definition collect_sysv_shmem (al : list bool) (h : shmem_table) (shmid size : Z) : bool * shmem_table * list bool :=
  let '(ok, al) := xalloc al in
  if negb ok then (false, h, al)
  else (true, shmem_hash_add h (ShmemInfo shmid SYSVIPC_SHMEM_PID size 0 0 None 0 0 [] false), al).

(** [rdwr]: the VMA has no descriptor flags or O_RDWR.  The answer has the
    value for [vme->fd], or an error.  A part of a segment without a first one
    takes the head of the empty list for an element: undefined, [Bug] here. *)
Definition open_shmem_sysv (al : list bool) (h : shmem_table) (vme : vma_area) (rdwr : bool) : outcome (option Z * shmem_table * list bool) :=
  match shmem_find h (va_shmid vme) with
  | None => Ret (None, h, al)
  | Some si =>
      if negb (si_pid si =? SYSVIPC_SHMEM_PID) then Ret (None, h, al)
      else if va_pgoff vme =? 0 then
        let '(ok, al) := xalloc al in
        if negb ok then Ret (None, h, al)
        else
          Ret (Some (si_shmid si),
               shmem_update h (set_att (ShmemAtt (va_start vme) (va_prot vme) (va_end vme) :: si_att si) (si_want_write si || rdwr) si), al)
      else
        match si_att si with
        | [] => Bug
        | att :: atts =>
            if negb (att_prev_end att =? va_start vme) then Ret (None, h, al)
            else if negb (va_pgoff vme =? u64 (att_prev_end att - att_start att)) then Ret (None, h, al)
            else
              Ret (Some SYSV_SHMEM_SKIP_FD,
                   shmem_update h (set_att (ShmemAtt (att_start att) (att_prot att) (va_end vme) :: atts) (si_want_write si || rdwr) si), al)
        end
  end.


(** The attachments of one segment: [None] if one does not reach the end. *)
Fixpoint fixup_atts (size : Z) (want_write : bool) (l : list shmem_sysv_att) : option (list shmem_sysv_att) :=
  match l with
  | [] => Some []
  | att :: l =>
      if negb (u64 (att_start att + round_up size PAGE_SIZE) =? att_prev_end att) then None
      else
        match fixup_atts size want_write l with
        | None => None
        | Some l => Some (ShmemAtt (att_start att) (if want_write then Z.lor (att_prot att) PROT_EXEC else att_prot att) (att_prev_end att) :: l)
        end
  end.

Fixpoint fixup_chain (l : list shmem_info) : option (list shmem_info) :=
  match l with
  | [] => Some []
  | si :: l =>
      if negb (si_pid si =? SYSVIPC_SHMEM_PID) then cons si <$> fixup_chain l
      else
        match fixup_atts (si_size si) (si_want_write si) (si_att si) with
        | None => None
        | Some atts => cons (set_att atts (si_want_write si) si) <$> fixup_chain l
        end
  end.
Fixpoint fixup_sysv_shmems (h : shmem_table) : option shmem_table :=
  match h with
  | [] => Some []
  | l :: h => match fixup_chain l with None => None | Some l => cons l <$> fixup_sysv_shmems h end
  end.

(** ** The table as a map *)
Definition table_ok (h : shmem_table) : Prop := length h = Z.to_nat SHMEM_HASH_SIZE.

Lemma chain_ix_lt shmid : (chain_ix shmid < Z.to_nat SHMEM_HASH_SIZE)%nat.
Proof. unfold chain_ix, SHMEM_HASH_SIZE. pose proof (Z.mod_pos_bound shmid 32 ltac:(lia)). lia. Qed.

Lemma table_ok_add h si : table_ok h -> table_ok (shmem_hash_add h si).
Proof. unfold table_ok, shmem_hash_add. by rewrite length_alter. Qed.
Lemma table_ok_update h si : table_ok h -> table_ok (shmem_update h si).
Proof. unfold table_ok, shmem_update. by rewrite length_alter. Qed.

Lemma chain_alter h f i shmid : table_ok h -> (alter f i h) !!! chain_ix shmid = if decide (i = chain_ix shmid) then f (shmem_chain h shmid) else shmem_chain h shmid.
Proof.
  intros Hh. unfold shmem_chain. pose proof (chain_ix_lt shmid). destruct (decide (i = chain_ix shmid)) as [->|Hne].
  - rewrite list_lookup_total_alter, decide_True; [done|]. unfold table_ok in Hh. lia.
  - by apply list_lookup_total_alter_ne.
Qed.

Lemma shmem_find_add h si shmid : table_ok h -> shmem_find (shmem_hash_add h si) shmid = if si_shmid si =? shmid then Some si else shmem_find h shmid.
Proof.
  intros Hh. unfold shmem_find at 1, shmem_chain, shmem_hash_add. rewrite chain_alter by done. destruct (Z.eqb_spec (si_shmid si) shmid) as [<-|Hne].
  - rewrite decide_True by done. cbn. by rewrite Z.eqb_refl.
  - destruct (decide _); [|done]. cbn. by destruct (Z.eqb_spec (si_shmid si) shmid).
Qed.

Lemma chain_find_update l si' shmid : chain_find (chain_update l si') shmid =
  if si_shmid si' =? shmid then (match chain_find l shmid with Some _ => Some si' | None => None end) else chain_find l shmid.
Proof.
  induction l as [|si l IH]; cbn; [by destruct (_ =? _)|]. destruct (Z.eqb_spec (si_shmid si) (si_shmid si')) as [E|E]; cbn.
  - rewrite E. by destruct (Z.eqb_spec (si_shmid si') shmid).
  - rewrite IH. destruct (Z.eqb_spec (si_shmid si') shmid), (Z.eqb_spec (si_shmid si) shmid); congruence.
Qed.

Lemma shmem_find_update h si shmid : table_ok h -> is_Some (shmem_find h (si_shmid si)) ->
  shmem_find (shmem_update h si) shmid = if si_shmid si =? shmid then Some si else shmem_find h shmid.
Proof.
  intros Hh [si0 H0]. unfold shmem_find at 1, shmem_chain, shmem_update. rewrite chain_alter by done. destruct (Z.eqb_spec (si_shmid si) shmid) as [<-|Hne].
  - rewrite decide_True by done. rewrite chain_find_update, Z.eqb_refl. unfold shmem_find in H0. by rewrite H0.
  - destruct (decide _); [|done]. rewrite chain_find_update. by destruct (Z.eqb_spec (si_shmid si) shmid).
Qed.

Lemma shmem_find_shmid h shmid si : shmem_find h shmid = Some si -> si_shmid si = shmid.
Proof.
  unfold shmem_find. induction (shmem_chain h shmid) as [|x l IH]; cbn; [done|]. destruct (Z.eqb_spec (si_shmid x) shmid); [by intros [= <-]|done].
Qed.

Lemma shmem_find_init shmid : shmem_find shmems_hash_init shmid = None.
Proof.
  unfold shmem_find, shmem_chain, shmems_hash_init. rewrite lookup_total_replicate_2; [done|]. apply chain_ix_lt.
Qed.

(** ** Page states *)

(** The bits of the map, [false] outside. *)
Definition map_bit (m : list Z) (ix : Z) : bool := match zlookup m (ix / BITS_PER_LONG) with None => false | Some w => Z.testbit w (ix mod BITS_PER_LONG) end.
Definition in_map (m : list Z) (pfn : Z) : Prop := 0 <= pfn /\ pfn * PST_BITS + 1 < zlen m * BITS_PER_LONG /\ zlen m * BITS_PER_LONG < 2 ^ 64.

Lemma bit_word m ix : 0 <= ix < zlen m * BITS_PER_LONG -> exists w, zlookup m (ix / BITS_PER_LONG) = Some w /\ test_bit m ix = Ret (map_bit m ix).
Proof.
  intros H. unfold BITS_PER_LONG in *. destruct (zlookup_is_Some m (ix / 64)) as [w Hw].
  { split; [apply Z.div_pos; lia|]. apply Z.div_lt_upper_bound; lia. }
  exists w. split; [done|]. unfold test_bit, map_bit, BITS_PER_LONG. by rewrite Hw.
Qed.

Lemma set_bit_ok m ix : 0 <= ix < zlen m * BITS_PER_LONG ->
  exists m', set_bit m ix = Ret m' /\ zlen m' = zlen m /\ forall j, 0 <= j -> map_bit m' j = map_bit m j || (j =? ix).
Proof.
  intros H. destruct (bit_word m ix H) as (w & Hw & _). unfold set_bit. rewrite Hw. eexists. split; [done|]. unfold BITS_PER_LONG in *.
  split; [unfold zlen; by rewrite length_insert|]. intros j Hj. unfold map_bit, BITS_PER_LONG, zlookup in *.
  pose proof (Z.div_pos ix 64 ltac:(lia) ltac:(lia)). pose proof (Z.div_pos j 64 ltac:(lia) ltac:(lia)).
  destruct (Z.ltb_spec (j / 64) 0); [lia|]. destruct (Z.ltb_spec (ix / 64) 0); [lia|].
  pose proof (Z.mod_pos_bound j 64 ltac:(lia)). pose proof (Z.mod_pos_bound ix 64 ltac:(lia)).
  pose proof (Z.div_mod j 64 ltac:(lia)). pose proof (Z.div_mod ix 64 ltac:(lia)).
  destruct (decide (j / 64 = ix / 64)) as [E|E].
  - rewrite E, list_lookup_insert_eq by (by eapply lookup_lt_Some). rewrite Hw, Z.lor_spec, Z.pow2_bits_eqb by lia. f_equal. apply eq_true_iff_eq. rewrite !Z.eqb_eq. lia.
  - rewrite list_lookup_insert_ne by lia. destruct (Z.eqb_spec j ix); [congruence|]. by rewrite orb_false_r.
Qed.

Definition page_state (m : list Z) (pfn : Z) : Z := Z.lor (Z.shiftl (if map_bit m (pfn * 2 + 1) then 1 else 0) 1) (if map_bit m (pfn * 2) then 1 else 0).

Lemma pst_ix m pfn : in_map m pfn -> PST_BIT0_IX pfn = pfn * 2 /\ PST_BIT1_IX pfn = pfn * 2 + 1 /\ 0 <= pfn * 2 /\ pfn * 2 + 1 < zlen m * BITS_PER_LONG.
Proof.
  intros (H1 & H2 & H3). unfold PST_BIT1_IX, PST_BIT0_IX, PST_BITS in *. rewrite (u64_small (pfn * 2)) by lia. rewrite u64_small by lia. lia.
Qed.

Lemma get_pstate_ok m pfn : in_map m pfn -> get_pstate m pfn = Ret (page_state m pfn).
Proof.
  intros H. destruct (pst_ix m pfn H) as (E1 & E2 & H1 & H2). unfold get_pstate. rewrite E1, E2.
  destruct (bit_word m (pfn * 2) ltac:(lia)) as (w & _ & ->). destruct (bit_word m (pfn * 2 + 1) ltac:(lia)) as (w' & _ & ->). done.
Qed.

(** Setting a state adds its bits to the page's and leaves the other pages. *)
Lemma set_pstate_ok m pfn st : in_map m pfn -> 0 <= st < 4 ->
  exists m', set_pstate m pfn st = Ret m' /\ zlen m' = zlen m /\
    forall q, 0 <= q -> page_state m' q = if q =? pfn then Z.lor (page_state m q) st else page_state m q.
Proof.
  intros H Hst. destruct (pst_ix m pfn H) as (E1 & E2 & H1 & H2). unfold set_pstate. rewrite E1, E2.
  destruct (set_bit_ok m (pfn * 2) ltac:(lia)) as (m1 & S1 & L1 & B1).
  destruct (set_bit_ok m (pfn * 2 + 1) ltac:(lia)) as (m2 & S2 & L2 & B2).
  destruct (set_bit_ok m1 (pfn * 2 + 1) ltac:(lia)) as (m3 & S3 & L3 & B3).
  assert (Hb : forall q, 0 <= q -> (q * 2 =? pfn * 2) = (q =? pfn) /\ (q * 2 + 1 =? pfn * 2) = false /\ (q * 2 =? pfn * 2 + 1) = false /\ (q * 2 + 1 =? pfn * 2 + 1) = (q =? pfn)).
  { intros q Hq. split_and!; try (apply eq_true_iff_eq; rewrite !Z.eqb_eq; lia); apply Z.eqb_neq; lia. }
  assert (Hc : st = 0 \/ st = 1 \/ st = 2 \/ st = 3) by lia. 
  destruct Hc as [-> |[-> |[-> | ->]]]; match goal with |- context [Z.land ?s 1] =>
    let a := eval compute in (negb (Z.land s 1 =? 0)) in let b := eval compute in (negb (Z.land s 2 =? 0)) in
    change (negb (Z.land s 1 =? 0)) with a; change (negb (Z.land s 2 =? 0)) with b end; cbn [obind].
  - exists m. split; [done|]. split; [done|]. intros q Hq. rewrite Z.lor_0_r. by destruct (_ =? _).
  - rewrite S1. exists m1. split; [done|]. split; [done|]. intros q Hq. unfold page_state. destruct (Hb q Hq) as (X1 & X2 & X3 & X4).
    rewrite !B1 by lia. rewrite X1, X2. destruct (q =? pfn), (map_bit m (q * 2 + 1)), (map_bit m (q * 2)); done.
  - rewrite S2. exists m2. split; [done|]. split; [done|]. intros q Hq. unfold page_state. destruct (Hb q Hq) as (X1 & X2 & X3 & X4).
    rewrite !B2 by lia. rewrite X3, X4. destruct (q =? pfn), (map_bit m (q * 2 + 1)), (map_bit m (q * 2)); done.
  - rewrite S1. cbn [obind]. rewrite S3. exists m3. split; [done|]. split; [lia|]. intros q Hq. unfold page_state. destruct (Hb q Hq) as (X1 & X2 & X3 & X4).
    rewrite !B3, !B1 by lia. rewrite X1, X2, X3, X4. destruct (q =? pfn), (map_bit m (q * 2 + 1)), (map_bit m (q * 2)); done.
Qed.

(** ** Who creates a segment *)
Fixpoint collect_all (al : list bool) (h : shmem_table) (l : list (Z * vma_area)) : bool * shmem_table * list bool :=
  match l with
  | [] => (true, h, al)
  | (pid, vi) :: l => let '(ok, h, al) := collect_shmem al h pid vi in if negb ok then (false, h, al) else collect_all al h l
  end.

Definition mapped_size (vi : vma_area) : Z := u64 (u64 (va_pgoff vi + va_end vi) - va_start vi).
Definition min_pid (es : list (Z * vma_area)) : Z := foldr (fun e m => Z.min (fst e) m) (2 ^ 31) es.
Definition max_size (es : list (Z * vma_area)) : Z := foldr (fun e m => Z.max (mapped_size (snd e)) m) 0 es.

(** The mappings [l] of one segment, put together. *)
Definition master_of (shmid : Z) (es : list (Z * vma_area)) : option shmem_info :=
  match es with
  | [] => None
  | _ => Some (ShmemInfo shmid (min_pid es) (max_size es) 0 0 None (zlen es) (zlen (filter (fun e => fst e = min_pid es) es)) [] false)
  end.

Definition anon_mapping (shmid : Z) (e : Z * vma_area) : Prop := vma_entry_is (snd e) VMA_AREA_SYSVIPC = false /\ va_shmid (snd e) = shmid.
#[global] Instance anon_mapping_dec shmid e : Decision (anon_mapping shmid e).
Proof. unfold anon_mapping. apply _. Defined.

Lemma min_pid_snoc es e : min_pid (es ++ [e]) = Z.min (min_pid es) (Z.min (fst e) (2 ^ 31)).
Proof. induction es as [|x es IH]; cbn [app min_pid foldr]; [lia|]. unfold min_pid in IH. rewrite IH. lia. Qed.
Lemma max_size_snoc es e : max_size (es ++ [e]) = Z.max (max_size es) (mapped_size (snd e)).
Proof.
  pose proof (u64_range (u64 (va_pgoff (snd e) + va_end (snd e)) - va_start (snd e))). induction es as [|x es IH]; cbn [app max_size foldr]; [unfold mapped_size; lia|].
  unfold max_size in IH. rewrite IH. lia.
Qed.
Lemma min_pid_le es : Forall (fun e => min_pid es <= fst e) es.
Proof. induction es as [|x es IH]; [constructor|]. cbn [min_pid foldr]. constructor; [lia|]. eapply Forall_impl; [exact IH|]. unfold min_pid. cbn. lia. Qed.

Lemma min_pid_range es : Forall (fun e : Z * vma_area => 0 <= fst e < 2 ^ 31) es -> 0 <= min_pid es <= 2 ^ 31 /\ (es <> [] -> min_pid es < 2 ^ 31).
Proof. induction 1 as [|x es Hx _ IH]; [done|]. cbn [min_pid foldr]. unfold min_pid in IH. split; [lia|]. intros _. lia. Qed.

Lemma master_nonempty shmid es : es <> [] -> master_of shmid es =
  Some (ShmemInfo shmid (min_pid es) (max_size es) 0 0 None (zlen es) (zlen (filter (fun e => fst e = min_pid es) es)) [] false).
Proof. by destruct es. Qed.

(** One more mapping of the segment. *)
Lemma master_snoc shmid es pid vi si : Forall (fun e : Z * vma_area => 0 <= fst e < 2 ^ 31) es -> 0 <= pid < 2 ^ 31 ->
  master_of shmid es = Some si ->
  master_of shmid (es ++ [(pid, vi)]) =
    Some (if pid <? si_pid si then set_master pid (Z.max (si_size si) (mapped_size vi)) (si_count si + 1) 1 si
          else set_master (si_pid si) (Z.max (si_size si) (mapped_size vi)) (si_count si + 1) (if si_pid si =? pid then si_self_count si + 1 else si_self_count si) si).
Proof.
  intros Hes Hpid Hm. destruct (min_pid_range es Hes) as [R1 R2]. pose proof (min_pid_le es) as Hle.
  assert (Hne : es <> []) by (by intros ->). specialize (R2 Hne). rewrite master_nonempty in Hm by done. apply Some_inj in Hm. subst si.
  rewrite master_nonempty by (by destruct es). f_equal. unfold set_master. cbn [si_shmid si_pid si_size si_start si_end si_pstate si_count si_self_count si_att si_want_write].
  rewrite min_pid_snoc, max_size_snoc. cbn [fst snd]. rewrite (Z.min_l pid (2 ^ 31)) by lia.
  assert (Ez : zlen (es ++ [(pid, vi)]) = zlen es + 1) by (by rewrite zlen_app). rewrite Ez.
  destruct (Z.ltb_spec pid (min_pid es)) as [Hlt|Hge].
  - rewrite (Z.min_r (min_pid es) pid) by lia. f_equal. rewrite filter_app, zlen_app.
    assert (E0 : filter (fun e : Z * vma_area => fst e = pid) es = []).
    { clear -Hle Hlt. remember (min_pid es) as m eqn:Em. clear Em. induction Hle as [|x l Hx _ IH]; [done|]. rewrite filter_cons_False by lia. done. }
    rewrite E0. rewrite filter_cons_True by done. done.
  - rewrite (Z.min_l (min_pid es) pid) by lia. f_equal. rewrite filter_app, zlen_app. destruct (Z.eqb_spec (min_pid es) pid) as [Eq|Hne2].
    + rewrite filter_cons_True by (cbn; congruence). done.
    + rewrite (filter_cons_False) by (cbn; congruence). cbn. unfold zlen. cbn. lia.
Qed.

Definition table_spec (h : shmem_table) (l : list (Z * vma_area)) : Prop :=
  table_ok h /\ forall shmid, shmem_find h shmid = master_of shmid (filter (anon_mapping shmid) l).

Lemma collect_shmem_step al h pid vi l : table_spec h l -> Forall (fun e : Z * vma_area => 0 <= fst e < 2 ^ 31) l -> 0 <= pid < 2 ^ 31 ->
  let '(ok, h', al') := collect_shmem al h pid vi in (ok = true -> table_spec h' (l ++ [(pid, vi)])) /\ (al = [] -> ok = true /\ al' = []).
Proof.
  intros [Ht Hs] Hl Hpid. unfold collect_shmem. fold (mapped_size vi).
  assert (Hother : forall shmid, ~ anon_mapping shmid (pid, vi) -> filter (anon_mapping shmid) (l ++ [(pid, vi)]) = filter (anon_mapping shmid) l).
  { intros shmid Hn. rewrite filter_app, filter_cons_False by done. by rewrite app_nil_r. }
  destruct (vma_entry_is vi VMA_AREA_SYSVIPC) eqn:Esv.
  { split; [|done]. intros _. split; [done|]. intros shmid. rewrite Hother; [done|]. intros [H _]. cbn in H. congruence. }
  assert (Hself : filter (anon_mapping (va_shmid vi)) (l ++ [(pid, vi)]) = filter (anon_mapping (va_shmid vi)) l ++ [(pid, vi)]).
  { rewrite filter_app, filter_cons_True by done. done. }
  set (es := filter (anon_mapping (va_shmid vi)) l) in *.
  assert (Hes : Forall (fun e : Z * vma_area => 0 <= fst e < 2 ^ 31) es).
  { apply Forall_forall. intros e He. apply list_elem_of_filter in He as [_ He]. rewrite Forall_forall in Hl. by apply Hl. }
  assert (Hget : forall h', table_ok h' -> (forall shmid, shmem_find h' shmid = if va_shmid vi =? shmid then master_of (va_shmid vi) (es ++ [(pid, vi)]) else shmem_find h shmid) ->
    table_spec h' (l ++ [(pid, vi)])).
  { intros h' Ht' Hf. split; [done|]. intros shmid. rewrite Hf. destruct (Z.eqb_spec (va_shmid vi) shmid) as [<-|Hne]; [by rewrite Hself|].
    rewrite Hother; [apply Hs|]. intros [_ H]. cbn in H. congruence. }
  rewrite (Hs (va_shmid vi)). fold es. destruct (master_of (va_shmid vi) es) as [si|] eqn:Em.
  - pose proof (master_snoc _ es pid vi si Hes Hpid Em) as Hsnoc. assert (Esi : si_shmid si = va_shmid vi).
    { apply (shmem_find_shmid h). by rewrite (Hs (va_shmid vi)). }
    assert (Hsp : 0 <= si_pid si < 2 ^ 31).
    { destruct (min_pid_range es Hes) as [R1 R2]. assert (Hne : es <> []) by (intros E0; rewrite E0 in Em; done). specialize (R2 Hne).
      rewrite master_nonempty in Em by done. apply Some_inj in Em. rewrite <- Em. cbn [si_pid]. lia. }
    destruct (Z.eqb_spec (si_pid si) SYSVIPC_SHMEM_PID) as [E|_]; [unfold SYSVIPC_SHMEM_PID in E; lia|].
    unfold pid_rst_prio. rewrite !u32_small by lia.
    assert (Esz : (if si_size si <? mapped_size vi then mapped_size vi else si_size si) = Z.max (si_size si) (mapped_size vi)) by (destruct (Z.ltb_spec (si_size si) (mapped_size vi)); lia).
    rewrite Esz. assert (Hfound : is_Some (shmem_find h (va_shmid vi))) by (rewrite (Hs (va_shmid vi)); fold es; by rewrite Em).
    destruct (pid <? si_pid si); cbn [negb]; (split; [|done]); intros _; apply Hget; try by apply table_ok_update.
    all: intros shmid; rewrite shmem_find_update by (cbn [set_master si_shmid]; by rewrite ?Esi); cbn [set_master si_shmid]; rewrite Esi, Hsnoc; done.
  - destruct (xalloc al) as [ok al1] eqn:Ea. destruct ok; cbn [negb]; [|split; [done|intros ->; done]].
    split; [|intros ->; by injection Ea as <-]. intros _. apply Hget; [by apply table_ok_add|]. intros shmid. rewrite shmem_find_add by done. cbn [si_shmid].
    destruct (_ =? _); [|done]. unfold master_of in Em. destruct es as [|]; [|done]. cbn [app]. unfold master_of, min_pid, max_size. cbn [foldr fst snd].
    pose proof (u64_range (u64 (va_pgoff vi + va_end vi) - va_start vi)) as Hu. fold (mapped_size vi) in Hu. rewrite Z.min_l, Z.max_l by lia. rewrite filter_cons_True by done. done.
Qed.

Lemma collect_all_spec l : forall al h l0, table_spec h l0 -> Forall (fun e : Z * vma_area => 0 <= fst e < 2 ^ 31) (l0 ++ l) ->
  let '(ok, h', al') := collect_all al h l in (ok = true -> table_spec h' (l0 ++ l)) /\ (al = [] -> ok = true).
Proof.
  induction l as [|[pid vi] l IH]; intros al h l0 Hs Hl; cbn [collect_all]; [by rewrite app_nil_r|].
  apply Forall_app in Hl as [Hl0 Hl]. apply Forall_cons_1 in Hl as [Hp Hl]. cbn in Hp.
  pose proof (collect_shmem_step al h pid vi l0 Hs Hl0 Hp) as Hstep. destruct (collect_shmem al h pid vi) as [[ok h1] al1]. destruct Hstep as [H1 H2].
  destruct ok; cbn [negb]; [|split; [done|intros E; by destruct (H2 E)]]. specialize (H1 eq_refl).
  specialize (IH al1 h1 (l0 ++ [(pid, vi)]) H1). rewrite <- app_assoc in IH. cbn [app] in IH. specialize (IH ltac:(apply Forall_app; split; [done|]; by apply Forall_cons_2)).
  destruct (collect_all al1 h1 l) as [[ok h'] al']. destruct IH as [I1 I2]. split; [done|]. intros E. apply I2. by destruct (H2 E).
Qed.

Lemma master_of_perm shmid es es' : es ≡ₚ es' -> master_of shmid es = master_of shmid es'.
Proof.
  intros Hp. destruct (decide (es = [])) as [->|Hne]; [by apply Permutation_nil in Hp as ->|].
  assert (Hne' : es' <> []) by (intros ->; symmetry in Hp; by apply Permutation_nil in Hp).
  assert (Em : min_pid es = min_pid es').
  { clear Hne Hne'. induction Hp; cbn [min_pid foldr] in *; unfold min_pid in *; lia. }
  assert (Ex : max_size es = max_size es').
  { clear Hne Hne' Em. induction Hp; cbn [max_size foldr] in *; unfold max_size in *; lia. }
  rewrite !master_nonempty by done. rewrite Em, Ex. unfold zlen. by rewrite Hp.
Qed.

(** C4. Who creates a shared segment.  After any sequence of [collect_shmem]
    calls for the mappings of the processes (process and VMA, in any order),
    the table has, for every segment that is mapped, the lowest pid that maps
    it, the largest extent mapped, the number of mappings and how many of them
    are the creator's own, and nothing for other segments; the SysV mappings
    are left out.  So the creator, waiting for [count - self_count] others,
    waits for exactly the mappings of the other processes.  The result is the
    same for any order of the calls, and the calls fail only for lack of
    memory. *)
Theorem collect_shmem_correct al l : Forall (fun e : Z * vma_area => 0 <= fst e < 2 ^ 31) l ->
  let '(ok, h, _) := collect_all al shmems_hash_init l in
  (ok = true -> forall shmid, shmem_find h shmid = master_of shmid (filter (anon_mapping shmid) l) /\
     (forall si, shmem_find h shmid = Some si -> si_count si - si_self_count si = zlen (filter (fun e => anon_mapping shmid e /\ fst e <> si_pid si) l)) /\
     forall al' l', l' ≡ₚ l -> let '(ok', h', _) := collect_all al' shmems_hash_init l' in ok' = true -> shmem_find h' shmid = shmem_find h shmid) /\
  (al = [] -> ok = true).
Proof.
  intros Hl. assert (H0 : table_spec shmems_hash_init []) by (split; [by unfold table_ok, shmems_hash_init; rewrite length_replicate|]; intros shmid; by rewrite shmem_find_init).
  pose proof (collect_all_spec l al shmems_hash_init [] H0 Hl) as H. destruct (collect_all al shmems_hash_init l) as [[ok h] al1]. destruct H as [H1 H2].
  split; [|done]. intros Hok shmid. destruct (H1 Hok) as [Ht Hs]. cbn [app] in Hs. split; [apply Hs|]. split.
  - intros si Hsi. rewrite Hs in Hsi. set (es := filter (anon_mapping shmid) l) in *. assert (Hne : es <> []) by (intros E; rewrite E in Hsi; done).
    rewrite master_nonempty in Hsi by done. apply Some_inj in Hsi. subst si. cbn [si_count si_self_count si_pid].
    generalize (min_pid es) as m. unfold es. clear. intros m. induction l as [|e l IH]; [done|].
    destruct (decide (anon_mapping shmid e)) as [Ha|Ha].
    + rewrite !(filter_cons_True (anon_mapping shmid)) by done. destruct (decide (fst e = m)) as [Em|Em].
      * rewrite (filter_cons_True (fun e => fst e = m)) by done. rewrite (filter_cons_False (fun e => anon_mapping shmid e /\ fst e <> m)) by tauto. unfold zlen in *. cbn [length]. lia.
      * rewrite (filter_cons_False (fun e => fst e = m)) by done. rewrite (filter_cons_True (fun e => anon_mapping shmid e /\ fst e <> m)) by done. unfold zlen in *. cbn [length]. lia.
    + rewrite !(filter_cons_False (anon_mapping shmid)) by done. rewrite (filter_cons_False (fun e => anon_mapping shmid e /\ fst e <> m)) by tauto. done.
  - intros al' l' Hperm. pose proof (collect_all_spec l' al' shmems_hash_init [] H0) as H'. cbn [app] in H'. specialize (H' ltac:(by rewrite Hperm)).
    destruct (collect_all al' shmems_hash_init l') as [[ok' h'] al2]. intros Hok'. destruct H' as [H' _]. destruct (H' Hok') as [_ Hs']. rewrite Hs, Hs'.
    by apply master_of_perm, filter_Permutation.
Qed.

(** ** SysV segments *)

(** The VMAs of one segment, opened in order; [rdwr] as in [open_shmem_sysv]. *)
Fixpoint open_all (al : list bool) (h : shmem_table) (l : list (vma_area * bool)) : outcome (bool * shmem_table * list bool) :=
  match l with
  | [] => Ret (true, h, al)
  | (vme, rdwr) :: l =>
      let! (fd, h, al) := open_shmem_sysv al h vme rdwr in
      match fd with None => Ret (false, h, al) | Some _ => open_all al h l end
  end.

(** VMAs one behind the other, from [cur] to [stop], that map the segment from
    where they are relative to [first]. *)
Fixpoint tiles (first cur : Z) (l : list vma_area) (stop : Z) : Prop :=
  match l with
  | [] => cur = stop
  | v :: l => va_start v = cur /\ va_pgoff v = cur - first /\ tiles first (va_end v) l stop
  end.

Lemma tiles_snoc first cur l v stop : tiles first cur l (va_start v) -> va_pgoff v = va_start v - first -> va_end v = stop -> tiles first cur (l ++ [v]) stop.
Proof.
  revert cur. induction l as [|w l IH]; intros cur H1 H2 H3; cbn [tiles app] in *; [subst; done|]. destruct H1 as (A & B & C). split; [done|]. split; [done|]. by apply IH.
Qed.

Definition att_of (att : shmem_sysv_att) (g : list vma_area) : Prop :=
  g <> [] /\ tiles (att_start att) (att_start att) g (att_prev_end att) /\ 0 <= att_start att <= att_prev_end att /\ att_prev_end att < 2 ^ 63.

(** What the table knows after the VMAs [vs] of segment [shmid]. *)
Definition sysv_inv (shmid size : Z) (h : shmem_table) (vs : list vma_area) : Prop :=
  table_ok h /\ exists si gs, shmem_find h shmid = Some si /\ si_pid si = SYSVIPC_SHMEM_PID /\ si_size si = size /\ vs = concat gs /\ Forall2 att_of (si_att si) (rev gs).

Lemma open_shmem_sysv_inv shmid size al h vs v rdwr fd h' al' : sysv_inv shmid size h vs -> va_shmid v = shmid -> 0 <= va_start v < va_end v -> va_end v < 2 ^ 63 ->
  open_shmem_sysv al h v rdwr = Ret (Some fd, h', al') -> sysv_inv shmid size h' (vs ++ [v]).
Proof.
  intros (Ht & si & gs & Hf & Hp & Hs & Hv & Ha) Hid Hr Hb. unfold open_shmem_sysv. rewrite Hid, Hf, Hp. cbn [Z.eqb negb].
  change (SYSVIPC_SHMEM_PID =? SYSVIPC_SHMEM_PID) with true. cbn [negb]. pose proof (shmem_find_shmid _ _ _ Hf) as Esi.
  assert (Hup : forall atts w, let si' := set_att atts w si in table_ok (shmem_update h si') /\ shmem_find (shmem_update h si') shmid = Some si').
  { intros atts w si'. split; [by apply table_ok_update|]. rewrite shmem_find_update; [|done|cbn; rewrite Esi; by eexists]. cbn. by rewrite Esi, Z.eqb_refl. }
  destruct (Z.eqb_spec (va_pgoff v) 0) as [E0|Hne].
  - destruct (xalloc al) as [[] al1]; cbn [negb]; [|done]. intros [= _ <- _]. destruct (Hup (ShmemAtt (va_start v) (va_prot v) (va_end v) :: si_att si) (si_want_write si || rdwr)) as [U1 U2].
    split; [done|]. eexists _, (gs ++ [[v]]). split; [exact U2|]. split; [done|]. split; [done|]. split; [by rewrite Hv, concat_app|].
    cbn [si_att set_att]. rewrite rev_app_distr. cbn [rev app]. constructor; [|done]. unfold att_of. cbn. split; [done|]. split; [|lia]. split; [done|]. split; [lia|done].
  - destruct (si_att si) as [|att atts] eqn:Eatt; [done|]. destruct (Z.eqb_spec (att_prev_end att) (va_start v)) as [E1|]; cbn [negb]; [|done].
    destruct (Z.eqb_spec (va_pgoff v) (u64 (att_prev_end att - att_start att))) as [E2|]; cbn [negb]; [|done]. intros [= _ <- _].
    destruct (Hup (ShmemAtt (att_start att) (att_prot att) (va_end v) :: atts) (si_want_write si || rdwr)) as [U1 U2]. split; [done|].
    inversion Ha as [|a0 g l1 l2 Hag Hrest Ea El]; subst a0 l1. destruct Hag as (G1 & G2 & G3 & G4). rewrite u64_small in E2 by lia.
    assert (Egs : gs = rev l2 ++ [g]) by (rewrite <- (rev_involutive gs), <- El; done). eexists _, (rev l2 ++ [g ++ [v]]).
    split; [exact U2|]. split; [done|]. split; [done|]. split; [rewrite Hv, Egs, !concat_app; cbn; by rewrite !app_nil_r, app_assoc|].
    cbn [si_att set_att]. rewrite rev_app_distr, rev_involutive. cbn [rev app]. constructor; [|done]. unfold att_of. cbn.
    split; [by destruct g|]. split; [|lia]. apply tiles_snoc; [by rewrite <- E1|lia|done].
Qed.

Lemma open_all_inv shmid size l : Forall (fun e : vma_area * bool => va_shmid (fst e) = shmid /\ 0 <= va_start (fst e) < va_end (fst e) /\ va_end (fst e) < 2 ^ 63) l ->
  forall al h vs h' al', sysv_inv shmid size h vs -> open_all al h l = Ret (true, h', al') -> sysv_inv shmid size h' (vs ++ (fst <$> l)).
Proof.
  induction 1 as [|[v rdwr] l (H1 & H2 & H3) _ IH]; intros al h vs h' al' Hinv; cbn [open_all]; [intros [= <- _]; by rewrite app_nil_r|].
  destruct (open_shmem_sysv al h v rdwr) as [[[[fd|] h1] al1]| |] eqn:E; cbn [obind]; [|done..]. intros Hrun.
  pose proof (open_shmem_sysv_inv _ _ _ _ _ _ _ _ _ _ Hinv H1 H2 H3 E) as Hinv1. pose proof (IH _ _ _ _ _ Hinv1 Hrun) as Hr. cbn [fmap list_fmap fst]. by rewrite <- app_assoc in Hr.
Qed.

Lemma fixup_find h h' shmid si : fixup_sysv_shmems h = Some h' -> shmem_find h shmid = Some si -> si_pid si = SYSVIPC_SHMEM_PID ->
  is_Some (fixup_atts (si_size si) (si_want_write si) (si_att si)).
Proof.
  intros Hx Hf Hp. unfold shmem_find, shmem_chain in Hf. destruct (h !! chain_ix shmid) as [l|] eqn:El; [|rewrite list_lookup_total_alt, El in Hf; done].
  rewrite (list_lookup_total_correct _ _ _ El) in Hf. clear -Hx Hf Hp El. generalize dependent (chain_ix shmid). intros i Hi.
  revert h' i Hx Hi. induction h as [|l0 h IH]; intros h' i Hx Hi; [done|]. cbn [fixup_sysv_shmems] in Hx. destruct (fixup_chain l0) as [l0'|] eqn:Ec; [|done].
  destruct i as [|i]; cbn in Hi.
  - injection Hi as ->. clear -Ec Hf Hp. revert l0' Ec Hf. induction l as [|x l IH]; intros l0' Ec Hf; [done|]. cbn [chain_find] in Hf. cbn [fixup_chain] in Ec. destruct (Z.eqb_spec (si_shmid x) shmid).
    + injection Hf as ->. rewrite Hp in Ec. change (SYSVIPC_SHMEM_PID =? SYSVIPC_SHMEM_PID) with true in Ec. cbn [negb] in Ec.
      destruct (fixup_atts _ _ _); [by eexists|done].
    + destruct (negb _); [|destruct (fixup_atts (si_size x) _ _); [|done]]; (destruct (fixup_chain l) as [l1|]; [|done]); by eapply IH.
  - destruct (fixup_sysv_shmems h) as [h1|]; [|done]. by eapply IH.
Qed.

Lemma fixup_atts_ends size w l : is_Some (fixup_atts size w l) -> Forall (fun att => u64 (att_start att + round_up size PAGE_SIZE) = att_prev_end att) l.
Proof.
  induction l as [|att l IH]; intros [l' H]; [constructor|]. cbn [fixup_atts] in H. destruct (Z.eqb_spec (u64 (att_start att + round_up size PAGE_SIZE)) (att_prev_end att)); cbn [negb] in H; [|done].
  constructor; [done|]. apply IH. destruct (fixup_atts size w l); [by eexists|done].
Qed.

Lemma round_up_range size : 0 < size < 2 ^ 62 -> 0 <= round_up size PAGE_SIZE <= 2 ^ 62.
Proof.
  intros H. unfold round_up. rewrite (u64_small (size - 1)) by lia. pose proof (lor_range (size - 1) (PAGE_SIZE - 1) 62 ltac:(lia) ltac:(lia) ltac:(unfold PAGE_SIZE; lia)).
  rewrite u64_small by lia. lia.
Qed.

(** What of SysV shared memory can be restored.  The restorer attaches a SysV
    segment with one shmat() where its first VMA was; the other VMAs of the
    attachment are left to it.  If [open_shmem_sysv] accepted all the VMAs of a
    segment, in the order of the process's list, and [fixup_sysv_shmems] found
    nothing wrong, then these VMAs fall into attachments that each start at
    offset 0, have no hole, map the segment in order, and end with its last
    page: what one shmat() maps. *)
Theorem sysv_attachments_whole shmid size al h l h' al' h'' : table_ok h ->
  (exists si, shmem_find h shmid = Some si /\ si_pid si = SYSVIPC_SHMEM_PID /\ si_size si = size /\ si_att si = []) -> 0 < size < 2 ^ 62 ->
  Forall (fun e : vma_area * bool => va_shmid (fst e) = shmid /\ 0 <= va_start (fst e) < va_end (fst e) /\ va_end (fst e) < 2 ^ 63) l ->
  open_all al h l = Ret (true, h', al') -> fixup_sysv_shmems h' = Some h'' ->
  exists gs, fst <$> l = concat gs /\ Forall (fun g => exists first, g <> [] /\ tiles first first g (first + round_up size PAGE_SIZE)) gs.
Proof.
  intros Ht (si & Hf & Hp & Hs & Ha) Hsz Hl Hrun Hfix. assert (H0 : sysv_inv shmid size h []).
  { split; [done|]. exists si, []. rewrite Ha. done. }
  pose proof (open_all_inv shmid size l Hl _ _ _ _ _ H0 Hrun) as (_ & si' & gs & Hf' & Hp' & Hs' & Hv & Hatt). cbn [app] in Hv. exists gs. split; [done|].
  pose proof (fixup_atts_ends _ _ _ (fixup_find _ _ _ _ Hfix Hf' Hp')) as Hends. rewrite Hs' in Hends. pose proof (round_up_range size Hsz) as Hru.
  rewrite <- (rev_involutive gs). apply Forall_rev. revert Hends. induction Hatt as [|att g atts gs' (G1 & G2 & G3 & G4) _ IH]; intros Hends; [constructor|].
  apply Forall_cons_1 in Hends as [He Hends]. constructor; [|by apply IH]. exists (att_start att). split; [done|]. rewrite u64_small in He by lia. by rewrite He.
Qed.

(** ** Dumping: the areas of a process *)

(** Without tracking, which is the default, an area only extends its segment. *)
Lemma add_shmem_area_untracked K al rd h p pid vma : table_ok h ->
  exists ok h' al', add_shmem_area K false al rd h p pid vma = Ret (ok, h', p, al', rd) /\ table_ok h' /\ (al = [] -> ok = true /\ al' = []) /\
    (ok = true -> (forall shmid, shmid <> va_shmid vma -> shmem_find h' shmid = shmem_find h shmid) /\
       exists si, shmem_find h' (va_shmid vma) = Some si /\
         si_size si = Z.max (match shmem_find h (va_shmid vma) with Some s => si_size s | None => 0 end) (u64 (va_pgoff vma + u64 (va_end vma - va_start vma)))).
Proof.
  intros Ht. unfold add_shmem_area, update_shmem_pmaps, expand_shmem. cbn [negb]. pose proof (u64_range (va_pgoff vma + u64 (va_end vma - va_start vma))) as Hu.
  assert (Hupd : forall si h0, table_ok h0 -> si_shmid si = va_shmid vma -> is_Some (shmem_find h0 (va_shmid vma)) ->
    table_ok (shmem_update (shmem_update h0 si) si) /\ (forall shmid, shmid <> va_shmid vma -> shmem_find (shmem_update (shmem_update h0 si) si) shmid = shmem_find h0 shmid) /\
    shmem_find (shmem_update (shmem_update h0 si) si) (va_shmid vma) = Some si).
  { intros si h0 H0 E Hf. assert (Hf1 : is_Some (shmem_find (shmem_update h0 si) (si_shmid si))) by (rewrite shmem_find_update, Z.eqb_refl by (rewrite ?E; done); by eexists).
    split; [by apply table_ok_update, table_ok_update|]. split.
    - intros shmid Hne. rewrite !shmem_find_update by (try apply table_ok_update; rewrite ?E; rewrite ?E in Hf1; done). destruct (Z.eqb_spec (si_shmid si) shmid); [congruence|done].
    - rewrite !shmem_find_update by (try apply table_ok_update; rewrite ?E; rewrite ?E in Hf1; done). by rewrite E, Z.eqb_refl. }
  destruct (shmem_find h (va_shmid vma)) as [si|] eqn:Ef.
  - pose proof (shmem_find_shmid _ _ _ Ef) as Eid. assert (Hs : is_Some (shmem_find h (va_shmid vma))) by (rewrite Ef; by eexists).
    destruct (Z.ltb_spec (si_size si) (u64 (va_pgoff vma + u64 (va_end vma - va_start vma)))); cbn [obind negb];
      (match goal with |- context [shmem_update (shmem_update h ?s) ?s] => destruct (Hupd s h Ht Eid Hs) as (U1 & U2 & U3) end);
      (eexists _, _, _; split; [done|]; split; [done|]; split; [done|]; intros _; split; [done|]; eexists; split; [exact U3|]; cbn; lia).
  - destruct (xalloc al) as [ok al1] eqn:Ea. destruct ok; cbn [negb obind].
    2:{ eexists _, _, _. split; [done|]. split; [done|]. split; [intros ->; done|done]. }
    set (si0 := ShmemInfo _ _ 0 _ _ _ _ _ _ _). assert (Hs : is_Some (shmem_find (shmem_hash_add h si0) (va_shmid vma))) by (rewrite shmem_find_add, Z.eqb_refl by done; by eexists).
    match goal with |- context [shmem_update (shmem_update ?g ?s) ?s] => destruct (Hupd s g ltac:(by apply table_ok_add) eq_refl Hs) as (U1 & U2 & U3) end.
    eexists _, _, _. split; [done|]. split; [done|]. split; [intros ->; by injection Ea as <-|]. intros _. split.
    + intros shmid Hne. rewrite U2 by done. rewrite shmem_find_add by done. cbn [si_shmid si0]. destruct (Z.eqb_spec (va_shmid vma) shmid); [congruence|done].
    + eexists. split; [exact U3|]. cbn. lia.
Qed.

(** ** What the code misses *)

(** With tracking and PAGEMAP_SCAN the index of the page stays behind its
    address when pages are skipped: of four pages only the third is there, the
    second and, because the address has run past the VMA, the fourth are
    marked. *)
Definition tracked_vma : vma_area := VmaArea 0x1000 0x5000 1 (Z.lor VMA_AREA_REGULAR VMA_ANON_SHARED) 3 0 7.
Definition tracked_kernel : kernel := Kernel (fun _ => 0) (page_scan (fun a => if PAGE_PFN a =? 3 then PAGE_IS_PRESENT else 0)) 99 (2 ^ 47 - PAGE_SIZE) true.
Example tracking_marks_wrong_page :
  match add_shmem_area tracked_kernel true [] [] shmems_hash_init (sample_cache true) 10 tracked_vma with
  | Ret (true, h, _, _, _) => match shmem_find h 7 with Some si => page_state (default [] (si_pstate si)) <$> [0; 1; 2; 3] = [0; PST_DUMP; 0; PST_DUMP] | None => False end
  | _ => False
  end.
Proof. vm_compute. reflexivity. Qed.

(** With tracking, the second process that maps a part of the segment runs the
    loop past the end of its VMA, into the BUG_ON of [pmc_fill]. *)
Definition small_vma : vma_area := VmaArea 0x1000 0x2000 1 (Z.lor VMA_AREA_REGULAR VMA_ANON_SHARED) 3 0 7.
Example tracking_part_of_segment_crashes :
  match add_shmem_area tracked_kernel true [] [] shmems_hash_init (sample_cache true) 10 tracked_vma with
  | Ret (true, h, _, _, _) => add_shmem_area tracked_kernel true [] [] h (sample_cache true) 11 small_vma = Bug
  | _ => False
  end.
Proof. vm_compute. reflexivity. Qed.

(** A SysV segment whose first page was unmapped: the list of attachments is
    empty, and its head is used as an attachment. *)
Example sysv_without_start :
  match collect_sysv_shmem [] shmems_hash_init 7 0x2000 with
  | (_, h, _) => open_shmem_sysv [] h (VmaArea 0x2000 0x3000 1 (Z.lor (Z.lor VMA_AREA_REGULAR VMA_AREA_SYSVIPC) VMA_ANON_SHARED) 3 0x1000 7) true = Bug
  end.
Proof. vm_compute. reflexivity. Qed.

(** ** Witnesses *)
Definition map_of (shmid pgoff start end_ : Z) : vma_area := VmaArea start end_ 1 (Z.lor VMA_AREA_REGULAR VMA_ANON_SHARED) 3 pgoff shmid.

Lemma collect_shmem_correct_witness :
  match collect_all [] shmems_hash_init [(12, map_of 5 0 0x1000 0x3000); (10, map_of 5 0x1000 0x8000 0xa000); (10, map_of 37 0 0x1000 0x2000); (11, map_of 5 0 0x1000 0x2000)] with
  | (true, h, _) => shmem_find h 5 = Some (ShmemInfo 5 10 0x3000 0 0 None 3 1 [] false)
  | _ => False
  end.
Proof.
  pose proof (collect_shmem_correct [] [(12, map_of 5 0 0x1000 0x3000); (10, map_of 5 0x1000 0x8000 0xa000); (10, map_of 37 0 0x1000 0x2000); (11, map_of 5 0 0x1000 0x2000)]
    ltac:(repeat (apply Forall_cons_2; [cbn; lia|]); apply Forall_nil_2)) as H.
  destruct (collect_all [] shmems_hash_init _) as [[ok h] al]. destruct H as [H1 H2]. specialize (H2 eq_refl). subst ok. destruct (H1 eq_refl 5) as [H3 _]. rewrite H3. vm_compute. reflexivity.
Defined.

Definition sysv_vma (pgoff start end_ : Z) : vma_area := VmaArea start end_ 1 (Z.lor (Z.lor VMA_AREA_REGULAR VMA_AREA_SYSVIPC) VMA_ANON_SHARED) 3 pgoff 7.
Definition sysv_table : shmem_table := shmem_hash_add shmems_hash_init (ShmemInfo 7 SYSVIPC_SHMEM_PID 0x1800 0 0 None 0 0 [] false).
Definition sysv_vmas : list (vma_area * bool) := [(sysv_vma 0 0x1000 0x2000, true); (sysv_vma 0x1000 0x2000 0x3000, false); (sysv_vma 0 0x8000 0xa000, true)].

Lemma sysv_attachments_whole_witness :
  exists h' al' h'' gs, open_all [] sysv_table sysv_vmas = Ret (true, h', al') /\ fixup_sysv_shmems h' = Some h'' /\
    fst <$> sysv_vmas = concat gs /\ Forall (fun g => exists first, g <> [] /\ tiles first first g (first + 0x2000)) gs.
Proof.
  destruct (open_all [] sysv_table sysv_vmas) as [[[ok h'] al']| |] eqn:E; [|vm_compute in E; discriminate..].
  destruct ok; [|vm_compute in E; discriminate]. destruct (fixup_sysv_shmems h') as [h''|] eqn:Ef.
  - destruct (sysv_attachments_whole 7 0x1800 [] sysv_table sysv_vmas h' al' h'') as (gs & H1 & H2); try done.
    + eexists. split; [vm_compute; reflexivity|]. done.
    + repeat (apply Forall_cons_2; [cbn; lia|]). apply Forall_nil_2.
    + exists h', al', h'', gs. split; [reflexivity|]. split; [exact Ef|]. split; [exact H1|exact H2].
  - exfalso. vm_compute in E. injection E as <- <-. vm_compute in Ef. discriminate.
Defined.
