(* ===== verification/Restorer.v ===== *)
(** The last stage of a memory restore: [prepare_vmas] and [unmap_guard_pages]
    of criu/mem.c, and, of criu/pie/restorer.c, [unmap_old_vmas],
    [enable_uffd], [vma_remap], [restore_mapping] and the loops of
    [__export_restore_task] that call them.  The premapped areas lie packed in a
    reserved range; they are moved to their final addresses, some to the left,
    some to the right, through an address space that holds nothing else but the
    restorer itself; then the other areas are mapped.

    The address space is a map from page addresses to pages; a page that is not
    mapped is [[]].  The kernel chooses places: [place m hint len] is the address
    at which mmap puts a mapping that is not MAP_FIXED, [None] if it has none.

    Not part of the model: closing the files of the areas (VMA_CLOSE), the flags
    of shmat, the vdso, which other code puts in its place, the protections. *)
From S2P Require Import Prelude PagemapImage PageRead AsyncQueue ReadPages RangeQuery ReadOps PagePipe PageSelect VmaList CowVmas Premap MemRestore Shmem.

Definition MAP_SHARED : Z := 1.
Definition PROT_EXEC : Z := 4.
Definition SYSV_SHMEM_SKIP_FD : Z := 0x7fffffff.

(** An entry of [args->vmas]: [VmaEntry] with its file descriptor; in a
    premapped one the field [shmid] holds where it is premapped. *)
Record rst_entry := RstEntry { re_e : vma_area; re_fd : Z }.
Definition re_is (v : rst_entry) (s : Z) : bool := vma_entry_is (re_e v) s.
Definition vma_premmaped_start (v : rst_entry) : Z := va_shmid (re_e v).
Definition set_shmid (s : Z) (e : vma_area) : vma_area := VmaArea (va_start e) (va_end e) (va_flags e) (va_status e) (va_prot e) (va_pgoff e) s.

(** [prepare_vmas]: the areas as the last stage gets them; [fd v]: what opening
    the area has left in [e->fd]. *)
Definition prepare_vma (fd : vma_area -> Z) (v : rst_vma) : rst_entry :=
  RstEntry (if rv_is v VMA_PREMMAPED then set_shmid (premmaped_addr v) (rv_e v) else rv_e v) (fd (rv_e v)).
Fixpoint prepare_vmas_loop (al : list bool) (fd : vma_area -> Z) (vmas : list rst_vma) : option (list rst_entry) * list bool :=
  match vmas with
  | [] => (Some [], al)
  | v :: vmas =>
      let '(ok, al) := xalloc al in
      if negb ok then (None, al)
      else
        let '(r, al) := prepare_vmas_loop al fd vmas in
        (match r with Some l => Some (prepare_vma fd v :: l) | None => None end, al)
  end.

(** The address space, the ranges registered with userfaultfd, the calls made;
    the outcomes of the calls to come. *)
Record space := Space { sp_mem : memory; sp_uffd : list (Z * Z); sp_calls : list map_call }.
Record kenv := KEnv { k_maps : list bool; k_ioctls : list bool }.
Definition set_sp_mem (m : memory) (s : space) : space := Space m (sp_uffd s) (sp_calls s).
Definition log_call (c : map_call) (s : space) : space := Space (sp_mem s) (sp_uffd s) (sp_calls s ++ [c]).

Definition page_range (addr len : Z) : list Z := (fun k => addr + k * PAGE_SIZE) <$> seqZ 0 (len / PAGE_SIZE).
Definition is_free (m : memory) (a : Z) : bool := match m a with [] => true | _ => false end.
Definition free_range (m : memory) (addr len : Z) : bool := forallb (is_free m) (page_range addr len).
Definition mapped_range (m : memory) (addr len : Z) : bool := forallb (fun a => negb (is_free m a)) (page_range addr len).
Definition anon_page : list Z := replicate (Z.to_nat PAGE_SIZE) 0.

Section Restorer.
Context (task_size : Z) (place : memory -> Z -> Z -> option Z).

(** ** System calls *)

(** munmap fails on an empty range and on one beyond the task size. *)
Definition sys_munmap (addr len : Z) (s : space) (env : kenv) : bool * space * kenv :=
  let '(ok, mp) := xalloc (k_maps env) in
  let env := KEnv mp (k_ioctls env) in
  if negb ok || (len =? 0) || (addr >? task_size) || (len >? task_size - addr) then (false, s, env)
  else (true, set_sp_mem (unmap_pages (sp_mem s) addr len) s, env).

(** mmap of anonymous pages that is not MAP_FIXED. *)
Definition sys_mmap_anon (hint len : Z) (s : space) (env : kenv) : option Z * space * kenv :=
  let '(ok, mp) := xalloc (k_maps env) in
  let env := KEnv mp (k_ioctls env) in
  match place (sp_mem s) hint len with
  | Some addr => if ok then (Some addr, set_sp_mem (map_pages (sp_mem s) addr len (fun _ => anon_page)) s, env) else (None, s, env)
  | None => (None, s, env)
  end.

(** mremap with MREMAP_MAYMOVE | MREMAP_FIXED: the two ranges must not overlap,
    the old one must be mapped; what was mapped at the new one is gone. *)
Definition ranges_overlap (a b len : Z) : bool := (a <? b + len) && (b <? a + len).
Definition sys_mremap (src len dst : Z) (s : space) (env : kenv) : bool * space * kenv :=
  let '(ok, mp) := xalloc (k_maps env) in
  let env := KEnv mp (k_ioctls env) in
  if negb ok || ranges_overlap src dst len || negb (mapped_range (sp_mem s) src len) then (false, s, env)
  else (true, set_sp_mem (move_pages (sp_mem s) src len dst) s, env).

(** ** Before the areas are moved *)
Fixpoint unmap_guard_loop (vmas : list rst_vma) (s : space) (env : kenv) : bool * space * kenv :=
  match vmas with
  | [] => (true, s, env)
  | v :: vmas =>
      if negb (rv_is v VMA_PREMMAPED) then unmap_guard_loop vmas s env
      else if has (va_flags (rv_e v)) MAP_GROWSDOWN then
        let '(ok, s, env) := sys_munmap (u64 (premmaped_addr v - PAGE_SIZE)) PAGE_SIZE s env in
        if negb ok then (false, s, env) else unmap_guard_loop vmas s env
      else unmap_guard_loop vmas s env
  end.
Definition unmap_guard_pages (hidden : bool) (vmas : list rst_vma) (s : space) (env : kenv) : bool * space * kenv :=
  if negb hidden then (true, s, env) else unmap_guard_loop vmas s env.

Definition unmap_old_vmas (premmapped_addr premmapped_len bootstrap_start bootstrap_len : Z) (s : space) (env : kenv) : Z * space * kenv :=
  let '(p1, s1, p2, s2) :=
    if premmapped_addr <? bootstrap_start then (premmapped_addr, premmapped_len, bootstrap_start, bootstrap_len)
    else (bootstrap_start, bootstrap_len, premmapped_addr, premmapped_len) in
  let '(ok, s, env) := sys_munmap 0 p1 s env in
  if negb ok then (-1, s, env)
  else
    let '(ok, s, env) := sys_munmap (u64 (p1 + s1)) (u64 (p2 - u64 (p1 + s1))) s env in
    if negb ok then (-1, s, env)
    else
      let '(ok, s, env) := sys_munmap (u64 (p2 + s2)) (u64 (task_size - u64 (p2 + s2))) s env in
      if negb ok then (-1, s, env) else (0, s, env).

(** ** Moving an area *)
Definition enable_uffd (uffd addr len : Z) (s : space) (env : kenv) : Z * space * kenv :=
  if uffd =? -1 then (0, s, env)
  else
    let '(ok, io) := xalloc (k_ioctls env) in
    let env := KEnv (k_maps env) io in
    if negb ok then (-1, s, env) else (0, Space (sp_mem s) (sp_uffd s ++ [(addr, len)]) (sp_calls s), env).

(** A new shadow stack with the words of the premapped area, which is unmapped;
    reading words that are not mapped is a fault. *)
Definition shstk_vma_restore (v : rst_entry) (s : space) (env : kenv) : outcome (Z * rst_entry * space * kenv) :=
  let shstk_data := vma_premmaped_start v in
  let vma_size := vma_area_len (re_e v) in
  let '(shstk, s, env) := sys_mmap_anon 0 vma_size s env in
  match shstk with
  | None => Ret (-1, v, s, env)
  | Some shstk =>
      if negb (mapped_range (sp_mem s) shstk_data vma_size) then Bug
      else
        let m := sp_mem s in
        let s := set_sp_mem (map_pages m shstk vma_size (fun k => m (shstk_data + k * PAGE_SIZE))) s in
        let '(ok, s, env) := sys_munmap shstk_data vma_size s env in
        if negb ok then Ret (-1, v, s, env)
        else Ret (0, RstEntry (set_shmid shstk (re_e v)) (re_fd v), s, env)
  end.

(** [vma_remap] from where the source is known. *)
Definition vma_move (v : rst_entry) (uffd : Z) (s : space) (env : kenv) : Z * space * kenv :=
  let dst := va_start (re_e v) in
  let len := vma_area_len (re_e v) in
  let src := vma_premmaped_start v in
  let guard :=
    if u64 (src - dst) <? len then dst
    else if u64 (dst - src) <? len then u64 (dst + len - PAGE_SIZE)
    else 0 in
  if src =? dst then (0, s, env)
  else
    let '(from, s, env) :=
      if negb (guard =? 0) then
        let '(tmp, s, env) := sys_mmap_anon guard PAGE_SIZE s env in
        if negb (match tmp with Some a => a =? guard | None => false end) then (None, s, env)
        else
          let '(addr, s, env) := sys_mmap_anon 0 len s env in
          match addr with
          | None => (None, s, env)
          | Some addr =>
              let '(ok, s, env) := sys_mremap src len addr s env in
              if negb ok then (None, s, env) else (Some addr, s, env)
          end
      else (Some src, s, env) in
    match from with
    | None => (-1, s, env)
    | Some src =>
        let '(ok, s, env) := sys_mremap src len dst s env in
        if negb ok then (-1, s, env)
        else if vma_entry_can_be_lazy (re_e v) then
          let '(ret, s, env) := enable_uffd uffd dst len s env in
          if negb (ret =? 0) then (-1, s, env) else (0, s, env)
        else (0, s, env)
    end.

Definition vma_remap (v : rst_entry) (uffd : Z) (s : space) (env : kenv) : outcome (Z * rst_entry * space * kenv) :=
  let! (ret, v, s, env) := if re_is v VMA_AREA_SHSTK then shstk_vma_restore v s env else Ret (0, v, s, env) in
  if negb (ret =? 0) then Ret (-1, v, s, env)
  else let '(ret, s, env) := vma_move v uffd s env in Ret (ret, v, s, env).

(** The areas that go to the left, in order. *)
Fixpoint shift_left (vmas : list rst_entry) (uffd : Z) (s : space) (env : kenv) : outcome (Z * list rst_entry * space * kenv) :=
  match vmas with
  | [] => Ret (0, [], s, env)
  | v :: rest =>
      let next v s env :=
        let! (ret, rest, s, env) := shift_left rest uffd s env in
        Ret (ret, v :: rest, s, env) in
      if negb (re_is v VMA_PREMMAPED) then next v s env
      else if va_end (re_e v) >=? task_size then next v s env
      else if va_start (re_e v) >? va_shmid (re_e v) then Ret (0, vmas, s, env)
      else
        let! (ret, v, s, env) := vma_remap v uffd s env in
        if negb (ret =? 0) then Ret (-1, v :: rest, s, env) else next v s env
  end.

(** The areas that go to the right; the list is given from its end. *)
Fixpoint shift_right (vmas : list rst_entry) (uffd : Z) (s : space) (env : kenv) : outcome (Z * list rst_entry * space * kenv) :=
  match vmas with
  | [] => Ret (0, [], s, env)
  | v :: rest =>
      let next v s env :=
        let! (ret, rest, s, env) := shift_right rest uffd s env in
        Ret (ret, v :: rest, s, env) in
      if negb (re_is v VMA_PREMMAPED) then next v s env
      else if va_start (re_e v) >? task_size then next v s env
      else if va_start (re_e v) <? va_shmid (re_e v) then Ret (0, vmas, s, env)
      else
        let! (ret, v, s, env) := vma_remap v uffd s env in
        if negb (ret =? 0) then Ret (-1, v :: rest, s, env) else next v s env
  end.

(** ** Mapping the others *)

(** [content e fd]: the pages of a new mapping of the area (its file's, its
    segment's, zeroes); [segment_size fd]: the size of a SysV segment, which
    [arch_shmat] attaches as a whole, and not over anything. *)
Context (content : vma_area -> Z -> Z -> list Z) (segment_size : Z -> Z).

Definition restore_mapping (v : rst_entry) (s : space) (env : kenv) : option Z * rst_entry * space * kenv :=
  let e := re_e v in
  let fd := re_fd v in
  let prot := va_prot e in
  let flags := Z.lor (va_flags e) MAP_FIXED in
  let put len s := set_sp_mem (map_pages (sp_mem s) (va_start e) len (content e fd)) s in
  if vma_entry_is e VMA_AREA_SYSVIPC then
    if fd =? SYSV_SHMEM_SKIP_FD then (Some (va_start e), v, s, env)
    else
      let v := if has prot PROT_EXEC
               then RstEntry (VmaArea (va_start e) (va_end e) (va_flags e) (va_status e) (Z.land prot (Z.lnot PROT_EXEC)) (va_pgoff e) (va_shmid e)) fd
               else v in
      let '(ok, mp) := xalloc (k_maps env) in
      let env := KEnv mp (k_ioctls env) in
      if ok && free_range (sp_mem s) (va_start e) (segment_size fd) then (Some (va_start e), v, put (segment_size fd) s, env) else (None, v, s, env)
  else
    let flags := if vma_entry_is e VMA_ANON_SHARED && negb (fd =? -1) then Z.land flags (Z.lnot MAP_ANONYMOUS) else flags in
    let flags := if vma_entry_is e VMA_AREA_AIORING then Z.lor flags MAP_ANONYMOUS else flags in
    let prot := if ((fd =? -1) || negb (has (va_flags e) MAP_SHARED)) && negb (has (va_status e) VMA_NO_PROT_WRITE) then Z.lor prot PROT_WRITE else prot in
    let '(ok, mp) := xalloc (k_maps env) in
    let env := KEnv mp (k_ioctls env) in
    if ok then (Some (va_start e), v, log_call (Mmap (va_start e) (vma_area_len e) prot flags (va_pgoff e)) (put (vma_area_len e) s), env) else (None, v, s, env).

Fixpoint map_rest (vmas : list rst_entry) (s : space) (env : kenv) : Z * list rst_entry * space * kenv :=
  match vmas with
  | [] => (0, [], s, env)
  | v :: rest =>
      if (negb (re_is v VMA_AREA_REGULAR) && negb (re_is v VMA_AREA_AIORING)) || re_is v VMA_PREMMAPED then
        let '(ret, rest, s, env) := map_rest rest s env in (ret, v :: rest, s, env)
      else
        let '(va, v, s, env) := restore_mapping v s env in
        if negb (match va with Some a => a =? va_start (re_e v) | None => false end) then (-1, v :: rest, s, env)
        else let '(ret, rest, s, env) := map_rest rest s env in (ret, v :: rest, s, env)
  end.

(** PR_SET_THP_DISABLE, of which only the result matters here. *)
Definition sys_prctl_thp (env : kenv) : bool * kenv := let '(ok, io) := xalloc (k_ioctls env) in (ok, KEnv (k_maps env) io).

(** The part of [__export_restore_task] that builds the address space, for a
    process whose vdso was parked, so that [map_vdso] maps nothing. *)
Definition restore_address_space (premmapped_addr premmapped_len bootstrap_start bootstrap_len uffd : Z) (vmas : list rst_entry) (s : space) (env : kenv)
    : outcome (Z * list rst_entry * space * kenv) :=
  let '(ret, s, env) := unmap_old_vmas premmapped_addr premmapped_len bootstrap_start bootstrap_len s env in
  if negb (ret =? 0) then Ret (-1, vmas, s, env)
  else
    let! (ret, vmas, s, env) := shift_left vmas uffd s env in
    if negb (ret =? 0) then Ret (-1, vmas, s, env)
    else
      let! (ret, smav, s, env) := shift_right (rev vmas) uffd s env in
      if negb (ret =? 0) then Ret (-1, rev smav, s, env)
      else
        let '(ok, env) := sys_prctl_thp env in
        if negb ok then Ret (-1, rev smav, s, env) else Ret (map_rest (rev smav) s env).
End Restorer.

(** ** Pages and ranges *)
Definition on_page (a : Z) : Prop := a mod PAGE_SIZE = 0.

Lemma page_range_elem addr len p : on_page addr -> on_page len -> 0 <= len ->
  p ∈ page_range addr len <-> on_page p /\ addr <= p < addr + len.
Proof.
  unfold on_page, page_range. intros Ha Hl Hn. pose proof (Z.div_mod len PAGE_SIZE ltac:(done)) as El. rewrite list_elem_of_fmap. unfold PAGE_SIZE in *. split.
  - intros (k & -> & Hk). apply elem_of_seqZ in Hk. split; [|lia]. by rewrite Z_mod_plus_full.
  - intros [Hp Hr]. exists ((p - addr) / 4096). assert (M : (p - addr) mod 4096 = 0) by (by rewrite Zminus_mod, Hp, Ha).
    pose proof (Z.div_mod (p - addr) 4096 ltac:(done)). split; [lia|]. apply elem_of_seqZ. lia.
Qed.

Definition in_pages (addr len p : Z) : Prop := addr <= p < addr + len.
Definition all_free (m : memory) (addr len : Z) : Prop := forall p, on_page p -> in_pages addr len p -> m p = [].
Definition all_mapped (m : memory) (addr len : Z) : Prop := forall p, on_page p -> in_pages addr len p -> m p <> [].

Lemma free_range_true m addr len : on_page addr -> on_page len -> 0 <= len -> free_range m addr len = true <-> all_free m addr len.
Proof.
  intros Ha Hl Hn. unfold free_range, all_free, in_pages. rewrite forallb_forall. split.
  - intros H p Hp Hr. specialize (H p ltac:(apply list_elem_of_In, page_range_elem; auto)). unfold is_free in H. by destruct (m p).
  - intros H p Hp. apply list_elem_of_In, page_range_elem in Hp as [Hp Hr]; [|done..]. unfold is_free. by rewrite (H p Hp Hr).
Qed.

Lemma mapped_range_true m addr len : on_page addr -> on_page len -> 0 <= len -> mapped_range m addr len = true <-> all_mapped m addr len.
Proof.
  intros Ha Hl Hn. unfold mapped_range, all_mapped, in_pages. rewrite forallb_forall. split.
  - intros H p Hp Hr. specialize (H p ltac:(apply list_elem_of_In, page_range_elem; auto)). unfold is_free in H. by destruct (m p).
  - intros H p Hp. apply list_elem_of_In, page_range_elem in Hp as [Hp Hr]; [|done..]. unfold is_free. specialize (H p Hp Hr). by destruct (m p).
Qed.

Lemma on_page_add a b : on_page a -> on_page b -> on_page (a + b).
Proof. unfold on_page. intros Ha Hb. by rewrite Zplus_mod, Ha, Hb. Qed.
Lemma on_page_sub a b : on_page a -> on_page b -> on_page (a - b).
Proof. unfold on_page. intros Ha Hb. by rewrite Zminus_mod, Ha, Hb. Qed.
Lemma on_page_lt a b : on_page a -> on_page b -> a < b -> a + PAGE_SIZE <= b.
Proof. unfold on_page, PAGE_SIZE. intros Ha Hb Hlt. pose proof (Z.div_mod a 4096 ltac:(done)). pose proof (Z.div_mod b 4096 ltac:(done)). lia. Qed.
Lemma on_page_size : on_page PAGE_SIZE.
Proof. done. Qed.
#[export] Hint Resolve on_page_add on_page_sub on_page_size : criu.

(** Ranges of pages of which one is free and the other mapped are apart. *)
Lemma free_mapped_apart m a alen b blen : on_page a -> on_page b -> 0 < alen -> 0 < blen -> all_free m a alen -> all_mapped m b blen -> a + alen <= b \/ b + blen <= a.
Proof.
  intros Ha Hb Hla Hlb Hf Hm. destruct (Z.le_gt_cases (a + alen) b) as [|H1]; [by left|]. destruct (Z.le_gt_cases (b + blen) a) as [|H2]; [by right|]. exfalso.
  destruct (Z.le_gt_cases a b); [apply (Hm b Hb); [unfold in_pages; lia|]; apply Hf; [done|unfold in_pages; lia]|].
  apply (Hm a Ha); [unfold in_pages; lia|]. apply Hf; [done|unfold in_pages; lia].
Qed.

(** ** Moving one area *)

(** The area that was at [src] is at [dst]. *)
Record moved (src dst len : Z) (m m' : memory) : Prop := Moved {
  mv_dst : forall p, on_page p -> in_pages dst len p -> m' p = m (p - dst + src);
  mv_src : forall p, on_page p -> in_pages src len p -> ~ in_pages dst len p -> m' p = [];
  mv_frame : forall p, on_page p -> ~ in_pages src len p -> ~ in_pages dst len p -> m' p = m p
}.

Lemma move_pages_moved m src dst len : src + len <= dst \/ dst + len <= src -> moved src dst len m (move_pages m src len dst).
Proof.
  intros Ha. unfold in_pages, move_pages. split; unfold in_pages; intros p Hp H1; [|intros H2..]; destruct (Z.leb_spec dst p), (Z.ltb_spec p (dst + len)), (Z.leb_spec src p), (Z.ltb_spec p (src + len)); cbn [andb];
    try done; try lia.
Qed.
Lemma moved_refl src len m : moved src src len m m.
Proof. split; try done. intros p _ _. f_equal. lia. Qed.

(** What mmap promises about the place it chooses: whole pages, below the task
    size, not in use; when it is live, the hint if it is free, and some place if
    there is one. *)
Record place_ok (task_size : Z) (place : memory -> Z -> Z -> option Z) : Prop := PlaceOk {
  po_range : forall m hint len a, place m hint len = Some a -> on_page a /\ PAGE_SIZE <= a /\ a + len <= task_size;
  po_free : forall m hint len a, place m hint len = Some a -> all_free m a len
}.
Record place_live (task_size : Z) (place : memory -> Z -> Z -> option Z) : Prop := PlaceLive {
  pl_hint : forall m hint, on_page hint -> PAGE_SIZE <= hint -> hint + PAGE_SIZE <= task_size -> all_free m hint PAGE_SIZE -> place m hint PAGE_SIZE = Some hint;
  pl_room : forall m len a, on_page a -> on_page len -> PAGE_SIZE <= a -> a + len <= task_size -> 0 < len -> all_free m a len -> place m 0 len <> None
}.
Definition calm (env : kenv) : Prop := env = KEnv [] [].

Section Remap.
Context (task_size : Z) (place : memory -> Z -> Z -> option Z) (Hplace : place_ok task_size place) (Htask : task_size < 2 ^ 62).

(** A range of pages of the task. *)
Definition range_ok (a len : Z) : Prop := on_page a /\ on_page len /\ PAGE_SIZE <= a /\ 0 < len /\ a + len <= task_size.

Lemma sys_mmap_anon_ok hint len s env : exists r s' env', sys_mmap_anon place hint len s env = (r, s', env') /\ sp_uffd s' = sp_uffd s /\ k_ioctls env' = k_ioctls env /\
  match r with
  | Some a => on_page a /\ PAGE_SIZE <= a /\ a + len <= task_size /\ all_free (sp_mem s) a len /\ sp_mem s' = map_pages (sp_mem s) a len (fun _ => anon_page) /\ place (sp_mem s) hint len = Some a
  | None => k_maps env <> [] \/ place (sp_mem s) hint len = None
  end /\ (calm env -> calm env').
Proof.
  unfold sys_mmap_anon. destruct (xalloc (k_maps env)) as [ok mp] eqn:Ex. destruct (place (sp_mem s) hint len) as [a|] eqn:Ep.
  - assert (Hc : calm env -> ok = true /\ calm (KEnv mp (k_ioctls env))) by (intros ->; cbn in Ex; injection Ex as <- <-; done).
    destruct ok.
    + eexists _, _, _. split; [done|]. cbn. destruct (po_range _ _ Hplace _ _ _ _ Ep) as (? & ? & ?). split_and!; try done; [by apply (po_free _ _ Hplace _ _ _ _ Ep)|]. intros ?. by apply Hc.
    + eexists _, _, _. split; [done|]. cbn. split_and!; try done; [|intros ?; by apply Hc]. left. destruct (k_maps env); [|done]. cbn in Ex. congruence.
  - eexists _, _, _. split; [done|]. cbn. split_and!; try done; [by right|]. intros ->. cbn in Ex. by injection Ex as <- <-.
Qed.

Lemma sys_mremap_ok src len dst s env : range_ok src len -> range_ok dst len -> src + len <= dst \/ dst + len <= src -> all_mapped (sp_mem s) src len ->
  exists ok s' env', sys_mremap src len dst s env = (ok, s', env') /\ sp_uffd s' = sp_uffd s /\ k_ioctls env' = k_ioctls env /\
    (ok = true -> sp_mem s' = move_pages (sp_mem s) src len dst) /\ (calm env -> ok = true /\ calm env').
Proof.
  intros (S1 & S2 & S3 & S4 & S5) (D1 & _ & D3 & _ & D5) Ha Hm. unfold sys_mremap. destruct (xalloc (k_maps env)) as [ok mp] eqn:Ex.
  assert (Ho : ranges_overlap src dst len = false).
  { unfold ranges_overlap. destruct (Z.ltb_spec src (dst + len)), (Z.ltb_spec dst (src + len)); try done. lia. }
  rewrite Ho, (proj2 (mapped_range_true (sp_mem s) src len S1 S2 ltac:(lia)) Hm), orb_false_r. cbn [negb orb]. rewrite orb_false_r. destruct ok; cbn [negb].
  - eexists _, _, _. split; [done|]. split_and!; try done. intros ->. cbn in Ex. by injection Ex as <-.
  - eexists _, _, _. split; [done|]. split_and!; try done. intros ->. cbn in Ex. done.
Qed.

(** The place for a guard page: in the target, beside the source, such that a
    range that avoids both the source and the guard avoids the target. *)
Definition guards_target (g src dst len : Z) : Prop :=
  (g = dst /\ dst < src < dst + len) \/ (g = dst + len - PAGE_SIZE /\ src < dst < src + len).

Lemma guard_facts g src dst len : range_ok src len -> range_ok dst len -> guards_target g src dst len ->
  on_page g /\ PAGE_SIZE <= g /\ g + PAGE_SIZE <= task_size /\ in_pages dst len g /\ ~ in_pages src len g.
Proof.
  intros (S1 & S2 & S3 & S4 & S5) (D1 & _ & D3 & _ & D5) H. unfold in_pages. pose proof (on_page_lt 0 len ltac:(done) S2 S4). destruct H as [[-> H]|[-> H]].
  - pose proof (on_page_lt dst src D1 S1 ltac:(lia)). split_and!; try done; unfold PAGE_SIZE in *; lia.
  - pose proof (on_page_lt src dst S1 D1 ltac:(lia)). split_and!; auto with criu; unfold PAGE_SIZE in *; lia.
Qed.

(** Where the kernel may put the area for the moment. *)
Lemma away_from_target g src dst len a m : range_ok src len -> range_ok dst len -> guards_target g src dst len -> on_page a ->
  all_free m a len -> all_mapped m src len -> m g <> [] -> (a + len <= src \/ src + len <= a) /\ (a + len <= dst \/ dst + len <= a) /\ ~ in_pages a len g.
Proof.
  intros HS HD Hg Ha Hf Hm Hgm. pose proof (guard_facts _ _ _ _ HS HD Hg) as (G1 & G2 & G3 & G4 & G5). destruct HS as (S1 & S2 & S3 & S4 & S5).
  pose proof (free_mapped_apart m a len src len Ha S1 S4 S4 Hf Hm) as Hs.
  assert (Hng : ~ in_pages a len g) by (intros Hin; by apply Hgm, Hf).
  split; [done|]. split; [|done]. unfold in_pages in *. destruct Hg as [[-> ?]|[-> ?]]; [|].
  - destruct (Z.le_gt_cases (a + len) dst); [by left|]. right. assert (dst < a) by lia. destruct Hs; lia.
  - destruct (Z.le_gt_cases (dst + len) a); [by right|]. left. destruct HD as (D1 & _). destruct Hs as [?|?]; [lia|].
    assert (a + len <= dst + len - PAGE_SIZE \/ dst + len - PAGE_SIZE < a) by lia.
    pose proof (on_page_lt (dst + len - PAGE_SIZE) a ltac:(auto with criu) Ha). unfold PAGE_SIZE in *. lia.
Qed.

Lemma anon_page_mapped : anon_page <> [].
Proof. done. Qed.

(** The detour through a place that is free. *)
Lemma detour m g src dst len a : range_ok src len -> range_ok dst len -> guards_target g src dst len -> m g = [] -> all_mapped m src len -> on_page a ->
  let m1 := map_pages m g PAGE_SIZE (fun _ => anon_page) in
  let m2 := map_pages m1 a len (fun _ => anon_page) in
  let m3 := move_pages m2 src len a in
  all_free m1 a len ->
  (a + len <= src \/ src + len <= a) /\ (a + len <= dst \/ dst + len <= a) /\
  all_mapped m1 src len /\ all_mapped m2 src len /\ all_mapped m3 a len /\ moved src dst len m (move_pages m3 a len dst).
Proof.
  intros HS HD Hg Hmg Hm Ha m1 m2 m3 Hf. destruct (guard_facts _ _ _ _ HS HD Hg) as (G1 & G2 & G3 & G4 & G5).
  assert (E1 : forall p, on_page p -> p <> g -> m1 p = m p).
  { intros p Hp Hne. apply map_pages_out. unfold Premap.in_range. intros Hr. destruct (Z.lt_ge_cases g p); [|lia]. pose proof (on_page_lt g p G1 Hp). lia. }
  assert (Hm1 : all_mapped m1 src len). { intros p Hp Hr. rewrite E1; [by apply Hm|done|]. by intros ->. }
  assert (Hg1 : m1 g <> []). { unfold m1. rewrite map_pages_at by (unfold PAGE_SIZE; lia). done. }
  destruct (away_from_target g src dst len a m1 HS HD Hg Ha Hf Hm1 Hg1) as (A1 & A2 & A3).
  assert (E2 : forall p, ~ in_pages a len p -> m2 p = m1 p) by (intros p Hp; by apply map_pages_out).
  assert (Hm2 : all_mapped m2 src len). { intros p Hp Hr. rewrite E2; [by apply Hm1|]. unfold in_pages in *. lia. }
  assert (Ha3 : forall p, in_pages a len p -> m3 p = m2 (p - a + src)) by (intros p Hr; by apply move_pages_at).
  assert (Hs : forall b p, on_page p -> on_page b -> in_pages b len p -> on_page (p - b + src) /\ in_pages src len (p - b + src)).
  { intros b p Hp Hb Hr. split; [|unfold in_pages in *; lia]. destruct HS as (? & _). auto with criu. }
  split; [done|]. split; [done|]. split; [done|]. split; [done|]. split.
  - intros p Hp Hr. rewrite Ha3 by done. destruct (Hs a p Hp Ha Hr). by apply Hm2.
  - destruct HD as (D1 & _). destruct (move_pages_moved m3 a dst len A2) as [M1 M2 M3]. split.
    + intros p Hp Hr. rewrite M1 by done. assert (Hq : on_page (p - dst + a) /\ in_pages a len (p - dst + a)) by (split; [auto with criu|unfold in_pages in *; lia]).
      rewrite Ha3 by apply Hq. replace (p - dst + a - a + src) with (p - dst + src) by lia. destruct (Hs dst p Hp D1 Hr) as [H1 H2].
      rewrite E2 by (unfold in_pages in *; lia). apply E1; [done|]. intros E. by rewrite E in H2.
    + intros p Hp Hr Hnd. rewrite M3; [|done| |done]; [|unfold in_pages in *; lia]. unfold m3, move_pages.
      destruct (Z.leb_spec a p), (Z.ltb_spec p (a + len)), (Z.leb_spec src p), (Z.ltb_spec p (src + len)); cbn [andb]; try done; unfold in_pages in *; lia.
    + intros p Hp Hns Hnd. assert (Hpg : p <> g) by (by intros ->). destruct (Z.le_gt_cases a p) as [H1|H1]; [destruct (Z.lt_ge_cases p (a + len)) as [H2|H2]|].
      * rewrite M2 by (unfold in_pages in *; done || lia). rewrite <- E1 by done. symmetry. by apply Hf.
      * rewrite M3 by (unfold in_pages in *; done || lia). unfold m3. rewrite move_pages_out by (unfold in_pages, Premap.in_range in *; lia). rewrite E2 by (unfold in_pages; lia). by apply E1.
      * rewrite M3 by (unfold in_pages in *; done || lia). unfold m3. rewrite move_pages_out by (unfold in_pages, Premap.in_range in *; lia). rewrite E2 by (unfold in_pages; lia). by apply E1.
Qed.

(** The ranges registered for an area that is moved. *)
Definition registered (uffd src : Z) (v : rst_entry) : list (Z * Z) :=
  if negb (src =? va_start (re_e v)) && vma_entry_can_be_lazy (re_e v) && negb (uffd =? -1) then [(va_start (re_e v), vma_area_len (re_e v))] else [].

(** A place for the detour: free, and not where the area goes. *)
Definition spare (m : memory) (dst len : Z) : Prop := exists a, range_ok a len /\ all_free m a len /\ (a + len <= dst \/ dst + len <= a).

Lemma enable_uffd_ok uffd addr len s env : exists ret s' env', enable_uffd uffd addr len s env = (ret, s', env') /\ sp_mem s' = sp_mem s /\
  (ret = 0 -> sp_uffd s' = sp_uffd s ++ (if negb (uffd =? -1) then [(addr, len)] else [])) /\ (calm env -> ret = 0 /\ calm env').
Proof.
  unfold enable_uffd. destruct (uffd =? -1); cbn [negb]; [eexists _, _, _; split; [done|]; split; [done|]; split; [by rewrite app_nil_r|done]|].
  destruct (xalloc (k_ioctls env)) as [[] io] eqn:Ex; cbn [negb]; eexists _, _, _; (split; [done|]); (split; [done|]); (split; [done|]); intros ->; cbn in Ex; [by injection Ex as <-|done].
Qed.

(** The last step: to the target, and registered. *)
Lemma finish_move v uffd from dst len s env :
  range_ok from len -> range_ok dst len -> from + len <= dst \/ dst + len <= from -> all_mapped (sp_mem s) from len ->
  exists ret s' env', (let '(ok, s, env) := sys_mremap from len dst s env in
      if negb ok then (-1, s, env)
      else if vma_entry_can_be_lazy (re_e v) then let '(ret, s, env) := enable_uffd uffd dst len s env in if negb (ret =? 0) then (-1, s, env) else (0, s, env)
      else (0, s, env)) = (ret, s', env') /\
    (ret = 0 -> sp_mem s' = move_pages (sp_mem s) from len dst /\ sp_uffd s' = sp_uffd s ++ (if vma_entry_can_be_lazy (re_e v) && negb (uffd =? -1) then [(dst, len)] else [])) /\
    (calm env -> ret = 0 /\ calm env').
Proof.
  intros Hf Hd Ha Hm. destruct (sys_mremap_ok from len dst s env Hf Hd Ha Hm) as (ok & s1 & e1 & -> & U1 & _ & M1 & C1).
  destruct ok; cbn [negb]; [|eexists _, _, _; split; [done|]; split; [done|]; intros Hc; by destruct (C1 Hc)]. specialize (M1 eq_refl).
  destruct (vma_entry_can_be_lazy (re_e v)); cbn [andb]; [|eexists _, _, _; split; [done|]; rewrite U1, app_nil_r; split; [done|]; intros Hc; by destruct (C1 Hc)].
  destruct (enable_uffd_ok uffd dst len s1 e1) as (ret & s2 & e2 & -> & M2 & U2 & C2).
  destruct (Z.eqb_spec ret 0) as [->|]; cbn [negb]; eexists _, _, _; (split; [done|]); (split; [|intros Hc; destruct (C1 Hc) as [_ Hc1]; by destruct (C2 Hc1)]); [|done].
  intros _. by rewrite M2, M1, (U2 eq_refl), U1.
Qed.

(** The guard page [vma_remap] chooses. *)
Lemma guard_choice src dst len : range_ok src len -> range_ok dst len -> src <> dst ->
  let g := if u64 (src - dst) <? len then dst else if u64 (dst - src) <? len then u64 (dst + len - PAGE_SIZE) else 0 in
  guards_target g src dst len \/ g = 0 /\ (src + len <= dst \/ dst + len <= src).
Proof.
  intros (S1 & S2 & S3 & S4 & S5) (D1 & _ & D3 & _ & D5) Hne g. unfold g, guards_target. assert (Hpos : 0 < src /\ 0 < dst) by (unfold PAGE_SIZE in *; lia).
  rewrite (u64_small (dst + len - PAGE_SIZE)) by (unfold PAGE_SIZE in *; lia). destruct (Z.lt_ge_cases dst src).
  - rewrite (u64_small (src - dst)) by lia. destruct (Z.ltb_spec (src - dst) len); [left; lia|]. destruct (Z.ltb_spec (u64 (dst - src)) len); [|right; lia].
    exfalso. revert H1. replace (dst - src) with (2 ^ 64 - (src - dst) + (-1) * 2 ^ 64) by lia. unfold u64. rewrite Z_mod_plus_full, Z.mod_small by lia. lia.
  - destruct (Z.ltb_spec (u64 (src - dst)) len).
    + exfalso. revert H0. replace (src - dst) with (2 ^ 64 - (dst - src) + (-1) * 2 ^ 64) by lia. unfold u64. rewrite Z_mod_plus_full, Z.mod_small by lia. lia.
    + rewrite (u64_small (dst - src)) by lia. destruct (Z.ltb_spec (dst - src) len); [left; lia|right; lia].
Qed.

Lemma vma_move_ok v uffd s env : let src := vma_premmaped_start v in let dst := va_start (re_e v) in let len := vma_area_len (re_e v) in
  range_ok src len -> range_ok dst len -> all_mapped (sp_mem s) src len ->
  (forall p, on_page p -> in_pages dst len p -> sp_mem s p <> [] -> in_pages src len p) ->
  exists ret s' env', vma_move place v uffd s env = (ret, s', env') /\
    (ret = 0 -> moved src dst len (sp_mem s) (sp_mem s') /\ sp_uffd s' = sp_uffd s ++ registered uffd src v) /\
    (calm env -> place_live task_size place -> spare (sp_mem s) dst len -> ret = 0 /\ calm env').
Proof.
  intros src dst len HS HD Hm Hd. unfold vma_move. fold src dst len. pose proof HS as (S1 & S2 & S3 & S4 & S5). pose proof HD as (D1 & _ & D3 & _ & D5).
  unfold registered. fold dst len. destruct (Z.eqb_spec src dst) as [E|Hne]; cbn [negb andb].
  { eexists _, _, _. split; [done|]. split; [|done]. intros _. rewrite app_nil_r, E. split; [apply moved_refl|done]. }
  pose proof (guard_choice src dst len HS HD Hne) as Hg. cbv zeta in Hg.
  set (g := if u64 (src - dst) <? len then dst else _) in *.
  clearbody g. destruct Hg as [Hg|[-> Ha]]; cbn [Z.eqb negb]; cycle 1.
  { destruct (finish_move v uffd src dst len s env HS HD Ha Hm) as (ret & s' & e' & -> & F1 & F2). exists ret, s', e'. split; [done|]. split; [|by intros Hc _ _; apply F2].
    intros Hr. destruct (F1 Hr) as [-> ->]. split; [by apply move_pages_moved|done]. }
  destruct (guard_facts _ _ _ _ HS HD Hg) as (G1 & G2 & G3 & G4 & G5). destruct (Z.eqb_spec g 0) as [->|_]; [unfold PAGE_SIZE in *; lia|]. cbn [negb].
  assert (Hmg : sp_mem s g = []). { destruct (sp_mem s g) eqn:E; [done|]. exfalso. apply G5, (Hd g G1 G4). by rewrite E. }
  assert (Hfg : all_free (sp_mem s) g PAGE_SIZE). { intros p Hp Hr. destruct (decide (p = g)) as [->|]; [done|]. unfold in_pages in Hr. pose proof (on_page_lt g p G1 Hp ltac:(lia)). lia. }
  destruct (sys_mmap_anon_ok g PAGE_SIZE s env) as (r1 & s1 & e1 & -> & U1 & I1 & R1 & C1).
  destruct r1 as [a1|]; [destruct (Z.eqb_spec a1 g) as [->|Hng]|]; cbn [negb]; cycle 1.
  { eexists _, _, _. split; [done|]. split; [done|]. intros -> HL _. exfalso. apply Hng. destruct R1 as (_ & _ & _ & _ & _ & R1). pose proof (pl_hint _ _ HL _ _ G1 G2 G3 Hfg). congruence. }
  { eexists _, _, _. split; [done|]. split; [done|]. intros -> HL _. exfalso. rewrite (pl_hint _ _ HL _ _ G1 G2 G3 Hfg) in R1. by destruct R1. }
  destruct R1 as (_ & _ & _ & _ & R1 & _).
  destruct (sys_mmap_anon_ok 0 len s1 e1) as (r2 & s2 & e2 & -> & U2 & I2 & R2 & C2). destruct r2 as [a|]; cycle 1.
  { eexists _, _, _. split; [done|]. split; [done|]. intros Hc HL (b & (B1 & _ & B3 & _ & B5) & Bf & Ba). exfalso. specialize (C1 Hc). rewrite C1 in R2. destruct R2 as [R2|R2]; [done|].
    apply (pl_room _ _ HL (sp_mem s1) len b B1 S2 B3 B5 S4); [|done]. intros p Hp Hr. rewrite R1, map_pages_out; [by apply Bf|]. unfold Premap.in_range, in_pages in *. intros Hpg. pose proof (on_page_lt dst g D1 G1).
    destruct (decide (p = g)) as [->|]; [lia|]. pose proof (on_page_lt g p G1 Hp ltac:(lia)). lia. }
  destruct R2 as (A1 & A2 & A3 & A4 & R2 & _). rewrite R1 in A4.
  destruct (detour (sp_mem s) g src dst len a HS HD Hg Hmg Hm A1 A4) as (T1 & T2 & T3 & T4 & T5 & T6).
  assert (HA : range_ok a len) by (by split_and!).
  destruct (sys_mremap_ok src len a s2 e2 HS HA ltac:(lia)) as (ok & s3 & e3 & -> & U3 & I3 & M3 & C3); [by rewrite R2, R1|].
  destruct ok; cbn [negb]; [|eexists _, _, _; split; [done|]; split; [done|]; intros Hc _ _; by destruct (C3 (C2 (C1 Hc)))]. specialize (M3 eq_refl). rewrite R2, R1 in M3.
  destruct (finish_move v uffd a dst len s3 e3 HA HD T2 ltac:(by rewrite M3)) as (ret & s' & e' & -> & F1 & F2). exists ret, s', e'. split; [done|]. split.
  - intros Hr. destruct (F1 Hr) as [-> ->]. rewrite M3, U3, U2, U1. done.
  - intros Hc _ _. apply F2. by destruct (C3 (C2 (C1 Hc))).
Qed.

(** ** Shadow stacks *)

(** The memory after the words were copied and the premapped area unmapped. *)
Lemma shstk_moved m src dst len a m4 : range_ok src len -> range_ok dst len -> all_mapped m src len -> on_page a -> all_free m a len ->
  (forall p, on_page p -> in_pages dst len p -> m p <> [] -> in_pages src len p) ->
  let m1 := map_pages m a len (fun _ => anon_page) in
  let m2 := map_pages m1 a len (fun k => m1 (src + k * PAGE_SIZE)) in
  let m3 := unmap_pages m2 src len in
  all_mapped m1 src len /\ all_mapped m3 a len /\ (forall p, on_page p -> in_pages dst len p -> m3 p <> [] -> in_pages a len p) /\
  (forall p, on_page p -> ~ in_pages a len p -> m p = [] -> m3 p = []) /\
  (moved a dst len m3 m4 -> moved src dst len m m4).
Proof.
  intros HS HD Hm Ha Hf Hd m1 m2 m3. pose proof HS as (S1 & S2 & S3 & S4 & S5). pose proof HD as (D1 & _).
  pose proof (free_mapped_apart m a len src len Ha S1 S4 S4 Hf Hm) as Hap.
  assert (E1 : forall p, in_pages src len p -> m1 p = m p) by (intros p Hp; apply map_pages_out; unfold in_pages, Premap.in_range in *; lia).
  assert (E3 : forall p, in_pages src len p -> m3 p = []).
  { intros p Hp. unfold m3, unmap_pages, in_pages in *. destruct (Z.leb_spec src p), (Z.ltb_spec p (src + len)); try lia. done. }
  assert (E2 : forall p, on_page p -> in_pages a len p -> m3 p = m (p - a + src)).
  { intros p Hp Hr. assert (Ha3 : m3 p = m2 p). { unfold m3, unmap_pages, in_pages in *. destruct (Z.leb_spec src p), (Z.ltb_spec p (src + len)); try lia; done. }
    rewrite Ha3. unfold m2. rewrite map_pages_at by done. assert (Hdiv : (p - a) / PAGE_SIZE * PAGE_SIZE = p - a).
    { pose proof (Z.div_mod (p - a) PAGE_SIZE ltac:(done)) as E. assert (M : (p - a) mod PAGE_SIZE = 0) by (apply on_page_sub; done). unfold PAGE_SIZE in *. lia. }
    rewrite Hdiv. rewrite E1 by (unfold in_pages in *; lia). f_equal. lia. }
  assert (E4 : forall p, ~ in_pages a len p -> ~ in_pages src len p -> m3 p = m p).
  { intros p H1 H2. unfold m3, unmap_pages. unfold in_pages in H2. destruct (Z.leb_spec src p), (Z.ltb_spec p (src + len)); cbn [andb]; try lia; unfold m2, m1; by rewrite !map_pages_out. }
  assert (Hs : forall b p, on_page p -> on_page b -> in_pages b len p -> on_page (p - b + src) /\ in_pages src len (p - b + src)).
  { intros b p Hp Hb Hr. split; [auto with criu|unfold in_pages in *; lia]. }
  split; [intros p Hp Hr; rewrite E1 by done; by apply Hm|]. split; [|split; [|split]].
  - intros p Hp Hr. rewrite E2 by done. destruct (Hs a p Hp Ha Hr). by apply Hm.
  - intros p Hp Hr Hn. destruct (decide (a <= p < a + len)) as [?|Hna]; [done|]. exfalso. destruct (decide (src <= p < src + len)) as [Hsr|Hns]; [by rewrite E3 in Hn|].
    rewrite E4 in Hn by done. by apply Hns, (Hd p Hp Hr).
  - intros p Hp Hna Hn. destruct (decide (src <= p < src + len)) as [Hsr|Hns]; [by apply E3|by rewrite E4].
  - intros [M1 M2 M3]. split.
    + intros p Hp Hr. rewrite M1 by done. rewrite E2; [f_equal; lia|auto with criu|unfold in_pages in *; lia].
    + intros p Hp Hr Hnd. rewrite M3 by (unfold in_pages in *; done || lia). by apply E3.
    + intros p Hp Hns Hnd. destruct (decide (a <= p < a + len)) as [Hr|Hna]; [rewrite M2 by done; symmetry; by apply Hf|]. rewrite M3 by done. by apply E4.
Qed.

(** Room for a shadow stack and a detour. *)
Definition roomy (m : memory) (dst len : Z) : Prop := exists b, range_ok b (3 * len) /\ all_free m b (3 * len) /\ (b + 3 * len <= dst \/ dst + len <= b).

Lemma roomy_spare m dst len : on_page len -> 0 < len -> roomy m dst len -> spare m dst len.
Proof.
  intros Hl Hp (b & (B1 & B2 & B3 & B4 & B5) & Bf & Ba). exists b. split; [split_and!; try done; lia|]. split; [|lia]. intros p Hpp Hr. apply Bf; [done|]. unfold in_pages in *. lia.
Qed.

(** One of three parts is not touched by a range as long as a part. *)
Lemma roomy_rest m m' dst len a : on_page len -> 0 < len -> on_page a -> roomy m dst len -> (forall p, on_page p -> ~ in_pages a len p -> m p = [] -> m' p = []) -> spare m' dst len.
Proof.
  intros Hl Hp Ha (b & (B1 & B2 & B3 & B4 & B5) & Bf & Ba) Hk.
  assert (Hb : exists c, (c = b \/ c = b + 2 * len) /\ (a + len <= c \/ c + len <= a)) by (destruct (Z.le_gt_cases (b + len) a); [exists b|exists (b + 2 * len)]; lia).
  destruct Hb as (c & Hc & Hca). assert (H2 : on_page (b + 2 * len)) by (replace (b + 2 * len) with (b + len + len) by lia; auto with criu).
  exists c. split; [|split; [|lia]].
  - split_and!; try done; try lia. by destruct Hc as [-> | ->].
  - intros p Hpp Hr. apply Hk; [done|unfold in_pages in *; lia|]. apply Bf; [done|]. unfold in_pages in *. lia.
Qed.

(** What [vma_remap] may change in the entry. *)
Definition same_entry (v v' : rst_entry) : Prop := re_fd v' = re_fd v /\ (v' = v \/ re_is v VMA_AREA_SHSTK = true /\ exists a, re_e v' = set_shmid a (re_e v)).

Lemma vma_remap_ok v uffd s env : let src := vma_premmaped_start v in let dst := va_start (re_e v) in let len := vma_area_len (re_e v) in
  range_ok src len -> range_ok dst len -> all_mapped (sp_mem s) src len ->
  (forall p, on_page p -> in_pages dst len p -> sp_mem s p <> [] -> in_pages src len p) ->
  exists ret v' s' env', vma_remap task_size place v uffd s env = Ret (ret, v', s', env') /\ same_entry v v' /\
    (ret = 0 -> moved src dst len (sp_mem s) (sp_mem s') /\ sp_uffd s' = sp_uffd s ++ registered uffd (vma_premmaped_start v') v) /\
    (calm env -> place_live task_size place -> roomy (sp_mem s) dst len -> ret = 0 /\ calm env').
Proof.
  intros src dst len HS HD Hm Hd. pose proof HS as (S1 & S2 & S3 & S4 & S5). unfold vma_remap. destruct (re_is v VMA_AREA_SHSTK) eqn:Esh; cycle 1.
  { cbn [obind Z.eqb negb]. destruct (vma_move_ok v uffd s env HS HD Hm Hd) as (ret & s' & e' & -> & M1 & M2). exists ret, v, s', e'. split; [done|]. split; [by split; [|left]|]. split; [done|].
    intros Hc HL Hr. apply M2; [done..|]. by apply roomy_spare. }
  unfold shstk_vma_restore. fold src len. destruct (sys_mmap_anon_ok 0 len s env) as (r1 & s1 & e1 & -> & U1 & I1 & R1 & C1). destruct r1 as [a|]; cycle 1.
  { cbn [obind Z.eqb negb]. eexists _, _, _, _. split; [done|]. split; [by split; [|left]|]. split; [done|]. intros Hc HL (b & (B1 & B2 & B3 & B4 & B5) & Bf & Ba). exfalso.
    rewrite Hc in R1. destruct R1 as [?|R1]; [done|]. apply (pl_room _ _ HL (sp_mem s) len b); [done|done|done|lia|done| |done]. intros p Hp Hr. apply Bf; [done|]. unfold in_pages in *. lia. }
  destruct R1 as (A1 & A2 & A3 & A4 & R1 & _).
  destruct (shstk_moved (sp_mem s) src dst len a (sp_mem s) HS HD Hm A1 A4 Hd) as (T1 & T2 & T3 & T4 & _). rewrite <- R1 in T1. rewrite (proj2 (mapped_range_true _ src len S1 S2 ltac:(lia)) T1). cbn [negb].
  unfold sys_munmap. destruct (xalloc (k_maps e1)) as [ok mp] eqn:Ex. destruct (Z.eqb_spec len 0) as [?|_]; [lia|]. rewrite !Z.gtb_ltb.
  destruct (Z.ltb_spec task_size src) as [?|_]; [lia|]. destruct (Z.ltb_spec (task_size - src) len) as [?|_]; [lia|]. rewrite !orb_false_r.
  destruct ok; cbn [negb]; cbn [obind Z.eqb negb]; cycle 1.
  { eexists _, _, _, _. split; [done|]. split; [by split; [|left]|]. split; [done|]. intros Hc _ _. rewrite (C1 Hc) in Ex. done. }
  set (s3 := set_sp_mem (unmap_pages _ src len) _). set (v' := RstEntry (set_shmid a (re_e v)) (re_fd v)).
  assert (E3 : sp_mem s3 = unmap_pages (map_pages (map_pages (sp_mem s) a len (fun _ => anon_page)) a len (fun k => map_pages (sp_mem s) a len (fun _ => anon_page) (src + k * PAGE_SIZE))) src len) by (cbn; by rewrite R1).
  assert (U3 : sp_uffd s3 = sp_uffd s) by (cbn; done).
  destruct (vma_move_ok v' uffd s3 (KEnv mp (k_ioctls e1))) as (ret & s' & e' & -> & M1 & M2); [by split_and!|done|by rewrite E3|rewrite E3; exact T3|].
  exists ret, v', s', e'. split; [done|]. split; [split; [done|right; split; [done|by exists a]]|]. split.
  - intros Hr. destruct (M1 Hr) as [Mv ->]. rewrite U3. split; [|done]. destruct (shstk_moved (sp_mem s) src dst len a (sp_mem s') HS HD Hm A1 A4 Hd) as (_ & _ & _ & _ & T5). apply T5. rewrite <- E3. exact Mv.
  - intros Hc HL Hr. apply M2; [|done|].
    + rewrite (C1 Hc) in Ex. cbn in Ex. injection Ex as <-. by rewrite (C1 Hc).
    + apply (roomy_rest (sp_mem s) _ _ _ a); try done. rewrite E3. exact T4.
Qed.
End Remap.

(** ** Moving all areas *)
Section Shift.
Context (task_size : Z) (place : memory -> Z -> Z -> option Z) (Hplace : place_ok task_size place) (Htask : task_size < 2 ^ 62).
Context (vs : list rst_entry) (m0 : memory).

Abbreviation dst_of v := (va_start (re_e v)).
Abbreviation src_of := vma_premmaped_start.
Definition len_of (v : rst_entry) : Z := vma_area_len (re_e v).
Definition in_dst (v : rst_entry) (p : Z) : Prop := in_pages (dst_of v) (len_of v) p.
Definition in_src (v : rst_entry) (p : Z) : Prop := in_pages (src_of v) (len_of v) p.
Definition premapped_at (i : nat) (v : rst_entry) : Prop := vs !! i = Some v /\ re_is v VMA_PREMMAPED = true.

(** Both the premapped places and the targets ascend; no area that goes to the
    right is below one that goes to the left; nothing but premapped areas is
    mapped where the areas go; a shadow stack goes to the right. *)
Record shiftable : Prop := Shiftable {
  sh_range : forall i v, premapped_at i v -> range_ok task_size (src_of v) (len_of v) /\ range_ok task_size (dst_of v) (len_of v) /\ va_end (re_e v) = dst_of v + len_of v;
  sh_src : forall i j v w, premapped_at i v -> premapped_at j w -> (i < j)%nat -> src_of v + len_of v <= src_of w;
  sh_dst : forall i j v w, premapped_at i v -> premapped_at j w -> (i < j)%nat -> dst_of v + len_of v <= dst_of w;
  sh_sides : forall i j v w, premapped_at i v -> premapped_at j w -> (i < j)%nat -> src_of v < dst_of v -> src_of w <= dst_of w;
  sh_mapped : forall i v, premapped_at i v -> all_mapped m0 (src_of v) (len_of v);
  sh_clear : forall i v p, premapped_at i v -> on_page p -> in_dst v p -> m0 p <> [] -> exists j w, premapped_at j w /\ in_src w p;
  sh_shstk : forall i v, premapped_at i v -> re_is v VMA_AREA_SHSTK = true -> src_of v < dst_of v
}.
Context (Hsh : shiftable).

(** Room for the detours. *)
Definition has_room : Prop := exists b L, range_ok task_size b L /\ all_free m0 b L /\
  (forall i v, premapped_at i v -> 3 * len_of v <= L /\ (b + L <= src_of v \/ src_of v + len_of v <= b) /\ (b + L <= dst_of v \/ dst_of v + len_of v <= b)).

Lemma premapped_unique i v w : premapped_at i v -> premapped_at i w -> v = w.
Proof. intros [? _] [? _]. congruence. Qed.

Lemma src_apart i j v w p : premapped_at i v -> premapped_at j w -> i <> j -> in_src v p -> ~ in_src w p.
Proof.
  intros Hv Hw Hne. unfold in_src, in_pages. destruct (Nat.lt_ge_cases i j) as [H|H]; [pose proof (sh_src Hsh _ _ _ _ Hv Hw H)|pose proof (sh_src Hsh _ _ _ _ Hw Hv ltac:(lia))]; lia.
Qed.
Lemma dst_apart i j v w p : premapped_at i v -> premapped_at j w -> i <> j -> in_dst v p -> ~ in_dst w p.
Proof.
  intros Hv Hw Hne. unfold in_dst, in_pages. destruct (Nat.lt_ge_cases i j) as [H|H]; [pose proof (sh_dst Hsh _ _ _ _ Hv Hw H)|pose proof (sh_dst Hsh _ _ _ _ Hw Hv ltac:(lia))]; lia.
Qed.

(** The areas of [dn] are at their targets, the others still premapped. *)
Record shift_inv (dn : nat -> bool) (m : memory) : Prop := ShiftInv {
  si_done : forall i v p, premapped_at i v -> dn i = true -> on_page p -> in_dst v p -> m p = m0 (p - dst_of v + src_of v);
  si_todo : forall i v p, premapped_at i v -> dn i = false -> on_page p -> in_src v p -> m p = m0 p;
  si_left : forall p, on_page p -> (forall i v, premapped_at i v -> dn i = true -> ~ in_dst v p) -> (forall i v, premapped_at i v -> dn i = false -> ~ in_src v p) ->
    ((forall i v, premapped_at i v -> ~ in_src v p) -> m p = m0 p) /\ (forall i v, premapped_at i v -> in_src v p -> m p = []);
  si_apart : forall i j v w p, premapped_at i v -> premapped_at j w -> dn i = true -> dn j = false -> in_dst v p -> ~ in_src w p
}.

Lemma shift_inv_start : shift_inv (fun _ => false) m0.
Proof. split; try done. intros p Hp _ Hs. split; [done|]. intros i v Hv Hr. by destruct (Hs i v Hv eq_refl). Qed.

Lemma shift_inv_ext dn m m' : (forall p, on_page p -> m' p = m p) -> shift_inv dn m -> shift_inv dn m'.
Proof.
  intros E [S1 S2 S3 S4]. split; [| | |done].
  - intros i v p Hv Hd Hp Hr. rewrite E by done. by apply (S1 i).
  - intros i v p Hv Hd Hp Hr. rewrite E by done. by apply (S2 i v).
  - intros p Hp H1 H2. rewrite E by done. by apply S3.
Qed.

Lemma some_src p : (exists i v, premapped_at i v /\ in_src v p) \/ (forall i v, premapped_at i v -> ~ in_src v p).
Proof.
  destruct (list_find (fun v => re_is v VMA_PREMMAPED = true /\ src_of v <= p < src_of v + len_of v) vs) as [[i v]|] eqn:E.
  - left. apply list_find_Some in E as (Hi & [H1 H2] & _). by exists i, v.
  - right. apply list_find_None in E. rewrite Forall_forall in E. intros i v [Hi Hp] Hr. apply (E v); [by eapply list_elem_of_lookup_2|done].
Qed.

(** An area whose target avoids what is still premapped can be moved. *)
Definition target_free (dn : nat -> bool) (i : nat) (v : rst_entry) : Prop := forall j w p, premapped_at j w -> dn j = false -> j <> i -> in_dst v p -> ~ in_src w p.

Lemma target_clear dn i v m p : shift_inv dn m -> premapped_at i v -> dn i = false -> target_free dn i v -> on_page p -> in_dst v p -> m p <> [] -> in_src v p.
Proof.
  intros [S1 S2 S3 S4] Hv Hd Hf Hp Hr Hn. destruct (decide (src_of v <= p < src_of v + len_of v)) as [?|Hns]; [done|]. exfalso.
  assert (Q1 : forall j w, premapped_at j w -> dn j = true -> ~ in_dst w p).
  { intros j w Hw Hdj Hin. assert (j <> i) by congruence. by apply (dst_apart j i w v p Hw Hv). }
  assert (Q2 : forall j w, premapped_at j w -> dn j = false -> ~ in_src w p).
  { intros j w Hw Hdj. destruct (decide (j = i)) as [->|Hne]; [by rewrite (premapped_unique _ _ _ Hw Hv)|]. by apply (Hf j). }
  destruct (S3 p Hp Q1 Q2) as [T1 T2]. destruct (some_src p) as [(j & w & Hw & Hin)|Hno]; [by rewrite (T2 j w) in Hn|].
  rewrite T1 in Hn by done. destruct (sh_clear Hsh i v p Hv Hp Hr Hn) as (j & w & Hw & Hin). by apply (Hno j w).
Qed.

Definition mark (i : nat) (dn : nat -> bool) : nat -> bool := fun j => if decide (j = i) then true else dn j.

Lemma shift_step dn i v m m' : shift_inv dn m -> premapped_at i v -> dn i = false -> target_free dn i v -> moved (src_of v) (dst_of v) (len_of v) m m' -> shift_inv (mark i dn) m'.
Proof.
  intros Hi Hv Hd Hf [M1 M2 M3]. pose proof Hi as [S1 S2 S3 S4]. destruct (sh_range Hsh i v Hv) as ((R1 & R2 & R3 & R4 & R5) & (R6 & _) & _).
  split; unfold mark.
  - intros j w p Hw Hdj Hp Hr. destruct (decide (j = i)) as [->|Hne].
    + rewrite (premapped_unique _ _ _ Hw Hv) in *. rewrite M1 by done. apply (S2 i v); [done|done|auto with criu|]. unfold in_src, in_dst, in_pages in *. lia.
    + rewrite M3; [by apply (S1 j)|done| |]; [by apply (S4 j i w v p)|by apply (dst_apart j i w v)].
  - intros j w p Hw Hdj Hp Hr. destruct (decide (j = i)) as [->|Hne]; [done|].
    rewrite M3; [by apply (S2 j w)|done| |]; [by apply (src_apart j i w v)|]. intros Hin. by apply (Hf j w p).
  - intros p Hp H1 H2. assert (Hnd : ~ in_dst v p) by (apply (H1 i); [done|by rewrite decide_True]).
    destruct (decide (src_of v <= p < src_of v + len_of v)) as [Hin|Hns].
    { rewrite M2 by done. split; [|done]. intros Hno. by destruct (Hno i v Hv). }
    rewrite M3 by done. apply S3; [done| |].
    + intros j w Hw Hdj. apply (H1 j); [done|]. by destruct (decide (j = i)).
    + intros j w Hw Hdj. destruct (decide (j = i)) as [->|Hne]; [by rewrite (premapped_unique _ _ _ Hw Hv)|]. apply (H2 j); [done|]. by rewrite decide_False.
  - intros j k w u p Hw Hu Hdj Hdk Hin. destruct (decide (k = i)) as [->|Hki]; [done|]. destruct (decide (j = i)) as [->|Hji].
    + rewrite (premapped_unique _ _ _ Hw Hv) in Hin. by apply (Hf k).
    + by apply (S4 j k w u).
Qed.

Lemma room_roomy dn m i v : has_room -> shift_inv dn m -> premapped_at i v -> roomy task_size m (dst_of v) (len_of v).
Proof.
  intros (b & L & (B1 & B2 & B3 & B4 & B5) & Bf & Ba) [S1 S2 S3 S4] Hv. destruct (Ba i v Hv) as (L1 & _ & L3). destruct (sh_range Hsh i v Hv) as ((_ & R2 & _ & R4 & _) & _ & _).
  exists b. split; [split_and!; try done; try lia; replace (3 * len_of v) with (len_of v + len_of v + len_of v) by lia; auto with criu|]. split; [|lia].
  intros p Hp Hr. assert (Hin : in_pages b L p) by (unfold in_pages in *; lia). rewrite <- (Bf p Hp Hin). apply S3; [done| | |].
  - intros j w Hw _. destruct (Ba j w Hw) as (_ & _ & ?). unfold in_dst, in_pages in *. lia.
  - intros j w Hw _. destruct (Ba j w Hw) as (_ & ? & _). unfold in_src, in_pages in *. lia.
  - intros j w Hw. destruct (Ba j w Hw) as (_ & ? & _). unfold in_src, in_pages in *. lia.
Qed.

(** ** The two loops *)
Context (uffd : Z) (R0 : list (Z * Z)).

(** Only lazy areas are registered; those of [dn] that were moved all are. *)
Record uffd_inv (dn : nat -> bool) (R : list (Z * Z)) : Prop := UffdInv {
  ui_only : exists L, R = R0 ++ L /\ forall r, r ∈ L -> uffd <> -1 /\ exists i v, premapped_at i v /\ vma_entry_can_be_lazy (re_e v) = true /\ r = (dst_of v, len_of v);
  ui_all : forall i v, premapped_at i v -> dn i = true -> vma_entry_can_be_lazy (re_e v) = true -> re_is v VMA_AREA_SHSTK = false -> src_of v <> dst_of v -> uffd <> -1 -> (dst_of v, len_of v) ∈ R
}.

Lemma uffd_inv_start : uffd_inv (fun _ => false) R0.
Proof. split; [|done]. exists []. rewrite app_nil_r. split; [done|]. intros r Hr. by apply elem_of_nil in Hr. Qed.

Lemma uffd_inv_step dn R i v v' : uffd_inv dn R -> premapped_at i v -> same_entry v v' -> uffd_inv (mark i dn) (R ++ registered uffd (src_of v') v).
Proof.
  intros [(L & -> & U1) U2] Hv [_ Hs]. split.
  - exists (L ++ registered uffd (src_of v') v). rewrite app_assoc. split; [done|]. intros r Hr. apply elem_of_app in Hr as [Hr|Hr]; [by apply U1|].
    unfold registered in Hr. destruct (negb (src_of v' =? dst_of v)); cbn [andb] in Hr; [|by apply elem_of_nil in Hr].
    destruct (vma_entry_can_be_lazy (re_e v)) eqn:El; cbn [andb] in Hr; [|by apply elem_of_nil in Hr]. destruct (Z.eqb_spec uffd (-1)); cbn [negb] in Hr; [by apply elem_of_nil in Hr|].
    apply list_elem_of_singleton in Hr as ->. split; [done|]. by exists i, v.
  - intros j w Hw Hd Hl Hn Hne Hu. unfold mark in Hd. apply elem_of_app. destruct (decide (j = i)) as [->|Hji]; [|left; by apply (U2 j)].
    right. rewrite (premapped_unique _ _ _ Hw Hv) in *. destruct Hs as [->|[? _]]; [|congruence]. unfold registered. rewrite Hl. destruct (Z.eqb_spec (src_of v) (dst_of v)); [done|].
    destruct (Z.eqb_spec uffd (-1)); [done|]. by left.
Qed.

Lemma remap_step dn i v s env : shift_inv dn (sp_mem s) -> uffd_inv dn (sp_uffd s) -> premapped_at i v -> dn i = false -> target_free dn i v ->
  exists ret v' s' env', vma_remap task_size place v uffd s env = Ret (ret, v', s', env') /\ same_entry v v' /\
    (ret = 0 -> shift_inv (mark i dn) (sp_mem s') /\ uffd_inv (mark i dn) (sp_uffd s')) /\
    (calm env -> place_live task_size place -> has_room -> ret = 0 /\ calm env').
Proof.
  intros Hi Hu Hv Hd Hf. destruct (sh_range Hsh i v Hv) as (R1 & R2 & _).
  destruct (vma_remap_ok task_size place Hplace Htask v uffd s env R1 R2) as (ret & v' & s' & e' & E & Hs & M & C).
  - intros p Hp Hr. rewrite (si_todo _ _ Hi i v p Hv Hd Hp Hr). by apply (sh_mapped Hsh i v Hv).
  - intros p Hp Hr Hn. by apply (target_clear dn i v (sp_mem s) p).
  - exists ret, v', s', e'. split; [done|]. split; [done|]. split.
    + intros Hr. destruct (M Hr) as [M1 ->]. split; [by apply (shift_step dn i v (sp_mem s))|by apply uffd_inv_step].
    + intros Hc HL Hroom. apply C; [done..|]. by apply (room_roomy dn _ i).
Qed.

(** An area that is where it belongs. *)
Lemma remap_again dn i v s env : shift_inv dn (sp_mem s) -> uffd_inv dn (sp_uffd s) -> premapped_at i v -> dn i = true -> src_of v = dst_of v ->
  exists s' env', vma_remap task_size place v uffd s env = Ret (0, v, s', env') /\ shift_inv dn (sp_mem s') /\ uffd_inv dn (sp_uffd s') /\ (calm env -> calm env').
Proof.
  intros Hi Hu Hv Hd He. unfold vma_remap. destruct (re_is v VMA_AREA_SHSTK) eqn:Es; [pose proof (sh_shstk Hsh i v Hv Es); lia|]. cbn [obind Z.eqb negb].
  unfold vma_move. rewrite He, Z.eqb_refl. by eexists _, _.
Qed.

(** What the first loop has done when it is over. *)
Definition left_done (dn : nat -> bool) : Prop := forall i v, premapped_at i v -> if dn i then dst_of v <= src_of v else src_of v <= dst_of v.

(** The first [n] entries are behind the first loop. *)
Definition left_state (n : nat) (dn : nat -> bool) : Prop := forall i v, premapped_at i v ->
  if decide (i < n)%nat then (if dn i then dst_of v <= src_of v else task_size <= va_end (re_e v)) else dn i = false.

Lemma left_state_next n dn dn' : left_state n dn -> (forall j, j <> n -> dn' j = dn j) ->
  (forall v, premapped_at n v -> if dn' n then dst_of v <= src_of v else task_size <= va_end (re_e v)) -> left_state (S n) dn'.
Proof.
  intros Hs He Hn i v Hv. specialize (Hs i v Hv). destruct (decide (i = n)) as [->|Hne]; [rewrite decide_True by lia; by apply Hn|]. rewrite He by done.
  destruct (decide (i < n)%nat), (decide (i < S n)%nat); try lia; done.
Qed.

(** An area that reaches the end of the address space does not go to the left. *)
Lemma top_area i v : premapped_at i v -> task_size <= va_end (re_e v) -> src_of v <= dst_of v.
Proof. intros Hv Ht. destruct (sh_range Hsh i v Hv) as ((_ & _ & _ & _ & ?) & _ & ?). lia. Qed.

Lemma left_state_done n dn : left_state n dn -> (forall i v, premapped_at i v -> (n <= i)%nat -> src_of v <= dst_of v) -> left_done dn.
Proof.
  intros Hs Hn i v Hv. specialize (Hs i v Hv). destruct (decide (i < n)%nat) as [Hlt|Hge]; [destruct (dn i); [done|by apply (top_area i)]|]. rewrite Hs. apply (Hn i); [done|lia].
Qed.

(** In the first loop a target lies below everything still premapped. *)
Lemma left_target n dn v : left_state n dn -> premapped_at n v -> dst_of v <= src_of v -> target_free dn n v.
Proof.
  intros Hs Hv Hle j w p Hw Hdj Hne. specialize (Hs j w Hw). unfold in_dst, in_src, in_pages. destruct (decide (j < n)%nat) as [Hlt|Hge].
  - rewrite Hdj in Hs. pose proof (sh_dst Hsh _ _ _ _ Hw Hv Hlt). destruct (sh_range Hsh j w Hw) as (_ & _ & ?). destruct (sh_range Hsh n v Hv) as (_ & (_ & _ & _ & ? & ?) & _). lia.
  - pose proof (sh_src Hsh _ _ _ _ Hv Hw ltac:(lia)). lia.
Qed.

Lemma shift_left_ok rest : forall pre dn s env, vs = pre ++ rest -> shift_inv dn (sp_mem s) -> uffd_inv dn (sp_uffd s) -> left_state (length pre) dn ->
  exists ret s' env' dn', shift_left task_size place rest uffd s env = Ret (ret, rest, s', env') /\
    (ret = 0 -> shift_inv dn' (sp_mem s') /\ uffd_inv dn' (sp_uffd s') /\ left_done dn') /\
    (calm env -> place_live task_size place -> has_room -> ret = 0 /\ calm env').
Proof.
  induction rest as [|v rest IH]; intros pre dn s env Evs Hi Hu Hp; cbn [shift_left].
  { eexists _, _, _, dn. split; [done|]. split; [|done]. intros _. split; [done|]. split; [done|]. apply (left_state_done (length pre)); [done|]. intros i v [Hl _] Hge.
    apply lookup_lt_Some in Hl. rewrite Evs, app_nil_r in Hl. lia. }
  assert (Hlook : vs !! length pre = Some v) by (rewrite Evs; by apply list_lookup_middle).
  assert (Hnext : forall dn' s env, shift_inv dn' (sp_mem s) -> uffd_inv dn' (sp_uffd s) -> (forall j, j <> length pre -> dn' j = dn j) ->
    (forall v, premapped_at (length pre) v -> if dn' (length pre) then dst_of v <= src_of v else task_size <= va_end (re_e v)) ->
    exists ret s' env' dn', (let! (ret, rest, s, env) := shift_left task_size place rest uffd s env in Ret (ret, v :: rest, s, env)) = Ret (ret, v :: rest, s', env') /\
      (ret = 0 -> shift_inv dn' (sp_mem s') /\ uffd_inv dn' (sp_uffd s') /\ left_done dn') /\
      (calm env -> place_live task_size place -> has_room -> ret = 0 /\ calm env')).
  { intros dn1 s1 e1 H1 H2 H3 H4. destruct (IH (pre ++ [v]) dn1 s1 e1 ltac:(by rewrite <- app_assoc) H1 H2) as (ret & s' & e' & dn' & -> & Q); [|by exists ret, s', e', dn'].
    rewrite length_app, Nat.add_1_r. by apply (left_state_next _ dn). }
  clear IH. destruct (re_is v VMA_PREMMAPED) eqn:Epm; cbn [negb]; [|apply (Hnext dn); [done|done|done|]; intros w [Hw1 Hw2]; congruence].
  assert (Hv : premapped_at (length pre) v) by done. pose proof (Hp _ _ Hv) as Hdn. rewrite decide_False in Hdn by lia.
  rewrite Z.geb_leb, Z.gtb_ltb. destruct (Z.leb_spec task_size (va_end (re_e v))) as [Htop|Hlow].
  { apply (Hnext dn); [done|done|done|]. intros w Hw. rewrite Hdn. by rewrite (premapped_unique _ _ _ Hw Hv). }
  fold (src_of v). destruct (Z.ltb_spec (src_of v) (dst_of v)) as [Hright|Hleft].
  { eexists _, _, _, dn. split; [done|]. split; [|done]. intros _. split; [done|]. split; [done|]. apply (left_state_done (length pre)); [done|]. intros i w Hw Hge.
    destruct (decide (i = length pre)) as [->|Hne]; [rewrite (premapped_unique _ _ _ Hw Hv); lia|]. apply (sh_sides Hsh _ _ _ _ Hv Hw); lia. }
  destruct (remap_step dn (length pre) v s env Hi Hu Hv Hdn) as (ret & v' & s1 & e1 & -> & Hs & M & C); [by apply left_target|].
  cbn [obind]. assert (v' = v) as ->. { destruct Hs as [_ [->|[Es _]]]; [done|]. pose proof (sh_shstk Hsh _ v Hv Es). lia. }
  destruct (Z.eqb_spec ret 0) as [->|Hne]; cbn [negb]; [|eexists _, _, _, dn; split; [done|]; split; [done|]; intros H1 H2 H3; by destruct (C H1 H2 H3)].
  destruct (M eq_refl) as [M1 M2]. destruct (Hnext (mark (length pre) dn) s1 e1 M1 M2) as (ret & s' & e' & dn' & -> & Q1 & Q2).
  { intros j Hj. unfold mark. by rewrite decide_False. }
  { intros w Hw. unfold mark. rewrite decide_True by done. by rewrite (premapped_unique _ _ _ Hw Hv). }
  exists ret, s', e', dn'. split; [done|]. split; [done|]. intros H1 H2 H3. destruct (C H1 H2 H3) as [_ H4]. by apply Q2.
Qed.

(** The entries from [n] on are behind the second loop. *)
Definition right_state (n : nat) (dn : nat -> bool) : Prop := forall i v, premapped_at i v ->
  if decide (i < n)%nat then (if dn i then dst_of v <= src_of v else src_of v <= dst_of v) else dn i = true.

Lemma right_state_next n dn dn' : right_state (S n) dn -> (forall j, j <> n -> dn' j = dn j) -> (forall v, premapped_at n v -> dn' n = true) -> right_state n dn'.
Proof.
  intros Hs He Hn i v Hv. specialize (Hs i v Hv). destruct (decide (i = n)) as [->|Hne]; [rewrite decide_False by lia; by apply (Hn v)|]. rewrite He by done.
  destruct (decide (i < n)%nat), (decide (i < S n)%nat); try lia; done.
Qed.

Lemma right_target n dn v : right_state (S n) dn -> premapped_at n v -> src_of v <= dst_of v -> target_free dn n v.
Proof.
  intros Hs Hv Hle j w p Hw Hdj Hne. specialize (Hs j w Hw). unfold in_dst, in_src, in_pages. destruct (decide (j < S n)%nat) as [Hlt|Hge]; [|congruence].
  pose proof (sh_src Hsh _ _ _ _ Hw Hv ltac:(lia)). lia.
Qed.

(** Everything is where it belongs. *)
Definition all_placed (dn : nat -> bool) : Prop := forall i v, premapped_at i v -> dn i = true \/ src_of v = dst_of v.

(** The second loop meets an area that went to the left: nothing is left over. *)
Lemma right_over n dn v : right_state (S n) dn -> premapped_at n v -> dst_of v < src_of v -> all_placed dn.
Proof.
  intros Hs Hv Hlt i w Hw. specialize (Hs i w Hw). destruct (dn i) eqn:E; [by left|right]. destruct (decide (i < S n)%nat) as [Hi|Hge]; [|done].
  destruct (decide (i = n)) as [->|Hne]; [rewrite (premapped_unique _ _ _ Hw Hv) in Hs; lia|].
  destruct (Z.lt_ge_cases (src_of w) (dst_of w)) as [Hr|?]; [|lia]. pose proof (sh_sides Hsh _ _ _ _ Hw Hv ltac:(lia) Hr). lia.
Qed.

(** An entry that is not premapped is not changed at all. *)
Definition kept (v v' : rst_entry) : Prop := same_entry v v' /\ (re_is v VMA_PREMMAPED = false -> v' = v).

Lemma kept_refl v : kept v v.
Proof. split; [split; [done|by left]|done]. Qed.
Lemma kept_entries_refl l : Forall2 kept l l.
Proof. induction l; constructor; [apply kept_refl|done]. Qed.

Lemma kept_entries_rev l k : Forall2 kept l k -> Forall2 kept (rev l) (rev k).
Proof. induction 1; cbn [rev]; [constructor|]. apply Forall2_app; [done|]. by constructor. Qed.

Lemma shift_right_ok rest : forall post dn s env, vs = rev rest ++ post -> shift_inv dn (sp_mem s) -> uffd_inv dn (sp_uffd s) -> right_state (length rest) dn ->
  exists ret rest' s' env' dn', shift_right task_size place rest uffd s env = Ret (ret, rest', s', env') /\ Forall2 kept rest rest' /\
    (ret = 0 -> shift_inv dn' (sp_mem s') /\ uffd_inv dn' (sp_uffd s') /\ all_placed dn') /\
    (calm env -> place_live task_size place -> has_room -> ret = 0 /\ calm env').
Proof.
  induction rest as [|v rest IH]; intros post dn s env Evs Hi Hu Hp; cbn [shift_right].
  { eexists _, _, _, _, dn. split; [done|]. split; [constructor|]. split; [|done]. intros _. split; [done|]. split; [done|]. intros i v Hv. left. specialize (Hp i v Hv). by rewrite decide_False in Hp by (cbn; lia). }
  cbn [rev] in Evs. rewrite <- app_assoc in Evs. cbn [app length] in *.
  assert (Hlook : vs !! length rest = Some v) by (rewrite Evs; apply list_lookup_middle; by rewrite length_rev).
  assert (Hnext : forall v' dn' s env, kept v v' -> shift_inv dn' (sp_mem s) -> uffd_inv dn' (sp_uffd s) -> (forall j, j <> length rest -> dn' j = dn j) -> (forall v, premapped_at (length rest) v -> dn' (length rest) = true) ->
    exists ret rest' s' env' dn', (let! (ret, rest, s, env) := shift_right task_size place rest uffd s env in Ret (ret, v' :: rest, s, env)) = Ret (ret, rest', s', env') /\ Forall2 kept (v :: rest) rest' /\
      (ret = 0 -> shift_inv dn' (sp_mem s') /\ uffd_inv dn' (sp_uffd s') /\ all_placed dn') /\
      (calm env -> place_live task_size place -> has_room -> ret = 0 /\ calm env')).
  { intros v1 dn1 s1 e1 H0 H1 H2 H3 H4. destruct (IH (v :: post) dn1 s1 e1 Evs H1 H2) as (ret & rest' & s' & e' & dn' & -> & F & Q); [by apply (right_state_next _ dn)|].
    exists ret, (v1 :: rest'), s', e', dn'. split; [done|]. split; [by constructor|done]. }
  clear IH. destruct (re_is v VMA_PREMMAPED) eqn:Epm; cbn [negb]; [|apply (Hnext v dn); [apply kept_refl|done|done|done|]; intros w [Hw1 Hw2]; congruence].
  assert (Hv : premapped_at (length rest) v) by done. pose proof (Hp _ _ Hv) as Hdn. rewrite decide_True in Hdn by (cbn; lia).
  destruct (sh_range Hsh _ v Hv) as (_ & (_ & _ & _ & Hlen & Hdr) & _). rewrite Z.gtb_ltb. destruct (Z.ltb_spec task_size (dst_of v)) as [?|_]; [lia|].
  fold (src_of v). destruct (Z.ltb_spec (dst_of v) (src_of v)) as [Hlt|Hge].
  { eexists _, _, _, _, dn. split; [done|]. split; [apply kept_entries_refl|]. split; [|done]. intros _. split; [done|]. split; [done|]. by apply (right_over (length rest) dn v). }
  destruct (dn (length rest)) eqn:Ed.
  { destruct (remap_again dn (length rest) v s env Hi Hu Hv Ed ltac:(lia)) as (s1 & e1 & -> & I1 & U1 & C1). cbn [obind Z.eqb negb].
    destruct (Hnext v dn s1 e1 (kept_refl v) I1 U1 ltac:(done) ltac:(by intros; rewrite Ed)) as (ret & rest' & s' & e' & dn' & -> & F & Q1 & Q2).
    exists ret, rest', s', e', dn'. split; [done|]. split; [done|]. split; [done|]. intros H1. by apply Q2, C1. }
  destruct (remap_step dn (length rest) v s env Hi Hu Hv Ed) as (ret & v' & s1 & e1 & -> & Hs & M & C); [by apply right_target|]. cbn [obind].
  destruct (Z.eqb_spec ret 0) as [->|Hne]; cbn [negb];
    [|eexists _, _, _, _, dn; split; [done|]; split; [constructor; [by split; [|congruence]|apply kept_entries_refl]|]; split; [done|]; intros H1 H2 H3; by destruct (C H1 H2 H3)].
  destruct (M eq_refl) as [M1 M2]. destruct (Hnext v' (mark (length rest) dn) s1 e1 ltac:(by split; [|congruence]) M1 M2) as (ret & rest' & s' & e' & dn' & -> & F & Q1 & Q2).
  { intros j Hj. unfold mark. by rewrite decide_False. }
  { intros w Hw. unfold mark. by rewrite decide_True. }
  exists ret, rest', s', e', dn'. split; [done|]. split; [done|]. split; [done|]. intros H1 H2 H3. destruct (C H1 H2 H3) as [_ H4]. by apply Q2.
Qed.

(** The areas at their final addresses, nothing left where they were. *)
Record placed (m : memory) : Prop := Placed {
  pc_areas : forall i v p, premapped_at i v -> on_page p -> in_dst v p -> m p = m0 (p - dst_of v + src_of v);
  pc_gone : forall i v p, premapped_at i v -> on_page p -> in_src v p -> (forall j w, premapped_at j w -> ~ in_dst w p) -> m p = [];
  pc_frame : forall p, on_page p -> (forall i v, premapped_at i v -> ~ in_src v p /\ ~ in_dst v p) -> m p = m0 p
}.

Lemma all_placed_memory dn m : shift_inv dn m -> all_placed dn -> placed m.
Proof.
  intros [S1 S2 S3 S4] Ha. split.
  - intros i v p Hv Hp Hr. destruct (dn i) eqn:Ed; [by apply (S1 i)|]. destruct (Ha i v Hv) as [?|He]; [congruence|].
    rewrite (S2 i v p Hv Ed Hp); [f_equal; lia|]. unfold in_src, in_dst in *. by rewrite He.
  - intros i v p Hv Hp Hr Hn. apply (S3 p Hp) with (i := i) (v := v); [intros j w Hw _; by apply (Hn j)| |done|done].
    intros j w Hw Hd Hin. destruct (Ha j w Hw) as [?|He]; [congruence|]. apply (Hn j w Hw). unfold in_src, in_dst in *. by rewrite <- He.
  - intros p Hp Hn. apply (S3 p Hp); intros j w Hw; [intros _| intros _|]; by destruct (Hn j w Hw).
Qed.

Lemma shift_spec s env : sp_mem s = m0 -> sp_uffd s = R0 ->
  exists ret1 ret vs' s1 env1 s' env' dn, shift_left task_size place vs uffd s env = Ret (ret1, vs, s1, env1) /\
    (ret1 = 0 -> shift_right task_size place (rev vs) uffd s1 env1 = Ret (ret, vs', s', env') /\ Forall2 kept vs (rev vs') /\
      (ret = 0 -> placed (sp_mem s') /\ all_placed dn /\ uffd_inv dn (sp_uffd s'))) /\
    (calm env -> place_live task_size place -> has_room -> ret1 = 0 /\ ret = 0 /\ calm env').
Proof.
  intros E1 E2. destruct (shift_left_ok vs [] (fun _ => false) s env) as (ret1 & s1 & e1 & dn1 & EL & L1 & L2); try done.
  { rewrite E1. apply shift_inv_start. }
  { rewrite E2. apply uffd_inv_start. }
  destruct (decide (ret1 = 0)) as [->|Hne]; cycle 1.
  { exists ret1, 0, vs, s1, e1, s1, e1, dn1. split; [done|]. split; [done|]. intros H1 H2 H3. by destruct (L2 H1 H2 H3). }
  destruct (L1 eq_refl) as (I1 & U1 & Hd). destruct (shift_right_ok (rev vs) [] dn1 s1 e1) as (ret & vs' & s' & e' & dn & ER & F & R1 & R2); try done.
  { by rewrite rev_involutive, app_nil_r. }
  { intros i v Hv. rewrite length_rev. rewrite decide_True by exact (lookup_lt_Some _ _ _ (proj1 Hv)). by apply Hd. }
  exists 0, ret, vs', s1, e1, s', e', dn. split; [done|]. split.
  - intros _. split; [done|]. split; [|intros Hr; destruct (R1 Hr) as (I2 & U2 & Ha); split; [by apply (all_placed_memory dn)|done]].
    rewrite <- (rev_involutive vs). by apply kept_entries_rev.
  - intros H1 H2 H3. destruct (L2 H1 H2 H3) as [_ H4]. destruct (R2 H4 H2 H3) as [-> H5]. done.
Qed.
End Shift.

(** ** The whole stage *)
Section Stage.
Context (task_size : Z) (place : memory -> Z -> Z -> option Z) (Hplace : place_ok task_size place) (Htask : task_size < 2 ^ 62).
Context (content : vma_area -> Z -> Z -> list Z) (segment_size : Z -> Z).

Lemma sys_munmap_ok addr len s env : 0 <= addr -> 0 < len -> addr + len <= task_size ->
  exists ok s' env', sys_munmap task_size addr len s env = (ok, s', env') /\ (ok = true -> s' = set_sp_mem (unmap_pages (sp_mem s) addr len) s) /\ (calm env -> ok = true /\ calm env').
Proof.
  intros H1 H2 H3. unfold sys_munmap. destruct (xalloc (k_maps env)) as [ok mp] eqn:Ex. destruct (Z.eqb_spec len 0) as [?|_]; [lia|]. rewrite !Z.gtb_ltb.
  destruct (Z.ltb_spec task_size addr) as [?|_]; [lia|]. destruct (Z.ltb_spec (task_size - addr) len) as [?|_]; [lia|]. rewrite !orb_false_r.
  destruct ok; cbn [negb]; eexists _, _, _; (split; [done|]); (split; [done|]); intros ->; cbn in Ex; [by injection Ex as <-|done].
Qed.

Lemma unmap_pages_in m addr len p : in_pages addr len p -> unmap_pages m addr len p = [].
Proof. unfold in_pages, unmap_pages. destruct (Z.leb_spec addr p), (Z.ltb_spec p (addr + len)); try lia; done. Qed.
Lemma unmap_pages_out m addr len p : ~ in_pages addr len p -> unmap_pages m addr len p = m p.
Proof. unfold in_pages, unmap_pages. destruct (Z.leb_spec addr p), (Z.ltb_spec p (addr + len)); cbn; try lia; done. Qed.

(** Two regions that neither touch each other nor the ends of the space. *)
Definition regions_ok (pa pl bs bl : Z) : Prop :=
  range_ok task_size pa pl /\ range_ok task_size bs bl /\ (pa + pl < bs \/ bs + bl < pa) /\ pa + pl < task_size /\ bs + bl < task_size.

Lemma unmap_three m p1 s1 p2 s2 p : 0 < p1 -> 0 < s1 -> p1 + s1 < p2 -> 0 < s2 -> p2 + s2 < task_size -> 0 <= p < task_size ->
  unmap_pages (unmap_pages (unmap_pages m 0 p1) (p1 + s1) (p2 - (p1 + s1))) (p2 + s2) (task_size - (p2 + s2)) p =
  if decide (in_pages p1 s1 p \/ in_pages p2 s2 p) then m p else [].
Proof.
  intros. case_decide as Hin.
  - rewrite !unmap_pages_out by (unfold in_pages in *; lia). done.
  - unfold unmap_pages, in_pages in *. repeat match goal with |- context [?a <=? ?b] => destruct (Z.leb_spec a b) end; repeat match goal with |- context [?a <? ?b] => destruct (Z.ltb_spec a b) end; cbn [andb]; try done; lia.
Qed.

Lemma unmap_old_vmas_ok pa pl bs bl s env : regions_ok pa pl bs bl ->
  exists ret s' env', unmap_old_vmas task_size pa pl bs bl s env = (ret, s', env') /\
    (ret = 0 -> sp_uffd s' = sp_uffd s /\ forall p, 0 <= p < task_size -> sp_mem s' p = if decide (in_pages pa pl p \/ in_pages bs bl p) then sp_mem s p else []) /\
    (calm env -> ret = 0 /\ calm env').
Proof.
  intros ((_ & _ & P1 & P2 & P3) & (_ & _ & B1 & B2 & B3) & Hd & P4 & B4). unfold unmap_old_vmas.
  assert (Hsort : exists p1 s1 p2 s2, (if pa <? bs then (pa, pl, bs, bl) else (bs, bl, pa, pl)) = (p1, s1, p2, s2) /\ 0 < p1 /\ 0 < s1 /\ p1 + s1 < p2 /\ 0 < s2 /\ p2 + s2 < task_size /\
    (forall p, in_pages pa pl p \/ in_pages bs bl p <-> in_pages p1 s1 p \/ in_pages p2 s2 p)).
  { unfold PAGE_SIZE in *. destruct (Z.ltb_spec pa bs); [exists pa, pl, bs, bl|exists bs, bl, pa, pl]; (split; [done|]); split_and!; try lia; intros p; tauto. }
  destruct Hsort as (p1 & s1 & p2 & s2 & -> & Q1 & Q2 & Q3 & Q4 & Q5 & Q6). rewrite (u64_small (p1 + s1)), (u64_small (p2 + s2)), (u64_small (p2 - _)), (u64_small (task_size - _)) by lia.
  destruct (sys_munmap_ok 0 p1 s env ltac:(lia) Q1 ltac:(lia)) as (o1 & t1 & e1 & -> & M1 & C1). destruct o1; cbn [negb]; [|eexists _, _, _; split; [done|]; split; [done|]; intros Hc; by destruct (C1 Hc)].
  destruct (sys_munmap_ok (p1 + s1) (p2 - (p1 + s1)) t1 e1 ltac:(lia) ltac:(lia) ltac:(lia)) as (o2 & t2 & e2 & -> & M2 & C2).
  destruct o2; cbn [negb]; [|eexists _, _, _; split; [done|]; split; [done|]; intros Hc; destruct (C1 Hc) as [_ Hc1]; by destruct (C2 Hc1)].
  destruct (sys_munmap_ok (p2 + s2) (task_size - (p2 + s2)) t2 e2 ltac:(lia) ltac:(lia) ltac:(lia)) as (o3 & t3 & e3 & -> & M3 & C3).
  destruct o3; cbn [negb]; eexists _, _, _; (split; [done|]); (split; [|intros Hc; destruct (C1 Hc) as [_ Hc1]; destruct (C2 Hc1) as [_ Hc2]; by destruct (C3 Hc2)]); [|done].
  intros _. rewrite (M3 eq_refl), (M2 eq_refl), (M1 eq_refl). split; [done|]. intros p Hp. cbn [sp_mem set_sp_mem]. rewrite unmap_three by lia.
  destruct (decide (in_pages p1 s1 p \/ in_pages p2 s2 p)) as [H|H], (decide (in_pages pa pl p \/ in_pages bs bl p)) as [H'|H']; try done; exfalso; rewrite Q6 in H'; done.
Qed.

(** ** The areas that are mapped anew *)

(** The entries for which a mapping is made, and its length. *)
Definition newly_mapped (v : rst_entry) : bool :=
  (re_is v VMA_AREA_REGULAR || re_is v VMA_AREA_AIORING) && negb (re_is v VMA_PREMMAPED) && negb (re_is v VMA_AREA_SYSVIPC && (re_fd v =? SYSV_SHMEM_SKIP_FD)).
Definition span (v : rst_entry) : Z := if re_is v VMA_AREA_SYSVIPC then segment_size (re_fd v) else vma_area_len (re_e v).
Definition in_span (v : rst_entry) (p : Z) : Prop := in_pages (va_start (re_e v)) (span v) p.

Record mappable (l : list rst_entry) : Prop := Mappable {
  mb_range : forall v, v ∈ l -> newly_mapped v = true -> range_ok task_size (va_start (re_e v)) (span v);
  mb_apart : forall i j v w p, l !! i = Some v -> l !! j = Some w -> i <> j -> newly_mapped v = true -> newly_mapped w = true -> in_span v p -> ~ in_span w p
}.

(** The pages of the new mappings; the other pages as they were. *)
Record mapped_anew (l : list rst_entry) (m m' : memory) : Prop := MappedAnew {
  mn_new : forall v p, v ∈ l -> newly_mapped v = true -> in_span v p -> m' p = content (re_e v) (re_fd v) ((p - va_start (re_e v)) / PAGE_SIZE);
  mn_frame : forall p, (forall v, v ∈ l -> newly_mapped v = true -> ~ in_span v p) -> m' p = m p
}.

Lemma mappable_cons v l : mappable (v :: l) -> mappable l /\ forall w p, w ∈ l -> newly_mapped v = true -> newly_mapped w = true -> in_span w p -> ~ in_span v p.
Proof.
  intros [R A]. split; [split; [intros w Hw; apply R; by right|]|].
  - intros i j u w p Hu Hw Hne. by apply (A (S i) (S j)); try done; lia.
  - intros w p Hw Nv Nw Hin Hv. apply list_elem_of_lookup in Hw as [j Hj]. by apply (A 0%nat (S j) v w p).
Qed.

(** One entry, given that its place is free. *)
Lemma restore_mapping_ok v s env : newly_mapped v = true -> range_ok task_size (va_start (re_e v)) (span v) -> all_free (sp_mem s) (va_start (re_e v)) (span v) ->
  exists r v' s' env', restore_mapping content segment_size v s env = (r, v', s', env') /\ va_start (re_e v') = va_start (re_e v) /\ sp_uffd s' = sp_uffd s /\ k_ioctls env' = k_ioctls env /\
    match r with
    | Some a => a = va_start (re_e v) /\ sp_mem s' = map_pages (sp_mem s) (va_start (re_e v)) (span v) (content (re_e v) (re_fd v))
    | None => k_maps env <> []
    end /\ (calm env -> calm env').
Proof.
  intros Hn (R1 & R2 & R3 & R4 & R5) Hf. unfold restore_mapping, span, newly_mapped in *. fold (re_is v VMA_AREA_SYSVIPC). destruct (re_is v VMA_AREA_SYSVIPC) eqn:Es.
  - destruct (re_fd v =? SYSV_SHMEM_SKIP_FD); [by rewrite andb_false_r in Hn|]. destruct (xalloc (k_maps env)) as [ok mp] eqn:Ex. rewrite (proj2 (free_range_true _ _ _ R1 R2 ltac:(lia)) Hf), andb_true_r.
    destruct ok; eexists _, _, _, _; (split; [done|]); (split; [by destruct (has (va_prot (re_e v)) PROT_EXEC)|]); (split_and!; try done).
    + intros ->. cbn in Ex. by injection Ex as <-.
    + by destruct (k_maps env).
    + intros ->. done.
  - destruct (xalloc (k_maps env)) as [ok mp] eqn:Ex. destruct ok; eexists _, _, _, _; (split; [done|]); split_and!; try done.
    + intros ->. cbn in Ex. by injection Ex as <-.
    + by destruct (k_maps env).
    + intros ->. done.
Qed.

Lemma map_rest_ok l : forall s env, mappable l -> (forall v, v ∈ l -> newly_mapped v = true -> all_free (sp_mem s) (va_start (re_e v)) (span v)) ->
  exists ret l' s' env', map_rest content segment_size l s env = (ret, l', s', env') /\ (ret = 0 -> mapped_anew l (sp_mem s) (sp_mem s') /\ sp_uffd s' = sp_uffd s) /\ (calm env -> ret = 0 /\ calm env').
Proof.
  induction l as [|v l IH]; intros s env Hm Hf; cbn [map_rest].
  { eexists _, _, _, _. split; [done|]. split; [|done]. intros _. split; [|done]. split; [intros v p Hv; by apply elem_of_nil in Hv|done]. }
  destruct (mappable_cons _ _ Hm) as [Hm' Hap].
  assert (Hskip : newly_mapped v = false -> forall v' s1 env1, sp_mem s1 = sp_mem s -> sp_uffd s1 = sp_uffd s -> (calm env -> calm env1) -> exists ret l' s' env',
    (let '(ret, rest, s, env) := map_rest content segment_size l s1 env1 in (ret, v' :: rest, s, env)) = (ret, l', s', env') /\
    (ret = 0 -> mapped_anew (v :: l) (sp_mem s) (sp_mem s') /\ sp_uffd s' = sp_uffd s) /\ (calm env -> ret = 0 /\ calm env')).
  { intros Hn v' s1 e1 E1 E2 E3. destruct (IH s1 e1 Hm' ltac:(rewrite E1; intros w Hw; apply Hf; by right)) as (ret & l' & s' & e' & -> & A & C). eexists _, _, _, _. split; [done|]. split; [|intros Hc; by apply C, E3].
    intros Hr. destruct (A Hr) as [[A1 A2] ->]. split; [|done]. rewrite E1 in A2. split.
    - intros w p Hw Nw. apply elem_of_cons in Hw as [->|Hw]; [congruence|]. by apply A1.
    - intros p Hp. apply A2. intros w Hw. apply Hp. by right. }
  destruct ((negb (re_is v VMA_AREA_REGULAR) && negb (re_is v VMA_AREA_AIORING)) || re_is v VMA_PREMMAPED) eqn:Eskip.
  { apply Hskip; try done. unfold newly_mapped. destruct (re_is v VMA_AREA_REGULAR), (re_is v VMA_AREA_AIORING), (re_is v VMA_PREMMAPED); done. }
  destruct (newly_mapped v) eqn:En; cycle 1.
  { assert (Hs : re_is v VMA_AREA_SYSVIPC = true /\ re_fd v = SYSV_SHMEM_SKIP_FD).
    { unfold newly_mapped in En. destruct (re_is v VMA_AREA_REGULAR), (re_is v VMA_AREA_AIORING), (re_is v VMA_PREMMAPED), (re_is v VMA_AREA_SYSVIPC), (Z.eqb_spec (re_fd v) SYSV_SHMEM_SKIP_FD); done. }
    unfold restore_mapping. fold (re_is v VMA_AREA_SYSVIPC). destruct Hs as [-> ->]. cbn [Z.eqb]. rewrite Z.eqb_refl. cbn [negb]. rewrite Z.eqb_refl. cbn [negb]. by apply Hskip. }
  clear Hskip. destruct (restore_mapping_ok v s env En) as (r & v' & s1 & e1 & -> & Ev & U1 & _ & R1 & C1); [apply (mb_range _ Hm); [by left|done]|apply Hf; [by left|done]|].
  destruct r as [a|]; cbn [negb]; [|eexists _, _, _, _; split; [done|]; split; [done|]; intros Hc; by rewrite Hc in R1].
  destruct R1 as [-> R1]. rewrite Ev, Z.eqb_refl. cbn [negb].
  destruct (IH s1 e1 Hm') as (ret & l' & s' & e' & -> & A & C).
  { intros w Hw Nw p Hp Hr. rewrite R1, map_pages_out; [apply (Hf w); [by right|done..]|]. by apply (Hap w p). }
  eexists _, _, _, _. split; [done|]. split; [|intros Hc; by apply C, C1]. intros Hr. destruct (A Hr) as [[A1 A2] A3]. split; [|by rewrite A3]. split.
  - intros w p Hw Nw Hin. apply elem_of_cons in Hw as [->|Hw]; [|by apply A1]. rewrite A2, R1; [by apply map_pages_at|]. intros u Hu Nu Hinu. by apply (Hap u p).
  - intros p Hp. rewrite A2 by (intros w Hw; apply Hp; by right). rewrite R1. apply map_pages_out. apply (Hp v); [by left|done].
Qed.

(** ** Putting it together *)
Section Whole.
Context (vs : list rst_entry) (m : memory) (pa pl bs bl : Z).
Abbreviation premapped_at := (premapped_at vs).
Abbreviation dst_of v := (va_start (re_e v)).
Abbreviation src_of := vma_premmaped_start.

(** What the earlier stages leave: the premapped areas, mapped, in the reserved
    range and nothing else there; the restorer where no area goes; the areas
    apart from each other. *)
Record aspace_ok : Prop := AspaceOk {
  as_regions : regions_ok pa pl bs bl;
  as_range : forall i v, premapped_at i v -> range_ok task_size (src_of v) (len_of v) /\ range_ok task_size (dst_of v) (len_of v) /\ va_end (re_e v) = dst_of v + len_of v;
  as_inside : forall i v, premapped_at i v -> pa <= src_of v /\ src_of v + len_of v <= pa + pl;
  as_src : forall i j v w, premapped_at i v -> premapped_at j w -> (i < j)%nat -> src_of v + len_of v <= src_of w;
  as_dst : forall i j v w, premapped_at i v -> premapped_at j w -> (i < j)%nat -> dst_of v + len_of v <= dst_of w;
  as_sides : forall i j v w, premapped_at i v -> premapped_at j w -> (i < j)%nat -> src_of v < dst_of v -> src_of w <= dst_of w;
  as_mapped : forall i v, premapped_at i v -> all_mapped m (src_of v) (len_of v);
  as_only : forall p, on_page p -> in_pages pa pl p -> m p <> [] -> exists i v, premapped_at i v /\ in_src v p;
  as_boot : forall i v p, premapped_at i v -> in_dst v p -> ~ in_pages bs bl p;
  as_shstk : forall i v, premapped_at i v -> re_is v VMA_AREA_SHSTK = true -> src_of v < dst_of v;
  as_new : mappable vs;
  as_new_boot : forall v p, v ∈ vs -> newly_mapped v = true -> in_span v p -> ~ in_pages bs bl p;
  as_new_dst : forall i v w p, premapped_at i v -> w ∈ vs -> newly_mapped w = true -> in_span w p -> ~ in_dst v p
}.
Context (Has : aspace_ok).

Lemma in_range_page a len p : range_ok task_size a len -> in_pages a len p -> 0 <= p < task_size.
Proof. intros (_ & _ & ? & _ & ?). unfold in_pages, PAGE_SIZE in *. lia. Qed.

(** After the old areas are gone. *)
Lemma unmapped_shiftable m1 : (forall p, 0 <= p < task_size -> m1 p = if decide (in_pages pa pl p \/ in_pages bs bl p) then m p else []) -> shiftable task_size vs m1.
Proof.
  intros E. assert (Es : forall i v p, premapped_at i v -> in_src v p -> m1 p = m p).
  { intros i v p Hv Hr. destruct (as_range Has i v Hv) as (R1 & _). rewrite E by (by eapply in_range_page). rewrite decide_True; [done|]. left. pose proof (as_inside Has i v Hv). unfold in_src, in_pages in *. lia. }
  split.
  - apply (as_range Has).
  - apply (as_src Has).
  - apply (as_dst Has).
  - apply (as_sides Has).
  - intros i v Hv p Hp Hr. rewrite (Es i v p Hv Hr). by apply (as_mapped Has i v Hv).
  - intros i v p Hv Hp Hr Hn. destruct (as_range Has i v Hv) as (_ & R2 & _). rewrite E in Hn by (by eapply in_range_page). destruct (decide (in_pages pa pl p \/ in_pages bs bl p)) as [[Hin|Hin]|]; [|by destruct (as_boot Has i v p Hv Hr)|done].
    by apply (as_only Has p).
  - apply (as_shstk Has).
Qed.

(** The address space of the restored process: the premapped areas, the newly
    mapped ones and the restorer, nothing else. *)
Record restored_space (m' : memory) : Prop := RestoredSpace {
  rs_premapped : forall i v p, premapped_at i v -> on_page p -> in_dst v p -> m' p = m (p - dst_of v + src_of v);
  rs_new : forall v p, v ∈ vs -> newly_mapped v = true -> in_span v p -> m' p = content (re_e v) (re_fd v) ((p - dst_of v) / PAGE_SIZE);
  rs_restorer : forall p, on_page p -> in_pages bs bl p -> m' p = m p;
  rs_nothing : forall p, on_page p -> 0 <= p < task_size -> ~ in_pages bs bl p -> (forall i v, premapped_at i v -> ~ in_dst v p) ->
    (forall v, v ∈ vs -> newly_mapped v = true -> ~ in_span v p) -> m' p = []
}.

(** Room for the detours, beside everything. *)
Definition detour_room : Prop := exists b L, range_ok task_size b L /\
  (forall i v, premapped_at i v -> 3 * len_of v <= L /\ (b + L <= dst_of v \/ dst_of v + len_of v <= b)) /\ (b + L <= pa \/ pa + pl <= b) /\ (b + L <= bs \/ bs + bl <= b).

Lemma detour_has_room m1 : (forall p, 0 <= p < task_size -> m1 p = if decide (in_pages pa pl p \/ in_pages bs bl p) then m p else []) -> detour_room -> has_room task_size vs m1.
Proof.
  intros E (b & L & HB & H1 & H2 & H3). exists b, L. split; [done|]. split.
  - intros p Hp Hr. rewrite E by (by eapply in_range_page). rewrite decide_False; [done|]. unfold in_pages in *. lia.
  - intros i v Hv. destruct (H1 i v Hv) as [? ?]. split; [done|]. split; [|done]. pose proof (as_inside Has i v Hv). lia.
Qed.

(** Before the others are mapped: what is mapped where. *)
Lemma placed_space m1 m2 p : (forall p, 0 <= p < task_size -> m1 p = if decide (in_pages pa pl p \/ in_pages bs bl p) then m p else []) -> placed vs m1 m2 -> on_page p -> 0 <= p < task_size ->
  (in_pages bs bl p -> m2 p = m p) /\ (~ in_pages bs bl p -> (forall i v, premapped_at i v -> ~ in_dst v p) -> m2 p = []).
Proof.
  intros E [P1 P2 P3] Hp Hr. destruct (as_regions Has) as (_ & _ & Hd & _). split.
  - intros Hb. rewrite P3; [rewrite E by done; by rewrite decide_True by (by right)|done|]. intros i v Hv. split; [|intros Hin; by apply (as_boot Has i v p Hv Hin)].
    pose proof (as_inside Has i v Hv). unfold in_src, in_pages in *. lia.
  - intros Hb Hnd. destruct (some_src vs p) as [(i & v & Hv & Hin)|Hno]; [by apply (P2 i v)|]. rewrite P3; [|done|intros i v Hv; by split; [apply (Hno i)|apply (Hnd i)]].
    rewrite E by done. destruct (decide (in_pages pa pl p \/ in_pages bs bl p)) as [[Hin|?]|]; [|done|done]. destruct (m p) eqn:Em; [done|]. exfalso.
    destruct (as_only Has p Hp Hin ltac:(by rewrite Em)) as (i & v & Hv & Hs). by apply (Hno i v Hv).
Qed.

(** The entries that are mapped anew are those of the list that was given. *)
Lemma kept_new vs' : Forall2 kept vs vs' -> (forall i v', vs' !! i = Some v' -> newly_mapped v' = true -> vs !! i = Some v').
Proof.
  intros F i v' Hi Hn. destruct (Forall2_lookup_r _ _ _ _ _ F Hi) as (v & Hv & [[_ Hs] Hk]). rewrite Hv. f_equal. destruct Hs as [->|[_ [a Ea]]]; [done|]. symmetry. apply Hk.
  unfold newly_mapped, re_is in *. rewrite Ea in Hn. unfold vma_entry_is, set_shmid in *. cbn [va_status] in Hn. destruct (Z.land (va_status (re_e v)) VMA_PREMMAPED =? VMA_PREMMAPED); [|done].
  by rewrite andb_false_r in Hn.
Qed.
Lemma kept_same vs' : Forall2 kept vs vs' -> forall v, v ∈ vs -> newly_mapped v = true -> v ∈ vs'.
Proof.
  intros F v Hv Hn. apply list_elem_of_lookup in Hv as [i Hi]. destruct (Forall2_lookup_l _ _ _ _ _ F Hi) as (v' & Hv' & [_ Hk]). rewrite <- Hk; [by eapply list_elem_of_lookup_2|].
  unfold newly_mapped in Hn. destruct (re_is v VMA_PREMMAPED); [by rewrite andb_false_r in Hn|done].
Qed.

Lemma restore_address_space_spec uffd s env : sp_mem s = m -> sp_uffd s = [] ->
  exists ret vs' s' env', restore_address_space task_size place content segment_size pa pl bs bl uffd vs s env = Ret (ret, vs', s', env') /\
    (ret = 0 -> restored_space (sp_mem s') /\ uffd_inv vs uffd [] (fun _ => true) (sp_uffd s')) /\
    (calm env -> place_live task_size place -> detour_room -> ret = 0).
Proof.
  intros Em Eu. unfold restore_address_space. destruct (unmap_old_vmas_ok pa pl bs bl s env (as_regions Has)) as (r0 & s0 & e0 & -> & M0 & C0).
  destruct (Z.eqb_spec r0 0) as [->|Hne]; cbn [negb]; [|eexists _, _, _, _; split; [done|]; split; [done|]; intros Hc; by destruct (C0 Hc)].
  destruct (M0 eq_refl) as [U0 E0]. rewrite Em in E0. pose proof (unmapped_shiftable _ E0) as Hsh.
  destruct (shift_spec task_size place Hplace Htask vs (sp_mem s0) Hsh uffd [] s0 e0 eq_refl ltac:(by rewrite U0)) as (r1 & r2 & smav & s1 & e1 & s2 & e2 & dn & -> & S1 & S2). cbn [obind].
  destruct (Z.eqb_spec r1 0) as [->|Hne]; cbn [negb]; [|eexists _, _, _, _; split; [done|]; split; [done|]; intros Hc HL Hr; destruct (C0 Hc) as [_ Hc0]; by destruct (S2 Hc0 HL (detour_has_room _ E0 Hr))].
  destruct (S1 eq_refl) as (-> & F & S3). cbn [obind].
  destruct (Z.eqb_spec r2 0) as [->|Hne]; cbn [negb]; [|eexists _, _, _, _; split; [done|]; split; [done|]; intros Hc HL Hr; destruct (C0 Hc) as [_ Hc0]; by destruct (S2 Hc0 HL (detour_has_room _ E0 Hr)) as (_ & ? & _)].
  destruct (S3 eq_refl) as (Hpl & Hall & [Uo Ua]). pose proof (kept_new _ F) as Hkn.
  assert (Hkin : forall v, v ∈ rev smav -> newly_mapped v = true -> v ∈ vs) by (intros v Hv Hn; apply list_elem_of_lookup in Hv as [i Hi]; eapply list_elem_of_lookup_2; by apply (Hkn i)).
  assert (Hthp : exists ok e2', sys_prctl_thp e2 = (ok, e2') /\ (calm e2 -> ok = true /\ calm e2')).
  { unfold sys_prctl_thp. destruct (xalloc (k_ioctls e2)) as [ok io] eqn:Ex. eexists _, _. split; [done|]. intros ->. cbn in Ex. by injection Ex as <- <-. }
  destruct Hthp as (ok & e2' & -> & Hc2'). destruct ok; cbn [negb]; [|eexists _, _, _, _; split; [done|]; split; [done|]; intros Hc HL Hr; destruct (C0 Hc) as [_ Hc0]; destruct (S2 Hc0 HL (detour_has_room _ E0 Hr)) as (_ & _ & Hc2); by destruct (Hc2' Hc2)].
  destruct (map_rest_ok (rev smav) s2 e2') as (r3 & vs' & s3 & e3 & E3 & M3 & C3).
  { split; [intros v Hv Hn; by apply (mb_range _ (as_new Has)); [apply Hkin|]|]. intros i j v w p Hi Hj Hij Nv Nw. apply (mb_apart _ (as_new Has) i j); try done; by apply Hkn. }
  { intros v Hv Hn p Hp Hr. apply (placed_space (sp_mem s0) (sp_mem s2) p E0 Hpl Hp); [eapply in_range_page; [|exact Hr]; apply (mb_range _ (as_new Has)); [by apply Hkin|done]| |].
    - apply (as_new_boot Has v); [by apply Hkin|done|done].
    - intros i w Hw. apply (as_new_dst Has i w v); [done|by apply Hkin|done|done]. }
  exists r3, vs', s3, e3. rewrite E3. split; [done|]. split; [|intros Hc HL Hr; destruct (C0 Hc) as [_ Hc0]; destruct (S2 Hc0 HL (detour_has_room _ E0 Hr)) as (_ & _ & Hc2); destruct (Hc2' Hc2) as [_ Hc3]; by destruct (C3 Hc3)].
  intros ->. destruct (M3 eq_refl) as [[N1 N2] U3]. split.
  - assert (Hout : forall p, (forall v, v ∈ vs -> newly_mapped v = true -> ~ in_span v p) -> sp_mem s3 p = sp_mem s2 p) by (intros p Hno; apply N2; intros v Hv Hn; apply Hno; [by apply Hkin|done]).
    split.
    + intros i v p Hv Hp Hr. rewrite Hout by (intros w Hw Hn Hin; by apply (as_new_dst Has i v w p)). destruct Hpl as [P1 _ _]. rewrite (P1 i v p Hv Hp Hr).
      destruct (as_range Has i v Hv) as (R1 & _). assert (Hs : in_src v (p - dst_of v + src_of v)) by (unfold in_src, in_dst, in_pages in *; lia).
      rewrite E0 by (by eapply in_range_page). rewrite decide_True; [done|]. left. pose proof (as_inside Has i v Hv). unfold in_src, in_pages in *. lia.
    + intros v p Hv Hn Hin. apply N1; [|done|done]. by apply (kept_same _ F).
    + intros p Hp Hb. rewrite Hout by (intros w Hw Hn Hin; by apply (as_new_boot Has w p)). destruct (as_regions Has) as (_ & Hbr & _). by apply (placed_space (sp_mem s0) (sp_mem s2) p E0 Hpl Hp (in_range_page _ _ _ Hbr Hb)).
    + intros p Hp Hr Hb Hnd Hns. rewrite Hout by done. by apply (placed_space (sp_mem s0) (sp_mem s2) p E0 Hpl Hp Hr).
  - rewrite U3. split; [exact Uo|]. intros i v Hv _. destruct (Hall i v Hv) as [Hd|He]; [by apply (Ua i)|]. intros _ _ Hne. done.
Qed.
End Whole.
End Stage.

(** C2. The last stage builds the address space of the restored process.  Given what
    the earlier stages leave (the premapped areas packed in their range, in order
    and none that goes to the right below one that goes to the left; the restorer
    apart from all areas; the areas apart from each other), and a kernel that
    puts mappings only where nothing is mapped, the stage returns; with result 0
    every premapped area is at its final address with its pages, moved without
    losing one although sources and targets overlap, every other area is mapped
    with its contents, the restorer is untouched and nothing else is left below
    the task size; only lazy areas are registered with userfaultfd, and all that
    were moved are.  It succeeds if no system call fails, the kernel follows free
    hints and there is room for a detour. *)
Theorem restore_address_space_correct task_size place content segment_size vs pa pl bs bl uffd s env :
  place_ok task_size place -> task_size < 2 ^ 62 -> aspace_ok task_size segment_size vs (sp_mem s) pa pl bs bl -> sp_uffd s = [] ->
  exists ret vs' s' env', restore_address_space task_size place content segment_size pa pl bs bl uffd vs s env = Ret (ret, vs', s', env') /\
    (ret = 0 -> restored_space task_size content segment_size vs (sp_mem s) bs bl (sp_mem s') /\ uffd_inv vs uffd [] (fun _ => true) (sp_uffd s')) /\
    (calm env -> place_live task_size place -> detour_room task_size vs pa pl bs bl -> ret = 0).
Proof. intros. by apply restore_address_space_spec. Qed.

(** A kernel that looks for the lowest free place. *)
Definition fits (task_size : Z) (m : memory) (len a : Z) : bool :=
  (PAGE_SIZE <=? a) && (a mod PAGE_SIZE =? 0) && (a + len <=? task_size) && free_range m a len.
Definition first_fit (task_size : Z) (m : memory) (hint len : Z) : option Z :=
  if negb ((0 <? len) && (len mod PAGE_SIZE =? 0)) then None
  else if fits task_size m len hint then Some hint
  else find (fits task_size m len) ((fun k => k * PAGE_SIZE) <$> seqZ 1 (task_size / PAGE_SIZE)).

Lemma fits_true task_size m len a : on_page len -> 0 < len -> fits task_size m len a = true <-> on_page a /\ PAGE_SIZE <= a /\ a + len <= task_size /\ all_free m a len.
Proof.
  intros Hl Hp. unfold fits. split.
  - intros H. apply andb_prop in H as [H H4]. apply andb_prop in H as [H H3]. apply andb_prop in H as [H1 H2]. apply Z.leb_le in H1. apply Z.eqb_eq in H2. apply Z.leb_le in H3.
    split_and!; try done. apply free_range_true in H4; [done|done|done|lia].
  - intros (H1 & H2 & H3 & H4). rewrite (proj2 (free_range_true m a len H1 Hl ltac:(lia)) H4), (proj2 (Z.leb_le _ _) H2), (proj2 (Z.leb_le _ _) H3). unfold on_page in H1. by rewrite H1.
Qed.

Lemma first_fit_ok task_size : place_ok task_size (first_fit task_size).
Proof.
  assert (H : forall m hint len a, first_fit task_size m hint len = Some a -> on_page len /\ 0 < len /\ fits task_size m len a = true).
  { intros m hint len a. unfold first_fit. destruct (Z.ltb_spec 0 len), (Z.eqb_spec (len mod PAGE_SIZE) 0); cbn [andb negb]; try done.
    destruct (fits task_size m len hint) eqn:E; [by intros [= <-]|]. intros Hf. by apply find_some in Hf as [_ ?]. }
  split; intros m hint len a E; destruct (H m hint len a E) as (H1 & H2 & H3); apply fits_true in H3 as (? & ? & ? & ?); try done.
Qed.

Lemma first_fit_live task_size : place_live task_size (first_fit task_size).
Proof.
  split.
  - intros m hint H1 H2 H3 H4. unfold first_fit. cbn [Z.ltb Z.eqb andb negb]. by rewrite (proj2 (fits_true task_size m PAGE_SIZE hint on_page_size ltac:(done))).
  - intros m len a H1 H2 H3 H4 H5 H6. unfold first_fit. rewrite (proj2 (Z.ltb_lt 0 len) H5). unfold on_page in H2. rewrite H2. cbn [Z.eqb andb negb]. destruct (fits task_size m len 0); [done|].
    assert (Hf : fits task_size m len a = true) by (by apply fits_true). intros E. assert (Hin : In a ((fun k => k * PAGE_SIZE) <$> seqZ 1 (task_size / PAGE_SIZE))).
    { apply list_elem_of_In, list_elem_of_fmap. exists (a / PAGE_SIZE). unfold on_page, PAGE_SIZE in *. pose proof (Z.div_mod a 4096 ltac:(done)). pose proof (Z.div_mod task_size 4096 ltac:(done)).
      pose proof (Z.mod_pos_bound task_size 4096 ltac:(done)). split; [lia|]. apply elem_of_seqZ. lia. }
    by rewrite (find_none _ _ E a Hin) in Hf.
Qed.

(** Two premapped areas that overlap their targets, one goes to the left, one to
    the right, and one area that is mapped anew. *)
Definition rst_sample (start len shmid status flags : Z) : rst_entry :=
  RstEntry (VmaArea start (start + len) flags (Z.lor (Z.lor VMA_AREA_REGULAR VMA_ANON_PRIVATE) status) 3 0 shmid) (-1).
Definition lazy_flags : Z := Z.lor MAP_PRIVATE MAP_ANONYMOUS.
Definition stage_vmas : list rst_entry :=
  [rst_sample 0x3f000 0x2000 0x40000 VMA_PREMMAPED lazy_flags; rst_sample 0x43000 0x2000 0x42000 VMA_PREMMAPED lazy_flags; rst_sample 0x80000 0x1000 0 0 lazy_flags].
Definition stage_mem : memory := fun a => if (0x40000 <=? a) && (a <? 0x44000) || (0x60000 <=? a) && (a <? 0x62000) || (0x10000 <=? a) && (a <? 0x20000) then replicate 4096 (a / PAGE_SIZE mod 256) else [].
Definition stage_space : space := Space stage_mem [] [].
Definition blank_content (e : vma_area) (fd k : Z) : list Z := anon_page.

Lemma sample_len start len shmid status flags : 0 <= len < 2 ^ 64 -> len_of (rst_sample start len shmid status flags) = len.
Proof. intros H. unfold len_of, vma_area_len, rst_sample. cbn [re_e va_end va_start]. replace (start + len - start) with len by lia. by apply u64_small. Qed.
Ltac stage_lia := unfold in_dst, in_src, in_span, in_pages, span in *; rewrite ?sample_len in * by lia;
  repeat match goal with H : context [if re_is ?v VMA_AREA_SYSVIPC then _ else vma_area_len (re_e ?v)] |- _ => change (if re_is v VMA_AREA_SYSVIPC then _ else vma_area_len (re_e v)) with (len_of v) in H; rewrite sample_len in H by lia end;
  cbn [rst_sample re_e va_start va_end va_shmid vma_premmaped_start] in *; try lia.

Lemma stage_premapped i v : premapped_at stage_vmas i v -> i = 0%nat /\ v = rst_sample 0x3f000 0x2000 0x40000 VMA_PREMMAPED lazy_flags \/ i = 1%nat /\ v = rst_sample 0x43000 0x2000 0x42000 VMA_PREMMAPED lazy_flags.
Proof. intros [H1 H2]. destruct i as [|[|[|i]]]; cbn in H1; [left|right| |done]; injection H1 as <-; try done. Qed.

Lemma stage_new v : v ∈ stage_vmas -> newly_mapped v = true -> v = rst_sample 0x80000 0x1000 0 0 lazy_flags.
Proof.
  intros Hv Hn. unfold stage_vmas in Hv. apply elem_of_cons in Hv as [->|Hv]; [done|]. apply elem_of_cons in Hv as [->|Hv]; [done|]. apply elem_of_cons in Hv as [->|Hv]; [done|]. by apply elem_of_nil in Hv.
Qed.

Lemma stage_mem_mapped a : stage_mem a <> [] <-> 0x40000 <= a < 0x44000 \/ 0x60000 <= a < 0x62000 \/ 0x10000 <= a < 0x20000.
Proof.
  unfold stage_mem. destruct (Z.leb_spec 0x40000 a), (Z.ltb_spec a 0x44000), (Z.leb_spec 0x60000 a), (Z.ltb_spec a 0x62000), (Z.leb_spec 0x10000 a), (Z.ltb_spec a 0x20000); cbn [andb orb]; split; intros Hx; try done; try lia.
Qed.

Lemma stage_aspace : aspace_ok 0x100000 (fun _ => 0) stage_vmas stage_mem 0x40000 0x4000 0x60000 0x2000.
Proof.
  split.
  - unfold regions_ok, range_ok, on_page, PAGE_SIZE. split_and!; try done; lia.
  - intros i v Hv. apply stage_premapped in Hv as [[_ ->]|[_ ->]]; unfold range_ok, on_page; split_and!; vm_compute; (reflexivity || discriminate).
  - intros i v Hv. apply stage_premapped in Hv as [[_ ->]|[_ ->]]; split; vm_compute; discriminate.
  - intros i j v w Hv Hw Hlt. apply stage_premapped in Hv as [[-> ->]|[-> ->]], Hw as [[-> ->]|[-> ->]]; try lia. vm_compute. discriminate.
  - intros i j v w Hv Hw Hlt. apply stage_premapped in Hv as [[-> ->]|[-> ->]], Hw as [[-> ->]|[-> ->]]; try lia. vm_compute. discriminate.
  - intros i j v w Hv Hw Hlt. apply stage_premapped in Hv as [[-> ->]|[-> ->]], Hw as [[-> ->]|[-> ->]]; try lia. vm_compute. discriminate.
  - intros i v Hv p Hp Hr. apply stage_mem_mapped. apply stage_premapped in Hv as [[-> ->]|[-> ->]]; stage_lia.
  - intros p Hp Hr Hn. unfold in_pages in Hr. destruct (Z.lt_ge_cases p 0x42000); [exists 0%nat|exists 1%nat]; eexists; (split; [by split|]); stage_lia.
  - intros i v p Hv Hr. apply stage_premapped in Hv as [[-> ->]|[-> ->]]; stage_lia.
  - intros i v Hv. by apply stage_premapped in Hv as [[-> ->]|[-> ->]].
  - split.
    + intros v Hv Hn. rewrite (stage_new v Hv Hn). unfold range_ok, on_page. split_and!; vm_compute; (reflexivity || discriminate).
    + intros i j v w p Hi Hj Hij Nv Nw. exfalso. apply Hij.
      assert (H : forall n u, stage_vmas !! n = Some u -> newly_mapped u = true -> n = 2%nat) by (intros [|[|[|n]]] u Hu Hnu; cbn in Hu; try done; injection Hu as <-; done).
      rewrite (H i v Hi Nv). symmetry. by apply (H j w).
  - intros v p Hv Hn Hr. rewrite (stage_new v Hv Hn) in Hr. stage_lia.
  - intros i v w p Hv Hw Hn Hr. rewrite (stage_new w Hw Hn) in Hr. apply stage_premapped in Hv as [[-> ->]|[-> ->]]; intros Hd; stage_lia.
Qed.

Lemma stage_room : detour_room 0x100000 stage_vmas 0x40000 0x4000 0x60000 0x2000.
Proof.
  exists 0x90000, 0x10000. split; [unfold range_ok, on_page, PAGE_SIZE; split_and!; (done || lia)|]. split; [|lia].
  intros i v Hv. apply stage_premapped in Hv as [[-> ->]|[-> ->]]; stage_lia.
Qed.

Lemma restore_address_space_correct_witness : exists vs' s' env',
  restore_address_space 0x100000 (first_fit 0x100000) blank_content (fun _ => 0) 0x40000 0x4000 0x60000 0x2000 7 stage_vmas stage_space (KEnv [] []) = Ret (0, vs', s', env') /\
  sp_mem s' 0x40000 = replicate 4096 0x41 /\ sp_mem s' 0x43000 = replicate 4096 0x42 /\ sp_mem s' 0x10000 = [] /\ (0x3f000, 0x2000) ∈ sp_uffd s'.
Proof.
  destruct (restore_address_space_correct 0x100000 (first_fit 0x100000) blank_content (fun _ => 0) stage_vmas 0x40000 0x4000 0x60000 0x2000 7 stage_space (KEnv [] []))
    as (ret & vs' & s' & env' & E & H1 & H2).
  - apply first_fit_ok.
  - reflexivity.
  - exact stage_aspace.
  - reflexivity.
  - assert (Hr : ret = 0) by (apply H2; [reflexivity|apply first_fit_live|exact stage_room]). clear H2. rewrite Hr in E, H1. destruct (H1 eq_refl) as [[R1 _ _ R4] [_ U2]].
    assert (Ha : premapped_at stage_vmas 0 (rst_sample 0x3f000 0x2000 0x40000 VMA_PREMMAPED lazy_flags)) by (split; reflexivity).
    assert (Hb : premapped_at stage_vmas 1 (rst_sample 0x43000 0x2000 0x42000 VMA_PREMMAPED lazy_flags)) by (split; reflexivity).
    exists vs', s', env'. split; [exact E|]. clear E H1. split; [|split; [|split]].
    + rewrite (R1 0%nat _ 0x40000 Ha ltac:(reflexivity) ltac:(stage_lia)). reflexivity.
    + rewrite (R1 1%nat _ 0x43000 Hb ltac:(reflexivity) ltac:(stage_lia)). reflexivity.
    + apply R4; [reflexivity|lia|unfold in_pages; lia| |].
      * intros i v Hv. apply stage_premapped in Hv as [[-> ->]|[-> ->]]; stage_lia.
      * intros v Hv Hn. rewrite (stage_new v Hv Hn). intros Hs. stage_lia.
    + apply (U2 0%nat _ Ha); try reflexivity; discriminate.
Defined.

(** A lazy area that is premapped where it belongs is not registered with
    userfaultfd: its pages will never be asked for. *)
Lemma lazy_area_in_place_not_registered :
  vma_remap 0x100000 (first_fit 0x100000) (rst_sample 0x40000 0x2000 0x40000 VMA_PREMMAPED lazy_flags) 7 stage_space (KEnv [] []) =
  Ret (0, rst_sample 0x40000 0x2000 0x40000 VMA_PREMMAPED lazy_flags, stage_space, KEnv [] []) /\ vma_entry_can_be_lazy (re_e (rst_sample 0x40000 0x2000 0x40000 VMA_PREMMAPED lazy_flags)) = true.
Proof. split; reflexivity. Qed.

(** When the premapped range and the restorer touch, the range between them is
    empty, munmap refuses it and the restore fails. *)
Lemma touching_regions_fail : let '(ret, _, _) := unmap_old_vmas 0x100000 0x40000 0x4000 0x44000 0x2000 stage_space (KEnv [] []) in ret = -1.
Proof. reflexivity. Qed.

(** Stacks without a gap below them: the second of three areas is in place, the
    first goes to the right and the third to the left.  Both loops stop at once,
    with success. *)
Definition crossing_vmas : list rst_entry :=
  [rst_sample 0x41000 0x2000 0x40000 VMA_PREMMAPED lazy_flags; rst_sample 0x43000 0x2000 0x43000 VMA_PREMMAPED (Z.lor lazy_flags MAP_GROWSDOWN);
   rst_sample 0x45000 0x2000 0x46000 VMA_PREMMAPED (Z.lor lazy_flags MAP_GROWSDOWN)].
Lemma crossing_areas_stay :
  shift_left 0x100000 (first_fit 0x100000) crossing_vmas (-1) stage_space (KEnv [] []) = Ret (0, crossing_vmas, stage_space, KEnv [] []) /\
  shift_right 0x100000 (first_fit 0x100000) (rev crossing_vmas) (-1) stage_space (KEnv [] []) = Ret (0, rev crossing_vmas, stage_space, KEnv [] []).
Proof. split; reflexivity. Qed.

(** A shadow stack that goes to the left: the kernel puts the new shadow stack
    below its target, so that the second loop takes it for an area that goes to
    the right and moves it once more.  The premapped area is gone, the kernel
    chooses the same place again, the copy is unmapped in the place of the
    original and the restore fails. *)
Definition shstk_vmas : list rst_entry := [rst_sample 0x30000 0x1000 0x40000 (Z.lor VMA_PREMMAPED VMA_AREA_SHSTK) MAP_PRIVATE].
Lemma shadow_stack_moved_twice :
  match restore_address_space 0x100000 (first_fit 0x100000) blank_content (fun _ => 0) 0x40000 0x4000 0x60000 0x2000 (-1) shstk_vmas stage_space (KEnv [] []) with
  | Ret (ret, _, _, _) => ret = -1
  | _ => False
  end.
Proof. vm_compute. reflexivity. Qed.
