(* ===== verification/VmaIo.v ===== *)
(** Reading the pages that were left to the last stage of a restore:
    [pagemap_render_iovec] of criu/pagemap.c, which turns the queue of jobs into
    an array for the restorer, and, of criu/pie/restorer.c,
    [validate_direct_vma_io], [preadv_limited], [restore_vma_preadv_one] and
    [restore_vma_preadv_mixed], the buffered reader.  (The reader that uses AIO
    is in VmaAio.v.)

    Memory is changed byte by byte here: a transfer stores the bytes of the file
    at the addresses of its vector, wherever a short read ends. *)
From S2P Require Import Prelude PagemapImage PageRead Dedup AsyncQueue ProcessReads ReadPages ChainRead ReadOps AsyncRead.

Definition AUTO_DEDUP_OVERHEAD_BYTES : Z := Z.shiftl 128 20.

(** An element of the array; [nr_iovs] is the length of [rio_iovs]. *)
Record restore_vma_io := Rio {
  rio_off : Z;
  rio_storage : restore_vma_io_storage;
  rio_layout : page_block_layout;
  rio_n_pages : Z;
  rio_block_pages : list Z;
  rio_iovs : list iovec
}.

(** ** Rendering *)

(** Pass 1: memory for the sizes, and for the page counts if there are any. *)
Fixpoint render_meta (al : list bool) (from : list page_read_iov) : bool * list bool :=
  match from with
  | [] => (true, al)
  | p :: from =>
      if bl_nr_blocks (pi_layout p) =? 0 then render_meta al from
      else
        let '(ok, al) := xalloc al in
        if negb ok then (false, al)
        else if bl_pages_per_block (pi_layout p) =? 0 then render_meta al from
        else
          let '(ok, al) := xalloc al in
          if negb ok then (false, al) else render_meta al from
  end.

(** Pass 2, one job; [None]: too many pages. *)
Definition render_iov (p : page_read_iov) : option restore_vma_io :=
  let l := pi_layout p in
  let n := Z.to_nat (bl_nr_blocks l) in
  if bl_nr_blocks l =? 0 then
    Some (Rio (pi_from p) (pi_storage p) (PageBlockLayout [] 0 0 0) 0 [] (valid_to p))
  else
    let sizes := take n (bl_sizes l) in
    let layout := PageBlockLayout sizes (bl_nr_blocks l) (bl_total_bytes l) (bl_pages_per_block l) in
    if negb (bl_pages_per_block l =? 0) then
      let bps := take n (pi_block_pages p) in
      let pages_total := foldl (fun s x => u64 (s + x)) 0 bps in
      if pages_total >? INT_MAX then None
      else Some (Rio (pi_from p) (pi_storage p) layout pages_total bps (valid_to p))
    else if bl_nr_blocks l >? INT_MAX then None
    else Some (Rio (pi_from p) (pi_storage p) layout (bl_nr_blocks l) [] (valid_to p)).

Fixpoint render_rios (al : list bool) (from : list page_read_iov) : option (list restore_vma_io) * list bool :=
  match from with
  | [] => (Some [], al)
  | p :: from =>
      let '(ok, al) := xalloc al in
      if negb ok then (None, al)
      else
        match render_iov p with
        | None => (None, al)
        | Some rio =>
            let '(r, al) := render_rios al from in
            (match r with Some l => Some (rio :: l) | None => None end, al)
        end
  end.

Definition pagemap_render_iovec (al : list bool) (from : list page_read_iov) : option (list restore_vma_io) * list bool :=
  let '(ok, al) := render_meta al from in
  if negb ok then (None, al) else render_rios al from.

(** ** Checking *)
Definition rio_blocks (rio : restore_vma_io) : list (Z * Z) :=
  let l := rio_layout rio in
  if bl_pages_per_block l =? 0 then (fun s => (s, 1)) <$> bl_sizes l else zip (bl_sizes l) (rio_block_pages rio).

Definition validate_direct_vma_io (rio : restore_vma_io) : bool :=
  let l := rio_layout rio in
  if negb (bool_decide (rio_storage rio = VMA_IO_PACKED_RAW)) && negb (bool_decide (rio_storage rio = VMA_IO_ZERO)) then false
  else if (bl_nr_blocks l =? 0) || match bl_sizes l with [] => true | _ => false end then false
  else if negb (bl_pages_per_block l =? 0) && match rio_block_pages rio with [] => true | _ => false end then false
  else
    match check_direct_blocks (rio_storage rio) (bl_pages_per_block l) (rio_blocks rio) 0 0 with
    | None => false
    | Some (payload_bytes, output_bytes) =>
        match sum_iov_len 0 (rio_iovs rio) with
        | None => false
        | Some iov_bytes =>
            negb (negb (payload_bytes =? bl_total_bytes l) || negb (output_bytes =? iov_bytes) || (rio_n_pages rio <=? 0) ||
                  negb (output_bytes =? u64 (rio_n_pages rio * PAGE_SIZE)))
        end
    end.

(** ** Reading *)

(** The vector as [preadv_limited] passes it on. *)
Fixpoint limit_iovs (max_to_read : Z) (iovs : list iovec) : list iovec :=
  match iovs with
  | [] => []
  | iov :: rest =>
      if iov_len iov <=? max_to_read then iov :: limit_iovs (max_to_read - iov_len iov) rest
      else if max_to_read =? 0 then []
      else [Iovec (iov_base iov) max_to_read]
  end.

Section Reader.
(** [preadv off n]: the answer to a call for [n] bytes at [off]. *)
Context (preadv : Z -> Z -> Z) (auto_dedup : bool).

Definition preadv_limited (iovs : list iovec) (offs max_to_read : Z) : Z * list iovec :=
  let iovs := if negb (max_to_read =? 0) then limit_iovs max_to_read iovs else iovs in
  (preadv offs (zsum (iov_len <$> iovs)), iovs).

(** The result, the transfers made and the holes punched. *)
Fixpoint restore_vma_preadv_one (fuel : nat) (iovs : list iovec) (off : Z) (allow_dedup : bool) : outcome (Z * list (Z * list iovec * Z) * list (Z * Z)) :=
  match iovs with
  | [] => Ret (0, [], [])
  | _ =>
      match fuel with
      | O => NoFuel
      | S fuel =>
          let dedup := auto_dedup && allow_dedup in
          let '(r, vec) := preadv_limited iovs off (if dedup then AUTO_DEDUP_OVERHEAD_BYTES else 0) in
          if r <? 0 then Ret (-1, [], [])
          else if r =? 0 then Ret (-1, [], [])
          else
            let '(rest, n) := consume_iovs iovs r in
            let iovs := match rest with
                        | [] => []
                        | iov :: rest => Iovec (iov_base iov + n) (iov_len iov - n) :: rest
                        end in
            let! (ret, log, holes) := restore_vma_preadv_one fuel iovs (s64 (off + r)) allow_dedup in
            Ret (ret, (off, vec, r) :: log, (if dedup then [(off, r)] else []) ++ holes)
      end
  end.

Definition rio_fuel (rio : restore_vma_io) : nat := S (Z.to_nat (zsum (iov_len <$> rio_iovs rio))).

(** [fd]: is the pages image open; what was done to memory, in order. *)
Fixpoint preadv_mixed_loop (fd : bool) (rios : list restore_vma_io) : outcome (Z * list io_event * list (Z * Z)) :=
  match rios with
  | [] => Ret (0, [], [])
  | rio :: rios =>
      let read allow_dedup :=
        let! (r, log, holes) := restore_vma_preadv_one (rio_fuel rio) (rio_iovs rio) (rio_off rio) allow_dedup in
        if negb (r =? 0) then Ret (-1, [EvRead log], holes)
        else
          let! (r, ev, holes') := preadv_mixed_loop fd rios in
          Ret (r, EvRead log :: ev, holes ++ holes') in
      match rio_storage rio with
      | VMA_IO_UNCOMPRESSED => if negb fd then Ret (-1, [], []) else read true
      | VMA_IO_PACKED_RAW =>
          if negb fd then Ret (-1, [], [])
          else if negb (validate_direct_vma_io rio) then Ret (-1, [], []) else read false
      | VMA_IO_ZERO =>
          if negb (validate_direct_vma_io rio) then Ret (-1, [], [])
          else
            let! (r, ev, holes) := preadv_mixed_loop fd rios in
            Ret (r, EvZero (rio_iovs rio) :: ev, holes)
      | VMA_IO_ENCODED => Ret (-1, [], [])
      end
  end.

(** The file is closed in any case. *)
Definition restore_vma_preadv_mixed (fd : bool) (rios : list restore_vma_io) : outcome (Z * list io_event * list (Z * Z) * bool) :=
  let! (r, ev, holes) := preadv_mixed_loop fd rios in
  Ret (r, ev, holes, false).
End Reader.

(** ** What the transfers do to memory *)
Definition page_base (a : Z) : Z := a - a mod PAGE_SIZE.
Definition poke (m : memory) (w : Z * Z) : memory :=
  fun p => if p =? page_base w.1 then <[Z.to_nat (w.1 mod PAGE_SIZE) := w.2]> (m p) else m p.
Definition pokes (m : memory) (ws : list (Z * Z)) : memory := foldl poke m ws.

(** Byte [o] of the file. *)
Definition file_byte (file : list Z) (o : Z) : Z := default 0 (file !! Z.to_nat o).

Definition event_bytes (file : list Z) (ev : io_event) : list (Z * Z) :=
  match ev with
  | EvZero to => (fun a => (a, 0)) <$> vec_bytes to
  | EvRead log => (fun '(a, o) => (a, file_byte file o)) <$> log_bytes log
  | EvDecode _ => []
  end.
Definition run_events (file : list Z) (m : memory) (evs : list io_event) : memory := pokes m (concat (event_bytes file <$> evs)).

(** ** Bytes and pages *)

(** [x] stored from the [i]-th byte of the page [d] on. *)
Lemma pokes_run d : d mod PAGE_SIZE = 0 -> forall x i m p, 0 <= i -> i + zlen x <= PAGE_SIZE -> length (m d) = Z.to_nat PAGE_SIZE ->
  pokes m (zip (seqZ (d + i) (zlen x)) x) p = if p =? d then take (Z.to_nat i) (m d) ++ x ++ drop (Z.to_nat (i + zlen x)) (m d) else m p.
Proof.
  intros Hd. induction x as [|b x IH]; intros i m p Hi Hle Hlen.
  - cbn [zip_with zlen length Z.of_nat]. replace (zip (seqZ (d + i) (zlen [])) []) with (@nil (Z * Z)) by (by destruct (seqZ (d + i) (zlen []))).
    cbn. destruct (Z.eqb_spec p d) as [->|]; [|done]. rewrite Z.add_0_r. by rewrite take_drop.
  - assert (Ez : zlen (b :: x) = zlen x + 1) by (unfold zlen; cbn; lia). rewrite Ez in *. clear Ez. pose proof (zlen_nonneg x). unfold PAGE_SIZE in *.
    rewrite (seqZ_cons (d + i) (zlen x + 1)) by lia. replace (Z.succ (d + i)) with (d + (i + 1)) by lia. replace (Z.pred (zlen x + 1)) with (zlen x) by lia. cbn [zip_with pokes foldl].
    change (foldl poke (poke m (d + i, b)) (zip (seqZ (d + (i + 1)) (zlen x)) x) p) with (pokes (poke m (d + i, b)) (zip (seqZ (d + (i + 1)) (zlen x)) x) p).
    assert (Hm : (d + i) mod 4096 = i) by (rewrite Zplus_mod, Hd, Z.add_0_l, Zmod_mod, Z.mod_small; lia).
    assert (Hb : page_base (d + i) = d) by (unfold page_base, PAGE_SIZE; rewrite Hm; lia).
    assert (Hpk : forall q, poke m (d + i, b) q = if q =? d then <[Z.to_nat i := b]> (m q) else m q) by (intros q; unfold poke, PAGE_SIZE; cbn [fst snd]; by rewrite Hm, Hb).
    rewrite IH; [|lia|lia|by rewrite Hpk, Z.eqb_refl, length_insert]. rewrite !Hpk, Z.eqb_refl. destruct (Z.eqb_spec p d) as [->|]; [|done].
    replace (i + 1 + zlen x) with (i + (zlen x + 1)) by lia. rewrite drop_insert_lt by lia.
    replace (Z.to_nat (i + 1)) with (S (Z.to_nat i)) by lia. rewrite (take_S_r _ _ b) by (apply list_lookup_insert_eq; lia). rewrite take_insert_ge by lia. by rewrite <- !app_assoc.
Qed.

Lemma pokes_page d x m p : d mod PAGE_SIZE = 0 -> zlen x = PAGE_SIZE -> length (m d) = Z.to_nat PAGE_SIZE ->
  pokes m (zip (seqZ d PAGE_SIZE) x) p = set_page m (d, x) p.
Proof.
  intros Hd Hx Hm. pose proof (pokes_run d Hd x 0 m p ltac:(lia) ltac:(lia) Hm) as E. rewrite Z.add_0_r, Z.add_0_l, Hx in E. rewrite E. unfold set_page. cbn [fst snd].
  destruct (p =? d); [|done]. rewrite drop_ge by (rewrite Hm; done). by rewrite app_nil_r.
Qed.

Lemma pokes_app m w1 w2 : pokes m (w1 ++ w2) = pokes (pokes m w1) w2.
Proof. apply foldl_app. Qed.

Lemma poke_ext m m' w : (forall p, m p = m' p) -> forall p, poke m w p = poke m' w p.
Proof. intros H p. unfold poke. by rewrite H. Qed.
Lemma pokes_ext ws : forall m m', (forall p, m p = m' p) -> forall p, pokes m ws p = pokes m' ws p.
Proof. induction ws as [|w ws IH]; intros m m' H p; [apply H|]. cbn [pokes foldl]. apply IH. by apply poke_ext. Qed.

(** Whole pages, one after the other. *)
Lemma pokes_pages ds : forall xs m p, Forall (fun d => d mod PAGE_SIZE = 0 /\ length (m d) = Z.to_nat PAGE_SIZE) ds -> Forall (fun x => zlen x = PAGE_SIZE) xs -> length ds = length xs ->
  pokes m (zip (concat ((fun d => seqZ d PAGE_SIZE) <$> ds)) (concat xs)) p = set_pages m (zip ds xs) p.
Proof.
  induction ds as [|d ds IH]; intros [|x xs] m p Hd Hx Hl; try done. apply Forall_cons_1 in Hd as [[Hd Hm] Hds]. apply Forall_cons_1 in Hx as [Hx Hxs]. cbn [fmap list_fmap concat zip_with].
  rewrite zip_with_app by (rewrite length_seqZ; unfold zlen in Hx; unfold PAGE_SIZE in *; lia). rewrite pokes_app.
  change (set_pages m ((d, x) :: zip ds xs) p) with (set_pages (set_page m (d, x)) (zip ds xs) p).
  rewrite (pokes_ext _ _ (set_page m (d, x))) by (intros q; by apply pokes_page). apply IH; [|done|by injection Hl].
  eapply Forall_impl; [exact Hds|]. intros q [H1 H2]. split; [done|]. unfold set_page. cbn [fst snd]. destruct (Z.eqb_spec q d); [unfold zlen in Hx; unfold PAGE_SIZE in *; lia|done].
Qed.

Lemma seqZ_pages from n : 0 <= n -> seqZ from (n * PAGE_SIZE) = concat ((fun j => seqZ (from + j * PAGE_SIZE) PAGE_SIZE) <$> seqZ 0 n).
Proof.
  intros Hn. rewrite <- (Z2Nat.id n) by done. generalize (Z.to_nat n). clear. intros n. induction n as [|n IH]; [done|].
  rewrite Nat2Z.inj_succ, <- Z.add_1_r. rewrite (seqZ_app 0 (Z.of_nat n) 1) by lia. rewrite fmap_app, concat_app. change (seqZ (0 + Z.of_nat n) 1) with [0 + Z.of_nat n]. cbn [fmap list_fmap concat].
  rewrite app_nil_r, <- IH, Z.mul_add_distr_r, Z.add_0_l. rewrite seqZ_app by (unfold PAGE_SIZE; lia). by rewrite Z.mul_1_l.
Qed.

(** The addresses of a vector of whole pages. *)
Lemma vec_bytes_pages l : Forall iov_ok l -> vec_bytes l = concat ((fun d => seqZ d PAGE_SIZE) <$> concat (iov_pages <$> l)).
Proof.
  induction 1 as [|iov l (H1 & H2 & H3 & H4) _ IH]; [done|]. unfold vec_bytes in *. rewrite !fmap_cons. cbn [concat]. rewrite IH, fmap_app, concat_app. f_equal.
  unfold iov_bytes, iov_pages. pose proof (Z.div_mod (iov_len iov) PAGE_SIZE ltac:(done)) as E. rewrite H3, Z.add_0_r in E. rewrite E at 1. rewrite Z.mul_comm.
  rewrite seqZ_pages by (apply Z.div_pos; [lia|done]). f_equal. by rewrite <- list_fmap_compose.
Qed.

(** The bytes of a page of the file. *)
Lemma file_page file o x : slice file o PAGE_SIZE = Some x -> file_byte file <$> seqZ o PAGE_SIZE = x.
Proof.
  unfold slice. destruct (Z.leb_spec 0 o); [|done]. destruct (Z.leb_spec (o + PAGE_SIZE) (zlen file)); [|done]. cbn [andb]. intros [= <-].
  apply list_eq. intros i. rewrite list_lookup_fmap. destruct (decide (i < Z.to_nat PAGE_SIZE)%nat) as [Hi|Hi].
  - rewrite lookup_seqZ_lt by (unfold PAGE_SIZE in *; lia). rewrite lookup_take_lt, lookup_drop by done. cbn. unfold file_byte.
    replace (Z.to_nat (o + Z.of_nat i)) with (Z.to_nat o + i)%nat by lia. destruct (lookup_lt_is_Some_2 file (Z.to_nat o + i)) as [b ->]; [unfold zlen, PAGE_SIZE in *; lia|done].
  - rewrite lookup_seqZ_ge by (unfold PAGE_SIZE in *; lia). rewrite lookup_take_ge by lia. done.
Qed.

(** ** The reader *)
Lemma limit_iovs_ok l : forall max, Forall (fun iov => 0 <= iov_len iov) l -> 0 <= max ->
  Forall (fun iov => 0 <= iov_len iov) (limit_iovs max l) /\ zsum (iov_len <$> limit_iovs max l) = Z.min max (zsum (iov_len <$> l)) /\
  vec_bytes (limit_iovs max l) = take (Z.to_nat max) (vec_bytes l).
Proof.
  induction l as [|x l IH]; intros max Hf Hm; cbn [limit_iovs]; [cbn; rewrite take_nil; split_and!; (done || lia)|].
  apply Forall_cons_1 in Hf as [Hx Hl]. unfold vec_bytes in *. rewrite fmap_cons, zsum_cons. pose proof (zsum_nonneg (iov_len <$> l) ltac:(by apply Forall_fmap)).
  destruct (Z.leb_spec (iov_len x) max) as [Hle|Hgt].
  - destruct (IH (max - iov_len x) Hl ltac:(lia)) as (I1 & I2 & I3). rewrite !fmap_cons, zsum_cons, I2. cbn [concat]. rewrite I3. split; [by constructor|]. split; [lia|].
    rewrite take_app_ge by (unfold iov_bytes; rewrite length_seqZ; lia). f_equal. f_equal. unfold iov_bytes. rewrite length_seqZ. lia.
  - rewrite fmap_cons. cbn [concat]. rewrite take_app_le by (unfold iov_bytes; rewrite length_seqZ; lia). destruct (Z.eqb_spec max 0) as [->|Hne]; [cbn; split_and!; (done || lia)|].
    cbn [fmap list_fmap concat]. rewrite app_nil_r. split; [by constructor; [cbn; lia|]|]. split; [cbn [iov_len]; rewrite zsum_cons; change (zsum []) with 0; lia|]. unfold iov_bytes. cbn [iov_base iov_len].
    replace (iov_len x) with (max + (iov_len x - max)) by lia. rewrite seqZ_app by lia. rewrite take_app_length'; [done|]. by rewrite length_seqZ.
Qed.

Lemma consume_suffix (P : iovec -> Prop) l : forall n rest n', Forall P l -> consume_iovs l n = (rest, n') -> Forall P rest.
Proof.
  induction l as [|x l IH]; intros n rest n' Hf H; cbn [consume_iovs] in H; [by injection H as <- _|]. destruct (iov_len x <=? n); [|by injection H as <- _].
  apply Forall_cons_1 in Hf as [_ Hf]. by eapply IH.
Qed.

Section PreadvOne.
Context (preadv : Z -> Z -> Z) (auto_dedup : bool) (Hpreadv : forall off n, preadv off n <= n).

Lemma preadv_limited_ok iovs off max : Forall (fun iov => 0 <= iov_len iov) iovs -> 0 <= max ->
  exists r vec, preadv_limited preadv iovs off max = (r, vec) /\ r <= zsum (iov_len <$> iovs) /\
    (0 <= r -> take (Z.to_nat r) (vec_bytes vec) = take (Z.to_nat r) (vec_bytes iovs)) /\
    ((forall off n, 0 < n -> 0 < preadv off n) -> 0 < zsum (iov_len <$> iovs) -> 0 < r).
Proof.
  intros Hf Hm. unfold preadv_limited. destruct (Z.eqb_spec max 0) as [->|Hne]; cbn [negb]; eexists _, _; (split; [done|]).
  - split; [apply Hpreadv|]. split; [done|]. intros Hp Hz. by apply Hp.
  - destruct (limit_iovs_ok iovs max Hf Hm) as (L1 & L2 & L3). pose proof (Hpreadv off (zsum (iov_len <$> limit_iovs max iovs))). split; [lia|]. split.
    + intros Hr. rewrite L3, take_take. f_equal. lia.
    + intros Hp Hz. apply Hp. lia.
Qed.

(** The loop ends; when it succeeds, every byte of the range went to its place
    once, whatever the lengths of the reads and the limit. *)
Lemma preadv_one_ok dedup : forall fuel iovs off, Forall (fun iov => 0 < iov_len iov) iovs -> zsum (iov_len <$> iovs) < Z.of_nat fuel -> 0 <= off -> off + zsum (iov_len <$> iovs) <= OFF_MAX ->
  exists r log holes, restore_vma_preadv_one preadv auto_dedup fuel iovs off dedup = Ret (r, log, holes) /\
    (r = 0 -> log_bytes log = zip (vec_bytes iovs) (seqZ off (zsum (iov_len <$> iovs)))) /\
    ((forall off n, 0 < n -> 0 < preadv off n) -> r = 0).
Proof.
  assert (Hw : forall l : list iovec, Forall (fun iov => 0 < iov_len iov) l -> Forall (fun iov => 0 <= iov_len iov) l) by (intros l Hl; eapply Forall_impl; [exact Hl|]; cbn; lia).
  induction fuel as [|fuel IH]; intros iovs off Hf Hfu Ho Hmax; pose proof (zsum_nonneg (iov_len <$> iovs) ltac:(apply Forall_fmap; by apply Hw)) as Hz; [lia|].
  destruct iovs as [|iov iovs]; [by eexists _, _, _|]. cbn [restore_vma_preadv_one]. set (l := iov :: iovs) in *.
  assert (Hpos : 0 < zsum (iov_len <$> l)). { apply Forall_cons_1 in Hf as [H1 H2]. unfold l. rewrite fmap_cons, zsum_cons. pose proof (zsum_nonneg (iov_len <$> iovs) ltac:(apply Forall_fmap; by apply Hw)). lia. }
  destruct (preadv_limited_ok l off (if auto_dedup && dedup then AUTO_DEDUP_OVERHEAD_BYTES else 0) (Hw l Hf) ltac:(by destruct (_ && _))) as (r & vec & -> & P1 & P2 & P3).
  destruct (Z.ltb_spec r 0) as [Hneg|Hge]; [eexists _, _, _; split; [done|]; split; [done|]; intros Hp; specialize (P3 Hp Hpos); lia|].
  destruct (Z.eqb_spec r 0) as [->|Hne]; [eexists _, _, _; split; [done|]; split; [done|]; intros Hp; specialize (P3 Hp Hpos); lia|].
  destruct (consume_iovs l r) as [rest n] eqn:Ec. pose proof (consume_suffix _ l r rest n Hf Ec) as Hrest. apply consume_iovs_ok in Ec as (R1 & R2 & R3 & R4 & R5); [|by apply Hw|lia].
  set (l' := match rest with [] => [] | x :: xs => Iovec (iov_base x + n) (iov_len x - n) :: xs end).
  assert (Hl' : Forall (fun iov => 0 < iov_len iov) l' /\ zsum (iov_len <$> l') = zsum (iov_len <$> l) - r /\ vec_bytes l' = drop (Z.to_nat r) (vec_bytes l)).
  { unfold l'. clear l'. destruct rest as [|x xs].
    - subst n. cbn in R4, R5. split; [done|]. split; [cbn; lia|]. done.
    - apply Forall_cons_1 in Hrest as [Hx Hxs]. split; [constructor; [cbn; lia|done]|]. rewrite fmap_cons, zsum_cons in R4 |- *. cbn [iov_len]. split; [lia|].
      rewrite <- R5. unfold vec_bytes. rewrite !fmap_cons. cbn [concat]. rewrite drop_app_le by (unfold iov_bytes; rewrite length_seqZ; lia). f_equal. unfold iov_bytes. cbn [iov_base iov_len].
      replace (iov_len x) with (n + (iov_len x - n)) at 2 by lia. rewrite seqZ_app by lia. rewrite drop_app_length'; [done|]. by rewrite length_seqZ. }
  destruct Hl' as (L1 & L2 & L3). clearbody l'. unfold OFF_MAX in *. rewrite (s64_small (off + r)) by lia.
  destruct (IH l' (off + r) L1 ltac:(lia) ltac:(lia) ltac:(lia)) as (ret & log & holes & -> & I1 & I2). cbn [obind]. eexists _, _, _. split; [done|]. split; [|done].
  intros Hr. rewrite log_bytes_cons, (I1 Hr), (P2 Hge), L2, L3. replace (zsum (iov_len <$> l)) with (r + (zsum (iov_len <$> l) - r)) at 2 by lia. rewrite seqZ_app by lia.
  pose proof (length_vec_bytes l (Hw l Hf)). rewrite zip_take_drop by (rewrite length_seqZ; lia). by rewrite length_seqZ.
Qed.
End PreadvOne.

(** ** Rendered jobs *)
Lemma foldl_u64_sum l : forall s, Forall (fun x => 0 <= x) l -> 0 <= s -> s + zsum l < 2 ^ 64 -> foldl (fun s x => u64 (s + x)) s l = s + zsum l.
Proof.
  induction l as [|x l IH]; intros s Hf Hs Hlt; cbn [foldl]; [cbn; lia|]. apply Forall_cons_1 in Hf as [Hx Hf]. rewrite zsum_cons in *. pose proof (zsum_nonneg l Hf).
  rewrite u64_small by lia. rewrite IH by (done || lia). lia.
Qed.

Lemma valid_blocks_split p : piov_wf p -> let n := Z.to_nat (bl_nr_blocks (pi_layout p)) in
  fst <$> valid_blocks p = take n (bl_sizes (pi_layout p)) /\ snd <$> valid_blocks p = take n (pi_block_pages p).
Proof.
  intros [_ W1 W2 _ _] n. unfold valid_blocks, zlen in *. split; [apply fst_zip|apply snd_zip]; rewrite !length_take; lia.
Qed.

(** What the array holds of a job, and that the checks accept it. *)
Record renders (p : page_read_iov) (rio : restore_vma_io) : Prop := Renders {
  rr_off : rio_off rio = pi_from p;
  rr_storage : rio_storage rio = pi_storage p;
  rr_iovs : rio_iovs rio = valid_to p;
  rr_valid : pi_storage p = VMA_IO_PACKED_RAW \/ pi_storage p = VMA_IO_ZERO -> validate_direct_vma_io rio = true
}.

Lemma render_iov_ok p : piov_ok p -> match render_iov p with Some rio => renders p rio | None => INT_MAX < pi_n_pages p end.
Proof.
  intros [Hwf Hi Hd Hn Hfr He Hraw Hp]. unfold render_iov. destruct (Z.eqb_spec (bl_nr_blocks (pi_layout p)) 0) as [E0|Hnz].
  { split; try done. intros Hs. exfalso. destruct Hp as (_ & _ & Hpages & _); [by destruct Hs as [->| ->]|]. unfold valid_blocks in Hpages. rewrite E0 in Hpages. simpl in Hpages. lia. }
  assert (Hns : pi_storage p <> VMA_IO_UNCOMPRESSED) by (intros Hs; by destruct (Hraw Hs)).
  destruct (Hp Hns) as (Hppb & Hfit & Hpages & Htot & Hend). destruct (Z.eqb_spec (bl_pages_per_block (pi_layout p)) 0); [lia|]. cbn [negb].
  destruct (valid_blocks_split p Hwf) as [V1 V2]. rewrite V2 in Hpages.
  assert (Hb : Forall (fun x => 0 <= x) (take (Z.to_nat (bl_nr_blocks (pi_layout p))) (pi_block_pages p))).
  { rewrite <- V2. apply Forall_fmap. eapply Forall_impl; [exact Hfit|]. intros [? ?] [? _]. cbn in *. lia. }
  rewrite foldl_u64_sum by (done || lia). rewrite Z.add_0_l, Hpages, Z.gtb_ltb. destruct (Z.ltb_spec INT_MAX (pi_n_pages p)) as [?|Hle]; [done|].
  split; try done. intros Hs. unfold validate_direct_vma_io. cbn [rio_storage rio_layout bl_nr_blocks bl_sizes bl_total_bytes bl_pages_per_block rio_block_pages rio_iovs rio_n_pages].
  assert (E1 : negb (bool_decide (pi_storage p = VMA_IO_PACKED_RAW)) && negb (bool_decide (pi_storage p = VMA_IO_ZERO)) = false) by (by destruct Hs as [->| ->]).
  destruct (Z.eqb_spec (bl_nr_blocks (pi_layout p)) 0); [done|]. rewrite E1. cbn [orb]. destruct (Z.eqb_spec (bl_pages_per_block (pi_layout p)) 0); [lia|]. cbn [negb andb].
  assert (Hl : valid_blocks p <> []). { intros E. rewrite <- V2, E in Hpages. cbn in Hpages. lia. }
  destruct (take (Z.to_nat (bl_nr_blocks (pi_layout p))) (bl_sizes (pi_layout p))) as [|x xs] eqn:Ex; [exfalso; by apply Hl, (fmap_nil_inv fst)|].
  destruct (take (Z.to_nat (bl_nr_blocks (pi_layout p))) (pi_block_pages p)) as [|y ys] eqn:Ey; [exfalso; by apply Hl, (fmap_nil_inv snd)|].
  unfold rio_blocks. cbn [rio_layout bl_pages_per_block bl_sizes rio_block_pages]. destruct (Z.eqb_spec (bl_pages_per_block (pi_layout p)) 0); [lia|].
  assert (Hz : zip (x :: xs) (y :: ys) = valid_blocks p) by (unfold valid_blocks; by rewrite Ex, Ey). rewrite Hz.
  pose proof (fits_zsum_fst _ _ _ Hfit) as Hnn. unfold OFF_MAX, PAGE_SIZE in *. rewrite check_direct_blocks_ok by (unfold PAGE_SIZE; rewrite ?V2; done || lia).
  rewrite sum_iov_len_ok by (by apply iov_lens_nonneg || lia). rewrite !Z.add_0_l, Hd, V2, Hpages, <- Htot, Z.eqb_refl. unfold PAGE_SIZE. rewrite Z.eqb_refl, u64_small, Z.eqb_refl by lia.
  by destruct (Z.leb_spec (pi_n_pages p) 0); [lia|].
Qed.

Lemma render_meta_ok from : let '(ok, al) := render_meta [] from in ok = true /\ al = [].
Proof. induction from as [|p from IH]; [done|]. cbn [render_meta xalloc]. destruct (bl_nr_blocks (pi_layout p) =? 0); [done|]. cbn [negb]. by destruct (bl_pages_per_block (pi_layout p) =? 0). Qed.

Lemma render_rios_ok from : Forall piov_ok from -> forall al, let '(r, al') := render_rios al from in
  match r with Some rios => Forall2 renders from rios | None => True end /\ (al = [] -> Forall (fun p => pi_n_pages p <= INT_MAX) from -> r <> None /\ al' = []).
Proof.
  induction 1 as [|p from Hp _ IH]; intros al; cbn [render_rios]; [split; [constructor|done]|].
  destruct (xalloc al) as [[] al1] eqn:Ea; cbn [negb]; [|split; [done|]; intros ->; done]. pose proof (render_iov_ok p Hp) as Hr. destruct (render_iov p) as [rio|].
  - specialize (IH al1). destruct (render_rios al1 from) as [[rios|] al2]; destruct IH as [I1 I2]; (split; [try done; by constructor|]); intros -> Hf; apply Forall_cons_1 in Hf as [_ Hf]; cbn in Ea; injection Ea as <-; by destruct (I2 eq_refl Hf).
  - split; [done|]. intros _ Hf. apply Forall_cons_1 in Hf as [Hle _]. lia.
Qed.

(** ** The pages of a job *)
Section Pages.
Context (lz4 : list Z -> Z -> option (list Z)) (file : list Z).

Definition src_page (s : page_src) : list Z := default [] (src_bytes lz4 file s).

(** The pages of packed raw blocks lie one behind the other. *)
Lemma raw_block_pages ppb blocks : forall off, Forall (block_fits VMA_IO_PACKED_RAW ppb) blocks ->
  src_bytes lz4 file <$> block_srcs off blocks = (fun j => slice file (off + j * PAGE_SIZE) PAGE_SIZE) <$> seqZ 0 (zsum (snd <$> blocks)).
Proof.
  induction blocks as [|[s bp] blocks IH]; intros off Hf; [done|]. apply Forall_cons_1 in Hf as [(H1 & H2 & H3 & _) Hf]. cbn [fst snd] in *. specialize (H3 eq_refl).
  rewrite fmap_cons, zsum_cons. cbn [block_srcs snd]. rewrite fmap_app, (IH _ Hf).
  assert (0 <= zsum (snd <$> blocks)) by (apply zsum_nonneg, Forall_fmap; eapply Forall_impl; [exact Hf|]; intros [? ?] [? _]; cbn in *; lia).
  rewrite seqZ_app by lia. rewrite fmap_app. f_equal.
  - rewrite <- list_fmap_compose. apply list_fmap_ext. intros i j _. cbn [compose src_bytes]. unfold PAGE_SIZE in *. destruct (Z.eqb_spec s 0); [lia|]. by rewrite H3, Z.eqb_refl.
  - rewrite Z.add_0_l. set (N := zsum (snd <$> blocks)). replace (seqZ bp N) with (Z.add bp <$> seqZ 0 N) by (by rewrite fmap_add_seqZ, Z.add_0_r). rewrite <- list_fmap_compose.
    apply list_fmap_ext. intros i j _. cbn [compose]. f_equal. lia.
Qed.

Lemma zero_block_pages ppb blocks : forall off, Forall (block_fits VMA_IO_ZERO ppb) blocks ->
  src_bytes lz4 file <$> block_srcs off blocks = (fun _ => Some (zeros PAGE_SIZE)) <$> seqZ 0 (zsum (snd <$> blocks)).
Proof.
  induction blocks as [|[s bp] blocks IH]; intros off Hf; [done|]. apply Forall_cons_1 in Hf as [(H1 & H2 & _ & H4) Hf]. cbn [fst snd] in *. specialize (H4 eq_refl).
  rewrite fmap_cons, zsum_cons. cbn [block_srcs snd]. rewrite fmap_app, (IH _ Hf).
  assert (0 <= zsum (snd <$> blocks)) by (apply zsum_nonneg, Forall_fmap; eapply Forall_impl; [exact Hf|]; intros [? ?] [? _]; cbn in *; lia).
  rewrite seqZ_app by lia. rewrite fmap_app. f_equal.
  - rewrite <- list_fmap_compose. apply list_fmap_ext. intros i j _. cbn [compose src_bytes]. by rewrite H4.
  - rewrite Z.add_0_l. set (N := zsum (snd <$> blocks)). replace (seqZ bp N) with (Z.add bp <$> seqZ 0 N) by (by rewrite fmap_add_seqZ, Z.add_0_r). rewrite <- list_fmap_compose. by apply list_fmap_ext.
Qed.

Lemma job_tasks_parts p : piov_ok p -> (job_tasks p).*1 = job_dests p /\ (job_tasks p).*2 = job_srcs p /\ length (job_dests p) = length (job_srcs p).
Proof.
  intros Hp. pose proof (length_job_dests p Hp). pose proof (length_job_srcs p Hp). unfold job_tasks. split_and!; [apply fst_zip|apply snd_zip|]; lia.
Qed.

Lemma resolved_tasks p : piov_ok p -> resolve lz4 file <$> job_tasks p = zip (job_dests p) (src_page <$> job_srcs p).
Proof.
  intros Hp. unfold job_tasks, resolve, src_page. generalize (job_dests p) (job_srcs p). intros ds. induction ds as [|d ds IH]; intros [|x xs]; try done. cbn [zip_with fmap list_fmap]. f_equal. apply IH.
Qed.

Lemma srcs_resolve p : piov_ok p -> Forall (resolves lz4 file) (job_tasks p) -> Forall (fun x => zlen x = PAGE_SIZE) (src_page <$> job_srcs p) /\ src_bytes lz4 file <$> job_srcs p = (fun s => Some (src_page s)) <$> job_srcs p.
Proof.
  intros Hp Hr. destruct (job_tasks_parts p Hp) as (_ & E & _). assert (Hs : Forall (fun s => exists x, src_bytes lz4 file s = Some x /\ zlen x = PAGE_SIZE) (job_srcs p)) by (rewrite <- E; by apply Forall_fmap).
  split.
  - apply Forall_fmap. eapply Forall_impl; [exact Hs|]. intros s (x & H1 & H2). unfold compose, src_page. by rewrite H1.
  - apply list_fmap_ext. intros i s Hi. apply (Forall_lookup_1 _ _ _ _ Hs) in Hi as (x & H1 & _). unfold src_page. by rewrite H1.
Qed.

Lemma fmap_concat_pages (f : Z -> Z) (ls : list (list Z)) : f <$> concat ls = concat ((fun l : list Z => f <$> l) <$> ls).
Proof. induction ls as [|l ls IH]; [done|]. cbn [concat]. by rewrite fmap_app, IH. Qed.

(** What is read for a file-backed job are its pages. *)
Lemma read_job_pages p : piov_ok p -> pi_storage p = VMA_IO_UNCOMPRESSED \/ pi_storage p = VMA_IO_PACKED_RAW -> Forall (resolves lz4 file) (job_tasks p) ->
  file_byte file <$> seqZ (pi_from p) (pi_end p - pi_from p) = concat (src_page <$> job_srcs p).
Proof.
  intros Hp Hst Hr. destruct (piov_ok_pending p Hp Hst) as [_ ->]. destruct (srcs_resolve p Hp Hr) as [_ Es].
  assert (Eq : src_bytes lz4 file <$> job_srcs p = (fun j => slice file (pi_from p + j * PAGE_SIZE) PAGE_SIZE) <$> seqZ 0 (pi_n_pages p)).
  { unfold job_srcs. destruct Hst as [Hst|Hst]; rewrite Hst; [change (is_uncompressed VMA_IO_UNCOMPRESSED) with true|change (is_uncompressed VMA_IO_PACKED_RAW) with false]; cbn iota.
    - unfold raw_srcs. rewrite <- list_fmap_compose. done.
    - destruct (po_packed _ Hp ltac:(by rewrite Hst)) as (_ & Hf & <- & _). rewrite Hst in Hf. by apply (raw_block_pages (bl_pages_per_block (pi_layout p))). }
  rewrite Es in Eq. rewrite seqZ_pages by (pose proof (po_n _ Hp); lia). rewrite fmap_concat_pages, <- list_fmap_compose. f_equal.
  revert Eq. generalize (job_srcs p) (seqZ 0 (pi_n_pages p)). intros ss. induction ss as [|x ss IH]; intros [|j js] Eq; try done. cbn [fmap list_fmap] in *. injection Eq as E1 E2.
  f_equal; [by apply file_page|by apply IH].
Qed.

Lemma zero_job_pages p : piov_ok p -> pi_storage p = VMA_IO_ZERO -> src_page <$> job_srcs p = (fun _ => zeros PAGE_SIZE) <$> job_dests p.
Proof.
  intros Hp Hst. destruct (po_packed _ Hp ltac:(by rewrite Hst)) as (_ & Hf & Hn & _). pose proof (length_job_dests p Hp) as Hd. rewrite Hst in Hf.
  assert (Eq : src_bytes lz4 file <$> job_srcs p = (fun _ => Some (zeros PAGE_SIZE)) <$> seqZ 0 (pi_n_pages p)).
  { unfold job_srcs. rewrite Hst. change (is_uncompressed VMA_IO_ZERO) with false. cbn iota. rewrite <- Hn. by apply (zero_block_pages (bl_pages_per_block (pi_layout p))). }
  assert (Hl : length (job_dests p) = length (seqZ 0 (pi_n_pages p))) by (rewrite length_seqZ; lia). revert Eq Hl. clear.
  generalize (job_srcs p) (job_dests p) (seqZ 0 (pi_n_pages p)). intros ss. induction ss as [|x ss IH]; intros [|d ds] [|j js] Eq Hl; try done. cbn [fmap list_fmap] in *.
  injection Eq as E1 E2. f_equal; [unfold src_page; by rewrite E1|]. apply (IH ds js); [done|]. by injection Hl.
Qed.

Lemma zip_fmap_pairs (f : Z -> Z) (l k : list Z) : (fun '(a, o) => (a, f o)) <$> zip l k = zip l (f <$> k).
Proof. revert k. induction l as [|a l IH]; intros [|o k]; try done. cbn [zip_with fmap list_fmap]. f_equal. apply IH. Qed.

Lemma zip_zeros (l : list Z) n : length l = n -> zip l (replicate n 0) = (fun a => (a, 0)) <$> l.
Proof. intros <-. induction l as [|a l IH]; [done|]. cbn [length replicate zip_with fmap list_fmap]. by rewrite IH. Qed.

(** A job that is done has stored its pages, whole. *)
Lemma event_pages p ev m q : piov_ok p -> pi_storage p <> VMA_IO_ENCODED -> Forall (resolves lz4 file) (job_tasks p) ->
  Forall (fun d => d mod PAGE_SIZE = 0 /\ length (m d) = Z.to_nat PAGE_SIZE) (job_dests p) -> job_done p ev -> pokes m (event_bytes file ev) q = set_pages m (resolve lz4 file <$> job_tasks p) q.
Proof.
  intros Hp Hne Hr Hd Hj. rewrite (resolved_tasks p Hp). destruct (srcs_resolve p Hp Hr) as [Hl _]. destruct (job_tasks_parts p Hp) as (_ & _ & Hlen).
  rewrite <- pokes_pages by (done || by rewrite length_fmap). f_equal. fold (job_dests p). pose proof (vec_bytes_pages _ (po_iovs _ Hp)) as Hv. fold (job_dests p) in Hv. rewrite <- Hv.
  unfold job_done in Hj. destruct (pi_storage p) eqn:Est; [|done| |].
  - destruct Hj as (log & -> & Hlog). cbn [event_bytes]. rewrite Hlog, zip_fmap_pairs. f_equal. apply read_job_pages; [done|by left|done].
  - destruct Hj as (log & -> & Hlog). cbn [event_bytes]. rewrite Hlog, zip_fmap_pairs. f_equal. apply read_job_pages; [done|by right|done].
  - subst ev. cbn [event_bytes]. rewrite (zero_job_pages p Hp Est), Hv. clear. induction (job_dests p) as [|d ds IH]; [done|]. cbn [fmap list_fmap concat]. rewrite fmap_app, IH.
    rewrite zip_with_app by (rewrite length_seqZ; unfold zeros; by rewrite length_replicate). by rewrite <- (zip_zeros (seqZ d PAGE_SIZE) (Z.to_nat PAGE_SIZE)) by (by rewrite length_seqZ).
Qed.
End Pages.

(** ** The whole array *)
Section Mixed.
Context (lz4 : list Z -> Z -> option (list Z)) (file : list Z).
Context (preadv : Z -> Z -> Z) (auto_dedup : bool) (Hpreadv : forall off n, preadv off n <= n).

Lemma read_rio_ok p rio dedup : piov_ok p -> pi_storage p = VMA_IO_UNCOMPRESSED \/ pi_storage p = VMA_IO_PACKED_RAW -> renders p rio ->
  exists r log holes, restore_vma_preadv_one preadv auto_dedup (rio_fuel rio) (rio_iovs rio) (rio_off rio) dedup = Ret (r, log, holes) /\
    (r = 0 -> job_done p (EvRead log)) /\ ((forall off n, 0 < n -> 0 < preadv off n) -> r = 0).
Proof.
  intros Hp Hst [R1 R2 R3 R4]. destruct (piov_ok_pending p Hp Hst) as [(Hf & Hs & H0 & He) En]. rewrite R1, R3. unfold rio_fuel. rewrite R3.
  assert (Hpos : Forall (fun iov => 0 < iov_len iov) (valid_to p)) by (eapply Forall_impl; [exact (po_iovs _ Hp)|]; intros x (_ & ? & _); done).
  destruct (preadv_one_ok preadv auto_dedup Hpreadv dedup (S (Z.to_nat (zsum (iov_len <$> valid_to p)))) (valid_to p) (pi_from p) Hpos) as (r & log & holes & E & J & G); [lia|lia|lia|].
  exists r, log, holes. split; [done|]. split; [|done]. intros Hr. unfold job_done. rewrite Hs in J. destruct Hst as [->| ->]; exists log; auto.
Qed.

(** Nothing stops the reads. *)
Definition reads_go_on : Prop := forall off n, 0 < n -> 0 < preadv off n.

Definition not_encoded (q : list page_read_iov) : Prop := Forall (fun p => pi_storage p <> VMA_IO_ENCODED) q.

(** What reading an array comes to: 0 or -1, and 0 only for jobs that are done. *)
Definition mixed_result (q : list page_read_iov) (r : Z) (evs : list io_event) : Prop :=
  (r = 0 \/ r = -1) /\ (r = 0 -> Forall2 job_done q evs /\ not_encoded q) /\ (reads_go_on -> not_encoded q -> r = 0).

Lemma preadv_mixed_loop_ok q rios : Forall2 renders q rios -> Forall piov_ok q ->
  exists r evs holes, preadv_mixed_loop preadv auto_dedup true rios = Ret (r, evs, holes) /\ mixed_result q r evs.
Proof.
  unfold mixed_result, not_encoded. induction 1 as [|p rio q rios Hr _ IH]; intros Hok; [eexists _, _, _; split; [done|]; split; [by left|done]|]. apply Forall_cons_1 in Hok as [Hp Hok]. cbn [preadv_mixed_loop negb].
  destruct (IH Hok) as (r & evs & holes & -> & I0 & I1 & I2). pose proof Hr as [_ R2 R3 R4]. rewrite R2.
  assert (Htail : (reads_go_on -> Forall (fun p => pi_storage p <> VMA_IO_ENCODED) (p :: q) -> r = 0)) by (intros Hg Hf; apply Forall_cons_1 in Hf as [_ Hf]; auto).
  assert (Hread : forall dedup, pi_storage p = VMA_IO_UNCOMPRESSED \/ pi_storage p = VMA_IO_PACKED_RAW -> exists r1 evs1 holes1,
    (let! (r1, log, holes1) := restore_vma_preadv_one preadv auto_dedup (rio_fuel rio) (rio_iovs rio) (rio_off rio) dedup in
     if negb (r1 =? 0) then Ret (-1, [EvRead log], holes1) else let! (r2, ev, holes2) := Ret (r, evs, holes) in Ret (r2, EvRead log :: ev, holes1 ++ holes2)) = Ret (r1, evs1, holes1) /\
    (r1 = 0 \/ r1 = -1) /\ (r1 = 0 -> Forall2 job_done (p :: q) evs1 /\ Forall (fun p => pi_storage p <> VMA_IO_ENCODED) (p :: q)) /\ (reads_go_on -> Forall (fun p => pi_storage p <> VMA_IO_ENCODED) (p :: q) -> r1 = 0)).
  { intros dedup Hst. destruct (read_rio_ok p rio dedup Hp Hst Hr) as (r1 & log & h1 & -> & J & G). cbn [obind].
    destruct (Z.eqb_spec r1 0) as [->|Hn0]; cbn [negb obind]; eexists _, _, _; (split; [done|]); [|split; [by right|split; [done|intros Hg _; by specialize (G Hg)]]].
    split; [done|]. split; [|done]. intros ->. destruct (I1 eq_refl). split; constructor; auto. by destruct Hst as [->| ->]. }
  destruct (pi_storage p) eqn:Est; [apply Hread; by left| | |].
  - eexists _, _, _. split; [done|]. split; [by right|]. split; [done|]. intros _ Hf. by apply Forall_cons_1 in Hf as [? _].
  - rewrite (R4 ltac:(by left)). cbn [negb]. apply Hread. by right.
  - rewrite (R4 ltac:(by right)). cbn [negb obind]. eexists _, _, _. split; [done|]. split; [done|]. split; [|done]. intros Hz. destruct (I1 Hz). split; constructor; [unfold job_done; by rewrite Est, R3|done|by rewrite Est|done].
Qed.

(** A page is as long after a page was stored as before. *)
Lemma set_pages_length ws : forall m d, Forall (fun w => zlen w.2 = PAGE_SIZE) ws -> length (m d) = Z.to_nat PAGE_SIZE -> length (set_pages m ws d) = Z.to_nat PAGE_SIZE.
Proof.
  induction ws as [|w ws IH]; intros m d Hw Hm; [done|]. apply Forall_cons_1 in Hw as [H1 H2]. change (set_pages m (w :: ws) d) with (set_pages (set_page m w) ws d). apply IH; [done|].
  unfold set_page. destruct (d =? w.1); [unfold zlen, PAGE_SIZE in *; lia|done].
Qed.

(** The places the queue reads to: whole pages that are mapped. *)
Definition places_ok (m : memory) (q : list page_read_iov) : Prop := Forall (fun t => t.1 mod PAGE_SIZE = 0 /\ length (m t.1) = Z.to_nat PAGE_SIZE) (queue_tasks q).

Lemma run_jobs q evs : Forall2 job_done q evs -> Forall piov_ok q -> Forall (fun p => pi_storage p <> VMA_IO_ENCODED) q -> Forall (resolves lz4 file) (queue_tasks q) ->
  forall m a, places_ok m q -> run_events file m evs a = set_pages m (resolve lz4 file <$> queue_tasks q) a.
Proof.
  induction 1 as [|p ev q evs Hj _ IH]; intros Hok Hne Hr m a Hp; [done|]. apply Forall_cons_1 in Hok as [Hpo Hok], Hne as [Hn Hne].
  unfold queue_tasks, places_ok in *. rewrite fmap_cons in *. cbn [concat] in *. apply Forall_app in Hr as [Hr1 Hr2], Hp as [Hp1 Hp2].
  unfold run_events in *. rewrite fmap_cons. cbn [concat]. rewrite pokes_app, fmap_app, set_pages_app.
  assert (Hd : Forall (fun d => d mod PAGE_SIZE = 0 /\ length (m d) = Z.to_nat PAGE_SIZE) (job_dests p)) by (destruct (job_tasks_parts p Hpo) as (<- & _); by apply Forall_fmap).
  rewrite (pokes_ext _ _ (set_pages m (resolve lz4 file <$> job_tasks p))) by (intros q1; by apply event_pages). apply IH; [done|done|done|].
  eapply Forall_impl; [exact Hp2|]. intros t [H1 H2]. split; [done|]. apply set_pages_length; [|done]. apply Forall_fmap. eapply Forall_impl; [exact Hr1|]. intros u (x & E & Hx). unfold compose, resolve. by rewrite E.
Qed.
End Mixed.

(** What is rendered. *)
Lemma pagemap_render_ok q al rios al' : Forall piov_ok q -> pagemap_render_iovec al q = (Some rios, al') -> Forall2 renders q rios.
Proof.
  intros Hok Hr. unfold pagemap_render_iovec in Hr. destruct (render_meta al q) as [[] al1]; cbn [negb] in Hr; [|done].
  pose proof (render_rios_ok q Hok al1) as Hrr. rewrite Hr in Hrr. by destruct Hrr.
Qed.

(** C18. Reading the pages left to the last stage.  For a queue of jobs of the kinds
    that may be left (no LZ4 blocks), rendering it for the restorer fails only
    for want of memory or if a job has more pages than an int holds; the checks
    of the restorer accept what was rendered; [restore_vma_preadv_mixed] returns,
    however short the reads are and whether or not they are limited to punch
    holes on the way, and with result 0 the memory of the process is the one
    before with exactly the queued pages stored, each at its place.  It
    succeeds if every read makes progress. *)
Theorem restore_vma_preadv_correct lz4 file preadv auto_dedup al q m : (forall off n, preadv off n <= n) -> Forall piov_ok q -> Forall (fun p => pi_storage p <> VMA_IO_ENCODED) q ->
  Forall (resolves lz4 file) (queue_tasks q) -> places_ok m q ->
  exists rendered al', pagemap_render_iovec al q = (rendered, al') /\
    (al = [] -> Forall (fun p => pi_n_pages p <= INT_MAX) q -> rendered <> None) /\
    forall rios, rendered = Some rios -> exists r evs holes, restore_vma_preadv_mixed preadv auto_dedup true rios = Ret (r, evs, holes, false) /\
      (r = 0 -> forall a, run_events file m evs a = set_pages m (resolve lz4 file <$> queue_tasks q) a) /\ (reads_go_on preadv -> r = 0).
Proof.
  intros Hpr Hok Hne Hr Hp. unfold pagemap_render_iovec. pose proof (render_meta_ok q) as Hm. destruct (render_meta al q) as [ok al1] eqn:Em. destruct ok; cbn [negb]; cycle 1.
  { eexists _, _. split; [done|]. split; [|done]. intros ->. rewrite Em in Hm. by destruct Hm. }
  pose proof (render_rios_ok q Hok al1) as Hrr. destruct (render_rios al1 q) as [[rios|] al2]; destruct Hrr as [H1 H2]; eexists _, _; (split; [done|]); (split; [|]).
  - done.
  - intros ? [= <-]. destruct (preadv_mixed_loop_ok preadv auto_dedup Hpr q rios H1 Hok) as (r & evs & holes & E & _ & J & G). exists r, evs, holes. unfold restore_vma_preadv_mixed. rewrite E. split; [done|].
    split; [|intros Hg; by apply G]. intros Hz a. by apply run_jobs; [apply J|..].
  - intros -> Hf. rewrite Em in Hm. destruct Hm as [_ ->]. by destruct (H2 eq_refl Hf).
  - done.
Qed.

(** Two jobs, one of two pages that are read and one page that is cleared. *)
Definition io_read_job : page_read_iov := PageReadIov 0 8192 [Iovec 0x5000 8192] 1 VMA_IO_UNCOMPRESSED (PageBlockLayout [] 0 0 0) 2 [].
Definition io_zero_job : page_read_iov := PageReadIov 8192 8192 [Iovec 0x9000 4096] 1 VMA_IO_ZERO (PageBlockLayout [0] 1 0 16) 1 [1].
Definition io_file : list Z := replicate 4096 7 ++ replicate 4096 9.
Definition io_mem : memory := fun _ => replicate 4096 1.
Definition short_preadv (off n : Z) : Z := Z.min n 1000.

Lemma io_jobs_ok : Forall piov_ok [io_read_job; io_zero_job].
Proof.
  constructor; [|constructor; [|constructor]].
  - split; try done; try (cbn; lia).
    + split; cbn; try done; try lia. repeat constructor; cbn; lia.
    + repeat constructor; cbn; lia.
  - split; try done; try (cbn; lia).
    + split; cbn; try done; try lia. repeat constructor; cbn; lia.
    + repeat constructor; cbn; lia.
    + intros _. cbn. unfold MAX_BLOCK_PAGES, block_fits, PAGE_SIZE. split_and!; try done; try lia. repeat constructor; cbn; (done || lia).
Qed.

Lemma restore_vma_preadv_correct_witness : exists rios evs holes, pagemap_render_iovec [] [io_read_job; io_zero_job] = (Some rios, []) /\
  restore_vma_preadv_mixed short_preadv false true rios = Ret (0, evs, holes, false) /\ run_events io_file io_mem evs 0x6000 = replicate 4096 9 /\ run_events io_file io_mem evs 0x9000 = replicate 4096 0.
Proof.
  destruct (restore_vma_preadv_correct (fun _ _ => None) io_file short_preadv false [] [io_read_job; io_zero_job] io_mem) as (rendered & al' & E & H1 & H2).
  - intros off n. unfold short_preadv. lia.
  - exact io_jobs_ok.
  - repeat constructor; discriminate.
  - repeat constructor; (eexists; split; [vm_compute; reflexivity|vm_compute; reflexivity]).
  - repeat constructor.
  - assert (Ea : al' = []) by (vm_compute in E; injection E as _ Ea; symmetry; exact Ea). subst al'.
    destruct rendered as [rios|]; [|vm_compute in E; discriminate]. destruct (H2 rios eq_refl) as (r & evs & holes & Er & H3 & H4).
    assert (Hr : r = 0) by (apply H4; intros off n Hn; unfold short_preadv; lia). rewrite Hr in Er, H3. specialize (H3 eq_refl). exists rios, evs, holes. split; [exact E|]. split; [exact Er|].
    rewrite !H3. split; vm_compute; reflexivity.
Defined.
