(* ===== verification/VmaAio.v ===== *)
(** Reading the pages left to the last stage with Linux AIO:
    [advance_vma_io_retry], [process_aio_event], [submit_aio_batch],
    [reap_aio_events] and [restore_vma_aio] of criu/pie/restorer.c.

    Requests are submitted in a window of [AIO_BATCH]; completions come in any
    order, and short ones are submitted again for the rest.  The kernel is a
    parameter: [submit k room n] answers the [k]-th io_submit for [n] requests
    when [room] more fit its context, [getevents k infl] the wait for
    completions among those in flight, given with the bytes each still wants.
    Waiting with nothing in flight never ends.

    Not part of the model: the memory for the iocbs (its size cannot overflow
    for a 32-bit number of requests), io_destroy and close. *)
From S2P Require Import Prelude PagemapImage PageRead Dedup AsyncQueue ProcessReads ReadPages ChainRead ReadOps AsyncRead VmaIo.

Definition AIO_BATCH : Z := 128.

(** A request with the array element it reads for ([rio_ptrs]). *)
Record iocb := Iocb { aio_vec : list iovec; aio_offset : Z; aio_data : Z; aio_rio : restore_vma_io }.

(** [as_inflight]: what the kernel works on; [as_calls]: system calls so far. *)
Record aio_state := AioState {
  as_cbs : list iocb;
  as_submitted : Z;
  as_completed : Z;
  as_inflight : list nat;
  as_calls : nat;
  as_log : list (Z * list iovec * Z);
  as_holes : list (Z * Z)
}.

(** The two loops of [advance_vma_io_retry]: the vector with what was read taken
    off, and what it is from the first element that is not read whole. *)
Fixpoint retry_consume (iovs : list iovec) (remaining : Z) : list iovec * list iovec :=
  match iovs with
  | [] => ([], [])
  | iov :: rest =>
      if remaining >? 0 then
        if iov_len iov <=? remaining then
          let '(all, from_j) := retry_consume rest (remaining - iov_len iov) in
          (Iovec (iov_base iov) 0 :: all, from_j)
        else
          let iov := Iovec (iov_base iov + remaining) (iov_len iov - remaining) in
          (iov :: rest, iov :: rest)
      else (iovs, iovs)
  end.
Fixpoint skip_empty (iovs : list iovec) : list iovec :=
  match iovs with
  | iov :: rest => if iov_len iov =? 0 then skip_empty rest else iovs
  | [] => []
  end.
Definition advance_vma_io_retry (rio : restore_vma_io) (res : Z) : restore_vma_io * list iovec :=
  let '(all, from_j) := retry_consume (rio_iovs rio) res in
  (Rio (s64 (rio_off rio + res)) (rio_storage rio) (rio_layout rio) (rio_n_pages rio) (rio_block_pages rio) all, skip_empty from_j).

Section Aio.
Context (submit : nat -> Z -> Z -> Z) (getevents : nat -> list (nat * Z) -> option (list (nat * Z))) (auto_dedup : bool).

Definition room (st : aio_state) : Z := AIO_BATCH - zlen (as_inflight st).
Definition in_flight (st : aio_state) : list (nat * Z) :=
  (fun i => (i, match as_cbs st !! i with Some cb => aio_data cb | None => 0 end)) <$> as_inflight st.

(** io_submit of the requests [idxs]. *)
Definition sys_io_submit (idxs : list nat) (st : aio_state) : Z * aio_state :=
  let ret := submit (as_calls st) (room st) (zlen idxs) in
  (ret, AioState (as_cbs st) (as_submitted st) (as_completed st) (as_inflight st ++ take (Z.to_nat ret) idxs) (S (as_calls st)) (as_log st) (as_holes st)).

(** One completion: 0, done; 1, submitted again; -1. *)
Definition process_aio_event (ev : nat * Z) (st : aio_state) : outcome (Z * aio_state) :=
  let '(idx, res) := ev in
  if res <? 0 then Ret (-1, st)
  else if res =? 0 then Ret (-1, st)
  else
    match as_cbs st !! idx with
    | None => Bug
    | Some cb =>
        let r := aio_rio cb in
        let punch := auto_dedup && bool_decide (rio_storage r = VMA_IO_UNCOMPRESSED) in
        let st := AioState (as_cbs st) (as_submitted st) (as_completed st) (as_inflight st) (as_calls st)
                    (as_log st ++ [(aio_offset cb, aio_vec cb, res)]) (as_holes st ++ if punch then [(aio_offset cb, res)] else []) in
        if res =? aio_data cb then Ret (0, st)
        else
          let '(r, iov_next) := advance_vma_io_retry r res in
          match iov_next with
          | [] => Ret (-1, st)
          | _ =>
              let cb := Iocb iov_next (rio_off r) (u64 (aio_data cb - res)) r in
              let st := AioState (<[idx := cb]> (as_cbs st)) (as_submitted st) (as_completed st) (as_inflight st) (as_calls st) (as_log st) (as_holes st) in
              let '(ret2, st) := sys_io_submit [idx] st in
              if negb (ret2 =? 1) then Ret (-1, st) else Ret (1, st)
          end
    end.

Definition set_submitted (n : Z) (st : aio_state) : aio_state := AioState (as_cbs st) n (as_completed st) (as_inflight st) (as_calls st) (as_log st) (as_holes st).
Definition set_completed (n : Z) (st : aio_state) : aio_state := AioState (as_cbs st) (as_submitted st) n (as_inflight st) (as_calls st) (as_log st) (as_holes st).

(** [n]: the number of requests. *)
Fixpoint submit_aio_batch (fuel : nat) (n : Z) (st : aio_state) : outcome (Z * aio_state) :=
  if (as_submitted st <? n) && (u32 (as_submitted st - as_completed st) <? AIO_BATCH) then
    match fuel with
    | O => NoFuel
    | S fuel =>
        let batch := n - as_submitted st in
        let left := AIO_BATCH - u32 (as_submitted st - as_completed st) in
        let batch := if batch >? left then left else batch in
        let '(aio_ret, st) := sys_io_submit (seq (Z.to_nat (as_submitted st)) (Z.to_nat batch)) st in
        if aio_ret <=? 0 then Ret (-1, st)
        else submit_aio_batch fuel n (set_submitted (as_submitted st + aio_ret) st)
    end
  else Ret (0, st).

Fixpoint reap_aio_events (events : list (nat * Z)) (st : aio_state) : outcome (Z * aio_state) :=
  match events with
  | [] => Ret (0, st)
  | ev :: events =>
      let! (rc, st) := process_aio_event ev st in
      if rc <? 0 then Ret (-1, st)
      else reap_aio_events events (if rc =? 0 then set_completed (as_completed st + 1) st else st)
  end.

(** The completions are no longer in flight. *)
Definition sys_io_getevents (st : aio_state) : outcome (option (list (nat * Z)) * aio_state) :=
  match as_inflight st with
  | [] => NoFuel
  | _ =>
      let r := getevents (as_calls st) (in_flight st) in
      let infl := match r with Some evs => filter (fun i => i ∉ evs.*1) (as_inflight st) | None => as_inflight st end in
      Ret (r, AioState (as_cbs st) (as_submitted st) (as_completed st) infl (S (as_calls st)) (as_log st) (as_holes st))
  end.

(** Submit and reap in batches. *)
Fixpoint aio_loop (fuel : nat) (n : Z) (st : aio_state) : outcome (Z * aio_state) :=
  if (as_submitted st <? n) || (as_completed st <? n) then
    match fuel with
    | O => NoFuel
    | S fuel =>
        let! (ret, st) := submit_aio_batch (Z.to_nat n) n st in
        if ret <? 0 then Ret (-1, st)
        else if as_completed st >=? n then aio_loop fuel n st
        else
          let! (events, st) := sys_io_getevents st in
          match events with
          | None | Some [] => Ret (-1, st)
          | Some events =>
              let! (ret, st) := reap_aio_events events st in
              if ret <? 0 then Ret (-1, st) else aio_loop fuel n st
          end
    end
  else Ret (0, st).

(** The requests for the elements that read from the image; the others are
    cleared at once. *)
Fixpoint build_iocbs (rios : list restore_vma_io) : bool * list io_event * list iocb :=
  match rios with
  | [] => (true, [], [])
  | rio :: rios =>
      let request :=
        match sum_iov_len 0 (rio_iovs rio) with
        | None => (false, [], [])
        | Some expected =>
            let '(ok, evs, cbs) := build_iocbs rios in
            (ok, evs, Iocb (rio_iovs rio) (rio_off rio) expected rio :: cbs)
        end in
      match rio_storage rio with
      | VMA_IO_ZERO =>
          if negb (validate_direct_vma_io rio) then (false, [], [])
          else let '(ok, evs, cbs) := build_iocbs rios in (ok, EvZero (rio_iovs rio) :: evs, cbs)
      | VMA_IO_PACKED_RAW => if negb (validate_direct_vma_io rio) then (false, [], []) else request
      | VMA_IO_UNCOMPRESSED => request
      | VMA_IO_ENCODED => (false, [], [])
      end
  end.

Definition requested_bytes (cbs : list iocb) : Z := zsum (aio_data <$> cbs).

(** [setup], [mapped]: do io_setup and the mmap for the iocbs succeed. *)
Definition restore_vma_aio (setup mapped : bool) (rios : list restore_vma_io) : outcome (Z * list io_event * list (Z * Z)) :=
  if negb setup then Ret (-1, [], [])
  else if negb mapped then Ret (-1, [], [])
  else
    let '(ok, evs, cbs) := build_iocbs rios in
    if negb ok then Ret (-1, evs, [])
    else
      let! (ret, st) := aio_loop (S (Z.to_nat (requested_bytes cbs))) (zlen cbs) (AioState cbs 0 0 [] 0 [] []) in
      Ret (ret, evs ++ [EvRead (as_log st)], as_holes st).
End Aio.

(** ** One request *)
Lemma vec_bytes_cons x l : vec_bytes (x :: l) = iov_bytes x ++ vec_bytes l.
Proof. done. Qed.

Lemma skip_empty_ok l : vec_bytes (skip_empty l) = vec_bytes l /\ zsum (iov_len <$> skip_empty l) = zsum (iov_len <$> l).
Proof.
  induction l as [|x l IH]; [done|]. cbn [skip_empty]. destruct (Z.eqb_spec (iov_len x) 0) as [E|]; [|done]. destruct IH as [-> ->].
  rewrite vec_bytes_cons, fmap_cons, zsum_cons. unfold iov_bytes. rewrite E. split; [done|lia].
Qed.

Lemma retry_consume_ok l : forall r all from_j, Forall (fun iov => 0 <= iov_len iov) l -> 0 <= r <= zsum (iov_len <$> l) -> retry_consume l r = (all, from_j) ->
  Forall (fun iov => 0 <= iov_len iov) all /\ skip_empty from_j = skip_empty all /\ zsum (iov_len <$> all) = zsum (iov_len <$> l) - r /\ vec_bytes all = drop (Z.to_nat r) (vec_bytes l).
Proof.
  induction l as [|x l IH]; intros r all from_j Hf Hr H; cbn [retry_consume] in H; [injection H as <- <-; cbn in Hr; split_and!; try done; [cbn; lia|by destruct (Z.to_nat r)]|].
  apply Forall_cons_1 in Hf as [Hx Hl]. rewrite fmap_cons, zsum_cons in *. rewrite vec_bytes_cons. rewrite Z.gtb_ltb in H. destruct (Z.ltb_spec 0 r) as [Hpos|Hz]; cycle 1.
  { injection H as <- <-. assert (r = 0) as -> by lia. rewrite fmap_cons, zsum_cons. split_and!; try done; [by constructor|lia]. }
  destruct (Z.leb_spec (iov_len x) r) as [Hle|Hgt].
  - destruct (retry_consume l (r - iov_len x)) as [all' fj] eqn:E. injection H as <- <-. destruct (IH (r - iov_len x) _ _ Hl ltac:(lia) E) as (I1 & I2 & I3 & I4). rewrite fmap_cons, zsum_cons, vec_bytes_cons. cbn [iov_len skip_empty Z.eqb].
    split; [by constructor|]. split; [done|]. split; [lia|]. rewrite I4. change (iov_bytes (Iovec (iov_base x) 0)) with (@nil Z). cbn [app]. rewrite drop_app_ge by (unfold iov_bytes; rewrite length_seqZ; lia). f_equal. unfold iov_bytes. rewrite length_seqZ. lia.
  - injection H as <- <-. rewrite fmap_cons, zsum_cons, vec_bytes_cons. cbn [iov_len]. split; [by constructor; [cbn; lia|]|]. split; [done|]. split; [lia|].
    rewrite drop_app_le by (unfold iov_bytes; rewrite length_seqZ; lia). f_equal. unfold iov_bytes. cbn [iov_base iov_len]. replace (iov_len x) with (r + (iov_len x - r)) at 2 by lia.
    rewrite seqZ_app by lia. rewrite drop_app_length'; [done|]. by rewrite length_seqZ.
Qed.

(** What a request still wants: (address, file offset) of every byte. *)
Definition cb_pending (cb : iocb) : list (Z * Z) := zip (vec_bytes (aio_vec cb)) (seqZ (aio_offset cb) (aio_data cb)).

Record cb_wf (cb : iocb) : Prop := CbWf {
  cw_lens : Forall (fun iov => 0 <= iov_len iov) (rio_iovs (aio_rio cb));
  cw_vec : aio_vec cb = skip_empty (rio_iovs (aio_rio cb));
  cw_off : rio_off (aio_rio cb) = aio_offset cb;
  cw_data : aio_data cb = zsum (iov_len <$> rio_iovs (aio_rio cb));
  cw_some : 0 < aio_data cb;
  cw_range : 0 <= aio_offset cb /\ aio_offset cb + aio_data cb <= OFF_MAX
}.

Lemma cb_vec_bytes cb : cb_wf cb -> vec_bytes (aio_vec cb) = vec_bytes (rio_iovs (aio_rio cb)) /\ length (vec_bytes (aio_vec cb)) = Z.to_nat (aio_data cb).
Proof.
  intros [W1 W2 _ W4 _ _]. destruct (skip_empty_ok (rio_iovs (aio_rio cb))) as [E _]. rewrite W2, E. split; [done|]. pose proof (length_vec_bytes _ W1). lia.
Qed.

Lemma length_cb_pending cb : cb_wf cb -> Z.of_nat (length (cb_pending cb)) = aio_data cb.
Proof. intros W. destruct (cb_vec_bytes cb W) as [_ E]. unfold cb_pending. rewrite length_zip_with, E, length_seqZ. pose proof (cw_some _ W). lia. Qed.

(** The transfer of the first [r] bytes. *)
Lemma pending_all_read cb : cb_wf cb -> log_bytes [(aio_offset cb, aio_vec cb, aio_data cb)] = cb_pending cb.
Proof.
  intros W. destruct (cb_vec_bytes cb W) as [_ E]. unfold log_bytes. cbn. rewrite app_nil_r. unfold cb_pending. f_equal. apply firstn_all2. lia.
Qed.

Lemma pending_part_read cb r : cb_wf cb -> 0 < r < aio_data cb -> let '(rio, next) := advance_vma_io_retry (aio_rio cb) r in
  next <> [] /\ let cb' := Iocb next (rio_off rio) (u64 (aio_data cb - r)) rio in cb_wf cb' /\ aio_data cb' = aio_data cb - r /\ cb_pending cb = log_bytes [(aio_offset cb, aio_vec cb, r)] ++ cb_pending cb'.
Proof.
  intros W Hr. pose proof W as [W1 W2 W3 W4 W5 [W6 W7]]. unfold advance_vma_io_retry. destruct (retry_consume (rio_iovs (aio_rio cb)) r) as [all fj] eqn:E.
  destruct (retry_consume_ok _ r _ _ W1 ltac:(lia) E) as (A1 & A2 & A3 & A4). destruct (skip_empty_ok all) as [S1 S2]. unfold OFF_MAX in *.
  assert (Ed : u64 (aio_data cb - r) = aio_data cb - r) by (apply u64_small; lia). assert (Eo : s64 (rio_off (aio_rio cb) + r) = aio_offset cb + r) by (rewrite W3; apply s64_small; lia).
  split; [intros En; rewrite A2 in En; rewrite En in S2; cbn in S2; lia|]. cbv zeta. cbn [rio_off]. rewrite Ed, Eo. split; [split; cbn [aio_rio rio_iovs aio_vec rio_off aio_offset aio_data]; unfold OFF_MAX; try done; lia|].
  split; [done|]. destruct (cb_vec_bytes cb W) as [V1 V2]. unfold cb_pending at 2. cbn [aio_vec aio_offset aio_data]. rewrite A2, S1, A4, <- V1. unfold cb_pending, log_bytes. cbn. rewrite app_nil_r.
  replace (aio_data cb) with (r + (aio_data cb - r)) at 1 by lia. rewrite seqZ_app by lia. rewrite zip_take_drop by (rewrite length_seqZ; lia). by rewrite length_seqZ.
Qed.

(** ** All requests *)

(** What the kernel promises; when it is live. *)
Record aio_kernel_ok (submit : nat -> Z -> Z -> Z) (getevents : nat -> list (nat * Z) -> option (list (nat * Z))) : Prop := AioKernelOk {
  ak_submit : forall k room n, submit k room n <= n;
  ak_events : forall k infl evs, getevents k infl = Some evs -> NoDup evs.*1 /\ forall i r, (i, r) ∈ evs -> exists d, (i, d) ∈ infl /\ r <= d
}.
Record aio_kernel_live (submit : nat -> Z -> Z -> Z) (getevents : nat -> list (nat * Z) -> option (list (nat * Z))) : Prop := AioKernelLive {
  al_submit : forall k room n, 0 < n <= room -> 0 < submit k room n;
  al_events : forall k infl, infl <> [] -> Forall (fun x => 0 < x.2) infl -> exists evs, getevents k infl = Some evs /\ evs <> [] /\ Forall (fun x => 0 < x.2) evs
}.

Section AioOk.
Context (submit : nat -> Z -> Z -> Z) (getevents : nat -> list (nat * Z) -> option (list (nat * Z))) (auto_dedup : bool).
Context (HK : aio_kernel_ok submit getevents) (n : Z) (wanted_bytes : list (Z * Z)).
Abbreviation live := (aio_kernel_live submit getevents).

Definition pending_of (cbs : list iocb) (i : nat) : list (Z * Z) := match cbs !! i with Some cb => cb_pending cb | None => [] end.

(** The requests that are not done: in flight, reaped, not submitted yet. *)
Definition open_requests (st : aio_state) (E : list (nat * Z)) : list nat :=
  as_inflight st ++ E.*1 ++ seq (Z.to_nat (as_submitted st)) (Z.to_nat (n - as_submitted st)).

(** Bytes transferred and bytes pending together are those asked for; no more
    requests are open than the window holds. *)
Record aio_inv (st : aio_state) (E : list (nat * Z)) : Prop := AioInv {
  ai_nodup : NoDup (open_requests st E);
  ai_count : as_completed st + zlen (open_requests st E) = n;
  ai_range : 0 <= as_completed st /\ 0 <= as_submitted st <= n /\ as_submitted st - as_completed st <= AIO_BATCH;
  ai_wf : forall i, i ∈ open_requests st E -> exists cb, as_cbs st !! i = Some cb /\ cb_wf cb;
  ai_events : forall i r cb, (i, r) ∈ E -> as_cbs st !! i = Some cb -> r <= aio_data cb;
  ai_bytes : log_bytes (as_log st) ++ (open_requests st E ≫= pending_of (as_cbs st)) ≡ₚ wanted_bytes
}.

Definition pending_bytes (st : aio_state) (E : list (nat * Z)) : Z := zlen (open_requests st E ≫= pending_of (as_cbs st)).

(** How many are in flight or reaped. *)
Lemma open_window st E : aio_inv st E -> zlen (as_inflight st) + zlen E = as_submitted st - as_completed st.
Proof.
  intros [_ C (R1 & R2 & R3) _ _ _]. unfold open_requests in C. rewrite !zlen_app in C. unfold zlen in *. rewrite length_fmap, length_seq in C. lia.
Qed.

Lemma log_bytes_app l1 l2 : log_bytes (l1 ++ l2) = log_bytes l1 ++ log_bytes l2.
Proof. unfold log_bytes. by rewrite fmap_app, concat_app. Qed.

(** Other requests do not see a change of one. *)
Lemma pending_insert cbs i cb l : i ∉ l -> l ≫= pending_of (<[i := cb]> cbs) = l ≫= pending_of cbs.
Proof.
  induction l as [|j l IH]; intros Hi; [done|]. apply not_elem_of_cons in Hi as [Hne Hi]. cbn [mbind list_bind]. f_equal; [|by apply IH]. unfold pending_of. by rewrite list_lookup_insert_ne.
Qed.

Lemma open_head st i r E : open_requests st ((i, r) :: E) ≡ₚ i :: open_requests st E.
Proof. unfold open_requests. rewrite fmap_cons. cbn [fst app]. symmetry. apply Permutation_middle. Qed.

(** One completion. *)
Lemma process_aio_event_ok i r E st : aio_inv st ((i, r) :: E) ->
  exists rc st', process_aio_event submit auto_dedup (i, r) st = Ret (rc, st') /\ (0 <= rc -> rc = 0 \/ rc = 1) /\
    (0 <= rc -> let st' := if rc =? 0 then set_completed (as_completed st' + 1) st' else st' in aio_inv st' E /\ pending_bytes st' E < pending_bytes st ((i, r) :: E)) /\
    (live -> 0 < r -> 0 <= rc).
Proof.
  intros Hinv. pose proof (open_window _ _ Hinv) as Hwin. pose proof Hinv as [I1 I2 (I3 & I4 & I5) I6 I7 I8]. pose proof (open_head st i r E) as Hperm.
  rewrite Hperm in I1, I8. apply NoDup_cons in I1 as [Hi Hnd]. destruct (I6 i) as (cb & Hcb & W); [rewrite Hperm; by left|]. pose proof (I7 i r cb ltac:(by left) Hcb) as Hle.
  assert (Hlen : zlen (open_requests st ((i, r) :: E)) = zlen (open_requests st E) + 1) by (unfold zlen; rewrite Hperm; cbn; lia).
  assert (Hpb : pending_bytes st ((i, r) :: E) = aio_data cb + pending_bytes st E).
  { unfold pending_bytes, zlen. rewrite Hperm. cbn [mbind list_bind]. rewrite length_app. unfold pending_of at 1. rewrite Hcb. pose proof (length_cb_pending cb W). lia. }
  assert (Hrest : forall j, j ∈ open_requests st E -> exists cb, as_cbs st !! j = Some cb /\ cb_wf cb) by (intros j Hj; apply I6; rewrite Hperm; by right).
  cbn [mbind list_bind] in I8. unfold pending_of at 1 in I8. rewrite Hcb in I8.
  unfold process_aio_event. destruct (Z.ltb_spec r 0) as [?|Hr1]; [eexists _, _; split; [done|]; split_and!; intros; lia|]. destruct (Z.eqb_spec r 0) as [?|Hr0]; [eexists _, _; split; [done|]; split_and!; intros; lia|].
  rewrite Hcb. destruct (Z.eqb_spec r (aio_data cb)) as [->|Hne].
  { eexists _, _. split; [done|]. split; [auto|]. split; [|lia]. intros _. cbn [Z.eqb]. pose proof (cw_some _ W). split; [|unfold pending_bytes, open_requests in *; cbn in *; lia].
    split; cbn [set_completed as_cbs as_submitted as_completed as_inflight as_log]; try done.
    - unfold open_requests in *. cbn in *. lia.
    - unfold zlen in Hwin. cbn [length] in Hwin. lia.
    - intros j s cb' Hj. apply I7. by right.
    - rewrite log_bytes_app, (pending_all_read cb W), <- app_assoc. exact I8. }
  pose proof (pending_part_read cb r W ltac:(lia)) as Hpart. destruct (advance_vma_io_retry (aio_rio cb) r) as [rio next]. destruct Hpart as (Hnx & W' & Ed & Hsplit).
  destruct next as [|x xs]; [done|]. set (cb' := Iocb (x :: xs) (rio_off rio) (u64 (aio_data cb - r)) rio) in *. unfold sys_io_submit. cbn [as_cbs as_submitted as_completed as_inflight as_calls as_log as_holes].
  set (ret2 := submit _ _ _). assert (H2 : ret2 <= 1) by (apply (ak_submit _ _ HK)).
  assert (Hlive : live -> ret2 = 1).
  { intros HL. enough (0 < ret2) by lia. apply (al_submit _ _ HL). unfold room, zlen in *. cbn [as_inflight length] in *. lia. }
  destruct (Z.eqb_spec ret2 1) as [E1|Hn1]; cbn [negb]; [|eexists _, _; split; [done|]; split_and!; intros; try lia; by specialize (Hlive ltac:(done))].
  eexists _, _. split; [done|]. split; [auto|]. split; [|lia]. intros _. cbn [Z.eqb]. rewrite E1. change (take (Z.to_nat 1) [i]) with [i].
  set (st' := AioState _ _ _ _ _ _ _). assert (Hopen : open_requests st' E ≡ₚ i :: open_requests st E).
  { unfold open_requests. cbn [as_inflight as_submitted st']. rewrite <- app_assoc. cbn [app]. symmetry. apply Permutation_middle. }
  assert (Hpend : open_requests st' E ≫= pending_of (as_cbs st') ≡ₚ cb_pending cb' ++ (open_requests st E ≫= pending_of (as_cbs st))).
  { rewrite Hopen. cbn [mbind list_bind as_cbs st']. rewrite pending_insert by done. unfold pending_of at 1. rewrite list_lookup_insert_eq by (by eapply lookup_lt_Some). done. }
  split.
  - split.
    + rewrite Hopen. by constructor.
    + cbn [st' as_completed]. unfold zlen in *. rewrite Hopen. cbn [length]. lia.
    + cbn [st' as_completed as_submitted]. lia.
    + intros j Hj. rewrite Hopen in Hj. cbn [st' as_cbs]. apply elem_of_cons in Hj as [->|Hj]; [exists cb'; by rewrite list_lookup_insert_eq by (by eapply lookup_lt_Some)|].
      rewrite list_lookup_insert_ne by (intros ->; done). by apply Hrest.
    + intros j s cbj Hj. cbn [st' as_cbs]. rewrite list_lookup_insert_ne; [apply I7; by right|]. intros ->. apply Hi. unfold open_requests. apply elem_of_app. right. apply elem_of_app. left. apply list_elem_of_fmap. by exists (j, s).
    + rewrite Hpend. cbn [st' as_log]. rewrite log_bytes_app, <- !app_assoc. rewrite Hsplit, <- !app_assoc in I8. exact I8.
  - rewrite Hpb. unfold pending_bytes, zlen. rewrite Hpend, length_app. pose proof (length_cb_pending cb' W'). unfold zlen. lia.
Qed.

Lemma reap_aio_events_ok E : forall st, aio_inv st E ->
  exists ret st', reap_aio_events submit auto_dedup E st = Ret (ret, st') /\ (0 <= ret -> aio_inv st' [] /\ pending_bytes st' [] + zlen E <= pending_bytes st E) /\
    (live -> Forall (fun x => 0 < x.2) E -> 0 <= ret).
Proof.
  induction E as [|[i r] E IH]; intros st Hinv; cbn [reap_aio_events]; [eexists _, _; split; [done|]; split; [|done]; intros _; split; [done|change (zlen []) with 0; lia]|].
  destruct (process_aio_event_ok i r E st Hinv) as (rc & st1 & -> & P1 & P2 & P3). cbn [obind]. destruct (Z.ltb_spec rc 0) as [Hneg|Hge].
  { eexists _, _. split; [done|]. split; [lia|]. intros HL Hf. apply Forall_cons_1 in Hf as [Hr _]. specialize (P3 HL Hr). lia. }
  destruct (P2 Hge) as [Q1 Q2]. destruct (IH _ Q1) as (ret & st' & -> & R1 & R2). eexists _, _. split; [done|]. split.
  - intros Hret. destruct (R1 Hret) as [A1 A2]. split; [done|]. unfold zlen in *. cbn [length]. lia.
  - intros HL Hf. apply Forall_cons_1 in Hf as [_ Hf]. by apply R2.
Qed.

Lemma submit_aio_batch_ok fuel : forall st, aio_inv st [] -> n - as_submitted st <= Z.of_nat fuel ->
  exists ret st', submit_aio_batch submit fuel n st = Ret (ret, st') /\
    (0 <= ret -> aio_inv st' [] /\ pending_bytes st' [] = pending_bytes st [] /\ as_completed st' = as_completed st /\ (as_submitted st' = n \/ as_submitted st' - as_completed st' = AIO_BATCH)) /\
    (live -> 0 <= ret).
Proof.
  induction fuel as [|fuel IH]; intros st Hinv Hf; pose proof (open_window _ _ Hinv) as Hwin; pose proof Hinv as [I1 I2 (I3 & I4 & I5) I6 I7 I8]; pose proof (zlen_nonneg (as_inflight st)) as Hnn; cbn [submit_aio_batch].
  all: change (zlen []) with 0 in Hwin; unfold AIO_BATCH in *; rewrite (u32_small (as_submitted st - as_completed st)) by lia;
    destruct (Z.ltb_spec (as_submitted st) n) as [Hlt|Hge]; cbn [andb]; [destruct (Z.ltb_spec (as_submitted st - as_completed st) 128) as [Hw|Hw]|];
    try (eexists _, _; split; [done|]; split; [|done]; intros _; split_and!; (done || lia)).
  { lia. }
  set (batch := if n - as_submitted st >? 128 - (as_submitted st - as_completed st) then _ else _).
  assert (Hb : 0 < batch <= n - as_submitted st /\ batch <= 128 - (as_submitted st - as_completed st)) by (unfold batch; rewrite Z.gtb_ltb; destruct (Z.ltb_spec (128 - (as_submitted st - as_completed st)) (n - as_submitted st)); lia).
  clearbody batch. unfold sys_io_submit. set (sq := seq (Z.to_nat (as_submitted st)) (Z.to_nat batch)). assert (Hsq : zlen sq = batch) by (unfold zlen, sq; rewrite length_seq; lia). rewrite Hsq.
  set (k := submit _ _ batch). assert (Hk : k <= batch) by (apply (ak_submit _ _ HK)).
  assert (Hkl : live -> 0 < k) by (intros HL; apply (al_submit _ _ HL); unfold room, AIO_BATCH; lia).
  destruct (Z.leb_spec k 0) as [Hk0|Hk0]; [eexists _, _; split; [done|]; split; [lia|]; intros HL; specialize (Hkl HL); lia|].
  set (st1 := set_submitted _ _). assert (Hop : open_requests st1 [] = open_requests st []).
  { unfold open_requests, st1. cbn [set_submitted as_inflight as_submitted fmap list_fmap app]. rewrite <- app_assoc. f_equal. unfold sq. rewrite take_seq. rewrite Nat.min_l by lia.
    replace (Z.to_nat (n - as_submitted st)) with (Z.to_nat k + Z.to_nat (n - (as_submitted st + k)))%nat by lia. rewrite seq_app. do 2 f_equal. lia. }
  assert (Hinv1 : aio_inv st1 []).
  { split; rewrite ?Hop; cbn [st1 set_submitted as_completed as_submitted as_cbs as_log]; try done. unfold AIO_BATCH. lia. }
  destruct (IH st1 Hinv1) as (ret & st' & -> & R1 & R2); [cbn [st1 set_submitted as_submitted]; lia|]. eexists _, _. split; [done|]. split; [|done].
  intros Hret. destruct (R1 Hret) as (A1 & A2 & A3 & A4). split; [done|]. split; [|done]. rewrite A2. unfold pending_bytes. by rewrite Hop.
Qed.

(** The requests reaped are no longer in flight. *)
Lemma reaped_split (infl : list nat) (X : list nat) : NoDup infl -> NoDup X -> (forall i, i ∈ X -> i ∈ infl) -> infl ≡ₚ filter (fun i => i ∉ X) infl ++ X.
Proof.
  intros Hd Hx Hs. apply NoDup_Permutation; [done| |].
  - apply NoDup_app. split; [by apply NoDup_filter|]. split; [|done]. intros i Hi. by apply list_elem_of_filter in Hi as [Hi _].
  - intros i. rewrite elem_of_app, list_elem_of_filter. destruct (decide (i ∈ X)) as [Hi|Hi]; split; [by right|intros _; by apply Hs|intros ?; by left|by intros [[_ ?]|?]].
Qed.

Lemma sys_io_getevents_ok st : aio_inv st [] -> as_inflight st <> [] ->
  exists r st', sys_io_getevents getevents st = Ret (r, st') /\
    (forall evs, r = Some evs -> aio_inv st' evs /\ pending_bytes st' evs = pending_bytes st [] /\ as_completed st' = as_completed st) /\
    (live -> exists evs, r = Some evs /\ evs <> [] /\ Forall (fun x => 0 < x.2) evs).
Proof.
  intros Hinv Hne. pose proof Hinv as [I1 I2 I3 I6 I7 I8]. unfold sys_io_getevents. destruct (as_inflight st) as [|i0 infl] eqn:Ei; [done|]. rewrite <- Ei. clear Hne.
  eexists _, _. split; [done|]. split.
  - intros evs Hev. rewrite Hev. destruct (ak_events _ _ HK _ _ _ Hev) as [Hnd Hin].
    assert (Hsub : forall i, i ∈ evs.*1 -> i ∈ as_inflight st).
    { intros i Hi. apply list_elem_of_fmap in Hi as ([j r] & -> & Hj). destruct (Hin j r Hj) as (d & Hd & _). unfold in_flight in Hd. apply list_elem_of_fmap in Hd as (j' & [= -> _] & ?). done. }
    unfold open_requests in I1. cbn [fmap list_fmap app] in I1. apply NoDup_app in I1 as HI. destruct HI as (Hni & _ & _).
    set (st' := AioState _ _ _ _ _ _ _). assert (Hop : open_requests st' evs ≡ₚ open_requests st []).
    { unfold open_requests, st'. cbn [as_inflight as_submitted fmap list_fmap app]. rewrite app_assoc. by rewrite <- (reaped_split _ _ Hni Hnd Hsub). }
    split; [|split; [|done]].
    + split.
      * by rewrite Hop.
      * unfold zlen. rewrite Hop. done.
      * done.
      * intros i Hi. rewrite Hop in Hi. by apply I6.
      * intros i r cb Hi Hcb. destruct (Hin i r Hi) as (d & Hd & Hle). unfold in_flight in Hd. apply list_elem_of_fmap in Hd as (j' & [= <- ->] & _). cbn [st' as_cbs] in Hcb. by rewrite Hcb in Hle.
      * rewrite Hop. done.
    + unfold pending_bytes, zlen. by rewrite Hop.
  - intros HL. destruct (al_events _ _ HL (as_calls st) (in_flight st)) as (evs & -> & H1 & H2); [unfold in_flight; by rewrite Ei| |by exists evs].
    apply Forall_fmap, Forall_forall. intros i Hi. cbn [compose snd]. destruct (I6 i) as (cb & -> & W); [unfold open_requests; apply elem_of_app; by left|]. apply (cw_some _ W).
Qed.

Lemma aio_loop_ok fuel : forall st, aio_inv st [] -> pending_bytes st [] < Z.of_nat fuel ->
  exists ret st', aio_loop submit getevents auto_dedup fuel n st = Ret (ret, st') /\ (ret = 0 -> log_bytes (as_log st') ≡ₚ wanted_bytes) /\ (live -> ret = 0).
Proof.
  induction fuel as [|fuel IH]; intros st Hinv Hf; [unfold pending_bytes in Hf; pose proof (zlen_nonneg (open_requests st [] ≫= pending_of (as_cbs st))); lia|].
  pose proof (open_window _ _ Hinv) as Hwin. pose proof Hinv as [I1 I2 (I3 & I4 & I5) I6 I7 I8]. cbn [aio_loop]. change (zlen []) with 0 in Hwin. pose proof (zlen_nonneg (as_inflight st)) as Hnn.
  assert (Hopen : zlen (open_requests st []) = n - as_completed st) by lia.
  destruct ((as_submitted st <? n) || (as_completed st <? n)) eqn:Ec; cycle 1.
  { eexists _, _. split; [done|]. split; [|done]. intros _. apply orb_false_iff in Ec as [_ Ec]. apply Z.ltb_ge in Ec. assert (Hnil : open_requests st [] = []) by (destruct (open_requests st []); [done|unfold zlen in Hopen; cbn [length] in Hopen; lia]).
    rewrite Hnil in I8. cbn in I8. by rewrite app_nil_r in I8. }
  assert (Hlt : as_completed st < n). { apply orb_true_iff in Ec as [Ec|Ec]; apply Z.ltb_lt in Ec; lia. }
  destruct (submit_aio_batch_ok (Z.to_nat n) st Hinv ltac:(lia)) as (r1 & st1 & -> & S1 & S2). cbn [obind].
  destruct (Z.ltb_spec r1 0) as [Hneg|Hge]; [eexists _, _; split; [done|]; split; [lia|]; intros HL; specialize (S2 HL); lia|].
  destruct (S1 Hge) as (Hinv1 & Hp1 & Hc1 & Hfull). rewrite Z.geb_leb. destruct (Z.leb_spec n (as_completed st1)) as [?|_]; [lia|].
  pose proof (open_window _ _ Hinv1) as Hwin1. change (zlen []) with 0 in Hwin1.
  assert (Hne : as_inflight st1 <> []). { intros E. rewrite E in Hwin1. change (zlen []) with 0 in Hwin1. unfold AIO_BATCH in *. lia. }
  destruct (sys_io_getevents_ok st1 Hinv1 Hne) as (r & st2 & -> & G1 & G2). cbn [obind].
  destruct r as [evs|]; [|eexists _, _; split; [done|]; split; [done|]; intros HL; by destruct (G2 HL) as (? & ? & _)].
  destruct evs as [|ev evs]; [eexists _, _; split; [done|]; split; [done|]; intros HL; destruct (G2 HL) as (? & [= <-] & ? & _); done|].
  destruct (G1 _ eq_refl) as (Hinv2 & Hp2 & Hc2). destruct (reap_aio_events_ok (ev :: evs) st2 Hinv2) as (r3 & st3 & -> & R1 & R2). cbn [obind].
  assert (HL3 : live -> 0 <= r3) by (intros HL; apply (R2 HL); destruct (G2 HL) as (? & [= <-] & _ & Hpos); done).
  destruct (Z.ltb_spec r3 0) as [Hneg|Hge3]; [eexists _, _; split; [done|]; split; [lia|]; intros HL; specialize (HL3 HL); lia|].
  destruct (R1 Hge3) as [Hinv3 Hp3]. apply IH; [done|]. unfold zlen in Hp3. cbn [length] in Hp3. lia.
Qed.
End AioOk.

(** ** Bytes in any order *)
Lemma poke_comm m w w' p : w.1 <> w'.1 -> poke (poke m w) w' p = poke (poke m w') w p.
Proof.
  intros Hne. unfold poke. destruct (Z.eqb_spec p (page_base w.1)) as [E|], (Z.eqb_spec p (page_base w'.1)) as [E'|]; try done.
  apply list_insert_insert_ne. intros Ei. apply Hne. unfold page_base in *. pose proof (Z.mod_pos_bound w.1 PAGE_SIZE ltac:(done)). pose proof (Z.mod_pos_bound w'.1 PAGE_SIZE ltac:(done)). lia.
Qed.

Lemma pokes_perm ws ws' : ws ≡ₚ ws' -> NoDup ws.*1 -> forall m p, pokes m ws p = pokes m ws' p.
Proof.
  induction 1 as [|w ws ws' _ IH|w w' ws|ws1 ws2 ws3 H1 IH1 H2 IH2]; intros Hnd m p; [done| | |].
  - rewrite fmap_cons in Hnd. apply NoDup_cons in Hnd as [_ Hnd]. by apply IH.
  - rewrite !fmap_cons in Hnd. apply NoDup_cons in Hnd as [Hn _]. change (pokes (poke (poke m w') w) ws p = pokes (poke (poke m w) w') ws p). apply pokes_ext. intros q. apply poke_comm.
    intros E. apply Hn. rewrite E. by left.
  - rewrite IH1 by done. apply IH2. by rewrite <- H1.
Qed.

Lemma page_bytes_nodup ds : NoDup ds -> Forall (fun d => d mod PAGE_SIZE = 0) ds -> NoDup (concat ((fun d => seqZ d PAGE_SIZE) <$> ds)).
Proof.
  induction 1 as [|d ds Hd Hnd IH]; intros Hal; [constructor|]. apply Forall_cons_1 in Hal as [Ha Hal]. rewrite fmap_cons. cbn [concat]. apply NoDup_app. split; [apply NoDup_seqZ|]. split; [|by apply IH].
  intros a Hin Hc. apply elem_of_seqZ in Hin. apply list_elem_of_In, in_concat in Hc as (l & Hl & Hx). apply list_elem_of_In, list_elem_of_fmap in Hl as (d' & -> & Hd'). apply list_elem_of_In, elem_of_seqZ in Hx.
  rewrite Forall_forall in Hal. specialize (Hal d' Hd'). assert (d = d'); [|congruence]. unfold PAGE_SIZE in *. pose proof (Z.div_mod d 4096 ltac:(done)). pose proof (Z.div_mod d' 4096 ltac:(done)). lia.
Qed.

(** ** The whole reader *)
Section AioWhole.
Context (lz4 : list Z -> Z -> option (list Z)) (file : list Z).
Context (submit : nat -> Z -> Z -> Z) (getevents : nat -> list (nat * Z) -> option (list (nat * Z))) (auto_dedup : bool) (HK : aio_kernel_ok submit getevents).

(** What a job does, in one step. *)
Definition whole_event (p : page_read_iov) : io_event :=
  match pi_storage p with VMA_IO_ZERO => EvZero (valid_to p) | _ => EvRead [(pi_from p, valid_to p, pi_end p - pi_from p)] end.
Definition file_bytes (l : list (Z * Z)) : list (Z * Z) := (fun '(a, o) => (a, file_byte file o)) <$> l.

Lemma whole_event_done p : piov_ok p -> pi_storage p <> VMA_IO_ENCODED -> job_done p (whole_event p).
Proof.
  intros Hp Hne. unfold job_done, whole_event. assert (Hread : pi_storage p = VMA_IO_UNCOMPRESSED \/ pi_storage p = VMA_IO_PACKED_RAW ->
    log_bytes [(pi_from p, valid_to p, pi_end p - pi_from p)] = zip (vec_bytes (valid_to p)) (seqZ (pi_from p) (pi_end p - pi_from p))).
  { intros Hst. destruct (piov_ok_pending p Hp Hst) as [(Hf & Hs & _ & ?) _]. unfold log_bytes. cbn. rewrite app_nil_r, firstn_all2; [done|]. pose proof (length_vec_bytes _ Hf). lia. }
  destruct (pi_storage p); [eexists; split; [done|apply Hread; auto]|done|eexists; split; [done|apply Hread; auto]|done].
Qed.

(** Every byte has its own place. *)
Lemma whole_events_nodup q : Forall piov_ok q -> Forall (fun p => pi_storage p <> VMA_IO_ENCODED) q -> NoDup (queue_tasks q).*1 -> Forall (fun t => t.1 mod PAGE_SIZE = 0) (queue_tasks q) ->
  NoDup (concat (event_bytes file <$> (whole_event <$> q))).*1.
Proof.
  intros Hok Hne Hnd Hal.
  assert (E : (concat (event_bytes file <$> (whole_event <$> q))).*1 = concat ((fun d => seqZ d PAGE_SIZE) <$> (queue_tasks q).*1)).
  { clear Hnd Hal. induction Hok as [|p q Hp _ IH]; [done|]. apply Forall_cons_1 in Hne as [Hn Hne]. specialize (IH Hne). unfold queue_tasks in *. rewrite !fmap_cons. cbn [concat]. rewrite !fmap_app, concat_app, <- IH. f_equal.
    destruct (job_tasks_parts p Hp) as (-> & _). pose proof (vec_bytes_pages _ (po_iovs _ Hp)) as Hv. fold (job_dests p) in Hv. rewrite <- Hv. pose proof (whole_event_done p Hp Hn) as Hd. unfold job_done in Hd.
    assert (Hread : pi_storage p = VMA_IO_UNCOMPRESSED \/ pi_storage p = VMA_IO_PACKED_RAW -> (event_bytes file (whole_event p)).*1 = vec_bytes (valid_to p)).
    { intros Hst. destruct (piov_ok_pending p Hp Hst) as [(Hf & Hs & _ & ?) _]. assert (Hd' : exists log, whole_event p = EvRead log /\ log_bytes log = zip (vec_bytes (valid_to p)) (seqZ (pi_from p) (pi_end p - pi_from p))) by (destruct Hst as [Hst|Hst]; rewrite Hst in Hd; exact Hd).
      destruct Hd' as (log & -> & Hlog). cbn [event_bytes]. rewrite Hlog, zip_fmap_pairs. apply fst_zip. rewrite length_fmap, length_seqZ. pose proof (length_vec_bytes _ Hf). lia. }
    destruct (pi_storage p) eqn:Est; [apply Hread; auto|done|apply Hread; auto|]. rewrite Hd. cbn [event_bytes]. rewrite <- list_fmap_compose. apply list_fmap_id. }
  rewrite E. apply page_bytes_nodup; [done|]. by apply Forall_fmap.
Qed.

Lemma build_iocbs_ok q rios : Forall2 renders q rios -> Forall piov_ok q -> Forall (fun p => pi_storage p <> VMA_IO_ENCODED) q ->
  exists evs cbs, build_iocbs rios = (true, evs, cbs) /\ Forall cb_wf cbs /\
    concat (event_bytes file <$> evs) ++ file_bytes (cbs ≫= cb_pending) ≡ₚ concat (event_bytes file <$> (whole_event <$> q)).
Proof.
  induction 1 as [|p rio q rios Hr _ IH]; intros Hok Hne; [by exists [], []|]. apply Forall_cons_1 in Hok as [Hp Hok], Hne as [Hn Hne]. destruct (IH Hok Hne) as (evs & cbs & E & W & P). cbn [build_iocbs].
  rewrite E. pose proof Hr as [R1 R2 R3 R4]. rewrite R2, R3.
  assert (Hread : pi_storage p = VMA_IO_UNCOMPRESSED \/ pi_storage p = VMA_IO_PACKED_RAW -> exists evs' cbs',
    (match sum_iov_len 0 (valid_to p) with None => (false, [], []) | Some expected => (true, evs, Iocb (valid_to p) (rio_off rio) expected rio :: cbs) end) = (true, evs', cbs') /\
    Forall cb_wf cbs' /\ concat (event_bytes file <$> evs') ++ file_bytes (cbs' ≫= cb_pending) ≡ₚ concat (event_bytes file <$> (whole_event <$> p :: q))).
  { intros Hst. destruct (piov_ok_pending p Hp Hst) as [(Hf & Hs & H0 & He) En]. pose proof (po_n _ Hp). unfold OFF_MAX, PAGE_SIZE in *. rewrite (sum_iov_len_ok _ 0 Hf) by lia. rewrite Z.add_0_l.
    set (cb := Iocb _ _ _ rio). assert (Hsk : skip_empty (valid_to p) = valid_to p).
    { pose proof (po_iovs _ Hp) as Hi. destruct (valid_to p) as [|x l]; [done|]. apply Forall_cons_1 in Hi as [(_ & ? & _) _]. cbn [skip_empty]. by destruct (Z.eqb_spec (iov_len x) 0); [lia|]. }
    assert (Wcb : cb_wf cb) by (unfold cb; split; cbn [aio_rio aio_vec aio_offset aio_data]; rewrite ?R3; try done; unfold OFF_MAX; lia).
    exists evs, (cb :: cbs). split; [done|]. split; [by constructor|]. cbn [mbind list_bind]. unfold file_bytes in *. rewrite fmap_app, !fmap_cons. cbn [concat].
    assert (Eev : event_bytes file (whole_event p) = (fun '(a, o) => (a, file_byte file o)) <$> cb_pending cb).
    { destruct (pending_all_read cb Wcb). unfold whole_event, cb. rewrite R1, <- Hs. by destruct Hst as [->| ->]. }
    rewrite Eev, <- P. rewrite !app_assoc. f_equiv. apply Permutation_app_comm. }
  destruct (pi_storage p) eqn:Est; [apply Hread; auto|done| |].
  - rewrite (R4 ltac:(by left)). cbn [negb]. apply Hread. auto.
  - rewrite (R4 ltac:(by right)). cbn [negb]. exists (EvZero (valid_to p) :: evs), cbs. split; [done|]. split; [done|]. rewrite !fmap_cons. cbn [concat]. rewrite <- app_assoc, P.
    unfold whole_event at 2. by rewrite Est.
Qed.

Lemma seq_pending cbs : seq 0 (length cbs) ≫= pending_of cbs = cbs ≫= cb_pending.
Proof.
  assert (H : forall pre, seq (length pre) (length cbs) ≫= pending_of (pre ++ cbs) = cbs ≫= cb_pending).
  { induction cbs as [|cb cbs IH]; intros pre; [done|]. cbn [length seq mbind list_bind]. f_equal; [unfold pending_of; by rewrite list_lookup_middle|].
    specialize (IH (pre ++ [cb])). rewrite length_app, Nat.add_1_r, <- app_assoc in IH. exact IH. }
  apply (H []).
Qed.

Lemma length_pending cbs : Forall cb_wf cbs -> Z.of_nat (length (cbs ≫= cb_pending)) = requested_bytes cbs.
Proof. induction 1 as [|cb cbs W _ IH]; [done|]. cbn [mbind list_bind]. unfold requested_bytes in *. rewrite length_app, fmap_cons, zsum_cons, Nat2Z.inj_add, (length_cb_pending cb W). f_equal. exact IH. Qed.

Lemma aio_inv_start cbs : Forall cb_wf cbs -> aio_inv (zlen cbs) (cbs ≫= cb_pending) (AioState cbs 0 0 [] 0 [] []) [] /\ pending_bytes (zlen cbs) (AioState cbs 0 0 [] 0 [] []) [] = requested_bytes cbs.
Proof.
  intros W. pose proof (zlen_nonneg cbs). assert (Hop : open_requests (zlen cbs) (AioState cbs 0 0 [] 0 [] []) [] = seq 0 (length cbs)) by (unfold open_requests, zlen; cbn; by rewrite Z.sub_0_r, Nat2Z.id).
  split.
  - split; rewrite ?Hop; cbn [as_completed as_submitted as_cbs as_log]; try done.
    + apply NoDup_seq.
    + unfold zlen. rewrite length_seq. lia.
    + intros i Hi. apply elem_of_seq in Hi. destruct (lookup_lt_is_Some_2 cbs i) as [cb Hcb]; [lia|]. exists cb. split; [done|]. by apply (Forall_lookup_1 _ _ _ _ W Hcb).
    + intros i r cb Hi. by apply elem_of_nil in Hi.
    + cbn. by rewrite seq_pending.
  - unfold pending_bytes, zlen at 1. rewrite Hop. cbn [as_cbs]. rewrite seq_pending. by apply length_pending.
Qed.

Lemma restore_vma_aio_spec q rios m : Forall2 renders q rios -> Forall piov_ok q -> Forall (fun p => pi_storage p <> VMA_IO_ENCODED) q ->
  Forall (resolves lz4 file) (queue_tasks q) -> places_ok m q -> NoDup (queue_tasks q).*1 ->
  forall setup mapped, exists r evs holes, restore_vma_aio submit getevents auto_dedup setup mapped rios = Ret (r, evs, holes) /\
    (r = 0 -> forall a, run_events file m evs a = set_pages m (resolve lz4 file <$> queue_tasks q) a) /\
    (aio_kernel_live submit getevents -> setup = true -> mapped = true -> r = 0).
Proof.
  intros Hr Hok Hne Hres Hpl Hnd setup mapped. unfold restore_vma_aio. destruct setup; cbn [negb]; [|by eexists _, _, _]. destruct mapped; cbn [negb]; [|by eexists _, _, _].
  destruct (build_iocbs_ok q rios Hr Hok Hne) as (evs & cbs & -> & W & P). cbn [negb]. destruct (aio_inv_start cbs W) as [Hinv Hpb].
  pose proof (length_pending cbs W) as Hsum.
  destruct (aio_loop_ok submit getevents auto_dedup HK (zlen cbs) (cbs ≫= cb_pending) (S (Z.to_nat (requested_bytes cbs))) _ Hinv ltac:(lia)) as (ret & st & -> & Q1 & Q2). cbn [obind].
  eexists _, _, _. split; [done|]. split; [|by intros HL _ _; apply Q2]. intros Hz a. specialize (Q1 Hz).
  assert (Hal : Forall (fun t => t.1 mod PAGE_SIZE = 0) (queue_tasks q)) by (eapply Forall_impl; [exact Hpl|]; intros t [? _]; done).
  assert (Hperm : concat (event_bytes file <$> (evs ++ [EvRead (as_log st)])) ≡ₚ concat (event_bytes file <$> (whole_event <$> q))).
  { rewrite fmap_app, concat_app. cbn [fmap list_fmap concat event_bytes]. rewrite app_nil_r. fold (file_bytes (log_bytes (as_log st))). unfold file_bytes in *. rewrite Q1. exact P. }
  unfold run_events. rewrite (pokes_perm _ _ Hperm) by (rewrite Hperm; by apply whole_events_nodup).
  apply (run_jobs lz4 file q (whole_event <$> q)); try done. clear - Hok Hne. induction Hok as [|p q Hp _ IH]; [constructor|]. apply Forall_cons_1 in Hne as [Hn Hne]. rewrite fmap_cons. constructor; [by apply whole_event_done|by apply IH].
Qed.
End AioWhole.

(** C11. Reading with AIO does the same as reading in order.  For a queue of jobs of
    the kinds that may be left to the last stage, with distinct places, and
    whatever order the kernel completes the requests in and however short the
    reads are, [restore_vma_aio] over the rendered array returns: it never waits
    with nothing in flight, never has more than [AIO_BATCH] requests open, and
    ends after at most as many waits as bytes are asked for.  With result 0 the
    memory is the one before with exactly the queued pages stored.  It
    succeeds if the kernel accepts what fits and its reads make progress. *)
Theorem restore_vma_aio_correct lz4 file submit getevents auto_dedup al al' q rios m setup mapped : aio_kernel_ok submit getevents -> Forall piov_ok q -> Forall (fun p => pi_storage p <> VMA_IO_ENCODED) q ->
  Forall (resolves lz4 file) (queue_tasks q) -> places_ok m q -> NoDup (queue_tasks q).*1 -> pagemap_render_iovec al q = (Some rios, al') ->
  exists r evs holes, restore_vma_aio submit getevents auto_dedup setup mapped rios = Ret (r, evs, holes) /\
    (r = 0 -> forall a, run_events file m evs a = set_pages m (resolve lz4 file <$> queue_tasks q) a) /\
    (aio_kernel_live submit getevents -> setup = true -> mapped = true -> r = 0).
Proof.
  intros HK Hok Hne Hres Hpl Hnd Hr. apply restore_vma_aio_spec; try done. by apply (pagemap_render_ok q al rios al').
Qed.

(** The two sample jobs with a kernel that accepts what fits and reads half of
    what is left, rounded up. *)
Definition half_submit (k : nat) (room n : Z) : Z := Z.min n room.
Definition half_events (k : nat) (infl : list (nat * Z)) : option (list (nat * Z)) :=
  match infl with (i, d) :: _ => Some [(i, if 0 <? d then d - d / 2 else d)] | [] => None end.

Lemma half_kernel_ok : aio_kernel_ok half_submit half_events.
Proof.
  split; [intros k room n; unfold half_submit; lia|]. intros k [|[i d] infl] evs H; [done|]. injection H as <-. split; [cbn; repeat constructor; apply not_elem_of_nil|].
  intros j r Hj. apply list_elem_of_singleton in Hj. injection Hj as -> ->. exists d. split; [by left|]. destruct (Z.ltb_spec 0 d); [|lia]. pose proof (Z.div_pos d 2 ltac:(lia)). lia.
Qed.
Lemma half_kernel_live : aio_kernel_live half_submit half_events.
Proof.
  split; [intros k room n Hn; unfold half_submit; lia|]. intros k [|[i d] infl] Hne Hf; [done|]. eexists. split; [done|]. split; [done|]. apply Forall_cons_1 in Hf as [Hd _]. cbn in Hd. constructor; [|done]. cbn.
  destruct (Z.ltb_spec 0 d); [|lia]. pose proof (Z.div_lt d 2 ltac:(lia) ltac:(lia)). lia.
Qed.

Lemma restore_vma_aio_correct_witness : exists rios evs holes, pagemap_render_iovec [] [io_read_job; io_zero_job] = (Some rios, []) /\
  restore_vma_aio half_submit half_events false true true rios = Ret (0, evs, holes) /\ run_events io_file io_mem evs 0x6000 = replicate 4096 9 /\ run_events io_file io_mem evs 0x9000 = replicate 4096 0.
Proof.
  destruct (pagemap_render_iovec [] [io_read_job; io_zero_job]) as [[rios|] al'] eqn:E; [|vm_compute in E; discriminate].
  destruct (restore_vma_aio_correct (fun _ _ => None) io_file half_submit half_events false [] al' [io_read_job; io_zero_job] rios io_mem true true) as (r & evs & holes & Er & H1 & H2).
  - exact half_kernel_ok.
  - exact io_jobs_ok.
  - repeat constructor; discriminate.
  - repeat constructor; (eexists; split; [vm_compute; reflexivity|vm_compute; reflexivity]).
  - repeat constructor.
  - apply (bool_decide_unpack _). vm_compute. exact I.
  - exact E.
  - assert (Hr : r = 0) by (apply H2; [exact half_kernel_live|reflexivity|reflexivity]). rewrite Hr in Er, H1. specialize (H1 eq_refl). exists rios, evs, holes. split; [|split; [exact Er|]].
    + assert (Ea : al' = []) by (vm_compute in E; injection E as _ Ea; symmetry; exact Ea). rewrite Ea. reflexivity.
    + rewrite !H1. split; vm_compute; reflexivity.
Defined.
