(* ===== verification/RestoreMem.v ===== *)
(** The memory of a restored process, from its images to its final address
    space: [prepare_mappings] (criu/mem.c) maps the areas and reads what it can;
    [unmap_guard_pages] and [prepare_vmas] with [prepare_vma_ios] hand the areas
    and the remaining jobs over; the restorer (criu/pie/restorer.c) moves and maps
    the areas and reads the rest, with AIO or in order.

    Between the two, CRIU maps the restorer into its address space; what that
    does to the memory is the parameter [settle] of [last_stage], which leaves the
    premapped areas alone. *)
From S2P Require Import Prelude PagemapImage PageRead Dedup AsyncQueue ProcessReads ReadPages ChainRead RangeQuery ReadOps AsyncRead PagePipe PageSelect VmaList CowVmas Premap MemRestore Shmem Restorer VmaIo VmaAio.

(** ** Handing the jobs over *)

(** [task_restore_args]: the jobs, the file (-1 for none) and how to read it. *)
Record vma_ios := VmaIos { ta_vma_ios : list restore_vma_io; ta_fd : Z; ta_use_direct : bool }.

(** The answers of the calls in [probe_pages_o_direct]; [read]: [None] for a
    read that worked, else whether the error is EINVAL. *)
Record probe := Probe { pb_getfl : bool; pb_setfl : bool; pb_alloc : bool; pb_read : option bool; pb_clear : bool }.
Definition probe_pages_o_direct (p : probe) : Z :=
  if negb (pb_getfl p) then 0
  else if negb (pb_setfl p) then 0
  else if negb (pb_alloc p) then -1
  else
    match pb_read p with
    | None => 1
    | Some einval => if negb einval then -1 else if negb (pb_clear p) then -1 else 0
    end.

(** [pages]: the file descriptor of the pages image, if it can be opened. *)
Definition prepare_vma_ios (al : list bool) (direct_mode : bool) (pages : option Z) (p : probe) (vma_io : list page_read_iov) : option vma_ios * list bool :=
  match vma_io with
  | [] => (Some (VmaIos [] (-1) false), al)
  | _ =>
      match pages with
      | None => (None, al)
      | Some fd =>
          let probed := (0 <=? fd) && direct_mode && pagemap_iovec_is_direct_compatible vma_io in
          if probed && (probe_pages_o_direct p <? 0) then (None, al)
          else
            let '(r, al) := pagemap_render_iovec al vma_io in
            (match r with Some rios => Some (VmaIos rios fd (probed && (probe_pages_o_direct p =? 1))) | None => None end, al)
      end
  end.

Definition prepare_vmas (al : list bool) (vma_fd : vma_area -> Z) (direct_mode : bool) (pages : option Z) (p : probe) (vmas : list rst_vma) (vma_io : list page_read_iov)
    : option (list rst_entry * vma_ios) * list bool :=
  let '(r, al) := prepare_vmas_loop al vma_fd vmas in
  match r with
  | None => (None, al)
  | Some vs => let '(r, al) := prepare_vma_ios al direct_mode pages p vma_io in (match r with Some ios => Some (vs, ios) | None => None end, al)
  end.

(** ** The last stage *)
Section LastStage.
Context (task_size : Z) (place : memory -> Z -> Z -> option Z) (content : vma_area -> Z -> Z -> list Z) (segment_size : Z -> Z).
Context (submit : nat -> Z -> Z -> Z) (getevents : nat -> list (nat * Z) -> option (list (nat * Z))) (preadv : Z -> Z -> Z) (auto_dedup setup mapped : bool).
Context (file : list Z).

(** Reading the contents, as [__export_restore_task] chooses to. *)
Definition restore_contents (ios : vma_ios) (m : memory) : outcome (Z * memory) :=
  if bool_decide (ta_vma_ios ios = []) || (ta_fd ios =? -1) then Ret (0, m)
  else if ta_use_direct ios then
    let! (r, evs, _) := restore_vma_aio submit getevents auto_dedup setup mapped (ta_vma_ios ios) in
    Ret (r, run_events file m evs)
  else
    let! (r, evs, _, _) := restore_vma_preadv_mixed preadv auto_dedup true (ta_vma_ios ios) in
    Ret (r, run_events file m evs).

Definition last_stage (hidden : bool) (al : list bool) (vma_fd : vma_area -> Z) (direct_mode : bool) (pages : option Z) (p : probe) (settle : memory -> memory)
    (premmapped_addr premmapped_len bootstrap_start bootstrap_len uffd : Z) (vmas : list rst_vma) (vma_io : list page_read_iov) (m : memory) (env : kenv) : outcome (Z * memory) :=
  let '(ok, s, env) := unmap_guard_pages task_size hidden vmas (Space m [] []) env in
  if negb ok then Ret (-1, sp_mem s)
  else
    let '(r, _) := prepare_vmas al vma_fd direct_mode pages p vmas vma_io in
    match r with
    | None => Ret (-1, sp_mem s)
    | Some (vs, ios) =>
        let! (ret, _, s, _) := restore_address_space task_size place content segment_size premmapped_addr premmapped_len bootstrap_start bootstrap_len uffd vs (set_sp_mem (settle (sp_mem s)) s) env in
        if negb (ret =? 0) then Ret (-1, sp_mem s)
        else
          let! (rc, m) := restore_contents ios (sp_mem s) in
          Ret (if rc <? 0 then -1 else 0, m)
    end.
End LastStage.

(** ** The packed areas *)
Section Packed.
Context (hidden : bool).
Abbreviation laid := (laid hidden).
Abbreviation slack := (slack hidden).
Abbreviation mapped_in vs n v := (vs !! n = Some v /\ rv_is v VMA_PREMMAPED = true).

(** The slots of the mapped areas fill the range. *)
Lemma laid_cover vs p : forall lo hi, laid lo vs hi -> lo <= p < hi -> exists n v, mapped_in vs n v /\ premmaped_addr v - slack (rv_e v) <= p < premmaped_addr v + area_len (rv_e v).
Proof.
  induction vs as [|v vs IH]; intros lo hi H Hp; cbn [laid] in H; [lia|]. destruct (rv_is v VMA_PREMMAPED) eqn:E.
  - destruct H as [H1 H2]. destruct (Z.lt_ge_cases p (premmaped_addr v + area_len (rv_e v))) as [Hlt|Hge]; [exists 0%nat, v; split; [done|lia]|].
    destruct (IH _ _ H2 ltac:(lia)) as (n & w & Hw & ?). by exists (S n), w.
  - destruct (IH _ _ H Hp) as (n & w & Hw & ?). by exists (S n), w.
Qed.

(** A mapped area is in its slot, behind the slots before it. *)
Lemma laid_slot vs : Forall (fun v => 0 <= area_len (rv_e v)) vs -> forall lo hi n v, laid lo vs hi -> mapped_in vs n v -> lo + slack (rv_e v) <= premmaped_addr v /\ premmaped_addr v + area_len (rv_e v) <= hi.
Proof.
  induction 1 as [|w vs Hw Hf IH]; intros lo hi n v H [Hn Hp]; [done|]. cbn [laid] in H. pose proof (slack_nonneg hidden (rv_e w)). destruct n as [|n]; cbn in Hn.
  - injection Hn as ->. rewrite Hp in H. destruct H as [H1 H2]. split; [lia|]. destruct (laid_place hidden (v :: vs)) with (lo := lo) (hi := hi) (n := 0%nat) (v := v) as (_ & ? & _); try done.
    + constructor; [done|]. by eapply Forall_impl; [exact Hf|].
    + cbn [Premap.laid]. by rewrite Hp.
  - destruct (rv_is w VMA_PREMMAPED); [destruct H as [H1 H2]|rename H into H2]; destruct (IH _ _ n v H2 (conj Hn Hp)); lia.
Qed.

Lemma laid_apart vs : Forall (fun v => 0 <= area_len (rv_e v)) vs -> forall lo hi n n' v v', laid lo vs hi -> (n < n')%nat -> mapped_in vs n v -> mapped_in vs n' v' ->
  premmaped_addr v + area_len (rv_e v) + slack (rv_e v') <= premmaped_addr v'.
Proof.
  induction 1 as [|w vs Hw Hf IH]; intros lo hi n n' v v' H Hlt [Hn Hp] [Hn' Hp']; [done|]. cbn [laid] in H. destruct n' as [|n']; [lia|]. cbn in Hn'. destruct n as [|n]; cbn in Hn.
  - injection Hn as ->. rewrite Hp in H. destruct H as [_ H]. by apply (laid_slot vs Hf _ _ n' v' H).
  - destruct (rv_is w VMA_PREMMAPED); [destruct H as [_ H]|]; apply (IH _ _ n n' v v' H); (done || lia).
Qed.

(** The distance an area moves shrinks along the list, if the areas keep the
    slack in their final places too. *)
Lemma laid_sides vs : (forall n n' v v', (n < n')%nat -> mapped_in vs n v -> mapped_in vs n' v' -> rv_end v + slack (rv_e v') <= rv_start v') ->
  forall lo hi n n' v v', laid lo vs hi -> (n < n')%nat -> mapped_in vs n v -> mapped_in vs n' v' -> premmaped_addr v' - rv_start v' <= premmaped_addr v - rv_start v.
Proof.
  intros Hgap. assert (Hgen : forall vs, (forall n n' v v', (n < n')%nat -> mapped_in vs n v -> mapped_in vs n' v' -> rv_end v + slack (rv_e v') <= rv_start v') ->
    forall lo hi D, laid lo vs hi -> (forall n v, mapped_in vs n v -> D + slack (rv_e v) <= rv_start v) -> forall n v, mapped_in vs n v -> premmaped_addr v - rv_start v <= lo - D).
  { induction vs0 as [|w vs0 IH]; intros Hg lo hi D H HD n v [Hn Hp]; [done|]. cbn [laid] in H.
    assert (Hg' : forall n n' v v', (n < n')%nat -> mapped_in vs0 n v -> mapped_in vs0 n' v' -> rv_end v + slack (rv_e v') <= rv_start v') by (intros i j x y Hij Hx Hy; apply (Hg (S i) (S j)); (done || lia)).
    destruct n as [|n]; cbn in Hn.
    - injection Hn as ->. rewrite Hp in H. destruct H as [-> _]. specialize (HD 0%nat v (conj eq_refl Hp)). lia.
    - destruct (rv_is w VMA_PREMMAPED) eqn:Ew.
      + destruct H as [E H]. pose proof (HD 0%nat w (conj eq_refl Ew)). assert (Hi : forall i x, mapped_in vs0 i x -> rv_end w + slack (rv_e x) <= rv_start x) by (intros i x Hx; apply (Hg 0%nat (S i)); (done || lia)).
        pose proof (IH Hg' _ _ (rv_end w) H Hi n v (conj Hn Hp)). unfold area_len, rv_start, rv_end in *. lia.
      + apply (IH Hg' _ _ D H (fun i x Hx => HD (S i) x Hx) n v (conj Hn Hp)). }
  induction vs as [|w vs IH]; intros lo hi n n' v v' H Hlt [Hn Hp] [Hn' Hp']; [done|]. cbn [laid] in H. destruct n' as [|n']; [lia|]. cbn in Hn'.
  assert (Hg' : forall n n' v v', (n < n')%nat -> mapped_in vs n v -> mapped_in vs n' v' -> rv_end v + slack (rv_e v') <= rv_start v') by (intros i j x y Hij Hx Hy; apply (Hgap (S i) (S j)); (done || lia)).
  destruct n as [|n]; cbn in Hn.
  - injection Hn as ->. rewrite Hp in H. destruct H as [_ H]. assert (Hi : forall i x, mapped_in vs i x -> rv_end v + slack (rv_e x) <= rv_start x) by (intros i x Hx; apply (Hgap 0%nat (S i)); (done || lia)).
    pose proof (Hgen vs Hg' _ _ _ H Hi n' v' (conj Hn' Hp')). unfold area_len, rv_start, rv_end in *. lia.
  - destruct (rv_is w VMA_PREMMAPED); [destruct H as [_ H]|]; apply (IH Hg' _ _ n n' v v' H); (done || lia).
Qed.
End Packed.

(** ** The guard pages *)
Definition guard_page (hidden : bool) (vs : list rst_vma) (p : Z) : Prop :=
  exists n v, vs !! n = Some v /\ rv_is v VMA_PREMMAPED = true /\ vma_has_guard_gap_hidden hidden (rv_e v) = true /\ premmaped_addr v - PAGE_SIZE <= p < premmaped_addr v.

Lemma unmap_guard_loop_ok task_size vs : task_size < 2 ^ 62 -> Forall (fun v => rv_is v VMA_PREMMAPED = true -> vma_has_guard_gap_hidden true (rv_e v) = true -> PAGE_SIZE <= premmaped_addr v <= task_size) vs ->
  forall s env, exists ok s' env', unmap_guard_loop task_size vs s env = (ok, s', env') /\
    (ok = true -> sp_uffd s' = sp_uffd s /\ forall p, (guard_page true vs p -> sp_mem s' p = []) /\ (~ guard_page true vs p -> sp_mem s' p = sp_mem s p)) /\ (calm env -> ok = true /\ calm env').
Proof.
  intros Ht. induction 1 as [|v vs Hv _ IH]; intros s env; cbn [unmap_guard_loop].
  { eexists _, _, _. split; [done|]. split; [|done]. intros _. split; [done|]. intros p. split; [|done]. by intros (n & w & ? & _). }
  assert (Hskip : rv_is v VMA_PREMMAPED = false \/ vma_has_guard_gap_hidden true (rv_e v) = false -> forall p, guard_page true (v :: vs) p <-> guard_page true vs p).
  { intros Hs p. split; [intros ([|n] & w & Hn & H1 & H2 & H3)|intros (n & w & Hn & H)]; [cbn in Hn; injection Hn as <-; by destruct Hs; congruence|by exists n, w|by exists (S n), w]. }
  destruct (rv_is v VMA_PREMMAPED) eqn:Ep; cbn [negb]; cycle 1.
  { destruct (IH s env) as (ok & s' & env' & E & M & C). exists ok, s', env'. split; [done|]. split; [|done]. intros Hok. split; [by apply M|]. intros p. rewrite Hskip by (by left). by apply M. }
  destruct (has (va_flags (rv_e v)) MAP_GROWSDOWN) eqn:Eg; cycle 1.
  { destruct (IH s env) as (ok & s' & env' & E & M & C). exists ok, s', env'. split; [done|]. split; [|done]. intros Hok. split; [by apply M|]. intros p. rewrite Hskip by (by right). by apply M. }
  destruct (Hv eq_refl Eg) as [V1 V2]. unfold PAGE_SIZE in V1. rewrite u64_small by (unfold PAGE_SIZE; lia).
  destruct (sys_munmap_ok task_size (premmaped_addr v - PAGE_SIZE) PAGE_SIZE s env) as (o & s1 & e1 & -> & M1 & C1); [unfold PAGE_SIZE; lia..|].
  destruct o; cbn [negb]; [|eexists _, _, _; split; [done|]; split; [done|]; intros Hc; by destruct (C1 Hc)].
  rewrite M1 by done. destruct (IH (set_sp_mem (unmap_pages (sp_mem s) (premmaped_addr v - PAGE_SIZE) PAGE_SIZE) s) e1) as (ok & s' & env' & E & M & C). exists ok, s', env'. split; [done|].
  split; [|intros Hc; apply C; by destruct (C1 Hc)]. intros Hok. destruct (M Hok) as [U M2]. split; [exact U|]. intros p. destruct (M2 p) as [P1 P2]. cbn [set_sp_mem sp_mem] in *. split.
  - intros ([|n] & w & Hn & H1 & H2 & H3); [|apply P1; by exists n, w]. cbn in Hn. injection Hn as <-. destruct (decide (sp_mem s' p = [])) as [?|Hne]; [done|]. rewrite P2.
    + apply unmap_pages_in. unfold in_pages. lia.
    + intros Hg. by apply Hne, P1.
  - intros Hno. rewrite P2 by (intros (n & w & Hn & H); apply Hno; by exists (S n), w). apply unmap_pages_out. intros Hin. apply Hno. exists 0%nat, v. unfold in_pages in Hin. split_and!; (done || lia).
Qed.

Lemma unmap_guard_pages_ok task_size hidden vs : task_size < 2 ^ 62 -> Forall (fun v => rv_is v VMA_PREMMAPED = true -> vma_has_guard_gap_hidden hidden (rv_e v) = true -> PAGE_SIZE <= premmaped_addr v <= task_size) vs ->
  forall s env, exists ok s' env', unmap_guard_pages task_size hidden vs s env = (ok, s', env') /\
    (ok = true -> sp_uffd s' = sp_uffd s /\ forall p, (guard_page hidden vs p -> sp_mem s' p = []) /\ (~ guard_page hidden vs p -> sp_mem s' p = sp_mem s p)) /\ (calm env -> ok = true /\ calm env').
Proof.
  intros Ht Hf s env. unfold unmap_guard_pages. destruct hidden; cbn [negb]; [by apply unmap_guard_loop_ok|]. eexists _, _, _. split; [done|]. split; [|done].
  intros _. split; [done|]. intros p. split; [|done]. by intros (n & v & _ & _ & H & _).
Qed.

(** ** The address space the last stage starts from *)
Section Compose.
Context (c : Z -> list Z) (task_size : Z) (hidden : bool) (fresh : vma_area -> Z -> list Z) (lazy_pages : bool) (cow_buf : Z).
Context (l : list pagemap_entry) (vmas pv : list rst_vma) (m0 bk0 : memory) (addr : Z) (stored : Z -> Prop).
Context (Htk : task_ok task_size hidden fresh lazy_pages cow_buf l vmas pv m0 bk0 addr stored).
Context (st : rstate) (bk : memory) (used : Z).
Context (Hho : handed_over task_size hidden lazy_pages l vmas addr st used) (Hrm : restored_memory c task_size hidden fresh lazy_pages l vmas addr st bk used).
Context (content : vma_area -> Z -> Z -> list Z) (segment_size : Z -> Z) (vma_fd : vma_area -> Z) (bs bl : Z).

Abbreviation private v := (vma_entry_is_private task_size (rv_e v)).
Abbreviation blank v k := (area_page hidden fresh (rv_e v) k).

(** The areas that are in the final address space (of the mappings of a SysV
    attachment only the first), and how long they are there. *)
Definition goes (v : rst_vma) : bool := (rv_is v VMA_AREA_REGULAR || rv_is v VMA_AREA_AIORING) && negb (rv_is v VMA_AREA_SYSVIPC && (vma_fd (rv_e v) =? SYSV_SHMEM_SKIP_FD)).
Definition span_of (v : rst_vma) : Z := if rv_is v VMA_AREA_SYSVIPC then segment_size (vma_fd (rv_e v)) else area_len (rv_e v).

(** How the address spaces fit together: the areas below the task size and apart,
    a page between a stack with a hidden guard page and what is below it, the
    restorer beside them and beside the premapped range, shadow stacks above it. *)
Record stage_layout : Prop := StageLayout {
  sl_regions : regions_ok task_size addr used bs bl;
  sl_fd : forall e k, vma_fd (add_status k e) = vma_fd e;
  sl_private : forall n v, vmas !! n = Some v -> private v = true -> rv_is v VMA_AREA_GUARD = false -> goes v = true /\ rv_is v VMA_AREA_SYSVIPC = false;
  sl_range : forall n v, vmas !! n = Some v -> goes v = true -> range_ok task_size (rv_start v) (span_of v);
  sl_apart : forall n n' v v', (n < n')%nat -> vmas !! n = Some v -> vmas !! n' = Some v' -> goes v = true -> goes v' = true -> rv_start v + span_of v + slack hidden (rv_e v') <= rv_start v';
  sl_boot : forall n v, vmas !! n = Some v -> goes v = true -> rv_start v + span_of v <= bs \/ bs + bl <= rv_start v;
  sl_shstk : forall n v, vmas !! n = Some v -> rv_is v VMA_AREA_SHSTK = true -> addr + used <= rv_start v
}.
Context (Hsl : stage_layout).

(** An area and its entry among those handed over. *)
Record entry_of (n : nat) (v v' : rst_vma) : Prop := EntryOf {
  eo_vmas : vmas !! n = Some v;
  eo_rvmas : r_vmas st !! n = Some v';
  eo_start : rv_start v' = rv_start v;
  eo_end : rv_end v' = rv_end v;
  eo_slack : slack hidden (rv_e v') = slack hidden (rv_e v);
  eo_goes : goes v' = goes v;
  eo_span : span_of v' = span_of v;
  eo_is : forall k, 0 <= k -> k <> 29 -> k <> 30 -> rv_is v' (2 ^ k) = rv_is v (2 ^ k);
  eo_private : private v' = private v;
  eo_premapped : rv_is v' VMA_PREMMAPED = true -> private v = true /\ rv_is v VMA_AREA_GUARD = false
}.

Lemma add_status_facts e k : k = 29 \/ k = 30 -> (forall j, 0 <= j -> j <> 29 -> j <> 30 -> vma_entry_is (add_status (2 ^ k) e) (2 ^ j) = vma_entry_is e (2 ^ j)).
Proof. intros Hk j H0 H1 H2. rewrite status_add by lia. destruct (Z.eqb_spec j k); [lia|done]. Qed.

Lemma entry_at n v' : r_vmas st !! n = Some v' -> exists v, entry_of n v v'.
Proof.
  intros Hn. destruct (Forall2_lookup_r _ _ _ _ _ (ho_vmas _ _ _ _ _ _ _ _ Hho) Hn) as (v & Hv & Hm). exists v. destruct (fa_clean _ _ _ _ _ (Forall_lookup_1 _ _ _ _ (tk_areas _ _ _ _ _ _ _ _ _ _ _ _ Htk) Hv)) as [C1 C2].
  assert (Hkeep : rv_e v' = rv_e v \/ exists k, (k = 29 \/ k = 30) /\ rv_e v' = add_status (2 ^ k) (rv_e v)) by (destruct Hm as [?|(_ & _ & [?|?])]; [by left|right; exists 29; auto|right; exists 30; auto]).
  assert (His : forall k, 0 <= k -> k <> 29 -> k <> 30 -> rv_is v' (2 ^ k) = rv_is v (2 ^ k)).
  { intros k H0 H1 H2. unfold rv_is. destruct Hkeep as [->|(j & Hj & ->)]; [done|]. by apply add_status_facts. }
  assert (Hfd : vma_fd (rv_e v') = vma_fd (rv_e v)) by (destruct Hkeep as [->|(j & _ & ->)]; [done|apply (sl_fd Hsl)]).
  assert (Hse : rv_start v' = rv_start v /\ rv_end v' = rv_end v /\ slack hidden (rv_e v') = slack hidden (rv_e v)) by (unfold rv_start, rv_end; by destruct Hkeep as [->|(j & _ & ->)]).
  destruct Hse as (E1 & E2 & E3). split; try done.
  - unfold goes. unfold VMA_AREA_REGULAR, VMA_AREA_AIORING, VMA_AREA_SYSVIPC. rewrite !His, Hfd by lia. done.
  - unfold span_of. unfold VMA_AREA_SYSVIPC. rewrite !His, Hfd by lia. unfold area_len. unfold rv_start, rv_end in *. by rewrite E1, E2.
  - destruct Hkeep as [->|(j & Hj & ->)]; [done|]. by apply mark_private.
  - intros Hp. destruct Hm as [E|(H1 & H2 & _)]; [unfold rv_is in *; rewrite E in Hp; congruence|done].
Qed.

Lemma area_fine n v : vmas !! n = Some v -> area_ok (rv_e v).
Proof. intros Hn. by destruct (Forall_lookup_1 _ _ _ _ (tk_areas _ _ _ _ _ _ _ _ _ _ _ _ Htk) Hn). Qed.

Lemma entry_len n v v' : entry_of n v v' -> area_len (rv_e v') = area_len (rv_e v) /\ 0 < area_len (rv_e v) < 2 ^ 62 /\ vma_area_len (rv_e v') = area_len (rv_e v).
Proof.
  intros [E0 _ E1 E2 _ _ _ _ _ _]. destruct (area_len_ok _ (area_fine n v E0)) as (L1 & _ & L3 & _). unfold vma_area_len, area_len in *. unfold rv_start, rv_end in *. by rewrite E1, E2.
Qed.

(** The entries handed over. *)
Definition handed : list rst_entry := prepare_vma vma_fd <$> r_vmas st.

Lemma prepared_is v' k : re_is (prepare_vma vma_fd v') k = rv_is v' k.
Proof. unfold re_is, prepare_vma. cbn [re_e]. by destruct (rv_is v' VMA_PREMMAPED). Qed.

Lemma prepared_place v' : va_start (re_e (prepare_vma vma_fd v')) = rv_start v' /\ va_end (re_e (prepare_vma vma_fd v')) = rv_end v' /\
  len_of (prepare_vma vma_fd v') = vma_area_len (rv_e v') /\ re_fd (prepare_vma vma_fd v') = vma_fd (rv_e v').
Proof. unfold len_of, prepare_vma. cbn [re_e]. by destruct (rv_is v' VMA_PREMMAPED). Qed.

Record moves (i : nat) (e : rst_entry) (v v' : rst_vma) : Prop := Moves {
  mv_entry : entry_of i v v';
  mv_premapped : rv_is v' VMA_PREMMAPED = true;
  mv_src : vma_premmaped_start e = premmaped_addr v';
  mv_dst : va_start (re_e e) = rv_start v;
  mv_end : va_end (re_e e) = rv_start v + area_len (rv_e v);
  mv_len : len_of e = area_len (rv_e v);
  mv_range : range_ok task_size (rv_start v) (area_len (rv_e v));
  mv_goes : goes v = true /\ span_of v = area_len (rv_e v)
}.

Lemma premapped_moves i e : premapped_at handed i e -> exists v v', moves i e v v'.
Proof.
  intros [Hi Hp]. unfold handed in Hi. rewrite list_lookup_fmap in Hi. destruct (r_vmas st !! i) as [v'|] eqn:Ev; [|done]. cbn in Hi. injection Hi as <-. rewrite prepared_is in Hp.
  destruct (entry_at i v' Ev) as [v He]. exists v, v'. pose proof He as [E0 _ E1 E2 _ _ _ _ _ Epr]. destruct (Epr Hp) as [P1 P2]. destruct (sl_private Hsl i v E0 P1 P2) as [G1 G2].
  destruct (entry_len i v v' He) as (L1 & L2 & L3). destruct (prepared_place v') as (Q1 & Q2 & Q3 & Q4). assert (Hsp : span_of v = area_len (rv_e v)) by (unfold span_of; by rewrite G2). split; try done.
  - unfold vma_premmaped_start, prepare_vma. cbn [re_e]. by rewrite Hp.
  - by rewrite Q1.
  - rewrite Q2, E2. unfold area_len, rv_start, rv_end. lia.
  - by rewrite Q3.
  - rewrite <- Hsp. by apply (sl_range Hsl i v).
Qed.

Record settles (i : nat) (e : rst_entry) (v v' : rst_vma) : Prop := Settles {
  st_entry : entry_of i v v';
  st_left : rv_is v' VMA_PREMMAPED = false;
  st_start : va_start (re_e e) = rv_start v;
  st_span : span segment_size e = span_of v;
  st_goes : goes v = true
}.

Lemma new_settles i e : handed !! i = Some e -> newly_mapped e = true -> exists v v', settles i e v v'.
Proof.
  intros Hi Hn. unfold handed in Hi. rewrite list_lookup_fmap in Hi. destruct (r_vmas st !! i) as [v'|] eqn:Ev; [|done]. cbn in Hi. injection Hi as <-.
  destruct (entry_at i v' Ev) as [v He]. exists v, v'. pose proof He as [E0 _ E1 E2 _ Eg Es _ _ _]. destruct (prepared_place v') as (Q1 & Q2 & Q3 & Q4). destruct (entry_len i v v' He) as (L1 & L2 & L3).
  unfold newly_mapped in Hn. rewrite !prepared_is, Q4 in Hn. apply andb_true_iff in Hn as [Hn H3]. apply andb_true_iff in Hn as [H1 H2]. split; try done.
  - by apply negb_true_iff.
  - by rewrite Q1.
  - rewrite <- Es. unfold span, span_of. rewrite prepared_is, Q4. destruct (rv_is v' VMA_AREA_SYSVIPC); [done|]. change (vma_area_len (re_e (prepare_vma vma_fd v'))) with (len_of (prepare_vma vma_fd v')). rewrite Q3, L3. by symmetry.
  - rewrite <- Eg. unfold goes. by rewrite H1, H3.
Qed.

(** Areas in the final address space do not overlap. *)
Lemma goes_apart i j v w p : vmas !! i = Some v -> vmas !! j = Some w -> i <> j -> goes v = true -> goes w = true -> in_pages (rv_start v) (span_of v) p -> ~ in_pages (rv_start w) (span_of w) p.
Proof.
  intros Hv Hw Hij Gv Gw. unfold in_pages. destruct (Nat.lt_ge_cases i j) as [H|H].
  - pose proof (sl_apart Hsl i j v w H Hv Hw Gv Gw). pose proof (slack_nonneg hidden (rv_e w)). lia.
  - pose proof (sl_apart Hsl j i w v ltac:(lia) Hw Hv Gw Gv). pose proof (slack_nonneg hidden (rv_e v)). lia.
Qed.

Lemma areas_nonneg : Forall (fun v => 0 <= area_len (rv_e v)) (r_vmas st).
Proof. apply Forall_lookup_2. intros i v' Hi. destruct (entry_at i v' Hi) as [v He]. destruct (entry_len i v v' He) as (-> & ? & _). lia. Qed.

(** Pages of a premapped area are not guard pages. *)
Lemma premapped_no_guard i e v v' p : moves i e v v' -> in_pages (premmaped_addr v') (area_len (rv_e v)) p -> ~ guard_page hidden (r_vmas st) p.
Proof.
  intros [He Hp _ _ _ _ _ _] Hin (j & w & Hw & Hpw & Hgap & Hpg). pose proof He as [_ Ei _ _ _ _ _ _ _ _]. destruct (entry_len i v v' He) as (L1 & L2 & _). pose proof (ho_laid _ _ _ _ _ _ _ _ Hho) as Hl. pose proof areas_nonneg as Hf.
  unfold in_pages in Hin. destruct (Nat.lt_total i j) as [H|[->|H]].
  - pose proof (laid_apart hidden _ Hf _ _ i j v' w Hl H (conj Ei Hp) (conj Hw Hpw)) as Ha. unfold slack in Ha. rewrite Hgap in Ha. lia.
  - assert (w = v') as -> by congruence. lia.
  - pose proof (laid_apart hidden _ Hf _ _ j i w v' Hl H (conj Hw Hpw) (conj Ei Hp)) as Ha. pose proof (Forall_lookup_1 _ _ _ _ Hf Hw) as Hw0. pose proof (slack_nonneg hidden (rv_e v')). cbn in Hw0. lia.
Qed.

(** Where an area is premapped. *)
Lemma moves_source i e v v' : moves i e v v' -> range_ok task_size (premmaped_addr v') (area_len (rv_e v)) /\ addr <= premmaped_addr v' /\ premmaped_addr v' + area_len (rv_e v) <= addr + used.
Proof.
  intros [He Hp _ _ _ _ (R1 & R2 & _ & R4 & _) _]. pose proof He as [_ Ei _ _ _ _ _ _ _ _]. destruct (entry_len i v v' He) as (L1 & L2 & _). pose proof (ho_laid _ _ _ _ _ _ _ _ Hho) as Hl. pose proof areas_nonneg as Hf.
  destruct (laid_slot hidden _ Hf _ _ i v' Hl (conj Ei Hp)) as [S1 S2]. pose proof (slack_nonneg hidden (rv_e v')). rewrite L1 in S2. destruct (sl_regions Hsl) as ((A1 & A2 & A3 & A4 & A5) & _).
  split; [|lia]. split; [|split; [done|split; [lia|split; [done|lia]]]]. eapply (laid_aligned hidden (r_vmas st)); [|exact A1|exact Hl|by eapply list_elem_of_lookup_2|done].
  apply Forall_lookup_2. intros j w' Hj _. destruct (entry_at j w' Hj) as [w Hw]. destruct (entry_len j w w' Hw) as (-> & _). destruct (area_len_ok _ (area_fine j w (eo_vmas _ _ _ Hw))) as (_ & ? & _). done.
Qed.

(** What the premapped range holds when the stage starts. *)
Definition range_kept (m1 : memory) : Prop := forall p, in_pages addr used p -> (guard_page hidden (r_vmas st) p -> m1 p = []) /\ (~ guard_page hidden (r_vmas st) p -> m1 p = r_mem st p).
Definition whole_pages : Prop := (forall a, a ∈ wanted lazy_pages l -> zlen (c a) = PAGE_SIZE) /\
  forall n v k, vmas !! n = Some v -> private v = true -> 0 <= k < nr_pages v -> zlen (blank v k) = PAGE_SIZE.
Definition page_wanted (v : rst_vma) (k : Z) : list Z := let a := rv_start v + k * PAGE_SIZE in if bool_decide (a ∈ wanted lazy_pages l) then c a else blank v k.
Context (m1 : memory) (Hm1 : range_kept m1) (Hwh : whole_pages).

Lemma moves_page i e v v' k : moves i e v v' -> 0 <= k < nr_pages v -> m1 (premmaped_addr v' + k * PAGE_SIZE) = page_wanted v k.
Proof.
  intros Hm Hk. destruct (moves_source i e v v' Hm) as (_ & S1 & S2). pose proof Hm as [He Hp _ _ _ _ _ _]. pose proof He as [E0 Ei _ _ _ _ _ _ _ Epr]. destruct (Epr Hp) as [P1 P2].
  destruct (area_len_ok _ (area_fine i v E0)) as (_ & _ & _ & _ & L5). unfold nr_pages in Hk. assert (Hin : in_pages (premmaped_addr v') (area_len (rv_e v)) (premmaped_addr v' + k * PAGE_SIZE)) by (unfold in_pages, PAGE_SIZE in *; lia).
  destruct (Hm1 (premmaped_addr v' + k * PAGE_SIZE)) as [_ ->]; [unfold in_pages in *; lia| |by apply (premapped_no_guard i e v v')].
  destruct (rm_area _ _ _ _ _ _ _ _ _ _ _ Hrm i v E0 P1 P2) as (w & Hw & _ & _ & Hif). assert (w = v') as -> by congruence. rewrite Hp in Hif. destruct Hif as (_ & _ & _ & Hall). by apply Hall.
Qed.

Lemma wanted_whole n v k : vmas !! n = Some v -> private v = true -> 0 <= k < nr_pages v -> zlen (page_wanted v k) = PAGE_SIZE.
Proof. intros Hn Hp Hk. destruct Hwh as [W1 W2]. unfold page_wanted. case_bool_decide; [by apply W1|by apply (W2 n)]. Qed.

(** A page of a range by its number. *)
Lemma page_number a len p : on_page a -> on_page len -> on_page p -> in_pages a len p -> exists k, p = a + k * PAGE_SIZE /\ 0 <= k < len / PAGE_SIZE.
Proof.
  unfold on_page, in_pages. intros Ha Hl Hp Hin. exists ((p - a) / PAGE_SIZE). pose proof (Z.div_mod (p - a) PAGE_SIZE ltac:(done)) as D. pose proof (Z.div_mod len PAGE_SIZE ltac:(done)) as D2.
  rewrite Zminus_mod, Hp, Ha in D. change ((0 - 0) mod PAGE_SIZE) with 0 in D. unfold PAGE_SIZE in *. lia.
Qed.

(** The premises of the last stage hold. *)
Lemma handed_aspace : aspace_ok task_size segment_size handed m1 addr used bs bl.
Proof.
  pose proof (ho_laid _ _ _ _ _ _ _ _ Hho) as Hl. pose proof areas_nonneg as Hf. split.
  - apply (sl_regions Hsl).
  - intros i e He. destruct (premapped_moves i e He) as (v & v' & Hm). destruct (moves_source i e v v' Hm) as (S1 & _ & _). destruct Hm as [_ _ -> -> -> -> R _]. done.
  - intros i e He. destruct (premapped_moves i e He) as (v & v' & Hm). destruct (moves_source i e v v' Hm) as (_ & S2 & S3). destruct Hm as [_ _ -> _ _ -> _ _]. done.
  - intros i j e f He Hf' Hij. destruct (premapped_moves i e He) as (v & v' & [Ev Pv -> _ _ -> _ _]). destruct (premapped_moves j f Hf') as (w & w' & [Ew Pw -> _ _ _ _ _]).
    destruct (entry_len i v v' Ev) as (<- & _). pose proof (laid_apart hidden _ Hf _ _ i j v' w' Hl Hij (conj (eo_rvmas _ _ _ Ev) Pv) (conj (eo_rvmas _ _ _ Ew) Pw)). pose proof (slack_nonneg hidden (rv_e w')). lia.
  - intros i j e f He Hf' Hij. destruct (premapped_moves i e He) as (v & v' & [Ev Pv _ -> _ -> _ [Gv Sv]]). destruct (premapped_moves j f Hf') as (w & w' & [Ew Pw _ -> _ _ _ [Gw _]]).
    pose proof (sl_apart Hsl i j v w Hij (eo_vmas _ _ _ Ev) (eo_vmas _ _ _ Ew) Gv Gw). pose proof (slack_nonneg hidden (rv_e w)). lia.
  - intros i j e f He Hf' Hij Hlt. destruct (premapped_moves i e He) as (v & v' & [Ev Pv Sv Dv _ _ _ _]). destruct (premapped_moves j f Hf') as (w & w' & [Ew Pw Sw Dw _ _ _ _]). rewrite Sv, Dv in Hlt. rewrite Sw, Dw.
    assert (Hgap : forall n n' x y, (n < n')%nat -> r_vmas st !! n = Some x /\ rv_is x VMA_PREMMAPED = true -> r_vmas st !! n' = Some y /\ rv_is y VMA_PREMMAPED = true -> rv_end x + slack hidden (rv_e y) <= rv_start y).
    { intros n n' x' y' Hn [Hx Px] [Hy Py]. destruct (entry_at n x' Hx) as [x Ex]. destruct (entry_at n' y' Hy) as [y Ey]. pose proof Ex as [X0 _ _ -> _ _ _ _ _ Xp]. pose proof Ey as [Y0 _ -> _ -> _ _ _ _ Yp].
      destruct (Xp Px) as [X1 X2], (Yp Py) as [Y1 Y2]. destruct (sl_private Hsl n x X0 X1 X2) as [Gx Nx], (sl_private Hsl n' y Y0 Y1 Y2) as [Gy _].
      pose proof (sl_apart Hsl n n' x y Hn X0 Y0 Gx Gy) as Ha. unfold span_of in Ha. rewrite Nx in Ha. unfold area_len in Ha. unfold rv_start, rv_end in *. lia. }
    pose proof (laid_sides hidden _ Hgap _ _ i j v' w' Hl Hij (conj (eo_rvmas _ _ _ Ev) Pv) (conj (eo_rvmas _ _ _ Ew) Pw)) as Hs. rewrite (eo_start _ _ _ Ev), (eo_start _ _ _ Ew) in Hs. lia.
  - intros i e He p Hp Hin. destruct (premapped_moves i e He) as (v & v' & Hm). destruct (moves_source i e v v' Hm) as ((S1 & S2 & _) & _). pose proof Hm as [Ev Pv Sv _ _ Lv _ _]. rewrite Sv, Lv in Hin.
    destruct (page_number _ _ p S1 S2 Hp Hin) as (k & -> & Hk). rewrite (moves_page i e v v' k Hm Hk). destruct (eo_premapped _ _ _ Ev Pv) as [P1 _]. pose proof (wanted_whole i v k (eo_vmas _ _ _ Ev) P1 Hk) as Hw. intros E. by rewrite E in Hw.
  - intros p Hp Hin Hne. destruct (laid_cover hidden _ p _ _ Hl Hin) as (i & v' & [Hi Pv] & Hslot). destruct (entry_at i v' Hi) as [v Ev]. destruct (entry_len i v v' Ev) as (L1 & _ & L3).
    assert (He : premapped_at handed i (prepare_vma vma_fd v')) by (split; [unfold handed; by rewrite list_lookup_fmap, Hi|by rewrite prepared_is]).
    exists i, (prepare_vma vma_fd v'). split; [done|]. destruct (premapped_moves i _ He) as (w & w' & [Ew Pw Sw _ _ Lw _ _]). assert (w' = v') as -> by (pose proof (eo_rvmas _ _ _ Ew); congruence).
    assert (w = v) as -> by (pose proof (eo_vmas _ _ _ Ew); pose proof (eo_vmas _ _ _ Ev); congruence). unfold in_src. rewrite Sw, Lw, <- L1. unfold in_pages. split; [|lia].
    destruct (Z.lt_ge_cases p (premmaped_addr v')) as [Hlt|]; [|done]. exfalso. apply Hne, (Hm1 p Hin). exists i, v'. unfold slack in Hslot. destruct (vma_has_guard_gap_hidden hidden (rv_e v')) eqn:Eg; [|lia]. split_and!; (done || lia).
  - intros i e p He Hin. destruct (premapped_moves i e He) as (v & v' & [Ev _ _ Dv _ Lv _ [Gv Sv]]). unfold in_dst in Hin. rewrite Dv, Lv in Hin. pose proof (sl_boot Hsl i v (eo_vmas _ _ _ Ev) Gv). unfold in_pages in *. lia.
  - intros i e He Hsh. destruct (premapped_moves i e He) as (v & v' & Hm). destruct (moves_source i e v v' Hm) as (_ & S2 & S3). destruct Hm as [Ev Pv -> -> _ _ (_ & _ & _ & R4 & _) _]. destruct He as [Hi _].
    unfold handed in Hi. rewrite list_lookup_fmap, (eo_rvmas _ _ _ Ev) in Hi. cbn in Hi. injection Hi as <-. rewrite prepared_is in Hsh. unfold VMA_AREA_SHSTK in Hsh. rewrite (eo_is _ _ _ Ev) in Hsh by lia.
    pose proof (sl_shstk Hsl i v (eo_vmas _ _ _ Ev) Hsh). lia.
  - split.
    + intros e He Hn. apply list_elem_of_lookup in He as [i Hi]. destruct (new_settles i e Hi Hn) as (v & v' & [Ev _ -> -> Gv]). by apply (sl_range Hsl i v (eo_vmas _ _ _ Ev)).
    + intros i j e f p Hi Hj Hij Ne Nf. destruct (new_settles i e Hi Ne) as (v & v' & [Ev _ Sv Pv Gv]). destruct (new_settles j f Hj Nf) as (w & w' & [Ew _ Sw Pw Gw]). unfold in_span. rewrite Sv, Sw, Pv, Pw.
      by apply (goes_apart i j); [apply (eo_vmas _ _ _ Ev)|apply (eo_vmas _ _ _ Ew)|..].
  - intros e p He Hn. apply list_elem_of_lookup in He as [i Hi]. destruct (new_settles i e Hi Hn) as (v & v' & [Ev _ Sv Pv Gv]). unfold in_span. rewrite Sv, Pv. pose proof (sl_boot Hsl i v (eo_vmas _ _ _ Ev) Gv). unfold in_pages in *. lia.
  - intros i e f p He Hf' Hn. apply list_elem_of_lookup in Hf' as [j Hj]. destruct (new_settles j f Hj Hn) as (w & w' & [Ew Nw Sw Pw Gw]). destruct (premapped_moves i e He) as (v & v' & [Ev Pv _ Dv _ Lv _ [Gv Spv]]).
    unfold in_span, in_dst. rewrite Sw, Pw, Dv, Lv, <- Spv. apply (goes_apart j i); [apply (eo_vmas _ _ _ Ew)|apply (eo_vmas _ _ _ Ev)| |done|done]. intros ->. pose proof (eo_rvmas _ _ _ Ev). pose proof (eo_rvmas _ _ _ Ew). congruence.
Qed.

(** ** The final pages *)
Context (lz4 : list Z -> Z -> option (list Z)) (file : list Z) (ps : list snapshot).
Context (Hcontent : forall a, a ∈ wanted lazy_pages l -> page_content lz4 ((l, file) :: ps) a (c a)).

(** The restorer maps an area that was left to it as [prepare_mappings] would. *)
Definition maps_blank : Prop := forall n v e k, vmas !! n = Some v -> private v = true -> e = rv_e v \/ e = add_status VMA_NO_PROT_WRITE (rv_e v) -> 0 <= k < nr_pages v ->
  content e (vma_fd (rv_e v)) k = blank v k.
Context (Hmb : maps_blank).

Lemma left_guard i v v' : entry_of i v v' -> private v = true -> rv_is v VMA_AREA_GUARD = false.
Proof. intros He Hp. destruct (rv_is v VMA_AREA_GUARD) eqn:E; [|done]. rewrite (tk_guard _ _ _ _ _ _ _ _ _ _ _ _ Htk i v (eo_vmas _ _ _ He) E) in Hp. done. Qed.

(** A queued page: what is read for it, and the area it is for. *)
Lemma queued_page a s : (a, s) ∈ queue_tasks (r_io st) -> src_bytes lz4 file s = Some (c a) /\ a ∈ wanted lazy_pages l /\ zlen (c a) = PAGE_SIZE /\ a mod PAGE_SIZE = 0 /\
  exists i v v', entry_of i v v' /\ rv_is v' VMA_PREMMAPED = false /\ private v = true /\ page_of_area v a.
Proof.
  intros H. destruct (ho_left _ _ _ _ _ _ _ _ Hho a s H) as (i & v' & j & pe & k & Hi & [Hnp Hp] & [Ha1 Ha2] & Hpa & -> & Hin). destruct (entry_at i v' Hi) as [v He].
  assert (Hw : a ∈ wanted lazy_pages l) by (apply wanted_page; by exists j, pe, k). pose proof (Hcontent a Hw) as Hc. pose proof Hpa as (Hj & _ & Hk & Ea). rewrite Ea in Hc.
  pose proof (content_inv lz4 l file ps j pe k _ (tk_pmes _ _ _ _ _ _ _ _ _ _ _ _ Htk) Hj Hk Hc) as Hx. rewrite Hin, <- Ea in Hx. destruct Hx as [_ Hx]. split; [done|]. split; [done|]. split; [by apply (proj1 Hwh)|]. split; [done|].
  exists i, v, v'. rewrite (eo_private _ _ _ He) in Hp. rewrite (eo_start _ _ _ He), (eo_end _ _ _ He) in Ha1. done.
Qed.

Lemma queued_resolve : Forall (resolves lz4 file) (queue_tasks (r_io st)) /\ resolve lz4 file <$> queue_tasks (r_io st) = (fun t => (t.1, c t.1)) <$> queue_tasks (r_io st).
Proof.
  split.
  - apply Forall_forall. intros [a s] H. destruct (queued_page a s H) as (H1 & _ & H2 & _). by exists (c a).
  - apply list_fmap_ext. intros i [a s] Hi. apply list_elem_of_lookup_2 in Hi. destruct (queued_page a s Hi) as (H1 & _). unfold resolve. cbn [fst snd]. by rewrite H1.
Qed.

Context (m2 : memory) (Hm2 : restored_space task_size content segment_size handed m1 bs bl m2).

(** The pages of the areas once the restorer has moved and mapped them. *)
Lemma placed_page i v v' k : entry_of i v v' -> private v = true -> 0 <= k < nr_pages v ->
  m2 (rv_start v + k * PAGE_SIZE) = if rv_is v' VMA_PREMMAPED then page_wanted v k else blank v k.
Proof.
  intros He Hp Hk. pose proof He as [E0 Ei _ _ _ _ _ _ _ _]. pose proof (left_guard i v v' He Hp) as Hg. destruct (area_len_ok _ (area_fine i v E0)) as (_ & L2 & _ & _ & L5). unfold nr_pages in Hk.
  destruct (sl_private Hsl i v E0 Hp Hg) as [Gv Nv]. destruct (sl_range Hsl i v E0 Gv) as (R1 & _).
  assert (Hin : in_pages (rv_start v) (area_len (rv_e v)) (rv_start v + k * PAGE_SIZE)) by (unfold in_pages, PAGE_SIZE in *; lia).
  assert (Hon : on_page (rv_start v + k * PAGE_SIZE)) by (unfold on_page in *; by rewrite Z.mod_add). assert (Hh : handed !! i = Some (prepare_vma vma_fd v')) by (unfold handed; by rewrite list_lookup_fmap, Ei).
  destruct (rv_is v' VMA_PREMMAPED) eqn:Ep.
  - assert (Hpm : premapped_at handed i (prepare_vma vma_fd v')) by (split; [done|by rewrite prepared_is]). destruct (premapped_moves i _ Hpm) as (w & w' & Hm). pose proof Hm as [Ew _ Sw Dw _ Lw _ _].
    assert (w' = v') as -> by (pose proof (eo_rvmas _ _ _ Ew); congruence). assert (w = v) as -> by (pose proof (eo_vmas _ _ _ Ew); congruence).
    rewrite (rs_premapped _ _ _ _ _ _ _ _ Hm2 i _ _ Hpm Hon) by (unfold in_dst; by rewrite Dw, Lw). rewrite Dw, Sw. replace (_ - _ + _) with (premmaped_addr v' + k * PAGE_SIZE) by lia. exact (moves_page i _ v v' k Hm Hk).
  - assert (Hn : newly_mapped (prepare_vma vma_fd v') = true). { unfold newly_mapped. rewrite !prepared_is, Ep. destruct (prepared_place v') as (_ & _ & _ & ->). pose proof (eo_goes _ _ _ He) as Eg. rewrite Gv in Eg. unfold goes in Eg. by rewrite andb_true_r. }
    destruct (new_settles i _ Hh Hn) as (w & w' & [Ew _ Sw Pw _]). assert (w = v) as -> by (pose proof (eo_vmas _ _ _ Ew); congruence).
    rewrite (rs_new _ _ _ _ _ _ _ _ Hm2 _ _ (list_elem_of_lookup_2 _ _ _ Hh) Hn) by (unfold in_span; rewrite Sw, Pw; unfold span_of; by rewrite Nv). rewrite Sw.
    replace (rv_start v + k * PAGE_SIZE - rv_start v) with (k * PAGE_SIZE) by lia. rewrite Z.div_mul by done. destruct (prepared_place v') as (_ & _ & _ & ->).
    assert (Ee : re_e (prepare_vma vma_fd v') = rv_e v') by (unfold prepare_vma; cbn [re_e]; by rewrite Ep). rewrite Ee.
    destruct (Forall2_lookup_r _ _ _ _ _ (ho_vmas _ _ _ _ _ _ _ _ Hho) Ei) as (x & Hx & Hmk). assert (x = v) as -> by congruence.
    destruct Hmk as [E|(_ & _ & [E|E])].
    + rewrite E. by apply (Hmb i); [| |left|].
    + rewrite E, (sl_fd Hsl). by apply (Hmb i); [| |right|].
    + unfold rv_is in Ep. rewrite E in Ep. unfold VMA_PREMMAPED in Ep. by rewrite status_add in Ep.
Qed.

Lemma queue_places : places_ok m2 (r_io st).
Proof.
  apply Forall_forall. intros [a s] H. destruct (queued_page a s H) as (_ & _ & _ & Ha & i & v & v' & He & Hnp & Hp & [Hr _]). cbn [fst]. split; [done|].
  pose proof He as [E0 _ _ _ _ _ _ _ _ _]. destruct (area_fine i v E0) as [_ [A1 A2]]. destruct (area_len_ok _ (area_fine i v E0)) as (_ & L2 & _).
  destruct (page_number (rv_start v) (area_len (rv_e v)) a A1 L2 Ha) as (k & -> & Hk); [unfold in_pages, area_len, rv_start, rv_end in *; lia|].
  rewrite (placed_page i v v' k He Hp Hk), Hnp. pose proof (proj2 Hwh i v k E0 Hp Hk) as Hw. unfold zlen in Hw. lia.
Qed.

(** ** The memory of the process *)
Lemma final_page n v k : vmas !! n = Some v -> private v = true -> rv_is v VMA_AREA_GUARD = false -> 0 <= k < nr_pages v ->
  set_pages m2 (resolve lz4 file <$> queue_tasks (r_io st)) (rv_start v + k * PAGE_SIZE) = page_wanted v k.
Proof.
  intros Hn Hp Hg Hk. destruct (rm_io _ _ _ _ _ _ _ _ _ _ _ Hrm) as [Hnd _]. destruct (rm_area _ _ _ _ _ _ _ _ _ _ _ Hrm n v Hn Hp Hg) as (v' & Hv' & _ & _ & Hif). destruct (entry_at n v' Hv') as [w He].
  assert (w = v) as -> by (pose proof (eo_vmas _ _ _ He); congruence). set (a := rv_start v + k * PAGE_SIZE). destruct queued_resolve as [_ ->].
  assert (Hfst : ((fun t : Z * page_src => (t.1, c t.1)) <$> queue_tasks (r_io st)).*1 = (queue_tasks (r_io st)).*1) by (rewrite <- list_fmap_compose; by apply list_fmap_ext).
  pose proof (placed_page n v v' k He Hp Hk) as Hpl. fold a in Hpl. assert (Hpa : page_of_area v a).
  { destruct (area_fine n v Hn) as [_ [A1 A2]]. destruct (area_len_ok _ (area_fine n v Hn)) as (_ & _ & _ & _ & L5). unfold nr_pages in Hk. split; [|unfold a, rv_start; by rewrite Z.mod_add].
    unfold a, area_len, rv_start, rv_end in *. unfold PAGE_SIZE in *. lia. }
  destruct (decide (a ∈ (queue_tasks (r_io st)).*1)) as [Hq|Hq].
  - apply list_elem_of_fmap in Hq as ([a' s] & Ea & Hq). cbn in Ea. subst a'. destruct (queued_page a s Hq) as (_ & Hw & _). rewrite (set_pages_in _ _ a (c a)); [|by rewrite Hfst|by apply list_elem_of_fmap; exists (a, s)].
    unfold page_wanted. fold a. by rewrite bool_decide_true.
  - rewrite set_pages_out by (by rewrite Hfst). rewrite Hpl. destruct (rv_is v' VMA_PREMMAPED) eqn:Ep; [done|]. unfold page_wanted. fold a. case_bool_decide as Hw; [|done].
    exfalso. apply wanted_page in Hw as (i & pe & j & Hat). apply Hq, list_elem_of_fmap. exists (a, entry_src l i pe j). split; [done|]. by apply Hif.
Qed.
End Compose.

(** ** Handing over and reading *)
Lemma prepare_vmas_loop_ok vma_fd vs : forall al, let '(r, al') := prepare_vmas_loop al vma_fd vs in (r = None \/ r = Some (prepare_vma vma_fd <$> vs)) /\ (al = [] -> r <> None /\ al' = []).
Proof.
  induction vs as [|v vs IH]; intros al; cbn [prepare_vmas_loop]; [split; [by right|by intros ->]|]. destruct (xalloc al) as [ok al1] eqn:Ea. destruct ok; cbn [negb]; [|split; [by left|intros ->; done]].
  specialize (IH al1). destruct (prepare_vmas_loop al1 vma_fd vs) as [r al2]. destruct IH as [I1 I2]. split.
  - destruct I1 as [->| ->]; [by left|by right].
  - intros ->. cbn in Ea. injection Ea as <-. destruct (I2 eq_refl) as [I3 ->]. by destruct r.
Qed.

Lemma pagemap_render_succeeds q : Forall piov_ok q -> Forall (fun p => pi_n_pages p <= INT_MAX) q -> exists rios, pagemap_render_iovec [] q = (Some rios, []).
Proof.
  intros Hok Hn. unfold pagemap_render_iovec. pose proof (render_meta_ok q) as Hm. destruct (render_meta [] q) as [ok al1]. destruct Hm as [-> ->]. cbn [negb].
  pose proof (render_rios_ok q Hok []) as Hr. destruct (render_rios [] q) as [r al2]. destruct Hr as [_ Hr]. destruct (Hr eq_refl Hn) as [? ->]. destruct r as [rios|]; [by exists rios|done].
Qed.

(** What [prepare_vma_ios] hands over for a queue. *)
Record ios_ok (q : list page_read_iov) (ios : vma_ios) : Prop := IosOk {
  io_renders : Forall2 renders q (ta_vma_ios ios);
  io_fd : q <> [] -> ta_fd ios <> -1;
  io_direct : ta_use_direct ios = true -> not_encoded q
}.

Lemma direct_not_encoded q : pagemap_iovec_is_direct_compatible q = true -> not_encoded q.
Proof.
  unfold pagemap_iovec_is_direct_compatible. rewrite andb_true_iff. intros [H _]. apply Forall_forall. intros p Hp. rewrite forallb_forall in H. specialize (H p (proj1 (list_elem_of_In _ _) Hp)). unfold piov_direct_compatible in H.
  destruct (pi_nr p =? 0); [done|]. by case_bool_decide.
Qed.

Lemma prepare_vma_ios_ok al direct_mode pages p q : Forall piov_ok q -> pages <> Some (-1) ->
  let '(r, al') := prepare_vma_ios al direct_mode pages p q in match r with Some ios => ios_ok q ios | None => True end /\
    (al = [] -> pages <> None -> 0 <= probe_pages_o_direct p -> Forall (fun p => pi_n_pages p <= INT_MAX) q -> r <> None).
Proof.
  intros Hok Hpg. unfold prepare_vma_ios. destruct q as [|x q]; [split; [by split; [constructor|..]|done]|]. destruct pages as [fd|]; [|split; [done|by intros _ ?]].
  set (probed := (0 <=? fd) && direct_mode && pagemap_iovec_is_direct_compatible (x :: q)). destruct (probed && (probe_pages_o_direct p <? 0)) eqn:Ep.
  { split; [done|]. intros _ _ Hp. apply andb_true_iff in Ep as [_ Ep]. lia. }
  destruct (pagemap_render_iovec al (x :: q)) as [[rios|] al'] eqn:Er; [split; [|done]|split; [done|]; intros -> _ _ Hn; destruct (pagemap_render_succeeds _ Hok Hn) as [? E]; congruence].
  split; cbn [ta_vma_ios ta_fd ta_use_direct].
  - by apply (pagemap_render_ok _ al rios al').
  - congruence.
  - intros Hd. apply andb_true_iff in Hd as [Hd _]. unfold probed in Hd. apply andb_true_iff in Hd as [_ Hd]. by apply direct_not_encoded.
Qed.

Lemma aio_loop_code submit getevents auto_dedup fuel : forall n st r st', aio_loop submit getevents auto_dedup fuel n st = Ret (r, st') -> r = 0 \/ r = -1.
Proof.
  induction fuel as [|fuel IH]; intros n st r st' H; cbn [aio_loop] in H; destruct (_ || _); try done; try (injection H as <- <-; by left).
  destruct (submit_aio_batch _ _ _ _) as [[ret st1]| |]; cbn [obind] in H; [|done|done]. destruct (ret <? 0); [injection H as <- <-; by right|]. destruct (as_completed st1 >=? n); [by apply (IH n st1 r st')|].
  destruct (sys_io_getevents _ _) as [[evs st2]| |]; cbn [obind] in H; [|done|done]. destruct evs as [[|ev evs]|]; [injection H as <- <-; by right| |injection H as <- <-; by right].
  destruct (reap_aio_events _ _ _ _) as [[ret2 st3]| |]; cbn [obind] in H; [|done|done]. destruct (ret2 <? 0); [injection H as <- <-; by right|]. by apply (IH n st3 r st').
Qed.

Lemma restore_vma_aio_code submit getevents auto_dedup setup mapped rios r evs holes : restore_vma_aio submit getevents auto_dedup setup mapped rios = Ret (r, evs, holes) -> r = 0 \/ r = -1.
Proof.
  unfold restore_vma_aio. destruct setup, mapped; cbn [negb]; try (intros [= <- _ _]; by right). destruct (build_iocbs rios) as [[[] evs0] cbs]; cbn [negb]; [|intros [= <- _ _]; by right].
  destruct (aio_loop _ _ _ _ _ _) as [[ret st]| |] eqn:E; cbn [obind]; [|done|done]. intros [= <- _ _]. by apply aio_loop_code in E.
Qed.

(** Reading the contents puts the queued pages in place. *)
Lemma restore_contents_ok lz4 file submit getevents preadv auto_dedup setup mapped q ios m : aio_kernel_ok submit getevents -> (forall off n, preadv off n <= n) -> ios_ok q ios ->
  Forall piov_ok q -> Forall (resolves lz4 file) (queue_tasks q) -> places_ok m q -> NoDup (queue_tasks q).*1 ->
  exists rc m', restore_contents submit getevents preadv auto_dedup setup mapped file ios m = Ret (rc, m') /\ (rc = 0 \/ rc = -1) /\
    (rc = 0 -> forall a, m' a = set_pages m (resolve lz4 file <$> queue_tasks q) a) /\
    (aio_kernel_live submit getevents -> setup = true -> mapped = true -> reads_go_on preadv -> not_encoded q -> rc = 0).
Proof.
  intros HK Hpv [I1 I2 I3] Hok Hres Hpl Hnd. unfold restore_contents. destruct q as [|x q].
  { inversion I1. eexists _, _. split; [done|]. split; [by left|]. done. }
  case_bool_decide as Hnil; [rewrite Hnil in I1; inversion I1|]. destruct (Z.eqb_spec (ta_fd ios) (-1)) as [E|_]; [by apply I2 in E|]. cbn [orb]. destruct (ta_use_direct ios).
  - destruct (restore_vma_aio_spec lz4 file submit getevents auto_dedup HK (x :: q) (ta_vma_ios ios) m I1 Hok (I3 eq_refl) Hres Hpl Hnd setup mapped) as (r & evs & holes & E & H1 & H2). rewrite E. cbn [obind].
    eexists _, _. split; [done|]. split; [by eapply restore_vma_aio_code|]. split; [done|]. intros; by apply H2.
  - unfold restore_vma_preadv_mixed. destruct (preadv_mixed_loop_ok preadv auto_dedup Hpv (x :: q) (ta_vma_ios ios) I1 Hok) as (r & evs & holes & -> & H0 & H1 & H2). cbn [obind].
    eexists _, _. split; [done|]. split; [done|]. split; [|intros; by apply H2]. intros Hr a. destruct (H1 Hr) as [J1 J2]. by apply run_jobs.
Qed.

(** ** From the images to the final address space *)

(** Nothing fails in the last stage. *)
Record stage_fine (task_size : Z) (place : memory -> Z -> Z -> option Z) (submit : nat -> Z -> Z -> Z) (getevents : nat -> list (nat * Z) -> option (list (nat * Z))) (preadv : Z -> Z -> Z) (setup mapped : bool)
    (al : list bool) (pages : option Z) (p : probe) (vs : list rst_entry) (q : list page_read_iov) (addr used bs bl : Z) (env : kenv) : Prop := StageFine {
  sf_calls : calm env /\ al = [] /\ pages <> None /\ 0 <= probe_pages_o_direct p /\ setup = true /\ mapped = true;
  sf_place : place_live task_size place /\ detour_room task_size vs addr used bs bl;
  sf_jobs : not_encoded q /\ Forall (fun p => pi_n_pages p <= INT_MAX) q;
  sf_reads : reads_go_on preadv /\ aio_kernel_live submit getevents
}.

Section Whole.
Context (task_size : Z) (place : memory -> Z -> Z -> option Z) (content : vma_area -> Z -> Z -> list Z) (segment_size : Z -> Z).
Context (submit : nat -> Z -> Z -> Z) (getevents : nat -> list (nat * Z) -> option (list (nat * Z))) (preadv2 : Z -> Z -> Z) (auto_dedup setup mapped : bool).
Context (Hplace : place_ok task_size place) (Htask : task_size < 2 ^ 62) (HK : aio_kernel_ok submit getevents) (Hpv2 : forall off n, preadv2 off n <= n).
Context (c : Z -> list Z) (hidden : bool) (fresh : vma_area -> Z -> list Z) (lazy_pages : bool) (cow_buf : Z).
Context (l : list pagemap_entry) (vmas pv : list rst_vma) (m0 bk0 : memory) (addr : Z) (stored : Z -> Prop).
Context (Htk : task_ok task_size hidden fresh lazy_pages cow_buf l vmas pv m0 bk0 addr stored).
Context (st : rstate) (bk : memory) (used : Z).
Context (Hho : handed_over task_size hidden lazy_pages l vmas addr st used) (Hrm : restored_memory c task_size hidden fresh lazy_pages l vmas addr st bk used).
Context (vma_fd : vma_area -> Z) (bs bl : Z) (Hsl : stage_layout task_size hidden vmas addr used segment_size vma_fd bs bl).
Context (Hwh : whole_pages c task_size hidden fresh lazy_pages l vmas) (Hmb : maps_blank task_size hidden fresh vmas content vma_fd).
Context (lz4 : list Z -> Z -> option (list Z)) (file : list Z) (ps : list snapshot).
Context (Hcontent : forall a, a ∈ wanted lazy_pages l -> page_content lz4 ((l, file) :: ps) a (c a)).
Context (settle : memory -> memory) (Hsettle : forall m p, in_pages addr used p -> settle m p = m p).

Lemma last_stage_ok al direct_mode pages p uffd env : pages <> Some (-1) ->
  exists ret m', last_stage task_size place content segment_size submit getevents preadv2 auto_dedup setup mapped file hidden al vma_fd direct_mode pages p settle addr used bs bl uffd (r_vmas st) (r_io st) (r_mem st) env = Ret (ret, m') /\
    (ret = 0 -> forall n v k, vmas !! n = Some v -> vma_entry_is_private task_size (rv_e v) = true -> rv_is v VMA_AREA_GUARD = false -> 0 <= k < nr_pages v ->
       m' (rv_start v + k * PAGE_SIZE) = page_wanted c hidden fresh lazy_pages l v k) /\
    (stage_fine task_size place submit getevents preadv2 setup mapped al pages p (prepare_vma vma_fd <$> r_vmas st) (r_io st) addr used bs bl env -> ret = 0).
Proof.
  intros Hpg. unfold last_stage. destruct (sl_regions _ _ _ _ _ _ _ _ _ Hsl) as ((A1 & A2 & A3 & A4 & A5) & _ & _ & A6 & _).
  destruct (unmap_guard_pages_ok task_size hidden (r_vmas st) Htask) with (s := Space (r_mem st) [] []) (env := env) as (ok & s & env1 & -> & HM & HC).
  { apply Forall_lookup_2. intros i v' Hi Hp Hg. destruct (laid_slot hidden (r_vmas st)) with (lo := addr) (hi := addr + used) (n := i) (v := v') as [S1 S2]; [by eapply areas_nonneg|apply Hho|done|].
    assert (Hn : Forall (fun v => 0 <= area_len (rv_e v)) (r_vmas st)) by (by eapply areas_nonneg). pose proof (Forall_lookup_1 _ _ _ _ Hn Hi) as Hl. cbn in Hl. pose proof (slack_nonneg hidden (rv_e v')). lia. }
  destruct ok; cbn [negb]; [|eexists _, _; split; [done|]; split; [done|]; intros [(Hc & _) _ _ _]; by destruct (HC Hc)]. destruct (HM eq_refl) as [HU HG].
  unfold prepare_vmas. pose proof (prepare_vmas_loop_ok vma_fd (r_vmas st) al) as Hlp. destruct (prepare_vmas_loop al vma_fd (r_vmas st)) as [rv al1]. destruct Hlp as [Hlp Hla].
  destruct Hlp as [->| ->]; [eexists _, _; split; [done|]; split; [done|]; intros [(_ & Ha & _) _ _ _]; by destruct (Hla Ha)|].
  pose proof (prepare_vma_ios_ok al1 direct_mode pages p (r_io st) (ho_jobs _ _ _ _ _ _ _ _ Hho) Hpg) as Hio. destruct (prepare_vma_ios al1 direct_mode pages p (r_io st)) as [rio al2]. destruct Hio as [Hio Hia].
  destruct rio as [ios|]; cycle 1.
  { eexists _, _. split; [done|]. split; [done|]. intros [(_ & Ha & Hp1 & Hp2 & _) _ [_ Hj] _]. destruct (Hla Ha) as [_ ->]. by destruct (Hia eq_refl Hp1 Hp2 Hj). }
  set (m1 := settle (sp_mem s)). assert (Hm1 : range_kept hidden addr st used m1).
  { intros q Hq. unfold m1. rewrite (Hsettle _ q Hq). apply HG. }
  assert (Has : aspace_ok task_size segment_size (handed st vma_fd) m1 addr used bs bl) by (by eapply handed_aspace).
  destruct (restore_address_space_spec task_size place Hplace Htask content segment_size (handed st vma_fd) m1 addr used bs bl Has uffd (set_sp_mem m1 s) env1 eq_refl HU) as (ret & vs' & s2 & env2 & E & R1 & R2).
  unfold handed in E. rewrite E. cbn [obind]. destruct (Z.eqb_spec ret 0) as [->|Hne]; cbn [negb]; [|eexists _, _; split; [done|]; split; [done|]; intros [(Hc & _) [HL Hr] _ _]; destruct (HC Hc) as [_ Hc1]; by specialize (R2 Hc1 HL Hr)].
  destruct (R1 eq_refl) as [Hsp _]. destruct (queued_resolve c task_size hidden fresh lazy_pages cow_buf l vmas pv m0 bk0 addr stored Htk st used Hho segment_size vma_fd bs bl Hsl Hwh lz4 file ps Hcontent) as [Hres _].
  destruct (restore_contents_ok lz4 file submit getevents preadv2 auto_dedup setup mapped (r_io st) ios (sp_mem s2) HK Hpv2 Hio) as (rc & m3 & -> & Hrc & M3 & C3);
    [apply Hho|done|by eapply queue_places|apply (rm_io _ _ _ _ _ _ _ _ _ _ _ Hrm)|]. cbn [obind].
  eexists _, _. split; [done|]. split.
  - intros Hz n v k Hn Hp Hg Hk. destruct Hrc as [->| ->]; [|done]. rewrite (M3 eq_refl). by eapply final_page.
  - intros [(_ & _ & _ & _ & Hs1 & Hs2) _ [Hj _] [Hr1 Hr2]]. by rewrite (C3 Hr2 Hs1 Hs2 Hr1 Hj).
Qed.
End Whole.

Lemma process_memory_spec lz4 parallel files preadv decode partial ctx_ok c task_size hidden fresh pieok lazy_pages cow_buf vmas pv addr cl old pr parents e ps me ma st ps' used
    place content segment_size submit getevents preadv2 auto_dedup setup mapped vma_fd bs bl settle al direct_mode pages p uffd env :
  (forall depth off n, preadv depth off n <= n) -> Forall2 (fresh_queue lz4) files (pr :: parents) -> (pieok = true -> parents = []) -> c_reserve cl = Some addr -> vmas <> [] ->
  (forall oaddr olen, old = Some (oaddr, olen) -> oaddr + olen <= addr \/ addr + zsum (needed task_size hidden <$> vmas) <= oaddr) ->
  task_ok task_size hidden fresh lazy_pages cow_buf (pmes pr) vmas pv (pm_mem ps) (pm_back ps) addr (fun a => page_content lz4 (images files (pr :: parents)) a (c a)) ->
  prepare_mappings (Ops := chain_ops lz4 parallel files preadv decode partial ctx_ok) task_size hidden fresh pieok parallel lazy_pages cow_buf cl old vmas pv (pr :: parents) e ps me ma = Ret (0, Some (st, ps', addr, used)) ->
  place_ok task_size place -> task_size < 2 ^ 62 -> aio_kernel_ok submit getevents -> (forall off n, preadv2 off n <= n) ->
  stage_layout task_size hidden vmas addr used segment_size vma_fd bs bl -> maps_blank task_size hidden fresh vmas content vma_fd ->
  (forall n v k, vmas !! n = Some v -> vma_entry_is_private task_size (rv_e v) = true -> 0 <= k < nr_pages v -> zlen (area_page hidden fresh (rv_e v) k) = PAGE_SIZE) ->
  (forall m a, in_pages addr used a -> settle m a = m a) -> pages <> Some (-1) ->
  exists ret m', last_stage task_size place content segment_size submit getevents preadv2 auto_dedup setup mapped (default [] (head files)) hidden al vma_fd direct_mode pages p settle
      addr used bs bl uffd (r_vmas st) (r_io st) (r_mem st) env = Ret (ret, m') /\
    (ret = 0 -> forall n v k, vmas !! n = Some v -> vma_entry_is_private task_size (rv_e v) = true -> rv_is v VMA_AREA_GUARD = false -> 0 <= k < nr_pages v ->
       let a := rv_start v + k * PAGE_SIZE in m' a = if bool_decide (a ∈ wanted lazy_pages (pmes pr)) then c a else area_page hidden fresh (rv_e v) k) /\
    (stage_fine task_size place submit getevents preadv2 setup mapped al pages p (prepare_vma vma_fd <$> r_vmas st) (r_io st) addr used bs bl env -> ret = 0).
Proof.
  intros Hpv Hfr Hpie Hres Hne Hold Htk Eprep Hplace Htask HK Hpv2 Hsl Hmb Hbl Hsettle Hpg.
  destruct (prepare_mappings_chain lz4 parallel files preadv decode partial ctx_ok c task_size hidden fresh pieok lazy_pages cow_buf vmas pv addr cl old pr parents e ps me ma Hpv Hfr Hpie Hres Hne Hold Htk) as (r & o & E & H1 & _).
  rewrite Eprep in E. injection E as <- <-. destruct (H1 eq_refl) as (st1 & ps1 & used1 & E1 & Hrm & Hho). injection E1 as <- <- <-.
  destruct files as [|file files]; [by apply Forall2_length in Hfr|]. cbn [head default from_option id]. pose proof (Forall2_cons_1 _ _ _ _ _ Hfr) as [Hf1 Hf2].
  assert (Hcontent : forall a, a ∈ wanted lazy_pages (pmes pr) -> page_content lz4 ((pmes pr, file) :: images files parents) a (c a)) by (intros a Ha; exact (tk_has _ _ _ _ _ _ _ _ _ _ _ _ Htk a Ha)).
  assert (Hall : Forall pagemaps_ok (fst <$> (pmes pr, file) :: images files parents)).
  { rewrite fmap_cons. constructor; [apply Hf1|]. unfold images. clear - Hf2. induction Hf2 as [|f q fs qs Hq _ IH]; [constructor|]. cbn [fmap list_fmap zip_with]. constructor; [apply Hq|exact IH]. }
  assert (Hwh : whole_pages c task_size hidden fresh lazy_pages (pmes pr) vmas) by (split; [intros a Ha; by eapply content_length, Hcontent|exact Hbl]).
  exact (last_stage_ok task_size place content segment_size submit getevents preadv2 auto_dedup setup mapped Hplace Htask HK Hpv2 c hidden fresh lazy_pages cow_buf (pmes pr) vmas pv (pm_mem ps) (pm_back ps) addr _ Htk
    st (pm_back ps') used Hho Hrm vma_fd bs bl Hsl Hwh Hmb lz4 file (images files parents) Hcontent settle Hsettle al direct_mode pages p uffd env Hpg).
Qed.


(** ** Example: one area is premapped for a child to share, the other is left to
    the restorer, which reads its first page from the image *)
Definition two_es : list pagemap_entry := [raw_entry 0x10000 1 PE_PRESENT; raw_entry 0x20000 1 PE_PRESENT].
Definition two_file : list Z := replicate 4096 7 ++ replicate 4096 9.
Definition two_contents (a : Z) : list Z := replicate 4096 (if a =? 0x10000 then 7 else 9).
Definition root_vma : rst_vma := RstVma (private_vma 0x10000 0x12000) CowRoot [] 0 false.
Definition left_vma : rst_vma := RstVma (private_vma 0x20000 0x22000) CowNone [] 0 false.
Definition two_start : premap_state := PremapState (fun _ => []) (fun _ => replicate 4096 0) [].
Definition no_fd (e : vma_area) : Z := -1.
Definition two_mapped : list rst_vma := [RstVma (add_status VMA_PREMMAPED (private_vma 0x10000 0x12000)) CowRoot [true; false] 0x40000 false; left_vma].
Definition two_jobs : list page_read_iov := [PageReadIov 4096 8192 [Iovec 0x20000 4096] 1 VMA_IO_UNCOMPRESSED (PageBlockLayout [] 0 0 0) 1 []].

Lemma two_fresh lz4 : Forall2 (fresh_queue lz4) [two_file] [pair_reader two_es].
Proof.
  assert (H1 : pagemaps_ok two_es) by (unfold pagemaps_ok; cbn; unfold entry_ok, entry_stop, entry_end; cbn; split_and!; done).
  constructor; [|constructor]. split; try done. cbn [pmes pair_reader]. repeat (apply Forall_cons_2; [unfold entry_typed; cbn; split_and!; (done || lia)|]); apply Forall_nil_2.
Qed.

Lemma two_pages lz4 a : a ∈ wanted false two_es -> page_content lz4 [(two_es, two_file)] a (two_contents a).
Proof.
  intros Ha. cbn in Ha. apply elem_of_cons in Ha as [->|Ha]; [|apply elem_of_cons in Ha as [->|Ha]; [|by apply elem_of_nil in Ha]].
  - apply (content_here lz4 two_es _ [] 0 (raw_entry 0x10000 1 PE_PRESENT) 0); [done|cbn; lia|done|done|by vm_compute].
  - apply (content_here lz4 two_es _ [] 1 (raw_entry 0x20000 1 PE_PRESENT) 0); [done|cbn; lia|done|done|by vm_compute].
Qed.

(** What holds of both areas and in order holds of the list. *)
Lemma two_each (P : nat -> rst_vma -> Prop) n v : P 0%nat root_vma -> P 1%nat left_vma -> [root_vma; left_vma] !! n = Some v -> P n v.
Proof. intros H0 H1. destruct n as [|[|n]]; intros [= <-]; done. Qed.
Lemma two_ordered (P : rst_vma -> rst_vma -> Prop) n n' v v' : P root_vma left_vma -> (n < n')%nat -> [root_vma; left_vma] !! n = Some v -> [root_vma; left_vma] !! n' = Some v' -> P v v'.
Proof. intros H0 Hlt. destruct n as [|[|n]], n' as [|[|n']]; try lia; intros [= <-] [= <-]; done. Qed.

Lemma two_task lz4 : task_ok 0x100000 true zero_page false 0x200000 two_es [root_vma; left_vma] [] (pm_mem two_start) (pm_back two_start) 0x40000
  (fun a => page_content lz4 (images [two_file] [pair_reader two_es]) a (two_contents a)).
Proof.
  assert (Hin : forall (P : pagemap_entry -> Prop), P (raw_entry 0x10000 1 PE_PRESENT) -> P (raw_entry 0x20000 1 PE_PRESENT) -> forall pe, pe ∈ two_es -> P pe).
  { intros P P1 P2 pe Hpe. apply elem_of_cons in Hpe as [->|Hpe]; [exact P1|]. apply elem_of_cons in Hpe as [->|Hpe]; [exact P2|]. by apply elem_of_nil in Hpe. }
  assert (Hsum : zsum (needed 0x100000 true <$> [root_vma; left_vma]) = 0x4000) by (vm_compute; reflexivity).
  assert (Hfa : forall v, v = root_vma \/ v = left_vma -> fresh_area true [] 0x40000 (0x40000 + 0x4000) v).
  { intros v [->| ->]; (split; [split; [cbn; unfold PAGE_SIZE; lia|split; reflexivity]|split; reflexivity|intros j; discriminate|intros a (pa & E & _); discriminate]). }
  split; rewrite ?Hsum.
  - exact (fq_pmes _ _ _ (proj1 (Forall2_cons_1 _ _ _ _ _ (two_fresh lz4)))).
  - discriminate.
  - exact (fq_typed _ _ _ (proj1 (Forall2_cons_1 _ _ _ _ _ (two_fresh lz4)))).
  - refine (Hin _ _ _); intros _; left; reflexivity.
  - refine (Hin _ _ _); cbn; lia.
  - intros a Ha. apply (two_pages lz4). exact Ha.
  - split_and!; (reflexivity || lia).
  - apply Forall_cons_2; [apply Hfa; by left|]. apply Forall_cons_2; [apply Hfa; by right|apply Forall_nil_2].
  - intros n v. apply (two_each (fun _ v => nr_pages v < 2 ^ 31)); vm_compute; reflexivity.
  - intros n v. apply (two_each (fun _ v => rv_is v VMA_AREA_GUARD = true -> vma_entry_is_private 0x100000 (rv_e v) = false)); intros H; vm_compute in H; discriminate.
  - intros n n' v v' Hlt Hn Hn' _. apply (two_ordered (fun v v' => rv_is v VMA_AREA_GUARD = false /\ rv_end v <= rv_start v') n n'); [split; [reflexivity|vm_compute; discriminate]|done..].
  - cbn. split_and!; try done; intros w a Hw; intros (pa & E & _); discriminate.
  - unfold COW_READ_BATCH_PAGES, PAGE_SIZE. split_and!; (reflexivity || lia).
  - intros n v j Hn Hj. exfalso. revert Hn Hj. apply (two_each (fun _ v => rv_pvma v = CowOf j -> False)); discriminate.
  - intros n n' v v' j Hn _ Hj. exfalso. revert Hn Hj. apply (two_each (fun _ v => rv_pvma v = CowOf j -> False)); discriminate.
  - intros n v pe b _ _ Hpe. revert pe Hpe. refine (Hin _ _ _); discriminate.
Qed.

Lemma two_layout : stage_layout 0x100000 true [root_vma; left_vma] 0x40000 0x2000 (fun _ => 0) no_fd 0x60000 0x2000.
Proof.
  split.
  - unfold regions_ok, range_ok, on_page, PAGE_SIZE. split_and!; try done; lia.
  - reflexivity.
  - intros n v Hn _ _. revert Hn. apply (two_each (fun _ v => goes no_fd v = true /\ rv_is v VMA_AREA_SYSVIPC = false)); split; reflexivity.
  - intros n v Hn _. revert Hn. apply (two_each (fun _ v => range_ok 0x100000 (rv_start v) (span_of (fun _ => 0) no_fd v))); unfold range_ok, on_page; split_and!; vm_compute; (reflexivity || discriminate).
  - intros n n' v v' Hlt Hn Hn' _ _. apply (two_ordered (fun v v' => rv_start v + span_of (fun _ => 0) no_fd v + slack true (rv_e v') <= rv_start v') n n'); [vm_compute; discriminate|done..].
  - intros n v Hn _. left. revert Hn. apply (two_each (fun _ v => rv_start v + span_of (fun _ => 0) no_fd v <= 0x60000)); vm_compute; discriminate.
  - intros n v Hn Hs. exfalso. revert Hn Hs. apply (two_each (fun _ v => rv_is v VMA_AREA_SHSTK = true -> False)); intros H; vm_compute in H; discriminate.
Qed.

Lemma two_fine : stage_fine 0x100000 (first_fit 0x100000) half_submit half_events short_preadv true true [] (Some 3) (Probe true true true None true)
  (prepare_vma no_fd <$> two_mapped) two_jobs 0x40000 0x2000 0x60000 0x2000 (KEnv [] []).
Proof.
  split.
  - split_and!; try done.
  - split; [apply first_fit_live|]. exists 0x80000, 0x10000. split; [unfold range_ok, on_page, PAGE_SIZE; split_and!; (done || lia)|]. split; [|lia].
    intros i v [Hi Hp]. destruct i as [|[|i]]; cbn in Hi; [|injection Hi as <-; discriminate|discriminate]. injection Hi as <-. vm_compute. split; [discriminate|right; discriminate].
  - split; [repeat constructor; discriminate|]. repeat constructor; vm_compute; discriminate.
  - split; [intros off n Hn; unfold short_preadv; lia|exact half_kernel_live].
Qed.

