(* ===== verification/MemDump.v ===== *)
(** Dumping the memory of a process (criu/mem.c): [generate_vma_iovs], which
    decides about a VMA, selects its pages and, when the page pipe is full,
    drains it into the images and goes on; and [__parasite_dump_pages_seized],
    which does so for all the VMAs.

    Components met here: the attributes cache and the selection of pages
    (PageSelect), the page pipe (PagePipe, PipeDrain), the images (PageXfer)
    and the table of shared segments (Shmem).  The images are opened elsewhere:
    [opened] is what [open_page_xfer] left, [parent_check] the answer of
    [check_parent_page_xfer]. *)
From stdpp Require Import sorting.
From S2P Require Import Prelude PagemapImage PageRead AsyncQueue ReadPages ChainRead ParentWalk PagePipe Compress PageXfer PipeDrain PageSelect VmaList Shmem.

Definition PROT_READ : Z := 1.
Definition MAP_DROPPABLE : Z := 0x08.
Definition PRE_DUMP_SPLICE : Z := 1.
Definition PRE_DUMP_READ : Z := 2.
Definition USEC_PER_SEC : Z := 1000000.

(** [pidfd]: the answer of the pidfd store if there is one; [dump_uptime] of the
    parent's inventory; [tps] from sysconf(); the start time of the process, if
    it can be read. *)
Definition detect_pid_reuse (pidfd dump_uptime : option Z) (tps : Z) (start_time : option Z) : Z :=
  match pidfd with
  | Some ret => ret
  | None =>
      match dump_uptime with
      | None => -1
      | Some up =>
          if u64 tps =? ULONG_MAX then -1
          else match start_time with
               | None => -1
               | Some st => if st >=? up / (USEC_PER_SEC / tps) then 1 else 0
               end
      end
  end.

(** All that changes while the VMAs are walked; [m_off] is [args->off]. *)
Record mstate (X : Type) := MState {
  m_pp : page_pipe;
  m_x : X;
  m_pipes : list (list Z);
  m_off : Z;
  m_pmc : pmc_t;
  m_shmems : shmem_table;
  m_al : list bool;
  m_rd : list Z;
  m_e : xenv;
  m_d : denv
}.
Arguments MState {X}.
Arguments m_pp {X}. Arguments m_x {X}. Arguments m_pipes {X}. Arguments m_off {X}. Arguments m_pmc {X}. Arguments m_shmems {X}.
Arguments m_al {X}. Arguments m_rd {X}. Arguments m_e {X}. Arguments m_d {X}.

Definition set_transfer_lazy (b : bool) (x : page_xfer) : page_xfer :=
  PageXfer (xf_offset x) b (PageXfer.force_raw x) (pi_use_direct x) (pages_image_offset x) (xf_pmi x) (xf_pi x) (xf_parent x) (pending x).

(** What [struct mem_dump_ctl] says. *)
Record mem_dump_ctl := MemDumpCtl { mdc_pre_dump : bool; mdc_lazy : bool; mdc_parent_mode : option Z }.

Section MemDump.
Context (K : kernel) (o : mem_opts) (pre_dump_mode : Z) (getpipe : Z) (setpipe : Z -> Z) (thread_sp : list Z).
Context (cache_disabled tracking : bool) (mem : Z -> list Z) {X : Type} (T : transport X) (pid : Z).

(** [drain_pages], then [xfer_pages]: the pages of the pipe go into the images. *)
Definition drain_and_xfer (st : mstate X) : outcome (bool * mstate X) :=
  let! (ok, off, pipes, d) := drain_pages mem (m_d st) (m_pp st) (m_off st) (m_pipes st) in
  let st := MState (m_pp st) (m_x st) pipes off (m_pmc st) (m_shmems st) (m_al st) (m_rd st) (m_e st) d in
  if negb ok then Ret (false, st)
  else
    let! (ok, x, pipes, e) := page_xfer_dump_pages T (m_e st) (m_x st) (m_pipes st) (m_pp st) in
    Ret (ok, MState (m_pp st) x pipes (m_off st) (m_pmc st) (m_shmems st) (m_al st) (m_rd st) e (m_d st)).

(** From the label [again]. *)
Fixpoint generate_again (fuel : nat) (vma : vma_area) (has_parent : bool) (vaddr : Z) (st : mstate X) : outcome (Z * mstate X) :=
  let! (ret, pp, p, vaddr, c, al, rd) :=
    generate_iovs K o getpipe setpipe thread_sp vma has_parent (m_al st) (m_rd st) (m_pp st) (m_pmc st) vaddr in
  let st := MState pp (m_x st) (m_pipes st) (m_off st) p (m_shmems st) al rd (m_e st) (m_d st) in
  if negb (ret =? - EAGAIN) then Ret (ret, st)
  else if negb (chunk_mode pp) then Bug
  else
    let! (ok, st) := drain_and_xfer st in
    if negb ok then Ret (-1, st)
    else
      let! pp := page_pipe_reinit (o_lazy_pages o) getpipe setpipe (m_pp st) in
      let st := MState pp (m_x st) (m_pipes st) (m_off st) (m_pmc st) (m_shmems st) (m_al st) (m_rd st) (m_e st) (m_d st) in
      match fuel with O => NoFuel | S fuel => generate_again fuel vma has_parent vaddr st end.

Definition dumped_vma (pre_dump : bool) (vma : vma_area) : bool :=
  (vma_entry_is_private (task_size K) vma || vma_entry_is vma VMA_ANON_SHARED) && negb (vma_entry_is vma VMA_AREA_VVAR) &&
  negb (has (va_flags vma) MAP_DROPPABLE) &&
  negb (negb (has (va_prot vma) PROT_READ) && (pre_dump_mode =? PRE_DUMP_READ) && pre_dump) &&
  negb ((vma_entry_is vma VMA_AREA_AIORING || has (va_flags vma) MAP_HUGETLB) && pre_dump).

(** [has_parent] as far as the VMA goes. *)
Definition vma_has_parent (pre_dump : bool) (parent_predump_mode : Z) (vma : vma_area) (has_parent : bool) : bool :=
  let has_parent :=
    if negb (has (va_prot vma) PROT_READ) &&
       ((parent_predump_mode =? PRE_DUMP_READ) && (pre_dump_mode =? PRE_DUMP_SPLICE) || negb pre_dump) then false else has_parent in
  if vma_entry_is vma VMA_AREA_AIORING || has (va_flags vma) MAP_HUGETLB then false else has_parent.

(** [rest]: the VMAs behind [vma]. *)
Definition generate_vma_iovs (vma : vma_area) (rest : list vma_area) (st : mstate X) (has_parent pre_dump : bool) (parent_predump_mode : Z)
    : outcome (Z * mstate X) :=
  if negb (dumped_vma pre_dump vma) then Ret (0, st)
  else
    let has_parent := vma_has_parent pre_dump parent_predump_mode vma has_parent in
    let! (ok, p, rd) := pmc_get_map K cache_disabled (m_rd st) (m_pmc st) vma rest in
    let st := MState (m_pp st) (m_x st) (m_pipes st) (m_off st) p (m_shmems st) (m_al st) rd (m_e st) (m_d st) in
    if negb ok then Ret (-1, st)
    else if vma_entry_is vma VMA_ANON_SHARED then
      let! (ok, h, p, al, rd) := add_shmem_area K tracking (m_al st) (m_rd st) (m_shmems st) (m_pmc st) pid vma in
      Ret (if ok then 0 else -1, MState (m_pp st) (m_x st) (m_pipes st) (m_off st) p h al rd (m_e st) (m_d st))
    else generate_again (Z.to_nat (vma_area_len vma / PAGE_SIZE)) vma has_parent (va_start vma) st.

(** Step 1: the loop over the VMAs. *)
Fixpoint dump_vmas (vmas : list vma_area) (st : mstate X) (has_parent pre_dump : bool) (parent_predump_mode : Z) : outcome (Z * mstate X) :=
  match vmas with
  | [] => Ret (0, st)
  | vma :: vmas =>
      if vma_entry_is vma VMA_AREA_GUARD then dump_vmas vmas st has_parent pre_dump parent_predump_mode
      else
        let! (ret, st) := generate_vma_iovs vma vmas st has_parent pre_dump parent_predump_mode in
        if ret <? 0 then Ret (ret, st) else dump_vmas vmas st has_parent pre_dump parent_predump_mode
  end.

(** The answer: the exit code and, unless the page pipe could not be made, the
    last state and whether the page pipe is kept for later.  [reuse]: the answer
    of [detect_pid_reuse], asked when there is a parent; [reset]: that of
    [task_reset_dirty_track]. *)
Definition parasite_dump_pages (scan pagemap_disabled pagemap_opened : bool) (vml : vm_area_list) (mdc : mem_dump_ctl)
    (opened : option (X * bool)) (set_lazy : bool -> X -> X) (no_xfer : X) (parent_check reuse reset : Z)
    (al : list bool) (rd : list Z) (e : xenv) (d : denv) (h : shmem_table) : outcome (Z * option (mstate X * bool)) :=
  let pmc_size := Z.max (nr_priv_pages_longest vml) (nr_shared_pages_longest vml) in
  let '(ok, p, al) := pmc_init al scan pagemap_disabled pagemap_opened (u64 (pmc_size * PAGE_SIZE)) in
  if negb ok then Ret (-1, None)
  else
    let keep := mdc_pre_dump mdc || mdc_lazy mdc in
    let given := if mdc_lazy mdc then None else Some (replicate (Z.to_nat (nr_priv_pages vml)) (Iovec 0 0)) in
    let! (pp, al) := create_page_pipe (o_lazy_pages o) getpipe setpipe al (u32 (nr_priv_pages vml)) given (if keep then 0 else PP_CHUNK_MODE) in
    match pp with
    | None => Ret (-1, None)
    | Some pp =>
        let xfer :=
          if negb (mdc_pre_dump mdc) then match opened with None => None | Some (x, parent) => Some (set_lazy (negb (mdc_lazy mdc)) x, parent) end
          else if parent_check <? 0 then None else Some (no_xfer, negb (parent_check =? 0)) in
        match xfer with
        | None => Ret (-1, None)
        | Some (x, parent) =>
            let st := MState pp x [] 0 p h al rd e d in
            if parent && (reuse =? -1) then Ret (-1, Some (st, keep && negb (mdc_pre_dump mdc)))
            else
              let has_parent := parent && (reuse =? 0) in
              let! (ret, st) := dump_vmas (vml_h vml) st has_parent (mdc_pre_dump mdc) (default (-1) (mdc_parent_mode mdc)) in
              if ret <? 0 then Ret (-1, Some (st, false))
              else
                let! (ok, st) :=
                  if mdc_pre_dump mdc && (pre_dump_mode =? PRE_DUMP_READ) then Ret (true, st)
                  else if mdc_pre_dump mdc then
                    let! (ok, off, pipes, d) := drain_pages mem (m_d st) (m_pp st) (m_off st) (m_pipes st) in
                    Ret (ok, MState (m_pp st) (m_x st) pipes off (m_pmc st) (m_shmems st) (m_al st) (m_rd st) (m_e st) d)
                  else drain_and_xfer st in
                if negb ok || negb (reset =? 0) then Ret (-1, Some (st, false))
                else Ret (0, Some (st, keep))
        end
    end.
End MemDump.

(** ** Pages put into a page pipe in chunk mode *)
Section Put.
Context (o : mem_opts) (getpipe : Z) (setpipe : Z -> Z) (thread_sp : list Z) (vma : vma_area) (has_parent : bool).
Context (Hget : getpipe < 0 \/ PAGE_SIZE <= getpipe < 2 ^ 31) (Hset : forall n, setpipe n < 0 \/ n <= setpipe n < 2 ^ 31).
Abbreviation put_one := (put_page o getpipe setpipe thread_sp vma has_parent).
Abbreviation put_all := (put_pages o getpipe setpipe thread_sp vma has_parent).
Abbreviation pages_put := (pages_put o thread_sp vma has_parent).

Lemma chunk_ok_holes off n f h fl pp : chunk_ok off pp -> chunk_ok off (set_holes n f h fl pp).
Proof. by intros [C1 C2 C3 C4]. Qed.
Lemma chunk_ok_break off b pp : chunk_ok off pp -> chunk_ok off (set_break_iov b pp).
Proof. by intros [C1 C2 C3 C4]. Qed.

Lemma put_page_step d off al pp a c : chunk_pipe off pp -> page_addr a -> free_iov pp < nr_iovs pp ->
  exists ret st pp' al', put_one al pp a (d a) = Ret (ret, st, pp', al') /\ chunk_ok off pp' /\ nr_iovs pp' = nr_iovs pp /\
    (ret = 0 /\ pages_put d [a] pp pp' c (count_page st c) /\ free_iov pp' <= free_iov pp + 1 \/
     ret < 0 /\ pages_put d [] pp pp' c c /\ free_iov pp' <= free_iov pp) /\
    (ret = - EAGAIN -> nr_pipes pp' = NR_PIPES_PER_CHUNK /\ free_bufs pp = []) /\ (al = [] -> 0 <= getpipe -> (ret = 0 \/ ret = - EAGAIN) /\ al' = []).
Proof.
  intros (Hok & Hho & Hc) Ha Hroom. destruct (put_page_ok o getpipe setpipe thread_sp vma has_parent Hget Hset d al pp a c Hok Hho Ha Hroom) as (ret & st & pp' & al' & E & Hcase).
  exists ret, st, pp', al'. split; [done|]. unfold put_page in E. destruct (has_parent && _ && _).
  - destruct (page_pipe_add_hole al pp a PP_HOLE_PARENT) as [[r pp1] al1] eqn:Eh. injection E as <- <- <- <-.
    destruct (add_hole_frame _ _ _ _ _ _ _ Eh) as (n & f & h & fl & ->). split; [by apply chunk_ok_holes|]. split; [done|]. cbn [free_iov set_holes].
    assert (Hr : r = 0 \/ r = -1) by (pose proof (page_pipe_add_hole_spec al pp a PP_HOLE_PARENT Hho Ha) as H; rewrite Eh in H; destruct H as (_ & _ & [[-> _]|(-> & _)]); auto).
    split; [destruct Hcase as [(-> & P & _)|(Hn & P)]; [left|right]; split_and!; try done; lia|]. split; [unfold EAGAIN; lia|].
    intros -> _. unfold page_pipe_add_hole in Eh. cbn in Eh. destruct (_ >=? _); injection Eh as <- _ <-; auto.
  - destruct (page_pipe_add_page (o_lazy_pages o) getpipe setpipe al pp a _) as [[[r pp1] al1]| |] eqn:Ep; [|done|done]. cbn [obind] in E. injection E as <- <- <- <-.
    destruct (page_pipe_add_page_chunk (o_lazy_pages o) getpipe setpipe Hget Hset off al pp a _ r pp1 al1 Hok Ha Hroom Hc Ep) as (C1 & C2 & C3 & C4 & C5).
    destruct (page_pipe_add_page_ok (o_lazy_pages o) getpipe setpipe Hget Hset al pp a (page_flags o thread_sp vma a) Hok Ha Hroom) as (r' & pp1' & al1' & Ep' & _ & N1 & Hc').
    rewrite Ep in Ep'. injection Ep' as <- <- <-. split; [done|]. split; [done|]. split; [|split; [|done]].
    + destruct Hcase as [(-> & P & _ & F)|(Hn & P)]; [by left|right]. split; [done|]. split; [done|]. rewrite (C4 Hn). lia.
    + intros Hr. split; [by apply C2|]. destruct (free_bufs pp) as [|b l] eqn:Ef; [done|]. specialize (C3 ltac:(done)). unfold EAGAIN in Hr. lia.
Qed.

Lemma put_pages_step d off l : forall al pp c, chunk_pipe off pp -> Forall page_addr l -> free_iov pp + zlen l <= nr_iovs pp ->
  exists ret stop pp' c' al' k, put_all d al pp c l = Ret (ret, stop, pp', c', al') /\ pages_put d (take k l) pp pp' c c' /\
    chunk_pipe off pp' /\ nr_iovs pp' = nr_iovs pp /\ free_iov pp' <= free_iov pp + Z.of_nat k /\ (k <= length l)%nat /\
    (ret = 0 /\ stop = None /\ k = length l \/
     ret < 0 /\ exists a, stop = Some a /\ l !! k = Some a /\ (ret = - EAGAIN -> nr_pipes pp' = NR_PIPES_PER_CHUNK /\ (free_bufs pp <> [] -> (0 < k)%nat))) /\
    (al = [] -> 0 <= getpipe -> (ret = 0 \/ ret = - EAGAIN) /\ al' = []).
Proof.
  induction l as [|a l IH]; intros al pp c Hp Hl Hroom; cbn [put_pages].
  { destruct Hp as (H1 & H2 & H3). eexists _, _, _, _, _, 0%nat. split; [done|]. split; [by apply pages_put_nil|]. split; [done|]. split; [done|]. split; [lia|]. split; [done|].
    split; [by left|auto]. }
  apply Forall_cons_1 in Hl as [Ha Hl]. pose proof (zlen_nonneg l). assert (zlen (a :: l) = zlen l + 1) by (unfold zlen; cbn [length]; lia).
  destruct (put_page_step d off al pp a c Hp Ha ltac:(lia)) as (ret & st & pp1 & al1 & -> & C1 & N1 & Hcase & He & Hcalm). cbn [obind].
  destruct Hcase as [(-> & Hput & F1)|(Hneg & Hput & F1)].
  - cbn [Z.eqb negb]. destruct (pu_ok _ _ _ _ _ _ _ _ _ _ Hput) as [Hok1 Hho1].
    destruct (IH al1 pp1 (count_page st c) ltac:(by split_and!) Hl ltac:(lia)) as (ret & stop & pp' & c' & al' & k & -> & I1 & I2 & I3 & I4 & I5 & I6 & I7).
    exists ret, stop, pp', c', al', (S k). split; [done|]. split; [by apply (pages_put_app o thread_sp vma has_parent d [a] (take k l) pp pp1 pp' c (count_page st c) c')|].
    split; [done|]. split; [lia|]. split; [lia|]. split; [cbn; lia|]. split; [|intros A1 A2; apply I7; [|done]; by destruct (Hcalm A1 A2)].
    destruct I6 as [(-> & -> & ->)|(Hn & b & -> & Hb & Hx)]; [by left|right]. split; [done|]. exists b. split; [done|]. split; [done|]. intros Hr. split; [by apply Hx|lia].
  - destruct (Z.eqb_spec ret 0); [lia|]. cbn [negb]. destruct (pu_ok _ _ _ _ _ _ _ _ _ _ Hput) as [Hok1 Hho1]. eexists _, _, _, _, _, 0%nat. split; [done|]. split; [exact Hput|].
    split; [by split_and!|]. split; [done|]. split; [lia|]. split; [lia|]. split; [|done]. right. split; [done|]. exists a. split; [done|]. split; [done|].
    intros Hr. destruct (He Hr) as [A1 A2]. split; [done|]. intros Hf. by rewrite A2 in Hf.
Qed.
End Put.

(** ** The memory of a process in the images *)
Section DumpOk.
Context (K : kernel) (cats : Z -> Z) (Hscan : scan_ok K cats).
Context (o : mem_opts) (pre_dump_mode : Z) (getpipe : Z) (setpipe : Z -> Z) (thread_sp : list Z) (cache_disabled : bool).
Context (Hget : getpipe < 0 \/ PAGE_SIZE <= getpipe < 2 ^ 31) (Hset : forall n, setpipe n < 0 \/ n <= setpipe n < 2 ^ 31).
Context (mem : Z -> list Z) (Hmem : forall a, zlen (mem a) = PAGE_SIZE).
Context (lz4c : list Z -> Z -> Z -> option (list Z)) (lz4 : list Z -> Z -> option (list Z)) (Hlz : lz4_contract lz4c lz4).
Context (auto : bool) (cbs acc : Z) (compress : bool) (Hcbs : cbs = 0 \/ PAGE_SIZE <= cbs < (MAX_BLOCK_PAGES + 1) * PAGE_SIZE).
Context (ls : list (list pagemap_entry)) (pid : Z).
Abbreviation T := (loc_transport lz4c auto cbs acc compress).
Abbreviation state := (mstate page_xfer).

Abbreviation image_ok := (image_ok mem lz4 ls 0).

(** The pages [S] are in the images or in the page pipe, the pages [H] are left
    to the parent or are holes in the page pipe, all below [v]. *)
Record dump_inv (st : state) (S H : list Z) (v N : Z) : Prop := DumpInv {
  di_pipe : pipe_inv mem lz4 ls 0 (m_pp st) (m_x st) (m_pipes st) (m_off st) S H v N;
  di_table : table_ok (m_shmems st)
}.

(** No call fails from here on. *)
Definition calm_state (st : state) : Prop := m_al st = [] /\ m_rd st = [] /\ xenv_ok (m_e st) /\ denv_ok (m_d st).

(** Draining and writing. *)
Lemma drain_and_xfer_inv st S H v N : dump_inv st S H v N -> 2 * PAGE_SIZE * zlen S <= OFF_MAX ->
  exists ok st', drain_and_xfer mem T st = Ret (ok, st') /\
    (m_pp st' = m_pp st /\ m_pmc st' = m_pmc st /\ m_shmems st' = m_shmems st /\ m_al st' = m_al st /\ m_rd st' = m_rd st) /\
    (ok = true -> m_off st' = free_iov (m_pp st) /\ (forall p, pipe_get (m_pipes st') p = []) /\ image_ok (m_x st') S H v) /\
    (calm_state st -> holes_backed ls 0 H -> ok = true /\ calm_state st').
Proof.
  intros [Hinv _] Hsz. unfold drain_and_xfer. pose proof Hinv as [((P1 & P2 & P3) & P4 & P5) _ _ Hem _].
  destruct (drain_pages_ok mem Hmem (m_d st) (m_pp st) (m_off st) (m_pipes st) P1 P3 P4) as (ok1 & woff & pipes1 & d1 & -> & D1 & D2). cbn [obind]. destruct ok1; cbn [negb].
  2:{ eexists _, _. split; [done|]. split; [done|]. split; [done|]. intros (_ & _ & _ & C) _. by destruct (D2 C). }
  destruct (D1 eq_refl) as [-> Hp1]. cbn [m_e m_x m_pipes m_pp].
  destruct (pipe_inv_flush mem Hmem lz4c lz4 Hlz auto cbs acc compress Hcbs ls 0 _ _ _ _ S H v N pipes1 (m_e st) Hinv Hsz) as (ok2 & x' & pipes2 & e' & -> & F1 & F2); [intros p; by rewrite Hp1, Hem|].
  cbn [obind]. eexists _, _. split; [done|]. split; [done|]. cbn [m_off m_pipes m_x m_e m_d m_al m_rd]. split.
  - intros Hok. by destruct (F1 Hok).
  - intros (C1 & C2 & C3 & C4) Hba. destruct (F2 C3 Hba) as [-> Hxe]. split; [done|]. unfold calm_state. cbn. by destruct (D2 C4).
Qed.

(** Emptied, the page pipe has no page. *)
Lemma reinit_inv st S H v N woff : chunk_pipe woff (m_pp st) -> m_off st = free_iov (m_pp st) -> free_iov (m_pp st) <= zlen S + zlen H -> nr_iovs (m_pp st) = N -> table_ok (m_shmems st) ->
  nr_pipes (m_pp st) = NR_PIPES_PER_CHUNK -> image_ok (m_x st) S H v -> (forall p, pipe_get (m_pipes st) p = []) ->
  exists pp', page_pipe_reinit (o_lazy_pages o) getpipe setpipe (m_pp st) = Ret pp' /\ free_bufs pp' <> [] /\
    dump_inv (MState pp' (m_x st) (m_pipes st) (m_off st) (m_pmc st) (m_shmems st) (m_al st) (m_rd st) (m_e st) (m_d st)) S H v N.
Proof.
  intros Hcp Eoff Hf Hn Ht H8 Him Hem. destruct (chunk_reinit (o_lazy_pages o) getpipe setpipe Hget Hset woff (m_pp st) Hcp H8) as (pp' & E & R0 & R1 & R2 & R3 & R4 & R5).
  exists pp'. split; [done|]. split; [done|]. split; [|done]. cbn [m_pp m_x m_pipes m_off]. rewrite Eoff. apply pipe_inv_empty; try done; [|by rewrite R4|by rewrite R5].
  destruct Hcp as (Hok & _). destruct (po_iovs _ (po_pre _ Hok)). lia.
Qed.

(** *** One VMA *)

(** The pages of [vma] selected from [v] on, those stored and those left to the
    parent. *)
Definition chosen (scan : bool) (vma : vma_area) (v : Z) : list Z := filter (fun a => selected K cats vma scan a = true) (pages_in_range v (va_end vma)).
Definition kept (scan has_parent : bool) (vma : vma_area) (l : list Z) : list Z := filter (fun a => to_parent o vma has_parent (changed K cats vma scan) a = false) l.
Definition inherited (scan has_parent : bool) (vma : vma_area) (l : list Z) : list Z := filter (fun a => to_parent o vma has_parent (changed K cats vma scan) a = true) l.

Lemma strictly_filter (P : Z -> Prop) `{forall a, Decision (P a)} (l : list Z) : StronglySorted Z.lt l -> StronglySorted Z.lt (filter P l).
Proof.
  induction 1 as [|a l Hs IH Hf]; [constructor|]. destruct (decide (P a)) as [Hp|Hp]; [rewrite filter_cons_True by done|by rewrite filter_cons_False].
  constructor; [done|]. rewrite Forall_forall in *. intros b Hb. apply list_elem_of_filter in Hb as [_ Hb]. by apply Hf.
Qed.

Lemma pages_range_sorted v e : v mod PAGE_SIZE = 0 -> e mod PAGE_SIZE = 0 -> StronglySorted Z.lt (pages_in_range v e).
Proof.
  intros Hv He. assert (Hn : exists n, e - v <= Z.of_nat n * PAGE_SIZE) by (exists (Z.to_nat (e - v)); unfold PAGE_SIZE; lia). destruct Hn as [n Hn].
  revert v Hv Hn. induction n as [|n IH]; intros v Hv Hn; [rewrite pages_range_nil by lia; constructor|].
  destruct (Z.lt_ge_cases v e) as [Hlt|]; [|rewrite pages_range_nil by lia; constructor]. rewrite pages_range_cons by done. destruct (next_page v Hv) as [Hnx _].
  constructor; [apply IH; [done|unfold PAGE_SIZE in *; lia]|]. apply Forall_forall. intros a Ha. destruct (elem_pages_range a _ _ Hnx He Ha). unfold PAGE_SIZE in *. lia.
Qed.

Lemma chosen_facts scan vma v : vma_ok vma -> 0 < va_start vma <= v -> v mod PAGE_SIZE = 0 ->
  StronglySorted Z.lt (chosen scan vma v) /\ Forall (fun a => v <= a /\ a + PAGE_SIZE <= va_end vma /\ 0 < a /\ a mod PAGE_SIZE = 0) (chosen scan vma v) /\ Forall page_addr (chosen scan vma v).
Proof.
  intros [[V1 V2] [V3 V4]] Hv Ha.
  assert (Hin : forall a, a ∈ chosen scan vma v -> v <= a /\ a + PAGE_SIZE <= va_end vma /\ 0 < a /\ a mod PAGE_SIZE = 0).
  { intros a Hin. apply list_elem_of_filter in Hin as [_ Hin]. destruct (elem_pages_range a v (va_end vma) Ha V4 Hin) as [R1 R2]. split; [lia|]. split; [|lia].
    unfold PAGE_SIZE in *. pose proof (Z.div_mod a 4096 ltac:(lia)). pose proof (Z.div_mod (va_end vma) 4096 ltac:(lia)). lia. }
  split; [by apply strictly_filter, pages_range_sorted|]. split; apply Forall_forall; intros a Hia; destruct (Hin a Hia) as (A1 & A2 & A3 & A4); [done|].
  unfold page_addr. unfold PAGE_SIZE in *. split; [lia|]. split; [done|lia].
Qed.

Lemma kept_inherited scan has_parent vma l : zlen (kept scan has_parent vma l) + zlen (inherited scan has_parent vma l) = zlen l.
Proof.
  unfold kept, inherited. induction l as [|a l IH]; [done|]. destruct (to_parent o vma has_parent (changed K cats vma scan) a) eqn:E.
  - rewrite (filter_cons_False (fun a => to_parent _ _ _ _ a = false)) by congruence. rewrite filter_cons_True by done. unfold zlen in *. cbn [length]. lia.
  - rewrite (filter_cons_True (fun a => to_parent _ _ _ _ a = false)) by done. rewrite filter_cons_False by congruence. unfold zlen in *. cbn [length]. lia.
Qed.

(** More pages in the pipe. *)
Lemma put_inv st S H v N vma has_parent scan l pp' p' al' rd' e c c' : dump_inv st S H v N -> let d := changed K cats vma scan in
  pages_put o thread_sp vma has_parent d l (m_pp st) pp' c c' -> chunk_pipe (m_off st) pp' -> StronglySorted Z.lt l ->
  Forall (fun a => v <= a /\ a + PAGE_SIZE <= e /\ 0 < a /\ a mod PAGE_SIZE = 0) l -> v <= e -> nr_iovs pp' = nr_iovs (m_pp st) -> free_iov pp' <= free_iov (m_pp st) + zlen l ->
  dump_inv (MState pp' (m_x st) (m_pipes st) (m_off st) p' (m_shmems st) al' rd' (m_e st) (m_d st))
    (S ++ kept scan has_parent vma l) (H ++ inherited scan has_parent vma l) e N.
Proof.
  intros [Hinv Ht] d [U1 U2 U3 _] Hcp Hs Hl Hve Hn Hf. split; [|done]. cbn [m_pp m_x m_pipes m_off]. rewrite Forall_forall in Hl.
  pose proof (kept_inherited scan has_parent vma l) as Hki. apply (pipe_inv_add mem lz4 ls 0 (m_pp st)  pp' _ _ _ S H v N); try done; try lia.
  - unfold stored_addrs. rewrite U2, fmap_app. f_equal. unfold stored_pages. rewrite <- list_fmap_compose. unfold kept. exact (list_fmap_id (filter _ l)).
  - unfold hole_addrs. rewrite U3, fmap_app. f_equal. unfold parent_pages. rewrite <- list_fmap_compose. unfold inherited. exact (list_fmap_id (filter _ l)).
  - rewrite U3. apply Forall_app. split; [|unfold parent_pages; apply Forall_fmap, Forall_forall; done]. destruct Hinv as [_ (S0 & H0 & cur & _ & _ & _ & _ & Hfl & _) _ _ _]. apply Hfl.
  - by apply strictly_filter.
  - by apply strictly_filter.
  - intros a Ha Hb. apply list_elem_of_filter in Ha as [Ha _], Hb as [Hb _]. congruence.
  - apply Forall_app. split; apply Forall_forall; intros a Ha; apply list_elem_of_filter in Ha as [_ Ha]; destruct (Hl a Ha) as (? & ? & ? & _); done.
Qed.

Lemma dump_inv_break st S H v N b : dump_inv st S H v N ->
  dump_inv (MState (if b : bool then set_break_iov true (m_pp st) else m_pp st) (m_x st) (m_pipes st) (m_off st) (m_pmc st) (m_shmems st) (m_al st) (m_rd st) (m_e st) (m_d st)) S H v N.
Proof.
  destruct b; [|by intros [? ?]]. intros [[((P1 & P2 & P3) & P4) (S0 & H0 & cur & E1 & E2 & I1 & I2 & [F1 F2 F3 F4 F5] & I3) D3 D4 D5] Ht]. split; [|done].
  split; cbn [m_pp m_x m_pipes m_off m_shmems]; try done; [|exists S0, H0, cur; split_and!; try done; by split]. split; [|done]. split; [by apply pp_ok_break|]. split; [by destruct P2|by apply chunk_ok_break].
Qed.

(** The pages before the [k]th are below it. *)
Lemma sorted_take l : StronglySorted Z.lt l -> Forall (fun a => a mod PAGE_SIZE = 0) l -> forall k a, l !! k = Some a -> Forall (fun b => b + PAGE_SIZE <= a) (take k l).
Proof.
  induction 1 as [|b l Hs IH Hf]; intros Hm k a Hk; [by destruct k|]. apply Forall_cons_1 in Hm as [Hb Hm]. destruct k as [|k]; [constructor|]. cbn [take]. cbn in Hk.
  constructor; [|by apply IH]. rewrite Forall_forall in Hf, Hm. pose proof (list_elem_of_lookup_2 _ _ _ Hk) as Hin. specialize (Hf a Hin). specialize (Hm a Hin). cbv beta in *.
  unfold PAGE_SIZE in *. pose proof (Z.div_mod a 4096 ltac:(lia)). pose proof (Z.div_mod b 4096 ltac:(lia)). lia.
Qed.

Abbreviation again := (generate_again K o getpipe setpipe thread_sp mem T).

(** What a call leaves that stored or left to the parent the pages [l] of
    [vma]. *)
Definition vma_dumped (st st' : state) (scan has_parent : bool) (vma : vma_area) (l S H : list Z) (N ret : Z) : Prop :=
  (0 <= ret -> ret = 0 /\ dump_inv st' (S ++ kept scan has_parent vma l) (H ++ inherited scan has_parent vma l) (va_end vma) N /\
     pmc_at K cats (m_pmc st') (va_end vma) /\ same_cache (m_pmc st) (m_pmc st')) /\
  (calm_kernel K -> calm_state st -> 0 <= getpipe -> holes_backed ls 0 (H ++ inherited scan has_parent vma l) -> ret = 0 /\ calm_state st').

Lemma kept_app scan has_parent vma l1 l2 : kept scan has_parent vma (l1 ++ l2) = kept scan has_parent vma l1 ++ kept scan has_parent vma l2.
Proof. apply filter_app. Qed.
Lemma inherited_app scan has_parent vma l1 l2 : inherited scan has_parent vma (l1 ++ l2) = inherited scan has_parent vma l1 ++ inherited scan has_parent vma l2.
Proof. apply filter_app. Qed.
Lemma holes_backed_app l1 l2 : holes_backed ls 0 (l1 ++ l2) -> holes_backed ls 0 l1.
Proof. intros Hb p Hp. specialize (Hb p Hp). by apply Forall_app in Hb as [? _]. Qed.

(** One round: all pages are taken, or the page pipe is full at [a] and the next
    round starts there with an emptied pipe. *)
Lemma generate_round vma has_parent N v st S H : vma_ok vma -> 0 < va_start vma -> 2 * PAGE_SIZE * N <= OFF_MAX ->
  dump_inv st S H v N -> pmc_at K cats (m_pmc st) v -> vma_fits vma (m_pmc st) -> va_start vma <= v <= va_end vma -> v mod PAGE_SIZE = 0 ->
  let scan := pmc_scan (m_pmc st) in let l := chosen scan vma v in zlen S + zlen H + zlen l <= N ->
  exists ret st1, (vma_dumped st st1 scan has_parent vma l S H N ret /\ forall fuel, again fuel vma has_parent v st = Ret (ret, st1)) \/
    exists k a, l !! k = Some a /\ chosen scan vma a = drop k l /\ (free_bufs (m_pp st) <> [] -> (0 < k)%nat) /\ free_bufs (m_pp st1) <> [] /\
      dump_inv st1 (S ++ kept scan has_parent vma (take k l)) (H ++ inherited scan has_parent vma (take k l)) a N /\
      pmc_at K cats (m_pmc st1) a /\ same_cache (m_pmc st) (m_pmc st1) /\
      (calm_kernel K -> calm_state st -> 0 <= getpipe -> holes_backed ls 0 (H ++ inherited scan has_parent vma (take k l)) -> calm_state st1) /\
      (forall fuel, again fuel vma has_parent v st = match fuel with O => NoFuel | Datatypes.S fuel => again fuel vma has_parent a st1 end).
Proof.
  intros Hv Hv0 HN Hinv Hp Hfit Hr Ha scan l Hbud. pose proof Hv as [[V1 V2] [V3 V4]].
  destruct (chosen_facts scan vma v Hv ltac:(lia) Ha) as (C1 & C2 & C3). fold l in C1, C2, C3.
  pose proof (kept_inherited scan has_parent vma l) as Hki.
  destruct (generate_iovs_ref K cats Hscan o getpipe setpipe thread_sp vma has_parent (m_al st) (m_rd st) (m_pp st) (m_pmc st) v Hv Hfit Hp Hr Ha)
    as [[G1 (pp' & p' & al' & rd' & EG)]|G].
  { eexists (-1), _. left. split; [|intros fuel; destruct fuel; cbn [generate_again]; by rewrite EG]. split; [lia|]. intros Q1 (_ & Q2 & _). by destruct G1. }
  set (b := (o_compress_mode o =? COMPRESS_BLOCK) && (v =? va_start vma)) in *. fold scan in G. fold (chosen scan vma v) in G. fold l in G.
  pose proof (dump_inv_break st S H v N b Hinv) as Hb. pose proof Hb as [[(Hcp & _) _ _ _ (R1 & R2)] _]. cbn [m_pp m_off] in Hcp, R1, R2.
  set (pp0 := if b then _ else _) in *.
  destruct (put_pages_step o getpipe setpipe thread_sp vma has_parent Hget Hset (changed K cats vma scan) (m_off st) l (m_al st) pp0 (PageCounts 0 0 0 0) Hcp C3 ltac:(lia))
    as (ret & stop & pp' & c' & al' & k & EP & P1 & P2 & P3 & P4 & P5 & P6 & P7).
  rewrite EP in G. destruct G as (p' & v' & c2 & rd' & EG & _ & Hsc & Hrd & Hstop).
  destruct P6 as [(-> & -> & ->)|(Hneg & a & -> & Hk & Hea)].
  - rewrite firstn_all in P1. destruct Hstop as [_ Hpa]. eexists 0, _. left. split; [|intros fuel; destruct fuel; cbn [generate_again]; by rewrite EG]. split.
    + intros _. split; [done|]. split; [|done]. by eapply (put_inv _ S H v N vma has_parent scan l pp' p' al' rd' (va_end vma) _ _ Hb); try done; lia.
    + intros Q1 (Q2 & Q3 & Q4) Q5 _. split; [done|]. destruct (P7 Q2 Q5) as [_ ->]. unfold calm_state. cbn. split; [done|]. split; [by apply Hrd|done].
  - destruct Hstop as [-> Hpa]. destruct (Z.eq_dec ret (- EAGAIN)) as [->|Hne].
    2:{ eexists ret, _. left. split; [|intros fuel; destruct fuel; cbn [generate_again]; rewrite EG; cbn [obind]; by destruct (Z.eqb_spec ret (- EAGAIN))].
        split; [lia|]. intros Q1 (Q2 & Q3 & Q4) Q5 _. destruct (P7 Q2 Q5) as [[?|?] _]; lia. }
    destruct (Hea eq_refl) as [Hnp Hfb]. clear Hea Hneg.
    assert (Hal : Forall (fun a => a mod PAGE_SIZE = 0) l) by (eapply Forall_impl; [exact C2|]; cbn; tauto).
    assert (Hlk : v <= a /\ a mod PAGE_SIZE = 0).
    { rewrite Forall_forall in C2. by destruct (C2 a (list_elem_of_lookup_2 _ _ _ Hk)) as (? & _ & _ & ?). }
    assert (Hres : chosen scan vma a = drop k l).
    { unfold chosen, l. apply (chosen_resume (selected K cats vma scan) (va_end vma) a V4 (Z.to_nat (va_end vma - v)) v k); [done|unfold PAGE_SIZE; lia|done]. }
    assert (Hti : dump_inv (MState pp' (m_x st) (m_pipes st) (m_off st) p' (m_shmems st) al' rd' (m_e st) (m_d st))
      (S ++ kept scan has_parent vma (take k l)) (H ++ inherited scan has_parent vma (take k l)) a N).
    { eapply (put_inv _ S H v N vma has_parent scan (take k l) pp' p' al' rd' a _ _ Hb); [exact P1|done|..|tauto|by rewrite P3|].
      - rewrite <- (take_drop k l) in C1. by apply strictly_app in C1 as [? _].
      - pose proof (sorted_take l C1 Hal k a Hk) as Ht. rewrite Forall_forall in Ht. rewrite Forall_forall in C2. apply Forall_forall. intros c Hc. specialize (Ht c Hc).
        destruct (C2 c) as (? & _ & ? & ?); [rewrite <- (take_drop k l); apply elem_of_app; by left|]. done.
      - unfold zlen. rewrite length_take. cbn [m_pp]. lia. }
    set (st1 := MState pp' _ _ _ _ _ _ _ _ _) in *. set (S1 := S ++ kept _ _ _ _) in *. set (H1 := H ++ inherited _ _ _ _) in *.
    assert (Hz : zlen S1 <= N).
    { unfold S1. rewrite zlen_app. pose proof (kept_inherited scan has_parent vma (take k l)). pose proof (zlen_nonneg H). pose proof (zlen_nonneg (inherited scan has_parent vma (take k l))).
      assert (zlen (take k l) <= zlen l) by (unfold zlen; rewrite length_take; lia). lia. }
    destruct (drain_and_xfer_inv st1 S1 H1 a N Hti ltac:(unfold PAGE_SIZE in *; lia)) as (ok & st2 & EX & (X1 & X2 & X3 & X4 & X5) & X6 & X7).
    assert (Hcs : calm_state st -> 0 <= getpipe -> calm_kernel K -> calm_state st1).
    { intros (Q1 & Q2 & Q3) Q4 Q5. unfold calm_state. cbn. destruct (P7 Q1 Q4) as [_ ->]. split; [done|]. split; [by apply Hrd|done]. }
    assert (Hco : chunk_mode pp' = true) by apply P2. pose proof Hti as [[(Hcp1 & _) _ _ _ (T1 & T2)] T3]. cbn [m_pp m_off st1] in Hcp1, T1, T2, T3.
    destruct ok.
    2:{ eexists (-1), st2. left. split; [split; [lia|]|].
        - intros Q1 Q2 Q3 Q4. destruct X7 as [? _]; [by apply Hcs| |done]. unfold H1. rewrite <- (take_drop k l), inherited_app, app_assoc in Q4. by apply holes_backed_app in Q4.
        - intros fuel. destruct fuel; cbn [generate_again]; rewrite EG; cbn [obind]; rewrite Z.eqb_refl, Hco; cbn [negb]; fold st1; rewrite EX; done. }
    destruct (X6 eq_refl) as (Y1 & Y2 & Y3).
    destruct (reinit_inv st2 S1 H1 a N (m_off st)) as (pp3 & ER & Z1 & Z2); rewrite ?X1, ?X3; try done.
    eexists (- EAGAIN), _. right. exists k, a. split; [done|]. split; [done|]. split; [intros Hf; apply Hfb; unfold pp0; by destruct b|]. split; [|split; [exact Z2|]]; [done|].
    cbn [m_pmc]. split; [by rewrite X2|]. split; [by rewrite X2|]. split.
    + intros Q1 Q2 Q3 Q4. destruct X7 as [_ Q5]; [by apply Hcs|done|]. exact Q5.
    + intros fuel. destruct fuel; cbn [generate_again]; rewrite EG; cbn [obind]; rewrite Z.eqb_refl, Hco; cbn [negb]; fold st1; rewrite EX; cbn [obind negb]; by rewrite ER.
Qed.

Lemma generate_again_ok vma has_parent N : vma_ok vma -> 0 < va_start vma -> 2 * PAGE_SIZE * N <= OFF_MAX -> forall fuel v st S H,
  dump_inv st S H v N -> pmc_at K cats (m_pmc st) v -> vma_fits vma (m_pmc st) -> va_start vma <= v <= va_end vma -> v mod PAGE_SIZE = 0 ->
  let scan := pmc_scan (m_pmc st) in let l := chosen scan vma v in
  zlen S + zlen H + zlen l <= N -> (length l <= fuel \/ free_bufs (m_pp st) <> [] /\ length l <= Datatypes.S fuel)%nat ->
  exists ret st', again fuel vma has_parent v st = Ret (ret, st') /\ vma_dumped st st' scan has_parent vma l S H N ret.
Proof.
  intros Hv Hv0 HN. induction fuel as [|fuel IH]; intros v st S H Hinv Hp Hfit Hr Ha scan l Hbud Hfu.
  all: destruct (generate_round vma has_parent N v st S H Hv Hv0 HN Hinv Hp Hfit Hr Ha Hbud) as (ret & st1 & [[D E]|(k & a & Hk & Hres & Hk0 & Hf1 & I1 & I2 & I3 & I4 & E)]);
    [exists ret, st1; by split|].
  all: fold scan in Hk, Hres, I1, I4; fold l in Hk, Hres, I1, I4; pose proof (lookup_lt_Some _ _ _ Hk) as Hlt.
  { exfalso. destruct Hfu as [?|[Hf ?]]; [lia|]. specialize (Hk0 Hf). lia. }
  rewrite E. destruct (chosen_facts scan vma v Hv ltac:(lia) Ha) as (_ & C2 & _). fold l in C2. rewrite Forall_forall in C2.
  destruct (C2 a (list_elem_of_lookup_2 _ _ _ Hk)) as (A1 & A2 & _ & A3). destruct I3 as [S1 S2].
  pose proof (kept_inherited scan has_parent vma (take k l)) as Hki. assert (Hzl : zlen l = zlen (take k l) + zlen (drop k l)) by (rewrite <- zlen_app, take_drop; done).
  specialize (IH a st1 _ _ I1 I2). cbv zeta in IH. rewrite S1 in IH. fold scan in IH. rewrite Hres in IH.
  destruct IH as (ret' & st' & -> & D1 & D2); [unfold vma_fits in *; by rewrite S2|unfold PAGE_SIZE in *; lia|done|rewrite !zlen_app; lia| |].
  { right. split; [done|]. rewrite length_drop. destruct Hfu as [?|[Hf ?]]; [lia|]. specialize (Hk0 Hf). lia. }
  exists ret', st'. split; [done|]. rewrite <- !app_assoc, <- kept_app, <- inherited_app, take_drop in D1. rewrite <- app_assoc, <- inherited_app, take_drop in D2. split.
  - intros Hr0. destruct (D1 Hr0) as (B1 & B2 & B3 & [B4 B5]). split; [done|]. split; [done|]. split; [done|]. split; congruence.
  - intros Q1 Q2 Q3 Q4. apply D2; try done. apply I4; try done. rewrite <- (take_drop k l), inherited_app, app_assoc in Q4. by apply holes_backed_app in Q4.
Qed.

(** *** All VMAs of a dump that is neither a pre-dump nor lazy *)

(** The pages of a VMA that go into the images or are left to the parent. *)
Definition vma_pages (scan : bool) (vma : vma_area) : list Z :=
  if dumped_vma K pre_dump_mode false vma && negb (vma_entry_is vma VMA_ANON_SHARED) then chosen scan vma (va_start vma) else [].

Lemma dump_inv_mono st S H v v' N : dump_inv st S H v N -> v <= v' -> dump_inv st S H v' N.
Proof. intros [D1 D2] Hv. split; [by eapply pipe_inv_mono|done]. Qed.

Lemma dump_inv_frame st S H v N p h al rd : dump_inv st S H v N -> table_ok h ->
  dump_inv (MState (m_pp st) (m_x st) (m_pipes st) (m_off st) p h al rd (m_e st) (m_d st)) S H v N.
Proof. intros [D1 D2] Hh. by split. Qed.

Lemma chosen_length scan vma : vma_ok vma -> zlen (chosen scan vma (va_start vma)) <= vma_area_len vma / PAGE_SIZE.
Proof.
  intros Hv. destruct (vma_len vma Hv) as (E1 & E2 & E3). unfold chosen, zlen.
  pose proof (length_filter (fun a => selected K cats vma scan a = true) (pages_in_range (va_start vma) (va_end vma))) as Hl.
  unfold pages_in_range, iov_pages in Hl. rewrite length_fmap, length_seqZ in Hl. cbn [iov_len iov_base] in Hl. rewrite <- E1 in Hl. unfold pages_in_range, iov_pages in *. cbn [iov_len iov_base]. rewrite <- E1. lia.
Qed.

Abbreviation gen_vma := (generate_vma_iovs K o pre_dump_mode getpipe setpipe thread_sp cache_disabled false mem T pid).
Abbreviation dump_all := (dump_vmas K o pre_dump_mode getpipe setpipe thread_sp cache_disabled false mem T pid).
Context (Htask : 0 < task_size K < 2 ^ 63 /\ task_size K mod PAGE_SIZE = 0).

Lemma generate_vma_iovs_ok vma rest has_parent pmode u st S H N : 2 * PAGE_SIZE * N <= OFF_MAX -> dump_inv st S H u N -> pmc_at K cats (m_pmc st) u -> u <= va_start vma -> 0 < va_start vma ->
  PMC_SIZE / PAGE_SIZE * 8 <= pmc_map_len (m_pmc st) -> vma_ok vma -> vmas_behind vma rest ->
  (dumped_vma K pre_dump_mode false vma = true -> va_end vma <= task_size K /\ vma_fits vma (m_pmc st)) ->
  let scan := pmc_scan (m_pmc st) in zlen S + zlen H + zlen (vma_pages scan vma) <= N ->
  exists ret st', gen_vma vma rest st has_parent false pmode = Ret (ret, st') /\
    vma_dumped st st' scan (vma_has_parent pre_dump_mode false pmode vma has_parent) vma (vma_pages scan vma) S H N ret.
Proof.
  intros HN Hinv Hp Hu H0 Hlen Hv Hbe Hd scan Hbud. pose proof Hv as [[V1 V2] [V3 V4]]. unfold generate_vma_iovs. unfold vma_pages in *.
  destruct (dumped_vma K pre_dump_mode false vma) eqn:Ed; cbn [negb andb] in *.
  2:{ eexists 0, st. split; [done|]. split; [|done]. intros _. split; [done|]. cbn. rewrite !app_nil_r. split; [apply (dump_inv_mono _ _ _ u); [done|lia]|]. split; [|done]. apply (pmc_at_mono _ _ _ u); [done|lia]. }
  destruct (Hd eq_refl) as [He Hfit].
  destruct (pmc_get_map_spec K cats cache_disabled (m_rd st) (m_pmc st) vma rest u Hscan Hp Hu Hlen Hv Hfit Hbe ltac:(lia) ltac:(tauto)) as (ok & p' & rd' & -> & G1 & G2 & G3).
  cbn [obind]. destruct ok; cbn [negb]; [|eexists _, _; split; [done|]; split; [lia|]; intros Q1 (_ & Q2 & _); by destruct (G2 Q1 Q2)].
  destruct (G3 eq_refl) as (P1 & P2 & _ & _). pose proof (dump_inv_frame _ _ _ _ _ p' (m_shmems st) (m_al st) rd' (dump_inv_mono _ _ _ _ _ _ Hinv Hu) ltac:(by destruct Hinv)) as Hinv1.
  cbn [m_al m_rd m_shmems m_pmc m_pp m_x m_pipes m_off m_e m_d].
  destruct (vma_entry_is vma VMA_ANON_SHARED) eqn:Es; cbn [negb andb] in *.
  - destruct (add_shmem_area_untracked K (m_al st) rd' (m_shmems st) p' pid vma) as (ok & h' & al' & -> & A1 & A2 & _); [by destruct Hinv|].
    cbn [obind]. eexists _, _. split; [done|]. split.
    + intros Hr. destruct ok; [|lia]. split; [done|]. cbn. rewrite !app_nil_r. split; [|split; [apply (pmc_at_mono _ _ _ (va_start vma)); [done|lia]|done]].
      apply (dump_inv_mono _ _ _ (va_start vma)); [|lia]. exact (dump_inv_frame _ _ _ _ _ p' h' al' rd' Hinv1 A1).
    + intros Q1 (Q2 & Q3 & Q4) _ _. destruct (A2 Q2) as [-> ->]. split; [done|]. unfold calm_state. cbn. destruct (G2 Q1 Q3) as [_ ->]. done.
  - destruct G1 as [S1 S2]. set (st1 := MState _ _ _ _ _ _ _ _ _ _) in *.
    destruct (generate_again_ok vma (vma_has_parent pre_dump_mode false pmode vma has_parent) N Hv H0 HN (Z.to_nat (vma_area_len vma / PAGE_SIZE)) (va_start vma) st1 S H Hinv1 P1 P2 ltac:(lia) V3)
      as (ret & st' & -> & D1 & D2); cbn [m_pmc st1]; rewrite ?S1; [done|left; pose proof (chosen_length (pmc_scan (m_pmc st)) vma Hv) as Hl; unfold zlen in Hl; lia|].
    cbn [m_pmc st1] in D1, D2. rewrite S1 in D1, D2. exists ret, st'. split; [done|]. split.
    + intros Hr. destruct (D1 Hr) as (B1 & B2 & B3 & [B4 B5]). split_and!; try done; [split; congruence].
    + intros Q1 (Q2 & Q3 & Q4) Q5 Q6. apply D2; try done. unfold calm_state. cbn. destruct (G2 Q1 Q3) as [_ ->]. done.
Qed.

(** The pages stored and those left to the parent, of all VMAs. *)
Definition all_kept (scan has_parent : bool) (pmode : Z) (vmas : list vma_area) : list Z :=
  concat ((fun vma => kept scan (vma_has_parent pre_dump_mode false pmode vma has_parent) vma (vma_pages scan vma)) <$> vmas).
Definition all_inherited (scan has_parent : bool) (pmode : Z) (vmas : list vma_area) : list Z :=
  concat ((fun vma => inherited scan (vma_has_parent pre_dump_mode false pmode vma has_parent) vma (vma_pages scan vma)) <$> vmas).

Lemma areas_behind vs gs : forall u vma, areas_ok 0 u vs -> va_end vma <= u -> Forall (fun g => vma_entry_is g VMA_AREA_GUARD = true) gs -> vmas_behind vma (vs ++ gs).
Proof.
  induction vs as [|w vs IH]; intros u vma Hvs Hu Hg; unfold vmas_behind in *; cbn [app].
  - eapply Forall_impl; [exact Hg|]. intros g. by left.
  - cbn in Hvs. destruct Hvs as (A1 & _ & [[A3 _] _] & _ & A5). apply Forall_cons_2; [right; lia|]. apply (IH (va_end w)); try done. lia.
Qed.

Lemma dump_guards gs st has_parent pmode : Forall (fun g => vma_entry_is g VMA_AREA_GUARD = true) gs -> dump_all gs st has_parent false pmode = Ret (0, st).
Proof. induction 1 as [|g gs Hg _ IH]; [done|]. cbn [dump_vmas]. by rewrite Hg. Qed.

Lemma dump_vmas_ok gs has_parent pmode N : Forall (fun g => vma_entry_is g VMA_AREA_GUARD = true) gs -> 2 * PAGE_SIZE * N <= OFF_MAX -> forall vs u st S H,
  areas_ok 0 u vs -> dump_inv st S H u N -> pmc_at K cats (m_pmc st) u -> PMC_SIZE / PAGE_SIZE * 8 <= pmc_map_len (m_pmc st) ->
  Forall (fun vma => dumped_vma K pre_dump_mode false vma = true -> va_end vma <= task_size K /\ vma_fits vma (m_pmc st)) vs ->
  let scan := pmc_scan (m_pmc st) in zlen S + zlen H + zlen (concat (vma_pages scan <$> vs)) <= N ->
  exists ret st', dump_all (vs ++ gs) st has_parent false pmode = Ret (ret, st') /\
    (0 <= ret -> exists u', dump_inv st' (S ++ all_kept scan has_parent pmode vs) (H ++ all_inherited scan has_parent pmode vs) u' N) /\
    (calm_kernel K -> calm_state st -> 0 <= getpipe -> holes_backed ls 0 (H ++ all_inherited scan has_parent pmode vs) -> 0 <= ret /\ calm_state st').
Proof.
  intros Hgs HN. induction vs as [|vma vs IH]; intros u st S H Hvs Hinv Hp Hlen Hd scan Hbud; cbn [app].
  { rewrite dump_guards by done. eexists _, _. split; [done|]. unfold all_kept, all_inherited. cbn. rewrite !app_nil_r. split; [|done]. intros _. by exists u. }
  cbn [areas_ok] in Hvs. destruct Hvs as (A1 & A2 & A3 & A4 & A5). apply Forall_cons_1 in Hd as [Hd1 Hd2]. cbn [dump_vmas]. rewrite A4.
  rewrite fmap_cons in Hbud. cbn [concat] in Hbud. rewrite zlen_app in Hbud. pose proof (zlen_nonneg (concat (vma_pages scan <$> vs))) as Hz.
  destruct (generate_vma_iovs_ok vma (vs ++ gs) has_parent pmode u st S H N HN Hinv Hp A1 A2 Hlen A3 (areas_behind vs gs _ vma A5 ltac:(lia) Hgs) Hd1 ltac:(fold scan; lia)) as (ret & st1 & -> & D1 & D2).
  cbn [obind]. fold scan in D1, D2. unfold all_kept, all_inherited. rewrite !fmap_cons. cbn [concat]. rewrite !app_assoc. destruct (Z.ltb_spec ret 0) as [Hneg|Hr].
  { eexists _, _. split; [done|]. split; [lia|]. intros Q1 Q2 Q3 Q4. destruct (D2 Q1 Q2 Q3 ltac:(by eapply holes_backed_app)). lia. }
  destruct (D1 Hr) as (-> & I1 & I2 & [I3 I4]). assert (Hd3 : Forall (fun vma => dumped_vma K pre_dump_mode false vma = true -> va_end vma <= task_size K /\ vma_fits vma (m_pmc st1)) vs).
  { eapply Forall_impl; [exact Hd2|]. intros w. unfold vma_fits. by rewrite I4. }
  pose proof (kept_inherited scan (vma_has_parent pre_dump_mode false pmode vma has_parent) vma (vma_pages scan vma)) as Hki.
  specialize (IH (va_end vma) st1 _ _ A5 I1 I2 ltac:(by rewrite I4) Hd3). cbv zeta in IH. rewrite I3 in IH. fold scan in IH. rewrite !zlen_app in IH.
  destruct (IH ltac:(lia)) as (ret & st' & -> & J1 & J2). exists ret, st'. split; [done|]. split; [done|]. intros Q1 Q2 Q3 Q4. apply J2; try done. apply D2; try done. by eapply holes_backed_app.
Qed.

(** *** From the list of areas to the images *)
Lemma noted_content x a ps bytes : pagemaps_ok (xf_pmi x) -> page_noted x a -> a mod PAGE_SIZE = 0 -> page_content lz4 ps a bytes -> page_content lz4 ((xf_pmi x, xf_pi x) :: ps) a bytes.
Proof.
  intros Hok (pe & Hin & Hpe & Hfl) Ha Hc. apply list_elem_of_lookup_1 in Hin as [i Hi]. destruct (pagemaps_ok_lookup _ _ _ Hok Hi) as ((_ & _ & E2 & E3 & E4 & _) & _).
  assert (Ek : a = pe_vaddr pe + (a - pe_vaddr pe) / PAGE_SIZE * PAGE_SIZE).
  { pose proof (page_pfn_sub (pe_vaddr pe) a E2 Ha) as E. unfold PAGE_PFN in E. lia. }
  rewrite Ek. apply (content_parent lz4 _ _ _ i pe); [done| |unfold pagemap_in_parent; by rewrite Hfl|by rewrite <- Ek].
  unfold in_entry, entry_end in Hpe. unfold PAGE_SIZE in *. lia.
Qed.

Lemma vma_pages_private scan vma a : a ∈ vma_pages scan vma -> a ∈ chosen scan vma (va_start vma) /\ vma_entry_is_private (task_size K) vma = true.
Proof.
  unfold vma_pages. destruct (dumped_vma K pre_dump_mode false vma && _) eqn:E; [|intros H; by apply elem_of_nil in H]. intros H. split; [done|].
  apply andb_true_iff in E as [E1 E2]. unfold dumped_vma in E1. destruct (vma_entry_is_private (task_size K) vma); [done|]. cbn [orb] in E1. by destruct (vma_entry_is vma VMA_ANON_SHARED).
Qed.

Lemma pages_budget lo scan vs : forall u, areas_ok lo u vs -> zlen (concat (vma_pages scan <$> vs)) <= foldr Z.add 0 (private_pages K <$> vs).
Proof.
  induction vs as [|vma vs IH]; intros u Hvs; [done|]. cbn in Hvs. destruct Hvs as (_ & _ & A3 & _ & A5). rewrite !fmap_cons. cbn [concat foldr]. rewrite zlen_app. specialize (IH _ A5).
  assert (zlen (vma_pages scan vma) <= private_pages K vma); [|lia]. destruct (vma_len vma A3) as (_ & _ & E3). unfold private_pages. destruct (vma_pages scan vma) as [|a l] eqn:Ev; [change (zlen (@nil Z)) with 0; case_match; lia|].
  destruct (vma_pages_private scan vma a) as [_ ->]; [rewrite Ev; apply list_elem_of_here|]. rewrite <- Ev. unfold vma_pages in *. destruct (_ && _); [by apply chosen_length|done].
Qed.

Abbreviation dump_process := (parasite_dump_pages K o pre_dump_mode getpipe setpipe thread_sp cache_disabled false mem T pid).

Lemma fresh_dump_inv pp x p h al rd e d N : chunk_pipe 0 pp -> stored_addrs pp = [] -> hole_pages pp = [] -> free_iov pp = 0 -> nr_iovs pp = N -> table_ok h ->
  xfer_ok ls 0 x -> xf_offset x = 0 -> transfer_lazy x = true -> xf_pi x = [] -> dump_inv (MState pp x [] 0 p h al rd e d) [] [] 0 N.
Proof.
  intros P1 P2 P3 P4 P5 Hh Hx H1 H2 H3. split; [|done]. cbn [m_pp m_x m_pipes m_off]. apply pipe_inv_empty; try done; [| |by rewrite P4].
  - split; [done|exists 0; split; [done|lia]|by rewrite H3|constructor|constructor].
  - intros q. unfold pipe_get, zlookup. case_match; [done|by rewrite lookup_nil].
Qed.

(** The pages of the list the dump works on. *)
Lemma listed_fits gs base u p scan vma size : vml_ok K base u -> size = Z.max (nr_priv_pages_longest (with_guards gs base)) (nr_shared_pages_longest (with_guards gs base)) ->
  (forall w, va_start w <= va_end w -> va_end w - va_start w <= size * PAGE_SIZE -> vma_fits w p) -> pmc_scan p = scan ->
  vma ∈ vml_h base -> vma_ok vma -> dumped_vma K pre_dump_mode false vma = true -> vma_fits vma p.
Proof.
  intros [_ _ _ _ L5 _] -> Hfit _ Hin Hv Hd. rewrite Forall_forall in L5. destruct (L5 vma Hin) as [L6 L7]. destruct (vma_len vma Hv) as (_ & E2 & _). destruct Hv as [[V1 _] _].
  apply Hfit; [lia|]. cbn [with_guards nr_priv_pages_longest nr_shared_pages_longest]. unfold dumped_vma in Hd.
  destruct (vma_entry_is_private (task_size K) vma); [specialize (L6 eq_refl); unfold PAGE_SIZE in *; nia|]. cbn [orb] in Hd.
  destruct (vma_entry_is vma VMA_ANON_SHARED); [|done]. specialize (L7 eq_refl eq_refl). unfold PAGE_SIZE in *. nia.
Qed.

Lemma areas_ok_elem lo vs vma : forall u, areas_ok lo u vs -> vma ∈ vs -> lo < va_start vma /\ vma_ok vma.
Proof.
  induction vs as [|w vs IH]; intros u Hvs Hin; [by apply elem_of_nil in Hin|]. cbn in Hvs. destruct Hvs as (_ & A2 & A3 & _ & A5). apply elem_of_cons in Hin as [->|Hin]; [done|by eapply IH].
Qed.

(** What must be so for the dump of the list [vml] into the fresh images [x]. *)
Record dump_setup (vml : vm_area_list) (x : page_xfer) (h : shmem_table) : Prop := DumpSetup {
  ds_list : exists hidden al0 pm0 areas al1, collect_mappings K hidden al0 pm0 true areas = Ret (true, vml, al1) /\ areas_ok PAGE_SIZE 0 areas;
  ds_space : Forall (fun vma => dumped_vma K pre_dump_mode false vma = true -> va_end vma <= task_size K) (vml_h vml);
  ds_size : nr_priv_pages vml < 2 ^ 32 /\ Z.max (nr_priv_pages_longest vml) (nr_shared_pages_longest vml) * PAGE_SIZE < 2 ^ 60;
  ds_images : xfer_ok ls 0 x /\ xf_offset x = 0 /\ xf_pi x = [];
  ds_table : table_ok h
}.

Lemma guard_no_pages scan g : vma_pages scan (guard_entry g) = [].
Proof. done. Qed.
Lemma guards_inherit scan has_parent pmode vs gs : all_inherited scan has_parent pmode (vs ++ (guard_entry <$> gs)) = all_inherited scan has_parent pmode vs.
Proof. unfold all_inherited. rewrite fmap_app, concat_app. rewrite <- (app_nil_r (concat _)) at 2. f_equal. induction gs as [|g gs IH]; [done|]. rewrite !fmap_cons. cbn [concat]. by rewrite IH. Qed.

Lemma all_kept_length scan has_parent pmode vs : zlen (all_kept scan has_parent pmode vs) <= zlen (concat (vma_pages scan <$> vs)).
Proof.
  unfold all_kept. induction vs as [|w l IH]; [done|]. rewrite !fmap_cons. cbn [concat]. rewrite !zlen_app.
  pose proof (kept_inherited scan (vma_has_parent pre_dump_mode false pmode w has_parent) w (vma_pages scan w)).
  pose proof (zlen_nonneg (inherited scan (vma_has_parent pre_dump_mode false pmode w has_parent) w (vma_pages scan w))). lia.
Qed.

(** Nothing goes wrong. *)
Record calm_dump (disabled pm_opened : bool) (parent : bool) (reuse reset : Z) (al : list bool) (rd : list Z) (e : xenv) (d : denv) : Prop := CalmDump {
  cd_kernel : calm_kernel K /\ 0 <= getpipe;
  cd_calls : al = [] /\ rd = [] /\ xenv_ok e /\ denv_ok d;
  cd_proc : disabled = false /\ pm_opened = true /\ reset = 0 /\ (parent = true -> reuse <> -1)
}.

Lemma dump_process_spec scan disabled pm_opened vml mdc x parent no_xfer parent_check reuse reset al rd e d h :
  mdc_pre_dump mdc = false -> mdc_lazy mdc = false -> dump_setup vml x h ->
  let pmode := default (-1) (mdc_parent_mode mdc) in let has_parent := parent && (reuse =? 0) in
  exists code res, dump_process scan disabled pm_opened vml mdc (Some (x, parent)) set_transfer_lazy no_xfer parent_check reuse reset al rd e d h = Ret (code, res) /\
    (code = 0 -> exists st u base gs, vml = with_guards gs base /\ areas_ok 0 0 (vml_h base) /\ res = Some (st, false) /\
       image_ok (m_x st) (all_kept scan has_parent pmode (vml_h base)) (all_inherited scan has_parent pmode (vml_h base)) u) /\
    (calm_dump disabled pm_opened parent reuse reset al rd e d -> holes_backed ls 0 (all_inherited scan has_parent pmode (vml_h vml)) -> code = 0).
Proof.
  intros Hpre Hlazy [(hidden & al0 & pm0 & areas & al1 & Hcol & Hareas) Hsp [Hn1 Hn2] (Hx & Hx1 & Hx2) Hh] pmode has_parent.
  destruct (collect_mappings_spec K hidden cats Hscan ltac:(tauto) al0 pm0 true areas Hareas) as (ok & vml1 & al2 & E & C1 & _). rewrite Hcol in E. injection E as <- <- <-.
  destruct (C1 eq_refl) as (base & gs & -> & (u & Hvml) & _ & _). clear C1 Hcol. pose proof Hvml as [L1 L2 L3 L4 L5 (L6 & L7 & L8 & L9)]. cbn [with_guards vml_h nr_priv_pages nr_priv_pages_longest nr_shared_pages_longest] in *.
  assert (Hp0 : 0 <= nr_priv_pages base). { rewrite L4. pose proof (private_pages_bound K 0 (vml_h base) 0 u L1 L2 L8). unfold PAGE_SIZE in *. lia. }
  unfold parasite_dump_pages. rewrite Hpre, Hlazy. cbn [orb negb with_guards nr_priv_pages nr_priv_pages_longest nr_shared_pages_longest vml_h].
  set (size := Z.max _ _) in *. assert (Hsz : u64 (size * PAGE_SIZE) = size * PAGE_SIZE) by (apply u64_small; unfold PAGE_SIZE in *; lia). rewrite Hsz.
  destruct (pmc_init al scan disabled pm_opened (size * PAGE_SIZE)) as [[ok p] al3] eqn:Ep. destruct ok; cbn [negb].
  2:{ eexists _, _. split; [done|]. split; [done|]. intros [_ (-> & _) (-> & -> & _)] _. done. }
  assert (Hal3 : al = [] -> al3 = []). { intros ->. unfold pmc_init in Ep. cbn in Ep. destruct (disabled || negb pm_opened); [done|]. by injection Ep as <- <-. }
  destruct (pmc_init_ok K cats al scan disabled pm_opened (size * PAGE_SIZE) p al3 ltac:(unfold PAGE_SIZE in *; lia) Ep) as (I1 & I2 & I3 & I4).
  rewrite (u32_small (nr_priv_pages base)) by lia.
  destruct (create_chunk_pipe (o_lazy_pages o) getpipe setpipe Hget al3 (nr_priv_pages base) (Some (replicate (Z.to_nat (nr_priv_pages base)) (Iovec 0 0))) Hp0) as (r & al4 & -> & R1 & R2); [intros l [= <-]; unfold zlen; rewrite length_replicate; lia|].
  cbn [obind]. destruct r as [pp|]; [|eexists _, _; split; [done|]; split; [done|]; intros [[_ K2] (K3 & _) _] _; by destruct (R2 (Hal3 K3) K2)].
  destruct (R1 pp eq_refl) as (P1 & P2 & P3 & P4 & P5). cbn [andb]. destruct (parent && (reuse =? -1)) eqn:Ere.
  { eexists _, _. split; [done|]. split; [done|]. intros [_ _ (_ & _ & _ & K4)] _. apply andb_true_iff in Ere as [-> Er%Z.eqb_eq]. by destruct (K4 eq_refl). }
  fold pmode has_parent. set (st0 := MState _ _ _ _ _ _ _ _ _ _).
  assert (Hinv : dump_inv st0 [] [] 0 (nr_priv_pages base)) by (apply fresh_dump_inv; try done; by destruct Hx).
  assert (Hok : Forall (fun vma => dumped_vma K pre_dump_mode false vma = true -> va_end vma <= task_size K /\ vma_fits vma p) (vml_h base)).
  { apply Forall_app in Hsp as [Hsp _]. rewrite Forall_forall in Hsp. apply Forall_forall. intros vma Hin Hdm. split; [by apply Hsp|]. destruct (areas_ok_elem 0 _ vma 0 L1 Hin) as [_ Hv].
    by apply (listed_fits gs base u p scan vma size). }
  assert (Hgs : Forall (fun g => vma_entry_is g VMA_AREA_GUARD = true) (guard_entry <$> gs)) by (apply Forall_fmap, Forall_forall; done).
  pose proof (pages_budget 0 scan (vml_h base) 0 L1) as Hbud. rewrite <- L4 in Hbud.
  assert (HN : 2 * PAGE_SIZE * nr_priv_pages base <= OFF_MAX) by (unfold PAGE_SIZE, OFF_MAX; lia).
  destruct (dump_vmas_ok (guard_entry <$> gs) has_parent pmode (nr_priv_pages base) Hgs HN (vml_h base) 0 st0 [] [] L1 Hinv (I3 0 ltac:(lia)) I2 Hok) as (ret & st1 & -> & D1 & D2).
  { cbn [m_pmc st0]. rewrite I1. change (zlen (@nil Z)) with 0. lia. }
  cbn [obind]. cbn [m_pmc st0 app] in D1, D2. rewrite I1 in D1, D2. rewrite guards_inherit.
  assert (Hcs : calm_dump disabled pm_opened parent reuse reset al rd e d -> calm_state st0).
  { intros [[_ K2] (K3 & K4 & K5) _]. unfold calm_state. cbn. split; [|done]. by apply R2; [apply Hal3|]. }
  destruct (Z.ltb_spec ret 0) as [Hneg|Hr].
  { eexists _, _. split; [done|]. split; [done|]. intros Hc Hb. pose proof Hc as [[K1 K2] _ _]. destruct (D2 K1 (Hcs Hc) K2 Hb). lia. }
  destruct (D1 Hr) as (u' & Hinv1). cbn [andb].
  pose proof (all_kept_length scan has_parent pmode (vml_h base)) as Hkz.
  destruct (drain_and_xfer_inv st1 _ _ u' _ Hinv1 ltac:(unfold PAGE_SIZE in *; lia)) as (ok & st2 & -> & _ & X1 & X2). cbn [obind].
  destruct (negb ok || negb (reset =? 0)) eqn:Eok.
  - eexists _, _. split; [done|]. split; [done|]. intros Hc Hb. pose proof Hc as [[K1 K2] _ (_ & _ & K5 & _)]. destruct (D2 K1 (Hcs Hc) K2 Hb) as [_ Hc1]. destruct (X2 Hc1 Hb) as [-> _]. by rewrite K5 in Eok.
  - eexists _, _. split; [done|]. split; [|done]. intros _. apply orb_false_iff in Eok as [Eok _]. apply negb_false_iff in Eok. destruct (X1 Eok) as (_ & _ & Him).
    by exists st2, u', base, gs.
Qed.

(** A page to be dumped, in the images. *)
Lemma image_page x u scan has_parent pmode vs vma a ps : areas_ok 0 0 vs ->
  image_ok x (all_kept scan has_parent pmode vs) (all_inherited scan has_parent pmode vs) u -> vma ∈ vs -> a ∈ vma_pages scan vma ->
  (to_parent o vma (vma_has_parent pre_dump_mode false pmode vma has_parent) (changed K cats vma scan) a = true -> page_content lz4 ps a (mem a)) ->
  page_content lz4 ((xf_pmi x, xf_pi x) :: ps) a (mem a).
Proof.
  intros Hvs [_ (cur & Hx & _) _ I4 I5] Hin Ha Hps. rewrite Forall_forall in I4, I5. setoid_rewrite Z.sub_0_r in I4. setoid_rewrite Z.sub_0_r in I5. destruct (areas_ok_elem 0 _ vma 0 Hvs Hin) as [V0 Hv].
  destruct (vma_pages_private scan vma a Ha) as [Hc _]. destruct (chosen_facts scan vma (va_start vma) Hv ltac:(lia) ltac:(by destruct Hv as [_ [? _]])) as (_ & C2 & _).
  rewrite Forall_forall in C2. destruct (C2 a Hc) as (_ & _ & _ & A4).
  assert (Hcat : forall (f : vma_area -> list Z), a ∈ f vma -> a ∈ concat (f <$> vs)).
  { intros f Hf. apply list_elem_of_In, in_concat. exists (f vma). split; apply list_elem_of_In; [by apply list_elem_of_fmap_2|done]. }
  destruct (to_parent o vma _ _ a) eqn:Et.
  - apply noted_content; [apply (xo_pmi _ _ _ Hx)| |done|by apply Hps]. apply I5. unfold all_inherited.
    apply (Hcat (fun vma => inherited scan (vma_has_parent pre_dump_mode false pmode vma has_parent) vma (vma_pages scan vma))). by apply list_elem_of_filter.
  - apply I4. apply (Hcat (fun vma => kept scan (vma_has_parent pre_dump_mode false pmode vma has_parent) vma (vma_pages scan vma))). by apply list_elem_of_filter.
Qed.

Lemma dumped_content scan disabled pm_opened vml mdc x parent no_xfer parent_check reuse reset al rd e d h :
  mdc_pre_dump mdc = false -> mdc_lazy mdc = false -> dump_setup vml x h ->
  let pmode := default (-1) (mdc_parent_mode mdc) in let has_parent := parent && (reuse =? 0) in
  exists code res, dump_process scan disabled pm_opened vml mdc (Some (x, parent)) set_transfer_lazy no_xfer parent_check reuse reset al rd e d h = Ret (code, res) /\
    (code = 0 -> exists st, res = Some (st, false) /\ pagemaps_ok (xf_pmi (m_x st)) /\
       forall vma a ps, vma ∈ vml_h vml -> a ∈ vma_pages scan vma ->
         (to_parent o vma (vma_has_parent pre_dump_mode false pmode vma has_parent) (changed K cats vma scan) a = true -> page_content lz4 ps a (mem a)) ->
         page_content lz4 ((xf_pmi (m_x st), xf_pi (m_x st)) :: ps) a (mem a)) /\
    (calm_dump disabled pm_opened parent reuse reset al rd e d -> holes_backed ls 0 (all_inherited scan has_parent pmode (vml_h vml)) -> code = 0).
Proof.
  intros H1 H2 H3 pmode has_parent.
  destruct (dump_process_spec scan disabled pm_opened vml mdc x parent no_xfer parent_check reuse reset al rd e d h H1 H2 H3) as (code & res & -> & R1 & R2).
  exists code, res. split; [done|]. split; [|done]. intros Hc. destruct (R1 Hc) as (st & u & base & gs & -> & Hb & -> & Him). exists st. split; [done|].
  split; [destruct (io_ok _ _ _ _ _ _ _ _ Him) as (cur & Hx & _); apply (xo_pmi _ _ _ Hx)|]. intros vma a ps Hin Ha Hps. cbn [with_guards vml_h] in Hin. apply elem_of_app in Hin as [Hin|Hin].
  - by apply (image_page (m_x st) u scan has_parent pmode (vml_h base) vma a ps).
  - apply list_elem_of_fmap_1 in Hin as (g & -> & _). by apply elem_of_nil in Ha.
Qed.

(** C8. A dump saves the memory of a process.  For the areas the kernel shows, as
    [collect_mappings] lists them, and fresh images, the dump of the pages
    (neither a pre-dump nor lazy) returns.  If its exit code is 0, the images
    hold, with the bytes it has in memory, every selected page of every private
    area: through all the refills of the page pipe, compressed or not, and when a
    page is unchanged since the parent dump, provided the chain of the parent
    images holds it (incremental dumps compose).  The exit code is 0 if no system
    call fails and the parent has the pages left to it. *)
Theorem memory_dump_complete scan disabled pm_opened vml mdc x parent no_xfer parent_check reuse reset al rd e d h :
  mdc_pre_dump mdc = false -> mdc_lazy mdc = false -> dump_setup vml x h ->
  let pmode := default (-1) (mdc_parent_mode mdc) in let has_parent := parent && (reuse =? 0) in
  exists code res, dump_process scan disabled pm_opened vml mdc (Some (x, parent)) set_transfer_lazy no_xfer parent_check reuse reset al rd e d h = Ret (code, res) /\
    (code = 0 -> exists st, res = Some (st, false) /\ pagemaps_ok (xf_pmi (m_x st)) /\
       forall vma a ps, vma ∈ vml_h vml -> a ∈ vma_pages scan vma ->
         (to_parent o vma (vma_has_parent pre_dump_mode false pmode vma has_parent) (changed K cats vma scan) a = true -> page_content lz4 ps a (mem a)) ->
         page_content lz4 ((xf_pmi (m_x st), xf_pi (m_x st)) :: ps) a (mem a)) /\
    (calm_dump disabled pm_opened parent reuse reset al rd e d -> holes_backed ls 0 (all_inherited scan has_parent pmode (vml_h vml)) -> code = 0).
Proof. exact (dumped_content scan disabled pm_opened vml mdc x parent no_xfer parent_check reuse reset al rd e d h). Qed.
End DumpOk.

(** Three pages, the first written to. *)
Definition dump_cats (a : Z) : Z := if PAGE_PFN a =? 16 then 136 else 0.
Definition dump_kernel : kernel := Kernel (fun _ => 0) (page_scan dump_cats) 99 (2 ^ 47 - PAGE_SIZE) false.
Definition dump_area : vma_area := VmaArea 0x10000 0x13000 0x22 513 3 0 0.
Definition dump_list : vm_area_list := VmAreaList [dump_area] 1 3 3 0.
Definition dump_mem (a : Z) : list Z := replicate 4096 (a / 4096).
Definition dump_images : page_xfer := PageXfer 0 false false false 0 [] [] [] (PendingPe 0 0 0 (PageBlockLayout [] 0 0 0) 0 false).

Lemma memory_dump_complete_witness : exists st,
  parasite_dump_pages dump_kernel sample_opts 0 65536 sample_setpipe [] false false dump_mem (loc_transport sample_compressor true 0 0 true) 7
    true false true dump_list (MemDumpCtl false false None) (Some (dump_images, false)) set_transfer_lazy dump_images 0 0 0 [] [] (XEnv [] [] [] [] [] [] []) (DEnv [] []) shmems_hash_init
    = Ret (0, Some (st, false)) /\
  page_content sample_codec [(xf_pmi (m_x st), xf_pi (m_x st))] 0x10000 (dump_mem 0x10000).
Proof.
  destruct (memory_dump_complete dump_kernel dump_cats (page_scan_ok dump_kernel dump_cats eq_refl) sample_opts 0 65536 sample_setpipe [] false
    ltac:(right; unfold PAGE_SIZE; lia) sample_setpipe_ok dump_mem ltac:(intros a; unfold zlen, dump_mem; by rewrite length_replicate)
    sample_compressor sample_codec sample_codec_contract true 0 0 true ltac:(by left) [] 7 ltac:(split; [split; reflexivity|reflexivity])
    true false true dump_list (MemDumpCtl false false None) dump_images false dump_images 0 0 0 [] [] (XEnv [] [] [] [] [] [] []) (DEnv [] []) shmems_hash_init eq_refl eq_refl)
    as (code & res & E & H1 & H2).
  - split; [|repeat constructor; discriminate|split; reflexivity| |by unfold table_ok, shmems_hash_init; rewrite length_replicate].
    + exists false, [], true, [dump_area], []. split; [reflexivity|]. cbn. unfold PAGE_SIZE. split_and!; try done; split; cbn; unfold PAGE_SIZE; try done; lia.
    + split; [|done]. split; cbn; done.
  - assert (Hcode : code = 0).
    { clear E H1. apply H2; [|intros p Hp; discriminate Hp]. split; [split; [intros args; discriminate|discriminate]|done|done]. }
    subst code. destruct (H1 eq_refl) as (st & -> & _ & H3). exists st. split; [exact E|]. apply (H3 dump_area 0x10000 []); [apply list_elem_of_here| |intros Ht; discriminate Ht].
    vm_compute. apply list_elem_of_here.
Defined.
