(* ===== verification/RoundTrip.v ===== *)
(** The round trip of the memory of a process: what [parasite_dump_pages]
    (criu/mem.c) dumps into images, over the images of the parent snapshots, is
    what [prepare_mappings] and the last stage of the restore put back, each page
    at its address.  The two sides meet in [page_content], the meaning of a chain
    of images, which is a function ([content_functional]). *)
From stdpp Require Import sorting.
From S2P Require Import Prelude PagemapImage PageRead Dedup AsyncQueue ProcessReads ReadPages ChainRead ParentWalk RangeQuery ReadOps AsyncRead PagePipe Compress PageXfer PipeDrain PageSelect VmaList CowVmas Premap MemRestore Shmem Restorer VmaIo VmaAio RestoreMem MemDump.

(** ** A chain of images says one thing about a page *)
Lemma content_functional lz4 imgs a x y : Forall pagemaps_ok (fst <$> imgs) -> page_content lz4 imgs a x -> page_content lz4 imgs a y -> x = y.
Proof.
  intros Hok Hx. revert Hok y. induction Hx as [l file ps i pe k x Hi Hk Hin Hp Hb|l file ps i pe k x Hi Hk Hin Hb IH]; intros Hok y Hy; rewrite fmap_cons in Hok; apply Forall_cons_1 in Hok as [H1 H2];
    pose proof (content_inv lz4 l file ps i pe k y H1 Hi Hk Hy) as H; rewrite Hin in H.
  - destruct H as [_ H]. congruence.
  - by apply IH.
Qed.

(** A page with contents is in the pagemap. *)
Lemma content_wanted lz4 l file ps a x : page_content lz4 ((l, file) :: ps) a x -> a ∈ wanted false l.
Proof. intros H. apply wanted_page. inversion H as [? ? ? i pe k ? Hi Hk|? ? ? i pe k ? Hi Hk]; subst; by exists i, pe, k. Qed.

(** ** Dump and restore *)
Section RoundTrip.

(** The dump: the kernel, the process' memory, LZ4, the images of the parent. *)
Context (K : kernel) (cats : Z -> Z) (o : mem_opts) (pre_dump_mode getpipe : Z) (setpipe : Z -> Z) (thread_sp : list Z) (cache_disabled : bool) (mem : Z -> list Z).
Context (lz4c : list Z -> Z -> Z -> option (list Z)) (lz4 : list Z -> Z -> option (list Z)) (auto : bool) (cbs acc : Z) (compress : bool) (ls : list (list pagemap_entry)) (pid : Z).
Context (scan disabled pm_opened : bool) (vml : vm_area_list) (mdc : mem_dump_ctl) (x : page_xfer) (parent : bool) (no_xfer : page_xfer) (parent_check reuse reset : Z).
Context (dal : list bool) (rd : list Z) (xe : xenv) (d : denv) (h : list (list shmem_info)).

(** What the dump relies on. *)
Record dump_ok : Prop := DumpOk {
  du_scan : scan_ok K cats;
  du_get : getpipe < 0 \/ PAGE_SIZE <= getpipe < 2 ^ 31;
  du_set : forall n, setpipe n < 0 \/ n <= setpipe n < 2 ^ 31;
  du_mem : forall a, zlen (mem a) = PAGE_SIZE;
  du_lz4 : lz4_contract lz4c lz4;
  du_cbs : cbs = 0 \/ PAGE_SIZE <= cbs < (MAX_BLOCK_PAGES + 1) * PAGE_SIZE;
  du_task : 0 < PageSelect.task_size K < 2 ^ 63 /\ PageSelect.task_size K mod PAGE_SIZE = 0;
  du_kind : mdc_pre_dump mdc = false /\ mdc_lazy mdc = false;
  du_setup : dump_setup K pre_dump_mode ls vml x h
}.

Definition dump : outcome (Z * option (mstate page_xfer * bool)) :=
  parasite_dump_pages K o pre_dump_mode getpipe setpipe thread_sp cache_disabled false mem (loc_transport lz4c auto cbs acc compress) pid scan disabled pm_opened vml mdc (Some (x, parent)) set_transfer_lazy no_xfer
    parent_check reuse reset dal rd xe d h.

(** The pages the dump selects; those it leaves to the parent are there. *)
Definition dumped (ps : list snapshot) (a : Z) : Prop := exists vma, vma ∈ vml_h vml /\ a ∈ vma_pages K cats pre_dump_mode scan vma /\
  (to_parent o vma (vma_has_parent pre_dump_mode false (default (-1) (mdc_parent_mode mdc)) vma (parent && (reuse =? 0))) (changed K cats vma scan) a = true -> page_content lz4 ps a (mem a)).

(** The images of a successful dump hold the dumped pages. *)
Lemma dump_holds st b ps a : dump_ok -> dump = Ret (0, Some (st, b)) -> dumped ps a -> page_content lz4 ((xf_pmi (m_x st), xf_pi (m_x st)) :: ps) a (mem a).
Proof.
  intros [D1 D2 D3 D4 D5 D6 D7 [D8 D9] D10] E (vma & Hv & Ha & Hp).
  destruct (dumped_content K cats D1 o pre_dump_mode getpipe setpipe thread_sp cache_disabled D2 D3 mem D4 lz4c lz4 D5 auto cbs acc compress D6 ls pid D7 scan disabled pm_opened vml mdc x parent no_xfer parent_check
    reuse reset dal rd xe d h D8 D9 D10) as (code & res & E1 & H1 & _). unfold dump in E. rewrite E in E1. injection E1 as <- <-. destruct (H1 eq_refl) as (st1 & [= <- _] & _ & H2). by apply (H2 vma).
Qed.

(** The restore: the readers on the images, the areas, the parent's areas. *)
Context (parallel : bool) (files : list (list Z)) (preadv : nat -> Z -> Z -> Z) (decode : nat -> page_read_iov -> bool) (partial ctx_ok : bool) (c : Z -> list Z).
Context (task_size : Z) (hidden : bool) (fresh : vma_area -> Z -> list Z) (pieok : bool) (cow_buf : Z) (vmas pv : list rst_vma) (addr : Z) (cl : calls) (old : option (Z * Z)) (pr : page_read) (parents : list page_read).
Context (e : env) (ps : premap_state) (me : menv) (ma : list bool).
Context (place : memory -> Z -> Z -> option Z) (content : vma_area -> Z -> Z -> list Z) (segment_size : Z -> Z) (submit : nat -> Z -> Z -> Z) (getevents : nat -> list (nat * Z) -> option (list (nat * Z))).
Context (preadv2 : Z -> Z -> Z) (auto_dedup setup mapped : bool) (vma_fd : vma_area -> Z) (bs bl : Z) (settle : memory -> memory).

(** What the restore relies on, for images with the pages file [file]. *)
Record restore_ok (file : list Z) (used : Z) : Prop := RestoreOk {
  ro_preadv : (forall depth off n, preadv depth off n <= n) /\ forall off n, preadv2 off n <= n;
  ro_readers : Forall2 (fresh_queue lz4) (file :: files) (pr :: parents);
  ro_pieok : pieok = true -> parents = [];
  ro_reserve : c_reserve cl = Some addr;
  ro_areas : vmas <> [];
  ro_old : forall oaddr olen, old = Some (oaddr, olen) -> oaddr + olen <= addr \/ addr + zsum (needed task_size hidden <$> vmas) <= oaddr;
  ro_task : task_ok task_size hidden fresh false cow_buf (pmes pr) vmas pv (pm_mem ps) (pm_back ps) addr (fun a => page_content lz4 (images (file :: files) (pr :: parents)) a (c a));
  ro_kernel : place_ok task_size place /\ task_size < 2 ^ 62 /\ aio_kernel_ok submit getevents;
  ro_layout : stage_layout task_size hidden vmas addr used segment_size vma_fd bs bl;
  ro_blank : maps_blank task_size hidden fresh vmas content vma_fd /\
    forall n v k, vmas !! n = Some v -> vma_entry_is_private task_size (rv_e v) = true -> 0 <= k < nr_pages v -> zlen (area_page hidden fresh (rv_e v) k) = PAGE_SIZE;
  ro_settle : forall m a, in_pages addr used a -> settle m a = m a
}.

Definition restore (file : list Z) : outcome (Z * option (rstate * premap_state * Z * Z)) :=
  prepare_mappings (Ops := chain_ops lz4 parallel (file :: files) preadv decode partial ctx_ok) task_size hidden fresh pieok parallel false cow_buf cl old vmas pv (pr :: parents) e ps me ma.

End RoundTrip.

(** ** Example: three pages of which one was written to; it is dumped compressed,
    decoded into the premapped area, and moved to its place *)
Definition trip_entry : pagemap_entry := PagemapEntry 0x10000 0 false false true 6 true 1 (Some (PagemapBlocks [1] 1 1)).
Definition trip_vma : rst_vma := fresh_vma (private_vma 0x10000 0x13000).
Definition trip_mapped : list rst_vma := [RstVma (add_status VMA_PREMMAPED (private_vma 0x10000 0x13000)) CowNone [true; false; false] 0x40000 false].

Lemma trip_pagemap : pagemaps_ok [trip_entry].
Proof.
  unfold pagemaps_ok. cbn. unfold entry_ok, entry_stop, entry_end. cbn. split_and!; try done. intros b [= <-]. split; [done|]. unfold blocks_ok. cbn. split_and!; try done.
Qed.

Lemma trip_fresh : Forall2 (fresh_queue sample_codec) [[16]] [pair_reader [trip_entry]].
Proof.
  constructor; [|constructor]. split; try done; [exact trip_pagemap|]. apply Forall_cons_2; [|apply Forall_nil_2]. unfold entry_typed. cbn. split_and!; try done; try lia. unfold blocks_typed. cbn. split_and!; try done; try lia.
  repeat constructor; lia.
Qed.

Lemma trip_page a : a ∈ wanted false [trip_entry] -> page_content sample_codec [([trip_entry], [16])] a (dump_mem a).
Proof.
  intros Ha. cbn in Ha. apply elem_of_cons in Ha as [->|Ha]; [|by apply elem_of_nil in Ha].
  apply (content_here sample_codec [trip_entry] _ [] 0 trip_entry 0); [done|cbn; lia|done|done|by vm_compute].
Qed.

Lemma trip_one (P : nat -> rst_vma -> Prop) n v : P 0%nat trip_vma -> [trip_vma] !! n = Some v -> P n v.
Proof. destruct n as [|n]; intros H [= <-]; done. Qed.

Lemma trip_task : task_ok 0x100000 true zero_page false 0x200000 [trip_entry] [trip_vma] [] (pm_mem two_start) (pm_back two_start) 0x40000
  (fun a => page_content sample_codec (images [[16]] [pair_reader [trip_entry]]) a (dump_mem a)).
Proof.
  assert (Hin : forall (P : pagemap_entry -> Prop), P trip_entry -> forall pe, pe ∈ [trip_entry] -> P pe) by (intros P P1 pe Hpe; apply elem_of_cons in Hpe as [->|Hpe]; [exact P1|by apply elem_of_nil in Hpe]).
  assert (Hsum : zsum (needed 0x100000 true <$> [trip_vma]) = 0x3000) by (vm_compute; reflexivity).
  split; rewrite ?Hsum.
  - exact trip_pagemap.
  - discriminate.
  - exact (fq_typed _ _ _ (proj1 (Forall2_cons_1 _ _ _ _ _ trip_fresh))).
  - refine (Hin _ _); intros _; left; reflexivity.
  - refine (Hin _ _); cbn; lia.
  - exact trip_page.
  - split_and!; (reflexivity || lia).
  - apply Forall_cons_2; [|apply Forall_nil_2]. split; [split; [cbn; unfold PAGE_SIZE; lia|split; reflexivity]|split; reflexivity|intros j; discriminate|intros a (pa & E & _); discriminate].
  - intros n v. apply (trip_one (fun _ v => nr_pages v < 2 ^ 31)); vm_compute; reflexivity.
  - intros n v. apply (trip_one (fun _ v => rv_is v VMA_AREA_GUARD = true -> vma_entry_is_private 0x100000 (rv_e v) = false)); intros H; vm_compute in H; discriminate.
  - intros [|n] [|n'] v v' Hlt Hn Hn'; try lia; discriminate.
  - cbn. split; [|exact I]. intros w a Hw. by apply elem_of_nil in Hw.
  - unfold COW_READ_BATCH_PAGES, PAGE_SIZE. split_and!; (reflexivity || lia).
  - intros n v j Hn Hj. exfalso. revert Hn Hj. apply (trip_one (fun _ v => rv_pvma v = CowOf j -> False)); discriminate.
  - intros n n' v v' j Hn _ Hj. exfalso. revert Hn Hj. apply (trip_one (fun _ v => rv_pvma v = CowOf j -> False)); discriminate.
  - intros n v pe b Hn _ Hpe _ _ _. revert Hn pe Hpe. apply (trip_one (fun _ v => forall pe, pe ∈ [trip_entry] -> rv_start v <= pe_vaddr pe /\ entry_end pe <= rv_end v)). refine (Hin _ _). vm_compute. split; discriminate.
Qed.

Lemma trip_layout : stage_layout 0x100000 true [trip_vma] 0x40000 0x3000 (fun _ => 0) no_fd 0x60000 0x2000.
Proof.
  split.
  - unfold regions_ok, range_ok, on_page, PAGE_SIZE. split_and!; try done; lia.
  - reflexivity.
  - intros n v Hn _ _. revert Hn. apply (trip_one (fun _ v => goes no_fd v = true /\ rv_is v VMA_AREA_SYSVIPC = false)); split; reflexivity.
  - intros n v Hn _. revert Hn. apply (trip_one (fun _ v => range_ok 0x100000 (rv_start v) (span_of (fun _ => 0) no_fd v))); unfold range_ok, on_page; split_and!; vm_compute; (reflexivity || discriminate).
  - intros [|n] [|n'] v v' Hlt Hn Hn'; try lia; discriminate.
  - intros n v Hn _. left. revert Hn. apply (trip_one (fun _ v => rv_start v + span_of (fun _ => 0) no_fd v <= 0x60000)); vm_compute; discriminate.
  - intros n v Hn Hs. exfalso. revert Hn Hs. apply (trip_one (fun _ v => rv_is v VMA_AREA_SHSTK = true -> False)); intros H; vm_compute in H; discriminate.
Qed.

Lemma trip_restore : restore_ok sample_codec [] (fun _ _ n => n) dump_mem 0x100000 true zero_page true 0x200000 [trip_vma] [] 0x40000 (Calls (Some 0x40000) 1 true true true) None (pair_reader [trip_entry]) [] two_start
  (first_fit 0x100000) (fun e _ k => zero_page e k) (fun _ => 0) half_submit half_events short_preadv no_fd 0x60000 0x2000 (fun m => m) [16] 0x3000.
Proof.
  split; try done.
  - split; [intros; lia|]. intros off n. unfold short_preadv. lia.
  - exact trip_fresh.
  - exact trip_task.
  - split; [apply first_fit_ok|]. split; [reflexivity|exact half_kernel_ok].
  - exact trip_layout.
  - split; [intros n v e k Hn _ _ _|intros n v k Hn _ _]; revert Hn; [apply (trip_one (fun _ v => zero_page e k = area_page true zero_page (rv_e v) k))|apply (trip_one (fun _ v => zlen (area_page true zero_page (rv_e v) k) = PAGE_SIZE))]; reflexivity.
Qed.

Lemma trip_fine : stage_fine 0x100000 (first_fit 0x100000) half_submit half_events short_preadv true true [] (Some 3) (Probe true true true None true)
  (prepare_vma no_fd <$> trip_mapped) [] 0x40000 0x3000 0x60000 0x2000 (KEnv [] []).
Proof.
  split.
  - split_and!; try done.
  - split; [apply first_fit_live|]. exists 0x80000, 0x10000. split; [unfold range_ok, on_page, PAGE_SIZE; split_and!; (done || lia)|]. split; [|lia].
    intros i v [Hi Hp]. destruct i as [|i]; cbn in Hi; [|discriminate]. injection Hi as <-. vm_compute. split; [discriminate|right; discriminate].
  - split; constructor.
  - split; [intros off n Hn; unfold short_preadv; lia|exact half_kernel_live].
Qed.

Lemma trip_dump : dump_ok dump_kernel dump_cats 0 65536 sample_setpipe dump_mem sample_compressor sample_codec 0 [] dump_list (MemDumpCtl false false None) dump_images shmems_hash_init.
Proof.
  split; try done.
  - exact (page_scan_ok dump_kernel dump_cats eq_refl).
  - right. unfold PAGE_SIZE. lia.
  - exact sample_setpipe_ok.
  - exact sample_codec_contract.
  - by left.
  - split; [|repeat constructor; discriminate|split; reflexivity| |by unfold table_ok, shmems_hash_init; rewrite length_replicate].
    + exists false, [], true, [dump_area], []. split; [reflexivity|]. cbn. unfold PAGE_SIZE. split_and!; try done; split; cbn; unfold PAGE_SIZE; try done; lia.
    + split; [|done]. split; cbn; done.
Qed.

