(* ===== verification/ShmemDump.v ===== *)
(** Dumping a shared memory segment ([do_dump_one_shmem], criu/shmem.c): the
    segment is mapped at [addr]; its pages that are not holes go through a page
    pipe in chunk mode into images of their own, at their offset in the segment.

    The holes of the file behind the segment are found by lseek(): [seek_data]
    and [seek_hole] answer the calls ([None]: the call fails; [seek_data]
    answers [Some None] for ENXIO). *)
From stdpp Require Import sorting.
From S2P Require Import Prelude PagemapImage PageRead AsyncQueue ReadPages ChainRead ParentWalk PagePipe Compress PageXfer PipeDrain PageSelect Shmem.

Definition set_offset (n : Z) (x : page_xfer) : page_xfer :=
  PageXfer n (transfer_lazy x) (PageXfer.force_raw x) (pi_use_direct x) (pages_image_offset x) (xf_pmi x) (xf_pi x) (xf_parent x) (pending x).

(** What changes while the pages are walked: the page pipe, the images, the
    pipes, the answers of the calls, [next_data_pnf], [next_hole_pfn], [pages]
    and [ret]. *)
Record shm_state (X : Type) := ShmState {
  s_pp : page_pipe;
  s_x : X;
  s_pipes : list (list Z);
  s_al : list bool;
  s_e : xenv;
  s_d : denv;
  s_data : Z;
  s_hole : Z;
  s_pages : Z * Z;
  s_ret : Z
}.
Arguments ShmState {X}.
Arguments s_pp {X}. Arguments s_x {X}. Arguments s_pipes {X}. Arguments s_al {X}. Arguments s_e {X}. Arguments s_d {X}.
Arguments s_data {X}. Arguments s_hole {X}. Arguments s_pages {X}. Arguments s_ret {X}.

Section ShmemDump.
Context (o : mem_opts) (tracking : bool) (getpipe : Z) (setpipe : Z -> Z).
Context (seek_data : Z -> option (option Z)) (seek_hole : Z -> option Z) (mem : Z -> list Z) {X : Type} (T : transport X).

(** The loop of [dump_pages] over the buffers. *)
Fixpoint splice_bufs (d : denv) (pp : page_pipe) (l : list nat) (pipes : list (list Z)) : bool * list (list Z) * denv :=
  match l with
  | [] => (true, pipes, d)
  | id :: l =>
      let ppb := buf pp id in
      let '(ret, pipe, d) := vmsplice mem d (buf_iovs pp id) (pipe_get pipes (ppb_pipe ppb)) in
      let pipes := pipe_append pipes (ppb_pipe ppb) pipe in
      if negb (ret =? u64 (pages_in ppb * PAGE_SIZE)) then (false, pipes, d) else splice_bufs d pp l pipes
  end.

Definition shm_dump_pages (st : shm_state X) : outcome (bool * shm_state X) :=
  let '(ok, pipes, d) := splice_bufs (s_d st) (s_pp st) (bufs (s_pp st)) (s_pipes st) in
  if negb ok then Ret (false, ShmState (s_pp st) (s_x st) pipes (s_al st) (s_e st) d (s_data st) (s_hole st) (s_pages st) (s_ret st))
  else
    let! (ok, x, pipes, e) := page_xfer_dump_pages T (s_e st) (s_x st) pipes (s_pp st) in
    Ret (ok, ShmState (s_pp st) x pipes (s_al st) e d (s_data st) (s_hole st) (s_pages st) (s_ret st)).

(** The answer: 0 or -1, and the two page numbers. *)
Definition next_data_segment (pfn next_data_pfn next_hole_pfn : Z) : Z * Z * Z :=
  match seek_data (u64 (pfn * PAGE_SIZE)) with
  | None => (-1, next_data_pfn, next_hole_pfn)
  | Some None => (0, ULONG_MAX, ULONG_MAX)
  | Some (Some off) =>
      match seek_hole off with
      | None => (-1, off / PAGE_SIZE, next_hole_pfn)
      | Some hole => (0, off / PAGE_SIZE, hole / PAGE_SIZE)
      end
  end.

(** From the label [again]: [Some] exit code, or [None] to go on. *)
Fixpoint put_again (fuel : nat) (parent : bool) (pgstate pgaddr : Z) (st : shm_state X) : outcome (option Z * shm_state X) :=
  if pgstate =? PST_ZERO then Ret (None, ShmState (s_pp st) (s_x st) (s_pipes st) (s_al st) (s_e st) (s_d st) (s_data st) (s_hole st) (s_pages st) 0)
  else
    let hole := parent && page_in_parent o (pgstate =? PST_DIRTY) in
    let! (ret, pp, al) :=
      if hole then Ret (page_pipe_add_hole (s_al st) (s_pp st) pgaddr PP_HOLE_PARENT)
      else page_pipe_add_page (o_lazy_pages o) getpipe setpipe (s_al st) (s_pp st) pgaddr 0 in
    let '(skipped, written) := s_pages st in
    if ret =? - EAGAIN then
      let! (ok, st) := shm_dump_pages (ShmState pp (s_x st) (s_pipes st) al (s_e st) (s_d st) (s_data st) (s_hole st) (s_pages st) (s_ret st)) in
      if negb ok then Ret (Some (-1), st)
      else
        let! pp := page_pipe_reinit (o_lazy_pages o) getpipe setpipe (s_pp st) in
        let st := ShmState pp (s_x st) (s_pipes st) (s_al st) (s_e st) (s_d st) (s_data st) (s_hole st) (s_pages st) (s_ret st) in
        match fuel with O => NoFuel | S fuel => put_again fuel parent pgstate pgaddr st end
    else
      let st := ShmState pp (s_x st) (s_pipes st) al (s_e st) (s_d st) (s_data st) (s_hole st)
                  (if ret =? 0 then if hole then (skipped + 1, written) else (skipped, written + 1) else (skipped, written)) ret in
      if negb (ret =? 0) then Ret (Some ret, st) else Ret (None, st).

(** One turn of the loop over the pages; [fd]: is there a file to look for
    holes in. *)
Definition shm_page (fd : bool) (addr : Z) (pstate : option (list Z)) (parent : bool) (pfn : Z) (st : shm_state X) : outcome (option Z * shm_state X) :=
  let '(ret, data, hole) :=
    if fd && (s_hole st <=? pfn) then next_data_segment pfn (s_data st) (s_hole st) else (0, s_data st, s_hole st) in
  let st := ShmState (s_pp st) (s_x st) (s_pipes st) (s_al st) (s_e st) (s_d st) data hole (s_pages st) (s_ret st) in
  if negb (ret =? 0) then Ret (Some (s_ret st), st)                    (* [ret] of the page before *)
  else
    let! pgstate := match pstate with Some m => if tracking then get_pstate m pfn else Ret PST_DONT_DUMP | None => Ret PST_DONT_DUMP end in
    let use_mc := pgstate =? PST_DONT_DUMP in
    let pgstate := if use_mc then if pfn <? data then PST_ZERO else PST_DIRTY else pgstate in
    put_again 1 parent pgstate (u64 (addr + pfn * PAGE_SIZE)) st.

Fixpoint shm_pages (fd : bool) (addr : Z) (pstate : option (list Z)) (parent : bool) (l : list Z) (st : shm_state X) : outcome (option Z * shm_state X) :=
  match l with
  | [] => Ret (None, st)
  | pfn :: l =>
      let! (r, st) := shm_page fd addr pstate parent pfn st in
      match r with Some ret => Ret (Some ret, st) | None => shm_pages fd addr pstate parent l st end
  end.

(** [opened]: what [open_page_xfer] leaves, with its [parent]. *)
Definition do_dump_one_shmem (fd : bool) (addr : Z) (si : shmem_info) (opened : option (X * bool)) (set_off : Z -> X -> X)
    (al : list bool) (e : xenv) (d : denv) : outcome (Z * option (shm_state X)) :=
  let nrpages := u64 (si_size si + PAGE_SIZE - 1) / PAGE_SIZE in
  let! (pp, al) := create_page_pipe (o_lazy_pages o) getpipe setpipe al (u32 ((nrpages + 1) / 2)) None PP_CHUNK_MODE in
  match pp with
  | None => Ret (-1, None)
  | Some pp =>
      match opened with
      | None => Ret (-1, None)
      | Some (x, parent) =>
          let! (r, st) := shm_pages fd addr (si_pstate si) parent (seqZ 0 nrpages) (ShmState pp (set_off addr x) [] al e d 0 0 (0, 0) (-1)) in
          match r with
          | Some ret => Ret (ret, Some st)
          | None =>
              let! (ok, st) := shm_dump_pages st in
              Ret (if ok then 0 else -1, Some st)
          end
      end
  end.
End ShmemDump.

(** ** The iovecs a dump needs *)
Section Room.
Context (lazy_pages : bool) (getpipe : Z) (setpipe : Z -> Z) (cap : Z).
(** fcntl(2): a new pipe holds [cap] pages; no pipe gets more than UIO_MAXIOV
    pages, since its size is rounded up to a power of two. *)
Context (Hget : PAGE_SIZE <= getpipe < 2 ^ 31 /\ cap = getpipe / PAGE_SIZE /\ cap <= UIO_MAXIOV).
Context (Hset : forall n, setpipe n < 0 \/ n <= setpipe n < 2 ^ 31) (Hmax : forall n, n <= PIPE_MAX_SIZE * PAGE_SIZE -> setpipe n <= UIO_MAXIOV * PAGE_SIZE).
Abbreviation add_page := (page_pipe_add_page lazy_pages getpipe setpipe).
Abbreviation Hget' := (or_intror (A := getpipe < 0) (proj1 Hget)).

(** Every buffer takes at least [cap] pages and at most UIO_MAXIOV. *)
Definition sized (pp : page_pipe) : Prop := Forall (fun b => cap <= pipe_size b <= UIO_MAXIOV /\ ppb_flags b = 0) (arena pp).

Lemma sized_buf pp id : sized pp -> (id < length (arena pp))%nat -> cap <= pipe_size (buf pp id) <= UIO_MAXIOV /\ ppb_flags (buf pp id) = 0.
Proof. intros Hs Hid. unfold buf. destruct (lookup_lt_is_Some_2 _ _ Hid) as [b Hb]. rewrite (list_lookup_total_correct _ _ _ Hb). by apply (Forall_lookup_1 _ _ _ _ Hs Hb). Qed.

Lemma sized_upd pp id f pp' : sized pp -> arena pp' = arena pp -> ((id < length (arena pp))%nat -> cap <= pipe_size (f (buf pp id)) <= UIO_MAXIOV /\ ppb_flags (f (buf pp id)) = 0) -> sized (upd_buf f id pp').
Proof.
  intros Hs Ha Hf. unfold sized, upd_buf. cbn [arena set_arena]. rewrite Ha. apply Forall_lookup_2. intros k b Hk. destruct (decide (id = k)) as [<-|Hne].
  - rewrite list_lookup_alter_eq in Hk. apply fmap_Some in Hk as (b0 & Hb & ->). specialize (Hf (lookup_lt_Some _ _ _ Hb)). unfold buf in Hf. by rewrite (list_lookup_total_correct _ _ _ Hb) in Hf.
  - rewrite list_lookup_alter_ne in Hk by done. by apply (Forall_lookup_1 _ _ _ _ Hs Hk).
Qed.

Lemma resize_sized b ret b' : cap <= pipe_size b <= UIO_MAXIOV -> 0 <= pages_in b -> 0 <= pipe_off b -> pages_in b + pipe_off b <= pipe_size b -> 0 < cap ->
  ppb_resize_pipe setpipe b = Ret (ret, b') -> (exists m, b' = set_pipe_size m b) /\ cap <= pipe_size b' <= UIO_MAXIOV.
Proof.
  intros Hb H1 H2 H3 Hc. unfold UIO_MAXIOV in *. unfold ppb_resize_pipe. change PIPE_MAX_SIZE with 819 in *. rewrite u64_small, u32_small by lia.
  destruct (Z.ltb_spec (pages_in b + pipe_off b) (pipe_size b)); [intros [= <- <-]; split; [exists (pipe_size b); by destruct b|done]|].
  rewrite Z.gtb_ltb. destruct (_ && negb _) eqn:Em; [intros [= <- <-]; split; [exists (pipe_size b); by destruct b|done]|].
  set (n := if 819 <? pipe_size b * 2 then 819 else pipe_size b * 2). assert (Hn : pipe_size b < n <= 819).
  { unfold n. destruct (Z.ltb_spec 819 (pipe_size b * 2)); [|lia]. destruct (Z.ltb_spec (pipe_size b) 819); [lia|done]. }
  clearbody n. unfold __ppb_resize_pipe. rewrite u64_small by (unfold PAGE_SIZE; lia). destruct (Z.ltb_spec (setpipe (n * PAGE_SIZE)) 0); cbn [obind].
  { intros [= <- <-]. split; [exists (pipe_size b); by destruct b|done]. }
  destruct (Z.ltb_spec (setpipe (n * PAGE_SIZE) / PAGE_SIZE) (pipe_size b)); cbn [obind]; [done|]. intros [= <- <-]. split; [by eexists|]. cbn [pipe_size set_pipe_size].
  split; [lia|]. specialize (Hmax (n * PAGE_SIZE) ltac:(unfold PAGE_SIZE; lia)). unfold PAGE_SIZE in *. apply Z.div_le_upper_bound; lia.
Qed.

Lemma try_add_sized pp init t a ret pp' : pp_ok pp -> bufs pp = init ++ [t] -> 0 < cap -> sized pp -> try_add_page setpipe pp a 0 = Ret (ret, pp') -> sized pp'.
Proof.
  intros Hok E Hc Hs. destruct (tail_facts pp init t Hok E) as ([Q1 Q2 Q3 Q4 Q5 Q6] & _). pose proof (zlen_nonneg (concat (iov_pages <$> buf_iovs pp t))) as Hz.
  unfold try_add_page. rewrite E, last_snoc. unfold try_add_page_to. destruct (sized_buf pp t Hs Q1) as [Hb Hf]. rewrite Hf. cbn [Z.eqb negb].
  destruct (ppb_resize_pipe setpipe (buf pp t)) as [[r b]| |] eqn:Er; cbn [obind]; [|done|done].
  destruct (resize_sized _ _ _ Hb ltac:(lia) ltac:(lia) ltac:(lia) Hc Er) as [[m ->] Hm].
  assert (Hu : sized (upd_buf (fun _ => set_pipe_size m (buf pp t)) t pp)) by (by apply (sized_upd pp)).
  destruct (r =? 1); [intros [= <- <-]; done|].
  assert (Hcnt : forall p s q, arena q = arena (upd_buf (fun _ => set_pipe_size m (buf pp t)) t pp) -> sized (upd_buf (set_counts p s) t q)).
  { intros p s q Hq. apply (sized_upd _ _ _ _ Hu Hq). intros Hlt. destruct (sized_buf _ t Hu Hlt). done. }
  destruct (if negb _ && _ then _ else None) as [iov|]; [intros [= <- <-]; by apply Hcnt|]. destruct (_ >? _); [done|]. intros [= <- <-]. by apply Hcnt.
Qed.

(** A new tail has no pages; without one nothing changes. *)
Lemma grow_tail_facts woff al pp ret pp' al' : pp_pre pp -> chunk_ok woff pp -> sized pp -> page_pipe_grow lazy_pages getpipe setpipe al pp 0 = Ret (ret, pp', al') ->
  sized pp' /\ break_iov pp' = break_iov pp /\ (ret <> 0 -> pp' = pp /\ (ret = - EAGAIN -> nr_pipes pp = NR_PIPES_PER_CHUNK)) /\
  (ret = 0 -> exists init t, bufs pp' = init ++ [t] /\ pages_in (buf pp' t) = 0 /\ nr_segs (buf pp' t) = 0 /\ free_iov pp' = free_iov pp).
Proof.
  intros Hpre [C1 _ [_ _] _] Hs. unfold page_pipe_grow. destruct (free_bufs pp) as [|id free] eqn:Ef.
  - rewrite C1. cbn [andb]. destruct (Z.eqb_spec (nr_pipes pp) NR_PIPES_PER_CHUNK) as [En|En]; [intros [= <- <- <-]; done|].
    unfold ppb_alloc. destruct (xalloc al) as [[] al1]; cbn [negb obind]; [|intros [= <- <- <-]; done]. unfold pp_prev_ppb. rewrite C1. unfold ppb_new_pipe.
    destruct (xalloc al1) as [[] al2]; cbn [negb obind]; [|intros [= <- <- <-]; done]. destruct (Z.ltb_spec getpipe 0); cbn [negb obind]; [intros [= <- <- <-]; done|].
    set (b := PagePipeBuf _ _ _ _ _ _ _). set (pp1 := add_buf _ _ _ _).
    assert (Hlen : length (arena pp1) = S (length (arena pp))) by (cbn; rewrite length_app; cbn; lia). rewrite Hlen. cbn [pred]. intros [= <- <- <-].
    assert (Hs1 : sized pp1) by (unfold sized; cbn [pp1 add_buf arena]; apply Forall_app; split; [done|]; apply Forall_cons_2; [cbn; lia|constructor]).
    assert (Hb : buf (upd_buf (ppb_init 0 0 0 (free_iov pp)) (length (arena pp)) pp1) (length (arena pp)) = ppb_init 0 0 0 (free_iov pp) b).
    { rewrite buf_upd_eq by (rewrite Hlen; lia). unfold pp1. by rewrite buf_add_new. }
    split; [apply (sized_upd pp1 _ _ _ Hs1 eq_refl); intros Hlt; destruct (sized_buf pp1 _ Hs1 Hlt); done|]. split; [done|]. split; [done|]. intros _.
    exists (bufs pp), (length (arena pp)). rewrite Hb. done.
  - intros [= <- <- <-]. set (pp1 := set_bufs _ _ _). assert (Hs1 : sized pp1) by done.
    assert (Hid : (id < length (arena pp1))%nat). { pose proof (po_free _ Hpre) as Hfr. rewrite Ef in Hfr. apply Forall_cons_1 in Hfr as [[? _] _]. done. }
    split; [apply (sized_upd pp1 _ _ _ Hs1 eq_refl); intros Hlt; destruct (sized_buf pp1 _ Hs1 Hlt); done|]. split; [done|]. split; [done|]. intros _.
    exists (bufs pp), id. rewrite buf_upd_eq by done. done.
Qed.

(** Where the pages of the last buffer end. *)
Definition tail_end (pp : page_pipe) : option Z :=
  match last (bufs pp) with
  | None => None
  | Some t => if nr_segs (buf pp t) =? 0 then None else (fun iov => iov_base iov + iov_len iov) <$> iovs pp !! Z.to_nat (ppb_iov (buf pp t) + nr_segs (buf pp t) - 1)
  end.

Lemma upd_buf_const f t pp : upd_buf f t pp = upd_buf (fun _ => f (buf pp t)) t pp.
Proof.
  unfold upd_buf. f_equal. apply list_eq. intros i. destruct (decide (t = i)) as [<-|Hne]; [|by rewrite !list_lookup_alter_ne]. rewrite !list_lookup_alter_eq. unfold buf.
  destruct (arena pp !! t) as [b|] eqn:Eb; [|done]. cbn. by rewrite (list_lookup_total_correct _ _ _ Eb).
Qed.

(** The page grows the last iovec: no iovec is needed for it. *)
Lemma try_add_grows pp init t a : pp_ok pp -> bufs pp = init ++ [t] -> page_addr a -> ppb_flags (buf pp t) = 0 -> break_iov pp = false -> tail_end pp = Some a ->
  pages_in (buf pp t) + pipe_off (buf pp t) < pipe_size (buf pp t) ->
  exists pp', try_add_page setpipe pp a 0 = Ret (0, pp') /\ tail_grown pp pp' init t a /\ free_iov pp' = free_iov pp.
Proof.
  intros Hok E Ha Hf Hbr He Hroom. destruct (tail_facts pp init t Hok E) as ([Q1 Q2 Q3 Q4 Q5 Q6] & Ht & _). pose proof (zlen_nonneg (concat (iov_pages <$> buf_iovs pp t))) as Hz.
  unfold tail_end in He. rewrite E, last_snoc in He. destruct (Z.eqb_spec (nr_segs (buf pp t)) 0) as [|Hn]; [done|].
  destruct (iovs pp !! Z.to_nat (ppb_iov (buf pp t) + nr_segs (buf pp t) - 1)) as [iov|] eqn:El; [|done]. injection He as He.
  assert (Hiov : page_iov iov).
  { apply (Forall_lookup_1 _ _ (pred (Z.to_nat (nr_segs (buf pp t)))) _ Q3). unfold buf_iovs. rewrite lookup_take_lt by lia. rewrite lookup_drop. rewrite <- El. f_equal. lia. }
  destruct Hiov as [(I1 & I2 & I3 & I4) _]. unfold try_add_page. rewrite E, last_snoc. unfold try_add_page_to. rewrite Hf. cbn [Z.eqb negb].
  unfold ppb_resize_pipe. rewrite u64_small by lia. destruct (Z.ltb_spec (pages_in (buf pp t) + pipe_off (buf pp t)) (pipe_size (buf pp t))) as [_|]; [|lia]. cbn [obind Z.eqb].
  replace (upd_buf (fun _ => buf pp t) t pp) with pp by (symmetry; apply upd_buf_id). rewrite Hbr. destruct (Z.eqb_spec (nr_segs (buf pp t)) 0) as [|_]; [done|]. cbn [negb andb]. rewrite El.
  unfold iov_grow_page. destruct Ha as (A1 & A2 & A3). rewrite u64_small by lia. destruct (Z.eqb_spec (iov_base iov + iov_len iov) a) as [_|]; [|done]. rewrite u64_small by (unfold PAGE_SIZE in *; lia).
  eexists. split; [done|]. split; [|done]. rewrite upd_buf_const.
  pose proof (grow_tail pp init t (buf pp t) iov a (pipe_size (buf pp t)) Hok E ltac:(done) ltac:(by rewrite set_pipe_size_id) ltac:(lia) Hn El He) as Hg. exact Hg.
Qed.

Lemma try_add_break pp a ret pp' : try_add_page setpipe pp a 0 = Ret (ret, pp') -> break_iov pp = false -> break_iov pp' = false.
Proof.
  unfold try_add_page, try_add_page_to. destruct (last (bufs pp)) as [id|]; [|done]. destruct (negb _); [by intros [= _ <-]|].
  destruct (ppb_resize_pipe setpipe (buf pp id)) as [[r b]| |]; [|done|done]. cbn [obind]. destruct (r =? 1); [by intros [= _ <-]|].
  destruct (if negb _ && _ then _ else None); [by intros [= _ <-]|]. destruct (_ >? _); [done|]. by intros [= _ <-].
Qed.

Lemma resize_keeps b ret b' : ppb_resize_pipe setpipe b = Ret (ret, b') -> ppb_iov b' = ppb_iov b /\ nr_segs b' = nr_segs b.
Proof.
  unfold ppb_resize_pipe, __ppb_resize_pipe. destruct (_ <? _); [by intros [= _ <-]|]. destruct (_ && _); [by intros [= _ <-]|]. destruct (setpipe _ <? 0); [by intros [= _ <-]|].
  destruct (_ <? _); cbn [obind]; [done|]. by intros [= _ <-].
Qed.

(** No iovec is needed for a page that follows the last one. *)
Lemma try_add_free pp a pp' : try_add_page setpipe pp a 0 = Ret (0, pp') -> break_iov pp = false -> tail_end pp = Some a -> 0 <= a < 2 ^ 64 -> free_iov pp' = free_iov pp.
Proof.
  unfold try_add_page, try_add_page_to, tail_end. destruct (last (bufs pp)) as [id|]; [|done]. intros Hr Hb He Ha. destruct (negb _); [done|].
  destruct (ppb_resize_pipe setpipe (buf pp id)) as [[r b]| |] eqn:Er; [|done|done]. cbn [obind] in Hr. destruct (resize_keeps _ _ _ Er) as [E1 E2]. rewrite E1, E2 in Hr.
  destruct (r =? 1); [done|]. cbn [break_iov upd_buf set_arena iovs] in Hr. rewrite Hb in Hr. destruct (nr_segs (buf pp id) =? 0); [done|]. cbn [negb andb] in Hr.
  destruct (iovs pp !! _) as [iov|]; [|done]. cbn in He. injection He as He. unfold iov_grow_page in Hr. rewrite u64_small in Hr by lia. rewrite He, Z.eqb_refl in Hr. by injection Hr as <-.
Qed.

Lemma iov_pages_last iov : page_iov iov -> last (iov_pages iov) = Some (iov_base iov + iov_len iov - PAGE_SIZE).
Proof.
  intros [(I1 & I2 & I3 & I4) I5]. assert (Hn : iov_len iov = iov_len iov / PAGE_SIZE * PAGE_SIZE) by (unfold PAGE_SIZE in *; pose proof (Z.div_mod (iov_len iov) 4096 ltac:(lia)); lia).
  set (n := iov_len iov / PAGE_SIZE) in *. assert (0 < n) by (unfold PAGE_SIZE in *; lia). unfold iov_pages. fold n. rewrite fmap_last.
  replace n with (Z.of_nat (S (pred (Z.to_nat n)))) by lia. rewrite seqZ_S, last_snoc. cbn. f_equal. unfold PAGE_SIZE in *. lia.
Qed.

Lemma tail_grown_end pp pp' init t a : pp_ok pp' -> bufs pp' = init ++ [t] -> tail_grown pp pp' init t a -> tail_end pp' = Some (a + PAGE_SIZE).
Proof.
  intros Hok E [_ _ _ _ (_ & _ & G1 & G2) (W1 & W2) _ _]. destruct (tail_facts pp' init t Hok E) as ([Q1 Q2 Q3 Q4 Q5 Q6] & Ht & _). destruct (po_iovs _ Hok) as [Hz Hf].
  set (w := buf_iovs pp' t) in *. assert (Hw : w <> []) by (intros Ew; rewrite Ew in W2; cbn in W2; by destruct (concat (iov_pages <$> buf_iovs pp t))).
  destruct (exists_last Hw) as (w0 & iov & Ew). rewrite Ew in W1, W2. apply Forall_app in W1 as [_ W1]. apply Forall_cons_1 in W1 as [W1 _].
  rewrite fmap_app, concat_app in W2. cbn [fmap list_fmap concat] in W2. rewrite app_nil_r in W2. assert (Hlast : last (iov_pages iov) = Some a).
  { pose proof (iov_pages_last iov W1) as Hl. apply (f_equal last) in W2. rewrite last_snoc, last_app, Hl in W2. by rewrite Hl. }
  rewrite (iov_pages_last iov W1) in Hlast. injection Hlast as Hlast.
  assert (Hlen : length w = Z.to_nat (nr_segs (buf pp' t))). { unfold w, buf_iovs. rewrite length_take, length_drop. unfold zlen in Hz. lia. }
  assert (Hl : length w = S (length w0)) by (rewrite Ew, length_app; cbn; lia). unfold tail_end. rewrite E, last_snoc. destruct (Z.eqb_spec (nr_segs (buf pp' t)) 0); [lia|].
  assert (Hi : iovs pp' !! Z.to_nat (ppb_iov (buf pp' t) + nr_segs (buf pp' t) - 1) = Some iov).
  { replace (Z.to_nat (ppb_iov (buf pp' t) + nr_segs (buf pp' t) - 1)) with (Z.to_nat (ppb_iov (buf pp' t)) + length w0)%nat by lia. rewrite <- lookup_drop.
    rewrite <- (lookup_take_lt _ (Z.to_nat (nr_segs (buf pp' t)))) by lia. fold (buf_iovs pp' t). fold w. rewrite Ew. by apply list_lookup_middle. }
  rewrite Hi. cbn. f_equal. lia.
Qed.

Definition tail_pages (pp : page_pipe) : Z := match last (bufs pp) with Some t => pages_in (buf pp t) | None => 0 end.
Definition tail_size (pp : page_pipe) : Z := match last (bufs pp) with Some t => pipe_size (buf pp t) | None => 0 end.
Record shm_pipe (woff : Z) (pp : page_pipe) : Prop := ShmPipe { sp_chunk : chunk_pipe woff pp; sp_sized : sized pp; sp_break : break_iov pp = false }.

(** A page more: in the last buffer, or in a new one when the last one has
    [cap] pages at least. *)
Record page_added (pp pp' : page_pipe) (a : Z) : Prop := PageAdded {
  pa_contents : contents pp' = contents pp ++ [(a, 0)];
  pa_end : tail_end pp' = Some (a + PAGE_SIZE);
  pa_cost : tail_pages pp' = tail_pages pp + 1 /\ free_iov pp' <= free_iov pp + (if bool_decide (tail_end pp = Some a) then 0 else 1) \/
    cap <= tail_pages pp /\ tail_pages pp' = 1 /\ free_iov pp' <= free_iov pp + 1
}.

Lemma tail_added woff pp pp' init t a : shm_pipe woff pp -> page_addr a -> bufs pp = init ++ [t] -> try_add_page setpipe pp a 0 = Ret (0, pp') ->
  tail_grown pp pp' init t a -> 0 < cap -> shm_pipe woff pp' /\ page_added pp pp' a /\ nr_iovs pp' = nr_iovs pp /\ holes_of pp' = holes_of pp.
Proof.
  intros [(P1 & P2 & P3) Hs Hb] Ha E Et Hg Hc. destruct (tail_grown_ok pp pp' init t a P1 E Hg) as [O1 O2]. pose proof Hg as [(T1 & _ & _ & T4 & _) _ _ _ (_ & T5 & _) _ T6 _].
  destruct (sized_buf pp t Hs ltac:(by destruct (tail_facts pp init t P1 E) as ([? ? ? ? ? ?] & _))) as [_ Hf]. rewrite Hf in O2.
  pose proof (try_add_page_holes _ _ _ _ _ _ Et) as Hh. destruct (holes_of_pages _ _ Hh) as [_ Hh2].
  assert (Hch : chunk_ok woff pp') by (exact (tail_grown_chunk woff pp pp' init t a P1 E Hg P3)). split; [|split; [|by split]].
  - split; [split; [done|]; split; [by apply Hh2|done]|exact (try_add_sized pp init t a 0 pp' P1 E Hc Hs Et)|exact (try_add_break pp a 0 pp' Et Hb)].
  - split; [done|apply (tail_grown_end pp pp' init t a O1); [by rewrite T1|done]|]. left. unfold tail_pages. rewrite T1, E, last_snoc. split; [done|].
    case_bool_decide as He; [|lia]. rewrite (try_add_free pp a pp' Et Hb He); destruct Ha as (? & _ & ?); unfold PAGE_SIZE in *; lia.
Qed.

Lemma add_page_step woff al pp a : 0 < cap -> shm_pipe woff pp -> page_addr a -> (free_iov pp < nr_iovs pp \/ tail_end pp = Some a /\ tail_pages pp < tail_size pp) ->
  exists ret pp' al', add_page al pp a 0 = Ret (ret, pp', al') /\ shm_pipe woff pp' /\ nr_iovs pp' = nr_iovs pp /\ holes_of pp' = holes_of pp /\
    (ret = 0 /\ page_added pp pp' a \/ ret < 0 /\ pp' = pp /\ cap <= tail_pages pp /\ (ret = - EAGAIN -> nr_pipes pp = NR_PIPES_PER_CHUNK)) /\
    (free_bufs pp <> [] -> ret = 0) /\ (al = [] -> (ret = 0 \/ ret = - EAGAIN) /\ al' = []).
Proof.
  intros Hc Hsp Ha Hroom. pose proof Hsp as [(P1 & P2 & P3) Hs Hb]. pose proof (po_tail _ P1) as (init & t & E & _). pose proof (tail_facts pp init t P1 E) as ([Q1 Q2 Q3 Q4 Q5 Q6] & _).
  destruct (sized_buf pp t Hs Q1) as [Hsz Hf]. assert (Hoff : pipe_off (buf pp t) = 0).
  { pose proof (co_ids _ _ P3) as Hi. rewrite Forall_forall in Hi. apply (Hi t). rewrite E, <- app_assoc. apply elem_of_app. right. apply list_elem_of_here. }
  assert (Htp : tail_pages pp = pages_in (buf pp t) /\ tail_size pp = pipe_size (buf pp t)) by (unfold tail_pages, tail_size; rewrite E, last_snoc; done). destruct Htp as [Htp Hts].
  unfold page_pipe_add_page. assert (Htry : exists ret pp1, try_add_page setpipe pp a 0 = Ret (ret, pp1) /\ (ret = 0 /\ tail_grown pp pp1 init t a \/ ret = 1 /\ pp1 = pp /\ cap <= tail_pages pp /\ free_iov pp < nr_iovs pp)).
  { destruct (decide (tail_end pp = Some a /\ tail_pages pp < tail_size pp)) as [[He Hl]|Hno].
    - destruct (try_add_grows pp init t a P1 E Ha Hf Hb He ltac:(lia)) as (pp1 & -> & Hg & _). exists 0, pp1. auto.
    - assert (Hfree : free_iov pp < nr_iovs pp) by (destruct Hroom; [done|tauto]).
      destruct (try_add_page_ok setpipe Hset pp init t a 0 P1 E Ha Hfree) as (ret & pp1 & -> & [(-> & _ & Hg)|(-> & ->)] & Hz); eexists _, _; (split; [done|]); [by left|right].
      split; [done|]. split; [done|]. split; [|done]. destruct (Z.lt_ge_cases (pages_in (buf pp t) + pipe_off (buf pp t)) (pipe_size (buf pp t))) as [Hlt|Hge]; [by specialize (Hz Hf Hlt)|lia]. }
  destruct Htry as (ret & pp1 & Et & Hcase). rewrite Et. cbn [obind]. destruct Hcase as [[-> Hg]|(-> & -> & Hfull & Hfree)]; cbn [Z.leb Z.compare].
  { destruct (tail_added woff pp pp1 init t a Hsp Ha E Et Hg Hc) as (A1 & A2 & A3 & A4). eexists _, _, _. split; [done|]. split_and!; try done; auto. }
  destruct (page_pipe_grow_ok lazy_pages getpipe setpipe Hget' Hset al pp 0 P1 (or_intror P1)) as (r2 & pp2 & al2 & Eg & Hc2). rewrite Eg. cbn [obind].
  destruct (page_pipe_grow_chunk lazy_pages getpipe setpipe woff al pp 0 r2 pp2 al2 P1 P3 Eg) as (G1 & G2 & G3 & _ & G5 & G6).
  destruct (grow_tail_facts woff al pp r2 pp2 al2 P1 P3 Hs Eg) as (F1 & F2 & F3 & F4).
  assert (Hgp : 0 <= getpipe) by (destruct Hget as [? _]; unfold PAGE_SIZE in *; lia). destruct Hc2 as [(-> & K1 & K2 & K3 & K4 & init2 & t2 & E2 & Hf2 & Hr2)|(Hneg & _)].
  - cbn [Z.ltb Z.compare]. destruct (try_add_page_ok setpipe Hset pp2 init2 t2 a 0 K1 E2 Ha ltac:(lia)) as (r3 & pp3 & Et3 & Hc3 & Hz). rewrite Et3.
    cbn [obind]. rewrite (Hz Hf2 Hr2) in *. cbn [Z.gtb Z.compare]. destruct Hc3 as [(_ & _ & Hg)|(? & _)]; [|done]. pose proof (page_pipe_grow_holes _ _ _ _ _ _ _ _ _ Eg) as Hh. destruct (holes_of_pages _ _ Hh) as [_ Hh2].
    destruct (tail_added woff pp2 pp3 init2 t2 a) as (A1 & [A2 A3 A4] & A5 & A6); try done; [split; [split; [done|]; split; [by apply Hh2|done]|done|by rewrite F2]|].
    destruct (F4 eq_refl) as (i3 & t3 & E3 & T1 & T2 & T3). eexists _, _, _. split; [done|]. split; [done|]. split; [congruence|]. split; [congruence|].
    split; [left; split; [done|]|split; [done|]; intros Hal; by destruct (G6 Hal Hgp)].
    assert (Ht2 : tail_pages pp2 = 0) by (unfold tail_pages; by rewrite E3, last_snoc). rewrite Ht2, K3 in A4. split; [by rewrite A2, K2|done|]. right. split; [done|].
    destruct A4 as [[B1 B2]|[B1 _]]; [|lia]. split; [lia|]. case_bool_decide; lia.
  - destruct (F3 ltac:(lia)) as [-> F5]. destruct (Z.ltb_spec r2 0); [|lia]. eexists _, _, _. split; [done|]. split; [done|]. split; [done|]. split; [done|]. split; [by right|]. split; [done|]. intros Hal. by apply G6.
Qed.

(** Emptied, the page pipe has an empty tail and buffers to spare. *)
Lemma shm_reinit woff pp : shm_pipe woff pp -> nr_pipes pp = NR_PIPES_PER_CHUNK ->
  exists pp', page_pipe_reinit lazy_pages getpipe setpipe pp = Ret pp' /\ shm_pipe (free_iov pp) pp' /\ free_bufs pp' <> [] /\ stored_addrs pp' = [] /\ hole_pages pp' = [] /\
    free_iov pp' = free_iov pp /\ nr_iovs pp' = nr_iovs pp /\ tail_end pp' = None /\ tail_pages pp' = 0.
Proof.
  intros [Hcp Hs Hb] H8. destruct (chunk_reinit lazy_pages getpipe setpipe Hget' Hset woff pp Hcp H8) as (pp' & E & R0 & R1 & R2 & R3 & R4 & R5). exists pp'. split; [done|].
  destruct Hcp as (Hok & _ & _). pose proof (po_tail _ Hok) as (init & t & Et & _). pose proof (tail_facts pp init t Hok Et) as ([Q1 _ _ _ _ _] & _).
  unfold page_pipe_reinit in E. destruct (negb (chunk_mode pp)); [done|]. unfold page_pipe_grow in E. cbn [free_bufs set_holes set_bufs] in E. rewrite Et, rev_app_distr in E. cbn [rev app obind Z.eqb] in E.
  injection E as E. assert (Hbt : bufs pp' = [t] /\ arena pp' = alter (ppb_init 0 0 0 (free_iov pp)) t (arena pp) /\ break_iov pp' = break_iov pp) by (rewrite <- E; done). destruct Hbt as (E1 & E2 & E3).
  assert (Hbuf : buf pp' t = ppb_init 0 0 0 (free_iov pp) (buf pp t)) by (unfold buf; rewrite E2; by apply list_lookup_total_alter_eq).
  split; [split; [done| |congruence]|]. { unfold sized. rewrite E2. apply (sized_upd pp t (ppb_init 0 0 0 (free_iov pp)) pp Hs eq_refl). intros Hlt. by destruct (sized_buf pp t Hs Hlt). }
  split_and!; try done; [unfold tail_end|unfold tail_pages]; rewrite E1; cbn [last]; by rewrite Hbuf.
Qed.

(** *** Counting iovecs *)

(** The runs of adjacent pages; [prev]: where the page before ends. *)
Fixpoint runs (prev : option Z) (l : list Z) : Z :=
  match l with [] => 0 | a :: l => (if bool_decide (prev = Some a) then 0 else 1) + runs (Some (a + PAGE_SIZE)) l end.

Lemma runs_nonneg prev l : 0 <= runs prev l.
Proof. revert prev. induction l as [|a l IH]; intros prev; cbn [runs]; [done|]. specialize (IH (Some (a + PAGE_SIZE))). case_bool_decide; lia. Qed.

(** After [P] pages in [R] runs, the last of which ends at [pe]: every iovec that
    does not start a run starts a buffer, behind a buffer of [cap] pages. *)
Definition cost_inv (pp : page_pipe) (R P : Z) (pe : option Z) : Prop :=
  pe <> None /\ tail_end pp = pe /\ cap * (free_iov pp - R) + tail_pages pp <= P \/
  tail_end pp = None /\ tail_pages pp = 0 /\ (pe = None /\ P = 0 /\ free_iov pp <= R \/ cap * (free_iov pp - R) + cap <= P).

Lemma cost_room pp R P pe a N : 0 < cap -> cost_inv pp R P pe -> tail_pages pp <= tail_size pp -> cap <= tail_size pp -> nr_iovs pp = N -> 0 <= tail_pages pp -> 0 <= P ->
  R + (if bool_decide (pe = Some a) then 0 else 1) + P / cap <= N -> free_iov pp < nr_iovs pp \/ tail_end pp = Some a /\ tail_pages pp < tail_size pp.
Proof.
  intros Hc Hi Hts Hcs HN Ht HP Hb. assert (Hd : forall k, cap * k <= P -> k <= P / cap) by (intros k Hk; apply Z.div_le_lower_bound; lia).
  pose proof (Z.div_pos P cap HP Hc) as Hpos. destruct Hi as [(H1 & H2 & H3)|(H1 & H2 & [(-> & -> & H3)|H3])].
  - case_bool_decide as Hpe.
    + destruct (Z.lt_ge_cases (tail_pages pp) (tail_size pp)) as [Hl|Hg]; [right; split; congruence|left]. specialize (Hd (free_iov pp - R + 1) ltac:(lia)). lia.
    + left. specialize (Hd (free_iov pp - R) ltac:(lia)). lia.
  - left. rewrite bool_decide_false in Hb by done. lia.
  - left. specialize (Hd (free_iov pp - R + 1) ltac:(lia)). case_bool_decide; lia.
Qed.

Lemma cost_add pp pp' R P pe a : 0 < cap -> cost_inv pp R P pe -> page_added pp pp' a -> 0 <= tail_pages pp ->
  cost_inv pp' (R + (if bool_decide (pe = Some a) then 0 else 1)) (P + 1) (Some (a + PAGE_SIZE)).
Proof.
  intros Hc Hi [_ A2 A3] Ht. left. split; [done|]. split; [done|]. destruct Hi as [(H1 & H2 & H3)|(H1 & H2 & H3)].
  - rewrite H2 in A3. destruct A3 as [[B1 B2]|(B1 & B2 & B3)]; case_bool_decide; nia.
  - rewrite H1 in A3. rewrite (bool_decide_false (None = Some a)) in A3 by done. destruct A3 as [[B1 B2]|(B1 & _)]; [|lia]. destruct H3 as [(-> & -> & H3)|H3]; case_bool_decide; try done; nia.
Qed.

Lemma cost_reinit pp pp' R P pe : cost_inv pp R P pe -> cap <= tail_pages pp -> 0 < cap -> tail_end pp' = None -> tail_pages pp' = 0 -> free_iov pp' = free_iov pp -> cost_inv pp' R P pe.
Proof. intros [(H1 & H2 & H3)|(_ & H2 & _)] Hf Hc E1 E2 E3; [|lia]. right. rewrite E3. split; [done|]. split; [done|]. right. lia. Qed.
End Room.

(** ** The pages of the segment in the images *)
Section ShmemOk.
Context (o : mem_opts) (tracking : bool) (getpipe : Z) (setpipe : Z -> Z) (cap : Z).
Context (Hget : PAGE_SIZE <= getpipe < 2 ^ 31 /\ cap = getpipe / PAGE_SIZE /\ cap <= UIO_MAXIOV).
Context (Hset : forall n, setpipe n < 0 \/ n <= setpipe n < 2 ^ 31) (Hmax : forall n, n <= PIPE_MAX_SIZE * PAGE_SIZE -> setpipe n <= UIO_MAXIOV * PAGE_SIZE).
Context (seek_data : Z -> option (option Z)) (seek_hole : Z -> option Z).
Context (mem : Z -> list Z) (Hmem : forall a, zlen (mem a) = PAGE_SIZE).
Context (lz4c : list Z -> Z -> Z -> option (list Z)) (lz4 : list Z -> Z -> option (list Z)) (Hlz : lz4_contract lz4c lz4).
Context (auto : bool) (cbs acc : Z) (compress : bool) (Hcbs : cbs = 0 \/ PAGE_SIZE <= cbs < (MAX_BLOCK_PAGES + 1) * PAGE_SIZE).
Context (ls : list (list pagemap_entry)) (addr : Z).
Abbreviation T := (loc_transport lz4c auto cbs acc compress).
Abbreviation state := (shm_state page_xfer).
Abbreviation sized := (sized cap).
Abbreviation shm_pipe := (shm_pipe cap).

Lemma cap_pos : 0 < cap.
Proof. destruct Hget as (H1 & -> & _). by destruct (pipe_pages getpipe H1). Qed.

Lemma segs_pages (l : list iovec) : Forall page_iov l -> zlen l <= zlen (concat (iov_pages <$> l)).
Proof.
  induction 1 as [|iov l Hi _ IH]; [done|]. rewrite fmap_cons. cbn [concat]. rewrite zlen_app. pose proof (iov_base_page iov Hi) as Hb.
  assert (1 <= zlen (iov_pages iov)) by (destruct (iov_pages iov); [by apply elem_of_nil in Hb|unfold zlen; cbn [length]; lia]). unfold zlen in *. cbn [length]. lia.
Qed.

Lemma splice_bufs_ok pp l : Forall (buf_ok pp) l -> Forall (fun id => 0 <= ppb_pipe (buf pp id)) l -> sized pp ->
  forall d pipes, let '(ok, pipes', d') := splice_bufs mem d pp l pipes in
    (ok = true -> forall p, pipe_get pipes' p = pipe_get pipes p ++ pipe_data true p (seg_data mem pp l)) /\ (denv_ok d -> ok = true /\ denv_ok d').
Proof.
  intros Hb Hi Hs. induction l as [|id l IH]; intros d pipes; cbn [splice_bufs].
  { split; [|done]. intros _ p. unfold seg_data, pipe_data. cbn. by rewrite app_nil_r. }
  apply Forall_cons_1 in Hb as [[Q1 Q2 Q3 Q4 Q5 Q6] Hb], Hi as [Hi1 Hi]. destruct (sized_buf cap pp id Hs Q1) as [Hsz _]. pose proof (segs_pages _ Q3) as Hle.
  unfold vmsplice. replace (zlen (buf_iovs pp id) >? UIO_MAXIOV) with false by (symmetry; rewrite Z.gtb_ltb; apply Z.ltb_ge; lia).
  set (bytes := concat (mem_bytes mem <$> buf_iovs pp id)). assert (Hbytes : zlen bytes = pages_in (buf pp id) * PAGE_SIZE) by (unfold bytes; rewrite bytes_of_pages, (zlen_mem_pages mem Hmem), Q4; done).
  destruct (io_answer (d_vmsplice d) (zlen bytes)) as [ret vm] eqn:Eio. pose proof (zlen_nonneg bytes) as Hz. rewrite u64_small by (unfold UIO_MAXIOV, PAGE_SIZE in *; lia).
  assert (Hcalm : denv_ok d -> ret = pages_in (buf pp id) * PAGE_SIZE /\ denv_ok (DEnv (d_rpc d) vm)) by (intros ->; cbn in Eio; injection Eio as <- <-; done).
  destruct (Z.eqb_spec ret (pages_in (buf pp id) * PAGE_SIZE)) as [Er|Hne]; cbn [negb]; [|split; [done|]; intros Hd; by destruct (Hcalm Hd)].
  rewrite take_ge by (unfold zlen in Hbytes; lia). specialize (IH Hb Hi (DEnv (d_rpc d) vm) (pipe_append pipes (ppb_pipe (buf pp id)) (pipe_get pipes (ppb_pipe (buf pp id)) ++ bytes))).
  destruct (splice_bufs mem _ pp l _) as [[ok pipes'] d']. destruct IH as [I1 I2]. split; [|intros Hd; apply I2; by apply Hcalm].
  intros Hok p. rewrite (I1 Hok), pipe_get_append by done. unfold seg_data. cbn [fmap list_fmap concat]. rewrite pipe_data_app, (pipe_data_buf mem). fold bytes.
  destruct (Z.eqb_spec p (ppb_pipe (buf pp id))) as [->|]; [by rewrite app_assoc|done].
Qed.

(** Between two pages: the pages [S] of the mapping are stored or in the pipe. *)
Definition shm_inv (st : state) (S : list Z) (v N : Z) : Prop :=
  exists woff, pipe_inv mem lz4 ls addr (s_pp st) (s_x st) (s_pipes st) woff S [] v N /\ shm_pipe woff (s_pp st).
Definition calm (st : state) : Prop := s_al st = [] /\ xenv_ok (s_e st) /\ denv_ok (s_d st).

Lemma shm_dump_pages_ok st S v N : shm_inv st S v N -> 2 * PAGE_SIZE * zlen S <= OFF_MAX ->
  exists ok st', shm_dump_pages mem T st = Ret (ok, st') /\
    (s_pp st' = s_pp st /\ s_al st' = s_al st /\ s_data st' = s_data st /\ s_hole st' = s_hole st) /\
    (ok = true -> image_ok mem lz4 ls addr (s_x st') S [] v /\ forall p, pipe_get (s_pipes st') p = []) /\ (calm st -> ok = true /\ calm st').
Proof.
  intros (woff & Hinv & [(P1 & P2 & P3) Hs Hbr]) Hsz. unfold shm_dump_pages. pose proof Hinv as [_ _ _ Hem _]. pose proof (po_pre _ P1) as [_ B _ _ _]. pose proof (co_ids _ _ P3) as C4.
  apply Forall_app in C4 as [C4 _]. pose proof (splice_bufs_ok (s_pp st) (bufs (s_pp st)) B ltac:(eapply Forall_impl; [exact C4|]; by intros id [? _]) Hs (s_d st) (s_pipes st)) as Hsp.
  destruct (splice_bufs mem (s_d st) (s_pp st) (bufs (s_pp st)) (s_pipes st)) as [[ok pipes1] d1]. destruct Hsp as [H1 H2]. destruct ok; cbn [negb].
  2:{ eexists _, _. split; [done|]. split; [done|]. split; [done|]. intros (_ & _ & Hd). by destruct (H2 Hd). }
  destruct (pipe_inv_flush mem Hmem lz4c lz4 Hlz auto cbs acc compress Hcbs ls addr _ _ _ _ S [] v N pipes1 (s_e st) Hinv Hsz) as (ok2 & x' & pipes2 & e' & -> & F1 & F2); [intros p; by rewrite (H1 eq_refl), Hem|].
  cbn [obind]. eexists _, _. split; [done|]. split; [done|]. split; [done|]. intros (C1 & C2 & C3). destruct (F2 C2) as [-> Hxe]; [intros p Hp; constructor|]. split; [done|]. unfold calm. cbn. by destruct (H2 C3).
Qed.

Lemma tail_bounds woff pp : shm_pipe woff pp -> 0 <= tail_pages pp <= tail_size pp /\ cap <= tail_size pp.
Proof.
  intros [(P1 & _ & _) Hs _]. pose proof (po_tail _ P1) as (init & t & E & _). pose proof (tail_facts pp init t P1 E) as ([Q1 Q2 Q3 Q4 Q5 Q6] & _). destruct (sized_buf cap pp t Hs Q1) as [Hz _].
  unfold tail_pages, tail_size. rewrite E, last_snoc. pose proof (zlen_nonneg (concat (iov_pages <$> buf_iovs pp t))). lia.
Qed.

(** One attempt to add the page. *)
Lemma add_one st S v N R P pe a : shm_inv st S v N -> cost_inv cap (s_pp st) R P pe -> page_addr a -> v <= a -> 0 < a -> 0 <= P ->
  R + (if bool_decide (pe = Some a) then 0 else 1) + P / cap <= N ->
  exists ret pp' al', page_pipe_add_page (o_lazy_pages o) getpipe setpipe (s_al st) (s_pp st) a 0 = Ret (ret, pp', al') /\
    (ret = 0 -> cost_inv cap pp' (R + (if bool_decide (pe = Some a) then 0 else 1)) (P + 1) (Some (a + PAGE_SIZE)) /\
       forall al e d data hole pages r, shm_inv (ShmState pp' (s_x st) (s_pipes st) al e d data hole pages r) (S ++ [a]) (a + PAGE_SIZE) N) /\
    (ret <> 0 -> ret < 0 /\ pp' = s_pp st /\ cap <= tail_pages (s_pp st) /\ (ret = - EAGAIN -> nr_pipes (s_pp st) = NR_PIPES_PER_CHUNK)) /\
    (free_bufs (s_pp st) <> [] -> ret = 0) /\ (s_al st = [] -> (ret = 0 \/ ret = - EAGAIN) /\ al' = []).
Proof.
  intros (woff & Hinv & Hsp) Hcost Ha Hv Ha0 HP Hroom. pose proof cap_pos as Hc. destruct (tail_bounds woff _ Hsp) as [Ht1 Ht2]. pose proof Hinv as [_ _ _ _ [_ HN]].
  destruct (add_page_step (o_lazy_pages o) getpipe setpipe cap Hget Hset Hmax woff (s_al st) (s_pp st) a Hc Hsp Ha) as (ret & pp' & al' & -> & A1 & A2 & A3 & A4 & A5 & A6).
  { apply (cost_room cap _ R P pe a N); try done; lia. }
  exists ret, pp', al'. split; [done|]. split; [|split; [|done]].
  - intros ->. destruct A4 as [[_ Hadd]|[? _]]; [|lia]. split; [apply (cost_add cap (s_pp st)); try done; lia|]. intros. exists woff. cbn [s_pp s_x s_pipes]. split; [|done]. destruct A1 as [A1 _ _].
    change (pipe_inv mem lz4 ls addr pp' (s_x st) (s_pipes st) woff (S ++ [a]) ([] ++ []) (a + PAGE_SIZE) N). destruct (holes_of_pages _ _ A3) as [Eh _]. pose proof Hadd as [B1 B2 B3]. apply (pipe_inv_add mem lz4 ls addr (s_pp st) pp' _ _ _ S [] v N); try done.
    + unfold stored_addrs. by rewrite B1, fmap_app.
    + unfold hole_addrs. by rewrite Eh, app_nil_r.
    + rewrite Eh. destruct Hinv as [_ (S0 & H0 & cur & _ & _ & _ & _ & Hfl & _) _ _ _]. apply Hfl.
    + repeat constructor.
    + constructor.
    + intros b _ Hb. by apply elem_of_nil in Hb.
    + apply Forall_cons_2; [lia|constructor].
    + unfold PAGE_SIZE. lia.
    + change (zlen [a]) with 1. change (zlen (@nil Z)) with 0. destruct B3 as [[_ B3]|(_ & _ & B3)]; [destruct (bool_decide (tail_end (s_pp st) = Some a))|]; lia.
  - intros Hne. destruct A4 as [[? _]|(B1 & B2 & B3 & B4)]; done.
Qed.

Lemma put_dirty_ok st S v N R P pe a parent : shm_inv st S v N -> cost_inv cap (s_pp st) R P pe -> page_addr a -> v <= a -> 0 < a -> zlen S = P -> 0 <= addr -> aligned addr ->
  R + (if bool_decide (pe = Some a) then 0 else 1) + P / cap <= N -> 2 * PAGE_SIZE * P <= OFF_MAX ->
  exists r st', put_again o getpipe setpipe mem T 1 parent PST_DIRTY a st = Ret (r, st') /\ s_data st' = s_data st /\ s_hole st' = s_hole st /\
    (r = None -> shm_inv st' (S ++ [a]) (a + PAGE_SIZE) N /\ cost_inv cap (s_pp st') (R + (if bool_decide (pe = Some a) then 0 else 1)) (P + 1) (Some (a + PAGE_SIZE)) /\ s_ret st' = 0) /\
    (forall c, r = Some c -> c < 0) /\ (calm st -> r = None /\ calm st').
Proof.
  intros Hinv Hcost Ha Hv Ha0 HS Had Hal Hroom Hsz. pose proof (zlen_nonneg S) as Hz. pose proof cap_pos as Hc.
  assert (Hpar : parent && page_in_parent o (PST_DIRTY =? PST_DIRTY) = false) by (unfold page_in_parent; cbn; rewrite andb_false_r; apply andb_false_r).
  destruct (add_one st S v N R P pe a Hinv Hcost Ha Hv Ha0 ltac:(lia) Hroom) as (ret & pp1 & al1 & E1 & A1 & A2 & _ & A4).
  cbn [put_again]. change (PST_DIRTY =? PST_ZERO) with false. rewrite Hpar, E1. cbn [obind]. destruct (s_pages st) as [skipped written].
  destruct (Z.eqb_spec ret (- EAGAIN)) as [->|Hne].
  2:{ destruct (Z.eqb_spec ret 0) as [-> |Hn0]; cbn [negb]; eexists _, _; (split; [done|]); (split; [done|]); (split; [done|]).
      - split; [intros _; destruct (A1 eq_refl) as [B1 B2]; split; [apply B2|done]|]. split; [done|]. intros (C1 & C2 & C3). split; [done|]. unfold calm. cbn. by destruct (A4 C1).
      - split; [done|]. split; [intros c [= <-]; by apply A2|]. intros (C1 & _). destruct (A4 C1) as [[?|?] _]; done. }
  destruct (A2 ltac:(discriminate)) as (_ & -> & Hfull & H8). specialize (H8 eq_refl). clear A1 A2.
  set (st1 := ShmState _ _ _ _ _ _ _ _ _ _). assert (Hi1 : shm_inv st1 S v N) by exact Hinv.
  destruct (shm_dump_pages_ok st1 S v N Hi1 ltac:(lia)) as (ok & st2 & -> & (X1 & X2 & X3 & X4) & X5 & X6). cbn [obind]. destruct ok; cbn [negb].
  2:{ eexists _, _. split; [done|]. split; [done|]. split; [done|]. split; [done|]. split; [intros c [= <-]; lia|]. intros (C1 & C2). destruct (A4 C1) as [_ ->]. by destruct (X6 (conj eq_refl C2)). }
  destruct (X5 eq_refl) as [Him Hem]. destruct Hinv as (woff & [_ _ _ _ [Hf HN]] & Hsp). rewrite X1. cbn [s_pp st1].
  destruct (shm_reinit (o_lazy_pages o) getpipe setpipe cap Hget Hset woff (s_pp st) Hsp H8) as (pp3 & -> & R1 & R2 & R3 & R4 & R5 & R6 & R7 & R8). cbn [obind].
  set (st3 := ShmState _ _ _ _ _ _ _ _ _ _). assert (Hi3 : shm_inv st3 S v N).
  { exists (free_iov (s_pp st)). split; [|done]. cbn [s_pp s_x s_pipes st3]. apply pipe_inv_empty; try done; [by destruct R1| |by rewrite R5|congruence].
    destruct Hsp as [(Hok & _) _ _]. destruct (po_iovs _ (po_pre _ Hok)). lia. }
  pose proof (cost_reinit cap (s_pp st) pp3 R P pe Hcost Hfull Hc R7 R8 R5) as Hcost3.
  destruct (add_one st3 S v N R P pe a Hi3 Hcost3 Ha Hv Ha0 ltac:(lia) Hroom) as (ret & pp4 & al4 & E4 & B1 & _ & B3 & B4). specialize (B3 R2). subst ret.
  cbn [s_al s_pp st3] in E4. cbn [s_al s_pp s_x s_pipes s_e s_d s_data s_hole s_pages s_ret st3]. rewrite E4. cbn [obind]. destruct (s_pages st2) as [sk wr]. cbn [Z.eqb negb EAGAIN Z.opp].
  eexists _, _. split; [done|]. cbn [s_data s_hole]. split; [done|]. split; [done|]. split; [intros _; destruct (B1 eq_refl) as [D1 D2]; split; [apply D2|done]|]. split; [done|].
  intros (C1 & C2 & C3). split; [done|]. destruct (A4 C1) as [_ ->]. destruct (X6 (conj eq_refl (conj C2 C3))) as (_ & D1 & D2 & D3). unfold calm. cbn. by destruct (B4 D1).
Qed.

(** *** The walk over the pages *)

(** lseek() on the file behind the segment: [data pfn]: the page is not a
    hole. *)
Record seek_ok (data : Z -> bool) (nrpages : Z) : Prop := SeekOk {
  sk_data : forall pfn, 0 <= pfn < nrpages ->
    match seek_data (pfn * PAGE_SIZE) with
    | None => False
    | Some None => forall q, pfn <= q < nrpages -> data q = false
    | Some (Some off) => pfn <= off / PAGE_SIZE /\ data (off / PAGE_SIZE) = true /\ (forall q, pfn <= q < off / PAGE_SIZE -> data q = false) /\
        match seek_hole off with
        | None => False
        | Some hole => off / PAGE_SIZE <= hole / PAGE_SIZE /\ forall q, off / PAGE_SIZE <= q < hole / PAGE_SIZE -> data q = true
        end
    end
}.

Context (fd : bool) (data : Z -> bool) (nrpages : Z) (Hseek : fd = true -> seek_ok data nrpages).
Context (pstate : option (list Z)) (Hstate : pstate = None \/ tracking = false) (parent : bool).
Context (Haddr : 0 < addr /\ aligned addr /\ 0 <= nrpages /\ addr + (nrpages + 1) * PAGE_SIZE < 2 ^ 64).

(** The pages to be stored. *)
Definition want_page (pfn : Z) : bool := if fd then data pfn else true.
Definition page_at (pfn : Z) : Z := addr + pfn * PAGE_SIZE.
Definition want_pages (l : list Z) : list Z := page_at <$> filter (fun pfn => want_page pfn = true) l.

(** What [next_data_pnf] and [next_hole_pfn] tell about the pages from [pfn] on. *)
Definition known (pfn d h : Z) : Prop :=
  if fd then forall q, pfn <= q < nrpages -> q < h -> data q = negb (q <? d) else d = 0.

Abbreviation one_page := (shm_page o tracking getpipe setpipe seek_data seek_hole mem T fd addr pstate parent).
Abbreviation all_pages := (shm_pages o tracking getpipe setpipe seek_data seek_hole mem T fd addr pstate parent).
Abbreviation put := (put_again o getpipe setpipe mem T 1 parent).

Lemma shm_page_decides pfn st : 0 <= pfn < nrpages -> known pfn (s_data st) (s_hole st) ->
  exists d h, one_page pfn st = put (if want_page pfn then PST_DIRTY else PST_ZERO) (page_at pfn)
      (ShmState (s_pp st) (s_x st) (s_pipes st) (s_al st) (s_e st) (s_d st) d h (s_pages st) (s_ret st)) /\ known (pfn + 1) d h.
Proof.
  intros Hp Hk. assert (Hu : u64 (addr + pfn * PAGE_SIZE) = page_at pfn) by (apply u64_small; unfold page_at, PAGE_SIZE in *; lia).
  assert (Hst : match pstate with Some m => if tracking then get_pstate m pfn else Ret PST_DONT_DUMP | None => Ret PST_DONT_DUMP end = Ret PST_DONT_DUMP) by (destruct Hstate as [-> | ->]; [done|by destruct pstate]).
  assert (Hdec : forall d h, ((d <=? pfn) = want_page pfn) -> (let! pgstate := match pstate with Some m => if tracking then get_pstate m pfn else Ret PST_DONT_DUMP | None => Ret PST_DONT_DUMP end in
      let pgstate := if pgstate =? PST_DONT_DUMP then if pfn <? d then PST_ZERO else PST_DIRTY else pgstate in
      put pgstate (u64 (addr + pfn * PAGE_SIZE)) (ShmState (s_pp st) (s_x st) (s_pipes st) (s_al st) (s_e st) (s_d st) d h (s_pages st) (s_ret st))) =
    put (if want_page pfn then PST_DIRTY else PST_ZERO) (page_at pfn) (ShmState (s_pp st) (s_x st) (s_pipes st) (s_al st) (s_e st) (s_d st) d h (s_pages st) (s_ret st))).
  { intros d h Hd. rewrite Hst, Hu. cbn [obind]. change (PST_DONT_DUMP =? PST_DONT_DUMP) with true. cbv iota zeta. rewrite <- Hd. destruct (Z.ltb_spec pfn d), (Z.leb_spec d pfn); try lia; done. }
  unfold shm_page. unfold want_page, known in *. destruct fd eqn:Efd; cbn [andb].
  2:{ cbn [Z.eqb negb]. exists (s_data st), (s_hole st). split; [|done]. apply Hdec. rewrite Hk. apply Z.leb_le. lia. }
  destruct (Z.leb_spec (s_hole st) pfn) as [Hq|Hin].
  - unfold next_data_segment. rewrite u64_small by (unfold PAGE_SIZE in *; lia). pose proof (sk_data _ _ (Hseek eq_refl) pfn Hp) as Hsd. destruct (seek_data (pfn * PAGE_SIZE)) as [[off|]|]; [| |done].
    + destruct Hsd as (S1 & S2 & S3 & S4). destruct (seek_hole off) as [hole|]; [|done]. destruct S4 as [S4 S5]. cbn [Z.eqb negb]. exists (off / PAGE_SIZE), (hole / PAGE_SIZE). split.
      * apply Hdec. destruct (Z.leb_spec (off / PAGE_SIZE) pfn); [by replace pfn with (off / PAGE_SIZE) by lia|symmetry; apply S3; lia].
      * intros q Hq1 Hq2. destruct (Z.ltb_spec q (off / PAGE_SIZE)); cbn [negb]; [apply S3; lia|apply S5; lia].
    + cbn [Z.eqb negb]. exists ULONG_MAX, ULONG_MAX. split.
      * apply Hdec. rewrite (Hsd pfn) by lia. apply Z.leb_gt. unfold ULONG_MAX, PAGE_SIZE in *. lia.
      * intros q Hq1 Hq2. rewrite (Hsd q) by lia. destruct (Z.ltb_spec q ULONG_MAX); [done|]. unfold ULONG_MAX, PAGE_SIZE in *. lia.
  - cbn [Z.eqb negb]. exists (s_data st), (s_hole st). split; [apply Hdec; rewrite (Hk pfn) by lia; destruct (Z.leb_spec (s_data st) pfn), (Z.ltb_spec pfn (s_data st)); try lia; done|].
    intros q Hq1 Hq2. apply Hk; lia.
Qed.

Lemma shm_pages_ok N m : forall k st S v R P pe, k + Z.of_nat m = nrpages -> 0 <= k -> known k (s_data st) (s_hole st) ->
  shm_inv st S v N -> v <= page_at k -> cost_inv cap (s_pp st) R P pe -> zlen S = P -> let l := want_pages (seqZ k (Z.of_nat m)) in
  R + runs pe l + (P + zlen l) / cap <= N -> 2 * PAGE_SIZE * (P + zlen l) <= OFF_MAX ->
  exists r st', all_pages (seqZ k (Z.of_nat m)) st = Ret (r, st') /\ (r = None -> shm_inv st' (S ++ l) (page_at nrpages) N) /\
    (forall c, r = Some c -> c < 0) /\ (calm st -> r = None /\ calm st').
Proof.
  induction m as [|m IH]; intros k st S v R P pe Hk Hk0 Hkn Hinv Hv Hcost HS l Hroom Hsz.
  { cbn. eexists _, _. split; [done|]. split; [|done]. intros _. unfold l, want_pages. cbn. rewrite app_nil_r. replace nrpages with k by lia.
    destruct Hinv as (woff & Hi & Hs). exists woff. split; [by eapply pipe_inv_mono|done]. }
  assert (El : seqZ k (Z.of_nat (Datatypes.S m)) = k :: seqZ (k + 1) (Z.of_nat m)) by (rewrite seqZ_cons by lia; do 2 f_equal; lia). unfold l in *. clear l. rewrite El in *. cbn [shm_pages].
  destruct (shm_page_decides k st ltac:(lia) Hkn) as (d & h & -> & Hkn'). set (st0 := ShmState _ _ _ _ _ _ _ _ _ _). pose proof (zlen_nonneg S) as Hz. pose proof cap_pos as Hc.
  assert (Hi0 : shm_inv st0 S v N) by exact Hinv. unfold want_pages in *. destruct (want_page k) eqn:Ew.
  - rewrite filter_cons_True in * by done. rewrite fmap_cons in *. cbn [runs] in Hroom. set (l := page_at <$> filter _ _) in *. pose proof (zlen_nonneg l) as Hzl.
    assert (El1 : zlen (page_at k :: l) = zlen l + 1) by (unfold zlen; cbn [length]; lia). rewrite El1 in *. pose proof (runs_nonneg (Some (page_at k + PAGE_SIZE)) l) as Hrn.
    assert (Hpa : page_addr (page_at k)).
    { destruct Haddr as (H1 & H2 & H3 & H4). unfold page_addr, page_at, aligned in *. split; [unfold PAGE_SIZE in *; lia|]. split; [by rewrite Z_mod_plus_full|unfold PAGE_SIZE in *; lia]. }
    assert (Hdiv : P / cap <= (P + (zlen l + 1)) / cap) by (apply Z.div_le_mono; lia).
    destruct (put_dirty_ok st0 S v N R P pe (page_at k) parent Hi0 Hcost Hpa Hv ltac:(unfold page_at, PAGE_SIZE in *; lia) HS ltac:(lia) ltac:(tauto) ltac:(lia) ltac:(unfold PAGE_SIZE in *; lia))
      as (r & st1 & -> & E1 & E2 & A1 & A2 & A3). cbn [obind]. destruct r as [c|]; [eexists _, _; split; [done|]; split; [done|]; split; [intros c' [= <-]; by apply A2|]; intros Hcm; by destruct (A3 Hcm)|].
    destruct (A1 eq_refl) as (B1 & B2 & _).
    destruct (IH (k + 1) st1 (S ++ [page_at k]) (page_at k + PAGE_SIZE) _ (P + 1) _ ltac:(lia) ltac:(lia) ltac:(by rewrite E1, E2) B1 ltac:(unfold page_at; lia) B2) as (r & st' & E & I1 & I2 & I3);
      [rewrite zlen_app; change (zlen [page_at k]) with 1; lia|fold l; replace (P + 1 + zlen l) with (P + (zlen l + 1)) by lia; lia|fold l; replace (P + 1 + zlen l) with (P + (zlen l + 1)) by lia; lia|].
    rewrite E. exists r, st'. split; [done|]. split; [intros Hr; specialize (I1 Hr); by rewrite <- app_assoc in I1|]. split; [done|]. intros Hcm. apply I3. by apply A3.
  - rewrite filter_cons_False in * by congruence. cbn [put_again]. change (PST_ZERO =? PST_ZERO) with true. cbn [obind]. set (st1 := ShmState _ _ _ _ _ _ _ _ _ _).
    destruct (IH (k + 1) st1 S v R P pe ltac:(lia) ltac:(lia) Hkn' Hinv ltac:(unfold page_at, PAGE_SIZE in *; lia) Hcost HS Hroom Hsz) as (r & st' & E & I1 & I2 & I3).
    rewrite E. exists r, st'. split_and!; done.
Qed.

(** C15. A dump saves the contents of a shared memory segment.  For a segment
    whose pages are not tracked, mapped at [addr] and with a working lseek(),
    fresh images, and few enough runs of adjacent pages (a run or a full pipe
    costs an iovec, of which there is one for two pages), [do_dump_one_shmem]
    returns; if it returns 0, the images hold every page of the segment that is
    not a hole, at its offset and with its bytes, through all the refills of the
    page pipe.  It returns 0 if no system call fails. *)
Theorem shmem_dump_complete si x al e d : si_pstate si = pstate -> 0 <= si_size si -> nrpages = (si_size si + PAGE_SIZE - 1) / PAGE_SIZE -> nrpages < 2 ^ 32 ->
  xfer_ok ls 0 x -> xf_pi x = [] -> transfer_lazy x = true ->
  let l := want_pages (seqZ 0 nrpages) in runs None l + zlen l / cap <= (nrpages + 1) / 2 ->
  exists code res, do_dump_one_shmem o tracking getpipe setpipe seek_data seek_hole mem T fd addr si (Some (x, parent)) set_offset al e d = Ret (code, res) /\
    (code = 0 -> exists st, res = Some st /\ pagemaps_ok (xf_pmi (s_x st)) /\
       forall pfn ps, 0 <= pfn < nrpages -> want_page pfn = true -> page_content lz4 ((xf_pmi (s_x st), xf_pi (s_x st)) :: ps) (pfn * PAGE_SIZE) (mem (page_at pfn))) /\
    (al = [] -> xenv_ok e -> denv_ok d -> code = 0).
Proof.
  intros Hps Hs0 Hn Hn32 Hx Hpi Hlazy l Hroom. unfold do_dump_one_shmem. rewrite Hps.
  assert (Hs62 : si_size si < 2 ^ 62) by (pose proof (Z.mod_pos_bound (si_size si + PAGE_SIZE - 1) PAGE_SIZE ltac:(done)); pose proof (Z.div_mod (si_size si + PAGE_SIZE - 1) PAGE_SIZE ltac:(done)); unfold PAGE_SIZE in *; lia).
  rewrite u64_small by (unfold PAGE_SIZE; lia). rewrite <- Hn. destruct Haddr as (Ha1 & Ha2 & Ha3 & Ha4). set (segs := (nrpages + 1) / 2) in *.
  assert (Hseg : 0 <= segs < 2 ^ 32) by (unfold segs; split; [apply Z.div_pos; lia|apply Z.div_lt_upper_bound; lia]). rewrite (u32_small segs) by done. pose proof cap_pos as Hc. destruct Hget as (Hg1 & Hg2 & Hg3).
  destruct (create_chunk_first (o_lazy_pages o) getpipe setpipe al segs None) as (r & al' & -> & C1 & C2). cbn [obind].
  destruct r as [pp|]; [|eexists _, _; split; [done|]; split; [done|]; intros C3 _ _; by destruct (C2 C3 ltac:(unfold PAGE_SIZE in *; lia))].
  destruct (C1 pp eq_refl) as (_ & io & flags & -> & Hio & Hfl). clear C1. assert (Hzio : zlen io = segs) by (destruct Hio as [?|[_ ->]]; [done|lia]).
  destruct (first_pipe_ok (o_lazy_pages o) getpipe segs io flags ltac:(lia) Hzio Hg1 Hfl) as (F1 & F2 & F3 & F4 & F5). set (pp := first_pipe _ _ _ _ _) in *. set (st0 := ShmState _ _ _ _ _ _ _ _ _ _).
  assert (Hinv : shm_inv st0 [] addr segs).
  { exists 0. split; [|split; [done| |done]]; [|unfold sized; cbn; apply Forall_cons_2; [cbn; lia|constructor]]. cbn [s_pp s_x s_pipes st0]. apply pipe_inv_empty; try done; [lia| |].
    - split; [done|exists 0; split; [by destruct Hx|lia]|cbn; by rewrite Hpi|constructor|constructor].
    - intros q. unfold pipe_get, zlookup. case_match; [done|by rewrite lookup_nil]. }
  assert (Hlen : zlen l <= nrpages).
  { unfold l, want_pages, zlen. rewrite length_fmap. pose proof (length_filter (fun pfn => want_page pfn = true) (seqZ 0 nrpages)) as Hl. rewrite length_seqZ in Hl. lia. }
  assert (Hsz : 2 * PAGE_SIZE * (0 + zlen l) <= OFF_MAX) by (unfold PAGE_SIZE, OFF_MAX in *; lia).
  destruct (shm_pages_ok segs (Z.to_nat nrpages) 0 st0 [] addr 0 0 None) as (r & st1 & E & A1 & A2 & A3); rewrite ?Z2Nat.id by lia; try done; try lia.
  { unfold known. destruct fd; [|done]. intros q Hq1 Hq2. cbn in Hq2. lia. }
  { unfold page_at. lia. }
  { right. split; [done|]. split; [done|]. left. split; [done|]. split; [done|]. cbn. lia. }
  rewrite Z2Nat.id in E by lia. rewrite Z2Nat.id in A1 by lia. fold l in A1. cbn [app] in A1. rewrite E. cbn [obind]. destruct r as [c|].
  { eexists _, _. split; [done|]. specialize (A2 c eq_refl). split; [lia|]. intros C3 C4 C5. assert (Hcm : calm st0) by (split; [by destruct (C2 C3 ltac:(unfold PAGE_SIZE in *; lia))|done]). by destruct (A3 Hcm). }
  specialize (A1 eq_refl). destruct (shm_dump_pages_ok st1 l (page_at nrpages) segs A1 ltac:(lia)) as (ok & st2 & -> & _ & X1 & X2). cbn [obind]. eexists _, _. split; [done|]. split.
  - intros Hcode. destruct ok; [|done]. destruct (X1 eq_refl) as [[_ (cur & Hxo & _) _ I4 _] _]. exists st2. split; [done|]. split; [apply (xo_pmi _ _ _ Hxo)|].
    intros pfn ps Hp Hw. rewrite Forall_forall in I4. replace (pfn * PAGE_SIZE) with (page_at pfn - addr) by (unfold page_at; lia). apply I4.
    apply (list_elem_of_fmap_2 page_at). apply list_elem_of_filter. split; [done|]. apply elem_of_seqZ. lia.
  - intros C3 C4 C5. assert (Hcm : calm st0) by (split; [by destruct (C2 C3 ltac:(unfold PAGE_SIZE in *; lia))|done]). destruct (A3 Hcm) as [_ Hc1]. by destruct (X2 Hc1) as [-> _].
Qed.
End ShmemOk.

(** ** Example *)

(** Linux rounds the size of a pipe up to a power of two. *)
Definition kernel_setpipe (n : Z) : Z := if n <=? 2 ^ 22 then 2 ^ Z.log2_up n else -1.

Lemma kernel_setpipe_ok n : (kernel_setpipe n < 0 \/ n <= kernel_setpipe n < 2 ^ 31) /\ (n <= PIPE_MAX_SIZE * PAGE_SIZE -> kernel_setpipe n <= UIO_MAXIOV * PAGE_SIZE).
Proof.
  unfold kernel_setpipe. destruct (Z.leb_spec n (2 ^ 22)) as [Hn|]; [|split; [left; lia|intros _; discriminate]].
  assert (Hl : 0 <= Z.log2_up n <= 22) by (split; [apply Z.log2_up_nonneg|]; change 22 with (Z.log2_up (2 ^ 22)); by apply Z.log2_up_le_mono).
  pose proof (Z.pow_le_mono_r 2 (Z.log2_up n) 22 ltac:(lia) ltac:(lia)) as Hp. pose proof (Z.pow_pos_nonneg 2 (Z.log2_up n) ltac:(lia) ltac:(lia)) as H0.
  split; [right|intros _; unfold UIO_MAXIOV, PAGE_SIZE; lia]. split; [|lia]. destruct (Z.le_gt_cases n 1) as [H1|H1]; [lia|]. by apply Z.log2_up_spec.
Qed.

Definition shm_images : page_xfer := PageXfer 0 true false false 0 [] [] [] (PendingPe 0 0 0 (PageBlockLayout [] 0 0 0) 0 false).
Definition shm_segment (nrpages : Z) : shmem_info := ShmemInfo 1 7 (nrpages * PAGE_SIZE) 0 0 None 0 0 [] false.
Definition shm_mem (a : Z) : list Z := replicate 4096 (a / 4096 mod 256).
Definition shm_opts : mem_opts := MemOpts 0 false false false.

(** A segment of three pages with a hole in the middle. *)
Definition holed_data (off : Z) : option (option Z) := Some (Some (if off =? 4096 then 8192 else off)).
Definition holed_hole (off : Z) : option Z := Some (if off =? 0 then 4096 else 12288).

Lemma holed_seek : seek_ok holed_data holed_hole (fun pfn => negb (pfn =? 1)) 3.
Proof.
  split. intros pfn Hp. assert (Hc : pfn = 0 \/ pfn = 1 \/ pfn = 2) by lia. destruct Hc as [-> |[-> | ->]].
  - change (holed_data (0 * PAGE_SIZE)) with (Some (Some 0)). cbv iota beta. change (holed_hole 0) with (Some 4096). cbv iota. change (0 / PAGE_SIZE) with 0. change (4096 / PAGE_SIZE) with 1.
    split_and!; try lia; try done; intros q Hq; destruct (Z.eqb_spec q 1); try done; lia.
  - change (holed_data (1 * PAGE_SIZE)) with (Some (Some 8192)). cbv iota beta. change (holed_hole 8192) with (Some 12288). cbv iota. change (8192 / PAGE_SIZE) with 2. change (12288 / PAGE_SIZE) with 3.
    split_and!; try lia; try done; intros q Hq; destruct (Z.eqb_spec q 1); try done; lia.
  - change (holed_data (2 * PAGE_SIZE)) with (Some (Some 8192)). cbv iota beta. change (holed_hole 8192) with (Some 12288). cbv iota. change (8192 / PAGE_SIZE) with 2. change (12288 / PAGE_SIZE) with 3.
    split_and!; try lia; try done; intros q Hq; destruct (Z.eqb_spec q 1); try done; lia.
Qed.

Lemma shmem_dump_complete_witness : exists st,
  do_dump_one_shmem shm_opts false 65536 kernel_setpipe holed_data holed_hole shm_mem (loc_transport sample_compressor false 0 0 false) true 0x10000000 (shm_segment 3)
    (Some (shm_images, false)) set_offset [] (XEnv [] [] [] [] [] [] []) (DEnv [] []) = Ret (0, Some st) /\
  page_content sample_codec [(xf_pmi (s_x st), xf_pi (s_x st))] 8192 (shm_mem 0x10002000).
Proof.
  destruct (shmem_dump_complete shm_opts false 65536 kernel_setpipe 16 ltac:(split; [split; [discriminate|reflexivity]|split; [reflexivity|discriminate]])
    (fun n => proj1 (kernel_setpipe_ok n)) (fun n => proj2 (kernel_setpipe_ok n)) holed_data holed_hole shm_mem ltac:(intros a; unfold zlen, shm_mem; by rewrite length_replicate)
    sample_compressor sample_codec sample_codec_contract false 0 0 false ltac:(by left) [] 0x10000000 true (fun pfn => negb (pfn =? 1)) 3)
    with (pstate := @None (list Z)) (parent := false) (si := shm_segment 3) (x := shm_images) (al := @nil bool) (e := XEnv [] [] [] [] [] [] []) (d := DEnv [] [])
    as (code & res & E & H1 & H2).
  - intros _. exact holed_seek.
  - by left.
  - split; [reflexivity|]. split; [reflexivity|]. split; [discriminate|reflexivity].
  - reflexivity.
  - discriminate.
  - reflexivity.
  - reflexivity.
  - split; cbn; done.
  - reflexivity.
  - reflexivity.
  - vm_compute. discriminate.
  - assert (Hcode : code = 0) by (clear E H1; by apply H2). subst code. destruct (H1 eq_refl) as (st & -> & _ & H3). exists st. split; [exact E|]. apply (H3 2 []); [lia|reflexivity].
Defined.

(** ** What the code misses *)

(** A failing lseek() ends the loop with the [ret] of the page before it: the
    dump reports success although no page was stored. *)
Example shmem_seek_error_lost :
  match do_dump_one_shmem shm_opts false 65536 kernel_setpipe (fun off => if off =? 0 then Some (Some 0) else None) (fun _ => Some 4096) shm_mem
          (loc_transport sample_compressor false 0 0 false) true 0x10000000 (shm_segment 2) (Some (shm_images, false)) set_offset [] (XEnv [] [] [] [] [] [] []) (DEnv [] []) with
  | Ret (code, Some st) => code = 0 /\ xf_pmi (s_x st) = [] /\ xf_pi (s_x st) = [] /\ contents (s_pp st) = [(0x10000000, 0)]
  | _ => False
  end.
Proof. vm_compute. auto. Qed.

(** There is an iovec for two pages.  A run of pages that continues in the next
    pipe needs one more: with every other page and the last two in use, a
    segment of 2048 pages makes BUG_ON() fire. *)
Definition crowded_data (off : Z) : option (option Z) :=
  let pfn := off / PAGE_SIZE in Some (Some (if (pfn mod 2 =? 0) || (pfn =? 2047) then off else off + PAGE_SIZE)).
Definition crowded_hole (off : Z) : option Z := Some (if off / PAGE_SIZE <? 2046 then off + PAGE_SIZE else 2048 * PAGE_SIZE).

Example shmem_iovs_overflow :
  do_dump_one_shmem shm_opts false 65536 kernel_setpipe crowded_data crowded_hole shm_mem
    (loc_transport sample_compressor false 0 0 false) true 0x10000000 (shm_segment 2048) (Some (shm_images, false)) set_offset [] (XEnv [] [] [] [] [] [] []) (DEnv [] []) = Bug.
Proof. vm_compute. reflexivity. Qed.
