(* ===== verification/DumpRead.v ===== *)
(** Dump, then restore: what [page_xfer_dump_pages] (criu/page-xfer.c) wrote is
    what a page reader (criu/pagemap.c) gives back.  The writer and the reader
    meet in [page_content] only, the meaning of a chain of images. *)
From S2P Require Import Prelude PagemapImage PageRead Dedup AsyncQueue ReadPages ChainRead ParentWalk PagePipe Compress PageXfer.

(** A reader as [open_page_read_at] leaves it, over the pagemap [l]. *)
Record fresh_reader (l : list pagemap_entry) (pr : page_read) : Prop := FreshReader {
  fr_pmes : pmes pr = l;
  fr_reset : pr = reset_one pr;
  fr_cache : cache_size (blk pr) = 0;
  fr_idle : idle pr
}.

Lemma fresh_reader_ok lz4 l file pr : pagemaps_ok l -> fresh_reader l pr -> reader_ok lz4 file pr.
Proof.
  intros Hl [F1 F2 F3 F4]. split; [by rewrite F1| |by left|done]. rewrite F2. apply cursor_reset; try done. by left.
Qed.

Lemma page_of_index d base k : 0 <= k -> page_of d ((base + k * PAGE_SIZE - base) / PAGE_SIZE) = page_of d k.
Proof. intros Hk. f_equal. replace (base + k * PAGE_SIZE - base) with (k * PAGE_SIZE) by lia. by rewrite Z_div_mult_full. Qed.

Section DumpRead.
Context (preadv : nat -> Z -> Z -> Z) (decode : nat -> page_read_iov -> bool).
Context (partial rd_dedup ctx_ok : bool).
#[local] Existing Instance queue_sync.
Context (lz4 : list Z -> Z -> option (list Z)).

(** A page of the images alone, through a fresh reader. *)
Lemma read_fresh_page parallel flags l file pr e v bytes buf : is_async flags = false ->
  pagemaps_ok l -> fresh_reader l pr -> page_content lz4 [(l, file)] v bytes ->
  0 <= v -> v mod PAGE_SIZE = 0 -> v + PAGE_SIZE < 2 ^ 64 -> 0 <= buf -> buf + PAGE_SIZE < 2 ^ 64 ->
  exists pr' r chain' e', seek_pagemap pr v = Ret (1, pr') /\
    read_pagemap_page (H := queue_sync lz4 [file] preadv decode partial rd_dedup ctx_ok) lz4 parallel false [file] flags [pr'] e v 1 buf
      = Ret (r, chain', e') /\
    (forall w, r = Some w -> filled buf w /\ written w = bytes) /\ (env_ok e -> r <> None).
Proof.
  intros Hfl Hl Hfr Hc Hv0 Hva Hv1 Hb0 Hb1.
  destruct (read_pagemap_page_chain_spec lz4 [file] preadv decode partial rd_dedup ctx_ok parallel (fun _ => bytes) flags pr [] e v 1 buf)
    as (pr' & i & pe & k & Hs & Hat & Hv & [_ Hk] & Hrd); [done| |].
  { pose proof (fr_reset _ _ Hfr) as Er. pose proof (fr_pmes _ _ Hfr) as Ep. split.
    - constructor; [|constructor]. by apply (fresh_reader_ok _ l).
    - apply Forall_cons_2; [|apply Forall_nil_2]. rewrite Er. simpl. done.
    - lia.
    - split_and!; try done; lia.
    - lia.
    - intros j Hj. replace j with 0 by lia. unfold images. simpl. rewrite Ep. by rewrite Z.add_0_r. }
  destruct (Hrd ltac:(lia)) as (r & chain' & e' & Hrun & H1 & H2). exists pr', r, chain', e'. split; [done|]. split; [exact Hrun|].
  split; [|intros He; by apply H2]. intros w Hw. destruct (H1 w Hw) as [_ _ _ D1 _ D2]. split; [done|].
  rewrite D2. unfold page_addrs. simpl. by rewrite app_nil_r.
Qed.

(** C25. Dump and restore agree.  Whatever [page_xfer_dump_pages] stores when it
    succeeds (compressed or not, all-zero and incompressible blocks, padding,
    earlier contents of the images included), a reader opened on the two images
    it wrote finds every page of every transferred segment, and
    [read_pagemap_page] fills the buffer with exactly the bytes the page had
    in the pipe; it always returns, and succeeds if no system call fails. *)
Theorem dumped_pages_read_back lz4c auto cbs acc compress ls e x pipes pp sds cur x' pipes' e'
    iov bflags q d k parallel flags pr re buf :
  lz4_contract lz4c lz4 -> cbs = 0 \/ PAGE_SIZE <= cbs < (MAX_BLOCK_PAGES + 1) * PAGE_SIZE ->
  pp_segments pp = fst <$> sds -> xfer_ok ls cur x -> dump_ready (xf_offset x) (transfer_lazy x) cur sds (pp_holes pp) ->
  (forall p, pipe_data (transfer_lazy x) p sds `prefix_of` pipe_get pipes p) -> zlen (xf_pi x) + segs_size sds <= OFF_MAX ->
  page_xfer_dump_pages (loc_transport lz4c auto cbs acc compress) e x pipes pp = Ret (true, x', pipes', e') ->
  (iov, bflags, q, d) ∈ sds -> transferred (transfer_lazy x) bflags = true -> 0 <= k < iov_len iov / PAGE_SIZE ->
  fresh_reader (xf_pmi x') pr -> is_async flags = false -> 0 <= buf -> buf + PAGE_SIZE < 2 ^ 64 ->
  let v := iov_base iov - xf_offset x + k * PAGE_SIZE in
  exists pr' r chain' re', seek_pagemap pr v = Ret (1, pr') /\
    read_pagemap_page (H := queue_sync lz4 [xf_pi x'] preadv decode partial rd_dedup ctx_ok) lz4 parallel false [xf_pi x'] flags [pr'] re v 1 buf
      = Ret (r, chain', re') /\
    (forall w, r = Some w -> filled buf w /\ written w = page_of d k) /\ (env_ok re -> r <> None).
Proof.
  intros Hlz Hcbs Hsegs Hx Hrdy Hpre Hmax Hrun Hin Ht Hk Hfr Hfl Hb0 Hb1 v.
  destruct (page_xfer_dump_pages_spec lz4c lz4 Hlz auto cbs acc compress Hcbs ls e x pipes pp sds cur Hsegs Hx Hrdy Hpre Hmax)
    as (ok & y & py & ey & Hrun' & H1 & _). rewrite Hrun in Hrun'. injection Hrun' as <- <- <- <-.
  destruct (H1 eq_refl) as ((cur' & Hx') & Hst & Hsds & _). destruct (xs_settings _ _ _ Hst) as [Eo El].
  pose proof (dr_segs _ _ _ _ _ Hrdy) as Hok. rewrite Forall_forall in Hok, Hsds. specialize (Hok _ Hin). specialize (Hsds _ Hin).
  unfold seg_stored in Hsds. rewrite Eo, El, Ht in Hsds. destruct Hok as (Hr & _ & _ & Hd). specialize (Hd Ht).
  destruct (range_nr _ Hr) as (N1 & _ & _). destruct Hr as [[B1 B2] [L1 L2] B3]. cbn [shifted iov_base iov_len] in *.
  assert (Hend : k * PAGE_SIZE + PAGE_SIZE <= iov_len iov) by (rewrite N1; unfold PAGE_SIZE in *; nia).
  apply (read_fresh_page parallel flags (xf_pmi x') (xf_pi x') pr re v (page_of d k) buf); try done.
  - apply (xo_pmi _ _ _ Hx').
  - apply Hsds. by rewrite Hd.
  - unfold v, PAGE_SIZE in *. lia.
  - unfold v, aligned, PAGE_SIZE in *. by rewrite Z_mod_plus_full.
  - unfold v. lia.
Qed.
End DumpRead.

Definition sample_fresh (l : list pagemap_entry) : page_read :=
  PageRead None 0 0 0 (BlkState 0 0 [] 0 0) (Iovec 0 0) l (-1) [] false.

(** The second page of the first segment of the example, written compressed. *)
Lemma dumped_pages_read_back_witness :
  exists x' pipes' e' pr' r chain' re',
    page_xfer_dump_pages (loc_transport sample_compressor true 0 0 true) (XEnv [] [] [] [] [] [] []) sample_xfer
      [sample_low ++ sample_high; []] sample_source = Ret (true, x', pipes', e') /\
    seek_pagemap (sample_fresh (xf_pmi x')) 0x2000 = Ret (1, pr') /\
    read_pagemap_page (H := queue_sync sample_codec [xf_pi x'] (fun _ _ n => n) (fun _ _ => true) false false true)
      sample_codec false false [xf_pi x'] 0 [pr'] (Env [] [] [] []) 0x2000 1 0x70000 = Ret (Some r, chain', re') /\
    written r = page_of sample_low 1.
Proof.
  destruct (page_xfer_dump_pages_spec sample_compressor sample_codec sample_codec_contract true 0 0 true
    ltac:(by left) [sample_base_es] (XEnv [] [] [] [] [] [] []) sample_xfer [sample_low ++ sample_high; []] sample_source
    sample_segments 0 (proj1 sample_source_segments) sample_xfer_ok sample_dump_ready sample_prefix ltac:(vm_compute; discriminate))
    as (ok & x' & pipes' & e' & Hrun & _ & H2).
  destruct (H2 eq_refl sample_hole_backed) as [-> _]. clear H2.
  destruct (dumped_pages_read_back (fun _ _ n => n) (fun _ _ => true) false false true sample_codec
    sample_compressor true 0 0 true [sample_base_es] (XEnv [] [] [] [] [] [] []) sample_xfer [sample_low ++ sample_high; []] sample_source
    sample_segments 0 x' pipes' e' (Iovec 0x1000 8192) 0 0 sample_low 1 false 0 (sample_fresh (xf_pmi x')) (Env [] [] [] []) 0x70000
    sample_codec_contract ltac:(by left) (proj1 sample_source_segments) sample_xfer_ok sample_dump_ready sample_prefix
    ltac:(vm_compute; discriminate) Hrun ltac:(apply list_elem_of_here) eq_refl ltac:(split; [discriminate|reflexivity])
    ltac:(by split) eq_refl ltac:(discriminate) ltac:(reflexivity))
    as (pr' & r & chain' & re' & Hs & Hr & H1 & H2).
  destruct r as [w|]; [|destruct (H2 (conj eq_refl eq_refl)); reflexivity].
  exists x', pipes', e', pr', w, chain', re'. split; [exact Hrun|]. split; [exact Hs|]. split; [exact Hr|]. apply (H1 w eq_refl).
Defined.
