(* ===== verification/LazyIovs.v ===== *)
(** The address bookkeeping of the lazy-pages daemon: the lists of [struct
    lazy_iov] of criu/uffd.c.

    A list is an ordered partition of what is still to be transferred; each
    element says which run-time addresses it covers and where they were at dump
    time.  The operations are those of uffd.c, [unsigned long] and [int]
    arithmetic included; nodes are values, as each is in one list at a time.
    Their meaning is [img_of]: for a run-time address, the dump-time address. *)
From S2P Require Import Prelude.

Record lazy_iov := LazyIov {
  li_start : Z;
  li_end : Z;
  img_start : Z
}.
#[global] Instance lazy_iov_eq_dec : EqDecision lazy_iov.
Proof. solve_decision. Defined.

Definition covers (iov : lazy_iov) (addr : Z) : bool := (li_start iov <=? addr) && (addr <? li_end iov).

(** The position of the first element that covers [addr]. *)
Fixpoint find_iov (l : list lazy_iov) (addr : Z) : option nat :=
  match l with
  | [] => None
  | iov :: l => if (addr >=? li_start iov) && (addr <? li_end iov) then Some O else S <$> find_iov l addr
  end.

(** [iov] as the call leaves it, and the element linked behind it. *)
Definition split_iov (al : list bool) (iov : lazy_iov) (addr : Z) : option (lazy_iov * lazy_iov) * list bool :=
  let '(ok, al) := xalloc al in
  if negb ok then (None, al)
  else (Some (LazyIov (li_start iov) addr (img_start iov),
              LazyIov addr (li_end iov) (u64 (img_start iov + addr - li_start iov))), al).

(** [None]: the element is not moved into [dst] and stays in its own list. *)
Fixpoint insert_walk (new : lazy_iov) (dst : list lazy_iov) : option (list lazy_iov) :=
  match dst with
  | [] => None
  | iov :: rest =>
      if li_start new <? li_start iov then Some (new :: iov :: rest)
      else if match rest with [] => true | _ => false end && (li_start new >? li_start iov) then Some [iov; new]
      else cons iov <$> insert_walk new rest
  end.

Definition iov_list_insert (new : lazy_iov) (dst : list lazy_iov) : option (list lazy_iov) :=
  match dst with [] => Some [new] | _ => insert_walk new dst end.

(** What is left of [src], and [dst]. *)
Fixpoint merge_iov_lists (src dst : list lazy_iov) : list lazy_iov * list lazy_iov :=
  match src with
  | [] => ([], dst)
  | iov :: src =>
      match iov_list_insert iov dst with
      | Some dst => merge_iov_lists src dst
      | None => let '(stay, dst) := merge_iov_lists src dst in (iov :: stay, dst)
      end
  end.

Fixpoint copy_iov_list (al : list bool) (src dst : list lazy_iov) : bool * list lazy_iov * list bool :=
  match src with
  | [] => (true, dst, al)
  | iov :: src =>
      let '(ok, al) := xalloc al in
      if negb ok then (false, dst, al) else copy_iov_list al src (dst ++ [iov])
  end.

(** [len] is an [int]. *)
Fixpoint drop_loop (al : list bool) (l : list lazy_iov) (addr len : Z) : bool * list lazy_iov * list bool :=
  match l with
  | [] => (true, [], al)
  | iov :: rest =>
      let start := li_start iov in
      let stop := li_end iov in
      if (len <=? 0) || (u64 (addr + len) <? start) then (true, l, al)
      else if addr >=? stop then
        let '(ok, rest, al) := drop_loop al rest addr len in (ok, iov :: rest, al)
      else
        let '(addr, len) := if addr <? start then (start, s32 (len - (start - addr))) else (addr, len) in
        if u64 (addr + len) <? stop then
          if addr =? start then
            (true, LazyIov (u64 (start + len)) stop (u64 (img_start iov + len)) :: rest, al)
          else
            match split_iov al iov (u64 (addr + len)) with
            | (None, al) => (false, l, al)
            | (Some (iov, new), al) => (true, LazyIov (li_start iov) addr (img_start iov) :: new :: rest, al)
            end
        else
          let '(ok, rest, al) := drop_loop al rest stop (s32 (len - (stop - addr))) in
          (ok, if addr =? start then rest else LazyIov start addr (img_start iov) :: rest, al)
  end.

Definition __drop_iovs (al : list bool) (iovs : list lazy_iov) (addr len : Z) : bool * list lazy_iov * list bool :=
  drop_loop al iovs addr len.

(** The elements that replace [iov] in its list, and which of them is the answer. *)
Definition extract_range (al : list bool) (iov : lazy_iov) (start stop : Z) : list lazy_iov * option nat * list bool :=
  let finish (iov : lazy_iov) (tail : list lazy_iov) (al : list bool) :=
    if start =? li_start iov then (iov :: tail, Some O, al)
    else
      match split_iov al iov start with
      | (None, al) => (iov :: tail, None, al)
      | (Some (iov, new), al) => (iov :: new :: tail, Some 1%nat, al)
      end in
  if stop <? li_end iov then
    match split_iov al iov stop with
    | (None, al) => ([iov], None, al)
    | (Some (iov, new), al) => finish iov [new] al
    end
  else finish iov [] al.

(** The loop of [__remap_iovs]: what stays in the list, what goes to [remaps].
    The element after a split is visited next. *)
Fixpoint remap_loop (fuel : nat) (al : list bool) (todo : list lazy_iov) (from len off : Z)
    : outcome (bool * list lazy_iov * list lazy_iov * list bool) :=
  match todo with
  | [] => Ret (true, [], [], al)
  | iov :: rest =>
      match fuel with
      | O => NoFuel
      | S fuel =>
          if from >=? li_end iov then
            let! (ok, kept, remaps, al) := remap_loop fuel al rest from len off in
            Ret (ok, iov :: kept, remaps, al)
          else if (len <=? 0) || (u64 (from + len) <=? li_start iov) then Ret (true, todo, [], al)
          else
            let '(from, len) :=
              if from <? li_start iov then (li_start iov, u64 (len - (li_start iov - from))) else (from, len) in
            if from >? li_start iov then
              match split_iov al iov from with
              | (None, al) => Ret (false, todo, [], al)
              | (Some (iov, new), al) =>
                  let! (ok, kept, remaps, al) := remap_loop fuel al (new :: rest) from len off in
                  Ret (ok, iov :: kept, remaps, al)
              end
            else
              let '(cut, al) :=
                if u64 (from + len) <? li_end iov then
                  match split_iov al iov (u64 (from + len)) with
                  | (None, al) => (None, al)
                  | (Some (iov, new), al) => (Some (iov, new :: rest), al)
                  end
                else (Some (iov, rest), al) in
              match cut with
              | None => Ret (false, todo, [], al)
              | Some (iov, rest) =>
                  let moved := LazyIov (u64 (li_start iov + off)) (u64 (li_end iov + off)) (img_start iov) in
                  let! (ok, kept, remaps, al) :=
                    remap_loop fuel al rest (li_end iov) (u64 (len - (li_end iov - li_start iov))) off in
                  Ret (ok, kept, moved :: remaps, al)
              end
      end
  end.

(** On an error the elements already in [remaps], a list on the stack, are lost;
    so is an element the merge does not move. *)
Definition __remap_iovs (al : list bool) (iovs : list lazy_iov) (from to len : Z) : outcome (bool * list lazy_iov * list bool) :=
  let off := u64 (to - from) in
  let! (ok, kept, remaps, al) := remap_loop (2 * length iovs + 2) al iovs from len off in
  if negb ok then Ret (false, kept, al)
  else Ret (true, snd (merge_iov_lists remaps kept), al).

(** ** The meaning of a list *)
Fixpoint img_of (l : list lazy_iov) (addr : Z) : option Z :=
  match l with
  | [] => None
  | iov :: l => if covers iov addr then Some (img_start iov + (addr - li_start iov)) else img_of l addr
  end.

(** Whole pages, at addresses the kernel gives out. *)
Record lazy_ok (iov : lazy_iov) : Prop := LazyOk {
  lo_start : 0 < li_start iov;
  lo_len : li_start iov < li_end iov;
  lo_end : li_end iov < 2 ^ 63;
  lo_img : 0 <= img_start iov /\ img_start iov + (li_end iov - li_start iov) < 2 ^ 63;
  lo_aligned : (PAGE_SIZE | li_start iov) /\ (PAGE_SIZE | li_end iov) /\ (PAGE_SIZE | img_start iov)
}.

(** In ascending order from [lo] on, without overlap. *)
Fixpoint sorted_from (lo : Z) (l : list lazy_iov) : Prop :=
  match l with
  | [] => True
  | iov :: l => lo <= li_start iov /\ lazy_ok iov /\ sorted_from (li_end iov) l
  end.

Definition within (addr len a : Z) : bool := (addr <=? a) && (a <? addr + len).

Lemma img_of_app l1 l2 a : img_of (l1 ++ l2) a = match img_of l1 a with Some v => Some v | None => img_of l2 a end.
Proof. induction l1 as [|iov l1 IH]; simpl; [done|]. by destruct (covers iov a). Qed.

Lemma img_of_head iov l a : img_of (iov :: l) a = if covers iov a then Some (img_start iov + (a - li_start iov)) else img_of l a.
Proof. done. Qed.

Lemma coversP iov a : covers iov a = true <-> li_start iov <= a < li_end iov.
Proof. unfold covers. rewrite andb_true_iff, Z.leb_le, Z.ltb_lt. lia. Qed.
Lemma covers_in iov a : li_start iov <= a < li_end iov -> covers iov a = true.
Proof. apply coversP. Qed.
Lemma covers_out iov a : a < li_start iov \/ li_end iov <= a -> covers iov a = false.
Proof. intros H. apply not_true_iff_false. rewrite coversP. lia. Qed.

Lemma withinP addr len a : within addr len a = true <-> addr <= a < addr + len.
Proof. unfold within. rewrite andb_true_iff, Z.leb_le, Z.ltb_lt. lia. Qed.
Lemma within_in addr len a : addr <= a < addr + len -> within addr len a = true.
Proof. apply withinP. Qed.
Lemma within_out addr len a : a < addr \/ addr + len <= a -> within addr len a = false.
Proof. intros H. apply not_true_iff_false. rewrite withinP. lia. Qed.

Lemma sorted_from_mono lo lo' l : lo' <= lo -> sorted_from lo l -> sorted_from lo' l.
Proof. destruct l as [|iov l]; [done|]. intros Hle (H1 & H2 & H3). split; [lia|done]. Qed.

Lemma sorted_below l : forall lo a, sorted_from lo l -> a < lo -> img_of l a = None.
Proof.
  induction l as [|iov l IH]; intros lo a Hs Ha; [done|]. destruct Hs as (H1 & H2 & H3). simpl.
  rewrite covers_out by lia. apply (IH (li_end iov)); [done|]. pose proof (lo_len _ H2). lia.
Qed.

(** Case analysis on where an address lies, then arithmetic. *)
Ltac decide_covers :=
  repeat match goal with
  | |- context [covers ?i ?a] =>
      let E := fresh "E" in destruct (covers i a) eqn:E; [apply coversP in E|apply not_true_iff_false in E; rewrite coversP in E]; cbn [li_start li_end] in E
  | |- context [within ?x ?n ?a] =>
      let E := fresh "E" in destruct (within x n a) eqn:E; [apply withinP in E|apply not_true_iff_false in E; rewrite withinP in E]
  end.

(** [H]: the elements behind are sorted, from the end of the first one on. *)
Ltac img_tac H :=
  rewrite ?img_of_head; decide_covers; cbn [li_start li_end img_start] in *;
  first [done | lia | f_equal; lia | eapply sorted_below; [exact H|lia] | symmetry; eapply sorted_below; [exact H|lia]].

Lemma split_iov_ok al iov addr : lazy_ok iov -> li_start iov < addr < li_end iov -> (PAGE_SIZE | addr) ->
  exists r al', split_iov al iov addr = (r, al') /\ (al = [] -> r <> None /\ al' = []) /\
    forall iov' new, r = Some (iov', new) ->
      lazy_ok iov' /\ lazy_ok new /\ iov' = LazyIov (li_start iov) addr (img_start iov) /\
      new = LazyIov addr (li_end iov) (img_start iov + (addr - li_start iov)) /\
      forall l a, img_of (iov' :: new :: l) a = img_of (iov :: l) a.
Proof.
  intros [O1 O2 O3 [O4 O5] (O6 & O7 & O8)] Ha Hd. unfold split_iov. destruct (xalloc al) as [ok al'] eqn:Eal.
  assert (Hal : al = [] -> ok = true /\ al' = []) by (intros ->; by injection Eal as <- <-).
  destruct ok; cbn [negb]; eexists _, _; (split; [done|]); (split; [intros Hn; by destruct (Hal Hn)|]); [|done].
  intros ? ? [= <- <-]. rewrite u64_small by lia.
  replace (img_start iov + addr - li_start iov) with (img_start iov + (addr - li_start iov)) by lia.
  split; [split; simpl; auto; lia|]. split.
  { split; simpl; auto; try lia. split_and!; try done. apply Z.divide_add_r; [done|]. by apply Z.divide_sub_r. }
  split; [done|]. split; [done|]. intros l a. rewrite !img_of_head. decide_covers; cbn [li_start img_start] in *; try lia; try done.
  f_equal. lia.
Qed.

Lemma lazy_ok_cut_tail iov addr : lazy_ok iov -> li_start iov < addr <= li_end iov -> (PAGE_SIZE | addr) ->
  lazy_ok (LazyIov (li_start iov) addr (img_start iov)).
Proof. intros [O1 O2 O3 [O4 O5] (O6 & O7 & O8)] Ha Hd. split; simpl; auto; lia. Qed.

Lemma lazy_ok_cut_head iov n : lazy_ok iov -> 0 <= n < li_end iov - li_start iov -> (PAGE_SIZE | n) ->
  lazy_ok (LazyIov (li_start iov + n) (li_end iov) (img_start iov + n)).
Proof.
  intros [O1 O2 O3 [O4 O5] (O6 & O7 & O8)] Ha Hd. split; simpl; auto; try lia.
  split_and!; try done; by apply Z.divide_add_r.
Qed.

(** ** Dropping a range *)

Definition sizes_le (n : Z) (l : list lazy_iov) : Prop := Forall (fun x => li_end x - li_start x <= n) l.

Record drop_post (lo : Z) (l : list lazy_iov) (addr len : Z) (l' : list lazy_iov) : Prop := DropPost {
  dp_sorted : sorted_from lo l';
  dp_img : forall a, img_of l' a = if within addr len a then None else img_of l a;
  dp_sizes : forall n, sizes_le n l -> sizes_le n l'
}.

(** Addresses in front of the first element do not matter. *)
Lemma drop_post_clip lo iov rest addr len l' : sorted_from lo (iov :: rest) -> addr < li_start iov -> li_start iov <= addr + len ->
  drop_post lo (iov :: rest) (li_start iov) (len - (li_start iov - addr)) l' -> drop_post lo (iov :: rest) addr len l'.
Proof.
  intros (H1 & H2 & H3) Ha Hb [P1 P2 P3]. split; [done| |done]. intros a. rewrite P2.
  destruct (Z.lt_ge_cases a (li_start iov)) as [Hlt|Hge].
  - rewrite (sorted_below (iov :: rest) (li_start iov)); [by repeat case_match|split; [lia|done]|done].
  - decide_covers; (done || lia).
Qed.

(** The branches of the loop once [addr] lies in the first element. *)
Lemma drop_inside lo iov rest addr len al : sorted_from lo (iov :: rest) -> li_start iov <= addr -> 0 <= len ->
  addr + len < li_end iov -> (PAGE_SIZE | addr) -> (PAGE_SIZE | len) ->
  exists ok l' al',
    (if addr =? li_start iov then
       (true, LazyIov (u64 (li_start iov + len)) (li_end iov) (u64 (img_start iov + len)) :: rest, al)
     else match split_iov al iov (u64 (addr + len)) with
          | (None, al) => (false, iov :: rest, al)
          | (Some (iov, new), al) => (true, LazyIov (li_start iov) addr (img_start iov) :: new :: rest, al)
          end) = (ok, l', al') /\
    (ok = true -> drop_post lo (iov :: rest) addr len l') /\ (al = [] -> ok = true /\ al' = []).
Proof.
  intros (H1 & H2 & H3) Ha Hl He Da Dl. pose proof H2 as [O1 O2 O3 [O4 O5] _].
  destruct (Z.eqb_spec addr (li_start iov)) as [->|Hne].
  - rewrite !u64_small by lia. eexists _, _, _. split; [done|]. split; [|done]. intros _.
    split; [split_and!; simpl; [lia|apply lazy_ok_cut_head; (done || lia)|done]|intros a; img_tac H3|].
    intros n [N1 N2]%Forall_cons_1. apply Forall_cons_2; [simpl; lia|done].
  - rewrite u64_small by lia. destruct (split_iov_ok al iov (addr + len) H2) as (r & al' & -> & Hal & Hr);
      [lia|by apply Z.divide_add_r|].
    destruct r as [[iov' new]|].
    + destruct (Hr iov' new eq_refl) as (_ & N1 & -> & -> & _). eexists _, _, _. split; [done|]. split; [|intros Hn; by destruct (Hal Hn)].
      intros _. split; [cbn [sorted_from]; split_and!; [simpl; lia|apply (lazy_ok_cut_tail iov); [done|lia|done]|simpl; lia|exact N1|exact H3]|intros a; img_tac H3|].
      intros n [S1 S2]%Forall_cons_1. apply Forall_cons_2; [simpl; lia|]. apply Forall_cons_2; [simpl; lia|done].
    + eexists _, _, _. split; [done|]. split; [done|]. intros Hn. by destruct (Hal Hn).
Qed.

Lemma drop_loop_ok l : forall al lo addr len, sorted_from lo l -> 0 <= addr -> 0 <= len < 2 ^ 31 -> addr + len < 2 ^ 63 ->
  (PAGE_SIZE | addr) -> (PAGE_SIZE | len) ->
  exists ok l' al', drop_loop al l addr len = (ok, l', al') /\
    (ok = true -> drop_post lo l addr len l') /\ (al = [] -> ok = true /\ al' = []).
Proof.
  induction l as [|iov rest IH]; intros al lo addr len Hs Ha Hl He Da Dl; cbn [drop_loop].
  { eexists _, _, _. split; [done|]. split; [|done]. intros _. split; [done| |done]. intros a. simpl. by case_match. }
  pose proof Hs as (H1 & H2 & H3). pose proof H2 as [O1 O2 O3 [O4 O5] (O6 & O7 & O8)].
  rewrite (u64_small (addr + len)), Z.geb_leb by lia.
  destruct ((len <=? 0) || (addr + len <? li_start iov)) eqn:Estop.
  { eexists _, _, _. split; [done|]. split; [|done]. intros _. split; [done| |done]. intros a.
    destruct (within addr len a) eqn:E; [|done]. apply withinP in E. apply orb_prop in Estop.
    rewrite Z.leb_le, Z.ltb_lt in Estop. apply (sorted_below _ (li_start iov)); [split; [lia|done]|lia]. }
  apply orb_false_elim in Estop as [El Ep]. apply Z.leb_gt in El. apply Z.ltb_ge in Ep.
  destruct (Z.leb_spec (li_end iov) addr) as [Hge|Hlt].
  { destruct (IH al (li_end iov) addr len H3) as (ok & rest' & al' & -> & P & Q); try done. eexists _, _, _. split; [done|].
    split; [|done]. intros Hok. destruct (P Hok) as [P1 P2 P3]. split; [split_and!; (done || lia)| |].
    - intros a. rewrite !img_of_head, P2. decide_covers; (done || lia).
    - intros n [N1 N2]%Forall_cons_1. apply Forall_cons_2; [done|by apply P3]. }
  assert (Hstep : forall addr len, li_start iov <= addr < li_end iov -> 0 <= len < 2 ^ 31 -> addr + len < 2 ^ 63 ->
    (PAGE_SIZE | addr) -> (PAGE_SIZE | len) -> exists ok l' al',
      (if u64 (addr + len) <? li_end iov then
         if addr =? li_start iov then (true, LazyIov (u64 (li_start iov + len)) (li_end iov) (u64 (img_start iov + len)) :: rest, al)
         else match split_iov al iov (u64 (addr + len)) with
              | (None, al) => (false, iov :: rest, al)
              | (Some (iov, new), al) => (true, LazyIov (li_start iov) addr (img_start iov) :: new :: rest, al)
              end
       else let '(ok, rest, al) := drop_loop al rest (li_end iov) (s32 (len - (li_end iov - addr))) in
            (ok, if addr =? li_start iov then rest else LazyIov (li_start iov) addr (img_start iov) :: rest, al)) = (ok, l', al') /\
      (ok = true -> drop_post lo (iov :: rest) addr len l') /\ (al = [] -> ok = true /\ al' = [])).
  { clear addr len Ha Hl He Da Dl El Ep Hlt. intros addr len Ha Hl He Da Dl. rewrite u64_small by lia.
    destruct (Z.ltb_spec (addr + len) (li_end iov)) as [Hin|Hout].
    { rewrite <- (u64_small (addr + len)) by lia. apply drop_inside; (done || lia). }
    rewrite s32_small by lia. destruct (IH al (li_end iov) (li_end iov) (len - (li_end iov - addr)) H3) as (ok & rest' & al' & -> & P & Q);
      try done; [lia|lia|lia|by repeat apply Z.divide_sub_r|].
    eexists _, _, _. split; [done|]. split; [|done]. intros Hok. destruct (P Hok) as [P1 P2 P3]. destruct (Z.eqb_spec addr (li_start iov)) as [->|Hne].
    - split; [eapply sorted_from_mono; [|exact P1]; lia| |intros n [N1 N2]%Forall_cons_1; by apply P3]. intros a. rewrite P2, img_of_head.
      destruct (Z.lt_ge_cases a (li_end iov)); [rewrite (sorted_below _ (li_end iov) a H3) by done|]; decide_covers; (done || lia).
    - split; [split_and!; simpl; [lia|apply lazy_ok_cut_tail; (done || lia)|eapply sorted_from_mono; [|exact P1]; lia]| |
        intros n [N1 N2]%Forall_cons_1; apply Forall_cons_2; [simpl; lia|by apply P3]].
      intros a. rewrite !img_of_head, P2.
      destruct (Z.lt_ge_cases a (li_end iov)); [rewrite (sorted_below _ (li_end iov) a H3) by done|]; decide_covers; (done || lia). }
  destruct (Z.ltb_spec addr (li_start iov)) as [Hf|Hf]; [|by apply Hstep; (done || lia)].
  rewrite s32_small by lia. cbv beta iota. destruct (Hstep (li_start iov) (len - (li_start iov - addr))) as (ok & l' & al' & -> & P & Q);
    try done; [lia|lia|by repeat apply Z.divide_sub_r|].
  eexists _, _, _. split; [done|]. split; [|done]. intros Hok. apply drop_post_clip; try done. by apply P.
Qed.

(** ** Inserting and merging *)
Definition apart_from (new : lazy_iov) (l : list lazy_iov) : Prop :=
  forall a, li_start new <= a < li_end new -> img_of l a = None.

Lemma apart_from_cons new iov l : apart_from new (iov :: l) ->
  apart_from new l /\ forall a, li_start new <= a < li_end new -> ~ li_start iov <= a < li_end iov.
Proof.
  intros H. split; intros a Ha; specialize (H a Ha); rewrite img_of_head in H; destruct (covers iov a) eqn:E; try done.
  apply not_true_iff_false in E. by rewrite coversP in E.
Qed.

Lemma insert_walk_ok new l : forall lo, l <> [] -> sorted_from lo l -> lazy_ok new -> lo <= li_start new -> apart_from new l ->
  exists l', insert_walk new l = Some l' /\ sorted_from lo l' /\
    forall a, img_of l' a = if covers new a then Some (img_start new + (a - li_start new)) else img_of l a.
Proof.
  induction l as [|iov rest IH]; intros lo Hne Hs Hn Hlo Hap; [done|]. destruct Hs as (H1 & H2 & H3). cbn [insert_walk].
  destruct (apart_from_cons _ _ _ Hap) as [Hrest Hiov]. pose proof (lo_len _ Hn) as Ln. pose proof (lo_len _ H2) as Li.
  pose proof (Hiov (li_start new) ltac:(lia)) as S1. rewrite Z.gtb_ltb.
  destruct (Z.ltb_spec (li_start new) (li_start iov)) as [Hlt|Hge].
  { assert (li_end new <= li_start iov).
    { destruct (Z.le_gt_cases (li_end new) (li_start iov)); [done|]. specialize (Hiov (li_start iov)). lia. }
    eexists. split; [done|]. split; [by split_and!|]. intros a. by rewrite !img_of_head. }
  destruct rest as [|j rest].
  { destruct (Z.ltb_spec (li_start iov) (li_start new)); [|lia]. cbn [andb]. eexists. split; [done|].
    split; [cbn [sorted_from]; split_and!; (done || lia)|]. intros a. rewrite !img_of_head. decide_covers; try done. by destruct (Hiov a). }
  cbn [andb]. destruct (IH (li_end iov)) as (l' & -> & P1 & P2); try done; [lia|]. eexists. split; [done|].
  split; [by split_and!|]. intros a. rewrite !(img_of_head iov), P2. destruct (covers iov a) eqn:E; [|done].
  apply coversP in E. rewrite covers_out; [done|]. specialize (Hiov a). lia.
Qed.

Lemma iov_list_insert_ok new l lo : sorted_from lo l -> lazy_ok new -> lo <= li_start new -> apart_from new l ->
  exists l', iov_list_insert new l = Some l' /\ sorted_from lo l' /\
    forall a, img_of l' a = if covers new a then Some (img_start new + (a - li_start new)) else img_of l a.
Proof.
  intros Hs Hn Hlo Hap. destruct l as [|iov l]; [|by apply insert_walk_ok]. eexists. split; [done|]. by split_and!.
Qed.

(** The elements of [src] can go into [dst] one by one. *)
Fixpoint mergeable (lo : Z) (src dst : list lazy_iov) : Prop :=
  match src with
  | [] => True
  | iov :: src => lazy_ok iov /\ lo <= li_start iov /\ apart_from iov dst /\ apart_from iov src /\ mergeable lo src dst
  end.

Definition union_of (src dst : list lazy_iov) (a : Z) : option Z :=
  match img_of src a with Some v => Some v | None => img_of dst a end.

Lemma mergeable_insert lo iov dst dst' src : mergeable lo src dst -> apart_from iov src ->
  (forall a, img_of dst' a = if covers iov a then Some (img_start iov + (a - li_start iov)) else img_of dst a) ->
  mergeable lo src dst'.
Proof.
  intros Hm Hap Hd. induction src as [|j src IH]; [done|]. destruct Hm as (M1 & M2 & M3 & M4 & M5).
  destruct (apart_from_cons _ _ _ Hap) as [Hap' Hj]. split_and!; try done; [|by apply IH].
  intros a Ha. rewrite Hd, covers_out; [by apply M3|]. specialize (Hj a). lia.
Qed.

Lemma merge_iov_lists_ok lo src : forall dst, sorted_from lo dst -> mergeable lo src dst ->
  exists dst', merge_iov_lists src dst = ([], dst') /\ sorted_from lo dst' /\ forall a, img_of dst' a = union_of src dst a.
Proof.
  induction src as [|iov src IH]; intros dst Hs Hm; cbn [merge_iov_lists]; [by exists dst|].
  destruct Hm as (M1 & M2 & M3 & M4 & M5).
  destruct (iov_list_insert_ok iov dst lo Hs M1 M2 M3) as (dst1 & -> & P1 & P2).
  destruct (IH dst1 P1) as (dst' & -> & Q1 & Q2); [by eapply mergeable_insert|].
  exists dst'. split; [done|]. split; [done|]. intros a. rewrite Q2. unfold union_of. rewrite img_of_head, P2.
  destruct (covers iov a) eqn:E; [|done]. apply coversP in E. by rewrite (M4 a E).
Qed.

Lemma copy_iov_list_ok src : forall al dst, exists ok dst' al', copy_iov_list al src dst = (ok, dst', al') /\
  (ok = true -> dst' = dst ++ src) /\ (al = [] -> ok = true /\ al' = []).
Proof.
  induction src as [|iov src IH]; intros al dst; cbn [copy_iov_list]; [eexists _, _, _; split; [done|]; by rewrite app_nil_r|].
  destruct (xalloc al) as [ok al1] eqn:Ea. destruct ok; cbn [negb].
  - destruct (IH al1 (dst ++ [iov])) as (ok & dst' & al' & -> & P & Q). eexists _, _, _. split; [done|]. split.
    + intros Hok. by rewrite (P Hok), <- app_assoc.
    + intros ->. injection Ea as <-. by apply Q.
  - eexists _, _, _. split; [done|]. split; [done|]. by intros ->.
Qed.

(** ** Moving a range *)
Lemma u64_offset x d : 0 <= x + d < 2 ^ 64 -> u64 (x + u64 d) = x + d.
Proof. intros H. unfold u64. rewrite Z.add_mod_idemp_r by lia. by rewrite Z.mod_small. Qed.

Section Remap.
Context (delta : Z) (Hdelta : (PAGE_SIZE | delta)).

(** [kept] is without the range, [rm] is the range at its new place. *)
Record remap_post (lo : Z) (l : list lazy_iov) (from len : Z) (kept rm : list lazy_iov) : Prop := RemapPost {
  rp_kept : sorted_from lo kept;
  rp_moved : sorted_from (from + delta) rm;
  rp_rest : forall a, img_of kept a = if within from len a then None else img_of l a;
  rp_img : forall a, img_of rm a = if within (from + delta) len a then img_of l (a - delta) else None
}.

Record movable (from len : Z) : Prop := Movable {
  mv_from : 0 <= from;
  mv_len : 0 <= len;
  mv_end : from + len < 2 ^ 63;
  mv_to : 0 < from + delta /\ from + len + delta < 2 ^ 63;
  mv_aligned : (PAGE_SIZE | from) /\ (PAGE_SIZE | len)
}.

Lemma movable_tail from len k : movable from len -> 0 <= k <= len -> (PAGE_SIZE | k) -> movable (from + k) (len - k).
Proof.
  intros [H1 H2 H3 [H4 H5] [H6 H7]] Hk Dk. split; try lia. split; [by apply Z.divide_add_r|by apply Z.divide_sub_r].
Qed.

Lemma remap_post_stop lo l from len : sorted_from lo l -> 0 <= len ->
  len <= 0 \/ (exists b, sorted_from b l /\ from + len <= b) -> remap_post lo l from len l [].
Proof.
  intros Hs Hl Hn. assert (Hnone : forall a, from <= a < from + len -> img_of l a = None).
  { intros a Ha. destruct Hn as [Hn|(b & Hb & Hle)]; [lia|]. apply (sorted_below l b); [done|lia]. }
  split; try done.
  - intros a. destruct (within from len a) eqn:E; [|done]. apply withinP in E. by apply Hnone.
  - intros a. destruct (within (from + delta) len a) eqn:E; [|done]. apply withinP in E. symmetry. apply Hnone. lia.
Qed.

Lemma remap_post_skip lo iov rest from len kept rm : lo <= li_start iov -> lazy_ok iov -> li_end iov <= from ->
  remap_post (li_end iov) rest from len kept rm -> remap_post lo (iov :: rest) from len (iov :: kept) rm.
Proof.
  intros H1 H2 Hge [P1 P2 P3 P4]. pose proof (lo_len _ H2). split; [by split_and!|done| |].
  - intros a. rewrite !img_of_head, P3. decide_covers; (done || lia).
  - intros a. rewrite img_of_head, P4. decide_covers; (done || lia).
Qed.

(** Addresses in front of the first element do not matter. *)
Lemma remap_post_clip lo iov rest from len kept rm : sorted_from lo (iov :: rest) -> from < li_start iov -> li_start iov <= from + len ->
  remap_post lo (iov :: rest) (li_start iov) (len - (li_start iov - from)) kept rm -> remap_post lo (iov :: rest) from len kept rm.
Proof.
  intros (H1 & H2 & H3) Ha Hb [P1 P2 P3 P4].
  assert (Hlow : forall a, a < li_start iov -> img_of (iov :: rest) a = None).
  { intros a Hlt. apply (sorted_below _ (li_start iov)); [by split_and!|done]. }
  split; [done|eapply sorted_from_mono; [|exact P2]; lia| |].
  - intros a. rewrite P3. destruct (Z.lt_ge_cases a (li_start iov)) as [Hlt|Hge]; [rewrite (Hlow a Hlt); by repeat case_match|].
    decide_covers; (done || lia).
  - intros a. rewrite P4. destruct (Z.lt_ge_cases (a - delta) (li_start iov)) as [Hlt|Hge]; [rewrite (Hlow _ Hlt); by repeat case_match|].
    decide_covers; (done || lia).
Qed.

(** The head of an element that starts in front of the range stays. *)
Lemma remap_post_head lo iov iov' new rest from len kept rm : lo <= li_start iov' -> lazy_ok iov' -> li_end iov' = from ->
  (forall a, img_of (iov' :: new :: rest) a = img_of (iov :: rest) a) ->
  remap_post from (new :: rest) from len kept rm -> remap_post lo (iov :: rest) from len (iov' :: kept) rm.
Proof.
  intros H1 H2 He Heq [P1 P2 P3 P4]. pose proof (lo_len _ H2). split; [split_and!; (done || by rewrite He)|done| |].
  - intros a. rewrite <- Heq, (img_of_head iov' kept), (img_of_head iov' (new :: rest)), P3. decide_covers; (done || lia).
  - intros a. rewrite P4. rewrite <- Heq, (img_of_head iov'). decide_covers; (done || lia).
Qed.

(** An element that starts with the range and ends in it goes. *)
Lemma remap_post_take lo iov rest len kept rm : lo <= li_start iov -> lazy_ok iov -> sorted_from (li_end iov) rest ->
  movable (li_start iov) len -> li_end iov <= li_start iov + len ->
  remap_post (li_end iov) rest (li_end iov) (len - (li_end iov - li_start iov)) kept rm ->
  remap_post lo (iov :: rest) (li_start iov) len kept (LazyIov (li_start iov + delta) (li_end iov + delta) (img_start iov) :: rm).
Proof.
  intros H1 H2 H3 [M1 M2 M3 [M4 M5] _] Hend [P1 P2 P3 P4]. pose proof H2 as [O1 O2 O3 [O4 O5] (O6 & O7 & O8)]. split.
  - eapply sorted_from_mono; [|exact P1]. lia.
  - cbn [sorted_from li_start li_end]. split_and!; [lia| |done]. split; cbn [li_start li_end img_start]; try lia.
    split_and!; try done; by apply Z.divide_add_r.
  - intros a. rewrite P3, img_of_head.
    destruct (Z.lt_ge_cases a (li_end iov)); [rewrite (sorted_below _ _ _ H3) by done|]; decide_covers; (done || lia).
  - intros a. rewrite img_of_head, P4, img_of_head. cbn [li_start img_start]. decide_covers; cbn in *; try done; try lia.
    f_equal. lia.
Qed.

Definition remap_ends (lo : Z) (al : list bool) (l : list lazy_iov) (from len : Z)
    (run : outcome (bool * list lazy_iov * list lazy_iov * list bool)) : Prop :=
  exists ok kept rm al', run = Ret (ok, kept, rm, al') /\
    (ok = true -> remap_post lo l from len kept rm) /\ (al = [] -> ok = true /\ al' = []).

(** The last part of the loop body: the element starts with the range. *)
Lemma remap_take_ok fuel al lo iov rest len :
  (forall al lo from len, sorted_from lo rest -> movable from len -> remap_ends lo al rest from len (remap_loop fuel al rest from len (u64 delta))) ->
  (0 < fuel)%nat -> sorted_from lo (iov :: rest) -> movable (li_start iov) len -> 0 < len ->
  remap_ends lo al (iov :: rest) (li_start iov) len
    (let '(cut, al) :=
       if u64 (li_start iov + len) <? li_end iov then
         match split_iov al iov (u64 (li_start iov + len)) with
         | (None, al) => (None, al)
         | (Some (iov, new), al) => (Some (iov, new :: rest), al)
         end
       else (Some (iov, rest), al) in
     match cut with
     | None => Ret (false, iov :: rest, [], al)
     | Some (iov, rest) =>
         let! (ok, kept, remaps, al) :=
           remap_loop fuel al rest (li_end iov) (u64 (len - (li_end iov - li_start iov))) (u64 delta) in
         Ret (ok, kept, LazyIov (u64 (li_start iov + u64 delta)) (u64 (li_end iov + u64 delta)) (img_start iov) :: remaps, al)
     end).
Proof.
  intros Hrec Hfuel Hs Hm Hlen. pose proof Hs as (H1 & H2 & H3). pose proof Hm as [M1 M2 M3 [M4 M5] [M6 M7]].
  pose proof H2 as [O1 O2 O3 [O4 O5] (O6 & O7 & O8)]. rewrite (u64_small (li_start iov + len)) by lia.
  destruct (Z.ltb_spec (li_start iov + len) (li_end iov)) as [Hin|Hout].
  - destruct (split_iov_ok al iov (li_start iov + len) H2) as (r & al1 & -> & Hal & Hr); [lia|by apply Z.divide_add_r|].
    destruct r as [[iov' new]|].
    2:{ eexists _, _, _, _. split; [done|]. split; [done|]. intros Hn. by destruct (Hal Hn). }
    destruct (Hr iov' new eq_refl) as (N1 & N2 & -> & -> & Heq). cbn [li_start li_end img_start] in *.
    replace (len - (li_start iov + len - li_start iov)) with 0 by lia. change (u64 0) with 0.
    destruct fuel as [|fuel]; [lia|]. cbn [remap_loop li_end li_start]. rewrite Z.geb_leb.
    destruct (Z.leb_spec (li_end iov) (li_start iov + len)); [lia|]. cbn [Z.leb Z.compare orb obind].
    rewrite !u64_offset by lia. eexists _, _, _, _. split; [done|]. split; [|intros Hn; by destruct (Hal Hn)]. intros _.
    assert (Hs' : sorted_from (li_start iov + len) (LazyIov (li_start iov + len) (li_end iov) (img_start iov + (li_start iov + len - li_start iov)) :: rest)).
    { cbn [sorted_from]. split_and!; [simpl; lia|exact N2|exact H3]. }
    destruct (remap_post_take lo (LazyIov (li_start iov) (li_start iov + len) (img_start iov))
      (LazyIov (li_start iov + len) (li_end iov) (img_start iov + (li_start iov + len - li_start iov)) :: rest) len
      (LazyIov (li_start iov + len) (li_end iov) (img_start iov + (li_start iov + len - li_start iov)) :: rest) [] H1 N1 Hs' Hm)
      as [P1 P2 P3 P4]; [simpl; lia|cbn [li_end li_start]; apply remap_post_stop; [exact Hs'|lia|left; lia]|].
    cbn [li_start li_end img_start] in *. split; try done; intros a; [rewrite P3, Heq|rewrite P4, Heq]; done.
  - cbn [obind]. rewrite (u64_small (len - _)), !u64_offset by lia.
    destruct (Hrec al (li_end iov) (li_end iov) (len - (li_end iov - li_start iov)) H3) as (ok & kept & rm & al' & -> & P & Q).
    { replace (li_end iov) with (li_start iov + (li_end iov - li_start iov)) at 1 by lia. apply movable_tail; [done|lia|by apply Z.divide_sub_r]. }
    cbn [obind]. eexists _, _, _, _. split; [done|]. split; [|done]. intros Hok. apply remap_post_take; try done. by apply P.
Qed.

Lemma remap_loop_ok n : forall fuel al l lo from len, length l = n -> sorted_from lo l -> movable from len ->
  (2 * n + 2 <= fuel)%nat \/ (2 * n + 1 <= fuel)%nat /\ match head l with Some iov => from <= li_start iov | None => True end ->
  remap_ends lo al l from len (remap_loop fuel al l from len (u64 delta)).
Proof.
  induction n as [|n IH]; intros fuel al l lo from len Hn Hs Hm Hf.
  { destruct l; [|done]. eexists true, [], [], al. split; [by destruct fuel|]. split; [|done]. intros _.
    apply remap_post_stop; [done|apply Hm|]. right. exists (from + len). done. }
  revert fuel al l lo from len Hn Hs Hm Hf. 
  assert (Hbody : forall fuel al l lo from len, length l = S n -> sorted_from lo l -> movable from len ->
    (2 * S n + 1 <= fuel)%nat -> match head l with Some iov => from <= li_start iov | None => True end ->
    remap_ends lo al l from len (remap_loop fuel al l from len (u64 delta))).
  { intros fuel al l lo from len Hn Hs Hm Hf Hh. destruct l as [|iov rest]; [done|]. simpl in Hh. injection Hn as Hn.
    destruct fuel as [|fuel]; [lia|]. cbn [remap_loop]. pose proof Hs as (H1 & H2 & H3). pose proof Hm as [M1 M2 M3 [M4 M5] [M6 M7]].
    pose proof H2 as [O1 O2 O3 [O4 O5] (O6 & O7 & O8)]. rewrite Z.geb_leb, (u64_small (from + len)) by lia.
    destruct (Z.leb_spec (li_end iov) from); [lia|].
    destruct ((len <=? 0) || (from + len <=? li_start iov)) eqn:Estop.
    { eexists _, _, _, _. split; [done|]. split; [|done]. intros _. apply orb_prop in Estop. rewrite !Z.leb_le in Estop.
      apply remap_post_stop; [done|lia|]. destruct Estop; [by left|right]. exists (li_start iov). by split_and!. }
    apply orb_false_elim in Estop as [El Ep]. apply Z.leb_gt in El, Ep.
    assert (Hrec : forall al lo from len, sorted_from lo rest -> movable from len ->
      remap_ends lo al rest from len (remap_loop fuel al rest from len (u64 delta))).
    { intros al' lo' from' len' Hs' Hm'. apply IH; try done. left. lia. }
    destruct (Z.ltb_spec from (li_start iov)) as [Hlt|Hge].
    - rewrite u64_small by lia. cbv beta iota. rewrite Z.gtb_ltb, Z.ltb_irrefl.
      destruct (remap_take_ok fuel al lo iov rest (len - (li_start iov - from)) Hrec) as (ok & kept & rm & al' & -> & P & Q);
        [lia|done| |lia|].
      { replace (li_start iov) with (from + (li_start iov - from)) at 1 by lia. apply movable_tail; [done|lia|by apply Z.divide_sub_r]. }
      eexists _, _, _, _. split; [done|]. split; [|done]. intros Hok. apply remap_post_clip; try done; [lia|]. by apply P.
    - assert (from = li_start iov) as -> by lia. rewrite Z.gtb_ltb, Z.ltb_irrefl. apply remap_take_ok; (done || lia). }
  intros fuel al l lo from len Hn Hs Hm Hf. destruct Hf as [Hf|[Hf Hh]]; [|by apply Hbody].
  destruct l as [|iov rest]; [done|]. pose proof Hs as (H1 & H2 & H3). pose proof Hm as [M1 M2 M3 [M4 M5] [M6 M7]].
  destruct (Z.le_gt_cases from (li_start iov)) as [Hle|Hgt]; [apply Hbody; try done; lia|].
  destruct fuel as [|fuel]; [lia|]. cbn [remap_loop]. pose proof H2 as [O1 O2 O3 [O4 O5] (O6 & O7 & O8)].
  rewrite Z.geb_leb, (u64_small (from + len)) by lia. destruct (Z.leb_spec (li_end iov) from) as [Hge|Hlt].
  { destruct (IH fuel al rest (li_end iov) from len) as (ok & kept & rm & al' & -> & P & Q); try done; [by injection Hn|left; lia|].
    cbn [obind]. eexists _, _, _, _. split; [done|]. split; [|done]. intros Hok. apply remap_post_skip; try done. by apply P. }
  destruct ((len <=? 0) || (from + len <=? li_start iov)) eqn:Estop.
  { eexists _, _, _, _. split; [done|]. split; [|done]. intros _. apply orb_prop in Estop. rewrite !Z.leb_le in Estop.
    apply remap_post_stop; [done|lia|]. destruct Estop; [by left|lia]. }
  destruct (Z.ltb_spec from (li_start iov)); [lia|]. rewrite Z.gtb_ltb. destruct (Z.ltb_spec (li_start iov) from); [|lia].
  destruct (split_iov_ok al iov from H2) as (r & al1 & -> & Hal & Hr); [lia|done|]. destruct r as [[iov' new]|].
  2:{ eexists _, _, _, _. split; [done|]. split; [done|]. intros Hx. by destruct (Hal Hx). }
  destruct (Hr iov' new eq_refl) as (N1 & N2 & Ei & En & Heq).
  destruct (Hbody fuel al1 (new :: rest) from from len) as (ok & kept & rm & al' & -> & P & Q); try done; [|lia|rewrite En; simpl; lia|].
  { cbn [sorted_from]. split_and!; [rewrite En; simpl; lia|done|by rewrite En]. }
  cbn [obind]. eexists _, _, _, _. split; [done|]. split; [|intros Hx; apply Q, Hal, Hx]. intros Hok.
  apply (remap_post_head lo iov iov' new); try done; [by rewrite Ei|by rewrite Ei|]. by apply P.
Qed.
End Remap.

Lemma sorted_mergeable rm dst : forall lo, 0 <= lo -> sorted_from lo rm -> (forall a, img_of rm a <> None -> img_of dst a = None) ->
  mergeable 0 rm dst.
Proof.
  induction rm as [|iov rm IH]; intros lo Hlo Hs Hap; [done|]. destruct Hs as (H1 & H2 & H3). pose proof (lo_start _ H2). pose proof (lo_len _ H2).
  split_and!; try done; [lia| | |].
  - intros a Ha. apply Hap. by rewrite img_of_head, (covers_in _ _ Ha).
  - intros a Ha. apply (sorted_below _ (li_end iov)); [done|lia].
  - apply (IH (li_end iov)); [lia|done|]. intros a Ha. apply Hap. rewrite img_of_head. by destruct (covers iov a).
Qed.

(** A list the daemon keeps: ascending, disjoint, whole pages. *)
Definition iovs_ok (l : list lazy_iov) : Prop := sorted_from 0 l.

Lemma remap_iovs_spec al l from to len : iovs_ok l -> movable (to - from) from len -> (PAGE_SIZE | to) ->
  (forall a, within to len a = true -> within from len a = false -> img_of l a = None) ->
  exists ok l' al', __remap_iovs al l from to len = Ret (ok, l', al') /\
    (ok = true -> iovs_ok l' /\ forall a, img_of l' a =
       if within to len a then img_of l (a - to + from) else if within from len a then None else img_of l a) /\
    (al = [] -> ok = true /\ al' = []).
Proof.
  intros Hs Hm Ht Hfree. unfold __remap_iovs. destruct (mv_aligned _ _ _ Hm) as [Df _].
  destruct (remap_loop_ok (to - from) ltac:(by apply Z.divide_sub_r) (length l) (2 * length l + 2) al l 0 from len)
    as (ok & kept & rm & al' & -> & P & Q); try done; [by left|]. cbn [obind].
  destruct ok; cbn [negb]; [|eexists _, _, _; split; [done|]; split; [done|]; intros Hn; by destruct (Q Hn)].
  destruct (P eq_refl) as [P1 P2 P3 P4]. replace (from + (to - from)) with to in * by lia.
  destruct (merge_iov_lists_ok 0 rm kept P1) as (l' & -> & M1 & M2).
  { destruct Hm as [_ _ _ [M4 _] _]. apply (sorted_mergeable rm kept to); [lia|done|].
    intros a Ha. rewrite P4 in Ha. rewrite P3. destruct (within to len a) eqn:E; [|done]. destruct (within from len a) eqn:E2; [done|]. by apply Hfree. }
  eexists _, _, _. split; [done|]. split; [|intros Hn; by destruct (Q Hn)]. intros _. split; [exact M1|].
  intros a. rewrite M2. unfold union_of. rewrite P4, P3. replace (a - (to - from)) with (a - to + from) by lia.
  destruct (within to len a) eqn:E; [|done]. destruct (img_of l (a - to + from)) as [v|] eqn:Ev; [done|].
  destruct (within from len a) eqn:E2; [done|]. by apply Hfree.
Qed.

Lemma drop_iovs_spec al l addr len : iovs_ok l -> 0 <= addr -> 0 <= len < 2 ^ 31 -> addr + len < 2 ^ 63 ->
  (PAGE_SIZE | addr) -> (PAGE_SIZE | len) ->
  exists ok l' al', __drop_iovs al l addr len = (ok, l', al') /\
    (ok = true -> drop_post 0 l addr len l') /\ (al = [] -> ok = true /\ al' = []).
Proof. intros. by apply drop_loop_ok. Qed.

(** C26. [__drop_iovs] purges exactly the range: of an ascending list of
    disjoint page ranges it leaves such a list, in which the addresses of
    [addr, addr + len) are gone and every other address still leads to the
    same dump-time address, whichever elements the range cuts, splits or
    swallows.  It fails only when memory is short. *)
Theorem drop_iovs_exact al l addr len : iovs_ok l -> 0 <= addr -> 0 <= len < 2 ^ 31 -> addr + len < 2 ^ 63 ->
  (PAGE_SIZE | addr) -> (PAGE_SIZE | len) ->
  exists ok l' al', __drop_iovs al l addr len = (ok, l', al') /\
    (ok = true -> iovs_ok l' /\ forall a, img_of l' a = if within addr len a then None else img_of l a) /\
    (al = [] -> ok = true /\ al' = []).
Proof.
  intros H1 H2 H3 H4 H5 H6. destruct (drop_iovs_spec al l addr len H1 H2 H3 H4 H5 H6) as (ok & l' & al' & Hr & P & Q).
  exists ok, l', al'. split_and!; try done. intros Hok. by destruct (P Hok).
Qed.

(** C27. [__remap_iovs] moves exactly the range: the loop ends; what was to be
    transferred to [from + x] is now to be transferred to [to + x], from the
    same dump-time address; nothing is left at the old place, everything else
    is unchanged, and the list is ascending and disjoint again.  The new place
    is free, as mremap() guarantees (it may overlap the old one). *)
Theorem remap_iovs_exact al l from to len : iovs_ok l -> movable (to - from) from len -> (PAGE_SIZE | to) ->
  (forall a, within to len a = true -> within from len a = false -> img_of l a = None) ->
  exists ok l' al', __remap_iovs al l from to len = Ret (ok, l', al') /\
    (ok = true -> iovs_ok l' /\ forall a, img_of l' a =
       if within to len a then img_of l (a - to + from) else if within from len a then None else img_of l a) /\
    (al = [] -> ok = true /\ al' = []).
Proof. apply remap_iovs_spec. Qed.

(** ** Examples *)
Definition sample_lazy : list lazy_iov := [LazyIov 0x1000 0x5000 0x1000; LazyIov 0x8000 0xa000 0x8000].

Ltac lazy_tac := split; cbn [li_start li_end img_start]; try lia; split_and!; apply Z.mod_divide; done.

Lemma sample_lazy_ok : iovs_ok sample_lazy.
Proof. unfold iovs_ok, sample_lazy. cbn [sorted_from]. split_and!; try (simpl; lia); try lazy_tac; done. Qed.

(** 0x3000-0x9000 cuts both elements. *)
Lemma drop_iovs_exact_witness :
  exists l', __drop_iovs [] sample_lazy 0x3000 0x6000 = (true, l', []) /\ iovs_ok l' /\ img_of l' 0x2000 = Some 0x2000 /\ img_of l' 0x8000 = None.
Proof.
  destruct (drop_iovs_exact [] sample_lazy 0x3000 0x6000 sample_lazy_ok) as (ok & l' & al' & Hrun & P & Q);
    [lia|lia|lia|apply Z.mod_divide; done|apply Z.mod_divide; done|].
  destruct (Q eq_refl) as [-> ->]. destruct (P eq_refl) as [P1 P2]. exists l'. split; [exact Hrun|]. split; [exact P1|].
  rewrite !P2. split; reflexivity.
Defined.

(** 0x2000-0x9000 goes to 0x21000: the tail of one element, the head of the other. *)
Lemma remap_iovs_exact_witness :
  exists l', __remap_iovs [] sample_lazy 0x2000 0x21000 0x7000 = Ret (true, l', []) /\ iovs_ok l' /\
    img_of l' 0x22000 = Some 0x3000 /\ img_of l' 0x27000 = Some 0x8000 /\ img_of l' 0x3000 = None /\ img_of l' 0x9000 = Some 0x9000.
Proof.
  destruct (remap_iovs_exact [] sample_lazy 0x2000 0x21000 0x7000 sample_lazy_ok) as (ok & l' & al' & Hrun & P & Q).
  - split; try lia; split; apply Z.mod_divide; done.
  - apply Z.mod_divide; done.
  - intros a Ha _. apply withinP in Ha. unfold sample_lazy. rewrite !img_of_head, !covers_out by (simpl; lia). reflexivity.
  - destruct (Q eq_refl) as [-> ->]. destruct (P eq_refl) as [P1 P2]. exists l'. split; [exact Hrun|]. split; [exact P1|].
    rewrite !P2. split_and!; reflexivity.
Defined.
