(* ===== verification/LazyPages.v ===== *)
(** The lazy-pages daemon of criu/uffd.c: the state of one restored process and
    the handlers of its userfaultfd events.

    [lazy_pages_info] holds the two lists of LazyIovs (what is to be transferred
    and what is being transferred), the page reader and, as history, the reads
    asked for and the copies done.  What the kernel answers to an ioctl and what
    [read_pages] returns are arguments of the handlers; [read_pages] of an
    asynchronous request calls [uffd_io_complete] as its last action or later,
    so that a completion is an event of its own.  Not modelled: the daemon's
    sockets, epoll and the list of processes. *)
From S2P Require Import Prelude PagemapImage PageRead AsyncQueue LazyIovs.

Definition DEFAULT_XFER_LEN : Z := 65536.
Definition MAX_XFER_LEN : Z := 4194304.

Definition ENOENT : Z := 2.
Definition ESRCH : Z := 3.
Definition EBADF : Z := 9.
Definition EAGAIN : Z := 11.
Definition ENOMEM : Z := 12.
Definition EEXIST : Z := 17.
Definition ENOSPC : Z := 28.

Record lazy_pages_info := Lpi {
  lp_exited : bool;
  lp_iovs : list lazy_iov;
  lp_reqs : list lazy_iov;
  xfer_len : Z;
  total_pages : Z;
  copied_pages : Z;
  buf_size : Z;
  lp_pr : list page_read;           (** the reader with its parents *)
  lp_asked : list (Z * Z);          (** reads: dump-time address, pages *)
  lp_copied : list (Z * Z)          (** copies: run-time address, pages *)
}.

Definition set_lists (i r : list lazy_iov) (lp : lazy_pages_info) : lazy_pages_info :=
  Lpi (lp_exited lp) i r (xfer_len lp) (total_pages lp) (copied_pages lp) (buf_size lp) (lp_pr lp) (lp_asked lp) (lp_copied lp).
Definition set_xfer_len (n : Z) (lp : lazy_pages_info) : lazy_pages_info :=
  Lpi (lp_exited lp) (lp_iovs lp) (lp_reqs lp) n (total_pages lp) (copied_pages lp) (buf_size lp) (lp_pr lp) (lp_asked lp) (lp_copied lp).
Definition set_reader (c : list page_read) (lp : lazy_pages_info) : lazy_pages_info :=
  Lpi (lp_exited lp) (lp_iovs lp) (lp_reqs lp) (xfer_len lp) (total_pages lp) (copied_pages lp) (buf_size lp) c (lp_asked lp) (lp_copied lp).
Definition log_asked (img nr : Z) (lp : lazy_pages_info) : lazy_pages_info :=
  Lpi (lp_exited lp) (lp_iovs lp) (lp_reqs lp) (xfer_len lp) (total_pages lp) (copied_pages lp) (buf_size lp) (lp_pr lp)
    (lp_asked lp ++ [(img, nr)]) (lp_copied lp).
Definition log_copied (addr nr : Z) (lp : lazy_pages_info) : lazy_pages_info :=
  Lpi (lp_exited lp) (lp_iovs lp) (lp_reqs lp) (xfer_len lp) (total_pages lp) (u64 (copied_pages lp + nr)) (buf_size lp) (lp_pr lp)
    (lp_asked lp) (lp_copied lp ++ [(addr, nr)]).

Definition lpi_init (al : list bool) : option lazy_pages_info * list bool :=
  let '(ok, al) := xalloc al in
  if negb ok then (None, al) else (Some (Lpi false [] [] DEFAULT_XFER_LEN 0 0 0 [] [] []), al).

Definition free_iovs (lp : lazy_pages_info) : lazy_pages_info := set_lists [] [] lp.

Definition handle_exit (epoll_del_ok : bool) (lp : lazy_pages_info) : Z * lazy_pages_info :=
  if negb epoll_del_ok then (-1, lp)
  else
    let lp := free_iovs lp in
    (0, Lpi true (lp_iovs lp) (lp_reqs lp) (xfer_len lp) (total_pages lp) (copied_pages lp) (buf_size lp) (lp_pr lp) (lp_asked lp) (lp_copied lp)).

(** An ioctl: success, or errno and what the kernel stored as the result. *)
Inductive uffd_answer := UffdOk | UffdErr (errno rc : Z).

(** [mcopy_rc] is an [int] here. *)
Definition uffd_recoverable_error (errno mcopy_rc : Z) : bool :=
  (errno =? EAGAIN) || (errno =? ENOENT) || (errno =? EEXIST) ||
  (s32 mcopy_rc =? - ENOENT) || (s32 mcopy_rc =? - EEXIST).

(** The result, the state and the number of pages done. *)
Definition uffd_check_op_error (epoll_del_ok : bool) (lp : lazy_pages_info) (errno mcopy_rc nr : Z) : Z * lazy_pages_info * Z :=
  if (errno =? ENOSPC) || (errno =? ESRCH) then (0, snd (handle_exit epoll_del_ok lp), nr)
  else if negb (uffd_recoverable_error errno mcopy_rc) then (-1, lp, nr)
  else (0, lp, if mcopy_rc <=? 0 then 0 else mcopy_rc / PAGE_SIZE).

Definition uffd_copy (epoll_del_ok : bool) (ans : uffd_answer) (lp : lazy_pages_info) (address nr : Z) : Z * lazy_pages_info * Z :=
  let '(ret, lp, nr) :=
    match ans with
    | UffdOk => (0, lp, nr)
    | UffdErr errno rc => uffd_check_op_error epoll_del_ok lp errno rc nr
    end in
  if negb (ret =? 0) then (-1, lp, nr) else (0, log_copied address nr lp, nr).

Definition uffd_zero (epoll_del_ok : bool) (ans : uffd_answer) (lp : lazy_pages_info) (address nr : Z) : Z * lazy_pages_info :=
  match ans with
  | UffdOk => (0, lp)
  | UffdErr errno rc =>
      let '(ret, lp, _) := uffd_check_op_error epoll_del_ok lp errno rc nr in
      if negb (ret =? 0) then (-1, lp) else (0, lp)
  end.

(** [len] is converted to the [int] parameter of [drop_iovs]. *)
Definition drop_iovs (al : list bool) (lp : lazy_pages_info) (addr len : Z) : Z * lazy_pages_info * list bool :=
  let len := s32 len in
  let '(ok, iovs, al) := __drop_iovs al (lp_iovs lp) addr len in
  let lp := set_lists iovs (lp_reqs lp) lp in
  if negb ok then (-1, lp, al)
  else
    let '(ok, reqs, al) := __drop_iovs al (lp_reqs lp) addr len in
    (if ok then 0 else -1, set_lists (lp_iovs lp) reqs lp, al).

Definition remap_iovs (al : list bool) (lp : lazy_pages_info) (from to len : Z) : outcome (Z * lazy_pages_info * list bool) :=
  let! (ok, iovs, al) := __remap_iovs al (lp_iovs lp) from to len in
  let lp := set_lists iovs (lp_reqs lp) lp in
  if negb ok then Ret (-1, lp, al)
  else
    let! (ok, reqs, al) := __remap_iovs al (lp_reqs lp) from to len in
    Ret (if ok then 0 else -1, set_lists (lp_iovs lp) reqs lp, al).

(** The first request of the list for [img_addr]. *)
Fixpoint find_req (l : list lazy_iov) (img_addr : Z) : option nat :=
  match l with
  | [] => None
  | req :: l => if img_start req =? img_addr then Some O else S <$> find_req l img_addr
  end.

Definition uffd_io_complete (al : list bool) (epoll_del_ok : bool) (ans : uffd_answer) (lp : lazy_pages_info) (img_addr nr : Z)
    : Z * lazy_pages_info * list bool :=
  if lp_exited lp then (0, lp, al)
  else
    match find_req (lp_reqs lp) img_addr with
    | None => (0, lp, al)
    | Some i =>
        match lp_reqs lp !! i with
        | None => (0, lp, al)
        | Some req =>
            let addr := li_start req in
            if addr =? 0 then (0, lp, al)
            else
              let req_pages := u64 (li_end req - li_start req) / PAGE_SIZE in
              let nr := Z.min nr req_pages in
              let '(ret, lp, nr) := uffd_copy epoll_del_ok ans lp addr nr in
              if ret <? 0 then (ret, lp, al)
              else if lp_exited lp then (0, lp, al)
              else
                let lp :=
                  match iov_list_insert req (lp_iovs lp) with
                  | Some iovs => set_lists iovs (delete i (lp_reqs lp)) lp
                  | None => lp
                  end in
                drop_iovs al lp addr (u64 (nr * PAGE_SIZE))
        end
    end.

Definition update_xfer_len (lp : lazy_pages_info) (pf : bool) : lazy_pages_info :=
  let n := if pf then DEFAULT_XFER_LEN else u64 (xfer_len lp + DEFAULT_XFER_LEN) in
  set_xfer_len (if n >? MAX_XFER_LEN then MAX_XFER_LEN else n) lp.

(** ** Reading *)
Section Read.
Context (read_pages : list page_read -> Z -> Z -> Z * list page_read).

Definition uffd_seek_pages (lp : lazy_pages_info) (address : Z) : outcome (Z * lazy_pages_info) :=
  match reset_pagemap (lp_pr lp) with
  | [] => Bug
  | pr :: parents =>
      let! (ret, pr) := seek_pagemap pr address in
      Ret (if ret =? 0 then -1 else 0, set_reader (pr :: parents) lp)
  end.

Definition uffd_handle_pages (lp : lazy_pages_info) (address nr : Z) : outcome (Z * lazy_pages_info) :=
  let! (ret, lp) := uffd_seek_pages lp address in
  if negb (ret =? 0) then Ret (ret, lp)
  else
    let '(ret, c) := read_pages (lp_pr lp) address nr in
    let lp := log_asked address nr (set_reader c lp) in
    if ret <=? 0 then Ret (ret, lp) else Ret (0, lp).

(** [extract_range] on element [i] of the list and [list_move] of the answer to
    the front of the requests. *)
Definition take_range (al : list bool) (lp : lazy_pages_info) (i : nat) (start stop : Z)
    : option lazy_iov * lazy_pages_info * list bool :=
  match lp_iovs lp !! i with
  | None => (None, lp, al)
  | Some iov =>
      let '(seg, ans, al) := extract_range al iov start stop in
      let iovs := take i (lp_iovs lp) ++ seg ++ drop (S i) (lp_iovs lp) in
      match ans with
      | None => (None, set_lists iovs (lp_reqs lp) lp, al)
      | Some j =>
          match seg !! j with
          | None => (None, set_lists iovs (lp_reqs lp) lp, al)
          | Some req => (Some req, set_lists (delete (i + j)%nat iovs) (req :: lp_reqs lp) lp, al)
          end
      end
  end.

(** Called with a non-empty list. *)
Definition xfer_pages (al : list bool) (lp : lazy_pages_info) : outcome (Z * lazy_pages_info * list bool) :=
  match lp_iovs lp with
  | [] => Bug
  | iov :: _ =>
      let len := Z.min (u64 (li_end iov - li_start iov)) (xfer_len lp) in
      let '(req, lp, al) := take_range al lp 0 (li_start iov) (u64 (li_start iov + len)) in
      match req with
      | None => Ret (-1, lp, al)
      | Some req =>
          let nr_pages := u64 (li_end req - li_start req) / PAGE_SIZE in
          let lp := update_xfer_len lp false in
          let! (err, lp) := uffd_handle_pages lp (img_start req) nr_pages in
          Ret (if err <? 0 then -1 else 0, lp, al)
      end
  end.

Definition is_page_queued (lp : lazy_pages_info) (addr : Z) : bool :=
  existsb (fun req => (addr >=? li_start req) && (addr <? li_end req)) (lp_reqs lp).

Definition handle_page_fault (al : list bool) (epoll_del_ok : bool) (ans : uffd_answer) (lp : lazy_pages_info) (fault : Z)
    : outcome (Z * lazy_pages_info * list bool) :=
  let address := Z.land fault PAGE_MASK in
  if is_page_queued lp address then Ret (0, lp, al)
  else
    match find_iov (lp_iovs lp) address with
    | None => let '(ret, lp) := uffd_zero epoll_del_ok ans lp address 1 in Ret (ret, lp, al)
    | Some i =>
        let '(req, lp, al) := take_range al lp i address (u64 (address + PAGE_SIZE)) in
        match req with
        | None => Ret (-1, lp, al)
        | Some req =>
            let lp := update_xfer_len lp true in
            let! (ret, lp) := uffd_handle_pages lp (img_start req) 1 in
            Ret (if ret <? 0 then -1 else 0, lp, al)
        end
    end.

(** [is_remove]: a REMOVE event, whose range is unregistered first. *)
Definition handle_remove (al : list bool) (epoll_del_ok : bool) (ans : uffd_answer) (is_remove : bool) (lp : lazy_pages_info) (start stop : Z)
    : Z * lazy_pages_info * list bool :=
  let len := u64 (stop - start) in
  match is_remove, ans with
  | true, UffdErr errno _ =>
      if errno =? ENOMEM then (0, snd (handle_exit epoll_del_ok lp), al) else (-1, lp, al)
  | _, _ => drop_iovs al lp start len
  end.

Definition handle_remap (al : list bool) (lp : lazy_pages_info) (from to len : Z) : outcome (Z * lazy_pages_info * list bool) :=
  remap_iovs al lp from to len.

(** *** Forks *)
Definition copy_iovs (al : list bool) (src dst : lazy_pages_info) : Z * lazy_pages_info * list bool :=
  let '(ok, iovs, al) := copy_iov_list al (lp_iovs src) (lp_iovs dst) in
  let dst := set_lists iovs (lp_reqs dst) dst in
  if negb ok then (-1, free_iovs dst, al)
  else
    let '(ok, reqs, al) := copy_iov_list al (lp_reqs src) (lp_reqs dst) in
    let dst := set_lists (lp_iovs dst) reqs dst in
    if negb ok then (-1, free_iovs dst, al)
    else
      let '(reqs, iovs) := merge_iov_lists (lp_reqs dst) (lp_iovs dst) in
      let dst := Lpi (lp_exited dst) iovs reqs (xfer_len dst) (total_pages dst) (copied_pages dst) (buf_size src)
                   (lp_pr dst) (lp_asked dst) (lp_copied dst) in
      let '(ok, al) := xalloc al in
      if negb ok then (-1, free_iovs dst, al) else (0, dst, al).

(** The parents of the reader are shared: rewinding the copy rewinds them. *)
Definition dup_page_read (chain : list page_read) : list page_read * list page_read :=
  match chain with
  | [] => ([], [])
  | pr :: parents =>
      let dst := PageRead (pr_pe pr) (cvaddr pr) (pi_off pr) (stream_padding pr) (blk (page_read_free_cache pr)) (bunch pr)
                   (pmes pr) (curr_pme pr) [] (disable_dedup pr) in
      (pr :: reset_pagemap parents, reset_pagemap (dst :: parents))
  end.

(** [root]: the process that was restored, unless the forking one is it.  The
    answer holds the child and the parent. *)
Definition handle_fork (al : list bool) (root : option lazy_pages_info) (parent_lpi : lazy_pages_info)
    : Z * option lazy_pages_info * lazy_pages_info * list bool :=
  let '(child, al) := lpi_init al in
  match child with
  | None => (-1, None, parent_lpi, al)
  | Some lp =>
      let '(ret, lp, al) := copy_iovs al parent_lpi lp in
      if negb (ret =? 0) then (-1, None, parent_lpi, al)
      else
        let from := default parent_lpi root in
        let '(src, dst) := dup_page_read (lp_pr from) in
        let lp := Lpi (lp_exited lp) (lp_iovs lp) (lp_reqs lp) (xfer_len lp) (total_pages from) (copied_pages from) (buf_size lp)
                    (page_read_disable_dedup dst) (lp_asked lp) (lp_copied lp) in
        let pr := match root with None => src | Some _ => lp_pr parent_lpi end in
        (1, Some lp, set_reader (page_read_disable_dedup pr) parent_lpi, al)
  end.

(** *** Events *)
Inductive uffd_msg :=
| MsgPagefault (address : Z)
| MsgRemove (start stop : Z)
| MsgUnmap (start stop : Z)
| MsgRemap (from to len : Z)
| MsgFork
| MsgOther.

(** What read() answers: an errno, or a number of bytes. *)
Inductive uffd_read := ReadErrno (errno : Z) | ReadBytes (n : Z) (msg : uffd_msg).
Definition sizeof_uffd_msg : Z := 32.

Definition no_child (r : outcome (Z * lazy_pages_info * list bool)) : outcome (Z * option lazy_pages_info * lazy_pages_info * list bool) :=
  let! (ret, lp, al) := r in Ret (ret, None, lp, al).

Definition handle_uffd_event (al : list bool) (epoll_del_ok : bool) (ans : uffd_answer) (root : option lazy_pages_info)
    (lp : lazy_pages_info) (r : uffd_read) : outcome (Z * option lazy_pages_info * lazy_pages_info * list bool) :=
  match r with
  | ReadErrno errno =>
      if errno =? EAGAIN then Ret (0, None, lp, al)
      else if (errno =? EBADF) && lp_exited lp then Ret (0, None, lp, al)
      else Ret (-1, None, lp, al)
  | ReadBytes n msg =>
      if n =? 0 then Ret (1, None, lp, al)
      else if negb (n =? sizeof_uffd_msg) then Ret (-1, None, lp, al)
      else
        match msg with
        | MsgPagefault address => no_child (handle_page_fault al epoll_del_ok ans lp address)
        | MsgRemove start stop => no_child (Ret (handle_remove al epoll_del_ok ans true lp start stop))
        | MsgUnmap start stop => no_child (Ret (handle_remove al epoll_del_ok ans false lp start stop))
        | MsgRemap from to len => no_child (handle_remap al lp from to len)
        | MsgFork => Ret (handle_fork al root lp)
        | MsgOther => Ret (-1, None, lp, al)
        end
  end.
End Read.

(** ** Replacing one element of a list *)
Lemma sorted_prepend hi post : forall seg lo, sorted_from lo seg -> Forall (fun x => li_end x <= hi) seg -> sorted_from hi post -> lo <= hi ->
  sorted_from lo (seg ++ post).
Proof.
  induction seg as [|iov seg IH]; intros lo Hs Hf Hp Hle; [by eapply sorted_from_mono|].
  destruct Hs as (H1 & H2 & H3). apply Forall_cons_1 in Hf as [F1 F2]. cbn [app sorted_from]. split_and!; try done. by apply IH.
Qed.

Lemma sorted_replace iov post seg : sorted_from (li_start iov) seg -> Forall (fun x => li_end x <= li_end iov) seg ->
  forall pre lo, sorted_from lo (pre ++ iov :: post) -> sorted_from lo (pre ++ seg ++ post).
Proof.
  intros Hseg Hf. induction pre as [|p pre IH]; intros lo Hs; destruct Hs as (H1 & H2 & H3).
  - pose proof (lo_len _ H2). cbn [app]. eapply sorted_from_mono; [exact H1|]. apply (sorted_prepend (li_end iov)); [done|done|done|lia].
  - cbn [app sorted_from]. split_and!; try done. by apply IH.
Qed.

Lemma sorted_middle iov post a : covers iov a = true -> forall pre lo, sorted_from lo (pre ++ iov :: post) ->
  img_of pre a = None /\ img_of post a = None /\ lazy_ok iov.
Proof.
  intros Hc. pose proof (proj1 (coversP _ _) Hc) as Hr. induction pre as [|p pre IH]; intros lo Hs; destruct Hs as (H1 & H2 & H3).
  - split_and!; try done. eapply sorted_below; [exact H3|]. lia.
  - destruct (IH _ H3) as (A & B & C). split_and!; try done. rewrite img_of_head.
    destruct (covers p a) eqn:E; [|done]. apply coversP in E.
    assert (Hn : img_of (pre ++ iov :: post) a = None) by (eapply sorted_below; [exact H3|lia]).
    rewrite img_of_app, A, img_of_head, Hc in Hn. done.
Qed.

Lemma middle_ok iov post : forall pre lo, sorted_from lo (pre ++ iov :: post) -> lazy_ok iov.
Proof. induction pre as [|p pre IH]; intros lo (H1 & H2 & H3); [done|]. by apply (IH (li_end p)). Qed.

Record extracted (iov : lazy_iov) (start stop : Z) (seg : list lazy_iov) (j : nat) (req : lazy_iov) (rest : list lazy_iov) : Prop := Extracted {
  ex_req : req = LazyIov start stop (img_start iov + (start - li_start iov));
  ex_ok : lazy_ok req;
  ex_seg : seg !! j = Some req;
  ex_rest : delete j seg = rest;
  ex_sorted : sorted_from (li_start iov) rest;
  ex_bound : Forall (fun x => li_end x <= li_end iov) rest;
  ex_img : forall a, img_of rest a = if covers req a then None else img_of [iov] a
}.

Lemma extract_finish al iov start tail stop :
  lazy_ok iov -> li_start iov <= start < li_end iov -> (PAGE_SIZE | start) -> (PAGE_SIZE | stop) ->
  li_end iov <= stop -> sorted_from (li_end iov) tail -> Forall (fun x => li_end x <= stop) tail ->
  exists seg r al',
    (if start =? li_start iov then (iov :: tail, Some O, al)
     else match split_iov al iov start with
          | (None, al) => (iov :: tail, None, al)
          | (Some (iov, new), al) => (iov :: new :: tail, Some 1%nat, al)
          end) = (seg, r, al') /\ (al = [] -> r <> None) /\
    forall j, r = Some j -> exists req rest, seg !! j = Some req /\ delete j seg = rest /\
      req = LazyIov start (li_end iov) (img_start iov + (start - li_start iov)) /\ lazy_ok req /\
      sorted_from (li_start iov) rest /\ Forall (fun x => li_end x <= stop) rest /\
      forall a, img_of rest a = if covers req a then None else img_of (iov :: tail) a.
Proof.
  intros Hi Hs Ds Dp He Ht Hf. pose proof (lo_len _ Hi) as Li. destruct (Z.eqb_spec start (li_start iov)) as [->|Hne].
  { eexists _, _, _. split; [done|]. split; [done|]. intros j [= <-]. exists iov, tail. split; [done|]. split; [done|].
    replace (img_start iov + (li_start iov - li_start iov)) with (img_start iov) by lia.
    split; [by destruct iov|]. split; [done|]. split; [eapply sorted_from_mono; [|exact Ht]; lia|]. split; [done|].
    intros a. img_tac Ht. }
  destruct (split_iov_ok al iov start Hi) as (r & al' & -> & Hal & Hr); [lia|done|]. destruct r as [[iov' new]|].
  2:{ eexists _, _, _. split; [done|]. split; [|done]. intros Hn. by destruct (Hal Hn). }
  destruct (Hr iov' new eq_refl) as (N1 & N2 & -> & -> & _). eexists _, _, _. split; [done|]. split; [done|].
  intros j [= <-]. eexists _, _. split; [reflexivity|]. split; [reflexivity|]. split; [done|]. split; [done|].
  split; [cbn [delete list_delete sorted_from]; split_and!; [simpl; lia|done|eapply sorted_from_mono; [|exact Ht]; simpl; lia]|].
  split; [apply Forall_cons_2; [simpl; lia|done]|]. intros a. cbn [delete list_delete]. img_tac Ht.
Qed.

Lemma extract_range_ok al iov start stop :
  lazy_ok iov -> li_start iov <= start -> start < stop -> stop <= li_end iov -> (PAGE_SIZE | start) -> (PAGE_SIZE | stop) ->
  exists seg r al', extract_range al iov start stop = (seg, r, al') /\ (al = [] -> r <> None) /\
    forall j, r = Some j -> exists req rest, extracted iov start stop seg j req rest.
Proof.
  intros Hi Hs Hlt He Ds Dp. pose proof (lo_len _ Hi) as Li. unfold extract_range.
  destruct (Z.ltb_spec stop (li_end iov)) as [Hin|Hout].
  - destruct (split_iov_ok al iov stop Hi) as (r & al1 & -> & Hal & Hr); [lia|done|]. destruct r as [[iov' new]|].
    2:{ eexists _, _, _. split; [done|]. split; [|done]. intros Hn. by destruct (Hal Hn). }
    destruct (Hr iov' new eq_refl) as (N1 & N2 & -> & -> & Heq).
    destruct (extract_finish al1 (LazyIov (li_start iov) stop (img_start iov)) start
      [LazyIov stop (li_end iov) (img_start iov + (stop - li_start iov))] (li_end iov) N1) as (seg & r & al' & -> & A & B);
      try done; cbn [li_start li_end]; try lia.
    { apply (lo_aligned _ Hi). }
    { apply Forall_cons_2; [simpl; lia|apply Forall_nil_2]. }
    eexists _, _, _. split; [done|]. split; [intros Hn; apply A, Hal, Hn|]. intros j Hj.
    destruct (B j Hj) as (req & rest & B1 & B2 & B3 & B4 & B5 & B6 & B7). exists req, rest. split; try done.
    intros a. rewrite B7. by rewrite Heq.
  - assert (stop = li_end iov) as -> by lia.
    destruct (extract_finish al iov start [] (li_end iov) Hi) as (seg & r & al' & -> & A & B); try done.
    eexists _, _, _. split; [done|]. split; [done|]. intros j Hj.
    destruct (B j Hj) as (req & rest & B1 & B2 & B3 & B4 & B5 & B6 & B7). by exists req, rest.
Qed.

(** ** The invariant of a process and its meaning *)

(** The list to transfer is ascending; the requests, in any order, are whole
    pages apart from each other and from the list. *)
Record lpi_ok (lp : lazy_pages_info) : Prop := LpiOk {
  lk_iovs : iovs_ok (lp_iovs lp);
  lk_reqs : mergeable 0 (lp_reqs lp) (lp_iovs lp);
  lk_small : Forall (fun req => li_end req - li_start req <= MAX_XFER_LEN) (lp_reqs lp);
  lk_xfer : 0 < xfer_len lp <= MAX_XFER_LEN /\ (PAGE_SIZE | xfer_len lp)
}.

(** For a run-time address whose page has not arrived, the dump-time address. *)
Definition owed (lp : lazy_pages_info) (a : Z) : option Z := union_of (lp_reqs lp) (lp_iovs lp) a.

Lemma mergeable_sub lo src dst dst' : (forall a, img_of dst a = None -> img_of dst' a = None) ->
  mergeable lo src dst -> mergeable lo src dst'.
Proof.
  intros Hsub. induction src as [|iov src IH]; [done|]. intros (M1 & M2 & M3 & M4 & M5). split_and!; try done; [|by apply IH].
  intros a Ha. by apply Hsub, M3.
Qed.

Lemma mergeable_apart lo src dst a : mergeable lo src dst -> img_of dst a <> None -> img_of src a = None.
Proof.
  intros Hm Hd. induction src as [|iov src IH]; [done|]. destruct Hm as (M1 & M2 & M3 & M4 & M5). rewrite img_of_head.
  destruct (covers iov a) eqn:E; [|by apply IH]. apply coversP in E. by destruct (Hd (M3 a E)).
Qed.

Lemma find_iov_spec l addr : match find_iov l addr with
  | Some i => exists iov, l !! i = Some iov /\ covers iov addr = true
  | None => img_of l addr = None
  end.
Proof.
  induction l as [|iov l IH]; [done|]. cbn [find_iov]. rewrite Z.geb_leb. rewrite img_of_head.
  change ((li_start iov <=? addr) && (addr <? li_end iov)) with (covers iov addr).
  destruct (covers iov addr) eqn:E; [by exists iov|]. by destruct (find_iov l addr).
Qed.

Lemma is_page_queued_spec lp addr : is_page_queued lp addr = true <-> img_of (lp_reqs lp) addr <> None.
Proof.
  unfold is_page_queued. induction (lp_reqs lp) as [|req l IH]; [done|]. cbn [existsb]. rewrite img_of_head, Z.geb_leb.
  change ((li_start req <=? addr) && (addr <? li_end req)) with (covers req addr). by destruct (covers req addr).
Qed.

(** Moving a range of an element to the requests. *)
Lemma take_range_ok al lp i iov start stop : lpi_ok lp -> lp_iovs lp !! i = Some iov ->
  li_start iov <= start -> start < stop -> stop <= li_end iov -> (PAGE_SIZE | start) -> (PAGE_SIZE | stop) ->
  stop - start <= MAX_XFER_LEN ->
  exists r lp' al', take_range al lp i start stop = (r, lp', al') /\ (al = [] -> r <> None) /\
    forall req, r = Some req ->
      req = LazyIov start stop (img_start iov + (start - li_start iov)) /\ lpi_ok lp' /\
      (forall a, owed lp' a = owed lp a) /\ lp_reqs lp' = req :: lp_reqs lp /\
      lp' = set_lists (lp_iovs lp') (lp_reqs lp') lp.
Proof.
  intros [Hok Hm Hsm Hx] L Hs Hlt He Ds Dp Hmax. unfold take_range. rewrite L.
  set (pre := take i (lp_iovs lp)). set (post := drop (S i) (lp_iovs lp)).
  assert (Hl : lp_iovs lp = pre ++ iov :: post) by (unfold pre, post; by rewrite take_drop_middle).
  assert (Hi : length pre = i) by (unfold pre; rewrite length_take; apply lookup_lt_Some in L; lia).
  clearbody pre post. unfold iovs_ok in Hok. rewrite Hl in Hok. pose proof (middle_ok _ _ _ _ Hok) as Hio.
  destruct (extract_range_ok al iov start stop Hio Hs Hlt He Ds Dp) as (seg & r & al' & -> & Hal & Hr).
  destruct r as [j|]; [|eexists _, _, _; split; [done|]; split; [|done]; intros Hn; by destruct (Hal Hn)].
  destruct (Hr j eq_refl) as (req & rest & [E1 E2 E3 E4 E5 E6 E7]). rewrite E3. subst i.
  assert (Hdel : delete (length pre + j)%nat (pre ++ seg ++ post) = pre ++ rest ++ post).
  { rewrite <- E4, (delete_take_drop seg j), <- (take_drop_middle seg j req E3) at 1.
    replace (length pre + j)%nat with (length (pre ++ take j seg)).
    - rewrite <- app_assoc, <- app_comm_cons, app_assoc, delete_middle. by rewrite <- !app_assoc.
    - rewrite length_app, length_take. apply lookup_lt_Some in E3. lia. }
  assert (Himg : forall a, img_of (pre ++ rest ++ post) a = if covers req a then None else img_of (lp_iovs lp) a).
  { intros a. rewrite Hl, !img_of_app, E7, !img_of_head. destruct (covers iov a) eqn:Ec.
    - destruct (sorted_middle iov post a Ec pre 0 Hok) as (-> & -> & _). by destruct (covers req a).
    - assert (covers req a = false) as ->; [|done]. apply not_true_iff_false. rewrite coversP. subst req. cbn [li_start li_end].
      apply not_true_iff_false in Ec. rewrite coversP in Ec. lia. }
  assert (Hin : forall a, covers req a = true -> img_of (lp_iovs lp) a = Some (img_start req + (a - li_start req))).
  { intros a Ha. apply coversP in Ha. subst req. cbn [li_start li_end img_start] in *.
    assert (Hc : covers iov a = true) by (apply coversP; lia). destruct (sorted_middle iov post a Hc pre 0 Hok) as (Hp & _ & _).
    rewrite Hl, img_of_app, Hp, img_of_head, Hc. f_equal. lia. }
  assert (Hq : forall a, covers req a = true -> img_of (lp_reqs lp) a = None).
  { intros a Ha. apply (mergeable_apart 0 _ (lp_iovs lp)); [done|]. by rewrite (Hin a Ha). }
  eexists _, _, _. split; [done|]. split; [done|]. intros ? [= <-]. cbn [lp_reqs lp_iovs set_lists]. rewrite Hdel.
  split; [done|]. split; [|split; [|done]].
  - split; cbn [lp_reqs lp_iovs xfer_len set_lists]; [by apply (sorted_replace iov)| |apply Forall_cons_2; [by subst req|done]|done].
    cbn [mergeable]. split_and!; try done.
    + pose proof (lo_start _ E2). lia.
    + intros a Ha. by rewrite Himg, (covers_in _ _ Ha).
    + intros a Ha. apply Hq. by apply covers_in.
    + eapply mergeable_sub; [|exact Hm]. intros a Ha. rewrite Himg, Ha. by case_match.
  - intros a. unfold owed, union_of. cbn [lp_reqs lp_iovs set_lists]. rewrite img_of_head, Himg.
    destruct (covers req a) eqn:E; [|done]. by rewrite (Hq a E), (Hin a E).
Qed.

(** ** Retiring a request *)
Lemma find_req_spec l img : match find_req l img with
  | Some i => exists req, l !! i = Some req /\ img_start req = img
  | None => True
  end.
Proof.
  induction l as [|req l IH]; [done|]. cbn [find_req]. destruct (Z.eqb_spec (img_start req) img); [by exists req|].
  destruct (find_req l img); [exact IH|done].
Qed.

Lemma mergeable_delete lo dst src : forall i req, mergeable lo src dst -> src !! i = Some req ->
  lazy_ok req /\ lo <= li_start req /\ apart_from req dst /\ apart_from req (delete i src) /\ mergeable lo (delete i src) dst /\
  forall a, img_of src a = if covers req a then Some (img_start req + (a - li_start req)) else img_of (delete i src) a.
Proof.
  induction src as [|iov src IH]; intros i req Hm L; [done|]. destruct Hm as (M1 & M2 & M3 & M4 & M5). destruct i as [|i].
  { injection L as ->. by split_and!. }
  destruct (IH i req M5 L) as (P1 & P2 & P3 & P4 & P5 & P6). cbn [delete list_delete].
  assert (Hx : forall a, covers req a = true -> covers iov a = false).
  { intros a Ha. apply not_true_iff_false. intros Hb. apply coversP in Hb. specialize (M4 a Hb). by rewrite P6, Ha in M4. }
  split_and!; try done.
  - intros a Ha. rewrite img_of_head, Hx by (by apply covers_in). by apply P4.
  - cbn [mergeable]. split_and!; try done. intros a Ha. specialize (M4 a Ha). rewrite P6 in M4. by destruct (covers req a).
  - intros a. rewrite !img_of_head, P6. destruct (covers iov a) eqn:E; [|done].
    destruct (covers req a) eqn:E2; [|done]. by rewrite (Hx a E2) in E.
Qed.

(** A range that touches no element is dropped for nothing, in any order of the list. *)
Lemma drop_loop_apart al addr len l : 0 <= addr -> 0 <= len < 2 ^ 31 -> addr + len < 2 ^ 63 ->
  Forall (fun x => lazy_ok x /\ (li_end x <= addr \/ addr + len <= li_start x)) l -> drop_loop al l addr len = (true, l, al).
Proof.
  intros Ha Hl He Hf. induction l as [|iov l IH]; [done|]. apply Forall_cons_1 in Hf as [[Ho Hd] Hf]. cbn [drop_loop].
  pose proof (lo_len _ Ho). pose proof (lo_end _ Ho). pose proof (lo_start _ Ho). pose proof (lo_img _ Ho).
  rewrite (u64_small (addr + len)), Z.geb_leb by lia.
  destruct ((len <=? 0) || (addr + len <? li_start iov)) eqn:Estop; [done|].
  apply orb_false_elim in Estop as [El Ep]. apply Z.leb_gt in El. apply Z.ltb_ge in Ep.
  destruct (Z.leb_spec (li_end iov) addr); [by rewrite (IH Hf)|].
  destruct (Z.ltb_spec addr (li_start iov)); [|lia]. rewrite s32_small by lia. cbv beta iota.
  replace (len - (li_start iov - addr)) with 0 by lia. rewrite Z.add_0_r, (u64_small (li_start iov)), Z.eqb_refl by lia.
  destruct (Z.ltb_spec (li_start iov) (li_end iov)); [|lia]. rewrite Z.add_0_r, (u64_small (img_start iov)) by lia. by destruct iov.
Qed.

Lemma mergeable_all_ok lo src dst : mergeable lo src dst -> Forall lazy_ok src.
Proof. induction src as [|iov src IH]; [intros _; apply Forall_nil_2|]. intros (M1 & _ & _ & _ & M5). apply Forall_cons_2; [done|by apply IH]. Qed.

Lemma apart_ranges req addr len l : apart_from req l -> Forall lazy_ok l -> li_start req <= addr -> addr + len <= li_end req -> 0 < len ->
  Forall (fun x => lazy_ok x /\ (li_end x <= addr \/ addr + len <= li_start x)) l.
Proof.
  intros Hap Hok Ha He Hl. induction l as [|x l IH]; [apply Forall_nil_2|]. apply Forall_cons_1 in Hok as [Hx Hok].
  destruct (apart_from_cons _ _ _ Hap) as [Hap' Hd]. apply Forall_cons_2; [|by apply IH]. split; [done|]. pose proof (lo_len _ Hx).
  pose proof (Hd addr ltac:(lia)). pose proof (Hd (li_start x)). lia.
Qed.

Lemma retire_ok al lp i req n : lpi_ok lp -> lp_reqs lp !! i = Some req -> 0 <= n <= (li_end req - li_start req) / PAGE_SIZE ->
  exists iovs ret lp' al', iov_list_insert req (lp_iovs lp) = Some iovs /\
    drop_iovs al (set_lists iovs (delete i (lp_reqs lp)) lp) (li_start req) (u64 (n * PAGE_SIZE)) = (ret, lp', al') /\
    (al = [] -> ret = 0) /\
    (ret = 0 -> lpi_ok lp' /\ lp' = set_lists (lp_iovs lp') (delete i (lp_reqs lp)) lp /\
       forall a, owed lp' a = if within (li_start req) (n * PAGE_SIZE) a then None else owed lp a).
Proof.
  intros [Hok Hm Hsm Hx] L Hn. destruct (mergeable_delete 0 _ _ i req Hm L) as (P1 & P2 & P3 & P4 & P5 & P6).
  pose proof P1 as [O1 O2 O3 _ (O6 & O7 & _)]. destruct (iov_list_insert_ok req (lp_iovs lp) 0 Hok P1 P2 P3) as (iovs & Hins & I1 & I2).
  assert (Hmul : n * PAGE_SIZE <= li_end req - li_start req).
  { pose proof (Z.mul_div_le (li_end req - li_start req) PAGE_SIZE ltac:(done)). unfold PAGE_SIZE in *. lia. }
  assert (Hsz : li_end req - li_start req <= MAX_XFER_LEN) by (by apply (Forall_lookup_1 _ _ _ _ Hsm L)).
  unfold MAX_XFER_LEN in Hsz. unfold drop_iovs. rewrite u64_small, s32_small by (unfold PAGE_SIZE in *; lia).
  destruct (drop_iovs_spec al iovs (li_start req) (n * PAGE_SIZE)) as (ok & iovs' & al1 & Hdr & D1 & D2);
    try done; try lia; try (unfold PAGE_SIZE in *; lia); [apply Z.divide_factor_r|].
  exists iovs. cbn [lp_iovs set_lists]. rewrite Hdr. destruct ok; cbn [negb].
  2:{ eexists _, _, _. split; [done|]. split; [done|]. split; [|done]. intros Ha. by destruct (D2 Ha). }
  destruct (D1 eq_refl) as [S1 S2 _]. cbn [lp_reqs lp_iovs set_lists].
  assert (Hsame : __drop_iovs al1 (delete i (lp_reqs lp)) (li_start req) (n * PAGE_SIZE) = (true, delete i (lp_reqs lp), al1)).
  { destruct (Z.eq_dec n 0) as [->|Hnz].
    - destruct (delete i (lp_reqs lp)); [done|]. reflexivity.
    - apply drop_loop_apart; try lia; [unfold PAGE_SIZE in *; lia|].
      apply (apart_ranges req); try done; try lia; [by eapply mergeable_all_ok|unfold PAGE_SIZE; lia]. }
  rewrite Hsame. eexists _, _, _. split; [done|]. split; [done|]. split; [done|]. intros _.
  assert (Hm' : mergeable 0 (delete i (lp_reqs lp)) iovs').
  { eapply mergeable_sub; [|eapply (mergeable_insert 0 req (lp_iovs lp) iovs); [exact P5|exact P4|exact I2]].
    intros a Ha. rewrite S2, Ha. by case_match. }
  split; [|split; [done|]].
  - split; cbn [lp_reqs lp_iovs xfer_len set_lists]; try done. by apply Forall_delete.
  - intros a. unfold owed, union_of. cbn [lp_reqs lp_iovs set_lists]. rewrite S2, I2, P6.
    destruct (covers req a) eqn:Ec.
    + apply coversP in Ec. rewrite (P4 a Ec). done.
    + assert (within (li_start req) (n * PAGE_SIZE) a = false) as ->; [|done]. apply not_true_iff_false. rewrite withinP.
      apply not_true_iff_false in Ec. rewrite coversP in Ec. lia.
Qed.

(** ** Completions *)

(** What the kernel says it copied is no more than was asked for. *)
Definition copy_honest (ans : uffd_answer) (nr : Z) : Prop :=
  match ans with UffdOk => True | UffdErr _ rc => rc <= nr * PAGE_SIZE end.

Lemma uffd_copy_ok ep ans lp addr nr : 0 <= nr -> copy_honest ans nr ->
  exists ret lp' n, uffd_copy ep ans lp addr nr = (ret, lp', n) /\
    (ret = 0 \/ ret = -1) /\ (ans = UffdOk -> ret = 0 /\ lp_exited lp' = lp_exited lp /\ n = nr) /\
    (ret = 0 -> lp_exited lp' = false -> lp' = log_copied addr n lp /\ 0 <= n <= nr).
Proof.
  intros Hnr Hh. unfold uffd_copy. destruct ans as [|errno rc]; cbn [Z.eqb negb].
  { eexists _, _, _. split; [done|]. split; [by left|]. done. }
  unfold uffd_check_op_error. destruct ((errno =? ENOSPC) || (errno =? ESRCH)) eqn:E1; cbn [Z.eqb negb].
  { eexists _, _, _. split; [done|]. split; [by left|]. split; [done|]. intros _. unfold handle_exit. destruct ep; cbn; [done|].
    intros _. done. }
  destruct (uffd_recoverable_error errno rc) eqn:E2; cbn [Z.eqb negb].
  2:{ eexists _, _, _. split; [done|]. split; [by right|]. done. }
  eexists _, _, _. split; [done|]. split; [by left|]. split; [done|]. intros _ _. split; [done|]. simpl in Hh.
  destruct (Z.leb_spec rc 0); [lia|]. split; [apply Z.div_pos; unfold PAGE_SIZE; lia|]. apply Z.div_le_upper_bound; unfold PAGE_SIZE in *; lia.
Qed.

Lemma uffd_io_complete_spec al ep ans lp img nr : lpi_ok lp -> lp_exited lp = false -> 0 <= nr -> copy_honest ans nr ->
  (forall req, req ∈ lp_reqs lp -> copy_honest ans ((li_end req - li_start req) / PAGE_SIZE)) ->
  exists ret lp' al', uffd_io_complete al ep ans lp img nr = (ret, lp', al') /\
    (find_req (lp_reqs lp) img = None -> ret = 0 /\ lp' = lp) /\
    (forall i, find_req (lp_reqs lp) img = Some i -> ret = 0 -> lp_exited lp' = false ->
       exists req n, lp_reqs lp !! i = Some req /\ img_start req = img /\
         0 <= n <= Z.min nr ((li_end req - li_start req) / PAGE_SIZE) /\
         (ans = UffdOk -> n = Z.min nr ((li_end req - li_start req) / PAGE_SIZE)) /\
         lpi_ok lp' /\ lp_reqs lp' = delete i (lp_reqs lp) /\ lp_copied lp' = lp_copied lp ++ [(li_start req, n)] /\
         lp_asked lp' = lp_asked lp /\ lp_pr lp' = lp_pr lp /\
         forall a, owed lp' a = if within (li_start req) (n * PAGE_SIZE) a then None else owed lp a) /\
    (al = [] -> ans = UffdOk -> ret = 0 /\ lp_exited lp' = false).
Proof.
  intros Hok Hex Hnr Hh Hhr. unfold uffd_io_complete. rewrite Hex. pose proof (find_req_spec (lp_reqs lp) img) as Hf.
  destruct (find_req (lp_reqs lp) img) as [i|]; [|eexists _, _, _; split; [done|]; by split_and!].
  destruct Hf as (req & L & Himg). rewrite L.
  destruct (mergeable_delete 0 _ _ i req (lk_reqs _ Hok) L) as ([O1 O2 O3 _ _] & _).
  destruct (Z.eqb_spec (li_start req) 0) as [|Hnz]; [lia|]. rewrite (u64_small (li_end req - li_start req)) by lia.
  set (m := Z.min nr ((li_end req - li_start req) / PAGE_SIZE)).
  assert (Hm : 0 <= m <= (li_end req - li_start req) / PAGE_SIZE).
  { unfold m. pose proof (Z.div_pos (li_end req - li_start req) PAGE_SIZE ltac:(lia) ltac:(done)). lia. }
  destruct (uffd_copy_ok ep ans lp (li_start req) m) as (ret & lp1 & n & -> & R & Rok & Rdone); [lia| |].
  { unfold m. destruct (Z.min_dec nr ((li_end req - li_start req) / PAGE_SIZE)) as [-> | ->]; [done|]. apply Hhr. by eapply list_elem_of_lookup_2. }
  destruct (Z.ltb_spec ret 0) as [Hneg|Hpos].
  { eexists _, _, _. split; [done|]. split; [done|]. split; [intros; lia|]. intros _ Ha. destruct (Rok Ha) as (-> & _). lia. }
  assert (ret = 0) as -> by lia. destruct (lp_exited lp1) eqn:Ex1.
  { eexists _, _, _. split; [done|]. split; [done|]. split; [intros; congruence|]. intros _ Ha. destruct (Rok Ha) as (_ & E & _). congruence. }
  destruct (Rdone eq_refl eq_refl) as [-> Hn]. cbn [lp_iovs lp_reqs log_copied].
  assert (Hok1 : lpi_ok (log_copied (li_start req) n lp)) by (destruct Hok; by split).
  destruct (retire_ok al (log_copied (li_start req) n lp) i req n Hok1 L) as (iovs & ret & lp' & al' & Hins & Hdr & A1 & A2); [lia|].
  cbn [lp_iovs lp_reqs log_copied] in Hins, Hdr. rewrite Hins, Hdr. eexists _, _, _. split; [done|]. split; [done|]. split.
  - intros i' [= <-] Hret _. destruct (A2 Hret) as (B1 & B2 & B3). exists req, n.
    split_and!; try done; try lia; try (by rewrite B2). intros Ha. by destruct (Rok Ha) as (_ & _ & ->).
  - intros Ha Hans. split; [by apply A1|]. destruct (A2 (A1 Ha)) as (_ & B2 & _). by rewrite B2.
Qed.

(** ** Faults and background transfer *)
Section ReadOk.
Context (read_pages : list page_read -> Z -> Z -> Z * list page_read).
(** Reading moves cursors, and leaves the pagemaps alone. *)
Context (read_keeps : forall c a n, pmes <$> snd (read_pages c a n) = pmes <$> c).

(** The reader has every page that is owed. *)
Record reader_serves (lp : lazy_pages_info) : Prop := ReaderServes {
  rs_reader : exists pr parents, lp_pr lp = pr :: parents /\ pagemaps_ok (pmes pr) /\
    forall a img, (PAGE_SIZE | a) -> owed lp a = Some img -> has_page (pmes pr) img /\ 0 <= img < 2 ^ 64 /\ (PAGE_SIZE | img)
}.

Lemma reset_cursor_ok pr : cursor_ok (reset_one pr).
Proof. apply cursor_reset; try done. by left. Qed.

(** The read is asked for, once, at the address given. *)
Lemma uffd_handle_pages_ok lp img nr pr parents : lp_pr lp = pr :: parents -> pagemaps_ok (pmes pr) -> has_page (pmes pr) img ->
  0 <= img < 2 ^ 64 -> (PAGE_SIZE | img) ->
  exists ret lp', uffd_handle_pages read_pages lp img nr = Ret (ret, lp') /\
    lp' = log_asked img nr (set_reader (lp_pr lp') lp) /\ pmes <$> lp_pr lp' = pmes <$> lp_pr lp.
Proof.
  intros Hpr Hok Hhas Himg Hd. unfold uffd_handle_pages, uffd_seek_pages. rewrite Hpr. cbn [reset_pagemap fmap list_fmap].
  destruct (seek_pagemap_spec (reset_one pr) img Hok (reset_cursor_ok pr)) as (r & pr' & -> & [S1 S2 S3 S4 S5 S6 S7]).
  { by apply Z.mod_divide. }
  { done. }
  assert (r = 1) as -> by (apply S4; split; [simpl; lia|done]). cbn [obind Z.eqb negb set_reader lp_pr].
  destruct (read_pages (pr' :: (reset_one <$> parents)) img nr) as [ret c] eqn:Er.
  pose proof (read_keeps (pr' :: (reset_one <$> parents)) img nr) as Hk. rewrite Er in Hk. cbn [snd] in Hk.
  assert (Hkeep : pmes <$> c = pmes <$> (pr :: parents)).
  { rewrite Hk, !fmap_cons. f_equal; [apply S2|]. rewrite <- list_fmap_compose. done. }
  destruct (ret <=? 0); eexists _, _; (split; [done|]); by split.
Qed.

Lemma serves_next lp lp' : reader_serves lp -> (forall a, owed lp' a = owed lp a) -> pmes <$> lp_pr lp' = pmes <$> lp_pr lp -> reader_serves lp'.
Proof.
  intros [(pr & parents & Hp & Hok & Hs)] Ho Hpm. rewrite Hp in Hpm. destruct (lp_pr lp') as [|pr' parents'] eqn:E; [done|].
  rewrite !fmap_cons in Hpm. injection Hpm as Hpm _. split. exists pr', parents'. rewrite Hpm. split_and!; try done.
  intros a img. rewrite Ho. apply Hs.
Qed.

(** Taking a range into the requests and asking for it. *)
Record asked_post (lp lp' : lazy_pages_info) (addr img nr : Z) : Prop := AskedPost {
  ap_ok : lpi_ok lp';
  ap_owed : forall a, owed lp' a = owed lp a;
  ap_serves : reader_serves lp';
  ap_queued : img_of (lp_reqs lp') addr = Some img;
  ap_asked : lp_asked lp' = lp_asked lp ++ [(img, nr)];
  ap_copied : lp_copied lp' = lp_copied lp /\ lp_exited lp' = lp_exited lp
}.

Lemma take_and_ask_ok al lp i iov start stop nr pf : lpi_ok lp -> reader_serves lp -> lp_iovs lp !! i = Some iov ->
  li_start iov <= start -> start < stop -> stop <= li_end iov -> (PAGE_SIZE | start) -> (PAGE_SIZE | stop) -> stop - start <= MAX_XFER_LEN ->
  exists r lp1 al1, take_range al lp i start stop = (r, lp1, al1) /\ (al = [] -> r <> None) /\
    forall req, r = Some req -> req = LazyIov start stop (img_start iov + (start - li_start iov)) /\
      exists ret lp', uffd_handle_pages read_pages (update_xfer_len lp1 pf) (img_start req) nr = Ret (ret, lp') /\
        asked_post lp lp' start (img_start req) nr.
Proof.
  intros Hok Hsv L Hs Hlt He Ds Dp Hmax.
  destruct (take_range_ok al lp i iov start stop Hok L Hs Hlt He Ds Dp Hmax) as (r & lp1 & al1 & -> & A & B).
  exists r, lp1, al1. split; [done|]. split; [done|]. intros req Hreq. destruct (B req Hreq) as (E & Hok1 & Ho1 & Hr1 & Hlp1). split; [exact E|].
  assert (Hok2 : lpi_ok (update_xfer_len lp1 pf)).
  { destruct Hok1 as [K1 K2 K3 [K4 K5]]. split; try done. unfold update_xfer_len. cbn [xfer_len set_xfer_len].
    unfold MAX_XFER_LEN, DEFAULT_XFER_LEN in *. rewrite Z.gtb_ltb. destruct pf; cbn [Z.ltb Z.compare].
    - split; [done|]. apply Z.mod_divide; done.
    - rewrite u64_small by lia. destruct (Z.ltb_spec 4194304 (xfer_len lp1 + 65536)); split; try lia; [apply Z.mod_divide; done|].
      apply Z.divide_add_r; [done|]. apply Z.mod_divide; done. }
  pose proof Hsv as [(pr & parents & Hp & Hpm & Hserve)].
  assert (Hq : owed lp start = Some (img_start req)).
  { rewrite <- Ho1. unfold owed, union_of. rewrite Hr1, img_of_head, covers_in by (rewrite E; simpl; lia). rewrite E. simpl. f_equal. lia. }
  destruct (Hserve start (img_start req) Ds Hq) as (S1 & S2 & S3).
  destruct (uffd_handle_pages_ok (update_xfer_len lp1 pf) (img_start req) nr pr parents) as (ret & lp' & Hrun & H1 & H2); try done.
  { rewrite Hlp1. exact Hp. }
  exists ret, lp'. split; [exact Hrun|].
  assert (Ho' : forall a, owed lp' a = owed lp a) by (intros a; rewrite H1; apply Ho1). split.
  - rewrite H1. destruct Hok2 as [K1 K2 K3 K4]. by split.
  - exact Ho'.
  - apply (serves_next lp); [done|exact Ho'|]. rewrite H2. cbn. by rewrite Hlp1.
  - rewrite H1. cbn [lp_reqs log_asked set_reader update_xfer_len set_xfer_len]. rewrite Hr1, img_of_head.
    rewrite covers_in by (rewrite E; simpl; lia). rewrite E. simpl. f_equal. lia.
  - rewrite H1. cbn [lp_asked log_asked set_reader update_xfer_len set_xfer_len]. by rewrite Hlp1.
  - rewrite H1. cbn. by rewrite Hlp1.
Qed.

Lemma lookup_lazy_ok l : forall lo i iov, sorted_from lo l -> l !! i = Some iov -> lazy_ok iov.
Proof.
  induction l as [|x l IH]; intros lo i iov Hs L; [done|]. destruct Hs as (H1 & H2 & H3). destruct i as [|i]; [by injection L as <-|].
  by apply (IH (li_end x) i).
Qed.

Lemma page_down fault : 0 <= fault < 2 ^ 63 ->
  Z.land fault PAGE_MASK = fault - fault mod PAGE_SIZE /\ (PAGE_SIZE | fault - fault mod PAGE_SIZE) /\ 0 <= fault - fault mod PAGE_SIZE <= fault.
Proof.
  intros Hf. rewrite land_page_mask by lia. pose proof (Z.div_mod fault PAGE_SIZE ltac:(done)). pose proof (Z.mod_pos_bound fault PAGE_SIZE ltac:(done)).
  split; [done|]. split; [|unfold PAGE_SIZE in *; lia]. exists (fault / PAGE_SIZE). lia.
Qed.

Lemma handle_page_fault_spec al ep ans lp fault : lpi_ok lp -> reader_serves lp -> 0 <= fault < 2 ^ 63 ->
  let page := fault - fault mod PAGE_SIZE in
  exists ret lp' al', handle_page_fault read_pages al ep ans lp fault = Ret (ret, lp', al') /\
    (img_of (lp_reqs lp) page <> None -> ret = 0 /\ lp' = lp) /\
    (owed lp page = None -> (ret, lp') = uffd_zero ep ans lp page 1) /\
    (forall img, img_of (lp_reqs lp) page = None -> owed lp page = Some img -> al = [] -> asked_post lp lp' page img 1).
Proof.
  intros Hok Hsv Hf page. destruct (page_down fault Hf) as (Hpg & Hd & Hr). fold page in Hpg, Hd, Hr.
  unfold handle_page_fault. rewrite Hpg. pose proof (is_page_queued_spec lp page) as Hq. destruct (is_page_queued lp page).
  { eexists _, _, _. split; [done|]. pose proof (proj1 Hq eq_refl) as Hne. split; [done|]. split; [|congruence].
    unfold owed, union_of. by destruct (img_of (lp_reqs lp) page). }
  assert (Hnq : img_of (lp_reqs lp) page = None).
  { destruct (img_of (lp_reqs lp) page); [|done]. by pose proof (proj2 Hq ltac:(done)). }
  assert (Ho : owed lp page = img_of (lp_iovs lp) page) by (unfold owed, union_of; by rewrite Hnq).
  pose proof (find_iov_spec (lp_iovs lp) page) as Hfind. destruct (find_iov (lp_iovs lp) page) as [i|].
  2:{ destruct (uffd_zero ep ans lp page 1) as [ret lp'] eqn:Ez. eexists _, _, _. split; [done|]. split; [done|]. split; [done|].
      rewrite Ho, Hfind. done. }
  destruct Hfind as (iov & L & Hc). pose proof (proj1 (coversP _ _) Hc) as Hcov.
  pose proof (lookup_lazy_ok _ _ _ _ (lk_iovs _ Hok) L) as [O1 O2 O3 _ (O6 & O7 & _)].
  assert (Hend : page + PAGE_SIZE <= li_end iov).
  { destruct Hd as [x Hx], O7 as [y Hy]. unfold PAGE_SIZE in *. nia. }
  rewrite u64_small by (unfold PAGE_SIZE in *; lia).
  destruct (take_and_ask_ok al lp i iov page (page + PAGE_SIZE) 1 true Hok Hsv L) as (r & lp1 & al1 & -> & A & B);
    try done; try (unfold PAGE_SIZE, MAX_XFER_LEN in *; lia); [by apply Z.divide_add_r, Z.divide_refl|].
  assert (Hsome : owed lp page <> None).
  { rewrite Ho. intros Hn. rewrite <- (take_drop_middle _ _ _ L), img_of_app, img_of_head, Hc in Hn.
    by destruct (img_of (take i (lp_iovs lp)) page). }
  destruct r as [req|].
  2:{ eexists _, _, _. split; [done|]. split; [done|]. split; [done|]. intros img _ _ Ha. by destruct (A Ha). }
  destruct (B req eq_refl) as (Er & ret & lp' & -> & Hpost). cbn [obind]. eexists _, _, _. split; [done|]. split; [done|]. split; [done|].
  intros img _ Himg _. assert (img_start req = img) as <-; [|exact Hpost].
  pose proof (ap_queued _ _ _ _ _ Hpost) as Q. pose proof (ap_owed _ _ _ _ _ Hpost page) as Q2. rewrite Himg in Q2.
  unfold owed, union_of in Q2. rewrite Q in Q2. by injection Q2.
Qed.

(** C28. Page faults are served from the right place.  A fault on a page that is
    in flight changes nothing; a fault on an address for which no page is owed
    is answered with a zero page only; any other fault makes exactly that page
    a request, asks the reader for exactly one page at the address the page had
    when it was dumped, and changes neither what is owed nor the invariant.
    The handler always returns, whatever [read_pages] reports. *)
Theorem handle_page_fault_correct al ep ans lp fault : lpi_ok lp -> reader_serves lp -> 0 <= fault < 2 ^ 63 ->
  let page := fault - fault mod PAGE_SIZE in
  exists ret lp' al', handle_page_fault read_pages al ep ans lp fault = Ret (ret, lp', al') /\
    (img_of (lp_reqs lp) page <> None -> ret = 0 /\ lp' = lp) /\
    (owed lp page = None -> (ret, lp') = uffd_zero ep ans lp page 1) /\
    (forall img, img_of (lp_reqs lp) page = None -> owed lp page = Some img -> al = [] -> asked_post lp lp' page img 1).
Proof. apply handle_page_fault_spec. Qed.

Lemma xfer_pages_spec al lp iov rest : lpi_ok lp -> reader_serves lp -> lp_iovs lp = iov :: rest ->
  exists ret lp' al', xfer_pages read_pages al lp = Ret (ret, lp', al') /\
    (al = [] -> exists nr, asked_post lp lp' (li_start iov) (img_start iov) nr /\ 0 < nr /\
       nr * PAGE_SIZE = Z.min (li_end iov - li_start iov) (xfer_len lp)).
Proof.
  intros Hok Hsv Hl. unfold xfer_pages. rewrite Hl. assert (L : lp_iovs lp !! 0%nat = Some iov) by (by rewrite Hl).
  pose proof (lookup_lazy_ok _ _ _ _ (lk_iovs _ Hok) L) as [O1 O2 O3 _ (O6 & O7 & _)]. destruct (lk_xfer _ Hok) as [X1 X2].
  rewrite (u64_small (li_end iov - li_start iov)) by lia. set (n := Z.min (li_end iov - li_start iov) (xfer_len lp)).
  assert (Dn : (PAGE_SIZE | n)).
  { unfold n. destruct (Z.min_dec (li_end iov - li_start iov) (xfer_len lp)) as [-> | ->]; [by apply Z.divide_sub_r|done]. }
  assert (Hn : 0 < n <= li_end iov - li_start iov /\ n <= MAX_XFER_LEN) by (unfold n; lia).
  rewrite u64_small by lia. destruct Dn as [k Hk].
  destruct (take_and_ask_ok al lp 0 iov (li_start iov) (li_start iov + n) k false Hok Hsv L) as (r & lp1 & al1 & -> & A & B);
    try done; try lia; [apply Z.divide_add_r; [done|by exists k]|].
  destruct r as [req|].
  2:{ eexists _, _, _. split; [done|]. intros Ha. by destruct (A Ha). }
  destruct (B req eq_refl) as (Er & ret & lp' & Hrun & Hpost). subst req. cbn [li_start li_end img_start] in *.
  replace (li_start iov + n - li_start iov) with n by lia. rewrite u64_small by (unfold MAX_XFER_LEN in *; lia).
  assert (n / PAGE_SIZE = k) as -> by (rewrite Hk; by apply Z_div_mult_full).
  rewrite Hrun. cbn [obind]. eexists _, _, _. split; [done|]. intros _. exists k.
  replace (img_start iov + (li_start iov - li_start iov)) with (img_start iov) in Hpost by lia. split; [done|].
  rewrite <- Hk. split; [unfold PAGE_SIZE in *; lia|done].
Qed.

(** ** The life of a process *)

(** Faults, background transfers and completions in any order, as long as the
    process lives.  [log]: what was copied: where to, from which dump-time
    address, how many pages. *)
Inductive lp_run (lp0 : lazy_pages_info) : list (Z * Z * Z) -> lazy_pages_info -> Prop :=
| run_start : lp_run lp0 [] lp0
| run_fault log lp ep ans fault ret lp' al' :
    lp_run lp0 log lp -> 0 <= fault < 2 ^ 63 ->
    handle_page_fault read_pages [] ep ans lp fault = Ret (ret, lp', al') -> lp_exited lp' = false -> lp_run lp0 log lp'
| run_xfer log lp ret lp' al' :
    lp_run lp0 log lp -> lp_iovs lp <> [] -> xfer_pages read_pages [] lp = Ret (ret, lp', al') -> lp_run lp0 log lp'
| run_gone log lp ep ans img nr lp' al' :
    lp_run lp0 log lp -> find_req (lp_reqs lp) img = None ->
    uffd_io_complete [] ep ans lp img nr = (0, lp', al') -> lp_run lp0 log lp'
| run_done log lp ep ans img nr lp' al' addr n :
    lp_run lp0 log lp -> find_req (lp_reqs lp) img <> None -> 0 <= nr -> copy_honest ans nr ->
    (forall req, req ∈ lp_reqs lp -> copy_honest ans ((li_end req - li_start req) / PAGE_SIZE)) ->
    uffd_io_complete [] ep ans lp img nr = (0, lp', al') -> lp_exited lp' = false ->
    lp_copied lp' = lp_copied lp ++ [(addr, n)] -> lp_run lp0 (log ++ [(addr, img, n)]) lp'.

Definition arrived (log : list (Z * Z * Z)) (a : Z) : bool :=
  existsb (fun c : Z * Z * Z => let '(addr, img, n) := c in within addr (n * PAGE_SIZE) a) log.

(** No address is copied to twice. *)
Fixpoint copied_once (log : list (Z * Z * Z)) : Prop :=
  match log with
  | [] => True
  | (addr, img, n) :: log => (forall a, within addr (n * PAGE_SIZE) a = true -> arrived log a = false) /\ copied_once log
  end.

Lemma arrived_snoc log addr img n a : arrived (log ++ [(addr, img, n)]) a = arrived log a || within addr (n * PAGE_SIZE) a.
Proof. unfold arrived. rewrite existsb_app. simpl. by rewrite orb_false_r. Qed.

Lemma copied_once_snoc log addr img n : copied_once log -> (forall a, within addr (n * PAGE_SIZE) a = true -> arrived log a = false) ->
  copied_once (log ++ [(addr, img, n)]).
Proof.
  induction log as [|[[b j] m] log IH]; intros H1 H2; [by split|]. destruct H1 as [H1 H3]. cbn [app copied_once]. split.
  - intros a Ha. rewrite arrived_snoc, (H1 a Ha). cbn [orb]. apply not_true_iff_false. intros Hw. specialize (H2 a Hw).
    cbn [arrived existsb] in H2. rewrite Ha in H2. done.
  - apply IH; [done|]. intros a Ha. specialize (H2 a Ha). cbn [arrived existsb] in H2. by apply orb_false_elim in H2 as [_ H2].
Qed.

Record run_post (lp0 : lazy_pages_info) (log : list (Z * Z * Z)) (lp : lazy_pages_info) : Prop := RunPost {
  rn_ok : lpi_ok lp;
  rn_serves : reader_serves lp;
  rn_alive : lp_exited lp = false;
  rn_owed : forall a, owed lp a = if arrived log a then None else owed lp0 a;
  rn_right : Forall (fun c : Z * Z * Z => let '(addr, img, n) := c in
      forall a, within addr (n * PAGE_SIZE) a = true -> owed lp0 a = Some (img + (a - addr))) log;
  rn_once : copied_once log
}.

Lemma run_post_same lp0 log lp lp' addr img nr : run_post lp0 log lp -> asked_post lp lp' addr img nr -> run_post lp0 log lp'.
Proof.
  intros [R1 R2 R3 R4 R5 R6] [A1 A2 A3 A4 A5 [A6 A7]]. split; try done; [by rewrite A7|]. intros a. by rewrite A2.
Qed.

Lemma uffd_zero_alive ep ans lp page ret lp' : (ret, lp') = uffd_zero ep ans lp page 1 -> lp_exited lp' = false -> lp' = lp.
Proof.
  unfold uffd_zero, uffd_check_op_error, handle_exit. destruct ans as [|errno rc]; [by intros [= -> ->]|].
  destruct ((errno =? ENOSPC) || (errno =? ESRCH)); [destruct ep; cbn; intros [= -> ->]; done|].
  destruct (uffd_recoverable_error errno rc); cbn; by intros [= -> ->].
Qed.

Lemma run_post_done lp0 log lp ep ans img nr lp' al' addr n : run_post lp0 log lp -> find_req (lp_reqs lp) img <> None -> 0 <= nr -> copy_honest ans nr ->
  (forall req, req ∈ lp_reqs lp -> copy_honest ans ((li_end req - li_start req) / PAGE_SIZE)) ->
  uffd_io_complete [] ep ans lp img nr = (0, lp', al') -> lp_exited lp' = false ->
  lp_copied lp' = lp_copied lp ++ [(addr, n)] -> run_post lp0 (log ++ [(addr, img, n)]) lp'.
Proof.
  intros [R1 R2 R3 R4 R5 R6] Hfr Hnr Hh Hhr Hrun Hex Hcp.
  destruct (uffd_io_complete_spec [] ep ans lp img nr R1 R3 Hnr Hh Hhr) as (ret & lp1 & al1 & Hrun1 & _ & A & _).
  rewrite Hrun in Hrun1. injection Hrun1 as <- <- <-. destruct (find_req (lp_reqs lp) img) as [i|] eqn:Ef; [|done].
  destruct (A i eq_refl eq_refl Hex) as (req & m & L & Hi & Hm & _ & B1 & B2 & B3 & B4 & B5 & B6).
  rewrite B3 in Hcp. apply app_inj_2 in Hcp as [_ [= <- <-]]; [|done].
  destruct (mergeable_delete 0 _ _ i req (lk_reqs _ R1) L) as (P1 & _ & _ & _ & _ & P6). pose proof P1 as [O1 O2 _ _ _].
  assert (Hin : forall a, within (li_start req) (m * PAGE_SIZE) a = true -> owed lp a = Some (img + (a - li_start req))).
  { intros a Ha. apply withinP in Ha. pose proof (Z.mul_div_le (li_end req - li_start req) PAGE_SIZE ltac:(done)).
    unfold owed, union_of. rewrite P6, covers_in by (unfold PAGE_SIZE in *; lia). by rewrite Hi. }
  assert (Hna : forall a, within (li_start req) (m * PAGE_SIZE) a = true -> arrived log a = false).
  { intros a Ha. specialize (Hin a Ha). rewrite R4 in Hin. by destruct (arrived log a). }
  assert (Hsub : forall a, owed lp' a = None \/ owed lp' a = owed lp a) by (intros a; rewrite B6; case_match; auto).
  split; try done.
  - destruct R2 as [(pr & parents & Hp & Hok & Hs)]. split. exists pr, parents. rewrite B5. split_and!; try done.
    intros a im Ha Ho. apply (Hs a); [done|]. destruct (Hsub a) as [E|E]; congruence.
  - intros a. rewrite B6, R4, arrived_snoc. by destruct (arrived log a), (within (li_start req) (m * PAGE_SIZE) a).
  - apply Forall_app. split; [done|]. apply Forall_cons_2; [|apply Forall_nil_2]. intros a Ha. rewrite <- (Hin a Ha), R4, (Hna a Ha). done.
  - by apply copied_once_snoc.
Qed.

Lemma lp_run_ok lp0 log lp : lp_run lp0 log lp -> lpi_ok lp0 -> reader_serves lp0 -> lp_exited lp0 = false -> run_post lp0 log lp.
Proof.
  intros Hrun H1 H2 H3. induction Hrun as [|log lp ep ans fault ret lp' al' _ IH Hf Hh Hex|log lp ret lp' al' _ IH Hne Hx
    |log lp ep ans img nr lp' al' _ IH Hg Hd|log lp ep ans img nr lp' al' addr n _ IH Hfr Hnr Hho Hhr Hd Hex Hcp].
  - by split.
  - pose proof IH as [R1 R2 R3 R4 R5 R6]. destruct (handle_page_fault_spec [] ep ans lp fault R1 R2 Hf) as (r & l & al & Hrun1 & A & B & C).
    rewrite Hh in Hrun1. injection Hrun1 as <- <- <-. set (page := fault - fault mod PAGE_SIZE) in *.
    destruct (img_of (lp_reqs lp) page) as [v|] eqn:Eq; [destruct (A ltac:(done)) as [_ ->]; done|].
    destruct (owed lp page) as [img|] eqn:Eo; [by eapply run_post_same, C|].
    rewrite (uffd_zero_alive _ _ _ _ _ _ (B eq_refl) Hex). done.
  - pose proof IH as [R1 R2 R3 R4 R5 R6]. destruct (lp_iovs lp) as [|iov rest] eqn:El; [done|].
    destruct (xfer_pages_spec [] lp iov rest R1 R2 El) as (r & l & al & Hrun1 & A). rewrite Hx in Hrun1. injection Hrun1 as <- <- <-.
    destruct (A eq_refl) as (nr & Hp & _). by eapply run_post_same.
  - pose proof (rn_alive _ _ _ IH) as Ha. unfold uffd_io_complete in Hd. rewrite Ha, Hg in Hd. by injection Hd as <- <-.
  - by eapply run_post_done.
Qed.

(** C29. Nothing is lost, nothing arrives twice, everything arrives in its place.
    Let a restored process run with any sequence of page faults, background
    transfers and completed reads, of any length and in any order, with full,
    partial and failed copies.  At every moment the pages that are owed are
    exactly those owed at the start less those that were copied; every page
    copied to an address came from the dump-time address of that address; no
    address was copied to twice; and the lists are in order.  So when both lists
    are empty every page has arrived. *)
Theorem lazy_pages_conservation lp0 log lp : lp_run lp0 log lp -> lpi_ok lp0 -> reader_serves lp0 -> lp_exited lp0 = false ->
  run_post lp0 log lp /\
  (lp_iovs lp = [] -> lp_reqs lp = [] -> forall a, owed lp0 a <> None -> arrived log a = true).
Proof.
  intros Hrun H1 H2 H3. pose proof (lp_run_ok lp0 log lp Hrun H1 H2 H3) as Hp. split; [exact Hp|].
  intros E1 E2 a Ha. pose proof (rn_owed _ _ _ Hp a) as Ho. unfold owed at 1, union_of in Ho. rewrite E1, E2 in Ho. simpl in Ho.
  by destruct (arrived log a).
Qed.
End ReadOk.

(** ** Ranges that go away *)
Lemma handle_remove_spec al ep ans is_remove lp start stop : lpi_ok lp -> iovs_ok (lp_reqs lp) ->
  is_remove = false \/ ans = UffdOk -> 0 <= start <= stop -> stop < 2 ^ 63 -> stop - start < 2 ^ 31 ->
  (PAGE_SIZE | start) -> (PAGE_SIZE | stop) ->
  exists ret lp' al', handle_remove al ep ans is_remove lp start stop = (ret, lp', al') /\
    (ret = 0 -> lpi_ok lp' /\ iovs_ok (lp_reqs lp') /\
       forall a, owed lp' a = if within start (stop - start) a then None else owed lp a) /\
    (al = [] -> ret = 0).
Proof.
  intros Hok Hrq Hans Hr Hs Hl D1 D2. pose proof Hok as [K1 K2 K3 K4].
  assert (Hgo : handle_remove al ep ans is_remove lp start stop = drop_iovs al lp start (u64 (stop - start))).
  { unfold handle_remove. destruct is_remove; [|done]. destruct Hans as [Hx|Hx]; [done|by rewrite Hx]. }
  rewrite Hgo. unfold drop_iovs. rewrite u64_small, s32_small by lia.
  assert (D3 : (PAGE_SIZE | stop - start)) by (by apply Z.divide_sub_r).
  destruct (drop_iovs_spec al (lp_iovs lp) start (stop - start) K1) as (ok & iovs & al1 & -> & A1 & A2); try done; [lia|lia|lia|].
  destruct ok; cbn [negb]; [|eexists _, _, _; split; [done|]; split; [done|]; intros Ha; by destruct (A2 Ha)].
  destruct (A1 eq_refl) as [I1 I2 I3]. cbn [lp_reqs lp_iovs set_lists].
  destruct (drop_iovs_spec al1 (lp_reqs lp) start (stop - start) Hrq) as (ok & reqs & al2 & -> & B1 & B2); try done; [lia|lia|lia|].
  eexists _, _, _. split; [done|]. split; [|intros Ha; destruct (B2 (proj2 (A2 Ha))) as [-> _]; done].
  destruct ok; [|done]. intros _. destruct (B1 eq_refl) as [R1 R2 R3]. split; [|split; [done|]].
  - split; cbn [lp_reqs lp_iovs xfer_len set_lists]; try done; [|by apply R3]. apply (sorted_mergeable reqs iovs 0); [lia|done|].
    intros a Ha. rewrite R2 in Ha. rewrite I2. destruct (within start (stop - start) a); [done|].
    destruct (img_of (lp_iovs lp) a) eqn:E; [|done]. destruct Ha. apply (mergeable_apart 0 _ (lp_iovs lp)); [done|by rewrite E].
  - intros a. unfold owed, union_of. cbn [lp_reqs lp_iovs set_lists]. rewrite R2, I2. by destruct (within start (stop - start) a).
Qed.

(** C30. An unmapped or removed range is owed no longer, and nothing else
    changes, whichever requests and ranges it cuts, provided it is below 2 GiB
    and the requests are in ascending order.  (Both provisos are needed: see
    [unmap_misses_request] and [unmap_misses_large_range].) *)
Theorem handle_remove_exact al ep ans is_remove lp start stop : lpi_ok lp -> iovs_ok (lp_reqs lp) ->
  is_remove = false \/ ans = UffdOk -> 0 <= start <= stop -> stop < 2 ^ 63 -> stop - start < 2 ^ 31 ->
  (PAGE_SIZE | start) -> (PAGE_SIZE | stop) ->
  exists ret lp' al', handle_remove al ep ans is_remove lp start stop = (ret, lp', al') /\
    (ret = 0 -> lpi_ok lp' /\ iovs_ok (lp_reqs lp') /\
       forall a, owed lp' a = if within start (stop - start) a then None else owed lp a) /\
    (al = [] -> ret = 0).
Proof. apply handle_remove_spec. Qed.

(** ** Forks *)
Lemma copy_iovs_ok al src dst : lpi_ok src -> lp_iovs dst = [] -> lp_reqs dst = [] ->
  exists ret dst' al', copy_iovs al src dst = (ret, dst', al') /\ (al = [] -> ret = 0) /\
    (ret = 0 \/ ret = -1) /\
    (ret = 0 -> iovs_ok (lp_iovs dst') /\ lp_reqs dst' = [] /\ (forall a, img_of (lp_iovs dst') a = owed src a) /\
       dst' = Lpi (lp_exited dst) (lp_iovs dst') [] (xfer_len dst) (total_pages dst) (copied_pages dst) (buf_size src)
                (lp_pr dst) (lp_asked dst) (lp_copied dst)).
Proof.
  intros [K1 K2 _ _] E1 E2. unfold copy_iovs. rewrite E1, E2.
  destruct (copy_iov_list_ok (lp_iovs src) al []) as (ok & iovs & al1 & -> & A1 & A2).
  destruct ok; cbn [negb]; [|eexists _, _, _; split; [done|]; split; [intros Ha; by destruct (A2 Ha)|]; split; [by right|done]].
  cbn [lp_reqs lp_iovs set_lists]. destruct (copy_iov_list_ok (lp_reqs src) al1 []) as (ok & reqs & al2 & -> & B1 & B2).
  destruct ok; cbn [negb]; [|eexists _, _, _; split; [done|]; split; [intros Ha; by destruct (B2 (proj2 (A2 Ha)))|]; split; [by right|done]].
  cbn [lp_reqs lp_iovs set_lists]. rewrite (A1 eq_refl), (B1 eq_refl). cbn [app].
  destruct (merge_iov_lists_ok 0 (lp_reqs src) (lp_iovs src) K1 K2) as (l & -> & M1 & M2).
  destruct (xalloc al2) as [ok al3] eqn:Ea. destruct ok; cbn [negb].
  - eexists _, _, _. split; [done|]. split; [done|]. split; [by left|]. intros _. split_and!; try done.
  - eexists _, _, _. split; [done|]. split; [|split; [by right|done]]. intros Ha. destruct (B2 (proj2 (A2 Ha))) as [_ ->]. done.
Qed.

Lemma reset_pmes c : pmes <$> reset_pagemap c = pmes <$> c.
Proof. unfold reset_pagemap. by rewrite <- list_fmap_compose. Qed.
Lemma reset_cursors_ok c : Forall cursor_ok (reset_pagemap c).
Proof. unfold reset_pagemap. apply Forall_fmap, Forall_forall. intros pr _. apply reset_cursor_ok. Qed.

(** C31. A forked child is owed exactly what its parent is owed: what is in
    flight for the parent is to be transferred again for the child, merged in
    order with the rest.  The child starts with no request, with its reader
    rewound over the same pagemaps and deduplication off for both; the parent's
    lists do not change.  It fails only when memory is short, and then there is
    no child. *)
Theorem handle_fork_correct al root lp : lpi_ok lp ->
  exists ret child lp' al', handle_fork al root lp = (ret, child, lp', al') /\ (al = [] -> ret = 1) /\
    match child with
    | None => ret = -1 /\ lp' = lp
    | Some c =>
        ret = 1 /\ lpi_ok c /\ lp_reqs c = [] /\ (forall a, owed c a = owed lp a) /\
        pmes <$> lp_pr c = pmes <$> lp_pr (default lp root) /\ Forall cursor_ok (lp_pr c) /\
        Forall (fun pr => disable_dedup pr = true) (lp_pr c ++ lp_pr lp') /\
        total_pages c = total_pages (default lp root) /\ lp_iovs lp' = lp_iovs lp /\ lp_reqs lp' = lp_reqs lp
    end.
Proof.
  intros Hok. unfold handle_fork, lpi_init. destruct (xalloc al) as [ok al1] eqn:Ea. destruct ok; cbn [negb].
  2:{ eexists _, None, _, _. split; [done|]. split; [by intros ->|done]. }
  destruct (copy_iovs_ok al1 lp (Lpi false [] [] DEFAULT_XFER_LEN 0 0 0 [] [] []) Hok eq_refl eq_refl) as (ret & c & al2 & -> & A1 & A2 & A3).
  destruct A2 as [-> | ->]; cbn [Z.eqb negb].
  2:{ eexists _, None, _, _. split; [done|]. split; [|done]. intros ->. injection Ea as <-. specialize (A1 eq_refl). done. }
  destruct (A3 eq_refl) as (I1 & I2 & I3 & I4). set (from := default lp root).
  destruct (dup_page_read (lp_pr from)) as [src dst] eqn:Ed.
  assert (Hd : pmes <$> dst = pmes <$> lp_pr from /\ Forall cursor_ok dst).
  { unfold dup_page_read in Ed. destruct (lp_pr from) as [|pr ps]; apply pair_equal_spec in Ed as [<- <-]; [by split|].
    split; [by rewrite reset_pmes|apply reset_cursors_ok]. }
  destruct Hd as [Hd1 Hd2]. eexists _, (Some _), _, _. split; [done|]. split; [done|]. rewrite I4. cbn [lp_pr lp_iovs lp_reqs total_pages set_reader].
  split_and!; try done.
  - split; cbn [lp_iovs lp_reqs xfer_len]; try done. split; [done|]. apply Z.mod_divide; done.
  - rewrite <- Hd1. unfold page_read_disable_dedup. rewrite <- list_fmap_compose. done.
  - unfold page_read_disable_dedup. apply Forall_fmap. eapply Forall_impl; [exact Hd2|]. intros pr Hc.
    destruct Hc as [C1 C2 C3 C4|i pe k [C1 C2 C3 C4 C5] C6|i pe [C1 C2 C3 C4 C5] C6 C7];
      [by apply cursor_reset|by apply (cursor_at _ i pe k)|by apply (cursor_done _ i pe)].
  - unfold page_read_disable_dedup. apply Forall_app. split; apply Forall_fmap, Forall_forall; done.
Qed.

(** ** Examples *)
Definition sample_lazy_es : list pagemap_entry := [PagemapEntry 0x1000 9 false false true PE_PRESENT true 9 None].
Definition sample_lpi : lazy_pages_info :=
  Lpi false sample_lazy [] DEFAULT_XFER_LEN 6 0 0x4000
    [PageRead None 0 0 0 (BlkState 0 0 [] 0 0) (Iovec 0 0) sample_lazy_es (-1) [] false] [] [].
(** A reader that accepts every request. *)
Definition sample_read (c : list page_read) (addr nr : Z) : Z * list page_read := (1, c).

Lemma sample_lpi_ok : lpi_ok sample_lpi.
Proof. split; [exact sample_lazy_ok|done|apply Forall_nil_2|]. split; [done|]. apply Z.mod_divide; done. Qed.

Lemma sample_lazy_es_ok : pagemaps_ok sample_lazy_es.
Proof. unfold pagemaps_ok, sample_lazy_es. cbn. unfold entry_ok, entry_end, entry_stop, entry_start, entry_payload. cbn. split_and!; (done || lia). Qed.

Lemma sample_serves : reader_serves sample_lpi.
Proof.
  split. eexists _, []. split; [reflexivity|]. split; [exact sample_lazy_es_ok|]. intros a img Ha Ho.
  assert (img = a /\ 0x1000 <= a < 0xa000) as [-> Hr].
  { unfold owed, union_of in Ho. cbn [lp_reqs lp_iovs sample_lpi] in Ho. unfold sample_lazy in Ho. rewrite !img_of_head in Ho.
    destruct (covers (LazyIov 0x1000 0x5000 0x1000) a) eqn:E; [|destruct (covers (LazyIov 0x8000 0xa000 0x8000) a) eqn:E2; [|done]];
      cbn [img_of li_start img_start] in Ho; injection Ho as <-; [apply coversP in E|apply coversP in E2]; simpl in *; lia. }
  split; [|split; [lia|done]]. eexists. split; [apply list_elem_of_here|]. unfold in_entry, entry_end, PAGE_SIZE. simpl. lia.
Qed.

Definition sample_after_fault : lazy_pages_info :=
  match handle_page_fault sample_read [] true UffdOk sample_lpi 0x3123 with Ret (_, lp, _) => lp | _ => sample_lpi end.

Lemma handle_page_fault_correct_witness :
  exists lp', handle_page_fault sample_read [] true UffdOk sample_lpi 0x3123 = Ret (0, lp', []) /\ asked_post sample_lpi lp' 0x3000 0x3000 1.
Proof.
  destruct (handle_page_fault_correct sample_read (fun _ _ _ => eq_refl) [] true UffdOk sample_lpi 0x3123 sample_lpi_ok sample_serves ltac:(lia))
    as (ret & lp' & al' & Hrun & _ & _ & H).
  specialize (H 0x3000 eq_refl eq_refl eq_refl). exists lp'. split; [|exact H].
  rewrite Hrun. vm_compute in Hrun. injection Hrun as <- _ <-. reflexivity.
Defined.

(** A fault, its completion, a background transfer. *)
Lemma sample_run : exists lp, lp_run sample_read sample_lpi [(0x3000, 0x3000, 1)] lp /\ lp_asked lp = [(0x3000, 1); (0x1000, 2)].
Proof.
  assert (Hf : lp_run sample_read sample_lpi [] sample_after_fault).
  { eapply (run_fault sample_read sample_lpi [] sample_lpi true UffdOk 0x3123); [constructor|lia|vm_compute; reflexivity|reflexivity]. }
  assert (Hd : exists lp, uffd_io_complete [] true UffdOk sample_after_fault 0x3000 1 = (0, lp, []) /\ lp_exited lp = false /\
    lp_copied lp = [(0x3000, 1)] /\ lp_iovs lp <> [] /\
    match xfer_pages sample_read [] lp with Ret (_, lp', _) => lp_asked lp' = [(0x3000, 1); (0x1000, 2)] | _ => False end).
  { eexists. split; [vm_compute; reflexivity|]. split_and!; (done || vm_compute; reflexivity). }
  destruct Hd as (lp & Hd & Hex & Hc & Hne & Hx). destruct (xfer_pages sample_read [] lp) as [[[ret lp'] al']| |] eqn:Ex; try done.
  exists lp'. split; [|exact Hx]. eapply run_xfer; [|exact Hne|exact Ex].
  eapply (run_done sample_read sample_lpi [] sample_after_fault true UffdOk 0x3000 1 lp [] 0x3000 1); try done.
Qed.

Lemma lazy_pages_conservation_witness :
  exists lp, lp_asked lp = [(0x3000, 1); (0x1000, 2)] /\ run_post sample_lpi [(0x3000, 0x3000, 1)] lp.
Proof.
  destruct sample_run as (lp & Hrun & Ha). exists lp. split; [exact Ha|].
  destruct (lazy_pages_conservation sample_read (fun _ _ _ => eq_refl) sample_lpi _ lp Hrun sample_lpi_ok sample_serves eq_refl) as [H _]. exact H.
Defined.

Lemma handle_remove_exact_witness :
  exists lp', handle_remove [] true UffdOk true sample_lpi 0x2000 0x9000 = (0, lp', []) /\ lpi_ok lp' /\
    owed lp' 0x1000 = Some 0x1000 /\ owed lp' 0x4000 = None /\ owed lp' 0x9000 = Some 0x9000.
Proof.
  destruct (handle_remove_exact [] true UffdOk true sample_lpi 0x2000 0x9000 sample_lpi_ok) as (ret & lp' & al' & Hrun & H1 & H2);
    [done|by right|lia|lia|lia|apply Z.mod_divide; done|apply Z.mod_divide; done|].
  specialize (H2 eq_refl). subst ret. destruct (H1 eq_refl) as (K1 & _ & K2). exists lp'.
  split; [rewrite Hrun; vm_compute in Hrun; injection Hrun as _ <-; reflexivity|]. split; [exact K1|]. rewrite !K2. split_and!; reflexivity.
Defined.

Lemma handle_fork_correct_witness :
  exists c lp', handle_fork [] None sample_after_fault = (1, Some c, lp', []) /\ lp_reqs c = [] /\ owed c 0x3000 = Some 0x3000.
Proof.
  assert (Hok : lpi_ok sample_after_fault).
  { destruct (handle_page_fault_spec sample_read (fun _ _ _ => eq_refl) [] true UffdOk sample_lpi 0x3123 sample_lpi_ok sample_serves ltac:(lia))
      as (ret & lp' & al' & Hrun & _ & _ & H). unfold sample_after_fault. rewrite Hrun. apply (H 0x3000); reflexivity. }
  destruct (handle_fork_correct [] None sample_after_fault Hok) as (ret & child & lp' & al' & Hrun & H1 & H2). specialize (H1 eq_refl). subst ret.
  destruct child as [c|]; [|by destruct H2]. destruct H2 as (_ & _ & H3 & H4 & _). exists c, lp'.
  split; [rewrite Hrun; vm_compute in Hrun; injection Hrun as _ _ <-; reflexivity|]. split; [exact H3|]. rewrite H4. reflexivity.
Defined.

(** ** What the code misses *)
Definition fault_on (lp : lazy_pages_info) (a : Z) : lazy_pages_info :=
  match handle_page_fault sample_read [] true UffdOk lp a with Ret (_, lp, _) => lp | _ => lp end.

(** Requests are put in front of the list, so that two faults in ascending order
    leave it in descending order; [__drop_iovs] stops at the first element
    behind the range, and an unmapped page stays in flight. *)
Lemma unmap_misses_request :
  let lp := fault_on (fault_on sample_lpi 0x1000) 0x9000 in
  exists lp', handle_remove [] true UffdOk false lp 0x1000 0x2000 = (0, lp', []) /\ owed lp' 0x1000 = Some 0x1000.
Proof. eexists. split; vm_compute; reflexivity. Qed.

(** The length is an [int]: of an unmapped range of 4 GiB nothing is dropped. *)
Lemma unmap_misses_large_range :
  exists lp', handle_remove [] true UffdOk false sample_lpi 0x1000 (0x1000 + 2 ^ 32) = (0, lp', []) /\ lp_iovs lp' = lp_iovs sample_lpi.
Proof. eexists. split; vm_compute; reflexivity. Qed.

(** A request whose first page is unmapped while it is in flight is not found
    when its data arrive: it stays in the list of requests for good, and faults
    on its pages are taken for queued. *)
Lemma unmap_head_strands_request :
  let lp := match xfer_pages sample_read [] sample_lpi with Ret (_, lp, _) => lp | _ => sample_lpi end in
  let lp1 := snd (fst (handle_remove [] true UffdOk false lp 0x1000 0x2000)) in
  lp_asked lp = [(0x1000, 4)] /\
  uffd_io_complete [] true UffdOk lp1 0x1000 4 = (0, lp1, []) /\ owed lp1 0x3000 = Some 0x3000 /\
  handle_page_fault sample_read [] true UffdOk lp1 0x3000 = Ret (0, lp1, []).
Proof. split_and!; vm_compute; reflexivity. Qed.
