(* ===== verification/LazyCollect.v ===== *)
(** Which pages of a restored process are lazy: [collect_iovs] of criu/uffd.c.

    The pagemap is walked with the reader's [advance] and, in step with it, the
    list of VMAs; what the two loops share is [collect_state].  The VMAs come
    from the mm image, which is not modelled. *)
From S2P Require Import Prelude PagemapImage PageRead ReadOps LazyIovs LazyPages.

Record vma_entry := VmaEntry { vma_start : Z; vma_end : Z }.

Record collect_state := CollectState {
  cs_vmas : list vma_entry;         (** from [n_vma] on *)
  cs_iovs : list lazy_iov;
  cs_max : Z;                       (** max_iov_len, an [int] *)
  cs_pages : Z
}.

(** The loop over the VMAs for the pages [start] to [stop] of an entry. *)
Fixpoint collect_vmas (al : list bool) (vmas : list vma_entry) (start stop : Z) (iovs : list lazy_iov) (max : Z)
    : bool * list vma_entry * list lazy_iov * Z * list bool :=
  match vmas with
  | [] => (true, [], iovs, max, al)
  | vma :: rest =>
      if start >=? vma_end vma then collect_vmas al rest start stop iovs max
      else
        let '(ok, al) := xalloc al in
        if negb ok then (false, vmas, iovs, max, al)
        else
          let len := u64 (Z.min stop (vma_end vma) - start) in
          let iovs := iovs ++ [LazyIov start (u64 (start + len)) start] in
          let max := if len >? u64 max then s32 len else max in
          if stop <=? vma_end vma then (true, vmas, iovs, max, al)
          else collect_vmas al rest (vma_end vma) stop iovs max
  end.

Fixpoint collect_loop (fuel : nat) (al : list bool) (pr : page_read) (cs : collect_state)
    : outcome (bool * page_read * collect_state * list bool) :=
  match fuel with
  | O => NoFuel
  | S fuel =>
      let '(more, pr) := advance pr in
      if more =? 0 then Ret (true, pr, cs, al)
      else
        match pr_pe pr with
        | None => Bug
        | Some pe =>
            if negb (pagemap_lazy pe) then collect_loop fuel al pr cs
            else
              let start := pe_vaddr pe in
              let stop := u64 (start + pe_nr_pages pe * PAGE_SIZE) in
              let pages := u64 (cs_pages cs + pe_nr_pages pe) in
              let '(ok, vmas, iovs, max, al) := collect_vmas al (cs_vmas cs) start stop (cs_iovs cs) (cs_max cs) in
              let cs := CollectState vmas iovs max pages in
              if negb ok then Ret (false, pr, cs, al) else collect_loop fuel al pr cs
        end
  end.

(** [vmas]: what [init_mm_entry] read, if it could. *)
Definition collect_iovs (al : list bool) (vmas : option (list vma_entry)) (lp : lazy_pages_info) : outcome (Z * lazy_pages_info * list bool) :=
  match vmas, lp_pr lp with
  | None, _ => Ret (-1, lp, al)
  | _, [] => Bug
  | Some vmas, pr :: parents =>
      let! (ok, pr, cs, al) := collect_loop (S (length (pmes pr))) al pr (CollectState vmas (lp_iovs lp) 0 0) in
      let lp := set_lists (cs_iovs cs) (lp_reqs lp) (set_reader (pr :: parents) lp) in
      if negb ok then Ret (-1, free_iovs lp, al)
      else
        let lp := Lpi (lp_exited lp) (lp_iovs lp) (lp_reqs lp) (xfer_len lp) (total_pages lp) (copied_pages lp) (u64 (cs_max cs))
                    (lp_pr lp) (lp_asked lp) (lp_copied lp) in
        let '(ok, al) := xalloc al in
        if negb ok then Ret (-1, free_iovs lp, al) else Ret (s32 (cs_pages cs), lp, al)
  end.

(** ** The loop over the VMAs *)
Fixpoint vmas_ok (lo : Z) (vmas : list vma_entry) : Prop :=
  match vmas with
  | [] => True
  | v :: vmas => lo <= vma_start v /\ vma_start v < vma_end v /\ (PAGE_SIZE | vma_end v) /\ vmas_ok (vma_end v) vmas
  end.

Definition in_vma (v : vma_entry) (a : Z) : Prop := vma_start v <= a < vma_end v.
Definition mapped (vmas : list vma_entry) (a : Z) : Prop := exists v, v ∈ vmas /\ in_vma v a.

(** UFFDIO_COPY works inside one VMA. *)
Definition inside_one (vmas : list vma_entry) (iov : lazy_iov) : Prop :=
  exists v, v ∈ vmas /\ vma_start v <= li_start iov /\ li_end iov <= vma_end v.

Lemma vmas_ok_mono lo lo' l : lo' <= lo -> vmas_ok lo l -> vmas_ok lo' l.
Proof. destruct l; [done|]. intros Hle (H1 & H2). split; [lia|done]. Qed.

Lemma vmas_ok_above lo l v : vmas_ok lo l -> v ∈ l -> lo <= vma_start v.
Proof.
  revert lo. induction l as [|w l IH]; intros lo Hok Hin; [by apply not_elem_of_nil in Hin|]. destruct Hok as (H1 & H2 & _ & H3).
  apply elem_of_cons in Hin as [->|Hin]; [done|]. specialize (IH _ H3 Hin). lia.
Qed.

Lemma mapped_cons lo v l a : vmas_ok lo (v :: l) -> mapped (v :: l) a -> (a < vma_end v -> vma_start v <= a) /\ (vma_end v <= a -> mapped l a).
Proof.
  intros (H1 & H2 & _ & H3) (w & Hw & Ha). apply elem_of_cons in Hw as [->|Hw]; unfold in_vma in Ha.
  - split; [lia|]. intros. lia.
  - pose proof (vmas_ok_above _ _ _ H3 Hw). split; [lia|]. intros _. by exists w.
Qed.

(** What the loop adds for an entry. *)
Record collected (all vmas : list vma_entry) (start stop max : Z) (vmas' : list vma_entry) (new : list lazy_iov) (max' : Z) : Prop := Collected {
  cl_sorted : sorted_from start new;
  cl_bound : Forall (fun x => li_end x <= stop) new;
  cl_img : forall a, img_of new a = if within start (stop - start) a then Some a else None;
  cl_one : Forall (inside_one all) new;
  cl_max : max <= max' < 2 ^ 31 /\ Forall (fun x => li_end x - li_start x <= max') new;
  cl_vmas : exists dn, vmas = dn ++ vmas' /\ Forall (fun v => vma_end v <= stop) dn
}.

Lemma collect_vmas_ok all stop : stop < 2 ^ 63 -> (PAGE_SIZE | stop) ->
  forall vmas al lo start iovs max, vmas_ok lo vmas -> (forall v, v ∈ vmas -> v ∈ all) ->
  0 < start < stop -> stop - start < 2 ^ 31 -> (PAGE_SIZE | start) -> 0 <= max < 2 ^ 31 ->
  (forall a, start <= a < stop -> mapped vmas a) ->
  exists ok vmas' iovs' max' al', collect_vmas al vmas start stop iovs max = (ok, vmas', iovs', max', al') /\
    (ok = true -> exists new, iovs' = iovs ++ new /\ collected all vmas start stop max vmas' new max') /\ (al = [] -> ok = true /\ al' = []).
Proof.
  intros Hs63 Dstop. induction vmas as [|v vmas IH]; intros al lo start iovs max Hok Hall Hr Hsz Ds Hmax Hmap.
  { destruct (Hmap start ltac:(lia)) as (v & Hv & _). by apply not_elem_of_nil in Hv. }
  cbn [collect_vmas]. rewrite Z.geb_leb, Z.gtb_ltb. pose proof Hok as (V1 & V2 & V3 & V4).
  assert (Hrest : forall w, w ∈ vmas -> w ∈ all) by (intros w Hw; apply Hall; by apply list_elem_of_further).
  destruct (Z.leb_spec (vma_end v) start) as [Hskip|Hin].
  { destruct (IH al (vma_end v) start iovs max V4 Hrest Hr Hsz Ds Hmax) as (ok & vmas' & iovs' & max' & al' & -> & A & B).
    { intros a Ha. destruct (mapped_cons lo v vmas a Hok (Hmap a Ha)) as [_ H]. apply H. lia. }
    eexists _, _, _, _, _. split; [done|]. split; [|done]. intros Hd. destruct (A Hd) as (new & -> & [C1 C2 C3 C4 C5 (dn & -> & C6)]).
    exists new. split; [done|]. split; try done. exists (v :: dn). split; [done|]. apply Forall_cons_2; [lia|done]. }
  destruct (mapped_cons lo v vmas start Hok (Hmap start ltac:(lia))) as [Hst _]. specialize (Hst Hin).
  destruct (xalloc al) as [ok al1] eqn:Eal. assert (Hal : al = [] -> ok = true /\ al1 = []) by (intros ->; by injection Eal as <- <-).
  destruct ok; cbn [negb]; [|eexists _, _, _, _, _; split; [done|]; split; [done|]; intros Hn; by destruct (Hal Hn)].
  set (fin := Z.min stop (vma_end v)). assert (Hfin : start < fin <= stop) by (unfold fin; lia).
  rewrite (u64_small (fin - start)), (u64_small max) by lia. replace (start + (fin - start)) with fin by lia. rewrite (u64_small fin) by lia.
  assert (Hlazy : lazy_ok (LazyIov start fin start)).
  { split; cbn [li_start li_end img_start]; try lia. split_and!; try done. unfold fin. by destruct (Z.min_dec stop (vma_end v)) as [-> | ->]. }
  assert (Hone : inside_one all (LazyIov start fin start)).
  { exists v. split; [apply Hall, list_elem_of_here|]. unfold fin. simpl. lia. }
  set (max1 := if max <? fin - start then s32 (fin - start) else max).
  assert (Hm1 : max <= max1 < 2 ^ 31 /\ fin - start <= max1).
  { unfold max1. destruct (Z.ltb_spec max (fin - start)); [rewrite s32_small by lia|]; lia. }
  destruct (Z.leb_spec stop (vma_end v)) as [Hlast|Hmore].
  { assert (fin = stop) as Ef by (unfold fin; lia). eexists _, _, _, _, _. split; [done|]. split; [|intros Hn; by destruct (Hal Hn)].
    intros _. eexists. split; [done|]. rewrite Ef in *. split.
    - cbn [sorted_from]. split_and!; [simpl; lia|done|done].
    - apply Forall_cons_2; [simpl; lia|apply Forall_nil_2].
    - intros a. rewrite img_of_head. decide_covers; cbn in *; try lia; try done. f_equal. lia.
    - apply Forall_cons_2; [done|apply Forall_nil_2].
    - split; [lia|]. apply Forall_cons_2; [simpl; lia|apply Forall_nil_2].
    - exists []. split; [done|apply Forall_nil_2]. }
  assert (fin = vma_end v) as Ef by (unfold fin; lia).
  destruct (IH al1 (vma_end v) (vma_end v) (iovs ++ [LazyIov start fin start]) max1 V4 Hrest) as (ok & vmas' & iovs' & max' & al' & -> & A & B);
    try lia; try done.
  { intros a Ha. destruct (mapped_cons lo v vmas a Hok (Hmap a ltac:(lia))) as [_ H]. apply H. lia. }
  eexists _, _, _, _, _. split; [done|]. split; [|intros Hn; apply B, Hal, Hn].
  intros Hd. destruct (A Hd) as (new & -> & [C1 C2 C3 C4 [C5 C5'] (dn & -> & C6)]). exists (LazyIov start fin start :: new).
  split; [by rewrite <- app_assoc|]. split.
  - cbn [sorted_from]. split_and!; [simpl; lia|done|simpl; by rewrite Ef].
  - apply Forall_cons_2; [simpl; lia|done].
  - intros a. rewrite img_of_head, C3. decide_covers; cbn in *; try lia; try done. f_equal. lia.
  - by apply Forall_cons_2.
  - split; [lia|]. apply Forall_cons_2; [simpl; lia|done].
  - exists (v :: dn). split; [done|]. apply Forall_cons_2; [lia|done].
Qed.

(** ** The loop over the pagemap *)

Definition lazy_page (l : list pagemap_entry) (a : Z) : bool :=
  existsb (fun pe => pagemap_lazy pe && within (pe_vaddr pe) (entry_end pe - pe_vaddr pe) a) l.
Definition lazy_pages (l : list pagemap_entry) : Z := zsum ((fun pe => if pagemap_lazy pe then pe_nr_pages pe else 0) <$> l).

(** The lazy entries lie in VMAs, at user addresses, and are below 2 GiB each. *)
Definition lazy_mapped (vmas : list vma_entry) (l : list pagemap_entry) : Prop :=
  Forall (fun pe => pagemap_lazy pe = true ->
    0 < pe_vaddr pe /\ entry_end pe < 2 ^ 63 /\ entry_end pe - pe_vaddr pe < 2 ^ 31 /\
    forall a, pe_vaddr pe <= a < entry_end pe -> mapped vmas a) l.

Record collect_ok (all : list vma_entry) (cur : Z) (seen : list pagemap_entry) (cs : collect_state) : Prop := CollectOk {
  co_iovs : sorted_from 0 (cs_iovs cs);
  co_bound : Forall (fun x => li_end x <= cur) (cs_iovs cs);
  co_img : forall a, img_of (cs_iovs cs) a = if lazy_page seen a then Some a else None;
  co_one : Forall (inside_one all) (cs_iovs cs);
  co_max : 0 <= cs_max cs < 2 ^ 31 /\ Forall (fun x => li_end x - li_start x <= cs_max cs) (cs_iovs cs);
  co_pages : cs_pages cs = lazy_pages seen;
  co_vmas : (exists lo, vmas_ok lo (cs_vmas cs)) /\ forall v, v ∈ cs_vmas cs -> v ∈ all
}.

Lemma lazy_page_snoc seen pe a : lazy_page (seen ++ [pe]) a = lazy_page seen a || (pagemap_lazy pe && within (pe_vaddr pe) (entry_end pe - pe_vaddr pe) a).
Proof. unfold lazy_page. rewrite existsb_app. simpl. by rewrite orb_false_r. Qed.
Lemma lazy_pages_snoc seen pe : lazy_pages (seen ++ [pe]) = lazy_pages seen + (if pagemap_lazy pe then pe_nr_pages pe else 0).
Proof. unfold lazy_pages. rewrite fmap_app, zsum_app. simpl. lia. Qed.

Lemma vmas_ok_suffix dn vs : forall lo, vmas_ok lo (dn ++ vs) -> exists lo', vmas_ok lo' vs.
Proof. induction dn as [|v dn IH]; intros lo H; [by exists lo|]. destruct H as (_ & _ & _ & H). by apply (IH (vma_end v)). Qed.

Lemma mapped_suffix dn vs a stop : Forall (fun v => vma_end v <= stop) dn -> stop <= a -> mapped (dn ++ vs) a -> mapped vs a.
Proof.
  intros Hd Ha (v & Hv & Hin). apply elem_of_app in Hv as [Hv|Hv]; [|by exists v]. rewrite Forall_forall in Hd.
  specialize (Hd v Hv). unfold in_vma in Hin. lia.
Qed.

(** One lazy entry. *)
Lemma collect_entry_ok all al seen pe cur cs : entry_ok pe -> pagemap_lazy pe = true -> cur <= pe_vaddr pe ->
  0 < pe_vaddr pe -> entry_end pe < 2 ^ 63 -> entry_end pe - pe_vaddr pe < 2 ^ 31 ->
  (forall a, pe_vaddr pe <= a < entry_end pe -> mapped (cs_vmas cs) a) -> 0 <= cur ->
  collect_ok all cur seen cs -> lazy_pages (seen ++ [pe]) < 2 ^ 31 -> 0 <= lazy_pages seen ->
  exists ok vmas iovs max al', collect_vmas al (cs_vmas cs) (pe_vaddr pe) (u64 (pe_vaddr pe + pe_nr_pages pe * PAGE_SIZE)) (cs_iovs cs) (cs_max cs)
      = (ok, vmas, iovs, max, al') /\
    (ok = true -> collect_ok all (entry_end pe) (seen ++ [pe]) (CollectState vmas iovs max (u64 (cs_pages cs + pe_nr_pages pe))) /\
       exists dn, cs_vmas cs = dn ++ vmas /\ Forall (fun v => vma_end v <= entry_end pe) dn) /\ (al = [] -> ok = true /\ al' = []).
Proof.
  intros Hpe Hlz Hcur Hv Hend Hsz Hmap Hc0 [O1 O2 O3 O4 [O5 O5'] O6 [[lo O7] O8]] Hpg Hpg0.
  destruct Hpe as (_ & _ & Ha & _ & Hn & _). change (pe_vaddr pe + pe_nr_pages pe * PAGE_SIZE) with (entry_end pe).
  assert (Hlt : pe_vaddr pe < entry_end pe) by (unfold entry_end, PAGE_SIZE; lia).
  assert (D1 : (PAGE_SIZE | pe_vaddr pe)) by (by apply Z.mod_divide). rewrite u64_small by lia.
  assert (D2 : (PAGE_SIZE | entry_end pe)) by (unfold entry_end; apply Z.divide_add_r; [done|apply Z.divide_factor_r]).
  destruct (collect_vmas_ok all (entry_end pe) Hend D2 (cs_vmas cs) al lo (pe_vaddr pe) (cs_iovs cs) (cs_max cs) O7 O8)
    as (ok & vmas & iovs & max & al' & -> & A & B); try done.
  eexists _, _, _, _, _. split; [done|]. split; [|done]. intros Hok.
  destruct (A Hok) as (new & -> & [C1 C2 C3 C4 [C5 C5'] (dn & Hdn & C6)]). split; [|by exists dn].
  assert (Hfa : forall n m l, n <= m -> Forall (fun x => li_end x - li_start x <= n) l -> Forall (fun x => li_end x - li_start x <= m) l).
  { intros n m l Hle Hf. eapply Forall_impl; [exact Hf|]. intros x Hx. simpl in Hx. lia. }
  split; cbn [cs_iovs cs_max cs_pages cs_vmas].
  - apply (sorted_prepend (pe_vaddr pe)); [done| |done|lia]. eapply Forall_impl; [exact O2|]. intros x Hx. simpl in Hx. lia.
  - apply Forall_app. split; [|done]. eapply Forall_impl; [exact O2|]. intros x Hx. simpl in Hx. lia.
  - intros a. rewrite img_of_app, O3, C3, lazy_page_snoc, Hlz. cbn [andb]. by destruct (lazy_page seen a).
  - by apply Forall_app.
  - split; [lia|]. apply Forall_app. split; [apply (Hfa (cs_max cs)); [lia|done]|done].
  - rewrite lazy_pages_snoc, Hlz in Hpg |- *. rewrite O6. apply u64_small. lia.
  - rewrite Hdn in O7, O8. split; [by apply (vmas_ok_suffix dn vmas lo)|]. intros v Hv'. apply O8. apply elem_of_app. by right.
Qed.

Lemma lazy_pages_nonneg prev off l : pagemaps_ok_from prev off l -> 0 <= lazy_pages l.
Proof.
  revert prev off. induction l as [|pe l IH]; intros prev off H; [done|]. destruct H as ((_ & _ & _ & _ & Hn & _) & _ & _ & H).
  specialize (IH _ _ H). unfold lazy_pages in *. rewrite fmap_cons, zsum_cons. case_match; lia.
Qed.
Lemma lazy_pages_app l1 l2 : lazy_pages (l1 ++ l2) = lazy_pages l1 + lazy_pages l2.
Proof. unfold lazy_pages. by rewrite fmap_app, zsum_app. Qed.

Lemma collect_loop_ok all todo : forall fuel al pr seen cur off cs, (length todo < fuel)%nat ->
  walking pr (seen ++ todo) (length seen) -> pagemaps_ok_from cur off todo -> 0 <= cur -> 0 <= lazy_pages seen ->
  lazy_pages (seen ++ todo) < 2 ^ 31 -> lazy_mapped (cs_vmas cs) todo -> collect_ok all cur seen cs ->
  exists ok pr' cs' al', collect_loop fuel al pr cs = Ret (ok, pr', cs', al') /\ pmes pr' = seen ++ todo /\
    (ok = true -> exists cur', collect_ok all cur' (seen ++ todo) cs') /\ (al = [] -> ok = true /\ al' = []).
Proof.
  induction todo as [|pe todo IH]; intros fuel al pr seen cur off cs Hf Hw Hpm Hc0 Hpos Hpg Hlm Hco;
    (destruct fuel as [|fuel]; [simpl in Hf; lia|]); cbn [collect_loop].
  { rewrite app_nil_r in *. destruct (walk_end pr seen Hw) as (pr' & -> & Hp). cbn [Z.eqb].
    eexists _, _, _, _. split; [done|]. split; [done|]. split; [by exists cur|done]. }
  assert (L : (seen ++ pe :: todo) !! length seen = Some pe) by (by rewrite lookup_app_r, Nat.sub_diag by lia).
  destruct (walk_next pr _ _ pe Hw L) as (pr' & -> & Hpe & Hw'). cbn [Z.eqb]. rewrite Hpe. clear Hw.
  assert (Hl : seen ++ pe :: todo = (seen ++ [pe]) ++ todo) by (by rewrite <- app_assoc).
  rewrite Hl in *. assert (Hlen : S (length seen) = length (seen ++ [pe])) by (rewrite length_app; simpl; lia). rewrite Hlen in Hw'.
  destruct Hpm as (P1 & P2 & P3 & P4). apply Forall_cons_1 in Hlm as [M1 M2]. pose proof P1 as (_ & _ & _ & Hv0 & Hn & _).
  assert (He0 : cur <= entry_end pe) by (unfold entry_end, PAGE_SIZE; lia).
  assert (Hpos' : 0 <= lazy_pages (seen ++ [pe])) by (rewrite lazy_pages_snoc; case_match; lia).
  pose proof (lazy_pages_nonneg _ _ _ P4) as Hrest. simpl in Hf. destruct (pagemap_lazy pe) eqn:Elz; cbn [negb].
  - destruct (M1 eq_refl) as (V1 & V2 & V3 & V4). rewrite lazy_pages_app in Hpg.
    destruct (collect_entry_ok all al seen pe cur cs) as (ok & vmas & iovs & max & al1 & -> & A & B); try done; [lia|].
    destruct ok; cbn [negb]; [|eexists _, _, _, _; split; [done|]; split; [apply (wk_pmes _ _ _ Hw')|]; split; [done|]; intros Hn'; by destruct (B Hn')].
    destruct (A eq_refl) as (Hco' & dn & Hdn & Hdn2).
    destruct (IH fuel al1 pr' (seen ++ [pe]) (entry_end pe) (entry_stop pe off) (CollectState vmas iovs max (u64 (cs_pages cs + pe_nr_pages pe))))
      as (ok & pr2 & cs2 & al2 & -> & B1 & B2 & B3); try done; [lia|lia|by rewrite lazy_pages_app| |].
    { cbn [cs_vmas]. rewrite Hdn in M2. clear - M2 Hdn2 P4. revert M2 P4. generalize (entry_stop pe off). revert Hdn2. generalize (entry_end pe).
      induction todo as [|q todo IH]; intros b Hdn2 o M2 P4; [apply Forall_nil_2|]. apply Forall_cons_1 in M2 as [M1 M2]. destruct P4 as (Q1 & Q2 & _ & Q4).
      pose proof Q1 as (_ & _ & _ & _ & Hn & _). apply Forall_cons_2.
      - intros Hz. destruct (M1 Hz) as (V1 & V2 & V3 & V4). split_and!; try done. intros a Ha. apply (mapped_suffix dn vmas a b); [done|lia|by apply V4].
      - eapply (IH (entry_end q)); [|exact M2|exact Q4]. eapply Forall_impl; [exact Hdn2|]. intros v Hv. simpl in Hv. unfold entry_end, PAGE_SIZE in *. lia. }
    eexists _, _, _, _. split; [done|]. split; [done|]. split; [done|]. intros Hn'. apply B3, B, Hn'.
  - destruct (IH fuel al pr' (seen ++ [pe]) (entry_end pe) (entry_stop pe off) cs) as (ok & pr2 & cs2 & al2 & -> & B1 & B2 & B3); try done; [lia|lia| |].
    { destruct Hco as [O1 O2 O3 O4 O5 O6 O7]. split; try done.
      - eapply Forall_impl; [exact O2|]. intros x Hx. simpl in Hx. lia.
      - intros a. by rewrite O3, lazy_page_snoc, Elz, orb_false_r.
      - rewrite O6, lazy_pages_snoc, Elz. lia. }
    eexists _, _, _, _. split; [done|]. by split_and!.
Qed.

(** C32. The lazy pages of a process are found completely.  For a well-formed
    pagemap whose lazy entries lie in the VMAs, [collect_iovs] returns the
    number of lazy pages, and the list it builds is ascending and disjoint,
    leads every lazy address to itself and no other address anywhere, has no
    element that crosses a VMA boundary (adjacent VMAs split an entry) and no
    element longer than the buffer.  It fails only when memory is short. *)
Theorem collect_iovs_correct al vmas lp pr parents : lp_pr lp = pr :: parents -> lp_iovs lp = [] ->
  walking pr (pmes pr) 0 -> pagemaps_ok (pmes pr) -> (exists lo, vmas_ok lo vmas) -> lazy_mapped vmas (pmes pr) -> lazy_pages (pmes pr) < 2 ^ 31 ->
  exists ret lp' al', collect_iovs al (Some vmas) lp = Ret (ret, lp', al') /\ (al = [] -> ret <> -1) /\
    (ret <> -1 -> ret = lazy_pages (pmes pr) /\ iovs_ok (lp_iovs lp') /\
       (forall a, img_of (lp_iovs lp') a = if lazy_page (pmes pr) a then Some a else None) /\
       Forall (inside_one vmas) (lp_iovs lp') /\ Forall (fun x => li_end x - li_start x <= buf_size lp') (lp_iovs lp')).
Proof.
  intros Hpr Hi Hw Hpm Hv Hlm Hpg. unfold collect_iovs. rewrite Hpr, Hi. pose proof (lazy_pages_nonneg _ _ _ Hpm) as Hp0.
  destruct (collect_loop_ok vmas (pmes pr) (S (length (pmes pr))) al pr [] 0 0 (CollectState vmas [] 0 0)) as (ok & pr' & cs & al' & -> & _ & A & B);
    try done; try lia.
  cbn [obind]. destruct ok; cbn [negb].
  2:{ eexists _, _, _. split; [done|]. split; [intros Hn; by destruct (B Hn)|done]. }
  destruct (A eq_refl) as (cur' & [O1 O2 O3 O4 [O5 O5'] O6 O7]). destruct (xalloc al') as [ok al2] eqn:Eal. destruct ok; cbn [negb].
  2:{ eexists _, _, _. split; [done|]. split; [intros Hn; destruct (B Hn) as [_ ->]; done|done]. }
  cbn [app] in *. rewrite O6, s32_small by lia. eexists _, _, _. split; [done|]. split; [intros _; lia|]. intros _.
  cbn [lp_iovs buf_size set_lists]. rewrite u64_small by lia. by split_and!.
Qed.

(** Two adjacent VMAs under one lazy entry, an entry that is not lazy, another lazy one. *)
Definition sample_collect_es : list pagemap_entry :=
  [PagemapEntry 0x1000 4 false false true PE_LAZY true 4 None; PagemapEntry 0x5000 1 false false true PE_PRESENT true 1 None;
   PagemapEntry 0x8000 2 false false true PE_LAZY true 2 None].
Definition sample_vmas : list vma_entry := [VmaEntry 0x1000 0x3000; VmaEntry 0x3000 0x6000; VmaEntry 0x8000 0xa000].
Definition sample_collect_pr : page_read := PageRead None 0 0 0 (BlkState 0 0 [] 0 0) (Iovec 0 0) sample_collect_es (-1) [] false.
Definition sample_collect_lpi : lazy_pages_info := Lpi false [] [] DEFAULT_XFER_LEN 0 0 0 [sample_collect_pr] [] [].

Lemma sample_collect_es_ok : pagemaps_ok sample_collect_es.
Proof. unfold pagemaps_ok, sample_collect_es. cbn. unfold entry_ok, entry_end, entry_stop, entry_start, entry_payload. cbn. split_and!; (done || lia). Qed.

Lemma sample_mapped : lazy_mapped sample_vmas sample_collect_es.
Proof.
  assert (Hm : forall v, v ∈ sample_vmas -> forall a, in_vma v a -> mapped sample_vmas a) by (intros v Hv a Ha; by exists v).
  assert (Hs : forall a, 0x1000 <= a < 0x6000 \/ 0x8000 <= a < 0xa000 -> mapped sample_vmas a).
  { intros a Ha. destruct (Z.lt_ge_cases a 0x3000); [apply (Hm (VmaEntry 0x1000 0x3000)); [apply list_elem_of_here|unfold in_vma; simpl; lia]|].
    destruct (Z.lt_ge_cases a 0x6000); [apply (Hm (VmaEntry 0x3000 0x6000)); [apply list_elem_of_further, list_elem_of_here|unfold in_vma; simpl; lia]|].
    apply (Hm (VmaEntry 0x8000 0xa000)); [apply list_elem_of_further, list_elem_of_further, list_elem_of_here|unfold in_vma; simpl; lia]. }
  unfold lazy_mapped, sample_collect_es.
  repeat (apply Forall_cons_2; [intros _; unfold entry_end, PAGE_SIZE; simpl; split_and!; try lia; intros a Ha; apply Hs; lia|]). apply Forall_nil_2.
Qed.

Lemma collect_iovs_correct_witness :
  exists lp', collect_iovs [] (Some sample_vmas) sample_collect_lpi = Ret (6, lp', []) /\ iovs_ok (lp_iovs lp') /\
    img_of (lp_iovs lp') 0x3000 = Some 0x3000 /\ img_of (lp_iovs lp') 0x5000 = None /\ length (lp_iovs lp') = 3%nat.
Proof.
  destruct (collect_iovs_correct [] sample_vmas sample_collect_lpi sample_collect_pr [] eq_refl eq_refl) as (ret & lp' & al' & Hrun & H1 & H2).
  - by split.
  - exact sample_collect_es_ok.
  - exists 0. cbn. split_and!; try lia; apply Z.mod_divide; done.
  - exact sample_mapped.
  - reflexivity.
  - destruct (H2 (H1 eq_refl)) as (-> & H3 & H4 & _). exists lp'.
    assert (Hc : al' = [] /\ length (lp_iovs lp') = 3%nat) by (vm_compute in Hrun; injection Hrun as <- <-; by split).
    destruct Hc as [-> Hc]. split; [exact Hrun|]. split; [exact H3|]. rewrite !H4. split_and!; [reflexivity|reflexivity|exact Hc].
Defined.
